(* ===== verification/_CoqProject ===== *)
-Q . S2P
Prelude.v
EvlList.v
NvPairs.v
LogRecord.v
FacNames.v
FacReg.v
Hosts.v
MemStr.v
Query.v
QNormalize.v
QOptimize.v
QEvaluate.v
QueryCorrect.v
QNormCorrect.v
QSamples.v
QueryApi.v
Files.v
LogFile.v
LogMgmt.v
LogSink.v
Lookback.v
Evlogd.v
NfyMsg.v
Notifyd.v
NotifydLoop.v
NotifyApi.v
Format.v
FormatCorrect.v
CPrintf.v
Dump.v
FmtBuf.v
RecPack.v
RecPackCorrect.v
FormatRec.v
PackFormat.v
FormatRecCorrect.v
LogWrite.v
Conv.v
Tmpl.v
TmplPop.v
TmplSafe.v
TmplLayout.v
TmplSamples.v
TmplBits.v
TmplInit.v
TmplCheck.v
TmplTyping.v
TmplValues.v
TmplTyped.v
TmplFuel.v
TmplErrors.v
TmplCompile.v
TmplFmt.v
TmplApi.v
TmplText.v
TmplFmtFuel.v
TmplNames.v
TmplFmtSamples.v
TmplSerial.v
TmplSerialCorrect.v
TmplImport.v
TmplImportCorrect.v
TmplFileSamples.v
TmplCache.v
TmplCacheCorrect.v
TmplRedirect.v
TmplCacheSamples.v
