(* ===== verification/Prelude.v ===== *)
(** * evlog: a verification library for the POSIX event-logging code

    evlog records system events in a binary log and lets programs read it back,
    select records with queries, and maintain the log file.  This library models
    the parts of it that carry its logic, under [src/user/], as executable
    definitions, and proves what they promise.

    ** The program and the files of this library

    - [Prelude] (this file): status codes, machine integers as [Z] with explicit
      wrapping, bytes and little-endian words, C strings, [strtoul], [printf]
      conversions, and loops with a measure.
    - [EvlList]: [lib/util/evl_list.c].  Circular doubly-linked lists in an explicit
      heap ([heap], with an allocation mark and [free]); a null or dangling access is
      [None].  [repr h head l] says that [head] is the ring with cells [l].
    - [NvPairs]: [lib/posix_evlsup.c].  The tables of facilities, severities, formats,
      attributes and management events, and their lookups.
    - [LogRecord]: the layouts of [struct posix_log_entry] ([linux/evl_log.h], 88 bytes)
      and [log_header_t] ([evlog.h], 40 bytes) on a 64-bit little-endian machine.
    - [FacNames]: CRC-32, canonical facility names and generated codes ([lib/facreg.c]),
      event types of formats ([lib/syslogat.c]), [_evlSplitCmd] ([lib/util/evl_common.c]).
    - [FacReg]: the facility registry of [lib/facreg.c]: the open-addressing hash table,
      the registry file and its checks, the cached copy and when it is refreshed.  The
      query of a facility's filter is a type parameter, and its construction an
      argument.
    - [Hosts]: the table of hosts of [lib/template/tmplfmt.c].
    - [MemStr]: the string forms of record members in [lib/posix1.c].  The class
      [HostLib] is what they and the queries use of the machine (users, groups, time,
      registry, hosts); [machine] is its instance over [FacReg] and [Hosts].
    - [Query], [QNormalize], [QOptimize], [QEvaluate]: the query trees of
      [lib/query/evl_parse.h] and [query.y], and the phases of [normalize.c],
      [qopt.c] and [evaluate.c], function by function.  Regular expressions and the
      template library are classes ([RegexLib], [TemplateLib]).  A failed [assert] is
      [None]; a semantic error is the left of a sum.
    - [QueryCorrect], [QNormCorrect]: the meaning [sem] of a tree and the reference
      evaluation, and that the phases implement it.  [QSamples]: a machine, a template
      and queries on which the definitions are evaluated.
    - [QueryApi]: [posix_log_query_create], [_get], [_destroy] and [_match], with the
      parser's globals and mutex as state.  The parser is an argument; [parser_ok] says
      that it returns only trees that the grammar's actions build.
    - [Files]: a file as its bytes and a position, with [lseek], [read], [write] and
      [ftruncate]; the image of a log.
    - [LogFile]: opening, reading and seeking ([lib/posix1.c], [lib/posix2.c]).
    - [LogMgmt]: compaction, repair, counting and the generation protocol
      ([cmd/evlogmgr/evl_logmgmt.c]).
    - [LogSink], [Lookback], [Evlogd]: the logging daemon ([cmd/evlogd/evlogd.c]).  The
      files, the buffers in memory and the stream to the notification daemon; the
      suppression of duplicates; the clients, the events that they and the kernel send,
      and one iteration of the daemon's loop.
    - [NfyMsg], [Notifyd], [NotifydLoop]: the notification daemon ([cmd/evlnotifyd]).
      The layouts of its messages and of its request file; the requests and what is
      done with them; what [select] watches.  Processes, sockets and signals are
      arguments.
    - [NotifyApi]: the calls of [lib/posix1.c] that talk to that daemon, against an
      interface [server]; [evlnotifyd] is the daemon as such a server.

    - [Format], [FormatCorrect]: the parsers of [lib/util/format.c], for [printf]'s formats and
      for formats with attribute names.  [CPrintf]: what the C library prints for one
      conversion, with the text of real numbers as a class ([TextOfReal]).
    - [Dump], [FmtBuf], [FormatRec], [FormatRecCorrect]: displaying records
      ([lib/formatrec.c], [lib/util/fmtbuf.c], the end of [lib/template/tmplfmt.c]): dumps,
      format buffers, the fixed part, records with a format of their own, formats of
      attributes.  Formatting by a template is the class [TmplFormat]; [TmplFmt] is what it
      stands for.
    - [RecPack], [RecPackCorrect]: packing the data of records ([lib/evl_log_write.c]), from
      arguments or from a command line.  [PackFormat]: what is packed is displayed as
      [printf] displays it.
    - [LogWrite]: [posix_log_write] and the connections of processes ([lib/posix1.c],
      [lib/posix2.c]), against an interface [logd] for the daemon; [evlogd] is the daemon
      as such a [logd].

    - [Conv]: [lib/template/convert.c] and the table of the types of all architectures: records
      of other machines converted to this one.
    - [Tmpl]: the templates of [evl_template.h]: attributes with types, dimensions, formats and
      values, and their lookup.  What clones of a master share is a [store]; the result of an
      operation is an [outcome], a value or the fault (a read outside of the record, a failed
      assertion).
    - [TmplPop]: cloning a master, populating the clone from a record and emptying it again
      ([lib/template/template.c]).  [TmplSafe]: that this is safe for a checked master.
      [TmplLayout]: the layout of a record by the C compiler, and that population reads it back.
      [TmplBits]: bit-fields.  [TmplSamples]: records on which the definitions are evaluated.
    - [TmplInit]: the state of the parser of template files, and initial values.  [TmplCheck]:
      the checks of [_evlTmplAddAttribute] and what becomes of a source, in the order of the
      actions of the grammar ([lib/template/template.c], [bvfmt.c], [tmplmgmt.c], [tt.tab.c]).
      [TmplTyping]: what a well-typed template is.  [TmplValues], [TmplTyped]: that templates
      which are accepted are; [TmplFuel]: that compiling ends; [TmplErrors]: that what is
      rejected is reported.  [TmplCompile]: the contract put together.
    - [TmplFmt]: formatting records and attributes by populated templates ([lib/template/tmplfmt.c]).
      [TmplText]: the text of a template, without buffers, and that formatting writes it;
      [TmplFmtFuel]: that formatting ends; [TmplNames]: names of bit patterns; [TmplFmtSamples]: a
      sample, and texts that come out wrong.  [TmplApi]: the attributes of a template for its users.
    - [TmplSerial]: template files ([lib/template/serial.c], [serialio.inc]), writer and reader of
      each part side by side.  [TmplSerialCorrect]: that a file keeps a template.
      [TmplImport]: the structs that a file names, read from other files and kept in a hash
      table ([lib/template/tmplmgmt.c]); [TmplImportCorrect]: that a library of files is read as it
      was written; [TmplFileSamples]: a small library, and what a file does not keep.
    - [TmplCache]: templates for events, from files or the cache; giving them back; redirection
      ([lib/template/tmplmgmt.c]).  [TmplCacheCorrect]: that the cache gives what the files define.
      [TmplRedirect]: that redirections end, and where.  [TmplCacheSamples]: a few files, and
      lookups that go wrong.

    ** What the theorems show

    - Queries: normalization, division and prediction of missing attributes preserve
      the meaning; a created query matches exactly what the reference evaluation
      selects; creation is total and leaves the parser clean; integer operands and ages
      keep their values within the stated bounds.
    - Logs: seeking implements a cursor on the abstract list of records and ends on
      every file; a written log reads back; compaction removes exactly the selected
      records; repair removes a torn record, cuts out a bad block and leaves a clean
      log alone; the generation number keeps readers out during and after maintenance.
    - Registry: the hash table is a finite map; a registry that is read has all
      standard facilities and no duplicates; names and codes lead back to each other.
    - Logging daemon: every event is logged, or counted in a notice; the logs keep every
      record while the buffers suffice, in the order of their ids; an event is dropped
      exactly when an equal one is kept that has not timed out, and notices are never
      late; clients cannot forge the sender.
    - From end to end: an event that is written with [posix_log_write] is the last record
      of the log when it is read; a record of [posix_log_printb] is displayed as [printf]
      would have printed it; a failed write closes the connection.
    - Formats and display: what is printed as a format parses back; a format buffer holds
      as much of the text as fits and knows its length; a dump decodes; the fixed part
      and records by a format of attributes, in any buffer; severities are elided.
    - Templates: population of a clone returns and stays inside of the record, for every record;
      a record that is laid out as C lays out the master's structs gives back its values; a
      bit-field is a range of the bits of the record; the real numbers of other machines survive.
      What the compiler of templates accepts is well typed and, with arrays of a sane size, safe
      to populate; it rejects a definition exactly if it says why.  A populated template has a
      text, which is written to any buffer as far as it fits; formatting ends; the names of
      bits that are printed are those that describe the value.  A library of template
      files is read as it was written; the cache gives for each event the template that the files
      define, whatever was done before; redirections end, and are followed where they lead.
    - Notification: an event goes to exactly the requests that want it; requests keep
      distinct handles and survive a restart; no connection is overlooked and each
      client with data is served; the API's calls do to the daemon's list what they say.
    - Lists, tables, headers, hosts, names: functional specifications and round trips.
    - Defects: a template clone that is released twice, a host comparison that aborts,
      a user id that is read uninitialized, a repair that does not end, an event that
      overruns its buffer, a string that is packed behind a full record, a bad record that
      moves a buffer's position in front of it, a configuration that spins, requests that are lost when they
      cannot be saved, a refusal that is reported as a success, a negative long of a 32-bit
      record that changes its value, a bit-field that is read behind the record, an array
      whose size wraps, a struct whose text is cut off without notice, a template file that
      imports itself, and a clone that is freed before it is returned.

    ** Bounds and fuel

    A C loop is [loop], iterated at most a [positive] number of times over a step that
    returns the next state or the result.  Where the source bounds the loop, the bound
    is computed from the data (the size of the list, of the table, of the file) and the
    theorems show that it is enough; [repairLog], which need not end, takes it as an
    argument and the theorems say how much is enough.  Table sizes are bounded by the
    prime 1000003, which suffices for the 500000 entries the theorems allow.
    The fuel of [populateTmpl] is the nesting of the structs, [depth]; that of
    [formatRecordFromTemplate] and [neqvDumpTmpl] the nesting of structs and values, [nesting].
    That of [read_template_file] is the depth of imports within imports, which only a cycle of
    files makes infinite; [readTemplateLocked] calls itself once; a loop of redirections has at
    most [MAX_REDIRECTIONS] rounds, since no key is redirected from twice.

    ** Not modelled, and in which order it is to be added

    The grammars of queries and templates as parsers; adding facilities to the registry file;
    the kernel's log in [evlogd.c] and the start of the daemons; the remote daemon.  The query
    evaluator uses templates through the class [TemplateLib], of which [TmplCache] is not yet made
    an instance.  Signals, backups and command-line
    handling are input and output, and stay outside. *)
From Stdlib Require Export ZArith Lia Bool String Ascii.
From stdpp Require Export base tactics option list list_numbers numbers strings gmap sets relations.
From stdpp Require Export pretty.
#[global] Open Scope Z_scope.
#[global] Arguments String.append : simpl nomatch.

(** ** Status codes (Linux numbering) *)

Definition EPERM : Z := 1.
Definition ENOENT : Z := 2.
Definition EIO : Z := 5.
Definition EBADF : Z := 9.
Definition EAGAIN : Z := 11.
Definition ENOMEM : Z := 12.
Definition EBUSY : Z := 16.
Definition EEXIST : Z := 17.
Definition EINVAL : Z := 22.
Definition EMFILE : Z := 24.
Definition EMSGSIZE : Z := 90.
Definition ENOTSUP : Z := 95.
Definition ECONNREFUSED : Z := 111.

(** ** Machine integers

    A C integer of width [n] is a [Z]; a conversion to it wraps. *)

Definition unsigned (n : Z) (z : Z) : Z := z mod 2 ^ n.
Definition signed (n : Z) (z : Z) : Z := (z + 2 ^ (n - 1)) mod 2 ^ n - 2 ^ (n - 1).

Abbreviation u8 := (unsigned 8).
Abbreviation u16 := (unsigned 16).
Abbreviation u32 := (unsigned 32).
Abbreviation u64 := (unsigned 64).
Abbreviation s8 := (signed 8).
Abbreviation s16 := (signed 16).
Abbreviation s32 := (signed 32).
Abbreviation s64 := (signed 64).

Definition in_unsigned (n z : Z) : Prop := 0 <= z < 2 ^ n.
Definition in_signed (n z : Z) : Prop := - 2 ^ (n - 1) <= z < 2 ^ (n - 1).

#[global] Instance in_unsigned_dec n z : Decision (in_unsigned n z).
Proof. unfold in_unsigned. apply _. Defined.
#[global] Instance in_signed_dec n z : Decision (in_signed n z).
Proof. unfold in_signed. apply _. Defined.

Lemma unsigned_range n z : 0 <= n -> in_unsigned n (unsigned n z).
Proof. intros Hn. unfold in_unsigned, unsigned. apply Z.mod_pos_bound. lia. Qed.

Lemma unsigned_id n z : in_unsigned n z -> unsigned n z = z.
Proof. intros H. apply Z.mod_small, H. Qed.

Lemma pow2_split n : 1 <= n -> 2 ^ n = 2 * 2 ^ (n - 1).
Proof. intros Hn. rewrite <-Z.pow_succ_r by lia. f_equal. lia. Qed.

Lemma signed_range n z : 1 <= n -> in_signed n (signed n z).
Proof.
  intros Hn. unfold in_signed, signed.
  pose proof (Z.mod_pos_bound (z + 2 ^ (n - 1)) (2 ^ n) ltac:(lia)).
  rewrite (pow2_split n) in * by lia. lia.
Qed.

Lemma signed_id n z : 1 <= n -> in_signed n z -> signed n z = z.
Proof.
  intros Hn H. unfold in_signed, signed in *. rewrite Z.mod_small; [lia|].
  rewrite (pow2_split n) by lia. lia.
Qed.

(** Converting to signed and back keeps the unsigned image. *)
Lemma unsigned_signed n z : 1 <= n -> unsigned n (signed n z) = unsigned n z.
Proof.
  intros Hn. unfold unsigned, signed.
  rewrite Zminus_mod_idemp_l. f_equal. lia.
Qed.

Lemma signed_unsigned n z : 1 <= n -> signed n (unsigned n z) = signed n z.
Proof.
  intros Hn. unfold unsigned, signed.
  rewrite Zplus_mod_idemp_l. done.
Qed.

(** A C [int] used as a truth value. *)
Definition b2z (b : bool) : Z := if b then 1 else 0.
Definition z2b (z : Z) : bool := negb (z =? 0).

Lemma z2b_b2z b : z2b (b2z b) = b.
Proof. by destruct b. Qed.

(** ** Tactics of the development *)

(** Case analysis on a [match] of the goal or of a hypothesis. *)
Ltac dmatch :=
  match goal with
  | |- context [match ?x with _ => _ end] => destruct x eqn:?
  end.
Ltac dmatch_in H :=
  match type of H with
  | context [match ?x with _ => _ end] => destruct x eqn:?
  end.
(** Turns boolean comparisons among the hypotheses into propositions. *)
Ltac bprop :=
  repeat match goal with
  | H : _ && _ = true |- _ => apply andb_true_iff in H as [? ?]
  | H : _ || _ = false |- _ => apply orb_false_iff in H as [? ?]
  | H : _ || _ = true |- _ => apply orb_true_iff in H
  | H : _ && _ = false |- _ => apply andb_false_iff in H
  | H : negb _ = true |- _ => apply negb_true_iff in H
  | H : negb _ = false |- _ => apply negb_false_iff in H
  | H : (_ =? _) = true |- _ => apply Z.eqb_eq in H
  | H : (_ =? _) = false |- _ => apply Z.eqb_neq in H
  | H : (_ <? _) = true |- _ => apply Z.ltb_lt in H
  | H : (_ <? _) = false |- _ => apply Z.ltb_ge in H
  | H : (_ <=? _) = true |- _ => apply Z.leb_le in H
  | H : (_ <=? _) = false |- _ => apply Z.leb_gt in H
  | H : (_ >? _) = true |- _ => rewrite Z.gtb_ltb in H
  | H : (_ >? _) = false |- _ => rewrite Z.gtb_ltb in H
  end.
Ltac zb := bprop; lia.
(** Arithmetic with divisions and remainders. *)
Ltac dlia := Z.to_euclidean_division_equations; lia.

Create HintDb evl discriminated.
#[export] Hint Resolve unsigned_range signed_range : evl.

(** ** Bytes

    A byte string of a file, a socket or a C object is a list of integers in
    [0..255]; the host is little-endian. *)

Definition is_byte (b : Z) : Prop := 0 <= b < 256.
#[global] Instance is_byte_dec b : Decision (is_byte b).
Proof. unfold is_byte. apply _. Defined.

Fixpoint le_encode (n : nat) (z : Z) : list Z :=
  match n with
  | O => []
  | S n' => z mod 256 :: le_encode n' (z / 256)
  end.
Fixpoint le_decode (bs : list Z) : Z :=
  match bs with
  | [] => 0
  | b :: bs' => b + 256 * le_decode bs'
  end.

Lemma length_le_encode n z : length (le_encode n z) = n.
Proof. revert z; induction n as [|n IH]; intros z; simpl; [done|by rewrite IH]. Qed.

Lemma le_decode_encode n z : le_decode (le_encode n z) = z mod 256 ^ Z.of_nat n.
Proof.
  revert z; induction n as [|n IH]; intros z; simpl.
  - change (256 ^ Z.of_nat 0) with 1. by rewrite Z.mod_1_r.
  - rewrite IH, Nat2Z.inj_succ, Z.pow_succ_r by lia.
    rewrite Z.rem_mul_r by lia. lia.
Qed.

Lemma le_encode_bytes n z : Forall is_byte (le_encode n z).
Proof.
  revert z; induction n as [|n IH]; intros z; simpl; constructor; [|done].
  unfold is_byte. apply Z.mod_pos_bound. lia.
Qed.

Lemma le_decode_bound bs : Forall is_byte bs -> 0 <= le_decode bs < 256 ^ Z.of_nat (length bs).
Proof.
  induction 1 as [|b bs Hb Hbs IH]; [done|]. cbn [length le_decode].
  rewrite Nat2Z.inj_succ, Z.pow_succ_r by lia. unfold is_byte in Hb. lia.
Qed.

Lemma le_encode_decode bs : Forall is_byte bs -> le_encode (length bs) (le_decode bs) = bs.
Proof.
  induction 1 as [|b bs Hb Hbs IH]; simpl; [done|]. unfold is_byte in Hb.
  f_equal.
  - rewrite (Z.mul_comm 256), Z_mod_plus_full. apply Z.mod_small. lia.
  - rewrite (Z.mul_comm 256), Z_div_plus_full by lia. rewrite Z.div_small by lia. exact IH.
Qed.

(** ** C strings

    A C string is a Rocq [string] (the terminating NUL is not part of it). *)

Abbreviation str := String.string.
Definition chr (c : ascii) : Z := Z.of_N (N_of_ascii c).
Definition of_chr (z : Z) : ascii := ascii_of_N (Z.to_N (z mod 256)).
Definition strlen (s : str) : Z := Z.of_nat (String.length s).
Definition streqb (a b : str) : bool := bool_decide (a = b).

Lemma streqb_spec a b : streqb a b = true <-> a = b.
Proof. unfold streqb. apply bool_decide_eq_true. Qed.
Lemma streqb_false a b : streqb a b = false <-> a <> b.
Proof. unfold streqb. apply bool_decide_eq_false. Qed.

(** The C string that starts at the first byte of a buffer. *)
Fixpoint cstring (bs : list Z) : str :=
  match bs with
  | [] => EmptyString
  | b :: bs' => if b mod 256 =? 0 then EmptyString else String (of_chr b) (cstring bs')
  end.
Fixpoint bytes_of (s : str) : list Z :=
  match s with
  | EmptyString => []
  | String c s' => chr c :: bytes_of s'
  end.
Fixpoint no_nul (s : str) : bool :=
  match s with
  | EmptyString => true
  | String c s' => negb (chr c =? 0) && no_nul s'
  end.

Lemma chr_range c : 0 <= chr c < 256.
Proof. unfold chr. pose proof (N_ascii_bounded c). lia. Qed.

Lemma of_chr_chr c : of_chr (chr c) = c.
Proof.
  unfold of_chr. rewrite Z.mod_small by apply chr_range.
  unfold chr. rewrite N2Z.id. apply ascii_N_embedding.
Qed.

Lemma chr_of_chr z : 0 <= z < 256 -> chr (of_chr z) = z.
Proof.
  intros H. unfold chr, of_chr. rewrite Z.mod_small by lia.
  rewrite N_ascii_embedding by lia. lia.
Qed.

Lemma length_bytes_of s : length (bytes_of s) = String.length s.
Proof. induction s as [|c s IH]; simpl; [done|by rewrite IH]. Qed.

Lemma bytes_of_bytes s : Forall is_byte (bytes_of s).
Proof. induction s; simpl; constructor; [apply chr_range|done]. Qed.

(** Writing a string with its terminator and reading it back. *)
Lemma cstring_bytes_of s rest : no_nul s = true -> cstring (bytes_of s ++ 0 :: rest) = s.
Proof.
  induction s as [|c s IH]; simpl; [done|]. intros [Hc Hs]%andb_true_iff.
  apply negb_true_iff in Hc. rewrite Z.mod_small by apply chr_range.
  rewrite Hc, of_chr_chr, IH; done.
Qed.

(** [strchr]: the suffix that starts at the first occurrence of [c]. *)
Fixpoint strchr (s : str) (c : ascii) : option str :=
  match s with
  | EmptyString => None
  | String d s' => if ascii_dec c d then Some s else strchr s' c
  end.
(** [strncmp(s, p, strlen(p)) == 0] *)
Fixpoint starts_with (p s : str) : bool :=
  match p, s with
  | EmptyString, _ => true
  | String c p', String d s' => if ascii_dec c d then starts_with p' s' else false
  | _, _ => false
  end.
(** [strstr(hay, needle) != NULL] *)
Fixpoint strstr (hay needle : str) : bool :=
  starts_with needle hay ||
  match hay with
  | EmptyString => false
  | String _ hay' => strstr hay' needle
  end.

Lemma starts_with_spec p s : starts_with p s = true <-> exists b, s = (p ++ b)%string.
Proof.
  revert s; induction p as [|c p IH]; intros s; simpl; [split; eauto|].
  destruct s as [|d s]; [split; [done|by intros [b Hb]]|].
  destruct (ascii_dec c d) as [->|Hne].
  - rewrite IH. split; intros [b Hb]; exists b; [by rewrite Hb|by injection Hb].
  - split; [done|]. intros [b Hb]. by injection Hb.
Qed.

Lemma strstr_spec hay needle :
  strstr hay needle = true <-> exists a b, hay = (a ++ needle ++ b)%string.
Proof.
  induction hay as [|c hay IH]; simpl; rewrite orb_true_iff, starts_with_spec.
  - split; [intros [[b Hb]|]; [by exists EmptyString, b|done]|].
    intros ([|] & b & Hb); [left; by exists b|discriminate Hb].
  - rewrite IH. split.
    + intros [[b Hb]|(a & b & ->)]; [by exists EmptyString, b|by exists (String c a), b].
    + intros ([|d a] & b & Hb); [left; by exists b|right; injection Hb as -> ->; by exists a, b].
Qed.

(** [toupper] in the C locale, on the value of a (signed) [char]. *)
Definition toupper (c : Z) : Z := if (97 <=? c) && (c <=? 122) then c - 32 else c.
Definition schar (c : ascii) : Z := s8 (chr c).

Fixpoint upper_bytes (s : str) : list Z :=
  match s with
  | EmptyString => []
  | String c s' => toupper (schar c) :: upper_bytes s'
  end.

(** ** Number parsing and printing *)

Definition is_digit (c : ascii) : bool := (48 <=? chr c) && (chr c <=? 57).
Definition is_space (c : ascii) : bool :=
  (chr c =? 32) || ((9 <=? chr c) && (chr c <=? 13)).

Fixpoint skip_spaces (s : str) : str :=
  match s with
  | String c s' => if is_space c then skip_spaces s' else s
  | EmptyString => s
  end.
(** The digit of [c] in the given base, if it is one. *)
Definition digit_val (base : Z) (c : ascii) : option Z :=
  let z := chr c in
  let d := if (48 <=? z) && (z <=? 57) then z - 48
           else if (97 <=? z) && (z <=? 122) then z - 87
           else if (65 <=? z) && (z <=? 90) then z - 55 else base in
  if d <? base then Some d else None.
Fixpoint read_digits (base acc : Z) (s : str) : Z * str :=
  match s with
  | String c s' =>
      match digit_val base c with
      | Some d => read_digits base (acc * base + d) s'
      | None => (acc, s)
      end
  | EmptyString => (acc, s)
  end.
Definition ULONG_MAX : Z := 2 ^ 64 - 1.

(** [strtoul(s, &end, base)] for base 0, 10 and 16: the value and the unread
    suffix; with no digits the value is 0 and the suffix is [s] itself. *)
Definition strtoul (s : str) (base : Z) : Z * str :=
  let s1 := skip_spaces s in
  let '(neg, s2) :=
    match s1 with
    | String c r => if chr c =? 45 then (true, r) else if chr c =? 43 then (false, r) else (false, s1)
    | EmptyString => (false, s1)
    end in
  let hex_tail r :=
    match r with
    | String x (String d _ as r') =>
        if ((chr x =? 120) || (chr x =? 88)) && bool_decide (is_Some (digit_val 16 d))
        then Some r' else None
    | _ => None
    end in
  let '(b, s3) :=
    match s2 with
    | String z r =>
        if (chr z =? 48) && ((base =? 0) || (base =? 16)) then
          match hex_tail r with
          | Some r' => (16, r')
          | None => (if base =? 0 then 8 else base, s2)
          end
        else (if base =? 0 then 10 else base, s2)
    | EmptyString => (if base =? 0 then 10 else base, s2)
    end in
  let '(v, rest) := read_digits b 0 s3 in
  if bool_decide (rest = s3) then (0, s)
  else (if v >? ULONG_MAX then ULONG_MAX else if neg then u64 (- v) else v, rest).

Definition hex_digit (d : Z) : ascii := of_chr (if d <? 10 then d + 48 else d + 87).
Fixpoint hex_go (fuel : nat) (z : Z) (acc : str) : str :=
  match fuel with
  | O => acc
  | S f => let acc' := String (hex_digit (z mod 16)) acc in
           if z / 16 =? 0 then acc' else hex_go f (z / 16) acc'
  end.
(** [printf]'s [%x] (16 digits cover 64 bits), [%d] and [%u]. *)
Definition fmt_x (z : Z) : str := hex_go 16 z EmptyString.
Definition fmt_d (z : Z) : str := pretty z.

Example strtoul_ex1 : strtoul "  0x1fz" 0 = (31, "z"%string). Proof. reflexivity. Qed.
Example strtoul_ex2 : strtoul "-1.5" 10 = (ULONG_MAX, ".5"%string). Proof. reflexivity. Qed.
Example fmt_ex : (fmt_x 48879, fmt_d (-42)) = ("beef"%string, "-42"%string). Proof. reflexivity. Qed.

Lemma length_substring0 m : forall s, (String.length (String.substring 0 m s) <= m)%nat.
Proof. induction m as [|m IH]; intros [|c s]; cbn; try lia. specialize (IH s). lia. Qed.

(** *** Printing a number and reading it back *)

Lemma pretty_char_digit x : (x < 10)%N -> digit_val 10 (pretty_N_char x) = Some (Z.of_N x).
Proof.
  intros Hx. destruct x as [|p]; [done|].
  do 4 (destruct p as [p|p|]; try done; try lia).
Qed.

Lemma pretty_go_app x : forall s t, (pretty_N_go x (s ++ t) = pretty_N_go x s ++ t)%string.
Proof.
  induction (N.lt_wf_0 x) as [x _ IH]; intros s t.
  assert (x = 0 \/ 0 < x)%N as [->|Hx] by lia; [done|].
  rewrite (pretty_N_go_step x (s ++ t)), (pretty_N_go_step x s) by done. by rewrite <-(IH (x `div` 10)%N) by (apply N.div_lt; lia).
Qed.

Lemma read_pretty_go x : forall s, read_digits 10 0 (pretty_N_go x s) = read_digits 10 (Z.of_N x) s.
Proof.
  induction (N.lt_wf_0 x) as [x _ IH]; intros s.
  assert (x = 0 \/ 0 < x)%N as [->|Hx] by lia; [done|].
  rewrite pretty_N_go_step by done. rewrite IH by (apply N.div_lt; lia). cbn [read_digits].
  rewrite pretty_char_digit by (apply N.mod_lt; lia). f_equal.
  pose proof (N.div_mod x 10 ltac:(lia)) as Hd. rewrite Hd at 3. lia.
Qed.

(** A printed number starts with a digit. *)
Lemma pretty_go_head x : forall c s, digit_val 10 c <> None ->
  exists c' s', pretty_N_go x (String c s) = String c' s' /\ digit_val 10 c' <> None.
Proof.
  induction (N.lt_wf_0 x) as [x _ IH]; intros c s Hc.
  assert (x = 0 \/ 0 < x)%N as [->|Hx] by lia; [by exists c, s|].
  rewrite pretty_N_go_step by done. apply IH; [apply N.div_lt; lia|].
  by rewrite pretty_char_digit by (apply N.mod_lt; lia).
Qed.

Lemma digit_not_space c : digit_val 10 c <> None ->
  is_space c = false /\ (chr c =? 45) = false /\ (chr c =? 43) = false.
Proof.
  unfold digit_val, is_space. cbv zeta. intros Hd.
  assert (48 <= chr c <= 57) as Hr.
  { destruct (_ && _) eqn:E; [zb|].
    repeat match goal with H : context [if ?b then _ else _] |- _ => destruct b eqn:? in H end; bprop; try lia; done. }
  split_and!; zb.
Qed.

Lemma fmt_d_digits n : 0 <= n -> exists c s, fmt_d n = String c s /\ digit_val 10 c <> None /\
  forall rest, read_digits 10 0 (fmt_d n ++ rest) = read_digits 10 n rest.
Proof.
  intros Hn. destruct n as [|p|p]; [|unfold fmt_d; change (pretty (Zpos p)) with (pretty_N_go (Npos p) "")|lia].
  { exists "0"%char, EmptyString. done. }
  rewrite pretty_N_go_step by lia.
  destruct (pretty_go_head (Npos p `div` 10) (pretty_N_char (Npos p `mod` 10)) "") as (c & s & E & Hc).
  { by rewrite pretty_char_digit by (apply N.mod_lt; lia). }
  exists c, s. split_and!; [done..|]. intros rest.
  rewrite <-pretty_N_go_step by lia. rewrite <-pretty_go_app, read_pretty_go. done.
Qed.

(** [strtoul] reads back what [%u] printed, up to the first other character. *)
Lemma strtoul_fmt_d n rest : 0 <= n < 2 ^ 64 ->
  match rest with String c _ => digit_val 10 c = None | EmptyString => True end ->
  strtoul (fmt_d n ++ rest) 10 = (n, rest).
Proof.
  intros Hn Hrest. destruct (fmt_d_digits n) as (c & s & E & Hc & Hread); [lia|].
  destruct (digit_not_space c Hc) as (H1 & H2 & H3).
  assert (read_digits 10 n rest = (n, rest)) as Hend by (destruct rest; cbn; [done|by rewrite Hrest]).
  specialize (Hread rest). rewrite Hend in Hread. rewrite E in *. unfold strtoul.
  change (String c s ++ rest)%string with (String c (s ++ rest)) in *.
  cbn [skip_spaces]. rewrite H1, H2, H3. cbv zeta. cbn [Z.eqb orb]. rewrite andb_false_r. cbv zeta. rewrite Hread.
  rewrite bool_decide_eq_false_2.
  - destruct (n >? ULONG_MAX) eqn:Em; [|done]. unfold ULONG_MAX in Em. zb.
  - intros Heq. rewrite Heq in Hrest. by rewrite Hrest in Hc.
Qed.

(** ** Loops

    [loop step n s] runs a C loop for at most [n] iterations: [step] returns
    [inl] the next state or [inr] the value the loop ends with.  The bound is
    binary, so that a bound as large as a C integer can be evaluated. *)

Section Loop.
Context {S R : Type}.
Variable step : S -> S + R.

Fixpoint loop (n : positive) (s : S) : S + R :=
  match n with
  | xH => step s
  | xO m => match loop m s with inl s' => loop m s' | r => r end
  | xI m =>
      match step s with
      | inl s1 => match loop m s1 with inl s2 => loop m s2 | r => r end
      | r => r
      end
  end.
Fixpoint loop_nat (n : nat) (s : S) : S + R :=
  match n with
  | O => inl s
  | Datatypes.S m => match step s with inl s' => loop_nat m s' | r => r end
  end.

Lemma loop_nat_add n m s :
  loop_nat (n + m) s = match loop_nat n s with inl s' => loop_nat m s' | r => r end.
Proof.
  revert s; induction n as [|n IH]; intros s; simpl; [done|]. destruct (step s); [apply IH|done].
Qed.

Lemma loop_loop_nat n s : loop n s = loop_nat (Pos.to_nat n) s.
Proof.
  revert s; induction n as [n IH|n IH|]; intros s; cbn [loop].
  - rewrite Pos2Nat.inj_xI. cbn [loop_nat]. destruct (step s) as [s1|]; [|done].
    replace (2 * Pos.to_nat n)%nat with (Pos.to_nat n + Pos.to_nat n)%nat by lia.
    rewrite loop_nat_add, IH. destruct (loop_nat _ s1); [apply IH|done].
  - rewrite Pos2Nat.inj_xO.
    replace (2 * Pos.to_nat n)%nat with (Pos.to_nat n + Pos.to_nat n)%nat by lia.
    rewrite loop_nat_add, IH. destruct (loop_nat _ s); [apply IH|done].
  - change (Pos.to_nat 1) with 1%nat. simpl. by destruct (step s).
Qed.

(** The rule for total correctness: [I] is the loop's invariant and [m] the
    measure that every iteration decreases. *)
Lemma loop_rule (I : S -> Prop) (m : S -> Z) (Q : R -> Prop) n s :
  (forall s, I s -> 0 <= m s /\
     match step s with inl s' => I s' /\ m s' < m s | inr r => Q r end) ->
  I s -> m s < Zpos n -> exists r, loop n s = inr r /\ Q r.
Proof.
  intros Hstep HI Hm. rewrite loop_loop_nat.
  assert (m s < Z.of_nat (Pos.to_nat n)) as Hn by lia. clear Hm. revert s HI Hn.
  induction (Pos.to_nat n) as [|k IH]; intros s HI Hn.
  - destruct (Hstep s HI). lia.
  - destruct (Hstep s HI) as [Hs Hs']. cbn [loop_nat]. destruct (step s) as [s'|r]; [|eauto].
    destruct Hs' as [HI' Hlt]. apply IH; [done|lia].
Qed.
End Loop.
