(* ===== verification/EvlList.v ===== *)
(** * Circular doubly-linked lists ([lib/util/evl_list.c])

    The heap maps addresses to list nodes; an operation returns [None] when the
    C code would fail an [assert] or dereference a dead or null pointer.  A list
    is circular, its header is its first node, and the empty list is the null
    pointer.  [repr h head l] says that the nodes of [h] reachable from [head]
    are the circular list of the (address, data) pairs [l]; the theorems say
    that every operation refines the corresponding operation on [l]. *)
From S2P Require Import Prelude.

Definition NULL : Z := 0.
Record evl_listnode := mkNode { li_data : Z; li_next : Z; li_prev : Z }.
(** [brk] is the first address that [malloc] has never returned. *)
Record heap := mkHeap { mem : gmap Z evl_listnode; brk : Z }.

Definition rd (h : heap) (p : Z) : option evl_listnode := mem h !! p.
Definition wr (h : heap) (p : Z) (n : evl_listnode) : heap := mkHeap (<[p := n]> (mem h)) (brk h).
Definition set_next (h : heap) (p v : Z) : option heap :=
  n ← rd h p; Some (wr h p (mkNode (li_data n) v (li_prev n))).
Definition set_prev (h : heap) (p v : Z) : option heap :=
  n ← rd h p; Some (wr h p (mkNode (li_data n) (li_next n) v)).
Definition free (h : heap) (p : Z) : option heap :=
  _ ← rd h p; Some (mkHeap (delete p (mem h)) (brk h)).

(** [malloc] followed by the [memset] to zero. *)
Definition _evlAllocListNode (h : heap) : Z * heap :=
  (brk h, mkHeap (<[brk h := mkNode 0 0 0]> (mem h)) (brk h + 1)).

Definition _evlMkListNode (h : heap) (data : Z) : Z * heap :=
  let '(p, h) := _evlAllocListNode h in
  (p, wr h p (mkNode data p p)).

Definition _evlAppendToList (h : heap) (head data : Z) : option (Z * heap) :=
  let '(p, h) := _evlMkListNode h data in
  if negb (head =? NULL) then
    hd ← rd h head;
    let tail := li_prev hd in
    h ← set_next h p head;
    h ← set_prev h p tail;
    h ← set_prev h head p;
    h ← set_next h tail p;
    Some (head, h)
  else
    h ← set_next h p p;
    h ← set_prev h p p;
    Some (p, h).

(** The [do ... while (p != head)] loops take the number of nodes of the heap
    as fuel: a circular list cannot be longer. *)
Definition fuel_of (h : heap) : nat := size (mem h).

Fixpoint size_loop (fuel : nat) (h : heap) (head p n : Z) : option Z :=
  match fuel with
  | O => None
  | S f =>
      nd ← rd h p;
      let n := n + 1 in
      let p := li_next nd in
      if p =? head then Some n else size_loop f h head p n
  end.
Definition _evlGetListSize (h : heap) (head : Z) : option Z :=
  if head =? NULL then Some 0 else size_loop (fuel_of h) h head head 0.

(** [name_of d] is the string that the first field of the object [d] points to
    ([None]: a null pointer). *)
Fixpoint find_loop (name_of : Z -> option str) (name : str) (fuel : nat) (h : heap) (head p : Z)
  : option Z :=
  match fuel with
  | O => None
  | S f =>
      nd ← rd h p;
      if match name_of (li_data nd) with Some pname => streqb pname name | None => false end
      then Some p
      else let p := li_next nd in
           if p =? head then Some NULL else find_loop name_of name f h head p
  end.
Definition _evlFindNamedItemInList (name_of : Z -> option str) (h : heap) (head : Z) (name : str)
  : option Z :=
  if head =? NULL then Some NULL else find_loop name_of name (fuel_of h) h head head.

Fixpoint free_loop (fuel : nat) (h : heap) (head p : Z) : option heap :=
  match fuel with
  | O => None
  | S f =>
      nd ← rd h p;
      let next := li_next nd in
      h ← free h p;
      if next =? head then Some h else free_loop f h head next
  end.
(** The data items are freed in a memory of their own. *)
Definition _evlFreeList (h : heap) (head : Z) : option heap :=
  if head =? NULL then Some h else free_loop (fuel_of h) h head head.

Fixpoint nth_loop (fuel : nat) (h : heap) (head p i n : Z) : option Z :=
  match fuel with
  | O => None
  | S f =>
      if i =? n then Some p
      else
        nd ← rd h p;
        let p := li_next nd in
        if p =? head then Some NULL else nth_loop f h head p (i + 1) n
  end.
Definition _evlGetNthNode (h : heap) (head n : Z) : option Z :=
  if head =? NULL then Some NULL else nth_loop (fuel_of h) h head head 0 n.
Definition _evlGetNthValue (h : heap) (head n : Z) : option Z :=
  p ← _evlGetNthNode h head n;
  if p =? NULL then Some NULL else li_data <$> rd h p.

Definition _evlInsertListNode (h : heap) (insertMe beforeMe : Z) : option heap :=
  b ← rd h beforeMe;
  let afterMe := li_prev b in
  h ← set_next h insertMe beforeMe;
  h ← set_prev h insertMe afterMe;
  h ← set_next h afterMe insertMe;
  set_prev h beforeMe insertMe.

Definition _evlInsertToList (h : heap) (insertMe beforeMe list : Z) : option (Z * heap) :=
  let '(newNode, h) := _evlMkListNode h insertMe in
  if beforeMe =? NULL then None
  else
    h ← _evlInsertListNode h newNode beforeMe;
    Some (if beforeMe =? list then newNode else list, h).

Definition _evlRemoveNode (h : heap) (removeMe head : Z) : option (Z * heap) :=
  if (removeMe =? NULL) || (head =? NULL) then None
  else
    r ← rd h removeMe;
    newHead ← (if removeMe =? head then
                 hd ← rd h head;
                 Some (if li_next hd =? head then NULL else li_next hd)
               else Some head);
    let prev := li_prev r in
    let next := li_next r in
    h ← set_next h prev next;
    h ← set_prev h next prev;
    h ← free h removeMe;
    Some (newHead, h).

Definition removeNode (h : heap) (p : Z) : option heap :=
  nd ← rd h p;
  let prev := li_prev nd in
  let next := li_next nd in
  h ← set_next h prev next;
  h ← set_prev h next prev;
  free h p.

Fixpoint remove_all_loop (fuel : nat) (h : heap) (head p : Z) : option heap :=
  match fuel with
  | O => None
  | S f =>
      nd ← rd h p;
      let next := li_next nd in
      h ← removeNode h p;
      if next =? head then Some h else remove_all_loop f h head next
  end.
Definition removeAllNodes (h : heap) (head : Z) : option heap :=
  hd ← rd h head;
  let p := li_next hd in
  if head =? p then Some h else remove_all_loop (fuel_of h) h head p.

(** ** The representation of a circular list *)

Abbreviation cells := (list (Z * Z)).
Definition hd_addr (l : cells) (d : Z) : Z :=
  match l with [] => d | (a, _) :: _ => a end.
Fixpoint last_addr (l : cells) (d : Z) : Z :=
  match l with [] => d | (a, _) :: l' => last_addr l' a end.
Fixpoint chain (m : gmap Z evl_listnode) (prev : Z) (l : cells) (next : Z) : Prop :=
  match l with
  | [] => True
  | (a, d) :: l' => m !! a = Some (mkNode d (hd_addr l' next) prev) /\ chain m a l' next
  end.
Definition cyc (m : gmap Z evl_listnode) (l : cells) : Prop :=
  NoDup l.*1 /\ chain m (last_addr l NULL) l (hd_addr l NULL).
Definition repr (h : heap) (head : Z) (l : cells) : Prop :=
  head = hd_addr l NULL /\ cyc (mem h) l.
(** Null is never allocated, and [malloc] returns fresh addresses. *)
Definition heap_ok (h : heap) : Prop :=
  0 < brk h /\ mem h !! NULL = None /\ forall a, brk h <= a -> mem h !! a = None.

Lemma hd_addr_app l1 l2 d : hd_addr (l1 ++ l2) d = hd_addr l1 (hd_addr l2 d).
Proof. by destruct l1 as [|[]]. Qed.
Lemma last_addr_app l1 l2 d : last_addr (l1 ++ l2) d = last_addr l2 (last_addr l1 d).
Proof. revert d; induction l1 as [|[a x] l1 IH]; intros d; simpl; [done|apply IH]. Qed.

Lemma chain_app m p l1 l2 n :
  chain m p (l1 ++ l2) n <-> chain m p l1 (hd_addr l2 n) /\ chain m (last_addr l1 p) l2 n.
Proof.
  revert p; induction l1 as [|[a d] l1 IH]; intros p; simpl; [tauto|].
  rewrite hd_addr_app, IH. tauto.
Qed.

Lemma chain_frame m m' p l n :
  (forall a, a ∈ l.*1 -> m' !! a = m !! a) -> chain m p l n -> chain m' p l n.
Proof.
  revert p; induction l as [|[a d] l IH]; intros p Hm; simpl; [done|].
  intros [Ha Hl]. split; [rewrite Hm by set_solver; done|]. apply IH; [set_solver|done].
Qed.

Lemma chain_dom m p l n a : chain m p l n -> a ∈ l.*1 -> is_Some (m !! a).
Proof.
  revert p; induction l as [|[b d] l IH]; intros p; simpl; [set_solver|].
  intros [Hb Hl] [->|Ha]%elem_of_cons; eauto.
Qed.

Lemma last_addr_in l p : l <> [] -> last_addr l p ∈ l.*1.
Proof.
  revert p; induction l as [|[a d] l IH]; intros p; [done|]. intros _. simpl.
  destruct l as [|c l]; [set_solver|]. apply elem_of_cons. right. by apply IH.
Qed.

(** Redirecting the first node's [li_prev] and the last node's [li_next]. *)
Definition with_next (v : Z) (n : evl_listnode) := mkNode (li_data n) v (li_prev n).
Definition with_prev (v : Z) (n : evl_listnode) := mkNode (li_data n) (li_next n) v.

Lemma chain_set_prev m p p' a d l n :
  NoDup (a :: l.*1) -> chain m p ((a, d) :: l) n ->
  chain (alter (with_prev p') a m) p' ((a, d) :: l) n.
Proof.
  intros [Ha _]%NoDup_cons [Hm Hl]. split.
  - by rewrite lookup_alter_eq, Hm.
  - eapply chain_frame; [|done]. intros b Hb. apply lookup_alter_ne. set_solver.
Qed.

Lemma chain_set_next m p l n n' :
  NoDup l.*1 -> l <> [] -> chain m p l n ->
  chain (alter (with_next n') (last_addr l p) m) p l n'.
Proof.
  revert p; induction l as [|[a d] l IH]; intros p Hnd Hne; [done|].
  destruct l as [|[b e] l].
  - simpl. intros [Hm _]. by rewrite lookup_alter_eq, Hm.
  - intros [Hm Hl]. apply NoDup_cons in Hnd as [Ha Hnd].
    split; [|by apply IH].
    rewrite lookup_alter_ne; [done|].
    intros Heq. apply Ha. rewrite <-Heq. by apply (last_addr_in ((b, e) :: l) a).
Qed.

Lemma set_next_alter h p v : is_Some (mem h !! p) ->
  set_next h p v = Some (mkHeap (alter (with_next v) p (mem h)) (brk h)).
Proof.
  intros [n Hn]. unfold set_next, rd. rewrite Hn. simpl. do 2 f_equal.
  unfold wr; simpl. f_equal. apply map_eq. intros i.
  destruct (decide (i = p)) as [->|Hne].
  - by rewrite lookup_insert_eq, lookup_alter_eq, Hn.
  - by rewrite lookup_insert_ne, lookup_alter_ne by done.
Qed.
Lemma set_prev_alter h p v : is_Some (mem h !! p) ->
  set_prev h p v = Some (mkHeap (alter (with_prev v) p (mem h)) (brk h)).
Proof.
  intros [n Hn]. unfold set_prev, rd. rewrite Hn. simpl. do 2 f_equal.
  unfold wr; simpl. f_equal. apply map_eq. intros i.
  destruct (decide (i = p)) as [->|Hne].
  - by rewrite lookup_insert_eq, lookup_alter_eq, Hn.
  - by rewrite lookup_insert_ne, lookup_alter_ne by done.
Qed.

Lemma cyc_rotate m l1 l2 : cyc m (l1 ++ l2) -> cyc m (l2 ++ l1).
Proof.
  unfold cyc. rewrite !fmap_app, !chain_app, !hd_addr_app, !last_addr_app.
  intros [Hnd [H1 H2]]. split; [by rewrite (Permutation_app_comm (l2.*1))|].
  destruct l1 as [|[a d] l1], l2 as [|[b e] l2]; done.
Qed.

(** Splicing the fresh node [p] between the last and the first node. *)
Lemma cyc_link m l p x y z d :
  cyc m l -> l <> [] -> p ∉ l.*1 -> m !! p = Some (mkNode d x y) ->
  z = alter (with_next p) (last_addr l NULL)
        (alter (with_prev p) (hd_addr l NULL)
           (alter (with_prev (last_addr l NULL)) p (alter (with_next (hd_addr l NULL)) p m))) ->
  cyc z (l ++ [(p, d)]).
Proof.
  intros [Hnd Hc] Hne Hp Hm ->. unfold cyc.
  rewrite fmap_app, chain_app, hd_addr_app, last_addr_app. cbn [fmap list_fmap fst hd_addr last_addr].
  split.
  { apply NoDup_app. split_and!; [done| |apply NoDup_singleton].
    intros c Hc' Hcp. apply list_elem_of_singleton in Hcp. by subst. }
  pose proof (last_addr_in l NULL Hne) as Hlast.
  destruct l as [|[a e] l]; [done|]. cbn [hd_addr] in *.
  assert (Hpa : p <> a) by set_solver.
  assert (Hpl : p <> last_addr ((a, e) :: l) NULL) by (intros ->; done).
  split.
  - change (last_addr ((a, e) :: l) NULL) with (last_addr ((a, e) :: l) p) at 1.
    eapply chain_set_next; [done|done|]. eapply chain_set_prev; [done|].
    eapply chain_frame; [|exact Hc]. intros b Hb.
    rewrite !lookup_alter_ne; [done|set_solver|set_solver].
  - simpl. split; [|done]. rewrite !lookup_alter_ne, !lookup_alter_eq, Hm by done. done.
Qed.

(** Unlinking the first node. *)
Lemma cyc_unlink m l a d :
  cyc m ((a, d) :: l) -> l <> [] ->
  cyc (delete a (alter (with_prev (last_addr l NULL)) (hd_addr l NULL)
        (alter (with_next (hd_addr l NULL)) (last_addr l NULL) m))) l.
Proof.
  intros [Hnd Hc] Hne. cbn in Hnd. apply NoDup_cons in Hnd as [Ha Hnd].
  destruct l as [|[b e] l]; [done|]. split; [done|].
  destruct Hc as [Hm Hc].
  eapply chain_frame.
  { intros c Hc'. apply lookup_delete_ne. set_solver. }
  eapply (chain_set_prev _ a); [done|].
  change (last_addr ((b, e) :: l) NULL) with (last_addr ((b, e) :: l) a).
  eapply chain_set_next; [done|done|exact Hc].
Qed.

Lemma cyc_dom m l a : cyc m l -> a ∈ l.*1 -> is_Some (m !! a).
Proof. intros [_ Hc]. by eapply chain_dom. Qed.

Lemma cyc_frame m m' l : (forall a, a ∈ l.*1 -> m' !! a = m !! a) -> cyc m l -> cyc m' l.
Proof. intros Hm [? ?]. split; [done|]. by eapply chain_frame. Qed.

Lemma repr_nonnull h head l : heap_ok h -> repr h head l -> l <> [] -> head <> NULL.
Proof.
  intros (_ & Hn & _) [-> Hc] Hne Heq.
  destruct (cyc_dom _ _ (hd_addr l NULL) Hc) as [x Hx].
  { destruct l as [|[a d] l]; [done|]. set_solver. }
  congruence.
Qed.

(** ** The operations *)

Lemma mk_node_spec h data : heap_ok h ->
  exists h1, _evlMkListNode h data = (brk h, h1) /\ heap_ok h1 /\ brk h1 = brk h + 1 /\
    mem h1 !! brk h = Some (mkNode data (brk h) (brk h)) /\
    forall a, a <> brk h -> mem h1 !! a = mem h !! a.
Proof.
  intros (Hb & Hn & Hf). eexists. split; [done|]. simpl.
  assert (forall a x y, a <> brk h ->
    <[brk h := y]> (<[brk h := x]> (mem h)) !! a = mem h !! a) as Hne.
  { intros. by rewrite !lookup_insert_ne by done. }
  split_and!.
  - split; simpl; [lia|]. split; [|intros a Ha]; rewrite Hne; unfold NULL in *; try lia; [done|].
    apply Hf. lia.
  - done.
  - by rewrite lookup_insert_eq.
  - intros a Ha. by apply Hne.
Qed.

Lemma brk_fresh h l : heap_ok h -> cyc (mem h) l -> brk h ∉ l.*1.
Proof.
  intros (_ & _ & Hf) Hc Hin. destruct (cyc_dom _ _ _ Hc Hin) as [x Hx].
  rewrite Hf in Hx; [done|lia].
Qed.

Lemma alter_ok h (m : gmap Z evl_listnode) :
  heap_ok h -> (forall a, is_Some (m !! a) -> is_Some (mem h !! a)) -> heap_ok (mkHeap m (brk h)).
Proof.
  intros (Hb & Hn & Hf) Hm. split; [done|]. simpl. split.
  - apply eq_None_not_Some. intros Hs%Hm. rewrite Hn in Hs. by destruct Hs.
  - intros a Ha. apply eq_None_not_Some. intros Hs%Hm. rewrite Hf in Hs by lia. by destruct Hs.
Qed.

Definition splice (m : gmap Z evl_listnode) (p b t : Z) : gmap Z evl_listnode :=
  alter (with_next p) t (alter (with_prev p) b (alter (with_prev t) p (alter (with_next b) p m))).

Lemma splice_dom m p b t a : is_Some (splice m p b t !! a) -> is_Some (m !! a).
Proof. unfold splice. by rewrite !lookup_alter_is_Some. Qed.

Lemma splice_ne m p b t a : a <> p -> a <> b -> a <> t -> splice m p b t !! a = m !! a.
Proof. intros. unfold splice. by rewrite !lookup_alter_ne by done. Qed.

Lemma splice_comm m p b t :
  alter (with_prev p) b (alter (with_next p) t (alter (with_prev t) p (alter (with_next b) p m)))
  = splice m p b t.
Proof.
  unfold splice. apply map_eq. intros i.
  set (m' := alter (with_prev t) p _).
  destruct (decide (i = b)), (decide (i = t)); subst;
    repeat first [rewrite lookup_alter_eq | rewrite lookup_alter_ne by done]; try done.
  by destruct (m' !! _).
Qed.

(** What the header of a non-empty list gives access to. *)
Lemma cyc_ends m l : cyc m l -> l <> [] ->
  (exists n, m !! hd_addr l NULL = Some n /\ li_prev n = last_addr l NULL) /\ is_Some (m !! last_addr l NULL).
Proof.
  intros Hc Hne. pose proof (cyc_dom _ _ _ Hc (last_addr_in l NULL Hne)) as Hl. split; [|done].
  destruct l as [|[a e] l]; [done|]. destruct Hc as [_ [Hma Hc]]. by eauto.
Qed.

Ltac heap_side := cbn [mem]; rewrite ?lookup_alter_is_Some; eauto.
Ltac heap_steps :=
  repeat (first [rewrite set_next_alter by heap_side | rewrite set_prev_alter by heap_side];
          cbn [mbind option_bind mem brk]).

(** The fresh node [p] is linked in front of the first node of [l]. *)
Lemma insert_node_spec h p l n :
  cyc (mem h) l -> l <> [] -> mem h !! p = Some n ->
  _evlInsertListNode h p (hd_addr l NULL) =
    Some (mkHeap (splice (mem h) p (hd_addr l NULL) (last_addr l NULL)) (brk h)).
Proof.
  intros Hc Hne Hp. destruct (cyc_ends _ _ Hc Hne) as [(hd & Hhd & Hpv) Hl].
  unfold _evlInsertListNode, rd. rewrite Hhd. cbn [mbind option_bind]. rewrite Hpv.
  heap_steps. by rewrite splice_comm.
Qed.

(** Appending a data item appends a new cell; the other lists are untouched. *)
Theorem append_spec h head l data :
  heap_ok h -> repr h head l ->
  exists head' h', _evlAppendToList h head data = Some (head', h') /\
    heap_ok h' /\ repr h' head' (l ++ [(brk h, data)]) /\
    forall a, a ∉ l.*1 -> a <> brk h -> mem h' !! a = mem h !! a.
Proof.
  intros Hok Hr. pose proof Hr as [Hhd Hc].
  destruct (mk_node_spec h data Hok) as (h1 & Hmk & Hok1 & Hbrk & Hp & Hfr).
  pose proof (brk_fresh _ _ Hok Hc) as Hfresh.
  unfold _evlAppendToList. rewrite Hmk.
  destruct (decide (l = [])) as [->|Hne].
  - simpl in Hhd; subst head. cbn [negb Z.eqb NULL]. heap_steps.
    do 2 eexists. split; [done|]. split; [|split].
    + apply alter_ok; [done|]. intros a. by rewrite !lookup_alter_is_Some.
    + split; [done|]. split; [apply NoDup_singleton|]. simpl. split; [|done]. rewrite !lookup_alter_eq, Hp. done.
    + intros a _ Ha. simpl. rewrite !lookup_alter_ne by done. by apply Hfr.
  - rewrite (proj2 (Z.eqb_neq head NULL)) by exact (repr_nonnull h head l Hok Hr Hne). cbn [negb]. subst head.
    assert (cyc (mem h1) l) as Hc1.
    { eapply cyc_frame; [|done]. intros a Ha. apply Hfr. intros ->. done. }
    destruct (cyc_ends _ _ Hc1 Hne) as [(hd & Hhd & Hpv) Hl].
    unfold rd. rewrite Hhd. cbn [mbind option_bind]. rewrite Hpv. heap_steps.
    do 2 eexists. split; [done|]. split; [|split].
    + apply alter_ok; [done|]. intros a. apply splice_dom.
    + split; [by destruct l as [|[]]|]. by eapply cyc_link.
    + intros a Ha Hab. cbn [mem]. etransitivity; [apply splice_ne|by apply Hfr]; [done| |].
      * intros ->. apply Ha. destruct l as [|[]]; [done|]. set_solver.
      * intros ->. by apply Ha, last_addr_in.
Qed.

Lemma cell_nonnull h l a : heap_ok h -> cyc (mem h) l -> a ∈ l.*1 -> a <> NULL.
Proof.
  intros (_ & Hn & _) Hc Ha ->. destruct (cyc_dom _ _ _ Hc Ha) as [x Hx]. congruence.
Qed.

(** Inserting in front of a node of the list. *)
Theorem insert_spec h head l1 b d l2 data :
  heap_ok h -> repr h head (l1 ++ (b, d) :: l2) ->
  exists head' h', _evlInsertToList h data b head = Some (head', h') /\
    heap_ok h' /\ repr h' head' (l1 ++ (brk h, data) :: (b, d) :: l2).
Proof.
  intros Hok [-> Hc].
  destruct (mk_node_spec h data Hok) as (h1 & Hmk & Hok1 & Hbrk & Hp & Hfr).
  pose proof (brk_fresh _ _ Hok Hc) as Hfresh.
  assert (b <> NULL) as Hb.
  { eapply cell_nonnull; [exact Hok|exact Hc|]. rewrite fmap_app. set_solver. }
  set (r := ((b, d) :: l2) ++ l1).
  assert (cyc (mem h1) r) as Hc1.
  { apply (cyc_rotate _ l1). apply (cyc_frame (mem h)); [|exact Hc]. intros a Ha. apply Hfr. by intros ->. }
  assert (brk h ∉ r.*1) as Hfr'.
  { unfold r. rewrite fmap_app in *. set_solver. }
  unfold _evlInsertToList. rewrite Hmk. rewrite (proj2 (Z.eqb_neq b NULL)) by done.
  pose proof (insert_node_spec h1 (brk h) r _ Hc1 ltac:(done) Hp) as Hins.
  change (hd_addr r NULL) with b in Hins. rewrite Hins. cbn [mbind option_bind].
  do 2 eexists. split; [done|]. split; [|split].
  - apply alter_ok; [done|]. intros a. apply splice_dom.
  - destruct l1 as [|[a e] l1]; simpl; [by rewrite Z.eqb_refl|].
    rewrite (proj2 (Z.eqb_neq b a)); [done|].
    destruct Hc as [Hnd _]. cbn in Hnd. apply NoDup_cons in Hnd as [Ha _].
    rewrite fmap_app in Ha. set_solver.
  - change ((brk h, data) :: (b, d) :: l2) with ([(brk h, data)] ++ (b, d) :: l2).
    rewrite app_assoc. apply cyc_rotate. unfold r.
    rewrite app_assoc. by eapply cyc_link.
Qed.

Lemma unlink_spec h r d l n :
  heap_ok h -> cyc (mem h) ((r, d) :: l) -> l <> [] -> mem h !! r = Some n ->
  exists h', (h1 ← set_next h (li_prev n) (li_next n);
              h2 ← set_prev h1 (li_next n) (li_prev n); free h2 r) = Some h' /\
    heap_ok h' /\ cyc (mem h') l /\ brk h' = brk h.
Proof.
  intros Hok Hc Hne Hr. pose proof Hc as [_ [Hm _]]. rewrite Hr in Hm. simplify_eq. cbn [li_prev li_next].
  pose proof (cyc_unlink _ _ _ _ Hc Hne) as Hu.
  change (last_addr ((r, d) :: l) NULL) with (last_addr l r).
  assert (hd_addr l r = hd_addr l NULL /\ last_addr l r = last_addr l NULL) as [Eh El]
    by (by destruct l as [|[]]).
  change (hd_addr ((r, d) :: l) NULL) with r. rewrite ?Eh, ?El.
  assert (hd_addr l NULL ∈ ((r, d) :: l).*1) as Hh.
  { apply elem_of_cons. right. destruct l as [|[]]; [done|]. apply elem_of_cons. by left. }
  assert (last_addr l NULL ∈ ((r, d) :: l).*1) as Hl.
  { apply elem_of_cons. right. by apply last_addr_in. }
  pose proof (cyc_dom _ _ _ Hc Hh). pose proof (cyc_dom _ _ _ Hc Hl).
  heap_steps. unfold free, rd. cbn [mem].
  destruct (alter _ _ (alter _ _ (mem h)) !! r) as [x|] eqn:Hx; [|exfalso].
  - cbn. eexists. split; [done|]. split; [|by split].
    apply alter_ok; [done|]. intros a [y Hy].
    apply lookup_delete_Some in Hy as [_ Hy].
    apply mk_is_Some in Hy. by rewrite !lookup_alter_is_Some in Hy.
  - apply eq_None_not_Some in Hx. apply Hx. apply lookup_alter_is_Some, lookup_alter_is_Some. eauto.
Qed.

(** Removing a node removes its cell; the new header is the old one, its
    successor, or null. *)
Theorem remove_spec h head l1 r d l2 :
  heap_ok h -> repr h head (l1 ++ (r, d) :: l2) ->
  exists head' h', _evlRemoveNode h r head = Some (head', h') /\
    heap_ok h' /\ repr h' head' (l1 ++ l2).
Proof.
  intros Hok [-> Hc].
  assert (forall a, a ∈ (l1 ++ (r, d) :: l2).*1 -> a <> NULL) as Hnn.
  { intros a. by apply (cell_nonnull h). }
  rewrite fmap_app in Hnn.
  unfold _evlRemoveNode. rewrite (proj2 (Z.eqb_neq r NULL)) by (apply Hnn; set_solver).
  rewrite (proj2 (Z.eqb_neq (hd_addr _ _) NULL))
    by (apply Hnn; destruct l1 as [|[]]; set_solver). cbn [orb].
  pose proof (cyc_rotate _ _ _ Hc) as Hr. cbn [app] in Hr.
  destruct (cyc_dom _ _ r Hr) as [n Hn]; [set_solver|].
  unfold rd. rewrite Hn. cbn [mbind option_bind].
  destruct (decide (l2 ++ l1 = [])) as [Hnil|Hne].
  - apply app_eq_nil in Hnil as [-> ->]. cbn [app hd_addr] in *. rewrite Z.eqb_refl, Hn. cbn [mbind option_bind].
    destruct Hr as [_ [Hm _]]. rewrite Hn in Hm. simplify_eq/=. rewrite Z.eqb_refl. cbn [mbind option_bind].
    heap_steps. unfold free, rd. cbn [mem]. rewrite !lookup_alter_eq, Hn. cbn.
    do 2 eexists. split; [done|]. split; [|split; [done|by split; [apply NoDup_nil|]]].
    apply alter_ok; [done|]. intros a [y Hy]. apply lookup_delete_Some in Hy as [_ Hy].
    apply mk_is_Some in Hy. by rewrite !lookup_alter_is_Some in Hy.
  - destruct (unlink_spec h r d _ n Hok Hr Hne Hn) as (h' & Hu & Hok' & Hc' & _).
    assert ((if r =? hd_addr (l1 ++ (r, d) :: l2) NULL
             then hd ← mem h !! hd_addr (l1 ++ (r, d) :: l2) NULL;
               Some (if li_next hd =? hd_addr (l1 ++ (r, d) :: l2) NULL then NULL else li_next hd)
             else Some (hd_addr (l1 ++ (r, d) :: l2) NULL)) = Some (hd_addr (l1 ++ l2) NULL)) as ->.
    { destruct l1 as [|[a e] l1]; cbn [app hd_addr] in *.
      - rewrite Z.eqb_refl, Hn. cbn [mbind option_bind]. rewrite app_nil_r in *.
        destruct Hr as [Hnd [Hm _]]. rewrite Hn in Hm. simplify_eq. cbn [li_next].
        destruct l2 as [|[b f] l2]; [done|]. cbn [hd_addr].
        rewrite (proj2 (Z.eqb_neq b r)); [done|]. cbn in Hnd.
        apply NoDup_cons in Hnd as [Hnd _]. set_solver.
      - rewrite (proj2 (Z.eqb_neq r a)); [done|]. destruct Hc as [Hnd _]. cbn in Hnd.
        apply NoDup_cons in Hnd as [Hnd _]. rewrite fmap_app in Hnd. set_solver. }
    cbn [mbind option_bind] in Hu |- *.
    destruct (set_next h (li_prev n) (li_next n)) as [h1|]; [|done]. cbn [mbind option_bind] in *.
    destruct (set_prev h1 _ _) as [h2|]; [|done]. cbn [mbind option_bind] in *. rewrite Hu. cbn.
    do 2 eexists. split; [done|]. split; [done|]. split; [done|]. by apply cyc_rotate.
Qed.

(** ** The traversals *)

Lemma cyc_length h l : cyc (mem h) l -> (length l <= fuel_of h)%nat.
Proof.
  intros Hc. pose proof Hc as [Hnd _]. unfold fuel_of. rewrite <-size_dom.
  rewrite <-(length_fmap fst l). rewrite <-(size_list_to_set (C := gset Z)) by done.
  apply subseteq_size. intros a Ha%elem_of_list_to_set. apply elem_of_dom. by eapply cyc_dom.
Qed.

(** [walk] unrolls a traversal: the nodes still to visit are [c :: l]. *)
Lemma chain_step m p a d l head :
  chain m p ((a, d) :: l) head -> head ∉ l.*1 ->
  m !! a = Some (mkNode d (hd_addr l head) p) /\
  (hd_addr l head =? head) = bool_decide (l = []).
Proof.
  intros [Hm _] Hh. split; [done|]. destruct l as [|[b e] l]; simpl.
  - by rewrite Z.eqb_refl.
  - rewrite (proj2 (Z.eqb_neq b head)); [done|]. set_solver.
Qed.

Lemma size_loop_spec h head fuel : forall l p a d n,
  (length l < fuel)%nat -> chain (mem h) p ((a, d) :: l) head -> head ∉ l.*1 ->
  size_loop fuel h head a n = Some (n + Z.of_nat (length ((a, d) :: l))).
Proof.
  induction fuel as [|f IH]; intros l p a d n Hf Hc Hh; [lia|].
  destruct (chain_step _ _ _ _ _ _ Hc Hh) as [Hm Hb]. cbn [size_loop]. unfold rd.
  rewrite Hm. cbn [mbind option_bind li_next]. rewrite Hb.
  destruct l as [|[b e] l]; [done|]. cbn [bool_decide decide]. destruct Hc as [_ Hc].
  rewrite bool_decide_eq_false_2 by done.
  rewrite (IH l a b e) by (cbn in Hf; done || lia || set_solver). f_equal. cbn [length]. lia.
Qed.

Lemma size_spec h head l :
  heap_ok h -> repr h head l -> _evlGetListSize h head = Some (Z.of_nat (length l)).
Proof.
  intros Hok Hr. pose proof Hr as [-> Hc]. unfold _evlGetListSize.
  destruct l as [|[a d] l]; [done|].
  rewrite (proj2 (Z.eqb_neq _ NULL)) by (by apply (repr_nonnull h _ ((a, d) :: l))).
  pose proof (cyc_length _ _ Hc). destruct Hc as [Hnd Hc]. cbn in Hnd. apply NoDup_cons in Hnd as [Ha _].
  by erewrite size_loop_spec.
Qed.

Definition names_match (name_of : Z -> option str) (name : str) (c : Z * Z) : bool :=
  match name_of c.2 with Some pname => streqb pname name | None => false end.

Lemma find_loop_spec name_of name h head fuel : forall l p a d,
  (length l < fuel)%nat -> chain (mem h) p ((a, d) :: l) head -> head ∉ l.*1 ->
  find_loop name_of name fuel h head a =
    Some (hd_addr (List.filter (names_match name_of name) ((a, d) :: l)) NULL).
Proof.
  induction fuel as [|f IH]; intros l p a d Hf Hc Hh; [lia|].
  destruct (chain_step _ _ _ _ _ _ Hc Hh) as [Hm Hb]. cbn [find_loop]. unfold rd.
  rewrite Hm. cbn [mbind option_bind li_next li_data List.filter].
  change (match name_of d with Some pname => streqb pname name | None => false end)
    with (names_match name_of name (a, d)).
  destruct (names_match name_of name (a, d)); [done|]. rewrite Hb.
  destruct l as [|[b e] l]; [done|]. destruct Hc as [_ Hc].
  rewrite bool_decide_eq_false_2 by done.
  apply (IH l a b e); [cbn in Hf; lia|done|set_solver].
Qed.

(** The first node whose object has the name, or null. *)
Theorem list_search_spec name_of h head l name :
  heap_ok h -> repr h head l ->
  _evlFindNamedItemInList name_of h head name =
    Some (hd_addr (List.filter (names_match name_of name) l) NULL).
Proof.
  intros Hok Hr. pose proof Hr as [-> Hc]. unfold _evlFindNamedItemInList.
  destruct l as [|[a d] l]; [done|].
  rewrite (proj2 (Z.eqb_neq _ NULL)) by (by apply (repr_nonnull h _ ((a, d) :: l))).
  pose proof (cyc_length _ _ Hc). destruct Hc as [Hnd Hc]. cbn in Hnd. apply NoDup_cons in Hnd as [Ha _].
  by erewrite find_loop_spec.
Qed.

Lemma nth_loop_spec h head fuel : forall l p a d i k,
  (length l < fuel)%nat -> chain (mem h) p ((a, d) :: l) head -> head ∉ l.*1 ->
  nth_loop fuel h head a i (i + Z.of_nat k) =
    Some (default NULL (((a, d) :: l).*1 !! k)).
Proof.
  induction fuel as [|f IH]; intros l p a d i k Hf Hc Hh; [lia|].
  destruct (chain_step _ _ _ _ _ _ Hc Hh) as [Hm Hb]. cbn [nth_loop].
  destruct k as [|k]; [by rewrite Z.add_0_r, Z.eqb_refl|].
  rewrite (proj2 (Z.eqb_neq _ _)) by lia. unfold rd. rewrite Hm. cbn [mbind option_bind li_next].
  rewrite Hb. destruct l as [|[b e] l]; [done|]. destruct Hc as [_ Hc].
  rewrite bool_decide_eq_false_2 by done.
  replace (i + Z.of_nat (S k)) with (i + 1 + Z.of_nat k) by lia.
  apply (IH l a b e); [cbn in Hf; lia|done|set_solver].
Qed.

(** The [n]th value, or null beyond the end. *)
Theorem nth_spec h head l n :
  heap_ok h -> repr h head l -> 0 <= n ->
  _evlGetNthValue h head n = Some (default NULL (l.*2 !! Z.to_nat n)).
Proof.
  intros Hok Hr Hn. pose proof Hr as [-> Hc]. unfold _evlGetNthValue, _evlGetNthNode.
  destruct l as [|[a d] l]; [done|].
  rewrite (proj2 (Z.eqb_neq _ NULL)) by (by apply (repr_nonnull h _ ((a, d) :: l))).
  pose proof (cyc_length _ _ Hc). pose proof Hc as [Hnd Hch]. cbn in Hnd. apply NoDup_cons in Hnd as [Ha _].
  replace n with (0 + Z.of_nat (Z.to_nat n)) at 1 by lia.
  erewrite nth_loop_spec by done. cbn [mbind option_bind].
  rewrite !list_lookup_fmap.
  cbn [hd_addr]. destruct (((a, d) :: l) !! Z.to_nat n) as [[b e]|] eqn:Hl; [|done]. cbn.
  assert (b ∈ ((a, d) :: l).*1) as Hb.
  { apply list_elem_of_fmap. exists (b, e). split; [done|]. by eapply list_elem_of_lookup_2. }
  rewrite (proj2 (Z.eqb_neq _ NULL)) by (by apply (cell_nonnull h ((a, d) :: l))).
  unfold rd. destruct Hc as [_ Hc]. apply list_elem_of_split_length in Hl as (l1 & l2 & Hl & _).
  rewrite Hl in Hc. apply chain_app in Hc as [_ [Hm _]]. by rewrite Hm.
Qed.

Lemma free_loop_spec head fuel : forall h l p a d,
  (length l < fuel)%nat -> NoDup ((a, d) :: l).*1 -> chain (mem h) p ((a, d) :: l) head ->
  head ∉ l.*1 ->
  exists h', free_loop fuel h head a = Some h' /\
    (forall b, mem h' !! b = if decide (b ∈ ((a, d) :: l).*1) then None else mem h !! b).
Proof.
  induction fuel as [|f IH]; intros h l p a d Hf Hnd Hc Hh; [lia|].
  destruct (chain_step _ _ _ _ _ _ Hc Hh) as [Hm Hb]. cbn [free_loop]. unfold free, rd.
  rewrite Hm. cbn [mbind option_bind li_next]. rewrite Hb. apply NoDup_cons in Hnd as [Ha Hnd].
  destruct l as [|[b e] l].
  - eexists. split; [done|]. intros b. cbn [mem]. rewrite lookup_delete.
    repeat case_decide; set_solver.
  - rewrite bool_decide_eq_false_2 by done. destruct Hc as [_ Hc].
    set (h1 := mkHeap _ _).
    destruct (IH h1 l a b e) as (h' & Hl & Hm'); [cbn in Hf; lia|done| |set_solver|].
    { eapply chain_frame; [|exact Hc]. intros c Hc'. apply lookup_delete_ne. set_solver. }
    cbn [hd_addr]. rewrite Hl. eexists. split; [done|]. intros c. rewrite Hm'. cbn [mem h1].
    rewrite lookup_delete. repeat case_decide; set_solver.
Qed.

(** Freeing a list frees exactly its nodes, each once. *)
Theorem free_spec h head l :
  heap_ok h -> repr h head l ->
  exists h', _evlFreeList h head = Some h' /\
    forall b, mem h' !! b = if decide (b ∈ l.*1) then None else mem h !! b.
Proof.
  intros Hok Hr. pose proof Hr as [-> Hc]. unfold _evlFreeList.
  destruct l as [|[a d] l].
  { eexists. split; [done|]. intros b. case_decide; set_solver. }
  rewrite (proj2 (Z.eqb_neq _ NULL)) by (by apply (repr_nonnull h _ ((a, d) :: l))).
  pose proof (cyc_length _ _ Hc). pose proof Hc as [Hnd Hch]. cbn in Hnd.
  eapply free_loop_spec; [|exact Hnd|exact Hch|]; [done|].
  by apply NoDup_cons in Hnd as [? _].
Qed.

(** The daemons' lists start with a dataless header that is never removed. *)
Lemma removeNode_spec h head x l1 r d l2 :
  heap_ok h -> repr h head ((head, x) :: l1 ++ (r, d) :: l2) ->
  exists h', removeNode h r = Some h' /\ heap_ok h' /\ repr h' head ((head, x) :: l1 ++ l2).
Proof.
  intros Hok [_ Hc].
  pose proof (cyc_rotate _ ((head, x) :: l1) _ Hc) as Hr. cbn [app] in Hr.
  destruct (cyc_dom _ _ r Hr) as [n Hn]; [set_solver|].
  destruct (unlink_spec h r d (l2 ++ (head, x) :: l1) n) as (h' & Hu & Hok' & Hc' & _); try done.
  { by destruct l2. }
  exists h'. unfold removeNode, rd. rewrite Hn. cbn [mbind option_bind]. split; [exact Hu|].
  split; [done|]. split; [done|]. by apply (cyc_rotate _ l2 ((head, x) :: l1)).
Qed.

Lemma remove_all_loop_spec head x fuel : forall h l a d,
  (length l < fuel)%nat -> heap_ok h -> repr h head ((head, x) :: (a, d) :: l) ->
  exists h', remove_all_loop fuel h head a = Some h' /\ heap_ok h' /\ repr h' head [(head, x)].
Proof.
  induction fuel as [|f IH]; intros h l a d Hf Hok Hr; [lia|]. cbn [remove_all_loop].
  pose proof Hr as [_ [Hnd [Hm [Ha _]]]]. unfold rd. rewrite Ha. cbn [mbind option_bind li_next].
  destruct (removeNode_spec h head x [] a d l Hok Hr) as (h' & -> & Hok' & Hr').
  cbn [mbind option_bind app] in *. destruct l as [|[b e] l]; cbn [hd_addr].
  - rewrite Z.eqb_refl. by eexists.
  - rewrite (proj2 (Z.eqb_neq b head)); [|cbn in Hnd; apply NoDup_cons in Hnd as [Hnd _]; set_solver].
    apply (IH h' l b e); [cbn in Hf; lia|done|done].
Qed.

Theorem removeAllNodes_spec h head x l :
  heap_ok h -> repr h head ((head, x) :: l) ->
  exists h', removeAllNodes h head = Some h' /\ heap_ok h' /\ repr h' head [(head, x)].
Proof.
  intros Hok Hr. pose proof Hr as [_ Hc]. pose proof (cyc_length _ _ Hc) as Hlen.
  destruct Hc as [Hnd [Hm _]]. unfold removeAllNodes, rd. rewrite Hm. cbn [mbind option_bind li_next].
  destruct l as [|[a d] l]; cbn [hd_addr].
  - rewrite Z.eqb_refl. eauto.
  - rewrite (proj2 (Z.eqb_neq head a)); [|cbn in Hnd; apply NoDup_cons in Hnd as [Hnd _]; set_solver].
    eapply remove_all_loop_spec; [|done..]. cbn in Hlen. lia.
Qed.

(** ** A list of three nodes *)

Definition three_nodes : heap :=
  mkHeap {[ 16 := mkNode 100 17 18; 17 := mkNode 101 18 16; 18 := mkNode 102 16 17 ]} 19.
Lemma three_nodes_ok : heap_ok three_nodes.
Proof.
  split; [cbn; lia|]. split; [reflexivity|]. intros a Ha. cbn in Ha. unfold three_nodes. cbn [mem].
  rewrite !lookup_insert_ne by lia. by rewrite lookup_singleton_ne by lia.
Qed.
Lemma three_nodes_repr : repr three_nodes 16 [(16, 100); (17, 101); (18, 102)].
Proof. split; [reflexivity|]. split; [vm_compute; repeat constructor; set_solver|]. repeat split. Qed.

Lemma append_spec_witness : exists head' h',
  _evlAppendToList three_nodes 16 103 = Some (head', h') /\
  repr h' head' [(16, 100); (17, 101); (18, 102); (19, 103)].
Proof.
  destruct (append_spec three_nodes 16 _ 103 three_nodes_ok three_nodes_repr) as (hd' & h' & H1 & _ & H2 & _).
  exists hd', h'. split; [exact H1|exact H2].
Defined.
Lemma insert_spec_witness : exists head' h',
  _evlInsertToList three_nodes 103 17 16 = Some (head', h') /\
  repr h' head' [(16, 100); (19, 103); (17, 101); (18, 102)].
Proof.
  destruct (insert_spec three_nodes 16 [(16, 100)] 17 101 [(18, 102)] 103 three_nodes_ok three_nodes_repr)
    as (hd' & h' & H1 & _ & H2). exists hd', h'. split; [exact H1|exact H2].
Defined.
Lemma remove_spec_witness : exists head' h',
  _evlRemoveNode three_nodes 16 16 = Some (head', h') /\ repr h' head' [(17, 101); (18, 102)].
Proof.
  destruct (remove_spec three_nodes 16 [] 16 100 [(17, 101); (18, 102)] three_nodes_ok three_nodes_repr)
    as (hd' & h' & H1 & _ & H2). exists hd', h'. split; [exact H1|exact H2].
Defined.
Lemma free_spec_witness : exists h', _evlFreeList three_nodes 16 = Some h' /\ mem h' !! 17 = None.
Proof.
  destruct (free_spec three_nodes 16 _ three_nodes_ok three_nodes_repr) as (h' & H1 & H2).
  exists h'. split; [exact H1|]. rewrite H2. by rewrite decide_True by set_solver.
Defined.
Lemma list_search_spec_witness :
  _evlFindNamedItemInList (fun d => if d =? 101 then Some "b"%string else Some "a"%string) three_nodes 16 "b" = Some 17.
Proof.
  rewrite (list_search_spec _ three_nodes 16 _ "b" three_nodes_ok three_nodes_repr). reflexivity.
Defined.
Lemma nth_spec_witness : _evlGetNthValue three_nodes 16 2 = Some 102.
Proof. rewrite (nth_spec three_nodes 16 _ 2 three_nodes_ok three_nodes_repr) by lia. reflexivity. Defined.
Lemma removeAllNodes_spec_witness : exists h', removeAllNodes three_nodes 16 = Some h' /\ repr h' 16 [(16, 100)].
Proof.
  destruct (removeAllNodes_spec three_nodes 16 100 [(17, 101); (18, 102)] three_nodes_ok three_nodes_repr)
    as (h' & H1 & _ & H2). exists h'. split; [exact H1|exact H2].
Defined.
