(* ===== verification/NvPairs.v ===== *)
(** * Name-value tables ([lib/posix_evlsup.c], [include/linux/evl_log.h])

    The attribute selectors, the standard tables of facilities, severities,
    attributes, formats and management event types, and the lookups by value,
    by name and by case-insensitive name.  A table is the list of its entries
    before the [{0, 0}] terminator. *)
From S2P Require Import Prelude.

Record _evlNvPair := mkNv { nv_value : Z; nv_name : str }.

(** Attribute selectors. *)
Definition POSIX_LOG_ENTRY_DATA : Z := 0.
Definition POSIX_LOG_ENTRY_RECID : Z := 1.
Definition POSIX_LOG_ENTRY_SIZE : Z := 2.
Definition POSIX_LOG_ENTRY_FORMAT : Z := 3.
Definition POSIX_LOG_ENTRY_EVENT_TYPE : Z := 4.
Definition POSIX_LOG_ENTRY_FACILITY : Z := 5.
Definition POSIX_LOG_ENTRY_SEVERITY : Z := 6.
Definition POSIX_LOG_ENTRY_UID : Z := 7.
Definition POSIX_LOG_ENTRY_GID : Z := 8.
Definition POSIX_LOG_ENTRY_PID : Z := 9.
Definition POSIX_LOG_ENTRY_PGRP : Z := 10.
Definition POSIX_LOG_ENTRY_TIME : Z := 11.
Definition POSIX_LOG_ENTRY_FLAGS : Z := 12.
Definition POSIX_LOG_ENTRY_THREAD : Z := 13.
Definition POSIX_LOG_ENTRY_PROCESSOR : Z := 14.
Definition EVL_ENTRY_AGE : Z := 20.
Definition EVL_ENTRY_HOST : Z := 21.

(** Formats and flags. *)
Definition POSIX_LOG_NODATA : Z := 0.
Definition POSIX_LOG_BINARY : Z := 1.
Definition POSIX_LOG_STRING : Z := 2.
Definition POSIX_LOG_PRINTF : Z := 3.
Definition POSIX_LOG_TRUNCATE : Z := 1.
Definition EVL_KERNEL_EVENT : Z := 2.
Definition EVL_INTERRUPT : Z := 16.
Definition EVL_PRINTK : Z := 32.
Definition POSIX_LOG_ENTRY_MAXLEN : Z := 8192.
Definition POSIX_LOG_MEMSTR_MAXLEN : Z := 128.
Definition EVL_INVALID_FACILITY : Z := 4294967295.
Definition LOG_LOGMGMT : Z := 96.
Definition LOG_AUTHPRIV : Z := 80.

Definition _evlLinuxFacilities : list _evlNvPair :=
  [ mkNv 32 "AUTH"; mkNv 72 "CRON"; mkNv 24 "DAEMON"; mkNv 0 "KERN"; mkNv 48 "LPR";
    mkNv 16 "MAIL"; mkNv 56 "NEWS"; mkNv 40 "SYSLOG"; mkNv 8 "USER"; mkNv LOG_LOGMGMT "LOGMGMT";
    mkNv 64 "UUCP"; mkNv LOG_AUTHPRIV "AUTHPRIV"; mkNv 88 "FTP";
    mkNv 128 "LOCAL0"; mkNv 136 "LOCAL1"; mkNv 144 "LOCAL2"; mkNv 152 "LOCAL3";
    mkNv 160 "LOCAL4"; mkNv 168 "LOCAL5"; mkNv 176 "LOCAL6"; mkNv 184 "LOCAL7" ].

Definition _evlPosixFacilities : list _evlNvPair :=
  [ mkNv 32 "AUTH"; mkNv 72 "CRON"; mkNv 24 "DAEMON"; mkNv 0 "KERN"; mkNv 48 "LPR";
    mkNv 16 "MAIL"; mkNv 56 "NEWS"; mkNv 40 "SYSLOG"; mkNv 8 "USER"; mkNv LOG_LOGMGMT "LOGMGMT";
    mkNv 64 "UUCP";
    mkNv 128 "LOCAL0"; mkNv 136 "LOCAL1"; mkNv 144 "LOCAL2"; mkNv 152 "LOCAL3";
    mkNv 160 "LOCAL4"; mkNv 168 "LOCAL5"; mkNv 176 "LOCAL6"; mkNv 184 "LOCAL7" ].

Definition _evlSeverities : list _evlNvPair :=
  [ mkNv 0 "EMERG"; mkNv 1 "ALERT"; mkNv 2 "CRIT"; mkNv 3 "ERR"; mkNv 4 "WARNING";
    mkNv 5 "NOTICE"; mkNv 6 "INFO"; mkNv 7 "DEBUG" ].

Definition _evlAttributes : list _evlNvPair :=
  [ mkNv POSIX_LOG_ENTRY_RECID "recid"; mkNv POSIX_LOG_ENTRY_SIZE "size";
    mkNv POSIX_LOG_ENTRY_FORMAT "format"; mkNv POSIX_LOG_ENTRY_EVENT_TYPE "event_type";
    mkNv POSIX_LOG_ENTRY_FACILITY "facility"; mkNv POSIX_LOG_ENTRY_SEVERITY "severity";
    mkNv POSIX_LOG_ENTRY_UID "uid"; mkNv POSIX_LOG_ENTRY_GID "gid";
    mkNv POSIX_LOG_ENTRY_PID "pid"; mkNv POSIX_LOG_ENTRY_PGRP "pgrp";
    mkNv POSIX_LOG_ENTRY_TIME "time"; mkNv POSIX_LOG_ENTRY_FLAGS "flags";
    mkNv POSIX_LOG_ENTRY_THREAD "thread"; mkNv POSIX_LOG_ENTRY_PROCESSOR "processor" ].

Definition _evlFormats : list _evlNvPair :=
  [ mkNv POSIX_LOG_NODATA "NODATA"; mkNv POSIX_LOG_BINARY "BINARY";
    mkNv POSIX_LOG_STRING "STRING"; mkNv POSIX_LOG_PRINTF "PRINTF" ].

Definition _evlMgmtEventTypes : list _evlNvPair :=
  [ mkNv 1 "MGMT_TIMEMARK"; mkNv 2 "MGMT_STARTMAINT"; mkNv 3 "MGMT_ENDMAINT";
    mkNv 4 "MGMT_STOPLOGGING"; mkNv 5 "MGMT_STARTLOGGING" ].

(** The string stored to [*name]; [dflt = None] is a null default. *)
Fixpoint _evlGetNameByValue (table : list _evlNvPair) (value : Z) (dflt : option str) : str :=
  match table with
  | nv :: table' =>
      if nv_value nv =? value then nv_name nv else _evlGetNameByValue table' value dflt
  | [] => match dflt with Some d => d | None => fmt_d value end
  end.

Fixpoint _evlGetValueByName (table : list _evlNvPair) (name : str) (dflt : Z) : Z :=
  match table with
  | nv :: table' =>
      if streqb (nv_name nv) name then nv_value nv else _evlGetValueByName table' name dflt
  | [] => dflt
  end.

(** The value of [toupper( *s)], 0 at the end of the string. *)
Definition head_upper (s : str) : Z :=
  match s with EmptyString => toupper 0 | String c _ => toupper (schar c) end.

Fixpoint _evlCIStrcmp (s1 s2 : str) : Z :=
  match s1, s2 with
  | String c1 s1', String c2 s2' =>
      if toupper (schar c1) =? toupper (schar c2) then _evlCIStrcmp s1' s2'
      else toupper (schar c1) - toupper (schar c2)
  | _, _ => head_upper s1 - head_upper s2
  end.

Fixpoint _evlGetValueByCIName (table : list _evlNvPair) (name : str) (dflt : Z) : Z :=
  match table with
  | nv :: table' =>
      if _evlCIStrcmp (nv_name nv) name =? 0 then nv_value nv
      else _evlGetValueByCIName table' name dflt
  | [] => dflt
  end.

(** ** Lemmas *)

Lemma toupper_zero c : toupper (schar c) = 0 -> chr c = 0.
Proof.
  pose proof (chr_range c). unfold toupper, schar, signed.
  change (2 ^ (8 - 1)) with 128. change (2 ^ 8) with 256. intros Ht.
  destruct (_ && _) eqn:E in Ht; bprop; revert Ht; try revert H0; try revert H1; try clear E; dlia.
Qed.

(** [_evlCIStrcmp] is zero exactly on the strings that agree up to case. *)
Lemma ci_strcmp_zero s1 s2 :
  no_nul s1 = true -> no_nul s2 = true ->
  _evlCIStrcmp s1 s2 = 0 <-> upper_bytes s1 = upper_bytes s2.
Proof.
  revert s2; induction s1 as [|c1 s1 IH]; intros [|c2 s2]; cbn; [done| | |].
  - intros _ [H2 _]%andb_true_iff. split; [|done]. intros H.
    rewrite (toupper_zero c2) in H2; [done|]. change (toupper 0) with 0 in H. lia.
  - intros [H1 _]%andb_true_iff _. split; [|done]. intros H.
    rewrite (toupper_zero c1) in H1; [done|]. change (toupper 0) with 0 in H. lia.
  - intros [_ H1]%andb_true_iff [_ H2]%andb_true_iff.
    destruct (_ =? _) eqn:E; bprop.
    + rewrite IH by done. rewrite E. split; [by intros ->|by intros [=]].
    + split; [lia|]. intros [=]. lia.
Qed.

Lemma ci_strcmp_refl s : no_nul s = true -> _evlCIStrcmp s s = 0.
Proof. intros. by apply ci_strcmp_zero. Qed.

Lemma ci_strcmp_sym s1 s2 : no_nul s1 = true -> no_nul s2 = true ->
  _evlCIStrcmp s1 s2 = 0 -> _evlCIStrcmp s2 s1 = 0.
Proof. intros ??. rewrite !ci_strcmp_zero by done. done. Qed.

Lemma ci_strcmp_trans s1 s2 s3 :
  no_nul s1 = true -> no_nul s2 = true -> no_nul s3 = true ->
  _evlCIStrcmp s1 s2 = 0 -> _evlCIStrcmp s2 s3 = 0 -> _evlCIStrcmp s1 s3 = 0.
Proof. intros ???. rewrite !ci_strcmp_zero by done. congruence. Qed.

(** The tables in use have distinct values and distinct names up to case. *)
Definition table_ok (t : list _evlNvPair) : bool :=
  bool_decide (NoDup (nv_value <$> t)) && bool_decide (NoDup (upper_bytes ∘ nv_name <$> t)) &&
  forallb (fun nv => no_nul (nv_name nv)) t.

Lemma value_of_ci_name t name nv dflt :
  table_ok t = true -> nv ∈ t -> no_nul name = true -> upper_bytes name = upper_bytes (nv_name nv) ->
  _evlGetValueByCIName t name dflt = nv_value nv.
Proof.
  unfold table_ok. intros [[_ Hn%bool_decide_eq_true]%andb_true_iff Hnul]%andb_true_iff Hin Hname Heq.
  induction t as [|x t IH]; [by apply elem_of_nil in Hin|]. cbn in *.
  apply andb_true_iff in Hnul as [Hx Hnul]. apply NoDup_cons in Hn as [Hnx Hn].
  destruct (_ =? _) eqn:E; bprop.
  - apply ci_strcmp_zero in E; [|done..].
    apply elem_of_cons in Hin as [->|Hin]; [done|]. exfalso. apply Hnx.
    apply list_elem_of_fmap. exists nv. cbn. split; [congruence|done].
  - apply elem_of_cons in Hin as [->|Hin]; [|by apply IH].
    destruct E. apply ci_strcmp_zero; done.
Qed.

Lemma name_of_value t nv dflt :
  table_ok t = true -> nv ∈ t -> _evlGetNameByValue t (nv_value nv) dflt = nv_name nv.
Proof.
  unfold table_ok. intros [[Hn%bool_decide_eq_true _]%andb_true_iff _]%andb_true_iff Hin.
  induction t as [|x t IH]; [by apply elem_of_nil in Hin|]. cbn in *.
  apply NoDup_cons in Hn as [Hnx Hn]. destruct (_ =? _) eqn:E; bprop.
  - apply elem_of_cons in Hin as [->|Hin]; [done|]. exfalso. apply Hnx.
    apply list_elem_of_fmap. by exists nv.
  - apply elem_of_cons in Hin as [->|Hin]; [done|]. by apply IH.
Qed.

Lemma tables_ok :
  forallb table_ok [_evlLinuxFacilities; _evlPosixFacilities; _evlSeverities; _evlAttributes;
                    _evlFormats; _evlMgmtEventTypes] = true.
Proof. reflexivity. Qed.

(** The case-insensitive comparison is zero exactly on names that agree up to
    case; every name of the standard tables is found, in any case, with its own
    value, and every value with its own name. *)
Theorem ci_lookup_correct t nv name dflt :
  t ∈ [_evlLinuxFacilities; _evlPosixFacilities; _evlSeverities; _evlAttributes; _evlFormats; _evlMgmtEventTypes] ->
  nv ∈ t -> no_nul name = true ->
  (_evlCIStrcmp name (nv_name nv) = 0 <-> upper_bytes name = upper_bytes (nv_name nv)) /\
  (upper_bytes name = upper_bytes (nv_name nv) -> _evlGetValueByCIName t name dflt = nv_value nv) /\
  _evlGetNameByValue t (nv_value nv) None = nv_name nv.
Proof.
  intros Ht Hnv Hn. assert (table_ok t = true) as Hok.
  { pose proof tables_ok as H. rewrite forallb_forall in H. apply H. by apply list_elem_of_In. }
  assert (no_nul (nv_name nv) = true) as Hnn.
  { unfold table_ok in Hok. apply andb_true_iff in Hok as [_ Hok]. rewrite forallb_forall in Hok.
    apply Hok. by apply list_elem_of_In. }
  split; [by apply ci_strcmp_zero|]. split; [intros Hu; by apply value_of_ci_name|]. by apply name_of_value.
Qed.
Lemma ci_lookup_correct_witness : _evlGetValueByCIName _evlSeverities "wArNiNg" (-1) = 4.
Proof.
  apply (ci_lookup_correct _evlSeverities (mkNv 4 "WARNING") "wArNiNg" (-1)).
  - set_solver.
  - apply list_elem_of_In. vm_compute. tauto.
  - reflexivity.
  - reflexivity.
Defined.
