(* ===== verification/LogRecord.v ===== *)
(** * Event records and their byte layout ([include/linux/evl_log.h], [include/evlog.h])

    [struct posix_log_entry] and the log file's header [log_header_t], as
    records of integers and as the bytes of the x86-64 (LP64, little-endian)
    layout with its padding, which is what the library writes to the log file
    and to the daemons' sockets. *)
From S2P Require Import Prelude NvPairs.

Record posix_log_entry := mkEntry {
  log_magic : Z;            (* unsigned int *)
  log_recid : Z;            (* int *)
  log_size : Z;             (* size_t *)
  log_format : Z;           (* int *)
  log_event_type : Z;       (* int *)
  log_facility : Z;         (* unsigned int *)
  log_severity : Z;         (* int *)
  log_uid : Z;              (* unsigned int *)
  log_gid : Z;              (* unsigned int *)
  log_pid : Z;              (* int *)
  log_pgrp : Z;             (* int *)
  log_time_sec : Z;         (* long *)
  log_time_nsec : Z;        (* long *)
  log_flags : Z;            (* unsigned int *)
  log_thread : Z;           (* unsigned long *)
  log_processor : Z         (* int *)
}.

Definition LOGFILE_MAGIC : Z := 0xbeefface.
Definition LOGREC_MAGIC : Z := 0xfeefface.
Definition REC_HDR_SIZE : Z := 88.
Definition SIZESIZE : Z := 4.

(** ** A C struct as a sequence of fields *)

Fixpoint encode_fields (ws : list nat) (vs : list Z) : list Z :=
  match ws, vs with
  | w :: ws', v :: vs' => le_encode w v ++ encode_fields ws' vs'
  | _, _ => []
  end.
Fixpoint decode_fields (ws : list nat) (bs : list Z) : list Z :=
  match ws with
  | w :: ws' => le_decode (take w bs) :: decode_fields ws' (drop w bs)
  | [] => []
  end.

Lemma length_encode_fields ws vs : length ws = length vs ->
  length (encode_fields ws vs) = sum_list ws.
Proof.
  revert vs; induction ws as [|w ws IH]; intros [|v vs]; cbn; try done. intros [= H].
  rewrite length_app, length_le_encode, IH by done. done.
Qed.

Lemma decode_encode_fields ws vs : length ws = length vs ->
  decode_fields ws (encode_fields ws vs) = zip_with (fun w v => v mod 256 ^ Z.of_nat w) ws vs.
Proof.
  revert vs; induction ws as [|w ws IH]; intros [|v vs]; cbn; try done. intros [= H].
  rewrite take_app_length', drop_app_length' by (symmetry; apply length_le_encode).
  rewrite le_decode_encode, IH by done. done.
Qed.

Lemma encode_fields_bytes ws vs : Forall is_byte (encode_fields ws vs).
Proof.
  revert vs; induction ws as [|w ws IH]; intros [|v vs]; cbn; try done.
  apply Forall_app. split; [apply le_encode_bytes|apply IH].
Qed.

Lemma decode_fields_app ws bs rest : length bs = sum_list ws ->
  decode_fields ws (bs ++ rest) = decode_fields ws bs.
Proof.
  revert bs; induction ws as [|w ws IH]; intros bs H; [done|]. cbn in *.
  rewrite take_app_le by lia. rewrite drop_app_le by lia. rewrite IH; [done|].
  rewrite length_drop. lia.
Qed.

Lemma encode_decode_fields ws bs : Forall is_byte bs -> length bs = sum_list ws ->
  encode_fields ws (decode_fields ws bs) = bs.
Proof.
  revert bs; induction ws as [|w ws IH]; intros bs Hb Hl; cbn in *; [by destruct bs|].
  rewrite IH; [|by apply Forall_drop|rewrite length_drop; lia].
  assert (length (take w bs) = w) as Hw by (rewrite length_take; lia).
  rewrite <-Hw at 1. rewrite le_encode_decode by (by apply Forall_take). apply take_drop.
Qed.

(** ** The record header *)

(** The two 4-byte paddings are fields of their own. *)
Definition entry_layout : list nat := [4;4;8;4;4;4;4;4;4;4;4;8;8;4;4;8;4;4]%nat.

Definition entry_bytes (e : posix_log_entry) : list Z :=
  encode_fields entry_layout
    [log_magic e; log_recid e; log_size e; log_format e; log_event_type e; log_facility e;
     log_severity e; log_uid e; log_gid e; log_pid e; log_pgrp e; log_time_sec e;
     log_time_nsec e; log_flags e; 0; log_thread e; log_processor e; 0].

Definition entry_of_bytes (bs : list Z) : posix_log_entry :=
  match decode_fields entry_layout bs with
  | [m; r; sz; f; et; fac; sev; u; g; p; pg; sec; nsec; fl; _; th; pr; _] =>
      mkEntry m (s32 r) sz (s32 f) (s32 et) fac (s32 sev) u g (s32 p) (s32 pg) (s64 sec) (s64 nsec)
              fl th (s32 pr)
  | _ => mkEntry 0 0 0 0 0 0 0 0 0 0 0 0 0 0 0 0
  end.

(** Every field is in the range of its C type. *)
Definition entry_ok (e : posix_log_entry) : Prop :=
  in_unsigned 32 (log_magic e) /\ in_signed 32 (log_recid e) /\ in_unsigned 64 (log_size e) /\
  in_signed 32 (log_format e) /\ in_signed 32 (log_event_type e) /\ in_unsigned 32 (log_facility e) /\
  in_signed 32 (log_severity e) /\ in_unsigned 32 (log_uid e) /\ in_unsigned 32 (log_gid e) /\
  in_signed 32 (log_pid e) /\ in_signed 32 (log_pgrp e) /\ in_signed 64 (log_time_sec e) /\
  in_signed 64 (log_time_nsec e) /\ in_unsigned 32 (log_flags e) /\ in_unsigned 64 (log_thread e) /\
  in_signed 32 (log_processor e).
#[global] Instance entry_ok_dec e : Decision (entry_ok e).
Proof. unfold entry_ok. apply _. Defined.

Lemma length_entry_bytes e : length (entry_bytes e) = 88%nat.
Proof. unfold entry_bytes. by rewrite length_encode_fields. Qed.

Lemma entry_bytes_bytes e : Forall is_byte (entry_bytes e).
Proof. apply encode_fields_bytes. Qed.

Lemma entry_of_bytes_app bs rest : length bs = 88%nat ->
  entry_of_bytes (bs ++ rest) = entry_of_bytes bs.
Proof. intros H. unfold entry_of_bytes. by rewrite decode_fields_app. Qed.

(** A header written out and read back is the same header. *)
Lemma entry_roundtrip e : entry_ok e -> entry_of_bytes (entry_bytes e) = e.
Proof.
  unfold entry_ok. intros H. destruct_and!.
  unfold entry_of_bytes, entry_bytes. rewrite decode_encode_fields by done.
  cbn [entry_layout zip_with]. destruct e; cbn in *.
  change (256 ^ Z.of_nat 4) with (2 ^ 32). change (256 ^ Z.of_nat 8) with (2 ^ 64).
  change (?x mod 2 ^ 32) with (u32 x). change (?x mod 2 ^ 64) with (u64 x).
  rewrite !signed_unsigned, !signed_id, !unsigned_id by (done || lia). done.
Qed.

(** The range of every decoded header. *)
Lemma entry_of_bytes_ok bs : Forall is_byte bs -> length bs = 88%nat -> entry_ok (entry_of_bytes bs).
Proof.
  intros Hb Hl. unfold entry_of_bytes, entry_layout. cbn [decode_fields].
  assert (forall k b n, (length b >= k)%nat -> Forall is_byte b -> n = 8 * Z.of_nat k ->
            in_unsigned n (le_decode (take k b))) as Hd.
  { intros k b n Hk Hbb ->. pose proof (le_decode_bound (take k b) ltac:(by apply Forall_take)) as H.
    rewrite length_take, Nat.min_l in H by lia. unfold in_unsigned.
    replace (2 ^ (8 * Z.of_nat k)) with (256 ^ Z.of_nat k); [done|].
    change 256 with (2 ^ 8). by rewrite <-Z.pow_mul_r by lia. }
  unfold entry_ok. cbn [log_magic log_recid log_size log_format log_event_type log_facility
    log_severity log_uid log_gid log_pid log_pgrp log_time_sec log_time_nsec log_flags log_thread
    log_processor].
  split_and!; first [apply signed_range; lia
                    |apply Hd; [rewrite ?length_drop; lia|repeat apply Forall_drop; done|lia]].
Qed.

(** ** The log file's header *)

Record log_header_t := mkLogHeader {
  lh_magic : Z;             (* unsigned int *)
  lh_version : Z;           (* long *)
  lh_last_recId : Z;        (* int *)
  lh_reserved1 : Z;         (* off_t *)
  lh_generation : Z         (* unsigned int *)
}.
Definition LOG_HDR_SIZE : Z := 40.
Definition header_layout : list nat := [4;4;8;4;4;8;4;4]%nat.
Definition header_bytes (h : log_header_t) : list Z :=
  encode_fields header_layout
    [lh_magic h; 0; lh_version h; lh_last_recId h; 0; lh_reserved1 h; lh_generation h; 0].
Definition header_of_bytes (bs : list Z) : log_header_t :=
  match decode_fields header_layout bs with
  | [m; _; v; r; _; r1; g; _] => mkLogHeader m (s64 v) (s32 r) (s64 r1) g
  | _ => mkLogHeader 0 0 0 0 0
  end.
Definition header_ok (h : log_header_t) : Prop :=
  in_unsigned 32 (lh_magic h) /\ in_signed 64 (lh_version h) /\ in_signed 32 (lh_last_recId h) /\
  in_signed 64 (lh_reserved1 h) /\ in_unsigned 32 (lh_generation h).

Lemma length_header_bytes h : length (header_bytes h) = 40%nat.
Proof. unfold header_bytes. by rewrite length_encode_fields. Qed.

Lemma header_of_bytes_app bs rest : length bs = 40%nat ->
  header_of_bytes (bs ++ rest) = header_of_bytes bs.
Proof. intros H. unfold header_of_bytes. by rewrite decode_fields_app. Qed.

Lemma header_roundtrip h : header_ok h -> header_of_bytes (header_bytes h) = h.
Proof.
  unfold header_ok. intros H. destruct_and!.
  unfold header_of_bytes, header_bytes. rewrite decode_encode_fields by done.
  cbn [header_layout zip_with]. destruct h; cbn in *.
  change (256 ^ Z.of_nat 4) with (2 ^ 32). change (256 ^ Z.of_nat 8) with (2 ^ 64).
  change (?x mod 2 ^ 32) with (u32 x). change (?x mod 2 ^ 64) with (u64 x).
  rewrite !signed_unsigned, !signed_id, !unsigned_id by (done || lia). done.
Qed.

(** A record header and a log header written out and read back are the same,
    and any 88 bytes read as a record header give fields in the ranges of their
    types. *)
Theorem headers_roundtrip e h bs :
  entry_ok e -> header_ok h -> Forall is_byte bs -> length bs = 88%nat ->
  entry_of_bytes (entry_bytes e) = e /\ length (entry_bytes e) = 88%nat /\
  header_of_bytes (header_bytes h) = h /\ length (header_bytes h) = 40%nat /\ entry_ok (entry_of_bytes bs).
Proof.
  intros He Hh Hb Hl. split_and!; [by apply entry_roundtrip|apply length_entry_bytes|by apply header_roundtrip
    |apply length_header_bytes|by apply entry_of_bytes_ok].
Qed.
Lemma headers_roundtrip_witness :
  entry_of_bytes (entry_bytes (mkEntry LOGREC_MAGIC 7 2 2 9 500 3 0 0 100 100 1234 5 6 7 8)) =
    mkEntry LOGREC_MAGIC 7 2 2 9 500 3 0 0 100 100 1234 5 6 7 8.
Proof.
  apply (headers_roundtrip (mkEntry LOGREC_MAGIC 7 2 2 9 500 3 0 0 100 100 1234 5 6 7 8) (mkLogHeader 0 0 0 0 0) (replicate 88 255)).
  - unfold entry_ok, in_unsigned, in_signed, LOGREC_MAGIC. cbn. lia.
  - unfold header_ok, in_unsigned, in_signed. cbn. lia.
  - apply Forall_replicate. unfold is_byte. lia.
  - reflexivity.
Defined.
