(* ===== verification/FacNames.v ===== *)
(** * Names, tokens and CRC codes ([lib/facreg.c], [lib/syslogat.c], [lib/util/evl_common.c])

    The CRC-32 that turns a name or a format string into a code, the canonical
    form of a facility name, the event type of a format string, and the
    tokenizer that splits the lines of the facility registry. *)
From S2P Require Import Prelude NvPairs.

(** ** CRC-32 *)

Definition QUOTIENT : Z := 0x04c11db7.

(** One bit of [octet]; both are kept at their C widths. *)
Definition crc_bit (st : Z * Z) : Z * Z :=
  let '(octet, result) := st in
  let result :=
    if negb (Z.lxor (Z.shiftr octet 7) (Z.shiftr result 31) =? 0)
    then Z.lxor (u32 (Z.shiftl result 1)) QUOTIENT
    else u32 (Z.shiftl result 1) in
  (u8 (Z.shiftl octet 1), result).
Definition crc_octet (result octet : Z) : Z := (Nat.iter 8 crc_bit (octet, result)).2.
(** [data] holds the [len] octets. *)
Definition crc32 (data : list Z) : Z :=
  u32 (Z.lnot (fold_left crc_octet data (u32 (-1)))).
Definition _evlCrc32 (data : list Z) : Z := crc32 data.

(** ** Event types of format strings *)

Fixpoint strip_printk (fmt : str) : str :=
  match fmt with
  | String lt (String d (String gt rest)) =>
      if (chr lt =? 60) && is_digit d && (chr gt =? 62) then strip_printk rest else fmt
  | _ => fmt
  end.
(** [while (fmtlen > 0 && fmt[fmtlen-1] == '\n') fmtlen--]: the suffix of
    newlines is dropped. *)
Fixpoint strip_newlines (s : str) : str :=
  match s with
  | EmptyString => EmptyString
  | String c s' =>
      match strip_newlines s' with
      | EmptyString => if chr c =? 10 then EmptyString else String c EmptyString
      | t => String c t
      end
  end.

Definition evl_gen_event_type_v2 (fmt : str) : Z :=
  let fmt := strip_printk fmt in
  s32 (_evlCrc32 (bytes_of (strip_newlines fmt))).
Definition evl_normalize_fmt (fmt : str) : str :=
  strip_newlines (strip_printk fmt).
Definition evl_gen_event_type (s1 s2 s3 : str) : Z :=
  s32 (u32 (_evlCrc32 (bytes_of s1) + _evlCrc32 (bytes_of s2) + _evlCrc32 (bytes_of s3))).

(** ** Canonical facility names *)

Definition canonical_char (uf : Z) : Z :=
  if (65 <=? uf) && (uf <=? 90) then Z.lor uf 0x20
  else if (uf >? 0x7f) || ((97 <=? uf) && (uf <=? 122)) || ((48 <=? uf) && (uf <=? 57))
          || (uf =? 46) || (uf =? 95) then uf
  else if uf =? 32 then 95
  else 46.
Fixpoint str_map (f : Z -> Z) (s : str) : str :=
  match s with
  | EmptyString => EmptyString
  | String c s' => String (of_chr (f (chr c))) (str_map f s')
  end.
(** [None] is the [EINVAL] of a null or empty name. *)
Definition _evlGenCanonicalFacilityName (facName : option str) : option str :=
  match facName with
  | None | Some EmptyString => None
  | Some name =>
      let canonical := str_map canonical_char name in
      Some (if streqb canonical "." || streqb canonical ".." then
              match canonical with String _ t => String "_" t | EmptyString => EmptyString end
            else canonical)
  end.

(** The status and the code. *)
Definition evl_gen_facility_code (fname : option str) : Z * option Z :=
  match fname with
  | None => (EINVAL, None)
  | Some name =>
      if (strlen name =? 0) || (strlen name >=? POSIX_LOG_MEMSTR_MAXLEN) then (EINVAL, None)
      else
        let facNum := u32 (_evlGetValueByCIName _evlLinuxFacilities name (s32 EVL_INVALID_FACILITY)) in
        if negb (facNum =? EVL_INVALID_FACILITY) then (0, Some facNum)
        else
          match _evlGenCanonicalFacilityName (Some name) with
          | None => (EINVAL, None)      (* excluded by the assert *)
          | Some canonical =>
              let facNum := crc32 (bytes_of canonical) in
              if facNum =? EVL_INVALID_FACILITY then (EEXIST, None)
              else
                let linuxName := _evlGetNameByValue _evlLinuxFacilities (s32 facNum) (Some EmptyString) in
                if negb (streqb linuxName "") then (EEXIST, None) else (0, Some facNum)
          end
  end.

(** ** Splitting a line into words *)

Definition is_quote (c : ascii) : bool := (chr c =? 39) || (chr c =? 34).
Definition is_blank (c : ascii) : bool := (chr c =? 32) || (chr c =? 9).
Fixpoint skip_blanks (s : str) : str :=
  match s with
  | String c s' => if is_blank c then skip_blanks s' else s
  | EmptyString => s
  end.
Fixpoint str_last (s : str) : option ascii :=
  match s with
  | EmptyString => None
  | String c EmptyString => Some c
  | String _ s' => str_last s'
  end.
Fixpoint drop_last (s : str) : str :=
  match s with
  | EmptyString | String _ EmptyString => EmptyString
  | String c s' => String c (drop_last s')
  end.
Definition unquote (tmp : str) : str :=
  match tmp, str_last tmp with
  | String q rest, Some l => if is_quote q && is_quote l then drop_last rest else tmp
  | _, _ => tmp
  end.

(** [tok] is the current token (from [tmp] to [cmdbuf]), [rest] the text from
    [cmdbuf] on, [argv] the words so far, before their quotes are removed. *)
Fixpoint split_loop (fuel : nat) (n : Z) (tok rest : str) (dq sq : bool) (argv : list str) : list str :=
  match fuel with
  | O => argv
  | S f =>
      if Z.of_nat (length argv) >=? n then argv
      else
        match rest with
        | EmptyString => if negb dq && negb sq then argv ++ [tok] else argv
        | String c rest' =>
            if is_blank c && negb dq && negb sq then
              split_loop f n EmptyString (skip_blanks rest') dq sq (argv ++ [tok])
            else
              let dq := if (chr c =? 34) && negb sq then negb dq else dq in
              let sq := if (chr c =? 39) && negb dq then negb sq else sq in
              split_loop f n (tok ++ String c EmptyString) rest' dq sq argv
        end
  end.
Definition split_raw (cmdbuf : str) (n : Z) : list str :=
  split_loop (S (String.length cmdbuf)) n EmptyString cmdbuf false false [].
Definition _evlSplitCmd (cmdbuf : str) (n : Z) : list str := unquote <$> split_raw cmdbuf n.

Example split_ex : _evlSplitCmd "8  USER private 'uid = 3'" 6 = ["8"; "USER"; "private"; "uid = 3"]%string.
Proof. reflexivity. Qed.
Example crc_ex : crc32 (bytes_of "123456789") = 0xfc891918. Proof. reflexivity. Qed.

(** ** Lemmas *)

Lemma str_map_length f s : String.length (str_map f s) = String.length s.
Proof. induction s as [|c s IH]; simpl; [done|by rewrite IH]. Qed.

Fixpoint str_forall (P : Z -> bool) (s : str) : bool :=
  match s with
  | EmptyString => true
  | String c s' => P (chr c) && str_forall P s'
  end.

(** The characters of a canonical name. *)
Definition is_canonical (z : Z) : bool :=
  (z >? 0x7f) || ((97 <=? z) && (z <=? 122)) || ((48 <=? z) && (z <=? 57)) || (z =? 46) || (z =? 95).

(** A property of octets is checked by evaluation. *)
Lemma octet_forall (P : Z -> bool) :
  forallb (fun n => P (Z.of_nat n)) (seq 0 256) = true -> forall z, 0 <= z < 256 -> P z = true.
Proof.
  intros H z Hz. rewrite forallb_forall in H. specialize (H (Z.to_nat z)).
  rewrite Z2Nat.id in H by lia. apply H, in_seq. lia.
Qed.

Lemma canonical_char_ok z : 0 <= z < 256 ->
  is_canonical (canonical_char z) = true /\ 0 <= canonical_char z < 256 /\
  (is_canonical z = true -> canonical_char z = z).
Proof.
  intros Hz.
  pose proof (octet_forall (fun z => is_canonical (canonical_char z) && (0 <=? canonical_char z)
    && (canonical_char z <? 256) && (negb (is_canonical z) || (canonical_char z =? z))) eq_refl z Hz) as H.
  cbv beta in H. rewrite !andb_true_iff in H. destruct H as [[[H1 H2] H3] H4].
  split_and!; [done|lia|lia|]. intros H. rewrite H in H4. cbn in H4. by apply Z.eqb_eq.
Qed.

Lemma canonical_map_ok s : str_forall is_canonical (str_map canonical_char s) = true.
Proof.
  induction s as [|c s IH]; simpl; [done|].
  destruct (canonical_char_ok (chr c) (chr_range c)) as (H1 & H2 & _).
  by rewrite chr_of_chr, H1, IH.
Qed.

Lemma canonical_map_id s : str_forall is_canonical s = true -> str_map canonical_char s = s.
Proof.
  induction s as [|c s IH]; simpl; [done|]. intros [Hc Hs]%andb_true_iff.
  destruct (canonical_char_ok (chr c) (chr_range c)) as (_ & _ & H3).
  by rewrite H3, of_chr_chr, IH.
Qed.

Lemma canonical_form name c :
  _evlGenCanonicalFacilityName (Some name) = Some c ->
  c <> ""%string /\ strlen c = strlen name /\ str_forall is_canonical c = true /\
  c <> "."%string /\ c <> ".."%string.
Proof.
  destruct name as [|a name]; [done|]. cbn [_evlGenCanonicalFacilityName].
  pose proof (str_map_length canonical_char (String a name)) as Hl.
  pose proof (canonical_map_ok (String a name)) as Hc. cbv zeta.
  destruct (str_map canonical_char (String a name)) as [|x t] eqn:E; [done|].
  intros [= <-]. unfold strlen. destruct (_ || _) eqn:Hd.
  - split_and!; [done|by rewrite <-Hl|exact (proj2 (proj1 (andb_true_iff _ _) Hc))|by intros [=]|by intros [=]].
  - apply orb_false_iff in Hd as [H1%streqb_false H2%streqb_false].
    split_and!; [done|by rewrite <-Hl|done..].
Qed.

(** A canonical name is a lower-case name of the same length that is not a
    reserved directory name, and it is its own canonical form. *)
Theorem canonical_name_ok name c :
  _evlGenCanonicalFacilityName (Some name) = Some c ->
  strlen c = strlen name /\ str_forall is_canonical c = true /\
  c <> "."%string /\ c <> ".."%string /\ _evlGenCanonicalFacilityName (Some c) = Some c.
Proof.
  intros H. destruct (canonical_form _ _ H) as (H0 & H1 & H2 & H3 & H4).
  split_and!; try done. destruct c as [|a c]; [done|]. cbn [_evlGenCanonicalFacilityName]. cbv zeta.
  rewrite canonical_map_id by done.
  by rewrite (proj2 (streqb_false _ _) H3), (proj2 (streqb_false _ _) H4).
Qed.

Lemma crc32_range data : in_unsigned 32 (crc32 data).
Proof. apply unsigned_range. lia. Qed.

Lemma linux_value_range n :
  let v := _evlGetValueByCIName _evlLinuxFacilities n (-1) in v = -1 \/ 0 <= v <= 184.
Proof.
  cbv zeta. unfold _evlLinuxFacilities. cbn [_evlGetValueByCIName nv_value nv_name].
  repeat (case_match; [right; unfold LOG_LOGMGMT, LOG_AUTHPRIV; lia|]). by left.
Qed.

Lemma linux_name_empty v :
  _evlGetNameByValue _evlLinuxFacilities v (Some EmptyString) = EmptyString ->
  forall nv, nv ∈ _evlLinuxFacilities -> nv_value nv <> v.
Proof.
  intros H nv Hin <-. rewrite name_of_value in H; [|reflexivity|done].
  revert H. apply (proj1 (Forall_forall (fun nv => nv_name nv <> ""%string) _evlLinuxFacilities)); [|done].
  repeat constructor; done.
Qed.

Lemma value_hit t name nv dflt :
  table_ok t = true -> no_nul name = true -> nv ∈ t ->
  _evlGetValueByCIName t name dflt = nv_value nv -> _evlGetValueByCIName t name dflt <> dflt ->
  upper_bytes name = upper_bytes (nv_name nv).
Proof.
  unfold table_ok. intros [[Hnd%bool_decide_eq_true _]%andb_true_iff Hnn]%andb_true_iff Hnul.
  induction t as [|x t IH]; [intros H%elem_of_nil; done|]. cbn in *.
  apply andb_true_iff in Hnn as [Hx Ht]. apply NoDup_cons in Hnd as [Hnx Hnd].
  intros Hin. destruct (_ =? _) eqn:Ex; bprop.
  - intros Heq _. apply elem_of_cons in Hin as [->|Hin].
    + symmetry. by apply ci_strcmp_zero.
    + destruct Hnx. rewrite Heq. by apply list_elem_of_fmap_2.
  - intros Heq Hd. apply elem_of_cons in Hin as [->|Hin]; [|by apply IH].
    exfalso. apply Hnx. rewrite <-Heq. clear -Hd.
    induction t as [|y t IH]; cbn in *; [done|].
    destruct (_ =? _); [apply elem_of_cons; by left|]. apply elem_of_cons. right. by apply IH.
Qed.

(** A generated code is a valid facility code; it is the code of a standard
    facility only if the name is the name of that facility up to case. *)
Theorem gen_facility_code_ok name code :
  evl_gen_facility_code (Some name) = (0, Some code) -> no_nul name = true ->
  in_unsigned 32 code /\ code <> EVL_INVALID_FACILITY /\
  forall nv, nv ∈ _evlLinuxFacilities -> nv_value nv = code ->
    upper_bytes name = upper_bytes (nv_name nv).
Proof.
  unfold evl_gen_facility_code. intros H Hnul.
  destruct (_ || _); [done|]. change (s32 EVL_INVALID_FACILITY) with (-1) in H. cbv zeta in H.
  pose proof (linux_value_range name) as Hr. cbv zeta in Hr.
  remember (_evlGetValueByCIName _evlLinuxFacilities name (-1)) as v eqn:Ev.
  destruct (negb (u32 v =? EVL_INVALID_FACILITY)) eqn:E.
  - injection H as <-. bprop. split_and!; [by apply unsigned_range|done|].
    intros nv Hin Hv. destruct Hr as [->|Hr]; [by destruct E|].
    rewrite (unsigned_id 32 v) in * by (unfold in_unsigned; lia).
    apply (value_hit _evlLinuxFacilities name nv (-1)); [reflexivity|done|done|congruence|].
    rewrite <-Ev. lia.
  - destruct (_evlGenCanonicalFacilityName (Some name)) as [c|]; [|done].
    destruct (crc32 (bytes_of c) =? EVL_INVALID_FACILITY) eqn:E1; [done|].
    destruct (negb (streqb _ "")) eqn:E2; [done|]. injection H as <-. bprop.
    pose proof (crc32_range (bytes_of c)). split_and!; [done|done|].
    apply streqb_spec in E2. intros nv Hin Hv. exfalso.
    apply (linux_name_empty _ E2 nv Hin). rewrite <-Hv.
    rewrite signed_id; [done|lia|].
    assert (0 <= nv_value nv <= 184); [|unfold in_signed; lia].
    revert Hin. apply (proj1 (Forall_forall (fun nv => 0 <= nv_value nv <= 184) _evlLinuxFacilities)).
    repeat constructor; cbn; unfold LOG_LOGMGMT, LOG_AUTHPRIV; lia.
Qed.

Lemma strip_newlines_idem s : strip_newlines (strip_newlines s) = strip_newlines s.
Proof.
  induction s as [|c s IH]; [done|]. cbn [strip_newlines].
  destruct (strip_newlines s) as [|d t] eqn:E.
  - destruct (chr c =? 10) eqn:Ec; [done|]. cbn. by rewrite Ec.
  - cbn [strip_newlines] in IH |- *. by rewrite IH.
Qed.

Lemma strip_printk_idem s : strip_printk (strip_printk s) = strip_printk s.
Proof.
  assert (forall n s, (String.length s <= n)%nat -> strip_printk (strip_printk s) = strip_printk s) as H.
  { clear s. induction n as [|n IH]; intros [|a [|b [|c s]]] Hl; cbn in Hl; try lia; try done.
    cbn [strip_printk]. destruct (_ && _) eqn:E; [apply IH; lia|].
    cbn [strip_printk]. by rewrite E. }
  by apply (H (String.length s)).
Qed.

(** A text without a severity code keeps none when its newlines go. *)
Lemma strip_printk_newlines s : strip_printk s = s -> strip_printk (strip_newlines s) = strip_newlines s.
Proof.
  destruct s as [|a [|b [|c s]]]; cbn [strip_newlines].
  - done.
  - intros _. by destruct (chr a =? 10).
  - intros _. destruct (chr b =? 10), (chr a =? 10); done.
  - cbn [strip_printk]. destruct (_ && _) eqn:E.
    { intros H. exfalso. assert (forall n s, (String.length s <= n)%nat ->
        (String.length (strip_printk s) <= String.length s)%nat) as Hl.
      { clear. induction n as [|n IH]; intros [|a [|b [|c s]]] Hl; cbn in Hl; try (cbn; lia).
        cbn [strip_printk]. destruct (_ && _); [|done].
        specialize (IH s). cbn. lia. }
      specialize (Hl _ s (le_n _)). rewrite H in Hl. cbn in Hl. lia. }
    intros _. destruct (strip_newlines s) as [|d t].
    + destruct (chr c =? 10).
      * destruct (chr b =? 10); [by destruct (chr a =? 10)|done].
      * cbn. by rewrite E.
    + cbn. by rewrite E.
Qed.

(** The event type of a format is the CRC of its normal form, and normalizing
    it again changes nothing. *)
Theorem event_type_normalized fmt :
  evl_gen_event_type_v2 fmt = s32 (_evlCrc32 (bytes_of (evl_normalize_fmt fmt))) /\
  evl_normalize_fmt (evl_normalize_fmt fmt) = evl_normalize_fmt fmt /\
  evl_gen_event_type_v2 (evl_normalize_fmt fmt) = evl_gen_event_type_v2 fmt.
Proof.
  unfold evl_gen_event_type_v2, evl_normalize_fmt. cbv zeta.
  rewrite (strip_printk_newlines (strip_printk fmt)) by apply strip_printk_idem.
  by rewrite strip_newlines_idem.
Qed.

(** *** Splitting *)

Definition plain_char (z : Z) : bool :=
  negb ((z =? 32) || (z =? 9) || (z =? 39) || (z =? 34)).
Definition plain_word (w : str) : bool := negb (streqb w "") && str_forall plain_char w.
Fixpoint join (ws : list str) : str :=
  match ws with
  | [] => EmptyString
  | [w] => w
  | w :: ws' => (w ++ String " " (join ws'))%string
  end.

Lemma str_app_assoc (a b c : str) : ((a ++ b) ++ c = a ++ b ++ c)%string.
Proof.
  induction a as [|x a IH]; [done|]. change (String x ((a ++ b) ++ c) = String x (a ++ b ++ c))%string.
  by rewrite IH.
Qed.
Lemma str_app_nil (a : str) : (a ++ "")%string = a.
Proof. induction a as [|x a IH]; [done|]. change (String x (a ++ "") = String x a)%string. by rewrite IH. Qed.
Lemma str_length_app (a b : str) : String.length (a ++ b)%string = (String.length a + String.length b)%nat.
Proof. induction a as [|x a IH]; [done|]. cbn. by rewrite IH. Qed.

Lemma plain_char_split c : plain_char (chr c) = true ->
  is_blank c = false /\ (chr c =? 34) = false /\ (chr c =? 39) = false.
Proof. unfold plain_char, is_blank. intros H. bprop. split_and!; apply orb_false_iff || apply Z.eqb_neq; lia. Qed.

Lemma split_word w : forall f n tok rest argv,
  str_forall plain_char w = true -> Z.of_nat (length argv) < n ->
  split_loop (String.length w + f) n tok (w ++ rest)%string false false argv =
  split_loop f n (tok ++ w)%string rest false false argv.
Proof.
  induction w as [|c w IH]; intros f n tok rest argv Hw Hn.
  - by rewrite str_app_nil.
  - cbn in Hw. apply andb_true_iff in Hw as [Hc Hw]. destruct (plain_char_split c Hc) as (E1 & E2 & E3).
    cbn [String.length Nat.add]. change ((String c w ++ rest)%string) with (String c (w ++ rest)%string).
    cbn [split_loop].
    destruct (Z.of_nat (length argv) >=? n) eqn:E; [lia|].
    rewrite E1, E2, E3. cbn [andb]. rewrite IH by done. rewrite str_app_assoc. done.
Qed.

Lemma unquote_plain w : str_forall plain_char w = true -> unquote w = w.
Proof.
  destruct w as [|c w]; [done|]. intros [Hc _]%andb_true_iff.
  destruct (plain_char_split c Hc) as (_ & E2 & E3). unfold unquote.
  destruct (str_last _); [|done]. unfold is_quote. by rewrite E2, E3.
Qed.

Lemma skip_plain w rest : plain_word w = true -> skip_blanks (w ++ rest)%string = (w ++ rest)%string.
Proof.
  destruct w as [|c w]; [done|]. unfold plain_word. intros [_ [Hc _]%andb_true_iff]%andb_true_iff.
  destruct (plain_char_split c Hc) as (E & _). cbn. by rewrite E.
Qed.

Lemma split_join ws : forall n argv f,
  forallb plain_word ws = true -> ws <> [] -> (String.length (join ws) < f)%nat ->
  Z.of_nat (length argv) <= n ->
  split_loop f n "" (join ws) false false argv = argv ++ take (Z.to_nat n - length argv) ws.
Proof.
  induction ws as [|w ws IH]; intros n argv f Hws Hne Hf Hn; [done|].
  cbn in Hws. apply andb_true_iff in Hws as [Hw Hws].
  pose proof Hw as Hw'. unfold plain_word in Hw'. apply andb_true_iff in Hw' as [Hwne Hwp].
  destruct (decide (Z.of_nat (length argv) = n)) as [Heq|Hlt].
  { destruct f as [|f]; [lia|]. cbn [split_loop]. destruct (_ >=? _) eqn:E; [|lia].
    replace (Z.to_nat n - length argv)%nat with 0%nat by lia. by rewrite app_nil_r. }
  replace (Z.to_nat n - length argv)%nat with (S (Z.to_nat n - S (length argv))) by lia.
  cbn [take].
  destruct ws as [|w' ws].
  - cbn [join] in *. rewrite <-(str_app_nil w) at 1.
    replace f with (String.length w + S (f - String.length w - 1))%nat by lia.
    rewrite split_word by (done || lia). cbn [split_loop]. destruct (_ >=? _) eqn:E; [lia|].
    cbn. by destruct (Z.to_nat n - _)%nat.
  - cbn [join] in *. rewrite str_length_app in Hf. cbn [String.length] in Hf.
    replace f with (String.length w + S (f - String.length w - 1))%nat by lia.
    rewrite split_word by (done || lia). cbn [split_loop]. destruct (_ >=? _) eqn:E; [lia|].
    cbn [andb negb is_blank]. change (is_blank " ") with true. cbn [andb].
    assert (skip_blanks (join (w' :: ws)) = join (w' :: ws)) as Hskip.
    { cbn in Hws. apply andb_true_iff in Hws as [Hw2 _].
      destruct ws; [rewrite <-(str_app_nil w') at 1; cbn [join]; rewrite <-(str_app_nil w') at 2|];
        by apply skip_plain. }
    change (match ws with [] => w' | _ :: _ => (w' ++ String " " (join ws))%string end) with (join (w' :: ws)) in *.
    rewrite Hskip, IH; [|done|done|lia|rewrite length_app; cbn; lia].
    cbn. rewrite length_app, <-app_assoc. cbn.
    by rewrite Nat.add_1_r.
Qed.

(** A line of plain words separated by blanks splits into its words (the first
    [n] of them). *)
Theorem split_words ws n :
  forallb plain_word ws = true -> ws <> [] -> 0 <= n ->
  _evlSplitCmd (join ws) n = take (Z.to_nat n) ws.
Proof.
  intros Hws Hne Hn. unfold _evlSplitCmd, split_raw. rewrite split_join by (done || lia).
  cbn [length app]. rewrite Nat.sub_0_r.
  assert (forallb plain_word (take (Z.to_nat n) ws) = true) as Ht.
  { rewrite forallb_forall in *. intros w Hw. apply Hws. rewrite <-list_elem_of_In in *.
    apply elem_of_take in Hw as (i & Hi & _). by eapply list_elem_of_lookup_2. }
  revert Ht. generalize (take (Z.to_nat n) ws). clear. intros l. induction l as [|w l IH]; [done|].
  cbn. intros [[_ Hw]%andb_true_iff Hl]%andb_true_iff. by rewrite unquote_plain, IH.
Qed.

Lemma canonical_name_ok_witness : _evlGenCanonicalFacilityName (Some "my_fac"%string) = Some "my_fac"%string.
Proof. apply (canonical_name_ok "My Fac" "my_fac"). reflexivity. Defined.
Lemma gen_facility_code_ok_witness : exists code,
  evl_gen_facility_code (Some "Kern"%string) = (0, Some code) /\ code <> EVL_INVALID_FACILITY.
Proof.
  eexists. split; [vm_compute; reflexivity|]. eapply (gen_facility_code_ok "Kern"); vm_compute; reflexivity.
Defined.
Lemma split_words_witness : _evlSplitCmd "500 myfac private" 5 = ["500"; "myfac"; "private"]%string.
Proof. apply (split_words ["500"; "myfac"; "private"]%string 5); [reflexivity|done|lia]. Defined.
