(* ===== verification/FacReg.v ===== *)
(** * The facility registry ([lib/facreg.c])

    An open-addressing hash table of facilities with linear probing and a prime
    number of slots, the parser of the registry file, the default registry and
    the lookups.  A query of a facility is created by [posix_log_query_create],
    which is an argument here because it looks facilities up itself. *)
From Stdlib Require Import Znumtheory.
From S2P Require Import Prelude NvPairs FacNames.

Definition EMPTY : Z := EVL_INVALID_FACILITY.
Definition EVL_FACC_PRIVATE : Z := 1.
Definition EVL_FACC_KERN : Z := 2.

(** ** Prime sizes *)

(** The loop variable is an [int]; [i*i <= n] compares it as unsigned. *)
Definition isPrime_step (n i : Z) : Z + bool :=
  if u32 (i * i) <=? n then
    if n mod i =? 0 then inr false else inl (i + 1)
  else inr true.
Definition isPrime (n : Z) : bool :=
  if n =? 0 then false
  else match loop (isPrime_step n) 131072 2 with inr b => b | inl _ => false end.

Definition nextPrimeUp_step (n : Z) : Z + Z :=
  if isPrime n then inr n else inl (u32 (n + 1)).
(** [None]: no prime within 2^32 steps. *)
Definition nextPrimeUp (n : Z) : option Z :=
  match loop nextPrimeUp_step 4294967296 n with inr p => Some p | inl _ => None end.

Section FacReg.
(** [posix_log_query_t] and [posix_log_query_create(filter, EVL_PRPS_RESTRICTED, ..)]:
    a status and, when it is 0, the query. *)
Context {query : Type}.

Record _evlFacility := mkFac {
  faCode : Z;
  faName : str;
  faAccessFlags : Z;
  faFilter : option str;
  faQuery : option query
}.
(** A slot marked as unused; its other members are never read. *)
Definition unused : _evlFacility := mkFac EMPTY "" 0 None None.

Record _evlFacilityRegistry := mkReg {
  frNFacilities : Z;
  frHash : list _evlFacility;
  frHashSize : Z
}.

(** [hash[slot]] *)
Definition slot_at (hash : list _evlFacility) (slot : Z) : _evlFacility :=
  default unused (hash !! Z.to_nat slot).

Fixpoint probe (fuel : nat) (fac : Z) (hash : list _evlFacility) (hashSize bestSlot slot : Z) : Z :=
  match fuel with
  | O => -1
  | S f =>
      let foundFac := faCode (slot_at hash slot) in
      if (foundFac =? fac) || (foundFac =? EMPTY) then slot
      else
        let slot := (slot + 1) mod hashSize in
        if slot =? bestSlot then -1 else probe f fac hash hashSize bestSlot slot
  end.
Definition findHashSlotFor (fac : Z) (hash : list _evlFacility) (hashSize : Z) : Z :=
  let bestSlot := fac mod hashSize in
  probe (length hash) fac hash hashSize bestSlot bestSlot.

(** Copying the live entries; [None] when an [assert] fails. *)
Fixpoint rehash (oldHash newHash : list _evlFacility) (newSize : Z) : option (list _evlFacility) :=
  match oldHash with
  | [] => Some newHash
  | f :: old' =>
      if negb (faCode f =? EMPTY) then
        let j := findHashSlotFor (faCode f) newHash newSize in
        if (0 <=? j) && (j <? newSize) then rehash old' (<[Z.to_nat j := f]> newHash) newSize
        else None
      else rehash old' newHash newSize
  end.
Definition reallocFacHash (oldHash : list _evlFacility) (oldSize newSize : Z)
  : option (list _evlFacility) :=
  if negb (newSize >=? oldSize) then None
  else if negb (isPrime newSize) then None
  else rehash (take (Z.to_nat oldSize) oldHash) (replicate (Z.to_nat newSize) unused) newSize.

Definition store (facReg : _evlFacilityRegistry) (slot facNum : Z) (facName : str)
  (accessFlags : Z) (filter : option str) (q : option query) : _evlFacilityRegistry :=
  mkReg (frNFacilities facReg + 1)
    (<[Z.to_nat slot := mkFac facNum facName accessFlags filter q]> (frHash facReg))
    (frHashSize facReg).
Definition addFacToHash (facReg : _evlFacilityRegistry) (facNum : Z) (facName : str)
  (accessFlags : Z) (filter : option str) (q : option query) : option _evlFacilityRegistry :=
  let slot := findHashSlotFor facNum (frHash facReg) (frHashSize facReg) in
  if slot =? -1 then
    let oldSize := frHashSize facReg in
    newSize ← nextPrimeUp (oldSize * 2);
    newHash ← reallocFacHash (frHash facReg) oldSize newSize;
    let facReg := mkReg (frNFacilities facReg) newHash newSize in
    let slot := findHashSlotFor facNum newHash newSize in
    if slot =? -1 then None
    else Some (store facReg slot facNum facName accessFlags filter q)
  else Some (store facReg slot facNum facName accessFlags filter q).

Definition allocFacReg (capacity : Z) : option _evlFacilityRegistry :=
  size ← nextPrimeUp capacity;
  hash ← reallocFacHash [] 0 size;
  Some (mkReg 0 hash size).

(** The slot of a facility that is in the registry. *)
Definition lookup_fac (facNum : Z) (facReg : _evlFacilityRegistry) : option _evlFacility :=
  let i := findHashSlotFor facNum (frHash facReg) (frHashSize facReg) in
  if i =? -1 then None
  else
    let fac := slot_at (frHash facReg) i in
    if faCode fac =? EMPTY then None else Some fac.

Definition getFacNameByCode (facNum : Z) (facReg : _evlFacilityRegistry) : option str :=
  faName <$> lookup_fac facNum facReg.

Fixpoint ci_search (name : str) (hash : list _evlFacility) : Z :=
  match hash with
  | [] => EVL_INVALID_FACILITY
  | fac :: hash' =>
      if negb (faCode fac =? EMPTY) && (_evlCIStrcmp (faName fac) name =? 0) then faCode fac
      else ci_search name hash'
  end.
Definition getFacCodeByCIName (name : option str) (facReg : _evlFacilityRegistry) : Z :=
  match name with
  | None => EVL_INVALID_FACILITY
  | Some name => ci_search name (frHash facReg)
  end.

(** [true] when the entry is rejected (the message goes to [badFac]). *)
Definition checkPosixFacility (facNum : Z) (facName : str) : bool :=
  let posixFacNum :=
    u32 (_evlGetValueByCIName _evlLinuxFacilities facName (s32 EVL_INVALID_FACILITY)) in
  let isPosixName := negb (posixFacNum =? EVL_INVALID_FACILITY) in
  let posixFacName :=
    _evlGetNameByValue _evlLinuxFacilities (s32 facNum) (Some EmptyString) in
  let isPosixNum := negb (streqb posixFacName "") in
  if isPosixName then negb (facNum =? posixFacNum)
  else isPosixNum.

(** The number of messages, one per missing standard facility. *)
Definition checkMissingPosixFacilities (facReg : _evlFacilityRegistry) : Z :=
  Z.of_nat (length (List.filter (fun px =>
    let i := findHashSlotFor (nv_value px) (frHash facReg) (frHashSize facReg) in
    (i =? -1) || (faCode (slot_at (frHash facReg) i) =? EMPTY)) _evlLinuxFacilities)).

(** The status, the flags and the filter; [tokens] starts after the name. *)
Definition _evlCollectOptionalFacParams (tokens : list str) : Z * Z * option str :=
  let rest (flags : Z) (ts : list str) : Z * Z * option str :=
    match ts with
    | [] => (0, flags, None)
    | f :: more => (match more with [] => 0 | _ => -1 end, flags, Some f)
    end in
  let kern (flags : Z) (ts : list str) :=
    match ts with
    | t :: ts' => if streqb t "kernel" then rest (Z.lor flags EVL_FACC_KERN) ts' else rest flags ts
    | [] => (0, flags, None)
    end in
  match tokens with
  | [] => (0, 0, None)
  | t :: ts => if streqb t "private" then kern EVL_FACC_PRIVATE ts else kern 0 tokens
  end.

(** The default registry. *)
Fixpoint add_defaults (facReg : _evlFacilityRegistry) (lx : list _evlNvPair)
  : option _evlFacilityRegistry :=
  match lx with
  | [] => Some facReg
  | nv :: lx' =>
      let facNum := nv_value nv in
      r ← addFacToHash facReg facNum (nv_name nv)
            (if facNum =? LOG_AUTHPRIV then EVL_FACC_PRIVATE else 0) None None;
      add_defaults r lx'
  end.
Definition setUpDefaultRegistry (faCapacity : Z) : option _evlFacilityRegistry :=
  r ← allocFacReg faCapacity; add_defaults r _evlLinuxFacilities.

(** The result of [_evlGetFacilityAccess]. *)
Definition facility_access (facNum : Z) (fr : _evlFacilityRegistry) : Z :=
  match lookup_fac facNum fr with None => -1 | Some fac => faAccessFlags fac end.

(** The name-value pairs of the registry; the loop stops after
    [frNFacilities] of them. *)
Fixpoint snapshot (hash : list _evlFacility) (left : Z) : list _evlNvPair :=
  match hash with
  | [] => []
  | fac :: hash' =>
      if faCode fac =? EMPTY then snapshot hash' left
      else mkNv (s32 (faCode fac)) (faName fac) ::
           (if left - 1 <=? 0 then [] else snapshot hash' (left - 1))
  end.
Definition _evlSnapshotFacilities (fr : _evlFacilityRegistry) : list _evlNvPair :=
  snapshot (frHash fr) (frNFacilities fr).
End FacReg.
Arguments _evlFacility : clear implicits.
Arguments _evlFacilityRegistry : clear implicits.

(** ** The hash table's invariant *)

Section HashTable.
Context {query : Type}.
Implicit Types (h : list (_evlFacility query)).

(** The facilities in the table. *)
Definition facs h : list (_evlFacility query) := List.filter (fun f => negb (faCode f =? EMPTY)) h.

Definition stops h (fac s : Z) : Prop :=
  faCode (slot_at h s) = fac \/ faCode (slot_at h s) = EMPTY.

Record hash_ok h (n : Z) : Prop := {
  ho_size : Z.of_nat (length h) = n;
  ho_pos : 0 < n;
  ho_range : forall f, f ∈ h -> in_unsigned 32 (faCode f);
  ho_codes : NoDup (faCode <$> facs h);
  ho_probe : forall s f, 0 <= s < n -> slot_at h s = f -> faCode f <> EMPTY ->
    forall k, 0 <= k < (s - faCode f) mod n -> faCode (slot_at h ((faCode f + k) mod n)) <> EMPTY
}.

Lemma slot_at_in h s : 0 <= s < Z.of_nat (length h) -> slot_at h s ∈ h.
Proof.
  intros Hs. unfold slot_at. destruct (h !! Z.to_nat s) eqn:E.
  - by eapply list_elem_of_lookup_2.
  - apply lookup_ge_None in E. lia.
Qed.

Lemma facs_elem h f : f ∈ facs h <-> f ∈ h /\ faCode f <> EMPTY.
Proof.
  unfold facs. rewrite !list_elem_of_In, filter_In, negb_true_iff, Z.eqb_neq. done.
Qed.

Lemma probe_spec fac h n best : Z.of_nat (length h) = n -> 0 < n -> best = fac mod n ->
  forall fuel k, 0 <= k < n -> Z.of_nat fuel = n - k ->
  let r := probe fuel fac h n best ((fac + k) mod n) in
  (exists j, k <= j < n /\ r = (fac + j) mod n /\ stops h fac r /\
     forall i, k <= i < j -> ~ stops h fac ((fac + i) mod n)) \/
  (r = -1 /\ forall i, k <= i < n -> ~ stops h fac ((fac + i) mod n)).
Proof.
  intros Hn Hpos ->. induction fuel as [|fuel IH]; intros k Hk Hf; [lia|].
  cbn [probe]. cbv zeta. set (s := (fac + k) mod n).
  destruct ((_ =? _) || _) eqn:E.
  { left. exists k. split_and!; [lia|lia|done| |intros; lia].
    unfold stops. bprop. rewrite !Z.eqb_eq in E. done. }
  apply orb_false_iff in E as [E1%Z.eqb_neq E2%Z.eqb_neq].
  assert (~ stops h fac s) as Hns by (unfold stops; tauto).
  assert ((s + 1) mod n = (fac + (k + 1)) mod n) as Hs.
  { unfold s. rewrite Zplus_mod_idemp_l. f_equal. lia. }
  rewrite Hs. destruct (_ =? _) eqn:Ewrap; bprop.
  - right. split; [done|]. intros i Hi. destruct (decide (i = k)) as [->|]; [done|].
    exfalso. assert ((k + 1) mod n = 0) as H0.
    { replace (k + 1) with (fac + (k + 1) - fac) by lia.
      rewrite Zminus_mod, Ewrap, Z.sub_diag. by apply Z.mod_0_l; lia. }
    rewrite Z.mod_small in H0 by lia. lia.
  - destruct (decide (k + 1 < n)) as [Hlt|Hge].
    2: { exfalso. apply Ewrap. replace (fac + (k + 1)) with (fac + 1 * n) by lia.
         by rewrite Z_mod_plus_full. }
    destruct (IH (k + 1)) as [(j & Hj & Hr & Hst & Hbef)|[Hr Hbef]]; [lia|lia| |].
    + left. exists j. split_and!; [lia|lia|done|done|].
      intros i Hi. destruct (decide (i = k)) as [->|]; [done|]. apply Hbef. lia.
    + right. split; [done|]. intros i Hi. destruct (decide (i = k)) as [->|]; [done|]. apply Hbef. lia.
Qed.

Lemma find_spec fac h n : Z.of_nat (length h) = n -> 0 < n ->
  let r := findHashSlotFor fac h n in
  (exists j, 0 <= j < n /\ r = (fac + j) mod n /\ stops h fac r /\
     forall i, 0 <= i < j -> ~ stops h fac ((fac + i) mod n)) \/
  (r = -1 /\ forall s, 0 <= s < n -> ~ stops h fac s).
Proof.
  intros Hn Hpos. cbv zeta. unfold findHashSlotFor.
  pose proof (probe_spec fac h n _ Hn Hpos eq_refl (length h) 0 ltac:(lia) ltac:(lia)) as H.
  cbv zeta in H. rewrite Z.add_0_r in H. destruct H as [H|[H1 H2]]; [by left|right].
  split; [done|]. intros s Hs.
  replace s with ((fac + (s - fac) mod n) mod n).
  - apply H2. apply Z.mod_pos_bound. lia.
  - rewrite Zplus_mod_idemp_r. replace (fac + (s - fac)) with s by lia. by apply Z.mod_small.
Qed.

(** Two slots of a table do not hold the same facility. *)
Lemma slot_unique h n s t : hash_ok h n -> 0 <= s < n -> 0 <= t < n ->
  faCode (slot_at h s) = faCode (slot_at h t) -> faCode (slot_at h s) <> EMPTY -> s = t.
Proof.
  intros [Hn _ _ Hnd _] Hs Ht Heq Hne. subst n.
  assert (forall (l : list (_evlFacility query)) i j f g, NoDup (faCode <$> facs l) -> l !! i = Some f -> l !! j = Some g ->
    faCode f = faCode g -> faCode f <> EMPTY -> i = j) as H.
  { clear. intros l. induction l as [|x l IH]; intros i j f g Hnd Hi Hj Heq Hne; [done|].
    unfold facs in Hnd. cbn in Hnd. fold (facs l) in Hnd.
    assert (forall m y, l !! m = Some y -> faCode y = faCode x -> faCode x <> EMPTY ->
              ~ NoDup (faCode x :: (faCode <$> facs l))) as Hdup.
    { intros m y Hm Hy Hx [Hnx _]%NoDup_cons. apply Hnx. apply list_elem_of_fmap. exists y.
      split; [done|]. apply facs_elem. split; [by eapply list_elem_of_lookup_2|congruence]. }
    destruct i as [|i], j as [|j]; cbn in Hi, Hj; [done| | |].
    - injection Hi as ->. rewrite (proj2 (Z.eqb_neq _ _) Hne) in Hnd.
      exfalso. by eapply (Hdup j g).
    - injection Hj as ->. rewrite Heq in Hne. rewrite (proj2 (Z.eqb_neq _ _) Hne) in Hnd.
      exfalso. by eapply (Hdup i f).
    - f_equal. eapply (IH i j f g); try done.
      destruct (negb _); [by apply NoDup_cons in Hnd as [_ ?]|done]. }
  unfold slot_at in *.
  destruct (h !! Z.to_nat s) as [f|] eqn:Es; [|by apply lookup_ge_None in Es; lia].
  destruct (h !! Z.to_nat t) as [g|] eqn:Et; [|by apply lookup_ge_None in Et; lia].
  apply Z2Nat.inj; [lia|lia|]. by eapply H.
Qed.

(** A facility in the table is found at its slot. *)
Lemma find_present h n s : hash_ok h n -> 0 <= s < n -> faCode (slot_at h s) <> EMPTY ->
  findHashSlotFor (faCode (slot_at h s)) h n = s.
Proof.
  intros Hok Hs Hne. pose proof Hok as [Hn Hpos Hrg Hnd Hpr].
  set (c := faCode (slot_at h s)) in *.
  assert ((c + (s - c) mod n) mod n = s) as Hd.
  { rewrite Zplus_mod_idemp_r. replace (c + (s - c)) with s by lia. by apply Z.mod_small. }
  pose proof (Z.mod_pos_bound (s - c) n Hpos) as Hb.
  destruct (find_spec c h n Hn Hpos) as [(j & Hj & Hr & Hst & Hbef)|[_ Hno]].
  2: { exfalso. apply (Hno s Hs). by left. }
  cbv zeta in *. rewrite Hr in *.
  assert (0 <= (c + j) mod n < n) as Hsj by (apply Z.mod_pos_bound; lia).
  destruct (decide (j < (s - c) mod n)) as [Hlt|Hge].
  - pose proof (Hpr s _ Hs eq_refl Hne j ltac:(fold c; lia)) as Hnz. fold c in Hnz.
    destruct Hst as [Hst|Hst]; [|done].
    by apply (slot_unique h n).
  - destruct (decide (j = (s - c) mod n)) as [->|Hgt]; [done|].
    exfalso. apply (Hbef ((s - c) mod n)); [lia|]. rewrite Hd. by left.
Qed.

Lemma elem_slot h n f : Z.of_nat (length h) = n -> f ∈ h -> exists s, 0 <= s < n /\ slot_at h s = f.
Proof.
  intros Hn Hf. apply list_elem_of_lookup in Hf as [i Hi].
  pose proof (lookup_lt_Some _ _ _ Hi). exists (Z.of_nat i). split; [lia|].
  unfold slot_at. by rewrite Nat2Z.id, Hi.
Qed.

Lemma lookup_fac_spec (r : _evlFacilityRegistry query) c f :
  hash_ok (frHash r) (frHashSize r) -> c <> EMPTY ->
  lookup_fac c r = Some f <-> f ∈ facs (frHash r) /\ faCode f = c.
Proof.
  intros Hok Hc. pose proof Hok as [Hn Hpos Hrg Hnd Hpr]. unfold lookup_fac.
  rewrite facs_elem. split.
  - destruct (find_spec c (frHash r) (frHashSize r) Hn Hpos) as [(j & Hj & Hr & Hst & _)|[-> _]];
      [|done].
    cbv zeta in *. set (i := findHashSlotFor _ _ _) in *.
    destruct (i =? -1) eqn:E1; [done|]. destruct (_ =? EMPTY) eqn:E2; [done|]. intros [= <-]. bprop.
    split; [split; [|done]|by destruct Hst].
    apply slot_at_in. rewrite Hr, Hn. apply Z.mod_pos_bound. lia.
  - intros [[Hf Hne] <-]. destruct (elem_slot _ _ _ Hn Hf) as (s & Hs & <-).
    cbv zeta. rewrite find_present by done.
    rewrite (proj2 (Z.eqb_neq s (-1))) by lia. by rewrite (proj2 (Z.eqb_neq _ EMPTY)).
Qed.

Lemma slot_at_insert h s t f : 0 <= s < Z.of_nat (length h) -> 0 <= t ->
  slot_at (<[Z.to_nat s := f]> h) t = if decide (s = t) then f else slot_at h t.
Proof.
  intros Hs Ht. unfold slot_at. case_decide as Hst.
  - subst t. by rewrite list_lookup_insert_eq by lia.
  - rewrite list_lookup_insert_ne by lia. done.
Qed.

Lemma facs_insert h s f : 0 <= s < Z.of_nat (length h) ->
  faCode (slot_at h s) = EMPTY -> faCode f <> EMPTY ->
  facs (<[Z.to_nat s := f]> h) ≡ₚ f :: facs h.
Proof.
  intros Hs He Hf. unfold slot_at in He.
  destruct (h !! Z.to_nat s) as [g|] eqn:Eg; [|by apply lookup_ge_None in Eg; lia]. cbn in He.
  rewrite insert_take_drop by lia. rewrite <-(take_drop_middle _ _ _ Eg) at 3.
  unfold facs. rewrite !List.filter_app. cbn [List.filter].
  rewrite (proj2 (Z.eqb_neq (faCode f) EMPTY)) by done. rewrite He. cbn.
  by rewrite Permutation_middle.
Qed.

(** Storing a new facility in the slot that the probe ends at. *)
Lemma insert_ok h n f s :
  hash_ok h n -> in_unsigned 32 (faCode f) -> faCode f <> EMPTY ->
  (forall g, g ∈ facs h -> faCode g <> faCode f) ->
  s = findHashSlotFor (faCode f) h n -> s <> -1 ->
  0 <= s < n /\ hash_ok (<[Z.to_nat s := f]> h) n /\
  facs (<[Z.to_nat s := f]> h) ≡ₚ f :: facs h.
Proof.
  intros Hok Hrf Hf Hnew -> Hns. pose proof Hok as [Hn Hpos Hrg Hnd Hpr].
  destruct (find_spec (faCode f) h n Hn Hpos) as [(j & Hj & Hr & Hst & Hbef)|[Hr _]]; [|done].
  cbv zeta in *. set (s := findHashSlotFor _ _ _) in *.
  assert (0 <= s < n) as Hs by (rewrite Hr; apply Z.mod_pos_bound; lia).
  assert (faCode (slot_at h s) = EMPTY) as He.
  { destruct Hst as [Hst|]; [|done]. exfalso. apply (Hnew (slot_at h s)); [|done].
    apply facs_elem. split; [by apply slot_at_in; lia|congruence]. }
  pose proof (facs_insert h s f ltac:(lia) He Hf) as Hperm.
  split; [done|]. split; [|done]. split.
  - by rewrite length_insert.
  - done.
  - intros g Hg. apply list_elem_of_lookup in Hg as [i Hi].
    apply list_lookup_insert_Some in Hi as [(_ & <- & _)|[_ Hi]]; [done|].
    apply Hrg. by eapply list_elem_of_lookup_2.
  - rewrite (fmap_Permutation faCode _ _ Hperm). cbn. apply NoDup_cons. split; [|done].
    intros Hin. apply list_elem_of_fmap in Hin as (g & Hg & Hin). by apply (Hnew g).
  - assert (forall c k, faCode (slot_at h ((c + k) mod n)) <> EMPTY ->
      faCode (slot_at (<[Z.to_nat s := f]> h) ((c + k) mod n)) <> EMPTY) as Hkeep.
    { intros c k Hk. rewrite slot_at_insert by (try apply Z.mod_pos_bound; lia). by case_decide. }
    intros t g Ht Hg Hgne k Hk. rewrite slot_at_insert in Hg by lia.
    apply Hkeep. case_decide as Hst'.
    + subst t g. intros Hz. apply (Hbef k); [|by right].
      replace j with ((s - faCode f) mod n); [done|].
      rewrite Hr, Zminus_mod_idemp_l. replace (faCode f + j - faCode f) with j by lia.
      by apply Z.mod_small.
    + by apply (Hpr t g Ht Hg).
Qed.
End HashTable.

(** ** Prime sizes *)

Lemma isPrime_loop n : 0 < n < 2 ^ 31 ->
  exists b, loop (isPrime_step n) 131072 2 = inr b /\
    (b = true <-> forall d, 2 <= d < n -> n mod d <> 0).
Proof.
  intros Hn. change (2 ^ 31) with 2147483648 in Hn.
  apply (loop_rule (isPrime_step n)
    (fun i => 2 <= i <= 46341 /\ (forall d, 2 <= d < i -> d < n -> n mod d <> 0))
    (fun i => 46341 - i)); [|split; intros; lia|lia].
  intros i [Hi Hd]. split; [lia|]. unfold isPrime_step.
  rewrite unsigned_id by (unfold in_unsigned; nia).
  destruct (i * i <=? n) eqn:E1; bprop.
  - assert (i <= 46340) by nia. destruct (n mod i =? 0) eqn:E2; bprop.
    + split; [done|]. intros Hall. destruct (Hall i); [nia|done].
    + split; [|lia]. split; [lia|]. intros d Hdi Hdn.
      destruct (decide (d = i)) as [->|]; [done|]. apply Hd; lia.
  - split; [|done]. intros _ d Hdn Hz.
    destruct (decide (d < i)) as [Hlt|Hge]; [apply (Hd d); [lia|lia|done]|].
    pose proof (Z.div_mod n d ltac:(lia)) as Hdiv. rewrite Hz in Hdiv.
    assert (0 < n / d) by nia. assert (n / d < i) by nia.
    assert (1 < n / d) by nia.
    apply (Hd (n / d)); [lia|nia|].
    replace n with (d * (n / d)) at 1 by lia. by apply Z.mod_mul; lia.
Qed.

(** [isPrime] accepts exactly the primes and 1. *)
Lemma isPrime_spec n : 0 <= n < 2 ^ 31 -> isPrime n = true <-> n = 1 \/ prime n.
Proof.
  intros Hn. unfold isPrime. destruct (n =? 0) eqn:E0; bprop.
  { subst n. split; [done|]. intros [?|Hp]; [done|]. destruct Hp. lia. }
  destruct (isPrime_loop n ltac:(lia)) as (b & -> & Hb). rewrite Hb. split.
  - intros H. destruct (decide (n = 1)); [by left|right].
    apply prime_alt. split; [lia|]. intros d Hd Hdiv.
    apply (H d); [lia|]. by apply Zdivide_mod.
  - intros Hp d Hd Hz. destruct Hp as [->|Hp]; [lia|].
    apply prime_alt in Hp as [_ Hp]. apply (Hp d); [lia|]. apply Zmod_divide; [lia|done].
Qed.

Lemma isPrime_big : isPrime 1000003 = true.
Proof. vm_compute. reflexivity. Qed.

(** The search for a prime size ends at the least admissible size. *)
Lemma nextPrimeUp_spec n : 0 <= n <= 1000003 ->
  exists p, nextPrimeUp n = Some p /\ n <= p <= 1000003 /\ (p = 1 \/ prime p) /\
    forall m, n <= m < p -> ~ prime m.
Proof.
  intros Hn. unfold nextPrimeUp.
  destruct (loop_rule nextPrimeUp_step
    (fun k => n <= k <= 1000003 /\ forall m, n <= m < k -> isPrime m = false)
    (fun k => 1000003 - k)
    (fun p => n <= p <= 1000003 /\ isPrime p = true /\ forall m, n <= m < p -> isPrime m = false)
    4294967296 n) as (p & Hl & Hp & Hpr & Hmin); [|split; intros; lia|lia|].
  - intros k [Hk Hno]. split; [lia|]. unfold nextPrimeUp_step.
    destruct (isPrime k) eqn:E; [done|].
    assert (k <> 1000003) by (intros ->; by rewrite isPrime_big in E).
    rewrite unsigned_id by (unfold in_unsigned; lia). split; [|lia]. split; [lia|].
    intros m Hm. destruct (decide (m = k)) as [->|]; [done|]. apply Hno. lia.
  - exists p. rewrite Hl. split_and!; [done|lia|lia|apply isPrime_spec; [lia|done]|].
    intros m Hm Hpm. assert (isPrime m = true) as E by (apply isPrime_spec; [lia|by right]).
    rewrite Hmin in E by lia. done.
Qed.

(** ** Growing and filling the table *)

Section Registry.
Context {query : Type}.
Implicit Types (h : list (_evlFacility query)) (r : _evlFacilityRegistry query).

Lemma facs_app h1 h2 : facs (h1 ++ h2) = facs h1 ++ facs h2.
Proof. apply List.filter_app. Qed.

Lemma facs_full h fac n : Z.of_nat (length h) = n -> 0 < n ->
  findHashSlotFor fac h n = -1 -> length (facs h) = length h.
Proof.
  intros Hn Hpos Hf. destruct (find_spec fac h n Hn Hpos) as [(j & _ & Hr & _)|[_ Hno]].
  { cbv zeta in Hr. rewrite Hf in Hr. pose proof (Z.mod_pos_bound (fac + j) n Hpos). lia. }
  assert (forall f, f ∈ h -> faCode f <> EMPTY) as Hall.
  { intros f Hin He. destruct (elem_slot _ _ _ Hn Hin) as (s & Hs & <-).
    apply (Hno s Hs). by right. }
  unfold facs. clear -Hall. induction h as [|f h IH]; [done|]. cbn.
  rewrite (proj2 (Z.eqb_neq _ _)) by (apply Hall; set_solver). cbn. f_equal. apply IH. set_solver.
Qed.

Lemma length_facs h : (length (facs h) <= length h)%nat.
Proof. unfold facs. apply List.filter_length_le. Qed.

Lemma hash_ok_empty (n : Z) : 0 < n -> hash_ok (replicate (Z.to_nat n) (unused : _evlFacility query)) n.
Proof.
  intros Hn. assert (forall f, f ∈ replicate (Z.to_nat n) (unused : _evlFacility query) -> f = unused) as Hu.
  { intros f Hf. by apply elem_of_replicate in Hf as [-> _]. }
  split; [rewrite length_replicate; lia|done| | |].
  - intros f ->%Hu. cbn. unfold in_unsigned, EMPTY, EVL_INVALID_FACILITY. lia.
  - assert (facs (replicate (Z.to_nat n) (unused : _evlFacility query)) = []) as ->; [|apply NoDup_nil_2].
    clear. induction (Z.to_nat n) as [|k IH]; [done|]. cbn. exact IH.
  - intros s f Hs Hf Hne. exfalso. apply Hne. rewrite <-Hf.
    rewrite (Hu (slot_at _ s)); [done|]. apply slot_at_in. rewrite length_replicate. lia.
Qed.

Lemma facs_empty (n : nat) : facs (replicate n (unused : _evlFacility query)) = [].
Proof. induction n as [|k IH]; [done|]. cbn. exact IH. Qed.

(** Rehashing keeps the facilities, whatever their order, and its asserts hold. *)
Lemma rehash_ok old : forall new n,
  hash_ok new n -> (forall f, f ∈ old -> in_unsigned 32 (faCode f)) ->
  NoDup (faCode <$> facs old ++ facs new) ->
  Z.of_nat (length (facs old) + length (facs new)) <= n ->
  exists h', rehash old new n = Some h' /\ hash_ok h' n /\ facs h' ≡ₚ facs old ++ facs new.
Proof.
  induction old as [|f old IH]; intros new n Hok Hrg Hnd Hlen; [by eauto|].
  assert (forall g, g ∈ old -> in_unsigned 32 (faCode g)) as Hrg' by (intros; apply Hrg; set_solver).
  change (f :: old) with ([f] ++ old) in Hnd, Hlen |- *. rewrite facs_app in *.
  cbn [app rehash]. destruct (negb (faCode f =? EMPTY)) eqn:E.
  - assert (facs [f] = [f]) as Hf1 by (cbn; by rewrite E).
    rewrite Hf1 in *. bprop. cbn [app] in Hnd, Hlen |- *. cbn in Hnd. apply NoDup_cons in Hnd as [Hnf Hnd].
    pose proof Hok as [Hn Hpos _ _ _].
    destruct (insert_ok new n f (findHashSlotFor (faCode f) new n) Hok ltac:(apply Hrg; set_solver) E) as (Hs & Hok' & Hperm).
    { intros g Hg Hc. apply Hnf. rewrite <-Hc. apply list_elem_of_fmap_2. set_solver. }
    { reflexivity. }
    { intros Hm. pose proof (facs_full _ _ _ Hn Hpos Hm). cbn in Hlen. lia. }
    cbv zeta. destruct ((0 <=? _) && _) eqn:E1; [|lia].
    destruct (IH _ n Hok' Hrg') as (h' & Hr & Hok'' & Hp).
    + rewrite fmap_app, (fmap_Permutation faCode _ _ Hperm), <-fmap_app, <-Permutation_middle.
      cbn. apply NoDup_cons. done.
    + rewrite (Permutation_length Hperm). cbn in *. lia.
    + exists h'. split; [done|]. split; [done|]. rewrite Hp, Hperm. by rewrite <-Permutation_middle.
  - assert (facs [f] = []) as Hf1 by (cbn; by rewrite E). rewrite Hf1 in *. by apply IH.
Qed.

Lemma realloc_ok h n m :
  hash_ok h n -> n <= m -> isPrime m = true ->
  exists h', reallocFacHash h n m = Some h' /\ hash_ok h' m /\ facs h' ≡ₚ facs h.
Proof.
  intros Hok Hle Hp. pose proof Hok as [Hn Hpos Hrg Hnd _]. unfold reallocFacHash.
  rewrite (proj2 (Z.geb_le _ _)), Hp by done. cbn [negb].
  rewrite take_ge by lia.
  destruct (rehash_ok h (replicate (Z.to_nat m) unused) m) as (h' & -> & Hok' & Hf);
    [apply hash_ok_empty; lia|done| | |].
  - rewrite facs_empty, app_nil_r. done.
  - rewrite facs_empty. pose proof (length_facs h). cbn. lia.
  - exists h'. rewrite facs_empty, app_nil_r in Hf. done.
Qed.

(** The registry: a good table and an exact count. *)
Definition reg_ok r : Prop :=
  hash_ok (frHash r) (frHashSize r) /\ frNFacilities r = Z.of_nat (length (facs (frHash r))).

(** Adding a new facility, growing the table when it is full: the facilities
    are the old ones and the new one, and the invariant is kept. *)
Lemma add_spec r code name acc filter (q : option query) :
  hash_ok (frHash r) (frHashSize r) -> Z.of_nat (length (facs (frHash r))) <= 500000 ->
  in_unsigned 32 code -> code <> EMPTY ->
  (forall g, g ∈ facs (frHash r) -> faCode g <> code) ->
  exists r', addFacToHash r code name acc filter q = Some r' /\
    hash_ok (frHash r') (frHashSize r') /\
    facs (frHash r') ≡ₚ mkFac code name acc filter q :: facs (frHash r) /\
    frNFacilities r' = frNFacilities r + 1 /\
    (Z.of_nat (length (facs (frHash r))) < frHashSize r -> frHashSize r' = frHashSize r).
Proof.
  intros Hok Hlen Hc Hne Hnew. pose proof Hok as [Hn Hpos _ _ _]. unfold addFacToHash. cbv zeta.
  destruct (_ =? -1) eqn:E; bprop.
  - pose proof (facs_full _ _ _ Hn Hpos E) as Hfull.
    destruct (nextPrimeUp_spec (frHashSize r * 2)) as (p & -> & Hp & Hpr & _); [lia|].
    cbn [mbind option_bind].
    destruct (realloc_ok (frHash r) (frHashSize r) p Hok) as (h' & -> & Hok' & Hf); [lia| |].
    { apply isPrime_spec; [lia|done]. }
    cbn [mbind option_bind]. pose proof Hok' as [Hn' Hpos' _ _ _].
    destruct (_ =? -1) eqn:E'; bprop.
    { pose proof (facs_full _ _ _ Hn' Hpos' E'). rewrite (Permutation_length Hf) in *. lia. }
    destruct (insert_ok h' p (mkFac code name acc filter q) (findHashSlotFor code h' p) Hok' Hc Hne)
      as (Hs & Hok'' & Hf''); [|done|exact E'|].
    { intros g Hg. rewrite Hf in Hg. by apply Hnew. }
    eexists. split; [done|]. cbn. split; [exact Hok''|]. split; [by rewrite Hf'', Hf|].
    split; [done|]. lia.
  - destruct (insert_ok (frHash r) _ (mkFac code name acc filter q)
      (findHashSlotFor code (frHash r) (frHashSize r)) Hok Hc Hne Hnew eq_refl E)
      as (Hs & Hok'' & Hf'').
    eexists. split; [done|]. cbn. done.
Qed.

Lemma lookup_perm r r' c :
  hash_ok (frHash r) (frHashSize r) -> hash_ok (frHash r') (frHashSize r') ->
  facs (frHash r) ≡ₚ facs (frHash r') -> c <> EMPTY -> lookup_fac c r = lookup_fac c r'.
Proof.
  intros H1 H2 Hp Hc. apply option_eq. intros f.
  rewrite !lookup_fac_spec by done. by rewrite Hp.
Qed.

Lemma codes_inj h n f g : hash_ok h n -> f ∈ facs h -> g ∈ facs h -> faCode f = faCode g -> f = g.
Proof.
  intros Hok Hf Hg Heq. apply facs_elem in Hf as [Hf Hnf]. apply facs_elem in Hg as [Hg Hng].
  pose proof (ho_size _ _ Hok) as Hn.
  destruct (elem_slot _ _ _ Hn Hf) as (s & Hs & <-). destruct (elem_slot _ _ _ Hn Hg) as (t & Ht & <-).
  by rewrite (slot_unique h n s t).
Qed.

(** C21: the registry behaves as a finite map from codes to facilities. *)
Theorem registry_add_lookup r code name acc filter (q : option query) :
  reg_ok r -> frNFacilities r <= 500000 -> in_unsigned 32 code -> code <> EMPTY ->
  lookup_fac code r = None ->
  exists r', addFacToHash r code name acc filter q = Some r' /\ reg_ok r' /\
    forall c, c <> EMPTY ->
      lookup_fac c r' = if c =? code then Some (mkFac code name acc filter q) else lookup_fac c r.
Proof.
  intros [Hok Hcnt] Hlen Hc Hne Hl.
  assert (forall g, g ∈ facs (frHash r) -> faCode g <> code) as Hnew.
  { intros g Hg Heq. assert (lookup_fac code r = Some g) as Hg' by (by apply lookup_fac_spec).
    by rewrite Hl in Hg'. }
  destruct (add_spec r code name acc filter q Hok ltac:(lia) Hc Hne Hnew)
    as (r' & Ha & Hok' & Hf & Hn & _).
  exists r'. split; [done|]. split.
  { split; [done|]. rewrite Hn, Hcnt, (Permutation_length Hf). cbn. lia. }
  intros c Hce. apply option_eq. intros f. rewrite lookup_fac_spec by done. rewrite Hf, elem_of_cons.
  destruct (c =? code) eqn:E; bprop.
  - subst c. split; [intros [[->|Hin] Hcode]; [done|]|intros [= <-]; by split; [left|]].
    exfalso. by apply (Hnew f).
  - rewrite lookup_fac_spec by done. split; [|tauto].
    intros [[->|Hin] Hcode]; [by cbn in Hcode|done].
Qed.
End Registry.

(** ** Reading the registry file *)

(** The chunks that successive [fgets(line, 200, f)] return. *)
Fixpoint fgets_lines (room : nat) (cur s : str) : list str :=
  match s with
  | EmptyString => if streqb cur "" then [] else [cur]
  | String c s' =>
      let cur' := (cur ++ String c EmptyString)%string in
      match room with
      | S (S r) => if chr c =? 10 then cur' :: fgets_lines 199 EmptyString s'
                   else fgets_lines (S r) cur' s'
      | _ => cur' :: fgets_lines 199 EmptyString s'
      end
  end.

Section ReadFacilities.
Context {query : Type}.
(** [posix_log_query_create(filter, EVL_PRPS_RESTRICTED, query, ..)] *)
Variable query_create : str -> Z * option query.

Definition chomp (line : str) : str :=
  match str_last line with
  | Some c => if chr c =? 10 then drop_last line else line
  | None => line
  end.
(** One line: the registry and [nErrors] after it ([None]: a failed assert). *)
Definition read_facility (line : str) (r : _evlFacilityRegistry query) (nErrors : Z)
  : option (_evlFacilityRegistry query * Z) :=
  let bad := Some (r, nErrors + 1) in
  if starts_with "#" line then Some (r, nErrors)
  else
    let line := chomp line in
    let raw := split_raw line 6 in
    match unquote <$> raw with
    | t0 :: t1 :: opts =>
        if Z.of_nat (length raw) >? 5 then bad
        else
          let '(facNum, s) := strtoul t0 0 in
          if streqb s t0 && streqb (default EmptyString (head raw)) t0 then bad
          else if s64 facNum =? EVL_INVALID_FACILITY then bad
          else
            (* [facName == s] compares the addresses of two different words. *)
            let facName := if strlen t1 >=? POSIX_LOG_MEMSTR_MAXLEN - 1
                           then String.substring 0 127 t1 else t1 in
            let '(status, accessFlags, filter) := _evlCollectOptionalFacParams opts in
            if status <? 0 then bad
            else
              let code := u32 facNum in
              if bool_decide (is_Some (getFacNameByCode code r)) then bad
              else if negb (getFacCodeByCIName (Some facName) r =? EVL_INVALID_FACILITY) then bad
              else if checkPosixFacility code facName then bad
              else
                match filter with
                | None =>
                    r' ← addFacToHash r code facName accessFlags None None; Some (r', nErrors)
                | Some f =>
                    let '(ret, q) := query_create f in
                    if ret =? 0 then
                      r' ← addFacToHash r code facName accessFlags filter q; Some (r', nErrors)
                    else if ret =? EBUSY then
                      r' ← addFacToHash r code facName accessFlags filter None; Some (r', nErrors)
                    else Some (r, nErrors)        (* the message does not count *)
                end
    | _ => bad
    end.
Fixpoint read_lines (lines : list str) (r : _evlFacilityRegistry query) (nErrors : Z)
  : option (_evlFacilityRegistry query * Z) :=
  match lines with
  | [] => Some (r, nErrors)
  | line :: lines' => '(r', n') ← read_facility line r nErrors; read_lines lines' r' n'
  end.
(** [Some None] is the null pointer that is returned when there were errors. *)
Definition _evlReadFacilities (faCapacity : Z) (file : str) : option (option (_evlFacilityRegistry query)) :=
  newFacReg ← allocFacReg faCapacity;
  '(r, nErrors) ← read_lines (fgets_lines 199 EmptyString file) newFacReg 0;
  Some (if nErrors + checkMissingPosixFacilities r =? 0 then Some r else None).

(** ** The current image of the registry *)

Record fac_state := mkFacState {
  facilities : option (_evlFacilityRegistry query);
  faCapacity : Z;
  lastMod : Z;
  lastSize : Z;
  nextCheck : Z;
  evlCheckInterval : Z
}.
(** The registry file: its times, size and contents, if it can be opened. *)
Record reg_file := mkRegFile { rf_mtime : Z; rf_size : Z; rf_text : str }.

Definition facRegUpToDate (force : bool) (st : fac_state) (now : Z) (file : option reg_file)
  : bool * fac_state :=
  let check st :=
    match file with
    | None => (true, st)
    | Some f => ((lastMod st >=? rf_mtime f) && (lastSize st =? rf_size f), st)
    end in
  if negb force && (evlCheckInterval st >? 0) then
    if now <=? nextCheck st then (true, st)
    else check (mkFacState (facilities st) (faCapacity st) (lastMod st) (lastSize st)
                  (now + evlCheckInterval st) (evlCheckInterval st))
  else check st.

Definition syncFacilities (st : fac_state) (now : Z) (file : option reg_file)
  : option (_evlFacilityRegistry query * fac_state) :=
  let reload st :=
    newFacilities ← (match file with
                     | None => Some None
                     | Some f => _evlReadFacilities (faCapacity st) (rf_text f)
                     end);
    let st := match file with
              | None => st
              | Some f => mkFacState (facilities st) (faCapacity st) (rf_mtime f) (rf_size f)
                            (nextCheck st) (evlCheckInterval st)
              end in
    let install r cap := Some (r, mkFacState (Some r) cap (lastMod st) (lastSize st) (nextCheck st)
                                    (evlCheckInterval st)) in
    match newFacilities with
    | Some r => install r (frHashSize r)
    | None =>
        match facilities st with
        | Some r => Some (r, st)
        | None => r ← setUpDefaultRegistry (faCapacity st); install r (faCapacity st)
        end
    end in
  match facilities st with
  | None => reload st
  | Some r =>
      let '(ok, st) := facRegUpToDate false st now file in
      if ok then Some (r, st) else reload st
  end.

Definition _evlGetFacilityCodeByCIName (name : option str) (st : fac_state) (now : Z)
  (file : option reg_file) : option (Z * fac_state) :=
  '(fr, st) ← syncFacilities st now file; Some (getFacCodeByCIName name fr, st).
Definition _evlGetFacilityName (facNum : Z) (st : fac_state) (now : Z) (file : option reg_file)
  : option (option str * fac_state) :=
  '(fr, st) ← syncFacilities st now file; Some (getFacNameByCode facNum fr, st).
Definition _evlGetFacilityAccess (facNum : Z) (st : fac_state) (now : Z) (file : option reg_file)
  : option (Z * fac_state) :=
  '(fr, st) ← syncFacilities st now file; Some (facility_access facNum fr, st).
End ReadFacilities.

Definition sample_registry : str :=
  String.concat (String "010" EmptyString)
    (["# standard facilities"]%string ++
     ((fun nv => fmt_d (nv_value nv) ++ " " ++ nv_name nv)%string <$> _evlLinuxFacilities) ++
     ["0x1f4 myfac private 'uid = 3'"; "1000x odd"]%string).
Example read_sample :
  match _evlReadFacilities (fun f => (0, Some f)) 5 sample_registry with
  | Some (Some r) => (frNFacilities r, getFacNameByCode 500 r, getFacNameByCode 1000 r,
                      getFacCodeByCIName (Some "kern"%string) r)
  | _ => (0, None, None, 0)
  end = (23, Some "myfac", Some "odd", 0)%string.
Proof. vm_compute. reflexivity. Qed.

(** ** What a registry read from a file guarantees *)

Lemma ci_strcmp_zero_sym s1 s2 : _evlCIStrcmp s1 s2 = 0 -> _evlCIStrcmp s2 s1 = 0.
Proof.
  revert s2; induction s1 as [|c1 s1 IH]; intros [|c2 s2]; cbn; try lia.
  rewrite (Z.eqb_sym (toupper (schar c2))). destruct (_ =? _) eqn:E; [apply IH|lia].
Qed.
Lemma ci_strcmp_zero_refl s : _evlCIStrcmp s s = 0.
Proof. induction s as [|c s IH]; cbn; [lia|]. by rewrite Z.eqb_refl. Qed.

Section ReadSpec.
Context {query : Type}.
Variable query_create : str -> Z * option query.
Implicit Types (h : list (_evlFacility query)) (r : _evlFacilityRegistry query).

(** A facility whose code is the mark of an unused slot is not stored. *)
Lemma add_empty r name acc filter (q : option query) :
  hash_ok (frHash r) (frHashSize r) -> Z.of_nat (length (facs (frHash r))) <= 500000 ->
  exists r', addFacToHash r EMPTY name acc filter q = Some r' /\
    hash_ok (frHash r') (frHashSize r') /\ facs (frHash r') ≡ₚ facs (frHash r).
Proof.
  assert (forall h n s f, hash_ok h n -> s = findHashSlotFor EMPTY h n -> s <> -1 ->
    faCode f = EMPTY ->
    hash_ok (<[Z.to_nat s := f]> h) n /\ facs (<[Z.to_nat s := f]> h) = facs h) as Hins.
  { intros h n s f Hok -> Hs Hf. pose proof Hok as [Hn Hpos Hrg Hnd Hpr].
    destruct (find_spec EMPTY h n Hn Hpos) as [(j & Hj & Hr & Hst & _)|[? _]]; [|done].
    cbv zeta in *. set (s := findHashSlotFor EMPTY h n) in *.
    assert (0 <= s < n) as Hb by (rewrite Hr; apply Z.mod_pos_bound; lia).
    assert (faCode (slot_at h s) = EMPTY) as He by (by destruct Hst).
    assert (facs (<[Z.to_nat s := f]> h) = facs h) as Hfacs.
    { unfold slot_at in He. destruct (h !! Z.to_nat s) as [g|] eqn:Eg; [|by apply lookup_ge_None in Eg; lia].
      cbn in He. rewrite insert_take_drop by lia. rewrite <-(take_drop_middle _ _ _ Eg) at 3.
      unfold facs. rewrite !List.filter_app. cbn. by rewrite Hf, He. }
    assert (forall t, 0 <= t -> faCode (slot_at (<[Z.to_nat s:=f]> h) t) = faCode (slot_at h t)) as Hc.
    { intros t Ht. rewrite slot_at_insert by lia. case_decide; [by subst t; rewrite He|done]. }
    split; [|done]. split; [by rewrite length_insert|done| |by rewrite Hfacs|].
    - intros g Hg. apply list_elem_of_lookup in Hg as [i Hi].
      apply list_lookup_insert_Some in Hi as [(_ & <- & _)|[_ Hi]].
      + rewrite Hf. unfold in_unsigned, EMPTY, EVL_INVALID_FACILITY. lia.
      + apply Hrg. by eapply list_elem_of_lookup_2.
    - intros t g Ht Hg Hgne k Hk.
      assert (faCode g = faCode (slot_at h t)) as Hgc by (rewrite <-Hg; apply Hc; lia).
      rewrite Hgc in *. rewrite Hc by (apply Z.mod_pos_bound; lia). by apply (Hpr t _ Ht eq_refl). }
  intros Hok Hlen. pose proof Hok as [Hn Hpos _ _ _]. unfold addFacToHash. cbv zeta.
  destruct (_ =? -1) eqn:E; bprop.
  - pose proof (facs_full _ _ _ Hn Hpos E) as Hfull.
    destruct (nextPrimeUp_spec (frHashSize r * 2)) as (p & -> & Hp & Hpr & _); [lia|].
    cbn [mbind option_bind].
    destruct (realloc_ok (frHash r) (frHashSize r) p Hok) as (h' & -> & Hok' & Hf); [lia| |].
    { apply isPrime_spec; [lia|done]. }
    cbn [mbind option_bind]. pose proof Hok' as [Hn' Hpos' _ _ _].
    destruct (_ =? -1) eqn:E'; bprop.
    { pose proof (facs_full _ _ _ Hn' Hpos' E'). rewrite (Permutation_length Hf) in *. lia. }
    destruct (Hins h' p _ (mkFac EMPTY name acc filter q) Hok' eq_refl E' eq_refl) as [Hok'' Hf''].
    eexists. split; [done|]. unfold store. cbn [frHash frHashSize]. split; [exact Hok''|]. by rewrite Hf''.
  - destruct (Hins (frHash r) _ _ (mkFac EMPTY name acc filter q) Hok eq_refl E eq_refl) as [Hok'' Hf''].
    eexists. split; [done|]. unfold store. cbn [frHash frHashSize]. split; [exact Hok''|]. by rewrite Hf''.
Qed.

(** The entries are a good table, no two names agree up to case, and a
    standard code goes with its standard name. *)
Definition entries_ok r : Prop :=
  hash_ok (frHash r) (frHashSize r) /\
  (forall f g, f ∈ facs (frHash r) -> g ∈ facs (frHash r) ->
     _evlCIStrcmp (faName f) (faName g) = 0 -> f = g) /\
  (forall f, f ∈ facs (frHash r) -> checkPosixFacility (faCode f) (faName f) = false).

Lemma ci_search_spec name h :
  (exists f, f ∈ facs h /\ _evlCIStrcmp (faName f) name = 0 /\ ci_search name h = faCode f) \/
  (ci_search name h = EVL_INVALID_FACILITY /\
   forall f, f ∈ facs h -> _evlCIStrcmp (faName f) name <> 0).
Proof.
  induction h as [|f h IH].
  { right. split; [done|]. intros f Hf%facs_elem. by destruct Hf as [?%elem_of_nil]. }
  cbn [ci_search]. unfold facs. cbn [List.filter]. fold (facs h).
  destruct (negb (faCode f =? EMPTY)) eqn:E1; cbn [andb].
  - destruct (_evlCIStrcmp (faName f) name =? 0) eqn:E2; bprop.
    + left. exists f. split; [apply elem_of_cons; by left|done].
    + destruct IH as [(g & Hg & H)|[H1 H2]]; [left|right].
      * exists g. split; [apply elem_of_cons; by right|done].
      * split; [done|]. intros g [->|Hg]%elem_of_cons; [done|by apply H2].
  - destruct IH as [(g & Hg & H)|[H1 H2]]; [left; by exists g|by right].
Qed.

Lemma entries_add r code name acc filter (q : option query) :
  entries_ok r -> Z.of_nat (length (facs (frHash r))) <= 500000 -> in_unsigned 32 code ->
  getFacNameByCode code r = None -> getFacCodeByCIName (Some name) r = EVL_INVALID_FACILITY ->
  checkPosixFacility code name = false ->
  exists r', addFacToHash r code name acc filter q = Some r' /\ entries_ok r' /\
    (length (facs (frHash r')) <= S (length (facs (frHash r))))%nat.
Proof.
  intros (Hok & Hnames & Hstd) Hlen Hc Hnew Hname Hpx.
  destruct (decide (code = EMPTY)) as [->|Hne].
  - destruct (add_empty r name acc filter q Hok Hlen) as (r' & Ha & Hok' & Hf).
    exists r'. split; [done|]. split; [|rewrite (Permutation_length Hf); lia].
    split; [done|]. split; intros; [apply Hnames|apply Hstd]; by rewrite <-?Hf.
  - assert (forall g, g ∈ facs (frHash r) -> faCode g <> code) as Hnew'.
    { intros g Hg Heq. unfold getFacNameByCode in Hnew.
      rewrite (proj2 (lookup_fac_spec r code g Hok Hne)) in Hnew; done. }
    assert (forall g, g ∈ facs (frHash r) -> _evlCIStrcmp (faName g) name <> 0) as Hnn.
    { destruct (ci_search_spec name (frHash r)) as [(g & Hg & _ & Hs)|[_ H]]; [|done].
      cbn in Hname. rewrite Hs in Hname. apply facs_elem in Hg as [_ Hg]. done. }
    destruct (add_spec r code name acc filter q Hok Hlen Hc Hne Hnew') as (r' & Ha & Hok' & Hf & _).
    exists r'. split; [done|]. split; [|rewrite (Permutation_length Hf); cbn; lia].
    split; [done|]. split.
    + intros f g. rewrite !Hf, !elem_of_cons. intros [->|Hf1] [->|Hg1] Heq; [done| | |by apply Hnames].
      * exfalso. apply (Hnn g); [done|]. by apply ci_strcmp_zero_sym.
      * exfalso. by apply (Hnn f).
    + intros f. rewrite Hf, elem_of_cons. intros [->|Hf1]; [done|by apply Hstd].
Qed.

Lemma read_facility_ok line r n :
  entries_ok r -> Z.of_nat (length (facs (frHash r))) <= 500000 ->
  exists r' n', read_facility query_create line r n = Some (r', n') /\ entries_ok r' /\ n <= n' /\
    (length (facs (frHash r')) <= S (length (facs (frHash r))))%nat.
Proof.
  intros Hok Hlen. unfold read_facility.
  assert (forall k, 0 <= k -> exists r' n', Some (r, n + k) = Some (r', n') /\ entries_ok r' /\ n <= n' /\
    (length (facs (frHash r')) <= S (length (facs (frHash r))))%nat) as Hkeep.
  { intros k Hk. exists r, (n + k). split_and!; [done|done|lia|lia]. }
  pose proof (Hkeep 0 ltac:(lia)) as Hkeep0. rewrite Z.add_0_r in Hkeep0.
  pose proof (Hkeep 1 ltac:(lia)) as Hkeep1. clear Hkeep.
  destruct (starts_with "#" line); [done|]. cbv zeta.
  destruct (unquote <$> _) as [|t0 [|t1 opts]]; try done.
  destruct (_ >? 5); [done|]. destruct (strtoul t0 0) as [facNum s].
  destruct (_ && _); [done|]. destruct (s64 facNum =? _); [done|].
  generalize (if strlen t1 >=? POSIX_LOG_MEMSTR_MAXLEN - 1 then String.substring 0 127 t1 else t1).
  intros facName.
  destruct (_evlCollectOptionalFacParams opts) as [[status acc] filter].
  destruct (status <? 0); [done|].
  destruct (bool_decide _) eqn:E1; [done|]. destruct (negb (_ =? EVL_INVALID_FACILITY)) eqn:E2; [done|].
  destruct (checkPosixFacility _ _) eqn:E3; [done|]. bprop.
  apply bool_decide_eq_false in E1. apply eq_None_not_Some in E1.
  assert (forall q : option query, exists r' n', (r' ← addFacToHash r (u32 facNum) facName acc filter q; Some (r', n)) = Some (r', n') /\
    entries_ok r' /\ n <= n' /\ (length (facs (frHash r')) <= S (length (facs (frHash r))))%nat) as Hadd.
  { intros q. destruct (entries_add r (u32 facNum) facName acc filter q) as (r' & -> & Hok' & Hl); try done.
    { by apply unsigned_range. }
    cbn. eexists _, _. split; [done|]. split_and!; [done|lia|done]. }
  destruct filter as [f|]; [|apply Hadd].
  destruct (query_create f) as [ret q]. destruct (ret =? 0); [apply Hadd|].
  destruct (ret =? EBUSY); [apply Hadd|done].
Qed.

Lemma read_lines_ok lines : forall r n,
  entries_ok r -> Z.of_nat (length (facs (frHash r)) + length lines) <= 500000 ->
  exists r' n', read_lines query_create lines r n = Some (r', n') /\ entries_ok r' /\ n <= n'.
Proof.
  induction lines as [|line lines IH]; intros r n Hok Hlen; cbn in *.
  { exists r, n. split_and!; [done|done|lia]. }
  destruct (read_facility_ok line r n Hok) as (r1 & n1 & -> & Hok1 & Hn1 & Hl1); [lia|].
  cbn [mbind option_bind]. destruct (IH r1 n1 Hok1) as (r' & n' & -> & Hok' & Hn'); [lia|].
  exists r', n'. split_and!; [done|done|lia].
Qed.

Lemma alloc_ok cap : 0 <= cap <= 1000003 ->
  exists r, @allocFacReg query cap = Some r /\ hash_ok (frHash r) (frHashSize r) /\
    facs (frHash r) = [] /\ frNFacilities r = 0 /\ cap <= frHashSize r.
Proof.
  intros Hcap. unfold allocFacReg.
  destruct (nextPrimeUp_spec cap Hcap) as (p & -> & Hp & Hpr & _). cbn [mbind option_bind].
  assert (p = 1 \/ 2 <= p) as Hp2 by (destruct Hpr as [?|[? _]]; lia).
  unfold reallocFacHash. rewrite (proj2 (Z.geb_le p 0)) by lia.
  rewrite (proj2 (isPrime_spec p ltac:(lia)) Hpr). cbn.
  eexists. split; [done|]. cbn. split_and!; [apply hash_ok_empty; lia|apply facs_empty|done|lia].
Qed.

(** C38: reading a file of at most 500000 lines always succeeds or reports an
    error; a registry that is accepted has every standard facility, under its
    standard name, and no two facilities with the same code or name. *)
Theorem readFacilities_ok cap file :
  0 <= cap <= 1000003 -> Z.of_nat (length (fgets_lines 199 EmptyString file)) <= 500000 ->
  exists res, _evlReadFacilities query_create cap file = Some res /\
    forall r, res = Some r ->
      entries_ok r /\
      forall nv, nv ∈ _evlLinuxFacilities ->
        exists f, lookup_fac (nv_value nv) r = Some f /\
          _evlGetValueByCIName _evlLinuxFacilities (faName f) (-1) = nv_value nv.
Proof.
  intros Hcap Hlines. unfold _evlReadFacilities.
  destruct (alloc_ok cap Hcap) as (r0 & -> & Hok0 & Hf0 & _). cbn [mbind option_bind].
  destruct (read_lines_ok (fgets_lines 199 EmptyString file) r0 0) as (r & n & -> & Hok & Hn).
  { split; [done|]. rewrite Hf0. split; intros f; by intros ?%elem_of_nil || intros ? ?%elem_of_nil. }
  { rewrite Hf0. cbn. lia. }
  cbn [mbind option_bind]. eexists. split; [done|]. intros r'.
  destruct (_ =? 0) eqn:E; [|done]. intros [= <-]. bprop. split; [done|].
  intros nv Hnv. destruct Hok as (Hok & Hnames & Hstd).
  assert (0 <= nv_value nv <= 184) as Hv.
  { revert Hnv. apply (proj1 (Forall_forall (fun nv => 0 <= nv_value nv <= 184) _evlLinuxFacilities)).
    repeat constructor; cbn; unfold LOG_LOGMGMT, LOG_AUTHPRIV; lia. }
  assert (nv_value nv <> EMPTY) as Hne by (unfold EMPTY, EVL_INVALID_FACILITY; lia).
  assert (exists f, lookup_fac (nv_value nv) r = Some f) as [f Hf].
  { unfold checkMissingPosixFacilities in E. set (P := fun px => _) in E.
    assert (List.filter P _evlLinuxFacilities = []) as Hnil by (apply length_zero_iff_nil; lia).
    assert (P nv = false) as HP.
    { destruct (P nv) eqn:HP; [|done]. exfalso.
      assert (In nv (List.filter P _evlLinuxFacilities)) as Hin by (apply filter_In; split; [by apply list_elem_of_In|done]).
      by rewrite Hnil in Hin. }
    unfold P in HP. apply orb_false_iff in HP as [H1 H2]. unfold lookup_fac. cbv zeta.
    rewrite H1, H2. eauto. }
  exists f. split; [done|]. apply lookup_fac_spec in Hf as [Hin Hcode]; [|done..].
  specialize (Hstd f Hin). unfold checkPosixFacility in Hstd. cbv zeta in Hstd.
  change (s32 EVL_INVALID_FACILITY) with (-1) in Hstd.
  destruct (linux_value_range (faName f)) as [Hm|Hr]; cbv zeta in *.
  - exfalso. rewrite Hm in Hstd. change (u32 (-1)) with EVL_INVALID_FACILITY in Hstd.
    rewrite Z.eqb_refl in Hstd. cbn [negb] in Hstd. apply negb_false_iff, streqb_spec in Hstd.
    apply (linux_name_empty _ Hstd nv Hnv). rewrite Hcode.
    rewrite signed_id; [done|lia|unfold in_signed; lia].
  - rewrite (unsigned_id 32) in Hstd by (unfold in_unsigned; lia).
    rewrite (proj2 (Z.eqb_neq _ EVL_INVALID_FACILITY)) in Hstd by (unfold EVL_INVALID_FACILITY; lia).
    cbn [negb] in Hstd. bprop. lia.
Qed.
End ReadSpec.

(** *** Instances *)

Definition small_registry : _evlFacilityRegistry unit :=
  Eval vm_compute in
    match allocFacReg 5 with Some r => r | None => mkReg 0 [] 0 end.
Lemma small_registry_ok : reg_ok small_registry /\ facs (frHash small_registry) = [].
Proof.
  destruct (@alloc_ok unit 5 ltac:(lia)) as (r & Ha & Hok & Hf & Hn & _).
  assert (r = small_registry) as <- by (vm_compute in Ha; by injection Ha as <-).
  split; [|done]. split; [done|]. by rewrite Hf.
Qed.

Lemma registry_add_lookup_witness : exists r',
  addFacToHash small_registry 500 "myfac" 0 None None = Some r' /\
  lookup_fac 500 r' = Some (mkFac 500 "myfac" 0 None None).
Proof.
  destruct (registry_add_lookup small_registry 500 "myfac" 0 None None) as (r' & H1 & _ & H2).
  - apply small_registry_ok.
  - vm_compute. done.
  - unfold in_unsigned. lia.
  - done.
  - reflexivity.
  - exists r'. split; [exact H1|]. apply (H2 500). done.
Defined.

Lemma readFacilities_ok_witness : exists r,
  _evlReadFacilities (fun _ => (0, Some tt)) 50 sample_registry = Some (Some r) /\ entries_ok r.
Proof.
  destruct (readFacilities_ok (fun _ => (0, Some tt)) 50 sample_registry) as (res & H1 & H2); [lia|vm_compute; done|].
  destruct res as [r|]; [|vm_compute in H1; done].
  exists r. split; [exact H1|]. by apply H2.
Defined.

(** A facility line whose number is followed by other characters is accepted. *)
Theorem malformed_number_accepted :
  exists r, _evlReadFacilities (fun _ => (0, Some tt)) 50 sample_registry = Some (Some r) /\
    "1000x odd"%string ∈ fgets_lines 199 EmptyString sample_registry /\
    getFacNameByCode 1000 r = Some "odd"%string.
Proof.
  eexists. split; [vm_compute; reflexivity|]. split; [|reflexivity].
  apply list_elem_of_In. vm_compute. tauto.
Qed.

(** The search for a hash-table size ends at the least admissible size, which is
    a prime number (or 1). *)
Theorem hash_size_search n : 0 <= n <= 1000003 ->
  exists p, nextPrimeUp n = Some p /\ n <= p <= 1000003 /\ (p = 1 \/ prime p) /\
    forall m, n <= m < p -> ~ prime m.
Proof. apply nextPrimeUp_spec. Qed.
Lemma hash_size_search_witness : exists p, nextPrimeUp 50 = Some p /\ prime p.
Proof.
  destruct (hash_size_search 50) as (p & H1 & H2 & H3 & _); [lia|]. exists p. split; [exact H1|].
  destruct H3 as [->|H3]; [lia|exact H3].
Defined.
