(* ===== verification/Hosts.v ===== *)
(** * Host names and node ids ([lib/template/tmplfmt.c])

    The table read from [/etc/evlog.d/evlhosts] maps node ids to host names;
    node 0 is the local host.  [gethostname] is an argument. *)
From S2P Require Import Prelude FacNames FacReg.

Record evlhost := mkHost { eh_name : str; eh_id : Z }.
Record host_env := mkHostEnv {
  gethostname : option str;      (* [None]: the call fails *)
  evlhosts : list evlhost        (* the table, once loaded *)
}.

Fixpoint until_dot (s : str) : str :=
  match s with
  | EmptyString => EmptyString
  | String c s' => if chr c =? 46 then EmptyString else String c (until_dot s')
  end.
Definition _evlGetHostName (env : host_env) : str :=
  match gethostname env with Some s => until_dot s | None => EmptyString end.

(** [strtok(s, " \t")]: the token and the rest of the line. *)
Fixpoint until_blank (s : str) : str * str :=
  match s with
  | EmptyString => (EmptyString, EmptyString)
  | String c s' => if is_blank c then (EmptyString, s')
                   else let '(t, r) := until_blank s' in (String c t, r)
  end.
Definition strtok (s : str) : option (str * str) :=
  match skip_blanks s with
  | EmptyString => None
  | s' => Some (until_blank s')
  end.

(** A node id written [upper.lower] or as one number; [None]: an invalid id. *)
Definition parse_node_id (id : str) : option Z :=
  match strchr id "." with
  | Some p =>
      let '(upper, endp) := strtoul id 10 in
      if negb (starts_with "." endp) then None
      else
        let '(lower, endp) := strtoul (String.substring 1 (String.length p) p) 10 in
        if negb (streqb endp "") then None
        else if (s32 upper >? 255) || (s32 lower >? 255) then None
        else Some (s32 (Z.shiftl (s32 upper) 8 + s32 lower))
  | None => Some (s32 (fst (strtoul id 0)))
  end.

(** The hosts of the lines and whether the whole file was read. *)
Fixpoint populateEvlHosts (lines : list str) : list evlhost * bool :=
  match lines with
  | [] => ([], true)
  | line :: lines' =>
      if starts_with "#" line || starts_with (String "010" EmptyString) line || streqb line "" then
        populateEvlHosts lines'
      else
        match strtok (chomp line) with
        | None => ([], false)
        | Some (id, rest) =>
            match strtok rest with
            | None => ([], false)
            | Some (name, _) =>
                let '(hs, ok) := populateEvlHosts lines' in
                match parse_node_id id with
                | Some nodeID => (mkHost name nodeID :: hs, ok)
                | None => (hs, ok)
                end
            end
        end
  end.

(** [snprintf(buf, 8, "0x%x", nodeId)] when no host has the id. *)
Fixpoint lookUpEvlHostName (hosts : list evlhost) (nodeId : Z) : str :=
  match hosts with
  | [] => String.substring 0 7 ("0x" ++ fmt_x (u32 nodeId))
  | h :: hosts' => if eh_id h =? nodeId then eh_name h else lookUpEvlHostName hosts' nodeId
  end.

Fixpoint find_host (hosts : list evlhost) (name : str) : Z :=
  match hosts with
  | [] => -1
  | h :: hosts' => if streqb (eh_name h) name then eh_id h else find_host hosts' name
  end.
Definition _evlGetNodeId (env : host_env) (name : str) : Z :=
  if streqb name (_evlGetHostName env) then 0 else find_host (evlhosts env) name.

Definition _evlGetHostNameEx (env : host_env) (nodeId : Z) : str :=
  let nodeId := Z.land nodeId 0xffff in
  if nodeId =? 0 then _evlGetHostName env else lookUpEvlHostName (evlhosts env) nodeId.

Example hosts_ex :
  populateEvlHosts (fgets_lines 255 EmptyString ("# c" ++ String "010" ("1.2 alpha" ++ String "010" "0x11 beta"))) =
    ([mkHost "alpha" 258; mkHost "beta" 17], true).
Proof. reflexivity. Qed.

(** With distinct ids and names, a node's name leads back to the node. *)
Theorem host_roundtrip env h :
  h ∈ evlhosts env -> NoDup (eh_id <$> evlhosts env) -> NoDup (eh_name <$> evlhosts env) ->
  0 < eh_id h < 65536 -> eh_name h <> _evlGetHostName env ->
  _evlGetHostNameEx env (eh_id h) = eh_name h /\
  _evlGetNodeId env (_evlGetHostNameEx env (eh_id h)) = eh_id h.
Proof.
  intros Hin Hids Hnames Hr Hloc.
  assert (_evlGetHostNameEx env (eh_id h) = eh_name h) as Heq.
  { unfold _evlGetHostNameEx. change 0xffff with (Z.ones 16). rewrite Z.land_ones by lia.
    change (2 ^ 16) with 65536. rewrite Z.mod_small by lia. cbv zeta.
    rewrite (proj2 (Z.eqb_neq _ 0)) by lia. clear Hnames.
    induction (evlhosts env) as [|g hs IH]; [by apply elem_of_nil in Hin|]. cbn in *.
    apply NoDup_cons in Hids as [Hg Hids].
    apply elem_of_cons in Hin as [->|Hin]; [by rewrite Z.eqb_refl|].
    destruct (_ =? _) eqn:E; [|by apply IH]. bprop. destruct Hg. rewrite E. by apply list_elem_of_fmap_2. }
  split; [done|]. rewrite Heq. unfold _evlGetNodeId.
  rewrite (proj2 (streqb_false _ _)) by done. clear Heq Hids.
  induction (evlhosts env) as [|g hs IH]; [by apply elem_of_nil in Hin|]. cbn in *.
  apply NoDup_cons in Hnames as [Hg Hnames].
  apply elem_of_cons in Hin as [->|Hin].
  { by rewrite (proj2 (streqb_spec _ _)). }
  destruct (streqb _ _) eqn:E; [|by apply IH]. apply streqb_spec in E.
  destruct Hg. rewrite E. by apply list_elem_of_fmap_2.
Qed.

Lemma host_roundtrip_witness :
  _evlGetNodeId (mkHostEnv (Some "home"%string) [mkHost "alpha" 258; mkHost "beta" 17]) "alpha" = 258.
Proof.
  apply (host_roundtrip (mkHostEnv (Some "home"%string) [mkHost "alpha" 258; mkHost "beta" 17]) (mkHost "alpha" 258)).
  - apply elem_of_cons. by left.
  - apply (bool_decide_unpack _). vm_compute. exact I.
  - apply (bool_decide_unpack _). vm_compute. exact I.
  - cbn. lia.
  - done.
Defined.
