(* ===== verification/MemStr.v ===== *)
(** * String forms of record members ([lib/posix1.c])

    [posix_log_memtostr], [posix_log_factostr], [posix_log_strtofac] and
    [posix_log_severity_compare], on top of the interface [HostLib]: the C
    library's user, group and time functions and the library's own registry and
    host table, as one consistent snapshot of the machine. *)
From S2P Require Import Prelude NvPairs LogRecord FacNames FacReg Hosts.

(** What the query and formatting code asks of its environment. *)
Class HostLib := {
  getpwuid : Z -> option str;
  getgrgid : Z -> option str;
  getpwnam : str -> option Z;
  getgrnam : str -> option Z;
  (** [strftime] with format ["%c"] of [localtime_r(&t)] *)
  strftime_c : Z -> str;
  time_now : Z;
  (** [facreg.c], by the current registry image *)
  facility_name : Z -> option str;          (* [_evlGetFacilityName] *)
  facility_code : str -> Z;                 (* [_evlGetFacilityCodeByCIName] *)
  facility_access_of : Z -> Z;              (* [_evlGetFacilityAccess] *)
  hosts : host_env;
  (** The contents of an automatic array that was never written. *)
  uninitialized : str
}.

Section MemStr.
Context `{HostLib}.

(** [addFlag] appends to [s]; returns the string and [anyPrevFlags]. *)
Definition addFlag (s : str) (flags flag : Z) (flagName : str) (anyPrevFlags : bool) : str * bool :=
  if negb (Z.land flags flag =? 0) then
    ((s ++ (if anyPrevFlags then "|" else " (") ++ flagName)%string, true)
  else (s, anyPrevFlags).

Definition until_newline : str -> str :=
  fix go s :=
    match s with
    | EmptyString => EmptyString
    | String c s' => if chr c =? 10 then EmptyString else String c (go s')
    end.

(** [inl status] or [inr] the string. *)
Definition posix_log_memtostr (member_selector : Z) (entry : posix_log_entry) (buflen : Z)
  : Z + str :=
  let finish (s : str) := if strlen s + 1 >? buflen then inl EMSGSIZE else inr s in
  if member_selector =? POSIX_LOG_ENTRY_RECID then finish (fmt_d (log_recid entry))
  else if member_selector =? POSIX_LOG_ENTRY_SIZE then finish (fmt_d (u32 (log_size entry)))
  else if member_selector =? POSIX_LOG_ENTRY_FORMAT then
    finish (_evlGetNameByValue _evlFormats (log_format entry) None)
  else if member_selector =? POSIX_LOG_ENTRY_EVENT_TYPE then
    finish ("0x" ++ fmt_x (u32 (log_event_type entry)))%string
  else if member_selector =? POSIX_LOG_ENTRY_FACILITY then
    finish (match facility_name (log_facility entry) with
            | Some s => s
            | None => ("0x" ++ fmt_x (log_facility entry))%string
            end)
  else if member_selector =? POSIX_LOG_ENTRY_SEVERITY then
    finish (_evlGetNameByValue _evlSeverities (log_severity entry) None)
  else if member_selector =? POSIX_LOG_ENTRY_UID then
    (* A remote host's users are not resolved: [goto _rmt_user_exit]. *)
    finish (if negb (Z.shiftr (log_processor entry) 16 =? 0) then uninitialized
            else match getpwuid (log_uid entry) with
                 | Some s => s
                 | None => fmt_d (log_uid entry)
                 end)
  else if member_selector =? POSIX_LOG_ENTRY_GID then
    finish (match getgrgid (log_gid entry) with
            | Some s => s
            | None => fmt_d (log_gid entry)
            end)
  else if member_selector =? POSIX_LOG_ENTRY_PID then finish (fmt_d (log_pid entry))
  else if member_selector =? POSIX_LOG_ENTRY_PGRP then finish (fmt_d (log_pgrp entry))
  else if member_selector =? POSIX_LOG_ENTRY_TIME then
    finish (until_newline (strftime_c (log_time_sec entry)))
  else if member_selector =? POSIX_LOG_ENTRY_FLAGS then
    let flags := log_flags entry in
    let '(s, any) := addFlag ("0x" ++ fmt_x flags) flags EVL_KERNEL_EVENT "KERNEL" false in
    let '(s, any) := addFlag s flags EVL_PRINTK "PRINTK" any in
    let '(s, any) := addFlag s flags EVL_INTERRUPT "INTERRUPT" any in
    let '(s, any) := addFlag s flags POSIX_LOG_TRUNCATE "TRUNCATE" any in
    finish (if any then s ++ ")" else s)%string
  else if member_selector =? POSIX_LOG_ENTRY_THREAD then
    finish ("0x" ++ fmt_x (u32 (log_thread entry)))%string
  else if member_selector =? POSIX_LOG_ENTRY_PROCESSOR then finish (fmt_d (log_processor entry))
  else inl EINVAL.

Definition posix_log_factostr (fac buflen : Z) : Z + str :=
  if facility_access_of fac =? -1 then inl EINVAL
  else posix_log_memtostr POSIX_LOG_ENTRY_FACILITY
         (mkEntry 0 0 0 0 0 fac 0 0 0 0 0 0 0 0 0 0) buflen.

Definition posix_log_strtofac (s : option str) : Z + Z :=
  match s with
  | None => inl EINVAL
  | Some s =>
      let facCode := s32 (facility_code s) in
      if u32 facCode =? EVL_INVALID_FACILITY then inl EINVAL else inr (u32 facCode)
  end.

Definition posix_log_severity_compare (s1 s2 : Z) : Z := s32 (s2 - s1).
End MemStr.

(** ** Lengths of the printed numbers *)

Lemma pretty_go_length k : forall x s, (x < 10 ^ N.of_nat k)%N ->
  (String.length (pretty_N_go x s) <= k + String.length s)%nat.
Proof.
  induction k as [|k IH]; intros x s Hx.
  - assert (x = 0)%N as -> by (cbn in Hx; lia). rewrite pretty_N_go_0. lia.
  - destruct (decide (0 < x)%N) as [Hpos|Hz].
    + rewrite pretty_N_go_step by done.
      etransitivity; [apply IH|cbn; lia].
      rewrite Nat2N.inj_succ, N.pow_succ_r' in Hx. apply N.Div0.div_lt_upper_bound. lia.
    + assert (x = 0)%N as -> by lia. rewrite pretty_N_go_0. lia.
Qed.

Lemma fmt_d_length z : - 10 ^ 20 < z < 10 ^ 20 -> strlen (fmt_d z) <= 21.
Proof.
  intros Hz. unfold strlen, fmt_d.
  assert (forall n, (n < 10 ^ 20)%N -> (String.length (pretty n) <= 20)%nat) as HN.
  { intros n Hn. unfold pretty, pretty_N. case_decide; [cbn; lia|].
    etransitivity; [apply (pretty_go_length 20); exact Hn|cbn; lia]. }
  destruct z as [|p|p]; [cbn; lia| |].
  - change (pretty (Zpos p)) with (pretty (Npos p)). pose proof (HN (Npos p) ltac:(lia)). lia.
  - change (pretty (Zneg p)) with ("-" ++ pretty (Npos p))%string. rewrite str_length_app.
    pose proof (HN (Npos p) ltac:(lia)). change (String.length "-") with 1%nat. lia.
Qed.

Lemma hex_go_length n : forall z acc, (String.length (hex_go n z acc) <= n + String.length acc)%nat.
Proof.
  induction n as [|n IH]; intros z acc; cbn [hex_go]; [lia|]. cbv zeta.
  destruct (_ =? 0); [cbn; lia|]. etransitivity; [apply IH|cbn; lia].
Qed.
Lemma fmt_x_length z : strlen (fmt_x z) <= 16.
Proof. unfold strlen, fmt_x. pose proof (hex_go_length 16 z EmptyString). cbn in *. lia. Qed.

Lemma strlen_app a b : strlen (a ++ b)%string = strlen a + strlen b.
Proof. unfold strlen. rewrite FacNames.str_length_app. lia. Qed.

(** The strings of the environment fit the buffers they are copied to. *)
Definition host_ok `{HostLib} : Prop :=
  (forall u s, getpwuid u = Some s -> strlen s < 128) /\
  (forall g s, getgrgid g = Some s -> strlen s < 128) /\
  (forall f s, facility_name f = Some s -> strlen s < 128) /\
  (forall t, strlen (strftime_c t) < 128) /\
  strlen uninitialized < 128.

Definition standard_member (sel : Z) : Prop := 1 <= sel <= 14.

Lemma name_length t v : table_ok t = true ->
  (forall nv, nv ∈ t -> strlen (nv_name nv) < 22) -> in_signed 32 v ->
  strlen (_evlGetNameByValue t v None) < 22.
Proof.
  intros _ Ht Hv. induction t as [|nv t IH]; cbn.
  - pose proof (fmt_d_length v). unfold in_signed in Hv. lia.
  - destruct (_ =? _); [apply Ht; set_solver|apply IH; set_solver].
Qed.

Lemma until_newline_length s : strlen (until_newline s) <= strlen s.
Proof.
  unfold strlen. induction s as [|c s IH]; cbn; [lia|]. destruct (_ =? _); cbn in *; lia.
Qed.

Lemma addFlag_length s flags flag name prev :
  strlen (addFlag s flags flag name prev).1 <= strlen s + 2 + strlen name.
Proof.
  unfold addFlag. destruct (negb _); cbn [fst]; [|unfold strlen; lia].
  rewrite !strlen_app. destruct prev; unfold strlen; cbn; lia.
Qed.

Lemma memtostr_finish (s : str) : strlen s < 128 ->
  exists r, (if strlen s + 1 >? 128 then inl EMSGSIZE else inr s : Z + str) = inr r /\ strlen r < 128.
Proof. intros Hs. destruct (_ >? _) eqn:E; [lia|]. by exists s. Qed.

(** The flags member, with all four names. *)
Lemma flags_length (s : str) flags : strlen s < 25 ->
  let '(s1, a1) := addFlag s flags EVL_KERNEL_EVENT "KERNEL" false in
  let '(s2, a2) := addFlag s1 flags EVL_PRINTK "PRINTK" a1 in
  let '(s3, a3) := addFlag s2 flags EVL_INTERRUPT "INTERRUPT" a2 in
  let '(s4, a4) := addFlag s3 flags POSIX_LOG_TRUNCATE "TRUNCATE" a3 in
  strlen (if a4 : bool then s4 ++ ")" else s4) < 128.
Proof.
  intros Hs. destruct (addFlag s _ _ _ _) as [s1 a1] eqn:E1. destruct (addFlag s1 _ _ _ _) as [s2 a2] eqn:E2.
  destruct (addFlag s2 _ _ _ _) as [s3 a3] eqn:E3. destruct (addFlag s3 _ _ _ _) as [s4 a4] eqn:E4.
  pose proof (addFlag_length s flags EVL_KERNEL_EVENT "KERNEL" false) as L1.
  pose proof (addFlag_length s1 flags EVL_PRINTK "PRINTK" a1) as L2.
  pose proof (addFlag_length s2 flags EVL_INTERRUPT "INTERRUPT" a2) as L3.
  pose proof (addFlag_length s3 flags POSIX_LOG_TRUNCATE "TRUNCATE" a3) as L4.
  rewrite E1 in L1. rewrite E2 in L2. rewrite E3 in L3. rewrite E4 in L4. cbn [fst] in *.
  change (strlen "KERNEL") with 6 in L1. change (strlen "PRINTK") with 6 in L2.
  change (strlen "INTERRUPT") with 9 in L3. change (strlen "TRUNCATE") with 8 in L4.
  destruct a4; [rewrite strlen_app; change (strlen ")") with 1|]; lia.
Qed.

(** Every member of a record has a string form that fits the buffer. *)
Lemma memtostr_fits `{HostLib} sel entry :
  host_ok -> entry_ok entry -> standard_member sel ->
  exists s, posix_log_memtostr sel entry POSIX_LOG_MEMSTR_MAXLEN = inr s /\ strlen s < 128.
Proof.
  intros (Hu & Hg & Hf & Ht & Hun) Hok Hsel. unfold entry_ok, in_unsigned, in_signed in Hok.
  destruct_and! Hok. change POSIX_LOG_MEMSTR_MAXLEN with 128.
  assert (forall z, - 2 ^ 64 < z < 2 ^ 64 -> strlen (fmt_d z) < 128) as Hd.
  { intros z Hz. pose proof (fmt_d_length z ltac:(lia)). lia. }
  assert (forall z, strlen ("0x" ++ fmt_x z) < 25) as Hx.
  { intros z. rewrite strlen_app. pose proof (fmt_x_length z). unfold strlen in *. cbn in *. lia. }
  assert (forall t v, forallb (fun nv => strlen (nv_name nv) <? 22) t = true -> table_ok t = true ->
    in_signed 32 v -> strlen (_evlGetNameByValue t v None) < 128) as Hn.
  { intros t v Hall Hok Hv. pose proof (name_length t v Hok) as Hl.
    assert (strlen (_evlGetNameByValue t v None) < 22); [|lia]. apply Hl; [|done].
    intros nv Hin. rewrite forallb_forall in Hall. apply Z.ltb_lt, Hall. by apply list_elem_of_In. }
  unfold posix_log_memtostr. cbv zeta. unfold standard_member in Hsel.
  assert (sel = 1 \/ sel = 2 \/ sel = 3 \/ sel = 4 \/ sel = 5 \/ sel = 6 \/ sel = 7 \/ sel = 8 \/
    sel = 9 \/ sel = 10 \/ sel = 11 \/ sel = 12 \/ sel = 13 \/ sel = 14) as Hin by lia.
  repeat (destruct Hin as [->|Hin]); [..|subst sel];
    cbn [Z.eqb Pos.eqb POSIX_LOG_ENTRY_RECID POSIX_LOG_ENTRY_SIZE POSIX_LOG_ENTRY_FORMAT POSIX_LOG_ENTRY_EVENT_TYPE POSIX_LOG_ENTRY_FACILITY POSIX_LOG_ENTRY_SEVERITY POSIX_LOG_ENTRY_UID POSIX_LOG_ENTRY_GID POSIX_LOG_ENTRY_PID POSIX_LOG_ENTRY_PGRP POSIX_LOG_ENTRY_TIME POSIX_LOG_ENTRY_FLAGS POSIX_LOG_ENTRY_THREAD POSIX_LOG_ENTRY_PROCESSOR].
  12: { pose proof (flags_length ("0x" ++ fmt_x (log_flags entry)) (log_flags entry) (Hx _)) as Hl.
    repeat (destruct (addFlag _ _ _ _ _) as [? ?]). by apply memtostr_finish. }
  all: apply memtostr_finish.
  - apply Hd; lia.
  - apply Hd. pose proof (unsigned_range 32 (log_size entry)). unfold in_unsigned in *. lia.
  - by apply Hn.
  - pose proof (Hx (u32 (log_event_type entry))). lia.
  - destruct (facility_name _) eqn:E; [by eapply Hf|]. pose proof (Hx (log_facility entry)). lia.
  - by apply Hn.
  - destruct (negb _); [done|]. destruct (getpwuid _) eqn:E; [by eapply Hu|apply Hd; lia].
  - destruct (getgrgid _) eqn:E; [by eapply Hg|apply Hd; lia].
  - apply Hd; lia.
  - apply Hd; lia.
  - pose proof (until_newline_length (strftime_c (log_time_sec entry))). specialize (Ht (log_time_sec entry)). lia.
  - pose proof (Hx (u32 (log_thread entry))). lia.
  - apply Hd; lia.
Qed.

(** ** The interface over a registry image *)

(** [HostLib] with the registry functions of [FacReg]; the C library's functions
    are arguments. *)
Definition machine {query} (fr : _evlFacilityRegistry query) (pwuid grgid : Z -> option str)
  (pwnam grnam : str -> option Z) (ctime : Z -> str) (now : Z) (env : host_env) (junk : str) : HostLib := {|
  getpwuid := pwuid;
  getgrgid := grgid;
  getpwnam := pwnam;
  getgrnam := grnam;
  strftime_c := ctime;
  time_now := now;
  facility_name code := getFacNameByCode code fr;
  facility_code name := getFacCodeByCIName (Some name) fr;
  facility_access_of code := facility_access code fr;
  hosts := env;
  uninitialized := junk
|}.

Section Machine.
Context {query : Type} (fr : _evlFacilityRegistry query).
Variables (pwuid grgid : Z -> option str) (pwnam grnam : str -> option Z) (ctime : Z -> str) (now : Z)
  (env : host_env) (junk : str).
Let HL : HostLib := machine fr pwuid grgid pwnam grnam ctime now env junk.

(** A registry of short names makes a good environment. *)
Lemma machine_ok : forallb (fun f => strlen (faName f) <? 128) (frHash fr) = true ->
  (forall u s, pwuid u = Some s -> strlen s < 128) -> (forall g s, grgid g = Some s -> strlen s < 128) ->
  (forall t, strlen (ctime t) < 128) -> strlen junk < 128 -> @host_ok HL.
Proof.
  intros Hn Hu Hg Ht Hj. split_and!; [done..| |done|done]. intros c s. cbn.
  unfold getFacNameByCode, lookup_fac. cbv zeta. destruct (_ =? -1); [done|].
  destruct (_ =? EMPTY); [done|]. cbn. intros [= <-]. unfold slot_at.
  destruct (frHash fr !! _) as [f|] eqn:E; [|done]. cbn.
  rewrite forallb_forall in Hn. apply Z.ltb_lt, Hn, list_elem_of_In. by eapply list_elem_of_lookup_2.
Qed.

Lemma facility_strings f : entries_ok fr -> f ∈ facs (frHash fr) -> strlen (faName f) < 128 ->
  faAccessFlags f <> -1 ->
  @posix_log_factostr HL (faCode f) POSIX_LOG_MEMSTR_MAXLEN = inr (faName f) /\
  @posix_log_strtofac HL (Some (faName f)) = inr (faCode f).
Proof.
  intros (Hok & Hnames & _) Hf Hlen Hacc. pose proof Hf as [Hin Hne]%facs_elem.
  assert (in_unsigned 32 (faCode f)) as Hr by (by apply (ho_range _ _ Hok)).
  assert (lookup_fac (faCode f) fr = Some f) as Hl by (by apply lookup_fac_spec).
  split.
  - unfold posix_log_factostr, posix_log_memtostr. cbn [facility_access_of facility_name HL machine].
    unfold facility_access, getFacNameByCode. cbn [log_facility Z.eqb Pos.eqb]. rewrite Hl.
    rewrite (proj2 (Z.eqb_neq _ (-1))) by done. cbn -[strlen]. 
    destruct (_ >? _) eqn:E; [|done]. unfold POSIX_LOG_MEMSTR_MAXLEN in E. zb.
  - unfold posix_log_strtofac. cbn [facility_code HL machine]. cbn [getFacCodeByCIName].
    destruct (ci_search_spec (faName f) (frHash fr)) as [(g & Hg & Heq & ->)|[_ Hno]].
    + rewrite (Hnames g f Hg Hf Heq). cbv zeta. rewrite unsigned_signed, unsigned_id by done.
      by rewrite (proj2 (Z.eqb_neq _ EVL_INVALID_FACILITY)).
    + exfalso. apply (Hno f Hf). apply ci_strcmp_zero_refl.
Qed.
End Machine.

(** ** Properties *)

(** Every member of a record has a string form that fits the buffer, whatever
    the record. *)
Theorem memtostr_total `{HostLib} sel entry :
  host_ok -> entry_ok entry -> standard_member sel ->
  exists s, posix_log_memtostr sel entry POSIX_LOG_MEMSTR_MAXLEN = inr s /\ strlen s < 128.
Proof. apply memtostr_fits. Qed.

(** The name of a registered facility and its code lead back to each other. *)
Theorem facility_string_roundtrip {query} (fr : _evlFacilityRegistry query) pwuid grgid pwnam grnam ctime now env junk f :
  entries_ok fr -> f ∈ facs (frHash fr) -> strlen (faName f) < 128 -> faAccessFlags f <> -1 ->
  let HL := machine fr pwuid grgid pwnam grnam ctime now env junk in
  @posix_log_factostr HL (faCode f) POSIX_LOG_MEMSTR_MAXLEN = inr (faName f) /\
  @posix_log_strtofac HL (Some (faName f)) = inr (faCode f).
Proof. apply facility_strings. Qed.

(** The string form of the user id of a record from another host is the contents
    of an array that was never written. *)
Theorem remote_uid_uninitialized `{HostLib} entry :
  Z.shiftr (log_processor entry) 16 <> 0 -> strlen uninitialized < POSIX_LOG_MEMSTR_MAXLEN ->
  posix_log_memtostr POSIX_LOG_ENTRY_UID entry POSIX_LOG_MEMSTR_MAXLEN = inr uninitialized.
Proof.
  intros Hp Hlen. unfold posix_log_memtostr. cbn [Z.eqb Pos.eqb POSIX_LOG_ENTRY_RECID POSIX_LOG_ENTRY_SIZE
    POSIX_LOG_ENTRY_FORMAT POSIX_LOG_ENTRY_EVENT_TYPE POSIX_LOG_ENTRY_FACILITY POSIX_LOG_ENTRY_SEVERITY POSIX_LOG_ENTRY_UID].
  rewrite (proj2 (Z.eqb_neq _ _) Hp). cbn [negb]. destruct (_ >? _) eqn:E; [zb|done].
Qed.

Definition one_facility : _evlFacilityRegistry unit :=
  Eval vm_compute in
    match _evlReadFacilities (fun _ => (0, Some tt)) 50 sample_registry with Some (Some r) => r | _ => mkReg 0 [] 0 end.
Definition tiny_machine : HostLib :=
  machine one_facility (fun _ => None) (fun _ => None) (fun _ => None) (fun _ => None) (fun _ => EmptyString) 0
    (mkHostEnv None []) "garbage".
Lemma one_facility_ok : entries_ok one_facility.
Proof.
  destruct (@alloc_ok unit 50 ltac:(lia)) as (r0 & Ha & Hok0 & Hf0 & _).
  destruct (read_lines_ok (fun _ => (0, Some tt)) (fgets_lines 199 EmptyString sample_registry) r0 0) as (r & n & Hr & Hok & _).
  { split; [done|]. rewrite Hf0. split; intros f; by intros ?%elem_of_nil || intros ? ?%elem_of_nil. }
  { rewrite Hf0. vm_compute. done. }
  vm_compute in Ha. injection Ha as <-. vm_compute in Hr. injection Hr as <- _. exact Hok.
Qed.

Lemma memtostr_total_witness : exists s,
  @posix_log_memtostr tiny_machine POSIX_LOG_ENTRY_FLAGS (mkEntry 0 0 0 0 0 0 0 0 0 0 0 0 0 1 0 0) POSIX_LOG_MEMSTR_MAXLEN = inr s /\
  strlen s < 128.
Proof.
  apply (@memtostr_total tiny_machine POSIX_LOG_ENTRY_FLAGS (mkEntry 0 0 0 0 0 0 0 0 0 0 0 0 0 1 0 0)).
  - apply machine_ok; done.
  - unfold entry_ok, in_unsigned, in_signed. cbn. lia.
  - unfold standard_member. vm_compute. done.
Defined.
Lemma facility_string_roundtrip_witness :
  @posix_log_strtofac tiny_machine (Some "myfac"%string) = inr 500.
Proof.
  apply (facility_string_roundtrip one_facility (fun _ => None) (fun _ => None) (fun _ => None) (fun _ => None) (fun _ => EmptyString) 0
    (mkHostEnv None []) "garbage" (slot_at (frHash one_facility) (findHashSlotFor 500 (frHash one_facility) (frHashSize one_facility)))).
  - apply one_facility_ok.
  - apply facs_elem. split; [apply list_elem_of_In; vm_compute; tauto|vm_compute; done].
  - vm_compute. done.
  - vm_compute. done.
Defined.
Lemma remote_uid_uninitialized_witness :
  @posix_log_memtostr tiny_machine POSIX_LOG_ENTRY_UID (mkEntry 0 0 0 0 0 0 0 7 0 0 0 0 0 0 0 65536) POSIX_LOG_MEMSTR_MAXLEN = inr "garbage"%string.
Proof. apply (@remote_uid_uninitialized tiny_machine); [done|vm_compute; done]. Defined.
