(* ===== verification/Query.v ===== *)
(** * Query trees ([lib/query/evl_parse.h], [lib/query/query.y])

    The parse tree of a POSIX event-log query, the list of the non-standard
    attributes it mentions, and the three-valued logic of its optimizer.  A
    reference to an object of that list is the object's index ([nsaAtt]). *)
From S2P Require Import Prelude NvPairs.

(** POSIX regular expressions, from the C library: [regcomp] gives the compiled
    expression or [regerror]'s message, and [regexec] succeeds or not. *)
Class RegexLib := {
  regex : Type;
  regcomp : str -> str + regex;
  regexec : regex -> str -> bool
}.

(** Operator codes: characters and tokens of [q.tab.h]. *)
Definition OP_EQ : Z := 61.     (* '=' *)
Definition OP_LT : Z := 60.     (* '<' *)
Definition OP_GT : Z := 62.     (* '>' *)
Definition OP_NOT : Z := 33.    (* '!' *)
Definition OP_BITAND : Z := 38. (* '&' *)
Definition OP_MATCH : Z := 126. (* '~' *)
Definition GE : Z := 261.
Definition LE : Z := 262.
Definition NE : Z := 263.
Definition OR : Z := 264.
Definition AND : Z := 265.
Definition CONTAINS : Z := 266.
Definition RENOMATCH : Z := 267.
Definition AND_LATER : Z := 268.
Definition OR_LATER : Z := 269.

(** A node by its [node_type]; [nt_val] keeps the 64 bits of [attr_uval] next to
    the sign flag, and [attr_val] is their signed reading. *)
Inductive pnode `{RegexLib} :=
  | PNull
  | nt_name (name : str)
  | nt_attname (flag : Z) (name : str)
  | nt_nsaname (nsa : nat) (name : str)
  | nt_val (flag uval : Z)
  | nt_string (s : str)
  | nt_regex (r : regex)
  | nt_op (op : Z) (left right : pnode).

Definition attr_val (uval : Z) : Z := s64 uval.

(** Fuzzy truth: conjunction is [&], disjunction is [|]. *)
Definition evlFuzzyFalse : Z := 0.
Definition evlFuzzyMaybe : Z := 1.
Definition evlFuzzyTrue : Z := 3.
Definition is_fuzzy (f : Z) : Prop := f = evlFuzzyFalse \/ f = evlFuzzyMaybe \/ f = evlFuzzyTrue.

Definition EVLNSA_NUMERIC : Z := 1.
Definition EVLNSA_STRREF : Z := 2.

Record evl_nonStdAtt := mkNsa {
  nsaName : str;
  nsaResultIfMissing : Z;
  nsaFlags : Z;
  nsaAtt : nat
}.
Record evl_nonStdAtts := mkNsas {
  nsAtts : list evl_nonStdAtt;
  nsResultIfAllAttsMissing : Z
}.

(** Purposes of a query. *)
Definition POSIX_LOG_PRPS_NOTIFY : Z := 1.
Definition POSIX_LOG_PRPS_GENERAL : Z := 2.
Definition EVL_PRPS_TEMPLATE : Z := 4.
Definition EVL_PRPS_RESTRICTED : Z := 8.
Definition POSIX_LOG_PRPS_MASK : Z := 15.

Section Shape.
Context `{RegexLib}.

(** The comparison operators of the grammar. *)
Definition is_comparison_op (op : Z) : bool :=
  existsb (Z.eqb op) [OP_EQ; NE; OP_LT; LE; OP_GT; GE; CONTAINS; OP_MATCH; RENOMATCH; OP_BITAND].

(** The trees that the actions of [query.y] build. *)
Fixpoint grammar_tree (t : pnode) : bool :=
  match t with
  | nt_name _ => true
  | nt_op op l r =>
      if op =? OP_NOT then grammar_tree l && match r with PNull => true | _ => false end
      else if (op =? AND) || (op =? OR) then grammar_tree l && grammar_tree r
      else is_comparison_op op &&
           match l with nt_name _ => true | _ => false end &&
           match r with
           | nt_name _ | nt_string _ => true
           | nt_val f v => ((f =? 1) || (f =? -1)) && (0 <=? v) && (v <? 2 ^ 64)
           | _ => false
           end
  | _ => false
  end.

(** [_evlQCloneTree]: a copy, node by node. *)
Fixpoint _evlQCloneTree (orig : pnode) : pnode :=
  match orig with
  | PNull => PNull
  | nt_op op l r => nt_op op (_evlQCloneTree l) (_evlQCloneTree r)
  | leaf => leaf
  end.
End Shape.

Lemma fuzzy_and a b : is_fuzzy a -> is_fuzzy b -> is_fuzzy (Z.land a b).
Proof. unfold is_fuzzy. intros [->|[->| ->]] [->|[->| ->]]; cbn; tauto. Qed.
Lemma fuzzy_or a b : is_fuzzy a -> is_fuzzy b -> is_fuzzy (Z.lor a b).
Proof. unfold is_fuzzy. intros [->|[->| ->]] [->|[->| ->]]; cbn; tauto. Qed.
