(* ===== verification/QNormalize.v ===== *)
(** * Query normalization ([lib/query/normalize.c])

    [_evlQNormalizeTree] checks the parse tree built by the grammar, resolves the
    attribute names and rewrites the operands to the form that the evaluator
    compares with.  A function of the C code that changes the tree in place and
    returns 0 or -1 returns here the new node or the message left in
    [_evlQueryErrmsg]; the list [_evlQNonStdAtts] is threaded through. *)
From S2P Require Import Prelude NvPairs FacNames Hosts MemStr Query.

Section Normalize.
Context `{HostLib} `{RegexLib}.
(** [_evlQFlags] *)
Variable _evlQFlags : Z.

Definition nvFlags : list _evlNvPair :=
  [ mkNv POSIX_LOG_TRUNCATE "POSIX_LOG_TRUNCATE"; mkNv POSIX_LOG_TRUNCATE "TRUNCATE";
    mkNv EVL_KERNEL_EVENT "KERNEL"; mkNv EVL_PRINTK "PRINTK"; mkNv EVL_INTERRUPT "INTERRUPT" ].

(** [vsnprintf] into the 1024 bytes of [_evlQueryErrmsg]. *)
Definition semanticError {A} (msg : str) : str + A := inl (String.substring 0 1023 msg).
(** -1 without a message. *)
Definition silentError {A} : str + A := inl EmptyString.

Definition standardIntOps : list Z := [OP_EQ; NE; OP_LT; LE; OP_GT; GE].
Definition standardStringOps : list Z := [OP_EQ; NE; CONTAINS].
Definition uidGidOps : list Z := [OP_EQ; NE].

Definition verifyOp (op : Z) (attName : str) (opTable : list Z) : str + unit :=
  if existsb (Z.eqb op) opTable then inr tt
  else semanticError ("Unsupported operation for " ++ attName ++ " attribute").

Definition wrongOperandType {A} (attName : str) : str + A :=
  semanticError ("Unsupported operand type for " ++ attName ++ " attribute").

(** The result of [verifyOp] when it is the last check. *)
Definition checked (v : str + unit) (node : pnode) : str + pnode :=
  match v with inl e => inl e | inr _ => inr node end.

(** The index of the attribute and the list with it. *)
Fixpoint find_nsa (atts : list evl_nonStdAtt) (attName : str) : option nat :=
  match atts with
  | [] => None
  | a :: atts' => if streqb (nsaName a) attName then Some O else S <$> find_nsa atts' attName
  end.
Definition registerNonStdAtt (attName : str) (ns : option evl_nonStdAtts) : nat * evl_nonStdAtts :=
  let ns := match ns with Some ns => ns | None => mkNsas [] evlFuzzyMaybe end in
  match find_nsa (nsAtts ns) attName with
  | Some i => (i, ns)
  | None =>
      let flags := match strchr attName "." with Some _ => EVLNSA_STRREF | None => 0 end in
      let i := length (nsAtts ns) in
      (* [nsaResultIfMissing] is set by the optimizer. *)
      (i, mkNsas (nsAtts ns ++ [mkNsa attName evlFuzzyMaybe flags i]) (nsResultIfAllAttsMissing ns))
  end.

(** The node that replaces the name node. *)
Definition makeAttnameNode (name : str) (ns : option evl_nonStdAtts)
  : str + (pnode * option evl_nonStdAtts) :=
  let attIndex := _evlGetValueByName _evlAttributes name (-1) in
  if negb (attIndex =? -1) then inr (nt_attname attIndex name, ns)
  else if streqb name "data" then
    if negb (Z.land _evlQFlags EVL_PRPS_RESTRICTED =? 0) then
      semanticError "Cannot refer to data attribute in restricted query"
    else inr (nt_attname POSIX_LOG_ENTRY_DATA name, ns)
  else if streqb name "age" then inr (nt_attname EVL_ENTRY_AGE name, ns)
  else if streqb name "host" then inr (nt_attname EVL_ENTRY_HOST name, ns)
  else if negb (Z.land _evlQFlags EVL_PRPS_TEMPLATE =? 0) then
    let '(i, ns) := registerNonStdAtt name ns in
    inr (nt_nsaname i name, Some ns)
  else semanticError ("Unknown attribute: " ++ name).

(** [None]: not a regular-expression operation. *)
Definition normalizeRegex (op : Z) (attName : str) (s : str) : option (str + pnode) :=
  if (op =? OP_MATCH) || (op =? RENOMATCH) then
    Some match regcomp s with
         | inr r => inr (nt_regex r)
         | inl e => semanticError ("Invalid regular expression for " ++ attName ++ " attribute: " ++
                                   String.substring 0 99 e)
         end
  else None.
Definition normalizeStringOrRegex (op : Z) (attName : str) (s : str) : str + pnode :=
  match normalizeRegex op attName s with
  | Some r => r
  | None => checked (verifyOp op attName standardStringOps) (nt_string s)
  end.

(** [sign] is -1 for a signed attribute and 1 for an unsigned one, [size] its
    size in bytes. *)
Definition normalizeInteger (sign size : Z) (attName : str) (valNode : pnode) : str + pnode :=
  match valNode with
  | nt_val flag uval =>
      let sval := attr_val uval in
      if (sign =? 1) && (flag =? -1) && negb (uval =? 0) then
        semanticError (attName ++ " attribute requires unsigned operand")
      else
        let '(error, force_sign_extend) :=
          if flag =? -1 then
            (if size =? 1 then (sval <? -128) || (sval >? 127)
             else if size =? 2 then (sval <? -32768) || (sval >? 32767)
             else if size =? 4 then (sval <? -2147483648) || (sval >? 2147483647)
             else false, false)
          else
            if size =? 1 then (uval >? 255, uval >? 127)
            else if size =? 2 then (uval >? 65535, uval >? 32767)
            else if size =? 4 then (uval >? 4294967295, uval >? 2147483647)
            else (false, false) in
        if error then semanticError (attName ++ " attribute's operand is out of range")
        else if (sign =? -1) && force_sign_extend && (size <? 8) then
          let sval := if size =? 4 then s32 uval
                      else if size =? 2 then s16 uval
                      else if size =? 1 then s8 uval else sval in
          inr (nt_val (-1) (u64 sval))
        else inr valNode
  | _ => semanticError (attName ++ " attribute requires integer operand")
  end.

Definition then_verify (r : str + pnode) (op : Z) (attName : str) (ops : list Z) : str + pnode :=
  match r with
  | inl e => inl e
  | inr v => checked (verifyOp op attName ops) v
  end.

Definition normalizeAttPlainInt (op : Z) (att : str) (v : pnode) : str + pnode :=
  then_verify (normalizeInteger (-1) 4 att v) op att standardIntOps.
Definition normalizeAttRecid (op : Z) (att : str) (v : pnode) : str + pnode :=
  match v with
  | nt_string _ => checked (verifyOp op att standardStringOps) v
  | _ => then_verify (normalizeInteger 1 4 att v) op att standardIntOps
  end.
Definition normalizeAttData (op : Z) (att : str) (v : pnode) : str + pnode :=
  match v with
  | nt_string s => normalizeStringOrRegex op att s
  | _ => semanticError "Variable data can be compared only with a string or regular expression."
  end.
Definition normalizeAttSize (op : Z) (att : str) (v : pnode) : str + pnode :=
  then_verify (normalizeInteger 1 8 att v) op att standardIntOps.

(** The number of seconds as an [int]; the products wrap as [unsigned int]. *)
Definition parseAge (ageString : str) : Z :=
  let '(v, unit) := strtoul ageString 10 in
  let nsec := u32 (s32 v) in
  if streqb unit ageString || negb (strlen unit =? 1) then -1
  else if streqb unit "s" then s32 nsec
  else if streqb unit "m" then s32 (u32 (nsec * 60))
  else if streqb unit "h" then s32 (u32 (nsec * 3600))
  else if streqb unit "d" then s32 (u32 (nsec * 86400))
  else -1.
Definition normalizeAttAge (op : Z) (att : str) (v : pnode) : str + pnode :=
  match v with
  | nt_val _ _ =>
      match normalizeInteger 1 8 att v with
      | inr (nt_val f u) => checked (verifyOp op att standardIntOps) (nt_val f (u64 (attr_val u * 86400)))
      | inr v' => inr v'
      | inl e => inl e
      end
  | nt_string ageString =>
      let nsec := parseAge ageString in
      if nsec <? 0 then semanticError ("Unrecognized age specification: " ++ ageString)
      else checked (verifyOp op att standardIntOps) (nt_val 1 nsec)
  | _ => wrongOperandType att
  end.

(** The value of a node id [upper.lower]: [None] when it is a host name. *)
Definition host_number (id : str) : option Z :=
  match strchr id "." with
  | Some p =>
      let '(upper, endp) := strtoul id 10 in
      if negb (starts_with "." endp) then None
      else
        let '(lower, endp) := strtoul (String.substring 1 (String.length p) p) 10 in
        if negb (streqb endp "") then None
        else Some (if (s32 upper >? 255) || (s32 lower >? 255) then -1
                   else u64 (s32 (Z.shiftl (s32 upper) 8 + s32 lower)))
  | None => None
  end.
Definition normalizeAttHost (op : Z) (att : str) (v : pnode) : str + pnode :=
  match v with
  | nt_val _ _ =>
      match normalizeInteger 1 8 att v with
      | inr (nt_val f u) =>
          if (attr_val u <? 0) || (attr_val u >? 0xffff) then semanticError "Out of range"
          else checked (verifyOp op att standardIntOps) (nt_val f u)
      | inr v' => inr v'
      | inl e => inl e
      end
  | nt_string s | nt_name s =>
      if negb (op =? OP_MATCH) && negb (op =? RENOMATCH) && negb (op =? CONTAINS) then
        match host_number s with
        | Some n =>
            if n =? -1 then semanticError "Invalid node id."
            else checked (verifyOp op att standardIntOps) (nt_val 1 n)
        | None =>
            let nodeId := _evlGetNodeId hosts s in
            if nodeId =? -1 then semanticError "Unrecognized host name"
            else inr (nt_val 1 (u64 nodeId))
        end
      else if op =? CONTAINS then inr v
      else match normalizeRegex op att s with
           | Some r => r
           | None => silentError
           end
  | _ => silentError
  end.

(** A name (or string) operand becomes the integer of the table. *)
Definition changeNameNodeToInt (att name : str) (table : list _evlNvPair) : str + pnode :=
  let code := _evlGetValueByCIName table name (-1) in
  if code =? -1 then semanticError ("Unrecognized value for attribute " ++ att ++ ": " ++ name)
  else inr (nt_val (-1) (u64 code)).

Definition normalizeAttFacility (op : Z) (att : str) (v : pnode) : str + pnode :=
  let by_name (name : str) :=
    let code := facility_code name in
    if code =? EVL_INVALID_FACILITY then
      semanticError ("Unrecognized value for facility attribute: " ++ name)
    else checked (verifyOp op att [OP_EQ; NE]) (nt_val 1 code) in
  match v with
  | nt_string s => match normalizeRegex op att s with Some r => r | None => by_name s end
  | nt_name s => by_name s
  | _ => then_verify (normalizeInteger 1 4 att v) op att standardIntOps
  end.
Definition normalizeAttSeverity (op : Z) (att : str) (v : pnode) : str + pnode :=
  match v with
  | nt_name n => then_verify (changeNameNodeToInt att n _evlSeverities) op att standardIntOps
  | nt_string _ => checked (verifyOp op att standardStringOps) v
  | _ => wrongOperandType att
  end.
Definition normalizeAttFormat (op : Z) (att : str) (v : pnode) : str + pnode :=
  match v with
  | nt_name n => then_verify (changeNameNodeToInt att n _evlFormats) op att standardIntOps
  | nt_string _ => checked (verifyOp op att standardStringOps) v
  | nt_val _ _ => then_verify (normalizeInteger 1 4 att v) op att standardIntOps
  | _ => silentError
  end.
Definition normalizeAttEventType (op : Z) (att : str) (v : pnode) : str + pnode :=
  match v with
  | nt_name n => then_verify (changeNameNodeToInt att n _evlMgmtEventTypes) op att standardIntOps
  | nt_string s =>
      checked (verifyOp op att [OP_EQ; NE]) (nt_val (-1) (u64 (evl_gen_event_type_v2 s)))
  | nt_val _ _ => then_verify (normalizeInteger (-1) 4 att v) op att standardIntOps
  | _ => silentError
  end.
Definition normalizeAttPid (op : Z) (att : str) (v : pnode) : str + pnode :=
  then_verify (normalizeInteger (-1) 4 att v) op att standardIntOps.
Definition normalizeAttUid (op : Z) (att : str) (v : pnode) : str + pnode :=
  match v with
  | nt_val _ _ => then_verify (normalizeInteger 1 4 att v) op att standardIntOps
  | nt_string n | nt_name n =>
      match getpwnam n with
      | Some uid => checked (verifyOp op att uidGidOps) (nt_val 1 uid)
      | None => semanticError ("Unknown user name: " ++ String "034" (n ++ String "034" EmptyString))
      end
  | _ => wrongOperandType att
  end.
Definition normalizeAttGid (op : Z) (att : str) (v : pnode) : str + pnode :=
  match v with
  | nt_val _ _ => then_verify (normalizeInteger 1 4 att v) op att standardIntOps
  | nt_string n | nt_name n =>
      match getgrnam n with
      | Some gid => checked (verifyOp op att uidGidOps) (nt_val 1 gid)
      | None => semanticError ("Unknown group name: " ++ String "034" (n ++ String "034" EmptyString))
      end
  | _ => wrongOperandType att
  end.
Definition normalizeAttTime (op : Z) (att : str) (v : pnode) : str + pnode :=
  match v with
  | nt_val _ _ => then_verify (normalizeInteger (-1) 8 att v) op att standardIntOps
  | nt_string s => normalizeStringOrRegex op att s
  | _ => wrongOperandType att
  end.
Definition normalizeAttFlags (op : Z) (att : str) (v : pnode) : str + pnode :=
  match verifyOp op att [OP_BITAND] with
  | inl e => inl e
  | inr _ =>
      match v with
      | nt_val _ _ => normalizeInteger 1 4 att v
      | nt_name n => changeNameNodeToInt att n nvFlags
      | _ => wrongOperandType att
      end
  end.
(** [_POSIX_THREADS]: a [pthread_t] is unsigned and 8 bytes long. *)
Definition normalizeAttThread (op : Z) (att : str) (v : pnode) : str + pnode :=
  match v with
  | nt_val _ _ => then_verify (normalizeInteger 1 8 att v) op att standardIntOps
  | nt_string _ => checked (verifyOp op att standardStringOps) v
  | _ => wrongOperandType att
  end.
Definition normalizeAttProcessor (op : Z) (att : str) (v : pnode) : str + pnode :=
  match v with
  | nt_val _ _ => then_verify (normalizeInteger (-1) 4 att v) op att standardIntOps
  | nt_string s => normalizeStringOrRegex op att s
  | _ => wrongOperandType att
  end.

(** [nsaFlags |= EVLNSA_NUMERIC] on the [i]th attribute. *)
Definition set_numeric (i : nat) (ns : option evl_nonStdAtts) : option evl_nonStdAtts :=
  match ns with
  | None => None
  | Some ns =>
      Some (mkNsas (alter (fun a => mkNsa (nsaName a) (nsaResultIfMissing a)
                                      (Z.lor (nsaFlags a) EVLNSA_NUMERIC) (nsaAtt a)) i (nsAtts ns))
                   (nsResultIfAllAttsMissing ns))
  end.
(** The operand node and the list. *)
Definition normalizeComparisonWithNonStdAtt (op : Z) (i : nat) (att : str) (v : pnode)
  (ns : option evl_nonStdAtts) : str + (pnode * option evl_nonStdAtts) :=
  match v with
  | nt_val _ _ =>
      match then_verify (normalizeInteger (-1) 8 att v) op att standardIntOps with
      | inl e => inl e
      | inr v' => inr (v', set_numeric i ns)
      end
  | nt_string s =>
      match normalizeStringOrRegex op att s with inl e => inl e | inr v' => inr (v', ns) end
  | _ => wrongOperandType att
  end.

Definition normalizeAtt (attIndex op : Z) (att : str) (v : pnode) : str + pnode :=
  if attIndex =? POSIX_LOG_ENTRY_DATA then normalizeAttData op att v
  else if attIndex =? POSIX_LOG_ENTRY_RECID then normalizeAttRecid op att v
  else if attIndex =? POSIX_LOG_ENTRY_SIZE then normalizeAttSize op att v
  else if attIndex =? POSIX_LOG_ENTRY_FORMAT then normalizeAttFormat op att v
  else if attIndex =? POSIX_LOG_ENTRY_EVENT_TYPE then normalizeAttEventType op att v
  else if attIndex =? POSIX_LOG_ENTRY_FACILITY then normalizeAttFacility op att v
  else if attIndex =? POSIX_LOG_ENTRY_SEVERITY then normalizeAttSeverity op att v
  else if attIndex =? POSIX_LOG_ENTRY_UID then normalizeAttUid op att v
  else if attIndex =? POSIX_LOG_ENTRY_GID then normalizeAttGid op att v
  else if (attIndex =? POSIX_LOG_ENTRY_PID) || (attIndex =? POSIX_LOG_ENTRY_PGRP) then
    normalizeAttPid op att v
  else if attIndex =? POSIX_LOG_ENTRY_TIME then normalizeAttTime op att v
  else if attIndex =? POSIX_LOG_ENTRY_FLAGS then normalizeAttFlags op att v
  else if attIndex =? POSIX_LOG_ENTRY_THREAD then normalizeAttThread op att v
  else if attIndex =? POSIX_LOG_ENTRY_PROCESSOR then normalizeAttProcessor op att v
  else if attIndex =? EVL_ENTRY_AGE then normalizeAttAge op att v
  else if attIndex =? EVL_ENTRY_HOST then normalizeAttHost op att v
  else silentError.

(** [attNode] is a name node: the grammar puts nothing else there. *)
Definition normalizeComparison (op : Z) (attNode v : pnode) (ns : option evl_nonStdAtts)
  : str + (pnode * option evl_nonStdAtts) :=
  match attNode with
  | nt_name name =>
      match makeAttnameNode name ns with
      | inl e => inl e
      | inr (nt_nsaname i n, ns) =>
          match normalizeComparisonWithNonStdAtt op i n v ns with
          | inl e => inl e
          | inr (v', ns) => inr (nt_op op (nt_nsaname i n) v', ns)
          end
      | inr (nt_attname k n, ns) =>
          match normalizeAtt k op n v with
          | inl e => inl e
          | inr v' => inr (nt_op op (nt_attname k n) v', ns)
          end
      | inr _ => silentError
      end
  | _ => silentError
  end.

Fixpoint _evlQNormalizeTree (root : pnode) (ns : option evl_nonStdAtts)
  : str + (pnode * option evl_nonStdAtts) :=
  match root with
  | PNull => inr (root, ns)
  | nt_name name => makeAttnameNode name ns
  | nt_attname _ name | nt_nsaname _ name =>
      semanticError ("nt_attname/nt_nsaname node " ++ name ++ " should already be normalized.")
  | nt_val _ _ | nt_string _ | nt_regex _ => inr (root, ns)
  | nt_op op l r =>
      if op =? OP_NOT then
        match _evlQNormalizeTree l ns with
        | inl e => inl e
        | inr (l', ns) => inr (nt_op op l' r, ns)
        end
      else if (op =? AND) || (op =? OR) then
        match _evlQNormalizeTree l ns with
        | inl e => inl e
        | inr (l', ns) =>
            match _evlQNormalizeTree r ns with
            | inl e => inl e
            | inr (r', ns) => inr (nt_op op l' r', ns)
            end
        end
      else normalizeComparison op l r ns
  end.
End Normalize.
