(* ===== verification/QOptimize.v ===== *)
(** * Query optimization ([lib/query/qopt.c])

    [divideTree] moves the comparisons that need no template in front of the
    others, reusing the tree's own nodes; [simulateMissingNsa] predicts the value
    of a query when a non-standard attribute is missing.  [None] is a failed
    [assert]. *)
From S2P Require Import Prelude NvPairs Query.

Section Optimize.
Context `{RegexLib}.

(** Does the subtree mention a non-standard attribute? *)
Fixpoint refsNonStdAtts (node : pnode) : option bool :=
  match node with
  | PNull => Some false
  | nt_op op l r =>
      if op =? OP_NOT then refsNonStdAtts l
      else if (op =? AND) || (op =? OR) then
        b ← refsNonStdAtts l;
        if (b : bool) then Some true else refsNonStdAtts r
      else Some (match l with nt_nsaname _ _ => true | _ => false end)
  | nt_nsaname _ _ => Some true
  | nt_attname _ _ => Some false
  | _ => None
  end.

Record div_info_t := mkDi {
  diRootOp : Z;
  diPureList : list pnode;
  diImpureList : list pnode;
  diRecycleList : list pnode
}.

(** A node that is not an operator of the chain goes to one of the lists. *)
Definition diAppend (node : pnode) (di : div_info_t) : option div_info_t :=
  b ← refsNonStdAtts node;
  if (b : bool)
  then Some (mkDi (diRootOp di) (diPureList di) (diImpureList di ++ [node]) (diRecycleList di))
  else Some (mkDi (diRootOp di) (diPureList di ++ [node]) (diImpureList di) (diRecycleList di)).
Fixpoint diClassify (node : pnode) (di : div_info_t) : option div_info_t :=
  match node with
  | nt_op op l r =>
      if op =? diRootOp di then
        let di := mkDi (diRootOp di) (diPureList di) (diImpureList di) (diRecycleList di ++ [node]) in
        di ← diClassify l di;
        diClassify r di
      else diAppend node di
  | _ => diAppend node di
  end.

(** The first node of a list, which must not be empty, and the rest. *)
Definition behead (plist : list pnode) : option (pnode * list pnode) :=
  match plist with [] => None | n :: rest => Some (n, rest) end.

Definition set_children (parent l r : pnode) : pnode :=
  match parent with nt_op op _ _ => nt_op op l r | _ => parent end.

(** The subtree made of [plist] and the recycle list that is left. *)
Fixpoint diRebuildSubtree (plist : list pnode) (recycle : list pnode)
  : option (pnode * list pnode) :=
  match plist with
  | [] => None
  | node :: rest =>
      match rest with
      | [] => Some (node, recycle)
      | _ =>
          '(parent, recycle) ← behead recycle;
          '(sub, recycle) ← diRebuildSubtree rest recycle;
          Some (set_children parent node sub, recycle)
      end
  end.

Definition divideTree (root : pnode) : option pnode :=
  match root with
  | nt_op rootOp l r =>
      if negb (rootOp =? AND) && negb (rootOp =? OR) then Some root
      else
        di ← diClassify l (mkDi rootOp [] [] []);
        di ← diClassify r di;
        match diImpureList di with
        | [] => None
        | _ =>
            match diPureList di with
            | [] => Some root
            | _ =>
                '(l', recycle) ← diRebuildSubtree (diPureList di) (diRecycleList di);
                '(r', recycle) ← diRebuildSubtree (diImpureList di) recycle;
                match recycle with
                | [] => Some (nt_op (if rootOp =? AND then AND_LATER else OR_LATER) l' r')
                | _ => None
                end
            end
        end
  | _ => Some root
  end.

Definition _evlQReorderTree (root : pnode) (ns : option evl_nonStdAtts) : option pnode :=
  match ns with None => Some root | Some _ => divideTree root end.

(** [nsa = None]: all the non-standard attributes are missing. *)
Fixpoint simulateMissingNsa (root : pnode) (nsa : option nat) : option Z :=
  let missing (i : nat) := match nsa with None => true | Some j => Nat.eqb i j end in
  match root with
  | PNull => Some evlFuzzyTrue
  | nt_attname flag _ =>
      Some (if flag =? POSIX_LOG_ENTRY_DATA then evlFuzzyMaybe else evlFuzzyTrue)
  | nt_nsaname i _ => Some (if missing i then evlFuzzyFalse else evlFuzzyMaybe)
  | nt_op op l r =>
      if op =? OP_NOT then
        f ← simulateMissingNsa l nsa;
        Some (if f =? evlFuzzyFalse then evlFuzzyTrue
              else if f =? evlFuzzyTrue then evlFuzzyFalse else evlFuzzyMaybe)
      else if (op =? AND) || (op =? AND_LATER) then
        a ← simulateMissingNsa l nsa;
        b ← simulateMissingNsa r nsa;
        Some (Z.land a b)
      else if (op =? OR) || (op =? OR_LATER) then
        a ← simulateMissingNsa l nsa;
        b ← simulateMissingNsa r nsa;
        Some (Z.lor a b)
      else
        Some (match l with
              | nt_nsaname i _ => if missing i then evlFuzzyFalse else evlFuzzyMaybe
              | _ => evlFuzzyMaybe
              end)
  | _ => None
  end.

Fixpoint annotate (qexpr : pnode) (atts : list evl_nonStdAtt) : option (list evl_nonStdAtt) :=
  match atts with
  | [] => Some []
  | a :: atts' =>
      f ← simulateMissingNsa qexpr (Some (nsaAtt a));
      rest ← annotate qexpr atts';
      Some (mkNsa (nsaName a) f (nsaFlags a) (nsaAtt a) :: rest)
  end.

Definition _evlQOptimizeTree (qexpr : pnode) (ns : option evl_nonStdAtts)
  : option (pnode * option evl_nonStdAtts) :=
  match ns with
  | None => Some (qexpr, None)
  | Some nsa =>
      q ← _evlQReorderTree qexpr ns;
      atts ← annotate q (nsAtts nsa);
      all ← simulateMissingNsa q None;
      Some (q, Some (mkNsas atts all))
  end.
End Optimize.
