(* ===== verification/QEvaluate.v ===== *)
(** * Query evaluation ([lib/query/evaluate.c])

    [_evlQEvaluateTree] decides whether an event record satisfies a query.  A
    query that mentions non-standard attributes is evaluated through a template,
    which is loaded, screened and populated only as far as needed.  [None] is a
    failed [assert]. *)
From Stdlib Require Import SpecFloat.
From S2P Require Import Prelude NvPairs LogRecord Hosts MemStr Query QOptimize.

(** ** The template library, as the evaluator uses it *)

(** [tmpl_base_type_t] *)
Inductive base_type :=
  | TY_NONE | TY_CHAR | TY_UCHAR | TY_SHORT | TY_USHORT | TY_INT | TY_UINT | TY_LONG | TY_ULONG
  | TY_LONGLONG | TY_ULONGLONG | TY_FLOAT | TY_DOUBLE | TY_LDOUBLE | TY_STRING | TY_WCHAR
  | TY_WSTRING | TY_ADDRESS | TY_STRUCT | TY_PREFIX3 | TY_LIST | TY_STRUCTNAME | TY_TYPEDEF
  | TY_SPECIAL.

(** A template is a value; [attref] is a pointer to one of its attributes (or of
    its master's), and [att_at] reads the attribute in a state of the template. *)
Class TemplateLib := {
  tmpl : Type;
  attref : Type;
  attribute : Type;
  evl_gettemplate : posix_log_entry -> list Z -> option tmpl;    (* an unpopulated clone *)
  tm_master : tmpl -> tmpl;
  evltemplate_getatt : tmpl -> str -> option attref;             (* [None]: ENOENT *)
  evl_populatetemplate : tmpl -> posix_log_entry -> list Z -> option tmpl;
  att_at : tmpl -> attref -> attribute;
  attExists : attribute -> bool;
  isArray : attribute -> bool;
  evlatt_gettype : attribute -> base_type;
  evlatt_getstring : attribute -> option str;                    (* [None]: a non-zero status *)
  evl_getLongAttVal : attribute -> Z;
  evl_getUlongAttVal : attribute -> Z;
  evl_getLonglongAttVal : attribute -> Z;
  evl_getUlonglongAttVal : attribute -> Z;
  evl_getDoubleAttVal : attribute -> spec_float;
  evl_getLongdoubleAttVal : attribute -> spec_float
}.

(** ** Comparisons *)

Definition compareStrings (op : Z) (left right : str) : bool :=
  if op =? OP_EQ then streqb left right
  else if op =? NE then negb (streqb left right)
  else if op =? CONTAINS then strstr left right
  else false.

Definition NUMERIC_COMPARISONS (op left right : Z) : bool :=
  if op =? OP_EQ then left =? right
  else if op =? NE then negb (left =? right)
  else if op =? OP_LT then left <? right
  else if op =? LE then left <=? right
  else if op =? OP_GT then left >? right
  else if op =? GE then left >=? right
  else false.
Definition with_bitand (op left right : Z) : bool :=
  if op =? OP_BITAND then negb (Z.land left right =? 0) else NUMERIC_COMPARISONS op left right.
Definition compareSignedInts (op left right : Z) : bool := with_bitand op left right.
Definition compareUnsignedInts (op left right : Z) : bool := with_bitand op left right.
Definition compareLonglongs (op left right : Z) : bool := with_bitand op left right.
Definition compareUlonglongs (op left right : Z) : bool := with_bitand op left right.

Definition float_comparisons (op : Z) (left right : spec_float) : bool :=
  if op =? OP_EQ then SFeqb left right
  else if op =? NE then negb (SFeqb left right)
  else if op =? OP_LT then SFltb left right
  else if op =? LE then SFleb left right
  else if op =? OP_GT then SFltb right left
  else if op =? GE then SFleb right left
  else false.
(** The operand is converted from [long]: IEEE double, x87 extended. *)
Definition compareDoubles (op : Z) (left : spec_float) (right : Z) : bool :=
  float_comparisons op left (binary_normalize 53 1024 right 0 false).
Definition compareLongdoubles (op : Z) (left : spec_float) (right : Z) : bool :=
  float_comparisons op left (binary_normalize 64 16384 right 0 false).

Section Evaluate.
Context `{HostLib} `{RegexLib} `{TemplateLib}.

(** [tmplAtts]: the template to read through and the array of pointers. *)
Definition att_array : Type := option (tmpl * list (option attref)).
(** [att && attExists(att)]; [None]: an index outside the array. *)
Definition existing_att (tmplAtts : att_array) (i : nat) : option (option attribute) :=
  match tmplAtts with
  | None => Some None
  | Some (t, atts) =>
      match atts !! i with
      | None => None
      | Some None => Some None
      | Some (Some ref) =>
          let a := att_at t ref in Some (if attExists a then Some a else None)
      end
  end.

Definition match_regex (op : Z) (r : regex) (s : str) : bool :=
  if op =? OP_MATCH then regexec r s else negb (regexec r s).

(** The comparison with an attribute that exists. *)
Definition compareAttribute (op : Z) (att : attribute) (right : pnode) : option bool :=
  match right with
  | nt_string rightStr =>
      leftStr ← evlatt_getstring att; Some (compareStrings op leftStr rightStr)
  | nt_regex r =>
      leftStr ← evlatt_getstring att; Some (match_regex op r leftStr)
  | nt_val _ uval =>
      let sval := attr_val uval in
      Some match evlatt_gettype att with
           | TY_CHAR | TY_WCHAR | TY_SHORT | TY_INT | TY_LONG =>
               compareSignedInts op (evl_getLongAttVal att) sval
           | TY_UCHAR | TY_USHORT | TY_UINT | TY_ULONG =>
               compareUnsignedInts op (evl_getUlongAttVal att) (u64 sval)
           | TY_LONGLONG => compareLonglongs op (evl_getLonglongAttVal att) sval
           | TY_ULONGLONG => compareUlonglongs op (evl_getUlonglongAttVal att) (u64 sval)
           | TY_FLOAT | TY_DOUBLE => compareDoubles op (evl_getDoubleAttVal att) sval
           | TY_LDOUBLE => compareLongdoubles op (evl_getLongdoubleAttVal att) sval
           | _ => false
           end
  | _ => None
  end.
Definition evaluateNonStdComparison (op : Z) (i : nat) (right : pnode) (tmplAtts : att_array)
  : option bool :=
  a ← existing_att tmplAtts i;
  match a with
  | None => Some false
  | Some att => compareAttribute op att right
  end.

(** The string that a standard attribute is compared as; [inl b]: the result. *)
Definition att_string (attIndex : Z) (entry : posix_log_entry) (buf : list Z)
  : option (bool + str) :=
  if attIndex =? POSIX_LOG_ENTRY_DATA then
    if negb (log_format entry =? POSIX_LOG_STRING) then Some (inl false)
    else Some (inr (cstring buf))
  else if attIndex =? EVL_ENTRY_HOST then
    Some (inr (_evlGetHostNameEx hosts (Z.shiftr (log_processor entry) 16)))
  else
    match posix_log_memtostr attIndex entry POSIX_LOG_MEMSTR_MAXLEN with
    | inl _ => None
    | inr s => Some (inr s)
    end.

Definition compareStandardAtt (attIndex op uval : Z) (entry : posix_log_entry) : bool :=
  let sval := attr_val uval in
  if attIndex =? POSIX_LOG_ENTRY_RECID then compareUnsignedInts op (u64 (log_recid entry)) uval
  else if attIndex =? POSIX_LOG_ENTRY_SIZE then compareUnsignedInts op (log_size entry) uval
  else if attIndex =? POSIX_LOG_ENTRY_FORMAT then compareSignedInts op (log_format entry) sval
  else if attIndex =? POSIX_LOG_ENTRY_EVENT_TYPE then compareSignedInts op (log_event_type entry) sval
  else if attIndex =? POSIX_LOG_ENTRY_FACILITY then compareUnsignedInts op (log_facility entry) uval
  else if attIndex =? POSIX_LOG_ENTRY_SEVERITY then
    compareSignedInts op (posix_log_severity_compare (log_severity entry) (s32 sval)) 0
  else if attIndex =? POSIX_LOG_ENTRY_UID then compareUnsignedInts op (log_uid entry) uval
  else if attIndex =? POSIX_LOG_ENTRY_GID then compareUnsignedInts op (log_gid entry) uval
  else if attIndex =? POSIX_LOG_ENTRY_PID then compareSignedInts op (log_pid entry) sval
  else if attIndex =? POSIX_LOG_ENTRY_PGRP then compareSignedInts op (log_pgrp entry) sval
  else if attIndex =? POSIX_LOG_ENTRY_TIME then compareSignedInts op (log_time_sec entry) sval
  else if attIndex =? POSIX_LOG_ENTRY_FLAGS then compareUnsignedInts op (log_flags entry) uval
  else if attIndex =? POSIX_LOG_ENTRY_THREAD then compareUnsignedInts op (log_thread entry) uval
  else if attIndex =? POSIX_LOG_ENTRY_PROCESSOR then
    compareSignedInts op (Z.land (log_processor entry) 0xffff) sval
  else if attIndex =? EVL_ENTRY_AGE then
    compareSignedInts op (s64 (u64 (time_now - uval))) (log_time_sec entry)
  else if attIndex =? EVL_ENTRY_HOST then
    compareUnsignedInts op (u64 (Z.shiftr (log_processor entry) 16)) uval
  else false.

Fixpoint evaluateTree (root : pnode) (tmplAtts : att_array) (entry : posix_log_entry)
  (buf : list Z) : option bool :=
  match root with
  | nt_attname flag _ =>
      Some (if flag =? POSIX_LOG_ENTRY_DATA then log_size entry >? 0 else true)
  | nt_nsaname i _ => a ← existing_att tmplAtts i; Some (bool_decide (is_Some a))
  | nt_op op l r =>
      if op =? AND then
        b ← evaluateTree l tmplAtts entry buf;
        if (b : bool) then evaluateTree r tmplAtts entry buf else Some false
      else if op =? OR then
        b ← evaluateTree l tmplAtts entry buf;
        if (b : bool) then Some true else evaluateTree r tmplAtts entry buf
      else if op =? OP_NOT then negb <$> evaluateTree l tmplAtts entry buf
      else
        match l with
        | nt_nsaname i _ => evaluateNonStdComparison op i r tmplAtts
        | nt_attname attIndex _ =>
            match r with
            | nt_string rightStr =>
                ls ← att_string attIndex entry buf;
                Some (match ls with inl b => b | inr s => compareStrings op s rightStr end)
            | nt_regex rx =>
                ls ← att_string attIndex entry buf;
                Some (match ls with inl b => b | inr s => match_regex op rx s end)
            | nt_val _ uval => Some (compareStandardAtt attIndex op uval entry)
            | _ => None
            end
        | _ => None
        end
  | _ => None
  end.

Definition isNumericAtt (a : attribute) : bool :=
  if isArray a then false
  else match evlatt_gettype a with
       | TY_CHAR | TY_SHORT | TY_INT | TY_LONG | TY_UCHAR | TY_USHORT | TY_UINT | TY_ULONG
       | TY_LONGLONG | TY_ULONGLONG | TY_FLOAT | TY_DOUBLE | TY_LDOUBLE | TY_WCHAR => true
       | _ => false
       end.

(** The context of an evaluation; [ec_releases] counts the calls of
    [evl_releasetemplate] on the clone. *)
Record eval_context := mkEc {
  ec_tmpl : option tmpl;
  ec_tmplAtts : option (list (option attref));
  ec_anyValidAtts : bool;
  ec_anyStrRefs : bool;
  ec_releases : nat
}.

(** The pointer for one attribute: null when the template does not offer it, or
    offers a non-numeric one where the query compares numbers. *)
Definition screen_att (t : tmpl) (nsa : evl_nonStdAtt) : option attref :=
  let strref := negb (Z.land (nsaFlags nsa) EVLNSA_STRREF =? 0) in
  let t' := if strref then tm_master t else t in
  match evltemplate_getatt t' (nsaName nsa) with
  | Some ref =>
      if negb (Z.land (nsaFlags nsa) EVLNSA_NUMERIC =? 0) && negb (isNumericAtt (att_at t ref))
      then None else Some ref
  | None => None
  end.
Fixpoint first_prediction (nsas : list evl_nonStdAtt) (atts : list (option attref)) : Z :=
  match nsas, atts with
  | nsa :: nsas', a :: atts' =>
      match a with
      | Some _ => first_prediction nsas' atts'
      | None => if nsaResultIfMissing nsa =? evlFuzzyMaybe then first_prediction nsas' atts'
                else nsaResultIfMissing nsa
      end
  | _, _ => evlFuzzyMaybe
  end.
(** The prediction and the array; the list's order is the array's. *)
Definition screenUnpopulatedTemplate (t : tmpl) (ns : evl_nonStdAtts)
  : Z * list (option attref) * bool * bool :=
  let atts := screen_att t <$> nsAtts ns in
  let anyValid := existsb (fun a => bool_decide (is_Some a)) atts in
  let anyInvalid := existsb (fun a => bool_decide (a = None)) atts in
  let anyStrRefs := existsb (fun nsa => negb (Z.land (nsaFlags nsa) EVLNSA_STRREF =? 0)) (nsAtts ns) in
  let fb := if negb anyValid then nsResultIfAllAttsMissing ns
            else if negb anyInvalid then evlFuzzyMaybe
            else first_prediction (nsAtts ns) atts in
  (fb, atts, anyValid, anyStrRefs).

(** Struct members are looked up again in the populated clone. *)
Definition fix_ref (t : tmpl) (nsa : evl_nonStdAtt) (a : option attref) : option attref :=
  match a with
  | Some ref => if negb (Z.land (nsaFlags nsa) EVLNSA_STRREF =? 0)
                then evltemplate_getatt t (nsaName nsa) else Some ref
  | None => None
  end.
Definition fixStructRefs (t : tmpl) (ns : evl_nonStdAtts) (atts : list (option attref))
  : list (option attref) :=
  zip_with (fix_ref t) (nsAtts ns) atts.

Definition prepareNonStdAtts (ns : evl_nonStdAtts) (entry : posix_log_entry) (buf : list Z)
  : option (Z * eval_context) :=
  match evl_gettemplate entry buf with
  | None => Some (nsResultIfAllAttsMissing ns, mkEc None None false false 0)
  | Some t =>
      let '(fb, atts, anyValid, anyStrRefs) := screenUnpopulatedTemplate t ns in
      if negb anyValid || negb (fb =? evlFuzzyMaybe) then
        Some (fb, mkEc (Some t) (Some atts) anyValid anyStrRefs 1)
      else
        t' ← evl_populatetemplate t entry buf;
        let atts := if anyStrRefs then fixStructRefs t' ns atts else atts in
        Some (evlFuzzyMaybe, mkEc (Some t') (Some atts) anyValid anyStrRefs 0)
  end.

(** The prediction and [leftResult] (-1: no left branch was evaluated). *)
Definition evaluateLeft (root : pnode) (entry : posix_log_entry) (buf : list Z) : option (Z * Z) :=
  match root with
  | nt_op op l _ =>
      if op =? AND_LATER then
        b ← evaluateTree l None entry buf;
        Some (if (b : bool) then evlFuzzyMaybe else evlFuzzyFalse, b2z b)
      else if op =? OR_LATER then
        b ← evaluateTree l None entry buf;
        Some (if (b : bool) then evlFuzzyTrue else evlFuzzyMaybe, b2z b)
      else Some (evlFuzzyMaybe, -1)
  | _ => Some (evlFuzzyMaybe, -1)
  end.

(** The result and the number of times the clone was released. *)
Definition evaluateNsaTree (root : pnode) (ns : evl_nonStdAtts) (entry : posix_log_entry)
  (buf : list Z) : option (bool * nat) :=
  '(fbResult, leftResult) ← evaluateLeft root entry buf;
  if negb (fbResult =? evlFuzzyMaybe) then Some (fbResult =? evlFuzzyTrue, 0%nat)
  else
    let evalRoot := if negb (leftResult =? -1)
                    then match root with nt_op _ _ r => r | _ => root end else root in
    '(fbResult, ec) ← prepareNonStdAtts ns entry buf;
    result ← (if negb (fbResult =? evlFuzzyMaybe) then Some (fbResult =? evlFuzzyTrue)
              else evaluateTree evalRoot
                     (match ec_tmpl ec, ec_tmplAtts ec with
                      | Some t, Some atts => Some (t, atts)
                      | _, _ => None
                      end) entry buf);
    Some (result, (ec_releases ec + match ec_tmpl ec with Some _ => 1 | None => 0 end)%nat).

Definition _evlQEvaluateTree (root : pnode) (ns : option evl_nonStdAtts) (entry : posix_log_entry)
  (buf : list Z) : option bool :=
  match ns with
  | Some ns => fst <$> evaluateNsaTree root ns entry buf
  | None => evaluateTree root None entry buf
  end.
End Evaluate.
