(* ===== verification/QueryCorrect.v ===== *)
(** * Correctness of query evaluation

    The optimized, lazy evaluation of a query agrees with the reference
    evaluation that always loads and populates the template and evaluates the
    query as it was written; on normalized queries no assertion fails. *)
From S2P Require Import Prelude NvPairs LogRecord Hosts MemStr Query QNormalize QOptimize QEvaluate.

Section QueryCorrect.
Context `{HL : HostLib} `{RL : RegexLib} `{TL : TemplateLib}.
Variables (entry : posix_log_entry) (buf : list Z).

(** ** Normalized queries *)

Definition is_operand (r : pnode) : bool :=
  match r with nt_string _ | nt_regex _ | nt_val _ _ => true | _ => false end.
(** An attribute that has a string form. *)
Definition has_string (att : Z) : bool := ((0 <=? att) && (att <=? 14)) || (att =? EVL_ENTRY_HOST).

(** A normalized query over [n] non-standard attributes. *)
Fixpoint node_ok (n : nat) (t : pnode) : bool :=
  match t with
  | nt_attname _ _ => true
  | nt_nsaname i _ => Nat.ltb i n
  | nt_op op l r =>
      if op =? OP_NOT then node_ok n l
      else if (op =? AND) || (op =? OR) then node_ok n l && node_ok n r
      else is_comparison_op op && is_operand r &&
           match l with
           | nt_nsaname i _ => Nat.ltb i n
           | nt_attname att _ => match r with nt_val _ _ => true | _ => has_string att end
           | _ => false
           end
  | _ => false
  end.

(** A value for each non-standard attribute that the record has. *)
Definition view : Type := nat -> option attribute.
Definition view_of (arr : att_array) : view := fun i => default None (existing_att arr i).
Definition arr_ok (n : nat) (arr : att_array) : Prop :=
  match arr with None => True | Some (_, atts) => length atts = n end.

Definition leaf (v : view) (op : Z) (l r : pnode) : bool :=
  match l with
  | nt_nsaname i _ =>
      match v i with None => false | Some a => default false (compareAttribute op a r) end
  | _ => default false (evaluateTree (nt_op op l r) None entry buf)
  end.
(** The boolean meaning of a query, divided or not. *)
Fixpoint sem (v : view) (t : pnode) : bool :=
  match t with
  | nt_attname flag _ => if flag =? POSIX_LOG_ENTRY_DATA then log_size entry >? 0 else true
  | nt_nsaname i _ => bool_decide (is_Some (v i))
  | nt_op op l r =>
      if op =? OP_NOT then negb (sem v l)
      else if (op =? AND) || (op =? AND_LATER) then sem v l && sem v r
      else if (op =? OR) || (op =? OR_LATER) then sem v l || sem v r
      else leaf v op l r
  | _ => false
  end.

(** What the evaluator relies on: records and strings that fit their types. *)
Definition strings_fit : Prop := forall a, attExists a = true -> is_Some (evlatt_getstring a).
Hypothesis Hhost : host_ok.
Hypothesis Hentry : entry_ok entry.
Hypothesis Hstr : strings_fit.

Lemma comparison_op op : is_comparison_op op = true ->
  (op =? AND) = false /\ (op =? OR) = false /\ (op =? OP_NOT) = false /\
  (op =? AND_LATER) = false /\ (op =? OR_LATER) = false.
Proof.
  unfold is_comparison_op. cbn [existsb]. rewrite !orb_true_iff, !Z.eqb_eq.
  intros H. decompose [or] H; subst; try done; repeat split.
Qed.

Lemma att_string_ok att : has_string att = true -> exists s, att_string att entry buf = Some s.
Proof.
  intros Ha. unfold att_string. destruct (att =? POSIX_LOG_ENTRY_DATA) eqn:E; [by destruct (negb _); eauto|].
  destruct (att =? EVL_ENTRY_HOST) eqn:E2; [by eauto|].
  destruct (memtostr_fits att entry Hhost Hentry) as (s & -> & _); [|by eauto].
  unfold has_string in Ha. rewrite E2, orb_false_r in Ha. unfold standard_member, POSIX_LOG_ENTRY_DATA in *. zb.
Qed.

Lemma existing_att_view n arr i : arr_ok n arr -> (i < n)%nat -> existing_att arr i = Some (view_of arr i).
Proof.
  unfold view_of, existing_att. destruct arr as [[t atts]|]; [|done]. cbn. intros Hn Hi.
  destruct (lookup_lt_is_Some_2 atts i) as [a Ha]; [lia|]. rewrite Ha. by destruct a.
Qed.
Lemma existing_att_exists arr i a : existing_att arr i = Some (Some a) -> attExists a = true.
Proof.
  unfold existing_att. destruct arr as [[t atts]|]; [|done].
  destruct (atts !! i) as [[ref|]|]; [|done|done]. cbv zeta. destruct (attExists _) eqn:E; [|done].
  by intros [= <-].
Qed.

Lemma compareAttribute_ok op a r : attExists a = true -> is_operand r = true ->
  exists b, compareAttribute op a r = Some b.
Proof.
  intros Ha Hr. destruct (Hstr a Ha) as [s Hs].
  destruct r; try done; cbn; rewrite ?Hs; cbn; eauto.
Qed.

(** On a normalized query no assertion fails, and the evaluator computes the
    query's meaning. *)
Lemma evaluate_sem n arr t : arr_ok n arr -> node_ok n t = true ->
  evaluateTree t arr entry buf = Some (sem (view_of arr) t).
Proof.
  intros Harr. induction t as [| |flag nm|i nm| | | |op l IHl r IHr]; cbn [node_ok]; try done.
  - intros Hi%Nat.ltb_lt. cbn. by rewrite (existing_att_view n).
  - cbn [evaluateTree sem]. destruct (op =? OP_NOT) eqn:En; bprop.
    { subst op. intros Hl. cbn. rewrite IHl by done. done. }
    destruct (op =? AND) eqn:Ea; bprop.
    { subst op. cbn. intros [Hl Hr]%andb_true_iff. rewrite IHl by done. cbn.
      destruct (sem _ l); cbn; [by rewrite IHr|done]. }
    destruct (op =? OR) eqn:Eo; bprop.
    { subst op. cbn. intros [Hl Hr]%andb_true_iff. rewrite IHl by done. cbn.
      destruct (sem _ l); cbn; [done|by rewrite IHr]. }
    cbn [orb]. intros [[Hop Hr]%andb_true_iff Hl]%andb_true_iff.
    destruct (comparison_op op Hop) as (_ & _ & _ & -> & ->).
    unfold leaf. destruct l as [| |att nm|i nm| | | |]; try done.
    + cbn [evaluateTree]. destruct (comparison_op op Hop) as (-> & -> & -> & _ & _).
      destruct r; try done; destruct (att_string_ok att) as [? ->]; done.
    + apply Nat.ltb_lt in Hl. unfold evaluateNonStdComparison.
      pose proof (existing_att_view n arr i Harr Hl) as Hv. rewrite Hv. cbn.
      destruct (view_of arr i) as [a|]; [|done].
      destruct (compareAttribute_ok op a r) as [b ->]; [by eapply existing_att_exists|done|done].
Qed.

(** ** Division *)

(** [refsNonStdAtts] on a normalized query. *)
Fixpoint refs (t : pnode) : bool :=
  match t with
  | nt_nsaname _ _ => true
  | nt_op op l r =>
      if op =? OP_NOT then refs l
      else if (op =? AND) || (op =? OR) then refs l || refs r
      else match l with nt_nsaname _ _ => true | _ => false end
  | _ => false
  end.

Lemma refs_spec n t : node_ok n t = true -> refsNonStdAtts t = Some (refs t).
Proof.
  induction t as [| |flag nm|i nm| | | |op l IHl r IHr]; cbn [node_ok]; try done.
  cbn [refsNonStdAtts refs]. destruct (op =? OP_NOT); [done|].
  destruct ((op =? AND) || (op =? OR)); [|done].
  intros [Hl Hr]%andb_true_iff. rewrite IHl by done. cbn. destruct (refs l); [done|by apply IHr].
Qed.

(** A query that mentions none has the same meaning for every record's view. *)
Lemma sem_pure n v v' t : node_ok n t = true -> refs t = false -> sem v t = sem v' t.
Proof.
  induction t as [| |flag nm|i nm| | | |op l IHl r IHr]; cbn [node_ok refs]; try done.
  cbn [sem]. destruct (op =? OP_NOT) eqn:En; [intros; f_equal; by apply IHl|].
  destruct (op =? AND) eqn:Ea; bprop.
  { subst op. cbn. intros [Hl Hr]%andb_true_iff [Rl Rr]%orb_false_iff. by rewrite IHl, IHr. }
  destruct (op =? OR) eqn:Eo; bprop.
  { subst op. cbn. intros [Hl Hr]%andb_true_iff [Rl Rr]%orb_false_iff. by rewrite IHl, IHr. }
  cbn [orb]. intros [[Hop Hr]%andb_true_iff Hl]%andb_true_iff Hrefs.
  destruct (comparison_op op Hop) as (_ & _ & _ & -> & ->).
  unfold leaf. by destruct l.
Qed.

Definition glue (rootOp : Z) (a b : bool) : bool := if rootOp =? AND then a && b else a || b.
Definition combine (rootOp : Z) (v : view) (ts : list pnode) : bool :=
  if rootOp =? AND then forallb (sem v) ts else existsb (sem v) ts.

Lemma combine_app rootOp v a b :
  combine rootOp v (a ++ b) = glue rootOp (combine rootOp v a) (combine rootOp v b).
Proof. unfold combine, glue. destruct (_ =? _); [apply forallb_app|apply existsb_app]. Qed.
Lemma combine_cons rootOp v t ts : combine rootOp v (t :: ts) = glue rootOp (sem v t) (combine rootOp v ts).
Proof. unfold combine, glue. by destruct (_ =? _). Qed.
Lemma glue_nil rootOp v b : glue rootOp b (combine rootOp v []) = b /\ glue rootOp (combine rootOp v []) b = b.
Proof. unfold combine, glue. destruct (_ =? _), b; done. Qed.
Lemma glue_swap rootOp a b c d : glue rootOp (glue rootOp a b) (glue rootOp c d) = glue rootOp (glue rootOp a c) (glue rootOp b d).
Proof. unfold glue. destruct (_ =? _), a, b, c, d; done. Qed.

Definition and_or (rootOp : Z) : Prop := rootOp = AND \/ rootOp = OR.
Definition pure_ok (n : nat) (t : pnode) : Prop := node_ok n t = true /\ refs t = false.
Definition impure_ok (n : nat) (t : pnode) : Prop := node_ok n t = true /\ refs t = true.
Definition spare (rootOp : Z) (t : pnode) : Prop := exists l r, t = nt_op rootOp l r.

Lemma and_or_node n rootOp l r : and_or rootOp ->
  node_ok n (nt_op rootOp l r) = node_ok n l && node_ok n r /\ refs (nt_op rootOp l r) = refs l || refs r /\
  forall v, sem v (nt_op rootOp l r) = glue rootOp (sem v l) (sem v r).
Proof. by intros [->| ->]. Qed.

(** [t] is the [rootOp] of the pure operands [P] and the impure ones [I]; [R] are
    spare operator nodes. *)
Record classified (n : nat) (rootOp : Z) (t : pnode) (P I R : list pnode) : Prop := {
  cl_pure : Forall (pure_ok n) P;
  cl_impure : Forall (impure_ok n) I;
  cl_spare : Forall (spare rootOp) R;
  cl_refs : refs t = true -> I <> [];
  cl_sem v : sem v t = glue rootOp (combine rootOp v P) (combine rootOp v I)
}.

Lemma classified_leaf n rootOp t : node_ok n t = true ->
  classified n rootOp t (if refs t then [] else [t]) (if refs t then [t] else []) [].
Proof.
  intros Hok. destruct (refs t) eqn:E; split.
  all: try (intros v; rewrite combine_cons, ?(proj1 (glue_nil _ _ _)), ?(proj2 (glue_nil _ _ _)); done).
  all: (by apply Forall_nil_2) || (by apply Forall_singleton) || (by rewrite E) || done.
Qed.
Lemma classified_op n rootOp l r P1 I1 R1 P2 I2 R2 sp : and_or rootOp -> Forall (spare rootOp) sp ->
  classified n rootOp l P1 I1 R1 -> classified n rootOp r P2 I2 R2 ->
  classified n rootOp (nt_op rootOp l r) (P1 ++ P2) (I1 ++ I2) (sp ++ R1 ++ R2).
Proof.
  intros Hop Hsp [HP1 HI1 HR1 Hrf1 Hs1] [HP2 HI2 HR2 Hrf2 Hs2].
  destruct (and_or_node n rootOp l r Hop) as (_ & Hrefs & Hsem). split; try (by rewrite !Forall_app).
  - rewrite Hrefs. intros [H|H]%orb_true_iff [? ?]%app_eq_nil; [by apply Hrf1|by apply Hrf2].
  - intros v. rewrite Hsem, Hs1, Hs2, !combine_app. apply glue_swap.
Qed.

(** The lists that [diClassify] adds; the spare nodes are one less than the operands. *)
Lemma append_spec_di n t di : node_ok n t = true ->
  diAppend t di =
  Some (mkDi (diRootOp di) (diPureList di ++ if refs t then [] else [t])
             (diImpureList di ++ if refs t then [t] else []) (diRecycleList di ++ [])).
Proof. intros Hs. unfold diAppend. rewrite (refs_spec n) by done. cbn. destruct (refs t); by rewrite !app_nil_r. Qed.

Lemma classify_spec n rootOp t di : and_or rootOp -> node_ok n t = true -> diRootOp di = rootOp ->
  exists P I R,
    diClassify t di = Some (mkDi rootOp (diPureList di ++ P) (diImpureList di ++ I) (diRecycleList di ++ R)) /\
    classified n rootOp t P I R /\ (length P + length I = S (length R))%nat.
Proof.
  intros Hop. revert di.
  assert (forall t di, node_ok n t = true -> diRootOp di = rootOp -> diClassify t di = diAppend t di ->
    exists P I R,
      diClassify t di = Some (mkDi rootOp (diPureList di ++ P) (diImpureList di ++ I) (diRecycleList di ++ R)) /\
      classified n rootOp t P I R /\ (length P + length I = S (length R))%nat) as Hleaf.
  { intros s di Hs <- ->. do 3 eexists. rewrite (append_spec_di n) by done. split; [done|].
    split; [by apply classified_leaf|by destruct (refs s)]. }
  induction t as [| |flag nm|i nm| | | |op l IHl r IHr]; intros di Hok Hdi; try (by apply Hleaf).
  destruct (decide (op = rootOp)) as [->|Hne].
  2: { apply Hleaf; [done..|]. cbn [diClassify]. by rewrite Hdi, (proj2 (Z.eqb_neq _ _) Hne). }
  cbn [diClassify]. rewrite Hdi, Z.eqb_refl.
  rewrite (proj1 (and_or_node n rootOp l r Hop)) in Hok. apply andb_true_iff in Hok as [Hl Hr].
  set (di0 := mkDi _ _ _ _). destruct (IHl di0 Hl eq_refl) as (P1 & I1 & R1 & -> & HC1 & Hn1).
  cbn [mbind option_bind]. set (di1 := mkDi _ _ _ _).
  destruct (IHr di1 Hr eq_refl) as (P2 & I2 & R2 & -> & HC2 & Hn2).
  cbn [diPureList diImpureList diRecycleList di0 di1].
  exists (P1 ++ P2), (I1 ++ I2), ([nt_op rootOp l r] ++ R1 ++ R2).
  rewrite !app_assoc. split_and!; [done| |rewrite !length_app; cbn; lia].
  rewrite <-app_assoc. apply classified_op; [done| |done..]. repeat constructor. by eexists _, _.
Qed.

(** Rebuilding uses one spare node less than operands. *)
Lemma rebuild_spec n rootOp b ts : forall spares rest, and_or rootOp -> ts <> [] ->
  Forall (fun t => node_ok n t = true /\ refs t = b) ts -> Forall (spare rootOp) spares ->
  length ts = S (length spares) ->
  exists t, diRebuildSubtree ts (spares ++ rest) = Some (t, rest) /\
    node_ok n t = true /\ refs t = b /\ forall v, sem v t = combine rootOp v ts.
Proof.
  induction ts as [|t ts IH]; intros spares rest Hop Hne Hts Hsp Hlen; [done|].
  apply Forall_cons in Hts as [[Ht Hb] Hts]. destruct ts as [|t2 ts].
  - destruct spares; [|done]. exists t. split_and!; try done.
    intros v. by rewrite combine_cons, (proj1 (glue_nil _ _ _)).
  - destruct spares as [|sp spares]; [done|]. apply Forall_cons in Hsp as [(x & y & ->) Hsp].
    destruct (IH spares rest Hop) as (t' & Hr & Hok & Hrefs & Hsem); [done|done|done|cbn in *; lia|].
    exists (nt_op rootOp t t'). change (diRebuildSubtree (t :: t2 :: ts) ((nt_op rootOp x y :: spares) ++ rest))
      with ('(sub, recycle) ← diRebuildSubtree (t2 :: ts) (spares ++ rest);
            Some (nt_op rootOp t sub, recycle)).
    rewrite Hr. split; [done|]. destruct (and_or_node n rootOp t t' Hop) as (-> & -> & Hs).
    rewrite Ht, Hok, Hb, Hrefs. split_and!; [done|by destruct b|].
    intros v. by rewrite Hs, combine_cons, Hsem.
Qed.

(** The two halves are rebuilt from the operands with the spare nodes. *)
Lemma rebuild_halves n rootOp t P I R : and_or rootOp -> classified n rootOp t P I R -> P <> [] -> I <> [] ->
  (length P + length I = S (S (length R)))%nat ->
  exists l R' r, diRebuildSubtree P R = Some (l, R') /\ diRebuildSubtree I R' = Some (r, []) /\
    node_ok n l = true /\ refs l = false /\ node_ok n r = true /\
    forall v, sem v t = glue rootOp (sem v l) (sem v r).
Proof.
  intros Hop [HP HI HR _ Hsem] HPne HIne Hlen.
  assert (0 < length P)%nat by (destruct P; [done|cbn; lia]).
  assert (0 < length I)%nat by (destruct I; [done|cbn; lia]).
  destruct (rebuild_spec n rootOp false P (take (length P - 1) R) (drop (length P - 1) R) Hop HPne)
    as (l & El & Hokl & Hrl & Hsl); [done|by apply Forall_take|rewrite length_take; lia|].
  destruct (rebuild_spec n rootOp true I (drop (length P - 1) R) [] Hop HIne)
    as (r & Er & Hokr & _ & Hsr); [done|by apply Forall_drop|rewrite length_drop; lia|].
  rewrite take_drop in El. rewrite app_nil_r in Er. exists l, (drop (length P - 1) R), r. split_and!; try done.
  intros v. by rewrite Hsem, Hsl, Hsr.
Qed.

(** The two shapes of a reordered query. *)
Inductive divided (n : nat) (q : pnode) : pnode -> Prop :=
  | divided_same : divided n q q
  | divided_later op l r : op = AND_LATER \/ op = OR_LATER ->
      node_ok n l = true -> refs l = false -> node_ok n r = true ->
      (forall v, sem v (nt_op op l r) = sem v q) -> divided n q (nt_op op l r).

(** The division of a query that mentions a non-standard attribute: no assert
    fails, the nodes suffice, and the meaning is kept. *)
Lemma divide_spec n q : node_ok n q = true -> refs q = true ->
  exists q', divideTree q = Some q' /\ divided n q q'.
Proof.
  intros Hok Hrefs. destruct q as [| |flag nm|i nm| | | |rootOp l r];
    try (eexists; split; [done|constructor]).
  cbn [divideTree]. destruct (negb (rootOp =? AND) && negb (rootOp =? OR)) eqn:E.
  { eexists. split; [done|constructor]. }
  assert (and_or rootOp) as Hop.
  { unfold and_or. apply andb_false_iff in E as [E|E]; bprop; tauto. }
  rewrite (proj1 (and_or_node n rootOp l r Hop)) in Hok. apply andb_true_iff in Hok as [Hl Hr].
  set (di0 := mkDi rootOp [] [] []).
  destruct (classify_spec n rootOp l di0 Hop Hl eq_refl) as (P1 & I1 & R1 & -> & HC1 & Hn1).
  cbn [mbind option_bind diPureList diImpureList diRecycleList di0 app]. set (di1 := mkDi _ _ _ _).
  destruct (classify_spec n rootOp r di1 Hop Hr eq_refl) as (P2 & I2 & R2 & -> & HC2 & Hn2).
  cbn [mbind option_bind diPureList diImpureList diRecycleList di1].
  pose proof (classified_op n rootOp l r _ _ _ _ _ _ [] Hop ltac:(constructor) HC1 HC2) as HC. cbn [app] in HC.
  pose proof (cl_refs _ _ _ _ _ _ HC Hrefs) as HIne.
  assert (length (P1 ++ P2) + length (I1 ++ I2) = S (S (length (R1 ++ R2))))%nat as Hlen by (rewrite !length_app; lia).
  revert HC HIne Hlen. generalize (P1 ++ P2) (I1 ++ I2) (R1 ++ R2). intros P I R HC HIne Hlen.
  destruct I as [|i0 I]; [done|]. destruct P as [|p0 P]; [eexists; split; [done|constructor]|].
  destruct (rebuild_halves n rootOp _ _ _ R Hop HC) as (l' & R' & r' & -> & Hr' & Hokl & Hrl & Hokr & Hsem); [done..|].
  cbn [mbind option_bind]. rewrite Hr'. cbn [mbind option_bind]. eexists. split; [done|].
  constructor; [destruct (rootOp =? AND); tauto|done|done|done|].
  intros v. rewrite Hsem. by destruct Hop as [->| ->].
Qed.

(** ** Predicting the value of a query *)

(** The view lacks the attribute [nsa], or all of them. *)
Definition lacks (v : view) (nsa : option nat) : Prop :=
  match nsa with None => forall i, v i = None | Some i => v i = None end.
Definition predicts (f : Z) (b : bool) : Prop :=
  is_fuzzy f /\ (f = evlFuzzyTrue -> b = true) /\ (f = evlFuzzyFalse -> b = false).

Lemma lacks_missing v nsa (i : nat) : lacks v nsa ->
  match nsa with None => true | Some j => Nat.eqb i j end = true -> v i = None.
Proof. destruct nsa as [j|]; cbn; [intros H ->%Nat.eqb_eq; done|by intros H _]. Qed.

Lemma predicts_maybe b : predicts evlFuzzyMaybe b.
Proof. split; [unfold is_fuzzy; tauto|]. split; done. Qed.
Lemma predicts_exact (b : bool) : predicts (if b then evlFuzzyTrue else evlFuzzyFalse) b.
Proof. unfold predicts, is_fuzzy. destruct b; split_and!; try done; tauto. Qed.
Lemma predicts_and f g a b : predicts f a -> predicts g b -> predicts (Z.land f g) (a && b).
Proof.
  unfold predicts, is_fuzzy, evlFuzzyTrue, evlFuzzyFalse, evlFuzzyMaybe.
  intros ([->|[->| ->]] & Ha & Ha') ([->|[->| ->]] & Hb & Hb'); cbn;
    try rewrite (Ha eq_refl); try rewrite (Ha' eq_refl); try rewrite (Hb eq_refl);
    try rewrite (Hb' eq_refl); rewrite ?andb_false_r; split_and!; try done; tauto.
Qed.
Lemma predicts_or f g a b : predicts f a -> predicts g b -> predicts (Z.lor f g) (a || b).
Proof.
  unfold predicts, is_fuzzy, evlFuzzyTrue, evlFuzzyFalse, evlFuzzyMaybe.
  intros ([->|[->| ->]] & Ha & Ha') ([->|[->| ->]] & Hb & Hb'); cbn;
    try rewrite (Ha eq_refl); try rewrite (Ha' eq_refl); try rewrite (Hb eq_refl);
    try rewrite (Hb' eq_refl); rewrite ?orb_true_r; split_and!; try done; tauto.
Qed.
Lemma predicts_not f b : predicts f b ->
  predicts (if f =? evlFuzzyFalse then evlFuzzyTrue
            else if f =? evlFuzzyTrue then evlFuzzyFalse else evlFuzzyMaybe) (negb b).
Proof.
  unfold predicts, is_fuzzy, evlFuzzyTrue, evlFuzzyFalse, evlFuzzyMaybe.
  intros ([->|[->| ->]] & Hb & Hb'); cbn; try rewrite (Hb eq_refl); try rewrite (Hb' eq_refl);
    split_and!; try done; tauto.
Qed.

Lemma simulate_spec n nsa v t : node_ok n t = true -> lacks v nsa ->
  exists f, simulateMissingNsa t nsa = Some f /\ predicts f (sem v t).
Proof.
  intros Hok Hv. induction t as [| |flag nm|i nm| | | |op l IHl r IHr]; cbn [node_ok] in Hok; try done.
  - eexists. split; [done|]. cbn [sem]. destruct (flag =? _); [apply predicts_maybe|apply (predicts_exact true)].
  - eexists. split; [done|]. cbn [sem]. set (m := match nsa with None => true | Some j => Nat.eqb i j end).
    destruct m eqn:E; [|apply predicts_maybe]. unfold m in E.
    rewrite (lacks_missing v nsa i) by done. apply (predicts_exact false).
  - cbn [simulateMissingNsa sem]. destruct (op =? OP_NOT) eqn:En; bprop.
    { destruct (IHl Hok) as (f & -> & Hp). eexists. split; [done|]. by apply predicts_not. }
    destruct (op =? AND) eqn:Ea; bprop.
    { cbn [orb] in *. apply andb_true_iff in Hok as [Hl Hr].
      destruct (IHl Hl) as (f & -> & Hp), (IHr Hr) as (g & -> & Hp').
      eexists. split; [done|]. by apply predicts_and. }
    destruct (op =? OR) eqn:Eo; bprop.
    { subst op. cbn in *. apply andb_true_iff in Hok as [Hl Hr].
      destruct (IHl Hl) as (f & -> & Hp), (IHr Hr) as (g & -> & Hp').
      eexists. split; [done|]. by apply predicts_or. }
    cbn [orb] in *. apply andb_true_iff in Hok as [[Hop Hr]%andb_true_iff Hl].
    destruct (comparison_op op Hop) as (_ & _ & _ & -> & ->).
    eexists. split; [done|]. unfold leaf. destruct l as [| |att nm|i nm| | | |]; try done.
    + apply predicts_maybe.
    + set (m := match nsa with None => true | Some j => Nat.eqb i j end).
    destruct m eqn:E; [|apply predicts_maybe]. unfold m in E.
      rewrite (lacks_missing v nsa i) by done. apply (predicts_exact false).
Qed.

Lemma simulate_divided n nsa v q q' : node_ok n q = true -> divided n q q' -> lacks v nsa ->
  exists f, simulateMissingNsa q' nsa = Some f /\ predicts f (sem v q).
Proof.
  intros Hok [|op l r Hop Hl _ Hr Hsem] Hv; [by eapply simulate_spec|].
  destruct (simulate_spec n nsa v l Hl Hv) as (f & Hf & Pf).
  destruct (simulate_spec n nsa v r Hr Hv) as (g & Hg & Pg).
  rewrite <-Hsem. destruct Hop as [->| ->]; cbn [simulateMissingNsa sem];
    cbn; rewrite Hf, Hg; cbn; eexists; (split; [done|]); [by apply predicts_and|by apply predicts_or].
Qed.

(** ** The annotations *)

(** The list of attributes of a query: the indexes are the positions. *)
Definition nsas_ok (ns : evl_nonStdAtts) : Prop :=
  forall i a, nsAtts ns !! i = Some a -> nsaAtt a = i.

Lemma annotate_spec q (P : option nat -> Z -> Prop) atts :
  (forall nsa, exists f, simulateMissingNsa q nsa = Some f /\ P nsa f) ->
  exists atts', annotate q atts = Some atts' /\
    Forall2 (fun a a' => nsaName a' = nsaName a /\ nsaFlags a' = nsaFlags a /\ nsaAtt a' = nsaAtt a /\
                         P (Some (nsaAtt a)) (nsaResultIfMissing a')) atts atts'.
Proof.
  intros H. induction atts as [|a atts (atts' & Heq & Hall)]; cbn; [by eexists|].
  destruct (H (Some (nsaAtt a))) as (f & -> & Hf). cbn. rewrite Heq. cbn.
  eexists. split; [done|]. by constructor.
Qed.

(** The attribute pointers of the reference evaluation: load, populate and look
    everything up. *)
Definition resolve (ns : evl_nonStdAtts) : att_array :=
  match evl_gettemplate entry buf with
  | None => None
  | Some t =>
      match evl_populatetemplate t entry buf with
      | None => None
      | Some t' => Some (t', fixStructRefs t' ns (screen_att t <$> nsAtts ns))
      end
  end.
Definition reference_evaluate (q : pnode) (ns : evl_nonStdAtts) : option bool :=
  evaluateTree q (resolve ns) entry buf.

Lemma sem_ext v v' t : (forall i, v i = v' i) -> sem v t = sem v' t.
Proof.
  intros Hv. induction t as [| | | | | | |op l IHl r IHr]; cbn [sem]; rewrite ?Hv; try done.
  destruct (op =? OP_NOT); [by rewrite IHl|].
  destruct (_ || _); [by rewrite IHl, IHr|]. destruct (_ || _); [by rewrite IHl, IHr|].
  unfold leaf. destruct l; try done. by rewrite Hv.
Qed.

Lemma view_of_null t atts i : atts !! i = Some None \/ atts !! i = None -> view_of (Some (t, atts)) i = None.
Proof. unfold view_of, existing_att. by intros [-> | ->]. Qed.

Lemma fix_lookup t nsas atts i : atts !! i = Some None \/ atts !! i = None ->
  zip_with (fix_ref t) nsas atts !! i = Some None \/ zip_with (fix_ref t) nsas atts !! i = None.
Proof.
  intros Hi. rewrite lookup_zip_with. destruct (nsas !! i) as [a|]; cbn; [|by right].
  destruct Hi as [-> | ->]; cbn; [by left|by right].
Qed.

Lemma fix_id t nsas atts :
  existsb (fun nsa => negb (Z.land (nsaFlags nsa) EVLNSA_STRREF =? 0)) nsas = false ->
  length atts = length nsas -> zip_with (fix_ref t) nsas atts = atts.
Proof.
  revert atts; induction nsas as [|a nsas IH]; intros [|x atts]; cbn; try done.
  intros [Ha Hn]%orb_false_iff [= Hl]. rewrite IH by done. unfold fix_ref. rewrite Ha. by destruct x.
Qed.

Lemma first_prediction_spec nsas : forall atts,
  first_prediction nsas atts = evlFuzzyMaybe \/
  exists i a, nsas !! i = Some a /\ atts !! i = Some None /\
    first_prediction nsas atts = nsaResultIfMissing a.
Proof.
  induction nsas as [|a nsas IH]; intros [|x atts]; try (by left). cbn [first_prediction].
  destruct (IH atts) as [H|(i & b & H1 & H2 & H3)].
  - destruct x; [by left|]. destruct (_ =? _); [by left|]. right. by exists 0%nat, a.
  - destruct x; [right; by exists (S i), b|]. destruct (_ =? _); [right; by exists (S i), b|].
    right. by exists 0%nat, a.
Qed.

Lemma predicts_decided f b : predicts f b -> f <> evlFuzzyMaybe -> (f =? evlFuzzyTrue) = b.
Proof. intros ([->|[->| ->]] & Ht & Hf) Hne; [by rewrite Hf|done|by rewrite Ht]. Qed.

(** The reference view after screening agrees with the final array. *)
Section Core.
Variables (n : nat) (q : pnode) (ns ns' : evl_nonStdAtts).
Hypothesis Hn : n = length (nsAtts ns).
Hypothesis Hok : nsas_ok ns.
Hypothesis Hatts : Forall2 (fun a a' => nsaName a' = nsaName a /\ nsaFlags a' = nsaFlags a /\
  nsaAtt a' = nsaAtt a /\
  forall v, lacks v (Some (nsaAtt a)) -> predicts (nsaResultIfMissing a') (sem v q)) (nsAtts ns) (nsAtts ns').
Hypothesis Hall : forall v, lacks v None -> predicts (nsResultIfAllAttsMissing ns') (sem v q).
Hypothesis Hpop : forall t, evl_gettemplate entry buf = Some t -> is_Some (evl_populatetemplate t entry buf).

Lemma screen_same t : screen_att t <$> nsAtts ns' = screen_att t <$> nsAtts ns.
Proof.
  pose proof Hatts as HF. clear -HF.
  induction HF as [|a a' l l' (H1 & H2 & _) _ IH]; [done|]. cbn. f_equal; [|exact IH].
  unfold screen_att. by rewrite H1, H2.
Qed.
Lemma fix_same t atts : zip_with (fix_ref t) (nsAtts ns') atts = zip_with (fix_ref t) (nsAtts ns) atts.
Proof.
  pose proof Hatts as HF. clear -HF. revert atts.
  induction HF as [|a a' l l' (H1 & H2 & _) _ IH]; [done|].
  intros [|x atts]; [done|]. cbn. f_equal; [|apply IH]. unfold fix_ref. by rewrite H1, H2.
Qed.

Lemma resolve_arr_ok : arr_ok n (resolve ns).
Proof.
  unfold resolve. destruct (evl_gettemplate _ _) as [t|]; [|done].
  destruct (evl_populatetemplate _ _ _) as [t'|]; [|done]. cbn. unfold fixStructRefs.
  rewrite length_zip_with, length_fmap. lia.
Qed.

Lemma none_valid {A} (atts : list (option A)) i : existsb (fun a => bool_decide (is_Some a)) atts = false ->
  atts !! i = Some None \/ atts !! i = None.
Proof.
  intros Hex. destruct (atts !! i) as [[a|]|] eqn:Ea; [|by left|by right].
  exfalso. assert (existsb (fun a => bool_decide (is_Some a)) atts = true) as Hc; [|congruence].
  apply existsb_exists. exists (Some a). split; [|done]. apply list_elem_of_In. by eapply list_elem_of_lookup_2.
Qed.

(** A prediction from the attributes that the template does not offer. *)
Lemma screened_prediction v atts : (forall i, atts !! i = Some None \/ atts !! i = None -> v i = None) ->
  let f := if negb (existsb (fun a => bool_decide (a = None)) atts) then evlFuzzyMaybe
           else first_prediction (nsAtts ns') atts in
  f <> evlFuzzyMaybe -> predicts f (sem v q).
Proof.
  intros Hnull f. subst f. destruct (negb (existsb _ atts)); [done|]. intros Hne.
  destruct (first_prediction_spec (nsAtts ns') atts) as [H|(i & a' & H1 & H2 & H3)]; [done|].
  rewrite H3. destruct (Forall2_lookup_r _ _ _ _ _ Hatts H1) as (a & Ha & (_ & _ & _ & Hpred)).
  apply Hpred. cbn. rewrite (Hok _ _ Ha). by apply Hnull; left.
Qed.

(** With no reference to a member of a structure there is nothing to fix. *)
Lemma fixed_array t t' : let atts := screen_att t <$> nsAtts ns in
  (if existsb (fun nsa => negb (Z.land (nsaFlags nsa) EVLNSA_STRREF =? 0)) (nsAtts ns') then fixStructRefs t' ns' atts else atts) =
    zip_with (fix_ref t') (nsAtts ns) atts.
Proof.
  cbv zeta. unfold fixStructRefs. destruct (existsb _ (nsAtts ns')) eqn:Estr; [apply fix_same|].
  rewrite <-fix_same. rewrite fix_id; [done|done|]. rewrite length_fmap. by eapply Forall2_length.
Qed.

Lemma core e : node_ok n e = true -> sem (view_of (resolve ns)) e = sem (view_of (resolve ns)) q ->
  exists k, ('(fbResult, ec) ← prepareNonStdAtts ns' entry buf;
   result ← (if negb (fbResult =? evlFuzzyMaybe) then Some (fbResult =? evlFuzzyTrue)
             else evaluateTree e
                   (match ec_tmpl ec, ec_tmplAtts ec with
                    | Some t, Some atts => Some (t, atts)
                    | _, _ => None
                    end) entry buf);
   Some (result, (ec_releases ec + match ec_tmpl ec with Some _ => 1 | None => 0 end)%nat)) =
  Some (sem (view_of (resolve ns)) q, k).
Proof.
  intros He Heq. pose proof resolve_arr_ok as Harr. unfold prepareNonStdAtts.
  destruct (evl_gettemplate entry buf) as [t|] eqn:Eg.
  2: { cbn. assert (resolve ns = None) as Er by (unfold resolve; by rewrite Eg). rewrite Er in *.
       destruct (_ =? evlFuzzyMaybe) eqn:E; cbn; bprop.
       - rewrite (evaluate_sem n None) by done. cbn. rewrite Heq. by eexists.
       - rewrite (predicts_decided _ (sem (view_of None) q)); [by eexists|by apply Hall|done]. }
  destruct (Hpop t eq_refl) as [t' Ht'].
  assert (resolve ns = Some (t', zip_with (fix_ref t') (nsAtts ns) (screen_att t <$> nsAtts ns))) as Er.
  { unfold resolve. by rewrite Eg, Ht'. }
  set (v := view_of (resolve ns)) in *.
  unfold screenUnpopulatedTemplate. cbv zeta. rewrite screen_same. pose proof (fixed_array t t') as Hfix. cbv zeta in Hfix.
  set (atts := screen_att t <$> nsAtts ns) in *.
  assert (forall i, atts !! i = Some None \/ atts !! i = None -> v i = None) as Hnull.
  { intros i Hi. unfold v. rewrite Er. by apply view_of_null, fix_lookup. }
  destruct (existsb (fun a => bool_decide (is_Some a)) atts) eqn:Evalid; cbn [negb orb].
  - destruct (negb (_ =? evlFuzzyMaybe)) eqn:Efb; cbn [mbind option_bind].
    + rewrite Efb. bprop. cbn [mbind option_bind].
      rewrite (predicts_decided _ (sem v q)); [by eexists|by apply screened_prediction|done].
    + rewrite Ht'. cbn [mbind option_bind negb Z.eqb Pos.eqb evlFuzzyMaybe ec_tmpl ec_tmplAtts].
      rewrite Hfix, <-Er, (evaluate_sem n) by done. cbn. fold v. rewrite Heq. by eexists.
  - cbn [mbind option_bind]. destruct (_ =? evlFuzzyMaybe) eqn:E; cbn [negb mbind option_bind]; bprop.
    + cbn [ec_tmpl ec_tmplAtts].
      rewrite (evaluate_sem n) by (done || (unfold arr_ok, atts; by rewrite length_fmap)). cbn.
      rewrite (sem_ext _ v); [rewrite Heq; by eexists|].
      intros i. rewrite Hnull by (by apply none_valid). by apply view_of_null, none_valid.
    + rewrite (predicts_decided _ (sem v q)); [by eexists| |done]. apply Hall. intros i. by apply Hnull, none_valid.
Qed.
End Core.

(** The prediction does not depend on the record. *)
Lemma simulate_uniform n q q' : node_ok n q = true -> divided n q q' ->
  forall nsa, exists f, simulateMissingNsa q' nsa = Some f /\ forall v, lacks v nsa -> predicts f (sem v q).
Proof.
  intros Hq Hd nsa. destruct (simulate_divided n nsa (fun _ => None) q q' Hq Hd) as (f & Hf & _); [by destruct nsa|].
  exists f. split; [done|]. intros v Hv.
  destruct (simulate_divided n nsa v q q' Hq Hd Hv) as (g & Hg & Hp). congruence.
Qed.

(** A query that was not divided has no half to evaluate first. *)
Lemma left_undivided n q : node_ok n q = true -> evaluateLeft q entry buf = Some (evlFuzzyMaybe, -1).
Proof.
  intros Hq. destruct q as [| | | | | | |op l r]; try done. cbn [evaluateLeft node_ok] in *.
  destruct (op =? AND_LATER) eqn:E1; bprop; [by subst op|].
  destruct (op =? OR_LATER) eqn:E2; bprop; [by subst op|done].
Qed.

(** The optimized evaluation of a normalized query is defined and is the
    reference evaluation. *)
Lemma optimized_evaluation q ns :
  node_ok (length (nsAtts ns)) q = true -> refs q = true -> nsas_ok ns ->
  (forall t, evl_gettemplate entry buf = Some t -> is_Some (evl_populatetemplate t entry buf)) ->
  exists q' ns' b, _evlQOptimizeTree q (Some ns) = Some (q', Some ns') /\
    _evlQEvaluateTree q' (Some ns') entry buf = Some b /\ reference_evaluate q ns = Some b.
Proof.
  intros Hq Hrefs Hok Hpop. set (n := length (nsAtts ns)) in *.
  destruct (divide_spec n q Hq Hrefs) as (q' & Hdiv & Hd).
  pose proof (simulate_uniform n q q' Hq Hd) as Hsim.
  destruct (annotate_spec q' (fun nsa f => forall v, lacks v nsa -> predicts f (sem v q)) (nsAtts ns) Hsim)
    as (atts' & Hann & Hatts).
  destruct (Hsim None) as (all & Hall & Hpall).
  exists q', (mkNsas atts' all), (sem (view_of (resolve ns)) q).
  unfold _evlQOptimizeTree, _evlQReorderTree. rewrite Hdiv. cbn [mbind option_bind]. rewrite Hann.
  cbn [mbind option_bind]. rewrite Hall. cbn [mbind option_bind]. split; [done|].
  pose proof (resolve_arr_ok n ns eq_refl Hpop) as Harr. split.
  2: { unfold reference_evaluate. apply (evaluate_sem n); [exact Harr|exact Hq]. }
  pose proof (core n q ns (mkNsas atts' all) eq_refl Hok Hatts Hpall Hpop) as Hcore.
  cbn [_evlQEvaluateTree]. unfold evaluateNsaTree.
  destruct Hd as [|op l r Hop Hl Hpl Hr Hsem].
  - rewrite (left_undivided n) by done.
    cbn [mbind option_bind negb Z.eqb Pos.eqb evlFuzzyMaybe].
    destruct (Hcore q Hq eq_refl) as [k Hk]. cbv zeta. change (-1 =? -1) with true. cbn [negb].
    by rewrite Hk.
  - set (v := view_of (resolve ns)) in *.
    assert (evaluateTree l None entry buf = Some (sem v l)) as El.
    { rewrite (evaluate_sem n) by done. f_equal. by apply (sem_pure n). }
    assert (forall e : bool, (op = AND_LATER -> e = true) -> (op = OR_LATER -> e = false) -> sem v l = e ->
      sem v r = sem v q) as Hright.
    { intros e Ha Ho He. rewrite <-Hsem. destruct Hop as [->| ->]; cbn; rewrite He.
      - by rewrite Ha. - by rewrite Ho. }
    unfold evaluateLeft. destruct Hop as [->| ->].
    + rewrite Z.eqb_refl, El. cbn [mbind option_bind]. destruct (sem v l) eqn:Esl; cbn [negb Z.eqb Pos.eqb evlFuzzyMaybe evlFuzzyFalse b2z].
      * destruct (Hcore r Hr (Hright true (fun _ => eq_refl) ltac:(done) eq_refl)) as [k Hk].
        change (1 =? -1) with false. cbv zeta. cbn [negb]. by rewrite Hk.
      * cbn. f_equal. rewrite <-Hsem. cbn. by rewrite Esl.
    + change (OR_LATER =? AND_LATER) with false. rewrite Z.eqb_refl, El. cbn [mbind option_bind].
      destruct (sem v l) eqn:Esl; cbn [negb Z.eqb Pos.eqb evlFuzzyMaybe evlFuzzyTrue b2z].
      * cbn. f_equal. rewrite <-Hsem. cbn. by rewrite Esl.
      * destruct (Hcore r Hr (Hright false ltac:(done) (fun _ => eq_refl) eq_refl)) as [k Hk].
        change (0 =? -1) with false. cbv zeta. cbn [negb]. by rewrite Hk.
Qed.
End QueryCorrect.
