(* ===== verification/QNormCorrect.v ===== *)
(** * Correctness of normalization, and queries from end to end

    A tree of the grammar that normalization accepts is a well-formed query; the
    operands are converted without losing their value; and the whole pipeline -
    normalize, optimize, evaluate - computes the reference evaluation. *)
From S2P Require Import Prelude NvPairs FacNames LogRecord Hosts MemStr Query QNormalize QOptimize QEvaluate QueryCorrect.

Section NormCorrect.
Context `{HL : HostLib} `{RL : RegexLib}.
Variable flags : Z.

Lemma checked_inr v node r : checked v node = inr r -> r = node.
Proof. unfold checked. destruct v; [done|]. by intros [= <-]. Qed.
Lemma then_verify_inr r op att ops v : then_verify r op att ops = inr v -> r = inr v.
Proof. unfold then_verify. destruct r; [done|]. by intros ->%checked_inr. Qed.
Lemma integer_is_val sign size att v r :
  normalizeInteger sign size att v = inr r -> exists f u, r = nt_val f u.
Proof.
  unfold normalizeInteger. destruct v; try done. cbv zeta. destruct (_ && _); [done|].
  destruct (if _ =? _ then _ else _) as [e x]. destruct e; [done|].
  destruct (_ && _); intros [= <-]; eauto.
Qed.
Lemma name_is_val att n t r : changeNameNodeToInt att n t = inr r -> exists f u, r = nt_val f u.
Proof. unfold changeNameNodeToInt. cbv zeta. destruct (_ =? _); [done|]. intros [= <-]. eauto. Qed.
Lemma regex_is_regex op att s r : normalizeRegex op att s = Some (inr r) -> exists x, r = nt_regex x.
Proof.
  unfold normalizeRegex. destruct (_ || _); [|done]. destruct (regcomp s); [done|]. intros [= <-]. eauto.
Qed.
Lemma string_or_regex op att s r : normalizeStringOrRegex op att s = inr r ->
  r = nt_string s \/ exists x, r = nt_regex x.
Proof.
  unfold normalizeStringOrRegex. destruct (normalizeRegex op att s) as [x|] eqn:E.
  - intros ->. right. by eapply regex_is_regex.
  - intros ->%checked_inr. by left.
Qed.

(** ** Integer operands *)

(** The number that a literal of the grammar denotes. *)
Definition literal (flag uval : Z) : Z := if flag =? -1 then attr_val uval else uval.
Definition operand_size (size : Z) : Prop := size = 1 \/ size = 2 \/ size = 4.

(** The literals that an attribute of [size] bytes accepts. *)
Definition accepts_literal (sign size flag uval : Z) : bool :=
  let v := literal flag uval in
  if sign =? 1 then (0 <=? v) && (v <? 2 ^ (8 * size))
  else if flag =? -1 then (- 2 ^ (8 * size - 1) <=? v) && (v <? 2 ^ (8 * size - 1))
  else v <? 2 ^ (8 * size).

Lemma s64_small u : 0 <= u < 2 ^ 63 -> s64 u = u.
Proof. intros Hu. apply signed_id; [done|]. unfold in_signed. cbn. lia. Qed.

Lemma integer_spec sign size att flag uval :
  sign = 1 \/ sign = -1 -> operand_size size -> (flag = 1 \/ flag = -1 /\ (uval = 0 \/ attr_val uval < 0)) ->
  in_unsigned 64 uval ->
  (accepts_literal sign size flag uval = true ->
     exists f u, normalizeInteger sign size att (nt_val flag uval) = inr (nt_val f u) /\
       in_unsigned 64 u /\
       if sign =? 1 then u = literal flag uval
       else attr_val u = signed (8 * size) (literal flag uval)) /\
  (accepts_literal sign size flag uval = false ->
     exists e, normalizeInteger sign size att (nt_val flag uval) = inl e).
Proof.
  intros Hs Hz Hf Hu. unfold accepts_literal, normalizeInteger, literal, attr_val, semanticError in *.
  unfold in_unsigned, signed in *. unfold unsigned.
  change (2 ^ 64) with 18446744073709551616 in *. change (2 ^ (64 - 1)) with 9223372036854775808 in *.
  destruct Hs as [-> | ->], Hz as [->|[->| ->]], Hf as [->|[-> Hf]]; cbn [Z.eqb Pos.eqb andb Z.ltb Z.compare Pos.compare Pos.compare_cont];
    repeat match goal with |- context [2 ^ ?e] => let v := eval vm_compute in (2 ^ e) in change (2 ^ e) with v end.
  all: split; intros Hacc;
    repeat match goal with |- context [if ?c then _ else _] => destruct c eqn:? end; bprop;
    first [ by eexists | do 2 eexists; split; [reflexivity|]; dlia | exfalso; dlia ].
Qed.

(** A host comparison by substring with a bare name stays a name. *)
Definition bare_host (k op : Z) (v : pnode) : bool :=
  (k =? EVL_ENTRY_HOST) && (op =? CONTAINS) && match v with nt_name _ => true | _ => false end.

Local Ltac norm_inv :=
  repeat match goal with
  | H : checked _ _ = inr _ |- _ => apply checked_inr in H
  | H : then_verify _ _ _ _ = inr _ |- _ => apply then_verify_inr in H
  | H : normalizeInteger _ _ _ _ = inr _ |- _ => apply integer_is_val in H as (? & ? & H)
  | H : changeNameNodeToInt _ _ _ = inr _ |- _ => apply name_is_val in H as (? & ? & H)
  | H : normalizeStringOrRegex _ _ _ = inr _ |- _ => apply string_or_regex in H as [H|[? H]]
  | H : normalizeRegex _ _ _ = Some (inr _) |- _ => apply regex_is_regex in H as [? H]
  | H : inl _ = inr _ |- _ => discriminate H
  | H : inr _ = inr _ |- _ => injection H as H
  | H : context [match ?x with _ => _ end] |- _ => destruct x eqn:?
  end.

Lemma normalizeAtt_operand k op att v r : normalizeAtt k op att v = inr r -> bare_host k op v = false ->
  is_operand r = true /\ (match r with nt_val _ _ => true | _ => has_string k end) = true.
Proof.
  unfold normalizeAtt, bare_host. intros Hr Hb.
  repeat match goal with H : (if ?c then _ else _) = _ |- _ => destruct c eqn:? in H end; try discriminate Hr;
    bprop; repeat match goal with H : ?k = _ |- _ => subst k end;
    unfold normalizeAttData, normalizeAttRecid, normalizeAttSize, normalizeAttFormat, normalizeAttEventType,
      normalizeAttFacility, normalizeAttSeverity, normalizeAttUid, normalizeAttGid, normalizeAttPid,
      normalizeAttTime, normalizeAttFlags, normalizeAttThread, normalizeAttProcessor, normalizeAttAge,
      normalizeAttHost, wrongOperandType, semanticError, silentError in Hr; cbv zeta in Hr.
all: destruct v; norm_inv; subst; try done.
  all: try (apply regex_is_regex in Heqo as [? ->]; done).
  1: { exfalso. destruct Hb as [Hb|]; [|done]. cbn in Hb. congruence. }
Qed.

(** ** Trees *)

Definition ns_count (ns : option evl_nonStdAtts) : nat :=
  match ns with None => 0 | Some ns => length (nsAtts ns) end.
Definition ns_wf (ns : option evl_nonStdAtts) : Prop :=
  match ns with None => True | Some ns => nsas_ok ns end.

Lemma attribute_value name :
  let v := _evlGetValueByName _evlAttributes name (-1) in v = -1 \/ 1 <= v <= 14.
Proof.
  assert (forall t, Forall (fun nv => 1 <= nv_value nv <= 14) t ->
    _evlGetValueByName t name (-1) = -1 \/ 1 <= _evlGetValueByName t name (-1) <= 14) as Hgen.
  { induction 1 as [|nv t Hnv _ IH]; cbn; [by left|]. destruct (streqb _ _); [by right|done]. }
  apply Hgen. unfold _evlAttributes. repeat (constructor; [by split|]). constructor.
Qed.

Lemma find_nsa_lt atts name i : find_nsa atts name = Some i -> (i < length atts)%nat.
Proof.
  revert i; induction atts as [|a atts IH]; intros i; cbn; [done|]. destruct (streqb _ _); [intros [= <-]; lia|].
  destruct (find_nsa atts name); cbn; [|done]. intros [= <-]. specialize (IH n eq_refl). lia.
Qed.
Lemma register_ok name ns i ns' : registerNonStdAtt name ns = (i, ns') -> ns_wf ns ->
  (i < length (nsAtts ns'))%nat /\ (ns_count ns <= length (nsAtts ns'))%nat /\ nsas_ok ns'.
Proof.
  unfold registerNonStdAtt. set (ns0 := match ns with Some ns => ns | None => _ end). intros Hr Hwf.
  assert (nsas_ok ns0) as H0 by (destruct ns; [done|intros j a Hj; done]).
  assert (ns_count ns = length (nsAtts ns0)) as -> by (by destruct ns). clearbody ns0.
  destruct (find_nsa (nsAtts ns0) name) as [j|] eqn:E; simplify_eq.
  - apply find_nsa_lt in E. done.
  - cbn. rewrite length_app. cbn. split_and!; [lia..|]. intros j a. cbn.
    rewrite lookup_app_Some. intros [Hj|[Hj Hl]]; [by apply H0|].
    apply list_lookup_singleton_Some in Hl as [Hz <-]. cbn. lia.
Qed.

Lemma makeAttname_ok name ns r ns' : makeAttnameNode flags name ns = inr (r, ns') -> ns_wf ns ->
  ns_wf ns' /\ (ns_count ns <= ns_count ns')%nat /\
  ((exists k, r = nt_attname k name /\ ns' = ns /\ (k = EVL_ENTRY_HOST -> name = "host"%string)) \/
   (exists i, r = nt_nsaname i name /\ (i < ns_count ns')%nat /\ ns' <> None)).
Proof.
  unfold makeAttnameNode. cbv zeta. intros Hr Hwf. pose proof (attribute_value name) as Hv. cbv zeta in Hv.
  destruct (negb _) eqn:E; simplify_eq.
  { split_and!; [done..|left]. eexists. split_and!; [done..|]. unfold EVL_ENTRY_HOST. lia. }
  destruct (streqb name "data").
  { destruct (negb _) in Hr; [done|]. simplify_eq. split_and!; [done..|left]. eexists. by split_and!. }
  destruct (streqb name "age").
  { simplify_eq. split_and!; [done..|left]. eexists. by split_and!. }
  destruct (streqb name "host") eqn:Eh.
  { simplify_eq. split_and!; [done..|left]. eexists. split_and!; [done..|intros _; by apply streqb_spec]. }
  destruct (negb _) in Hr; [|done].
  destruct (registerNonStdAtt name ns) as [i ns1] eqn:Ereg. simplify_eq.
  destruct (register_ok _ _ _ _ Ereg Hwf) as (H1 & H2 & H3).
  split_and!; [done..|]. right. by exists i.
Qed.

(** No substring comparison of the host with a bare name. *)
Fixpoint bare_host_free (t : pnode) : bool :=
  match t with
  | nt_op op l r =>
      if op =? OP_NOT then bare_host_free l
      else if (op =? AND) || (op =? OR) then bare_host_free l && bare_host_free r
      else negb ((op =? CONTAINS) && match l, r with nt_name n, nt_name _ => streqb n "host" | _, _ => false end)
  | _ => true
  end.

Lemma node_ok_mono n m t : (n <= m)%nat -> node_ok n t = true -> node_ok m t = true.
Proof.
  intros Hnm. induction t as [| |k nm|i nm| | | |op l IHl r IHr]; cbn [node_ok]; try done.
  - rewrite !Nat.ltb_lt. lia.
  - destruct (op =? OP_NOT); [done|]. destruct (_ || _).
    + intros [Hl Hr]%andb_true_iff. by rewrite IHl, IHr.
    + intros [-> Hl]%andb_true_iff. destruct l; try done. cbn in *. apply Nat.ltb_lt in Hl.
      apply Nat.ltb_lt. lia.
Qed.

Lemma set_numeric_ok i ns : ns_wf ns ->
  ns_wf (set_numeric i ns) /\ ns_count (set_numeric i ns) = ns_count ns /\
  (set_numeric i ns = None <-> ns = None).
Proof.
  destruct ns as [ns|]; [|done]. cbn. intros Hok. rewrite length_alter. split_and!; [|done|done].
  intros j a. cbn. destruct (decide (i = j)) as [->|Hne].
  - rewrite list_lookup_alter_eq. destruct (nsAtts ns !! j) eqn:E; [|done]. cbn. intros [= <-]. cbn. by eapply Hok.
  - rewrite list_lookup_alter_ne by done. apply Hok.
Qed.

(** What normalization of a (sub)tree guarantees, for the list before and after. *)
Definition normalized (ns : option evl_nonStdAtts) (q : pnode) (ns' : option evl_nonStdAtts) : Prop :=
  ns_wf ns' /\ (ns_count ns <= ns_count ns')%nat /\ node_ok (ns_count ns') q = true /\
  (ns' = None <-> ns = None /\ refs q = false).

Lemma nonstd_operand op i att v ns r ns' : ns_wf ns ->
  normalizeComparisonWithNonStdAtt op i att v ns = inr (r, ns') ->
  is_operand r = true /\ ns_wf ns' /\ ns_count ns' = ns_count ns /\ (ns' = None <-> ns = None).
Proof.
  intros Hwf. unfold normalizeComparisonWithNonStdAtt, wrongOperandType, semanticError.
  destruct v as [| | | |f u|s| |]; try done.
  - destruct (then_verify _ _ _ _) as [|w] eqn:E; [done|]. intros [= <- <-].
    apply then_verify_inr, integer_is_val in E as (? & ? & ->). split; [done|]. by apply set_numeric_ok.
  - destruct (normalizeStringOrRegex op att s) as [|w] eqn:E; [done|]. intros [= <- <-].
    apply string_or_regex in E as [->|[x ->]]; done.
Qed.

Lemma comparison_ok op l r ns q ns' :
  is_comparison_op op = true -> bare_host_free (nt_op op l r) = true -> ns_wf ns ->
  normalizeComparison flags op l r ns = inr (q, ns') -> normalized ns q ns'.
Proof.
  intros Hop. destruct (comparison_op op Hop) as (Ea & Eo & En & _ & _). cbn [bare_host_free].
  rewrite Ea, Eo, En. cbn [orb]. intros Hb Hwf. unfold normalizeComparison, silentError.
  destruct l as [|name| | | | | |]; try done.
  destruct (makeAttnameNode flags name ns) as [|[r0 ns0]] eqn:E; [done|].
  destruct (makeAttname_ok _ _ _ _ E Hwf) as (Hwf0 & Hle & [(k & -> & -> & Hk)|(i & -> & Hi & Hne)]).
  - destruct (normalizeAtt k op name r) as [|v'] eqn:Ev; [done|]. intros [= <- <-].
    destruct (normalizeAtt_operand _ _ _ _ _ Ev) as [H1 H2].
    { unfold bare_host. destruct (k =? EVL_ENTRY_HOST) eqn:Ek; [|done]. apply Z.eqb_eq in Ek. rewrite (Hk Ek) in Hb.
      revert Hb. destruct (op =? CONTAINS); [|done]. by destruct r. }
    unfold normalized. cbn [node_ok refs]. rewrite Ea, Eo, En, Hop, H1, H2. cbn. naive_solver.
  - destruct (normalizeComparisonWithNonStdAtt op i name r ns0) as [|[v' ns1]] eqn:Ev; [done|].
    intros [= <- <-]. destruct (nonstd_operand _ _ _ _ _ _ _ Hwf0 Ev) as (H1 & H2 & H3 & H4).
    unfold normalized. cbn [node_ok refs]. rewrite Ea, Eo, En, Hop, H1, H3. cbn [orb andb].
    split_and!; [done|lia|by apply Nat.ltb_lt|naive_solver].
Qed.

Lemma normalize_ok t : forall ns q ns', grammar_tree t = true -> bare_host_free t = true -> ns_wf ns ->
  _evlQNormalizeTree flags t ns = inr (q, ns') -> normalized ns q ns'.
Proof.
  induction t as [|name| | | | | |op l IHl r IHr]; intros ns q ns'; try done.
  - cbn. intros _ _ Hwf E.
    destruct (makeAttname_ok _ _ _ _ E Hwf) as (H1 & H2 & [(k & -> & -> & _)|(i & -> & Hi & Hne)]);
      unfold normalized; cbn [node_ok refs]; rewrite ?Nat.ltb_lt; split_and!; try done; naive_solver.
  - cbn [grammar_tree _evlQNormalizeTree]. intros Hg Hb Hwf.
    destruct (op =? OP_NOT) eqn:En.
    { apply andb_true_iff in Hg as [Hg _]. cbn [bare_host_free] in Hb. rewrite En in Hb.
      destruct (_evlQNormalizeTree flags l ns) as [|[l' ns1]] eqn:El; [done|]. intros [= <- <-].
      destruct (IHl _ _ _ Hg Hb Hwf El) as (H1 & H2 & H3 & H4).
      unfold normalized. cbn [node_ok refs]. by rewrite En. }
    destruct ((op =? AND) || (op =? OR)) eqn:Eao.
    { apply andb_true_iff in Hg as [Hgl Hgr]. cbn [bare_host_free] in Hb. rewrite En, Eao in Hb.
      apply andb_true_iff in Hb as [Hbl Hbr].
      destruct (_evlQNormalizeTree flags l ns) as [|[l' ns1]] eqn:El; [done|].
      destruct (IHl _ _ _ Hgl Hbl Hwf El) as (H1 & H2 & H3 & H4).
      destruct (_evlQNormalizeTree flags r ns1) as [|[r' ns2]] eqn:Er; [done|]. intros [= <- <-].
      destruct (IHr _ _ _ Hgr Hbr H1 Er) as (H1' & H2' & H3' & H4').
      unfold normalized. cbn [node_ok refs]. rewrite En, Eao.
      rewrite (node_ok_mono _ _ _ H2' H3), H3'. rewrite orb_false_iff.
      split_and!; [done|lia|done|tauto]. }
    apply andb_true_iff in Hg as [[Hop _]%andb_true_iff _]. intros E. by eapply comparison_ok.
Qed.
End NormCorrect.

Section Pipeline.
Context `{HL : HostLib} `{RL : RegexLib} `{TL : TemplateLib}.

(** Evaluation as the language defines it: every attribute is read from the
    record's populated template, and the query is taken as written. *)
Definition reference (q : pnode) (ns : option evl_nonStdAtts) (entry : posix_log_entry) (buf : list Z)
  : option bool :=
  match ns with
  | None => evaluateTree q None entry buf
  | Some ns => reference_evaluate entry buf q ns
  end.

(** What the template library promises: a template that was found can be
    populated, and an attribute that exists has a string form. *)
Definition templates_ok (entry : posix_log_entry) (buf : list Z) : Prop :=
  strings_fit /\ forall t, evl_gettemplate entry buf = Some t -> is_Some (evl_populatetemplate t entry buf).

Lemma pipeline flags t q ns entry buf :
  host_ok -> entry_ok entry -> templates_ok entry buf ->
  grammar_tree t = true -> bare_host_free t = true ->
  _evlQNormalizeTree flags t None = inr (q, ns) ->
  exists q' ns' b, _evlQOptimizeTree q ns = Some (q', ns') /\
    _evlQEvaluateTree q' ns' entry buf = Some b /\ reference q ns entry buf = Some b.
Proof.
  intros Hh He [Hs Hp] Hg Hb Hn.
  destruct (normalize_ok flags t None q ns Hg Hb I Hn) as (Hwf & _ & Hok & Hrefs).
  destruct ns as [ns|].
  - destruct (optimized_evaluation entry buf Hh He Hs q ns) as (q' & ns' & b & H1 & H2 & H3); try done.
    { destruct (refs q) eqn:E; [done|]. naive_solver. }
    by exists q', (Some ns'), b.
  - exists q, None, (sem entry buf (view_of None) q). cbn.
    rewrite (evaluate_sem entry buf Hh He Hs 0) by done. done.
Qed.

(** The optimizer's asserts hold on every normalized query. *)
Lemma optimize_total flags t q ns : grammar_tree t = true -> bare_host_free t = true ->
  _evlQNormalizeTree flags t None = inr (q, ns) -> exists q' ns', _evlQOptimizeTree q ns = Some (q', ns').
Proof.
  intros Hg Hb Hn. destruct (normalize_ok flags t None q ns Hg Hb I Hn) as (Hwf & _ & Hok & Hrefs).
  destruct ns as [ns|]; [|by eexists _, _]. cbn in Hok.
  set (e := mkEntry 0 0 0 0 0 0 0 0 0 0 0 0 0 0 0 0).
  destruct (divide_spec e [] (length (nsAtts ns)) q Hok) as (q' & Hdiv & Hd).
  { destruct (refs q) eqn:E; [done|]. naive_solver. }
  assert (forall nsa, exists f, simulateMissingNsa q' nsa = Some f /\ True) as Hsim.
  { intros nsa. destruct (simulate_divided e [] (length (nsAtts ns)) nsa (fun _ => None) q q' Hok Hd) as (f & Hf & _).
    - by destruct nsa. - by exists f. }
  destruct (annotate_spec q' (fun _ _ => True) (nsAtts ns) Hsim) as (atts' & Hann & _).
  destruct (Hsim None) as (all & Hall & _).
  exists q', (Some (mkNsas atts' all)). unfold _evlQOptimizeTree, _evlQReorderTree.
  rewrite Hdiv. cbn [mbind option_bind]. rewrite Hann. cbn [mbind option_bind]. by rewrite Hall.
Qed.

Lemma optimize_keeps q ns q' ns' : _evlQOptimizeTree q ns = Some (q', ns') -> q <> PNull -> q' <> PNull.
Proof.
  unfold _evlQOptimizeTree, _evlQReorderTree. destruct ns as [ns|]; [|by intros [= <- <-]].
  intros H Hq. apply bind_Some in H as (q1 & H1 & H). apply bind_Some in H as (a & _ & H).
  apply bind_Some in H as (b & _ & [= <- _]). unfold divideTree in H1.
  destruct q as [| | | | | | |op l r]; simplify_eq; try done.
  destruct (_ && _); [by simplify_eq|].
  apply bind_Some in H1 as (d1 & _ & H1). apply bind_Some in H1 as (d2 & _ & H1).
  destruct (diImpureList d2); [done|]. destruct (diPureList d2); [by simplify_eq|].
  apply bind_Some in H1 as ([x1 x2] & _ & H1). apply bind_Some in H1 as ([y1 y2] & _ & H1).
  destruct y2; by simplify_eq.
Qed.

Lemma normalized_nonnull flags t q ns : grammar_tree t = true -> bare_host_free t = true ->
  _evlQNormalizeTree flags t None = inr (q, ns) -> q <> PNull.
Proof.
  intros Hg Hb Hn ->. by destruct (normalize_ok flags t None PNull ns Hg Hb I Hn) as (_ & _ & ? & _).
Qed.
End Pipeline.


(** The value predicted for a query when an attribute (or every non-standard
    attribute) is missing is the query's value on every record that lacks it,
    unless the prediction is "maybe". *)
Theorem missing_attribute_prediction `{HL : HostLib} `{RL : RegexLib} `{TL : TemplateLib}
  flags t q ns entry buf nsa :
  grammar_tree t = true -> bare_host_free t = true ->
  _evlQNormalizeTree flags t None = inr (q, ns) ->
  exists f, simulateMissingNsa q nsa = Some f /\
    forall v, lacks v nsa -> (f = evlFuzzyTrue -> sem entry buf v q = true) /\
                             (f = evlFuzzyFalse -> sem entry buf v q = false).
Proof.
  intros Hg Hb Hn. destruct (normalize_ok flags t None q ns Hg Hb I Hn) as (_ & _ & Hok & _).
  destruct (simulate_spec entry buf (ns_count ns) nsa (fun _ => None) q Hok) as (f & Hf & _); [by destruct nsa|].
  exists f. split; [done|]. intros v Hv.
  destruct (simulate_spec entry buf (ns_count ns) nsa v q Hok Hv) as (g & Hg' & _ & H1 & H2).
  assert (f = g) as -> by congruence. done.
Qed.

(** ** Ages *)

Definition age_units : list (ascii * Z) := [("s"%char, 1); ("m"%char, 60); ("h"%char, 3600); ("d"%char, 86400)].

Lemma parseAge_spec n c k : (c, k) ∈ age_units -> 0 <= n -> n * k < 2 ^ 31 ->
  parseAge (fmt_d n ++ String c EmptyString) = n * k.
Proof.
  intros Hc Hn Hk.
  assert (1 <= k) as Hk1 by (unfold age_units in Hc; set_unfold in Hc; naive_solver lia).
  assert (n <= n * k) by nia.
  assert (s32 n = n) as Hsn by (apply signed_id; [lia|unfold in_signed; cbn; lia]).
  assert (u32 (s32 n) = n) as Hu.
  { rewrite Hsn. apply unsigned_id. unfold in_unsigned. lia. }
  assert (digit_val 10 c = None) as Hd by (unfold age_units in Hc; set_unfold in Hc; naive_solver).
  unfold parseAge. rewrite strtoul_fmt_d by (done || lia). rewrite Hu.
  assert (streqb (String c EmptyString) (fmt_d n ++ String c EmptyString) = false) as ->.
  { apply streqb_false. intros Heq. destruct (fmt_d_digits n Hn) as (d & s & E & Hdig & _).
    rewrite E in Heq. injection Heq as <- _. done. }
  assert (s32 (u32 (n * k)) = n * k) as Hw.
  { rewrite unsigned_id by (unfold in_unsigned; nia). apply signed_id; [lia|]. unfold in_signed. cbn. nia. }
  unfold age_units in Hc. set_unfold in Hc. destruct_or! Hc; destruct_and? Hc; simplify_eq;
    cbn -[unsigned signed Z.mul]; try done. by rewrite Z.mul_1_r.
Qed.

(** ** Where the code departs from its intent *)

Section Departures.
Context `{HL : HostLib} `{RL : RegexLib} `{TL : TemplateLib}.

(** A substring comparison of the host with a bare name is accepted, but the
    operand stays a name, on which the evaluator's assertion fails for every
    record. *)
Theorem bare_host_aborts flags name entry buf :
  exists q, _evlQNormalizeTree flags (nt_op CONTAINS (nt_name "host") (nt_name name)) None = inr (q, None) /\
    _evlQOptimizeTree q None = Some (q, None) /\ _evlQEvaluateTree q None entry buf = None.
Proof. eexists. split; [reflexivity|]. done. Qed.

(** A clone that is released because the template offers no attribute of the
    query, or because a prediction decides, is released a second time at the
    end of the evaluation. *)
Theorem template_released_twice op l r ns entry buf t res k :
  evl_gettemplate entry buf = Some t ->
  (forall a, a ∈ nsAtts ns -> evltemplate_getatt t (nsaName a) = None /\
                              evltemplate_getatt (tm_master t) (nsaName a) = None) ->
  op <> AND_LATER -> op <> OR_LATER ->
  evaluateNsaTree (nt_op op l r) ns entry buf = Some (res, k) -> k = 2%nat.
Proof.
  intros Ht Hno Ha Ho. unfold evaluateNsaTree, evaluateLeft.
  rewrite (proj2 (Z.eqb_neq _ _) Ha), (proj2 (Z.eqb_neq _ _) Ho). cbn [mbind option_bind negb Z.eqb Pos.eqb evlFuzzyMaybe].
  unfold prepareNonStdAtts. rewrite Ht. unfold screenUnpopulatedTemplate. cbv zeta.
  assert (existsb (fun a => bool_decide (is_Some a)) (screen_att t <$> nsAtts ns) = false) as Hv.
  { apply not_true_iff_false. intros (x & Hx & Hs)%existsb_exists. apply list_elem_of_In, list_elem_of_fmap in Hx as (a & -> & Hin).
    destruct (Hno a Hin) as [H1 H2]. apply bool_decide_eq_true in Hs. revert Hs. unfold screen_att. cbv zeta.
    destruct (negb (_ =? 0)); rewrite ?H1, ?H2; by intros [? ?]. }
  rewrite Hv. cbn [negb orb mbind option_bind ec_tmpl ec_releases].
  match goal with |- (?m ≫= _) = _ -> _ => destruct m as [x|]; cbn; [|done] end. by intros [= _ <-].
Qed.

(** Ages whose number of seconds does not fit 32 bits are accepted and wrap. *)
Theorem age_wraps : parseAge "50000d" = 50000 * 86400 - 2 ^ 32 /\
  exists v, normalizeAttAge OP_GT "age" (nt_string "50000d") = inr (nt_val 1 v) /\ v <> 50000 * 86400.
Proof. split; [reflexivity|]. eexists. split; [reflexivity|done]. Qed.
End Departures.

(** An age in seconds, minutes, hours or days that fits 31 bits is read as the
    number of seconds it denotes. *)
Theorem age_value n c k : (c, k) ∈ age_units -> 0 <= n -> n * k < 2 ^ 31 ->
  parseAge (fmt_d n ++ String c EmptyString) = n * k.
Proof. apply parseAge_spec. Qed.
Lemma age_value_witness : parseAge "90m" = 5400.
Proof. apply (age_value 90 "m" 60); [unfold age_units; set_solver|lia|lia]. Defined.

(** An integer operand is accepted exactly when the attribute's type can hold
    it, and keeps its value, sign-extended for a signed attribute. *)
Theorem integer_operand `{RegexLib} sign size att flag uval :
  sign = 1 \/ sign = -1 -> operand_size size ->
  (flag = 1 \/ flag = -1 /\ (uval = 0 \/ attr_val uval < 0)) -> in_unsigned 64 uval ->
  (accepts_literal sign size flag uval = true ->
     exists f u, normalizeInteger sign size att (nt_val flag uval) = inr (nt_val f u) /\
       in_unsigned 64 u /\
       if sign =? 1 then u = literal flag uval
       else attr_val u = signed (8 * size) (literal flag uval)) /\
  (accepts_literal sign size flag uval = false ->
     exists e, normalizeInteger sign size att (nt_val flag uval) = inl e).
Proof. apply integer_spec. Qed.
Lemma integer_operand_witness : exists f u,
  @normalizeInteger (Build_RegexLib unit (fun _ => inr tt) (fun _ _ => true)) (-1) 4 "event_type" (nt_val 1 4294967295)
    = inr (nt_val f u) /\ attr_val u = -1.
Proof.
  destruct (@integer_operand (Build_RegexLib unit (fun _ => inr tt) (fun _ _ => true)) (-1) 4 "event_type" 1 4294967295)
    as [Hacc _]; [by right|by right; right|by left|unfold in_unsigned; lia|].
  destruct (Hacc eq_refl) as (f & u & H1 & _ & H2). exists f, u. split; [exact H1|]. cbn in H2. exact H2.
Defined.
