(* ===== verification/QSamples.v ===== *)
(** * Concrete environments

    Instances of the interfaces that the query code is written against, small
    enough to evaluate with: a machine with one user and the standard facilities,
    regular expressions that match substrings, and templates with one numeric
    attribute. *)
From Stdlib Require Import SpecFloat.
From S2P Require Import Prelude NvPairs LogRecord FacReg Hosts MemStr Query QNormalize QOptimize QEvaluate QueryCorrect QNormCorrect.

Definition sample_fr : _evlFacilityRegistry unit :=
  Eval vm_compute in
    match _evlReadFacilities (fun _ => (0, Some tt)) 50 sample_registry with
    | Some (Some r) => r
    | _ => mkReg 0 [] 0
    end.
Definition sample_hosts : host_env := mkHostEnv (Some "home.example"%string) [mkHost "alpha" 258; mkHost "beta" 17].
Definition sample_machine : HostLib :=
  machine sample_fr (fun u => if u =? 0 then Some "root"%string else None) (fun _ => None)
    (fun n => if streqb n "root" then Some 0 else None) (fun _ => None)
    (fun _ => "Thu Jan  1 00:00:00 1970"%string) 1000000 sample_hosts "garbage".
Definition sample_regex : RegexLib :=
  Build_RegexLib str (fun s => if streqb s "(" then inl "Unmatched ( or \("%string else inr s) (fun r s => strstr s r).

(** Records of facility 500 have a template with the attribute "temp", whose value
    is the record's first data byte. *)
Definition sample_templates : TemplateLib := {|
  tmpl := option Z;
  attref := unit;
  attribute := option Z;
  evl_gettemplate e _ := if log_facility e =? 500 then Some None else None;
  tm_master t := None;
  evltemplate_getatt _ name := if streqb name "temp" then Some tt else None;
  evl_populatetemplate _ _ buf := Some (head buf);
  att_at t _ := t;
  attExists a := bool_decide (is_Some a);
  isArray _ := false;
  evlatt_gettype _ := TY_INT;
  evlatt_getstring a := Some (match a with Some v => fmt_d v | None => EmptyString end);
  evl_getLongAttVal a := default 0 a;
  evl_getUlongAttVal a := default 0 a;
  evl_getLonglongAttVal a := default 0 a;
  evl_getUlonglongAttVal a := default 0 a;
  evl_getDoubleAttVal a := S754_zero false;
  evl_getLongdoubleAttVal a := S754_zero false
|}.
(** A record of facility 500 with two bytes of data. *)
Definition sample_entry : posix_log_entry := mkEntry 0xfeefface 7 2 2 9 500 3 0 0 100 100 1234 0 0 0 0.

Lemma sample_machine_ok : @host_ok sample_machine.
Proof.
  apply machine_ok; [reflexivity| | | |reflexivity].
  - intros u s. destruct (u =? 0); [by intros [= <-]|done].
  - done.
  - done.
Qed.
Lemma sample_entry_ok : entry_ok sample_entry.
Proof. unfold entry_ok, in_unsigned, in_signed. cbn. lia. Qed.
Lemma sample_templates_ok e buf : @templates_ok sample_templates e buf.
Proof. split; [intros a _; by eexists|]. intros t _. by eexists. Qed.

(** A record without the query's attribute: the clone is released twice. *)
Lemma template_released_twice_witness :
  exists res k, @evaluateNsaTree sample_machine sample_regex sample_templates
    (nt_op OP_EQ (nt_nsaname 0 "speed") (nt_val 1 3)) (mkNsas [mkNsa "speed" evlFuzzyFalse 1 0] evlFuzzyFalse)
    sample_entry [30; 0] = Some (res, k) /\ k = 2%nat.
Proof.
  eexists _, _. split; [vm_compute; reflexivity|].
  apply (@template_released_twice sample_machine sample_regex sample_templates OP_EQ (nt_nsaname 0 "speed") (nt_val 1 3)
    (mkNsas [mkNsa "speed" evlFuzzyFalse 1 0] evlFuzzyFalse) sample_entry [30; 0] None false 2%nat);
    [reflexivity| |done|done|vm_compute; reflexivity].
  intros a. cbn [nsAtts]. intros ->%list_elem_of_singleton. split; reflexivity.
Defined.

Definition sample_tree : @pnode sample_regex :=
  nt_op AND (nt_op GE (nt_name "temp") (nt_val 1 30)) (nt_op OP_GT (nt_name "size") (nt_val 1 0)).
Lemma missing_attribute_prediction_witness : exists q ns f,
  @_evlQNormalizeTree sample_machine sample_regex EVL_PRPS_TEMPLATE sample_tree None = inr (q, ns) /\
  simulateMissingNsa q (Some 0%nat) = Some f /\ f = evlFuzzyFalse.
Proof.
  eexists _, _. destruct (@missing_attribute_prediction sample_machine sample_regex sample_templates EVL_PRPS_TEMPLATE sample_tree _ _
    sample_entry [31; 0] (Some 0%nat) eq_refl eq_refl eq_refl) as (f & H1 & _).
  exists f. split; [vm_compute; reflexivity|]. split; [exact H1|]. vm_compute in H1. by injection H1 as <-.
Defined.

(** A parser that knows one query. *)
Definition sample_parse (s : str) : str + @pnode sample_regex :=
  if streqb s "size > 0 && temp >= 30" then
    inr (nt_op AND (nt_op OP_GT (nt_name "size") (nt_val 1 0)) (nt_op GE (nt_name "temp") (nt_val 1 30)))
  else inl "syntax error"%string.
