(* ===== verification/QueryApi.v ===== *)
(** * Query objects ([lib/posix1.c], [_evlValidateQuery] of [lib/posix2.c])

    [posix_log_query_create], [_get], [_match] and [_destroy].  The parser that
    bison and flex generate is an argument: [qqparse] gives the message that the
    parser left in [_evlQueryErrmsg] or the tree.  [None] is a failed [assert]. *)
From S2P Require Import Prelude NvPairs LogRecord FacNames Hosts MemStr Query QNormalize QOptimize QEvaluate QueryCorrect QNormCorrect QSamples.

Section QueryApi.
Context `{HL : HostLib} `{RL : RegexLib} `{TL : TemplateLib}.
Variable qqparse : str -> str + pnode.

(** ** Operations *)

(** [qu_tree = PNull] and [qu_expr = None] are null pointers. *)
Record posix_log_query_t := mkQuery {
  qu_purpose : Z;
  qu_expr : option str;
  qu_tree : pnode;
  qu_nonStdAtts : option evl_nonStdAtts
}.

(** The parser's globals and its mutex. *)
Record parser_state := mkParser {
  qParserMutex : bool;
  _evlQParseTree : pnode;
  _evlQNonStdAtts : option evl_nonStdAtts;
  _evlQueryErrmsg : str
}.
Definition parser_idle (p : parser_state) : Prop :=
  qParserMutex p = false /\ _evlQParseTree p = PNull /\ _evlQNonStdAtts p = None.

(** The text that [queryError] stores in [errBuf], when there is room. *)
Definition queryError (errString : str) (bufsz : option Z) (p : parser_state)
  : option str * parser_state :=
  (match bufsz with
   | Some bufsz =>
       if bufsz =? 0 then None
       else if strlen errString + 1 <=? bufsz then Some errString
       else Some (String.substring 0 (Z.to_nat (bufsz - 1)) errString)
   | None => None
   end, mkParser false PNull None (_evlQueryErrmsg p)).

Definition bad_purpose (purpose : Z) : bool :=
  (purpose =? 0) || negb (Z.land purpose (Z.lnot POSIX_LOG_PRPS_MASK) =? 0).
Definition template_conflict (purpose : Z) : bool :=
  negb (Z.land purpose EVL_PRPS_TEMPLATE =? 0) &&
  negb (Z.land purpose (Z.lor POSIX_LOG_PRPS_NOTIFY EVL_PRPS_RESTRICTED) =? 0).

Record create_result := mkCreate {
  cr_status : Z;
  cr_query : option posix_log_query_t;  (* [*query], when it is set *)
  cr_errbuf : option str;               (* [errbuf], when it is written *)
  cr_parser : parser_state
}.

(** [query]: is the pointer non-null?  [errbuf]: [errlen], or [None] for a null
    buffer. *)
Definition posix_log_query_create (query_string : option str) (purpose : Z) (query : bool)
  (errbuf : option Z) (p : parser_state) : option create_result :=
  let status := if bool_decide (query_string = None) || negb query then EINVAL else 0 in
  let status := if bad_purpose purpose then EINVAL else status in
  let status := if template_conflict purpose then ENOTSUP else status in
  match query_string with
  | Some qs =>
      if negb (status =? 0) then
        Some (mkCreate status None (match errbuf with
                                    | Some n => if n >? 0 then Some EmptyString else None
                                    | None => None
                                    end) p)
      else if qParserMutex p then Some (mkCreate EBUSY None None p)
      else
        let fail (msg : str) (tree : pnode) (ns : option evl_nonStdAtts) :=
          let '(e, p) := queryError msg errbuf (mkParser true tree ns msg) in
          Some (mkCreate EINVAL None e p) in
        match qqparse qs with
        | inl msg => fail msg PNull None
        | inr tree =>
            match _evlQNormalizeTree purpose tree None with
            | inl msg => fail msg tree None
            | inr (tree, ns) =>
                '(tree, ns) ← _evlQOptimizeTree tree ns;
                Some (mkCreate 0 (Some (mkQuery purpose (Some qs) tree ns)) None
                               (mkParser false PNull None EmptyString))
            end
        end
  | None =>
      Some (mkCreate status None (match errbuf with
                                  | Some n => if n >? 0 then Some EmptyString else None
                                  | None => None
                                  end) p)
  end.

Definition _evlValidateQuery (query : option posix_log_query_t) (nullOk : bool) : Z :=
  match query with
  | None => if nullOk then 0 else -1
  | Some q =>
      if match qu_tree q with PNull => true | _ => false end || bool_decide (qu_expr q = None) ||
         (qu_purpose q =? 0) || negb (Z.land (qu_purpose q) (Z.lnot POSIX_LOG_PRPS_MASK) =? 0)
      then -1 else 0
  end.

Definition _evlEvaluateQuery (query : posix_log_query_t) (entry : posix_log_entry) (buf : list Z)
  : option bool :=
  _evlQEvaluateTree (qu_tree query) (qu_nonStdAtts query) entry buf.

(** The status, [*reqlen], and what is stored in [qsbuf] and [*purpose]. *)
Definition posix_log_query_get (query : option posix_log_query_t) (qsbuf : option Z)
  : Z * option Z * option (str * Z) :=
  if _evlValidateQuery query false <? 0 then (EINVAL, None, None)
  else match query with
       | Some (mkQuery purpose (Some expr) _ _) =>
           let qelen := strlen expr + 1 in
           match qsbuf with
           | None => (EINVAL, Some qelen, None)
           | Some qslen => if qslen <? qelen then (EMSGSIZE, Some qelen, None)
                           else (0, Some qelen, Some (expr, purpose))
           end
       | _ => (EINVAL, None, None)
       end.

(** The members keep their (now dangling) pointers. *)
Definition posix_log_query_destroy (query : option posix_log_query_t)
  : Z * option posix_log_query_t :=
  if _evlValidateQuery query false <? 0 then (EINVAL, query)
  else (0, (fun q => mkQuery 0 (qu_expr q) (qu_tree q) (qu_nonStdAtts q)) <$> query).

(** [inl status], or [inr] the value of [*match]. *)
Definition posix_log_query_match (query : option posix_log_query_t)
  (entry : option posix_log_entry) (buf : option (list Z)) (match_ : bool) : option (Z + bool) :=
  match entry with
  | None => Some (inl EINVAL)
  | Some e =>
      if negb match_ then Some (inl EINVAL)
      else if ((log_size e =? 0) && bool_decide (is_Some buf)) ||
              (negb (log_size e =? 0) && bool_decide (buf = None)) then Some (inl EINVAL)
      else if _evlValidateQuery query false <? 0 then Some (inl EINVAL)
      else match query with
           | Some q => inr <$> _evlEvaluateQuery q e (default [] buf)
           | None => Some (inl EINVAL)
           end
  end.

(** ** Properties *)

(** What the generated parser promises: trees built by the grammar's actions. *)
Definition parser_ok : Prop := forall s t, qqparse s = inr t -> grammar_tree t = true.
Definition query_free_of_bare_hosts (qs : str) : Prop :=
  forall t, qqparse qs = inr t -> bare_host_free t = true.

Lemma create_inv qs purpose q errbuf p r :
  posix_log_query_create (Some qs) purpose q errbuf p = Some r -> cr_status r = 0 ->
  exists t nq ns q' ns', q = true /\ bad_purpose purpose = false /\ qqparse qs = inr t /\
    _evlQNormalizeTree purpose t None = inr (nq, ns) /\ _evlQOptimizeTree nq ns = Some (q', ns') /\
    r = mkCreate 0 (Some (mkQuery purpose (Some qs) q' ns')) None (mkParser false PNull None EmptyString).
Proof.
  unfold posix_log_query_create. cbv zeta. intros Hr Hs.
  destruct (template_conflict purpose), (bad_purpose purpose) eqn:Ep, q; cbn in Hr;
    try (by injection Hr as <-).
  destruct (qParserMutex p); [by injection Hr as <-|].
  destruct (qqparse qs) as [msg|t] eqn:Eq; [by cbn in Hr; injection Hr as <-|].
  destruct (_evlQNormalizeTree purpose t None) as [msg|[nq ns]] eqn:En; [by cbn in Hr; injection Hr as <-|].
  apply bind_Some in Hr as ([q' ns'] & Eo & [= <-]).
  by exists t, nq, ns, q', ns'.
Qed.

Lemma valid_query purpose qs t ns : bad_purpose purpose = false -> t <> PNull ->
  _evlValidateQuery (Some (mkQuery purpose (Some qs) t ns)) false = 0.
Proof.
  intros Hp Ht. unfold bad_purpose in Hp. apply orb_false_iff in Hp as [H1 H2]. cbn.
  rewrite H1, H2. by destruct t.
Qed.

Lemma created_valid qs purpose errbuf p r :
  parser_ok -> query_free_of_bare_hosts qs ->
  posix_log_query_create (Some qs) purpose true errbuf p = Some r -> cr_status r = 0 ->
  exists q, cr_query r = Some q /\ _evlValidateQuery (Some q) false = 0 /\
    qu_expr q = Some qs /\ qu_purpose q = purpose.
Proof.
  intros Hpar Hb Hr Hs. destruct (create_inv _ _ _ _ _ _ Hr Hs) as (t & nq & ns & q' & ns' & _ & Hp & Hq & Hn & Ho & ->).
  eexists. split; [done|]. split; [|done]. apply valid_query; [done|].
  eapply optimize_keeps; [done|]. eapply normalized_nonnull; eauto.
Qed.

(** C1: a query that was created matches a record exactly when the reference
    evaluation of its normalized tree, which always loads and populates the
    record's template, says so. *)
Theorem created_query_match qs purpose errbuf p r entry buf :
  parser_ok -> query_free_of_bare_hosts qs -> host_ok -> entry_ok entry ->
  templates_ok entry (default [] buf) -> (log_size entry = 0 <-> buf = None) ->
  posix_log_query_create (Some qs) purpose true errbuf p = Some r -> cr_status r = 0 ->
  exists q t nq ns b, cr_query r = Some q /\ qqparse qs = inr t /\
    _evlQNormalizeTree purpose t None = inr (nq, ns) /\
    reference nq ns entry (default [] buf) = Some b /\
    posix_log_query_match (Some q) (Some entry) buf true = Some (inr b).
Proof.
  intros Hpar Hb Hh He Ht Hsz Hr Hs.
  destruct (create_inv _ _ _ _ _ _ Hr Hs) as (t & nq & ns & q' & ns' & _ & Hp & Hq & Hn & Ho & ->).
  destruct (pipeline purpose t nq ns entry (default [] buf)) as (q1 & ns1 & b & H1 & H2 & H3); eauto.
  simplify_eq. eexists _, t, nq, ns, b. split_and!; [done..|].
  unfold posix_log_query_match. cbn [negb].
  assert ((log_size entry =? 0) && bool_decide (is_Some buf) ||
    negb (log_size entry =? 0) && bool_decide (buf = None) = false) as ->.
  { destruct buf as [d|]; cbn.
    - rewrite andb_false_r, orb_false_r, andb_true_r. apply Z.eqb_neq. intros Hz. by apply Hsz in Hz.
    - rewrite (proj2 (Z.eqb_eq _ 0)) by (by apply Hsz). done. }
  rewrite valid_query; [|done|eapply optimize_keeps; [done|]; eapply normalized_nonnull; eauto].
  cbn. unfold _evlEvaluateQuery. cbn. by rewrite H2.
Qed.

(** Creation never fails an assertion; every path leaves the parser's mutex
    and globals as it found them, or free and clear, and a message that is
    stored fits the caller's buffer with its terminator. *)
Theorem create_total qs purpose query errbuf p :
  parser_ok -> (forall s, qs = Some s -> query_free_of_bare_hosts s) ->
  (forall n, errbuf = Some n -> 0 <= n) ->
  exists r, posix_log_query_create qs purpose query errbuf p = Some r /\
    (parser_idle p -> parser_idle (cr_parser r)) /\
    (cr_status r = 0 <-> is_Some (cr_query r)) /\
    forall s, cr_errbuf r = Some s -> exists n, errbuf = Some n /\ strlen s < n.
Proof.
  intros Hpar Hb Hlen. unfold posix_log_query_create. cbv zeta.
  assert (forall (st : Z), st <> 0 -> exists r,
    Some (mkCreate st None (match errbuf with Some n => if n >? 0 then Some EmptyString else None | None => None end) p)
      = Some r /\ (parser_idle p -> parser_idle (cr_parser r)) /\ (cr_status r = 0 <-> is_Some (cr_query r)) /\
    forall s, cr_errbuf r = Some s -> exists n, errbuf = Some n /\ strlen s < n) as Hearly.
  { intros st Hst. eexists. split; [done|]. cbn. split_and!; [done|by split; [|intros [? ?]]|].
    intros s Hs. destruct errbuf as [n|]; [|done]. destruct (n >? 0) eqn:E; [|done]. simplify_eq.
    exists n. split; [done|]. unfold strlen. cbn. zb. }
  destruct qs as [qs|].
  2: { destruct (template_conflict purpose), (bad_purpose purpose); by apply Hearly. }
  destruct (template_conflict purpose), (bad_purpose purpose), query; cbn -[queryError]; try by apply Hearly.
  destruct (qParserMutex p) eqn:Em.
  { eexists. split; [done|]. cbn. split_and!; [done|by split; [|intros [? ?]]|done]. }
  assert (forall msg t ns, exists r,
    (let '(e, p) := queryError msg errbuf (mkParser true t ns msg) in Some (mkCreate EINVAL None e p)) = Some r /\
    (parser_idle p -> parser_idle (cr_parser r)) /\ (cr_status r = 0 <-> is_Some (cr_query r)) /\
    forall s, cr_errbuf r = Some s -> exists n, errbuf = Some n /\ strlen s < n) as Hfail.
  { intros msg t ns. eexists. split; [done|]. cbn. split_and!; [done|by split; [|intros [? ?]]|].
    intros s Hs. destruct errbuf as [n|]; [|done]. specialize (Hlen n eq_refl).
    destruct (n =? 0) eqn:E0; [done|]. exists n. split; [done|].
    destruct (_ <=? n) eqn:E1; simplify_eq; [zb|]. unfold strlen.
    pose proof (length_substring0 (Z.to_nat (n - 1)) msg). zb. }
  destruct (qqparse qs) as [msg|t] eqn:Eq; [apply Hfail|].
  destruct (_evlQNormalizeTree purpose t None) as [msg|[nq ns]] eqn:En; [apply Hfail|].
  destruct (optimize_total purpose t nq ns) as (q' & ns' & ->); [by eapply Hpar|by eapply Hb|done|].
  eexists. split; [done|]. cbn. split_and!; [done|by split|done].
Qed.

(** A created query gives back its text and purpose when the buffer is large
    enough, and the length that is needed in any case. *)
Theorem created_query_get qs purpose errbuf p r qsbuf :
  parser_ok -> query_free_of_bare_hosts qs ->
  posix_log_query_create (Some qs) purpose true errbuf p = Some r -> cr_status r = 0 ->
  exists q, cr_query r = Some q /\
    posix_log_query_get (Some q) qsbuf =
      match qsbuf with
      | None => (EINVAL, Some (strlen qs + 1), None)
      | Some n => if n <=? strlen qs then (EMSGSIZE, Some (strlen qs + 1), None)
                  else (0, Some (strlen qs + 1), Some (qs, purpose))
      end /\
    (posix_log_query_destroy (Some q)).1 = 0 /\
    (posix_log_query_destroy (posix_log_query_destroy (Some q)).2).1 = EINVAL.
Proof.
  intros Hpar Hb Hr Hs. destruct (created_valid _ _ _ _ _ Hpar Hb Hr Hs) as (q & Hq & Hv & He & Hp).
  exists q. split; [done|]. unfold posix_log_query_get, posix_log_query_destroy. rewrite Hv. cbn [Z.ltb Z.compare fst snd].
  destruct q as [pu ex tr ns]. cbn in He, Hp. subst. split_and!; [|done|].
  - destruct qsbuf as [n|]; [|done]. cbv zeta.
    destruct (n <? strlen qs + 1) eqn:E1, (n <=? strlen qs) eqn:E2; try done; zb.
  - cbn. by rewrite orb_true_r.
Qed.
End QueryApi.

(** The record's temperature is at least 30. *)
Lemma created_query_match_witness : exists b,
  @reference sample_machine sample_regex sample_templates
    (nt_op AND (nt_op OP_GT (nt_attname POSIX_LOG_ENTRY_SIZE "size") (nt_val 1 0))
               (nt_op GE (nt_nsaname 0 "temp") (nt_val 1 30)))
    (Some (mkNsas [mkNsa "temp" evlFuzzyMaybe EVLNSA_NUMERIC 0] evlFuzzyMaybe)) sample_entry [31; 0] = Some b /\ b = true.
Proof.
  set (c := @posix_log_query_create sample_machine sample_regex sample_parse (Some "size > 0 && temp >= 30"%string)
              EVL_PRPS_TEMPLATE true None (mkParser false PNull None "")).
  destruct (@created_query_match sample_machine sample_regex sample_templates sample_parse "size > 0 && temp >= 30"%string
    EVL_PRPS_TEMPLATE None (mkParser false PNull None "") (default (mkCreate 1 None None (mkParser false PNull None "")) c)
    sample_entry (Some [31; 0])) as (q & t & nq & ns & b & H1 & H2 & H3 & H4 & H5).
  - intros s t. unfold sample_parse. destruct (streqb s _); [|done]. by intros [= <-].
  - intros t. vm_compute. by intros [= <-].
  - apply sample_machine_ok.
  - apply sample_entry_ok.
  - apply sample_templates_ok.
  - done.
  - vm_compute. reflexivity.
  - vm_compute. reflexivity.
  - vm_compute in H2. injection H2 as <-. vm_compute in H3. injection H3 as <- <-. exists b.
    split; [exact H4|]. vm_compute in H4. congruence.
Defined.
Lemma create_total_witness : exists r,
  @posix_log_query_create sample_machine sample_regex sample_parse (Some "size >"%string)
    POSIX_LOG_PRPS_GENERAL true (Some 7) (mkParser false PNull None "") = Some r /\ cr_errbuf r = Some "syntax"%string.
Proof.
  destruct (@create_total sample_machine sample_regex sample_templates sample_parse (Some "size >"%string)
    POSIX_LOG_PRPS_GENERAL true (Some 7) (mkParser false PNull None "")) as (r & Hr & _).
  - intros s t. unfold sample_parse. destruct (streqb s _); [|done]. by intros [= <-].
  - intros s [= <-] t. vm_compute. done.
  - intros n [= <-]. lia.
  - exists r. split; [exact Hr|]. vm_compute in Hr. by injection Hr as <-.
Defined.
Lemma created_query_get_witness : exists q,
  @posix_log_query_get sample_regex (Some q) (Some 10) = (EMSGSIZE, Some 23, None).
Proof.
  set (c := @posix_log_query_create sample_machine sample_regex sample_parse (Some "size > 0 && temp >= 30"%string)
              EVL_PRPS_TEMPLATE true None (mkParser false PNull None "")).
  destruct (@created_query_get sample_machine sample_regex sample_parse "size > 0 && temp >= 30"%string
    EVL_PRPS_TEMPLATE None (mkParser false PNull None "") (default (mkCreate 1 None None (mkParser false PNull None "")) c)
    (Some 10)) as (q & _ & Hq & _).
  - intros s t. unfold sample_parse. destruct (streqb s _); [|done]. by intros [= <-].
  - intros t. vm_compute. by intros [= <-].
  - vm_compute. reflexivity.
  - vm_compute. reflexivity.
  - exists q. rewrite Hq. reflexivity.
Defined.
