(* ===== verification/Files.v ===== *)
(** * Regular files and log images

    An open regular file is its bytes and an offset; [read], [write], [lseek] and
    [ftruncate] as POSIX defines them.  A log image is a header and records, each
    followed by its length. *)
From S2P Require Import Prelude NvPairs LogRecord.

(** ** System calls *)

Record file := mkFile { f_bytes : list Z; f_pos : Z }.
Definition f_size (f : file) : Z := Z.of_nat (length (f_bytes f)).

(** [None] is -1: the offset would be negative. *)
Definition lseek_to (f : file) (p : Z) : option file :=
  if p <? 0 then None else Some (mkFile (f_bytes f) p).
Definition lseek_set (f : file) (off : Z) : option file := lseek_to f off.
Definition lseek_cur (f : file) (off : Z) : option file := lseek_to f (f_pos f + off).
Definition lseek_end (f : file) (off : Z) : option file := lseek_to f (f_size f + off).

(** The bytes read, fewer than [len] only at the end of the file. *)
Definition file_read (f : file) (len : Z) : list Z * file :=
  let got := take (Z.to_nat len) (drop (Z.to_nat (f_pos f)) (f_bytes f)) in
  (got, mkFile (f_bytes f) (f_pos f + Z.of_nat (length got))).
(** A gap before the offset reads as zeros. *)
Definition file_write (f : file) (data : list Z) : file :=
  let p := Z.to_nat (f_pos f) in
  mkFile (take p (f_bytes f) ++ replicate (p - length (f_bytes f)) 0 ++ data ++ drop (p + length data) (f_bytes f))
         (f_pos f + Z.of_nat (length data)).
Definition ftruncate (f : file) (len : Z) : file :=
  let n := Z.to_nat len in
  mkFile (take n (f_bytes f) ++ replicate (n - length (f_bytes f)) 0) (f_pos f).

(** A buffer whose first bytes are replaced. *)
Definition overwrite (buf data : list Z) : list Z := data ++ drop (length data) buf.

(** ** Records and images *)

Definition record : Type := posix_log_entry * list Z.

Definition rec_len (r : record) : Z := REC_HDR_SIZE + Z.of_nat (length (snd r)) + SIZESIZE.
Definition rec_image (r : record) : list Z :=
  entry_bytes (fst r) ++ snd r ++ le_encode 4 (REC_HDR_SIZE + Z.of_nat (length (snd r))).
Definition rec_ok (r : record) : Prop :=
  entry_ok (fst r) /\ log_size (fst r) = Z.of_nat (length (snd r)) /\
  Z.of_nat (length (snd r)) <= POSIX_LOG_ENTRY_MAXLEN.
Definition recs_image (rs : list record) : list Z := concat (rec_image <$> rs).
Definition log_image (h : log_header_t) (rs : list record) : list Z := header_bytes h ++ recs_image rs.
Fixpoint recs_len (rs : list record) : Z :=
  match rs with [] => 0 | r :: rs' => rec_len r + recs_len rs' end.
(** The offset of the [k]th record. *)
Definition offset (rs : list record) (k : nat) : Z := LOG_HDR_SIZE + recs_len (take k rs).

Lemma length_rec_image r : Z.of_nat (length (rec_image r)) = rec_len r.
Proof.
  unfold rec_image, rec_len, REC_HDR_SIZE, SIZESIZE. rewrite !length_app, length_entry_bytes, length_le_encode. lia.
Qed.
Lemma rec_len_pos r : 92 <= rec_len r.
Proof. unfold rec_len, REC_HDR_SIZE, SIZESIZE. lia. Qed.
Lemma recs_len_app a b : recs_len (a ++ b) = recs_len a + recs_len b.
Proof. induction a as [|r a IH]; cbn; [lia|]. rewrite IH. lia. Qed.
Lemma recs_len_nonneg rs : 0 <= recs_len rs.
Proof. induction rs as [|r rs IH]; cbn; [lia|]. pose proof (rec_len_pos r). lia. Qed.
Lemma length_recs_image rs : Z.of_nat (length (recs_image rs)) = recs_len rs.
Proof.
  unfold recs_image. induction rs as [|r rs IH]; [done|].
  rewrite fmap_cons. cbn [concat recs_len]. rewrite length_app, Nat2Z.inj_add, length_rec_image, IH. done.
Qed.
Lemma length_log_image h rs : Z.of_nat (length (log_image h rs)) = LOG_HDR_SIZE + recs_len rs.
Proof. unfold log_image. rewrite length_app, length_header_bytes, Nat2Z.inj_add, length_recs_image. done. Qed.
Lemma recs_image_app a b : recs_image (a ++ b) = recs_image a ++ recs_image b.
Proof. unfold recs_image. by rewrite fmap_app, concat_app. Qed.
Lemma offset_all rs : offset rs (length rs) = LOG_HDR_SIZE + recs_len rs.
Proof. unfold offset. by rewrite firstn_all. Qed.
Lemma offset_succ rs k r : rs !! k = Some r -> offset rs (S k) = offset rs k + rec_len r.
Proof. intros Hk. unfold offset. rewrite (take_S_r _ _ r) by done. rewrite recs_len_app. cbn. lia. Qed.
Lemma offset_nonneg rs k : LOG_HDR_SIZE <= offset rs k.
Proof. unfold offset. pose proof (recs_len_nonneg (take k rs)). lia. Qed.
Lemma offset_pos rs k r : rs !! k = Some r -> LOG_HDR_SIZE + 92 <= offset rs (S k).
Proof. intros Hk. rewrite (offset_succ _ _ _ Hk). pose proof (offset_nonneg rs k). pose proof (rec_len_pos r). lia. Qed.
Lemma offset_inj_lt rs j k : (j < k)%nat -> (k <= length rs)%nat -> offset rs j < offset rs k.
Proof.
  intros Hj. revert j Hj. induction k as [|k IH]; intros j Hj Hk; [lia|].
  destruct (lookup_lt_is_Some_2 rs k) as [r Hr]; [lia|]. rewrite (offset_succ _ _ _ Hr).
  pose proof (rec_len_pos r). destruct (decide (j = k)) as [->|]; [lia|]. specialize (IH j). lia.
Qed.

(** The image around the [k]th record. *)
Lemma image_at h rs k : log_image h rs = (header_bytes h ++ recs_image (take k rs)) ++ recs_image (drop k rs).
Proof. unfold log_image. rewrite <-app_assoc, <-recs_image_app, take_drop. done. Qed.
Lemma image_drop h rs k p : p = offset rs k -> drop (Z.to_nat p) (log_image h rs) = recs_image (drop k rs).
Proof.
  intros ->. rewrite (image_at h rs k). apply drop_app_length'.
  rewrite length_app, length_header_bytes. pose proof (length_recs_image (take k rs)). unfold offset, LOG_HDR_SIZE.
  pose proof (recs_len_nonneg (take k rs)). lia.
Qed.
Lemma drop_record (rs : list record) k r : rs !! k = Some r -> recs_image (drop k rs) = rec_image r ++ recs_image (drop (S k) rs).
Proof. intros Hk. rewrite (drop_S _ _ _ Hk). done. Qed.
Lemma image_drop_end h rs k p : p = offset rs k -> (k <= length rs)%nat ->
  exists pre, log_image h rs = pre ++ recs_image (drop k rs) /\ Z.of_nat (length pre) = p.
Proof.
  intros -> Hk. exists (header_bytes h ++ recs_image (take k rs)). split; [apply image_at|].
  rewrite length_app, length_header_bytes. pose proof (length_recs_image (take k rs)). unfold offset, LOG_HDR_SIZE. lia.
Qed.

(** Writing at the end. *)
Lemma write_end f data : f_pos f = f_size f ->
  file_write f data = mkFile (f_bytes f ++ data) (f_size (mkFile (f_bytes f ++ data) 0)).
Proof.
  intros Hp. unfold file_write, f_size in *. rewrite Hp, Nat2Z.id. cbn [f_bytes]. rewrite take_ge by done.
  rewrite Nat.sub_diag. rewrite drop_ge by lia. rewrite app_nil_r, length_app. cbn [replicate app].
  f_equal. lia.
Qed.
Lemma length_overwrite (b data : list Z) : (length data <= length b)%nat -> length (overwrite b data) = length b.
Proof. intros Hl. unfold overwrite. rewrite length_app, length_drop. lia. Qed.
