(* ===== verification/LogFile.v ===== *)
(** * Reading a log ([lib/posix2.c], [posix_log_open] .. [posix_log_seek] of [lib/posix1.c])

    Log descriptions, reading records, and searching for records that satisfy a
    query.  Device errors of [read] and [lseek] do not occur on the files of
    [Files]; [None] is a failed [assert]. *)
From S2P Require Import Prelude NvPairs LogRecord FacNames Hosts MemStr Query QEvaluate QSamples QueryApi Files.

(** ** Writing ([evlview -out]) *)

(** [writebuf] holds the entry, the data and the size; the size is an [int]. *)
Definition _evlFdWrite (f : file) (entry : posix_log_entry) (buf : list Z) : Z * file :=
  let wholeRecSize := s32 (u64 (REC_HDR_SIZE + log_size entry)) in
  let writebuf := entry_bytes entry ++ take (Z.to_nat (log_size entry)) buf ++ le_encode 4 wholeRecSize in
  (0, file_write f (take (Z.to_nat (wholeRecSize + SIZESIZE)) writebuf)).

Definition _evlWriteLogHeader (f : file) : Z * file :=
  (0, file_write f (header_bytes (mkLogHeader LOGFILE_MAGIC 0 0 0 0))).

(** ** Log descriptions *)

Definition LOGD_MAGIC : Z := 0xf00dface.
Record log_desc_t := mkLogDesc {
  ld_magic : Z;
  ld_file : file;          (* [ld_fd]; its first page is mapped at [ld_header] *)
  ld_generation : Z
}.
Definition ld_header (bytes : list Z) : log_header_t := header_of_bytes (bytes ++ replicate 40 0).
Definition isBusyLog (h : log_header_t) : bool := negb (Z.land (lh_generation h) 1 =? 0).

(** The file that [open] found, or [errno].  [None]: an empty file has no page to
    map, and reading its header is a bus error. *)
Definition _evlOpen (path : Z + list Z) : option (Z + log_desc_t) :=
  match path with
  | inl errno => Some (inl errno)
  | inr [] => None
  | inr bytes =>
      let h := ld_header bytes in
      if negb (lh_magic h =? LOGFILE_MAGIC) then Some (inl EINVAL)
      else if isBusyLog h then Some (inl EBUSY)
      else Some (inr (mkLogDesc LOGD_MAGIC (mkFile bytes LOG_HDR_SIZE) (lh_generation h)))
  end.

Definition _evlValidateLogdes (logd : option log_desc_t) (checkGeneration : bool) : Z :=
  match logd with
  | None => -1
  | Some d =>
      if negb (ld_magic d =? LOGD_MAGIC) then -1
      else if checkGeneration && negb (ld_generation d =? lh_generation (ld_header (f_bytes (ld_file d)))) then -1
      else 0
  end.

Definition POSIX_LOG_OPEN_MAX : Z := 100.
(** [nOpens] counts the open logs. *)
Definition posix_log_open (nOpens : Z) (path : Z + list Z) : option ((Z + log_desc_t) * Z) :=
  if nOpens >=? POSIX_LOG_OPEN_MAX then Some (inl EMFILE, nOpens)
  else r ← _evlOpen path;
       Some (match r with inl e => (inl e, nOpens) | inr d => (inr d, nOpens + 1) end).
Definition posix_log_close (nOpens : Z) (logd : option log_desc_t) : Z * Z :=
  if _evlValidateLogdes logd false <? 0 then (EBADF, nOpens) else (0, nOpens - 1).

(** ** Reading *)

Definition readBuf (f : file) (len : Z) : Z * list Z * file :=
  let '(got, f') := file_read f len in
  let nBytes := Z.of_nat (length got) in
  (if nBytes =? 0 then EAGAIN else if negb (nBytes =? len) then EIO else 0, got, f').

Record read_result := mkRead {
  rd_status : Z;
  rd_entry : option posix_log_entry;  (* [*entry], once it was read in full *)
  rd_buf : list Z;
  rd_file : file
}.
(** [buf] is the caller's buffer and [bufLen] its size; a null buffer has size 0. *)
Definition _evlRead (f : file) (buf : list Z) (bufLen : Z) : read_result :=
  let '(status, hdr, f) := readBuf f REC_HDR_SIZE in
  if negb (status =? 0) then mkRead status None buf f
  else
    let entry := entry_of_bytes hdr in
    let dataLen := log_size entry in
    if dataLen >? POSIX_LOG_ENTRY_MAXLEN then mkRead EIO (Some entry) buf f
    else
      let finish buf (f : file) :=
        match lseek_cur f SIZESIZE with
        | None => mkRead EIO (Some entry) buf f
        | Some f => mkRead 0 (Some entry) buf f
        end in
      if dataLen >? 0 then
        if bufLen >? 0 then
          let '(status, data, f) := readBuf f dataLen in
          if negb (status =? 0) then
            mkRead (if status =? EAGAIN then EIO else status) (Some entry)
                   (if bufLen >=? dataLen then overwrite buf data else buf) f
          else finish (overwrite buf (take (Z.to_nat bufLen) data)) f
        else match lseek_cur f dataLen with
             | None => mkRead EIO (Some entry) buf f
             | Some f => finish buf f
             end
      else finish buf f.

Definition posix_log_read (logd : option log_desc_t) (entry : bool) (buf : list Z) (bufLen : Z)
  : Z * option read_result :=
  if _evlValidateLogdes logd true <? 0 then (EBADF, None)
  else if negb entry then (EINVAL, None)
  else match logd with
       | None => (EBADF, None)
       | Some d => let r := _evlRead (ld_file d) buf bufLen in (rd_status r, Some r)
       end.

(** ** Seeking *)

Definition _evlRewind (f : file) : Z * file :=
  match lseek_set f LOG_HDR_SIZE with None => (EIO, f) | Some f => (0, f) end.
Definition _evlSeekEnd (f : file) : Z * file :=
  match lseek_end f 0 with None => (EIO, f) | Some f => (0, f) end.

Section Seek.
Context `{HL : HostLib} `{RL : RegexLib} `{TL : TemplateLib}.

(** [!query || _evlEvaluateQuery(query, entry, buf)] *)
Definition satisfies (query : option posix_log_query_t) (entry : posix_log_entry) (buf : list Z) : option bool :=
  match query with None => Some true | Some q => _evlEvaluateQuery q entry buf end.

Definition seek_back (f : file) (p : Z) (status : Z) : Z * file :=
  match lseek_set f p with None => (EIO, f) | Some f => (status, f) end.

(** One iteration; the state is the file and the automatic array [buf]. *)
Definition seek_fwd_step (query : option posix_log_query_t) (startPosition : Z) (s : file * list Z)
  : (file * list Z) + option (Z * file) :=
  let '(f, buf) := s in
  let curPosition := f_pos f in
  let r := _evlRead f buf POSIX_LOG_ENTRY_MAXLEN in
  if rd_status r =? EAGAIN then inr (Some (seek_back (rd_file r) startPosition ENOENT))
  else if negb (rd_status r =? 0) then inr (Some (EIO, rd_file r))
  else match rd_entry r with
       | None => inr None
       | Some entry =>
           match satisfies query entry (rd_buf r) with
           | None => inr None
           | Some true => inr (Some (seek_back (rd_file r) curPosition 0))
           | Some false => inl (rd_file r, rd_buf r)
           end
       end.
(** [buf] is uninitialized: [junk]. *)
Definition _evlSeekFwd (query : option posix_log_query_t) (junk : list Z) (f : file) : option (Z * file) :=
  match loop (seek_fwd_step query (f_pos f)) (Z.to_pos (f_size f + 6)) (f, junk) with
  | inr r => r
  | inl _ => None
  end.

(** The state is the file, [curPosition] and the array [wholeRec]. *)
Definition seek_bkwd_step (query : option posix_log_query_t) (startPosition : Z) (s : file * Z * list Z)
  : (file * Z * list Z) + option (Z * file) :=
  let '(f, curPosition, wholeRec) := s in
  if negb (curPosition >? REC_HDR_SIZE) then inr (Some (seek_back f startPosition ENOENT))
  else
    match lseek_cur f (- SIZESIZE) with
    | None => inr (Some (EIO, f))
    | Some f =>
        let '(status, sz, f) := readBuf f SIZESIZE in
        if negb (status =? 0) then inr (Some (EIO, f))
        else
          let wholeRecSize := s32 (le_decode sz) in
          if u64 wholeRecSize >? REC_HDR_SIZE + POSIX_LOG_ENTRY_MAXLEN then inr (Some (EINVAL, f))
          else
            match lseek_cur f (- (wholeRecSize + SIZESIZE)) with
            | None => inr (Some (EIO, f))
            | Some f =>
                let curPosition := f_pos f in
                let '(status, bytes, f) := readBuf f wholeRecSize in
                if negb (status =? 0) then inr (Some (EIO, f))
                else
                  match lseek_set f curPosition with
                  | None => inr (Some (EIO, f))
                  | Some f =>
                      let wholeRec := overwrite wholeRec bytes in
                      match satisfies query (entry_of_bytes wholeRec) (drop 88 wholeRec) with
                      | None => inr None
                      | Some true => inr (Some (0, f))
                      | Some false => inl (f, curPosition, wholeRec)
                      end
                  end
            end
    end.
Definition _evlSeekBkwd (query : option posix_log_query_t) (junk : list Z) (f : file) : option (Z * file) :=
  match loop (seek_bkwd_step query (f_pos f)) (Z.to_pos (f_pos f + 1)) (f, f_pos f, junk) with
  | inr r => r
  | inl _ => None
  end.

Definition POSIX_LOG_SEEK_START : Z := 1.
Definition POSIX_LOG_SEEK_END : Z := 2.
Definition POSIX_LOG_SEEK_FORWARD : Z := 3.
Definition POSIX_LOG_SEEK_BACKWARD : Z := 4.
Definition POSIX_LOG_SEEK_FIRST : Z := 5.
Definition POSIX_LOG_SEEK_LAST : Z := 6.

Definition posix_log_seek (logd : option log_desc_t) (query : option posix_log_query_t) (direction : Z)
  (junk : list Z) : option (Z * option file) :=
  match logd with
  | None => Some (EBADF, None)
  | Some d =>
      let f := ld_file d in
      let ret r := Some (fst r, Some (snd r)) in
      if _evlValidateLogdes logd true <? 0 then Some (EBADF, None)
      else if _evlValidateQuery query true <? 0 then Some (EINVAL, None)
      else if direction =? POSIX_LOG_SEEK_START then
        match query with Some _ => Some (EINVAL, None) | None => ret (_evlRewind f) end
      else if direction =? POSIX_LOG_SEEK_END then
        match query with Some _ => Some (EINVAL, None) | None => ret (_evlSeekEnd f) end
      else if direction =? POSIX_LOG_SEEK_FIRST then
        let '(status, f) := _evlRewind f in
        if status <? 0 then Some (status, Some f)
        else match query with
             | Some _ => r ← _evlSeekFwd query junk f; ret r
             | None => Some (0, Some f)
             end
      else if direction =? POSIX_LOG_SEEK_LAST then
        let '(status, f) := _evlSeekEnd f in
        if status <? 0 then Some (status, Some f)
        else r ← _evlSeekBkwd query junk f; ret r
      else if direction =? POSIX_LOG_SEEK_FORWARD then r ← _evlSeekFwd query junk f; ret r
      else if direction =? POSIX_LOG_SEEK_BACKWARD then r ← _evlSeekBkwd query junk f; ret r
      else Some (EINVAL, None)
  end.
End Seek.

(** ** Reading records of an image *)

Lemma readBuf_full bytes pos len a b : 0 <= pos -> 0 < len -> drop (Z.to_nat pos) bytes = a ++ b ->
  Z.of_nat (length a) = len -> readBuf (mkFile bytes pos) len = (0, a, mkFile bytes (pos + len)).
Proof.
  intros Hp Hl Hd Ha. unfold readBuf, file_read. cbn [f_bytes f_pos]. rewrite Hd.
  rewrite take_app_length' by lia. rewrite Ha. destruct (len =? 0) eqn:E; [zb|]. by rewrite Z.eqb_refl.
Qed.
Lemma readBuf_end bytes pos len : drop (Z.to_nat pos) bytes = [] ->
  readBuf (mkFile bytes pos) len = (EAGAIN, [], mkFile bytes pos).
Proof.
  intros Hd. unfold readBuf, file_read. cbn [f_bytes f_pos]. rewrite Hd, take_nil. cbn. by rewrite Z.add_0_r.
Qed.

Lemma drop_more (bytes a b : list Z) pos n : 0 <= pos -> drop (Z.to_nat pos) bytes = a ++ b ->
  Z.of_nat (length a) = n -> drop (Z.to_nat (pos + n)) bytes = b.
Proof. intros Hp Hd Hn. rewrite Z2Nat.inj_add by lia. rewrite <-drop_drop, Hd. apply drop_app_length'. lia. Qed.

Lemma overwrite_nil buf : overwrite buf [] = buf.
Proof. done. Qed.

(** One record is read in full, and the read pointer moves to the next. *)
Lemma read_record bytes pos r rest buf bufLen :
  0 <= pos -> drop (Z.to_nat pos) bytes = rec_image r ++ rest -> rec_ok r ->
  _evlRead (mkFile bytes pos) buf bufLen =
    mkRead 0 (Some (fst r)) (if bufLen >? 0 then overwrite buf (take (Z.to_nat bufLen) (snd r)) else buf)
           (mkFile bytes (pos + rec_len r)).
Proof.
  destruct r as [e d]. unfold rec_image, rec_ok, rec_len. cbn [fst snd]. rewrite <-!app_assoc.
  intros Hp Hd (He & Hsz & Hmax). unfold _evlRead.
  rewrite (readBuf_full bytes pos REC_HDR_SIZE (entry_bytes e) (d ++ le_encode 4 (REC_HDR_SIZE + Z.of_nat (length d)) ++ rest));
    [|done|done|done|by rewrite length_entry_bytes].
  cbn [negb Z.eqb]. cbv zeta. rewrite entry_roundtrip by done. rewrite Hsz.
  assert (drop (Z.to_nat (pos + REC_HDR_SIZE)) bytes = d ++ le_encode 4 (REC_HDR_SIZE + Z.of_nat (length d)) ++ rest) as Hd2.
  { eapply drop_more; [done|exact Hd|by rewrite length_entry_bytes]. }
  assert (forall b' p', 0 <= p' -> p' = pos + REC_HDR_SIZE + Z.of_nat (length d) ->
    match lseek_cur (mkFile bytes p') SIZESIZE with
    | None => mkRead EIO (Some e) b' (mkFile bytes p')
    | Some f => mkRead 0 (Some e) b' f
    end = mkRead 0 (Some e) b' (mkFile bytes (pos + (REC_HDR_SIZE + Z.of_nat (length d) + SIZESIZE)))) as Hfin.
  { intros b' p' Hp' ->. unfold lseek_cur, lseek_to. cbn [f_pos f_bytes]. unfold REC_HDR_SIZE, SIZESIZE in *.
    destruct (_ <? 0) eqn:E; [zb|]. do 2 f_equal. lia. }
  unfold POSIX_LOG_ENTRY_MAXLEN, REC_HDR_SIZE in *.
  destruct (_ >? 8192) eqn:E; [zb|]. destruct (Z.of_nat (length d) >? 0) eqn:E0.
  - destruct (bufLen >? 0) eqn:Eb.
    + rewrite (readBuf_full bytes (pos + 88) (Z.of_nat (length d)) d
        (le_encode 4 (88 + Z.of_nat (length d)) ++ rest)) by (done || lia || zb).
      cbn [negb Z.eqb]. apply Hfin; lia.
    + unfold lseek_cur at 1, lseek_to. cbn [f_pos f_bytes].
      destruct (_ <? 0) eqn:E2; [zb|]. apply Hfin; lia.
  - assert (d = []) as -> by (destruct d; [done|cbn in E0; zb]).
    rewrite take_nil, overwrite_nil. destruct (bufLen >? 0); apply Hfin; cbn; lia.
Qed.

Lemma read_end bytes pos buf bufLen : drop (Z.to_nat pos) bytes = [] ->
  _evlRead (mkFile bytes pos) buf bufLen = mkRead EAGAIN None buf (mkFile bytes pos).
Proof. intros Hd. unfold _evlRead. by rewrite readBuf_end. Qed.

(** ** Searching an image *)

Section SeekSpec.
Context `{HL : HostLib} `{RL : RegexLib} `{TL : TemplateLib}.
Variables (h : log_header_t) (rs : list record) (query : option posix_log_query_t) (P : record -> bool).

(** The query decides every record of the log by the record alone, not by what
    follows its data in the buffer. *)
Definition decides : Prop :=
  forall r stale, r ∈ rs -> satisfies query (fst r) (snd r ++ stale) = Some (P r).

Hypothesis Hrs : Forall rec_ok rs.
Hypothesis Hdec : decides.

Let at_ (k : nat) : file := mkFile (log_image h rs) (offset rs k).

Lemma rec_at k r : rs !! k = Some r -> rec_ok r /\ r ∈ rs.
Proof. intros Hk. apply list_elem_of_lookup_2 in Hk. split; [|done]. by eapply Forall_forall in Hrs. Qed.

Lemma read_at k r buf bufLen : rs !! k = Some r ->
  _evlRead (at_ k) buf bufLen =
    mkRead 0 (Some (fst r)) (if bufLen >? 0 then overwrite buf (take (Z.to_nat bufLen) (snd r)) else buf) (at_ (S k)).
Proof.
  intros Hk. destruct (rec_at k r Hk) as [Hr _]. unfold at_.
  rewrite (offset_succ _ _ _ Hk). apply (read_record _ _ _ (recs_image (drop (S k) rs))); [|by rewrite (image_drop _ _ k), (drop_record _ _ r)|done].
  pose proof (offset_nonneg rs k). unfold LOG_HDR_SIZE in *. lia.
Qed.
Lemma read_at_end buf bufLen : _evlRead (at_ (length rs)) buf bufLen = mkRead EAGAIN None buf (at_ (length rs)).
Proof. apply read_end. rewrite (image_drop _ _ (length rs)) by done. by rewrite drop_all. Qed.

(** The result of a search that ends at the record [k + i], or nowhere. *)
Definition found (p0 : Z) (where_ : option nat) : option (Z * file) :=
  match where_ with
  | Some j => Some (0, mkFile (log_image h rs) (offset rs j))
  | None => Some (ENOENT, mkFile (log_image h rs) p0)
  end.
Definition next_match (k : nat) : option nat :=
  (fun x => k + fst x)%nat <$> list_find (fun r => P r = true) (drop k rs).
Definition prev_match (k : nat) : option nat :=
  (fun x => k - 1 - fst x)%nat <$> list_find (fun r => P r = true) (reverse (take k rs)).

Lemma next_match_at k r : rs !! k = Some r -> next_match k = if P r then Some k else next_match (S k).
Proof.
  intros Er. unfold next_match. rewrite (drop_S _ _ _ Er). cbn [list_find].
  destruct (decide (P r = true)) as [Ht|Hf].
  - rewrite Ht. cbn. f_equal. lia.
  - apply not_true_is_false in Hf. rewrite Hf.
    destruct (list_find _ (drop (S k) rs)) as [[i x]|]; cbn; [|done]. f_equal. lia.
Qed.
Lemma prev_match_at k r : rs !! k = Some r -> prev_match (S k) = if P r then Some k else prev_match k.
Proof.
  intros Er. unfold prev_match. rewrite (take_S_r _ _ r) by done. rewrite reverse_snoc. cbn [list_find].
  destruct (decide (P r = true)) as [Ht|Hf].
  - rewrite Ht. cbn. f_equal. lia.
  - apply not_true_is_false in Hf. rewrite Hf.
    destruct (list_find _ (reverse (take k rs))) as [[i x]|]; cbn; [|done]. f_equal. lia.
Qed.

Lemma seek_back_ok f p status : 0 <= p -> seek_back f p status = (status, mkFile (f_bytes f) p).
Proof. intros Hp. unfold seek_back, lseek_set, lseek_to. destruct (p <? 0) eqn:E; [zb|done]. Qed.
Lemma offset_ge0 k : 0 <= offset rs k.
Proof. pose proof (offset_nonneg rs k). unfold LOG_HDR_SIZE in *. lia. Qed.

Lemma fwd_loop p0 n : 0 <= p0 -> forall k buf, (k <= length rs)%nat -> (length rs - k < n)%nat ->
  loop_nat (seek_fwd_step query p0) n (at_ k, buf) = inr (found p0 (next_match k)).
Proof.
  intros Hp0. induction n as [|n IH]; intros k buf Hk Hn; [lia|]. cbn [loop_nat]. unfold seek_fwd_step at 1.
  destruct (rs !! k) as [r|] eqn:Er.
  - pose proof (lookup_lt_Some _ _ _ Er). rewrite (read_at k r) by done. cbn [rd_status rd_entry rd_buf rd_file].
    destruct (rec_at k r Er) as [(_ & _ & Hmax) Hin]. cbn [Z.gtb Z.compare POSIX_LOG_ENTRY_MAXLEN].
    rewrite take_ge by (unfold POSIX_LOG_ENTRY_MAXLEN in *; lia).
    change (0 =? EAGAIN) with false. change (0 =? 0) with true. cbn [negb]. unfold overwrite.
    rewrite Hdec, (next_match_at k r) by done. destruct (P r).
    + change (f_pos (at_ k)) with (offset rs k). by rewrite seek_back_ok by apply offset_ge0.
    + apply IH; lia.
  - assert (k = length rs) as -> by (apply lookup_ge_None in Er; lia).
    rewrite read_at_end. cbn [rd_status rd_file]. rewrite Z.eqb_refl. unfold next_match.
    rewrite drop_all. cbn. by rewrite seek_back_ok.
Qed.

Lemma records_fit : Z.of_nat (length rs) <= recs_len rs.
Proof. clear. induction rs as [|r l IH]; cbn; [lia|]. pose proof (rec_len_pos r). lia. Qed.

Lemma seek_fwd_spec k junk : (k <= length rs)%nat ->
  _evlSeekFwd query junk (at_ k) = found (offset rs k) (next_match k).
Proof.
  intros Hk. unfold _evlSeekFwd. rewrite loop_loop_nat.
  rewrite fwd_loop; [done|apply (offset_ge0 k)|done|].
  change (f_size (at_ k)) with (Z.of_nat (length (log_image h rs))). rewrite length_log_image. pose proof records_fit. unfold LOG_HDR_SIZE. lia.
Qed.

Lemma size_field n : 0 <= n < 2 ^ 31 -> s32 (le_decode (le_encode 4 n)) = n.
Proof.
  intros Hn. rewrite le_decode_encode. change (256 ^ Z.of_nat 4) with (2 ^ 32).
  rewrite Z.mod_small by lia. apply signed_id; [lia|]. unfold in_signed. cbn. lia.
Qed.

Lemma bkwd_step p0 k r rec : rs !! k = Some r ->
  seek_bkwd_step query p0 (at_ (S k), offset rs (S k), rec) =
    if P r then inr (Some (0, at_ k))
    else inl (at_ k, offset rs k, overwrite rec (entry_bytes (fst r) ++ snd r)).
Proof.
  intros Er. destruct (rec_at k r Er) as [(He & Hsz & Hmax) Hin].
  pose proof (offset_pos _ _ _ Er) as Hpos. pose proof (offset_ge0 k) as Hk0.
  set (n := REC_HDR_SIZE + Z.of_nat (length (snd r))).
  assert (0 <= n < 2 ^ 31) as Hn by (unfold n, REC_HDR_SIZE, POSIX_LOG_ENTRY_MAXLEN in *; lia).
  assert (offset rs (S k) = offset rs k + n + 4) as Hoff.
  { rewrite (offset_succ _ _ _ Er). unfold rec_len, n, SIZESIZE. lia. }
  assert (drop (Z.to_nat (offset rs k)) (log_image h rs) =
    (entry_bytes (fst r) ++ snd r) ++ le_encode 4 n ++ recs_image (drop (S k) rs)) as Hd.
  { rewrite (image_drop _ _ k), (drop_record _ _ r) by done. unfold rec_image. by rewrite <-!app_assoc. }
  assert (Z.of_nat (length (entry_bytes (fst r) ++ snd r)) = n) as Hlen.
  { rewrite length_app, length_entry_bytes. unfold n, REC_HDR_SIZE. lia. }
  unfold seek_bkwd_step. unfold LOG_HDR_SIZE, REC_HDR_SIZE, SIZESIZE in *.
  destruct (negb (_ >? 88)) eqn:E1; [zb|]. unfold lseek_cur at 1, lseek_to. cbn [f_pos f_bytes at_].
  destruct (_ <? 0) eqn:E2; [zb|].
  rewrite (readBuf_full _ _ 4 (le_encode 4 n) (recs_image (drop (S k) rs)));
    [|zb|lia| |by rewrite length_le_encode].
  2: { replace (offset rs (S k) + - (4)) with (offset rs k + n) by lia. eapply drop_more; [exact Hk0|exact Hd|exact Hlen]. }
  cbn [negb Z.eqb]. rewrite size_field by done. rewrite unsigned_id by (unfold in_unsigned; lia).
  destruct (n >? 88 + POSIX_LOG_ENTRY_MAXLEN) eqn:E3; [unfold n in E3; zb|].
  unfold lseek_cur at 1, lseek_to. cbn [f_pos f_bytes].
  replace (offset rs (S k) + - (4) + 4 + - (n + 4)) with (offset rs k) by lia.
  assert ((offset rs k <? 0) = false) as E4 by (apply Z.ltb_ge; lia). rewrite E4. cbn [f_pos].
  rewrite (readBuf_full _ _ n (entry_bytes (fst r) ++ snd r) (le_encode 4 n ++ recs_image (drop (S k) rs)));
    [|done|unfold n; lia|done|done].
  cbn [negb Z.eqb]. unfold lseek_set, lseek_to. cbn [f_bytes]. rewrite E4. unfold overwrite at 1 2.
  rewrite <-!app_assoc. rewrite entry_of_bytes_app by (by rewrite length_entry_bytes). rewrite entry_roundtrip by done.
  rewrite drop_app_length' by (by rewrite length_entry_bytes). rewrite Hdec by done.
  destruct (P r); [done|]. unfold overwrite. by rewrite <-!app_assoc.
Qed.

Lemma bkwd_loop p0 n : 0 <= p0 -> forall k rec, (k <= length rs)%nat -> (k < n)%nat ->
  loop_nat (seek_bkwd_step query p0) n (at_ k, offset rs k, rec) = inr (found p0 (prev_match k)).
Proof.
  intros Hp0. induction n as [|n IH]; intros k rec Hk Hn; [lia|]. cbn [loop_nat].
  destruct k as [|k].
  - unfold seek_bkwd_step. change (offset rs 0) with 40. change (negb (40 >? REC_HDR_SIZE)) with true.
    cbv iota beta. by rewrite seek_back_ok.
  - destruct (lookup_lt_is_Some_2 rs k) as [r Er]; [lia|]. rewrite (bkwd_step p0 k r) by done.
    rewrite (prev_match_at k r) by done. destruct (P r); [done|]. apply IH; lia.
Qed.

Lemma seek_bkwd_spec k junk : (k <= length rs)%nat ->
  _evlSeekBkwd query junk (at_ k) = found (offset rs k) (prev_match k).
Proof.
  intros Hk. unfold _evlSeekBkwd. rewrite loop_loop_nat. cbn [f_pos at_].
  rewrite bkwd_loop; [done|apply offset_ge0|done|].
  assert (Z.of_nat k <= offset rs k); [|lia].
  clear -Hk. unfold offset, LOG_HDR_SIZE. assert (Z.of_nat (length (take k rs)) <= recs_len (take k rs)).
  { clear. induction (take k rs) as [|r l IH]; cbn; [lia|]. pose proof (rec_len_pos r). lia. }
  rewrite length_take, Nat.min_l in H by done. lia.
Qed.

(** *** The abstract log: records and a cursor *)

(** The status and the cursor after a seek from record [k]. *)
Definition seek_target (direction : Z) (k : nat) : Z * nat :=
  let search (from : nat) (w : option nat) := match w with Some j => (0, j) | None => (ENOENT, from) end in
  if direction =? POSIX_LOG_SEEK_START then (0, O)
  else if direction =? POSIX_LOG_SEEK_END then (0, length rs)
  else if direction =? POSIX_LOG_SEEK_FIRST then
    match query with None => (0, O) | Some _ => search O (next_match 0) end
  else if direction =? POSIX_LOG_SEEK_LAST then search (length rs) (prev_match (length rs))
  else if direction =? POSIX_LOG_SEEK_FORWARD then search k (next_match k)
  else search k (prev_match k).

Lemma header_of_image : header_ok h -> ld_header (log_image h rs) = h.
Proof.
  intros Hh. unfold ld_header, log_image. rewrite <-app_assoc.
  rewrite header_of_bytes_app by (by rewrite length_header_bytes). by apply header_roundtrip.
Qed.

Lemma valid_desc k : header_ok h ->
  _evlValidateLogdes (Some (mkLogDesc LOGD_MAGIC (at_ k) (lh_generation h))) true = 0.
Proof.
  intros Hh. unfold _evlValidateLogdes. cbn [ld_magic ld_generation ld_file].
  change (f_bytes (at_ k)) with (log_image h rs). rewrite header_of_image by done. by rewrite !Z.eqb_refl.
Qed.

Lemma found_target k w : found (offset rs k) w =
  let '(st, j) := match w with Some j => (0, j) | None => (ENOENT, k) end in Some (st, at_ j).
Proof. by destruct w. Qed.

Lemma seek_refinement direction k junk :
  header_ok h -> (k <= length rs)%nat -> _evlValidateQuery query true = 0 ->
  1 <= direction <= 6 -> (direction <= 2 -> query = None) ->
  posix_log_seek (Some (mkLogDesc LOGD_MAGIC (at_ k) (lh_generation h))) query direction junk =
    let '(st, j) := seek_target direction k in Some (st, Some (at_ j)).
Proof.
  intros Hh Hk Hq Hdir Hnone. unfold posix_log_seek, seek_target. cbn [ld_file]. rewrite valid_desc, Hq by done.
  cbn [Z.ltb Z.compare].
  assert (_evlRewind (at_ k) = (0, at_ 0)) as Hrew by done.
  assert (_evlSeekEnd (at_ k) = (0, at_ (length rs))) as Hend.
  { unfold _evlSeekEnd, lseek_end, lseek_to, f_size. cbn [at_ f_bytes]. rewrite length_log_image, Z.add_0_r, <-offset_all.
    pose proof (offset_ge0 (length rs)). destruct (_ <? 0) eqn:E; [zb|done]. }
  rewrite Hrew, Hend.
  destruct (direction =? POSIX_LOG_SEEK_START) eqn:E1.
  { rewrite Hnone; [done|]. unfold POSIX_LOG_SEEK_START in E1. zb. }
  destruct (direction =? POSIX_LOG_SEEK_END) eqn:E2.
  { rewrite Hnone; [done|]. unfold POSIX_LOG_SEEK_END in E2. zb. }
  destruct (direction =? POSIX_LOG_SEEK_FIRST) eqn:E3.
  { cbn [Z.ltb Z.compare]. destruct query as [q|] eqn:Eq; [|done]. rewrite <-Eq.
    rewrite seek_fwd_spec by lia. rewrite found_target. by destruct (next_match 0). }
  destruct (direction =? POSIX_LOG_SEEK_LAST) eqn:E4.
  { cbn [Z.ltb Z.compare]. rewrite seek_bkwd_spec by lia. rewrite found_target. by destruct (prev_match _). }
  destruct (direction =? POSIX_LOG_SEEK_FORWARD) eqn:E5.
  { rewrite seek_fwd_spec by lia. rewrite found_target. by destruct (next_match k). }
  assert (direction = 4) as ->.
  { unfold POSIX_LOG_SEEK_START, POSIX_LOG_SEEK_END, POSIX_LOG_SEEK_FIRST, POSIX_LOG_SEEK_LAST, POSIX_LOG_SEEK_FORWARD in *. zb. }
  cbn [Z.eqb Pos.eqb POSIX_LOG_SEEK_BACKWARD]. rewrite seek_bkwd_spec by lia. rewrite found_target. by destruct (prev_match k).
Qed.
End SeekSpec.

(** ** Writing a log and reading it back *)

(** What [evlview -out] does: a header, then each record. *)
Definition write_log (f : file) (rs : list record) : file :=
  fold_left (fun f r => snd (_evlFdWrite f (fst r) (snd r))) rs (snd (_evlWriteLogHeader f)).

Lemma fdwrite_image f r : rec_ok r -> f_pos f = f_size f ->
  _evlFdWrite f (fst r) (snd r) = (0, mkFile (f_bytes f ++ rec_image r) (f_size (mkFile (f_bytes f ++ rec_image r) 0))).
Proof.
  intros (He & Hsz & Hmax) Hp. unfold _evlFdWrite. rewrite Hsz.
  assert (s32 (u64 (REC_HDR_SIZE + Z.of_nat (length (snd r)))) = REC_HDR_SIZE + Z.of_nat (length (snd r))) as ->.
  { unfold POSIX_LOG_ENTRY_MAXLEN, REC_HDR_SIZE in *. rewrite unsigned_id by (unfold in_unsigned; lia).
    apply signed_id; [lia|]. unfold in_signed. cbn. lia. }
  cbv zeta. rewrite Nat2Z.id, firstn_all. fold (rec_image r).
  rewrite take_ge by (pose proof (length_rec_image r); unfold rec_len in *; lia).
  by rewrite write_end.
Qed.

Lemma write_log_image rs : Forall rec_ok rs ->
  exists p, write_log (mkFile [] 0) rs = mkFile (log_image (mkLogHeader LOGFILE_MAGIC 0 0 0 0) rs) p.
Proof.
  intros Hrs. unfold write_log, _evlWriteLogHeader. cbn [snd]. rewrite write_end by done. cbn [f_bytes app].
  unfold log_image. set (hd := header_bytes _). clearbody hd.
  assert (forall bs, exists p, fold_left (fun f r => snd (_evlFdWrite f (fst r) (snd r))) rs
    (mkFile bs (f_size (mkFile bs 0))) = mkFile (bs ++ recs_image rs) p) as H; [|apply H].
  induction Hrs as [|r rs Hr _ IH]; intros bs.
  - cbn. rewrite app_nil_r. eauto.
  - cbn [fold_left]. rewrite fdwrite_image by done. cbn [snd f_bytes].
    destruct (IH (bs ++ rec_image r)) as [p Hp]. exists p. rewrite Hp. f_equal.
    rewrite <-app_assoc. done.
Qed.

(** A reader with a buffer of the maximal size: the records up to the first
    status that is not 0. *)
Fixpoint read_all (n : nat) (d : log_desc_t) : list record * Z :=
  match n with
  | O => ([], 0)
  | S n' =>
      match posix_log_read (Some d) true [] POSIX_LOG_ENTRY_MAXLEN with
      | (st, Some (mkRead 0 (Some e) buf f)) =>
          let '(rs, st) := read_all n' (mkLogDesc (ld_magic d) f (ld_generation d)) in
          ((e, take (Z.to_nat (log_size e)) buf) :: rs, st)
      | (st, _) => ([], st)
      end
  end.

Lemma read_all_image h rs : header_ok h -> Forall rec_ok rs ->
  forall n k, (k + n = S (length rs))%nat ->
  read_all n (mkLogDesc LOGD_MAGIC (mkFile (log_image h rs) (offset rs k)) (lh_generation h)) =
    (drop k rs, if (n =? 0)%nat then 0 else EAGAIN).
Proof.
  intros Hh Hrs. induction n as [|n IH]; intros k Hk.
  - rewrite drop_ge by lia. done.
  - cbn [read_all]. unfold posix_log_read. rewrite valid_desc by done. cbn [Z.ltb Z.compare negb ld_file].
    destruct (rs !! k) as [r|] eqn:Er.
    + rewrite (read_at h rs Hrs k r) by done. cbn [rd_status Z.gtb Z.compare POSIX_LOG_ENTRY_MAXLEN ld_magic ld_generation].
      rewrite IH by lia. rewrite (drop_S _ _ _ Er). destruct (rec_at rs Hrs k r Er) as [(_ & Hsz & Hmax) _].
      rewrite (take_ge (snd r)) by (unfold POSIX_LOG_ENTRY_MAXLEN in *; lia).
      unfold overwrite. rewrite drop_nil, app_nil_r, Hsz, Nat2Z.id, firstn_all. destruct r as [e dd]. cbn [fst snd].
      destruct n; [|done]. apply lookup_lt_Some in Er. lia.
    + assert (k = length rs) as -> by (apply lookup_ge_None in Er; lia).
      rewrite (read_at_end h rs). cbn [rd_status]. by rewrite drop_all.
Qed.

(** ** Any file, however corrupt *)

Lemma readBuf_cases bytes pos len st got f : 0 <= pos -> 0 <= len ->
  readBuf (mkFile bytes pos) len = (st, got, f) ->
  f_bytes f = bytes /\ (st = EAGAIN \/ st = EIO \/
    st = 0 /\ f_pos f = pos + len /\ 0 < len /\ pos + len <= Z.of_nat (length bytes) /\ Z.of_nat (length got) = len).
Proof.
  intros Hp Hl. unfold readBuf, file_read. cbn [f_bytes f_pos]. intros [= <- <- <-]. cbn [f_bytes f_pos]. split; [done|].
  rewrite length_take, length_drop. destruct (_ =? 0) eqn:E; [by left|]. destruct (negb _) eqn:E2; [by right; left|].
  right; right. bprop. lia.
Qed.

Lemma read_progress f buf len : 0 <= f_pos f -> let r := _evlRead f buf len in
  f_bytes (rd_file r) = f_bytes f /\
  (rd_status r = EAGAIN \/ rd_status r = EIO \/
   rd_status r = 0 /\ is_Some (rd_entry r) /\ f_pos f + 92 <= f_pos (rd_file r) /\ f_pos f + 88 <= f_size f).
Proof.
  destruct f as [bytes pos]. cbn [f_pos f_bytes]. intros Hp. unfold _evlRead.
  destruct (readBuf (mkFile bytes pos) REC_HDR_SIZE) as [[st hdr] f1] eqn:E1.
  apply readBuf_cases in E1 as [Hb1 H1]; [|done|done].
  destruct (negb (st =? 0)) eqn:Es; [cbn; bprop; naive_solver|]. bprop. subst st.
  destruct H1 as [?|[?|(_ & Hp1 & _ & Hle & _)]]; [done..|].
  cbv zeta. set (e := entry_of_bytes hdr). destruct (_ >? _); [cbn; auto|].
  assert (forall b (f : file), f_bytes f = bytes -> pos + 88 <= f_pos f ->
    let r := match lseek_cur f SIZESIZE with None => mkRead EIO (Some e) b f | Some f => mkRead 0 (Some e) b f end in
    f_bytes (rd_file r) = bytes /\ (rd_status r = EAGAIN \/ rd_status r = EIO \/
      rd_status r = 0 /\ is_Some (rd_entry r) /\ pos + 92 <= f_pos (rd_file r) /\ pos + 88 <= Z.of_nat (length bytes))) as Hfin.
  { intros b f Hb Hf. unfold lseek_cur, lseek_to, SIZESIZE. destruct (_ <? 0) eqn:E; cbn; [zb|].
    split; [done|]. right; right. split_and!; [done|by eexists|lia|]. unfold REC_HDR_SIZE in Hle. lia. }
  unfold REC_HDR_SIZE in *. destruct (log_size e >? 0) eqn:E0; [|apply Hfin; [done|lia]].
  destruct (len >? 0).
  - destruct f1 as [b1 p1]. cbn [f_bytes f_pos] in *. subst b1 p1.
    destruct (readBuf (mkFile bytes (pos + 88)) (log_size e)) as [[st d] f2] eqn:E2.
    apply readBuf_cases in E2 as [Hb2 H2]; [|lia|zb].
    destruct (negb (st =? 0)) eqn:Es; cbn [rd_status rd_file].
    + split; [done|]. destruct H2 as [->|[->|(-> & _)]]; [by right; left..|done].
    + bprop. subst st. destruct H2 as [?|[?|(_ & Hp2 & _)]]; [done..|]. apply Hfin; [done|lia].
  - assert (lseek_cur f1 (log_size e) = Some (mkFile bytes (pos + 88 + log_size e))) as ->.
    { unfold lseek_cur, lseek_to. rewrite Hb1, Hp1. destruct (_ <? 0) eqn:E; [zb|done]. }
    apply Hfin; cbn [f_bytes f_pos]; [done|zb].
Qed.

Section Total.
Context `{HL : HostLib} `{RL : RegexLib} `{TL : TemplateLib}.
Variable query : option posix_log_query_t.
Definition never_aborts : Prop := forall e b, is_Some (satisfies query e b).
Hypothesis Hq : never_aborts.

Definition seek_outcome (bytes : list Z) (r : option (Z * file)) : Prop :=
  exists st f, r = Some (st, f) /\ f_bytes f = bytes /\ (st = 0 \/ st = ENOENT \/ st = EIO \/ st = EINVAL).

Lemma seek_back_outcome bytes f p st : f_bytes f = bytes -> (st = 0 \/ st = ENOENT) ->
  seek_outcome bytes (Some (seek_back f p st)).
Proof.
  intros Hf Hst. unfold seek_outcome, seek_back, lseek_set, lseek_to.
  destruct (p <? 0); eexists _, _; split_and!; try done; tauto.
Qed.

Lemma seek_fwd_total junk f : 0 <= f_pos f -> seek_outcome (f_bytes f) (_evlSeekFwd query junk f).
Proof.
  intros Hp. unfold _evlSeekFwd. set (bytes := f_bytes f).
  destruct (loop_rule (seek_fwd_step query (f_pos f))
    (fun s => f_bytes (fst s) = bytes /\ 0 <= f_pos (fst s))
    (fun s => Z.max 0 (f_size f + 5 - f_pos (fst s))) (seek_outcome bytes) (Z.to_pos (f_size f + 6)) (f, junk))
    as (r & -> & Hr); [|done| |done].
  2: { cbn. unfold f_size. lia. }
  intros [g buf] [Hb Hg]. cbn [fst] in *. split; [lia|]. unfold seek_fwd_step.
  pose proof (read_progress g buf POSIX_LOG_ENTRY_MAXLEN Hg) as Hr. cbv zeta in Hr.
  set (r := _evlRead g buf POSIX_LOG_ENTRY_MAXLEN) in *. destruct Hr as [Hrb Hst].
  destruct (rd_status r =? EAGAIN) eqn:E1; [apply seek_back_outcome; [congruence|by right]|].
  destruct (negb (rd_status r =? 0)) eqn:E2.
  { eexists _, _. split_and!; [done|congruence|tauto]. }
  bprop. destruct Hst as [?|[Hs|(_ & [e ->] & Hpos & Hle)]]; [done|by rewrite Hs in E2|].
  destruct (Hq e (rd_buf r)) as [b ->]. destruct b; [apply seek_back_outcome; [congruence|by left]|].
  cbn [fst]. unfold f_size in *. rewrite Hb in Hle. split_and!; [congruence|lia|]. unfold bytes in *. lia.
Qed.

Lemma seek_bkwd_total junk f : 0 <= f_pos f -> seek_outcome (f_bytes f) (_evlSeekBkwd query junk f).
Proof.
  intros Hp. unfold _evlSeekBkwd. set (bytes := f_bytes f).
  destruct (loop_rule (seek_bkwd_step query (f_pos f))
    (fun s => f_bytes (fst (fst s)) = bytes /\ 0 <= snd (fst s) /\ f_pos (fst (fst s)) = snd (fst s))
    (fun s => snd (fst s)) (seek_outcome bytes) (Z.to_pos (f_pos f + 1)) (f, f_pos f, junk))
    as (r & -> & Hr); [|done|cbn; lia|done].
  intros [[g cur] rec] (Hb & Hc & Hg). cbn [fst snd] in *. split; [lia|]. unfold seek_bkwd_step.
  assert (forall (g : file) st, f_bytes g = bytes -> (st = EIO \/ st = EINVAL) -> seek_outcome bytes (Some (st, g))) as Hfail.
  { intros g' st Hg' Hst. eexists _, _. split_and!; [done|done|tauto]. }
  destruct (negb _) eqn:E0; [apply seek_back_outcome; [done|by right]|].
  unfold lseek_cur at 1, lseek_to. destruct (_ <? 0) eqn:E1; [apply Hfail; auto|].
  destruct (readBuf _ SIZESIZE) as [[st sz] g1] eqn:R1. rewrite Hb in R1.
  apply readBuf_cases in R1 as [Hb1 H1]; [|zb|done].
  destruct (negb (st =? 0)) eqn:E2; [apply Hfail; auto|]. bprop. subst st.
  destruct H1 as [?|[?|(_ & Hp1 & _ & _ & _)]]; [done..|].
  set (w := s32 (le_decode sz)). destruct (u64 w >? _) eqn:E3; [apply Hfail; auto|].
  assert (0 <= w) as Hw.
  { pose proof (signed_range 32 (le_decode sz) ltac:(lia)) as Hr. fold w in Hr. unfold in_signed in Hr.
    destruct (decide (0 <= w)); [done|]. unfold unsigned, REC_HDR_SIZE, POSIX_LOG_ENTRY_MAXLEN in E3. cbn in Hr.
    rewrite <-(Z_mod_plus_full w 1), Z.mod_small in E3 by lia. zb. }
  unfold lseek_cur at 1, lseek_to. destruct (_ <? 0) eqn:E4; [apply Hfail; auto|]. cbn [f_pos].
  destruct (readBuf _ w) as [[st bs] g2] eqn:R2. rewrite Hb1 in R2.
  apply readBuf_cases in R2 as [Hb2 H2]; [|zb|done].
  destruct (negb (st =? 0)) eqn:E5; [apply Hfail; auto|].
  unfold lseek_set, lseek_to. rewrite E4.
  match goal with |- context [satisfies query ?e ?b] => destruct (Hq e b) as [v ->] end.
  destruct v; [eexists _, _; split_and!; [done|done|by left]|].
  cbn [fst snd f_bytes f_pos]. unfold SIZESIZE in *. split_and!; [done|zb|done|lia].
Qed.
End Total.

(** ** Properties *)

Lemma busy_odd h : isBusyLog h = Z.odd (lh_generation h).
Proof.
  unfold isBusyLog. change 1 with (Z.ones 1). rewrite Z.land_ones by lia. change (2 ^ 1) with 2.
  rewrite Zmod_odd. by destruct (Z.odd _).
Qed.

(** C3: seeking in a log of well-formed records implements the abstract log, a list
    of records with a cursor: it finds the nearest record that the query selects in
    the given direction, and otherwise reports ENOENT with the cursor where the
    search began. *)
Theorem seek_refines_abstract `{HostLib} `{RegexLib} `{TemplateLib} h rs query P direction k junk :
  Forall rec_ok rs -> decides rs query P -> header_ok h -> (k <= length rs)%nat ->
  _evlValidateQuery query true = 0 -> 1 <= direction <= 6 -> (direction <= 2 -> query = None) ->
  posix_log_seek (Some (mkLogDesc LOGD_MAGIC (mkFile (log_image h rs) (offset rs k)) (lh_generation h)))
                 query direction junk =
    let '(st, j) := seek_target rs query P direction k in
    Some (st, Some (mkFile (log_image h rs) (offset rs j))).
Proof. intros. by apply seek_refinement. Qed.

(** A search ends on every file, however corrupt, with one of four statuses, and
    changes nothing but the read pointer. *)
Theorem seek_terminates `{HostLib} `{RegexLib} `{TemplateLib} query junk f :
  never_aborts query -> 0 <= f_pos f ->
  seek_outcome (f_bytes f) (_evlSeekFwd query junk f) /\ seek_outcome (f_bytes f) (_evlSeekBkwd query junk f).
Proof. intros. split; [by apply seek_fwd_total|by apply seek_bkwd_total]. Qed.

(** Opening a log that holds records. *)
Lemma open_image h rs n : header_ok h -> lh_magic h = LOGFILE_MAGIC -> n < POSIX_LOG_OPEN_MAX ->
  posix_log_open n (inr (log_image h rs)) =
    Some (if Z.odd (lh_generation h) then (inl EBUSY, n)
          else (inr (mkLogDesc LOGD_MAGIC (mkFile (log_image h rs) LOG_HDR_SIZE) (lh_generation h)), n + 1)).
Proof.
  intros Hh Hm Hn. unfold posix_log_open. destruct (n >=? POSIX_LOG_OPEN_MAX) eqn:E; [zb|]. unfold _evlOpen.
  destruct (log_image h rs) as [|b l] eqn:El.
  { pose proof (length_log_image h rs) as Hl. rewrite El in Hl. pose proof (recs_len_nonneg rs). unfold LOG_HDR_SIZE in Hl. cbn in Hl. lia. }
  rewrite <-El. rewrite header_of_image by done. rewrite Hm, busy_odd. cbn [negb Z.eqb Pos.eqb LOGFILE_MAGIC].
  by destruct (Z.odd _).
Qed.

(** C39: a log written record by record, opened and read back gives the same records
    in the same order, and then EAGAIN. *)
Theorem written_log_reads_back rs n : Forall rec_ok rs -> n < POSIX_LOG_OPEN_MAX ->
  exists d, posix_log_open n (inr (f_bytes (write_log (mkFile [] 0) rs))) = Some (inr d, n + 1) /\
    read_all (S (length rs)) d = (rs, EAGAIN).
Proof.
  intros Hrs Hn. destruct (write_log_image rs Hrs) as [p ->]. cbn [f_bytes].
  set (h := mkLogHeader LOGFILE_MAGIC 0 0 0 0).
  assert (header_ok h) as Hh by (unfold h, header_ok, in_signed, in_unsigned, LOGFILE_MAGIC; cbn; lia).
  exists (mkLogDesc LOGD_MAGIC (mkFile (log_image h rs) LOG_HDR_SIZE) 0). split; [by rewrite open_image|].
  apply (read_all_image h rs Hh Hrs (S (length rs)) 0). lia.
Qed.

(** A log that is open for maintenance (odd generation) cannot be opened, and a
    description whose log has changed generation since is refused by every read
    and seek. *)
Theorem generation_guards `{HostLib} `{RegexLib} `{TemplateLib} h rs n d query direction junk buf len :
  header_ok h -> lh_magic h = LOGFILE_MAGIC -> n < POSIX_LOG_OPEN_MAX ->
  posix_log_open n (inr (log_image h rs)) =
    Some (if Z.odd (lh_generation h) then (inl EBUSY, n)
          else (inr (mkLogDesc LOGD_MAGIC (mkFile (log_image h rs) LOG_HDR_SIZE) (lh_generation h)), n + 1)) /\
  (f_bytes (ld_file d) = log_image h rs -> ld_generation d <> lh_generation h ->
   posix_log_read (Some d) true buf len = (EBADF, None) /\
   posix_log_seek (Some d) query direction junk = Some (EBADF, None)).
Proof.
  intros Hh Hm Hn. split.
  - by apply open_image.
  - intros Hb Hg.
    assert (_evlValidateLogdes (Some d) true = -1) as Hv.
    { unfold _evlValidateLogdes. rewrite Hb, header_of_image by done. destruct (negb (_ =? LOGD_MAGIC)); [done|].
      by rewrite (proj2 (Z.eqb_neq _ _) Hg). }
    unfold posix_log_read, posix_log_seek. by rewrite Hv.
Qed.

(** *** Instances *)

Definition sample_recs : list record :=
  [ (mkEntry LOGREC_MAGIC 1 0 0 3 0 6 0 0 1 1 50 0 0 0 0, []);
    (mkEntry LOGREC_MAGIC 3 2 2 9 500 3 0 0 1 1 60 0 0 0 0, [104; 0]);
    (mkEntry LOGREC_MAGIC 5 0 0 4 0 6 0 0 1 1 70 0 0 0 0, []) ].
Definition sample_header : log_header_t := mkLogHeader LOGFILE_MAGIC 0 5 0 4.
(** size > 0 *)
Definition size_query : option (@posix_log_query_t sample_regex) :=
  Some (mkQuery 2 (Some "size > 0"%string) (nt_op OP_GT (nt_attname POSIX_LOG_ENTRY_SIZE "size") (nt_val 1 0)) None).

Lemma sample_recs_ok : Forall rec_ok sample_recs.
Proof.
  unfold sample_recs, rec_ok, entry_ok, in_unsigned, in_signed, POSIX_LOG_ENTRY_MAXLEN, LOGREC_MAGIC.
  repeat constructor; cbn; lia.
Qed.
Lemma sample_header_ok : header_ok sample_header.
Proof. unfold header_ok, in_signed, in_unsigned, sample_header, LOGFILE_MAGIC. cbn. lia. Qed.

Lemma seek_refines_abstract_witness : exists f,
  @posix_log_seek sample_machine sample_regex sample_templates
    (Some (mkLogDesc LOGD_MAGIC (mkFile (log_image sample_header sample_recs) (offset sample_recs 3)) 4))
    size_query POSIX_LOG_SEEK_BACKWARD [] = Some (0, Some f) /\ f_pos f = 132.
Proof.
  pose proof (@seek_refines_abstract sample_machine sample_regex sample_templates sample_header sample_recs size_query
    (fun r => 0 <? log_size (fst r)) POSIX_LOG_SEEK_BACKWARD 3 []) as Hs.
  eexists. split.
  - etransitivity; [apply Hs|vm_compute; reflexivity]; [apply sample_recs_ok| |apply sample_header_ok|cbn; lia|reflexivity|unfold POSIX_LOG_SEEK_BACKWARD; lia|done].
    intros r stale _. cbn. by rewrite Z.gtb_ltb.
  - reflexivity.
Defined.
Lemma seek_terminates_witness :
  @seek_outcome [1; 2; 3] (@_evlSeekFwd sample_machine sample_regex sample_templates None [] (mkFile [1; 2; 3] 0)) /\
  @seek_outcome [1; 2; 3] (@_evlSeekBkwd sample_machine sample_regex sample_templates None [] (mkFile [1; 2; 3] 0)).
Proof.
  apply (@seek_terminates sample_machine sample_regex sample_templates None [] (mkFile [1; 2; 3] 0)); [|cbn; lia].
  intros e b. by eexists.
Defined.
Lemma written_log_reads_back_witness : exists d, read_all 4 d = (sample_recs, EAGAIN).
Proof.
  destruct (written_log_reads_back sample_recs 0) as (d & _ & Hd); [apply sample_recs_ok|done|]. by exists d.
Defined.
Lemma generation_guards_witness :
  posix_log_open 7 (inr (log_image (mkLogHeader LOGFILE_MAGIC 0 5 0 3) sample_recs)) = Some (inl EBUSY, 7) /\
  posix_log_read (Some (mkLogDesc LOGD_MAGIC (mkFile (log_image (mkLogHeader LOGFILE_MAGIC 0 5 0 3) sample_recs) 40) 2))
    true [] 0 = (EBADF, None).
Proof.
  destruct (@generation_guards sample_machine sample_regex sample_templates (mkLogHeader LOGFILE_MAGIC 0 5 0 3) sample_recs 7
    (mkLogDesc LOGD_MAGIC (mkFile (log_image (mkLogHeader LOGFILE_MAGIC 0 5 0 3) sample_recs) 40) 2) None 1 [] [] 0)
    as [H1 H2]; [unfold header_ok, in_signed, in_unsigned, LOGFILE_MAGIC; cbn; lia|reflexivity|reflexivity|].
  split; [exact H1|]. by apply H2.
Defined.
