(* ===== verification/LogMgmt.v ===== *)
(** * Log maintenance ([cmd/evlogmgr/evl_logmgmt.c])

    Compaction removes the records that a query selects; repair drops corrupted
    blocks; both move the remaining records up in place and truncate the file.
    The globals [logfd], [g_num_delrec] and [reducedBytes] are part of the state;
    [None] is a failed assertion or a write past the end of an automatic array. *)
From S2P Require Import Prelude NvPairs LogRecord FacNames Hosts MemStr Query QEvaluate QSamples QueryApi Files LogFile.

Definition LOGREC_MAGIC_HIWORD : Z := Z.land LOGREC_MAGIC 0xffff0000.
Definition good_magic (m : Z) : bool := Z.land m 0xffff0000 =? LOGREC_MAGIC_HIWORD.

(** [read(logfd, p, n)] of a structure: [None] when it is short. *)
Definition read_exact (f : file) (n : Z) : option (list Z) * file :=
  let '(got, f') := file_read f n in
  (if Z.of_nat (length got) =? n then Some got else None, f').
(** [lseek] whose result is ignored. *)
Definition lseek_ignored (f : file) (p : Z) : file := default f (lseek_set f p).

(** The offset after the record at [offset], or -1. *)
Definition validateRec (f : file) (offset : Z) : Z * file :=
  match lseek_set f offset with
  | None => (-1, f)
  | Some f =>
      let '(hdr, f) := read_exact f REC_HDR_SIZE in
      match hdr with
      | None => (-1, f)
      | Some hdr =>
          let rechdr := entry_of_bytes hdr in
          match lseek_set f (s64 (offset + log_size rechdr + REC_HDR_SIZE)) with
          | None => (-1, f)
          | Some f =>
              let '(sz, f) := read_exact f SIZESIZE in
              match sz with
              | None => (-1, f)
              | Some sz =>
                  let recsize := s32 (le_decode sz) in
                  if good_magic (log_magic rechdr) && (u64 (log_size rechdr + REC_HDR_SIZE) =? u64 recsize)
                  then (offset + (recsize + SIZESIZE), f) else (-1, f)
              end
          end
      end
  end.

Definition getRecLen (p_rhdr : posix_log_entry) : Z :=
  if good_magic (log_magic p_rhdr) then s32 (log_size p_rhdr + REC_HDR_SIZE + SIZESIZE) else -1.

Record file_offset_info := mkFi { offset_ : Z; beginhole : Z; bytes_to_process : Z }.

(** [hdr] is the record's header in memory, [buf] its data and size, or [None] when
    they are still to be read. *)
Definition moveRecordUp (f : file) (fi : file_offset_info) (hdr : list Z) (buf : option (list Z))
  : Z * file * file_offset_info :=
  let rechdr := entry_of_bytes hdr in
  let remainder := u64 (log_size rechdr + SIZESIZE) in
  if log_size rechdr >? POSIX_LOG_ENTRY_MAXLEN then (-1, f, fi)
  else
    let '(varbuf, f) :=
      match buf with
      | Some b => (Some (take (Z.to_nat remainder) b), f)
      | None => read_exact f remainder
      end in
    match varbuf with
    | None => (-1, f, fi)
    | Some varbuf =>
        match lseek_set f (beginhole fi) with
        | None => (-1, f, fi)
        | Some f =>
            let f := file_write f hdr in
            let f := file_write f varbuf in
            (0, f, mkFi (offset_ fi) (beginhole fi + REC_HDR_SIZE + remainder) (bytes_to_process fi))
        end
    end.

(** ** Generation numbers *)

Inductive set_gen_t := GEN_RESET | GEN_INCR | GEN_EVEN | GEN_ODD.

Definition next_generation (type : set_gen_t) (g : Z) : Z :=
  match type with
  | GEN_INCR => u32 (g + 1)
  | GEN_RESET => 0
  | GEN_EVEN => if negb (g mod 2 =? 0) then u32 (g + 1) else g
  | GEN_ODD => if g mod 2 =? 0 then u32 (g + 1) else g
  end.
Definition set_generation (h : log_header_t) (g : Z) : log_header_t :=
  mkLogHeader (lh_magic h) (lh_version h) (lh_last_recId h) (lh_reserved1 h) g.
Definition setGenerationNumber (f : file) (type : set_gen_t) : Z * file :=
  match lseek_set f 0 with
  | None => (EBADF, f)
  | Some f =>
      let '(hdr, f) := read_exact f LOG_HDR_SIZE in
      match hdr with
      | None => (EBADF, f)
      | Some hdr =>
          let log_hdr := header_of_bytes hdr in
          if negb (lh_magic log_hdr =? LOGFILE_MAGIC) then (EBADF, f)
          else
            let g := next_generation type (lh_generation log_hdr) in
            match lseek_set f 0 with
            | None => (EBADF, f)
            | Some f =>
                (* Only the four bytes of [log_generation], at offset 32, change. *)
                (0, file_write f (take 32 hdr ++ le_encode 4 g ++ drop 36 hdr))
            end
      end
  end.

Section Compact.
Context `{HL : HostLib} `{RL : RegexLib} `{TL : TemplateLib}.
Variable query : posix_log_query_t.
Variable logmgmt_msg : str.

(** Is the record to be deleted? *)
Definition doesRecMatchForDel (p_rhdr : posix_log_entry) (varbuf : list Z) : option bool :=
  b ← _evlEvaluateQuery query p_rhdr varbuf;
  Some (b && negb (streqb logmgmt_msg (cstring varbuf))).

(** *** Counting *)

Record count_state := mkCount {
  cn_file : file; cn_offset : Z; cn_bytes : Z; cn_varbuf : list Z; cn_delcnt : Z; cn_nbytes : Z; cn_reccnt : Z
}.
(** The status and, when it is 0, the counts of records and of bytes. *)
Definition count_step (s : count_state) : count_state + option (Z * (Z * Z)) :=
  let eio := inr (Some (EIO, (cn_delcnt s, cn_nbytes s))) in
  if negb (cn_bytes s >? 0) then inr (Some (0, (cn_delcnt s, cn_nbytes s)))
  else
    match lseek_set (cn_file s) (s64 (cn_offset s)) with
    | None => eio
    | Some f =>
        let '(hdr, f) := read_exact f REC_HDR_SIZE in
        match hdr with
        | None => eio
        | Some hdr =>
            let rechdr := entry_of_bytes hdr in
            let '(data, f) :=
              if (log_size rechdr >? 0) && (log_size rechdr <=? POSIX_LOG_ENTRY_MAXLEN)
              then read_exact f (log_size rechdr) else (Some [], f) in
            match data with
            | None => eio
            | Some data =>
                let varbuf := overwrite (cn_varbuf s) data in
                let '(sz, f) := read_exact f SIZESIZE in
                match sz with
                | None => eio
                | Some sz =>
                    let evlrecsize := s32 (le_decode sz) in
                    if negb (u64 evlrecsize =? u64 (REC_HDR_SIZE + log_size rechdr)) then eio
                    else
                      match _evlEvaluateQuery query rechdr varbuf with
                      | None => inr None
                      | Some b =>
                          let del := b && (streqb logmgmt_msg "" || negb (streqb logmgmt_msg (cstring varbuf))) in
                          let len := u64 (evlrecsize + SIZESIZE) in
                          inl (mkCount f (u64 (cn_offset s + len)) (u64 (cn_bytes s - len)) varbuf
                                 (if del then cn_delcnt s + 1 else cn_delcnt s)
                                 (if del then u64 (cn_nbytes s + (REC_HDR_SIZE + log_size rechdr + SIZESIZE))
                                  else cn_nbytes s)
                                 (cn_reccnt s + 1))
                      end
                end
            end
        end
    end.
Definition countRecsForDeletion (junk : list Z) (f : file) : option (Z * (Z * Z)) :=
  if f_size f =? 0 then Some (EBADF, (0, 0))
  else
    match loop count_step (Z.to_pos (f_size f + 1))
            (mkCount f LOG_HDR_SIZE (u64 (f_size f - LOG_HDR_SIZE)) junk 0 0 0) with
    | inr r => r
    | inl _ => None
    end.

(** *** Compaction *)

Record compact_state := mkCompact {
  cs_file : file; cs_fi : file_offset_info; cs_varbuf : list Z; g_num_delrec : Z; reducedBytes : Z
}.
Definition compact_step (s : compact_state) : compact_state + option (Z * compact_state) :=
  let fi := cs_fi s in
  if negb (bytes_to_process fi >? 0) then
    inr (Some (0, if beginhole fi >? 0
                  then mkCompact (ftruncate (cs_file s) (beginhole fi)) fi (cs_varbuf s) (g_num_delrec s) (reducedBytes s)
                  else s))
  else
    let f := lseek_ignored (cs_file s) (offset_ fi) in
    let upd f := mkCompact f fi (cs_varbuf s) (g_num_delrec s) (reducedBytes s) in
    let '(hdr, f) := read_exact f REC_HDR_SIZE in
    match hdr with
    | None => inr (Some (EIO, upd f))
    | Some hdr =>
        let rechdr := entry_of_bytes hdr in
        let reclen := u64 (getRecLen rechdr) in
        if reclen =? u64 (-1) then inr (Some (EIO, upd f))
        else
          let '(got, f) := file_read f (u64 (log_size rechdr + SIZESIZE)) in
          if Z.of_nat (length got) >? POSIX_LOG_ENTRY_MAXLEN + SIZESIZE then inr None
          else if negb (Z.of_nat (length got) =? u64 (log_size rechdr + SIZESIZE)) then inr (Some (EIO, upd f))
          else
            let varbuf := overwrite (cs_varbuf s) got in
            match doesRecMatchForDel rechdr varbuf with
            | None => inr None
            | Some del =>
                let ndel := if del then g_num_delrec s + 1 else g_num_delrec s in
                let red := if del then u64 (reducedBytes s + (REC_HDR_SIZE + log_size rechdr + SIZESIZE))
                           else reducedBytes s in
                let advance f fi :=
                  inl (mkCompact f (mkFi (s64 (offset_ fi + reclen)) (beginhole fi) (s64 (bytes_to_process fi - reclen)))
                                 varbuf ndel red) in
                if (del : bool) then
                  advance f (if beginhole fi =? 0 then mkFi (offset_ fi) (offset_ fi) (bytes_to_process fi) else fi)
                else if negb (beginhole fi =? 0) then
                  let '(st, f, fi) := moveRecordUp f fi hdr (Some varbuf) in
                  if negb (st =? 0) then inr (Some (EIO, mkCompact f fi varbuf ndel red)) else advance f fi
                else advance f fi
            end
    end.
Definition compactLog (junk : list Z) (reduced : Z) (f : file) : option (Z * compact_state) :=
  if f_size f =? 0 then Some (EIO, mkCompact f (mkFi 0 0 0) junk 0 reduced)
  else
    match loop compact_step (Z.to_pos (f_size f + 1))
            (mkCompact f (mkFi LOG_HDR_SIZE 0 (f_size f - LOG_HDR_SIZE)) junk 0 reduced) with
    | inr r => r
    | inl _ => None
    end.
End Compact.

(** ** Repair *)

(** One position: [inr] the offset of a good record or -1, [inl] the next offset. *)
Definition search_step (s : file * Z) : (file * Z) + (Z * file) :=
  let '(f, offset) := s in
  let '(m, f) := read_exact f 4 in
  match m with
  | None => inr (-1, f)
  | Some m =>
      let next f := inl (lseek_ignored f (offset + 1), offset + 1) in
      if good_magic (le_decode m) then
        let f := lseek_ignored f (offset + 8) in
        let '(sz, f) := read_exact f 8 in
        match sz with
        | None => inr (-1, f)
        | Some sz =>
            let log_size := le_decode sz in
            let f := lseek_ignored f (s64 (offset + log_size + REC_HDR_SIZE)) in
            let '(rs, f) := read_exact f SIZESIZE in
            match rs with
            | None => inr (-1, f)
            | Some rs => if u64 (log_size + REC_HDR_SIZE) =? u64 (s32 (le_decode rs)) then inr (offset, f) else next f
            end
        end
      else next f
  end.
Definition searchForNextGoodRecord (f : file) (offset : Z) : option (Z * file) :=
  match loop search_step (Z.to_pos (f_size f + 1)) (lseek_ignored f offset, offset) with
  | inr r => Some r
  | inl _ => None
  end.

(** The two nested loops as one: [moving] is the inner one. *)
Record repair_state := mkRepair {
  rp_moving : bool; rp_file : file; rp_fi : file_offset_info; rp_status : Z
}.
Definition repair_again (size : Z) (f : file) (status : Z) : repair_state :=
  mkRepair false f (mkFi LOG_HDR_SIZE 0 (size - LOG_HDR_SIZE)) status.
(** The result: the return value, [*status] and the file. *)
Definition repair_finish (f : file) (fi : file_offset_info) (status : Z) : option (Z * Z * file) :=
  Some (0, status, if beginhole fi >? 0 then ftruncate f (beginhole fi) else f).
Definition repair_step (size : Z) (s : repair_state) : repair_state + option (Z * Z * file) :=
  let fi := rp_fi s in
  let f := rp_file s in
  if rp_moving s then
    if negb (bytes_to_process fi >? 0) then inl (mkRepair false f fi (rp_status s))
    else
      let f := lseek_ignored f (offset_ fi) in
      let '(hdr, f) := read_exact f REC_HDR_SIZE in
      match hdr with
      | None => inr (Some (EIO, rp_status s, f))
      | Some hdr =>
          let reclen := u64 (getRecLen (entry_of_bytes hdr)) in
          if reclen =? u64 (-1) then inl (repair_again size f (rp_status s))
          else
            let '(st, f, fi) := moveRecordUp f fi hdr None in
            if st =? -1 then inl (repair_again size f (rp_status s))
            else inl (mkRepair true f (mkFi (s64 (offset_ fi + reclen)) (beginhole fi) (s64 (bytes_to_process fi - reclen)))
                               (rp_status s))
      end
  else if negb (bytes_to_process fi >? 0) then inr (repair_finish f fi (rp_status s))
  else
    let '(next, f) := validateRec f (offset_ fi) in
    if next =? -1 then
      match searchForNextGoodRecord f (offset_ fi) with
      | None => inr None
      | Some (next, f) =>
          if next =? -1 then inr (repair_finish f (mkFi (offset_ fi) (offset_ fi) (bytes_to_process fi)) 1)
          else inl (mkRepair true f (mkFi next (offset_ fi) (bytes_to_process fi - (next - offset_ fi))) 1)
      end
    else inl (mkRepair false f (mkFi next (beginhole fi) (bytes_to_process fi - (next - offset_ fi))) (rp_status s)).
(** At most [n] iterations; [inl] when the loop has not ended by then. *)
Definition repairLog (n : positive) (f : file) : repair_state + option (Z * Z * file) :=
  if f_size f =? 0 then inr (Some (EIO, 0, f))
  else loop (repair_step (f_size f)) n (repair_again (f_size f) f 0).

(** ** Reading and moving records *)

Lemma read_exact_full bytes pos len a b : 0 <= pos -> drop (Z.to_nat pos) bytes = a ++ b ->
  Z.of_nat (length a) = len -> read_exact (mkFile bytes pos) len = (Some a, mkFile bytes (pos + len)).
Proof.
  intros Hp Hd Ha. unfold read_exact, file_read. cbn [f_bytes f_pos]. rewrite Hd.
  rewrite take_app_length' by lia. by rewrite Ha, Z.eqb_refl.
Qed.
Lemma read_exact_short bytes pos len : 0 <= pos -> 0 < len -> Z.of_nat (length bytes) < pos + len ->
  exists f, read_exact (mkFile bytes pos) len = (None, f) /\ f_bytes f = bytes.
Proof.
  intros Hp Hl Hs. unfold read_exact, file_read. cbn [f_bytes f_pos]. eexists. split.
  - rewrite length_take, length_drop. destruct (_ =? _) eqn:E; [|done]. bprop. lia.
  - done.
Qed.
Lemma lseek_ignored_ok f p : 0 <= p -> lseek_ignored f p = mkFile (f_bytes f) p.
Proof. intros Hp. unfold lseek_ignored, lseek_set, lseek_to. destruct (p <? 0) eqn:E; [zb|done]. Qed.
Lemma lseek_set_ok f p : 0 <= p -> lseek_set f p = Some (mkFile (f_bytes f) p).
Proof. intros Hp. unfold lseek_set, lseek_to. destruct (p <? 0) eqn:E; [zb|done]. Qed.

(** Overwriting inside a file. *)
Lemma write_inside bytes A M T data pos : bytes = A ++ M ++ T -> Z.of_nat (length A) = pos ->
  (length data <= length M)%nat ->
  file_write (mkFile bytes pos) data = mkFile (A ++ data ++ drop (length data) M ++ T) (pos + Z.of_nat (length data)).
Proof.
  intros -> <- Hl. unfold file_write. cbn [f_bytes f_pos]. rewrite Nat2Z.id. rewrite take_app_length.
  assert (length A - length (A ++ M ++ T) = 0)%nat as -> by (rewrite length_app; lia). cbn [replicate app].
  rewrite <-drop_drop, drop_app_length. rewrite drop_app_le by done. done.
Qed.

Definition size_image (r : record) : list Z := le_encode 4 (REC_HDR_SIZE + Z.of_nat (length (snd r))).
Lemma rec_image_split r : rec_image r = entry_bytes (fst r) ++ snd r ++ size_image r.
Proof. done. Qed.

Lemma remainder_ok r : rec_ok r -> u64 (log_size (fst r) + SIZESIZE) = Z.of_nat (length (snd r ++ size_image r)).
Proof.
  intros (_ & Hsz & Hmax). unfold POSIX_LOG_ENTRY_MAXLEN, SIZESIZE in *. rewrite Hsz.
  rewrite unsigned_id by (unfold in_unsigned; lia). rewrite length_app. unfold size_image. rewrite length_le_encode. lia.
Qed.

Lemma move_spec bytes pos A M T r off bh btp buf :
  bytes = A ++ M ++ T -> Z.of_nat (length A) = bh -> (length (rec_image r) <= length M)%nat -> rec_ok r -> 0 <= pos ->
  match buf with
  | Some b => exists stale, b = (snd r ++ size_image r) ++ stale
  | None => exists rest, drop (Z.to_nat pos) bytes = (snd r ++ size_image r) ++ rest
  end ->
  moveRecordUp (mkFile bytes pos) (mkFi off bh btp) (entry_bytes (fst r)) buf =
    (0, mkFile (A ++ rec_image r ++ drop (length (rec_image r)) M ++ T) (bh + rec_len r), mkFi off (bh + rec_len r) btp).
Proof.
  intros Hb HA HM Hr Hp Hbuf. pose proof Hr as (He & Hsz & Hmax). unfold moveRecordUp.
  rewrite entry_roundtrip by done. rewrite (remainder_ok r Hr). cbv zeta.
  destruct (log_size (fst r) >? POSIX_LOG_ENTRY_MAXLEN) eqn:E; [zb|].
  assert (exists p, match buf with
    | Some b => (Some (take (Z.to_nat (Z.of_nat (length (snd r ++ size_image r)))) b), mkFile bytes pos)
    | None => read_exact (mkFile bytes pos) (Z.of_nat (length (snd r ++ size_image r)))
    end = (Some (snd r ++ size_image r), mkFile bytes p)) as [p ->].
  { destruct buf as [b|].
    - destruct Hbuf as [stale ->]. exists pos. by rewrite Nat2Z.id, take_app_length.
    - destruct Hbuf as [rest Hd]. eexists. by apply (read_exact_full _ _ _ _ rest). }
  rewrite lseek_set_ok by (cbn; lia). cbn [f_bytes beginhole offset_ bytes_to_process].
  rewrite rec_image_split in HM. rewrite length_app, length_entry_bytes in HM.
  rewrite (write_inside bytes A M T) by (rewrite ?length_entry_bytes; done || lia).
  rewrite (write_inside _ (A ++ entry_bytes (fst r)) (drop (length (entry_bytes (fst r))) M) T).
  - assert (Z.of_nat (length (snd r ++ size_image r)) + REC_HDR_SIZE = rec_len r) as Hlen.
    { unfold rec_len, size_image. rewrite length_app, length_le_encode. unfold REC_HDR_SIZE, SIZESIZE. lia. }
    rewrite length_entry_bytes, drop_drop, <-!app_assoc.
    replace (bh + REC_HDR_SIZE + Z.of_nat (length (snd r ++ size_image r))) with (bh + rec_len r) by lia.
    replace (bh + Z.of_nat 88 + Z.of_nat (length (snd r ++ size_image r))) with (bh + rec_len r) by (unfold REC_HDR_SIZE in *; lia).
    rewrite rec_image_split, <-!app_assoc. rewrite (length_app (entry_bytes _)), length_entry_bytes. done.
  - by rewrite <-!app_assoc.
  - rewrite length_app, length_entry_bytes. lia.
  - rewrite length_drop, length_entry_bytes. lia.
Qed.

(** ** Compaction *)

Definition good_recs (rs : list record) : Prop :=
  Forall (fun r => rec_ok r /\ good_magic (log_magic (fst r)) = true) rs.

Lemma rec_len_u64 r : rec_ok r -> good_magic (log_magic (fst r)) = true ->
  u64 (getRecLen (fst r)) = rec_len r /\ (rec_len r =? u64 (-1)) = false.
Proof.
  intros (_ & Hsz & Hmax) Hm. unfold getRecLen. rewrite Hm, Hsz. unfold rec_len, REC_HDR_SIZE, SIZESIZE, POSIX_LOG_ENTRY_MAXLEN in *.
  rewrite signed_id by (done || (unfold in_signed; cbn; lia)). rewrite unsigned_id by (unfold in_unsigned; lia).
  change (u64 (-1)) with 18446744073709551615. split; [lia|]. apply Z.eqb_neq. lia.
Qed.

Section CompactSpec.
Context `{HL : HostLib} `{RL : RegexLib} `{TL : TemplateLib}.
Variables (query : posix_log_query_t) (msg : str) (h : log_header_t) (rs : list record) (D : record -> bool).

(** The deletion test depends on the record alone. *)
Definition del_decides : Prop :=
  forall r stale, r ∈ rs -> doesRecMatchForDel query msg (fst r) ((snd r ++ size_image r) ++ stale) = Some (D r).
Hypothesis Hdec : del_decides.
Hypothesis Hrs : good_recs rs.
Hypothesis Hsize : LOG_HDR_SIZE + recs_len rs < 2 ^ 63.

Definition kept (l : list record) : list record := List.filter (fun r => negb (D r)) l.
Definition deleted (l : list record) : Z := Z.of_nat (length (List.filter D l)).

Lemma kept_app a b : kept (a ++ b) = kept a ++ kept b.
Proof. apply List.filter_app. Qed.
Lemma kept_len l : recs_len (kept l) <= recs_len l.
Proof. unfold kept. induction l as [|r l IH]; cbn; [lia|]. pose proof (rec_len_pos r). destruct (D r); cbn; lia. Qed.
Lemma deleted_snoc l r : deleted (l ++ [r]) = deleted l + if D r then 1 else 0.
Proof. unfold deleted. rewrite List.filter_app, length_app. cbn. destruct (D r); cbn; lia. Qed.

(** After [k] records: the kept ones are at the front, then a gap, then the rest. *)
Record inv (k : nat) (s : compact_state) : Prop := {
  inv_gap : exists gap pos, cs_file s = mkFile ((header_bytes h ++ recs_image (kept (take k rs))) ++ gap ++ recs_image (drop k rs)) pos /\
    Z.of_nat (length gap) = recs_len (take k rs) - recs_len (kept (take k rs)) /\
    (beginhole (cs_fi s) = 0 /\ gap = [] \/ beginhole (cs_fi s) = LOG_HDR_SIZE + recs_len (kept (take k rs)) /\ deleted (take k rs) <> 0);
  inv_offset : offset_ (cs_fi s) = offset rs k;
  inv_bytes : bytes_to_process (cs_fi s) = recs_len (drop k rs);
  inv_count : g_num_delrec s = deleted (take k rs)
}.

Lemma recs_split k : recs_len (take k rs) + recs_len (drop k rs) = recs_len rs.
Proof. by rewrite <-recs_len_app, take_drop. Qed.

Lemma front_length k : Z.of_nat (length (header_bytes h ++ recs_image (kept (take k rs)))) = LOG_HDR_SIZE + recs_len (kept (take k rs)).
Proof. rewrite length_app, length_header_bytes, Nat2Z.inj_add, length_recs_image. done. Qed.

Lemma inv_start junk red pos : inv 0 (mkCompact (mkFile (log_image h rs) pos) (mkFi LOG_HDR_SIZE 0 (recs_len rs)) junk 0 red).
Proof.
  split; [|done|cbn [cs_fi bytes_to_process]; by rewrite drop_0|done]. exists [], pos. cbn [cs_file cs_fi beginhole]. split_and!; [|done|by left].
  change (recs_image (kept (take 0 rs))) with (@nil Z). cbn [app]. by rewrite app_nil_r, drop_0.
Qed.

(** The image that [inv] describes. *)
Definition gapped (k : nat) (gap : list Z) : list Z :=
  (header_bytes h ++ recs_image (kept (take k rs))) ++ gap ++ recs_image (drop k rs).

Lemma take_snoc k r : rs !! k = Some r ->
  kept (take (S k) rs) = kept (take k rs) ++ (if D r then [] else [r]) /\
  deleted (take (S k) rs) = deleted (take k rs) + (if D r then 1 else 0) /\
  recs_len (take (S k) rs) = recs_len (take k rs) + rec_len r.
Proof.
  intros Er. rewrite (take_S_r _ _ r) by done. rewrite kept_app, deleted_snoc, recs_len_app. cbn.
  split_and!; [by destruct (D r)|done|lia].
Qed.

Lemma gapped_record k gap r : rs !! k = Some r ->
  gapped k gap = (header_bytes h ++ recs_image (kept (take k rs))) ++ (gap ++ rec_image r) ++ recs_image (drop (S k) rs).
Proof. intros Er. unfold gapped. rewrite (drop_record rs k r) by done. by rewrite <-!app_assoc. Qed.

(** The rest of an iteration, when the record has been read. *)
Definition after_read (k : nat) (r : record) (s : compact_state) (p : Z) (stale : list Z) (red : Z)
  : compact_state + option (Z * compact_state) :=
  let f := mkFile (f_bytes (cs_file s)) p in
  let fi := cs_fi s in
  let varbuf := (snd r ++ size_image r) ++ stale in
  let ndel := g_num_delrec s + if D r then 1 else 0 in
  let advance f bh := inl (mkCompact f (mkFi (offset rs (S k)) bh (recs_len (drop (S k) rs))) varbuf ndel red) in
  if D r then advance f (if beginhole fi =? 0 then offset_ fi else beginhole fi)
  else if beginhole fi =? 0 then advance f (beginhole fi)
  else
    let '(st, f, fi') := moveRecordUp f fi (entry_bytes (fst r)) (Some varbuf) in
    if negb (st =? 0) then inr (Some (EIO, mkCompact f fi' varbuf ndel red)) else advance f (beginhole fi').

Lemma move_keeps f fi hdr buf : let '(_, _, fi') := moveRecordUp f fi hdr buf in
  offset_ fi' = offset_ fi /\ bytes_to_process fi' = bytes_to_process fi.
Proof. unfold moveRecordUp. repeat case_match; simplify_eq; done. Qed.

(** The position and the amount left after a record, which do not wrap. *)
Lemma advance_ok k r : rs !! k = Some r ->
  s64 (offset rs k + rec_len r) = offset rs (S k) /\ s64 (recs_len (drop k rs) - rec_len r) = recs_len (drop (S k) rs) /\
  0 < recs_len (drop k rs).
Proof.
  intros Er. pose proof (take_snoc k r Er) as (_ & _ & Ht). pose proof (recs_split k). pose proof (recs_split (S k)).
  pose proof (rec_len_pos r). pose proof (recs_len_nonneg (drop (S k) rs)). pose proof (recs_len_nonneg (take k rs)).
  rewrite (offset_succ _ _ _ Er). unfold offset, LOG_HDR_SIZE in *. split_and!; [apply signed_id|rewrite signed_id|];
    try lia; unfold in_signed; cbn; lia.
Qed.

Lemma good_at k r : rs !! k = Some r -> r ∈ rs /\ rec_ok r /\ good_magic (log_magic (fst r)) = true.
Proof.
  intros Er. assert (r ∈ rs) by (by eapply list_elem_of_lookup_2). split; [done|].
  by eapply Forall_forall in Hrs.
Qed.

Lemma gapped_drop k gap r : rs !! k = Some r ->
  Z.of_nat (length gap) = recs_len (take k rs) - recs_len (kept (take k rs)) ->
  drop (Z.to_nat (offset rs k)) (gapped k gap) = rec_image r ++ recs_image (drop (S k) rs).
Proof.
  intros Er Hgap. unfold gapped. rewrite app_assoc, <-(drop_record rs k r) by done. apply drop_app_length'.
  rewrite length_app. pose proof (front_length k). unfold offset, LOG_HDR_SIZE in *. lia.
Qed.

Lemma step_reads k s r : rs !! k = Some r -> inv k s ->
  exists p stale red, 0 <= p /\ compact_step query msg s = after_read k r s p stale red.
Proof.
  intros Er [(gap & pos & Hf & Hgap & _) Hoff Hbytes Hcnt]. destruct s as [f [off bh btp] vb nd red].
  cbn [cs_file cs_fi offset_ beginhole bytes_to_process g_num_delrec] in *. subst.
  destruct (good_at k r Er) as (Hin & Hr & Hm). destruct (rec_len_u64 r Hr Hm) as [Hrl Hrl'].
  destruct (advance_ok k r Er) as (Hoff' & Hbytes' & Hpos).
  pose proof (gapped_drop k gap r Er Hgap) as Hdrop. fold (gapped k gap).
  assert (0 <= offset rs k) as Hoff0 by (pose proof (offset_nonneg rs k); unfold LOG_HDR_SIZE in *; lia).
  assert (0 <= offset rs k + REC_HDR_SIZE) as Hoff1 by (unfold REC_HDR_SIZE; lia).
  unfold compact_step. cbn [cs_fi bytes_to_process beginhole offset_ cs_file cs_varbuf g_num_delrec reducedBytes].
  destruct (negb (_ >? 0)) eqn:E0; [zb|]. rewrite lseek_ignored_ok by done. cbn [f_bytes].
  rewrite rec_image_split, <-!app_assoc in Hdrop.
  rewrite (read_exact_full _ _ REC_HDR_SIZE _ _ Hoff0 Hdrop) by (by rewrite length_entry_bytes).
  rewrite entry_roundtrip by apply Hr. rewrite Hrl, Hrl', (remainder_ok r Hr).
  assert (drop (Z.to_nat (offset rs k + REC_HDR_SIZE)) (gapped k gap) = (snd r ++ size_image r) ++ recs_image (drop (S k) rs)) as Hdrop2.
  { rewrite <-app_assoc. eapply drop_more; [lia|exact Hdrop|by rewrite length_entry_bytes]. }
  unfold file_read. cbn [f_bytes f_pos]. rewrite Hdrop2, Nat2Z.id, take_app_length.
  destruct (_ >? POSIX_LOG_ENTRY_MAXLEN + SIZESIZE) eqn:E1.
  { destruct Hr as (_ & _ & Hmax). rewrite length_app in E1. unfold size_image in E1. rewrite length_le_encode in E1. unfold SIZESIZE in *. zb. }
  rewrite Z.eqb_refl. cbn [negb]. unfold overwrite. rewrite Hdec by done. unfold after_read.
  cbn [cs_file cs_fi f_bytes beginhole offset_ g_num_delrec]. destruct (D r); do 3 eexists; (split; [apply Z.add_nonneg_nonneg; [exact Hoff1|apply Nat2Z.is_nonneg]|]).
  - destruct (bh =? 0); cbn [offset_ beginhole bytes_to_process]; by rewrite Hoff', Hbytes'.
  - rewrite Z.add_0_r. destruct (bh =? 0); cbn [negb offset_ beginhole bytes_to_process].
    + by rewrite Hoff', Hbytes'.
    + match goal with |- context [moveRecordUp ?f ?fi ?hd ?b] => pose proof (move_keeps f fi hd b) as Hk end.
      destruct (moveRecordUp _ _ _ _) as [[st f'] fi']. cbn in Hk. destruct Hk as [-> ->]. by rewrite Hoff', Hbytes'.
Qed.

(** The three ways to go on: the gap grows, the record stays, the record moves. *)
Lemma after_delete k s r p stale red : rs !! k = Some r -> inv k s -> D r = true ->
  exists s', after_read k r s p stale red = inl s' /\ inv (S k) s'.
Proof.
  intros Er [(gap & pos & Hf & Hgap & Hbh) Hoff _ Hcnt] ED. unfold after_read. rewrite ED. eexists. split; [reflexivity|].
  destruct (take_snoc k r Er) as (Hkept & Hdel & Ht). rewrite ED in *. rewrite app_nil_r in Hkept.
  split; [|done|done|cbn; by rewrite Hdel, Hcnt].
  exists (gap ++ rec_image r). eexists. cbn [cs_file cs_fi beginhole]. rewrite Hkept. split_and!.
  - f_equal. rewrite Hf. cbn [f_bytes]. exact (gapped_record k gap r Er).
  - rewrite length_app, Nat2Z.inj_add, length_rec_image. lia.
  - right. split; [|rewrite Hdel; unfold deleted; lia]. pose proof (recs_len_nonneg (kept (take k rs))).
    destruct Hbh as [[-> ->]|[-> _]].
    + rewrite Hoff. unfold offset. cbn in *. lia.
    + destruct (_ =? 0) eqn:Ez; [unfold LOG_HDR_SIZE in *; zb|done].
Qed.

Lemma after_keep k s r p stale red : rs !! k = Some r -> inv k s -> D r = false -> beginhole (cs_fi s) = 0 ->
  exists s', after_read k r s p stale red = inl s' /\ inv (S k) s'.
Proof.
  intros Er [(gap & pos & Hf & Hgap & Hbh) Hoff _ Hcnt] ED Hb. unfold after_read. rewrite ED, Hb. eexists.
  split; [reflexivity|]. destruct (take_snoc k r Er) as (Hkept & Hdel & Ht). rewrite ED in *.
  destruct Hbh as [[_ ->]|[Hbh _]]; [|pose proof (recs_len_nonneg (kept (take k rs))); unfold LOG_HDR_SIZE in *; lia].
  split; [|done|done|cbn; by rewrite Hdel, Hcnt].
  exists []. eexists. cbn [cs_file cs_fi beginhole]. rewrite Hkept, recs_len_app, recs_image_app. cbn [length recs_len] in *.
  split; [|split; [lia|by left]]. f_equal. rewrite Hf. cbn [f_bytes]. fold (gapped k []).
  rewrite (gapped_record k [] r Er). change (recs_image [r]) with (rec_image r ++ []). by rewrite app_nil_r, <-!app_assoc.
Qed.

Lemma after_move k s r p stale red : rs !! k = Some r -> inv k s -> D r = false -> beginhole (cs_fi s) <> 0 -> 0 <= p ->
  exists s', after_read k r s p stale red = inl s' /\ inv (S k) s'.
Proof.
  intros Er [(gap & pos & Hf & Hgap & Hbh) Hoff _ Hcnt] ED Hb Hp. destruct Hbh as [[? _]|[Hbh Hnz]]; [done|].
  destruct (good_at k r Er) as (_ & Hr & Hm). destruct (take_snoc k r Er) as (Hkept & Hdel & Ht). rewrite ED in *.
  pose proof (length_rec_image r). pose proof (kept_len (take k rs)).
  unfold after_read. rewrite ED, (proj2 (Z.eqb_neq _ _) Hb), Hf. cbn [f_bytes]. destruct (cs_fi s) as [off bh btp]. cbn in Hbh. fold (gapped k gap).
  rewrite (move_spec _ _ (header_bytes h ++ recs_image (kept (take k rs))) (gap ++ rec_image r) (recs_image (drop (S k) rs)) r).
  - cbn [negb Z.eqb beginhole]. eexists. split; [reflexivity|]. split; [|done|done|cbn; by rewrite Hdel, Hcnt].
    exists (drop (length (rec_image r)) (gap ++ rec_image r)). eexists. cbn [cs_file cs_fi beginhole].
    rewrite Hkept, recs_len_app, recs_image_app. cbn [recs_len]. split_and!.
    + f_equal. change (recs_image [r]) with (rec_image r ++ []). by rewrite app_nil_r, <-!app_assoc.
    + rewrite length_drop, length_app. lia.
    + right. rewrite Hdel. split; [lia|lia].
  - exact (gapped_record k gap r Er).
  - rewrite front_length. lia.
  - rewrite length_app. lia.
  - done.
  - done.
  - by eexists.
Qed.

Lemma inv_step k s r : rs !! k = Some r -> inv k s ->
  exists s', compact_step query msg s = inl s' /\ inv (S k) s'.
Proof.
  intros Er Hinv. destruct (step_reads k s r Er Hinv) as (p & stale & red & Hp & ->).
  destruct (D r) eqn:ED; [by apply after_delete|].
  destruct (decide (beginhole (cs_fi s) = 0)); [by apply after_keep|by apply after_move].
Qed.

Lemma inv_end s : inv (length rs) s ->
  exists s', compact_step query msg s = inr (Some (0, s')) /\
    f_bytes (cs_file s') = log_image h (kept rs) /\ g_num_delrec s' = deleted rs.
Proof.
  intros [(gap & pos & Hf & Hgap & Hbh) _ Hbytes Hcnt]. rewrite drop_all, app_nil_r, firstn_all in *.
  unfold compact_step. rewrite Hbytes. cbn [recs_len Z.gtb Z.compare negb]. eexists. split; [done|].
  pose proof (recs_len_nonneg (kept rs)). destruct Hbh as [[-> ->]|[-> _]].
  - cbn [Z.gtb Z.compare]. rewrite Hf. cbn [f_bytes]. by rewrite app_nil_r.
  - destruct (_ >? 0) eqn:E; [|unfold LOG_HDR_SIZE in E; zb]. cbn [cs_file g_num_delrec]. split; [|done].
    rewrite Hf. unfold ftruncate. cbn [f_bytes].
    pose proof (front_length (length rs)) as Hl. rewrite firstn_all in Hl.
    rewrite take_app_length' by lia. rewrite (proj2 (Nat.sub_0_le _ _)); [by rewrite app_nil_r|].
    rewrite length_app. lia.
Qed.

Lemma compact_loop n : forall k s, (k <= length rs)%nat -> (length rs - k < n)%nat -> inv k s ->
  exists s', loop_nat (compact_step query msg) n s = inr (Some (0, s')) /\
    f_bytes (cs_file s') = log_image h (kept rs) /\ g_num_delrec s' = deleted rs.
Proof.
  induction n as [|n IH]; intros k s Hk Hn Hinv; [lia|]. cbn [loop_nat].
  destruct (rs !! k) as [r|] eqn:Er.
  - pose proof (lookup_lt_Some _ _ _ Er). destruct (inv_step k s r Er Hinv) as (s' & -> & Hinv').
    apply (IH (S k)); [lia|lia|done].
  - assert (k = length rs) as -> by (apply lookup_ge_None in Er; lia).
    destruct (inv_end s Hinv) as (s' & -> & H). by exists s'.
Qed.

Lemma compact_spec junk red pos :
  exists s, compactLog query msg junk red (mkFile (log_image h rs) pos) = Some (0, s) /\
    f_bytes (cs_file s) = log_image h (kept rs) /\ g_num_delrec s = deleted rs.
Proof.
  unfold compactLog, f_size. cbn [f_bytes]. rewrite length_log_image.
  pose proof (recs_len_nonneg rs). pose proof (records_fit rs).
  destruct (_ =? 0) eqn:E; [unfold LOG_HDR_SIZE in E; zb|].
  replace (LOG_HDR_SIZE + recs_len rs - LOG_HDR_SIZE) with (recs_len rs) by lia. rewrite loop_loop_nat.
  edestruct compact_loop as (s' & -> & H1 & H2); [| |apply inv_start|]; [lia| |by exists s'].
  unfold LOG_HDR_SIZE. lia.
Qed.
End CompactSpec.

Lemma size_ok r : rec_ok r -> s32 (le_decode (size_image r)) = REC_HDR_SIZE + Z.of_nat (length (snd r)) /\
  u64 (log_size (fst r) + REC_HDR_SIZE) = u64 (REC_HDR_SIZE + Z.of_nat (length (snd r))).
Proof.
  intros (_ & Hsz & Hmax). unfold POSIX_LOG_ENTRY_MAXLEN, REC_HDR_SIZE in *. split.
  - apply size_field. unfold REC_HDR_SIZE. lia.
  - f_equal. lia.
Qed.

(** ** Counting *)

Section CountSpec.
Context `{HL : HostLib} `{RL : RegexLib} `{TL : TemplateLib}.
Variables (query : posix_log_query_t) (msg : str) (h : log_header_t) (rs : list record) (D : record -> bool).

(** The test of the count, which depends on the record alone. *)
Definition count_decides : Prop :=
  forall r stale, r ∈ rs -> exists b, _evlEvaluateQuery query (fst r) (snd r ++ stale) = Some b /\
    b && (streqb msg "" || negb (streqb msg (cstring (snd r ++ stale)))) = D r.
Hypothesis Hdec : count_decides.
Hypothesis Hrs : Forall rec_ok rs.
Hypothesis Hsize : LOG_HDR_SIZE + recs_len rs < 2 ^ 63.

Definition counted (k : nat) (s : count_state) : Prop :=
  f_bytes (cn_file s) = log_image h rs /\ cn_offset s = offset rs k /\ cn_bytes s = recs_len (drop k rs) /\
  cn_delcnt s = Z.of_nat (length (List.filter D (take k rs))) /\ cn_nbytes s = recs_len (List.filter D (take k rs)).

Lemma filter_len l : 0 <= recs_len (List.filter D l) <= recs_len l.
Proof. induction l as [|r l IH]; cbn; [lia|]. pose proof (rec_len_pos r). destruct (D r); cbn; lia. Qed.

Lemma counted_step k s r : rs !! k = Some r -> counted k s ->
  exists s', count_step query msg s = inl s' /\ counted (S k) s'.
Proof.
  intros Er. destruct s as [[b p] off btp vb nd nb rc]. intros (Hb & Ho & Hbt & Hnd & Hnb).
  cbn [cn_file cn_offset cn_bytes cn_delcnt cn_nbytes f_bytes] in *. subst.
  assert (rec_ok r) as Hr by (eapply Forall_forall in Hrs; [exact Hrs|]; by eapply list_elem_of_lookup_2).
  pose proof Hr as (He & Hsz & Hmax). pose proof (rec_len_pos r) as Hlr. pose proof (offset_nonneg rs k) as Ho0.
  assert (recs_len (drop k rs) = rec_len r + recs_len (drop (S k) rs)) as Hdr by (by rewrite (drop_S _ _ _ Er)).
  assert (recs_len (take k rs) + recs_len (drop k rs) = recs_len rs) as Hsp by (by rewrite <-recs_len_app, take_drop).
  pose proof (recs_len_nonneg (drop (S k) rs)). pose proof (recs_len_nonneg (take k rs)).
  pose proof (filter_len (take k rs)) as Hfl. unfold LOG_HDR_SIZE in *.
  pose proof (image_drop h rs k _ eq_refl) as Hd. rewrite (drop_record rs k r), rec_image_split, <-!app_assoc in Hd by done.
  unfold count_step. cbn [cn_file cn_offset cn_bytes cn_delcnt cn_nbytes cn_varbuf cn_reccnt].
  destruct (negb (_ >? 0)) eqn:E0; [zb|].
  assert (offset rs k = 40 + recs_len (take k rs)) as Hok by done.
  rewrite signed_id by (lia || (unfold in_signed; cbn; lia)). rewrite lseek_set_ok by lia. cbn [f_bytes].
  assert (0 <= offset rs k) as Hok0 by lia.
  rewrite (read_exact_full _ _ REC_HDR_SIZE _ _ Hok0 Hd) by (by rewrite length_entry_bytes).
  rewrite entry_roundtrip by done.
  assert (drop (Z.to_nat (offset rs k + REC_HDR_SIZE)) (log_image h rs) = snd r ++ size_image r ++ recs_image (drop (S k) rs)) as Hd2.
  { eapply drop_more; [exact Hok0|exact Hd|by rewrite length_entry_bytes]. }
  unfold rec_len, REC_HDR_SIZE, SIZESIZE, POSIX_LOG_ENTRY_MAXLEN in *.
  assert ((if (log_size (fst r) >? 0) && (log_size (fst r) <=? 8192)
           then read_exact (mkFile (log_image h rs) (offset rs k + 88)) (log_size (fst r))
           else (Some [], mkFile (log_image h rs) (offset rs k + 88)))
          = (Some (snd r), mkFile (log_image h rs) (offset rs k + 88 + Z.of_nat (length (snd r))))) as ->.
  { rewrite Hsz. destruct (_ && _) eqn:E1.
    - apply (read_exact_full _ _ _ _ (size_image r ++ recs_image (drop (S k) rs))); [lia|done|done].
    - assert (snd r = []) as ->.
      { apply nil_length_inv. apply andb_false_iff in E1 as [E1|E1]; bprop; lia. }
      cbn. by rewrite Z.add_0_r. }
  rewrite (read_exact_full _ _ 4 (size_image r) (recs_image (drop (S k) rs)));
    [|lia|by eapply drop_more; [|exact Hd2|]; [lia|]|unfold size_image; by rewrite length_le_encode].
  destruct (size_ok r Hr) as [-> _]. unfold REC_HDR_SIZE. rewrite Hsz, Z.eqb_refl. cbn [negb]. unfold overwrite.
  destruct (Hdec r (drop (length (snd r)) vb)) as (bb & -> & ->); [by eapply list_elem_of_lookup_2|].
  rewrite (unsigned_id 64 (88 + Z.of_nat (length (snd r)) + 4)) by (unfold in_unsigned; lia).
  rewrite (unsigned_id 64 (offset rs k + _)), (unsigned_id 64 (recs_len (drop k rs) - _)) by (unfold in_unsigned; lia).
  eexists. split; [reflexivity|]. unfold counted. cbn [cn_file cn_offset cn_bytes cn_delcnt cn_nbytes f_bytes].
  split_and!; [done|rewrite (offset_succ _ _ _ Er); unfold rec_len, REC_HDR_SIZE, SIZESIZE; lia|lia| |].
  - rewrite (take_S_r _ _ r) by done. rewrite List.filter_app, length_app. cbn. destruct (D r); cbn; lia.
  - rewrite (take_S_r _ _ r) by done. rewrite List.filter_app, recs_len_app. cbn. destruct (D r); cbn;
      unfold rec_len, REC_HDR_SIZE, SIZESIZE; [rewrite unsigned_id by (unfold in_unsigned; lia)|]; lia.
Qed.

Lemma count_loop n : forall k s, (k <= length rs)%nat -> (length rs - k < n)%nat -> counted k s ->
  loop_nat (count_step query msg) n s =
    inr (Some (0, (Z.of_nat (length (List.filter D rs)), recs_len (List.filter D rs)))).
Proof.
  induction n as [|n IH]; intros k s Hk Hn Hs; [lia|]. cbn [loop_nat]. destruct (rs !! k) as [r|] eqn:Er.
  - pose proof (lookup_lt_Some _ _ _ Er). destruct (counted_step k s r Er Hs) as (s' & -> & Hs').
    apply (IH (S k)); [lia|lia|done].
  - assert (k = length rs) as -> by (apply lookup_ge_None in Er; lia).
    destruct Hs as (_ & _ & Hbt & Hnd & Hnb). rewrite drop_all, firstn_all in *.
    unfold count_step. rewrite Hbt, Hnd, Hnb. done.
Qed.

Lemma count_spec junk pos : countRecsForDeletion query msg junk (mkFile (log_image h rs) pos) =
  Some (0, (Z.of_nat (length (List.filter D rs)), recs_len (List.filter D rs))).
Proof.
  unfold countRecsForDeletion, f_size. cbn [f_bytes]. rewrite length_log_image.
  pose proof (recs_len_nonneg rs). pose proof (records_fit rs). unfold LOG_HDR_SIZE in *.
  destruct (_ =? 0) eqn:E; [zb|]. rewrite loop_loop_nat. rewrite unsigned_id by (unfold in_unsigned; lia).
  rewrite (count_loop _ 0); [done|lia|lia|]. unfold counted. cbn [cn_file cn_offset cn_bytes cn_delcnt cn_nbytes f_bytes].
  rewrite drop_0. split_and!; [done..|lia|done|done].
Qed.
End CountSpec.

(** ** Generation numbers *)

Lemma set_generation_image h rs pos type :
  header_ok h -> lh_magic h = LOGFILE_MAGIC ->
  exists p, setGenerationNumber (mkFile (log_image h rs) pos) type =
    (0, mkFile (log_image (set_generation h (next_generation type (lh_generation h))) rs) p).
Proof.
  intros Hh Hm. unfold setGenerationNumber. rewrite lseek_set_ok by lia. cbn [f_bytes].
  rewrite (read_exact_full _ 0 LOG_HDR_SIZE (header_bytes h) (recs_image rs)) by (done || by rewrite length_header_bytes).
  rewrite header_roundtrip by done. rewrite Hm. cbn [negb Z.eqb Pos.eqb LOGFILE_MAGIC]. rewrite lseek_set_ok by lia. cbn [f_bytes].
  set (g := next_generation type (lh_generation h)).
  assert (take 32 (header_bytes h) ++ le_encode 4 g ++ drop 36 (header_bytes h) = header_bytes (set_generation h g)) as ->.
  { destruct h. reflexivity. }
  eexists. rewrite (write_inside _ [] (header_bytes h) (recs_image rs)); [|done|done|by rewrite !length_header_bytes].
  cbn [app]. rewrite drop_ge by (by rewrite !length_header_bytes). done.
Qed.

Lemma next_generation_parity g : 
  Z.odd (next_generation GEN_EVEN g) = false /\ Z.odd (next_generation GEN_ODD g) = true.
Proof.
  unfold next_generation, unsigned.
  assert (forall x, Z.odd (x mod 2 ^ 32) = Z.odd x) as Hodd.
  { intros x. change (2 ^ 32) with (2 * 2 ^ 31). rewrite (Z.div_mod x (2 * 2 ^ 31)) at 2 by lia.
    rewrite <-Z.mul_assoc, Z.odd_add_mul_2 || (rewrite Z.add_comm, <-Z.mul_assoc; rewrite Z.odd_add_mul_2). done. }
  rewrite Zmod_odd. destruct (Z.odd g) eqn:E; cbn [negb Z.eqb]; rewrite ?Hodd, ?Z.odd_add, ?E; done.
Qed.

(** ** The maintenance commands *)

Definition EVL_FORCE_COMPACT : Z := 1.

Section Commands.
Context `{HL : HostLib} `{RL : RegexLib} `{TL : TemplateLib}.

(** What the command meets: the query that the filter gives, the status of
    logging the STARTMAINT event, the file that [open] gives, and whether the
    backup copy could be made. *)
Record compact_env := mkEnv {
  ce_query : option posix_log_query_t;
  ce_startmaint : Z;
  ce_file : option file;
  ce_backup : bool
}.

(** The status, the log afterwards, and the number of records removed. *)
Definition evl_compact_log (env : compact_env) (msg : str) (flags : Z) (junk : list Z) (reduced : Z)
  : option (Z * option file * Z) :=
  match ce_query env with
  | None => Some (EINVAL, ce_file env, 0)
  | Some query =>
      if negb (ce_startmaint env =? 0) then Some (ce_startmaint env, ce_file env, 0)
      else
        match ce_file env with
        | None => Some (EBADF, None, 0)
        | Some f =>
            let exit_ (ret : Z) (f : file) (n : Z) :=
              let '(st, f) := setGenerationNumber f GEN_EVEN in
              Some (if negb (st =? 0) then EBADF else ret, Some f, n) in
            if negb (ce_backup env) && (Z.land flags EVL_FORCE_COMPACT =? 0) then exit_ EBADF f 0
            else
              let '(st, f) := setGenerationNumber f GEN_ODD in
              if negb (st =? 0) then exit_ EBADF f 0
              else
                '(ret, s) ← compactLog query msg junk reduced f;
                exit_ ret (cs_file s) (g_num_delrec s)
        end
  end.
End Commands.

(** The status and the log; [None] at the outside: the loop of [repairLog] has not
    ended after [n] iterations. *)
Definition evl_repair_log (n : positive) (startmaint : Z) (path : option file) : option (option (Z * Z * option file)) :=
  if negb (startmaint =? 0) then Some (Some (startmaint, 0, path))
  else
    match path with
    | None => Some (Some (EBADF, 0, None))
    | Some f =>
        match repairLog n f with
        | inl _ => None
        | inr None => Some None
        | inr (Some (ret, status, f)) =>
            if ret =? 0 then
              let '(st, f) := setGenerationNumber f GEN_EVEN in
              Some (Some (if negb (st =? 0) then EBADF else 0, status, Some f))
            else Some (Some (ret, status, Some f))
        end
    end.

(** ** Repair *)

Lemma loop_first {S R} (step : S -> S + R) n s r : step s = inr r -> loop step n s = inr r.
Proof. intros Hs. rewrite loop_loop_nat. destruct (Pos2Nat.is_succ n) as [m ->]. cbn. by rewrite Hs. Qed.

(** A good record is accepted. *)
Lemma validate_good bytes pos off r rest : 0 <= off -> off + rec_len r < 2 ^ 63 ->
  drop (Z.to_nat off) bytes = rec_image r ++ rest -> rec_ok r -> good_magic (log_magic (fst r)) = true ->
  exists p, validateRec (mkFile bytes pos) off = (off + rec_len r, mkFile bytes p).
Proof.
  intros Hoff Hlt Hd Hr Hm. unfold validateRec. rewrite lseek_set_ok by done. cbn [f_bytes].
  rewrite rec_image_split, <-!app_assoc in Hd.
  rewrite (read_exact_full bytes _ REC_HDR_SIZE _ _ Hoff Hd) by (by rewrite length_entry_bytes).
  rewrite entry_roundtrip by apply Hr. pose proof Hr as (_ & Hsz & Hmax).
  assert (s64 (off + log_size (fst r) + REC_HDR_SIZE) = off + REC_HDR_SIZE + Z.of_nat (length (snd r))) as ->.
  { rewrite Hsz. unfold rec_len, REC_HDR_SIZE, SIZESIZE in *. rewrite signed_id; [lia|lia|]. unfold in_signed. cbn. lia. }
  rewrite lseek_set_ok by (unfold REC_HDR_SIZE; lia). cbn [f_bytes].
  rewrite (read_exact_full bytes _ SIZESIZE (size_image r) rest).
  - destruct (size_ok r Hr) as [-> ->]. rewrite Hm, Z.eqb_refl. cbn [andb]. by eexists.
  - unfold REC_HDR_SIZE. lia.
  - rewrite app_assoc in Hd. replace (off + REC_HDR_SIZE + Z.of_nat (length (snd r))) with (off + Z.of_nat (length (entry_bytes (fst r) ++ snd r))).
    + by eapply drop_more.
    + rewrite length_app, length_entry_bytes. unfold REC_HDR_SIZE. lia.
  - unfold size_image. by rewrite length_le_encode.
Qed.

Lemma entry_prefix e : exists tl, entry_bytes e = le_encode 4 (log_magic e) ++ le_encode 4 (log_recid e) ++ le_encode 8 (log_size e) ++ tl.
Proof. eexists. reflexivity. Qed.

Lemma le_decode_id w n : 0 <= n < 256 ^ Z.of_nat w -> le_decode (le_encode w n) = n.
Proof. intros Hn. rewrite le_decode_encode. by apply Z.mod_small. Qed.

Section Torn.
(** A record cut off by a crash: [n] bytes of it are in the file. *)
Variables (pre : list Z) (r : record) (n : nat).
Hypothesis Hr : rec_ok r.
Hypothesis Hm : good_magic (log_magic (fst r)) = true.
Hypothesis Hn : Z.of_nat n < rec_len r.
Hypothesis Hlt : Z.of_nat (length pre) + rec_len r < 2 ^ 63.
Let bytes := pre ++ take n (rec_image r).
Let off := Z.of_nat (length pre).

Lemma torn_length : Z.of_nat (length bytes) = off + Z.of_nat n.
Proof.
  unfold bytes, off. rewrite length_app, length_take. pose proof (length_rec_image r). lia.
Qed.
Lemma torn_drop a b : rec_image r = a ++ b -> (length a <= n)%nat ->
  drop (Z.to_nat off) bytes = a ++ take (n - length a) b.
Proof.
  intros Hab Ha. unfold bytes, off. rewrite Nat2Z.id, drop_app_length, Hab. by rewrite take_app_ge.
Qed.

(** Reading the size after the record fails. *)
Lemma torn_trailer pos : exists f, read_exact (lseek_ignored (mkFile bytes pos) (s64 (off + log_size (fst r) + REC_HDR_SIZE))) SIZESIZE = (None, f) /\ f_bytes f = bytes.
Proof.
  pose proof Hr as (_ & Hsz & Hmax). unfold rec_len, REC_HDR_SIZE, SIZESIZE in *.
  rewrite signed_id; [|lia|unfold in_signed, off; cbn; lia].
  rewrite lseek_ignored_ok by (unfold off; lia). cbn [f_bytes]. apply read_exact_short; [unfold off; lia|lia|].
  rewrite torn_length. lia.
Qed.

Lemma torn_invalid pos : exists f, validateRec (mkFile bytes pos) off = (-1, f) /\ f_bytes f = bytes.
Proof.
  unfold validateRec. rewrite lseek_set_ok by (unfold off; lia). cbn [f_bytes].
  destruct (decide (n < 88)%nat) as [Hs|Hs].
  - destruct (read_exact_short bytes off REC_HDR_SIZE) as (f & -> & Hf); [unfold off; lia|done| |by exists f].
    rewrite torn_length. unfold REC_HDR_SIZE. lia.
  - rewrite (read_exact_full bytes off REC_HDR_SIZE (entry_bytes (fst r)) (take (n - 88) (snd r ++ size_image r)));
      [|unfold off; lia| |by rewrite length_entry_bytes].
    2: { rewrite (torn_drop (entry_bytes (fst r)) (snd r ++ size_image r)); [by rewrite length_entry_bytes|done|rewrite length_entry_bytes; lia]. }
    rewrite entry_roundtrip by apply Hr.
    destruct (torn_trailer (off + REC_HDR_SIZE)) as (f & Ht & Hf). unfold lseek_ignored in Ht.
    destruct (lseek_set _ _) as [g|] eqn:Eg; [|by eexists; split; [done|]].
    change (read_exact g SIZESIZE = (None, f)) in Ht. rewrite Ht. by exists f.
Qed.

Lemma torn_search pos : exists f, searchForNextGoodRecord (mkFile bytes pos) off = Some (-1, f) /\ f_bytes f = bytes.
Proof.
  unfold searchForNextGoodRecord. rewrite lseek_ignored_ok by (unfold off; lia). cbn [f_bytes].
  assert (exists f, search_step (mkFile bytes off, off) = inr (-1, f) /\ f_bytes f = bytes) as (f & Hf & Hb).
  2: { exists f. by rewrite (loop_first _ _ _ _ Hf). }
  destruct (entry_prefix (fst r)) as [tl Htl]. pose proof Hr as (He & _ & _).
  assert (in_unsigned 32 (log_magic (fst r)) /\ in_unsigned 64 (log_size (fst r))) as [Hmr Hsr] by (unfold entry_ok in He; tauto).
  assert (rec_image r = le_encode 4 (log_magic (fst r)) ++ le_encode 4 (log_recid (fst r)) ++ le_encode 8 (log_size (fst r)) ++ tl ++ snd r ++ size_image r) as Himg.
  { rewrite rec_image_split, Htl. by rewrite <-!app_assoc. }
  unfold search_step. destruct (decide (n < 4)%nat) as [H4|H4].
  { destruct (read_exact_short bytes off 4) as (f & -> & Hf); [unfold off; lia|lia|rewrite torn_length; lia|by exists f]. }
  rewrite (read_exact_full bytes off 4 _ _ ltac:(unfold off; lia) (torn_drop _ _ Himg ltac:(rewrite length_le_encode; lia))) by (by rewrite length_le_encode).
  rewrite le_decode_id by (exact Hmr). rewrite Hm. rewrite lseek_ignored_ok by (unfold off; lia). cbn [f_bytes].
  destruct (decide (n < 16)%nat) as [H16|H16].
  { destruct (read_exact_short bytes (off + 8) 8) as (f & -> & Hf); [unfold off; lia|lia|rewrite torn_length; lia|by exists f]. }
  rewrite app_assoc in Himg.
  assert (exists rest, drop (Z.to_nat (off + 8)) bytes = le_encode 8 (log_size (fst r)) ++ rest) as [rest Hd8].
  { eexists. eapply drop_more; [unfold off; lia| |].
    - rewrite (torn_drop _ _ Himg) by (rewrite length_app, !length_le_encode; lia).
      rewrite take_app_ge by (rewrite ?length_app, ?length_le_encode; lia). reflexivity.
    - by rewrite length_app, !length_le_encode. }
  rewrite (read_exact_full bytes (off + 8) 8 _ _ ltac:(unfold off; lia) Hd8) by (by rewrite length_le_encode).
  rewrite le_decode_id by (exact Hsr).
  destruct (torn_trailer (off + 8 + 8)) as (f & -> & Hf). by exists f.
Qed.
End Torn.

Section RepairSpec.
Variables (h : log_header_t) (rs : list record) (tail : list Z).
Hypothesis Hrs : good_recs rs.
Let bytes := log_image h rs ++ tail.
Let size := Z.of_nat (length bytes).
Hypothesis Hsize : size < 2 ^ 63.

Definition scanning (k : nat) (pos st : Z) : repair_state :=
  mkRepair false (mkFile bytes pos) (mkFi (offset rs k) 0 (recs_len (drop k rs) + Z.of_nat (length tail))) st.

Lemma size_split : size = LOG_HDR_SIZE + recs_len rs + Z.of_nat (length tail).
Proof. unfold size, bytes. rewrite length_app, Nat2Z.inj_add, length_log_image. done. Qed.
Lemma start_scanning pos st : repair_again size (mkFile bytes pos) st = scanning 0 pos st.
Proof.
  unfold repair_again, scanning. f_equal. rewrite size_split, drop_0. unfold offset. cbn [take recs_len].
  f_equal; unfold LOG_HDR_SIZE; lia.
Qed.

Lemma bytes_drop k : (k <= length rs)%nat -> drop (Z.to_nat (offset rs k)) bytes = recs_image (drop k rs) ++ tail.
Proof.
  intros Hk. unfold bytes. rewrite drop_app_le; [by rewrite (image_drop _ _ k)|].
  pose proof (length_log_image h rs). unfold offset, LOG_HDR_SIZE in *.
  pose proof (recs_len_nonneg (drop k rs)). pose proof (recs_len_nonneg (take k rs)).
  assert (recs_len (take k rs) + recs_len (drop k rs) = recs_len rs) by (by rewrite <-recs_len_app, take_drop). lia.
Qed.

Lemma scan_step k pos st r : rs !! k = Some r ->
  exists pos', repair_step size (scanning k pos st) = inl (scanning (S k) pos' st).
Proof.
  intros Er. assert (rec_ok r /\ good_magic (log_magic (fst r)) = true) as [Hr Hm].
  { eapply Forall_forall in Hrs; [exact Hrs|]. by eapply list_elem_of_lookup_2. }
  pose proof (lookup_lt_Some _ _ _ Er) as Hk. pose proof (rec_len_pos r). pose proof (offset_nonneg rs k).
  pose proof (bytes_drop k ltac:(lia)) as Hd. rewrite (drop_record rs k r), <-app_assoc in Hd by done.
  assert (recs_len (drop k rs) = rec_len r + recs_len (drop (S k) rs)) as Hrd.
  { rewrite (drop_S _ _ _ Er). done. }
  pose proof (recs_len_nonneg (drop (S k) rs)). pose proof size_split.
  assert (recs_len (take k rs) + recs_len (drop k rs) = recs_len rs) as Hsp by (by rewrite <-recs_len_app, take_drop).
  destruct (validate_good bytes pos (offset rs k) r (recs_image (drop (S k) rs) ++ tail)) as [p Hp]; try done.
  { unfold LOG_HDR_SIZE in *. lia. }
  { unfold offset, LOG_HDR_SIZE in *. lia. }
  exists p. unfold repair_step, scanning. cbn [rp_moving rp_fi rp_file rp_status bytes_to_process offset_ beginhole].
  destruct (negb (_ >? 0)) eqn:E; [zb|]. rewrite Hp. unfold LOG_HDR_SIZE in *.
  destruct (_ =? -1) eqn:E1; [zb|]. rewrite (offset_succ _ _ _ Er). do 3 f_equal. lia.
Qed.

Lemma scan_all st pos : exists pos', loop_nat (repair_step size) (length rs) (repair_again size (mkFile bytes pos) st) =
  inl (scanning (length rs) pos' st).
Proof.
  assert (forall m k pos, (k + m = length rs)%nat -> exists pos',
    loop_nat (repair_step size) m (scanning k pos st) = inl (scanning (length rs) pos' st)) as H.
  { induction m as [|m IH]; intros k p Hk.
    - exists p. by replace k with (length rs) by lia.
    - destruct (lookup_lt_is_Some_2 rs k) as [r Er]; [lia|]. cbn [loop_nat].
      destruct (scan_step k p st r Er) as [p' ->]. apply IH. lia. }
  rewrite start_scanning. apply (H (length rs) 0%nat). lia.
Qed.

Lemma run_after n pos st m r : (length rs + m <= Pos.to_nat n)%nat ->
  (forall pos', exists x, loop_nat (repair_step size) m (scanning (length rs) pos' st) = inr x /\ r x) ->
  exists x, loop (repair_step size) n (repair_again size (mkFile bytes pos) st) = inr x /\ r x.
Proof.
  intros Hn Hr. rewrite loop_loop_nat. destruct (scan_all st pos) as [pos' Hs].
  replace (Pos.to_nat n) with (length rs + (m + (Pos.to_nat n - length rs - m)))%nat by lia.
  rewrite loop_nat_add, Hs, loop_nat_add. destruct (Hr pos') as (x & -> & Hx). by exists x.
Qed.
End RepairSpec.

Lemma good_image_take h rs tail pos : ftruncate (mkFile (log_image h rs ++ tail) pos) (offset rs (length rs)) = mkFile (log_image h rs) pos.
Proof.
  unfold ftruncate. cbn [f_bytes f_pos]. rewrite offset_all. pose proof (length_log_image h rs). pose proof (recs_len_nonneg rs).
  rewrite take_app_length' by (unfold LOG_HDR_SIZE in *; lia).
  rewrite (proj2 (Nat.sub_0_le _ _)) by (rewrite length_app; unfold LOG_HDR_SIZE in *; lia). by rewrite app_nil_r.
Qed.

(** A clean log is left alone. *)
Lemma repair_clean h rs pos n : good_recs rs -> LOG_HDR_SIZE + recs_len rs < 2 ^ 63 -> (S (length rs) <= Pos.to_nat n)%nat ->
  exists f, repairLog n (mkFile (log_image h rs) pos) = inr (Some (0, 0, f)) /\ f_bytes f = log_image h rs.
Proof.
  intros Hrs Hsz Hn. unfold repairLog, f_size. cbn [f_bytes]. pose proof (length_log_image h rs) as Hl. pose proof (recs_len_nonneg rs).
  destruct (_ =? 0) eqn:E; [unfold LOG_HDR_SIZE in *; zb|].
  destruct (run_after h rs [] Hrs ltac:(rewrite app_nil_r; lia) n pos 0 1 (fun x => exists f, x = Some (0, 0, f) /\ f_bytes f = log_image h rs))
    as (x & Hx & f & -> & Hf); [lia| |].
  - intros pos'. cbn [loop_nat]. unfold repair_step, scanning. cbn [rp_moving rp_fi rp_file rp_status bytes_to_process].
    rewrite drop_all. cbn [recs_len length Z.of_nat Z.add Z.gtb Z.compare negb]. eexists. split; [done|].
    eexists. split; [done|]. cbn. by rewrite app_nil_r.
  - exists f. rewrite app_nil_r in Hx. done.
Qed.

(** A record that a crash cut off is removed, and nothing else. *)
Lemma repair_torn h rs r m pos n :
  good_recs rs -> rec_ok r -> good_magic (log_magic (fst r)) = true ->
  LOG_HDR_SIZE + recs_len rs + rec_len r < 2 ^ 63 -> 0 < Z.of_nat m < rec_len r -> (S (length rs) <= Pos.to_nat n)%nat ->
  exists f, repairLog n (mkFile (log_image h rs ++ take m (rec_image r)) pos) = inr (Some (0, 1, f)) /\ f_bytes f = log_image h rs.
Proof.
  intros Hrs Hr Hm Hsz Hm1 Hn. pose proof (length_log_image h rs) as Hl. pose proof (recs_len_nonneg rs) as H0.
  assert (Z.of_nat (length (take m (rec_image r))) = Z.of_nat m) as Htl.
  { rewrite length_take. pose proof (length_rec_image r). lia. }
  unfold repairLog, f_size. cbn [f_bytes].
  destruct (_ =? 0) eqn:E; [rewrite length_app in E; unfold LOG_HDR_SIZE in *; zb|].
  destruct (run_after h rs (take m (rec_image r)) Hrs ltac:(rewrite length_app, Nat2Z.inj_add; unfold LOG_HDR_SIZE in *; lia) n pos 0 1
    (fun x => exists f, x = Some (0, 1, f) /\ f_bytes f = log_image h rs)) as (x & -> & f & -> & Hf); [lia| |by exists f].
  intros pos'. cbn [loop_nat]. unfold repair_step, scanning. cbn [rp_moving rp_fi rp_file rp_status bytes_to_process offset_ beginhole].
  rewrite drop_all. cbn [recs_len]. destruct (negb (_ >? 0)) eqn:E1; [zb|].
  assert (offset rs (length rs) = Z.of_nat (length (log_image h rs))) as Hoff by (by rewrite offset_all, Hl).
  destruct (torn_invalid (log_image h rs) r m Hr ltac:(lia) ltac:(unfold LOG_HDR_SIZE in *; lia) pos') as ([b1 p1] & Hv & Hb1).
  cbn [f_bytes] in Hb1. subst b1. rewrite Hoff, Hv. cbn [Z.eqb Pos.eqb].
  destruct (torn_search (log_image h rs) r m Hr Hm ltac:(lia) ltac:(unfold LOG_HDR_SIZE in *; lia) p1) as ([b2 p2] & Hs & Hb2).
  cbn [f_bytes] in Hb2. subst b2. rewrite Hs. cbn [Z.eqb Pos.eqb]. eexists. split; [done|]. unfold repair_finish. cbn [beginhole].
  assert ((Z.of_nat (length (log_image h rs)) >? 0) = true) as -> by (apply Z.gtb_lt; unfold LOG_HDR_SIZE in *; lia).
  rewrite <-Hoff, good_image_take. by eexists.
Qed.

Section MoveSpec.
(** Records behind a bad block are moved up over it. *)
Variables (pre : list Z) (rs : list record) (len : Z) (size : Z).
Hypothesis Hrs : good_recs rs.
Hypothesis Hlen : 0 <= len.
Hypothesis Hpre : 0 < Z.of_nat (length pre).
Hypothesis Hsize : Z.of_nat (length pre) + len + recs_len rs < 2 ^ 63.
Let base := Z.of_nat (length pre).

Definition moving (j : nat) (s : repair_state) : Prop :=
  exists gap pos, Z.of_nat (length gap) = len /\
    s = mkRepair true (mkFile ((pre ++ recs_image (take j rs)) ++ gap ++ recs_image (drop j rs)) pos)
          (mkFi (base + len + recs_len (take j rs)) (base + recs_len (take j rs)) (recs_len (drop j rs))) 1.

Lemma moving_step j s r : rs !! j = Some r -> moving j s -> exists s', repair_step size s = inl s' /\ moving (S j) s'.
Proof.
  intros Er (gap & pos & Hgap & ->). assert (rec_ok r /\ good_magic (log_magic (fst r)) = true) as [Hr Hm].
  { eapply Forall_forall in Hrs; [exact Hrs|]. by eapply list_elem_of_lookup_2. }
  pose proof (rec_len_pos r). destruct (rec_len_u64 r Hr Hm) as [Hrl Hrl'].
  assert (recs_len (take (S j) rs) = recs_len (take j rs) + rec_len r) as Htake.
  { rewrite (take_S_r _ _ r) by done. rewrite recs_len_app. cbn. lia. }
  assert (recs_len (drop j rs) = rec_len r + recs_len (drop (S j) rs)) as Hdr by (by rewrite (drop_S _ _ _ Er)).
  assert (recs_len (take j rs) + recs_len (drop j rs) = recs_len rs) as Hsp by (by rewrite <-recs_len_app, take_drop).
  pose proof (recs_len_nonneg (take j rs)). pose proof (recs_len_nonneg (drop (S j) rs)).
  set (bytes := (pre ++ recs_image (take j rs)) ++ gap ++ recs_image (drop j rs)).
  assert (Z.of_nat (length (pre ++ recs_image (take j rs))) = base + recs_len (take j rs)) as Hfront.
  { rewrite length_app, Nat2Z.inj_add, length_recs_image. done. }
  assert (0 <= base + len + recs_len (take j rs)) as Hoff by (unfold base; lia).
  assert (drop (Z.to_nat (base + len + recs_len (take j rs))) bytes = rec_image r ++ recs_image (drop (S j) rs)) as Hd.
  { unfold bytes. rewrite app_assoc, <-(drop_record rs j r) by done. apply drop_app_length'. rewrite length_app. lia. }
  unfold repair_step. cbn [rp_moving rp_fi rp_file rp_status bytes_to_process offset_ beginhole].
  destruct (negb (_ >? 0)) eqn:E; [zb|]. rewrite lseek_ignored_ok by done. cbn [f_bytes]. fold bytes.
  rewrite rec_image_split, <-!app_assoc in Hd.
  rewrite (read_exact_full bytes _ REC_HDR_SIZE _ _ Hoff Hd) by (by rewrite length_entry_bytes).
  rewrite entry_roundtrip by apply Hr. rewrite Hrl, Hrl'.
  rewrite (move_spec bytes _ (pre ++ recs_image (take j rs)) (gap ++ rec_image r) (recs_image (drop (S j) rs)) r);
    [|unfold bytes; rewrite (drop_record rs j r) by done; by rewrite <-!app_assoc|done|rewrite length_app; lia|done
     |unfold REC_HDR_SIZE; lia|].
  2: { eexists. rewrite <-app_assoc. eapply drop_more; [done|exact Hd|by rewrite length_entry_bytes]. }
  change (0 =? -1) with false. cbv iota. cbn [offset_ beginhole bytes_to_process].
  rewrite !signed_id by (lia || (unfold in_signed, base in *; cbn; lia)).
  eexists. split; [reflexivity|]. exists (drop (length (rec_image r)) (gap ++ rec_image r)). eexists. split.
  - rewrite length_drop, length_app. lia.
  - rewrite Htake. rewrite (take_S_r _ _ r) by done. rewrite recs_image_app.
    change (recs_image [r]) with (rec_image r ++ []). rewrite app_nil_r, <-!app_assoc.
    replace (recs_len (drop j rs) - rec_len r) with (recs_len (drop (S j) rs)) by lia. by rewrite !Z.add_assoc.
Qed.

Lemma moving_end s : moving (length rs) s ->
  exists f, loop_nat (repair_step size) 2 s = inr (Some (0, 1, f)) /\ f_bytes f = pre ++ recs_image rs.
Proof.
  intros (gap & pos & Hgap & ->). rewrite firstn_all, drop_all. cbn [loop_nat].
  unfold repair_step at 1. cbn [rp_moving rp_fi rp_file rp_status bytes_to_process recs_len Z.gtb Z.compare negb].
  unfold repair_step. cbn [rp_moving rp_fi rp_file rp_status bytes_to_process recs_len Z.gtb Z.compare negb].
  unfold repair_finish. cbn [beginhole]. eexists. split; [done|]. pose proof (recs_len_nonneg rs).
  assert ((base + recs_len rs >? 0) = true) as -> by (apply Z.gtb_lt; unfold base; lia).
  unfold ftruncate. cbn [f_bytes]. rewrite app_nil_r.
  assert (Z.of_nat (length (pre ++ recs_image rs)) = base + recs_len rs) as Hfront.
  { rewrite length_app, Nat2Z.inj_add, length_recs_image. done. }
  rewrite take_app_length' by lia. rewrite (proj2 (Nat.sub_0_le _ _)) by (rewrite length_app; lia). by rewrite app_nil_r.
Qed.

Lemma moving_all m : forall j s, (j + m = length rs)%nat -> moving j s ->
  exists f, loop_nat (repair_step size) (m + 2) s = inr (Some (0, 1, f)) /\ f_bytes f = pre ++ recs_image rs.
Proof.
  induction m as [|m IH]; intros j s Hj Hs.
  - replace j with (length rs) in Hs by lia. by apply moving_end.
  - destruct (lookup_lt_is_Some_2 rs j) as [r Er]; [lia|]. destruct (moving_step j s r Er Hs) as (s' & Hst & Hs').
    change (S m + 2)%nat with (S (m + 2)). cbn [loop_nat]. rewrite Hst. apply (IH (S j)); [lia|done].
Qed.
End MoveSpec.

(** A bad block between good records is cut out, when the search finds the record
    after it. *)
Lemma repair_block h rs1 junk rs2 pos n :
  good_recs rs1 -> good_recs rs2 -> 0 < Z.of_nat (length junk) ->
  let bytes := log_image h rs1 ++ junk ++ recs_image rs2 in
  let off := offset rs1 (length rs1) in
  Z.of_nat (length bytes) < 2 ^ 63 ->
  (forall p, exists p', validateRec (mkFile bytes p) off = (-1, mkFile bytes p')) ->
  (forall p, exists p', searchForNextGoodRecord (mkFile bytes p) off = Some (off + Z.of_nat (length junk), mkFile bytes p')) ->
  (length rs1 + length rs2 + 3 <= Pos.to_nat n)%nat ->
  exists f, repairLog n (mkFile bytes pos) = inr (Some (0, 1, f)) /\ f_bytes f = log_image h (rs1 ++ rs2).
Proof.
  intros H1 H2 Hj bytes off Hsz Hval Hsearch Hn. unfold repairLog, f_size. cbn [f_bytes].
  assert (off = Z.of_nat (length (log_image h rs1))) as Hoff by (unfold off; by rewrite offset_all, length_log_image).
  pose proof (offset_nonneg rs1 (length rs1)) as Ho. fold off in Ho. unfold LOG_HDR_SIZE in Ho.
  assert (Z.of_nat (length bytes) = off + Z.of_nat (length junk) + recs_len rs2) as Hb.
  { unfold bytes. rewrite !length_app, !Nat2Z.inj_add, <-Hoff, length_recs_image. lia. }
  pose proof (recs_len_nonneg rs2). destruct (_ =? 0) eqn:E; [zb|].
  destruct (run_after h rs1 (junk ++ recs_image rs2) H1 Hsz n pos 0 (S (length rs2 + 2))
    (fun x => exists f, x = Some (0, 1, f) /\ f_bytes f = log_image h (rs1 ++ rs2))) as (x & Hx & f & -> & Hf); [lia| |by exists f; split; [exact Hx|]].
  intros pos'. cbn [loop_nat]. unfold repair_step at 1, scanning. fold bytes. cbn [rp_moving rp_fi rp_file rp_status bytes_to_process offset_ beginhole].
  rewrite drop_all, length_app, Nat2Z.inj_add, length_recs_image. cbn [recs_len]. destruct (negb (_ >? 0)) eqn:E1; [zb|].
  fold off. destruct (Hval pos') as [p1 ->]. cbn [Z.eqb Pos.eqb]. destruct (Hsearch p1) as [p2 ->].
  destruct (_ =? -1) eqn:E2; [zb|].
  assert (0 < Z.of_nat (length (log_image h rs1))) as Hp1 by (rewrite <-Hoff; lia).
  assert (Z.of_nat (length (log_image h rs1)) + Z.of_nat (length junk) + recs_len rs2 < 2 ^ 63) as Hp2 by (rewrite <-Hoff; lia).
  destruct (moving_all (log_image h rs1) rs2 (Z.of_nat (length junk)) (Z.of_nat (length bytes)) H2 Hp1 Hp2
    (length rs2) 0 (mkRepair true (mkFile bytes p2) (mkFi (off + Z.of_nat (length junk)) off (recs_len rs2)) 1)) as (f & Hf & Hfb); [done| |].
  - exists junk, p2. split; [done|]. change (recs_image (take 0 rs2)) with (@nil Z). rewrite app_nil_r, drop_0, <-Hoff.
    cbn [take recs_len]. by rewrite !Z.add_0_r.
  - replace (0 + (Z.of_nat (length junk) + recs_len rs2) - (off + Z.of_nat (length junk) - off)) with (recs_len rs2) by lia.
    rewrite Hf. eexists. split; [done|]. exists f. split; [done|]. rewrite Hfb. unfold log_image. by rewrite recs_image_app, app_assoc.
Qed.

(** ** Properties *)

Lemma set_generation_ok h type : header_ok h -> header_ok (set_generation h (next_generation type (lh_generation h))).
Proof.
  unfold header_ok, set_generation. cbn. intros (H1 & H2 & H3 & H4 & H5). split_and!; try done.
  destruct type; cbn; try (by apply unsigned_range); [unfold in_unsigned; lia| |];
    [destruct (negb _)|destruct (_ =? 0)]; done || by apply unsigned_range.
Qed.

Section Properties.
Context `{HL : HostLib} `{RL : RegexLib} `{TL : TemplateLib}.

(** C16: compaction ends, removes exactly the records that the deletion test
    selects, keeps the others unchanged and in order, and counts the removed
    ones. *)
Theorem compaction_removes_selected query msg h rs D junk red pos :
  del_decides query msg rs D -> good_recs rs -> LOG_HDR_SIZE + recs_len rs < 2 ^ 63 ->
  exists s, compactLog query msg junk red (mkFile (log_image h rs) pos) = Some (0, s) /\
    f_bytes (cs_file s) = log_image h (List.filter (fun r => negb (D r)) rs) /\
    g_num_delrec s = Z.of_nat (length (List.filter D rs)).
Proof. intros Hdec Hrs Hsz. by apply compact_spec. Qed.

(** The compaction command on a quiescent log leaves the kept records and the
    generation number advanced by two, so that readers who opened the log before
    are refused and new ones are not; without a backup and without the force
    option it changes nothing. *)
Theorem compaction_command query msg h rs D junk red pos backup flags :
  del_decides query msg rs D -> good_recs rs -> LOG_HDR_SIZE + recs_len rs < 2 ^ 63 ->
  header_ok h -> lh_magic h = LOGFILE_MAGIC -> Z.odd (lh_generation h) = false ->
  exists f,
    evl_compact_log (mkEnv (Some query) 0 (Some (mkFile (log_image h rs) pos)) backup) msg flags junk red =
      Some (if backup || negb (Z.land flags EVL_FORCE_COMPACT =? 0) then
              (0, Some f, Z.of_nat (length (List.filter D rs)))
            else (EBADF, Some f, 0)) /\
    f_bytes f =
      if backup || negb (Z.land flags EVL_FORCE_COMPACT =? 0) then
        log_image (set_generation h (u32 (lh_generation h + 2))) (List.filter (fun r => negb (D r)) rs)
      else log_image h rs.
Proof.
  intros Hdec Hrs Hsz Hh Hm Hev. unfold evl_compact_log. cbn [ce_query ce_startmaint ce_file ce_backup negb Z.eqb].
  assert (negb backup && (Z.land flags EVL_FORCE_COMPACT =? 0) = negb (backup || negb (Z.land flags EVL_FORCE_COMPACT =? 0))) as ->.
  { by rewrite negb_orb, negb_involutive. }
  assert (lh_generation h mod 2 = 0) as Hmod by (rewrite Zmod_odd; by rewrite Hev).
  destruct (backup || _) eqn:Eb; cbn [negb].
  - destruct (set_generation_image h rs pos GEN_ODD Hh Hm) as [p1 ->]. cbn [negb Z.eqb].
    set (h1 := set_generation h (next_generation GEN_ODD (lh_generation h))).
    destruct (compact_spec query msg h1 rs D Hdec Hrs Hsz junk red p1) as (s & -> & Hf & Hn). cbn [mbind option_bind].
    destruct (cs_file s) as [b p2]. cbn [f_bytes] in Hf. subst b.
    destruct (set_generation_image h1 (kept D rs) p2 GEN_EVEN) as [p3 ->]; [by apply set_generation_ok|done|].
    cbn [negb Z.eqb]. eexists. rewrite Hn. split; [done|]. cbn [f_bytes]. unfold kept. f_equal.
    unfold h1, set_generation. cbn [lh_generation lh_magic lh_version lh_last_recId lh_reserved1]. f_equal.
    pose proof (next_generation_parity (lh_generation h)) as [_ Hodd].
    cbn [next_generation] in Hodd |- *. rewrite Hmod in Hodd |- *. cbn [Z.eqb] in Hodd |- *.
    rewrite Zmod_odd, Hodd. cbn [negb Z.eqb]. unfold unsigned. rewrite Zplus_mod_idemp_l. f_equal. lia.
  - destruct (set_generation_image h rs pos GEN_EVEN Hh Hm) as [p1 ->]. cbn [negb Z.eqb]. eexists. split; [done|].
    cbn [f_bytes]. f_equal. cbn [next_generation]. rewrite Hmod. cbn [negb Z.eqb]. by destruct h.
Qed.
End Properties.

(** A log without damage passes a repair unchanged: the loop ends within one
    iteration per record and one more, and reports no problem. *)
Theorem repair_keeps_clean_log h rs pos n :
  good_recs rs -> LOG_HDR_SIZE + recs_len rs < 2 ^ 63 -> (S (length rs) <= Pos.to_nat n)%nat ->
  exists f, repairLog n (mkFile (log_image h rs) pos) = inr (Some (0, 0, f)) /\ f_bytes f = log_image h rs.
Proof. apply repair_clean. Qed.

(** C24: after a crash in the middle of a write, repair removes exactly the record
    that was cut off, wherever it was cut. *)
Theorem repair_cuts_torn_record h rs r m pos n :
  good_recs rs -> rec_ok r -> good_magic (log_magic (fst r)) = true ->
  LOG_HDR_SIZE + recs_len rs + rec_len r < 2 ^ 63 -> 0 < Z.of_nat m < rec_len r -> (S (length rs) <= Pos.to_nat n)%nat ->
  exists f, repairLog n (mkFile (log_image h rs ++ take m (rec_image r)) pos) = inr (Some (0, 1, f)) /\
    f_bytes f = log_image h rs.
Proof. apply repair_torn. Qed.

(** A bad block between good records is cut out, and the records behind it move
    up, when the search resynchronizes at the first of them. *)
Theorem repair_cuts_bad_block h rs1 junk rs2 pos n :
  good_recs rs1 -> good_recs rs2 -> 0 < Z.of_nat (length junk) ->
  let bytes := log_image h rs1 ++ junk ++ recs_image rs2 in
  let off := offset rs1 (length rs1) in
  Z.of_nat (length bytes) < 2 ^ 63 ->
  (forall p, exists p', validateRec (mkFile bytes p) off = (-1, mkFile bytes p')) ->
  (forall p, exists p', searchForNextGoodRecord (mkFile bytes p) off = Some (off + Z.of_nat (length junk), mkFile bytes p')) ->
  (length rs1 + length rs2 + 3 <= Pos.to_nat n)%nat ->
  exists f, repairLog n (mkFile bytes pos) = inr (Some (0, 1, f)) /\ f_bytes f = log_image h (rs1 ++ rs2).
Proof. apply repair_block. Qed.

(** Setting the generation number changes nothing but that number, and leaves it
    even or odd as asked. *)
Theorem generation_number h rs pos type : header_ok h -> lh_magic h = LOGFILE_MAGIC ->
  exists g p, setGenerationNumber (mkFile (log_image h rs) pos) type = (0, mkFile (log_image (set_generation h g) rs) p) /\
    in_unsigned 32 g /\
    match type with
    | GEN_RESET => g = 0
    | GEN_INCR => Z.odd g = negb (Z.odd (lh_generation h))
    | GEN_EVEN => Z.odd g = false
    | GEN_ODD => Z.odd g = true
    end.
Proof.
  intros Hh Hm. destruct (set_generation_image h rs pos type Hh Hm) as [p Hp]. eexists _, p. split; [exact Hp|].
  pose proof (set_generation_ok h type Hh) as (_ & _ & _ & _ & Hg). split; [exact Hg|].
  destruct type; cbn; [done| |apply next_generation_parity..].
  unfold unsigned. change (2 ^ 32) with (2 * 2147483648).
  rewrite Z.mod_eq by lia. rewrite Z.odd_sub, <-Z.mul_assoc, Z.odd_mul. cbn [Z.odd andb]. rewrite xorb_false_r, Z.odd_add.
  by destruct (Z.odd (lh_generation h)).
Qed.

(** A bad byte in front of a record of 8193 bytes, which the search takes for a
    good one and [moveRecordUp] refuses. *)
Definition spin_file : file :=
  mkFile (header_bytes (mkLogHeader LOGFILE_MAGIC 0 0 0 0) ++ 0 ::
          rec_image (mkEntry LOGREC_MAGIC 1 8193 1 0 0 6 0 0 1 1 0 0 0 0 0, replicate 8193 0)) 0.

Lemma loop_cycle {S R} (step : S -> S + R) a b : step a = inl b -> step b = inl a ->
  forall n, exists s, loop_nat step n a = inl s /\ exists s', loop_nat step n b = inl s'.
Proof.
  intros Ha Hb. induction n as [|n (s & Hs & s' & Hs')]; [by eexists; split; [|eexists]|].
  cbn. rewrite Ha, Hb. eauto.
Qed.

(** The states of the cycle. *)
Definition spin_move : repair_state := mkRepair true (mkFile (f_bytes spin_file) 8326) (mkFi 41 40 8285) 1.
Definition spin_again : repair_state := repair_again (f_size spin_file) (mkFile (f_bytes spin_file) 129) 1.
Lemma spin_steps :
  repair_step (f_size spin_file) (repair_again (f_size spin_file) spin_file 0) = inl spin_move /\
  repair_step (f_size spin_file) spin_move = inl spin_again /\
  repair_step (f_size spin_file) spin_again = inl spin_move.
Proof. split_and!; vm_compute; reflexivity. Qed.

(** Repair does not end on every file: after a bad block, a record that is
    larger than the maximum sends the loop back to its start for ever. *)
Theorem repair_may_spin n : exists s, repairLog n spin_file = inl s.
Proof.
  unfold repairLog. change (f_size spin_file =? 0) with false. cbv iota. rewrite loop_loop_nat.
  destruct spin_steps as (H0 & H1 & H2).
  destruct (Pos2Nat.is_succ n) as [m ->]. cbn [loop_nat]. rewrite H0.
  destruct (loop_cycle _ _ _ H1 H2 m) as (s & Hs & _). by exists s.
Qed.

(** The number of records and bytes announced before a compaction is what the
    deletion test selects. *)
Theorem count_announces_selected `{HostLib} `{RegexLib} `{TemplateLib} query msg h rs D junk pos :
  count_decides query msg rs D -> Forall rec_ok rs -> LOG_HDR_SIZE + recs_len rs < 2 ^ 63 ->
  countRecsForDeletion query msg junk (mkFile (log_image h rs) pos) =
    Some (0, (Z.of_nat (length (List.filter D rs)), recs_len (List.filter D rs))).
Proof. intros Hdec Hrs Hsz. by apply count_spec. Qed.

(** *** Instances *)

Definition size_query_obj : @posix_log_query_t sample_regex :=
  mkQuery 2 (Some "size > 0"%string) (nt_op OP_GT (nt_attname POSIX_LOG_ENTRY_SIZE "size") (nt_val 1 0)) None.
Lemma sample_recs_good : good_recs sample_recs.
Proof.
  eapply Forall_impl; [|intros r H; exact H]. pose proof sample_recs_ok as Hok. unfold sample_recs in *.
  repeat match goal with H : Forall _ (_ :: _) |- _ => inversion_clear H end.
  repeat (constructor; [split; [done|reflexivity]|]). constructor.
Qed.
Definition sized (r : record) : bool := 0 <? log_size (fst r).
Lemma sample_del_decides : @del_decides sample_machine sample_regex sample_templates size_query_obj "start" sample_recs sized.
Proof.
  intros r stale Hr. unfold sample_recs in Hr. set_unfold in Hr. destruct_or! Hr; subst r; try done; vm_compute; done.
Qed.
Lemma sample_count_decides : @count_decides sample_machine sample_regex sample_templates size_query_obj "start" sample_recs sized.
Proof.
  intros r stale Hr. unfold sample_recs in Hr. set_unfold in Hr. destruct_or! Hr; subst r; eexists; (split; [vm_compute; reflexivity|]); try done; vm_compute; done.
Qed.

Lemma compaction_removes_selected_witness : exists s,
  @compactLog sample_machine sample_regex sample_templates size_query_obj "start" [] 0 (mkFile (log_image sample_header sample_recs) 0) = Some (0, s) /\
  g_num_delrec s = 1.
Proof.
  destruct (@compaction_removes_selected sample_machine sample_regex sample_templates size_query_obj "start" sample_header sample_recs
    sized [] 0 0 sample_del_decides sample_recs_good) as (s & H1 & _ & H3); [reflexivity|].
  exists s. split; [exact H1|]. rewrite H3. reflexivity.
Defined.
Lemma compaction_command_witness : exists f,
  @evl_compact_log sample_machine sample_regex sample_templates (mkEnv (Some size_query_obj) 0 (Some (mkFile (log_image sample_header sample_recs) 0)) true)
    "start" 0 [] 0 = Some (0, Some f, 1) /\
  f_bytes f = log_image (mkLogHeader LOGFILE_MAGIC 0 5 0 6) (List.filter (fun r => negb (sized r)) sample_recs).
Proof.
  destruct (@compaction_command sample_machine sample_regex sample_templates size_query_obj "start" sample_header sample_recs
    sized [] 0 0 true 0 sample_del_decides sample_recs_good) as (f & H1 & H2); [reflexivity|apply sample_header_ok|reflexivity|reflexivity|].
  exists f. split; [exact H1|exact H2].
Defined.
Lemma repair_keeps_clean_log_witness : exists f,
  repairLog 4 (mkFile (log_image sample_header sample_recs) 0) = inr (Some (0, 0, f)) /\ f_bytes f = log_image sample_header sample_recs.
Proof. apply (repair_keeps_clean_log sample_header sample_recs 0 4); [apply sample_recs_good|reflexivity|cbn; lia]. Defined.
Lemma repair_cuts_torn_record_witness : exists f,
  repairLog 4 (mkFile (log_image sample_header sample_recs ++ take 50 (rec_image (sample_entry, [7; 8]))) 0) = inr (Some (0, 1, f)) /\
  f_bytes f = log_image sample_header sample_recs.
Proof.
  apply (repair_cuts_torn_record sample_header sample_recs (sample_entry, [7; 8]) 50 0 4);
    [apply sample_recs_good| |reflexivity|reflexivity|cbn; unfold rec_len, REC_HDR_SIZE, SIZESIZE; cbn; lia|cbn; lia].
  split; [apply sample_entry_ok|]. split; [reflexivity|]. cbn. unfold POSIX_LOG_ENTRY_MAXLEN. lia.
Defined.
Lemma repair_cuts_bad_block_witness : exists f,
  repairLog 9 (mkFile (log_image sample_header sample_recs ++ [1; 2; 3] ++ recs_image sample_recs) 0) = inr (Some (0, 1, f)) /\
  f_bytes f = log_image sample_header (sample_recs ++ sample_recs).
Proof.
  apply (repair_cuts_bad_block sample_header sample_recs [1; 2; 3] sample_recs 0 9);
    [apply sample_recs_good|apply sample_recs_good|reflexivity|reflexivity| | |cbn; lia].
  - intros p. eexists. vm_compute. reflexivity.
  - intros p. eexists. vm_compute. reflexivity.
Defined.
Lemma generation_number_witness : exists g p,
  setGenerationNumber (mkFile (log_image sample_header sample_recs) 0) GEN_ODD =
    (0, mkFile (log_image (set_generation sample_header g) sample_recs) p) /\ Z.odd g = true.
Proof.
  destruct (generation_number sample_header sample_recs 0 GEN_ODD) as (g & p & H1 & _ & H2); [apply sample_header_ok|reflexivity|].
  exists g, p. split; [exact H1|exact H2].
Defined.
Lemma count_announces_selected_witness :
  @countRecsForDeletion sample_machine sample_regex sample_templates size_query_obj "start" [] (mkFile (log_image sample_header sample_recs) 0) =
    Some (0, (1, 94)).
Proof.
  apply (@count_announces_selected sample_machine sample_regex sample_templates size_query_obj "start" sample_header sample_recs
    sized [] 0 sample_count_decides sample_recs_ok). reflexivity.
Defined.
