(* ===== verification/LogSink.v ===== *)
(** * Writing records ([cmd/evlogd/evlogd.c])

    The output side of the logging daemon: record ids, the two log files, the
    buffers in memory that hold records while a log file is locked by the
    maintenance commands, and the stream of records for the notification daemon.
    A file is [Files.file]; the outcome of the [k]th attempt to lock a log and of
    the [k]th write to the notification socket are functions of [k].  [None] is
    undefined behaviour (a copy past the end of an array).  The padding bytes of
    a record's header are written as zeros. *)
From Stdlib Require Import Sorted.
From S2P Require Import Prelude NvPairs LogRecord FacReg Hosts MemStr Files.

Definition MAX_USER_EVLBUF : Z := 512 * 1024.
Definition MAX_USERPRIV_EVLBUF : Z := 256 * 1024.
Definition LOGREC_ARCH_I386 : Z := 1.
Definition LOCAL_ARCH : Z := 7.                  (* LOGREC_ARCH_X86_64 *)
Definition LOG_MAGIC_ARCH : Z := Z.lor (Z.land LOGREC_MAGIC 0xffff0000) LOCAL_ARCH.
Definition LOG_INFO : Z := 6.

(** [&evl_log] or [&pvt_log]. *)
Inductive log_id := EvlLog | PvtLog.
#[global] Instance log_id_eq : EqDecision log_id.
Proof. solve_decision. Defined.

(** The parts of [log_info_t] and [userbuf_info_t] that belong to one log file: the
    file, its kind ([linfo->recId]), and the buffer with its [watermark] as length. *)
Record log_out := mkOut {
  lo_file : file;
  lo_recId : Z;
  lo_evlbuf : option (list Z);
  lo_dropped_evt : Z
}.
Record sink := mkSink {
  gRecId : Z;
  evl_out : log_out;
  pvt_out : log_out;
  notify_sd : Z;
  nfy_sent : list Z;        (* the bytes written to [notify_sd] *)
  lock_calls : nat;
  nfy_calls : nat
}.

Definition out_of (w : log_id) (s : sink) : log_out :=
  match w with EvlLog => evl_out s | PvtLog => pvt_out s end.
Definition set_out (w : log_id) (o : log_out) (s : sink) : sink :=
  match w with
  | EvlLog => mkSink (gRecId s) o (pvt_out s) (notify_sd s) (nfy_sent s) (lock_calls s) (nfy_calls s)
  | PvtLog => mkSink (gRecId s) (evl_out s) o (notify_sd s) (nfy_sent s) (lock_calls s) (nfy_calls s)
  end.
Definition bufsize (w : log_id) : Z :=
  match w with EvlLog => MAX_USER_EVLBUF | PvtLog => MAX_USERPRIV_EVLBUF end.

(** What the daemon knows of itself. *)
Record self_t := mkSelf {
  geteuid : Z; getegid : Z; getpid : Z; getpgrp : Z; pthread_self : Z; _evlGetProcId : Z
}.

Definition with_recid (e : posix_log_entry) (id : Z) : posix_log_entry :=
  mkEntry (log_magic e) id (log_size e) (log_format e) (log_event_type e) (log_facility e) (log_severity e)
    (log_uid e) (log_gid e) (log_pid e) (log_pgrp e) (log_time_sec e) (log_time_nsec e) (log_flags e)
    (log_thread e) (log_processor e).

Section Sink.
Context `{HostLib}.
Variables (lock_ok nfy_ok : nat -> bool) (self : self_t).

Definition getNextRecId (logType : Z) (s : sink) : Z * sink :=
  let g := gRecId s in
  let g := if logType =? 0 then if negb (Z.rem g 2 =? 0) then s32 (g + 1) else s32 (g + 2)
           else if logType =? 1 then if negb (Z.rem g 2 =? 0) then s32 (g + 2) else s32 (g + 1)
           else g in
  (g, mkSink g (evl_out s) (pvt_out s) (notify_sd s) (nfy_sent s) (lock_calls s) (nfy_calls s)).

(** [lock_routine(linfo->fd, F_SETLK, F_WRLCK)] *)
Definition try_lock (s : sink) : bool * sink :=
  (lock_ok (lock_calls s),
   mkSink (gRecId s) (evl_out s) (pvt_out s) (notify_sd s) (nfy_sent s) (S (lock_calls s)) (nfy_calls s)).

(** One [writeEx] to the notification daemon; [rmSocket] returns 0. *)
Definition nfy_write (data : list Z) (s : sink) : bool * sink :=
  if nfy_ok (nfy_calls s) then
    (true, mkSink (gRecId s) (evl_out s) (pvt_out s) (notify_sd s) (nfy_sent s ++ data) (lock_calls s) (S (nfy_calls s)))
  else
    (false, mkSink (gRecId s) (evl_out s) (pvt_out s) 0 (nfy_sent s) (lock_calls s) (S (nfy_calls s))).
Definition writeEvtToNfyDaemon (entry : posix_log_entry) (data : list Z) (s : sink) : sink :=
  if notify_sd s <=? 0 then s
  else
    let '(ok, s) := nfy_write (entry_bytes entry) s in
    if negb ok then s
    else if log_size entry =? 0 then s
    else snd (nfy_write (take (Z.to_nat (log_size entry)) data) s).

Definition write_rec_to_buf (w : log_id) (rbuf : list Z) (s : sink) : Z * sink :=
  let o := out_of w s in
  let '(b, dropped) := match lo_evlbuf o with None => ([], 0) | Some b => (b, lo_dropped_evt o) end in
  if Z.of_nat (length b) + Z.of_nat (length rbuf) <=? bufsize w
  then (0, set_out w (mkOut (lo_file o) (lo_recId o) (Some (b ++ rbuf)) dropped) s)
  else (0, set_out w (mkOut (lo_file o) (lo_recId o) (Some b) (s32 (dropped + 1))) s).

(** [lseek(fd, 0, SEEK_END)] and [write] *)
Definition append_file (w : log_id) (data : list Z) (s : sink) : sink :=
  let o := out_of w s in
  let f := default (lo_file o) (lseek_end (lo_file o) 0) in
  set_out w (mkOut (file_write f data) (lo_recId o) (lo_evlbuf o) (lo_dropped_evt o)) s.

(** A record of the daemon's own, with [text] as its data. *)
Definition own_entry (facility event_type severity now : Z) (text : str) : posix_log_entry :=
  mkEntry LOG_MAGIC_ARCH 0 (strlen text + 1) POSIX_LOG_STRING event_type facility severity
    (geteuid self) (getegid self) (getpid self) (getpgrp self) now 0 0 (pthread_self self) (_evlGetProcId self).
Definition own_data (text : str) : list Z := bytes_of text ++ [0].

Definition log_dropped_evtcnt_msg (w : log_id) (numevt_dropped now : Z) (s : sink) : sink :=
  let text := (fmt_d numevt_dropped ++ " events dropped due to secondary user buffer overflow."
               ++ String "010" EmptyString)%string in
  let '(id, s) := getNextRecId (lo_recId (out_of w s)) s in
  let entry := with_recid (own_entry LOG_LOGMGMT 1 LOG_INFO now text) id in
  let s := append_file w (rec_image (entry, own_data text)) s in
  writeEvtToNfyDaemon entry (own_data text) s.

Definition drain_buf_to_log (w : log_id) (now : Z) (s : sink) : option (Z * sink) :=
  b ← lo_evlbuf (out_of w s);
  let s := append_file w b s in
  let s := if lo_dropped_evt (out_of w s) >? 0
           then log_dropped_evtcnt_msg w (lo_dropped_evt (out_of w s)) now s else s in
  let o := out_of w s in
  Some (0, set_out w (mkOut (lo_file o) (lo_recId o) None (lo_dropped_evt o)) s).

Definition write_rec_to_log (w : log_id) (rbuf : list Z) (now : Z) (s : sink) : option (Z * sink) :=
  let '(ok, s) := try_lock s in
  if negb ok then Some (0, snd (write_rec_to_buf w rbuf s))
  else
    '(st, s) ← (if bool_decide (lo_evlbuf (out_of w s) = None) then Some (0, s) else drain_buf_to_log w now s);
    if st =? -1 then Some (-1, s) else Some (0, append_file w rbuf s).

(** The record's id is set in the caller's buffer. *)
Definition log_evl_rec (w : log_id) (entry : posix_log_entry) (data : list Z) (now : Z) (s : sink)
  : option (Z * posix_log_entry * sink) :=
  let recsize := u32 (log_size entry + REC_HDR_SIZE) in
  if recsize >? REC_HDR_SIZE + POSIX_LOG_ENTRY_MAXLEN then None
  else
    let '(id, s) := getNextRecId (lo_recId (out_of w s)) s in
    let entry := with_recid entry id in
    let lbuf := take (Z.to_nat recsize) (entry_bytes entry ++ data) ++ le_encode 4 recsize in
    '(st, s) ← write_rec_to_log w lbuf now s;
    if st <? 0 then Some (-1, entry, s) else Some (0, entry, writeEvtToNfyDaemon entry data s).

(** [vsnprintf] of a format without arguments: a directive other than [%%] reads an
    argument that was not passed. *)
Fixpoint format_no_args (fmt : str) : option str :=
  match fmt with
  | EmptyString => Some EmptyString
  | String c rest =>
      if chr c =? 37 then
        match rest with
        | String d rest' => if chr d =? 37 then String c <$> format_no_args rest' else None
        | EmptyString => None
        end
      else String c <$> format_no_args rest
  end.

Definition mk_evl_rec (w : log_id) (facility event_type severity : Z) (format : str) (now : Z) (s : sink)
  : option sink :=
  text ← format_no_args format;
  let stored := String.substring 0 (Z.to_nat (POSIX_LOG_ENTRY_MAXLEN - 1)) text in
  '(_, _, s) ← log_evl_rec w (own_entry facility event_type severity now text) (own_data stored) now s;
  Some s.

(** The message, in [char event[POSIX_LOG_MEMSTR_MAXLEN + 255]]; [facNum] is printed
    with [%d]. *)
Definition discard_text (facNum eventType count : Z) : str :=
  let event := ("Discarded " ++ fmt_d count ++ " duplicate events, event_type = 0x" ++ fmt_x (u32 eventType)
    ++ ", facility = " ++ match facility_name facNum with
                          | None => fmt_d (s32 facNum)
                          | Some fname => fname
                          end)%string in
  String.substring 0 (Z.to_nat (POSIX_LOG_MEMSTR_MAXLEN + 254)) event.
Definition writeDiscardEvent (w : log_id) (facNum eventType count now : Z) (s : sink) : option sink :=
  mk_evl_rec w LOG_LOGMGMT 1 LOG_INFO (discard_text facNum eventType count) now s.
End Sink.

(** ** The records of a log *)

(** A log file holds the records [rs], and the buffer, if there is one, [b]. *)
Record holds (h : log_header_t) (rs : list record) (b : option (list record)) (o : log_out) : Prop := {
  holds_file : f_bytes (lo_file o) = log_image h rs;
  holds_buf : lo_evlbuf o = recs_image <$> b
}.
(** [recId] tells the logs apart. *)
Record sink_ok (s : sink) : Prop := {
  sink_ids : 0 <= gRecId s;
  sink_kinds : forall w, lo_recId (out_of w s) = match w with EvlLog => 1 | PvtLog => 0 end
}.
(** A record that fits the arrays it is copied through. *)
Definition event_ok (entry : posix_log_entry) (data : list Z) : Prop :=
  0 <= log_size entry <= POSIX_LOG_ENTRY_MAXLEN /\ log_size entry <= Z.of_nat (length data).
Definition event_rec (entry : posix_log_entry) (data : list Z) (id : Z) : record :=
  (with_recid entry id, take (Z.to_nat (log_size entry)) data).
(** The next id for a log: odd for the regular log, even for the private one. *)
Definition next_id (w : log_id) (g : Z) : Z :=
  match w with
  | EvlLog => if Z.odd g then g + 2 else g + 1
  | PvtLog => if Z.odd g then g + 1 else g + 2
  end.

(** The abstract log: the records of the file, those of the buffer, and how many did
    not fit the buffer. *)
Record alog := mkAlog { al_recs : list record; al_buf : option (list record); al_dropped : Z }.
Definition alog_write (w : log_id) (unlocked : bool) (r notice : record) (a : alog) : alog :=
  if unlocked then
    mkAlog (al_recs a ++ match al_buf a with
                         | None => []
                         | Some b => b ++ if al_dropped a >? 0 then [notice] else []
                         end ++ [r]) None (al_dropped a)
  else
    let b := default [] (al_buf a) in
    let dropped := match al_buf a with None => 0 | Some _ => al_dropped a end in
    if recs_len b + rec_len r <=? bufsize w then mkAlog (al_recs a) (Some (b ++ [r])) dropped
    else mkAlog (al_recs a) (Some b) (dropped + 1).
Record models (h : log_header_t) (a : alog) (o : log_out) : Prop := {
  models_records : holds h (al_recs a) (al_buf a) o;
  models_dropped : lo_dropped_evt o = al_dropped a
}.

Lemma out_set w w' o s : out_of w (set_out w' o s) = if decide (w = w') then o else out_of w s.
Proof. by destruct w, w'. Qed.
Lemma set_out_frame w o s : gRecId (set_out w o s) = gRecId s /\ lock_calls (set_out w o s) = lock_calls s.
Proof. by destruct w. Qed.
(** A log's file and buffer are replaced; its kind stays. *)
Lemma sink_ok_step w s s' : sink_ok s -> gRecId s <= gRecId s' ->
  (forall w', w' <> w -> out_of w' s' = out_of w' s) -> lo_recId (out_of w s') = lo_recId (out_of w s) -> sink_ok s'.
Proof.
  intros [Hg Hid] Hle Hoth Hw. split; [lia|]. intros w'. destruct (decide (w' = w)) as [->|Hne].
  - rewrite Hw. apply Hid.
  - rewrite Hoth by done. apply Hid.
Qed.
Lemma next_id_bounds w g : g < next_id w g <= g + 2 /\ Z.odd (next_id w g) = match w with EvlLog => true | PvtLog => false end.
Proof.
  unfold next_id. destruct w, (Z.odd g) eqn:E; split; try lia; rewrite Z.odd_add, E; done.
Qed.

Lemma rec_lbuf entry data id : event_ok entry data ->
  let recsize := u32 (log_size entry + REC_HDR_SIZE) in
  recsize = log_size entry + REC_HDR_SIZE /\
  take (Z.to_nat recsize) (entry_bytes (with_recid entry id) ++ data) ++ le_encode 4 recsize =
    rec_image (event_rec entry data id).
Proof.
  intros [Hs Hd]. cbv zeta. unfold POSIX_LOG_ENTRY_MAXLEN, REC_HDR_SIZE in *.
  rewrite unsigned_id by (unfold in_unsigned; lia). split; [done|].
  unfold rec_image, event_rec. cbn [fst snd]. rewrite length_take.
  replace (Z.to_nat (log_size entry + 88)) with (length (entry_bytes (with_recid entry id)) + Z.to_nat (log_size entry))%nat
    by (rewrite length_entry_bytes; lia).
  rewrite firstn_app_2. rewrite <-app_assoc. do 3 f_equal. unfold REC_HDR_SIZE. lia.
Qed.

Section SinkSpec.
Context `{HostLib}.
Variables (lock_ok nfy_ok : nat -> bool) (self : self_t).

Lemma getNextRecId_spec w s : sink_ok s -> gRecId s + 2 < 2 ^ 31 ->
  exists s', getNextRecId (lo_recId (out_of w s)) s = (next_id w (gRecId s), s') /\
    gRecId s' = next_id w (gRecId s) /\ (forall w', out_of w' s' = out_of w' s) /\ lock_calls s' = lock_calls s.
Proof.
  intros [Hg Hid] Hb. unfold getNextRecId. rewrite Hid.
  assert (Z.rem (gRecId s) 2 = if Z.odd (gRecId s) then 1 else 0) as Hr.
  { rewrite Z.rem_mod_nonneg by lia. rewrite Zmod_odd. done. }
  destruct w; cbn [Z.eqb Pos.eqb]; rewrite Hr; destruct (Z.odd (gRecId s)) eqn:E; cbn [Z.eqb Pos.eqb negb];
    rewrite signed_id by (unfold in_signed; lia); unfold next_id; rewrite E; eexists;
    (split; [done|split_and!; [done|by intros []|done]]).
Qed.

Lemma nfy_frame entry data s : let s' := writeEvtToNfyDaemon nfy_ok entry data s in
  gRecId s' = gRecId s /\ (forall w, out_of w s' = out_of w s) /\ lock_calls s' = lock_calls s.
Proof.
  unfold writeEvtToNfyDaemon, nfy_write. repeat case_match; simplify_eq; cbn; split_and!; try done; by intros [].
Qed.

Lemma append_file_spec w data s :
  let s' := append_file w data s in
  (exists f, f_bytes f = f_bytes (lo_file (out_of w s)) ++ data /\
    out_of w s' = mkOut f (lo_recId (out_of w s)) (lo_evlbuf (out_of w s)) (lo_dropped_evt (out_of w s))) /\
  (forall w', w' <> w -> out_of w' s' = out_of w' s) /\ gRecId s' = gRecId s /\ lock_calls s' = lock_calls s.
Proof.
  cbv zeta. unfold append_file, lseek_end, lseek_to. set (o := out_of w s).
  destruct (f_size (lo_file o) + 0 <? 0) eqn:E; [unfold f_size in E; zb|]. cbn [default].
  rewrite write_end by (cbn; unfold f_size; cbn; lia). split_and!.
  - eexists. rewrite out_set, decide_True by done. split; [|done]. done.
  - intros w' Hw. by rewrite out_set, decide_False.
  - by destruct w.
  - by destruct w.
Qed.

(** The notice of [n] dropped records, with its id. *)
Definition drop_notice (n id now : Z) : record :=
  let text := (fmt_d n ++ " events dropped due to secondary user buffer overflow." ++ String "010" EmptyString)%string in
  (with_recid (own_entry self LOG_LOGMGMT 1 LOG_INFO now text) id, own_data text).

Lemma drop_notice_spec w n now s : sink_ok s -> gRecId s + 2 < 2 ^ 31 ->
  let s' := log_dropped_evtcnt_msg nfy_ok self w n now s in
  (exists f, f_bytes f = f_bytes (lo_file (out_of w s)) ++ rec_image (drop_notice n (next_id w (gRecId s)) now) /\
    out_of w s' = mkOut f (lo_recId (out_of w s)) (lo_evlbuf (out_of w s)) (lo_dropped_evt (out_of w s))) /\
  (forall w', w' <> w -> out_of w' s' = out_of w' s) /\ gRecId s <= gRecId s' <= gRecId s + 2.
Proof.
  intros Hok Hb. cbv zeta. unfold log_dropped_evtcnt_msg.
  destruct (getNextRecId_spec w s Hok Hb) as (s2 & -> & Hg2 & Ho2 & _).
  set (e := with_recid _ _). set (data := own_data _).
  destruct (append_file_spec w (rec_image (e, data)) s2) as ((f3 & Hf3 & Ho3) & Hoth3 & Hg3 & _).
  set (s3 := append_file w (rec_image (e, data)) s2) in *.
  destruct (nfy_frame e data s3) as (Hg4 & Ho4 & _). rewrite Ho4, Hg4, Hg3, Hg2, Ho3, Ho2. split_and!.
  - exists f3. by rewrite Hf3, Ho2.
  - intros w' Hw. by rewrite Ho4, Hoth3, Ho2.
  - pose proof (next_id_bounds w (gRecId s)). lia.
  - pose proof (next_id_bounds w (gRecId s)). lia.
Qed.

(** Draining writes the buffer, then the notice of what did not fit it. *)
Lemma drain_spec w now s h rs b : sink_ok s -> gRecId s + 2 < 2 ^ 31 -> holds h rs (Some b) (out_of w s) ->
  let n := lo_dropped_evt (out_of w s) in
  exists s', drain_buf_to_log nfy_ok self w now s = Some (0, s') /\ sink_ok s' /\
    holds h (rs ++ b ++ if n >? 0 then [drop_notice n (next_id w (gRecId s)) now] else []) None (out_of w s') /\
    lo_dropped_evt (out_of w s') = n /\ (forall w', w' <> w -> out_of w' s' = out_of w' s) /\
    gRecId s <= gRecId s' <= gRecId s + 2 /\ (n = 0 -> gRecId s' = gRecId s).
Proof.
  intros Hok Hb [Hf Hbuf] n. unfold drain_buf_to_log. rewrite Hbuf. cbn [fmap option_fmap option_map mbind option_bind].
  destruct (append_file_spec w (recs_image b) s) as ((f & Hfb & Ho) & Hoth & Hg & _).
  set (s1 := append_file w (recs_image b) s) in *. fold n in Ho. rewrite Ho. cbn [lo_dropped_evt].
  assert (sink_ok s1) as Hok1 by (apply (sink_ok_step w s); [done|lia|done|by rewrite Ho]).
  assert (exists s2 f2, (if n >? 0 then log_dropped_evtcnt_msg nfy_ok self w n now s1 else s1) = s2 /\
    out_of w s2 = mkOut f2 (lo_recId (out_of w s)) (lo_evlbuf (out_of w s)) n /\
    f_bytes f2 = log_image h (rs ++ b ++ if n >? 0 then [drop_notice n (next_id w (gRecId s)) now] else []) /\
    (forall w', w' <> w -> out_of w' s2 = out_of w' s) /\ gRecId s <= gRecId s2 <= gRecId s + 2 /\
    (n = 0 -> gRecId s2 = gRecId s)) as (s2 & f2 & -> & Ho2 & Hf2 & Hoth2 & Hg2 & Hz2).
  { destruct (n >? 0) eqn:En.
    - destruct (drop_notice_spec w n now s1 Hok1) as ((f2 & Hf2 & Ho2) & Hoth2 & Hg2); [lia|].
      eexists _, f2. split; [done|]. rewrite Ho2, Hf2, Ho. cbn [lo_recId lo_evlbuf lo_dropped_evt lo_file].
      split_and!; [done| |by intros w' Hw; rewrite Hoth2, Hoth|lia|lia|intros; zb].
      rewrite Hfb, Hf, Hg. unfold log_image. rewrite <-!app_assoc, !recs_image_app. do 3 f_equal.
      change (recs_image [?x]) with (rec_image x ++ []). by rewrite app_nil_r.
    - exists s1, f. split_and!; [done|done| |done|lia|lia|done]. rewrite Hfb, Hf, app_nil_r.
      unfold log_image. by rewrite <-app_assoc, <-recs_image_app. }
  rewrite Ho2. cbn [lo_file lo_recId lo_dropped_evt]. set (s3 := set_out _ _ _). exists s3.
  assert (out_of w s3 = mkOut f2 (lo_recId (out_of w s)) None n) as Ho3 by (unfold s3; by rewrite out_set, decide_True).
  assert (forall w', w' <> w -> out_of w' s3 = out_of w' s) as Hoth3.
  { intros w' Hw. unfold s3. rewrite out_set, decide_False by done. by apply Hoth2. }
  assert (gRecId s3 = gRecId s2) as Hg3 by apply set_out_frame. rewrite Ho3, Hg3. split_and!; try done; try lia.
  apply (sink_ok_step w s); [done|lia|done|by rewrite Ho3].
Qed.

Lemma buf_spec w r h a s : sink_ok s -> models h a (out_of w s) -> 0 <= al_dropped a < 2 ^ 31 - 1 ->
  let s' := snd (write_rec_to_buf w (rec_image r) s) in
  models h (alog_write w false r r a) (out_of w s') /\ (forall w', w' <> w -> out_of w' s' = out_of w' s) /\
  gRecId s' = gRecId s /\ lock_calls s' = lock_calls s /\ lo_recId (out_of w s') = lo_recId (out_of w s).
Proof.
  intros Hok [[Hf Hbuf] Hd] Hr. cbv zeta. unfold write_rec_to_buf, alog_write. rewrite Hbuf, Hd.
  assert (Z.of_nat (length (rec_image r)) = rec_len r) as -> by apply length_rec_image.
  destruct (al_buf a) as [b|] eqn:Eb; cbn [fmap option_fmap option_map default].
  - rewrite length_recs_image. destruct (_ <=? _); cbn [snd]; rewrite !out_set, !decide_True by done;
      rewrite !(proj1 (set_out_frame _ _ _)), !(proj2 (set_out_frame _ _ _)).
    + split_and!; try done; [|by intros w' Hw; rewrite out_set, decide_False].
      split; [|done]. split; [done|]. cbn [lo_evlbuf al_buf fmap option_fmap option_map]. rewrite recs_image_app.
      change (recs_image [r]) with (rec_image r ++ []). by rewrite app_nil_r.
    + split_and!; try done; [|by intros w' Hw; rewrite out_set, decide_False].
      split; [done|]. cbn. apply signed_id; [lia|]. unfold in_signed. cbn. lia.
  - cbn [length recs_len]. destruct (_ <=? _); cbn [snd]; rewrite !out_set, !decide_True by done;
      rewrite !(proj1 (set_out_frame _ _ _)), !(proj2 (set_out_frame _ _ _)).
    + split_and!; try done; [|by intros w' Hw; rewrite out_set, decide_False].
      split; [|done]. split; [done|]. cbn [lo_evlbuf al_buf fmap option_fmap option_map app]. change (recs_image [r]) with (rec_image r ++ []). by rewrite app_nil_r.
    + split_and!; try done. by intros w' Hw; rewrite out_set, decide_False.
Qed.

(** Writing to the file, after the buffer has been drained, or to the buffer. *)
Lemma write_spec w r h a now s : sink_ok s -> gRecId s + 2 < 2 ^ 31 -> models h a (out_of w s) ->
  0 <= al_dropped a < 2 ^ 31 - 1 ->
  exists s', write_rec_to_log lock_ok nfy_ok self w (rec_image r) now s = Some (0, s') /\
    models h (alog_write w (lock_ok (lock_calls s)) r (drop_notice (al_dropped a) (next_id w (gRecId s)) now) a) (out_of w s') /\
    (forall w', w' <> w -> out_of w' s' = out_of w' s) /\ sink_ok s' /\
    gRecId s <= gRecId s' <= gRecId s + 2 /\ (al_dropped a = 0 -> gRecId s' = gRecId s).
Proof.
  intros Hok Hb Hm Hd. unfold write_rec_to_log, try_lock.
  set (s1 := mkSink (gRecId s) (evl_out s) (pvt_out s) (notify_sd s) (nfy_sent s) (S (lock_calls s)) (nfy_calls s)).
  assert (forall w', out_of w' s1 = out_of w' s) as Ho1 by (by intros []).
  assert (sink_ok s1) as Hok1 by (apply (sink_ok_step w s); [done|done|done|by rewrite Ho1]).
  destruct (lock_ok (lock_calls s)); cbn [negb].
  2: { rewrite <-(Ho1 w) in Hm. destruct (buf_spec w r h a s1 Hok1 Hm Hd) as (Hm2 & Ho2 & Hg2 & _ & Hr2).
       eexists. split; [done|]. rewrite Hg2. split_and!; try done; try (cbn; lia).
       apply (sink_ok_step w s1); [done|lia|done|by rewrite Hr2]. }
  destruct Hm as [[Hf Hbuf] Hdr]. rewrite Ho1, Hbuf. unfold alog_write.
  assert (exists s2, (if bool_decide (recs_image <$> al_buf a = None) then Some (0, s1) else drain_buf_to_log nfy_ok self w now s1) = Some (0, s2) /\
    holds h (al_recs a ++ match al_buf a with None => [] | Some b => b ++ if al_dropped a >? 0 then
      [drop_notice (al_dropped a) (next_id w (gRecId s)) now] else [] end) None (out_of w s2) /\ sink_ok s2 /\
    lo_dropped_evt (out_of w s2) = al_dropped a /\ (forall w', w' <> w -> out_of w' s2 = out_of w' s) /\
    gRecId s <= gRecId s2 <= gRecId s + 2 /\ (al_dropped a = 0 -> gRecId s2 = gRecId s))
    as (s2 & -> & [Hf2 Hb2] & Hok2 & Hd2 & Ho2 & Hg2 & Hz2).
  { destruct (al_buf a) as [b|] eqn:Eb; cbn [fmap option_fmap option_map] in *.
    - rewrite bool_decide_false by done.
      destruct (drain_spec w now s1 h (al_recs a) b Hok1) as (s2 & Hs2 & Hok2 & Hh & Hd2 & Hoth & Hg2 & Hz2);
        [cbn; lia|split; by rewrite Ho1|]. exists s2. rewrite Ho1, Hdr in *. cbn [gRecId s1] in *.
      split_and!; try done; try lia.
    - rewrite bool_decide_true by done. exists s1. rewrite app_nil_r, Ho1. split_and!; try done; cbn; lia. }
  cbn [mbind option_bind Z.eqb]. eexists. split; [done|].
  destruct (append_file_spec w (rec_image r) s2) as ((f3 & Hf3 & Ho3) & Hoth3 & Hg3 & _). rewrite Ho3, Hg3.
  split_and!; try done; try lia.
  - split; [|done]. split; [|done]. cbn [lo_file al_recs]. rewrite Hf3, Hf2. unfold log_image.
    rewrite !recs_image_app, <-!app_assoc. change (recs_image [r]) with (rec_image r ++ []). by rewrite app_nil_r.
  - intros w' Hw. by rewrite Hoth3, Ho2.
  - apply (sink_ok_step w s2); [done|lia|done|by rewrite Ho3].
Qed.

(** Logging a record is writing it, with the next id, to the abstract log. *)
Lemma log_record_spec h a w entry data now s : sink_ok s -> gRecId s + 4 < 2 ^ 31 -> event_ok entry data ->
  models h a (out_of w s) -> 0 <= al_dropped a < 2 ^ 31 - 1 ->
  let id := next_id w (gRecId s) in
  exists s', log_evl_rec lock_ok nfy_ok self w entry data now s = Some (0, with_recid entry id, s') /\
    models h (alog_write w (lock_ok (lock_calls s)) (event_rec entry data id)
                (drop_notice (al_dropped a) (next_id w id) now) a) (out_of w s') /\
    (forall w', w' <> w -> out_of w' s' = out_of w' s) /\ sink_ok s' /\
    id <= gRecId s' <= id + 2 /\ (al_dropped a = 0 -> gRecId s' = id).
Proof.
  intros Hok Hb Hev Hm Hd id. destruct (rec_lbuf entry data id Hev) as [Hsz Hl]. cbv zeta in Hl.
  unfold log_evl_rec. destruct (_ >? _) eqn:E; [destruct Hev; zb|].
  destruct (getNextRecId_spec w s Hok) as (s1 & -> & Hg1 & Ho1 & Hlk1); [lia|]. fold id in Hg1 |- *. rewrite Hl.
  pose proof (next_id_bounds w (gRecId s)) as [Hid _]. fold id in Hid.
  assert (sink_ok s1) as Hok1 by (apply (sink_ok_step w s); [done|lia|intros; apply Ho1|by rewrite Ho1]).
  destruct (write_spec w (event_rec entry data id) h a now s1 Hok1) as (s2 & -> & Hm2 & Ho2 & Hok2 & Hg2 & Hz2);
    [lia|by rewrite Ho1|done|].
  cbn [mbind option_bind Z.ltb Z.compare]. destruct (nfy_frame (with_recid entry id) data s2) as (Hg3 & Ho3 & Hlk3).
  eexists. split; [done|]. rewrite Ho3, Hg3. rewrite Hg1, Hlk1 in *. split_and!; try done; try lia.
  - intros w' Hw. by rewrite Ho3, Ho2.
  - by apply (sink_ok_step w s2); [done|lia|intros; apply Ho3|rewrite Ho3].
Qed.

(** *** A sequence of records for both logs *)

Definition event : Type := log_id * posix_log_entry * list Z.
Fixpoint log_events (evs : list event) (now : Z) (s : sink) : option sink :=
  match evs with
  | [] => Some s
  | (w, entry, data) :: evs' =>
      '(_, _, s) ← log_evl_rec lock_ok nfy_ok self w entry data now s; log_events evs' now s
  end.
(** The records with their ids. *)
Fixpoint numbered (g : Z) (evs : list event) : list (log_id * record) :=
  match evs with
  | [] => []
  | (w, entry, data) :: evs' => let id := next_id w g in (w, event_rec entry data id) :: numbered id evs'
  end.
(** Those of one log. *)
Definition records_of (w : log_id) (l : list (log_id * record)) : list record :=
  (List.filter (fun x => bool_decide (fst x = w)) l).*2.
(** What a log has, in its file and in its buffer. *)
Definition contents (w : log_id) (s : sink) : list Z :=
  f_bytes (lo_file (out_of w s)) ++ default [] (lo_evlbuf (out_of w s)).

(** The state of one log while nothing has been dropped; [m] bytes at most wait. *)
Definition keeps (h : log_header_t) (rs : list record) (m : Z) (o : log_out) : Prop :=
  exists a, models h a o /\ rs = al_recs a ++ default [] (al_buf a) /\ recs_len (default [] (al_buf a)) <= m /\
    (al_buf a <> None -> al_dropped a = 0) /\ 0 <= al_dropped a < 2 ^ 31 - 1.

Lemma keeps_contents h rs m w s : keeps h rs m (out_of w s) -> contents w s = log_image h rs.
Proof.
  intros (a & [[Hf Hb] _] & -> & _). unfold contents. rewrite Hf, Hb. unfold log_image.
  rewrite recs_image_app, <-app_assoc. by destruct (al_buf a).
Qed.
Lemma keeps_write h rs m w entry data now s : sink_ok s -> gRecId s + 4 < 2 ^ 31 -> event_ok entry data ->
  keeps h rs m (out_of w s) -> lo_dropped_evt (out_of w s) = 0 ->
  m + rec_len (event_rec entry data 0) <= bufsize w ->
  exists s', log_evl_rec lock_ok nfy_ok self w entry data now s =
      Some (0, with_recid entry (next_id w (gRecId s)), s') /\
    keeps h (rs ++ [event_rec entry data (next_id w (gRecId s))]) (m + rec_len (event_rec entry data 0)) (out_of w s') /\
    lo_dropped_evt (out_of w s') = 0 /\ (forall w', w' <> w -> out_of w' s' = out_of w' s) /\ sink_ok s' /\
    gRecId s' = next_id w (gRecId s).
Proof.
  intros Hok Hg Hev (a & Hm & -> & Hlen & _ & Hr) Hd0 Hfit.
  assert (al_dropped a = 0) as Hz by (destruct Hm as [_ Hm]; congruence).
  destruct (log_record_spec h a w entry data now s Hok Hg Hev Hm Hr) as (s' & -> & Hm' & Ho' & Hok' & _ & Hg').
  set (r := event_rec entry data (next_id w (gRecId s))) in *.
  assert (rec_len (event_rec entry data 0) = rec_len r) as Hl by done. rewrite Hl in *. pose proof (rec_len_pos r).
  exists s'. split; [done|]. destruct Hm' as [Hm' Hd'].
  assert (lo_dropped_evt (out_of w s') = 0) as Hd0'.
  { rewrite Hd'. unfold alog_write. destruct (lock_ok _); [done|]. destruct (al_buf a); destruct (_ <=? _) eqn:E; cbn in *; try done; zb. }
  split_and!; try done; [|by apply Hg']. eexists. split; [split; [exact Hm'|exact Hd']|].
  rewrite <-Hd', Hd0'. unfold alog_write. rewrite Hz. destruct (lock_ok _); cbn [al_recs al_buf from_option id].
  - rewrite app_nil_r. cbn [recs_len]. pose proof (recs_len_nonneg (default [] (al_buf a))). split_and!; try lia; try done.
    destruct (al_buf a); cbn [from_option id Z.gtb Z.compare]; by rewrite ?app_nil_r, <-?app_assoc.
  - destruct (_ <=? _) eqn:E; [|zb]. cbn [al_recs al_buf from_option id]. rewrite recs_len_app, app_assoc. cbn [recs_len].
    split_and!; try lia; done.
Qed.

Lemma numbered_sorted evs : forall g, StronglySorted Z.lt (g :: ((fun x => log_recid (fst (snd x))) <$> numbered g evs)).
Proof.
  induction evs as [|[[w e] data] evs IH]; intros g; cbn [numbered].
  - repeat constructor.
  - rewrite fmap_cons. cbn [fst snd event_rec with_recid log_recid]. pose proof (next_id_bounds w g) as [Hid _].
    specialize (IH (next_id w g)). constructor; [done|]. constructor; [lia|].
    apply StronglySorted_inv in IH as [_ IH]. eapply Forall_impl; [exact IH|]. cbn. lia.
Qed.
Lemma numbered_parity evs : forall g, Forall (fun x => Z.odd (log_recid (fst (snd x))) =
  match fst x with EvlLog => true | PvtLog => false end) (numbered g evs).
Proof.
  induction evs as [|[[w e] data] evs IH]; intros g; cbn [numbered]; constructor; [|apply IH].
  cbn. apply next_id_bounds.
Qed.

Lemma records_of_cons w w' r l :
  records_of w ((w', r) :: l) = (if decide (w' = w) then [r] else []) ++ records_of w l.
Proof. unfold records_of. cbn. by destruct (decide (w' = w)) as [->|Hne]; [rewrite bool_decide_true|rewrite bool_decide_false]. Qed.

Lemma log_events_keeps (h : log_id -> log_header_t) evs now : forall s (rs : log_id -> list record) (m : log_id -> Z),
  sink_ok s -> Forall (fun '(_, e, data) => event_ok e data) evs -> gRecId s + 2 * Z.of_nat (length evs) + 4 < 2 ^ 31 ->
  (forall w, keeps (h w) (rs w) (m w) (out_of w s) /\ lo_dropped_evt (out_of w s) = 0 /\
             m w + recs_len (records_of w (numbered (gRecId s) evs)) <= bufsize w) ->
  exists s', log_events evs now s = Some s' /\
    forall w, contents w s' = log_image (h w) (rs w ++ records_of w (numbered (gRecId s) evs)).
Proof.
  induction evs as [|[[w e] data] evs IH]; intros s rs m Hok Hevs Hg Hw.
  - exists s. split; [done|]. intros w. cbn. rewrite app_nil_r. eapply keeps_contents, Hw.
  - apply Forall_cons in Hevs as [Hev Hevs]. cbn [length] in Hg. destruct (Hw w) as (Hk & Hd & Hfit).
    cbn [numbered] in *. cbv zeta in *. rewrite records_of_cons, decide_True in Hfit by done.
    rewrite recs_len_app in Hfit. cbn [recs_len] in Hfit.
    pose proof (recs_len_nonneg (records_of w (numbered (next_id w (gRecId s)) evs))).
    destruct (keeps_write (h w) (rs w) (m w) w e data now s Hok) as (s' & Hs' & Hk' & Hd' & Ho' & Hok' & Hg');
      [lia|done|done|done|unfold rec_len in *; cbn in *; lia|].
    cbn [log_events]. rewrite Hs'. cbn [mbind option_bind]. rewrite <-Hg' in *. pose proof (next_id_bounds w (gRecId s)) as [Hb _].
    set (r := event_rec e data (gRecId s')) in *.
    destruct (IH s' (fun w' => rs w' ++ if decide (w = w') then [r] else [])
      (fun w' => m w' + if decide (w = w') then rec_len r else 0) Hok' Hevs) as (s2 & Hs2 & Hc2); [lia| |].
    + intros w'. destruct (Hw w') as (Hkw & Hdw & Hfw). rewrite records_of_cons, recs_len_app in Hfw.
      destruct (decide (w = w')) as [<-|Hne]; [split_and!; [exact Hk'|done|cbn in Hfw; lia]|].
      rewrite (Ho' w') by done. rewrite app_nil_r, Z.add_0_r. done.
    + exists s2. split; [done|]. intros w'. rewrite Hc2, records_of_cons, app_assoc. done.
Qed.
End SinkSpec.

(** ** Properties *)

(** A record that the daemon logs gets the log's next id and is written as on the
    abstract log: behind the records that waited and the notice of those that did not
    fit, when the file can be locked; otherwise it waits in the buffer, or is counted
    as dropped when the buffer is full. *)
Theorem logging_refines_abstract lock_ok nfy_ok self h a w entry data now s :
  sink_ok s -> gRecId s + 4 < 2 ^ 31 -> event_ok entry data -> models h a (out_of w s) ->
  0 <= al_dropped a < 2 ^ 31 - 1 ->
  let id := next_id w (gRecId s) in
  exists s', log_evl_rec lock_ok nfy_ok self w entry data now s = Some (0, with_recid entry id, s') /\
    models h (alog_write w (lock_ok (lock_calls s)) (event_rec entry data id)
                (drop_notice self (al_dropped a) (next_id w id) now) a) (out_of w s') /\
    (forall w', w' <> w -> out_of w' s' = out_of w' s).
Proof.
  intros Hok Hg Hev Hm Hd id. destruct (log_record_spec lock_ok nfy_ok self h a w entry data now s Hok Hg Hev Hm Hd)
    as (s' & Hs' & Hm' & Ho' & _). by exists s'.
Qed.

(** C20: whatever the locking of the files, as long as the records fit the buffers in
    memory, the logs with their buffers hold all records that were logged, in order,
    with strictly increasing ids that are odd in the regular and even in the private
    log. *)
Theorem logs_keep_every_record lock_ok nfy_ok self (h : log_id -> log_header_t) rs evs now s :
  sink_ok s -> Forall (fun '(_, e, data) => event_ok e data) evs -> gRecId s + 2 * Z.of_nat (length evs) + 4 < 2 ^ 31 ->
  (forall w, models (h w) (mkAlog (rs w) None 0) (out_of w s)) ->
  (forall w, recs_len (records_of w (numbered (gRecId s) evs)) <= bufsize w) ->
  exists s', log_events lock_ok nfy_ok self evs now s = Some s' /\
    (forall w, contents w s' = log_image (h w) (rs w ++ records_of w (numbered (gRecId s) evs))) /\
    StronglySorted Z.lt (gRecId s :: ((fun x => log_recid (fst (snd x))) <$> numbered (gRecId s) evs)) /\
    Forall (fun x => Z.odd (log_recid (fst (snd x))) = match fst x with EvlLog => true | PvtLog => false end)
      (numbered (gRecId s) evs).
Proof.
  intros Hok Hevs Hg Hm Hfit.
  destruct (log_events_keeps lock_ok nfy_ok self h evs now s rs (fun _ => 0) Hok Hevs Hg) as (s' & Hs' & Hc).
  - intros w. split_and!; [|apply (models_dropped _ _ _ (Hm w))|apply Hfit].
    exists (mkAlog (rs w) None 0). split; [apply Hm|]. cbn. rewrite app_nil_r. split_and!; done.
  - exists s'. split_and!; [done|done|apply numbered_sorted|apply numbered_parity].
Qed.

(** *** Concrete inputs *)

Definition bare_machine : HostLib :=
  Build_HostLib (fun _ => None) (fun _ => None) (fun _ => None) (fun _ => None) (fun _ => EmptyString) 0
    (fun _ => None) (fun _ => 0) (fun _ => 0) (mkHostEnv None []) EmptyString.
Definition sample_self : self_t := mkSelf 0 0 100 100 1 0.
Definition sample_header : log_header_t := mkLogHeader LOGFILE_MAGIC 1 0 0 0.
Definition empty_log (kind : Z) : log_out := mkOut (mkFile (log_image sample_header []) 0) kind None 0.
Definition sample_sink : sink := mkSink 0 (empty_log 1) (empty_log 0) 0 [] 0 0.
Definition sample_entry : posix_log_entry := mkEntry LOG_MAGIC_ARCH 0 3 POSIX_LOG_STRING 7 8 6 500 500 42 42 0 0 0 1 0.
Lemma sample_sink_ok : sink_ok sample_sink.
Proof. split; [done|by intros []]. Qed.
Lemma sample_models w : models sample_header (mkAlog [] None 0) (out_of w sample_sink).
Proof. by destruct w. Qed.

Lemma logging_refines_abstract_witness : exists s',
  log_evl_rec (fun k => (0 <? k)%nat) (fun _ => true) sample_self EvlLog sample_entry [97; 98; 0] 5 sample_sink =
    Some (0, with_recid sample_entry 1, s') /\
  lo_evlbuf (out_of EvlLog s') = Some (recs_image [event_rec sample_entry [97; 98; 0] 1]).
Proof.
  destruct (logging_refines_abstract (fun k => (0 <? k)%nat) (fun _ => true) sample_self sample_header (mkAlog [] None 0) EvlLog
    sample_entry [97; 98; 0] 5 sample_sink) as (s' & Hs' & [[_ Hb] _] & _).
  - apply sample_sink_ok.
  - done.
  - by split.
  - apply (sample_models EvlLog).
  - done.
  - exists s'. split; [exact Hs'|]. rewrite Hb. reflexivity.
Defined.
Lemma logs_keep_every_record_witness : exists s',
  log_events (fun k => (2 <? k)%nat) (fun _ => true) sample_self
    [(EvlLog, sample_entry, [97; 98; 0]); (PvtLog, sample_entry, [99; 98; 0]); (EvlLog, sample_entry, [100; 98; 0])] 5 sample_sink = Some s' /\
  contents EvlLog s' = log_image sample_header [event_rec sample_entry [97; 98; 0] 1; event_rec sample_entry [100; 98; 0] 3].
Proof.
  destruct (logs_keep_every_record (fun k => (2 <? k)%nat) (fun _ => true) sample_self (fun _ => sample_header) (fun _ => [])
    [(EvlLog, sample_entry, [97; 98; 0]); (PvtLog, sample_entry, [99; 98; 0]); (EvlLog, sample_entry, [100; 98; 0])] 5 sample_sink)
    as (s' & Hs' & Hc & _).
  - apply sample_sink_ok.
  - repeat constructor; done.
  - done.
  - apply sample_models.
  - by intros [].
  - exists s'. split; [exact Hs'|]. rewrite (Hc EvlLog). reflexivity.
Defined.
