(* ===== verification/Lookback.v ===== *)
(** * Duplicate suppression ([cmd/evlogd/evlogd.c])

    The daemon keeps the last records of each log and drops a record that repeats
    one of them, counting; a "Discarded n duplicate events" record is written when
    the count or the interval is reached.  The records themselves stay in the event
    buffers [buf], and [dup_buffer_t.rec] points into them: here [db_rec] is the
    index of that buffer.  [None] is undefined behaviour (an index out of range, a
    null pointer that is read). *)
From S2P Require Import Prelude NvPairs LogRecord FacReg MemStr Files LogSink.

Record dup_buffer_t := mkDup {
  db_rec : option nat;      (* [rec], null or [buf[i].rec] *)
  db_dup_count : Z;
  db_buf_index : nat;
  db_time_start : Z
}.
Record event_buffer_t := mkSlot { eb_entry : posix_log_entry; eb_data : list Z; in_use : bool }.
(** The duplicate part of [log_info_t]. *)
Record log_dups := mkDups { ld_dup_count : Z; dup_recs_array : option (list dup_buffer_t) }.
Record dup_conf := mkConf {
  dup_count : Z; dup_interval : Z; dup_timeout : Z; dup_array_size : Z; dis_dup_recs : bool
}.
Record lookback := mkLookback {
  evl_dups : log_dups;
  pvt_dups : log_dups;
  buf : list event_buffer_t;          (* [buf_size] elements *)
  equality_index : Z;
  dconf : dup_conf
}.

Definition dups_of (w : log_id) (d : lookback) : log_dups :=
  match w with EvlLog => evl_dups d | PvtLog => pvt_dups d end.
Definition set_dups (w : log_id) (x : log_dups) (d : lookback) : lookback :=
  match w with
  | EvlLog => mkLookback x (pvt_dups d) (buf d) (equality_index d) (dconf d)
  | PvtLog => mkLookback (evl_dups d) x (buf d) (equality_index d) (dconf d)
  end.
Definition set_buf (b : list event_buffer_t) (d : lookback) : lookback :=
  mkLookback (evl_dups d) (pvt_dups d) b (equality_index d) (dconf d).

(** What [calloc] leaves. *)
Definition null_entry : posix_log_entry := mkEntry 0 0 0 0 0 0 0 0 0 0 0 0 0 0 0 0.
Definition null_slot : event_buffer_t := mkSlot null_entry (replicate (Z.to_nat POSIX_LOG_ENTRY_MAXLEN) 0) false.
Definition null_dup : dup_buffer_t := mkDup None 0 0 0.

(** [buf[i].in_use = v] *)
Definition set_in_use (i : nat) (v : bool) (b : list event_buffer_t) : option (list event_buffer_t) :=
  x ← b !! i; Some (<[i := mkSlot (eb_entry x) (eb_data x) v]> b).

Definition same_header (chdr phdr : posix_log_entry) : bool :=
  (log_size phdr =? log_size chdr) && (log_event_type phdr =? log_event_type chdr) &&
  (log_facility phdr =? log_facility chdr) && (log_severity phdr =? log_severity chdr) &&
  (log_pid phdr =? log_pid chdr) && (log_uid phdr =? log_uid chdr) && (log_gid phdr =? log_gid chdr) &&
  (log_pgrp phdr =? log_pgrp chdr) && (log_format phdr =? log_format chdr) &&
  (log_flags phdr =? log_flags chdr) && (log_thread phdr =? log_thread chdr) &&
  (log_processor phdr =? log_processor chdr).
(** [None]: [memcmp] of more than the arrays hold. *)
Definition compareEventRecords (crec : event_buffer_t) (prec : option event_buffer_t) : option bool :=
  match prec with
  | None => Some false
  | Some p =>
      if negb (same_header (eb_entry crec) (eb_entry p)) then Some false
      else
        let n := log_size (eb_entry crec) in
        if n >? POSIX_LOG_ENTRY_MAXLEN then None
        else Some (bool_decide (take (Z.to_nat n) (eb_data crec) = take (Z.to_nat n) (eb_data p)))
  end.

(** Lowest score is replaced first. *)
Definition compute_score (c : dup_conf) (d : dup_buffer_t) (cur_time : Z) : Z :=
  match db_rec d with
  | None => 0
  | Some _ =>
      if negb (db_time_start d =? 0) && (cur_time - db_time_start d >? dup_interval c)
      then s32 (db_time_start d + db_dup_count d)
      else if negb (db_time_start d =? 0)
      then s32 (db_time_start d + dup_interval c + db_dup_count d + dup_count c)
      else s32 (s32 (2 * dup_count c) + cur_time + dup_interval c)
  end.

Section Lookback.
Context `{HostLib}.
Variables (lock_ok nfy_ok : nat -> bool) (self : self_t).
#[local] Abbreviation writeDiscardEvent := (writeDiscardEvent lock_ok nfy_ok self).

(** The record that [rec] points to. *)
Definition rec_at (d : lookback) (x : dup_buffer_t) : option (option event_buffer_t) :=
  match db_rec x with
  | None => Some None
  | Some i => e ← buf d !! i; Some (Some e)
  end.

(** The loop of [dropDupRecord]: the index of a duplicate, or the element to replace,
    its score, and whether all scores are equal. *)
Inductive search_result := Duplicate (count : nat) | Replace (count : nat) (equality_flag : bool).
Fixpoint search_dups (d : lookback) (crec : event_buffer_t) (cur_time : Z) (arr : list dup_buffer_t)
  (n count replace : nat) (replace_score : Z) (equality_flag : bool) : option search_result :=
  match n with
  | O => Some (Replace replace equality_flag)
  | S n' =>
      x ← arr !! count;
      let score := compute_score (dconf d) x cur_time in
      let '(replace, replace_score, equality_flag) :=
        if (0 <? count)%nat && negb (score =? replace_score) then
          if score <? replace_score then (count, score, false) else (replace, replace_score, false)
        else (replace, replace_score, equality_flag) in
      r ← (if cur_time - db_time_start x <? dup_timeout (dconf d) then rec_at d x else Some None);
      same ← compareEventRecords crec r;
      if (same : bool) then Some (Duplicate count)
      else search_dups d crec cur_time arr n' (S count) replace replace_score equality_flag
  end.

(** [linfo->dup_recs_array], allocated when it is null. *)
Definition dup_array (w : log_id) (d : lookback) : list dup_buffer_t :=
  default (replicate (Z.to_nat (dup_array_size (dconf d))) null_dup) (dup_recs_array (dups_of w d)).

(** [buf[x.buf_index].in_use = 0] and [x] cleared, as the duplicate's notice is written. *)
Definition count_duplicate (w : log_id) (arr : list dup_buffer_t) (k : nat) (facility event_type cur_time : Z)
  (d : lookback) (s : sink) : option (lookback * sink) :=
  x ← arr !! k;
  let n := s32 (db_dup_count x + 1) in
  let total := s32 (ld_dup_count (dups_of w d) + 1) in
  if (n =? dup_count (dconf d)) || (cur_time - db_time_start x >=? dup_interval (dconf d)) then
    s ← writeDiscardEvent w facility event_type n cur_time s;
    b ← set_in_use (db_buf_index x) false (buf d);
    let arr := <[k := mkDup None 0 (db_buf_index x) 0]> arr in
    Some (set_buf b (set_dups w (mkDups (s32 (total - n)) (Some arr)) d), s)
  else
    let arr := <[k := mkDup (db_rec x) n (db_buf_index x) (db_time_start x)]> arr in
    Some (set_dups w (mkDups total (Some arr)) d, s).

(** The new record takes the place of element [k]. *)
Definition replace_element (w : log_id) (arr : list dup_buffer_t) (k buf_index : nat) (cur_time : Z)
  (d : lookback) (s : sink) : option (lookback * sink) :=
  x ← arr !! k;
  '(total, s) ← (if db_dup_count x >? 0 then
                   r ← rec_at d x;
                   e ← r;
                   s ← writeDiscardEvent w (log_facility (eb_entry e)) (log_event_type (eb_entry e)) (db_dup_count x) cur_time s;
                   Some (s32 (ld_dup_count (dups_of w d) - db_dup_count x), s)
                 else Some (ld_dup_count (dups_of w d), s));
  b ← (match db_rec x with None => Some (buf d) | Some _ => set_in_use (db_buf_index x) false (buf d) end);
  b ← set_in_use buf_index true b;
  let arr := <[k := mkDup (Some buf_index) 0 buf_index cur_time]> arr in
  Some (set_buf b (set_dups w (mkDups total (Some arr)) d), s).

(** [rhdr] is [buf[buf_index].rec]; the result is 1 when the record is dropped. *)
Definition dropDupRecord (w : log_id) (buf_index : nat) (cur_time : Z) (d : lookback) (s : sink)
  : option (bool * lookback * sink) :=
  if negb (dis_dup_recs (dconf d)) then Some (false, d, s)
  else
    crec ← buf d !! buf_index;
    let arr := dup_array w d in
    first ← arr !! O;
    r ← search_dups d crec cur_time arr (Z.to_nat (dup_array_size (dconf d))) 0 0
          (compute_score (dconf d) first cur_time) true;
    match r with
    | Duplicate k =>
        '(d, s) ← count_duplicate w arr k (log_facility (eb_entry crec)) (log_event_type (eb_entry crec)) cur_time d s;
        Some (true, d, s)
    | Replace k false =>
        '(d, s) ← replace_element w arr k buf_index cur_time d s;
        Some (false, d, s)
    | Replace _ true =>
        let i := equality_index d + 1 in
        let i := if i >=? dup_array_size (dconf d) then 0 else i in
        let d := mkLookback (evl_dups d) (pvt_dups d) (buf d) i (dconf d) in
        '(d, s) ← replace_element w arr (Z.to_nat i) buf_index cur_time d s;
        Some (false, d, s)
    end.

(** The loop that [checkDupEventTimeoutForLog] and [dumpDuplicatesBuffer] share; [due]
    says when the notice of a pending count is written now. *)
Fixpoint flush_dups (w : log_id) (due : dup_buffer_t -> bool) (now : Z) (arr done : list dup_buffer_t)
  (b : list event_buffer_t) (total : Z) (s : sink)
  : option (list dup_buffer_t * list event_buffer_t * Z * sink) :=
  match arr with
  | [] => Some (done, b, total, s)
  | x :: arr' =>
      if (db_dup_count x >? 0) && due x then
        i ← db_rec x;
        e ← b !! i;
        s ← writeDiscardEvent w (log_facility (eb_entry e)) (log_event_type (eb_entry e)) (db_dup_count x) now s;
        b ← set_in_use (db_buf_index x) false b;
        flush_dups w due now arr' (done ++ [mkDup None 0 (db_buf_index x) 0]) b (s32 (total - db_dup_count x)) s
      else flush_dups w due now arr' (done ++ [x]) b total s
  end.

(** The timeout after the loop: the least time until a notice is due. *)
Definition next_timeout (c : dup_conf) (now : Z) (arr : list dup_buffer_t) (tv_sec : Z) : Z :=
  fold_left (fun tv x =>
    let timeout := db_time_start x + dup_interval c - now in
    if (db_dup_count x >? 0) && (timeout >? 0) && ((tv =? 0) || (tv >? timeout)) then timeout else tv) arr tv_sec.
Definition checkDupEventTimeoutForLog (w : log_id) (tv_sec now : Z) (d : lookback) (s : sink)
  : option (Z * lookback * sink) :=
  match dup_recs_array (dups_of w d) with
  | None => Some (tv_sec, d, s)
  | Some arr =>
      if ld_dup_count (dups_of w d) =? 0 then Some (tv_sec, d, s)
      else
        '(arr', b, total, s) ←
          flush_dups w (fun x => db_time_start x + dup_interval (dconf d) - now <=? 0) now arr [] (buf d)
            (ld_dup_count (dups_of w d)) s;
        Some (next_timeout (dconf d) now arr tv_sec, set_buf b (set_dups w (mkDups total (Some arr')) d), s)
  end.
Definition checkDupEventTimeout (now : Z) (d : lookback) (s : sink) : option (Z * lookback * sink) :=
  '(tv, d, s) ← checkDupEventTimeoutForLog EvlLog 0 now d s;
  checkDupEventTimeoutForLog PvtLog tv now d s.

Definition dumpDuplicatesBuffer (w : log_id) (now : Z) (d : lookback) (s : sink) : option (lookback * sink) :=
  match dup_recs_array (dups_of w d) with
  | None => Some (d, s)
  | Some arr =>
      '(_, b, _, s) ← flush_dups w (fun _ => true) now arr [] (buf d) (ld_dup_count (dups_of w d)) s;
      Some (set_buf b (set_dups w (mkDups 0 None) d), s)
  end.

(** The new size counts when [calloc] can give it; [None] otherwise. *)
Definition reallocBuffer (newsize : Z) (prev_on cur_on : bool) (now : Z) (d : lookback) (s : sink)
  : option (lookback * sink) :=
  '(d, s) ← (if prev_on then
               '(d, s) ← dumpDuplicatesBuffer EvlLog now d s;
               dumpDuplicatesBuffer PvtLog now d s
             else Some (d, s));
  let c := dconf d in
  let buf_size := if cur_on then 2 * newsize + 1 else 1 in
  if buf_size <=? 0 then None
  else Some (mkLookback (evl_dups d) (pvt_dups d) (replicate (Z.to_nat buf_size) null_slot) (equality_index d)
               (mkConf (dup_count c) (dup_interval c) (dup_timeout c) newsize (dis_dup_recs c)), s).

(** The event buffer that [run_parent] reads the next record into. *)
Definition next_buffer (d : lookback) : nat :=
  if dis_dup_recs (dconf d) then
    match list_find (fun x => in_use x = false) (buf d) with
    | Some (i, _) => i
    | None => length (buf d)
    end
  else O.
End Lookback.

(** ** Messages without directives *)

Fixpoint no_percent (s : str) : bool :=
  match s with EmptyString => true | String c s' => negb (chr c =? 37) && no_percent s' end.
Lemma format_plain s : no_percent s = true -> format_no_args s = Some s.
Proof.
  induction s as [|c s IH]; [done|]. cbn [no_percent format_no_args]. intros [Hc Hs]%andb_true_iff.
  apply negb_true_iff in Hc. rewrite Hc, IH by done. done.
Qed.
Lemma no_percent_app a b : no_percent (a ++ b) = no_percent a && no_percent b.
Proof. induction a as [|c a IH]; [done|]. cbn. by rewrite IH, andb_assoc. Qed.
Lemma no_percent_prefix n : forall s, no_percent s = true -> no_percent (String.substring 0 n s) = true.
Proof.
  induction n as [|n IH]; intros [|c s]; try done. cbn [no_percent String.substring].
  intros [-> Hs]%andb_true_iff. by rewrite IH.
Qed.
Lemma no_percent_pretty x : forall s, no_percent s = true -> no_percent (pretty_N_go x s) = true.
Proof.
  induction (N.lt_wf_0 x) as [x _ IH]; intros s Hs.
  assert (x = 0 \/ 0 < x)%N as [->|Hx] by lia; [done|].
  rewrite pretty_N_go_step by done. apply IH; [apply N.div_lt; lia|]. cbn. rewrite Hs, andb_true_r.
  assert (x `mod` 10 < 10)%N as Hm by (apply N.mod_lt; lia). revert Hm. generalize (x `mod` 10)%N. intros m Hm.
  destruct m as [|p]; [done|]. do 4 (destruct p as [p|p|]; try done; try lia).
Qed.
Lemma no_percent_d z : no_percent (fmt_d z) = true.
Proof.
  unfold fmt_d. destruct z as [|p|p]; [done|..].
  - change (no_percent (pretty_N_go (Npos p) "") = true). by apply no_percent_pretty.
  - change (no_percent ("-" ++ pretty (Npos p)) = true). change (no_percent (pretty_N_go (Npos p) "") = true).
    by apply no_percent_pretty.
Qed.
Lemma no_percent_x_go f : forall z s, 0 <= z -> no_percent s = true -> no_percent (hex_go f z s) = true.
Proof.
  induction f as [|f IH]; intros z s Hz Hs; [done|]. cbn [hex_go].
  assert (no_percent (String (hex_digit (z mod 16)) s) = true) as Hd.
  { cbn. rewrite Hs, andb_true_r. pose proof (Z.mod_pos_bound z 16 ltac:(lia)). unfold hex_digit.
    destruct (z mod 16 <? 10) eqn:E; rewrite chr_of_chr by zb; apply negb_true_iff, Z.eqb_neq; zb. }
  destruct (z / 16 =? 0); [done|]. apply IH; [apply Z.div_pos; lia|done].
Qed.
Lemma no_percent_x z : 0 <= z -> no_percent (fmt_x z) = true.
Proof. intros Hz. by apply no_percent_x_go. Qed.

(** Facilities whose names hold no directive. *)
Definition plain_names `{HostLib} : Prop := forall c s, facility_name c = Some s -> no_percent s = true.

Section Notices.
Context `{HostLib}.
Variables (lock_ok nfy_ok : nat -> bool) (self : self_t).

Lemma discard_plain fac ty n : plain_names -> no_percent (discard_text fac ty n) = true.
Proof.
  intros Hn. unfold discard_text. apply no_percent_prefix. rewrite !no_percent_app, no_percent_d.
  rewrite no_percent_x by (pose proof (unsigned_range 32 ty); unfold in_unsigned in *; lia).
  cbn [andb]. change (no_percent "Discarded ") with true. change (no_percent " duplicate events, event_type = 0x") with true.
  change (no_percent ", facility = ") with true. cbn [andb].
  destruct (facility_name fac) eqn:E; [by eapply Hn|apply no_percent_d].
Qed.

Lemma log_evl_rec_total w entry data now s : u32 (log_size entry + REC_HDR_SIZE) <= REC_HDR_SIZE + POSIX_LOG_ENTRY_MAXLEN ->
  exists e s', log_evl_rec lock_ok nfy_ok self w entry data now s = Some (0, e, s').
Proof.
  intros Hsz. unfold log_evl_rec. destruct (_ >? _) eqn:E; [zb|]. destruct (getNextRecId _ _) as [id s1].
  unfold write_rec_to_log. destruct (try_lock _ _) as [[|] s2]; cbn [negb mbind option_bind].
  - destruct (bool_decide _) eqn:Eb; cbn [mbind option_bind]; [do 2 eexists; reflexivity|].
    apply bool_decide_eq_false in Eb. unfold drain_buf_to_log.
    destruct (lo_evlbuf (out_of w s2)); [|done]. cbn. do 2 eexists. reflexivity.
  - do 2 eexists. reflexivity.
Qed.

(** A notice can always be written. *)
Lemma notice_total w fac ty n now s : plain_names ->
  exists s', writeDiscardEvent lock_ok nfy_ok self w fac ty n now s = Some s'.
Proof.
  intros Hn. unfold writeDiscardEvent, mk_evl_rec. rewrite format_plain by (by apply discard_plain).
  cbn [mbind option_bind].
  destruct (log_evl_rec_total w (own_entry self LOG_LOGMGMT 1 LOG_INFO now (discard_text fac ty n))
    (own_data (String.substring 0 (Z.to_nat (POSIX_LOG_ENTRY_MAXLEN - 1)) (discard_text fac ty n))) now s)
    as (e & s' & ->); [|by eexists].
  cbn [own_entry log_size]. unfold strlen.
  assert (String.length (discard_text fac ty n) <= 382)%nat as Hl.
  { unfold discard_text. etransitivity; [apply length_substring0|]. done. }
  unfold REC_HDR_SIZE, POSIX_LOG_ENTRY_MAXLEN. rewrite unsigned_id by (unfold in_unsigned; lia). lia.
Qed.
End Notices.

(** ** The invariant of the lookback buffers *)

Definition other (w : log_id) : log_id := match w with EvlLog => PvtLog | PvtLog => EvlLog end.
Fixpoint pending_sum (arr : list dup_buffer_t) : Z :=
  match arr with [] => 0 | x :: arr' => db_dup_count x + pending_sum arr' end.
(** The event buffers that the elements point into. *)
Definition refs_of (arr : list dup_buffer_t) : list nat := omap db_rec arr.
Definition slots (d : lookback) : list nat := refs_of (dup_array EvlLog d) ++ refs_of (dup_array PvtLog d).
(** Dropped records whose notice is still to be written. *)
Definition pending (d : lookback) : Z := pending_sum (dup_array EvlLog d) + pending_sum (dup_array PvtLog d).

Definition dup_ok (x : dup_buffer_t) : Prop :=
  0 <= db_dup_count x /\
  match db_rec x with None => db_dup_count x = 0 | Some i => db_buf_index x = i end.
Definition slot_ok (x : event_buffer_t) : Prop :=
  length (eb_data x) = Z.to_nat POSIX_LOG_ENTRY_MAXLEN /\
  (in_use x = true -> 0 <= log_size (eb_entry x) <= POSIX_LOG_ENTRY_MAXLEN).
Definition used (b : list event_buffer_t) (i : nat) : Prop := exists e, b !! i = Some e /\ in_use e = true.

Record look_ok (d : lookback) : Prop := {
  lk_size : 0 < dup_array_size (dconf d);
  lk_arrays w : Z.of_nat (length (dup_array w d)) = dup_array_size (dconf d);
  lk_dups w : Forall dup_ok (dup_array w d);
  lk_total w : ld_dup_count (dups_of w d) = pending_sum (dup_array w d);
  lk_nodup : NoDup (slots d);
  lk_used i : used (buf d) i <-> i ∈ slots d;
  lk_slots : Forall slot_ok (buf d);
  lk_buf : Z.of_nat (length (buf d)) = if dis_dup_recs (dconf d) then 2 * dup_array_size (dconf d) + 1 else 1;
  lk_off w : dis_dup_recs (dconf d) = false -> dup_recs_array (dups_of w d) = None;
  lk_index : -1 <= equality_index d
}.

Lemma slots_perm w d : slots d ≡ₚ refs_of (dup_array w d) ++ refs_of (dup_array (other w) d).
Proof. destruct w; [done|]. unfold slots. apply Permutation_app_comm. Qed.
Lemma pending_split w d : pending d = pending_sum (dup_array w d) + pending_sum (dup_array (other w) d).
Proof. destruct w; unfold pending; cbn [other]; lia. Qed.
Lemma refs_app a b : refs_of (a ++ b) = refs_of a ++ refs_of b.
Proof. apply omap_app. Qed.
Lemma pending_sum_app a b : pending_sum (a ++ b) = pending_sum a + pending_sum b.
Proof. induction a as [|x a IH]; cbn; lia. Qed.
Lemma pending_insert arr k x y : arr !! k = Some x ->
  pending_sum (<[k := y]> arr) = pending_sum arr - db_dup_count x + db_dup_count y.
Proof.
  intros Hx. pose proof (lookup_lt_Some _ _ _ Hx). rewrite insert_take_drop by done.
  rewrite <-(take_drop_middle arr k x Hx) at 3. rewrite !pending_sum_app. cbn. lia.
Qed.
Lemma refs_insert arr k x y : arr !! k = Some x ->
  exists l1 l2, refs_of arr = l1 ++ option_list (db_rec x) ++ l2 /\
    refs_of (<[k := y]> arr) = l1 ++ option_list (db_rec y) ++ l2.
Proof.
  intros Hx. pose proof (lookup_lt_Some _ _ _ Hx). rewrite insert_take_drop by done.
  exists (refs_of (take k arr)), (refs_of (drop (S k) arr)).
  rewrite <-(take_drop_middle arr k x Hx) at 1. rewrite !refs_app. unfold refs_of. cbn.
  by destruct (db_rec x), (db_rec y).
Qed.
Lemma dup_array_set w w' n arr d :
  dup_array w' (set_dups w (mkDups n (Some arr)) d) = if decide (w' = w) then arr else dup_array w' d.
Proof. by destruct w, w'. Qed.
Lemma dup_array_buf w b d : dup_array w (set_buf b d) = dup_array w d.
Proof. by destruct w. Qed.
Lemma set_in_use_spec i v b : (i < length b)%nat ->
  exists b' e, b !! i = Some e /\ set_in_use i v b = Some b' /\ b' = <[i := mkSlot (eb_entry e) (eb_data e) v]> b.
Proof.
  intros Hi. destruct (lookup_lt_is_Some_2 b i Hi) as [e He]. unfold set_in_use. rewrite He. by do 2 eexists.
Qed.
Lemma used_insert b i e v j : b !! i = Some e ->
  used (<[i := mkSlot (eb_entry e) (eb_data e) v]> b) j <-> (j = i /\ v = true) \/ (j <> i /\ used b j).
Proof.
  intros He. pose proof (lookup_lt_Some _ _ _ He). unfold used. destruct (decide (j = i)) as [->|Hne].
  - rewrite list_lookup_insert_eq by done. split; [intros (? & [= <-] & ?); by left|].
    intros [[_ ->]|[? _]]; [by eexists|done].
  - rewrite list_lookup_insert_ne by done. split; [by right|]. intros [[? _]|[_ ?]]; done.
Qed.
Lemma used_lt b i : used b i -> (i < length b)%nat.
Proof. intros (e & He & _). by eapply lookup_lt_Some. Qed.

Lemma elem_option_list {A} (o : option A) i : i ∈ option_list o <-> o = Some i.
Proof. destruct o; cbn; rewrite ?list_elem_of_singleton, ?elem_of_nil; naive_solver. Qed.

(** An element of an array is replaced, with the event buffers marked to match. *)
Lemma look_ok_update w d k x y total b : look_ok d -> dup_array w d !! k = Some x -> dup_ok y ->
  total = ld_dup_count (dups_of w d) - db_dup_count x + db_dup_count y ->
  length b = length (buf d) -> Forall slot_ok b ->
  (forall i, used b i <-> used (buf d) i /\ db_rec x <> Some i \/ db_rec y = Some i) ->
  (forall i, db_rec y = Some i -> i ∉ slots d \/ db_rec x = Some i) ->
  dis_dup_recs (dconf d) = true ->
  let d' := set_buf b (set_dups w (mkDups total (Some (<[k := y]> (dup_array w d)))) d) in
  look_ok d' /\ pending d' = pending d - db_dup_count x + db_dup_count y.
Proof.
  intros Hok Hx Hy Ht Hlen Hsl Hused Hfresh Hon d'.
  destruct (refs_insert (dup_array w d) k x y Hx) as (l1 & l2 & Hr & Hr').
  assert (forall w', dup_array w' d' = if decide (w' = w) then <[k := y]> (dup_array w d) else dup_array w' d) as Harr.
  { intros w'. unfold d'. by rewrite dup_array_buf, dup_array_set. }
  assert (slots d ≡ₚ option_list (db_rec x) ++ l1 ++ l2 ++ refs_of (dup_array (other w) d)) as Hp.
  { rewrite (slots_perm w), Hr. rewrite <-!app_assoc, !app_assoc. do 2 f_equiv. apply Permutation_app_comm. }
  assert (slots d' ≡ₚ option_list (db_rec y) ++ l1 ++ l2 ++ refs_of (dup_array (other w) d)) as Hp'.
  { rewrite (slots_perm w), !Harr, decide_True, decide_False, Hr' by (done || by destruct w).
    rewrite <-!app_assoc, !app_assoc. do 2 f_equiv. apply Permutation_app_comm. }
  set (rest := l1 ++ l2 ++ refs_of (dup_array (other w) d)) in *.
  pose proof (lk_nodup d Hok) as Hnd. rewrite Hp in Hnd. apply NoDup_app in Hnd as (_ & Hx' & Hndr).
  assert (dconf d' = dconf d /\ buf d' = b /\ equality_index d' = equality_index d) as (Hc & Hb & He) by (by destruct w).
  assert (pending d' = pending d - db_dup_count x + db_dup_count y) as Hpend.
  { rewrite !(pending_split w), !Harr, decide_True, decide_False by (done || by destruct w).
    rewrite (pending_insert _ _ x) by done. lia. }
  split; [|done]. split; rewrite ?Hc, ?Hb, ?He.
  - apply Hok.
  - intros w'. rewrite Harr. destruct (decide (w' = w)); [rewrite length_insert|]; apply Hok.
  - intros w'. rewrite Harr. destruct (decide (w' = w)); [|apply Hok]. apply Forall_insert; [apply Hok|done].
  - intros w'. rewrite Harr. destruct (decide (w' = w)) as [->|Hne].
    + rewrite (pending_insert _ _ x) by done. rewrite <-(lk_total d Hok w). unfold d'. by destruct w.
    + rewrite <-(lk_total d Hok w'). unfold d'. by destruct w, w'.
  - rewrite Hp'. apply NoDup_app. split_and!; [destruct (db_rec y); cbn; [apply NoDup_singleton|constructor]| |done].
    intros i Hi. destruct (db_rec y) as [j|]; [|by apply not_elem_of_nil in Hi]. apply list_elem_of_singleton in Hi as ->.
    destruct (Hfresh j eq_refl) as [Hf|Hf]; [|apply Hx'; rewrite Hf; by apply list_elem_of_singleton].
    intros Hin. apply Hf. rewrite Hp. apply elem_of_app. by right.
  - intros i. rewrite Hused, (lk_used d Hok), Hp, Hp', !elem_of_app, !elem_option_list.
    specialize (Hx' i). rewrite elem_option_list in Hx'. clear -Hx'.
    destruct (decide (db_rec x = Some i)); naive_solver.
  - done.
  - rewrite Hlen. apply Hok.
  - intros w' Hoff. congruence.
  - apply Hok.
Qed.

(** An event buffer is filled; its mark stays. *)
Lemma fill_slot k i x e data : look_ok k -> buf k !! i = Some x ->
  length data = Z.to_nat POSIX_LOG_ENTRY_MAXLEN ->
  (in_use x = true -> 0 <= log_size e <= POSIX_LOG_ENTRY_MAXLEN) ->
  let k' := set_buf (<[i := mkSlot e data (in_use x)]> (buf k)) k in look_ok k' /\ pending k' = pending k.
Proof.
  intros [Hs Ha Hd Ht Hn Hu Hsl Hb Hof Hi] Hx Hl Hsz k'. split; [|done].
  assert (forall w, dup_array w k' = dup_array w k) as Harr by (intros w; apply dup_array_buf).
  split; try done; try (intros w; rewrite ?Harr; done || (by destruct w)).
  - intros j. change (slots k') with (slots k). rewrite <-Hu. unfold used, k'. cbn [buf set_buf].
    pose proof (lookup_lt_Some _ _ _ Hx). destruct (decide (j = i)) as [->|Hne].
    + rewrite list_lookup_insert_eq by done. rewrite Hx. split; intros (y & [= <-] & ?); eauto.
    + by rewrite list_lookup_insert_ne.
  - apply Forall_insert; [done|]. by split.
  - cbn [buf set_buf k' dconf]. by rewrite length_insert.
Qed.

(** ** What the duplicates cost the logs *)

(** The calls that write to the logs. *)
Inductive call :=
  | Logged (w : log_id) (entry : posix_log_entry) (data : list Z) (now : Z)
  | Notice (HL : HostLib) (w : log_id) (facility event_type count now : Z).
Fixpoint sink_run (lock_ok nfy_ok : nat -> bool) (self : self_t) (cs : list call) (s : sink) : option sink :=
  match cs with
  | [] => Some s
  | c :: cs' =>
      s ← (match c with
           | Logged w entry data now => '(_, _, s) ← log_evl_rec lock_ok nfy_ok self w entry data now s; Some s
           | Notice HL w fac ty n now => @writeDiscardEvent HL lock_ok nfy_ok self w fac ty n now s
           end);
      sink_run lock_ok nfy_ok self cs' s
  end.
Fixpoint announced (cs : list call) : Z :=
  match cs with
  | [] => 0
  | Logged _ _ _ _ :: cs' => announced cs'
  | Notice _ _ _ _ n _ :: cs' => n + announced cs'
  end.
Fixpoint recorded (cs : list call) : Z :=
  match cs with
  | [] => 0
  | Logged _ _ _ _ :: cs' => 1 + recorded cs'
  | Notice _ _ _ _ _ _ :: cs' => recorded cs'
  end.
Lemma sink_run_app lock_ok nfy_ok self a : forall b s,
  sink_run lock_ok nfy_ok self (a ++ b) s = s ← sink_run lock_ok nfy_ok self a s; sink_run lock_ok nfy_ok self b s.
Proof.
  induction a as [|c a IH]; intros b s; [done|]. cbn [app sink_run].
  destruct (match c with Logged _ _ _ _ => _ | Notice _ _ _ _ _ _ => _ end); [apply IH|done].
Qed.
Lemma announced_app a b : announced (a ++ b) = announced a + announced b.
Proof. induction a as [|[] a IH]; cbn; lia. Qed.
Lemma recorded_app a b : recorded (a ++ b) = recorded a + recorded b.
Proof. induction a as [|[] a IH]; cbn; lia. Qed.

(** The event buffers hold the same records. *)
Definition same_records (d d' : lookback) : Prop :=
  (fun e => (eb_entry e, eb_data e)) <$> buf d' = (fun e => (eb_entry e, eb_data e)) <$> buf d.
Lemma same_insert (b : list event_buffer_t) (i : nat) e v : b !! i = Some e ->
  (fun e => (eb_entry e, eb_data e)) <$> <[i := mkSlot (eb_entry e) (eb_data e) v]> b =
  (fun e => (eb_entry e, eb_data e)) <$> b.
Proof.
  intros He. rewrite list_fmap_insert. cbn [eb_entry eb_data].
  apply list_insert_id. by rewrite list_lookup_fmap, He.
Qed.

Section Effects.
Context `{HL : HostLib}.
Variables (lock_ok nfy_ok : nat -> bool) (self : self_t).
Hypothesis Hplain : plain_names.

(** [d'] and [s'] after the calls [cs], with [k] more records dropped. *)
Definition effect (d : lookback) (s : sink) (k : Z) (d' : lookback) (s' : sink) : Prop :=
  look_ok d' /\ same_records d d' /\ dconf d' = dconf d /\
  exists cs, sink_run lock_ok nfy_ok self cs s = Some s' /\ recorded cs = 0 /\ 0 <= announced cs /\
    pending d' + announced cs = pending d + k.

Lemma effect_trans d1 s1 k1 d2 s2 k2 d3 s3 :
  effect d1 s1 k1 d2 s2 -> effect d2 s2 k2 d3 s3 -> effect d1 s1 (k1 + k2) d3 s3.
Proof.
  intros (_ & Hs1 & Hc1 & cs1 & Hr1 & Hn1 & Ha1 & Hp1) (Hok & Hs2 & Hc2 & cs2 & Hr2 & Hn2 & Ha2 & Hp2).
  split; [done|]. unfold same_records in *. rewrite Hs2, Hs1, Hc2, Hc1. split_and!; [done..|].
  exists (cs1 ++ cs2). rewrite sink_run_app, Hr1. cbn [mbind option_bind]. rewrite announced_app, recorded_app.
  split_and!; [done|lia..].
Qed.

(** Every pending record is an element's, and no element has more than all. *)
Lemma pending_bounds d w k x : look_ok d -> dup_array w d !! k = Some x ->
  0 <= db_dup_count x <= pending_sum (dup_array w d) /\ pending_sum (dup_array w d) <= pending d.
Proof.
  intros Hok Hx. assert (forall arr, Forall dup_ok arr -> 0 <= pending_sum arr) as Hpos.
  { induction 1 as [|y arr [Hy _] _ IH]; cbn; lia. }
  pose proof (lk_dups d Hok w) as Hd. pose proof (Hpos _ (lk_dups d Hok (other w))).
  rewrite (pending_split w d). split; [|lia].
  rewrite <-(take_drop_middle _ _ _ Hx) in Hd |- *. apply Forall_app in Hd as [H1 H2]. apply Forall_cons in H2 as [[Hc _] H2].
  rewrite pending_sum_app. cbn. pose proof (Hpos _ H1). pose proof (Hpos _ H2). lia.
Qed.
Lemma rec_used d w k x i : look_ok d -> dup_array w d !! k = Some x -> db_rec x = Some i ->
  db_buf_index x = i /\ i ∈ slots d /\ used (buf d) i.
Proof.
  intros Hok Hx Hr. pose proof (lk_dups d Hok w) as Hd. rewrite Forall_forall in Hd.
  destruct (Hd x ltac:(by eapply list_elem_of_lookup_2)) as [_ Hi]. rewrite Hr in Hi.
  assert (i ∈ slots d) as Hin.
  { rewrite (slots_perm w). apply elem_of_app. left. apply list_elem_of_omap. exists x. split; [|done]. by eapply list_elem_of_lookup_2. }
  split_and!; [done|done|]. by apply (lk_used d Hok).
Qed.

Lemma slot_insert (b : list event_buffer_t) i e v : Forall slot_ok b -> b !! i = Some e ->
  (v = true -> 0 <= log_size (eb_entry e) <= POSIX_LOG_ENTRY_MAXLEN) ->
  Forall slot_ok (<[i := mkSlot (eb_entry e) (eb_data e) v]> b).
Proof.
  intros Hb He Hv. apply Forall_insert; [done|]. rewrite Forall_forall in Hb.
  destruct (Hb e ltac:(by eapply list_elem_of_lookup_2)) as [Hl _]. by split.
Qed.

(** Clearing an element, whose notice has been written. *)
Lemma clear_element w k x i d : look_ok d -> dis_dup_recs (dconf d) = true ->
  dup_array w d !! k = Some x -> db_rec x = Some i ->
  exists b, set_in_use (db_buf_index x) false (buf d) = Some b /\
  let d' := set_buf b (set_dups w (mkDups (ld_dup_count (dups_of w d) - db_dup_count x)
                                     (Some (<[k := mkDup None 0 (db_buf_index x) 0]> (dup_array w d)))) d) in
  look_ok d' /\ pending d' = pending d - db_dup_count x /\ same_records d d' /\ dconf d' = dconf d.
Proof.
  intros Hok Hon Hx Hr. destruct (rec_used d w k x i Hok Hx Hr) as (-> & Hin & Hu).
  destruct (set_in_use_spec i false (buf d) (used_lt _ _ Hu)) as (b & e & He & -> & Hb). exists b. split; [done|].
  destruct (look_ok_update w d k x (mkDup None 0 i 0) (ld_dup_count (dups_of w d) - db_dup_count x) b Hok Hx)
    as [Hok' Hp'].
  - by split.
  - cbn. lia.
  - subst b. by rewrite length_insert.
  - subst b. apply slot_insert; [apply Hok|done|done].
  - intros j. subst b. rewrite (used_insert _ _ _ _ _ He), Hr. cbn. naive_solver.
  - done.
  - done.
  - split_and!; [done|rewrite Hp'; cbn; lia| |by destruct w].
    subst b. unfold same_records. destruct w; by apply same_insert.
Qed.

(** A duplicate is counted, and announced when it is time. *)
Lemma count_ok w k x i fac ty now d s : look_ok d -> dis_dup_recs (dconf d) = true ->
  dup_array w d !! k = Some x -> db_rec x = Some i ->
  pending d + 1 < 2 ^ 31 ->
  exists d' s', count_duplicate lock_ok nfy_ok self w (dup_array w d) k fac ty now d s = Some (d', s') /\ effect d s 1 d' s'.
Proof.
  intros Hok Hon Hx Hr Hb. unfold count_duplicate. rewrite Hx. cbn [mbind option_bind].
  destruct (pending_bounds d w k x Hok Hx) as [Hc Hp]. rewrite (lk_total d Hok w).
  rewrite !(signed_id 32 (db_dup_count x + 1)), !(signed_id 32 (pending_sum _ + 1)) by (try lia; unfold in_signed; lia).
  destruct (_ || _).
  - destruct (notice_total lock_ok nfy_ok self w fac ty (db_dup_count x + 1) now s Hplain) as [s' Hs']. rewrite Hs'. cbn [mbind option_bind].
    destruct (clear_element w k x i d Hok Hon Hx Hr) as (b & -> & Hok' & Hpd & Hsame & Hcf). cbn [mbind option_bind].
    rewrite signed_id by (try lia; unfold in_signed; lia).
    replace (pending_sum (dup_array w d) + 1 - (db_dup_count x + 1)) with (ld_dup_count (dups_of w d) - db_dup_count x)
      by (rewrite (lk_total d Hok w); lia).
    do 2 eexists. split; [done|]. split_and!; [done..|].
    exists [Notice HL w fac ty (db_dup_count x + 1) now]. cbn [sink_run announced recorded]. rewrite Hs'. cbn [mbind option_bind].
    split_and!; [done|done|lia..].
  - set (y := mkDup _ _ _ _).
    destruct (look_ok_update w d k x y (pending_sum (dup_array w d) + 1) (buf d) Hok Hx) as [Hok' Hpd].
    + destruct (rec_used d w k x i Hok Hx Hr) as (? & _ & _). unfold y, dup_ok. cbn. rewrite Hr. lia.
    + cbn. rewrite (lk_total d Hok w). lia.
    + done.
    + apply Hok.
    + intros j. unfold y. cbn. rewrite (lk_used d Hok). destruct (decide (db_rec x = Some j)) as [He|]; [|naive_solver].
      destruct (rec_used d w k x j Hok Hx He) as (_ & ? & _). naive_solver.
    + intros j. unfold y. cbn. by right.
    + done.
    + do 2 eexists. split; [done|].
      assert (set_buf (buf d) (set_dups w (mkDups (pending_sum (dup_array w d) + 1) (Some (<[k := y]> (dup_array w d)))) d) =
        set_dups w (mkDups (pending_sum (dup_array w d) + 1) (Some (<[k := y]> (dup_array w d)))) d) as Heq by (by destruct w).
      rewrite Heq in *. split_and!; [done|by destruct w|by destruct w|]. exists []. split_and!; [done|done|done|].
      cbn in *. lia.
Qed.

(** The event buffer of the new record is marked, that of the replaced element freed. *)
Lemma swap_buffers w k x bi e d : look_ok d -> dup_array w d !! k = Some x ->
  buf d !! bi = Some e -> in_use e = false -> 0 <= log_size (eb_entry e) <= POSIX_LOG_ENTRY_MAXLEN ->
  exists b1 b, (match db_rec x with None => Some (buf d) | Some _ => set_in_use (db_buf_index x) false (buf d) end) = Some b1 /\
    set_in_use bi true b1 = Some b /\ length b = length (buf d) /\ Forall slot_ok b /\
    (fun e => (eb_entry e, eb_data e)) <$> b = (fun e => (eb_entry e, eb_data e)) <$> buf d /\
    forall j, used b j <-> used (buf d) j /\ db_rec x <> Some j \/ j = bi.
Proof.
  intros Hok Hx He Hfree Hsz.
  assert (~ used (buf d) bi) as Hbi by (intros (e' & He' & Hu); congruence).
  assert (exists b1, (match db_rec x with None => Some (buf d) | Some _ => set_in_use (db_buf_index x) false (buf d) end) = Some b1 /\
    length b1 = length (buf d) /\ Forall slot_ok b1 /\ b1 !! bi = Some e /\
    (fun e => (eb_entry e, eb_data e)) <$> b1 = (fun e => (eb_entry e, eb_data e)) <$> buf d /\
    forall j, used b1 j <-> used (buf d) j /\ db_rec x <> Some j) as (b1 & Hb1 & Hlen & Hsl & He1 & Hsame & Hu1).
  { destruct (db_rec x) as [i|] eqn:Hr.
    - destruct (rec_used d w k x i Hok Hx Hr) as (-> & _ & Hu).
      destruct (set_in_use_spec i false (buf d) (used_lt _ _ Hu)) as (b1 & e1 & Hi & -> & ->). exists (<[i := mkSlot (eb_entry e1) (eb_data e1) false]> (buf d)).
      split_and!; [done|by rewrite length_insert|by apply slot_insert; [apply Hok|..]| |by apply same_insert|].
      + rewrite list_lookup_insert_ne; [done|]. by intros ->.
      + intros j. rewrite (used_insert _ _ _ _ _ Hi). naive_solver.
    - exists (buf d). split_and!; [done|done|apply Hok|done|done|]. intros j. naive_solver. }
  destruct (set_in_use_spec bi true b1) as (b & e' & He' & Hb & ->); [rewrite Hlen; by eapply lookup_lt_Some|].
  assert (e' = e) as -> by congruence. exists b1. eexists. split; [done|]. split; [exact Hb|]. split_and!.
  - by rewrite length_insert.
  - by apply slot_insert.
  - by rewrite same_insert.
  - intros j. rewrite (used_insert _ _ _ _ _ He1), Hu1. destruct (decide (j = bi)) as [->|]; naive_solver.
Qed.

Lemma replace_ok w k bi e now d s : look_ok d -> (k < length (dup_array w d))%nat ->
  buf d !! bi = Some e -> in_use e = false -> 0 <= log_size (eb_entry e) <= POSIX_LOG_ENTRY_MAXLEN ->
  dis_dup_recs (dconf d) = true -> pending d < 2 ^ 31 ->
  exists d' s', replace_element lock_ok nfy_ok self w (dup_array w d) k bi now d s = Some (d', s') /\ effect d s 0 d' s'.
Proof.
  intros Hok Hk He Hfree Hsz Hon Hb. destruct (lookup_lt_is_Some_2 _ _ Hk) as [x Hx].
  destruct (pending_bounds d w k x Hok Hx) as [Hc Hp].
  unfold replace_element. rewrite Hx. cbn [mbind option_bind]. rewrite (lk_total d Hok w).
  assert (exists cs s', (if db_dup_count x >? 0 then
      r ← rec_at d x; e ← r;
      s ← writeDiscardEvent lock_ok nfy_ok self w (log_facility (eb_entry e)) (log_event_type (eb_entry e)) (db_dup_count x) now s;
      Some (s32 (pending_sum (dup_array w d) - db_dup_count x), s)
    else Some (pending_sum (dup_array w d), s)) = Some (pending_sum (dup_array w d) - db_dup_count x, s') /\
    sink_run lock_ok nfy_ok self cs s = Some s' /\ recorded cs = 0 /\ announced cs = db_dup_count x) as (cs & s' & -> & Hcs & Hn & Ha).
  { destruct (db_dup_count x >? 0) eqn:E; bprop.
    - assert (exists i, db_rec x = Some i) as [i Hr].
      { pose proof (lk_dups d Hok w) as Hd. rewrite Forall_forall in Hd.
        destruct (Hd x ltac:(by eapply list_elem_of_lookup_2)) as [_ Hi]. destruct (db_rec x); [by eexists|lia]. }
      destruct (rec_used d w k x i Hok Hx Hr) as (_ & _ & (e1 & He1 & _)). unfold rec_at. rewrite Hr, He1. cbn [mbind option_bind].
      destruct (notice_total lock_ok nfy_ok self w (log_facility (eb_entry e1)) (log_event_type (eb_entry e1)) (db_dup_count x) now s Hplain) as [s' Hs'].
      exists [Notice HL w (log_facility (eb_entry e1)) (log_event_type (eb_entry e1)) (db_dup_count x) now], s'.
      rewrite Hs'. cbn [mbind option_bind sink_run announced recorded]. rewrite Hs'. rewrite signed_id by (try lia; unfold in_signed; lia).
      split_and!; [done..|lia].
    - exists [], s. cbn. assert (db_dup_count x = 0) as -> by lia. by rewrite Z.sub_0_r. }
  cbn [mbind option_bind]. destruct (swap_buffers w k x bi e d Hok Hx He Hfree Hsz) as (b1 & b & -> & Hb2 & Hlen & Hsl & Hsame & Hu).
  cbn [mbind option_bind]. rewrite Hb2. cbn [mbind option_bind].
  destruct (look_ok_update w d k x (mkDup (Some bi) 0 bi now) (pending_sum (dup_array w d) - db_dup_count x) b Hok Hx)
    as [Hok' Hpd].
  - by split.
  - cbn. rewrite (lk_total d Hok w). lia.
  - done.
  - done.
  - intros j. rewrite Hu. cbn. naive_solver.
  - intros j [= <-]. left. rewrite <-(lk_used d Hok). intros (e' & He' & ?). congruence.
  - done.
  - do 2 eexists. split; [done|]. split_and!; [done|by unfold same_records; destruct w|by destruct w|].
    exists cs. cbn in Hpd. split_and!; [done|done|lia..].
Qed.

(** The search ends, at a live element that is the same record or at one to replace. *)
Lemma search_ok d w crec now : look_ok d -> log_size (eb_entry crec) <= POSIX_LOG_ENTRY_MAXLEN ->
  forall n count rep score eq, (count + n = length (dup_array w d))%nat -> (rep < length (dup_array w d))%nat ->
  exists r, search_dups d crec now (dup_array w d) n count rep score eq = Some r /\
    match r with
    | Duplicate k => exists x i, dup_array w d !! k = Some x /\ db_rec x = Some i
    | Replace k _ => (k < length (dup_array w d))%nat
    end.
Proof.
  intros Hok Hsz. induction n as [|n IH]; intros count rep score eq Hn Hrep; [by eexists|].
  cbn [search_dups]. destruct (lookup_lt_is_Some_2 (dup_array w d) count) as [x Hx]; [lia|]. rewrite Hx.
  cbn [mbind option_bind].
  set (st := if (0 <? count)%nat && _ then _ else _).
  assert (exists rep' score' eq', st = (rep', score', eq') /\ (rep' < length (dup_array w d))%nat) as (rep' & score' & eq' & -> & Hrep').
  { unfold st. destruct (_ && _); [destruct (_ <? _)|]; do 3 eexists; (split; [reflexivity|lia]). }
  assert (exists r, (if now - db_time_start x <? dup_timeout (dconf d) then rec_at d x else Some None) = Some r /\
    (r <> None -> exists i, db_rec x = Some i)) as (r & -> & Hr).
  { destruct (_ <? _); [|by eexists]. unfold rec_at. destruct (db_rec x) as [i|] eqn:Ei; [|by eexists].
    destruct (rec_used d w count x i Hok Hx Ei) as (_ & _ & (e & -> & _)). cbn. eauto. }
  cbn [mbind option_bind]. unfold compareEventRecords. destruct r as [p|]; [|cbn; apply IH; lia].
  destruct (negb (same_header _ _)); [cbn; apply IH; lia|]. destruct (_ >? _) eqn:E; [zb|]. cbn [mbind option_bind].
  case_bool_decide; [|apply IH; lia]. destruct Hr as [i Hi]; [done|]. eexists. split; [done|]. cbn. eauto.
Qed.

Lemma look_ok_index d i : look_ok d -> -1 <= i ->
  look_ok (mkLookback (evl_dups d) (pvt_dups d) (buf d) i (dconf d)).
Proof. intros [? ? ? ? ? ? ? ? ? ?] Hi. by split. Qed.

(** A record that arrives is either counted as a duplicate or takes an element's place. *)
Lemma drop_ok w bi e now d s : look_ok d -> buf d !! bi = Some e -> in_use e = false ->
  0 <= log_size (eb_entry e) <= POSIX_LOG_ENTRY_MAXLEN -> pending d + 1 < 2 ^ 31 ->
  exists dropped d' s', dropDupRecord lock_ok nfy_ok self w bi now d s = Some (dropped, d', s') /\
    effect d s (b2z dropped) d' s'.
Proof.
  intros Hok He Hfree Hsz Hb. unfold dropDupRecord. destruct (dis_dup_recs (dconf d)) eqn:Hon; cbn [negb].
  2: { exists false, d, s. split; [done|]. split_and!; [done|done|done|]. exists []. split_and!; [done|done|cbn; lia..]. }
  rewrite He. cbn [mbind option_bind]. pose proof (lk_arrays d Hok w) as Hlen. pose proof (lk_size d Hok).
  destruct (lookup_lt_is_Some_2 (dup_array w d) 0) as [first ->]; [lia|]. cbn [mbind option_bind].
  destruct (search_ok d w e now Hok (proj2 Hsz) (Z.to_nat (dup_array_size (dconf d))) 0 0
    (compute_score (dconf d) first now) true) as (r & -> & Hr); [lia|lia|]. cbn [mbind option_bind].
  destruct r as [k|k []].
  - destruct Hr as (x & i & Hx & Hi).
    destruct (count_ok w k x i (log_facility (eb_entry e)) (log_event_type (eb_entry e)) now d s Hok Hon Hx Hi Hb) as (d' & s' & -> & Heff).
    by exists true, d', s'.
  - set (i := if _ >=? _ then 0 else _). pose proof (lk_index d Hok) as Hidx.
    assert (0 <= i < dup_array_size (dconf d)) as Hi by (unfold i; destruct (_ >=? _) eqn:E; lia).
    set (d1 := mkLookback _ _ _ _ _). assert (look_ok d1) as Hok1 by (apply look_ok_index; [done|lia]).
    assert (forall w, dup_array w d1 = dup_array w d) as Harr by (by intros []).
    destruct (replace_ok w (Z.to_nat i) bi e now d1 s Hok1) as (d' & s' & Hrep & Heff);
      [rewrite Harr; lia|done|done|done|done|change (pending d1) with (pending d); lia|].
    rewrite Harr in Hrep. exists false, d', s'. by rewrite Hrep.
  - destruct (replace_ok w k bi e now d s Hok Hr He Hfree Hsz Hon) as (d' & s' & -> & Heff); [lia|].
    by exists false, d', s'.
Qed.

(** *** Notices whose time has come *)

Lemma effect_refl d s : look_ok d -> effect d s 0 d s.
Proof. intros Hok. split_and!; [done..|]. exists []. cbn. split_and!; [done|done|lia..]. Qed.
Lemma effect_pending d s k d' s' : effect d s k d' s' -> pending d' <= pending d + k.
Proof. intros (_ & _ & _ & cs & _ & _ & ? & ?). lia. Qed.
Lemma dup_array_some w arr d : dup_recs_array (dups_of w d) = Some arr -> dup_array w d = arr.
Proof. unfold dup_array. by intros ->. Qed.
(** No array is allocated while duplicates are not dropped. *)
Lemma array_on w arr d : look_ok d -> dup_recs_array (dups_of w d) = Some arr -> dis_dup_recs (dconf d) = true.
Proof. intros Hok Ha. destruct (dis_dup_recs (dconf d)) eqn:E; [done|]. by rewrite (lk_off d Hok w E) in Ha. Qed.

(** Not both pending and due. *)
Definition settled (due : dup_buffer_t -> bool) (x : dup_buffer_t) : Prop := (db_dup_count x >? 0) && due x = false.

(** One element of the loop: its notice is written and it is cleared. *)
Lemma flush_step w due now x arr done d s :
  look_ok d -> dup_recs_array (dups_of w d) = Some (done ++ x :: arr) -> pending d < 2 ^ 31 ->
  (db_dup_count x >? 0) && due x = true ->
  exists d' s' b, flush_dups lock_ok nfy_ok self w due now (x :: arr) done (buf d) (ld_dup_count (dups_of w d)) s =
      flush_dups lock_ok nfy_ok self w due now arr (done ++ [mkDup None 0 (db_buf_index x) 0]) (buf d')
        (ld_dup_count (dups_of w d')) s' /\
    d' = set_buf b (set_dups w (mkDups (ld_dup_count (dups_of w d) - db_dup_count x)
                                  (Some ((done ++ [mkDup None 0 (db_buf_index x) 0]) ++ arr))) d) /\
    effect d s 0 d' s' /\ pending d' <= pending d.
Proof.
  intros Hok Ha Hb Hdue. pose proof (dup_array_some _ _ _ Ha) as Harr. pose proof (array_on _ _ _ Hok Ha) as Hon.
  assert (dup_array w d !! length done = Some x) as Hx by (by rewrite Harr, list_lookup_middle).
  destruct (pending_bounds d w _ x Hok Hx) as [Hc Hp]. pose proof (lk_dups d Hok w) as Hd. rewrite Forall_forall in Hd.
  destruct (Hd x ltac:(by eapply list_elem_of_lookup_2)) as [_ Hi]. destruct (db_rec x) as [i|] eqn:Hr.
  2: { rewrite Hi in Hdue. done. }
  destruct (rec_used d w _ x i Hok Hx Hr) as (_ & _ & (e & He & _)).
  destruct (notice_total lock_ok nfy_ok self w (log_facility (eb_entry e)) (log_event_type (eb_entry e)) (db_dup_count x) now s Hplain) as [s' Hs'].
  destruct (clear_element w _ x i d Hok Hon Hx Hr) as (b & Hset & Hok' & Hpd & Hsame & Hcf).
  cbn [flush_dups]. rewrite Hdue, Hr. cbn [mbind option_bind]. rewrite He. cbn [mbind option_bind]. rewrite Hs'.
  cbn [mbind option_bind]. rewrite Hset. cbn [mbind option_bind].
  rewrite signed_id by (try lia; unfold in_signed; rewrite (lk_total d Hok w); lia).
  assert (<[length done := mkDup None 0 (db_buf_index x) 0]> (dup_array w d) =
    (done ++ [mkDup None 0 (db_buf_index x) 0]) ++ arr) as Heq.
  { rewrite Harr, insert_app_r_alt, Nat.sub_diag by lia. by rewrite <-app_assoc. }
  rewrite Heq in *. do 3 eexists. split; [|split; [reflexivity|]].
  - by destruct w.
  - split; [split_and!; [done..|]|lia]. exists [Notice HL w (log_facility (eb_entry e)) (log_event_type (eb_entry e)) (db_dup_count x) now].
    cbn [sink_run announced recorded]. rewrite Hs'. cbn [mbind option_bind]. split_and!; [done|done|lia..].
Qed.

Lemma flush_ok w due now arr : forall done d s,
  look_ok d -> dup_recs_array (dups_of w d) = Some (done ++ arr) -> pending d < 2 ^ 31 -> Forall (settled due) done ->
  exists arr' b total s', flush_dups lock_ok nfy_ok self w due now arr done (buf d) (ld_dup_count (dups_of w d)) s =
      Some (arr', b, total, s') /\ Forall (settled due) arr' /\
    effect d s 0 (set_buf b (set_dups w (mkDups total (Some arr')) d)) s' /\
    pending (set_buf b (set_dups w (mkDups total (Some arr')) d)) <= pending d.
Proof.
  induction arr as [|x arr IH]; intros done d s Hok Ha Hb Hdone.
  - rewrite app_nil_r in Ha. exists done, (buf d), (ld_dup_count (dups_of w d)), s. do 2 (split; [done|]).
    assert (set_buf (buf d) (set_dups w (mkDups (ld_dup_count (dups_of w d)) (Some done)) d) = d) as ->.
    { destruct d as [[] []]; destruct w; cbn in *; by rewrite Ha. }
    split; [by apply effect_refl|lia].
  - destruct ((db_dup_count x >? 0) && due x) eqn:Hdue.
    + destruct (flush_step w due now x arr done d s Hok Ha Hb Hdue) as (d' & s1 & b1 & -> & Hd' & Heff & Hp).
      pose proof Heff as (Hok' & _).
      destruct (IH (done ++ [mkDup None 0 (db_buf_index x) 0]) d' s1 Hok') as (arr' & b & total & s' & -> & Hset & Heff' & Hp').
      * rewrite Hd'. by destruct w.
      * lia.
      * apply Forall_app. split; [done|]. by apply Forall_singleton.
      * do 4 eexists. split; [reflexivity|]. split; [done|].
        replace (set_buf b (set_dups w (mkDups total (Some arr')) d)) with (set_buf b (set_dups w (mkDups total (Some arr')) d'))
          by (rewrite Hd'; by destruct w).
        split; [exact (effect_trans _ _ 0 _ _ 0 _ _ Heff Heff')|lia].
    + cbn [flush_dups]. rewrite Hdue. apply IH; [done|by rewrite <-app_assoc|done|].
      apply Forall_app. split; [done|]. by apply Forall_singleton.
Qed.
Lemma settled_none due arr : Forall dup_ok arr -> pending_sum arr = 0 -> Forall (settled due) arr.
Proof.
  induction 1 as [|x arr [Hx _] Harr IH]; intros Hp; [constructor|]. cbn in Hp.
  assert (0 <= pending_sum arr) by (clear IH Hp; induction Harr as [|y arr [Hy _] _ IH]; cbn; lia).
  constructor; [|apply IH; lia]. unfold settled. replace (db_dup_count x) with 0 by lia. done.
Qed.
Lemma settled_all arr : Forall dup_ok arr -> Forall (settled (fun _ => true)) arr -> pending_sum arr = 0.
Proof.
  intros Harr. induction Harr as [|x arr [Hx _] _ IH]; [done|]. intros [Hs Hr]%Forall_cons. cbn. rewrite IH by done.
  unfold settled in Hs. rewrite andb_true_r in Hs. zb.
Qed.

Lemma pending_null n : pending_sum (replicate n null_dup) = 0.
Proof. by induction n. Qed.
Lemma refs_null n : refs_of (replicate n null_dup) = [].
Proof. by induction n. Qed.
Lemma no_array w d : look_ok d -> dup_recs_array (dups_of w d) = None ->
  dups_of w d = mkDups 0 None /\ pending_sum (dup_array w d) = 0.
Proof.
  intros Hok Ha. pose proof (lk_total d Hok w) as Ht. unfold dup_array in *. rewrite Ha in *. cbn [from_option id] in *.
  rewrite pending_null in *. split; [|done]. destruct (dups_of w d). cbn in *. by subst.
Qed.

(** *** The time until the next notice *)

(** Whatever is pending after the loop was pending before it. *)
Lemma flush_pending w due now arr : forall done b total s arr' b' total' s',
  flush_dups lock_ok nfy_ok self w due now arr done b total s = Some (arr', b', total', s') ->
  forall x, x ∈ arr' -> 0 < db_dup_count x -> x ∈ done \/ x ∈ arr.
Proof.
  induction arr as [|x arr IH]; intros done b total s arr' b' total' s'; cbn [flush_dups].
  - intros [=]; subst. by left.
  - destruct (_ && _).
    + destruct (db_rec x) as [i|]; cbn [mbind option_bind]; [|done]. destruct (b !! i) as [e|]; cbn [mbind option_bind]; [|done].
      destruct (LogSink.writeDiscardEvent _ _ _ _ _ _ _ _ _) as [s1|]; cbn [mbind option_bind]; [|done].
      destruct (set_in_use _ _ _) as [b1|]; cbn [mbind option_bind]; [|done]. intros Hf y Hy Hc.
      destruct (IH _ _ _ _ _ _ _ _ Hf y Hy Hc) as [[Hin| ->%list_elem_of_singleton]%elem_of_app|Hin]; [by left|done|right; by right].
    + intros Hf y Hy Hc. destruct (IH _ _ _ _ _ _ _ _ Hf y Hy Hc) as [[Hin| ->%list_elem_of_singleton]%elem_of_app|Hin];
        [by left|right; left|right; by right].
Qed.

(** The timeout [tv] does not come after the notice of [x] is due, if one is pending. *)
Definition wakes (c : dup_conf) (now tv : Z) (x : dup_buffer_t) : Prop :=
  0 < db_dup_count x -> 0 < db_time_start x + dup_interval c - now -> 0 < tv <= db_time_start x + dup_interval c - now.
Lemma next_timeout_ok c now arr : forall tv, 0 <= tv ->
  let tv' := next_timeout c now arr tv in
  0 <= tv' /\ (0 < tv -> 0 < tv' <= tv) /\ (tv' = 0 -> tv = 0) /\ Forall (wakes c now tv') arr.
Proof.
  induction arr as [|x arr IH]; intros tv Htv; [cbn; split_and!; [lia..|constructor]|].
  unfold next_timeout. cbn [fold_left]. fold (next_timeout c now arr).
  set (tv1 := if _ : bool then _ else _). assert (0 <= tv1 /\ (0 < tv -> 0 < tv1 <= tv) /\ (tv1 = 0 -> tv = 0) /\ wakes c now tv1 x) as (H1 & H2 & H3 & H4).
  { unfold tv1, wakes. destruct (_ && _) eqn:E; bprop; [zb|]. zb. }
  destruct (IH tv1 H1) as (H5 & H6 & H7 & H8). fold (next_timeout c now arr tv1) in *. split_and!; [lia..|].
  constructor; [|done]. unfold wakes in *. intros. lia.
Qed.

(** Every notice that log [w] has to write is still to come, and [tv] ends before it. *)
Definition timely (w : log_id) (now tv : Z) (d : lookback) : Prop :=
  Forall (fun x => 0 < db_dup_count x -> 0 < tv <= db_time_start x + dup_interval (dconf d) - now) (dup_array w d).
Lemma timely_none w now tv d : look_ok d -> pending_sum (dup_array w d) = 0 -> timely w now tv d.
Proof.
  intros Hok Hp. pose proof (lk_dups d Hok w) as Hd. pose proof (settled_none (fun _ => true) _ Hd Hp) as Hs.
  eapply Forall_impl; [exact Hs|]. unfold settled. intros x. rewrite andb_true_r. zb.
Qed.
Lemma timely_mono w now tv tv' d : (0 < tv -> 0 < tv' <= tv) -> timely w now tv d -> timely w now tv' d.
Proof. intros Htv Ht. eapply Forall_impl; [exact Ht|]. intros x Hx Hc. specialize (Hx Hc). lia. Qed.

Lemma check_log_ok w tv now d s : look_ok d -> pending d < 2 ^ 31 -> 0 <= tv ->
  exists tv' d' s', checkDupEventTimeoutForLog lock_ok nfy_ok self w tv now d s = Some (tv', d', s') /\
    effect d s 0 d' s' /\ dup_array (other w) d' = dup_array (other w) d /\
    timely w now tv' d' /\ 0 <= tv' /\ (0 < tv -> 0 < tv' <= tv).
Proof.
  intros Hok Hb Htv. unfold checkDupEventTimeoutForLog.
  destruct (dup_recs_array (dups_of w d)) as [arr|] eqn:Ha.
  2: { exists tv, d, s. split; [done|]. split; [by apply effect_refl|]. split_and!; [done| |lia..].
       apply timely_none; [done|]. by apply no_array. }
  destruct (_ =? 0) eqn:E; bprop.
  { exists tv, d, s. split; [done|]. split; [by apply effect_refl|]. split_and!; [done| |lia..].
    apply timely_none; [done|]. by rewrite <-(lk_total d Hok w). }
  destruct (flush_ok w (fun x => db_time_start x + dup_interval (dconf d) - now <=? 0) now arr [] d s Hok Ha Hb)
    as (arr' & b & total & s' & Hf & Hset & Heff & Hp); [constructor|].
  rewrite Hf. cbn [mbind option_bind]. destruct (next_timeout_ok (dconf d) now arr tv Htv) as (H1 & H2 & _ & H3).
  do 3 eexists. split; [done|]. split; [done|]. split; [by destruct w|]. split; [|lia].
  pose proof Heff as (_ & _ & Hc & _). unfold timely. rewrite Hc, dup_array_buf, dup_array_set, decide_True by done.
  rewrite Forall_forall in *. intros x Hx Hn. specialize (Hset x Hx). unfold settled in Hset.
  destruct (flush_pending _ _ _ _ _ _ _ _ _ _ _ _ Hf x Hx Hn) as [Hin|Hin]; [by apply elem_of_nil in Hin|].
  apply andb_false_iff in Hset as [?|?]; bprop; [zb|]. apply (H3 x Hin Hn). zb.
Qed.
Lemma check_ok now d s : look_ok d -> pending d < 2 ^ 31 ->
  exists tv d' s', checkDupEventTimeout lock_ok nfy_ok self now d s = Some (tv, d', s') /\
    effect d s 0 d' s' /\ forall w, timely w now tv d'.
Proof.
  intros Hok Hb. unfold checkDupEventTimeout.
  destruct (check_log_ok EvlLog 0 now d s Hok Hb) as (tv1 & d1 & s1 & -> & Heff1 & _ & Ht1 & Hn1 & _); [lia|].
  cbn [mbind option_bind]. pose proof Heff1 as (Hok1 & _ & Hc1 & _). pose proof (effect_pending _ _ _ _ _ Heff1).
  destruct (check_log_ok PvtLog tv1 now d1 s1 Hok1) as (tv2 & d2 & s2 & -> & Heff2 & Ho2 & Ht2 & Hn2 & Hle2); [lia|done|].
  do 3 eexists. split; [done|]. split; [exact (effect_trans _ _ 0 _ _ 0 _ _ Heff1 Heff2)|].
  intros []; [|done]. pose proof Heff2 as (_ & _ & Hc2 & _). unfold timely. cbn [other] in Ho2. rewrite Hc2, Ho2.
  by apply (timely_mono EvlLog now tv1).
Qed.

(** *** Another size of the lookback buffers *)

(** The counts that wait in a log's array are announced and the array is freed.  The
    rest of the state [d0] may differ from [d], for the other array may be freed. *)
Lemma dump_ok w now d d0 s : look_ok d -> pending d < 2 ^ 31 -> buf d0 = buf d -> dups_of w d0 = dups_of w d ->
  exists b cs s' d1, dumpDuplicatesBuffer lock_ok nfy_ok self w now d0 s = Some (set_buf b (set_dups w (mkDups 0 None) d0), s') /\
    sink_run lock_ok nfy_ok self cs s = Some s' /\ recorded cs = 0 /\ announced cs = pending_sum (dup_array w d) /\
    look_ok d1 /\ buf d1 = b /\ dups_of (other w) d1 = dups_of (other w) d /\ dconf d1 = dconf d /\
    pending d1 <= pending d.
Proof.
  intros Hok Hb Hbuf Hdup. unfold dumpDuplicatesBuffer. rewrite Hdup, Hbuf.
  destruct (dup_recs_array (dups_of w d)) as [arr|] eqn:Ha.
  2: { destruct (no_array w d Hok Ha) as [Hz Hp]. exists (buf d), [], s, d. rewrite Hp. split_and!; try done.
       do 2 f_equal. rewrite <-Hz, <-Hdup, <-Hbuf. by destruct d0, w. }
  destruct (flush_ok w (fun _ => true) now arr [] d s Hok Ha Hb) as (arr' & b & total & s' & -> & Hset & Heff & Hp); [constructor|].
  cbn [mbind option_bind]. set (d1 := set_buf _ (set_dups w (mkDups total _) d)) in *.
  destruct Heff as (Hok1 & _ & Hc & cs & Hcs & Hn & Ha0 & Hpd).
  assert (dup_array w d1 = arr') as Harr by (unfold d1; by rewrite dup_array_buf, dup_array_set, decide_True).
  assert (dup_array (other w) d1 = dup_array (other w) d) as Ho by (unfold d1; by destruct w).
  assert (pending_sum arr' = 0) as Hz by (rewrite <-Harr in *; apply settled_all; [apply Hok1|done]).
  exists b, cs, s', d1. split_and!; try done; try (unfold d1; by destruct w).
  rewrite !(pending_split w), Harr, Ho in Hpd. lia.
Qed.

(** The state with both arrays unallocated and all event buffers free. *)
Lemma look_ok_new size on n i c b0 : 0 < size -> -1 <= i -> dis_dup_recs c = on -> dup_array_size c = size ->
  Z.of_nat n = (if on then 2 * size + 1 else 1) -> b0 = mkDups 0 None ->
  let d := mkLookback b0 b0 (replicate n null_slot) i c in look_ok d /\ pending d = 0.
Proof.
  intros Hs Hi Hon Hsz Hn ->. set (d := mkLookback _ _ _ _ _).
  assert (forall w, dup_array w d = replicate (Z.to_nat size) null_dup) as Harr by (intros w; unfold dup_array; subst size; by destruct w).
  assert (slots d = []) as Hsl by (unfold slots; rewrite !Harr, refs_null; done).
  split; [|unfold pending; rewrite !Harr, pending_null; done].
  split; rewrite ?Hsl.
  - cbn. lia.
  - intros w. rewrite Harr, length_replicate. cbn. lia.
  - intros w. rewrite Harr. by apply Forall_replicate.
  - intros w. rewrite Harr, pending_null. by destruct w.
  - constructor.
  - intros i'. split; [|by intros ?%elem_of_nil]. intros (e & He & Hu). apply lookup_replicate in He as [-> _]. done.
  - apply Forall_replicate. split; [apply length_replicate|done].
  - cbn [buf d dconf]. rewrite length_replicate. subst size on. done.
  - intros w _. by destruct w.
  - done.
Qed.
Lemma resize_ok newsize on now d s : look_ok d -> pending d < 2 ^ 31 -> 0 < newsize ->
  exists d' cs s', reallocBuffer lock_ok nfy_ok self newsize (dis_dup_recs (dconf d)) on now d s = Some (d', s') /\
    sink_run lock_ok nfy_ok self cs s = Some s' /\ recorded cs = 0 /\ announced cs = pending d /\
    let c := dconf d in let c' := mkConf (dup_count c) (dup_interval c) (dup_timeout c) newsize on in
    let d' := mkLookback (evl_dups d') (pvt_dups d') (buf d') (equality_index d') c' in look_ok d' /\ pending d' = 0.
Proof.
  intros Hok Hb Hn. unfold reallocBuffer. set (d2 := set_dups EvlLog (mkDups 0 None) (set_dups PvtLog (mkDups 0 None) d)).
  assert (exists b cs s', (if dis_dup_recs (dconf d) then
      '(d, s) ← dumpDuplicatesBuffer lock_ok nfy_ok self EvlLog now d s; dumpDuplicatesBuffer lock_ok nfy_ok self PvtLog now d s
    else Some (d, s)) = Some (set_buf b d2, s') /\
    sink_run lock_ok nfy_ok self cs s = Some s' /\ recorded cs = 0 /\ announced cs = pending d) as (b & cs & s' & -> & Hcs & Hr & Ha).
  { destruct (dis_dup_recs (dconf d)) eqn:Hon.
    - destruct (dump_ok EvlLog now d d s Hok Hb eq_refl eq_refl) as (b1 & cs1 & s1 & d1 & -> & Hcs1 & Hr1 & Ha1 & Hok1 & Hb1 & Hd1 & Hc1 & Hp1).
      cbn [mbind option_bind]. destruct (dump_ok PvtLog now d1 (set_buf b1 (set_dups EvlLog (mkDups 0 None) d)) s1 Hok1)
        as (b2 & cs2 & s2 & _ & -> & Hcs2 & Hr2 & Ha2 & _); [lia|by rewrite Hb1|done|].
      exists b2, (cs1 ++ cs2), s2. rewrite sink_run_app, Hcs1, announced_app, recorded_app. split_and!; [done|done|lia|].
      rewrite Ha1, Ha2. unfold pending, dup_array. cbn [other] in Hd1. by rewrite Hd1, Hc1.
    - destruct (no_array EvlLog d Hok (lk_off d Hok EvlLog Hon)) as [Hz1 Hp1].
      destruct (no_array PvtLog d Hok (lk_off d Hok PvtLog Hon)) as [Hz2 Hp2].
      exists (buf d), [], s. unfold pending. rewrite Hp1, Hp2. split_and!; try done. do 2 f_equal.
      destruct d; cbn in *; by subst. }
  cbn [mbind option_bind dconf]. destruct (_ <=? 0) eqn:E; [destruct on; zb|]. do 3 eexists. split; [done|].
  do 3 (split; [done|]). cbn. apply look_ok_new with (size := newsize) (on := on); try done; [apply Hok|].
  apply Z2Nat.id. clear -Hn. destruct on; lia.
Qed.

(** *** Where the next record is read *)

Lemma length_refs arr : (length (refs_of arr) <= length arr)%nat.
Proof. unfold refs_of. induction arr as [|x arr IH]; cbn; [done|]. destruct (db_rec x); cbn; lia. Qed.
(** The buffer that the next record is read into exists, and no duplicate refers to it. *)
Lemma next_buffer_ok d : look_ok d ->
  exists e, buf d !! next_buffer d = Some e /\ in_use e = false /\ next_buffer d ∉ slots d.
Proof.
  intros Hok. assert (forall i e, buf d !! i = Some e -> in_use e = false -> i ∉ slots d) as Hfree.
  { intros i e He Hu Hin. apply (lk_used d Hok) in Hin as (e' & He' & ?). congruence. }
  cut (exists e, buf d !! next_buffer d = Some e /\ in_use e = false); [intros (e & He & Hu); exists e; eauto|].
  pose proof (lk_size d Hok) as Hs. pose proof (lk_buf d Hok) as Hl. unfold next_buffer. destruct (dis_dup_recs (dconf d)) eqn:Hon.
  - destruct (list_find _ (buf d)) as [[i e]|] eqn:Ef.
    { apply list_find_Some in Ef as (He & Hu & _). eauto. }
    exfalso. rewrite list_find_None, Forall_forall in Ef.
    assert (length (buf d) <= length (slots d))%nat as Hle.
    { rewrite <-(length_seq (length (buf d)) 0) at 1. apply NoDup_incl_length; [apply NoDup_ListNoDup, NoDup_seq|].
      intros i [_ Hi]%in_seq. apply list_elem_of_In, (lk_used d Hok). destruct (lookup_lt_is_Some_2 (buf d) i) as [e He]; [lia|].
      exists e. split; [done|]. apply not_false_is_true, (Ef e). by eapply list_elem_of_lookup_2. }
    unfold slots in Hle. rewrite length_app in Hle. pose proof (length_refs (dup_array EvlLog d)). pose proof (length_refs (dup_array PvtLog d)).
    pose proof (lk_arrays d Hok EvlLog). pose proof (lk_arrays d Hok PvtLog). lia.
  - destruct (lookup_lt_is_Some_2 (buf d) 0) as [e He]; [lia|]. exists e. split; [done|].
    destruct (in_use e) eqn:Hu; [|done]. assert (0%nat ∈ slots d) as Hin by (apply (lk_used d Hok); by exists e).
    unfold slots, dup_array in Hin. rewrite (lk_off d Hok EvlLog Hon), (lk_off d Hok PvtLog Hon) in Hin. cbn in Hin.
    rewrite refs_null in Hin. by apply elem_of_nil in Hin.
Qed.
(** *** What counts as a duplicate *)

(** The same record but for its id, its times and its magic number. *)
Definition same_event (e p : event_buffer_t) : Prop :=
  same_header (eb_entry e) (eb_entry p) = true /\
  take (Z.to_nat (log_size (eb_entry e))) (eb_data e) = take (Z.to_nat (log_size (eb_entry e))) (eb_data p).
(** The element [x] keeps such a record, and not for longer than the timeout. *)
Definition repeats (d : lookback) (now : Z) (e : event_buffer_t) (x : dup_buffer_t) : Prop :=
  exists i p, db_rec x = Some i /\ buf d !! i = Some p /\ now - db_time_start x < dup_timeout (dconf d) /\ same_event e p.

Lemma element_compared d e now x : log_size (eb_entry e) <= POSIX_LOG_ENTRY_MAXLEN ->
  forall r b, (if now - db_time_start x <? dup_timeout (dconf d) then rec_at d x else Some None) = Some r ->
  compareEventRecords e r = Some b -> b = true <-> repeats d now e x.
Proof.
  intros Hsz r b Hr Hc. unfold repeats. destruct (_ <? _) eqn:Et; bprop.
  2: { injection Hr as <-. injection Hc as <-. split; [done|]. intros (i & p & _ & _ & ? & _). lia. }
  unfold rec_at in Hr. destruct (db_rec x) as [i|]; cbn [mbind option_bind] in Hr.
  2: { injection Hr as <-. injection Hc as <-. split; [done|]. intros (i & p & ? & _). done. }
  destruct (buf d !! i) as [p|] eqn:Hp; cbn [mbind option_bind] in Hr; [|done]. injection Hr as <-.
  assert (b = true <-> same_event e p) as ->.
  { unfold compareEventRecords in Hc. unfold same_event. destruct (same_header _ _); cbn [negb] in Hc; [|injection Hc as <-; naive_solver].
    destruct (_ >? _) eqn:E2; [zb|]. injection Hc as <-. rewrite bool_decide_eq_true. naive_solver. }
  split; [intros Hs; exists i, p; split_and!; try done; apply Hs|]. by intros (i' & p' & [= <-] & Hp' & _ & Hs); simplify_eq.
Qed.
Lemma search_spec d w crec now r : look_ok d -> log_size (eb_entry crec) <= POSIX_LOG_ENTRY_MAXLEN ->
  forall n count rep score eq, search_dups d crec now (dup_array w d) n count rep score eq = Some r ->
    match r with
    | Duplicate k => exists x, dup_array w d !! k = Some x /\ repeats d now crec x
    | Replace _ _ => forall j x, (count <= j < count + n)%nat -> dup_array w d !! j = Some x -> ~ repeats d now crec x
    end.
Proof.
  intros Hok Hsz. induction n as [|n IH]; intros count rep score eq; cbn [search_dups].
  { intros [= <-]. intros j x ?. lia. }
  destruct (dup_array w d !! count) as [x|] eqn:Hx; cbn [mbind option_bind]; [|done].
  set (st := if (0 <? count)%nat && _ then _ else _). destruct st as [[rep' score'] eq'].
  destruct (if now - _ <? _ then rec_at d x else Some None) as [o|] eqn:Ho; cbn [mbind option_bind]; [|done].
  destruct (compareEventRecords crec o) as [b|] eqn:Hb; cbn [mbind option_bind]; [|done].
  pose proof (element_compared d crec now x Hsz o b Ho Hb) as Heq. destruct b.
  { intros [= <-]. exists x. split; [done|]. by apply Heq. }
  intros Hr. specialize (IH _ _ _ _ Hr). destruct r as [k|k e]; [done|]. intros j y Hj Hy.
  destruct (decide (j = count)) as [->|]; [|apply (IH j); [lia|done]]. simplify_eq. intros Hrep. by apply Heq in Hrep.
Qed.
Lemma drop_iff w bi e now d s dropped d' s' : look_ok d -> buf d !! bi = Some e ->
  0 <= log_size (eb_entry e) <= POSIX_LOG_ENTRY_MAXLEN ->
  dropDupRecord lock_ok nfy_ok self w bi now d s = Some (dropped, d', s') ->
  dropped = true <-> dis_dup_recs (dconf d) = true /\ exists x, x ∈ dup_array w d /\ repeats d now e x.
Proof.
  intros Hok He Hsz. unfold dropDupRecord. destruct (dis_dup_recs (dconf d)) eqn:Hon; cbn [negb].
  2: { intros [= <- _ _]. split; [done|]. by intros [? _]. }
  rewrite He. cbn [mbind option_bind]. destruct (dup_array w d !! 0%nat) as [first|]; cbn [mbind option_bind]; [|done].
  destruct (search_dups _ _ _ _ _ _ _ _ _) as [r|] eqn:Hr; cbn [mbind option_bind]; [|done].
  pose proof (search_spec d w e now r Hok (proj2 Hsz) _ _ _ _ _ Hr) as Hspec. pose proof (lk_arrays d Hok w).
  destruct r as [k|k []].
  - destruct Hspec as (x & Hx & Hrep). destruct (count_duplicate _ _ _ _ _ _ _ _ _ _ _) as [[d1 s1]|]; cbn; [|done].
    intros [= <- _ _]. split; [|done]. intros _. split; [done|]. exists x. split; [by eapply list_elem_of_lookup_2|done].
  - set (d1 := mkLookback _ _ _ _ _). destruct (replace_element _ _ _ _ _ _ _ _ d1 _) as [[d2 s2]|]; cbn; [|done].
    intros [= <- _ _]. split; [done|]. intros [_ (x & Hx & Hrep)]. apply list_elem_of_lookup_1 in Hx as [j Hj].
    pose proof (lookup_lt_Some _ _ _ Hj). destruct (Hspec j x); [lia|done..].
  - destruct (replace_element _ _ _ _ _ _ _ _ _ _) as [[d2 s2]|]; cbn; [|done].
    intros [= <- _ _]. split; [done|]. intros [_ (x & Hx & Hrep)]. apply list_elem_of_lookup_1 in Hx as [j Hj].
    pose proof (lookup_lt_Some _ _ _ Hj). destruct (Hspec j x); [lia|done..].
Qed.
End Effects.

(** ** Properties *)

(** C25: an event is dropped exactly when duplicates are suppressed and the log's
    lookback array keeps an equal record that has not timed out; a dropped event adds
    one to what the written and the pending notices announce, and a record that is kept
    changes nothing of it. *)
Theorem dropped_iff_repeated `{HL : HostLib} lock_ok nfy_ok self w bi e now d s :
  plain_names -> look_ok d -> buf d !! bi = Some e -> in_use e = false ->
  0 <= log_size (eb_entry e) <= POSIX_LOG_ENTRY_MAXLEN -> pending d + 1 < 2 ^ 31 ->
  exists dropped d' s', dropDupRecord lock_ok nfy_ok self w bi now d s = Some (dropped, d', s') /\ look_ok d' /\
    (dropped = true <-> dis_dup_recs (dconf d) = true /\ exists x, x ∈ dup_array w d /\ repeats d now e x) /\
    exists cs, sink_run lock_ok nfy_ok self cs s = Some s' /\ recorded cs = 0 /\
      pending d' + announced cs = pending d + b2z dropped.
Proof.
  intros Hp Hok He Hu Hsz Hb.
  destruct (drop_ok lock_ok nfy_ok self Hp w bi e now d s Hok He Hu Hsz Hb) as (dropped & d' & s' & Hd & Hok' & _ & _ & cs & Hcs & Hr & _ & Ha).
  exists dropped, d', s'. split_and!; [done|done|by eapply drop_iff|]. by exists cs.
Qed.

(** C34: after [checkDupEventTimeout] no notice of dropped records is overdue, and the
    timeout that it gives ends before the next one is due, in both logs. *)
Theorem notices_are_timely `{HL : HostLib} lock_ok nfy_ok self now d s :
  plain_names -> look_ok d -> pending d < 2 ^ 31 ->
  exists tv d' s', checkDupEventTimeout lock_ok nfy_ok self now d s = Some (tv, d', s') /\ look_ok d' /\
    (forall w x, x ∈ dup_array w d' -> 0 < db_dup_count x -> 0 < tv <= db_time_start x + dup_interval (dconf d') - now) /\
    exists cs, sink_run lock_ok nfy_ok self cs s = Some s' /\ pending d' + announced cs = pending d.
Proof.
  intros Hp Hok Hb. destruct (check_ok lock_ok nfy_ok self Hp now d s Hok Hb) as (tv & d' & s' & Hc & (Hok' & _ & _ & cs & Hcs & _ & _ & Ha) & Ht).
  exists tv, d', s'. split_and!; [done|done| |exists cs; split; [done|lia]].
  intros w x Hx. specialize (Ht w). unfold timely in Ht. rewrite Forall_forall in Ht. by apply Ht.
Qed.

(** [2 * dup_array_size + 1] event buffers are enough: the buffer for the next
    record exists and no element of the two lookback arrays refers to it. *)
Theorem next_record_overwrites_nothing d : look_ok d ->
  exists e, buf d !! next_buffer d = Some e /\
    forall w x, x ∈ dup_array w d -> db_rec x <> Some (next_buffer d).
Proof.
  intros Hok. destruct (next_buffer_ok d Hok) as (e & He & _ & Hn). exists e. split; [done|].
  intros w x Hx Hr. apply Hn. rewrite (slots_perm w). apply elem_of_app. left. apply list_elem_of_omap. by exists x.
Qed.

(** When the lookback buffer gets another size, or duplicate suppression is
    switched, exactly the pending counts are announced in the logs, and the state is
    again well formed with nothing pending. *)
Theorem resize_announces_pending `{HL : HostLib} lock_ok nfy_ok self newsize on now d s :
  plain_names -> look_ok d -> pending d < 2 ^ 31 -> 0 < newsize ->
  exists d' cs s', reallocBuffer lock_ok nfy_ok self newsize (dis_dup_recs (dconf d)) on now d s = Some (d', s') /\
    sink_run lock_ok nfy_ok self cs s = Some s' /\ recorded cs = 0 /\ announced cs = pending d /\
    let c := dconf d in let c' := mkConf (dup_count c) (dup_interval c) (dup_timeout c) newsize on in
    let d' := mkLookback (evl_dups d') (pvt_dups d') (buf d') (equality_index d') c' in look_ok d' /\ pending d' = 0.
Proof. intros Hp. by apply resize_ok. Qed.

(** *** Concrete inputs *)

Lemma bare_plain : @plain_names bare_machine.
Proof. done. Qed.
(** One element a log, three event buffers, the first of which holds a record. *)
Definition no_dups : log_dups := mkDups 0 None.
Definition sample_slot : event_buffer_t := mkSlot sample_entry (overwrite (eb_data null_slot) [97; 98; 0]) false.
Definition sample_conf : dup_conf := mkConf 10 60 60 1 true.
Definition empty_look : lookback := mkLookback no_dups no_dups (replicate 3 null_slot) (-1) sample_conf.
Definition sample_look : lookback := set_buf (<[0%nat := sample_slot]> (buf empty_look)) empty_look.
(** The same with that record as the one that the regular log keeps, repeated twice. *)
Definition repeated_look : lookback :=
  mkLookback (mkDups 2 (Some [mkDup (Some 1%nat) 2 1 100])) no_dups
    [sample_slot; mkSlot sample_entry (eb_data sample_slot) true; null_slot] (-1) sample_conf.

Lemma empty_look_ok : look_ok empty_look.
Proof. by apply (look_ok_new 1 true). Qed.
Lemma sample_data : length (eb_data sample_slot) = Z.to_nat POSIX_LOG_ENTRY_MAXLEN.
Proof. by vm_compute. Qed.
Lemma sample_look_ok : look_ok sample_look.
Proof.
  destruct (fill_slot empty_look 0 null_slot sample_entry (eb_data sample_slot) empty_look_ok) as [Hok _]; [done|apply sample_data|done|exact Hok].
Qed.
Lemma repeated_look_ok : look_ok repeated_look /\ pending repeated_look = 2.
Proof.
  destruct (look_ok_update EvlLog sample_look 0 null_dup (mkDup (Some 1%nat) 2 1 100) 2
    [sample_slot; mkSlot sample_entry (eb_data sample_slot) true; null_slot] sample_look_ok) as [Hok Hp]; try done.
  - repeat constructor; try done; apply sample_data.
  - intros i. split.
    + intros (e & He & Hu). right. destruct i as [|[|[|i]]]; cbn in He; [injection He as <-; done|done|injection He as <-; done|by destruct i].
    + intros [[Hu _]|[= <-]]; [|by eexists]. apply (lk_used _ sample_look_ok) in Hu. by apply elem_of_nil in Hu.
  - intros i [= <-]. left. by intros ?%elem_of_nil.
Qed.

Lemma dropped_iff_repeated_witness : exists d' s',
  @dropDupRecord bare_machine (fun _ => true) (fun _ => true) sample_self EvlLog 0 120 repeated_look sample_sink = Some (true, d', s') /\
  look_ok d'.
Proof.
  destruct (@dropped_iff_repeated bare_machine (fun _ => true) (fun _ => true) sample_self EvlLog 0 sample_slot 120 repeated_look sample_sink)
    as (dropped & d' & s' & Hd & Hok & Hiff & _).
  - apply bare_plain.
  - apply repeated_look_ok.
  - done.
  - done.
  - done.
  - by rewrite (proj2 repeated_look_ok).
  - assert (dropped = true) as ->; [|by exists d', s'].
    apply Hiff. split; [done|]. exists (mkDup (Some 1%nat) 2 1 100). split; [by apply list_elem_of_singleton|].
    exists 1%nat, (mkSlot sample_entry (eb_data sample_slot) true). by split_and!.
Defined.
Lemma notices_are_timely_witness : exists tv d' s',
  @checkDupEventTimeout bare_machine (fun _ => true) (fun _ => true) sample_self 120 repeated_look sample_sink = Some (tv, d', s') /\
  look_ok d'.
Proof.
  destruct (@notices_are_timely bare_machine (fun _ => true) (fun _ => true) sample_self 120 repeated_look sample_sink)
    as (tv & d' & s' & Hc & Hok & _).
  - apply bare_plain.
  - apply repeated_look_ok.
  - by rewrite (proj2 repeated_look_ok).
  - by exists tv, d', s'.
Defined.
Lemma next_record_overwrites_nothing_witness : exists e, buf repeated_look !! next_buffer repeated_look = Some e.
Proof.
  destruct (next_record_overwrites_nothing repeated_look) as (e & He & _); [apply repeated_look_ok|by exists e].
Defined.
Lemma resize_announces_pending_witness : exists d' cs s',
  @reallocBuffer bare_machine (fun _ => true) (fun _ => true) sample_self 4 true true 120 repeated_look sample_sink = Some (d', s') /\
  sink_run (fun _ => true) (fun _ => true) sample_self cs sample_sink = Some s' /\ announced cs = 2.
Proof.
  destruct (@resize_announces_pending bare_machine (fun _ => true) (fun _ => true) sample_self 4 true 120 repeated_look sample_sink)
    as (d' & cs & s' & Hr & Hcs & _ & Ha & _).
  - apply bare_plain.
  - apply repeated_look_ok.
  - by rewrite (proj2 repeated_look_ok).
  - done.
  - exists d', cs, s'. split_and!; [exact Hr|exact Hcs|]. by rewrite Ha, (proj2 repeated_look_ok).
Defined.
