(* ===== verification/Evlogd.v ===== *)
(** * The logging daemon ([cmd/evlogd/evlogd.c])

    Clients send records over sockets; the daemon checks who sent them, screens
    them, drops duplicates ([Lookback]), and writes the rest to one of the two logs
    ([LogSink]).  A socket is the list of bytes that can still be read from it.
    [select]'s bookkeeping ([maxsd], [maxci], the descriptor sets) is left out: the
    inputs of an iteration are those that [select] and the loops over the
    descriptors find.  [None] is undefined behaviour. *)
From S2P Require Import Prelude NvPairs LogRecord FacNames FacReg Hosts MemStr Query QEvaluate QueryApi QSamples Files LogSink Lookback.

Definition MAX_CLIENTS : nat := 240.
Definition CLIENT_SLOT_AVAILABLE : Z := -1.
Definition LOGREC_ARCH_X86_32 : Z := 0xf000.
Definition EVLOG_REGISTER_FAC : Z := 40.
Definition LOG_ERR : Z := 3.
Definition MAX_EVL_LINE : Z := 1024.
Definition MAX_DUP_INTERVAL : Z := 3600.
Definition MAX_DUP_COUNT : Z := 10000.
Definition DEFAULT_DUP_ARRAY_SIZE : Z := 5.

Record clientinfo_t := mkClient { ci_sd : Z; ci_uid : Z; ci_pid : Z }.

(** [read(sd, p, n)]: the bytes and what is left. *)
Definition sock_read (n : Z) (stream : list Z) : list Z * list Z :=
  (take (Z.to_nat n) stream, drop (Z.to_nat n) stream).

(** [p] with the bytes from [k] on replaced by [data]. *)
Definition patch (p : list Z) (k : nat) (data : list Z) : list Z := take k p ++ overwrite (drop k p) data.

(** [struct rec_hdr_32], the header that a 32-bit program writes. *)
Definition rec_hdr_32_size : Z := 64.
Definition rec_hdr_32_layout : list nat := replicate 16 4%nat.
Definition set_magic (e : posix_log_entry) (m : Z) : posix_log_entry :=
  mkEntry m (log_recid e) (log_size e) (log_format e) (log_event_type e) (log_facility e) (log_severity e)
    (log_uid e) (log_gid e) (log_pid e) (log_pgrp e) (log_time_sec e) (log_time_nsec e) (log_flags e)
    (log_thread e) (log_processor e).
Definition set_severity (e : posix_log_entry) (v : Z) : posix_log_entry :=
  mkEntry (log_magic e) (log_recid e) (log_size e) (log_format e) (log_event_type e) (log_facility e) v
    (log_uid e) (log_gid e) (log_pid e) (log_pgrp e) (log_time_sec e) (log_time_nsec e) (log_flags e)
    (log_thread e) (log_processor e).
(** The header's fields, copied one by one into the event buffer, whose other fields
    stay. *)
Definition copy_hdr_32 (old : posix_log_entry) (hdr : list Z) : posix_log_entry :=
  match decode_fields rec_hdr_32_layout hdr with
  | [_; _; size; fmt; ty; fac; sev; uid; gid; pid; pgrp; sec; nsec; _; thread; processor] =>
      mkEntry LOGREC_ARCH_X86_32 0 size (s32 fmt) (s32 ty) fac (s32 sev) uid gid (s32 pid) (s32 pgrp)
        sec nsec (log_flags old) thread (s32 processor)
  | _ => old
  end.

(** The number of bytes read, or [None] when the connection is closed; the header in
    the event buffer; the rest of the stream. *)
Definition populateRecHdr (rhdr : posix_log_entry) (stream : list Z) : option Z * posix_log_entry * list Z :=
  let '(got, stream) := sock_read 4 stream in
  if negb (Z.of_nat (length got) =? 4) then (None, rhdr, stream)
  else
    let client_arch := le_decode got in
    if client_arch =? LOGREC_ARCH_I386 then
      let '(got, stream) := sock_read (rec_hdr_32_size - 4) stream in
      if negb (Z.of_nat (length got) =? rec_hdr_32_size - 4) then (None, rhdr, stream)
      else (Some (rec_hdr_32_size - 4), copy_hdr_32 rhdr (replicate 4 0 ++ got), stream)
    else
      let '(got, stream) := sock_read (REC_HDR_SIZE - 4) stream in
      let rhdr := entry_of_bytes (patch (entry_bytes rhdr) 4 got) in
      if negb (Z.of_nat (length got) =? REC_HDR_SIZE - 4) then (None, rhdr, stream)
      else (Some (REC_HDR_SIZE - 4), set_magic rhdr client_arch, stream).

(** [_evlReadEx] into an event buffer's data: whether it succeeded, and the data. *)
Definition _evlReadEx (data : list Z) (len : Z) (stream : list Z) : option (bool * list Z) :=
  let moreBytes := s32 len in
  if moreBytes <=? 0 then Some (true, data)
  else
    let got := take (Z.to_nat moreBytes) stream in
    if Z.of_nat (length got) >? POSIX_LOG_ENTRY_MAXLEN then None
    else Some (Z.of_nat (length got) =? moreBytes, overwrite data got).

Section Evlogd.
Context `{RL : RegexLib} `{TL : TemplateLib}.
Abbreviation registry := (_evlFacilityRegistry posix_log_query_t).
(** The machine by the current registry and time, and the daemon's environment. *)
Variable host : registry -> Z -> HostLib.
Variable qqparse : str -> str + pnode.
Variables (lock_ok nfy_ok : nat -> bool) (self : self_t).
(** [_evlAddFacilityToRegistry(name, EVL_FACC_KERN, NULL)], which runs evlfacility: its
    status and the registry afterwards. *)
Variable add_facility : str -> registry -> Z * registry.

Record daemon := mkDaemon {
  dk : lookback;
  ds : sink;
  clients : list clientinfo_t;
  kpid : Z;
  rmtdpid : Z;
  facilities : registry;
  dis_query : option posix_log_query_t;
  be_runs : list posix_log_entry         (* the records handed to the back ends *)
}.
Definition set_dk (d : daemon) (k : lookback) : daemon :=
  mkDaemon k (ds d) (clients d) (kpid d) (rmtdpid d) (facilities d) (dis_query d) (be_runs d).
Definition set_ds (d : daemon) (s : sink) : daemon :=
  mkDaemon (dk d) s (clients d) (kpid d) (rmtdpid d) (facilities d) (dis_query d) (be_runs d).
Definition set_facilities (d : daemon) (fr : registry) : daemon :=
  mkDaemon (dk d) (ds d) (clients d) (kpid d) (rmtdpid d) fr (dis_query d) (be_runs d).
Definition set_slot (d : daemon) (i : nat) (e : posix_log_entry) (data : list Z) : option daemon :=
  x ← buf (dk d) !! i; Some (set_dk d (set_buf (<[i := mkSlot e data (in_use x)]> (buf (dk d))) (dk d))).

(** [posix_log_query_create] with a status-only result; the parser is not in use. *)
Definition create_query (HL : HostLib) (text : str) (purpose errlen : Z) : option (option posix_log_query_t) :=
  cr_query <$> @posix_log_query_create HL RL qqparse (Some text) purpose true (Some errlen)
                 (mkParser false PNull None EmptyString).

(** The facility's query (created on first use) and access flags. *)
Definition _evlGetFacilityAccessQuery (HL : HostLib) (facNum : Z) (fr : registry)
  : option (option posix_log_query_t * Z * registry) :=
  let i := findHashSlotFor facNum (frHash fr) (frHashSize fr) in
  if i =? -1 then Some (None, -1, fr)
  else
    let fac := slot_at (frHash fr) i in
    if faCode fac =? EMPTY then Some (None, -1, fr)
    else
      q ← (match faQuery fac, faFilter fac with
           | Some q, _ => Some (Some q)
           | None, Some filter => create_query HL filter EVL_PRPS_RESTRICTED 200
           | None, None => Some None
           end);
      let fac := mkFac (faCode fac) (faName fac) (faAccessFlags fac) (faFilter fac) q in
      Some (q, faAccessFlags fac, mkReg (frNFacilities fr) (<[Z.to_nat i := fac]> (frHash fr)) (frHashSize fr)).

(** [struct evl_facreg_rq] at the start of the data: three ints, then the name. *)
Definition facreg_rq (data : list Z) : Z * Z * Z * str :=
  (le_decode (take 4 data), le_decode (take 4 (drop 4 data)), s32 (le_decode (take 4 (drop 8 data))),
   cstring (drop 12 data)).
Definition set_rq (data : list Z) (kernel_code registry_code status : Z) : list Z :=
  patch data 0 (le_encode 4 kernel_code ++ le_encode 4 registry_code ++ le_encode 4 status).
Definition handleFacRegEvent (e : posix_log_entry) (data : option (list Z)) (now : Z) (fr : registry)
  : option (posix_log_entry * option (list Z) * registry) :=
  if negb (log_facility e =? LOG_LOGMGMT) || negb (log_event_type e =? EVLOG_REGISTER_FAC) then Some (e, data, fr)
  else if Z.land (log_flags e) EVL_KERNEL_EVENT =? 0 then Some (e, data, fr)
  else
    data ← data;
    let '(kcode, _, status, facName) := facreg_rq data in
    if status =? -1 then
      Some (set_severity e LOG_ERR, Some (set_rq data kcode EVL_INVALID_FACILITY status), fr)
    else
      let in_registry (code success : Z) (fr : registry) :=
        if code =? kcode then Some (set_severity e LOG_INFO, Some (set_rq data kcode code success), fr)
        else Some (set_severity e LOG_ERR, Some (set_rq data kcode code 4), fr) in
      let failed (fr : registry) :=
        Some (set_severity e LOG_ERR, Some (set_rq data kcode EVL_INVALID_FACILITY 3), fr) in
      match @posix_log_strtofac (host fr now) (Some facName) with
      | inr code => in_registry code 1 fr
      | inl _ =>
          let '(status, fr) := add_facility facName fr in
          if negb (status =? 0) then failed fr
          else match @posix_log_strtofac (host fr now) (Some facName) with
               | inr code => in_registry code 2 fr
               | inl _ => failed fr
               end
      end.

Definition closeClientSocket (i : nat) (d : daemon) : option daemon :=
  ci ← clients d !! i;
  let rmtdpid := if ci_pid ci =? rmtdpid d then 0 else rmtdpid d in
  let cs := <[i := mkClient CLIENT_SLOT_AVAILABLE (ci_uid ci) (ci_pid ci)]> (clients d) in
  Some (mkDaemon (dk d) (ds d) cs (kpid d) rmtdpid (facilities d) (dis_query d) (be_runs d)).

(** Is the sender the one that the header names? *)
Definition bad_sender (d : daemon) (ci : clientinfo_t) (e : posix_log_entry) : bool :=
  negb (ci_pid ci =? kpid d) && negb (ci_pid ci =? rmtdpid d) &&
  (negb (ci_uid ci =? log_uid e) || negb (ci_pid ci =? log_pid e) ||
   negb (Z.land (log_flags e) EVL_KERNEL_EVENT =? 0)).
Definition local_magic (d : daemon) (ci : clientinfo_t) (e : posix_log_entry) : Z :=
  if negb (ci_pid ci =? rmtdpid d) then
    if log_magic e =? LOGREC_ARCH_X86_32 then Z.lor (Z.land LOGREC_MAGIC 0xffff0000) LOGREC_ARCH_I386
    else LOG_MAGIC_ARCH
  else if Z.land (log_magic e) 0xffff0000 =? Z.land LOGREC_MAGIC 0xffff0000 then log_magic e
  else LOG_MAGIC_ARCH.

(** Is the record to be logged, and if so, with which access flags? *)
Definition screen_event (d : daemon) (e : posix_log_entry) (varbuf : list Z) (now : Z)
  : option (option Z * registry) :=
  let HL := host (facilities d) now in
  discard ← (match dis_query d with Some q => @_evlEvaluateQuery HL RL TL q e varbuf | None => Some false end);
  if (discard : bool) then Some (None, facilities d)
  else
    '(query, acc_flags, fr) ← _evlGetFacilityAccessQuery HL (log_facility e) (facilities d);
    if negb (Z.land acc_flags EVL_FACC_KERN =? 0) && (Z.land (log_flags e) EVL_KERNEL_EVENT =? 0)
    then Some (None, fr)
    else
      ok ← (match query with Some q => @_evlEvaluateQuery (host fr now) RL TL q e varbuf | None => Some true end);
      Some (if (ok : bool) then Some acc_flags else None, fr).

(** What follows the screening: the record in event buffer [i] is logged or dropped,
    and handed to the back ends. *)
Definition log_event (i : nat) (acc_flags now : Z) (d : daemon) : option (Z * daemon) :=
  let HL := host (facilities d) now in
  let w := if negb (acc_flags =? -1) && negb (Z.land acc_flags EVL_FACC_PRIVATE =? 0) then PvtLog else EvlLog in
  '(dropped, k, s) ← @dropDupRecord HL lock_ok nfy_ok self w i now (dk d) (ds d);
  let d := set_ds (set_dk d k) s in
  let run_backends (d : daemon) :=
    x ← buf (dk d) !! i;
    Some (0, mkDaemon (dk d) (ds d) (clients d) (kpid d) (rmtdpid d) (facilities d) (dis_query d)
               (be_runs d ++ [eb_entry x])) in
  if (dropped : bool) then run_backends d
  else
    x ← buf (dk d) !! i;
    '(st, e, s) ← log_evl_rec lock_ok nfy_ok self w (eb_entry x) (eb_data x) now (ds d);
    d ← set_slot (set_ds d s) i e (eb_data x);
    if st <? 0 then Some (-1, d) else run_backends d.

(** The event [rhdr] with the data [data] in event buffer [i], after it was read. *)
Definition handle_event (i : nat) (rhdr : posix_log_entry) (data : list Z) (now : Z) (d : daemon)
  : option (Z * daemon) :=
  let varbuf := if log_size rhdr <=? 0 then None else Some data in
  '(verdict, fr) ← screen_event d rhdr (default [] varbuf) now;
  let d := set_facilities d fr in
  match verdict with
  | None => Some (0, d)
  | Some acc_flags =>
      '(rhdr, varbuf, fr) ← handleFacRegEvent rhdr varbuf now fr;
      d ← set_slot (set_facilities d fr) i rhdr (default data varbuf);
      log_event i acc_flags now d
  end.

(** Reads an event from client [ci] into event buffer [i] and checks its sender.  [inl]:
    the client is closed, and the status; [inr]: the event, what is left of the stream. *)
Definition receive_event (ci i : nat) (stream : list Z) (d : daemon)
  : option (Z * daemon + posix_log_entry * list Z * list Z * daemon) :=
  c ← clients d !! ci;
  x ← buf (dk d) !! i;
  let '(nbytes, rhdr, stream) := populateRecHdr (eb_entry x) stream in
  d ← set_slot d i rhdr (eb_data x);
  let close (ret : Z) (d : daemon) := d ← closeClientSocket ci d; Some (inl (ret, d)) in
  match nbytes with
  | None => close (-1) d
  | Some _ =>
      if bad_sender d c rhdr then close 0 d
      else
        let rhdr := set_magic rhdr (local_magic d c rhdr) in
        '(ok, data) ← (if log_size rhdr <=? 0 then Some (true, eb_data x)
                       else _evlReadEx (eb_data x) (log_size rhdr) stream);
        d ← set_slot d i rhdr data;
        if negb ok then close (-1) d
        else Some (inr (rhdr, data, drop (Z.to_nat (s32 (log_size rhdr))) stream, d))
  end.
(** What is written back to the client when its event was read. *)
Definition EVENT_READ : Z := 0xac.
Definition Process_Event (ci i : nat) (stream : list Z) (now : Z) (d : daemon) : option (Z * daemon) :=
  r ← receive_event ci i stream d;
  match r with
  | inl (ret, d) => Some (ret, d)
  | inr (rhdr, data, _, d) => handle_event i rhdr data now d
  end.

(** ** Connections and configuration *)

(** A new connection of process [pid] of user [uid]; [is_rmtd]: its command line
    mentions evlogrmtd. *)
Definition accept_client (max_sysuid max_userconns : Z) (newsd uid pid : Z) (is_rmtd : bool) (d : daemon) : daemon :=
  let rmtdpid := if (rmtdpid d =? 0) && (uid =? 0) && is_rmtd then pid else rmtdpid d in
  let userconns := Z.of_nat (length (List.filter (fun c => ci_uid c =? uid) (clients d))) in
  let cs := match list_find (fun c => ci_sd c = CLIENT_SLOT_AVAILABLE) (clients d) with
            | None => clients d
            | Some (i, _) =>
                if (uid >? max_sysuid) && (userconns >=? max_userconns) then clients d
                else <[i := mkClient newsd uid pid]> (clients d)
            end in
  mkDaemon (dk d) (ds d) cs (kpid d) rmtdpid (facilities d) (dis_query d) (be_runs d).

Definition createQuery (qexp : str) (now : Z) (d : daemon) : option (Z * daemon) :=
  let set_query q := mkDaemon (dk d) (ds d) (clients d) (kpid d) (rmtdpid d) (facilities d) q (be_runs d) in
  if streqb qexp "nofilter" then Some (0, set_query None)
  else
    q ← create_query (host (facilities d) now) qexp POSIX_LOG_PRPS_NOTIFY 80;
    Some (match q with Some _ => 0 | None => -1 end, set_query q).

(** [read(confsd, &v, sizeof(int))]: a short read leaves the other bytes of [v]. *)
Definition read_int (v : Z) (stream : list Z) : Z * list Z :=
  let '(got, rest) := sock_read 4 stream in
  (s32 (le_decode (overwrite (le_encode 4 v) got)), rest).

Definition set_conf (d : daemon) (c : dup_conf) : daemon :=
  set_dk d (mkLookback (evl_dups (dk d)) (pvt_dups (dk d)) (buf (dk d)) (equality_index (dk d)) c).
Definition realloc (size : Z) (prev_on cur_on : bool) (now : Z) (d : daemon) : option daemon :=
  '(k, s) ← @reallocBuffer (host (facilities d) now) lock_ok nfy_ok self size prev_on cur_on now (dk d) (ds d);
  Some (set_ds (set_dk d k) s).

(** One configuration element. *)
Definition update_element (ctype value : Z) (cbuf : str) (now : Z) (d : daemon) : option daemon :=
  let c := dconf (dk d) in
  if ctype =? 0 then        (* DIS_COUNT *)
    Some (set_conf d (mkConf (if value =? 0 then 10 * MAX_DUP_COUNT else value) (dup_interval c) (dup_timeout c)
                        (dup_array_size c) (dis_dup_recs c)))
  else if ctype =? 1 then   (* DIS_INTERVAL *)
    Some (set_conf d (mkConf (dup_count c) (if value =? 0 then 24 * MAX_DUP_INTERVAL else value) (dup_timeout c)
                        (dup_array_size c) (dis_dup_recs c)))
  else if ctype =? 4 then   (* DIS_DUPS *)
    let set_dups (v : bool) d :=
      let c := dconf (dk d) in
      set_conf d (mkConf (dup_count c) (dup_interval c) (dup_timeout c) (dup_array_size c) v) in
    if negb (dis_dup_recs c) && streqb cbuf "on" then set_dups true <$> realloc (dup_array_size c) false true now d
    else if dis_dup_recs c && streqb cbuf "off" then set_dups false <$> realloc (dup_array_size c) true false now d
    else Some d
  else if ctype =? 3 then   (* DIS_SIZE *)
    if negb (dup_array_size c =? value) then
      realloc (if value =? 0 then DEFAULT_DUP_ARRAY_SIZE else value) (dis_dup_recs c) (dis_dup_recs c) now d
    else Some d
  else Some d.

(** The configuration loop: [inr None] is undefined behaviour. *)
Record conf_state := mkConfState {
  cf_ctype : Z; cf_value : Z; cf_cbuf : list Z; cf_qexp : option str; cf_stream : list Z; cf_daemon : daemon
}.
Definition conf_step (now : Z) (s : conf_state) : conf_state + option (Z * daemon) :=
  let d := cf_daemon s in
  if cf_ctype s >? 5 then
    inr (match cf_qexp s with
         | Some q => '(st, d) ← createQuery q now d; Some (if st <? 0 then -1 else 0, d)
         | None => Some (0, d)
         end)
  else
    let '(value, stream) := read_int (cf_value s) (cf_stream s) in
    let next (value : Z) (cbuf : list Z) (qexp : option str) (stream : list Z) (d : option daemon) :=
      match d with
      | None => inr None
      | Some d =>
          let '(ctype, stream) := read_int (cf_ctype s) stream in
          inl (mkConfState ctype value cbuf qexp stream d)
      end in
    if cf_ctype s >=? 4 then
      if u64 value >? MAX_EVL_LINE then inr (Some (-1, d))
      else
        let '(got, stream) := sock_read value stream in
        if value =? MAX_EVL_LINE then inr None             (* [cbuf[value] = '\0'] *)
        else
          let cbuf := <[Z.to_nat value := 0]> (overwrite (cf_cbuf s) got) in
          next value cbuf (if cf_ctype s =? 5 then Some (cstring cbuf) else cf_qexp s) stream
            (update_element (cf_ctype s) value (cstring cbuf) now d)
    else
      let d' := update_element (cf_ctype s) value EmptyString now d in
      let value := if (cf_ctype s =? 3) && (value =? 0) && negb (dup_array_size (dconf (dk d)) =? 0)
                   then DEFAULT_DUP_ARRAY_SIZE else value in
      next value (cf_cbuf s) (cf_qexp s) stream d'.
(** [ctype], [value] and [cbuf] start uninitialized. *)
Definition updateConfvalues (n : positive) (ctype value : Z) (cbuf stream : list Z) (now : Z) (d : daemon)
  : conf_state + option (Z * daemon) :=
  let '(ctype, stream) := read_int ctype stream in
  loop (conf_step now) n (mkConfState ctype value cbuf None stream d).

(** ** The daemon's loop *)

(** The loop over the clients with input, as the client's number and its stream; each
    record is read into a free event buffer. *)
Fixpoint process_clients (ready : list (nat * list Z)) (now : Z) (d : daemon) : option daemon :=
  match ready with
  | [] => Some d
  | (ci, stream) :: ready' =>
      '(_, d) ← Process_Event ci (next_buffer (dk d)) stream now d;
      process_clients ready' now d
  end.
(** One iteration of [run_parent]: pending notices that are due are written first. *)
Definition run_iteration (ready : list (nat * list Z)) (now : Z) (d : daemon) : option daemon :=
  '(_, k, s) ← @checkDupEventTimeout (host (facilities d) now) lock_ok nfy_ok self now (dk d) (ds d);
  process_clients ready now (set_ds (set_dk d k) s).
End Evlogd.

(** ** What happens to an event *)

Lemma length_patch p k data : (k + length data <= length p)%nat -> length (patch p k data) = length p.
Proof.
  intros Hl. unfold patch. rewrite length_app, length_take, length_overwrite; rewrite length_drop; lia.
Qed.

(** The size that a client announces fits the event buffer, and a request of the kernel
    has data. *)
Definition sane_header (h : posix_log_entry) : Prop :=
  0 <= log_size h <= POSIX_LOG_ENTRY_MAXLEN /\
  (log_facility h = LOG_LOGMGMT -> log_event_type h = EVLOG_REGISTER_FAC -> 0 < log_size h).
Definition sane (stream : list Z) : Prop :=
  forall old n h rest, populateRecHdr old stream = (Some n, h, rest) -> sane_header h.

Section EvlogdSpec.
Context `{RL : RegexLib} `{TL : TemplateLib}.
Abbreviation registry := (_evlFacilityRegistry posix_log_query_t).
Variable host : registry -> Z -> HostLib.
Variable qqparse : str -> str + pnode.
Variables (lock_ok nfy_ok : nat -> bool) (self : self_t).
Variable add_facility : str -> registry -> Z * registry.
#[local] Abbreviation screen_event := (screen_event host qqparse).
#[local] Abbreviation log_event := (log_event host lock_ok nfy_ok self).
#[local] Abbreviation Process_Event := (Process_Event host qqparse lock_ok nfy_ok self add_facility).
#[local] Abbreviation handleFacRegEvent := (handleFacRegEvent host add_facility).

(** A query that can be evaluated, and a filter that makes one or none. *)
Definition query_ok (q : posix_log_query_t) : Prop :=
  forall fr t e v, exists b, @_evlEvaluateQuery (host fr t) RL TL q e v = Some b.
Definition filter_ok (f : str) : Prop :=
  forall fr t, exists q, create_query qqparse (host fr t) f EVL_PRPS_RESTRICTED 200 = Some q /\
    forall q', q = Some q' -> query_ok q'.
Definition registry_ok (fr : registry) : Prop :=
  Forall (fun fac => (forall q, faQuery fac = Some q -> query_ok q) /\ (forall f, faFilter fac = Some f -> filter_ok f))
    (frHash fr).
Hypothesis add_ok : forall name fr, registry_ok fr -> registry_ok (snd (add_facility name fr)).
Hypothesis plain_host : forall fr t, @plain_names (host fr t).

Record daemon_ok (d : daemon) : Prop := {
  dm_look : look_ok (dk d);
  dm_reg : registry_ok (facilities d);
  dm_dis : forall q, dis_query d = Some q -> query_ok q
}.
Lemma access_ok HL fac fr : (exists f t, HL = host f t) -> registry_ok fr ->
  exists q acc fr', _evlGetFacilityAccessQuery qqparse HL fac fr = Some (q, acc, fr') /\ registry_ok fr' /\
    forall q', q = Some q' -> query_ok q'.
Proof.
  intros (f & t & ->) Hr. unfold _evlGetFacilityAccessQuery. cbv zeta. destruct (_ =? -1); [by do 3 eexists|].
  set (i := findHashSlotFor _ _ _). set (x := slot_at _ _). destruct (_ =? EMPTY); [by do 3 eexists|].
  assert ((forall q, faQuery x = Some q -> query_ok q) /\ (forall f, faFilter x = Some f -> filter_ok f)) as [Hq Hf].
  { unfold x, slot_at. destruct (frHash fr !! Z.to_nat i) as [y|] eqn:E; [|done]. cbn.
    unfold registry_ok in Hr. rewrite Forall_forall in Hr. apply Hr. by eapply list_elem_of_lookup_2. }
  assert (exists q, match faQuery x, faFilter x with
      | Some q, _ => Some (Some q)
      | None, Some filter => create_query qqparse (host f t) filter EVL_PRPS_RESTRICTED 200
      | None, None => Some None end = Some q /\ forall q', q = Some q' -> query_ok q') as (q & -> & Hqq).
  { destruct (faQuery x) as [q|]; [exists (Some q); split; [done|intros ? [= <-]; by apply Hq]|].
    destruct (faFilter x) as [g|]; [|by exists None]. by apply Hf. }
  cbn [mbind option_bind]. do 3 eexists. split; [done|]. split; [|done]. unfold registry_ok. cbn [frHash].
  apply Forall_insert; [done|]. cbn. split; [done|]. intros g Hg. by apply Hf.
Qed.

(** The access flags of a facility decide with the filters whether an event is logged. *)
Lemma screen_ok d e v now : daemon_ok d ->
  exists verdict fr, screen_event d e v now = Some (verdict, fr) /\ registry_ok fr /\
    forall acc, verdict = Some acc -> Z.land acc EVL_FACC_KERN = 0 \/ Z.land (log_flags e) EVL_KERNEL_EVENT <> 0.
Proof.
  intros [_ Hr Hd]. unfold screen_event.
  assert (exists b, match dis_query d with Some q => @_evlEvaluateQuery (host (facilities d) now) RL TL q e v
                                         | None => Some false end = Some b) as [b ->].
  { destruct (dis_query d) as [q|]; [by apply Hd|by exists false]. }
  cbn [mbind option_bind]. destruct b; [by do 2 eexists|].
  destruct (access_ok (host (facilities d) now) (log_facility e) (facilities d)) as (q & acc & fr & -> & Hfr & Hq); [eauto|done|].
  cbn [mbind option_bind]. destruct (negb (Z.land acc EVL_FACC_KERN =? 0) && _) eqn:E; [by do 2 eexists|].
  assert (exists b, match q with Some q => @_evlEvaluateQuery (host fr now) RL TL q e v | None => Some true end = Some b) as [b ->].
  { destruct q as [q|]; [by apply (Hq q)|by exists true]. }
  cbn [mbind option_bind]. do 2 eexists. split; [done|]. split; [done|]. destruct b; [|done]. intros ? [= <-].
  apply andb_false_iff in E as [E|E]; bprop; [left|right]; zb.
Qed.

Lemma facreg_ok e data now fr : registry_ok fr -> length data = Z.to_nat POSIX_LOG_ENTRY_MAXLEN -> sane_header e ->
  exists e' data' fr', handleFacRegEvent e (if log_size e <=? 0 then None else Some data) now fr = Some (e', data', fr') /\
    registry_ok fr' /\ length (default data data') = length data /\
    exists sev, e' = set_severity e sev.
Proof.
  intros Hr Hl [Hsz Hreg]. unfold handleFacRegEvent.
  assert (set_severity e (log_severity e) = e) as He by (by destruct e).
  destruct (negb _ || negb _) eqn:E1.
  { do 3 eexists. split; [done|]. split_and!; [done|by destruct (_ <=? 0)|by eexists]. }
  destruct (_ =? 0).
  { do 3 eexists. split; [done|]. split_and!; [done|by destruct (_ <=? 0)|by eexists]. }
  apply orb_false_iff in E1 as [E1 E2]. bprop. specialize (Hreg ltac:(zb) ltac:(zb)).
  destruct (log_size e <=? 0) eqn:E3; [zb|]. cbn [mbind option_bind]. unfold facreg_rq.
  assert (forall a b c, length (set_rq data a b c) = length data) as Hrq.
  { intros a b c. unfold set_rq. apply length_patch. rewrite !length_app, !length_le_encode, Hl. unfold POSIX_LOG_ENTRY_MAXLEN. lia. }
  destruct (_ =? -1); [do 3 eexists; split; [done|]; split_and!; [done|cbn; apply Hrq|by eexists]|].
  destruct (@posix_log_strtofac _ _) as [er|code]; [|destruct (_ =? _); do 3 eexists; (split; [done|]; split_and!; [done|cbn; apply Hrq|by eexists])].
  destruct (add_facility _ fr) as [st fr1] eqn:Ea. assert (registry_ok fr1) as Hr1 by (specialize (add_ok (cstring (drop 12 data)) fr Hr); by rewrite Ea in add_ok).
  destruct (negb _); [do 3 eexists; split; [done|]; split_and!; [done|cbn; apply Hrq|by eexists]|].
  destruct (@posix_log_strtofac _ _); [|destruct (_ =? _)]; do 3 eexists; (split; [done|]; split_and!; [done|cbn; apply Hrq|by eexists]).
Qed.
(** One event: what it wrote to the logs ([cs]) and what the back ends got ([es]). *)
Record handled (d : daemon) (cs : list call) (es : list posix_log_entry) (d' : daemon) : Prop := {
  hd_ok : daemon_ok d';
  hd_run : sink_run lock_ok nfy_ok self cs (ds d) = Some (ds d');
  hd_backends : be_runs d' = be_runs d ++ es;
  hd_count : recorded cs + announced cs + pending (dk d') = pending (dk d) + Z.of_nat (length es);
  hd_pending : pending (dk d') <= pending (dk d) + Z.of_nat (length es);
  hd_clients : length (clients d') = length (clients d);
  hd_kpid : kpid d' = kpid d
}.

Lemma handled_refl d : daemon_ok d -> handled d [] [] d.
Proof. intros Hd. split; cbn; try done; try lia. by rewrite app_nil_r. Qed.
Lemma handled_trans d1 cs1 es1 d2 cs2 es2 d3 :
  handled d1 cs1 es1 d2 -> handled d2 cs2 es2 d3 -> handled d1 (cs1 ++ cs2) (es1 ++ es2) d3.
Proof.
  intros [_ Hr1 Hb1 Hc1 Hp1 Hl1 Hk1] [Hok Hr2 Hb2 Hc2 Hp2 Hl2 Hk2]. split; rewrite ?recorded_app, ?announced_app, ?length_app; try done; try lia.
  - by rewrite sink_run_app, Hr1.
  - by rewrite Hb2, Hb1, app_assoc.
Qed.

(** Same logs, same pending records, same back ends. *)
Record quiet (d d' : daemon) : Prop := {
  qt_ok : daemon_ok d';
  qt_sink : ds d' = ds d;
  qt_backends : be_runs d' = be_runs d;
  qt_pending : pending (dk d') = pending (dk d);
  qt_clients : length (clients d') = length (clients d);
  qt_kpid : kpid d' = kpid d
}.
Lemma quiet_handled d d' : quiet d d' -> handled d [] [] d'.
Proof. intros [Hok Hs Hb Hp Hc Hk]. split; cbn; try done; try lia; [by rewrite Hs|by rewrite app_nil_r]. Qed.
Lemma quiet_then d d' cs es d2 : quiet d d' -> handled d' cs es d2 -> handled d cs es d2.
Proof. intros Hq%quiet_handled Hh. exact (handled_trans _ [] [] _ _ _ _ Hq Hh). Qed.
Lemma quiet_trans d1 d2 d3 : quiet d1 d2 -> quiet d2 d3 -> quiet d1 d3.
Proof. intros [] []. split; congruence || done. Qed.

Lemma slot_quiet d i x e data : daemon_ok d -> buf (dk d) !! i = Some x ->
  length data = Z.to_nat POSIX_LOG_ENTRY_MAXLEN ->
  (in_use x = true -> 0 <= log_size e <= POSIX_LOG_ENTRY_MAXLEN) ->
  exists d', set_slot d i e data = Some d' /\ quiet d d' /\ buf (dk d') !! i = Some (mkSlot e data (in_use x)) /\
    clients d' = clients d /\ rmtdpid d' = rmtdpid d /\ facilities d' = facilities d /\ dis_query d' = dis_query d.
Proof.
  intros [Hk Hr Hd] Hx Hl Hsz. unfold set_slot. rewrite Hx. cbn [mbind option_bind]. eexists. split; [done|].
  destruct (fill_slot (dk d) i x e data Hk Hx Hl Hsz) as [Hk' Hp]. split_and!; try done.
  cbn. apply list_lookup_insert_eq. by eapply lookup_lt_Some.
Qed.
Lemma facilities_quiet d fr : daemon_ok d -> registry_ok fr -> quiet d (set_facilities d fr).
Proof. intros [Hk Hr Hd] Hfr. by split. Qed.
Lemma close_quiet d i : daemon_ok d -> (i < length (clients d))%nat ->
  exists d', closeClientSocket i d = Some d' /\ quiet d d'.
Proof.
  intros [Hk Hr Hd] Hi. destruct (lookup_lt_is_Some_2 _ _ Hi) as [c Hc]. unfold closeClientSocket. rewrite Hc.
  cbn [mbind option_bind]. eexists. split; [done|]. split; try done. cbn. by rewrite length_insert.
Qed.

(** An event that passed the screening is recorded, or counted as a duplicate. *)
Lemma log_event_ok i acc now d x : daemon_ok d -> buf (dk d) !! i = Some x -> in_use x = false ->
  sane_header (eb_entry x) -> pending (dk d) + 1 < 2 ^ 31 ->
  exists d' cs e, log_event i acc now d = Some (0, d') /\ handled d cs [e] d' /\
    exists id, e = with_recid (eb_entry x) id.
Proof.
  intros Hd Hx Hu [Hsz _] Hb. pose proof Hd as [Hk Hr Hdis]. unfold Evlogd.log_event. set (w := if (_ : bool) then PvtLog else EvlLog).
  destruct (@drop_ok (host (facilities d) now) lock_ok nfy_ok self (plain_host _ _) w i x now (dk d) (ds d) Hk Hx Hu Hsz Hb)
    as (dropped & k & s & -> & Hk' & Hsame & _ & cs & Hcs & Hrec & Hann & Hp).
  cbn [mbind option_bind]. cbn [dk set_ds set_dk].
  assert (exists u, buf k !! i = Some (mkSlot (eb_entry x) (eb_data x) u)) as [u Hx'].
  { unfold same_records in Hsame. apply (f_equal (fun l => l !! i)) in Hsame. rewrite !list_lookup_fmap, Hx in Hsame.
    destruct (buf k !! i) as [[e dd u]|]; cbn in Hsame; simplify_eq. by exists u. }
  set (d1 := set_ds (set_dk d k) s).
  assert (daemon_ok d1) as Hd1 by (by split). destruct dropped.
  - rewrite Hx'. cbn [mbind option_bind]. eexists _, cs, (eb_entry x). split; [done|]. split.
    + split; cbn; try done; cbn in Hp; lia.
    + exists (log_recid (eb_entry x)). by destruct (eb_entry x).
  - rewrite Hx'. cbn [mbind option_bind eb_entry eb_data].
    destruct (log_evl_rec_total lock_ok nfy_ok self w (eb_entry x) (eb_data x) now s) as (e & s' & Hlog).
    { unfold POSIX_LOG_ENTRY_MAXLEN, REC_HDR_SIZE in *. rewrite unsigned_id by (unfold in_unsigned; lia). lia. }
    assert (exists id, e = with_recid (eb_entry x) id) as [id ->].
    { revert Hlog. unfold log_evl_rec. destruct (_ >? _); [done|]. destruct (getNextRecId _ _) as [id s2].
      destruct (write_rec_to_log _ _ _ _ _ _ _) as [[st s3]|]; cbn; [|done]. destruct (st <? 0); intros [=]; subst; eauto. }
    cbn [ds d1 set_ds]. rewrite Hlog. cbn [mbind option_bind].
    destruct (slot_quiet (set_ds d1 s') i (mkSlot (eb_entry x) (eb_data x) u) (with_recid (eb_entry x) id) (eb_data x)) as (d2 & -> & Hq & Hx2 & _);
      [by split|exact Hx'| |done|].
    { pose proof (lk_slots k Hk') as Hsl. rewrite Forall_forall in Hsl. apply (Hsl (mkSlot (eb_entry x) (eb_data x) u)).
      by eapply list_elem_of_lookup_2. }
    cbn [mbind option_bind Z.ltb Z.compare]. rewrite Hx2. cbn [mbind option_bind eb_entry].
    destruct Hq as [Hok2 Hs2 Hb2 Hp2 Hc2 Hk2]. exists (mkDaemon (dk d2) (ds d2) (clients d2) (kpid d2) (rmtdpid d2) (facilities d2)
      (dis_query d2) (be_runs d2 ++ [with_recid (eb_entry x) id])), (cs ++ [Logged w (eb_entry x) (eb_data x) now]), (with_recid (eb_entry x) id).
    split; [done|]. split; [|by eexists]. destruct Hok2. cbn in Hs2, Hb2, Hp2, Hc2, Hk2, Hp. split; rewrite ?recorded_app, ?announced_app; cbn; try done.
    + rewrite sink_run_app, Hcs. cbn. rewrite Hlog. cbn. by rewrite Hs2.
    + by rewrite Hb2.
    + lia.
    + lia.
Qed.
(** *** The sender *)

(** What the records of a client can claim: anything when it is the kernel's or the
    remote daemon's, its own user and process otherwise. *)
Definition genuine (d : daemon) (c : clientinfo_t) (e : posix_log_entry) : Prop :=
  ci_pid c = kpid d \/ ci_pid c = rmtdpid d \/
  (log_uid e = ci_uid c /\ log_pid e = ci_pid c /\ Z.land (log_flags e) EVL_KERNEL_EVENT = 0).
Lemma sender_ok d c e : bad_sender d c e = false -> genuine d c e.
Proof.
  unfold bad_sender, genuine. rewrite !andb_false_iff, !orb_false_iff, !negb_false_iff. rewrite !Z.eqb_eq. intuition.
Qed.

(** The header's data is read into the event buffer. *)
Lemma read_data data size stream : 0 <= size <= POSIX_LOG_ENTRY_MAXLEN -> length data = Z.to_nat POSIX_LOG_ENTRY_MAXLEN ->
  exists ok data', (if size <=? 0 then Some (true, data) else _evlReadEx data size stream) = Some (ok, data') /\
    length data' = length data.
Proof.
  intros Hs Hl. destruct (size <=? 0) eqn:E; [by do 2 eexists|]. unfold _evlReadEx. unfold POSIX_LOG_ENTRY_MAXLEN in *.
  rewrite signed_id by (unfold in_signed; lia). rewrite E. destruct (_ >? _) eqn:E2.
  { rewrite length_take in E2. zb. }
  do 2 eexists. split; [done|]. apply length_overwrite. rewrite length_take. lia.
Qed.

(** Once it is read, an event is screened out, or passed on. *)
Lemma handle_event_ok i x now d : daemon_ok d -> buf (dk d) !! i = Some x -> in_use x = false ->
  sane_header (eb_entry x) -> length (eb_data x) = Z.to_nat POSIX_LOG_ENTRY_MAXLEN -> pending (dk d) + 1 < 2 ^ 31 ->
  exists r d' cs es, handle_event host qqparse lock_ok nfy_ok self add_facility i (eb_entry x) (eb_data x) now d = Some (r, d') /\
    handled d cs es d' /\ (length es <= 1)%nat /\
    Forall (fun e => exists sev id, e = with_recid (set_severity (eb_entry x) sev) id) es.
Proof.
  intros Hd Hx Hu Hh Hl Hb. unfold handle_event. set (h := eb_entry x) in *. set (data := eb_data x) in *.
  destruct (screen_ok d h (default [] (if log_size h <=? 0 then None else Some data)) now Hd) as (verdict & fr & -> & Hfr & _).
  cbn [mbind option_bind]. pose proof (facilities_quiet d fr Hd Hfr) as Hq. destruct verdict as [acc|].
  2: { exists 0, (set_facilities d fr), [], []. split; [done|]. split; [by apply quiet_handled|]. by split; [cbn; lia|constructor]. }
  destruct (facreg_ok h data now fr Hfr Hl Hh) as (h2 & data2 & fr2 & -> & Hfr2 & Hl2 & sev & ->).
  cbn [mbind option_bind]. set (d1 := set_facilities _ fr2).
  assert (quiet d d1) as Hq1 by (eapply quiet_trans; [exact Hq|]; apply facilities_quiet; [apply Hq|done]).
  destruct (slot_quiet d1 i x (set_severity h sev) (default data data2) (qt_ok _ _ Hq1) Hx) as (d2 & -> & Hq2 & Hx2 & _);
    [by rewrite Hl2|congruence|].
  cbn [mbind option_bind]. assert (quiet d d2) as Hq3 by (by eapply quiet_trans).
  destruct (log_event_ok i acc now d2 _ (qt_ok _ _ Hq3) Hx2) as (d' & cs & e & -> & Hh' & id & ->);
    [done|done|rewrite (qt_pending _ _ Hq3); lia|].
  exists 0, d', cs, [with_recid (set_severity h sev) id]. split; [done|]. split; [by eapply quiet_then|].
  split; [cbn; lia|]. apply Forall_singleton. by exists sev, id.
Qed.

Lemma close_handled d0 c ci d : quiet d0 d -> (ci < length (clients d0))%nat ->
  exists d', closeClientSocket ci d = Some d' /\ handled d0 [] [] d' /\ Forall (genuine d0 c) [] /\ (length (@nil posix_log_entry) <= 1)%nat.
Proof.
  intros Hq Hci. destruct (close_quiet d ci) as (d' & -> & Hq'); [apply Hq|by rewrite (qt_clients _ _ Hq)|].
  exists d'. split; [done|]. split; [apply quiet_handled; by eapply quiet_trans|]. by split; [constructor|cbn; lia].
Qed.

(** Any event of a client is handled: rejected, screened out, or passed on. *)
Lemma event_handled ci c i x stream now d : daemon_ok d -> clients d !! ci = Some c ->
  buf (dk d) !! i = Some x -> in_use x = false -> sane stream -> pending (dk d) + 1 < 2 ^ 31 ->
  exists r d' cs es, Process_Event ci i stream now d = Some (r, d') /\ handled d cs es d' /\
    Forall (genuine d c) es /\ (length es <= 1)%nat.
Proof.
  intros Hd Hc Hx Hu Hs Hb. pose proof (lookup_lt_Some _ _ _ Hc) as Hci. unfold Evlogd.Process_Event, receive_event.
  rewrite Hc. cbn [mbind option_bind]. rewrite Hx. cbn [mbind option_bind].
  destruct (populateRecHdr (eb_entry x) stream) as [[n h] rest] eqn:Hpop.
  pose proof (lk_slots _ (dm_look d Hd)) as Hsl. rewrite Forall_forall in Hsl.
  destruct (Hsl x ltac:(by eapply list_elem_of_lookup_2)) as [Hl _].
  destruct (slot_quiet d i x h (eb_data x) Hd Hx Hl) as (d1 & -> & Hq1 & Hx1 & Hc1 & Hr1 & _); [congruence|].
  cbn [mbind option_bind]. destruct n as [n|];
    [|destruct (close_handled d c ci d1 Hq1 Hci) as (d' & -> & ?); by do 4 eexists]. pose proof (Hs _ _ _ _ Hpop) as Hh.
  destruct (bad_sender d1 c h) eqn:Hbad; [destruct (close_handled d c ci d1 Hq1 Hci) as (d' & -> & ?); by do 4 eexists|].
  assert (genuine d c h) as Hg.
  { apply sender_ok in Hbad. unfold genuine in *. by rewrite Hr1, (qt_kpid _ _ Hq1) in Hbad. }
  set (h1 := set_magic h _). destruct (read_data (eb_data x) (log_size h) rest (proj1 Hh) Hl) as (ok & data & Hread & Hld).
  change (log_size h1) with (log_size h). rewrite Hread. cbn [mbind option_bind].
  destruct (slot_quiet d1 i _ h1 data (qt_ok _ _ Hq1) Hx1) as (d2 & -> & Hq2 & Hx2 & _); [by rewrite Hld|cbn; congruence|].
  cbn [mbind option_bind]. assert (quiet d d2) as Hq by (by eapply quiet_trans). destruct ok;
    [|destruct (close_handled d c ci d2 Hq Hci) as (d' & -> & ?); by do 4 eexists]. cbn [negb].
  destruct (handle_event_ok i _ now d2 (qt_ok _ _ Hq) Hx2 Hu Hh) as (r & d' & cs & es & Hev & Hh' & Hn & Hes);
    [by rewrite <-Hl|rewrite (qt_pending _ _ Hq); lia|].
  exists r, d', cs, es. split; [exact Hev|]. split; [by eapply quiet_then|]. split; [|done].
  eapply Forall_impl; [exact Hes|]. intros e (sev & id & ->). exact Hg.
Qed.

(** The clients that have input, each with what it sent. *)
Lemma clients_handled ready now : forall d, daemon_ok d ->
  Forall (fun '(ci, stream) => (ci < length (clients d))%nat /\ sane stream) ready ->
  pending (dk d) + Z.of_nat (length ready) < 2 ^ 31 ->
  exists d' cs es, process_clients host qqparse lock_ok nfy_ok self add_facility ready now d = Some d' /\
    handled d cs es d' /\ (length es <= length ready)%nat.
Proof.
  induction ready as [|[ci stream] ready IH]; intros d Hd Hready Hb.
  - exists d, [], []. split; [done|]. split; [by apply handled_refl|done].
  - apply Forall_cons in Hready as [[Hci Hs] Hready]. cbn [process_clients length] in *.
    destruct (lookup_lt_is_Some_2 _ _ Hci) as [c Hc]. destruct (next_buffer_ok (dk d) (dm_look d Hd)) as (x & Hx & Hu & _).
    destruct (event_handled ci c _ x stream now d Hd Hc Hx Hu Hs) as (r & d1 & cs1 & es1 & -> & Hh1 & _ & Hl1); [lia|].
    cbn [mbind option_bind]. pose proof Hh1 as [Hok1 _ _ _ Hp1 Hc1 _].
    destruct (IH d1 Hok1) as (d2 & cs2 & es2 & -> & Hh2 & Hl2); [by rewrite Hc1|lia|].
    do 3 eexists. split; [done|]. split; [by eapply handled_trans|]. rewrite length_app. lia.
Qed.
End EvlogdSpec.

(** *** What a client sends *)

Lemma le_encode_u32 m : le_encode 4 (u32 m) = le_encode 4 m.
Proof.
  pose proof (le_encode_decode (le_encode 4 m) (le_encode_bytes 4 m)) as He.
  rewrite length_le_encode, le_decode_encode in He. exact He.
Qed.
Lemma entry_bytes_magic e m : entry_bytes (set_magic e (u32 m)) = le_encode 4 m ++ drop 4 (entry_bytes e).
Proof.
  change (entry_bytes (set_magic e (u32 m))) with (le_encode 4 (u32 m) ++ drop 4 (entry_bytes e)). by rewrite le_encode_u32.
Qed.
(** The header of a program of the daemon's own architecture arrives as it was sent,
    whatever the event buffer held before. *)
Lemma header_received old e rest : entry_ok e -> log_magic e <> LOGREC_ARCH_I386 ->
  populateRecHdr old (entry_bytes e ++ rest) = (Some 84, e, rest).
Proof.
  intros Hok Hm. pose proof (entry_bytes_magic e (log_magic e)) as He.
  assert (u32 (log_magic e) = log_magic e) as Hu by (apply unsigned_id; apply Hok).
  replace (set_magic e (u32 (log_magic e))) with e in He by (rewrite Hu; by destruct e).
  set (tl := drop 4 (entry_bytes e)) in *. assert (length tl = 84)%nat as Htl by (unfold tl; by rewrite length_drop, length_entry_bytes).
  unfold populateRecHdr, sock_read. rewrite He, <-app_assoc.
  rewrite take_app_length', drop_app_length' by (by rewrite length_le_encode). rewrite length_le_encode. cbn [Z.of_nat Pos.of_succ_nat Z.eqb Pos.eqb negb Pos.succ].
  rewrite le_decode_encode. change (log_magic e mod 256 ^ Z.of_nat 4) with (u32 (log_magic e)). rewrite Hu, (proj2 (Z.eqb_neq _ _) Hm).
  rewrite take_app_length', drop_app_length' by (by rewrite Htl). rewrite Htl. change (Z.of_nat 84 =? REC_HDR_SIZE - 4) with true. cbn [negb].
  change (REC_HDR_SIZE - 4) with 84. do 2 f_equal. unfold patch, overwrite. rewrite (drop_ge (drop 4 _)) by (by rewrite length_drop, length_entry_bytes, Htl).
  rewrite app_nil_r. change (take 4 (entry_bytes old)) with (le_encode 4 (log_magic old)). unfold tl. rewrite <-entry_bytes_magic.
  rewrite entry_roundtrip; [by destruct e|]. unfold entry_ok in *. pose proof (unsigned_range 32 (log_magic old)). destruct_and!. cbn. split_and!; done || (apply unsigned_range; lia).
Qed.
Lemma client_sane e rest : entry_ok e -> log_magic e <> LOGREC_ARCH_I386 -> sane_header e -> sane (entry_bytes e ++ rest).
Proof. intros Hok Hm Hs old n h rest'. rewrite header_received by done. by intros [= _ <- _]. Qed.

(** ** Properties *)

Section EvlogdProps.
Context `{RL : RegexLib} `{TL : TemplateLib}.
Abbreviation registry := (_evlFacilityRegistry posix_log_query_t).
Variable host : registry -> Z -> HostLib.
Variable qqparse : str -> str + pnode.
Variables (lock_ok nfy_ok : nat -> bool) (self : self_t).
Variable add_facility : str -> registry -> Z * registry.



(** C40: [Process_Event] does not compare the size in an event's header with the event
    buffer: a client that sends a larger one, and the data, writes past its end. *)
Theorem oversized_event_overruns ci c x stream now d n h rest :
  clients d !! ci = Some c -> buf (dk d) !! next_buffer (dk d) = Some x ->
  populateRecHdr (eb_entry x) stream = (Some n, h, rest) -> bad_sender d c h = false ->
  POSIX_LOG_ENTRY_MAXLEN < log_size h < 2 ^ 31 -> log_size h <= Z.of_nat (length rest) ->
  Process_Event host qqparse lock_ok nfy_ok self add_facility ci (next_buffer (dk d)) stream now d = None.
Proof.
  intros Hc Hx Hp Hbad Hsz Hl. unfold Process_Event, receive_event. rewrite Hc. cbn [mbind option_bind]. rewrite Hx. cbn [mbind option_bind].
  rewrite Hp. unfold set_slot. rewrite Hx. cbn [mbind option_bind]. set (d1 := set_dk d _).
  change (bad_sender d1 c h) with (bad_sender d c h). rewrite Hbad. set (h1 := set_magic h _).
  change (log_size h1) with (log_size h). unfold POSIX_LOG_ENTRY_MAXLEN in *. destruct (log_size h <=? 0) eqn:E; [zb|].
  unfold _evlReadEx. rewrite signed_id by (unfold in_signed; lia). rewrite E. destruct (_ >? _) eqn:E2; [done|].
  rewrite length_take in E2. unfold POSIX_LOG_ENTRY_MAXLEN in E2. zb.
Qed.

(** An event of a facility that the registry does not have is logged only with the
    kernel's flag: its access flags are -1, which has the kernel-only bit set. *)
Theorem unknown_facility_is_not_logged e data now d :
  dis_query d = None -> Z.land (log_flags e) EVL_KERNEL_EVENT = 0 ->
  findHashSlotFor (log_facility e) (frHash (facilities d)) (frHashSize (facilities d)) = -1 \/
  faCode (slot_at (frHash (facilities d)) (findHashSlotFor (log_facility e) (frHash (facilities d)) (frHashSize (facilities d)))) = EMPTY ->
  forall i, handle_event host qqparse lock_ok nfy_ok self add_facility i e data now d = Some (0, set_facilities d (facilities d)).
Proof.
  intros Hq Hf Hslot i. unfold handle_event, screen_event. rewrite Hq. cbn [mbind option_bind].
  assert (_evlGetFacilityAccessQuery qqparse (host (facilities d) now) (log_facility e) (facilities d) = Some (None, -1, facilities d)) as ->.
  { unfold _evlGetFacilityAccessQuery. cbv zeta. destruct (_ =? -1) eqn:E; [done|]. destruct Hslot as [?|Hs]; [zb|].
    rewrite Hs. by rewrite Z.eqb_refl. }
  cbn [mbind option_bind]. rewrite Hf. done.
Qed.

(** When the connection of [evlconfig] ends inside a request, the configuration
    loop does not: [read] returns 0, which is no error, the element type stays, and
    the daemon serves nobody from then on. *)
Theorem configuration_spins_at_end ctype value cbuf qexp now d : 0 <= ctype <= 2 ->
  forall n, exists s, loop (conf_step host qqparse lock_ok nfy_ok self now) n (mkConfState ctype value cbuf qexp [] d) = inl s.
Proof.
  intros Hc n. set (I := fun s : conf_state => cf_ctype s = ctype /\ cf_stream s = []).
  assert (forall s, I s -> exists s', conf_step host qqparse lock_ok nfy_ok self now s = inl s' /\ I s') as Hstep.
  { intros s [H1 H2]. unfold conf_step. rewrite H1, H2. destruct (ctype >? 5) eqn:E1; [zb|].
    destruct (ctype >=? 4) eqn:E2; [zb|]. destruct (ctype =? 3) eqn:E3; [zb|]. unfold read_int, sock_read. rewrite take_nil, drop_nil.
    unfold update_element. assert (s32 (le_decode (overwrite (le_encode 4 ctype) [])) = ctype) as Hct.
    { change (overwrite (le_encode 4 ctype) []) with (le_encode 4 ctype). rewrite le_decode_encode. change (256 ^ Z.of_nat 4) with (2 ^ 32).
      rewrite Z.mod_small by lia. apply signed_id; [lia|]. unfold in_signed. lia. }
    assert (ctype = 0 \/ ctype = 1 \/ ctype = 2) as [-> | [-> | ->]] by lia; cbn [Z.eqb Pos.eqb andb]; rewrite !take_nil, !drop_nil, Hct; eexists; (split; [done|by split]). }
  assert (forall m s, I s -> exists s', loop_nat (conf_step host qqparse lock_ok nfy_ok self now) m s = inl s') as Hm.
  { induction m as [|m IH]; intros s HI; [by exists s|]. cbn [loop_nat]. destruct (Hstep s HI) as (s' & -> & HI'). by apply IH. }
  rewrite loop_loop_nat. apply Hm. by split.
Qed.
End EvlogdProps.

(** *** Concrete inputs *)

#[local] Existing Instance sample_regex.
#[local] Existing Instance sample_templates.

Definition one_facility_registry : _evlFacilityRegistry posix_log_query_t := mkReg 1 [mkFac 8 "user" 0 None None] 1.
(** One client, of user 500 and process 42. *)
Definition sample_daemon : daemon :=
  mkDaemon repeated_look sample_sink [mkClient 4 500 42] 99 0 one_facility_registry None [].
Definition sample_stream : list Z := entry_bytes sample_entry ++ [97; 98; 0].
Definition no_parser : str -> str + pnode := fun _ => inl EmptyString.
Definition sample_host : _evlFacilityRegistry posix_log_query_t -> Z -> HostLib := fun _ _ => bare_machine.
Definition no_facility : str -> _evlFacilityRegistry posix_log_query_t -> Z * _evlFacilityRegistry posix_log_query_t :=
  fun _ fr => (-1, fr).
#[local] Abbreviation sample_process :=
  (@Process_Event sample_regex sample_templates sample_host no_parser (fun _ => true) (fun _ => true) sample_self no_facility).

Lemma sample_daemon_ok : @daemon_ok sample_regex sample_templates sample_host no_parser sample_daemon.
Proof. split; [apply repeated_look_ok|by repeat constructor|done]. Qed.
Lemma sample_stream_sane : sane sample_stream.
Proof.
  apply client_sane; [|done|by split]. unfold entry_ok, in_unsigned, in_signed. vm_compute. split_and!; done.
Qed.

(** 8193 bytes of data. *)
Definition large_entry : posix_log_entry := mkEntry LOG_MAGIC_ARCH 0 8193 POSIX_LOG_STRING 7 8 6 500 500 42 42 0 0 0 1 0.
Lemma oversized_event_overruns_witness :
  sample_process 0 (next_buffer repeated_look) (entry_bytes large_entry ++ replicate (Z.to_nat 8193) 0) 120 sample_daemon = None.
Proof.
  apply (@oversized_event_overruns sample_regex sample_templates sample_host no_parser (fun _ => true) (fun _ => true)
    sample_self no_facility 0 (mkClient 4 500 42) sample_slot _ 120 sample_daemon 84 large_entry (replicate (Z.to_nat 8193) 0)).
  - done.
  - done.
  - apply header_received; [|done]. unfold entry_ok, in_unsigned, in_signed. vm_compute. split_and!; done.
  - done.
  - done.
  - by rewrite length_replicate.
Defined.
Lemma unknown_facility_is_not_logged_witness :
  @handle_event sample_regex sample_templates sample_host no_parser (fun _ => true) (fun _ => true) sample_self no_facility
    0 (mkEntry LOG_MAGIC_ARCH 0 0 POSIX_LOG_NODATA 7 1234 6 500 500 42 42 0 0 0 1 0) [] 120 sample_daemon =
  Some (0, set_facilities sample_daemon one_facility_registry).
Proof. apply (@unknown_facility_is_not_logged sample_regex sample_templates); [done|done|by left]. Defined.
Lemma configuration_spins_at_end_witness : exists s,
  loop (@conf_step sample_regex sample_host no_parser (fun _ => true) (fun _ => true) sample_self 120) 1000
    (mkConfState 0 10 [] None [] sample_daemon) = inl s.
Proof. apply (@configuration_spins_at_end sample_regex sample_host); lia. Defined.
