(* ===== verification/NfyMsg.v ===== *)
(** * Notification messages ([include/posix_evlog.h], [cmd/evlnotifyd/evlnotifyd.h])

    What the notification API and the notification daemon write to each other, and
    the records of the daemon's request file: C structs on a 64-bit little-endian
    machine.  Padding is written as zeros.  A [struct sigevent] is its 64 bytes. *)
From S2P Require Import Prelude NvPairs LogRecord.

(** [notifyMsgType_t] and [nfyRqStatus_t] *)
Definition nmtNewRequest : Z := 0.
Definition nmtGetRequestStatus : Z := 1.
Definition nmtRmRequest : Z := 2.
Definition nmtRequestStatus : Z := 3.
Definition nrsEnabled : Z := 0.
Definition nrsDisabled : Z := 1.
Definition nrsRemoved : Z := 2.
Definition nrsNoRequest : Z := 3.

Definition POSIX_LOG_ONCE_ONLY : Z := 0x01.
Definition POSIX_LOG_SEND_RECID : Z := 0x02.
Definition POSIX_LOG_SEND_SIGVAL : Z := 0x04.
Definition POSIX_LOG_NFY_DISABLED : Z := 0x08.
Definition POSIX_LOG_NFY_PENDING_REMOVE : Z := 0x512.

(** ** [struct sigevent] *)

Definition sigevent : Type := list Z.
Definition sigevent_size : nat := 64.
Definition SIGEV_SIGNAL : Z := 0.
Definition SIGEV_THREAD : Z := 2.
Definition sigev_value (s : sigevent) : list Z := take 8 s.
Definition sigev_signo (s : sigevent) : Z := s32 (le_decode (take 4 (drop 8 s))).
Definition sigev_notify (s : sigevent) : Z := s32 (le_decode (take 4 (drop 12 s))).
Definition sigevent_ok (s : sigevent) : Prop := length s = sigevent_size /\ Forall is_byte s.

(** ** Messages *)

Record nfyMsgHdr_t := mkMsgHdr { nhMsgType : Z; nhReqHandle : Z; nhStatus : Z }.
Record nfyNewRqMsg_t := mkNewRq {
  nwHeader : nfyMsgHdr_t; nwQueryLength : Z; nwSigevent : sigevent; nwFlags : Z
}.
Definition nfyMsgHdr_size : Z := 24.
Definition nfyNewRqMsg_size : Z := 104.

Definition msghdr_layout : list nat := [4; 4; 8; 4; 4]%nat.
Definition msghdr_bytes (m : nfyMsgHdr_t) : list Z :=
  encode_fields msghdr_layout [nhMsgType m; 0; nhReqHandle m; nhStatus m; 0].
Definition msghdr_of_bytes (bs : list Z) : nfyMsgHdr_t :=
  match decode_fields msghdr_layout bs with
  | [t; _; h; s; _] => mkMsgHdr (s32 t) h (s32 s)
  | _ => mkMsgHdr 0 0 0
  end.
Definition newrq_bytes (m : nfyNewRqMsg_t) : list Z :=
  msghdr_bytes (nwHeader m) ++ le_encode 8 (nwQueryLength m) ++ nwSigevent m ++ le_encode 4 (nwFlags m) ++ le_encode 4 0.
Definition newrq_of_bytes (bs : list Z) : nfyNewRqMsg_t :=
  mkNewRq (msghdr_of_bytes (take 24 bs)) (le_decode (take 8 (drop 24 bs))) (take 64 (drop 32 bs))
    (s32 (le_decode (take 4 (drop 96 bs)))).

Definition msghdr_ok (m : nfyMsgHdr_t) : Prop :=
  in_signed 32 (nhMsgType m) /\ in_unsigned 64 (nhReqHandle m) /\ in_signed 32 (nhStatus m).
Definition newrq_ok (m : nfyNewRqMsg_t) : Prop :=
  msghdr_ok (nwHeader m) /\ in_unsigned 64 (nwQueryLength m) /\ length (nwSigevent m) = sigevent_size /\
  in_signed 32 (nwFlags m).

(** ** Records of the request file *)

Record nfy_req_hdr_t := mkReqHdr { handle : Z; pid : Z; sd : Z; flags : Z }.
Record req_rec_hdr_t := mkReqRec {
  recMagic : Z; nfyhdr : nfy_req_hdr_t; sig_evt : sigevent; queryLen : Z; cmdLineLen : Z
}.
Definition req_rec_hdr_size : Z := 104.
Definition REQ_MAGIC : Z := 0xbeefface.

Definition reqhdr_layout : list nat := [8; 4; 4; 4; 4]%nat.
Definition reqhdr_bytes (h : nfy_req_hdr_t) : list Z :=
  encode_fields reqhdr_layout [handle h; pid h; sd h; flags h; 0].
Definition reqhdr_of_bytes (bs : list Z) : nfy_req_hdr_t :=
  match decode_fields reqhdr_layout bs with
  | [h; p; s; f; _] => mkReqHdr h (s32 p) (s32 s) (s32 f)
  | _ => mkReqHdr 0 0 0 0
  end.
(** [recMagic] is an [int] that is compared with an unsigned constant. *)
Definition reqrec_bytes (r : req_rec_hdr_t) : list Z :=
  le_encode 4 (recMagic r) ++ le_encode 4 0 ++ reqhdr_bytes (nfyhdr r) ++ sig_evt r ++
  le_encode 4 (queryLen r) ++ le_encode 4 (cmdLineLen r).
Definition reqrec_of_bytes (bs : list Z) : req_rec_hdr_t :=
  mkReqRec (le_decode (take 4 bs)) (reqhdr_of_bytes (take 24 (drop 8 bs))) (take 64 (drop 32 bs))
    (s32 (le_decode (take 4 (drop 96 bs)))) (s32 (le_decode (take 4 (drop 100 bs)))).

Definition reqhdr_ok (h : nfy_req_hdr_t) : Prop :=
  in_unsigned 64 (handle h) /\ in_signed 32 (pid h) /\ in_signed 32 (sd h) /\ in_signed 32 (flags h).
Definition reqrec_ok (r : req_rec_hdr_t) : Prop :=
  in_unsigned 32 (recMagic r) /\ reqhdr_ok (nfyhdr r) /\ length (sig_evt r) = sigevent_size /\
  in_signed 32 (queryLen r) /\ in_signed 32 (cmdLineLen r).

(** ** Round trips *)

Lemma word_unsigned w n z : n = 8 * Z.of_nat w -> in_unsigned n z -> le_decode (le_encode w z) = z.
Proof.
  intros -> [H0 H1]. rewrite le_decode_encode. apply Z.mod_small. split; [done|].
  replace (256 ^ Z.of_nat w) with (2 ^ (8 * Z.of_nat w)); [done|]. by rewrite Z.pow_mul_r by lia.
Qed.
Lemma word_signed z : in_signed 32 z -> s32 (le_decode (le_encode 4 z)) = z.
Proof.
  intros Hz. rewrite le_decode_encode. change (z mod 256 ^ Z.of_nat 4) with (u32 z).
  rewrite signed_unsigned by lia. by apply signed_id.
Qed.
Ltac words := repeat first
  [rewrite take_app_length' by (rewrite ?length_le_encode; done)
  |rewrite drop_app_length' by (rewrite ?length_le_encode; done)
  |rewrite word_signed by done
  |rewrite (word_unsigned 8 64) by done
  |rewrite (word_unsigned 4 32) by done].

Lemma length_msghdr m : length (msghdr_bytes m) = 24%nat.
Proof. unfold msghdr_bytes. by rewrite length_encode_fields. Qed.
Lemma length_reqhdr h : length (reqhdr_bytes h) = 24%nat.
Proof. unfold reqhdr_bytes. by rewrite length_encode_fields. Qed.
Lemma length_newrq m : length (nwSigevent m) = sigevent_size -> Z.of_nat (length (newrq_bytes m)) = nfyNewRqMsg_size.
Proof. intros Hs. unfold newrq_bytes. rewrite !length_app, length_msghdr, Hs, !length_le_encode. done. Qed.
Lemma length_reqrec r : length (sig_evt r) = sigevent_size -> Z.of_nat (length (reqrec_bytes r)) = req_rec_hdr_size.
Proof. intros Hs. unfold reqrec_bytes. rewrite !length_app, length_reqhdr, Hs, !length_le_encode. done. Qed.

Lemma msghdr_roundtrip m : msghdr_ok m -> msghdr_of_bytes (msghdr_bytes m) = m.
Proof.
  intros (H1 & H2 & H3). unfold msghdr_of_bytes, msghdr_bytes, msghdr_layout. cbn [encode_fields decode_fields].
  words. by destruct m.
Qed.
Lemma reqhdr_roundtrip h : reqhdr_ok h -> reqhdr_of_bytes (reqhdr_bytes h) = h.
Proof.
  intros (H1 & H2 & H3 & H4). unfold reqhdr_of_bytes, reqhdr_bytes, reqhdr_layout. cbn [encode_fields decode_fields].
  words. by destruct h.
Qed.
Lemma newrq_roundtrip m : newrq_ok m -> newrq_of_bytes (newrq_bytes m) = m.
Proof.
  intros (Hh & Hq & Hs & Hf). unfold newrq_of_bytes, newrq_bytes.
  replace (drop 32 _) with (nwSigevent m ++ le_encode 4 (nwFlags m) ++ le_encode 4 0).
  2: { rewrite (app_assoc (msghdr_bytes _)), drop_app_length'; [done|]. by rewrite length_app, length_msghdr, length_le_encode. }
  replace (drop 96 _) with (le_encode 4 (nwFlags m) ++ le_encode 4 0).
  2: { rewrite (app_assoc (msghdr_bytes _)), (app_assoc (_ ++ _)), drop_app_length'; [done|].
       by rewrite !length_app, length_msghdr, length_le_encode, Hs. }
  rewrite take_app_length', (drop_app_length' (msghdr_bytes _)), msghdr_roundtrip by (done || by rewrite length_msghdr).
  rewrite (take_app_length' (nwSigevent m)) by (by rewrite Hs). words. by destruct m.
Qed.
Lemma reqrec_roundtrip r : reqrec_ok r -> reqrec_of_bytes (reqrec_bytes r) = r.
Proof.
  intros (Hm & Hh & Hs & Hq & Hc). unfold reqrec_of_bytes, reqrec_bytes.
  set (tl := le_encode 4 (queryLen r) ++ le_encode 4 (cmdLineLen r)).
  replace (drop 8 _) with (reqhdr_bytes (nfyhdr r) ++ sig_evt r ++ tl) by (by rewrite (app_assoc (le_encode 4 _)), drop_app_length').
  replace (drop 32 _) with (sig_evt r ++ tl).
  2: { rewrite (app_assoc (le_encode 4 _)), (app_assoc (_ ++ _)), drop_app_length'; [done|]. by rewrite !length_app, length_reqhdr. }
  replace (drop 96 _) with tl.
  2: { rewrite (app_assoc (le_encode 4 _)), (app_assoc (_ ++ _)), (app_assoc ((_ ++ _) ++ _)), drop_app_length'; [done|].
       by rewrite !length_app, length_reqhdr, Hs. }
  replace (drop 100 _) with (le_encode 4 (cmdLineLen r)).
  2: { unfold tl. rewrite (app_assoc (le_encode 4 _)), (app_assoc (_ ++ _)), (app_assoc ((_ ++ _) ++ _)), (app_assoc (((_ ++ _) ++ _) ++ _)), drop_app_length'; [done|].
       by rewrite !length_app, length_reqhdr, Hs. }
  rewrite (take_app_length' (reqhdr_bytes _)), reqhdr_roundtrip by (done || by rewrite length_reqhdr).
  rewrite (take_app_length' (sig_evt r)) by (by rewrite Hs). unfold tl. words.
  rewrite (take_ge (le_encode 4 _)) by done. rewrite word_signed by done. by destruct r as [? [] ? ? ?].
Qed.
