(* ===== verification/Notifyd.v ===== *)
(** * The notification daemon ([cmd/evlnotifyd])

    Clients register requests (a query, a signal); the daemon reads the records that
    evlogd writes and signals the processes whose queries match.  The requests are kept
    in a list and in a file, which is read when the daemon starts.  The list is the
    ring of [EvlList] without its dataless head; the operations of the rings are in
    that file.  The process table and the outcomes of socket writes and of signals are
    arguments.  [None] is undefined behaviour. *)
From Stdlib Require Import Sorted.
From S2P Require Import Prelude NvPairs LogRecord FacReg Hosts MemStr Query QEvaluate QSamples QueryApi Files NfyMsg.

Definition MAX_PROGRAM_NAME : nat := 64.
Definition MAX_LIST_DIRTY_COUNT : Z := 100.
Definition CLIENT_SLOT_AVAILABLE : Z := -100.

Section Notifyd.
Context `{HL : HostLib} `{RL : RegexLib} `{TL : TemplateLib}.
Variable qqparse : str -> str + pnode.
(** [/proc/<pid>/cmdline], when it can be read. *)
Variable cmdline : Z -> option (list Z).
(** The outcome of the [k]th [write] to a connected client, and of the [k]th signal. *)
Variables (write_ok signal_ok : nat -> bool).
(** Can [malloc] give that many bytes? *)
Variable malloc_ok : Z -> bool.

Record nfyReq_t := mkReq {
  rq_hdr : nfy_req_hdr_t;
  nfy_sigevent : sigevent;
  nfy_query : option posix_log_query_t;     (* [None]: [qu_tree] is null *)
  procCmd : option str
}.
Record clientinfo_t := mkClient { ci_sd : Z; ci_uid : Z; ci_pid : Z; numofreg : Z }.
(** A signal as it is queued: to whom, and [si_signo], [si_errno] and [si_sigval]. *)
Record signal_t := mkSignal { to_pid : Z; si_signo : Z; si_errno : Z; si_sigval : list Z }.

(** What [select] is asked for. *)
Record watch := mkWatch { all_sds : gset Z; maxsd : Z; maxci : Z; evlogd_sd : Z }.
Definition FD_SETSIZE : Z := 1024.
(** Of a descriptor outside the set: undefined. *)
Definition FD_SET (d : Z) (w : watch) : option watch :=
  if (0 <=? d) && (d <? FD_SETSIZE) then Some (mkWatch ({[d]} ∪ all_sds w) (maxsd w) (maxci w) (evlogd_sd w)) else None.
Definition FD_CLR (d : Z) (w : watch) : option watch :=
  if (0 <=? d) && (d <? FD_SETSIZE) then Some (mkWatch (all_sds w ∖ {[d]}) (maxsd w) (maxci w) (evlogd_sd w)) else None.
Definition set_maxsd (m : Z) (w : watch) : watch := mkWatch (all_sds w) m (maxci w) (evlogd_sd w).
Definition set_maxci (m : Z) (w : watch) : watch := mkWatch (all_sds w) (maxsd w) m (evlogd_sd w).
Definition set_evlogd (d : Z) (w : watch) : watch := mkWatch (all_sds w) (maxsd w) (maxci w) d.

Record nfyd := mkNfyd {
  pNfyReqList : list nfyReq_t;
  notifyReqHandle : Z;
  list_dirty_ctr : Z;
  nclients : list clientinfo_t;
  req_file : option (list Z);          (* the request file *)
  replies : list (Z * list Z);         (* what was written, with the descriptor *)
  signals : list signal_t;
  writes : nat;
  sigs : nat;
  fds : watch
}.
Definition set_list (l : list nfyReq_t) (s : nfyd) : nfyd :=
  mkNfyd l (notifyReqHandle s) (list_dirty_ctr s) (nclients s) (req_file s) (replies s) (signals s) (writes s) (sigs s) (fds s).
Definition set_handle (h : Z) (s : nfyd) : nfyd :=
  mkNfyd (pNfyReqList s) h (list_dirty_ctr s) (nclients s) (req_file s) (replies s) (signals s) (writes s) (sigs s) (fds s).
Definition set_dirty (n : Z) (s : nfyd) : nfyd :=
  mkNfyd (pNfyReqList s) (notifyReqHandle s) n (nclients s) (req_file s) (replies s) (signals s) (writes s) (sigs s) (fds s).
Definition set_clients (c : list clientinfo_t) (s : nfyd) : nfyd :=
  mkNfyd (pNfyReqList s) (notifyReqHandle s) (list_dirty_ctr s) c (req_file s) (replies s) (signals s) (writes s) (sigs s) (fds s).
Definition set_file (f : option (list Z)) (s : nfyd) : nfyd :=
  mkNfyd (pNfyReqList s) (notifyReqHandle s) (list_dirty_ctr s) (nclients s) f (replies s) (signals s) (writes s) (sigs s) (fds s).
Definition set_fds (w : watch) (s : nfyd) : nfyd :=
  mkNfyd (pNfyReqList s) (notifyReqHandle s) (list_dirty_ctr s) (nclients s) (req_file s) (replies s) (signals s) (writes s) (sigs s) w.
Definition set_flags (f : Z) (r : nfyReq_t) : nfyReq_t :=
  mkReq (mkReqHdr (handle (rq_hdr r)) (pid (rq_hdr r)) (sd (rq_hdr r)) f) (nfy_sigevent r) (nfy_query r) (procCmd r).

(** ** Processes *)

Definition getProcessCmd (p : Z) : option str := (fun b => cstring (take MAX_PROGRAM_NAME b)) <$> cmdline p.
(** -1 when no such process runs that program; [strcmp] of a null pointer is undefined. *)
Definition validateProc (p : Z) (cmd_str : option str) : option Z :=
  match cmdline p with
  | None => Some (-1)
  | Some b => cmd ← cmd_str; Some (if streqb cmd (cstring (take MAX_PROGRAM_NAME b)) then 0 else -1)
  end.

(** ** The request file *)

(** The temporary copy, or -1.  [creat] and [trunc] are the flags; the file itself is
    opened with them. *)
Definition openReqFile (creat trunc : bool) (s : nfyd) : option (list Z) * nfyd :=
  match req_file s with
  | None => if creat then (Some [], set_file (Some []) s) else (None, s)
  | Some b => let b := if trunc then [] else b in (Some b, set_file (Some b) s)
  end.
(** [rename] of the copy. *)
Definition closeReqFile (tmp : list Z) (success : bool) (s : nfyd) : nfyd :=
  if success then set_file (Some tmp) s else s.

(** The text of a request's query. *)
Definition query_text (q : option posix_log_query_t) : option str :=
  match q with None => Some "<null>"%string | Some q => qu_expr q end.
(** The bytes that are written, or [Some None] for -1. *)
Definition writeReqToFile (r : nfyReq_t) : option (option (list Z)) :=
  match procCmd r with
  | None => Some None
  | Some cmd =>
      text ← query_text (nfy_query r);
      Some (Some (reqrec_bytes (mkReqRec REQ_MAGIC (rq_hdr r) (nfy_sigevent r) (strlen text) (strlen cmd))
                  ++ bytes_of text ++ bytes_of cmd))
  end.
Fixpoint write_reqs (l : list nfyReq_t) (tmp : list Z) : option (option (list Z)) :=
  match l with
  | [] => Some (Some tmp)
  | r :: l' =>
      b ← writeReqToFile r;
      match b with None => Some None | Some b => write_reqs l' (tmp ++ b) end
  end.
Definition writeRequestsToFile (s : nfyd) : option (Z * nfyd) :=
  match openReqFile false true s with
  | (None, s) => Some (-1, s)
  | (Some tmp, s) =>
      b ← write_reqs (pNfyReqList s) tmp;
      Some (match b with None => (-1, closeReqFile tmp false s) | Some b => (0, closeReqFile b true s) end)
  end.
Definition appendReqToFile (r : nfyReq_t) (s : nfyd) : option (Z * nfyd) :=
  match openReqFile true false s with
  | (None, s) => Some (-1, s)
  | (Some tmp, s) =>
      b ← writeReqToFile r;
      Some (match b with None => (-1, closeReqFile tmp false s) | Some b => (0, closeReqFile (tmp ++ b) true s) end)
  end.

Definition idle_parser : parser_state := mkParser false PNull None EmptyString.
Definition create (text : str) (purpose : Z) : option (Z * option posix_log_query_t) :=
  r ← posix_log_query_create qqparse (Some text) purpose true (Some 200) idle_parser;
  Some (cr_status r, cr_query r).
(** The purposes that [loadReqFromFile] tries, in order. *)
Definition load_query (text : str) : option (Z * option posix_log_query_t) :=
  if streqb text "<null>" then Some (0, None)
  else
    '(st, q) ← create text POSIX_LOG_PRPS_NOTIFY;
    if st =? 0 then Some (st, q)
    else
      '(st, q) ← create text POSIX_LOG_PRPS_NOTIFY;
      if st =? 0 then Some (st, q) else create text EVL_PRPS_TEMPLATE.

(** The number of bytes read and [*rec], of which a short read fills a part. *)
Definition readNextReqHdrFromFile (rec file : list Z) : Z * list Z * list Z :=
  let got := take (Z.to_nat req_rec_hdr_size) file in
  (Z.of_nat (length got), overwrite rec got, drop (Z.to_nat req_rec_hdr_size) file).
(** The bytes, or [None] for -1. *)
Definition readNextQueryStrFromFile (len : Z) (file : list Z) : option (list Z) * list Z :=
  let got := take (Z.to_nat len) file in
  (if Z.of_nat (length got) =? len then Some got else None, drop (Z.to_nat len) file).
Definition readNextCmdStrFromFile (len : Z) (file : list Z) : option (list Z) * list Z :=
  let got := take (Z.to_nat len) file in
  (if Z.of_nat (length got) =? len then Some got else None, drop (Z.to_nat len) file).
(** [malloc(len + 1)] and the string that is read into it: [None] for -1.  No block has
    more than [2^63] bytes; a block of none for a length of -1 is overrun. *)
Definition read_string (read : Z -> list Z -> option (list Z) * list Z) (len : Z) (file : list Z)
  : option (option (list Z) * list Z) :=
  if len =? -1 then None else if len <? -1 then Some (None, file) else Some (read len file).
(** The loop over the records. *)
Fixpoint load_reqs (fuel : nat) (rec : list Z) (file : list Z) (s : nfyd) : option (Z * nfyd) :=
  match fuel with
  | O => None
  | S fuel =>
      let '(n, rec, file) := readNextReqHdrFromFile rec file in
      if n <=? 0 then Some (0, s)
      else
        let r := reqrec_of_bytes rec in
        if negb (recMagic r =? REQ_MAGIC) then Some (-1, s)
        else
          '(query, file) ← read_string readNextQueryStrFromFile (queryLen r) file;
          match query with
          | None => Some (-1, s)
          | Some query =>
              '(cmd, file) ← read_string readNextCmdStrFromFile (cmdLineLen r) file;
              match cmd with
              | None => Some (-1, s)
              | Some cmd =>
                  let cmd := cstring cmd in
                  alive ← validateProc (pid (nfyhdr r)) (Some cmd);
                  if alive =? -1 then load_reqs fuel rec file s
                  else
                    '(st, q) ← load_query (cstring query);
                    if negb (st =? 0) then Some (-1, s)
                    else
                      let s := set_handle (handle (nfyhdr r)) s in
                      let h := mkReqHdr (handle (nfyhdr r)) (pid (nfyhdr r)) (-1) (flags (nfyhdr r)) in
                      load_reqs fuel rec file (set_list (pNfyReqList s ++ [mkReq h (sig_evt r) q (Some cmd)]) s)
              end
          end
  end.
(** [rec] starts uninitialized. *)
Definition loadReqFromFile (rec : list Z) (s : nfyd) : option (Z * nfyd) :=
  match openReqFile true false s with
  | (None, s) => Some (-1, s)
  | (Some tmp, s) =>
      '(st, s) ← load_reqs (S (length tmp)) rec tmp s;
      Some (st, closeReqFile tmp (st =? 0) s)
  end.

(** ** The request list *)

Definition findRequest (h : Z) (s : nfyd) : option nfyReq_t :=
  snd <$> list_find (fun r => handle (rq_hdr r) = h) (pNfyReqList s).
Definition removeRequestsWithSD (d : Z) (s : nfyd) : nfyd :=
  set_list (List.filter (fun r => negb (sd (rq_hdr r) =? d)) (pNfyReqList s)) s.
Fixpoint remove_zombies (l : list nfyReq_t) : option (list nfyReq_t) :=
  match l with
  | [] => Some []
  | r :: l' =>
      if Z.land (flags (rq_hdr r)) POSIX_LOG_NFY_PENDING_REMOVE =? POSIX_LOG_NFY_PENDING_REMOVE then remove_zombies l'
      else
        alive ← validateProc (pid (rq_hdr r)) (procCmd r);
        l' ← remove_zombies l';
        Some (if alive =? -1 then l' else r :: l')
  end.
Definition removeZombieRequestsInList (s : nfyd) : option nfyd :=
  l ← remove_zombies (pNfyReqList s); Some (set_list l s).
Definition flushRequestList (s : nfyd) : option (Z * nfyd) :=
  s ← removeZombieRequestsInList s; writeRequestsToFile s.
(** The list is saved after every hundredth change. *)
Definition count_change (s : nfyd) : option nfyd :=
  let s := set_dirty (list_dirty_ctr s + 1) s in
  if list_dirty_ctr s >=? MAX_LIST_DIRTY_COUNT
  then '(_, s) ← flushRequestList s; Some (set_dirty 0 s)
  else Some s.
Definition removeRequestWithHandle (h : Z) (s : nfyd) : option (Z * nfyd) :=
  match list_find (fun r => handle (rq_hdr r) = h) (pNfyReqList s) with
  | None => Some (-1, s)
  | Some (i, _) =>
      s ← count_change (set_list (delete i (pNfyReqList s)) s);
      Some (0, s)
  end.
Definition disableRequest (h : Z) (s : nfyd) : option (Z * nfyd) :=
  match list_find (fun r => handle (rq_hdr r) = h) (pNfyReqList s) with
  | None => Some (-1, s)
  | Some (i, r) =>
      let r := set_flags (Z.lor (flags (rq_hdr r)) POSIX_LOG_NFY_DISABLED) r in
      s ← count_change (set_list (<[i := r]> (pNfyReqList s)) s);
      Some (0, s)
  end.

(** ** Clients *)

(** [_evlReadEx]: the bytes read, or -1; and what is left. *)
Definition _evlReadEx (len : Z) (stream : list Z) : option (list Z) * list Z :=
  let moreBytes := s32 len in
  if moreBytes <=? 0 then (Some [], stream)
  else if Z.of_nat (length stream) <? moreBytes then (None, [])
  else (Some (take (Z.to_nat moreBytes) stream), drop (Z.to_nat moreBytes) stream).

(** One [write] to a client: positive or -1. *)
Definition reply (d : Z) (data : list Z) (s : nfyd) : bool * nfyd :=
  let k := writes s in
  let ok := (0 <=? d) && write_ok k in
  (ok, mkNfyd (pNfyReqList s) (notifyReqHandle s) (list_dirty_ctr s) (nclients s) (req_file s)
         (if ok then replies s ++ [(d, data)] else replies s) (signals s) (S k) (sigs s) (fds s)).
Definition writeRequestStatus (d h status : Z) (s : nfyd) : Z * nfyd :=
  let '(ok, s) := reply d (msghdr_bytes (mkMsgHdr nmtRequestStatus h status)) s in
  (if ok then 0 else -1, s).

(** The last slot in use, or -1. *)
Fixpoint getMaxClientIndex (l : list clientinfo_t) (i acc : Z) : Z :=
  match l with
  | [] => acc
  | c :: l' => getMaxClientIndex l' (i + 1) (if ci_sd c =? CLIENT_SLOT_AVAILABLE then acc else i)
  end.
Definition greatest_sd (l : list clientinfo_t) : Z := fold_right (fun c m => Z.max (ci_sd c) m) 0 l.
(** [maxci] and [maxsd] after [closed] was closed. *)
Definition shrink (closed : Z) (l : list clientinfo_t) (w : watch) : watch :=
  if maxsd w =? evlogd_sd w then w
  else
    let w := set_maxci (getMaxClientIndex l 0 (-1)) w in
    let new_maxsd := greatest_sd (take (Z.to_nat (maxci w + 1)) l) in
    if (new_maxsd =? 0) && (closed =? maxsd w) then set_maxsd (maxsd w - 1) w
    else if negb (new_maxsd =? 0) then set_maxsd (if new_maxsd <? evlogd_sd w then evlogd_sd w else new_maxsd) w
    else w.
Definition closeClientSocket (i : nat) (removeRequests : bool) (s : nfyd) : option nfyd :=
  ci ← nclients s !! i;
  w ← FD_CLR (ci_sd ci) (fds s);
  let closed := ci_sd ci in
  let ci := mkClient CLIENT_SLOT_AVAILABLE (ci_uid ci) (ci_pid ci) (numofreg ci) in
  let s := set_clients (<[i := ci]> (nclients s)) s in
  let s := if removeRequests then removeRequestsWithSD (ci_sd ci) s else s in
  Some (set_fds (shrink closed (nclients s) w) s).
Definition closeSocket (d : Z) (s : nfyd) : option nfyd :=
  w ← FD_CLR d (fds s);
  Some (set_fds (if d =? maxsd w then set_maxsd (maxsd w - 1) w else w) s).

(** The result is a [HANDLE], an unsigned word, also when it is a negated error. *)
Definition registerRequest (ci : clientinfo_t) (m : nfyNewRqMsg_t) (queryStr : str) (query_flags : Z) (s : nfyd)
  : option (Z * nfyd) :=
  '(status, q) ← (if streqb queryStr "<null>" then Some (0, None) else create queryStr query_flags);
  if negb (status =? 0) then Some (u64 (- EINVAL), s)
  else if negb (sigev_notify (nwSigevent m) =? SIGEV_SIGNAL) then Some (u64 (- EINVAL), s)
  else
    let h := u64 (notifyReqHandle s + 1) in
    let r := mkReq (mkReqHdr h (ci_pid ci) (ci_sd ci) (nwFlags m)) (nwSigevent m) q (getProcessCmd (ci_pid ci)) in
    let s := set_list (pNfyReqList s ++ [r]) (set_handle h s) in
    '(_, s) ← appendReqToFile r s;
    Some (notifyReqHandle s, s).

Definition change_numofreg (i : nat) (by_ : Z) (s : nfyd) : option nfyd :=
  ci ← nclients s !! i;
  Some (set_clients (<[i := mkClient (ci_sd ci) (ci_uid ci) (ci_pid ci) (s32 (numofreg ci + by_))]> (nclients s)) s).
Definition close (i : nat) (r : Z) (s : nfyd) : option (Z * nfyd) :=
  s ← closeClientSocket i true s; Some (r, s).

(** [case nmtNewRequest]; [stream] is what follows the header. *)
Definition new_request (i : nat) (m : nfyNewRqMsg_t) (stream : list Z) (s : nfyd) : option (Z * nfyd) :=
  let size := u64 (nwQueryLength m + 1) in
  if negb (malloc_ok size) then Some (-1, s)
  else
    match _evlReadEx (nwQueryLength m) stream with
    | (None, _) => close i (-1) s
    | (Some query, stream) =>
        if size <=? Z.of_nat (length query) then None           (* [queryStr[nbytesRead] = '\0'] *)
        else
          match _evlReadEx 4 stream with
          | (None, _) => close i (-1) s
          | (Some fl, _) =>
              ci ← nclients s !! i;
              '(h, s) ← registerRequest ci m (cstring query) (s32 (le_decode fl)) s;
              '(status, s) ← (if h <? 0 then Some (s32 h, s)
                              else s ← change_numofreg i 1 s; Some (nrsEnabled, s));
              let '(st, s) := writeRequestStatus (ci_sd ci) h status s in
              if negb (st =? 0) then close i (-1) s else Some (0, s)
          end
    end.
Definition rm_request (i : nat) (m : nfyNewRqMsg_t) (s : nfyd) : option (Z * nfyd) :=
  let h := nhReqHandle (nwHeader m) in
  ci ← nclients s !! i;
  '(st, s) ← removeRequestWithHandle h s;
  '(status, s) ← (if st =? -1 then Some (nrsNoRequest, s) else s ← change_numofreg i (-1) s; Some (nrsRemoved, s));
  let '(st, s) := writeRequestStatus (ci_sd ci) h status s in
  if negb (st =? 0) then close i 0 s else Some (0, s).

(** A write to a client whose socket may have been closed by now. *)
Definition send (i : nat) (data : list Z) (s : nfyd) : option nfyd :=
  ci ← nclients s !! i;
  let '(ok, s) := reply (ci_sd ci) data s in
  if ok then Some s else closeClientSocket i true s.
(** [nhMsgType] of the reply is not set. *)
Definition get_request_status (i : nat) (m : nfyNewRqMsg_t) (garbage : Z) (s : nfyd) : option (Z * nfyd) :=
  let h := nhReqHandle (nwHeader m) in
  let req := findRequest h s in
  let status := match req with
                | None => nrsNoRequest
                | Some r => if Z.land (flags (rq_hdr r)) POSIX_LOG_NFY_DISABLED =? 0 then nrsEnabled else nrsDisabled
                end in
  s ← send i (msghdr_bytes (mkMsgHdr nmtRequestStatus h status)) s;
  match req with
  | None => Some (0, s)
  | Some r =>
      text ← (match nfy_query r with None => Some EmptyString | Some q => qu_expr q end);
      s ← send i (newrq_bytes (mkNewRq (mkMsgHdr garbage h status) (strlen text) (nfy_sigevent r) (flags (rq_hdr r)))) s;
      s ← (if strlen text >? 0 then send i (bytes_of text) s else Some s);
      Some (0, s)
  end.

Definition processClientRequest (i : nat) (stream : list Z) (garbage : Z) (s : nfyd) : option (Z * nfyd) :=
  match _evlReadEx nfyNewRqMsg_size stream with
  | (None, _) => close i (-1) s
  | (Some bs, stream) =>
      let m := newrq_of_bytes bs in
      let t := nhMsgType (nwHeader m) in
      if t =? nmtNewRequest then new_request i m stream s
      else if t =? nmtRmRequest then rm_request i m s
      else if t =? nmtGetRequestStatus then get_request_status i m garbage s
      else if t =? nmtRequestStatus then Some (0, s)
      else Some (-1, s)
  end.

(** ** Events *)

(** [syscall(SYS_rt_sigqueueinfo, ...)]: 0, or -1 with [errno]. *)
Definition sigqueue (x : signal_t) (s : nfyd) : Z * nfyd :=
  let k := sigs s in
  let ok := signal_ok k in
  (if ok then 0 else -1,
   mkNfyd (pNfyReqList s) (notifyReqHandle s) (list_dirty_ctr s) (nclients s) (req_file s) (replies s)
     (if ok then signals s ++ [x] else signals s) (writes s) (S k) (fds s)).
Definition ESRCH : Z := 3.

(** One request: its new flags. *)
Definition offer_event (e : posix_log_entry) (recbuf : option (list Z)) (r : nfyReq_t) (s : nfyd)
  : option (nfyReq_t * nfyd) :=
  let fl := flags (rq_hdr r) in
  if negb (Z.land fl POSIX_LOG_NFY_DISABLED =? 0) then Some (r, s)
  else
    matches ← (match nfy_query r with
               | None => Some true
               | Some q => m ← posix_log_query_match (Some q) (Some e) recbuf true;
                           Some (match m with inr b => b | inl _ => false end)
               end);
    if negb (matches : bool) then Some (r, s)
    else
      alive ← validateProc (pid (rq_hdr r)) (procCmd r);
      if alive =? -1
      then Some (set_flags (Z.lor fl (Z.lor POSIX_LOG_NFY_DISABLED POSIX_LOG_NFY_PENDING_REMOVE)) r, s)
      else
        let x := mkSignal (pid (rq_hdr r)) (sigev_signo (nfy_sigevent r)) (log_recid e) (sigev_value (nfy_sigevent r)) in
        let '(ret, s) := sigqueue x s in
        let fl := if ret =? - ESRCH then Z.lor fl (Z.lor POSIX_LOG_NFY_DISABLED POSIX_LOG_NFY_PENDING_REMOVE) else fl in
        let fl := if negb (Z.land fl POSIX_LOG_ONCE_ONLY =? 0) then Z.lor fl POSIX_LOG_NFY_DISABLED else fl in
        Some (set_flags fl r, s).
Fixpoint offer_all (e : posix_log_entry) (recbuf : option (list Z)) (l : list nfyReq_t) (s : nfyd)
  : option (list nfyReq_t * nfyd) :=
  match l with
  | [] => Some ([], s)
  | r :: l' =>
      '(r, s) ← offer_event e recbuf r s;
      '(l', s) ← offer_all e recbuf l' s;
      Some (r :: l', s)
  end.
(** The record's data is read into [buf[POSIX_LOG_ENTRY_MAXLEN]]. *)
Definition processEvent (d : Z) (stream : list Z) (s : nfyd) : option (Z * nfyd) :=
  match _evlReadEx REC_HDR_SIZE stream with
  | (None, _) => s ← closeSocket d s; Some (-1, s)
  | (Some hdr, stream) =>
      let e := entry_of_bytes hdr in
      if log_size e <=? 0 then
        '(l, s) ← offer_all e None (pNfyReqList s) s; Some (0, set_list l s)
      else
        match _evlReadEx (log_size e) stream with
        | (None, _) => s ← closeSocket d s; Some (-1, s)
        | (Some data, _) =>
            if Z.of_nat (length data) >? POSIX_LOG_ENTRY_MAXLEN then None
            else '(l, s) ← offer_all e (Some data) (pNfyReqList s) s; Some (0, set_list l s)
        end
  end.

(** ** The main loop *)

Definition NFY_ACCESS_DENIED : Z := 0xfa.
Definition NFY_ACCESS_GRANTED : Z := 0xac.
Definition NFY_MAX_CLIENTS : Z := 0xca.

Definition watch_new (newsd : Z) (w : watch) : option watch :=
  w ← FD_SET newsd w; Some (set_maxsd (Z.max (maxsd w) newsd) w).
Definition accept_evlogd (newsd : Z) (s : nfyd) : option nfyd :=
  w ← watch_new newsd (fds s); Some (set_fds (set_evlogd newsd w) s).
(** [maxci], and the first free slot. *)
Fixpoint free_slot (l : list clientinfo_t) (idx : nat) (m : Z) (empty : option nat) : Z * option nat :=
  match l with
  | [] => (m, empty)
  | c :: l' =>
      if negb (ci_sd c =? CLIENT_SLOT_AVAILABLE) then free_slot l' (S idx) (Z.of_nat idx) empty
      else match empty with
           | None => free_slot l' (S idx) (Z.of_nat idx) (Some idx)
           | Some _ => free_slot l' (S idx) m empty
           end
  end.
(** [cred]: the peer's ids, when they are known; [allowed]: can the user open one of the
    logs? *)
Definition accept_client (newsd : Z) (cred : option (Z * Z)) (allowed : bool) (s : nfyd) : option nfyd :=
  let '(m, empty) := free_slot (nclients s) 0 0 None in
  let s := set_fds (set_maxci m (fds s)) s in
  match empty, cred with
  | None, _ => Some (snd (reply newsd [NFY_MAX_CLIENTS] s))
  | Some i, None => Some s
  | Some i, Some (uid, pid) =>
      if allowed then
        c ← nclients s !! i;
        let s := snd (reply newsd [NFY_ACCESS_GRANTED] s) in
        w ← watch_new newsd (fds s);
        Some (set_fds w (set_clients (<[i := mkClient newsd uid pid (numofreg c)]> (nclients s)) s))
      else Some (snd (reply newsd [NFY_ACCESS_DENIED] s))
  end.

(** The clients from slot [i] to [maxci]; [ready] gives what can be read from a
    descriptor of [read_sds]; [garbage] is uninitialized memory. *)
Fixpoint serve_clients (fuel : nat) (i : nat) (ready : Z -> option (list Z)) (garbage : Z) (s : nfyd) : option nfyd :=
  if maxci (fds s) <? Z.of_nat i then Some s
  else
    match fuel with
    | O => None
    | S fuel =>
        c ← nclients s !! i;
        s ← (if ci_sd c =? CLIENT_SLOT_AVAILABLE then Some s
             else match ready (ci_sd c) with
                  | None => Some s
                  | Some stream => '(_, s) ← processClientRequest i stream garbage s; Some s
                  end);
        serve_clients fuel (S i) ready garbage s
    end.
(** What one [select] reports: new connections of evlogd and of a client, and the
    descriptors with data. *)
Record selected := mkSelected {
  from_evlogd : option Z;
  from_client : option (Z * option (Z * Z) * bool);
  readable : Z -> option (list Z)
}.
Definition serve_evlogd (ready : Z -> option (list Z)) (s : nfyd) : option nfyd :=
  let d := evlogd_sd (fds s) in
  if d >? 0 then
    match ready d with
    | None => Some s
    | Some stream =>
        '(r, s) ← processEvent d stream s;
        Some (if r =? -1 then set_fds (set_evlogd 0 (fds s)) s else s)
    end
  else Some s.
Definition iteration (x : selected) (garbage : Z) (s : nfyd) : option nfyd :=
  s ← match from_evlogd x with None => Some s | Some d => accept_evlogd d s end;
  s ← match from_client x with None => Some s | Some (d, cred, allowed) => accept_client d cred allowed s end;
  s ← serve_evlogd (readable x) s;
  serve_clients (S (length (nclients s))) 0 (readable x) garbage s.

(** Where it starts and how it ends. *)
Definition MAX_CLIENTS : nat := 128.
Definition initClients (c : list clientinfo_t) : list clientinfo_t :=
  (fun c => mkClient CLIENT_SLOT_AVAILABLE (ci_uid c) (ci_pid c) 0) <$> c.
Definition SIGTERM_handler (s : nfyd) : option nfyd :=
  '(_, s) ← flushRequestList s; Some (set_list [] s).
End Notifyd.

(** Reading what was sent. *)
Lemma read_ex_app n (a rest : list Z) : n = Z.of_nat (length a) -> n < 2 ^ 31 -> _evlReadEx n (a ++ rest) = (Some a, rest).
Proof.
  intros -> Hn. unfold _evlReadEx. rewrite signed_id by (try lia; unfold in_signed; lia). destruct (_ <=? 0) eqn:E.
  - destruct a; [done|cbn in E; zb].
  - rewrite length_app. destruct (_ <? _) eqn:E2; [zb|]. by rewrite Nat2Z.id, take_app_length, drop_app_length.
Qed.

(** ** The request file is read back *)

Section RequestFile.
Context `{HL : HostLib} `{RL : RegexLib} `{TL : TemplateLib}.
Variable qqparse : str -> str + pnode.
Variable cmdline : Z -> option (list Z).

(** A request that can be written, and whose query is built again from its text. *)
Record req_ok (r : nfyReq_t) : Prop := {
  ro_hdr : reqhdr_ok (rq_hdr r);
  ro_event : length (nfy_sigevent r) = sigevent_size;
  ro_cmd : exists cmd, procCmd r = Some cmd /\ no_nul cmd = true /\ strlen cmd < 2 ^ 31;
  ro_query : exists text, query_text (nfy_query r) = Some text /\ no_nul text = true /\ strlen text < 2 ^ 31 /\
    load_query qqparse text = Some (0, nfy_query r)
}.
(** What is restored of it: the connection is gone. *)
Definition restored (r : nfyReq_t) : nfyReq_t :=
  mkReq (mkReqHdr (handle (rq_hdr r)) (pid (rq_hdr r)) (-1) (flags (rq_hdr r))) (nfy_sigevent r) (nfy_query r) (procCmd r).
Definition alive (r : nfyReq_t) : bool :=
  match validateProc cmdline (pid (rq_hdr r)) (procCmd r) with Some z => negb (z =? -1) | None => false end.

Lemma write_req_ok r : req_ok r -> exists text cmd,
  writeReqToFile r = Some (Some (reqrec_bytes (mkReqRec REQ_MAGIC (rq_hdr r) (nfy_sigevent r) (strlen text) (strlen cmd))
                            ++ bytes_of text ++ bytes_of cmd)) /\
  procCmd r = Some cmd /\ no_nul cmd = true /\ strlen cmd < 2 ^ 31 /\
  no_nul text = true /\ strlen text < 2 ^ 31 /\ load_query qqparse text = Some (0, nfy_query r).
Proof.
  intros [_ _ (cmd & Hc & Hcn & Hcl) (text & Ht & Htn & Htl & Hq)]. exists text, cmd. unfold writeReqToFile.
  rewrite Hc, Ht. split_and!; done.
Qed.
Lemma strlen_bytes_of s : Z.of_nat (length (bytes_of s)) = strlen s.
Proof. unfold strlen. induction s as [|c s IH]; [done|]. cbn [bytes_of length String.length]. lia. Qed.

Lemma cstring_whole s : no_nul s = true -> cstring (bytes_of s) = s.
Proof.
  induction s as [|c s IH]; [done|]. cbn. intros [Hc Hs]%andb_true_iff. apply negb_true_iff in Hc.
  rewrite Z.mod_small by apply chr_range. by rewrite Hc, of_chr_chr, IH.
Qed.

(** One more unit of fuel than the file has bytes is enough: every round reads some. *)
Lemma read_string_shorter read len file x rest : read = readNextQueryStrFromFile \/ read = readNextCmdStrFromFile ->
  read_string read len file = Some (x, rest) -> (length rest <= length file)%nat.
Proof.
  intros Hr. unfold read_string. destruct (_ =? -1); [done|]. destruct (_ <? -1); [by intros [= _ <-]|].
  destruct Hr as [-> | ->]; intros [= _ <-]; rewrite length_drop; lia.
Qed.
Lemma load_reqs_fuel fuel : forall fuel' rec file s, (length file < fuel)%nat -> (length file < fuel')%nat ->
  load_reqs qqparse cmdline fuel rec file s = load_reqs qqparse cmdline fuel' rec file s.
Proof.
  induction fuel as [|fuel IH]; intros [|fuel'] rec file s Hf Hf'; [lia..|]. cbn [load_reqs]. unfold readNextReqHdrFromFile.
  destruct (_ <=? 0) eqn:En; [done|]. set (f1 := drop _ file). assert (length f1 < length file)%nat as H1.
  { unfold f1. rewrite length_take in En. rewrite length_drop. unfold req_rec_hdr_size in *. zb. }
  destruct (negb _); [done|].
  destruct (read_string _ (queryLen _) f1) as [[[query|] f2]|] eqn:E2; cbn [mbind option_bind]; [|done..].
  apply read_string_shorter in E2; [|by left].
  destruct (read_string _ (cmdLineLen _) f2) as [[[cmd|] f3]|] eqn:E3; cbn [mbind option_bind]; [|done..].
  apply read_string_shorter in E3; [|by right]. destruct (validateProc _ _ _) as [z|]; cbn [mbind option_bind]; [|done].
  destruct (z =? -1); [apply IH; lia|]. destruct (load_query _ _) as [[st q]|]; cbn [mbind option_bind]; [|done].
  destruct (negb _); [done|apply IH; lia].
Qed.
Lemma read_string_app read text rest : read = readNextQueryStrFromFile \/ read = readNextCmdStrFromFile ->
  read_string read (strlen text) (bytes_of text ++ rest) = Some (Some (bytes_of text), rest).
Proof.
  intros Hr. pose proof (strlen_bytes_of text) as Hb. assert (0 <= strlen text) as H0 by (unfold strlen; lia).
  unfold read_string. destruct (_ =? -1) eqn:E; [zb|]. destruct (_ <? -1) eqn:E2; [zb|].
  destruct Hr as [-> | ->]; unfold readNextQueryStrFromFile, readNextCmdStrFromFile;
    by rewrite take_app_length', drop_app_length', Hb, Z.eqb_refl by lia.
Qed.
(** One record at the front of the file. *)
Lemma load_one r text cmd fuel rec rest s : reqhdr_ok (rq_hdr r) -> length (nfy_sigevent r) = sigevent_size ->
  no_nul text = true -> no_nul cmd = true -> strlen text < 2 ^ 31 -> strlen cmd < 2 ^ 31 -> procCmd r = Some cmd ->
  load_query qqparse text = Some (0, nfy_query r) ->
  exists rec', load_reqs qqparse cmdline (S fuel) rec
    ((reqrec_bytes (mkReqRec REQ_MAGIC (rq_hdr r) (nfy_sigevent r) (strlen text) (strlen cmd)) ++ bytes_of text ++ bytes_of cmd) ++ rest) s =
  load_reqs qqparse cmdline fuel rec' rest
    (if alive r then set_list (pNfyReqList s ++ [restored r]) (set_handle (handle (rq_hdr r)) s) else s).
Proof.
  intros Hh He Hnt Hnc Hlt Hlc Hcmd Hq. set (R := mkReqRec REQ_MAGIC _ _ _ _). pose proof (length_reqrec R He) as Hl.
  assert (reqrec_ok R) as HR.
  { unfold reqrec_ok, R. cbn. unfold in_signed, in_unsigned, REQ_MAGIC, strlen in *. split_and!; try done; lia. }
  cbn [load_reqs]. rewrite <-!app_assoc.
  assert (length (reqrec_bytes R) = Z.to_nat req_rec_hdr_size) as Hl2 by lia.
  unfold readNextReqHdrFromFile. rewrite take_app_length', drop_app_length' by (symmetry; exact Hl2). rewrite Hl.
  change (req_rec_hdr_size <=? 0) with false. cbv iota.
  exists (overwrite rec (reqrec_bytes R)).
  assert (reqrec_of_bytes (overwrite rec (reqrec_bytes R)) = R) as ->.
  { rewrite <-(reqrec_roundtrip R HR) at 2. unfold overwrite.
    assert (forall x, reqrec_of_bytes (reqrec_bytes R ++ x) = reqrec_of_bytes (reqrec_bytes R)) as Hx; [|apply Hx].
    intros x. unfold reqrec_of_bytes. change (Z.to_nat req_rec_hdr_size) with 104%nat in Hl2.
    rewrite !drop_app_le, !take_app_le by (rewrite ?length_drop; lia). done. }
  change (recMagic R) with REQ_MAGIC. rewrite Z.eqb_refl. cbn [negb]. change (queryLen R) with (strlen text). change (cmdLineLen R) with (strlen cmd).
  rewrite read_string_app by (by left). cbn [mbind option_bind]. rewrite read_string_app by (by right). cbn [mbind option_bind].
  rewrite !cstring_whole by done. unfold alive. rewrite Hcmd. change (pid (nfyhdr R)) with (pid (rq_hdr r)).
  unfold validateProc. destruct (cmdline (pid (rq_hdr r))) as [b'|]; cbn [mbind option_bind]; [|done].
  destruct (streqb cmd _); [|done]. cbn [Z.eqb Pos.eqb negb]. rewrite Hq. cbn [mbind option_bind Z.eqb negb].
  unfold restored. by rewrite Hcmd.
Qed.

Definition restore (s : nfyd) (r : nfyReq_t) : nfyd :=
  if alive r then set_list (pNfyReqList s ++ [restored r]) (set_handle (handle (rq_hdr r)) s) else s.
Lemma file_ok l : Forall req_ok l -> exists bs,
  (forall tmp, write_reqs l tmp = Some (Some (tmp ++ bs))) /\ (length l <= length bs)%nat /\
  forall fuel rec s, (length l < fuel)%nat -> load_reqs qqparse cmdline fuel rec bs s = Some (0, fold_left restore l s).
Proof.
  induction 1 as [|r l Hr _ (bs & Hw & Hlen & Hl)].
  - exists []. split; [intros tmp; by rewrite app_nil_r|]. split; [done|]. intros [|fuel] rec s Hf; [cbn in Hf; lia|]. done.
  - destruct (write_req_ok r Hr) as (text & cmd & Hb & Hc & Hcn & Hcl & Htn & Htl & Hq).
    set (b := reqrec_bytes _ ++ _) in Hb. exists (b ++ bs). split; [|split].
    + intros tmp. cbn [write_reqs]. rewrite Hb. cbn [mbind option_bind]. by rewrite Hw, app_assoc.
    + rewrite length_app. cbn [length]. assert (0 < length b)%nat; [|lia]. unfold b. rewrite length_app.
      pose proof (length_reqrec (mkReqRec REQ_MAGIC (rq_hdr r) (nfy_sigevent r) (strlen text) (strlen cmd)) (ro_event r Hr)) as Hl2.
      unfold req_rec_hdr_size in Hl2. lia.
    + intros [|fuel] rec s Hf; [lia|].
      destruct (load_one r text cmd fuel rec bs s (ro_hdr r Hr) (ro_event r Hr) Htn Hcn Htl Hcl Hc Hq) as (rec' & Hone).
      unfold b. rewrite Hone. rewrite Hl by (cbn in Hf; lia). done.
Qed.
Lemma restored_list l : forall s, pNfyReqList (fold_left restore l s) = pNfyReqList s ++ (restored <$> List.filter alive l).
Proof.
  induction l as [|r l IH]; intros s; [by rewrite app_nil_r|]. cbn [fold_left List.filter]. rewrite IH. unfold restore.
  destruct (alive r); [|done]. cbn [pNfyReqList set_list]. by rewrite <-app_assoc.
Qed.
Lemma restored_handle l : forall s, Forall (fun r => notifyReqHandle s <= handle (rq_hdr r)) l ->
  StronglySorted (fun a b => handle (rq_hdr a) < handle (rq_hdr b)) l ->
  Forall (fun r => handle (rq_hdr r) <= notifyReqHandle (fold_left restore l s)) (List.filter alive l) /\
  notifyReqHandle s <= notifyReqHandle (fold_left restore l s).
Proof.
  induction l as [|r l IH]; intros s Hs Hl; [split; [constructor|done]|]. apply Forall_cons in Hs as [Hr Hs].
  apply StronglySorted_inv in Hl as [Hl Hrl]. cbn [fold_left List.filter]. unfold restore at 2 4. destruct (alive r).
  - destruct (IH (set_list (pNfyReqList s ++ [restored r]) (set_handle (handle (rq_hdr r)) s))) as [H1 H2]; [|done|].
    + eapply Forall_impl; [exact Hrl|]. cbn. lia.
    + cbn in H2. split; [by constructor|lia].
  - by apply IH.
Qed.
End RequestFile.

(** ** Handles *)

Section Handles.
Context `{HL : HostLib} `{RL : RegexLib} `{TL : TemplateLib}.
Variable qqparse : str -> str + pnode.
Variables (write_ok signal_ok : nat -> bool) (malloc_ok : Z -> bool).

Definition handles (l : list nfyReq_t) : list Z := (fun r => handle (rq_hdr r)) <$> l.
(** The handles of the list are in the order in which they were given. *)
Record handles_ok (s : nfyd) : Prop := {
  ho_sorted : StronglySorted Z.lt (handles (pNfyReqList s));
  ho_bound : Forall (fun h => 0 < h <= notifyReqHandle s) (handles (pNfyReqList s));
  ho_last : 0 <= notifyReqHandle s
}.
(** What the daemon does with one input, whatever processes there are at the time. *)
Inductive step : nfyd -> nfyd -> Prop :=
  | step_client cmdline i stream garbage r s s' :
      processClientRequest qqparse cmdline write_ok malloc_ok i stream garbage s = Some (r, s') -> step s s'
  | step_event cmdline d stream r s s' : processEvent cmdline signal_ok d stream s = Some (r, s') -> step s s'
  | step_accept newsd cred allowed s s' : accept_client write_ok newsd cred allowed s = Some s' -> step s s'
  | step_evlogd newsd s s' : accept_evlogd newsd s = Some s' -> step s s'
  | step_fds w s : step s (set_fds w s)
  | step_disable cmdline h r s s' : disableRequest cmdline h s = Some (r, s') -> step s s'
  | step_flush cmdline r s s' : flushRequestList cmdline s = Some (r, s') -> step s s'.

(** The list shrinks, and no handle is given. *)
Definition fewer (s s' : nfyd) : Prop :=
  sublist (handles (pNfyReqList s')) (handles (pNfyReqList s)) /\ notifyReqHandle s' = notifyReqHandle s.
#[local] Instance fewer_refl : Reflexive fewer.
Proof. by split. Qed.
#[local] Instance fewer_trans : Transitive fewer.
Proof. intros s1 s2 s3 [H1 H2] [H3 H4]. split; [by etransitivity|congruence]. Qed.
Lemma sublist_in {A} (l l' : list A) x : sublist l' l -> x ∈ l' -> x ∈ l.
Proof. induction 1 as [|y l' l _ IH|y l' l _ IH]; [done|..]; rewrite ?elem_of_cons; [intros [?|?]|]; auto. Qed.
Lemma sublist_handles (l l' : list nfyReq_t) : sublist l' l -> sublist (handles l') (handles l).
Proof. unfold handles. induction 1; rewrite ?fmap_cons; by constructor. Qed.
Lemma sorted_sublist (l l' : list Z) : sublist l' l -> StronglySorted Z.lt l -> StronglySorted Z.lt l'.
Proof.
  induction 1 as [|x l' l Hsub IH|x l' l Hsub IH]; [done|..]; intros [Hs Hx]%StronglySorted_inv; [|by apply IH].
  constructor; [by apply IH|]. rewrite Forall_forall in *. intros y Hy. apply Hx. exact (sublist_in _ _ _ Hsub Hy).
Qed.
Lemma fewer_ok s s' : fewer s s' -> handles_ok s -> handles_ok s'.
Proof.
  intros [Hs Hh] [H1 H2 H3]. split; rewrite ?Hh; [by eapply sorted_sublist| |done].
  rewrite Forall_forall in *. intros y Hy. apply H2. exact (sublist_in _ _ _ Hs Hy).
Qed.

Lemma zombies_fewer cmdline l : forall l', remove_zombies cmdline l = Some l' -> sublist (handles l') (handles l).
Proof.
  induction l as [|r l IH]; intros l'; cbn [remove_zombies]; [by intros [= <-]|]. destruct (_ =? _).
  { intros Hl. unfold handles. rewrite fmap_cons. constructor. by apply IH. }
  destruct (validateProc _ _ _) as [z|]; cbn [mbind option_bind]; [|done].
  destruct (remove_zombies cmdline l) as [l1|]; cbn [mbind option_bind]; [|done]. intros [= <-]. specialize (IH _ eq_refl).
  unfold handles in *. destruct (z =? -1); rewrite ?fmap_cons; by constructor.
Qed.
Lemma file_fewer s r s' : writeRequestsToFile s = Some (r, s') -> fewer s s'.
Proof.
  unfold writeRequestsToFile, openReqFile. destruct (req_file s).
  - destruct (write_reqs _ _) as [[b|]|]; cbn [mbind option_bind]; by intros [= _ <-].
  - by intros [= _ <-].
Qed.
Lemma flush_fewer cmdline s r s' : flushRequestList cmdline s = Some (r, s') -> fewer s s'.
Proof.
  unfold flushRequestList, removeZombieRequestsInList. destruct (remove_zombies _ _) as [l|] eqn:El; cbn [mbind option_bind]; [|done].
  intros Hw%file_fewer. transitivity (set_list l s); [|done]. split; [|done]. by eapply zombies_fewer.
Qed.
Lemma change_fewer cmdline s s' : count_change cmdline s = Some s' -> fewer s s'.
Proof.
  unfold count_change. destruct (_ >=? _); [|by intros [= <-]].
  destruct (flushRequestList _ _) as [[r s1]|] eqn:Ef; cbn [mbind option_bind]; [|done]. intros [= <-].
  apply flush_fewer in Ef. exact Ef.
Qed.
Lemma remove_fewer cmdline h s r s' : removeRequestWithHandle cmdline h s = Some (r, s') -> fewer s s'.
Proof.
  unfold removeRequestWithHandle. destruct (list_find _ _) as [[i x]|]; [|by intros [= _ <-]].
  destruct (count_change _ _) as [s1|] eqn:Ec; cbn [mbind option_bind]; [|done]. intros [= _ <-]. apply change_fewer in Ec.
  transitivity (set_list (delete i (pNfyReqList s)) s); [|done]. split; [|done]. apply sublist_handles, sublist_delete.
Qed.
Lemma handles_flags l i x f : l !! i = Some x -> handles (<[i := set_flags f x]> l) = handles l.
Proof. intros Hx. unfold handles. rewrite list_fmap_insert. apply list_insert_id. by rewrite list_lookup_fmap, Hx. Qed.
Lemma disable_fewer cmdline h s r s' : disableRequest cmdline h s = Some (r, s') -> fewer s s'.
Proof.
  unfold disableRequest. destruct (list_find _ _) as [[i x]|] eqn:Ef; [|by intros [= _ <-]].
  apply list_find_Some in Ef as (Hx & _). destruct (count_change _ _) as [s1|] eqn:Ec; cbn [mbind option_bind]; [|done].
  intros [= _ <-]. apply change_fewer in Ec. etransitivity; [|exact Ec]. split; [|done]. cbn [pNfyReqList set_list].
  by rewrite handles_flags.
Qed.

Lemma filter_fewer f s : fewer s (set_list (List.filter f (pNfyReqList s)) s).
Proof.
  split; [|done]. apply sublist_handles. cbn [pNfyReqList set_list]. induction (pNfyReqList s) as [|x l IH]; [done|]. cbn [List.filter].
  destruct (f x); by constructor.
Qed.
Lemma closed_fewer i b s s' : closeClientSocket i b s = Some s' -> fewer s s'.
Proof.
  unfold closeClientSocket. destruct (nclients s !! i) as [c|]; cbn [mbind option_bind]; [|done].
  destruct (FD_CLR _ _) as [w|]; cbn [mbind option_bind]; [|done].
  intros [= <-]. destruct b; [|by split]. apply (filter_fewer _ (set_clients _ s)).
Qed.
Lemma socket_fewer d s s' : closeSocket d s = Some s' -> fewer s s'.
Proof. unfold closeSocket. destruct (FD_CLR _ _); cbn [mbind option_bind]; [|done]. by intros [= <-]. Qed.
Lemma close_fewer i r s r' s' : close i r s = Some (r', s') -> fewer s s'.
Proof.
  unfold close. destruct (closeClientSocket _ _ _) as [s1|] eqn:Ec; cbn [mbind option_bind]; [|done].
  intros [= _ <-]. by eapply closed_fewer.
Qed.
Lemma reply_fewer d data s : fewer s (snd (reply write_ok d data s)).
Proof. by split. Qed.
Lemma status_fewer d h st s : fewer s (snd (writeRequestStatus write_ok d h st s)).
Proof. by split. Qed.
Lemma send_fewer i data s s' : send write_ok i data s = Some s' -> fewer s s'.
Proof.
  unfold send. destruct (nclients s !! i) as [c|]; cbn [mbind option_bind]; [|done].
  destruct (reply write_ok (ci_sd c) data s) as [ok s1] eqn:Er. pose proof (reply_fewer (ci_sd c) data s) as Hr. rewrite Er in Hr.
  destruct ok; [by intros [= <-]|]. intros Hc%closed_fewer. by etransitivity.
Qed.
Lemma numofreg_fewer i n s s' : change_numofreg i n s = Some s' -> fewer s s'.
Proof. unfold change_numofreg. destruct (nclients s !! i); cbn; [|done]. by intros [= <-]. Qed.

Lemma sorted_snoc l x : StronglySorted Z.lt l -> Forall (fun y => y < x) l -> StronglySorted Z.lt (l ++ [x]).
Proof.
  induction 1 as [|y l Hs IH Hy]; [repeat constructor|]. intros [Hx Hl]%Forall_cons. rewrite <-app_comm_cons.
  constructor; [by apply IH|]. apply Forall_app. split; [done|]. by apply Forall_singleton.
Qed.
(** At most one handle is given. *)
Definition moved (s s' : nfyd) : Prop :=
  handles_ok s -> notifyReqHandle s + 1 < 2 ^ 64 ->
  handles_ok s' /\ notifyReqHandle s <= notifyReqHandle s' <= notifyReqHandle s + 1.
Lemma fewer_moved s s' : fewer s s' -> moved s s'.
Proof. intros Hf Hok _. split; [by eapply fewer_ok|]. destruct Hf as [_ ->]. lia. Qed.
Lemma moved_fewer s1 s2 s3 : moved s1 s2 -> fewer s2 s3 -> moved s1 s3.
Proof.
  intros Hm Hf Hok Hb. destruct (Hm Hok Hb) as [Hok2 H2]. split; [by eapply fewer_ok|]. destruct Hf as [_ ->]. done.
Qed.

Lemma append_fewer r s st s' : appendReqToFile r s = Some (st, s') -> fewer s s'.
Proof.
  unfold appendReqToFile, openReqFile. destruct (req_file s).
  - destruct (writeReqToFile _) as [[b|]|]; cbn [mbind option_bind]; by intros [= _ <-].
  - destruct (writeReqToFile _) as [[b|]|]; cbn [mbind option_bind]; by intros [= _ <-].
Qed.
Lemma register_moved cmdline ci m q fl s h s' :
  registerRequest qqparse cmdline ci m q fl s = Some (h, s') -> moved s s'.
Proof.
  unfold registerRequest. destruct (if streqb q "<null>" then _ else _) as [[st qu]|]; cbn [mbind option_bind]; [|done].
  destruct (negb (st =? 0)); [intros [= _ <-]; by apply fewer_moved|]. destruct (negb _); [intros [= _ <-]; by apply fewer_moved|].
  set (s1 := set_list _ _). destruct (appendReqToFile _ s1) as [[a s2]|] eqn:Ea; cbn [mbind option_bind]; [|done].
  intros [= _ <-]. apply (moved_fewer s s1); [|by eapply append_fewer].
  intros [Hs Hb Hl] Hn. assert (u64 (notifyReqHandle s + 1) = notifyReqHandle s + 1) as Hu by (apply unsigned_id; unfold in_unsigned; lia).
  unfold s1. cbn [notifyReqHandle set_list set_handle]. rewrite Hu. split; [|lia].
  split; cbn [notifyReqHandle set_list set_handle pNfyReqList]; [| |lia].
  - unfold handles. rewrite fmap_app. cbn. apply sorted_snoc; [done|].
    eapply Forall_impl; [exact Hb|]. cbn. lia.
  - unfold handles in *. rewrite fmap_app. apply Forall_app. split; [eapply Forall_impl; [exact Hb|]; cbn; lia|].
    cbn. repeat constructor; lia.
Qed.

Lemma status_then_close d h st i r (s : nfyd) r' s' :
  (let '(x, s) := writeRequestStatus write_ok d h st s in if negb (x =? 0) then close i r s else Some (0, s)) = Some (r', s') ->
  fewer s s'.
Proof.
  pose proof (status_fewer d h st s) as Hf. destruct (writeRequestStatus _ _ _ _ _) as [x s1]. cbn [snd] in Hf.
  destruct (negb _); [intros Hc%close_fewer; by etransitivity|]. by intros [= _ <-].
Qed.
Lemma new_moved cmdline i m stream s r s' :
  new_request qqparse cmdline write_ok malloc_ok i m stream s = Some (r, s') -> moved s s'.
Proof.
  unfold new_request. destruct (negb _); [intros [= _ <-]; by apply fewer_moved|].
  destruct (_evlReadEx _ stream) as [[q|] rest]; [|intros Hc%close_fewer; by apply fewer_moved].
  destruct (_ <=? _); [done|].
  destruct (_evlReadEx 4 rest) as [[fl|] rest2]; [|intros Hc%close_fewer; by apply fewer_moved].
  destruct (nclients s !! i) as [ci|]; cbn [mbind option_bind]; [|done].
  destruct (registerRequest _ _ _ _ _ _ _) as [[h s1]|] eqn:Er; cbn [mbind option_bind]; [|done].
  apply register_moved in Er.
  destruct (if h <? 0 then _ else _) as [[st s2]|] eqn:Es; cbn [mbind option_bind]; [|done].
  assert (fewer s1 s2) as H12.
  { destruct (h <? 0); [by injection Es as _ <-|]. destruct (change_numofreg _ _ _) as [s3|] eqn:Ec; [|done]. injection Es as _ <-.
    by eapply numofreg_fewer. }
  intros Hc%status_then_close. eapply moved_fewer; [exact Er|]. by transitivity s2.
Qed.
Lemma rm_fewer cmdline i m s r s' : rm_request cmdline write_ok i m s = Some (r, s') -> fewer s s'.
Proof.
  unfold rm_request. destruct (nclients s !! i) as [ci|]; cbn [mbind option_bind]; [|done].
  destruct (removeRequestWithHandle _ _ _) as [[st s1]|] eqn:Er; cbn [mbind option_bind]; [|done]. apply remove_fewer in Er.
  destruct (if st =? -1 then _ else _) as [[x s2]|] eqn:Es; cbn [mbind option_bind]; [|done].
  assert (fewer s1 s2) as H12.
  { destruct (st =? -1); [by injection Es as _ <-|]. destruct (change_numofreg _ _ _) as [s3|] eqn:Ec; [|done]. injection Es as _ <-.
    by eapply numofreg_fewer. }
  intros Hc%status_then_close. etransitivity; [exact Er|]. by transitivity s2.
Qed.
Lemma get_fewer i m g s r s' : get_request_status write_ok i m g s = Some (r, s') -> fewer s s'.
Proof.
  unfold get_request_status. destruct (send _ _ _ s) as [s1|] eqn:E1; cbn [mbind option_bind]; [|done]. apply send_fewer in E1.
  destruct (findRequest _ _) as [q|]; [|by intros [= _ <-]].
  destruct (match nfy_query q with None => _ | Some _ => _ end) as [text|]; cbn [mbind option_bind]; [|done].
  destruct (send _ _ _ s1) as [s2|] eqn:E2; cbn [mbind option_bind]; [|done]. apply send_fewer in E2.
  destruct (strlen text >? 0); [|intros [= _ <-]; by transitivity s1].
  destruct (send _ _ _ s2) as [s3|] eqn:E3; cbn [mbind option_bind]; [|done]. apply send_fewer in E3.
  intros [= _ <-]. transitivity s1; [done|]. by transitivity s2.
Qed.

Lemma offer_handle cmdline e b r s r' s' : offer_event cmdline signal_ok e b r s = Some (r', s') ->
  handle (rq_hdr r') = handle (rq_hdr r) /\ pNfyReqList s' = pNfyReqList s /\ notifyReqHandle s' = notifyReqHandle s.
Proof.
  unfold offer_event. destruct (negb _); [by intros [= <- <-]|].
  destruct (match nfy_query r with None => _ | Some _ => _ end) as [[|]|]; cbn [mbind option_bind negb]; [|by intros [= <- <-]|done].
  destruct (validateProc _ _ _) as [z|]; cbn [mbind option_bind]; [|done].
  destruct (z =? -1); by intros [= <- <-].
Qed.
Lemma offer_all_handles cmdline e b l : forall s l' s', offer_all cmdline signal_ok e b l s = Some (l', s') ->
  handles l' = handles l /\ pNfyReqList s' = pNfyReqList s /\ notifyReqHandle s' = notifyReqHandle s.
Proof.
  induction l as [|r l IH]; intros s l' s'; cbn [offer_all]; [by intros [= <- <-]|].
  destruct (offer_event _ _ _ _ _ _) as [[r1 s1]|] eqn:Eo; cbn [mbind option_bind]; [|done].
  destruct (offer_all _ _ _ _ l s1) as [[l1 s2]|] eqn:Ea; cbn [mbind option_bind]; [|done]. intros [= <- <-].
  apply offer_handle in Eo as (H1 & H2 & H3). apply IH in Ea as (H4 & H5 & H6).
  unfold handles in *. rewrite !fmap_cons. split_and!; congruence.
Qed.
Lemma event_fewer cmdline d stream s r s' : processEvent cmdline signal_ok d stream s = Some (r, s') -> fewer s s'.
Proof.
  assert (forall e b l1 s1, offer_all cmdline signal_ok e b (pNfyReqList s) s = Some (l1, s1) -> fewer s (set_list l1 s1)) as Hf.
  { intros e b l1 s1 (H1 & _ & H3)%offer_all_handles. split; [cbn [pNfyReqList set_list]; by rewrite H1|done]. }
  assert ((s1 ← closeSocket d s; Some (-1, s1)) = Some (r, s') -> fewer s s') as Hc.
  { destruct (closeSocket d s) as [s2|] eqn:E; cbn [mbind option_bind]; [|done]. intros [= _ <-]. by eapply socket_fewer. }
  unfold processEvent. destruct (_evlReadEx _ stream) as [[hdr|] rest]; [|by apply Hc]. destruct (_ <=? 0).
  - destruct (offer_all _ _ _ _ _ _) as [[l1 s1]|] eqn:E; cbn [mbind option_bind]; [|done]. intros [= _ <-]. by eapply Hf.
  - destruct (_evlReadEx _ rest) as [[data|] rest2]; [|by apply Hc]. destruct (_ >? _); [done|].
    destruct (offer_all _ _ _ _ _ _) as [[l1 s1]|] eqn:E; cbn [mbind option_bind]; [|done]. intros [= _ <-]. by eapply Hf.
Qed.
Lemma accept_fewer newsd cred allowed s s' : accept_client write_ok newsd cred allowed s = Some s' -> fewer s s'.
Proof.
  unfold accept_client. destruct (free_slot _ _ _ _) as [m [i|]]; [|by intros [= <-]]. destruct cred as [[uid p]|]; [|by intros [= <-]].
  destruct allowed; [|by intros [= <-]]. destruct (_ !! i); cbn [mbind option_bind]; [|done].
  destruct (watch_new _ _); cbn [mbind option_bind]; [|done]. by intros [= <-].
Qed.
Lemma evlogd_fewer newsd s s' : accept_evlogd newsd s = Some s' -> fewer s s'.
Proof. unfold accept_evlogd. destruct (watch_new _ _); cbn [mbind option_bind]; [|done]. by intros [= <-]. Qed.

Lemma step_moved s s' : step s s' -> moved s s'.
Proof.
  destruct 1 as [c i stream g r s s' Hp|c d stream r s s' Hp|newsd cred al s s' Hp|newsd s s' Hp|w s|c h r s s' Hp|c r s s' Hp].
  - unfold processClientRequest in Hp. destruct (_evlReadEx _ stream) as [[bs|] rest].
    2: { apply fewer_moved. by eapply close_fewer. }
    repeat case_match; simplify_eq; try (by apply fewer_moved).
    + by eapply new_moved.
    + apply fewer_moved. by eapply rm_fewer.
    + apply fewer_moved. by eapply get_fewer.
  - apply fewer_moved. by eapply event_fewer.
  - apply fewer_moved. by eapply accept_fewer.
  - apply fewer_moved. by eapply evlogd_fewer.
  - by apply fewer_moved.
  - apply fewer_moved. by eapply disable_fewer.
  - apply fewer_moved. by eapply flush_fewer.
Qed.
End Handles.

(** ** Delivery of events *)

Section Delivery.
Context `{HL : HostLib} `{RL : RegexLib} `{TL : TemplateLib}.
Variable cmdline : Z -> option (list Z).
Variable signal_ok : nat -> bool.

(** What a request wants of an event. *)
Definition enabled (r : nfyReq_t) : bool := Z.land (flags (rq_hdr r)) POSIX_LOG_NFY_DISABLED =? 0.
Definition matches (e : posix_log_entry) (b : option (list Z)) (r : nfyReq_t) : bool :=
  match nfy_query r with
  | None => true
  | Some q => match posix_log_query_match (Some q) (Some e) b true with Some (inr m) => m | _ => false end
  end.
Definition wanted (e : posix_log_entry) (b : option (list Z)) (r : nfyReq_t) : bool :=
  enabled r && matches e b r && alive cmdline r.
Definition signal_for (e : posix_log_entry) (r : nfyReq_t) : signal_t :=
  mkSignal (pid (rq_hdr r)) (sigev_signo (nfy_sigevent r)) (log_recid e) (sigev_value (nfy_sigevent r)).
(** The request afterwards. *)
Definition offered (e : posix_log_entry) (b : option (list Z)) (r : nfyReq_t) : nfyReq_t :=
  let fl := flags (rq_hdr r) in
  if negb (enabled r && matches e b r) then r
  else if negb (alive cmdline r) then set_flags (Z.lor fl (Z.lor POSIX_LOG_NFY_DISABLED POSIX_LOG_NFY_PENDING_REMOVE)) r
  else if Z.land fl POSIX_LOG_ONCE_ONLY =? 0 then r else set_flags (Z.lor fl POSIX_LOG_NFY_DISABLED) r.
(** Those of the signals, from the [k]th on, that are queued. *)
Fixpoint queued (k : nat) (xs : list signal_t) : list signal_t :=
  match xs with
  | [] => []
  | x :: xs' => if signal_ok k then x :: queued (S k) xs' else queued (S k) xs'
  end.
(** The query can be evaluated, and a program that is compared has a name. *)
Definition decides (e : posix_log_entry) (b : option (list Z)) (r : nfyReq_t) : Prop :=
  (forall q, nfy_query r = Some q -> exists m, posix_log_query_match (Some q) (Some e) b true = Some m) /\
  exists z, validateProc cmdline (pid (rq_hdr r)) (procCmd r) = Some z.

Lemma same_flags r : set_flags (flags (rq_hdr r)) r = r.
Proof. by destruct r as [[]]. Qed.
Lemma offer_spec e b r s : decides e b r ->
  exists s', offer_event cmdline signal_ok e b r s = Some (offered e b r, s') /\
    signals s' = signals s ++ (if wanted e b r then queued (sigs s) [signal_for e r] else []) /\
    sigs s' = (sigs s + if wanted e b r then 1 else 0)%nat.
Proof.
  intros [Hq [z Hz]]. unfold offer_event, offered, wanted. fold (enabled r). destruct (enabled r); cbn [negb andb].
  2: { exists s. by rewrite app_nil_r, Nat.add_0_r. }
  assert (match nfy_query r with None => Some true
    | Some q => (m ← posix_log_query_match (Some q) (Some e) b true; Some (match m with inr b => b | inl _ => false end)) end = Some (matches e b r)) as ->.
  { unfold matches. destruct (nfy_query r) as [q|]; [|done]. destruct (Hq q eq_refl) as [m ->]. cbn. by destruct m. }
  cbn [mbind option_bind]. destruct (matches e b r); cbn [negb andb].
  2: { exists s. by rewrite app_nil_r, Nat.add_0_r. }
  unfold alive. rewrite Hz. cbn [mbind option_bind]. destruct (z =? -1); cbn [negb].
  { exists s. by rewrite app_nil_r, Nat.add_0_r. }
  unfold sigqueue. assert (((if signal_ok (sigs s) then 0 else -1) =? - ESRCH) = false) as -> by (by destruct (signal_ok _)).
  eexists. split; [destruct (_ =? 0); cbn [negb]; rewrite ?same_flags; reflexivity|]. split; [|cbn; lia].
  cbn. destruct (signal_ok _); by rewrite ?app_nil_r.
Qed.
Lemma queued_app xs : forall k ys, queued k (xs ++ ys) = queued k xs ++ queued (k + length xs) ys.
Proof.
  induction xs as [|x xs IH]; intros k ys; [by rewrite Nat.add_0_r|]. cbn. rewrite IH.
  replace (S k + length xs)%nat with (k + S (length xs))%nat by lia. by destruct (signal_ok k).
Qed.
Lemma offer_all_spec e b l : forall s, Forall (decides e b) l ->
  exists s', offer_all cmdline signal_ok e b l s = Some (offered e b <$> l, s') /\
    signals s' = signals s ++ queued (sigs s) (signal_for e <$> List.filter (wanted e b) l).
Proof.
  induction l as [|r l IH]; intros s Hl; [exists s; by rewrite app_nil_r|]. apply Forall_cons in Hl as [Hr Hl].
  cbn [offer_all]. destruct (offer_spec e b r s Hr) as (s1 & -> & Hs1 & Hk1). cbn [mbind option_bind].
  destruct (IH s1 Hl) as (s2 & -> & Hs2). exists s2. split; [done|]. rewrite Hs2, Hs1, Hk1, <-app_assoc. cbn [List.filter].
  f_equal. destruct (wanted e b r); [|by rewrite Nat.add_0_r]. rewrite fmap_cons. symmetry. apply (queued_app [_]).
Qed.
End Delivery.

(** ** Properties *)

Section NotifydProps.
Context `{HL : HostLib} `{RL : RegexLib} `{TL : TemplateLib}.

(** C18: an event from evlogd goes, in the order of registration, as one signal with the
    record's id to each enabled request whose query matches it (or that has none) and
    whose process still runs the program that registered it; a request of a process
    that is gone is marked for removal, a once-only request that was served is disabled,
    and every other request is unchanged. *)
Theorem event_is_delivered cmdline signal_ok e data d s :
  entry_ok e -> log_size e = Z.of_nat (length data) -> log_size e <= POSIX_LOG_ENTRY_MAXLEN ->
  let b := if log_size e =? 0 then None else Some data in
  Forall (decides cmdline e b) (pNfyReqList s) ->
  exists s', processEvent cmdline signal_ok d (entry_bytes e ++ data) s = Some (0, s') /\
    pNfyReqList s' = offered cmdline e b <$> pNfyReqList s /\
    signals s' = signals s ++ queued signal_ok (sigs s) (signal_for e <$> List.filter (wanted cmdline e b) (pNfyReqList s)).
Proof.
  intros He Hsz Hmax b Hl. destruct (offer_all_spec cmdline signal_ok e b (pNfyReqList s) s Hl) as (s' & Hs' & Hsig).
  exists (set_list (offered cmdline e b <$> pNfyReqList s) s'). split; [|by split].
  unfold processEvent. rewrite read_ex_app by (rewrite ?length_entry_bytes; done). rewrite entry_roundtrip by done.
  unfold b in Hs'. unfold POSIX_LOG_ENTRY_MAXLEN in *. destruct (log_size e =? 0) eqn:E0; bprop.
  - destruct (log_size e <=? 0) eqn:E; [|zb]. by rewrite Hs'.
  - destruct (log_size e <=? 0) eqn:E; [zb|]. rewrite <-(app_nil_r data) at 1. rewrite read_ex_app by (done || lia).
    destruct (_ >? 8192) eqn:E2; [zb|]. by rewrite Hs'.
Qed.

(** C37: from a well-formed state, after any [n] inputs of clients and of evlogd, whatever
    processes come and go, the handles of the requests are distinct, in the order in
    which they were given, and none is above the counter, which grew by at most [n];
    so a handle names at most one request. *)
Theorem handles_stay_distinct qqparse write_ok signal_ok malloc_ok n s s' :
  nsteps (step qqparse write_ok signal_ok malloc_ok) n s s' -> handles_ok s ->
  notifyReqHandle s + Z.of_nat n < 2 ^ 64 ->
  handles_ok s' /\ NoDup (handles (pNfyReqList s')) /\
  notifyReqHandle s <= notifyReqHandle s' <= notifyReqHandle s + Z.of_nat n.
Proof.
  intros Hn Hok Hb. assert (handles_ok s' /\ notifyReqHandle s <= notifyReqHandle s' <= notifyReqHandle s + Z.of_nat n) as [Hok' Hle].
  { induction Hn as [s|n s1 s2 s3 Hst Hn IH]; [split; [done|lia]|].
    destruct (step_moved _ _ _ _ s1 s2 Hst Hok) as [Hok2 H2]; [lia|]. destruct (IH Hok2) as [Hok3 H3]; [lia|]. split; [done|lia]. }
  split_and!; [done| |lia..]. pose proof (ho_sorted s' Hok') as Hs. clear -Hs.
  induction Hs as [|x l Hs IH Hx]; constructor; [|done]. rewrite Forall_forall in Hx. intros Hin%Hx. lia.
Qed.


(** The file itself is emptied before the copy of the requests is written, so when
    one of them cannot be written all are lost, although the copy was made for that. *)
Theorem failed_save_loses_requests s b l1 r l2 : req_file s = Some b ->
  pNfyReqList s = l1 ++ r :: l2 -> procCmd r = None ->
  Forall (fun r => exists bs, writeReqToFile r = Some (Some bs)) l1 ->
  exists s', writeRequestsToFile s = Some (-1, s') /\ req_file s' = Some [].
Proof.
  intros Hf Hl Hr Hl1. unfold writeRequestsToFile, openReqFile. rewrite Hf. cbn [pNfyReqList set_file]. rewrite Hl.
  assert (forall tmp, write_reqs (l1 ++ r :: l2) tmp = Some None) as Hw.
  { clear Hl. induction Hl1 as [|x l1 [bs Hx] _ IH]; intros tmp; cbn [app write_reqs].
    - unfold writeReqToFile. by rewrite Hr.
    - rewrite Hx. cbn [mbind option_bind]. apply IH. }
  rewrite Hw. cbn [mbind option_bind]. by eexists.
Qed.
End NotifydProps.

(** ** Witnesses *)

(** Process 77 runs "prog"; requests of it, one of them disabled, and of a process that
    is gone. *)
Definition sample_cmdline (p : Z) : option (list Z) := if p =? 77 then Some (bytes_of "prog" ++ [0]) else None.
Definition sample_event : sigevent := replicate 8 5 ++ [10; 0; 0; 0] ++ replicate 52 0.
Definition sample_req (h p f : Z) : @nfyReq_t sample_regex :=
  mkReq (mkReqHdr h p 6 f) sample_event None (Some "prog"%string).
Definition sample_watch : watch := mkWatch {[3; 4; 5; 6]} 6 0 5.
Definition sample_nfyd : @nfyd sample_regex :=
  mkNfyd [sample_req 1 77 5; sample_req 2 77 12; sample_req 4 78 4] 4 0 [mkClient 6 0 77 2; mkClient CLIENT_SLOT_AVAILABLE 0 0 0]
    (Some []) [] [] 0 0 sample_watch.

Lemma sample_decides e b : Forall (@decides sample_machine sample_regex sample_templates sample_cmdline e b) (pNfyReqList sample_nfyd).
Proof. repeat (constructor; [split; [done|vm_compute; by eexists]|]). constructor. Qed.
Lemma sample_handles_ok : @handles_ok sample_regex sample_nfyd.
Proof. split; [repeat constructor|repeat constructor|]; cbn; lia. Qed.

Lemma sample_req_ok h p f : in_unsigned 64 h -> in_signed 32 p -> in_signed 32 f ->
  @req_ok sample_machine sample_regex sample_parse (sample_req h p f).
Proof.
  intros Hh Hp Hf. split; [|reflexivity| |].
  - split; [done|]. split; [done|]. split; [|done]. cbn. unfold in_signed. lia.
  - exists "prog"%string. split; [reflexivity|]. split; reflexivity.
  - exists "<null>"%string. split; [reflexivity|]. split; [reflexivity|]. split; reflexivity.
Qed.

Lemma event_is_delivered_witness : exists s',
  @processEvent sample_machine sample_regex sample_templates sample_cmdline (fun _ => true) 5 (entry_bytes sample_entry ++ [31; 0])
    sample_nfyd = Some (0, s') /\
  ((fun r => flags (rq_hdr r)) <$> pNfyReqList s') = [13; 12; 4 + 8 + 0x512] /\
  signals s' = [mkSignal 77 10 7 (replicate 8 5)].
Proof.
  destruct (@event_is_delivered sample_machine sample_regex sample_templates sample_cmdline (fun _ => true) sample_entry [31; 0] 5 sample_nfyd)
    as (s' & Hs' & Hl & Hsig).
  - apply sample_entry_ok.
  - reflexivity.
  - vm_compute. discriminate.
  - apply sample_decides.
  - exists s'. split; [exact Hs'|]. rewrite Hl, Hsig. split; vm_compute; reflexivity.
Defined.
Definition sample_client_input : list Z :=
  newrq_bytes (mkNewRq (mkMsgHdr nmtNewRequest 0 0) 6 sample_event 4) ++ bytes_of "<null>" ++ le_encode 4 0.
Definition sample_step : option (Z * nfyd) :=
  @processClientRequest sample_machine sample_regex sample_parse sample_cmdline (fun _ => true) (fun _ => true) 0 sample_client_input 0 sample_nfyd.
Definition sample_after : nfyd := default sample_nfyd (snd <$> sample_step).
Lemma sample_step_ok : sample_step = Some (0, sample_after).
Proof. vm_compute. reflexivity. Qed.
Lemma handles_stay_distinct_witness :
  sample_step = Some (0, sample_after) /\ NoDup (handles (pNfyReqList sample_after)) /\
  handles (pNfyReqList sample_after) = [1; 2; 4; 5].
Proof.
  split; [exact sample_step_ok|].
  destruct (@handles_stay_distinct sample_machine sample_regex sample_templates sample_parse (fun _ => true) (fun _ => true)
    (fun _ => true) 1 sample_nfyd sample_after) as (_ & Hd & _).
  - apply nsteps_once.
    exact (@step_client sample_machine sample_regex sample_templates sample_parse (fun _ => true) (fun _ => true) (fun _ => true)
      sample_cmdline 0 sample_client_input 0 0 sample_nfyd sample_after sample_step_ok).
  - apply sample_handles_ok.
  - vm_compute. reflexivity.
  - split; [exact Hd|]. vm_compute. reflexivity.
Defined.
Lemma failed_save_loses_requests_witness : exists s',
  @writeRequestsToFile sample_regex
    (mkNfyd [sample_req 1 77 5; mkReq (mkReqHdr 2 77 6 4) sample_event None None] 2 0 [] (Some [1; 2; 3]) [] [] 0 0 sample_watch) = Some (-1, s') /\
  req_file s' = Some [].
Proof.
  apply (@failed_save_loses_requests sample_regex _ [1; 2; 3] [sample_req 1 77 5] (mkReq (mkReqHdr 2 77 6 4) sample_event None None) []);
    [reflexivity|reflexivity|reflexivity|].
  constructor; [by eexists|constructor].
Defined.
