(* ===== verification/NotifydLoop.v ===== *)
(** * The notification daemon's loop ([main] of [cmd/evlnotifyd/evlnotifyd.c])

    What [select] watches while connections come and go: every connection that is open
    stays within the descriptors and the slots that the loop looks at, so that each
    client with data is served. *)
From Stdlib Require Import Sorted.
From S2P Require Import Prelude NvPairs LogRecord FacReg Hosts MemStr Query QEvaluate QSamples QueryApi Files NfyMsg Notifyd.

Section Loop.
Context `{HL : HostLib} `{RL : RegexLib} `{TL : TemplateLib}.
(** The two sockets that are listened on. *)
Variables listen_evlogd_sd listen_sd : Z.

(** The slot is free, or [select] is asked for its descriptor and the loop reaches it. *)
Definition above (d : Z) : Prop := listen_evlogd_sd < d /\ listen_sd < d /\ 0 < d < FD_SETSIZE.
Record watched (d : Z) (w : watch) : Prop := { wa_set : d ∈ all_sds w; wa_max : d <= maxsd w }.
Record slot_ok (w : watch) (i : nat) (d : Z) : Prop := {
  so_above : above d;
  so_watched : watched d w;
  so_index : Z.of_nat i <= maxci w;
  so_evlogd : d <> evlogd_sd w
}.
Record fds_ok (w : watch) (l : list clientinfo_t) : Prop := {
  fo_listen : 0 <= listen_evlogd_sd /\ 0 <= listen_sd /\ watched listen_evlogd_sd w /\ watched listen_sd w;
  fo_evlogd : evlogd_sd w = 0 \/ above (evlogd_sd w) /\ watched (evlogd_sd w) w;
  fo_slots : forall i c, l !! i = Some c -> ci_sd c = CLIENT_SLOT_AVAILABLE \/ slot_ok w i (ci_sd c);
  fo_distinct : forall i j c c', l !! i = Some c -> l !! j = Some c' ->
    ci_sd c = ci_sd c' -> ci_sd c <> CLIENT_SLOT_AVAILABLE -> i = j;
  fo_maxci : maxci w < Z.of_nat (length l);
  fo_some : (0 < length l)%nat
}.
Definition loop_ok (s : nfyd) : Prop := fds_ok (fds s) (nclients s).

(** ** Closing a client *)

Lemma max_index_spec l : forall i acc : Z, acc < i ->
  acc <= getMaxClientIndex l i acc < Z.max (i + Z.of_nat (length l)) (acc + 1) /\
  forall j c, l !! j = Some c -> ci_sd c <> CLIENT_SLOT_AVAILABLE -> i + Z.of_nat j <= getMaxClientIndex l i acc.
Proof.
  induction l as [|c l IH]; intros i acc Ha; cbn [getMaxClientIndex length]; [split; [lia|done]|].
  set (a := if (_ : bool) then acc else i). assert (acc <= a < i + 1) as Hb by (unfold a; destruct (_ =? _); lia).
  destruct (IH (i + 1) a) as [H1 H2]; [lia|]. split; [lia|]. intros [|j] c' Hj Hc.
  - cbn in Hj. injection Hj as ->. unfold a in *. destruct (ci_sd c' =? _) eqn:E; [zb|]. lia.
  - cbn in Hj. specialize (H2 j c' Hj Hc). lia.
Qed.
Lemma greatest_ge (l : list clientinfo_t) c : c ∈ l -> ci_sd c <= greatest_sd l.
Proof. unfold greatest_sd. induction 1 as [c l|c x l _ IH]; cbn [fold_right]; lia. Qed.
Lemma greatest_in l : greatest_sd l <> 0 -> exists c, c ∈ l /\ ci_sd c = greatest_sd l.
Proof.
  unfold greatest_sd. induction l as [|x l IH]; [done|]. cbn [fold_right]. intros Hn.
  destruct (Z.max_spec (ci_sd x) (fold_right (fun c m => Z.max (ci_sd c) m) 0 l)) as [[Hlt Hm]|[Hle Hm]]; rewrite Hm in *.
  - destruct (IH Hn) as (c & Hc & He). exists c. split; [by right|done].
  - exists x. split; [left|done].
Qed.
Lemma lookup_cleared (l : list clientinfo_t) i c c' j x : l !! i = Some c -> ci_sd c' = CLIENT_SLOT_AVAILABLE ->
  <[i := c']> l !! j = Some x -> ci_sd x = CLIENT_SLOT_AVAILABLE \/ j <> i /\ l !! j = Some x.
Proof.
  intros Hi Hc Hj. destruct (decide (j = i)) as [->|Hne].
  - rewrite list_lookup_insert_eq in Hj by (by eapply lookup_lt_Some). left. by injection Hj as <-.
  - right. by rewrite list_lookup_insert_ne in Hj.
Qed.

Definition with_bounds (m k : Z) (w : watch) : watch := set_maxsd m (set_maxci k w).
Lemma bounds_ok m k w l : fds_ok w l -> listen_evlogd_sd <= m -> listen_sd <= m ->
  (evlogd_sd w = 0 \/ evlogd_sd w <= m) ->
  (forall j c, l !! j = Some c -> ci_sd c <> CLIENT_SLOT_AVAILABLE -> ci_sd c <= m /\ Z.of_nat j <= k) ->
  k < Z.of_nat (length l) -> fds_ok (with_bounds m k w) l.
Proof.
  intros [(H0 & H1 & [H2 _] & [H3 _]) He Hs Hd _ Hn] Hm1 Hm2 Hme Hl Hk. split; [| | |done..].
  - split; [done|]. split; [done|]. by split; split.
  - destruct He as [He|[He [Hw _]]]; [by left|]. destruct Hme as [Hme|Hme]; [by left|right]. by split; [|split].
  - intros i c Hc. destruct (Z.eq_dec (ci_sd c) CLIENT_SLOT_AVAILABLE) as [Ha|Ha]; [by left|right].
    destruct (Hl i c Hc Ha). destruct (Hs i c Hc) as [|[Hab [Hw _] _ Hne]]; [done|]. split; [done| |done|done]. by split.
Qed.
Lemma greatest_nonneg l : 0 <= greatest_sd l.
Proof. unfold greatest_sd. induction l as [|c l IH]; cbn [fold_right]; lia. Qed.
(** A connection below the last slot in use is at most the greatest one. *)
Lemma live_bounds l j c : l !! j = Some c -> ci_sd c <> CLIENT_SLOT_AVAILABLE ->
  let k := getMaxClientIndex l 0 (-1) in
  ci_sd c <= greatest_sd (take (Z.to_nat (k + 1)) l) /\ Z.of_nat j <= k < Z.of_nat (length l).
Proof.
  intros Hj Hc k. destruct (max_index_spec l 0 (-1)) as [H1 H2]; [lia|]. specialize (H2 j c Hj Hc). fold k in H1, H2.
  pose proof (lookup_lt_Some _ _ _ Hj). split; [|lia]. apply greatest_ge, (list_elem_of_lookup_2 _ j).
  rewrite lookup_take_lt by lia. done.
Qed.
Lemma shrink_ok closed w l : fds_ok w l -> above closed -> closed <= maxsd w -> closed <> evlogd_sd w ->
  fds_ok (shrink closed l w) l.
Proof.
  intros Hok [Ha1 [Ha2 Ha3]] Hcm Hce. pose proof Hok as [(H0 & H1 & [_ H2] & [_ H3]) He Hs _ _ _].
  unfold shrink. destruct (maxsd w =? evlogd_sd w); [done|]. cbv zeta. cbn [maxci set_maxci maxsd evlogd_sd].
  set (k := getMaxClientIndex l 0 (-1)). set (g := greatest_sd _).
  assert (k < Z.of_nat (length l)) as Hk by (destruct (max_index_spec l 0 (-1)) as [Hb _]; lia).
  assert (forall j c, l !! j = Some c -> ci_sd c <> CLIENT_SLOT_AVAILABLE -> slot_ok w j (ci_sd c) /\ ci_sd c <= g /\ Z.of_nat j <= k) as Hl.
  { intros j c Hj Hc. destruct (Hs j c Hj) as [|Hso]; [done|]. destruct (live_bounds l j c Hj Hc). split; [done|]. split; [done|lia]. }
  destruct (g =? 0) eqn:Eg; bprop; cbn [andb negb].
  - assert (forall j c, l !! j = Some c -> ci_sd c = CLIENT_SLOT_AVAILABLE) as Hnone.
    { intros j c Hj. destruct (Z.eq_dec (ci_sd c) CLIENT_SLOT_AVAILABLE) as [|Hc]; [done|].
      destruct (Hl j c Hj Hc) as ([[_ [_ ?]] _ _ _] & ? & _). lia. }
    destruct (closed =? maxsd w) eqn:Ec; bprop; (apply (bounds_ok _ k); [done|lia|lia| |by intros j c Hj Hc; destruct (Hc (Hnone j c Hj))|done]).
    + destruct He as [|[_ [_ He]]]; [by left|right; lia].
    + destruct He as [|[_ [_ He]]]; [by left|by right].
  - destruct (greatest_in (take (Z.to_nat (k + 1)) l)) as (c & Hc & Hg); [done|]. fold g in Hg.
    apply list_elem_of_lookup_1 in Hc as [j Hj]. rewrite lookup_take_Some in Hj. destruct Hj as [Hj _].
    assert (above g) as [Hg1 [Hg2 Hg3]].
    { destruct (Hs j c Hj) as [Hn|[Hab _ _ _]]; [|by rewrite <-Hg]. pose proof (greatest_nonneg (take (Z.to_nat (k + 1)) l)) as Hnn.
      fold g in Hnn. rewrite <-Hg, Hn in Hnn. done. }
    apply (bounds_ok _ k); [done|destruct (g <? _) eqn:E; bprop; lia|destruct (g <? _) eqn:E; bprop; lia|
      right; destruct (g <? _) eqn:E; bprop; lia| |done].
    intros j' c' Hj' Hc'. destruct (Hl j' c' Hj' Hc') as (_ & Hle & Hi). split; [|done]. destruct (g <? _) eqn:E; bprop; lia.
Qed.

(** ** A client's request leaves the other clients alone *)

Lemma fds_ok_sds w l l' : ci_sd <$> l = ci_sd <$> l' -> fds_ok w l -> fds_ok w l'.
Proof.
  intros He [H1 H2 H3 H4 H5 H6].
  assert (forall i c', l' !! i = Some c' -> exists c, l !! i = Some c /\ ci_sd c = ci_sd c') as Hl.
  { intros i c' Hi. assert ((ci_sd <$> l) !! i = Some (ci_sd c')) as Hs by (by rewrite He, list_lookup_fmap, Hi).
    rewrite list_lookup_fmap in Hs. destruct (l !! i) as [c|]; [|done]. exists c. split; [done|]. by injection Hs. }
  split; [done|done| | | |].
  - intros i c' Hi. destruct (Hl i c' Hi) as (c & Hc & <-). by apply H3.
  - intros i j c1 c2 Hi Hj. destruct (Hl i c1 Hi) as (c & Hc & <-). destruct (Hl j c2 Hj) as (c' & Hc' & <-). by apply H4.
  - apply (f_equal length) in He. rewrite !length_fmap in He. by rewrite <-He.
  - apply (f_equal length) in He. rewrite !length_fmap in He. by rewrite <-He.
Qed.
(** Only slot [i] may have been closed. *)
Record only (i : nat) (s s' : nfyd) : Prop := {
  on_ok : loop_ok s -> loop_ok s';
  on_length : length (nclients s') = length (nclients s);
  on_others : forall j, j <> i -> ci_sd <$> nclients s' !! j = ci_sd <$> nclients s !! j
}.
#[local] Instance only_refl i : Reflexive (only i).
Proof. by split. Qed.
#[local] Instance only_trans i : Transitive (only i).
Proof.
  intros s1 s2 s3 [H1 H2 H3] [H4 H5 H6]. split; [auto|congruence|]. intros j Hj. by rewrite H6, H3.
Qed.
Definition calm (s s' : nfyd) : Prop := fds s' = fds s /\ nclients s' = nclients s.
#[local] Instance calm_refl : Reflexive calm.
Proof. by split. Qed.
#[local] Instance calm_trans : Transitive calm.
Proof. intros s1 s2 s3 [H1 H2] [H3 H4]. split; congruence. Qed.
Lemma calm_only i s s' : calm s s' -> only i s s'.
Proof. intros [Hf Hc]. split; [unfold loop_ok; by rewrite Hf, Hc|by rewrite Hc|by rewrite Hc]. Qed.

Lemma not_closed (d x : Z) w : x ∈ all_sds w -> x <> d -> x ∈ all_sds w ∖ {[d]}.
Proof. intros Hx Hn. apply elem_of_difference. by rewrite elem_of_singleton. Qed.
Lemma closed_only i b s s' : closeClientSocket i b s = Some s' -> only i s s'.
Proof.
  unfold closeClientSocket. destruct (nclients s !! i) as [c|] eqn:Ec; cbn [mbind option_bind]; [|done].
  unfold FD_CLR. destruct ((0 <=? ci_sd c) && _) eqn:Eb; cbn [mbind option_bind]; [|done]. bprop.
  set (c' := mkClient _ _ _ _). set (w := mkWatch _ _ _ _). set (l := <[i := c']> (nclients s)).
  set (s2 := if (b : bool) then _ else _). assert (nclients s2 = l) as Hl by (unfold s2; by destruct b). rewrite Hl. intros [= <-].
  split; cbn [nclients set_fds fds].
  - unfold loop_ok. cbn [fds nclients set_fds]. rewrite Hl. intros [Hli He Hs Hd Hm Hsome].
    assert (ci_sd c <> CLIENT_SLOT_AVAILABLE) as Hlive by (unfold CLIENT_SLOT_AVAILABLE; lia).
    destruct (Hs i c Ec) as [|[Hab [Hset Hmax] Hi Hne]]; [done|].
    assert (forall d, watched d (fds s) -> d <> ci_sd c -> watched d w) as Hw by (intros d [Hd1 Hd2] Hn; split; [by apply not_closed|done]).
    apply shrink_ok; [|done|done|done]. destruct Hab as (Ha1 & Ha2 & Ha3). split.
    + destruct Hli as (Hl0 & Hl1 & Hl2 & Hl3). split_and!; [done|done|apply Hw; [done|lia]..].
    + destruct He as [He|[He1 He2]]; [by left|right]. by split; [|apply Hw].
    + intros j x Hj. destruct (lookup_cleared _ i c c' j x Ec eq_refl Hj) as [|[Hji Hx]]; [by left|].
      destruct (Hs j x Hx) as [|[Hx1 Hx2 Hx3 Hx4]]; [by left|right]. split; [done|apply Hw; [done|]|done|done].
      intros Heq. destruct Hx1 as [_ [_ Hx1]]. apply Hji. eapply Hd; [exact Hx|exact Ec|done|rewrite Heq; done].
    + intros j k x y Hj Hk Hxy Hx. destruct (lookup_cleared _ i c c' j x Ec eq_refl Hj) as [|[_ Hj']]; [done|].
      destruct (lookup_cleared _ i c c' k y Ec eq_refl Hk) as [Hy|[_ Hk']]; [congruence|]. by eapply Hd.
    + unfold l. by rewrite length_insert.
    + unfold l. by rewrite length_insert.
  - rewrite Hl. unfold l. by rewrite length_insert.
  - rewrite Hl. intros j Hj. unfold l. by rewrite list_lookup_insert_ne.
Qed.
Lemma close_only i r s r' s' : close i r s = Some (r', s') -> only i s s'.
Proof.
  unfold close. destruct (closeClientSocket _ _ _) as [s1|] eqn:Ec; cbn [mbind option_bind]; [|done].
  intros [= _ <-]. by eapply closed_only.
Qed.
Lemma numofreg_only i n s s' : change_numofreg i n s = Some s' -> only i s s'.
Proof.
  unfold change_numofreg. destruct (nclients s !! i) as [c|] eqn:Ec; cbn [mbind option_bind]; [|done]. intros [= <-].
  split; cbn [nclients set_clients fds]; [|by rewrite length_insert|intros j Hj; by rewrite list_lookup_insert_ne].
  apply fds_ok_sds. symmetry. cbn [nclients set_clients fds]. rewrite list_fmap_insert. apply list_insert_id. by rewrite list_lookup_fmap, Ec.
Qed.

(** What is watched at the start. *)
Definition start_fds : watch := mkWatch {[listen_evlogd_sd; listen_sd]} (Z.max listen_evlogd_sd listen_sd) 0 0.
Lemma start_ok s c : 0 <= listen_evlogd_sd -> 0 <= listen_sd -> fds s = start_fds -> nclients s = initClients c ->
  length c = MAX_CLIENTS -> loop_ok s.
Proof.
  intros H0 H1 Hf Hc Hlen. unfold loop_ok. rewrite Hf, Hc.
  assert (forall i x, initClients c !! i = Some x -> ci_sd x = CLIENT_SLOT_AVAILABLE) as Hfree.
  { intros i x. unfold initClients. rewrite list_lookup_fmap. destruct (c !! i); [|done]. by intros [= <-]. }
  split; [|by left| | | |].
  - split; [done|]. split; [done|]. split; split; cbn; (set_solver || lia).
  - intros i x Hx. left. by eapply Hfree.
  - intros i j x y Hx _ _ Hn. by destruct (Hn (Hfree i x Hx)).
  - unfold initClients. rewrite length_fmap, Hlen. done.
  - unfold initClients. rewrite length_fmap, Hlen. unfold MAX_CLIENTS. lia.
Qed.

Variable qqparse : str -> str + pnode.
(** What the operations on the requests do not touch. *)
Ltac by_cases := repeat (case_match || simplify_option_eq); try done.
Lemma file_calm s r s' : writeRequestsToFile s = Some (r, s') -> calm s s'.
Proof. unfold writeRequestsToFile, openReqFile. intros H. by_cases. Qed.
Lemma append_calm x s r s' : appendReqToFile x s = Some (r, s') -> calm s s'.
Proof. unfold appendReqToFile, openReqFile. intros H. by_cases. Qed.
Lemma count_calm cmdline s s' : count_change cmdline s = Some s' -> calm s s'.
Proof.
  unfold count_change, flushRequestList, removeZombieRequestsInList. destruct (_ >=? _); [|by intros [= <-]].
  destruct (remove_zombies _ _) as [l|]; cbn [mbind option_bind]; [|done].
  destruct (writeRequestsToFile _) as [[r s1]|] eqn:Ef; cbn [mbind option_bind]; [|done]. intros [= <-].
  apply file_calm in Ef. exact Ef.
Qed.
Lemma remove_calm cmdline h s r s' : removeRequestWithHandle cmdline h s = Some (r, s') -> calm s s'.
Proof.
  unfold removeRequestWithHandle. destruct (list_find _ _) as [[i x]|]; [|by intros [= _ <-]].
  destruct (count_change _ _) as [s1|] eqn:Ec; cbn [mbind option_bind]; [|done]. intros [= _ <-]. by apply count_calm in Ec.
Qed.
Lemma register_calm cmdline ci m q fl s h s' : registerRequest qqparse cmdline ci m q fl s = Some (h, s') -> calm s s'.
Proof.
  unfold registerRequest. destruct (if streqb q "<null>" then _ else _) as [[st qu]|]; cbn [mbind option_bind]; [|done].
  destruct (negb (st =? 0)); [by intros [= _ <-]|]. destruct (negb _); [by intros [= _ <-]|].
  destruct (appendReqToFile _ _) as [[a s2]|] eqn:Ea; cbn [mbind option_bind]; [|done]. intros [= _ <-]. by apply append_calm in Ea.
Qed.
Lemma offer_all_calm cmdline signal_ok e b l : forall s l' s', offer_all cmdline signal_ok e b l s = Some (l', s') -> calm s s'.
Proof.
  induction l as [|r l IH]; intros s l' s'; cbn [offer_all]; [by intros [= _ <-]|].
  destruct (offer_event _ _ _ _ _ _) as [[r1 s1]|] eqn:Eo; cbn [mbind option_bind]; [|done].
  destruct (offer_all _ _ _ _ l s1) as [[l1 s2]|] eqn:Ea; cbn [mbind option_bind]; [|done]. intros [= _ <-]. apply IH in Ea.
  transitivity s1; [|done]. clear -Eo. revert Eo. unfold offer_event. destruct (negb _); [by intros [= _ <-]|].
  destruct (match nfy_query r with None => _ | Some _ => _ end) as [[|]|]; cbn [mbind option_bind negb]; [|by intros [= _ <-]|done].
  destruct (validateProc _ _ _) as [z|]; cbn [mbind option_bind]; [|done]. destruct (z =? -1); by intros [= _ <-].
Qed.

(** ** One request *)

Variables (write_ok signal_ok : nat -> bool) (malloc_ok : Z -> bool).

Lemma status_only d h st i r (s : nfyd) r' s' :
  (let '(x, s) := writeRequestStatus write_ok d h st s in if negb (x =? 0) then close i r s else Some (0, s)) = Some (r', s') ->
  only i s s'.
Proof.
  assert (calm s (snd (writeRequestStatus write_ok d h st s))) as Hq by done.
  destruct (writeRequestStatus _ _ _ _ _) as [x s1]. apply (calm_only i) in Hq. cbn [snd] in Hq.
  destruct (negb _); [intros Hc%close_only; by etransitivity|]. by intros [= _ <-].
Qed.
Lemma send_only i data s s' : send write_ok i data s = Some s' -> only i s s'.
Proof.
  unfold send. destruct (nclients s !! i) as [c|]; cbn [mbind option_bind]; [|done].
  assert (calm s (snd (reply write_ok (ci_sd c) data s))) as Hq by done.
  destruct (reply _ _ _ _) as [ok s1]. apply (calm_only i) in Hq. cbn [snd] in Hq.
  destruct ok; [by intros [= <-]|]. intros Hc%closed_only. by etransitivity.
Qed.
Lemma new_only cmdline i m stream s r s' : new_request qqparse cmdline write_ok malloc_ok i m stream s = Some (r, s') -> only i s s'.
Proof.
  unfold new_request. destruct (negb _); [by intros [= _ <-]|].
  destruct (_evlReadEx _ stream) as [[q|] rest]; [|by apply close_only]. destruct (_ <=? _); [done|].
  destruct (_evlReadEx 4 rest) as [[fl|] rest2]; [|by apply close_only].
  destruct (nclients s !! i) as [ci|]; cbn [mbind option_bind]; [|done].
  destruct (registerRequest _ _ _ _ _ _ _) as [[h s1]|] eqn:Er; cbn [mbind option_bind]; [|done].
  apply register_calm, (calm_only i) in Er.
  destruct (if h <? 0 then _ else _) as [[st s2]|] eqn:Es; cbn [mbind option_bind]; [|done].
  assert (only i s1 s2) as H12.
  { destruct (h <? 0); [by injection Es as _ <-|]. destruct (change_numofreg _ _ _) as [s3|] eqn:Ec; [|done]. injection Es as _ <-.
    by eapply numofreg_only. }
  intros Hc%status_only. transitivity s1; [done|]. by transitivity s2.
Qed.
Lemma rm_only cmdline i m s r s' : rm_request cmdline write_ok i m s = Some (r, s') -> only i s s'.
Proof.
  unfold rm_request. destruct (nclients s !! i) as [ci|]; cbn [mbind option_bind]; [|done].
  destruct (removeRequestWithHandle _ _ _) as [[st s1]|] eqn:Er; cbn [mbind option_bind]; [|done].
  apply remove_calm, (calm_only i) in Er.
  destruct (if st =? -1 then _ else _) as [[x s2]|] eqn:Es; cbn [mbind option_bind]; [|done].
  assert (only i s1 s2) as H12.
  { destruct (st =? -1); [by injection Es as _ <-|]. destruct (change_numofreg _ _ _) as [s3|] eqn:Ec; [|done]. injection Es as _ <-.
    by eapply numofreg_only. }
  intros Hc%status_only. transitivity s1; [done|]. by transitivity s2.
Qed.
Lemma get_only i m g s r s' : get_request_status write_ok i m g s = Some (r, s') -> only i s s'.
Proof.
  unfold get_request_status. destruct (send _ _ _ s) as [s1|] eqn:E1; cbn [mbind option_bind]; [|done]. apply send_only in E1.
  destruct (findRequest _ _) as [q|]; [|by intros [= _ <-]].
  destruct (match nfy_query q with None => _ | Some _ => _ end) as [text|]; cbn [mbind option_bind]; [|done].
  destruct (send _ _ _ s1) as [s2|] eqn:E2; cbn [mbind option_bind]; [|done]. apply send_only in E2.
  destruct (strlen text >? 0); [|intros [= _ <-]; by transitivity s1].
  destruct (send _ _ _ s2) as [s3|] eqn:E3; cbn [mbind option_bind]; [|done]. apply send_only in E3.
  intros [= _ <-]. transitivity s1; [done|]. by transitivity s2.
Qed.
Lemma process_only cmdline i stream g s r s' :
  processClientRequest qqparse cmdline write_ok malloc_ok i stream g s = Some (r, s') -> only i s s'.
Proof.
  unfold processClientRequest. destruct (_evlReadEx _ stream) as [[bs|] rest]; [|by apply close_only].
  repeat case_match; [by apply new_only|by apply rm_only|by apply get_only|by intros [= _ <-]..].
Qed.

(** ** The clients with data *)

Definition serve_all (cmdline : Z -> option (list Z)) (garbage : Z) : list (nat * list Z) -> nfyd -> option nfyd :=
  fix serve l s :=
    match l with
    | [] => Some s
    | (i, stream) :: l' =>
        '(_, s) ← processClientRequest qqparse cmdline write_ok malloc_ok i stream garbage s; serve l' s
    end.
(** The slots of the clients with data, and what they sent. *)
Fixpoint due (ready : Z -> option (list Z)) (i : nat) (l : list clientinfo_t) : list (nat * list Z) :=
  match l with
  | [] => []
  | c :: l' =>
      match (if ci_sd c =? CLIENT_SLOT_AVAILABLE then None else ready (ci_sd c)) with
      | Some stream => (i, stream) :: due ready (S i) l'
      | None => due ready (S i) l'
      end
  end.
Lemma due_sds ready l : forall i l', ci_sd <$> l = ci_sd <$> l' -> due ready i l = due ready i l'.
Proof.
  induction l as [|c l IH]; intros i [|c' l']; [done..|]. rewrite !fmap_cons. intros [= Hc Hl]. cbn [due]. by rewrite Hc, (IH (S i) l' Hl).
Qed.
Lemma due_free ready l : forall i, (forall j c, l !! j = Some c -> ci_sd c = CLIENT_SLOT_AVAILABLE) -> due ready i l = [].
Proof.
  induction l as [|c l IH]; intros i Hl; [done|]. cbn [due]. rewrite (Hl 0%nat c eq_refl), Z.eqb_refl.
  apply IH. intros j c' Hj. exact (Hl (S j) c' Hj).
Qed.
Lemma due_spec ready l : forall i,
  StronglySorted lt (fst <$> due ready i l) /\ Forall (fun x => (i <= x)%nat) (fst <$> due ready i l) /\
  forall j c stream, l !! j = Some c -> ci_sd c <> CLIENT_SLOT_AVAILABLE -> ready (ci_sd c) = Some stream ->
    ((i + j)%nat, stream) ∈ due ready i l.
Proof.
  induction l as [|c l IH]; intros i; [split; [constructor|split; [constructor|done]]|]. destruct (IH (S i)) as (H1 & H2 & H3).
  assert (Forall (fun x => (i <= x)%nat) (fst <$> due ready (S i) l)) as H4 by (eapply Forall_impl; [exact H2|]; cbn; lia).
  assert (forall j c' stream, (c :: l) !! S j = Some c' -> ci_sd c' <> CLIENT_SLOT_AVAILABLE -> ready (ci_sd c') = Some stream ->
    ((i + S j)%nat, stream) ∈ due ready (S i) l) as H5.
  { intros j c' st Hj Hc Hr. rewrite Nat.add_succ_r. exact (H3 j c' st Hj Hc Hr). }
  cbn [due]. destruct (ci_sd c =? _) eqn:Ec; bprop.
  { split; [done|]. split; [done|]. intros [|j] c' st Hj Hc Hr; [|by eapply H5]. by injection Hj as ->. }
  destruct (ready (ci_sd c)) as [b|] eqn:Eb; rewrite ?fmap_cons; cbn [fst].
  - split; [by constructor|]. split; [by constructor|]. intros [|j] c' st Hj Hc' Hr; [|right; by eapply H5].
    injection Hj as <-. rewrite Nat.add_0_r. rewrite Eb in Hr. injection Hr as ->. left.
  - split; [done|]. split; [done|]. intros [|j] c' st Hj Hc' Hr; [|by eapply H5]. injection Hj as <-. congruence.
Qed.

Lemma serve_spec cmdline ready g fuel : forall i s, loop_ok s -> (length (nclients s) < i + fuel)%nat ->
  serve_clients qqparse cmdline write_ok malloc_ok fuel i ready g s = serve_all cmdline g (due ready i (drop i (nclients s))) s.
Proof.
  induction fuel as [|fuel IH]; intros i s Hok Hf; pose proof Hok as [_ _ Hs _ Hm _].
  - cbn [serve_clients]. destruct (_ <? _) eqn:E; bprop; [|lia]. rewrite drop_ge by lia. done.
  - cbn [serve_clients]. destruct (_ <? _) eqn:E; bprop.
    + rewrite due_free; [done|]. intros j c Hj. rewrite lookup_drop in Hj. destruct (Hs _ c Hj) as [|[_ _ Hi _]]; [done|lia].
    + destruct (nclients s !! i) as [c|] eqn:Ec; [|apply lookup_ge_None in Ec; lia].
      rewrite (drop_S _ c) by done. cbn [mbind option_bind due].
      destruct (ci_sd c =? _) eqn:Ea; cbn [mbind option_bind]; [by apply IH; [|lia]|].
      destruct (ready (ci_sd c)) as [b|]; cbn [mbind option_bind]; [|by apply IH; [|lia]]. cbn [serve_all].
      destruct (processClientRequest _ _ _ _ _ _ _ _) as [[r s1]|] eqn:Ep; cbn [mbind option_bind]; [|done].
      apply process_only in Ep as [Hok1 Hlen Hoth]. rewrite IH by (rewrite ?Hlen; (lia || auto)). f_equal. apply due_sds.
      apply list_eq. intros j. rewrite !list_lookup_fmap, !lookup_drop. apply Hoth. lia.
Qed.

(** ** Connections that come and go *)

(** A descriptor that is not in use; those of the listening sockets are the lowest. *)
Record fresh (d : Z) (s : nfyd) : Prop := {
  fr_above : above d;
  fr_evlogd : d <> evlogd_sd (fds s);
  fr_clients : forall i c, nclients s !! i = Some c -> ci_sd c <> d
}.
Definition fresh_selected (x : selected) (s : nfyd) : Prop :=
  (forall d, from_evlogd x = Some d -> fresh d s) /\
  (forall d cred allowed, from_client x = Some (d, cred, allowed) -> fresh d s /\ from_evlogd x <> Some d).

(** More is watched. *)
Lemma watch_more newsd w w' : watch_new newsd w = Some w' ->
  watched newsd w' /\ (forall d, watched d w -> watched d w') /\ maxci w' = maxci w /\ evlogd_sd w' = evlogd_sd w.
Proof.
  unfold watch_new, FD_SET. destruct (_ && _); cbn [mbind option_bind]; [|done]. intros [= <-].
  split; [split; [cbn; set_solver|cbn; lia]|]. split; [|done]. intros d [H1 H2]. split; [cbn; set_solver|cbn; lia].
Qed.
Lemma watch_new_ok newsd w w' l : watch_new newsd w = Some w' -> fds_ok w l -> fds_ok w' l.
Proof.
  intros (_ & Hw & Hc & He)%watch_more [(H0 & H1 & H2 & H3) H4 Hs Hd Hm Hn]. split; rewrite ?Hc, ?He; [by auto| | |done..].
  - destruct H4 as [|[]]; [by left|right; by auto].
  - intros i c Hi. destruct (Hs i c Hi) as [|[]]; [by left|right]. split; rewrite ?Hc, ?He; auto.
Qed.
Lemma accept_evlogd_ok newsd s s' : fresh newsd s -> accept_evlogd newsd s = Some s' -> loop_ok s -> loop_ok s'.
Proof.
  intros [Hab Hne Hcl]. unfold accept_evlogd. destruct (watch_new newsd (fds s)) as [w|] eqn:Ew; cbn [mbind option_bind]; [|done].
  intros [= <-] Hok. pose proof (watch_new_ok _ _ _ _ Ew Hok) as [H1 _ Hs Hd Hm Hn]. apply watch_more in Ew as ([Hs1 Hs2] & _ & _ & _).
  split; [|right|..]; [|done| |done..].
  - destruct H1 as (H1 & H2 & [] & []). split; [done|]. split; [done|]. by split; split.
  - intros i c Hi. destruct (Hs i c Hi) as [|[H2 [] H4 _]]; [by left|right]. split; [done|by split|done|by eapply Hcl].
Qed.
Lemma free_slot_spec l : forall idx m empty m' e', m <= Z.of_nat idx -> free_slot l idx m empty = (m', e') ->
  m <= m' < Z.max (Z.of_nat idx + Z.of_nat (length l)) (m + 1) /\
  (forall j c, l !! j = Some c -> ci_sd c <> CLIENT_SLOT_AVAILABLE -> Z.of_nat (idx + j) <= m') /\
  (forall i, e' = Some i -> empty = Some i \/ Z.of_nat i <= m' /\
     exists j c, i = (idx + j)%nat /\ l !! j = Some c /\ ci_sd c = CLIENT_SLOT_AVAILABLE).
Proof.
  induction l as [|c l IH]; intros idx m empty m' e' Hm; cbn [free_slot length].
  { intros [= <- <-]. split; [lia|]. split; [done|]. by left. }
  assert (forall m1 em1, m <= m1 <= Z.of_nat idx -> free_slot l (S idx) m1 em1 = (m', e') ->
    (ci_sd c <> CLIENT_SLOT_AVAILABLE -> m1 = Z.of_nat idx) ->
    (forall i, em1 = Some i -> empty = Some i \/ i = idx /\ m1 = Z.of_nat idx /\ ci_sd c = CLIENT_SLOT_AVAILABLE) ->
    m <= m' < Z.max (Z.of_nat idx + Z.of_nat (S (length l))) (m + 1) /\
    (forall j c0, (c :: l) !! j = Some c0 -> ci_sd c0 <> CLIENT_SLOT_AVAILABLE -> Z.of_nat (idx + j) <= m') /\
    (forall i, e' = Some i -> empty = Some i \/ Z.of_nat i <= m' /\
       exists j c0, i = (idx + j)%nat /\ (c :: l) !! j = Some c0 /\ ci_sd c0 = CLIENT_SLOT_AVAILABLE)) as Hstep.
  { intros m1 em1 Hm1 Hf Hu He. apply IH in Hf as (H1 & H2 & H3); [|lia]. split; [lia|]. split.
    - intros [|j] c0 Hj Hc; [injection Hj as ->; specialize (Hu Hc); lia|]. specialize (H2 j c0 Hj Hc). lia.
    - intros i Hi. destruct (H3 i Hi) as [Hem|(Hle & j & c0 & -> & Hj & Hc)].
      + destruct (He i Hem) as [|(-> & -> & Hc)]; [by left|right]. split; [lia|]. exists 0%nat, c. split; [lia|]. by split.
      + right. split; [lia|]. exists (S j), c0. split; [lia|]. by split. }
  destruct (ci_sd c =? CLIENT_SLOT_AVAILABLE) eqn:Ec; bprop; cbn [negb].
  - destruct empty as [i0|]; intros Hf; (eapply Hstep; [|exact Hf|done|]); [lia|by left|lia|]. intros i [= <-]. right. done.
  - intros Hf. eapply Hstep; [|exact Hf|done|]; [lia|]. by left.
Qed.
Lemma maxci_ok m w l : fds_ok w l -> m < Z.of_nat (length l) ->
  (forall j c, l !! j = Some c -> ci_sd c <> CLIENT_SLOT_AVAILABLE -> Z.of_nat j <= m) -> fds_ok (set_maxci m w) l.
Proof.
  intros [H1 H2 Hs Hd _ Hn] Hm Hj. split; [| | |done..].
  - destruct H1 as (H1 & H3 & [] & []). split; [done|]. split; [done|]. by split; split.
  - destruct H2 as [|[? []]]; [by left|right]. by split; [|split].
  - intros i c Hi. destruct (Z.eq_dec (ci_sd c) CLIENT_SLOT_AVAILABLE) as [Ha|Ha]; [by left|right].
    destruct (Hs i c Hi) as [|[H3 [] _ H5]]; [done|]. split; [done|by split|by eapply Hj|done].
Qed.
Lemma accept_client_ok newsd cred allowed s s' : fresh newsd s ->
  accept_client write_ok newsd cred allowed s = Some s' -> loop_ok s -> loop_ok s'.
Proof.
  intros [Hab Hne Hcl] Ha Hok. pose proof Hok as [_ _ _ _ _ Hn]. unfold accept_client in Ha.
  destruct (free_slot _ _ _ _) as [m empty] eqn:Ef. destruct (free_slot_spec (nclients s) 0 0 None m empty ltac:(done) Ef) as (H1 & H2 & H3).
  assert (fds_ok (set_maxci m (fds s)) (nclients s)) as Hok1 by (apply maxci_ok; [done|lia|exact H2]).
  destruct empty as [i|]; [|by injection Ha as <-]. destruct cred as [[uid p]|]; [|by injection Ha as <-].
  destruct allowed; [|by injection Ha as <-]. cbn [nclients set_fds] in Ha. destruct (nclients s !! i) as [c|] eqn:Ec; cbn [mbind option_bind] in Ha; [|done].
  set (r := snd _) in Ha. change (fds r) with (set_maxci m (fds s)) in Ha. change (nclients r) with (nclients s) in Ha.
  destruct (watch_new newsd _) as [w|] eqn:Ew; cbn [mbind option_bind] in Ha; [|done]. injection Ha as <-.
  destruct (H3 i eq_refl) as [|(Hi & j & c0 & -> & Hj & Hfree)]; [done|]. cbn in Hj, Hi. cbn in Ec. rewrite Hj in Ec. injection Ec as ->.
  pose proof (watch_new_ok _ _ _ _ Ew Hok1) as [G1 G2 G3 G4 G5 G6]. apply watch_more in Ew as (Hw & _ & Hci & Hev).
  set (c' := mkClient newsd uid p (numofreg c)). cbn [Nat.add] in *.
  assert (forall k x, <[j := c']> (nclients s) !! k = Some x -> k = j /\ x = c' \/ k <> j /\ nclients s !! k = Some x) as Hl.
  { intros k x Hk. destruct (decide (k = j)) as [->|Hkj]; [left|right].
    - rewrite list_lookup_insert_eq in Hk by (by eapply lookup_lt_Some). by injection Hk as <-.
    - by rewrite list_lookup_insert_ne in Hk. }
  split; cbn [fds nclients set_fds set_clients]; [done|done| | |by rewrite length_insert..].
  - intros k x Hk. destruct (Hl k x Hk) as [[-> ->]|[_ Hx]]; [right|by apply G3]. split; [done|done|by rewrite Hci|by rewrite Hev].
  - intros k1 k2 x y Hk1 Hk2 Hxy Hx. destruct (Hl k1 x Hk1) as [[-> ->]|[_ Hx1]], (Hl k2 y Hk2) as [[-> ->]|[_ Hy1]]; [done| | |by eapply G4].
    + cbn in Hxy. by destruct (Hcl k2 y Hy1).
    + cbn in Hxy. by destruct (Hcl k1 x Hx1).
Qed.
Lemma fresh_after newsd d s s' : fresh d s -> newsd <> d -> accept_evlogd newsd s = Some s' -> fresh d s'.
Proof.
  intros [H1 H2 H3] Hne. unfold accept_evlogd. destruct (watch_new _ _) as [w|]; cbn [mbind option_bind]; [|done]. intros [= <-]. by split.
Qed.
Lemma event_cases cmdline d stream s r s' : processEvent cmdline signal_ok d stream s = Some (r, s') ->
  r = 0 /\ calm s s' \/ r = -1 /\ closeSocket d s = Some s'.
Proof.
  assert (forall x, (s1 ← closeSocket d s; Some (-1, s1)) = Some x -> fst x = -1 /\ closeSocket d s = Some (snd x)) as Hc.
  { intros x. destruct (closeSocket d s) as [s2|]; cbn [mbind option_bind]; [|done]. by intros [= <-]. }
  assert (forall e b, ('(l, s) ← offer_all cmdline signal_ok e b (pNfyReqList s) s; Some (0, set_list l s)) = Some (r, s') -> r = 0 /\ calm s s') as Ho.
  { intros e b. destruct (offer_all _ _ _ _ _ _) as [[l s1]|] eqn:E; cbn [mbind option_bind]; [|done]. intros [= <- <-].
    apply offer_all_calm in E. by split. }
  unfold processEvent. destruct (_evlReadEx _ stream) as [[hdr|] rest]; [|intros H%Hc; by right]. destruct (_ <=? 0); [intros H%Ho; by left|].
  destruct (_evlReadEx _ rest) as [[data|] rest2]; [|intros H%Hc; by right]. destruct (_ >? _); [done|intros H%Ho; by left].
Qed.
Lemma serve_evlogd_ok cmdline ready s s' : serve_evlogd cmdline signal_ok ready s = Some s' -> loop_ok s -> loop_ok s'.
Proof.
  unfold serve_evlogd. destruct (_ >? 0) eqn:Epos; [|by intros [= <-]]. destruct (ready _) as [stream|]; [|by intros [= <-]].
  destruct (processEvent _ _ _ _ _) as [[r s1]|] eqn:Ep; cbn [mbind option_bind]; [|done]. intros [= <-] Hok.
  destruct (event_cases _ _ _ _ _ _ Ep) as [[-> [Hf Hc]]|[-> Hclose]]; cbn [Z.eqb Pos.eqb].
  { unfold loop_ok. by rewrite Hf, Hc. }
  destruct Hok as [(H0 & H1 & H2 & H3) He Hs Hd Hm Hn]. bprop. destruct He as [He|[[Ha1 [Ha2 Ha3]] [_ He2]]]; [lia|].
  unfold closeSocket in Hclose. set (d := evlogd_sd (fds s)) in *. destruct (FD_CLR d (fds s)) as [w|] eqn:Ew; cbn [mbind option_bind] in Hclose; [|done].
  unfold FD_CLR in Ew. destruct (_ && _); [|done]. injection Ew as Ew. set (w1 := if d =? maxsd w then set_maxsd (maxsd w - 1) w else w) in *.
  injection Hclose as <-.
  assert (forall x, watched x (fds s) -> x <> d -> watched x (set_evlogd 0 w1)) as Hw.
  { intros x [Hx1 Hx2] Hxd. unfold w1. subst w. cbn [maxsd]. pose proof (not_closed d x (fds s) Hx1 Hxd) as Hin.
    destruct (d =? maxsd (fds s)) eqn:E; split; cbn [all_sds maxsd set_evlogd set_maxsd]; [done|apply Z.eqb_eq in E; lia|done|done]. }
  assert (maxci (set_evlogd 0 w1) = maxci (fds s)) as Hci by (unfold w1; subst w; by destruct (_ =? _)).
  split; cbn [fds set_fds nclients]; [|by left| |done|by rewrite Hci|done].
  - split; [done|]. split; [done|]. split; apply Hw; (done || lia).
  - intros i c Hi. destruct (Hs i c Hi) as [|[G1 G2 G3 G4]]; [by left|right]. split; [done|by apply Hw|by rewrite Hci|].
    cbn. destruct G1 as [_ [_ G1]]. lia.
Qed.
Lemma serve_all_ok cmdline g l : forall s s', serve_all cmdline g l s = Some s' -> loop_ok s -> loop_ok s'.
Proof.
  induction l as [|[i stream] l IH]; intros s s'; cbn [serve_all]; [by intros [= <-]|].
  destruct (processClientRequest _ _ _ _ _ _ _ _) as [[r s1]|] eqn:Ep; cbn [mbind option_bind]; [|done]. intros Hs Hok.
  apply process_only in Ep. apply (IH s1); [done|]. by apply (on_ok i s).
Qed.
(** Once around the loop. *)
Inductive loop_step : nfyd -> nfyd -> Prop :=
  | loop_once cmdline x garbage s s' : fresh_selected x s ->
      iteration qqparse cmdline write_ok signal_ok malloc_ok x garbage s = Some s' -> loop_step s s'.
Lemma loop_step_ok s s' : loop_step s s' -> loop_ok s -> loop_ok s'.
Proof.
  intros [cmdline x g s1 s1' [Hfe Hfc] Hit] Hok. unfold iteration in Hit.
  destruct (match from_evlogd x with None => _ | Some _ => _ end) as [s2|] eqn:E1; cbn [mbind option_bind] in Hit; [|done].
  assert (loop_ok s2 /\ forall d, fresh d s1 -> from_evlogd x <> Some d -> fresh d s2) as [Hok2 Hfr].
  { destruct (from_evlogd x) as [d|]; [|by injection E1 as <-]. split; [by eapply accept_evlogd_ok; [apply Hfe|exact E1|]|].
    intros d' Hd' Hne. eapply fresh_after; [exact Hd'| |exact E1]. congruence. }
  destruct (match from_client x with None => _ | Some _ => _ end) as [s3|] eqn:E2; cbn [mbind option_bind] in Hit; [|done].
  assert (loop_ok s3) as Hok3.
  { destruct (from_client x) as [[[d cred] al]|]; [|by injection E2 as <-]. destruct (Hfc d cred al eq_refl) as [Hd Hne].
    by eapply accept_client_ok; [apply Hfr|exact E2|]. }
  destruct (serve_evlogd _ _ _ s3) as [s4|] eqn:E3; cbn [mbind option_bind] in Hit; [|done].
  assert (loop_ok s4) as Hok4 by (by eapply serve_evlogd_ok).
  rewrite serve_spec in Hit by (done || lia). by eapply serve_all_ok.
Qed.
End Loop.

(** ** Properties *)

Section LoopProps.
Context `{HL : HostLib} `{RL : RegexLib} `{TL : TemplateLib}.
Variable qqparse : str -> str + pnode.
Variables (write_ok signal_ok : nat -> bool) (malloc_ok : Z -> bool).
Variables listen_evlogd_sd listen_sd : Z.
#[local] Abbreviation loop_step := (loop_step listen_evlogd_sd listen_sd qqparse write_ok signal_ok malloc_ok).


(** C33: each time around, every client that has sent something is served, once and in
    the order of the slots, whatever happens to the clients before it; the walk over
    the slots always comes to its end. *)
Theorem ready_clients_are_served cmdline ready g s :
  loop_ok listen_evlogd_sd listen_sd s ->
  serve_clients qqparse cmdline write_ok malloc_ok (S (length (nclients s))) 0 ready g s =
    serve_all qqparse write_ok malloc_ok cmdline g (due ready 0 (nclients s)) s /\
  StronglySorted lt (fst <$> due ready 0 (nclients s)) /\
  forall i c stream, nclients s !! i = Some c -> ci_sd c <> CLIENT_SLOT_AVAILABLE -> ready (ci_sd c) = Some stream ->
    (i, stream) ∈ due ready 0 (nclients s).
Proof.
  intros Hok. rewrite (serve_spec listen_evlogd_sd listen_sd qqparse write_ok malloc_ok) by (done || lia). split; [done|].
  destruct (due_spec ready (nclients s) 0) as (H1 & _ & H3). split; [done|exact H3].
Qed.
End LoopProps.

(** ** Witnesses *)

(** Two clients connect, the first sends a request and the second hangs up. *)
Definition start_nfyd : @nfyd sample_regex :=
  mkNfyd [] 0 0 (initClients (replicate MAX_CLIENTS (mkClient 0 0 0 0))) (Some []) [] [] 0 0 (start_fds 3 4).
Definition connects (d : Z) : selected := mkSelected None (Some (d, Some (0, 77), true)) (fun _ => None).
Definition both_ready : selected :=
  mkSelected (Some 7) None (fun d => if d =? 5 then Some sample_client_input else if d =? 6 then Some [] else None).
Definition sample_iteration (x : selected) (s : @nfyd sample_regex) : option nfyd :=
  @iteration sample_machine sample_regex sample_templates sample_parse sample_cmdline (fun _ => true) (fun _ => true) (fun _ => true) x 0 s.
Definition after1 : nfyd := default start_nfyd (sample_iteration (connects 5) start_nfyd).
Definition after2 : nfyd := default start_nfyd (sample_iteration (connects 6) after1).
Definition after3 : nfyd := default start_nfyd (sample_iteration both_ready after2).

Lemma slots_but (P : clientinfo_t -> bool) (l : list clientinfo_t) : forallb P l = true -> forall i c, l !! i = Some c -> P c = true.
Proof. rewrite forallb_forall. intros H i c Hi. apply H, list_elem_of_In, (list_elem_of_lookup_2 _ i), Hi. Qed.
Lemma fresh_sample d s : (forallb (fun c => negb (ci_sd c =? d)) (nclients s) && negb (d =? evlogd_sd (fds s)) && (4 <? d) && (d <? 1024)) = true ->
  @fresh sample_regex 3 4 d s.
Proof.
  intros H. bprop. split; [unfold above, FD_SETSIZE; lia|by intros ->|].
  intros i c Hc Hd. pose proof (slots_but _ _ ltac:(eassumption) i c Hc) as Hb. cbn in Hb. bprop. done.
Qed.
Lemma sample_loop x s s' : sample_iteration x s = Some s' -> fresh_selected 3 4 x s ->
  @loop_step sample_machine sample_regex sample_templates 3 4 sample_parse (fun _ => true) (fun _ => true) (fun _ => true) s s'.
Proof. intros Hi Hf. by eapply loop_once with (cmdline := sample_cmdline) (x := x) (garbage := 0). Qed.
Lemma sample_run : rtc (@loop_step sample_machine sample_regex sample_templates 3 4 sample_parse (fun _ => true) (fun _ => true) (fun _ => true))
  start_nfyd after3.
Proof.
  apply (rtc_l _ _ after1); [apply (sample_loop (connects 5))|apply (rtc_l _ _ after2); [apply (sample_loop (connects 6))|
    apply rtc_once, (sample_loop both_ready)]].
  1, 3, 5: vm_compute; reflexivity.
  - split; [done|]. intros d cred al [= <- <- <-]. split; [|done]. apply fresh_sample. vm_compute. reflexivity.
  - split; [done|]. intros d cred al [= <- <- <-]. split; [|done]. apply fresh_sample. vm_compute. reflexivity.
  - split; [|done]. intros d [= <-]. apply fresh_sample. vm_compute. reflexivity.
Qed.
Lemma ready_clients_are_served_witness : loop_ok 3 4 after2 /\
  (0%nat, sample_client_input) ∈ due (readable both_ready) 0 (nclients after2).
Proof.
  assert (@loop_ok sample_regex 3 4 after2) as Hok.
  { eapply loop_step_ok with (s := after1); [apply (sample_loop (connects 6)); [vm_compute; reflexivity|]|].
    - split; [done|]. intros d cred al [= <- <- <-]. split; [|done]. apply fresh_sample. vm_compute. reflexivity.
    - eapply loop_step_ok with (s := start_nfyd); [apply (sample_loop (connects 5)); [vm_compute; reflexivity|]|].
      + split; [done|]. intros d cred al [= <- <- <-]. split; [|done]. apply fresh_sample. vm_compute. reflexivity.
      + by apply start_ok with (c := replicate MAX_CLIENTS (mkClient 0 0 0 0)). }
  split; [exact Hok|].
  destruct (@ready_clients_are_served sample_machine sample_regex sample_parse (fun _ => true) (fun _ => true) 3 4 sample_cmdline
    (readable both_ready) 0 after2 Hok) as (_ & _ & Hd).
  apply (Hd 0%nat (default (mkClient 0 0 0 0) (head (nclients after2)))); vm_compute; [reflexivity|discriminate|reflexivity].
Defined.
