(* ===== verification/NotifyApi.v ===== *)
(** * The notification API ([lib/posix1.c]) and the daemon it talks to

    [posix_log_notify_add], [_get] and [_remove] connect to the notification daemon,
    send one message, read the answer and hang up.  They are written against [server],
    the operations of whatever they are connected to; [evlnotifyd] is the daemon of
    [Notifyd] as such a server.  What a structure or a block holds before it is set is
    an argument.  The outer [None] is undefined behaviour. *)
From S2P Require Import Prelude NvPairs LogRecord FacReg Hosts MemStr Query QEvaluate QSamples QueryApi Files NfyMsg Notifyd.

Definition POSIX_LOG_NFY_MASK : Z := 0x07.

(** -1 for a refusal. *)
Definition isAccess (abyte : Z) : Z :=
  if abyte =? NFY_ACCESS_DENIED then -1 else if abyte =? NFY_MAX_CLIENTS then -1 else 0.

(** A connection: the byte that grants or denies access, or [None] when it fails; what
    can be read after some bytes were sent, which is nothing when it breaks. *)
Record server (W : Type) := mkServer {
  sv_connect : W -> option (option Z * W);
  sv_exchange : list Z -> W -> option (list Z * W);
  sv_disconnect : W -> option W
}.
Arguments sv_connect {W}.
Arguments sv_exchange {W}.
Arguments sv_disconnect {W}.

Section NotifyApi.
Context `{HL : HostLib} `{RL : RegexLib} `{TL : TemplateLib}.
Context {W : Type} (sv : server W).

(** [read(sd, p, n)] of what was sent: [None] when there is nothing. *)
Definition read_answer (n : nat) (old stream : list Z) : option (list Z * list Z) :=
  match take n stream with
  | [] => None
  | got => Some (overwrite old got, drop n stream)
  end.
(** The part that the three functions share: [fail] without a connection, [deny]
    without access. *)
Definition with_connection {A} (fail deny : A) (body : W -> option (A * W)) (w : W) : option (A * W) :=
  '(c, w) ← sv_connect sv w;
  match c with
  | None => Some (fail, w)
  | Some abyte =>
      '(r, w) ← (if isAccess abyte =? -1 then Some (deny, w) else body w);
      w ← sv_disconnect sv w;
      Some (r, w)
  end.

(** [query_flags] and the query's text, or an error. *)
Definition notify_query (query : option posix_log_query_t) : Z + option (Z * str) :=
  match query with
  | None => inr (Some (0, "<null>"%string))
  | Some q =>
      if _evlValidateQuery query true =? -1 then inl EINVAL
      else if (Z.land (qu_purpose q) POSIX_LOG_PRPS_NOTIFY =? 0) && (Z.land (qu_purpose q) POSIX_LOG_PRPS_GENERAL =? 0) &&
              (Z.land (qu_purpose q) EVL_PRPS_TEMPLATE =? 0)
      then inl ENOTSUP
      else inr (match qu_expr q with Some text => Some (qu_purpose q, text) | None => None end)
  end.
(** The status and the handle. *)
Definition add_answer (resp stream : list Z) : Z * option Z :=
  match read_answer 24 resp stream with
  | None => (EAGAIN, None)
  | Some (resp, _) =>
      let resp := msghdr_of_bytes resp in
      if nhStatus resp <? 0 then (- nhStatus resp, None) else (0, Some (nhReqHandle resp))
  end.
(** The message, the query's text, which [write] refuses to send when it is empty, and
    the answer. *)
Definition add_exchange (m : nfyNewRqMsg_t) (text : str) (query_flags : Z) (resp : list Z) (w : W)
  : option (Z * option Z * W) :=
  if strlen text =? 0 then '(_, w) ← sv_exchange sv (newrq_bytes m) w; Some (EAGAIN, None, w)
  else
    '(stream, w) ← sv_exchange sv (newrq_bytes m ++ bytes_of text ++ le_encode 4 query_flags) w;
    Some (add_answer resp stream, w).
(** The status and what is stored through [nfyhandle]. *)
Definition posix_log_notify_add (query : option posix_log_query_t) (notification : option sigevent) (flags : Z)
  (newReq : nfyMsgHdr_t) (resp : list Z) (w : W) : option (Z * option Z * W) :=
  match notification with
  | None => Some (EINVAL, None, w)
  | Some ev =>
      if sigev_notify ev =? SIGEV_THREAD then Some (ENOTSUP, None, w)
      else if negb (sigev_notify ev =? SIGEV_SIGNAL) then Some (EINVAL, None, w)
      else if flags >? POSIX_LOG_NFY_MASK then Some (EINVAL, None, w)
      else
        let flags := if (Z.land flags POSIX_LOG_SEND_RECID =? 0) && (Z.land flags POSIX_LOG_SEND_SIGVAL =? 0)
                     then Z.lor flags POSIX_LOG_SEND_SIGVAL else flags in
        match notify_query query with
        | inl err => Some (err, None, w)
        | inr None => None
        | inr (Some (query_flags, text)) =>
            let m := mkNewRq (mkMsgHdr nmtNewRequest (nhReqHandle newReq) (nhStatus newReq)) (strlen text) ev flags in
            with_connection (EAGAIN, None) (EPERM, None) (add_exchange m text query_flags resp) w
        end
  end.

Record nfy_info := mkInfo { ni_event : sigevent; ni_flags : Z; ni_query : str }.
(** What is read of the answer: the status, [*reqlen], and what is stored through the
    other pointers. *)
Definition get_answer (resp returnReq : list Z) (malloc : Z -> option (list Z)) (qslen : Z) (stream : list Z)
  : Z * Z * option nfy_info :=
  match read_answer 24 resp stream with
  | None => (EAGAIN, 0, None)
  | Some (resp, stream) =>
      if nhStatus (msghdr_of_bytes resp) =? nrsNoRequest then (EINVAL, 0, None)
      else
        match read_answer 104 returnReq stream with
        | None => (EAGAIN, 0, None)
        | Some (ret, stream) =>
            let ret := newrq_of_bytes ret in
            let reqlen := u64 (nwQueryLength ret + 1) in
            if nwQueryLength ret >? 0 then
              match malloc reqlen with
              | None => (ENOMEM, reqlen, None)
              | Some block =>
                  match read_answer (Z.to_nat (nwQueryLength ret)) block stream with
                  | None => (EAGAIN, reqlen, None)
                  | Some (block, _) =>
                      if qslen <? reqlen then (EMSGSIZE, reqlen, None)
                      else (0, reqlen, Some (mkInfo (nwSigevent ret) (nwFlags ret)
                                               (cstring (take (Z.to_nat (nwQueryLength ret)) block))))
                  end
              end
            else (0, reqlen, Some (mkInfo (nwSigevent ret) (nwFlags ret) EmptyString))
        end
  end.
(** [qsbuf] is a buffer of [qslen] bytes; the other pointers are not null.  [malloc]
    gives a block with what it holds. *)
Definition posix_log_notify_get (nfyhandle : Z) (qslen : option Z) (newReq : nfyNewRqMsg_t) (resp returnReq : list Z)
  (malloc : Z -> option (list Z)) (w : W) : option (Z * Z * option nfy_info * W) :=
  match qslen with
  | None => Some (EMSGSIZE, 0, None, w)
  | Some qslen =>
      let m := mkNewRq (mkMsgHdr nmtGetRequestStatus nfyhandle (nhStatus (nwHeader newReq))) (nwQueryLength newReq)
                 (nwSigevent newReq) (nwFlags newReq) in
      with_connection (EAGAIN, 0, None) (EPERM, 0, None)
        (fun w => '(stream, w) ← sv_exchange sv (newrq_bytes m) w; Some (get_answer resp returnReq malloc qslen stream, w)) w
  end.

Definition remove_answer (resp stream : list Z) : Z :=
  match read_answer 24 resp stream with
  | None => EAGAIN
  | Some (resp, _) => if nhStatus (msghdr_of_bytes resp) =? nrsNoRequest then EINVAL else 0
  end.
Definition posix_log_notify_remove (nfyhandle : Z) (newReq : nfyNewRqMsg_t) (resp : list Z) (w : W) : option (Z * W) :=
  if nfyhandle =? 0 then Some (EINVAL, w)
  else
    let m := mkNewRq (mkMsgHdr nmtRmRequest nfyhandle (nhStatus (nwHeader newReq))) (nwQueryLength newReq)
               (nwSigevent newReq) (nwFlags newReq) in
    with_connection EAGAIN EINVAL
      (fun w =>
         '(stream, w) ← sv_exchange sv (newrq_bytes m) w;
         Some (remove_answer resp stream, w)) w.
End NotifyApi.

(** ** The daemon as a server *)

Section Daemon.
Context `{HL : HostLib} `{RL : RegexLib} `{TL : TemplateLib}.
Variable qqparse : str -> str + pnode.
Variable cmdline : Z -> option (list Z).
Variables (write_ok : nat -> bool) (malloc_ok : Z -> bool).
(** The client's end: the descriptor that the daemon gets for it, its user and process,
    whether the user can open a log, and uninitialized memory. *)
Variables (newsd uid pid : Z) (allowed : bool) (garbage junk : Z).

(** The bytes that [s'] has written to descriptor [d] since [s]. *)
Definition written (d : Z) (s s' : nfyd) : list Z :=
  concat (snd <$> List.filter (fun x => fst x =? d) (drop (length (replies s)) (replies s'))).
(** The slot of the connection, and the daemon.  When it hangs up, there is nothing to
    read. *)
Definition evlnotifyd : server (option nat * nfyd) :=
  mkServer _
    (fun '(_, s) =>
       s' ← accept_client write_ok newsd (Some (uid, pid)) allowed s;
       Some (Some (default junk (head (written newsd s s'))),
             (fst <$> list_find (fun c => ci_sd c = newsd) (nclients s'), s')))
    (fun sent '(slot, s) =>
       match slot with
       | None => Some ([], (None, s))
       | Some i =>
           '(_, s') ← processClientRequest qqparse cmdline write_ok malloc_ok i sent garbage s;
           Some (written newsd s s', (Some i, s'))
       end)
    (fun '(slot, s) =>
       match slot with
       | None => Some (None, s)
       | Some i =>
           c ← nclients s !! i;
           if ci_sd c =? CLIENT_SLOT_AVAILABLE then Some (None, s)
           else '(_, s) ← processClientRequest qqparse cmdline write_ok malloc_ok i [] garbage s; Some (None, s)
       end).
End Daemon.

(** ** A session *)

Section Session.
Context `{HL : HostLib} `{RL : RegexLib} `{TL : TemplateLib}.
Variable qqparse : str -> str + pnode.
Variable cmdline : Z -> option (list Z).
Variable malloc_ok : Z -> bool.
Variables newsd uid pid garbage junk : Z.
#[local] Abbreviation daemon := (evlnotifyd qqparse cmdline (fun _ => true) malloc_ok newsd uid pid true garbage junk).
#[local] Abbreviation processClientRequest := (processClientRequest qqparse cmdline (fun _ => true) malloc_ok).

(** There is room for one more client, and no request is of a connection that never was. *)
Record reachable (s : nfyd) : Prop := {
  re_slot : snd (free_slot (nclients s) 0 0 None) <> None;
  re_sd : 0 <= newsd < FD_SETSIZE;
  re_fresh : Forall (fun c => ci_sd c <> newsd) (nclients s);
  re_requests : Forall (fun r => sd (rq_hdr r) <> CLIENT_SLOT_AVAILABLE) (pNfyReqList s)
}.
(** The same requests. *)
Record same_requests (s s' : nfyd) : Prop := {
  sr_list : pNfyReqList s' = pNfyReqList s;
  sr_handle : notifyReqHandle s' = notifyReqHandle s;
  sr_dirty : list_dirty_ctr s' = list_dirty_ctr s
}.
Lemma reply_true d data s : 0 <= d -> reply (fun _ => true) d data s =
  (true, mkNfyd (pNfyReqList s) (notifyReqHandle s) (list_dirty_ctr s) (nclients s) (req_file s)
           (replies s ++ [(d, data)]) (signals s) (S (writes s)) (sigs s) (fds s)).
Proof. intros Hd. unfold reply. by rewrite (proj2 (Z.leb_le 0 d) Hd). Qed.
Lemma written_app d s s' (l : list (Z * list Z)) : replies s' = replies s ++ l -> Forall (fun x => fst x = d) l ->
  written d s s' = concat (snd <$> l).
Proof.
  intros Hr Hl. unfold written. rewrite Hr, drop_app_length. f_equal. f_equal.
  clear Hr. induction Hl as [|x l Hx _ IH]; [done|]. cbn. by rewrite Hx, Z.eqb_refl, IH.
Qed.

Lemma connected s : reachable s -> exists i s1 c, sv_connect daemon (None, s) = Some (Some NFY_ACCESS_GRANTED, (Some i, s1)) /\
  nclients s1 !! i = Some c /\ ci_sd c = newsd /\ ci_pid c = pid /\ same_requests s s1.
Proof.
  intros [Hslot Hsd Hfresh _]. cbn [sv_connect evlnotifyd]. unfold accept_client.
  destruct (free_slot _ _ _ _) as [m [i|]] eqn:Ef; [|done]. cbn [nclients set_fds].
  assert (exists c0, nclients s !! i = Some c0) as [c0 Hc0].
  { clear -Ef. assert (forall l idx m em, snd (free_slot l idx m em) = Some i -> em = Some i \/ exists j c, i = (idx + j)%nat /\ l !! j = Some c) as Hf.
    { induction l as [|c l IH]; intros idx m0 em; cbn [free_slot snd]; [by left|].
      assert (forall m1 em1, snd (free_slot l (S idx) m1 em1) = Some i -> em1 = Some i \/ exists j c0, i = (idx + j)%nat /\ (c :: l) !! j = Some c0) as Hn.
      { intros m1 em1 [|(j & c1 & -> & Hj)]%IH; [by left|right]. exists (S j), c1. split; [lia|done]. }
      destruct (negb _); [by intros [?|?]%Hn; auto|]. destruct em as [i0|]; intros [Hi|?]%Hn; auto.
      right. injection Hi as ->. exists 0%nat, c. split; [lia|done]. }
    destruct (Hf (nclients s) 0%nat 0 None) as [|(j & c & -> & Hj)]; [by rewrite Ef|done|]. by exists c. }
  rewrite Hc0. cbn [mbind option_bind]. rewrite reply_true by lia. cbn [snd fds set_fds]. unfold watch_new, FD_SET.
  destruct ((0 <=? newsd) && _) eqn:Eb; [|zb]. cbn [mbind option_bind]. set (s1 := set_fds _ _).
  assert (list_find (fun c => ci_sd c = newsd) (nclients s1) = Some (i, mkClient newsd uid pid (numofreg c0))) as Hfind.
  { apply list_find_Some. split; [apply list_lookup_insert_eq; by eapply lookup_lt_Some|]. split; [done|].
    intros j y Hy Hj. cbn in Hy. rewrite list_lookup_insert_ne in Hy by lia. rewrite Forall_lookup in Hfresh. by eapply Hfresh. }
  exists i, s1, (mkClient newsd uid pid (numofreg c0)). rewrite Hfind. split.
  - rewrite (written_app _ s s1 [(newsd, [NFY_ACCESS_GRANTED])]); [done|done|]. by repeat constructor.
  - split; [|split; [done|split; [done|by split]]]. by apply list_find_Some in Hfind as [? _].
Qed.
Lemma hung_up i s c : nclients s !! i = Some c -> ci_sd c = newsd -> 0 <= newsd < FD_SETSIZE ->
  Forall (fun r => sd (rq_hdr r) <> CLIENT_SLOT_AVAILABLE) (pNfyReqList s) ->
  exists s', sv_disconnect daemon (Some i, s) = Some (None, s') /\ same_requests s s'.
Proof.
  intros Hc Hsd Hb Hl. cbn [sv_disconnect evlnotifyd]. rewrite Hc. cbn [mbind option_bind].
  destruct (_ =? _) eqn:E; [unfold CLIENT_SLOT_AVAILABLE in E; zb|].
  unfold Notifyd.processClientRequest. cbn [_evlReadEx]. unfold close, closeClientSocket. rewrite Hc. cbn [mbind option_bind].
  unfold FD_CLR. rewrite Hsd. destruct (_ && _) eqn:Eb; [|zb]. cbn [mbind option_bind]. eexists. split; [done|].
  split; [|done|done]. cbn [pNfyReqList set_fds removeRequestsWithSD set_list set_clients ci_sd].
  clear -Hl. induction Hl as [|r l Hr _ IH]; [done|]. cbn [List.filter]. by rewrite (proj2 (Z.eqb_neq _ _) Hr), IH.
Qed.
(** The daemon serves one message in a session of its own. *)
Lemma session {A} (fail deny : A) (answer : list Z -> A) sent s : reachable s ->
  exists i s1 c, nclients s1 !! i = Some c /\ ci_sd c = newsd /\ ci_pid c = pid /\ same_requests s s1 /\
  forall r s2 c2 l, processClientRequest i sent garbage s1 = Some (r, s2) -> nclients s2 !! i = Some c2 -> ci_sd c2 = newsd ->
    replies s2 = replies s1 ++ l -> Forall (fun x => fst x = newsd) l ->
    Forall (fun r => sd (rq_hdr r) <> CLIENT_SLOT_AVAILABLE) (pNfyReqList s2) ->
    exists s3, with_connection daemon fail deny (fun w => '(stream, w) ← sv_exchange daemon sent w; Some (answer stream, w)) (None, s) =
        Some (answer (concat (snd <$> l)), (None, s3)) /\ same_requests s2 s3.
Proof.
  intros Hre. destruct (connected s Hre) as (i & s1 & c & Hcon & Hc & Hsd & Hpid & Hsame). exists i, s1, c.
  split; [done|]. split; [done|]. split; [done|]. split; [done|]. intros r s2 c2 l Hp Hc2 Hsd2 Hr Hl Hlist.
  destruct (hung_up i s2 c2 Hc2 Hsd2 (re_sd s Hre) Hlist) as (s3 & Hdis & Hs3). exists s3. split; [|done].
  unfold with_connection. rewrite Hcon. cbn [mbind option_bind]. change (isAccess NFY_ACCESS_GRANTED =? -1) with false.
  cbn [sv_exchange evlnotifyd]. rewrite Hp. cbn [mbind option_bind]. rewrite (written_app _ s1 s2 l Hr Hl).
  cbn [mbind option_bind] in *. by rewrite Hdis.
Qed.

(** ** Answers *)

Lemma message_ok t h st n ev f : in_signed 32 t -> in_unsigned 64 h -> in_signed 32 st -> in_unsigned 64 n ->
  length ev = sigevent_size -> in_signed 32 f -> newrq_ok (mkNewRq (mkMsgHdr t h st) n ev f).
Proof. intros. by split_and!. Qed.
Lemma read_app n old a rest : length a = n -> length old = n -> (0 < n)%nat -> read_answer n old (a ++ rest) = Some (a, rest).
Proof.
  intros Ha Ho Hn. unfold read_answer. rewrite take_app_length', drop_app_length' by done. destruct a as [|x a]; [cbn in Ha; lia|].
  unfold overwrite. by rewrite drop_ge, app_nil_r by lia.
Qed.
Lemma read_header resp m rest : msghdr_ok m -> length resp = 24%nat ->
  exists got, read_answer 24 resp (msghdr_bytes m ++ rest) = Some (got, rest) /\ msghdr_of_bytes got = m.
Proof.
  intros Hm Hl. exists (msghdr_bytes m). split; [|by apply msghdr_roundtrip]. apply read_app; [apply length_msghdr|done|lia].
Qed.
Lemma status_ok h st : 0 <= h < 2 ^ 64 -> 0 <= st <= 3 -> msghdr_ok (mkMsgHdr nmtRequestStatus h st).
Proof. intros Hh Hst. split; [done|]. split; [done|]. unfold in_signed. cbn. lia. Qed.
Lemma added_answer resp h : 0 <= h < 2 ^ 64 -> length resp = 24%nat ->
  add_answer resp (concat (snd <$> [(newsd, msghdr_bytes (mkMsgHdr nmtRequestStatus h nrsEnabled))])) = (0, Some h).
Proof.
  intros Hh Hl. unfold add_answer. cbn [fmap list_fmap snd concat].
  destruct (read_header resp (mkMsgHdr nmtRequestStatus h nrsEnabled) []) as (got & Hr & Hg); [by apply status_ok|done|]. by rewrite Hr, Hg.
Qed.
Lemma removed_answer resp h st : 0 <= h < 2 ^ 64 -> 0 <= st <= 3 -> length resp = 24%nat ->
  remove_answer resp (concat (snd <$> [(newsd, msghdr_bytes (mkMsgHdr nmtRequestStatus h st))])) =
  if st =? nrsNoRequest then EINVAL else 0.
Proof.
  intros Hh Hst Hl. unfold remove_answer. cbn [fmap list_fmap snd concat].
  destruct (read_header resp (mkMsgHdr nmtRequestStatus h st) []) as (got & Hr & Hg); [by apply status_ok|done|]. by rewrite Hr, Hg.
Qed.

(** ** Requests *)

Lemma header_read m rest s i g : newrq_ok m ->
  processClientRequest i (newrq_bytes m ++ rest) g s =
  let t := nhMsgType (nwHeader m) in
  if t =? nmtNewRequest then new_request qqparse cmdline (fun _ => true) malloc_ok i m rest s
  else if t =? nmtRmRequest then rm_request cmdline (fun _ => true) i m s
  else if t =? nmtGetRequestStatus then get_request_status (fun _ => true) i m g s
  else if t =? nmtRequestStatus then Some (0, s)
  else Some (-1, s).
Proof.
  intros Hok. unfold Notifyd.processClientRequest.
  rewrite read_ex_app by (rewrite ?length_newrq; (done || by destruct Hok as (_ & _ & ? & _))). by rewrite newrq_roundtrip.
Qed.
(** A new request arrives as it was sent; what [registerRequest] returns is the handle
    of an enabled request, whatever it is. *)
Lemma new_request_served i c m qf text s h s1 :
  nclients s !! i = Some c -> ci_sd c = newsd -> 0 <= newsd -> nclients s1 = nclients s -> 0 <= h ->
  newrq_ok m -> nhMsgType (nwHeader m) = nmtNewRequest -> nwQueryLength m = strlen text -> in_signed 32 qf ->
  no_nul text = true -> strlen text < 2 ^ 31 - 1 -> malloc_ok (strlen text + 1) = true ->
  registerRequest qqparse cmdline c m text qf s = Some (h, s1) ->
  exists s2 c2, processClientRequest i (newrq_bytes m ++ bytes_of text ++ le_encode 4 qf) garbage s = Some (0, s2) /\
    pNfyReqList s2 = pNfyReqList s1 /\ nclients s2 !! i = Some c2 /\ ci_sd c2 = newsd /\
    replies s2 = replies s1 ++ [(newsd, msghdr_bytes (mkMsgHdr nmtRequestStatus h nrsEnabled))].
Proof.
  intros Hc Hsd Hpos Hcl Hh Hok Ht Hq Hqf Hnt Hlt Hm Hreg. assert (0 <= strlen text) as H0 by (unfold strlen; lia).
  rewrite header_read, Ht by done. cbv zeta. rewrite Z.eqb_refl. unfold new_request. rewrite Hq.
  rewrite unsigned_id by (unfold in_unsigned; lia). rewrite Hm. cbn [negb].
  rewrite read_ex_app by (rewrite ?strlen_bytes_of; lia). rewrite strlen_bytes_of. destruct (_ <=? _) eqn:E; [zb|].
  rewrite <-(app_nil_r (le_encode 4 qf)). rewrite read_ex_app by done. rewrite Hc. cbn [mbind option_bind].
  rewrite cstring_whole, word_signed by done. rewrite Hreg. cbn [mbind option_bind]. destruct (h <? 0) eqn:E2; [zb|].
  unfold change_numofreg. rewrite Hcl, Hc. cbn [mbind option_bind]. unfold writeRequestStatus. rewrite Hsd, reply_true by done.
  cbn [negb Z.eqb]. eexists _, _. split; [done|]. split; [done|]. split; [apply list_lookup_insert_eq; by eapply lookup_lt_Some|]. done.
Qed.
(** The status, the request and its query. *)
Lemma get_served i c m s r text :
  nclients s !! i = Some c -> ci_sd c = newsd -> 0 <= newsd -> newrq_ok m -> nhMsgType (nwHeader m) = nmtGetRequestStatus ->
  findRequest (nhReqHandle (nwHeader m)) s = Some r ->
  match nfy_query r with None => Some EmptyString | Some q => qu_expr q end = Some text ->
  exists s2 st, processClientRequest i (newrq_bytes m ++ []) garbage s = Some (0, s2) /\ same_requests s s2 /\
    nclients s2 !! i = Some c /\ 0 <= st < nrsNoRequest /\
    replies s2 = replies s ++
      [(newsd, msghdr_bytes (mkMsgHdr nmtRequestStatus (nhReqHandle (nwHeader m)) st));
       (newsd, newrq_bytes (mkNewRq (mkMsgHdr garbage (nhReqHandle (nwHeader m)) st) (strlen text) (nfy_sigevent r) (flags (rq_hdr r))))] ++
      (if strlen text >? 0 then [(newsd, bytes_of text)] else []).
Proof.
  intros Hc Hsd Hpos Hok Ht Hf Htext. rewrite header_read, Ht by done. cbv zeta. cbn [Z.eqb Pos.eqb nmtGetRequestStatus nmtNewRequest nmtRmRequest].
  unfold get_request_status, send. rewrite Hf, Hc. cbn [mbind option_bind]. rewrite Hsd, reply_true by done. cbn [mbind option_bind].
  rewrite Htext. cbn [mbind option_bind nclients]. rewrite Hc. cbn [mbind option_bind]. rewrite Hsd, reply_true by done. cbn [mbind option_bind nclients].
  set (st := if _ =? 0 then nrsEnabled else nrsDisabled).
  assert (0 <= st < nrsNoRequest) as Hst by (unfold st, nrsEnabled, nrsDisabled, nrsNoRequest; destruct (_ =? 0); lia).
  destruct (strlen text >? 0).
  - rewrite Hc. cbn [mbind option_bind]. rewrite Hsd, reply_true by done. cbn [mbind option_bind]. eexists _, st. split; [done|].
    split; [done|]. split; [done|]. split; [done|]. cbn. by rewrite <-!app_assoc.
  - cbn [mbind option_bind]. eexists _, st. split; [done|]. split; [done|]. split; [done|]. split; [done|]. cbn. by rewrite <-!app_assoc.
Qed.
Lemma reported_answer resp returnReq malloc qslen h st ev fl text : length resp = 24%nat -> length returnReq = 104%nat ->
  0 <= h < 2 ^ 64 -> 0 <= st < nrsNoRequest -> in_signed 32 garbage -> length ev = sigevent_size -> in_signed 32 fl ->
  no_nul text = true -> strlen text < 2 ^ 31 -> strlen text < qslen ->
  (exists block, malloc (strlen text + 1) = Some block /\ Z.of_nat (length block) = strlen text + 1) ->
  get_answer resp returnReq malloc qslen (concat (snd <$>
    ([(newsd, msghdr_bytes (mkMsgHdr nmtRequestStatus h st)); (newsd, newrq_bytes (mkNewRq (mkMsgHdr garbage h st) (strlen text) ev fl))] ++
     (if strlen text >? 0 then [(newsd, bytes_of text)] else [])))) = (0, strlen text + 1, Some (mkInfo ev fl text)).
Proof.
  intros Hl1 Hl2 Hh Hst Hg Hev Hfl Hnt Hlt Hq (block & Hm & Hb). unfold nrsNoRequest in Hst.
  assert (0 <= strlen text) as H0 by (unfold strlen; lia).
  rewrite fmap_app, concat_app. cbn [fmap list_fmap snd concat]. rewrite app_nil_r, <-app_assoc. unfold get_answer.
  set (M := mkNewRq _ _ _ _). assert (newrq_ok M) as HM.
  { apply message_ok; unfold in_signed, in_unsigned in *; try done; lia. }
  destruct (read_header resp (mkMsgHdr nmtRequestStatus h st) (newrq_bytes M ++ concat (snd <$> (if strlen text >? 0 then [(newsd, bytes_of text)] else []))))
    as (got & Hr & Hgot); [apply status_ok; lia|done|]. cbn [fmap list_fmap] in Hr. rewrite Hr, Hgot. cbn [nhStatus].
  destruct (st =? nrsNoRequest) eqn:E; [unfold nrsNoRequest in E; zb|]. pose proof (length_newrq M Hev) as Hlen.
  rewrite read_app by (done || (unfold nfyNewRqMsg_size in Hlen; lia)). rewrite newrq_roundtrip by done. cbn [nwQueryLength M nwSigevent nwFlags].
  rewrite unsigned_id by (unfold in_unsigned; lia). destruct (strlen text >? 0) eqn:Epos.
  2: { bprop. destruct text as [|c t]; [done|unfold strlen in Epos; cbn in Epos; zb]. }
  rewrite Hm. cbn [fmap list_fmap snd concat]. pose proof (strlen_bytes_of text) as Hbt.
  unfold read_answer. rewrite app_nil_r, (take_ge (bytes_of text)) by lia. destruct (bytes_of text) as [|b bs] eqn:Eb; [cbn in Hbt; zb|].
  rewrite <-Eb in *. cbn [app]. destruct (qslen <? strlen text + 1) eqn:E3; [zb|]. unfold overwrite.
  rewrite take_app_length' by lia. by rewrite cstring_whole.
Qed.
Lemma delete_found (l : list nfyReq_t) h : NoDup (handles l) ->
  match list_find (fun r => handle (rq_hdr r) = h) l with
  | Some (i, _) => delete i l = List.filter (fun r => negb (handle (rq_hdr r) =? h)) l
  | None => List.filter (fun r => negb (handle (rq_hdr r) =? h)) l = l
  end.
Proof.
  induction l as [|r l IH]; [done|]. unfold handles. rewrite fmap_cons. intros [Hr Hn]%NoDup_cons. specialize (IH Hn).
  cbn [list_find List.filter]. destruct (decide (handle (rq_hdr r) = h)) as [Hh|Hh].
  - rewrite Hh, Z.eqb_refl. cbn [negb delete list_delete]. clear IH Hn. rewrite Hh in Hr. fold (handles l) in Hr.
    induction l as [|x l IH]; [done|]. unfold handles in Hr. rewrite fmap_cons, not_elem_of_cons in Hr. destruct Hr as [Hx Hr]. cbn [List.filter].
    rewrite (proj2 (Z.eqb_neq _ _)) by done. cbn [negb]. f_equal. by apply IH.
  - rewrite (proj2 (Z.eqb_neq _ _)) by done. cbn [negb]. destruct (list_find _ l) as [[i x]|]; cbn; f_equal; exact IH.
Qed.
Lemma rm_served i c m s : nclients s !! i = Some c -> ci_sd c = newsd -> 0 <= newsd -> newrq_ok m ->
  nhMsgType (nwHeader m) = nmtRmRequest -> NoDup (handles (pNfyReqList s)) -> list_dirty_ctr s + 1 < MAX_LIST_DIRTY_COUNT ->
  let h := nhReqHandle (nwHeader m) in
  exists s2 c2, processClientRequest i (newrq_bytes m ++ []) garbage s = Some (0, s2) /\ nclients s2 !! i = Some c2 /\ ci_sd c2 = newsd /\
    pNfyReqList s2 = List.filter (fun r => negb (handle (rq_hdr r) =? h)) (pNfyReqList s) /\
    replies s2 = replies s ++ [(newsd, msghdr_bytes (mkMsgHdr nmtRequestStatus h
                                (match findRequest h s with Some _ => nrsRemoved | None => nrsNoRequest end)))].
Proof.
  intros Hc Hsd Hpos Hok Ht Hn Hd h. rewrite header_read, Ht by done. cbv zeta. cbn [Z.eqb Pos.eqb nmtGetRequestStatus nmtNewRequest nmtRmRequest].
  unfold rm_request. rewrite Hc. cbn [mbind option_bind]. fold h. unfold removeRequestWithHandle, findRequest.
  pose proof (delete_found (pNfyReqList s) h Hn) as Hdel. destruct (list_find _ _) as [[k r]|]; cbn [fmap option_fmap option_map mbind option_bind].
  - unfold count_change. cbn [list_dirty_ctr set_dirty set_list]. destruct (_ >=? _) eqn:E; [zb|]. cbn [mbind option_bind Z.eqb].
    unfold change_numofreg. cbn [nclients set_dirty set_list]. rewrite Hc. cbn [mbind option_bind]. unfold writeRequestStatus.
    rewrite Hsd, reply_true by done. cbn [negb Z.eqb]. eexists _, _. split; [done|].
    split; [apply list_lookup_insert_eq; by eapply lookup_lt_Some|]. split; [done|]. split; [exact Hdel|done].
  - cbn [Z.eqb Pos.eqb mbind option_bind]. unfold writeRequestStatus. rewrite Hsd, reply_true by done. cbn [negb Z.eqb].
    eexists _, _. split; [done|]. split; [exact Hc|]. split; [done|]. split; [by rewrite Hdel|done].
Qed.

(** The query that the daemon builds. *)
Definition build (text : str) (qf : Z) : option (Z * option posix_log_query_t) :=
  if streqb text "<null>" then Some (0, None) else create qqparse text qf.
Lemma build_text text qf q : build text qf = Some (0, q) -> query_text q = Some text.
Proof.
  unfold build. destruct (streqb text "<null>") eqn:E; [apply streqb_spec in E as ->; by intros [= <-]|].
  unfold create, posix_log_query_create. cbv zeta. set (st := if template_conflict qf then _ else _).
  destruct (negb (st =? 0)) eqn:Est; [cbn; intros [= Hst _]; rewrite Hst in Est; done|]. cbn [qParserMutex idle_parser].
  destruct (qqparse text) as [msg|tree]; [by destruct (queryError _ _ _)|].
  destruct (QNormalize._evlQNormalizeTree _ _ _) as [msg|[t' ns]]; [by destruct (queryError _ _ _)|].
  destruct (QOptimize._evlQOptimizeTree _ _) as [[t2 ns2]|]; cbn; [|done]. by intros [= <-].
Qed.
Lemma registers_ok c m text qf q s : build text qf = Some (0, q) -> sigev_notify (nwSigevent m) = SIGEV_SIGNAL ->
  0 <= notifyReqHandle s < 2 ^ 64 - 1 ->
  exists s1, registerRequest qqparse cmdline c m text qf s = Some (notifyReqHandle s + 1, s1) /\
    pNfyReqList s1 = pNfyReqList s ++
      [mkReq (mkReqHdr (notifyReqHandle s + 1) (ci_pid c) (ci_sd c) (nwFlags m)) (nwSigevent m) q (getProcessCmd cmdline (ci_pid c))] /\
    nclients s1 = nclients s /\ replies s1 = replies s.
Proof.
  intros Hb Hev Hh. pose proof (build_text text qf q Hb) as Ht. unfold registerRequest. fold (build text qf). rewrite Hb.
  cbn [mbind option_bind Z.eqb negb]. rewrite Hev, Z.eqb_refl. cbn [negb]. rewrite unsigned_id by (unfold in_unsigned; lia).
  set (r := mkReq _ _ _ _). set (s1 := set_list _ _). unfold appendReqToFile, writeReqToFile. change (nfy_query r) with q. rewrite Ht.
  unfold openReqFile. destruct (req_file s1), (procCmd r); cbn; by eexists.
Qed.

(** ** Adding a request *)

(** The flags that are sent. *)
Definition sent_flags (flags : Z) : Z :=
  if (Z.land flags POSIX_LOG_SEND_RECID =? 0) && (Z.land flags POSIX_LOG_SEND_SIGVAL =? 0)
  then Z.lor flags POSIX_LOG_SEND_SIGVAL else flags.
Lemma sent_flags_small flags : 0 <= flags <= POSIX_LOG_NFY_MASK -> in_signed 32 (sent_flags flags).
Proof.
  unfold POSIX_LOG_NFY_MASK, in_signed. intros Hf.
  assert (flags = 0 \/ flags = 1 \/ flags = 2 \/ flags = 3 \/ flags = 4 \/ flags = 5 \/ flags = 6 \/ flags = 7) as Hc by lia.
  by repeat destruct Hc as [-> |Hc]; [..|subst].
Qed.
(** A call with a signal to send and a query; the daemon has memory for it. *)
Record add_args (query : option posix_log_query_t) (ev : sigevent) (flags qf : Z) (text : str) (newReq : nfyMsgHdr_t) (resp : list Z) : Prop := {
  aa_query : notify_query query = inr (Some (qf, text));
  aa_signal : sigev_notify ev = SIGEV_SIGNAL;
  aa_event : length ev = sigevent_size;
  aa_flags : 0 <= flags <= POSIX_LOG_NFY_MASK;
  aa_qf : in_signed 32 qf;
  aa_text : no_nul text = true;
  aa_len : 0 < strlen text < 2 ^ 31 - 1;
  aa_malloc : malloc_ok (strlen text + 1) = true;
  aa_newReq : in_unsigned 64 (nhReqHandle newReq) /\ in_signed 32 (nhStatus newReq);
  aa_resp : length resp = 24%nat
}.
(** What the call does, by what [registerRequest] does. *)
Lemma add_session query ev flags qf text newReq resp s h L :
  add_args query ev flags qf text newReq resp -> reachable s -> 0 <= h < 2 ^ 64 ->
  Forall (fun r => sd (rq_hdr r) <> CLIENT_SLOT_AVAILABLE) L ->
  (forall s1 c m, same_requests s s1 -> ci_sd c = newsd -> ci_pid c = pid -> nwSigevent m = ev -> nwFlags m = sent_flags flags ->
     exists s1', registerRequest qqparse cmdline c m text qf s1 = Some (h, s1') /\ pNfyReqList s1' = L /\
       nclients s1' = nclients s1 /\ replies s1' = replies s1) ->
  exists s', posix_log_notify_add daemon query (Some ev) flags newReq resp (None, s) = Some (0, Some h, (None, s')) /\ pNfyReqList s' = L.
Proof.
  intros [Hq Hev Hl Hf Hqf Hnt Hlt Hm [Hh1 Hs1] Hresp] Hre Hh HLive Hreg.
  set (m := mkNewRq (mkMsgHdr nmtNewRequest (nhReqHandle newReq) (nhStatus newReq)) (strlen text) ev (sent_flags flags)).
  assert (newrq_ok m) as Hok.
  { apply message_ok; try done; [unfold in_unsigned; lia|by apply sent_flags_small]. }
  destruct (session (EAGAIN, None) (EPERM, None) (add_answer resp) (newrq_bytes m ++ bytes_of text ++ le_encode 4 qf) s Hre)
    as (i & s1 & c & Hc & Hsd & Hpid & Hsame & Hses).
  destruct (Hreg s1 c m Hsame Hsd Hpid eq_refl eq_refl) as (s1' & Hr1 & HL1 & Hc1 & Hp1). pose proof (re_sd s Hre) as Hsd0.
  destruct (new_request_served i c m qf text s1 h s1') as (s2 & c2 & Hp & Hl2 & Hc2 & Hsd2 & Hr2); try done; try lia.
  rewrite Hp1 in Hr2. destruct (Hses _ _ _ _ Hp Hc2 Hsd2 Hr2) as (s3 & Hw & Hs3); [by repeat constructor|by rewrite Hl2, HL1|].
  exists s3. split; [|by rewrite (sr_list _ _ Hs3), Hl2, HL1].
  unfold posix_log_notify_add. rewrite Hev. cbn [SIGEV_SIGNAL SIGEV_THREAD Z.eqb negb]. destruct (flags >? _) eqn:E; [zb|].
  cbv zeta. fold (sent_flags flags). rewrite Hq. fold m. unfold add_exchange. destruct (strlen text =? 0) eqn:E0; [zb|].
  rewrite Hw. by rewrite added_answer.
Qed.
End Session.

(** ** Properties *)

Section ApiProps.
Context `{HL : HostLib} `{RL : RegexLib} `{TL : TemplateLib}.
Variable qqparse : str -> str + pnode.
Variable cmdline : Z -> option (list Z).
Variable malloc_ok : Z -> bool.
Variables newsd uid pid garbage junk : Z.
#[local] Abbreviation daemon := (evlnotifyd qqparse cmdline (fun _ => true) malloc_ok newsd uid pid true garbage junk).
#[local] Abbreviation reachable := (reachable newsd).
#[local] Abbreviation add_args := (add_args malloc_ok).

(** C19: [posix_log_notify_add] with a query that the daemon can build returns 0 and a
    new handle, and when the call is over, its connection gone, the daemon's list ends
    with a request of the calling process that has that handle and the caller's
    signal, flags and query; the other requests are as they were. *)
Theorem notify_add_registers query ev flags qf text newReq resp q s :
  add_args query ev flags qf text newReq resp -> reachable s -> build qqparse text qf = Some (0, q) ->
  0 <= notifyReqHandle s < 2 ^ 64 - 1 ->
  let h := notifyReqHandle s + 1 in
  exists s', posix_log_notify_add daemon query (Some ev) flags newReq resp (None, s) = Some (0, Some h, (None, s')) /\
    pNfyReqList s' = pNfyReqList s ++ [mkReq (mkReqHdr h pid newsd (sent_flags flags)) ev q (getProcessCmd cmdline pid)].
Proof.
  intros Ha Hre Hb Hh h. pose proof (re_sd _ _ Hre) as Hsd. unfold h.
  eapply add_session; [exact Ha|exact Hre|lia| |].
  - apply Forall_app. split; [apply Hre|]. constructor; [|constructor]. cbn. unfold CLIENT_SLOT_AVAILABLE. lia.
  - intros s1 c m [Hl Hn _] Hc Hp He Hf. rewrite <-Hn in Hh.
    destruct (registers_ok qqparse cmdline c m text qf q s1 Hb ltac:(rewrite He; apply Ha) Hh) as (s1' & H1 & H2 & H3 & H4).
    exists s1'. rewrite Hn in H1. split; [done|]. split; [|by split]. by rewrite H2, Hl, Hn, He, Hf, Hc, Hp.
Qed.

(** When the daemon refuses the query, [posix_log_notify_add] returns 0 all the same,
    with the negated error as a handle, for [registerRequest] returns an unsigned word
    and the daemon's test for a negative result never succeeds; nothing is registered. *)
Theorem refused_request_reported_as_enabled query ev flags qf text newReq resp st q s :
  add_args query ev flags qf text newReq resp -> reachable s -> build qqparse text qf = Some (st, q) -> st <> 0 ->
  exists s', posix_log_notify_add daemon query (Some ev) flags newReq resp (None, s) =
      Some (0, Some (2 ^ 64 - EINVAL), (None, s')) /\ pNfyReqList s' = pNfyReqList s.
Proof.
  intros Ha Hre Hb Hne. eapply add_session; [exact Ha|exact Hre|done|apply Hre|].
  intros s1 c m [Hl _ _] _ _ _ _. exists s1. unfold registerRequest. fold (build qqparse text qf). rewrite Hb. cbn [mbind option_bind].
  by rewrite (proj2 (Z.eqb_neq _ _) Hne).
Qed.

(** [posix_log_notify_get] reports the signal, the flags and the query's text of the
    request with that handle, and the length that the text needs; the daemon's list is
    as it was. *)
Theorem notify_get_reports h qslen newReq resp returnReq malloc r text s :
  reachable s -> findRequest h s = Some r -> 0 <= h < 2 ^ 64 -> newrq_ok newReq -> in_signed 32 garbage ->
  match nfy_query r with None => Some EmptyString | Some q => qu_expr q end = Some text ->
  length (nfy_sigevent r) = sigevent_size -> in_signed 32 (flags (rq_hdr r)) ->
  no_nul text = true -> strlen text < 2 ^ 31 -> strlen text < qslen ->
  (exists block, malloc (strlen text + 1) = Some block /\ Z.of_nat (length block) = strlen text + 1) ->
  length resp = 24%nat -> length returnReq = 104%nat ->
  exists s', posix_log_notify_get daemon h (Some qslen) newReq resp returnReq malloc (None, s) =
      Some (0, strlen text + 1, Some (mkInfo (nfy_sigevent r) (flags (rq_hdr r)) text), (None, s')) /\
    pNfyReqList s' = pNfyReqList s.
Proof.
  intros Hre Hf Hh [(Hn1 & Hn2 & Hn3) (Hn4 & Hn5 & Hn6)] Hg Ht Hev Hfl Hnt Hlt Hqs Hm Hl1 Hl2. pose proof (re_sd _ _ Hre) as Hsd.
  unfold posix_log_notify_get. set (m := mkNewRq _ _ _ _).
  destruct (session qqparse cmdline malloc_ok newsd uid pid garbage junk (EAGAIN, 0, None) (EPERM, 0, None)
    (get_answer resp returnReq malloc qslen) (newrq_bytes m) s Hre) as (i & s1 & c & Hc & Hcsd & _ & Hsame & Hses).
  destruct (get_served qqparse cmdline malloc_ok newsd garbage i c m s1 r text) as (s2 & st & Hp & Hs2 & Hc2 & Hst & Hr2); try done; try lia.
  { destruct Hsame as [Hl _ _]. unfold findRequest in *. by rewrite Hl. }
  rewrite app_nil_r in Hp. destruct (Hses _ _ _ _ Hp Hc2 Hcsd Hr2) as (s3 & Hw & Hs3).
  { apply Forall_app. split; [by repeat constructor|]. destruct (_ >? 0); by repeat constructor. }
  { rewrite (sr_list _ _ Hs2), (sr_list _ _ Hsame). apply Hre. }
  exists s3. rewrite Hw. split; [|by rewrite (sr_list _ _ Hs3), (sr_list _ _ Hs2), (sr_list _ _ Hsame)].
  change (nhReqHandle (nwHeader m)) with h. by rewrite reported_answer.
Qed.

(** [posix_log_notify_remove] removes the request with that handle, and no other,
    whoever registered it, and returns 0; without such a request it returns [EINVAL]
    and the list is as it was. *)
Theorem notify_remove_removes h newReq resp s :
  reachable s -> 0 < h < 2 ^ 64 -> newrq_ok newReq -> length resp = 24%nat ->
  NoDup (handles (pNfyReqList s)) -> list_dirty_ctr s + 1 < MAX_LIST_DIRTY_COUNT ->
  exists s', posix_log_notify_remove daemon h newReq resp (None, s) =
      Some (match findRequest h s with Some _ => 0 | None => EINVAL end, (None, s')) /\
    pNfyReqList s' = List.filter (fun r => negb (handle (rq_hdr r) =? h)) (pNfyReqList s).
Proof.
  intros Hre Hh [(Hn1 & Hn2 & Hn3) (Hn4 & Hn5 & Hn6)] Hl Hn Hd. pose proof (re_sd _ _ Hre) as Hsd.
  unfold posix_log_notify_remove. destruct (h =? 0) eqn:E; [zb|]. set (m := mkNewRq _ _ _ _).
  destruct (session qqparse cmdline malloc_ok newsd uid pid garbage junk EAGAIN EINVAL
    (remove_answer resp) (newrq_bytes m) s Hre) as (i & s1 & c & Hc & Hcsd & _ & [Hs1 Hs2 Hs3] & Hses).
  destruct (rm_served qqparse cmdline malloc_ok newsd garbage i c m s1) as (s2 & c2 & Hp & Hc2 & Hsd2 & Hl2 & Hr2); try done; try lia.
  { apply message_ok; (done || unfold in_unsigned; lia). }
  { by rewrite Hs1. }
  change (nhReqHandle (nwHeader m)) with h in Hl2, Hr2. rewrite Hs1 in Hl2. unfold findRequest in *. rewrite Hs1 in Hr2.
  rewrite app_nil_r in Hp. destruct (Hses _ _ _ _ Hp Hc2 Hsd2 Hr2) as (s3 & Hw & Hs4); [by repeat constructor| |].
  { rewrite Hl2. pose proof (re_requests _ _ Hre) as Hq. clear -Hq. induction Hq as [|r l Hr _ IH]; [constructor|].
    cbn [List.filter]. destruct (negb _); [by constructor|done]. }
  exists s3. rewrite Hw. split; [|by rewrite (sr_list _ _ Hs4)]. rewrite removed_answer; [|lia|by destruct (_ <$> _)|done].
  by destruct (_ <$> _).
Qed.
End ApiProps.

(** ** Witnesses *)

Definition sample_text : str := "size > 0 && temp >= 30"%string.
(** The query, as the client and the daemon build it. *)
Definition sample_query : option (@posix_log_query_t sample_regex) :=
  default None (snd <$> @build sample_machine sample_regex sample_parse sample_text EVL_PRPS_TEMPLATE).
(** A daemon that knows the query, one that knows none, and a client that gets
    descriptor 8. *)
Definition sample_daemon (parse : str -> str + @pnode sample_regex) : server (option nat * nfyd) :=
  @evlnotifyd sample_machine sample_regex parse sample_cmdline (fun _ => true) (fun _ => true) 8 0 77 true 0 0.
Definition sample_nfyd2 : @nfyd sample_regex :=
  set_list [sample_req 1 77 5; mkReq (mkReqHdr 3 77 6 4) sample_event sample_query (Some "prog"%string)] sample_nfyd.
Definition empty_msg : nfyMsgHdr_t := mkMsgHdr 0 0 0.
Definition empty_rq : nfyNewRqMsg_t := mkNewRq empty_msg 0 sample_event 0.
Lemma sample_args : @add_args sample_regex (fun _ => true) sample_query sample_event 1 EVL_PRPS_TEMPLATE sample_text
  empty_msg (replicate 24 0).
Proof. split; try (vm_compute; reflexivity); try done; vm_compute; split; congruence. Qed.
Lemma sample_reachable l : Forall (fun r => sd (rq_hdr r) <> CLIENT_SLOT_AVAILABLE) l -> @reachable sample_regex 8 (set_list l sample_nfyd).
Proof. intros Hl. split; [by vm_compute|by vm_compute|by repeat constructor|done]. Qed.

Lemma notify_add_registers_witness : exists s',
  posix_log_notify_add (sample_daemon sample_parse) sample_query (Some sample_event) 1 empty_msg (replicate 24 0) (None, sample_nfyd2) =
    Some (0, Some 5, (None, s')) /\
  pNfyReqList s' = pNfyReqList sample_nfyd2 ++ [mkReq (mkReqHdr 5 77 8 5) sample_event sample_query (Some "prog"%string)].
Proof.
  apply (@notify_add_registers sample_machine sample_regex sample_parse sample_cmdline (fun _ => true) 8 0 77 0 0 sample_query
    sample_event 1 EVL_PRPS_TEMPLATE sample_text empty_msg (replicate 24 0) sample_query sample_nfyd2).
  - apply sample_args.
  - apply sample_reachable. by repeat constructor.
  - vm_compute. reflexivity.
  - by vm_compute.
Defined.
Lemma refused_request_reported_as_enabled_witness : exists s',
  posix_log_notify_add (sample_daemon (fun _ => inl "unknown name"%string)) sample_query (Some sample_event) 1 empty_msg (replicate 24 0)
    (None, sample_nfyd2) = Some (0, Some (2 ^ 64 - 22), (None, s')) /\ pNfyReqList s' = pNfyReqList sample_nfyd2.
Proof.
  apply (@refused_request_reported_as_enabled sample_machine sample_regex (fun _ => inl "unknown name"%string) sample_cmdline
    (fun _ => true) 8 0 77 0 0 sample_query sample_event 1 EVL_PRPS_TEMPLATE sample_text empty_msg (replicate 24 0) EINVAL None sample_nfyd2).
  - apply sample_args.
  - apply sample_reachable. by repeat constructor.
  - vm_compute. reflexivity.
  - done.
Defined.
Lemma notify_get_reports_witness : exists s',
  posix_log_notify_get (sample_daemon sample_parse) 3 (Some 100) empty_rq (replicate 24 0) (replicate 104 0) (fun n => Some (replicate (Z.to_nat n) 0))
    (None, sample_nfyd2) = Some (0, 23, Some (mkInfo sample_event 4 sample_text), (None, s')) /\ pNfyReqList s' = pNfyReqList sample_nfyd2.
Proof.
  apply (@notify_get_reports sample_machine sample_regex sample_parse sample_cmdline (fun _ => true) 8 0 77 0 0 3 100 empty_rq
    (replicate 24 0) (replicate 104 0) (fun n => Some (replicate (Z.to_nat n) 0))
    (mkReq (mkReqHdr 3 77 6 4) sample_event sample_query (Some "prog"%string)) sample_text sample_nfyd2); try done.
  - apply sample_reachable. by repeat constructor.
  - eexists. split; [reflexivity|]. by rewrite length_replicate.
Defined.
Lemma notify_remove_removes_witness : exists s',
  posix_log_notify_remove (sample_daemon sample_parse) 3 empty_rq (replicate 24 0) (None, sample_nfyd2) = Some (0, (None, s')) /\
  pNfyReqList s' = [sample_req 1 77 5].
Proof.
  apply (@notify_remove_removes sample_machine sample_regex sample_parse sample_cmdline (fun _ => true) 8 0 77 0 0 3 empty_rq
    (replicate 24 0) sample_nfyd2); try done.
  - apply sample_reachable. by repeat constructor.
  - vm_compute. repeat constructor; rewrite ?elem_of_cons, ?elem_of_nil; intuition discriminate.
Defined.
