(* ===== verification/Format.v ===== *)
(** * Format strings ([lib/util/format.c])

    The parser of [printf]-style formats, with which programs log and by which records
    are displayed, and of the formats with attribute names that the display commands
    take.  The scanning of a conversion can run past the end of its string, for [strchr]
    finds the terminator in every set; so what is parsed is the memory from a position
    to the end of its block, terminators included, and [None] is a read behind it. *)
From S2P Require Import Prelude NvPairs LogRecord QEvaluate.

Definition NUL : ascii := Ascii.zero.
Definition PERCENT : ascii := "%"%char.
Definition is_nul (c : ascii) : bool := chr c =? 0.
(** The C string at a position of a block, and what is left of the block after [n]
    characters. *)
Fixpoint cstr_at (m : str) : str :=
  match m with
  | EmptyString => EmptyString
  | String c m' => if is_nul c then EmptyString else String c (cstr_at m')
  end.
Fixpoint skip (n : nat) (m : str) : str :=
  match n, m with
  | S n', String _ m' => skip n' m'
  | _, _ => m
  end.
(** [strchr(s, c) != NULL] *)
Definition in_set (s : str) (c : ascii) : bool := is_nul c || bool_decide (is_Some (strchr s c)).
(** A string in a block of its own. *)
Definition block (s : str) : str := (s ++ String NUL EmptyString)%string.

(** ** Conversions *)

Record evl_parsed_format := mkConv {
  fm_flags : str;
  fm_width : Z;
  fm_precision : Z;
  fm_modifier : str;
  fm_conversion : ascii;
  fm_length : Z;
  fm_array : bool
}.
Definition flag_chars : str := "-+ #0'[".
Definition modifier_chars : str := "hjlLtzZ".

(** The flags and what follows, or [Some None] when one is there twice. *)
Fixpoint scan_flags (seen m : str) : option (option (str * str)) :=
  match m with
  | EmptyString => None
  | String c m' =>
      if in_set flag_chars c then
        if bool_decide (is_Some (strchr seen c)) then Some None else scan_flags (seen ++ String c EmptyString)%string m'
      else Some (Some (seen, m))
  end.
Fixpoint scan_modifier (m : str) : option (str * str) :=
  match m with
  | EmptyString => None
  | String c m' =>
      if in_set modifier_chars c then '(mods, rest) ← scan_modifier m'; Some (String c mods, rest)
      else Some (EmptyString, m)
  end.
Definition isalpha (c : ascii) : bool :=
  ((65 <=? chr c) && (chr c <=? 90)) || ((97 <=? chr c) && (chr c <=? 122)).
(** [strtoul(f, &c, 10)]: the value, and [f] from [c] on. *)
Definition scan_number (f : str) : Z * str :=
  let s := cstr_at f in
  let '(v, rest) := strtoul s 10 in
  (v, skip (String.length s - String.length rest) f).

(** [Some None] is -1. *)
Definition _evlParseFmtConvSpec (fmt : str) : option (option evl_parsed_format) :=
  r ← scan_flags EmptyString fmt;
  match r with
  | None => Some None
  | Some (flags, f) =>
      let '(width, c) := scan_number f in
      let '(bad, precision, f) :=
        match c with
        | String "."%char f =>
            let '(precision, c) := scan_number f in
            ((width =? 0) && (String.length c =? String.length f)%nat, precision, c)
        | _ => (false, 0, c)
        end in
      if bad then Some None
      else
        '(mods, f) ← scan_modifier f;
        if strlen mods >? 2 then Some None
        else
          match f with
          | EmptyString => None
          | String letter _ =>
              if negb (isalpha letter) then Some None
              else
                let flags := cstr_at flags in
                Some (Some (mkConv flags (s32 width) (s32 precision) (cstr_at mods) letter
                              (1 + (strlen fmt - strlen f)) (bool_decide (is_Some (strchr flags "["%char)))))
          end
  end.

(** ** The type that a conversion takes *)

(** An integer type of that size, on a 64-bit machine. *)
Definition computeIntType (sz : Z) : option base_type :=
  if sz =? 4 then Some TY_INT else if sz =? 8 then Some TY_LONG else None.
Definition typeof_size_t : base_type := default TY_INT (computeIntType 8).
Definition typeof_intmax_t : base_type := default TY_INT (computeIntType 8).
Definition typeof_ptrdiff_t : base_type := default TY_INT (computeIntType 8).

Definition adjustCharType (mods : str) (promote : bool) : base_type :=
  if streqb mods "" then if promote then TY_INT else TY_UCHAR
  else if streqb mods "l" then TY_WCHAR
  else TY_NONE.
Definition adjustIntType (mods : str) (promote : bool) : base_type :=
  if streqb mods "" then TY_INT
  else if streqb mods "h" then if promote then TY_INT else TY_SHORT
  else if streqb mods "hh" then if promote then TY_INT else TY_CHAR
  else if streqb mods "l" then TY_LONG
  else if streqb mods "ll" || streqb mods "L" then TY_LONGLONG
  else if streqb mods "z" || streqb mods "Z" then typeof_size_t
  else if streqb mods "j" then typeof_intmax_t
  else if streqb mods "t" then typeof_ptrdiff_t
  else TY_NONE.
Definition adjustUintType (mods : str) (promote : bool) : base_type :=
  match adjustIntType mods promote with
  | TY_CHAR => TY_UCHAR
  | TY_SHORT => TY_USHORT
  | TY_INT => TY_UINT
  | TY_LONG => TY_ULONG
  | TY_LONGLONG => TY_ULONGLONG
  | ty => ty
  end.
Definition adjustDoubleType (mods : str) : base_type :=
  if streqb mods "" then TY_DOUBLE else if streqb mods "L" then TY_LDOUBLE else TY_NONE.
Definition adjustStringType (mods : str) : base_type :=
  if streqb mods "" then TY_STRING else if streqb mods "l" then TY_WSTRING else TY_NONE.
Definition validateNConversion (mods : str) : base_type :=
  if streqb mods "" || streqb mods "l" || streqb mods "ll" || streqb mods "L" then TY_SPECIAL else TY_NONE.

Definition is_letter (c : ascii) (letters : str) : bool := bool_decide (is_Some (strchr letters c)).
Definition _evlGetTypeFromConversion (pf : evl_parsed_format) (promote signedOnly : bool) : base_type :=
  let mods := fm_modifier pf in
  let c := fm_conversion pf in
  if is_letter c "c" then adjustCharType mods promote
  else if is_letter c "di" then adjustIntType mods promote
  else if is_letter c "ouxX" then if signedOnly then adjustIntType mods promote else adjustUintType mods promote
  else if is_letter c "aAeEfFgG" then adjustDoubleType mods
  else if is_letter c "s" then adjustStringType mods
  else if is_letter c "p" then if strlen mods =? 0 then TY_ADDRESS else TY_NONE
  else if is_letter c "C" then if strlen mods =? 0 then TY_WCHAR else TY_NONE
  else if is_letter c "S" then if strlen mods =? 0 then TY_WSTRING else TY_NONE
  else if is_letter c "n" then validateNConversion mods
  else TY_NONE.

(** ** Segments *)

Inductive evl_fmt_segment :=
  | EVL_FS_STRING (s : str)
  | EVL_FS_MEMBER (fs_member : Z) (fs_userfmt : option str) (fs_stringfmt : bool)
  | EVL_FS_ATTNAME (fs_attname : str) (fs_userfmt : option str) (fs_stringfmt : bool)
  | EVL_FS_PRINTFCONV (fs_conversion : evl_parsed_format) (fs_userfmt : option str) (fs_stringfmt : bool)
  | EVL_FS_ERROR (msg : str).

Definition makeErrorSegment (attrSpec msg : str) : evl_fmt_segment := EVL_FS_ERROR (msg ++ ": " ++ attrSpec)%string.

(** The text up to a lone [%], with [%%] as [%], and what follows it. *)
Fixpoint string_run (c : str) : str * option str :=
  match c with
  | EmptyString => (EmptyString, None)
  | String d c' =>
      if Ascii.eqb d PERCENT then
        match c' with
        | String e c'' =>
            if Ascii.eqb e PERCENT then let '(t, r) := string_run c'' in (String PERCENT t, r)
            else (EmptyString, Some c')
        | EmptyString => (EmptyString, Some c')
        end
      else let '(t, r) := string_run c' in (String d t, r)
  end.
Definition collectStringSegment (c : str) (l : list evl_fmt_segment) : str * list evl_fmt_segment :=
  match string_run c with
  | (EmptyString, r) => (default EmptyString r, l)
  | (t, r) => (default EmptyString r, l ++ [EVL_FS_STRING t])
  end.
Definition skipStringSegment (c : str) : str := default EmptyString (snd (string_run c)).

(** ** [printf]-style formats *)

(** [None] is a null pointer, for a bad conversion. *)
Definition collectConversionSegment (c : str) (l : list evl_fmt_segment) (needStrings : bool)
  : option (option str * list evl_fmt_segment) :=
  match c with
  | EmptyString => Some (Some c, l)
  | _ =>
      r ← _evlParseFmtConvSpec (block c);
      match r with
      | None => Some (None, l)
      | Some pf =>
          let n := Z.to_nat (fm_length pf) in
          let userfmt := if needStrings then Some (String PERCENT (String.substring 0 n c)) else None in
          let stringfmt := is_letter (fm_conversion pf) "sS" in
          Some (Some (skip n c), l ++ [EVL_FS_PRINTFCONV pf userfmt stringfmt])
      end
  end.
Fixpoint parse_printf (fuel : nat) (sp : str) (l : list evl_fmt_segment) (needStrings : bool)
  : option (option (list evl_fmt_segment)) :=
  match sp, fuel with
  | EmptyString, _ => Some (Some l)
  | _, O => None
  | _, S fuel =>
      let '(sp, l) := if needStrings then collectStringSegment sp l else (skipStringSegment sp, l) in
      '(sp, l) ← collectConversionSegment sp l needStrings;
      match sp with
      | None => Some None
      | Some sp => parse_printf fuel sp l needStrings
      end
  end.
(** [Some None] is a status of -1; the pointer moves on in every round. *)
Definition _evlParsePrintfFormat (format : str) (needStrings : bool) : option (option (list evl_fmt_segment)) :=
  parse_printf (String.length format) format [] needStrings.

(** ** Formats with attribute names *)

(** Parses the conversion after a [%] and checks it; [fmt] is in memory. *)
Definition _evlValidateAttrFmt (fmt : str) (maxWidth : Z) : option (option evl_parsed_format) :=
  let conv := skip 1 fmt in
  r ← _evlParseFmtConvSpec conv;
  Some (match r with
        | None => None
        | Some pf =>
            if (fm_length pf =? 0) || negb (fm_length pf =? strlen (cstr_at conv)) then None
            else if (fm_width pf >? maxWidth) || (fm_precision pf >? maxWidth) then None
            else match _evlGetTypeFromConversion pf true true with TY_NONE => None | _ => Some pf end
        end).

Fixpoint before (s : str) (c : ascii) : str :=
  match s with
  | EmptyString => EmptyString
  | String d s' => if Ascii.eqb d c then EmptyString else String d (before s' c)
  end.
(** What the name of an attribute stands for: [memberIndex] and [segType]; or an error. *)
Definition attr_target (attrName : str) (colon allowNonStdAtts : bool)
  : evl_fmt_segment + (option str -> bool -> evl_fmt_segment) :=
  let memberIndex := _evlGetValueByName _evlAttributes attrName (-1) in
  if negb (memberIndex =? -1) then inr (EVL_FS_MEMBER memberIndex)
  else if streqb attrName "data" then
    if colon then inl (makeErrorSegment attrName "Cannot specify alternate format for data")
    else inr (EVL_FS_MEMBER POSIX_LOG_ENTRY_DATA)
  else if allowNonStdAtts || streqb attrName "host" then inr (EVL_FS_ATTNAME attrName)
  else inl (makeErrorSegment attrName "Unknown attribute").
(** [attrSpec] is followed by [rest] in memory, behind its terminator. *)
Definition makeAttrSegment (attrSpec rest : str) (allowNonStdAtts : bool) : option evl_fmt_segment :=
  let attrName := before attrSpec ":"%char in
  let colon := skip 1 <$> strchr attrSpec ":"%char in
  match attr_target attrName (bool_decide (is_Some colon)) allowNonStdAtts, colon with
  | inl err, _ => Some err
  | inr seg, None => Some (seg None false)
  | inr seg, Some fmt =>
      if streqb fmt "printf" || streqb fmt "printk" then Some (seg (Some fmt) false)
      else
        r ← _evlValidateAttrFmt (String PERCENT (fmt ++ String NUL rest)%string) (POSIX_LOG_MEMSTR_MAXLEN - 1);
        Some (match r with
              | None => makeErrorSegment attrSpec "Error in format"
              | Some pf => seg (Some (String PERCENT fmt)) (is_letter (fm_conversion pf) "sS")
              end)
  end.
Definition is_error (fs : evl_fmt_segment) : bool := match fs with EVL_FS_ERROR _ => true | _ => false end.
(** [None] in the result is a null pointer. *)
Definition collectAttrSegment (c : str) (l : list evl_fmt_segment) (allowNonStdAtts : bool)
  : option (option str * list evl_fmt_segment) :=
  match c with
  | EmptyString => Some (Some c, l)
  | _ =>
      match strchr c PERCENT with
      | None => Some (None, l ++ [makeErrorSegment c "Unterminated attribute spec"])
      | Some tail =>
          let rest := skip 1 tail in
          seg ← makeAttrSegment (before c PERCENT) (block rest) allowNonStdAtts;
          Some (if is_error seg then None else Some rest, l ++ [seg])
      end
  end.
Fixpoint getFmtErrorMsg (l : list evl_fmt_segment) : option str :=
  match l with
  | [] => None
  | EVL_FS_ERROR msg :: _ => Some msg
  | _ :: l' => getFmtErrorMsg l'
  end.
Fixpoint parse_format (fuel : nat) (sp : str) (l : list evl_fmt_segment) (allowNonStdAtts : bool)
  : option (option str + list evl_fmt_segment) :=
  match sp, fuel with
  | EmptyString, _ => Some (inr l)
  | _, O => None
  | _, S fuel =>
      let '(sp, l) := collectStringSegment sp l in
      '(sp, l) ← collectAttrSegment sp l allowNonStdAtts;
      match sp with
      | None => Some (inl (getFmtErrorMsg l))
      | Some sp => parse_format fuel sp l allowNonStdAtts
      end
  end.
(** The segments, or [*errMsg]. *)
Definition _evlParseFormat (fmt : str) (allowNonStdAtts : bool) : option (option str + list evl_fmt_segment) :=
  r ← parse_format (String.length fmt) fmt [] allowNonStdAtts;
  Some (match r with inr [] => inl (Some "Empty format specification"%string) | r => r end).

(** [_evlGetMaxDumpLen] of [lib/formatrec.c]. *)
Definition BYTES_PER_LINE : Z := 16.
Definition DUMPLINELEN : Z := 77.
Definition _evlGetMaxDumpLen : Z := (POSIX_LOG_ENTRY_MAXLEN + BYTES_PER_LINE - 1) / BYTES_PER_LINE * (DUMPLINELEN + 1).

Definition segment_size (fs : evl_fmt_segment) : Z :=
  match fs with
  | EVL_FS_STRING s => strlen s
  | EVL_FS_MEMBER m _ _ => if m =? POSIX_LOG_ENTRY_DATA then _evlGetMaxDumpLen else POSIX_LOG_MEMSTR_MAXLEN
  | EVL_FS_ATTNAME _ _ _ => _evlGetMaxDumpLen
  | _ => 0
  end.
(** The size of the buffer, if one is allocated. *)
Definition _evlAllocateFmtBuf (l : list evl_fmt_segment) : option Z :=
  let size := foldr (fun fs n => segment_size fs + n) 0 l in
  if size =? 0 then None else Some (size + 1).
(** The number that [_evlSprintfMember] prints; a failed assertion is [None]. *)
Definition _evlSprintfMember (member : Z) (entry : posix_log_entry) : option Z :=
  if member =? POSIX_LOG_ENTRY_RECID then Some (log_recid entry)
  else if member =? POSIX_LOG_ENTRY_SIZE then Some (log_size entry)
  else if member =? POSIX_LOG_ENTRY_FORMAT then Some (log_format entry)
  else if member =? POSIX_LOG_ENTRY_EVENT_TYPE then Some (log_event_type entry)
  else if member =? POSIX_LOG_ENTRY_FACILITY then Some (log_facility entry)
  else if member =? POSIX_LOG_ENTRY_SEVERITY then Some (log_severity entry)
  else if member =? POSIX_LOG_ENTRY_UID then Some (log_uid entry)
  else if member =? POSIX_LOG_ENTRY_GID then Some (log_gid entry)
  else if member =? POSIX_LOG_ENTRY_PID then Some (log_pid entry)
  else if member =? POSIX_LOG_ENTRY_PGRP then Some (log_pgrp entry)
  else if member =? POSIX_LOG_ENTRY_TIME then Some (log_time_sec entry)
  else if member =? POSIX_LOG_ENTRY_FLAGS then Some (log_flags entry)
  else if member =? POSIX_LOG_ENTRY_THREAD then Some (log_thread entry)
  else if member =? POSIX_LOG_ENTRY_PROCESSOR then Some (log_processor entry)
  else None.

Example parse_ex1 : _evlParsePrintfFormat "a%%b %5.2lf%s" true =
  Some (Some [EVL_FS_STRING "a%b "; EVL_FS_PRINTFCONV (mkConv "" 5 2 "l" "f" 5 false) (Some "%5.2lf"%string) false;
              EVL_FS_PRINTFCONV (mkConv "" 0 0 "" "s" 1 false) (Some "%s"%string) true]).
Proof. vm_compute. reflexivity. Qed.
Example parse_ex2 : _evlParsePrintfFormat "100%5" true = None. Proof. reflexivity. Qed.
Example parse_ex3 : _evlParseFormat "id %recid% %uid:5d%%temp%" true =
  Some (inr [EVL_FS_STRING "id "; EVL_FS_MEMBER 1 None false; EVL_FS_STRING " "; EVL_FS_MEMBER 7 (Some "%5d"%string) false;
             EVL_FS_ATTNAME "temp" None false]).
Proof. vm_compute. reflexivity. Qed.
Example parse_ex4 : _evlParseFormat "%recid" true = Some (inl (Some "Unterminated attribute spec: recid"%string)).
Proof. vm_compute. reflexivity. Qed.
Example parse_ex5 : _evlParseFormat "%uid:5% is the user" true = Some (inl (Some "Error in format: uid:5"%string)).
Proof. vm_compute. reflexivity. Qed.
