(* ===== verification/FormatCorrect.v ===== *)
(** * Format strings: what is parsed is what was written

    Conversions and whole formats are parsed back from their text, with and without the
    strings between the conversions; a conversion that is cut off is read past its end. *)
From Stdlib Require Import Sorted.
From S2P Require Import Prelude NvPairs LogRecord FacNames QEvaluate Format.

(** ** Strings *)

Fixpoint str_all (p : ascii -> bool) (s : str) : bool :=
  match s with
  | EmptyString => true
  | String c s' => p c && str_all p s'
  end.
Lemma str_all_app p a b : str_all p (a ++ b) = str_all p a && str_all p b.
Proof. induction a as [|c a IH]; [done|]. cbn. by rewrite IH, andb_assoc. Qed.
Lemma str_all_impl (p q : ascii -> bool) s : (forall c, p c = true -> q c = true) -> str_all p s = true -> str_all q s = true.
Proof. intros H. induction s as [|c s IH]; [done|]. cbn. intros [Hc Hs]%andb_true_iff. by rewrite H, IH. Qed.
Lemma no_nul_all s : no_nul s = str_all (fun c => negb (is_nul c)) s.
Proof. induction s as [|c s IH]; [done|]. cbn. by rewrite IH. Qed.
Lemma no_nul_app a b : no_nul (a ++ b) = no_nul a && no_nul b.
Proof. rewrite !no_nul_all. apply str_all_app. Qed.
Lemma digits_pretty x : forall s, str_all is_digit s = true -> str_all is_digit (pretty_N_go x s) = true.
Proof.
  induction (N.lt_wf_0 x) as [x _ IH]; intros s Hs.
  assert (x = 0 \/ 0 < x)%N as [->|Hx] by lia; [done|].
  rewrite pretty_N_go_step by done. apply IH; [apply N.div_lt; lia|]. cbn [str_all]. rewrite Hs, andb_true_r.
  assert (x `mod` 10 < 10)%N as Hm by (apply N.mod_lt; lia). revert Hm. generalize (x `mod` 10)%N. intros m Hm.
  destruct m as [|p]; [done|]. do 4 (destruct p as [p|p|]; try done; try lia).
Qed.
Lemma digits_d n : 0 <= n -> str_all is_digit (fmt_d n) = true.
Proof. intros Hn. destruct n as [|p|p]; [done| |lia]. by apply (digits_pretty (Npos p)). Qed.

Lemma cstr_app s m : no_nul s = true -> cstr_at (s ++ m) = (s ++ cstr_at m)%string.
Proof.
  induction s as [|c s IH]; [done|]. cbn [no_nul]. intros [Hc Hs]%andb_true_iff. apply negb_true_iff in Hc.
  cbn [String.append cstr_at]. unfold is_nul. by rewrite Hc, IH.
Qed.
Lemma cstr_block s : no_nul s = true -> cstr_at (block s) = s.
Proof. intros Hs. unfold block. rewrite cstr_app by done. apply str_app_nil. Qed.
Lemma skip_app a b : skip (String.length a) (a ++ b) = b.
Proof. by induction a. Qed.
Lemma cstr_no_nul m : no_nul (cstr_at m) = true.
Proof. induction m as [|c m IH]; [done|]. cbn. unfold is_nul. destruct (chr c =? 0) eqn:E; [done|]. cbn. by rewrite E. Qed.

(** ** The parts of a conversion *)

Lemma digit_chars c : is_digit c = true -> digit_val 10 c <> None.
Proof. destruct c as [[] [] [] [] [] [] [] []]; vm_compute; done. Qed.
Lemma pretty_head x : (0 < x)%N -> forall s, exists c r, pretty_N_go x s = String c r /\ is_digit c = true /\ chr c <> 48.
Proof.
  induction (N.lt_wf_0 x) as [x _ IH]; intros Hx s. rewrite pretty_N_go_step by done.
  destruct (decide (0 < x `div` 10)%N) as [Hd|Hd]; [apply IH; [apply N.div_lt; lia|done]|].
  assert (x `div` 10 = 0)%N as E by (destruct (x `div` 10)%N; [done|exfalso; apply Hd; done]). rewrite E, pretty_N_go_0. eexists _, _. split; [done|].
  apply N.div_small_iff in E; [|lia]. rewrite N.mod_small by done.
  destruct x as [|p]; [lia|]. do 4 (destruct p as [p|p|]; try done; try lia).
Qed.
Lemma fmt_d_head n : 0 < n -> exists c r, fmt_d n = String c r /\ is_digit c = true /\ chr c <> 48.
Proof. intros Hn. destruct n as [|p|p]; [lia| |lia]. by apply (pretty_head (Npos p)). Qed.

(** What follows the numbers: a point, a modifier or the letter. *)
Definition plain_head (c : ascii) : bool := Ascii.eqb c "."%char || isalpha c.
Lemma plain_head_spec c : plain_head c = true ->
  in_set flag_chars c = false /\ is_digit c = false /\ is_space c = false /\ (chr c =? 45) = false /\ (chr c =? 43) = false /\
  is_nul c = false /\ digit_val 10 c = None.
Proof. destruct c as [[] [] [] [] [] [] [] []]; vm_compute; intuition done. Qed.
Lemma digit_not_flag c : is_digit c = true -> chr c <> 48 -> in_set flag_chars c = false.
Proof. destruct c as [[] [] [] [] [] [] [] []]; vm_compute; done. Qed.
Lemma modifier_plain c : negb (is_nul c) && in_set modifier_chars c = true -> plain_head c = true.
Proof. destruct c as [[] [] [] [] [] [] [] []]; vm_compute; done. Qed.

Fixpoint fresh_flags (seen s : str) : bool :=
  match s with
  | EmptyString => true
  | String c s' =>
      negb (is_nul c) && in_set flag_chars c && negb (bool_decide (is_Some (strchr seen c))) &&
      fresh_flags (seen ++ String c EmptyString)%string s'
  end.
Lemma fresh_no_nul s : forall seen, fresh_flags seen s = true -> no_nul s = true.
Proof.
  induction s as [|c s IH]; intros seen; [done|]. cbn [fresh_flags no_nul]. rewrite !andb_true_iff.
  intros [[[Hn _] _] Hs]. split; [exact Hn|by eapply IH].
Qed.
Lemma scan_flags_ok s : forall seen c rest, fresh_flags seen s = true -> in_set flag_chars c = false ->
  scan_flags seen (s ++ String c rest) = Some (Some ((seen ++ s)%string, String c rest)).
Proof.
  induction s as [|d s IH]; intros seen c rest Hs Hc; cbn [String.append scan_flags].
  - by rewrite Hc, str_app_nil.
  - cbn [fresh_flags] in Hs. bprop. match goal with H : in_set flag_chars d = true |- _ => rewrite H end.
    match goal with H : bool_decide _ = false |- _ => rewrite H end. rewrite IH by done. by rewrite str_app_assoc.
Qed.
Definition modifiers_ok (s : str) : bool := str_all (fun c => negb (is_nul c) && in_set modifier_chars c) s.
Lemma modifiers_no_nul s : modifiers_ok s = true -> no_nul s = true.
Proof. rewrite no_nul_all. apply str_all_impl. by intros c [H _]%andb_true_iff. Qed.
Lemma scan_modifier_ok s : forall c rest, modifiers_ok s = true -> in_set modifier_chars c = false ->
  scan_modifier (s ++ String c rest) = Some (s, String c rest).
Proof.
  induction s as [|d s IH]; intros c rest Hs Hc; cbn [String.append scan_modifier]; [by rewrite Hc|].
  cbn [modifiers_ok str_all] in Hs. bprop. match goal with H : in_set modifier_chars d = true |- _ => rewrite H end.
  by rewrite IH.
Qed.
Lemma scan_number_ok n c rest : 0 <= n < 2 ^ 64 -> plain_head c = true \/ is_nul c = true ->
  scan_number (fmt_d n ++ String c rest) = (n, String c rest).
Proof.
  intros Hn Hc. unfold scan_number. assert (no_nul (fmt_d n) = true) as Hd.
  { rewrite no_nul_all. eapply str_all_impl; [|apply digits_d; lia]. intros x Hx. cbv beta.
    unfold is_digit, is_nul in *. destruct (chr x =? 0) eqn:E; [zb|done]. }
  rewrite cstr_app by done. rewrite strtoul_fmt_d; [|done|].
  - f_equal. rewrite str_length_app. replace (_ + _ - _)%nat with (String.length (fmt_d n)) by lia. apply skip_app.
  - cbn [cstr_at]. destruct (is_nul c) eqn:E; [done|]. destruct Hc as [Hc|]; [|done]. by apply plain_head_spec in Hc as (_ & _ & _ & _ & _ & _ & ?).
Qed.
Lemma scan_number_none c rest : plain_head c = true \/ is_nul c = true -> scan_number (String c rest) = (0, String c rest).
Proof.
  intros Hc. unfold scan_number. assert (strtoul (cstr_at (String c rest)) 10 = (0, cstr_at (String c rest))) as ->.
  { cbn [cstr_at]. destruct (is_nul c) eqn:E; [done|]. destruct Hc as [Hc|]; [|done].
    apply plain_head_spec in Hc as (_ & _ & Hs & Hm & Hp & _ & Hd). unfold strtoul. cbn [skip_spaces]. rewrite Hs, Hm, Hp.
    rewrite andb_false_r. cbv zeta. cbn [Z.eqb read_digits]. rewrite Hd. by rewrite bool_decide_eq_true_2. }
  by rewrite Nat.sub_diag.
Qed.

(** ** A conversion is parsed from its text *)

(** The precision is absent, a point alone or a point and a number. *)
Record conv_text := mkText {
  t_flags : str;
  t_width : option Z;
  t_precision : option (option Z);
  t_mods : str;
  t_letter : ascii
}.
Definition opt_number (n : option Z) : str := match n with Some n => fmt_d n | None => EmptyString end.
Definition render_precision (p : option (option Z)) : str :=
  match p with Some p => String "." (opt_number p) | None => EmptyString end.
Definition conv_tail (t : conv_text) (rest : str) : str := (t_mods t ++ String (t_letter t) rest)%string.
Definition render_conv (t : conv_text) : str :=
  (t_flags t ++ opt_number (t_width t) ++ render_precision (t_precision t) ++ conv_tail t EmptyString)%string.
Record text_ok (t : conv_text) : Prop := {
  t_flags_fresh : fresh_flags EmptyString (t_flags t) = true;
  t_width_int : match t_width t with Some w => 0 < w < 2 ^ 31 | None => True end;
  t_precision_int :
    match t_precision t with Some (Some p) => 0 <= p < 2 ^ 31 | Some None => t_width t <> None | None => True end;
  t_mods_ok : modifiers_ok (t_mods t) = true /\ strlen (t_mods t) <= 2;
  t_letter_ok : isalpha (t_letter t) = true /\ in_set modifier_chars (t_letter t) = false
}.
Definition parsed (t : conv_text) : evl_parsed_format :=
  mkConv (t_flags t) (default 0 (t_width t)) (default 0 (default None (t_precision t))) (t_mods t) (t_letter t)
    (strlen (render_conv t)) (bool_decide (is_Some (strchr (t_flags t) "["%char))).

Lemma letter_plain c : isalpha c = true -> plain_head c = true.
Proof. intros H. unfold plain_head. by rewrite H, orb_true_r. Qed.
Lemma conv_tail_head t rest : text_ok t -> exists c r, conv_tail t rest = String c r /\ plain_head c = true /\ c <> "."%char.
Proof.
  intros Ht. destruct (t_mods_ok t Ht) as [Hm _], (t_letter_ok t Ht) as [Hl _]. unfold conv_tail.
  destruct (t_mods t) as [|c m]; cbn [String.append].
  - eexists _, _. split; [done|]. split; [by apply letter_plain|]. intros E. by rewrite E in Hl.
  - cbn [modifiers_ok str_all] in Hm. apply andb_true_iff in Hm as [Hm _]. eexists _, _. split; [done|].
    split; [by apply modifier_plain|]. intros ->. done.
Qed.
Lemma scan_opt_number n c rest : match n with Some n => 0 <= n < 2 ^ 31 | None => True end ->
  plain_head c = true \/ is_nul c = true -> scan_number (opt_number n ++ String c rest) = (default 0 n, String c rest).
Proof.
  intros Hn Hc. destruct n as [n|]; cbn in Hn |- *; unfold id; [apply scan_number_ok; [lia|done]|by apply scan_number_none].
Qed.
(** The head of what follows the flags is not a flag. *)
Lemma after_flags t rest : text_ok t -> exists c r,
  (opt_number (t_width t) ++ render_precision (t_precision t) ++ conv_tail t rest)%string = String c r /\
  in_set flag_chars c = false.
Proof.
  intros Ht. pose proof (t_width_int t Ht) as Hw. destruct (t_width t) as [w|]; cbn [opt_number].
  - destruct (fmt_d_head w) as (c & r & -> & Hd & Hz); [lia|]. eexists _, _. split; [done|]. by apply digit_not_flag.
  - destruct (t_precision t) as [p|]; cbn [render_precision String.append]; [by eexists _, _|].
    destruct (conv_tail_head t rest Ht) as (c & r & -> & Hp & _). eexists _, _. split; [done|].
    by apply plain_head_spec in Hp as [? _].
Qed.
Lemma strlen_lt_app a b : (strlen a =? 0) = false -> (String.length b =? String.length (a ++ b))%nat = false.
Proof. unfold strlen. rewrite str_length_app. intros H. apply Nat.eqb_neq. bprop. lia. Qed.
(** [modifier] to the end, once the numbers are read. *)
Lemma conv_end t pre rest : text_ok t ->
  scan_modifier (conv_tail t rest) = Some (t_mods t, String (t_letter t) rest) /\
  1 + (strlen (pre ++ conv_tail t rest) - strlen (String (t_letter t) rest)) = strlen (pre ++ conv_tail t EmptyString).
Proof.
  intros Ht. destruct (t_mods_ok t Ht) as [Hm _], (t_letter_ok t Ht) as [_ Hl]. split; [by apply scan_modifier_ok|].
  unfold conv_tail, strlen. rewrite !str_length_app. cbn [String.length]. lia.
Qed.
Lemma strlen_skip_mods t : text_ok t -> (strlen (t_mods t) >? 2) = false.
Proof. intros Ht. destruct (t_mods_ok t Ht) as [_ Hm]. rewrite Z.gtb_ltb. apply Z.ltb_ge. lia. Qed.
Lemma s32_opt n : match n with Some n => 0 <= n < 2 ^ 31 | None => True end -> s32 (default 0 n) = default 0 n.
Proof. intros Hn. destruct n as [n|]; [|done]. apply signed_id; [lia|]. unfold in_signed. cbn in *. lia. Qed.
Lemma point_scan t c r : text_ok t -> plain_head c = true \/ is_nul c = true -> c <> "."%char ->
  let '(width, f) := scan_number (opt_number (t_width t) ++ render_precision (t_precision t) ++ String c r) in
  match f with
  | String "."%char f => let '(precision, c) := scan_number f in ((width =? 0) && (String.length c =? String.length f)%nat, precision, c)
  | _ => (false, 0, f)
  end = (false, default 0 (default None (t_precision t)), String c r) /\ width = default 0 (t_width t).
Proof.
  intros Ht Hc Hdot. pose proof (t_width_int t Ht) as Hw. pose proof (t_precision_int t Ht) as Hp.
  assert (match t_width t with Some w => 0 <= w < 2 ^ 31 | None => True end) as Hw' by (destruct (t_width t); lia || done).
  destruct (t_precision t) as [p|]; cbn [render_precision String.append].
  - rewrite scan_opt_number by (done || by left). split; [|done]. rewrite scan_opt_number; [|by destruct p|done].
    destruct p as [p|]; cbn [opt_number].
    + rewrite andb_comm, strlen_lt_app; [done|]. unfold strlen. destruct (fmt_d p) eqn:Ep; [|done].
      destruct p as [|p|p]; [done| |lia]. destruct (fmt_d_head (Z.pos p)) as (? & ? & Eq & _); [lia|]. by rewrite Eq in Ep.
    + destruct (t_width t) as [w|]; [|done]. cbn [default]. unfold id. by rewrite (proj2 (Z.eqb_neq _ _)) by lia.
  - rewrite scan_opt_number by done. split; [|done]. clear - Hdot. by destruct c as [[] [] [] [] [] [] [] []].
Qed.
Lemma parse_conv t rest : text_ok t -> _evlParseFmtConvSpec (render_conv t ++ rest) = Some (Some (parsed t)).
Proof.
  intros Ht. assert (render_conv t ++ rest =
    t_flags t ++ (opt_number (t_width t) ++ render_precision (t_precision t) ++ conv_tail t rest))%string as E.
  { unfold render_conv, conv_tail. rewrite !str_app_assoc. cbn [String.append]. done. }
  destruct (after_flags t rest Ht) as (c & r & Ec & Hc). pose proof (t_flags_fresh t Ht) as Hf.
  unfold _evlParseFmtConvSpec. rewrite E, Ec, scan_flags_ok by done. cbn [mbind option_bind String.append]. rewrite <- Ec.
  destruct (conv_tail_head t rest Ht) as (c' & r' & Et & Hc' & Hdot).
  pose proof (point_scan t c' r' Ht (or_introl Hc') Hdot) as Hp. rewrite <- Et in Hp.
  destruct (scan_number _) as [width f]. destruct Hp as [-> ->]. cbv beta iota.
  destruct (conv_end t (t_flags t ++ opt_number (t_width t) ++ render_precision (t_precision t)) rest Ht) as [-> Hlen].
  cbn [mbind option_bind]. rewrite strlen_skip_mods by done. destruct (t_letter_ok t Ht) as [-> _]. cbn [negb].
  rewrite !str_app_assoc in Hlen. rewrite Hlen. unfold parsed.
  assert (cstr_at (t_flags t) = t_flags t) as -> by (rewrite <- (str_app_nil (t_flags t)), cstr_app by (by eapply fresh_no_nul); done).
  assert (cstr_at (t_mods t) = t_mods t) as ->
    by (rewrite <- (str_app_nil (t_mods t)), cstr_app by (apply modifiers_no_nul, Ht); done).
  rewrite !s32_opt; [done| |]; [pose proof (t_precision_int t Ht)|pose proof (t_width_int t Ht)].
  - by destruct (t_precision t) as [[]|].
  - destruct (t_width t); [lia|done].
Qed.

(** ** A whole format *)

Fixpoint escape (s : str) : str :=
  match s with
  | EmptyString => EmptyString
  | String c s' => if Ascii.eqb c PERCENT then String PERCENT (String PERCENT (escape s')) else String c (escape s')
  end.
(** Texts with a conversion behind each of them, and a last text. *)
Fixpoint render_format (items : list (str * conv_text)) (last : str) : str :=
  match items with
  | [] => escape last
  | (s, t) :: items => (escape s ++ String PERCENT (render_conv t ++ render_format items last))%string
  end.
Definition string_segment (needStrings : bool) (s : str) : list evl_fmt_segment :=
  if needStrings then match s with EmptyString => [] | _ => [EVL_FS_STRING s] end else [].
Definition conv_segment (needStrings : bool) (t : conv_text) : evl_fmt_segment :=
  EVL_FS_PRINTFCONV (parsed t) (if needStrings then Some (String PERCENT (render_conv t)) else None)
    (is_letter (t_letter t) "sS").
Fixpoint segments (needStrings : bool) (items : list (str * conv_text)) (last : str) : list evl_fmt_segment :=
  match items with
  | [] => string_segment needStrings last
  | (s, t) :: items => string_segment needStrings s ++ conv_segment needStrings t :: segments needStrings items last
  end.

Lemma eqb_percent c : Ascii.eqb c PERCENT = true -> c = PERCENT.
Proof. by intros ?%Ascii.eqb_eq. Qed.
Lemma string_run_end s : string_run (escape s) = (s, None).
Proof.
  induction s as [|c s IH]; [done|]. cbn [escape]. destruct (Ascii.eqb c PERCENT) eqn:E.
  - apply eqb_percent in E as ->. cbn. by rewrite IH.
  - cbn [string_run]. by rewrite E, IH.
Qed.
Lemma string_run_text s c r : Ascii.eqb c PERCENT = false ->
  string_run (escape s ++ String PERCENT (String c r)) = (s, Some (String c r)).
Proof.
  intros Hc. induction s as [|d s IH].
  - cbn. by rewrite Hc.
  - cbn [escape]. destruct (Ascii.eqb d PERCENT) eqn:E.
    + apply eqb_percent in E as ->. cbn in *. by rewrite IH.
    + cbn [String.append string_run]. by rewrite E, IH.
Qed.
Lemma render_conv_head t rest : text_ok t -> exists c r, (render_conv t ++ rest)%string = String c r /\ Ascii.eqb c PERCENT = false.
Proof.
  intros Ht. unfold render_conv. pose proof (t_flags_fresh t Ht) as Hf. destruct (t_flags t) as [|d fs].
  - cbn [String.append]. destruct (after_flags t EmptyString Ht) as (c & r & E & _).
    pose proof (t_width_int t Ht) as Hw. destruct (t_width t) as [w|]; cbn [opt_number] in *.
    + destruct (fmt_d_head w) as (c' & r' & E' & Hd & _); [lia|]. rewrite E'. eexists _, _. split; [done|].
      clear - Hd. by destruct c' as [[] [] [] [] [] [] [] []].
    + destruct (t_precision t) as [p|]; cbn [render_precision String.append]; [by eexists _, _|].
      destruct (conv_tail_head t EmptyString Ht) as (c' & r' & E' & Hp & _). rewrite E'. eexists _, _. split; [done|].
      clear - Hp. by destruct c' as [[] [] [] [] [] [] [] []].
  - eexists _, _. split; [done|]. cbn [fresh_flags] in Hf. clear - Hf. destruct d as [[] [] [] [] [] [] [] []]; done.
Qed.
Lemma substring_app a b : String.substring 0 (String.length a) (a ++ b) = a.
Proof. induction a as [|c a IH]; [by destruct b|]. cbn. by rewrite IH. Qed.
Lemma block_app a b : block (a ++ b) = (a ++ block b)%string.
Proof. unfold block. by rewrite str_app_assoc. Qed.
Lemma collect_conversion t rest l needStrings : text_ok t ->
  collectConversionSegment (render_conv t ++ rest) l needStrings = Some (Some rest, l ++ [conv_segment needStrings t]).
Proof.
  intros Ht. unfold collectConversionSegment. rewrite block_app, parse_conv by done.
  destruct (render_conv_head t rest Ht) as (c & r & E & _). rewrite E at 1. cbn [mbind option_bind].
  assert (Z.to_nat (fm_length (parsed t)) = String.length (render_conv t)) as -> by (cbn; unfold strlen; lia).
  by rewrite skip_app, substring_app.
Qed.
Lemma collect_text s rest l (needStrings : bool) : match rest with String c _ => Ascii.eqb c PERCENT = false | _ => False end ->
  (if needStrings then collectStringSegment (escape s ++ String PERCENT rest) l
   else (skipStringSegment (escape s ++ String PERCENT rest), l)) = (rest, l ++ string_segment needStrings s).
Proof.
  intros Hr. destruct rest as [|c r]; [done|]. unfold collectStringSegment, skipStringSegment, string_segment.
  rewrite string_run_text by done. destruct needStrings; cbn; [|by rewrite app_nil_r].
  destruct s; [by rewrite app_nil_r|done].
Qed.
Lemma collect_last s l (needStrings : bool) :
  (if needStrings then collectStringSegment (escape s) l else (skipStringSegment (escape s), l))
  = (EmptyString, l ++ string_segment needStrings s).
Proof.
  unfold collectStringSegment, skipStringSegment, string_segment. rewrite string_run_end.
  destruct needStrings; cbn; [|by rewrite app_nil_r]. destruct s; [by rewrite app_nil_r|done].
Qed.
Lemma parse_end fuel l needStrings : parse_printf fuel EmptyString l needStrings = Some (Some l).
Proof. by destruct fuel. Qed.
Lemma parse_step fuel sp l (needStrings : bool) sp' l' : sp <> EmptyString ->
  (if needStrings then collectStringSegment sp l else (skipStringSegment sp, l)) = (sp', l') ->
  parse_printf (S fuel) sp l needStrings =
  '(sp, l) ← collectConversionSegment sp' l' needStrings;
  match sp with None => Some None | Some sp => parse_printf fuel sp l needStrings end.
Proof. intros Hsp E. destruct sp; [done|]. cbn [parse_printf]. by rewrite E. Qed.
Lemma app_percent_ne s r : (s ++ String PERCENT r)%string <> EmptyString.
Proof. by destruct s. Qed.
Lemma escape_ne s : s <> EmptyString -> escape s <> EmptyString.
Proof. destruct s as [|c s]; [done|]. cbn. by destruct (Ascii.eqb c PERCENT). Qed.
Definition rounds (items : list (str * conv_text)) (last : str) : nat := length items + Nat.min 1 (String.length last).
Lemma parse_rendered items last needStrings : Forall (fun it => text_ok (snd it)) items ->
  forall l fuel, (rounds items last <= fuel)%nat ->
  parse_printf fuel (render_format items last) l needStrings = Some (Some (l ++ segments needStrings items last)).
Proof.
  unfold rounds. induction items as [|[s t] items IH]; intros Hok l fuel Hf; cbn [render_format segments length] in *.
  - destruct (decide (last = EmptyString)) as [->|Hne].
    + rewrite parse_end. unfold string_segment. by destruct needStrings; rewrite app_nil_r.
    + destruct fuel as [|fuel]; [destruct last; [done|cbn in Hf; lia]|].
      erewrite parse_step; [|by apply escape_ne|apply collect_last]. cbn. apply parse_end.
  - apply Forall_cons in Hok as [Ht Hok]. cbn in Ht. destruct fuel as [|fuel]; [lia|].
    erewrite parse_step; [|apply app_percent_ne|apply collect_text].
    + rewrite collect_conversion by done. cbn [mbind option_bind]. rewrite IH by (done || lia).
      by rewrite <- !app_assoc.
    + by destruct (render_conv_head t (render_format items last) Ht) as (c & r & -> & Hc).
Qed.
Lemma escape_longer s : (String.length s <= String.length (escape s))%nat.
Proof. induction s as [|c s IH]; [done|]. cbn. destruct (Ascii.eqb c PERCENT); cbn; lia. Qed.
Lemma render_longer items last : (rounds items last <= String.length (render_format items last))%nat.
Proof.
  unfold rounds. induction items as [|[s t] items IH]; cbn [render_format length]; [pose proof (escape_longer last); lia|].
  rewrite str_length_app. cbn [String.length]. rewrite str_length_app. lia.
Qed.

(** C26: the text of a format, [%] written [%%] in it, is parsed into exactly its strings and
    its conversions, with the text of each conversion; without the strings, into the
    same conversions. *)
Theorem printf_format_parses items last needStrings : Forall (fun it => text_ok (snd it)) items ->
  _evlParsePrintfFormat (render_format items last) needStrings = Some (Some (segments needStrings items last)).
Proof. intros Hok. unfold _evlParsePrintfFormat. by rewrite parse_rendered; [| |apply render_longer]. Qed.

(** ** With and without the strings *)

Definition conversion_of (fs : evl_fmt_segment) : option evl_parsed_format :=
  match fs with EVL_FS_PRINTFCONV pf _ _ => Some pf | _ => None end.
Definition conversions (l : list evl_fmt_segment) : list evl_parsed_format := omap conversion_of l.
Definition same_conversions (a b : option (option (list evl_fmt_segment))) : Prop :=
  match a, b with
  | Some (Some l), Some (Some l') => conversions l = conversions l'
  | Some None, Some None => True
  | None, None => True
  | _, _ => False
  end.
Lemma collect_same c l l' : conversions l = conversions l' ->
  match collectConversionSegment c l true, collectConversionSegment c l' false with
  | Some (sp, l), Some (sp', l') => sp = sp' /\ conversions l = conversions l'
  | None, None => True
  | _, _ => False
  end.
Proof.
  intros Hl. unfold collectConversionSegment. destruct c as [|d c]; [done|].
  destruct (_evlParseFmtConvSpec (block (String d c))) as [[pf|]|]; cbn [mbind option_bind]; [|done|done].
  split; [done|]. unfold conversions in *. by rewrite !omap_app, Hl.
Qed.
Lemma parse_same fuel : forall sp l l', conversions l = conversions l' ->
  same_conversions (parse_printf fuel sp l true) (parse_printf fuel sp l' false).
Proof.
  induction fuel as [|fuel IH]; intros sp l l' Hl; [by destruct sp|]. destruct sp as [|c sp]; [done|].
  cbn [parse_printf]. unfold collectStringSegment, skipStringSegment.
  destruct (string_run (String c sp)) as [t r]. cbn [snd].
  assert (exists l1, (match t with EmptyString => (default EmptyString r, l) | _ => (default EmptyString r, l ++ [EVL_FS_STRING t]) end)
    = (default EmptyString r, l1) /\ conversions l1 = conversions l') as (l1 & -> & Hl1).
  { destruct t; [by exists l|]. eexists. split; [done|]. unfold conversions in *. by rewrite omap_app, Hl, app_nil_r. }
  pose proof (collect_same (default EmptyString r) l1 l' Hl1) as Hc.
  destruct (collectConversionSegment _ l1 true) as [[[sp1|] l2]|], (collectConversionSegment _ l' false) as [[[sp2|] l3]|];
    cbn [mbind option_bind]; try done; destruct Hc as [? ?]; simplify_eq.
  by apply IH.
Qed.
(** What a format packs is what it formats: for every string, parsing without the
    strings, with which the arguments of a call are packed, fails exactly when parsing
    with them does, and gives the same conversions. *)
Theorem packing_and_formatting_agree fmt :
  same_conversions (_evlParsePrintfFormat fmt true) (_evlParsePrintfFormat fmt false).
Proof. by apply parse_same. Qed.

(** ** A conversion that is cut off *)

(** All of a conversion but its letter. *)
Definition cut_conv (t : conv_text) : str :=
  (t_flags t ++ opt_number (t_width t) ++ render_precision (t_precision t) ++ t_mods t)%string.
Lemma no_nul_strchr s : no_nul s = true -> strchr s NUL = None.
Proof.
  induction s as [|c s IH]; [done|]. cbn [no_nul strchr]. intros [Hc Hs]%andb_true_iff.
  destruct (ascii_dec NUL c) as [<-|]; [done|by apply IH].
Qed.
Lemma scan_flags_over s : forall seen, fresh_flags seen s = true -> no_nul seen = true -> scan_flags seen (block s) = None.
Proof.
  unfold block. induction s as [|c s IH]; intros seen Hf Hseen.
  - cbn [String.append scan_flags]. change (in_set flag_chars NUL) with true. cbv iota. by rewrite no_nul_strchr.
  - cbn [String.append scan_flags]. cbn [fresh_flags] in Hf. rewrite !andb_true_iff in Hf.
    destruct Hf as [[[Hn ->] Hd%negb_true_iff] Hf]. rewrite Hd. apply IH; [done|].
    rewrite no_nul_app, Hseen. cbn [no_nul]. unfold is_nul in Hn. by rewrite Hn.
Qed.
Lemma scan_modifier_over s : modifiers_ok s = true -> scan_modifier (block s) = None.
Proof.
  unfold block. induction s as [|c s IH]; [done|]. cbn [modifiers_ok str_all String.append scan_modifier]. intros [Hc Hs]%andb_true_iff.
  apply andb_true_iff in Hc as [_ ->]. by rewrite IH.
Qed.
Lemma cut_head t : text_ok t -> exists c r, block (t_mods t) = String c r /\ (plain_head c = true \/ is_nul c = true) /\ c <> "."%char.
Proof.
  intros Ht. destruct (t_mods_ok t Ht) as [Hm _]. unfold block. destruct (t_mods t) as [|c m]; cbn [String.append].
  - eexists _, _. split; [done|]. split; [by right|done].
  - cbn [modifiers_ok str_all] in Hm. apply andb_true_iff in Hm as [Hm _]. eexists _, _. split; [done|].
    split; [left; by apply modifier_plain|]. intros ->. done.
Qed.
Lemma after_flags_cut t : text_ok t -> cut_conv t <> t_flags t -> exists c r,
  (opt_number (t_width t) ++ render_precision (t_precision t) ++ block (t_mods t))%string = String c r /\
  in_set flag_chars c = false.
Proof.
  intros Ht Hne. pose proof (t_width_int t Ht) as Hw. destruct (t_mods_ok t Ht) as [Hm _]. unfold cut_conv in Hne.
  destruct (t_width t) as [w|]; cbn [opt_number] in *.
  - destruct (fmt_d_head w) as (c & r & -> & Hd & Hz); [lia|]. eexists _, _. split; [done|]. by apply digit_not_flag.
  - destruct (t_precision t) as [p|]; cbn [render_precision String.append] in *; [by eexists _, _|].
    destruct (t_mods t) as [|c m]; [by rewrite str_app_nil in Hne|]. unfold block. eexists _, _. split; [done|].
    cbn [modifiers_ok str_all] in Hm. apply andb_true_iff in Hm as [Hm _]. by apply modifier_plain, plain_head_spec in Hm as [? _].
Qed.
Lemma parse_cut t : text_ok t -> _evlParseFmtConvSpec (block (cut_conv t)) = None.
Proof.
  intros Ht. pose proof (t_flags_fresh t Ht) as Hf. unfold _evlParseFmtConvSpec.
  destruct (decide (cut_conv t = t_flags t)) as [->|Hne]; [by rewrite scan_flags_over|].
  assert (block (cut_conv t) =
    t_flags t ++ (opt_number (t_width t) ++ render_precision (t_precision t) ++ block (t_mods t)))%string as ->.
  { unfold cut_conv, block. by rewrite !str_app_assoc. }
  destruct (after_flags_cut t Ht Hne) as (c & r & Ec & Hc). rewrite Ec, scan_flags_ok by done.
  cbn [mbind option_bind String.append]. rewrite <- Ec.
  destruct (cut_head t Ht) as (c' & r' & Et & Hc' & Hdot).
  pose proof (point_scan t c' r' Ht Hc' Hdot) as Hp. rewrite <- Et in Hp.
  destruct (scan_number _) as [width f]. destruct Hp as [-> ->]. cbv beta iota.
  by rewrite scan_modifier_over by apply (t_mods_ok t Ht).
Qed.
Lemma cut_conv_head t : text_ok t -> cut_conv t <> EmptyString ->
  exists c r, cut_conv t = String c r /\ Ascii.eqb c PERCENT = false.
Proof.
  intros Ht Hne. destruct (render_conv_head t EmptyString Ht) as (c & r & E & Hc). rewrite str_app_nil in E.
  assert (render_conv t = cut_conv t ++ String (t_letter t) EmptyString)%string as Hr.
  { unfold render_conv, cut_conv, conv_tail. by rewrite !str_app_assoc. }
  rewrite Hr in E. destruct (cut_conv t) as [|d s]; [done|]. cbn [String.append] in E. simplify_eq. by eexists _, _.
Qed.
(** A format that ends inside a conversion, after its flags, its width, its precision
    or its modifiers, is read past its end by the parser: the terminator counts as one
    more flag and one more modifier. *)
Theorem cut_format_is_overread items last t needStrings : Forall (fun it => text_ok (snd it)) items ->
  text_ok t -> cut_conv t <> EmptyString ->
  _evlParseFmtConvSpec (block (cut_conv t)) = None /\
  (forall fuel, parse_printf fuel (render_format items last ++ String PERCENT (cut_conv t)) [] needStrings = None).
Proof.
  intros Hok Ht Hne. split; [by apply parse_cut|].
  destruct (cut_conv_head t Ht Hne) as (c & r & Ec & Hc). set (cut := String PERCENT (cut_conv t)).
  intros fuel. generalize (@nil evl_fmt_segment) as l. revert fuel.
  induction items as [|[s u] items IH]; intros [|fuel] l; cbn [render_format];
    [by destruct (escape last)|..|by destruct (escape s)|].
  - erewrite parse_step; [|apply app_percent_ne|apply collect_text; by rewrite Ec].
    unfold collectConversionSegment. rewrite parse_cut by done. by rewrite Ec.
  - apply Forall_cons in Hok as [Hu Hok]. cbn in Hu. rewrite !str_app_assoc. cbn [String.append]. rewrite str_app_assoc.
    erewrite parse_step; [|apply app_percent_ne|apply collect_text].
    + rewrite collect_conversion by done. cbn [mbind option_bind]. by apply IH.
    + by destruct (render_conv_head u (render_format items last ++ cut) Hu) as (c' & r' & -> & Hc').
Qed.

(** ** Termination *)

Lemma string_run_shorter s : s <> EmptyString ->
  (String.length (default EmptyString (snd (string_run s))) < String.length s)%nat.
Proof.
  enough (forall n s, (String.length s < n)%nat -> s <> EmptyString ->
    (String.length (default EmptyString (snd (string_run s))) < String.length s)%nat) as H by (intros; eapply (H (S (String.length s))); [lia|done]).
  clear s. induction n as [|n IH]; [lia|]. intros s Hn Hs. destruct s as [|c s]; [done|]. cbn [String.length] in *.
  assert (String.length (default EmptyString (snd (string_run s))) <= String.length s)%nat as Hrest.
  { destruct s as [|d s']; [done|]. apply Nat.lt_le_incl, IH; [cbn in *; lia|done]. }
  cbn [string_run]. destruct (Ascii.eqb c PERCENT); [|destruct (string_run s); cbn in *; lia].
  destruct s as [|d s]; [cbn; lia|]. destruct (Ascii.eqb d PERCENT); [|cbn; lia].
  assert (String.length (default EmptyString (snd (string_run s))) <= String.length s)%nat.
  { destruct s as [|d' s']; [done|]. apply Nat.lt_le_incl, IH; [cbn in *; lia|done]. }
  destruct (string_run s); cbn in *; lia.
Qed.
Lemma skip_length n s : (String.length (skip n s) <= String.length s)%nat.
Proof. revert s. induction n as [|n IH]; intros [|c s]; cbn; [lia..|]. specialize (IH s). lia. Qed.
Lemma conversion_shorter c l needStrings sp l' :
  collectConversionSegment c l needStrings = Some (Some sp, l') -> (String.length sp <= String.length c)%nat.
Proof.
  unfold collectConversionSegment. destruct c as [|d c]; [by intros [= <- _]|].
  destruct (_evlParseFmtConvSpec _) as [[pf|]|]; cbn [mbind option_bind]; [|done|done]. intros [= <- _].
  apply skip_length.
Qed.
Lemma collect_rest sp l (needStrings : bool) sp' l' :
  (if needStrings then collectStringSegment sp l else (skipStringSegment sp, l)) = (sp', l') ->
  sp' = default EmptyString (snd (string_run sp)).
Proof.
  unfold collectStringSegment, skipStringSegment. destruct needStrings; [|by intros [= <- _]].
  destruct (string_run sp) as [[] r]; by intros [= <- _].
Qed.
(** The loop of the parser ends: as many rounds as the format has characters are
    enough, and the model's bound on them changes no result. *)
Theorem printf_parser_terminates format needStrings n :
  parse_printf (String.length format + n) format [] needStrings = _evlParsePrintfFormat format needStrings.
Proof.
  unfold _evlParsePrintfFormat.
  enough (forall f f' sp l, (String.length sp <= f)%nat -> (String.length sp <= f')%nat ->
    parse_printf f sp l needStrings = parse_printf f' sp l needStrings) as H by (apply H; lia).
  clear. induction f as [|f IH]; intros f' sp l Hf Hf'.
  - destruct sp; [by rewrite !parse_end|cbn in Hf; lia].
  - destruct sp as [|c sp]; [by rewrite !parse_end|]. destruct f' as [|f']; [cbn in Hf'; lia|].
    destruct (if needStrings then collectStringSegment (String c sp) l else (skipStringSegment (String c sp), l)) as [sp' l'] eqn:E.
    rewrite !(parse_step _ (String c sp) l needStrings sp' l') by done. pose proof (collect_rest _ _ _ _ _ E) as ->.
    pose proof (string_run_shorter (String c sp)) as Hs.
    destruct (collectConversionSegment _ l' needStrings) as [[[sp''|] l'']|] eqn:Ec; cbn [mbind option_bind]; [|done|done].
    apply conversion_shorter in Ec. apply IH; specialize (Hs ltac:(done)); cbn [String.length] in *; lia.
Qed.

(** ** Formats with attribute names *)

(** A name, and a format for it. *)
Definition spec_text (name : str) (t : option conv_text) : str :=
  (name ++ match t with Some t => String ":" (render_conv t) | None => EmptyString end)%string.
Fixpoint render_attrs (items : list (str * (str * option conv_text))) (last : str) : str :=
  match items with
  | [] => escape last
  | (s, (name, t)) :: items => (escape s ++ String PERCENT (spec_text name t ++ String PERCENT (render_attrs items last)))%string
  end.
Definition attr_segment (name : str) (t : option conv_text) : evl_fmt_segment :=
  let m := _evlGetValueByName _evlAttributes name (-1) in
  (if negb (m =? -1) then EVL_FS_MEMBER m
   else if streqb name "data" then EVL_FS_MEMBER POSIX_LOG_ENTRY_DATA else EVL_FS_ATTNAME name)
    ((fun t => String PERCENT (render_conv t)) <$> t)
    (match t with Some t => is_letter (t_letter t) "sS" | None => false end).
Fixpoint attr_segments (items : list (str * (str * option conv_text))) (last : str) : list evl_fmt_segment :=
  match items with
  | [] => string_segment true last
  | (s, (name, t)) :: items => string_segment true s ++ attr_segment name t :: attr_segments items last
  end.
(** The name of an attribute that may be displayed, and a format that fits the buffer
    and suits a value. *)
Definition name_char (c : ascii) : bool := negb (Ascii.eqb c PERCENT) && negb (Ascii.eqb c ":"%char).
Record attr_ok (allow : bool) (name : str) (t : option conv_text) : Prop := {
  ak_name : str_all name_char name = true /\ name <> EmptyString;
  ak_known : allow = true \/ streqb name "host" = true \/ streqb name "data" = true \/
             _evlGetValueByName _evlAttributes name (-1) <> -1;
  ak_fmt : match t with
           | Some t => text_ok t /\ default 0 (t_width t) < POSIX_LOG_MEMSTR_MAXLEN /\
                       default 0 (default None (t_precision t)) < POSIX_LOG_MEMSTR_MAXLEN /\
                       _evlGetTypeFromConversion (parsed t) true true <> TY_NONE /\
                       streqb name "data" = false
           | None => True
           end
}.
Lemma strchr_skips s c r : str_all (fun d => negb (Ascii.eqb d c)) s = true ->
  strchr (s ++ String c r) c = Some (String c r) /\ before (s ++ String c r) c = s.
Proof.
  induction s as [|d s IH]; cbn [str_all String.append strchr before].
  - intros _. rewrite Ascii.eqb_refl. by destruct (ascii_dec c c).
  - intros [Hd Hs]%andb_true_iff. destruct (Ascii.eqb d c) eqn:E; [done|]. apply Ascii.eqb_neq in E.
    destruct (ascii_dec c d) as [->|]; [done|]. destruct (IH Hs) as [-> ->]. done.
Qed.
Lemma strchr_absent s c : str_all (fun d => negb (Ascii.eqb d c)) s = true -> strchr s c = None /\ before s c = s.
Proof.
  induction s as [|d s IH]; cbn [str_all strchr before]; [done|].
  intros [Hd Hs]%andb_true_iff. destruct (Ascii.eqb d c) eqn:E; [done|]. apply Ascii.eqb_neq in E.
  destruct (ascii_dec c d) as [->|]; [done|]. destruct (IH Hs) as [-> ->]. done.
Qed.
(** A conversion has no [%] in its text and no terminator. *)
Definition conv_char (c : ascii) : bool := negb (Ascii.eqb c PERCENT) && negb (is_nul c).
Lemma digit_conv c : is_digit c = true -> conv_char c = true.
Proof. destruct c as [[] [] [] [] [] [] [] []]; vm_compute; done. Qed.
Lemma flag_conv c : negb (is_nul c) && in_set flag_chars c = true -> conv_char c = true.
Proof. destruct c as [[] [] [] [] [] [] [] []]; vm_compute; done. Qed.
Lemma plain_conv c : plain_head c = true -> conv_char c = true.
Proof. destruct c as [[] [] [] [] [] [] [] []]; vm_compute; done. Qed.
Lemma flags_conv s : forall seen, fresh_flags seen s = true -> str_all conv_char s = true.
Proof.
  induction s as [|c s IH]; [done|]. intros seen. cbn [fresh_flags str_all]. rewrite !andb_true_iff.
  intros [[[Hn Hf] _] Hs]. split; [apply flag_conv; by rewrite Hn, Hf|by eapply IH].
Qed.
Lemma number_conv n : match n with Some n => 0 <= n < 2 ^ 31 | None => True end -> str_all conv_char (opt_number n) = true.
Proof.
  intros Hn. destruct n as [n|]; [|done]. cbn [opt_number]. eapply str_all_impl; [apply digit_conv|]. apply digits_d.
  cbn in Hn. lia.
Qed.
Lemma render_conv_chars t : text_ok t -> str_all conv_char (render_conv t) = true.
Proof.
  intros Ht. unfold render_conv, conv_tail. rewrite !str_all_app. cbn [str_all].
  rewrite (flags_conv _ _ (t_flags_fresh t Ht)). pose proof (t_width_int t Ht) as Hw. pose proof (t_precision_int t Ht) as Hp.
  destruct (t_mods_ok t Ht) as [Hm _], (t_letter_ok t Ht) as [Hl _].
  rewrite number_conv by (destruct (t_width t); lia || done).
  assert (str_all conv_char (render_precision (t_precision t)) = true) as ->.
  { destruct (t_precision t) as [[p|]|]; [|done..]. cbn [render_precision str_all]. by rewrite number_conv. }
  rewrite (str_all_impl _ conv_char _ (fun c H => plain_conv c (modifier_plain c H)) Hm).
  by rewrite (plain_conv _ (letter_plain _ Hl)).
Qed.
Lemma not_printf t s : text_ok t -> s = "printf"%string \/ s = "printk"%string -> streqb (render_conv t) s = false.
Proof.
  intros Ht Hs. apply streqb_false. intros E. pose proof (parse_conv t (String NUL EmptyString) Ht) as Hp.
  pose proof (f_equal strlen E) as Hl. rewrite E in Hp. unfold parsed in Hp. rewrite Hl in Hp. by destruct Hs as [->| ->].
Qed.
Lemma validate_ok t rest maxWidth : text_ok t ->
  default 0 (t_width t) <= maxWidth -> default 0 (default None (t_precision t)) <= maxWidth ->
  _evlGetTypeFromConversion (parsed t) true true <> TY_NONE ->
  _evlValidateAttrFmt (String PERCENT (render_conv t ++ String NUL rest)) maxWidth = Some (Some (parsed t)).
Proof.
  intros Ht Hw Hp Hty. unfold _evlValidateAttrFmt. cbn [skip]. rewrite parse_conv by done. cbn [mbind option_bind].
  assert (no_nul (render_conv t) = true) as Hn.
  { rewrite no_nul_all. eapply str_all_impl; [|by apply render_conv_chars]. by intros c [_ ?]%andb_true_iff. }
  rewrite cstr_app by done. cbn [cstr_at]. change (is_nul NUL) with true. cbv iota. rewrite str_app_nil.
  change (fm_length (parsed t)) with (strlen (render_conv t)).
  change (fm_width (parsed t)) with (default 0 (t_width t)).
  change (fm_precision (parsed t)) with (default 0 (default None (t_precision t))).
  rewrite Z.eqb_refl. assert ((strlen (render_conv t) =? 0) = false) as ->.
  { destruct (render_conv_head t EmptyString Ht) as (c & r & E & _). rewrite str_app_nil in E. rewrite E.
    apply Z.eqb_neq. unfold strlen. cbn. lia. }
  rewrite !Z.gtb_ltb, !(proj2 (Z.ltb_ge _ _)) by done. cbn [orb negb].
  by destruct (_evlGetTypeFromConversion (parsed t) true true).
Qed.
Lemma target_ok allow name t : attr_ok allow name t ->
  exists seg, attr_target name (match t with Some _ => true | None => false end) allow = inr seg /\
    attr_segment name t = seg ((fun t => String PERCENT (render_conv t)) <$> t)
      (match t with Some t => is_letter (t_letter t) "sS" | None => false end).
Proof.
  intros [_ Hknown Hfmt]. unfold attr_target, attr_segment.
  destruct (Z.eqb_spec (_evlGetValueByName _evlAttributes name (-1)) (-1)) as [E|]; cbn [negb]; [|by eexists].
  destruct (streqb name "data") eqn:Hd.
  - destruct t; [by destruct Hfmt as (_ & _ & _ & _ & ?)|by eexists].
  - destruct Hknown as [->|[->|[|]]]; [|rewrite orb_true_r|done..]; by eexists.
Qed.
Lemma make_attr_segment allow name t rest : attr_ok allow name t ->
  makeAttrSegment (spec_text name t) rest allow = Some (attr_segment name t).
Proof.
  intros Hok. destruct (target_ok allow name t Hok) as (seg & Htarget & ->).
  destruct Hok as [[Hname _] _ Hfmt]. unfold makeAttrSegment, spec_text.
  assert (str_all (fun d => negb (Ascii.eqb d ":"%char)) name = true) as Hcolon
    by (eapply str_all_impl; [|exact Hname]; by intros c [_ ?]%andb_true_iff).
  destruct t as [t|].
  - destruct Hfmt as (Ht & Hw & Hp & Hty & _).
    destruct (strchr_skips name ":"%char (render_conv t) Hcolon) as [-> ->]. cbn [fmap option_fmap option_map].
    change (skip 1 (String ":" (render_conv t))) with (render_conv t). rewrite bool_decide_eq_true_2 by done.
    rewrite Htarget, !not_printf by (done || by (left + right)). cbn [orb].
    by rewrite validate_ok by (done || lia).
  - rewrite str_app_nil. destruct (strchr_absent name ":"%char Hcolon) as [-> ->]. rewrite bool_decide_eq_false_2 by (by intros [? ?]). by rewrite Htarget.
Qed.
Lemma conv_no_percent t : text_ok t -> str_all (fun d => negb (Ascii.eqb d PERCENT)) (render_conv t) = true.
Proof. intros Ht. eapply str_all_impl; [|by apply render_conv_chars]. by intros c [? _]%andb_true_iff. Qed.
Lemma spec_no_percent allow name t : attr_ok allow name t -> str_all (fun d => negb (Ascii.eqb d PERCENT)) (spec_text name t) = true.
Proof.
  intros [[Hname _] _ Hfmt]. unfold spec_text. rewrite str_all_app. apply andb_true_iff. split.
  - eapply str_all_impl; [|exact Hname]. by intros c [? _]%andb_true_iff.
  - destruct t as [t|]; [|done]. cbn [str_all]. by rewrite conv_no_percent by apply Hfmt.
Qed.
Lemma attr_segment_not_error name t : is_error (attr_segment name t) = false.
Proof. unfold attr_segment. destruct (negb _); [done|]. by destruct (streqb name "data"). Qed.
Lemma collect_attr allow name t rest l : attr_ok allow name t ->
  collectAttrSegment (spec_text name t ++ String PERCENT rest) l allow = Some (Some rest, l ++ [attr_segment name t]).
Proof.
  intros Hok. destruct (strchr_skips _ PERCENT rest (spec_no_percent _ _ _ Hok)) as [Hs Hb]. unfold collectAttrSegment.
  rewrite Hs, Hb. cbn [skip]. rewrite make_attr_segment by done. cbn [mbind option_bind]. rewrite attr_segment_not_error.
  by destruct (spec_text name t).
Qed.
Lemma parse_attrs allow items last : Forall (fun it => attr_ok allow (fst (snd it)) (snd (snd it))) items ->
  forall l fuel, (length items + Nat.min 1 (String.length last) <= fuel)%nat ->
  parse_format fuel (render_attrs items last) l allow = Some (inr (l ++ attr_segments items last)).
Proof.
  induction items as [|[s [name t]] items IH]; intros Hok l fuel Hf; cbn [render_attrs attr_segments length] in *.
  - destruct (decide (last = EmptyString)) as [->|Hne]; [cbn; destruct fuel; by rewrite app_nil_r|].
    destruct fuel as [|fuel]; [destruct last; [done|cbn in Hf; lia]|]. pose proof (escape_ne last Hne).
    pose proof (collect_last last l true) as Hc. cbv iota in Hc.
    destruct (escape last) as [|c r] eqn:E; [done|]. cbn [parse_format]. rewrite Hc. cbn. by destruct fuel.
  - apply Forall_cons in Hok as [Ht Hok]. cbn in Ht. destruct fuel as [|fuel]; [lia|].
    pose proof (collect_text s (spec_text name t ++ String PERCENT (render_attrs items last)) l true) as Hc. cbv iota in Hc.
    assert (exists c r, (spec_text name t ++ String PERCENT (render_attrs items last))%string = String c r /\ Ascii.eqb c PERCENT = false)
      as (c & r & E & Hp).
    { pose proof (spec_no_percent _ _ _ Ht) as Hn. destruct (spec_text name t) as [|c r] eqn:Es.
      - destruct Ht as [[_ Hne] _ _]. destruct name; done.
      - cbn [str_all] in Hn. apply andb_true_iff in Hn as [Hn%negb_true_iff _]. by eexists _, _. }
    specialize (Hc ltac:(by rewrite E)). destruct (escape s ++ _)%string as [|d q] eqn:Eq; [by apply app_percent_ne in Eq|].
    cbn [parse_format]. rewrite Hc. rewrite collect_attr by done. cbn [mbind option_bind]. rewrite IH by (done || lia).
    by rewrite <- !app_assoc.
Qed.
Lemma attrs_longer items last : (length items + Nat.min 1 (String.length last) <= String.length (render_attrs items last))%nat.
Proof.
  induction items as [|[s [name t]] items IH]; cbn [render_attrs length]; [pose proof (escape_longer last); lia|].
  rewrite str_length_app. cbn [String.length]. rewrite str_length_app. cbn [String.length]. lia.
Qed.
(** A format for the display of records is parsed into its strings and its attributes:
    a standard attribute becomes the member of the record, [data] the optional part,
    any other name the attribute of a template, each with the format that follows it. *)
Theorem attribute_format_parses allow items last : Forall (fun it => attr_ok allow (fst (snd it)) (snd (snd it))) items ->
  items <> [] \/ last <> EmptyString ->
  _evlParseFormat (render_attrs items last) allow = Some (inr (attr_segments items last)).
Proof.
  intros Hok Hne. unfold _evlParseFormat. rewrite parse_attrs by (done || apply attrs_longer). cbn [mbind option_bind app].
  destruct (attr_segments items last) eqn:E; [|done]. destruct items as [|[s [name t]] items]; cbn in E.
  - destruct Hne as [|Hne]; [done|]. by destruct last.
  - by destruct s.
Qed.

(** ** Instances *)

Definition sample_double : conv_text := mkText "-" (Some 10) (Some (Some 2)) "" "f".
Definition sample_long : conv_text := mkText "#" None None "l" "x".
Definition sample_items : list (str * conv_text) := [("100% of "%string, sample_double); (""%string, sample_long)].
Lemma sample_double_ok : text_ok sample_double.
Proof. split; cbn; try done; lia || (split; [done|vm_compute; done]). Qed.
Lemma sample_long_ok : text_ok sample_long.
Proof. split; cbn; try done; split; vm_compute; done. Qed.
Lemma sample_items_ok : Forall (fun it => text_ok (snd it)) sample_items.
Proof. apply Forall_cons. split; [apply sample_double_ok|]. apply Forall_singleton. apply sample_long_ok. Qed.
Lemma printf_format_parses_witness :
  render_format sample_items " done" = "100%% of %-10.2f%#lx done"%string /\
  _evlParsePrintfFormat (render_format sample_items " done") true = Some (Some (segments true sample_items " done")).
Proof. split; [vm_compute; reflexivity|]. apply (printf_format_parses sample_items " done" true). apply sample_items_ok. Defined.
Lemma cut_format_is_overread_witness :
  (render_format sample_items "" ++ String PERCENT (cut_conv sample_double))%string = "100%% of %-10.2f%#lx%-10.2"%string /\
  _evlParseFmtConvSpec (block (cut_conv sample_double)) = None /\
  (forall fuel, parse_printf fuel (render_format sample_items "" ++ String PERCENT (cut_conv sample_double)) [] true = None).
Proof.
  split; [vm_compute; reflexivity|]. apply (cut_format_is_overread sample_items "" sample_double true).
  - apply sample_items_ok.
  - apply sample_double_ok.
  - vm_compute. discriminate.
Defined.
Definition sample_uid : conv_text := mkText "0" (Some 5) None "" "d".
Definition sample_attrs : list (str * (str * option conv_text)) :=
  [("id "%string, ("recid"%string, None)); (" by "%string, ("uid"%string, Some sample_uid)); (": "%string, ("data"%string, None))].
Lemma sample_attrs_ok : Forall (fun it => attr_ok false (fst (snd it)) (snd (snd it))) sample_attrs.
Proof.
  unfold sample_attrs. rewrite !Forall_cons. split; [|split; [|split; [|done]]]; cbn [fst snd]; split; try done;
    try (right; right; right; by vm_compute).
  by right; right; left.
Qed.
Lemma attribute_format_parses_witness :
  render_attrs sample_attrs "" = "id %recid% by %uid:05d%: %data%"%string /\
  _evlParseFormat (render_attrs sample_attrs "") false = Some (inr (attr_segments sample_attrs "")).
Proof.
  split; [vm_compute; reflexivity|]. apply (attribute_format_parses false sample_attrs "").
  - apply sample_attrs_ok.
  - left. discriminate.
Defined.
