(* ===== verification/CPrintf.v ===== *)
(** * [printf] of the C library, for one conversion

    The text that [vsnprintf] makes of a format with one conversion and of its argument,
    in the C locale: integers, characters, strings and addresses.  Reals and wide characters are the
    library's ([TextOfReal]).  [None] is a negative result. *)
From S2P Require Import Prelude NvPairs QEvaluate Format.

(** An argument as a variadic function gets it: [double] and [long double] as the bytes
    of their representation, a string as what is in front of its terminator. *)
Inductive carg :=
  | AInt (z : Z)
  | ALong (z : Z)
  | ALonglong (z : Z)
  | AAddress (z : Z)
  | ADouble (bs : list Z)
  | ALdouble (bs : list Z)
  | AWchar (z : Z)
  | AString (s : str)
  | AWstring (ws : list Z).

Class TextOfReal := { text_of_real : str -> carg -> option str }.

(** ** The parts of a conversion *)

Record directive := mkDir { d_flags : str; d_width : Z; d_prec : option Z; d_mods : str; d_letter : ascii }.
(** The longest prefix of characters of a set, and the rest. *)
Fixpoint span_set (set s : str) : str * str :=
  match s with
  | String c s' =>
      if is_letter c set then let '(a, b) := span_set set s' in (String c a, b) else (EmptyString, s)
  | EmptyString => (EmptyString, s)
  end.
Definition parse_directive (fmt : str) : option directive :=
  match fmt with
  | String p fmt =>
      if negb (Ascii.eqb p PERCENT) then None
      else
        let '(flags, f) := span_set "-+ #0'" fmt in
        let '(width, f) := read_digits 10 0 f in
        let '(prec, f) :=
          match f with
          | String c f' => if Ascii.eqb c "."%char then let '(n, f) := read_digits 10 0 f' in (Some n, f) else (None, f)
          | EmptyString => (None, f)
          end in
        let '(mods, f) := span_set modifier_chars f in
        match f with
        | String letter EmptyString => Some (mkDir flags width prec mods letter)
        | _ => None
        end
  | EmptyString => None
  end.
Definition flag (d : directive) (c : ascii) : bool := is_letter c (d_flags d).

(** ** Fields *)

Fixpoint fill (n : nat) (c : ascii) : str := match n with O => EmptyString | S n => String c (fill n c) end.
Definition pad (d : directive) (s : str) : str :=
  let n := Z.to_nat (d_width d - strlen s) in
  if flag d "-"%char then (s ++ fill n " "%char)%string else (fill n " "%char ++ s)%string.
(** A number: a prefix (the sign, or [0x]) and digits, at least as many as the precision. *)
Definition number (d : directive) (prefix digits : str) : str :=
  match d_prec d with
  | Some p => pad d (prefix ++ fill (Z.to_nat (p - strlen digits)) "0"%char ++ digits)%string
  | None =>
      if flag d "0"%char && negb (flag d "-"%char) then
        (prefix ++ fill (Z.to_nat (d_width d - strlen prefix - strlen digits)) "0"%char ++ digits)%string
      else pad d (prefix ++ digits)%string
  end.
(** Without digits for a zero with precision 0. *)
Definition digits_of (d : directive) (z : Z) (digits : str) : str :=
  if (z =? 0) && bool_decide (d_prec d = Some 0) then EmptyString else digits.
(** The width of the integer that the modifiers name. *)
Definition int_width (mods : str) : Z :=
  if streqb mods "hh" then 8 else if streqb mods "h" then 16 else if streqb mods "" then 32 else 64.
Fixpoint oct_go (fuel : nat) (z : Z) (acc : str) : str :=
  match fuel with
  | O => acc
  | S f => let acc := String (of_chr (48 + z mod 8)) acc in if z / 8 =? 0 then acc else oct_go f (z / 8) acc
  end.
Fixpoint uppercase (s : str) : str :=
  match s with EmptyString => EmptyString | String c s => String (of_chr (toupper (chr c))) (uppercase s) end.
Definition sign_prefix (d : directive) (z : Z) : str :=
  if z <? 0 then "-" else if flag d "+"%char then "+" else if flag d " "%char then " " else EmptyString.
Definition int_field (d : directive) (z : Z) : str :=
  let w := int_width (d_mods d) in
  if is_letter (d_letter d) "di" then
    let z := signed w z in number d (sign_prefix d z) (digits_of d z (fmt_d (Z.abs z)))
  else
    let z := unsigned w z in
    let alt := flag d "#"%char && negb (z =? 0) in
    if is_letter (d_letter d) "x" then number d (if alt then "0x" else EmptyString) (digits_of d z (fmt_x z))
    else if is_letter (d_letter d) "X" then number d (if alt then "0X" else EmptyString) (digits_of d z (uppercase (fmt_x z)))
    else if is_letter (d_letter d) "o" then
      let ds := digits_of d z (oct_go 22 z EmptyString) in
      number d EmptyString (if flag d "#"%char && negb (starts_with "0" ds) then String "0" ds else ds)
    else number d EmptyString (digits_of d z (fmt_d z)).
Definition string_field (d : directive) (s : str) : str :=
  pad d (match d_prec d with Some p => String.substring 0 (Z.to_nat p) s | None => s end).
Definition address_field (d : directive) (z : Z) : str :=
  if z =? 0 then pad d "(nil)" else number d "0x" (fmt_x z).

(** [vsnprintf(s, n, fmt, args)]: what is written if there is room for it. *)
Definition vsnprintf `{TextOfReal} (fmt : str) (arg : carg) : option str :=
  match parse_directive fmt with
  | None => None
  | Some d =>
      match arg with
      | AInt z =>
          if is_letter (d_letter d) "diouxX" then Some (int_field d z)
          else if is_letter (d_letter d) "c" then Some (pad d (String (of_chr z) EmptyString))
          else text_of_real fmt arg
      | ALong z | ALonglong z => if is_letter (d_letter d) "diouxX" then Some (int_field d z) else text_of_real fmt arg
      | AString s => if is_letter (d_letter d) "s" && streqb (d_mods d) "" then Some (string_field d s) else text_of_real fmt arg
      | AAddress z => if is_letter (d_letter d) "p" then Some (address_field d z) else text_of_real fmt arg
      | _ => text_of_real fmt arg
      end
  end.
Lemma vsnprintf_s `{TextOfReal} s : vsnprintf "%s" (AString s) = Some s.
Proof.
  change (Some (pad (mkDir "" 0 None "" "s") s) = Some s). unfold pad. cbn [d_width].
  by replace (Z.to_nat (0 - strlen s)) with O by (unfold strlen; lia).
Qed.

#[local] Instance no_reals : TextOfReal := { text_of_real _ _ := None }.
Example printf_ex : (vsnprintf "%-6d" (AInt (-42)), vsnprintf "%05.1f" (ADouble []), vsnprintf "%#06x" (AInt 255),
  vsnprintf "%+.3lld" (ALonglong 7), vsnprintf "%5c" (AInt 65), vsnprintf "%.2s" (AString "abc"), vsnprintf "%hhu" (AInt (-1)),
  vsnprintf "%#o" (AInt 8), vsnprintf "%p" (AAddress 4096), vsnprintf "%ld" (ALong (- 2 ^ 63))) =
  (Some "-42   "%string, None, Some "0x00ff"%string, Some "+007"%string, Some "    A"%string, Some "ab"%string, Some "255"%string,
   Some "010"%string, Some "0x1000"%string, Some "-9223372036854775808"%string).
Proof. vm_compute. reflexivity. Qed.
