(* ===== verification/Dump.v ===== *)
(** * Dumps of binary data ([lib/formatrec.c])

    The hexadecimal dump by which a record is displayed when nothing else is known about
    its data: 16 bytes a line, with their offset and their characters.  The text is of
    the length that the functions announce, and the data can be read back from it.
    Undefined behaviour (reading behind the data, an overflow of [int]) is [None]. *)
From S2P Require Import Prelude NvPairs LogRecord FacNames Format FormatCorrect.

Definition hexDigits : str := "0123456789ABCDEF".
Definition upper_hex (d : Z) : ascii := default NUL (String.get (Z.to_nat d) hexDigits).
Definition SPACE : ascii := " "%char.
Definition isprint (b : Z) : bool := (32 <=? b) && (b <=? 126).

(** [dp] is the data from a position to [dend]; what is written at [bp]. *)
Definition two_digits (b : option Z) : str :=
  match b with
  | Some b => String (upper_hex (Z.land (Z.shiftr b 4) 15)) (String (upper_hex (Z.land b 15)) (String SPACE EmptyString))
  | None => "   "
  end.
Definition format8bytes (dp : list Z) : str :=
  foldr String.append EmptyString (map (fun i => two_digits (dp !! i)) (seq 0 8)).
Definition one_char (b : option Z) : ascii :=
  match b with
  | Some b => if isprint b then of_chr b else "."%char
  | None => SPACE
  end.
Definition format8chars (dp : list Z) : str := string_of_list_ascii (map (fun i => one_char (dp !! i)) (seq 0 8)).
(** [printf]'s ["%08X"]; the argument is converted to [unsigned int]. *)
Definition offset_digits (offset : Z) : str :=
  string_of_list_ascii (map (fun i => upper_hex (Z.land (Z.shiftr (u32 offset) (4 * Z.of_nat (7 - i))) 15)) (seq 0 8)).
Definition formatDumpLine (dp : list Z) (offset : Z) : str :=
  (offset_digits offset ++ " " ++ format8bytes dp ++ " " ++ format8bytes (drop 8 dp) ++ "| " ++
   format8chars dp ++ " " ++ format8chars (drop 8 dp))%string.
Definition NEWLINE : ascii := "010"%char.
(** The lines, each with a newline behind it. *)
Fixpoint dump_lines (fuel : nat) (dp : list Z) (offset : Z) : str :=
  match dp, fuel with
  | [], _ => EmptyString
  | _, O => EmptyString
  | _, S fuel =>
      (formatDumpLine dp offset ++ String NEWLINE (dump_lines fuel (drop 16 dp) (offset + BYTES_PER_LINE)))%string
  end.
Definition chop (s : str) : str := String.substring 0 (String.length s - 1) s.

(** The status, [*reqlen] and the string in [buf], if one is written. *)
Definition _evlDumpBytes (data : option (list Z)) (nBytes : Z) (buf : bool) (buflen : Z) : option (Z * Z * option str) :=
  match data with
  | None => Some (EINVAL, 0, None)
  | Some data =>
      if nBytes =? 0 then Some (EINVAL, 0, None)
      else
        let nLines := s32 (u64 (nBytes + BYTES_PER_LINE - 1) / BYTES_PER_LINE) in
        let product := nLines * (DUMPLINELEN + 1) in
        if negb (bool_decide (in_signed 32 product)) then None
        else
          let reqBufLen := u64 product in
          if buflen <? reqBufLen then Some (EMSGSIZE, reqBufLen, None)
          else if negb buf then Some (EINVAL, reqBufLen, None)
          else if Z.of_nat (length data) <? nBytes then None
          else
            let data := take (Z.to_nat nBytes) data in
            Some (0, reqBufLen, Some (chop (dump_lines (length data) data 0)))
  end.
(** A failed assertion is [None]; so is the write before an empty buffer. *)
Definition _evlDumpBytesForce (data : option (list Z)) (nBytes : Z) (buf : bool) (buflen : Z) : option (Z * Z * option str) :=
  if negb buf then Some (EINVAL, 0, None)
  else
    r ← _evlDumpBytes data nBytes buf buflen;
    let '(status, reqlen, text) := r in
    if status =? EMSGSIZE then
      '(status, _, mybuf) ← _evlDumpBytes data nBytes true reqlen;
      if negb (status =? 0) || (buflen =? 0) then None
      else Some (0, reqlen, Some (String.substring 0 (Z.to_nat (buflen - 1)) (default EmptyString mybuf)))
    else Some r.
(** The status and what is printed. *)
Definition _evlDumpBytesToFile (data : option (list Z)) (nBytes : Z) : option (Z * str) :=
  match data with
  | None => Some (EINVAL, EmptyString)
  | Some data =>
      if nBytes =? 0 then Some (EINVAL, EmptyString)
      else if Z.of_nat (length data) <? nBytes then None
      else let data := take (Z.to_nat nBytes) data in Some (0, dump_lines (length data) data 0)
  end.

Example dump_ex : _evlDumpBytes (Some (bytes_of "Hello, world 123" ++ [10; 255])) 18 true 1000 =
  Some (0, 156, Some ("00000000 48 65 6C 6C 6F 2C 20 77  6F 72 6C 64 20 31 32 33 | Hello, w orld 123" ++ String NEWLINE
                      "00000010 0A FF                                            | ..               ")%string).
Proof. vm_compute. reflexivity. Qed.

(** ** The length of a dump *)

Lemma strlen_list l : String.length (string_of_list_ascii l) = length l.
Proof. induction l as [|c l IH]; [done|]. cbn. by rewrite IH. Qed.
Lemma two_digits_length b : String.length (two_digits b) = 3%nat.
Proof. by destruct b. Qed.
Lemma format8bytes_length dp : String.length (format8bytes dp) = 24%nat.
Proof. unfold format8bytes. cbn [seq map foldr]. rewrite !str_length_app, !two_digits_length. done. Qed.
Lemma format8chars_length dp : String.length (format8chars dp) = 8%nat.
Proof. unfold format8chars. by rewrite strlen_list. Qed.
Lemma offset_digits_length offset : String.length (offset_digits offset) = 8%nat.
Proof. unfold offset_digits. by rewrite strlen_list. Qed.
Lemma line_length dp offset : String.length (formatDumpLine dp offset) = Z.to_nat DUMPLINELEN.
Proof.
  unfold formatDumpLine. rewrite !str_length_app, offset_digits_length, !format8bytes_length, !format8chars_length. done.
Qed.
(** The lines of [n] bytes. *)
Definition lines (n : nat) : nat := ((n + 15) / 16)%nat.
Lemma lines_step n : lines (S n) = S (lines (S n - 16)).
Proof.
  unfold lines. destruct (Nat.le_gt_cases 16 (S n)).
  - replace (S n + 15)%nat with (S n - 16 + 15 + 1 * 16)%nat by lia. rewrite Nat.div_add by lia. lia.
  - replace (S n - 16 + 15)%nat with 15%nat by lia. replace (S n + 15)%nat with (n + 1 * 16)%nat by lia.
    rewrite Nat.div_add by lia. rewrite Nat.div_small by lia. done.
Qed.
Lemma dump_lines_length fuel : forall dp offset, (length dp <= fuel)%nat ->
  String.length (dump_lines fuel dp offset) = (lines (length dp) * 78)%nat.
Proof.
  induction fuel as [|fuel IH]; intros dp offset Hf; destruct dp as [|b dp]; [done|cbn in Hf; lia|done|].
  cbn [dump_lines]. rewrite str_length_app, line_length. cbn [String.length].
  rewrite IH; rewrite length_drop; cbn [length] in *; [|lia]. rewrite (lines_step (length dp)). change (Z.to_nat DUMPLINELEN) with 77%nat. lia.
Qed.

(** ** Reading a dump back *)

Fixpoint index_in (s : str) (c : ascii) : Z :=
  match s with
  | EmptyString => 0
  | String d s' => if Ascii.eqb c d then 0 else 1 + index_in s' c
  end.
Definition undigit (c : ascii) : Z := index_in hexDigits c.
(** Two digits and a space, or three spaces. *)
Definition read_cell (s : str) : list Z * str :=
  match s with
  | String a (String b (String _ rest)) => (if Ascii.eqb a SPACE then [] else [16 * undigit a + undigit b], rest)
  | _ => ([], EmptyString)
  end.
Fixpoint read_cells (n : nat) (s : str) : list Z * str :=
  match n with
  | O => ([], s)
  | S n => let '(b, s) := read_cell s in let '(bs, s) := read_cells n s in (b ++ bs, s)
  end.
Definition read_line (s : str) : list Z * str :=
  let '(a, s) := read_cells 8 (skip 9 s) in
  let '(b, s) := read_cells 8 (skip 1 s) in
  (a ++ b, skip 20 s).
(** The data of a dump, from the hexadecimal columns of its lines. *)
Fixpoint undump (fuel : nat) (s : str) : list Z :=
  match s, fuel with
  | EmptyString, _ | _, O => []
  | _, S fuel => let '(bs, s) := read_line s in bs ++ undump fuel s
  end.

Lemma upper_hex_back d : 0 <= d < 16 -> undigit (upper_hex d) = d /\ Ascii.eqb (upper_hex d) SPACE = false.
Proof.
  intros Hd. assert (d ∈ map Z.of_nat (seq 0 16)) as Hin.
  { apply list_elem_of_fmap. exists (Z.to_nat d). split; [lia|]. apply elem_of_seq. lia. }
  revert Hin. cbn [seq map]. rewrite !elem_of_cons. clear Hd.
  intros H. repeat destruct H as [->|H]; try (split; reflexivity). by apply not_elem_of_nil in H.
Qed.
Lemma byte_digits b : is_byte b ->
  0 <= Z.land (Z.shiftr b 4) 15 < 16 /\ 0 <= Z.land b 15 < 16 /\ 16 * Z.land (Z.shiftr b 4) 15 + Z.land b 15 = b.
Proof.
  unfold is_byte. intros Hb. rewrite Z.shiftr_div_pow2 by lia. change 15 with (Z.ones 4). rewrite !Z.land_ones by lia.
  change (2 ^ 4) with 16. dlia.
Qed.
Lemma read_cell_back b rest : match b with Some b => is_byte b | None => True end ->
  read_cell (two_digits b ++ rest) = (option_list b, rest).
Proof.
  intros Hb. destruct b as [b|]; [|done]. destruct (byte_digits b Hb) as (Hh & Hl & E).
  destruct (upper_hex_back _ Hh) as [Eh Sh], (upper_hex_back _ Hl) as [El _]. cbn [two_digits String.append read_cell].
  by rewrite Sh, Eh, El, E.
Qed.
Lemma lookup_is_byte dp i : Forall is_byte dp -> match dp !! i with Some b => is_byte b | None => True end.
Proof. intros Hd. destruct (dp !! i) eqn:E; [|done]. by eapply Forall_lookup_1. Qed.
Lemma read_format8bytes dp rest : Forall is_byte dp -> read_cells 8 (format8bytes dp ++ rest) = (take 8 dp, rest).
Proof.
  intros Hd. unfold format8bytes. cbn [seq map foldr]. rewrite !str_app_assoc. cbn [read_cells].
  do 8 (rewrite read_cell_back by (by apply lookup_is_byte); cbn [read_cells]).
  cbn [String.append]. f_equal. do 8 (destruct dp as [|? dp]; [done|]). done.
Qed.
Lemma skip_exact n a b : String.length a = n -> skip n (a ++ b) = b.
Proof. intros <-. induction a; [done|]. done. Qed.
Lemma read_line_back dp offset rest : Forall is_byte dp ->
  read_line (formatDumpLine dp offset ++ String NEWLINE rest) = (take 16 dp, rest).
Proof.
  intros Hd. unfold read_line, formatDumpLine. rewrite !str_app_assoc.
  assert (forall x, skip 9 (offset_digits offset ++ " " ++ x) = x) as ->.
  { intros x. rewrite <- str_app_assoc. apply skip_exact. by rewrite str_length_app, offset_digits_length. }
  rewrite read_format8bytes by done. cbn [String.append skip].
  rewrite read_format8bytes by (by apply Forall_drop). f_equal.
  apply (take_take_drop dp 8 8).
Qed.
Lemma undump_lines fuel : forall dp offset fuel', Forall is_byte dp -> (length dp <= fuel)%nat -> (length dp <= fuel')%nat ->
  undump fuel' (dump_lines fuel dp offset) = dp.
Proof.
  induction fuel as [|fuel IH]; intros dp offset fuel' Hd Hf Hf'; destruct dp as [|b dp];
    [by destruct fuel'|cbn in Hf; lia|by destruct fuel'|].
  destruct fuel' as [|fuel']; [cbn in Hf'; lia|]. cbn [dump_lines undump].
  destruct (formatDumpLine (b :: dp) offset ++ _)%string eqn:E; [by destruct (formatDumpLine (b :: dp) offset)|].
  rewrite <- E, read_line_back by done. rewrite IH; [apply take_drop|by apply Forall_drop|..]; rewrite length_drop; cbn [length] in *; lia.
Qed.
Lemma dump_lines_end fuel : forall dp offset, dp <> [] -> (length dp <= fuel)%nat ->
  exists t, dump_lines fuel dp offset = (t ++ String NEWLINE EmptyString)%string.
Proof.
  induction fuel as [|fuel IH]; intros dp offset Hne Hf; destruct dp as [|b dp]; try done; [cbn in Hf; lia|].
  cbn [dump_lines]. destruct (drop 16 (b :: dp)) as [|b' dp'] eqn:E.
  - exists (formatDumpLine (b :: dp) offset). by destruct fuel.
  - destruct (IH (b' :: dp') (offset + BYTES_PER_LINE)) as [t ->]; [done| |].
    + rewrite <- E, length_drop. cbn [length] in *. lia.
    + exists (formatDumpLine (b :: dp) offset ++ String NEWLINE t)%string. by rewrite str_app_assoc.
Qed.
Lemma chop_end t c : chop (t ++ String c EmptyString) = t.
Proof.
  unfold chop. rewrite str_length_app. cbn [String.length]. replace (_ + 1 - 1)%nat with (String.length t) by lia.
  apply substring_app.
Qed.
Definition dump_size (n : Z) : Z := (n + 15) / 16 * 78.
Definition full_dump (data : list Z) : str := chop (dump_lines (length data) data 0).
Lemma full_dump_spec data : data <> [] -> Forall is_byte data ->
  strlen (full_dump data) + 1 = dump_size (Z.of_nat (length data)) /\
  undump (length data) (full_dump data ++ String NEWLINE EmptyString) = data.
Proof.
  intros Hne Hd. destruct (dump_lines_end (length data) data 0 Hne) as [t Ht]; [lia|].
  assert (full_dump data = t) as Hf by (unfold full_dump; by rewrite Ht, chop_end). rewrite Hf. split.
  - pose proof (dump_lines_length (length data) data 0 ltac:(lia)) as Hl. rewrite Ht, str_length_app in Hl. cbn [String.length] in Hl.
    unfold strlen, dump_size. unfold lines in Hl.
    replace ((Z.of_nat (length data) + 15) / 16) with (Z.of_nat ((length data + 15) / 16)) by (rewrite Nat2Z.inj_div; f_equal; lia). lia.
  - rewrite <- Ht. by apply undump_lines.
Qed.
(** What a dump of [n] bytes needs fits an [int]. *)
Lemma dump_bytes_eq data buf buflen : 0 < Z.of_nat (length data) <= POSIX_LOG_ENTRY_MAXLEN ->
  _evlDumpBytes (Some data) (Z.of_nat (length data)) buf buflen =
  let n := dump_size (Z.of_nat (length data)) in
  if buflen <? n then Some (EMSGSIZE, n, None) else if negb buf then Some (EINVAL, n, None) else Some (0, n, Some (full_dump data)).
Proof.
  unfold POSIX_LOG_ENTRY_MAXLEN. intros Hn. unfold _evlDumpBytes, BYTES_PER_LINE, DUMPLINELEN. rewrite (proj2 (Z.eqb_neq _ _)) by lia.
  rewrite unsigned_id by (unfold in_unsigned; lia). replace (Z.of_nat (length data) + 16 - 1) with (Z.of_nat (length data) + 15) by lia.
  assert (0 <= (Z.of_nat (length data) + 15) / 16 <= 513) as Hq by dlia.
  rewrite signed_id by (unfold in_signed; lia). cbv zeta. fold (dump_size (Z.of_nat (length data))).
  change (77 + 1) with 78. fold (dump_size (Z.of_nat (length data))).
  assert (0 <= dump_size (Z.of_nat (length data)) < 2 ^ 31) as Hs by (unfold dump_size; lia).
  rewrite bool_decide_eq_true_2 by (unfold in_signed; lia). cbn [negb]. rewrite unsigned_id by (unfold in_unsigned; lia).
  destruct (_ <? _); [done|]. destruct buf; [|done]. cbn [negb]. rewrite Z.ltb_irrefl, Nat2Z.id, take_ge by lia. done.
Qed.
(** C30: the dump of a record's data is as long as the size that is asked for, which the
    caller learns whatever buffer it passes; a smaller buffer is refused and left alone;
    and the data can be read back from the dump. *)
Theorem dump_fits_and_decodes data buflen : 0 < Z.of_nat (length data) <= POSIX_LOG_ENTRY_MAXLEN -> Forall is_byte data ->
  let n := dump_size (Z.of_nat (length data)) in
  (exists text, (n <= buflen -> _evlDumpBytes (Some data) (Z.of_nat (length data)) true buflen = Some (0, n, Some text)) /\
     strlen text + 1 = n /\ undump (length data) (text ++ String NEWLINE EmptyString) = data) /\
  (buflen < n -> _evlDumpBytes (Some data) (Z.of_nat (length data)) true buflen = Some (EMSGSIZE, n, None)).
Proof.
  intros Hn Hd n. rewrite dump_bytes_eq by done. fold n. cbv zeta. split.
  - exists (full_dump data). split; [|apply full_dump_spec; [|done]].
    + intros Hb. by rewrite (proj2 (Z.ltb_ge _ _)).
    + intros ->. cbn in Hn. lia.
  - intros Hb. by rewrite (proj2 (Z.ltb_lt _ _)).
Qed.
Lemma substring_all n s : (String.length s <= n)%nat -> String.substring 0 n s = s.
Proof.
  revert n. induction s as [|c s IH]; intros [|n] Hn; cbn in *; try done; [lia|]. by rewrite IH by lia.
Qed.
(** [_evlDumpBytesForce] fills what there is of the buffer with the beginning of the
    same dump, and announces the size of all of it. *)
Lemma forced_dump data buflen : 0 < Z.of_nat (length data) <= POSIX_LOG_ENTRY_MAXLEN -> Forall is_byte data -> 1 <= buflen ->
  _evlDumpBytesForce (Some data) (Z.of_nat (length data)) true buflen =
  Some (0, dump_size (Z.of_nat (length data)), Some (String.substring 0 (Z.to_nat (buflen - 1)) (full_dump data))).
Proof.
  intros Hn Hd Hb. unfold _evlDumpBytesForce. cbn [negb]. rewrite !dump_bytes_eq by done. cbv zeta.
  destruct (full_dump_spec data) as [Hl _]; [by intros ->; cbn in Hn; lia|done|].
  destruct (buflen <? _) eqn:E; cbn [mbind option_bind negb].
  - rewrite Z.eqb_refl. rewrite dump_bytes_eq by done. cbv zeta. rewrite Z.ltb_irrefl. cbn [mbind option_bind negb].
    by rewrite Z.eqb_refl, (proj2 (Z.eqb_neq buflen 0)) by lia.
  - rewrite substring_all by (unfold strlen in Hl; zb). done.
Qed.
Lemma dump_fits_and_decodes_witness :
  let data := bytes_of "Hello, world 123" ++ [10; 255] in
  (exists text, (156 <= 200 -> _evlDumpBytes (Some data) 18 true 200 = Some (0, 156, Some text)) /\
     strlen text + 1 = 156 /\ undump 18 (text ++ String NEWLINE EmptyString) = data) /\
  (200 < 156 -> _evlDumpBytes (Some data) 18 true 200 = Some (EMSGSIZE, 156, None)).
Proof.
  apply (dump_fits_and_decodes (bytes_of "Hello, world 123" ++ [10; 255]) 200); [vm_compute; split; [reflexivity|discriminate]|].
  repeat constructor; vm_compute; (reflexivity || discriminate).
Defined.
