(* ===== verification/FmtBuf.v ===== *)
(** * Format buffers ([lib/util/fmtbuf.c])

    The buffer to which records and attributes are formatted piece by piece.  It holds
    as much of the text as fits, always as a string, and counts all of it, so that a caller learns
    what it would need.  [None] is undefined behaviour: a write outside of the buffer or a failed
    assertion. *)
From S2P Require Import Prelude NvPairs LogRecord FacNames Format FormatCorrect CPrintf Dump.

(** [fb_next] is an offset in [fb_buf], and [fb_end] the end of it; [fb_dummy] takes the
    place of a buffer that is not there. *)
Record evl_fmt_buf := mkFmtBuf { fb_buf : list Z; fb_next : Z; fb_oflow : bool }.
Definition fb_end (f : evl_fmt_buf) : Z := Z.of_nat (length (fb_buf f)).

(** Writes bytes at an offset. *)
Definition poke (mem : list Z) (off : Z) (bs : list Z) : option (list Z) :=
  if (off <? 0) || (off + Z.of_nat (length bs) >? Z.of_nat (length mem)) then None
  else Some (take (Z.to_nat off) mem ++ bs ++ drop (Z.to_nat off + length bs) mem).

(** [buf] is the caller's memory; [None] is a null pointer. *)
Definition _evlMakeFmtBuf (buf : option (list Z)) : evl_fmt_buf :=
  match buf with
  | Some (b :: mem) => mkFmtBuf (0 :: mem) 0 false
  | _ => mkFmtBuf [0] 0 true
  end.

(** [n] bytes were, or would have been, added. *)
Definition overflowed (f : evl_fmt_buf) (needed : Z) : option evl_fmt_buf :=
  mem ← poke (fb_buf f) (fb_end f - 1) [0];
  Some (mkFmtBuf mem (fb_next f + needed) true).
(** What [vsnprintf] puts at [fb_next], where [room] bytes are left. *)
Definition put_text (f : evl_fmt_buf) (room : Z) (text : str) : option (list Z) :=
  let size := u64 (s32 room) in
  if size =? 0 then Some (fb_buf f)
  else poke (fb_buf f) (fb_next f) (take (Z.to_nat (size - 1)) (bytes_of text) ++ [0]).
(** [text] is what [vsnprintf] makes of the format and the arguments. *)
Definition _evlBprintf (f : evl_fmt_buf) (text : option str) : option evl_fmt_buf :=
  let room := fb_end f - fb_next f in
  match text with
  | None =>
      mem ← poke (fb_buf f) (fb_next f) [0];
      let f := mkFmtBuf mem (fb_next f) (fb_oflow f) in
      if 1 >? room then overflowed f 0 else Some f
  | Some t =>
      mem ← if room <=? 1 then Some (fb_buf f) else put_text f room t;
      let n := strlen t in
      let f := mkFmtBuf mem (fb_next f) (fb_oflow f) in
      if n + 1 >? room then overflowed f n else Some (mkFmtBuf mem (fb_next f + n) (fb_oflow f))
  end.

(** [strlen] of the string at an offset; reading behind the memory is [None]. *)
Fixpoint mem_strlen (mem : list Z) : option Z :=
  match mem with
  | [] => None
  | b :: mem => if b =? 0 then Some 0 else n ← mem_strlen mem; Some (1 + n)
  end.
Definition SCRATCH_PAD_SIZE : Z := 4.
(** [_evlDumpBytesForce] writes to the buffer, or to [scratchPad]; [roomNeeded], of type
    [size_t], is compared with [room], of type [ptrdiff_t]. *)
Definition _evlDumpBytesToFmtBuf (data : option (list Z)) (nBytes : Z) (f : evl_fmt_buf) : option evl_fmt_buf :=
  let room := fb_end f - fb_next f in
  '(status, roomNeeded, text) ← _evlDumpBytesForce data nBytes true (if room <=? 1 then SCRATCH_PAD_SIZE else u64 (s32 room));
  if negb (status =? 0) then None
  else
    mem ← if room <=? 1 then Some (fb_buf f) else poke (fb_buf f) (fb_next f) (bytes_of (default EmptyString text) ++ [0]);
    let f := mkFmtBuf mem (fb_next f) (fb_oflow f) in
    if roomNeeded >? u64 room then overflowed f roomNeeded
    else
      n ← (if (fb_next f <? 0) || (fb_next f >? fb_end f) then None else mem_strlen (drop (Z.to_nat (fb_next f)) (fb_buf f)));
      Some (mkFmtBuf mem (fb_next f + n) (fb_oflow f)).

(** ** What a buffer holds

    [out] is all the text that was written to the buffer since it was made: the string
    in memory is as much of it as fits. *)
Record holds (f : evl_fmt_buf) (dummy : bool) (out : str) : Prop := {
  h_next : fb_next f = strlen out;
  h_oflow : fb_oflow f = dummy || (strlen out + 1 >? fb_end f);
  h_text : exists rest, fb_buf f = take (length (fb_buf f) - 1) (bytes_of out) ++ 0 :: rest
}.
Lemma holds_new mem : mem <> [] -> holds (_evlMakeFmtBuf (Some mem)) false "".
Proof.
  intros Hne. destruct mem as [|b mem]; [done|]. split; [done| |].
  - cbn [_evlMakeFmtBuf fb_oflow orb]. unfold fb_end, strlen. cbn [fb_buf length String.length]. symmetry.
    rewrite Z.gtb_ltb. apply Z.ltb_ge. lia.
  - exists mem. cbn. by rewrite take_nil.
Qed.
Lemma holds_dummy : holds (_evlMakeFmtBuf None) true "".
Proof. split; [done..|]. by exists []. Qed.

Lemma bytes_app a b : bytes_of (a ++ b) = bytes_of a ++ bytes_of b.
Proof. induction a as [|c a IH]; [done|]. cbn. by rewrite IH. Qed.
Lemma poke_ok mem off bs : 0 <= off -> off + Z.of_nat (length bs) <= Z.of_nat (length mem) ->
  poke mem off bs = Some (take (Z.to_nat off) mem ++ bs ++ drop (Z.to_nat off + length bs) mem).
Proof.
  intros Ho Hl. unfold poke. rewrite (proj2 (Z.ltb_ge _ _)) by done. rewrite Z.gtb_ltb, (proj2 (Z.ltb_ge _ _)) by done. done.
Qed.
Lemma poke_length mem off bs mem' : poke mem off bs = Some mem' -> length mem' = length mem.
Proof.
  unfold poke. destruct (_ || _) eqn:E; [done|]. intros [= <-]. bprop.
  rewrite !length_app, length_take, length_drop. lia.
Qed.
Lemma overflowed_spec f needed : (0 < length (fb_buf f))%nat ->
  overflowed f needed = Some (mkFmtBuf (take (length (fb_buf f) - 1) (fb_buf f) ++ [0]) (fb_next f + needed) true).
Proof.
  intros Hl. unfold overflowed, fb_end. rewrite poke_ok by (cbn [length]; lia). cbn [mbind option_bind].
  rewrite drop_ge by (cbn [length]; lia). rewrite app_nil_r.
  by replace (Z.to_nat (Z.of_nat (length (fb_buf f)) - 1)) with (length (fb_buf f) - 1)%nat by lia.
Qed.
Lemma strlen_bytes s : Z.of_nat (length (bytes_of s)) = strlen s.
Proof. by rewrite length_bytes_of. Qed.
Lemma holds_nonempty f d out : holds f d out -> (0 < length (fb_buf f))%nat.
Proof. intros [_ _ [rest E]]. rewrite E, length_app. cbn. lia. Qed.
(** The memory after a write of which a part may not fit, when the end of the buffer is
    a terminator. *)
Lemma terminated (mem : list Z) (text : list Z) rest : mem = take (length mem - 1) text ++ 0 :: rest ->
  (length mem - 1 <= length text)%nat -> take (length mem - 1) mem ++ [0] = take (length mem - 1) text ++ [0].
Proof.
  intros E Hl. f_equal. rewrite E at 2. rewrite take_app_le; [|rewrite length_take; lia]. by rewrite take_take, Nat.min_id.
Qed.
Lemma put_text_spec f d out t room : holds f d out -> room = fb_end f - fb_next f -> 1 < room -> fb_end f < 2 ^ 31 ->
  exists mem, put_text f room t = Some mem /\ length mem = length (fb_buf f) /\
  exists rest, mem = take (length mem - 1) (bytes_of (out ++ t)) ++ 0 :: rest.
Proof.
  intros [Hn _ [rest E]] -> Hroom Hcap. unfold put_text. rewrite Hn in *.
  assert (u64 (s32 (fb_end f - strlen out)) = fb_end f - strlen out) as ->.
  { assert (0 <= strlen out) by (unfold strlen; lia).
    rewrite signed_id, unsigned_id; [done|unfold in_unsigned; lia|lia|unfold in_signed; lia]. }
  rewrite (proj2 (Z.eqb_neq _ _)) by lia. unfold fb_end in *. pose proof (strlen_bytes out) as Hlo.
  set (k := Z.to_nat (Z.of_nat (length (fb_buf f)) - strlen out - 1)).
  assert (Z.of_nat k = Z.of_nat (length (fb_buf f)) - strlen out - 1) as Hk by lia.
  rewrite poke_ok; [|unfold strlen; lia|rewrite length_app, length_take; cbn [length]; lia].
  eexists. split; [done|]. assert (fb_buf f = bytes_of out ++ 0 :: rest) as Em by (rewrite E at 1; rewrite take_ge by lia; done).
  replace (Z.to_nat (strlen out)) with (length (bytes_of out)) by lia.
  assert (take (length (bytes_of out)) (fb_buf f) = bytes_of out) as -> by (rewrite Em; apply take_app_length).
  set (mem := bytes_of out ++ _). assert (length mem = length (fb_buf f)) as Hlen.
  { unfold mem. rewrite !length_app, length_drop, length_take. cbn [length]. lia. }
  rewrite Hlen. split; [done|]. exists (drop (length (bytes_of out) + length (take k (bytes_of t) ++ [0])) (fb_buf f)).
  rewrite bytes_app, take_app_ge by lia. unfold mem.
  replace (length (fb_buf f) - 1 - length (bytes_of out))%nat with k by lia. by rewrite <- !app_assoc.
Qed.
(** A text is added to what the buffer holds, whether it fits or not. *)
Lemma Bprintf_spec f d out t : holds f d out -> fb_end f < 2 ^ 31 ->
  exists f', _evlBprintf f (Some t) = Some f' /\ holds f' d (out ++ t) /\ fb_end f' = fb_end f.
Proof.
  intros H Hcap. pose proof (holds_nonempty _ _ _ H) as Hne. assert (strlen (out ++ t) = strlen out + strlen t) as Hs
    by (unfold strlen; rewrite str_length_app; lia).
  unfold _evlBprintf. cbv zeta. set (room := fb_end f - fb_next f).
  assert (exists mem, (if room <=? 1 then Some (fb_buf f) else put_text f room t) = Some mem /\ length mem = length (fb_buf f) /\
    (strlen t + 1 <= room -> exists rest, mem = take (length mem - 1) (bytes_of (out ++ t)) ++ 0 :: rest) /\
    (room < strlen t + 1 -> take (length mem - 1) mem ++ [0] = take (length mem - 1) (bytes_of (out ++ t)) ++ [0])) as (mem & -> & Hlm & Hfit & Hcut).
  { pose proof (strlen_bytes out) as Hlo. pose proof (strlen_bytes (out ++ t)) as Hlt. destruct (Z.leb_spec room 1) as [Hr|Hr].
    - exists (fb_buf f). split; [done|]. split; [done|]. destruct H as [Hn _ [rest E]]. unfold room, fb_end in *. rewrite Hn in *. split.
      + intros Ht. exists rest. assert (strlen t = 0) as Hz by (unfold strlen in *; lia).
        assert (t = EmptyString) as -> by (destruct t; [done|unfold strlen in Hz; cbn in Hz; lia]). by rewrite str_app_nil.
      + intros _. rewrite (terminated _ _ _ E) by lia. rewrite bytes_app, take_app_le by lia. done.
    - destruct (put_text_spec f d out t room H eq_refl Hr Hcap) as (mem & -> & Hlm & rest & E). exists mem. split; [done|].
      split; [done|]. split; [by intros _; exists rest|]. intros Ht. apply (terminated mem (bytes_of (out ++ t)) rest); [done|].
      destruct H as [Hn _ _]. unfold room, fb_end in *. lia. }
  cbn [mbind option_bind]. destruct H as [Hn Ho _]. destruct (Z.gtb_spec (strlen t + 1) room) as [Ht|Ht].
  - rewrite overflowed_spec by (cbn [fb_buf]; lia). cbn [fb_buf fb_next].
    eexists. split; [done|]. assert (fb_end (mkFmtBuf (take (length mem - 1) mem ++ [0]) (fb_next f + strlen t) true) = fb_end f) as He.
    { unfold fb_end. cbn [fb_buf]. rewrite length_app, length_take. cbn [length]. lia. }
    split; [|done]. split; [cbn [fb_next]; lia| |].
    + rewrite He. cbn [fb_oflow]. symmetry. apply orb_true_iff. right. unfold room in Ht. apply Z.gtb_lt. lia.
    + exists []. cbn [fb_buf]. rewrite (Hcut ltac:(lia)). f_equal. f_equal. rewrite length_app, length_take, length_bytes_of. cbn [length].
      unfold strlen, room, fb_end in *. rewrite str_length_app. lia.
  - eexists. split; [done|]. cbn [fb_next fb_oflow].
    assert (fb_end (mkFmtBuf mem (fb_next f + strlen t) (fb_oflow f)) = fb_end f) as He by (unfold fb_end; cbn; lia). split; [|done]. split; [cbn [fb_next]; lia| |by apply Hfit].
    cbn [fb_next fb_oflow]. rewrite He, Ho. f_equal. rewrite !Z.gtb_ltb. unfold room in Ht.
    rewrite !(proj2 (Z.ltb_ge _ _)); [done|lia|unfold strlen in *; lia].
Qed.

(** ** Dumps in a buffer *)

Lemma upper_hex_char d : 0 <= d < 16 -> negb (is_nul (upper_hex d)) = true.
Proof.
  intros Hd. destruct (upper_hex_back d Hd) as [E _]. destruct (is_nul (upper_hex d)) eqn:En; [|done]. exfalso.
  assert (upper_hex d = NUL) as Hn.
  { unfold is_nul in En. rewrite <- (of_chr_chr (upper_hex d)). bprop. by rewrite En. }
  rewrite Hn in E. change (undigit NUL) with 16 in E. lia.
Qed.
Lemma land_15 z : 0 <= Z.land z 15 < 16.
Proof. change 15 with (Z.ones 4). rewrite Z.land_ones by lia. apply Z.mod_pos_bound. lia. Qed.
Lemma one_char_not_nul b : negb (is_nul (one_char b)) = true.
Proof.
  destruct b as [b|]; [|done]. unfold one_char. destruct (isprint b) eqn:E; [|done]. unfold isprint in E. unfold is_nul.
  rewrite chr_of_chr by zb. destruct (Z.eqb_spec b 0); [|done]. zb.
Qed.
Lemma line_not_nul dp offset : str_all (fun c => negb (is_nul c)) (formatDumpLine dp offset) = true.
Proof.
  unfold formatDumpLine, offset_digits, format8bytes, format8chars. rewrite !str_all_app. cbn [seq map foldr string_of_list_ascii].
  cbn [str_all]. rewrite !str_all_app, !upper_hex_char, !one_char_not_nul by apply land_15. cbn [str_all andb negb].
  assert (forall b, str_all (fun c => negb (is_nul c)) (two_digits b) = true) as Hd.
  { intros [b|]; [|done]. cbn [two_digits str_all]. by rewrite !upper_hex_char by apply land_15. }
  by rewrite !Hd.
Qed.
Lemma dump_not_nul data : data <> [] -> no_nul (full_dump data) = true.
Proof.
  intros Hne. rewrite no_nul_all. unfold full_dump. destruct (dump_lines_end (length data) data 0 Hne) as [t Ht]; [lia|].
  rewrite Ht, chop_end. assert (forall fuel dp off, str_all (fun c => negb (is_nul c)) (dump_lines fuel dp off) = true) as H.
  { induction fuel as [|fuel IH]; intros [|b dp] off; try done. cbn [dump_lines]. rewrite str_all_app, line_not_nul. cbn. by rewrite IH. }
  specialize (H (length data) data 0). rewrite Ht, str_all_app in H. by apply andb_true_iff in H as [? _].
Qed.
Lemma mem_strlen_ok s rest : no_nul s = true -> mem_strlen (bytes_of s ++ 0 :: rest) = Some (strlen s).
Proof.
  induction s as [|c s IH]; [done|]. cbn [no_nul bytes_of app mem_strlen]. intros [Hc Hs]%andb_true_iff.
  apply negb_true_iff in Hc. rewrite Hc, IH by done. cbn [mbind option_bind]. f_equal. unfold strlen. cbn. lia.
Qed.
(** A dump that fits is added to the text. *)
Lemma dump_spec f out data : holds f false out -> fb_end f < 2 ^ 31 ->
  0 < Z.of_nat (length data) <= POSIX_LOG_ENTRY_MAXLEN -> Forall is_byte data ->
  strlen out + dump_size (Z.of_nat (length data)) <= fb_end f ->
  exists f', _evlDumpBytesToFmtBuf (Some data) (Z.of_nat (length data)) f = Some f' /\
    holds f' false (out ++ full_dump data) /\ fb_end f' = fb_end f.
Proof.
  intros H Hcap Hn Hd Hfit. pose proof H as [Hnext Ho [rest E]]. assert (data <> []) as Hne by (by intros ->; cbn in Hn; lia).
  destruct (full_dump_spec data Hne Hd) as [Hl _]. assert (dump_size (Z.of_nat (length data)) >= 78) as Hs by (unfold dump_size; dlia).
  unfold _evlDumpBytesToFmtBuf. cbv zeta. rewrite Hnext. set (room := fb_end f - strlen out).
  assert (0 <= strlen out) as Hout by (unfold strlen; lia).
  rewrite (proj2 (Z.leb_gt room 1)) by lia.
  assert (u64 (s32 room) = room) as ->
    by (rewrite signed_id, unsigned_id; [done|unfold in_unsigned; lia|lia|unfold in_signed; lia]).
  rewrite forced_dump by (done || lia). cbn [mbind option_bind negb]. rewrite Z.eqb_refl. cbn [negb default]. unfold id.
  rewrite substring_all by (unfold strlen in Hl; lia).
  pose proof (strlen_bytes out) as Hlo. pose proof (strlen_bytes (full_dump data)) as Hlf. unfold room, fb_end in *. clear room.
  rewrite poke_ok by (rewrite ?length_app; cbn [length]; lia). cbn [mbind option_bind fb_buf fb_next fb_oflow].
  rewrite unsigned_id by (unfold in_unsigned; lia). rewrite Z.gtb_ltb, (proj2 (Z.ltb_ge _ _)) by lia.
  replace (Z.to_nat (strlen out)) with (length (bytes_of out)) by lia.
  assert (fb_buf f = bytes_of out ++ 0 :: rest) as Em by (rewrite E at 1; rewrite take_ge by lia; done).
  assert (take (length (bytes_of out)) (fb_buf f) = bytes_of out) as -> by (rewrite Em; apply take_app_length).
  rewrite drop_app_length. set (tail := drop (length (bytes_of out) + _) (fb_buf f)).
  assert (length (bytes_of out ++ (bytes_of (full_dump data) ++ [0]) ++ tail) = length (fb_buf f)) as Hlen.
  { unfold tail. rewrite !length_app, length_drop. cbn [length]. lia. }
  rewrite (proj2 (Z.ltb_ge _ 0)), Hlen, Z.gtb_ltb, (proj2 (Z.ltb_ge (Z.of_nat (length (fb_buf f))) _)) by lia.
  replace ((bytes_of (full_dump data) ++ [0]) ++ tail) with (bytes_of (full_dump data) ++ 0 :: tail) in * by (by rewrite <- app_assoc).
  cbn [orb]. rewrite mem_strlen_ok by (by apply dump_not_nul). cbn [mbind option_bind].
  assert (strlen (out ++ full_dump data) = strlen out + strlen (full_dump data)) as Hs' by (unfold strlen; rewrite str_length_app; lia).
  eexists. split; [done|]. unfold fb_end. cbn [fb_buf]. split; [|by rewrite Hlen]. split; cbn [fb_next fb_oflow fb_buf]; [lia| |].
  - unfold fb_end. cbn [fb_buf]. rewrite Ho, Hlen. cbn [orb]. rewrite !Z.gtb_ltb, !(proj2 (Z.ltb_ge _ _)); [done|lia|unfold fb_end; lia].
  - exists tail. rewrite Hlen, bytes_app, take_ge by (rewrite length_app; lia). by rewrite <- app_assoc.
Qed.
(** Once the buffer has overflowed, a dump reads behind it: [roomNeeded > room] is a
    comparison of [size_t], and the room left is negative. *)
Theorem dump_after_overflow_overreads f data : fb_end f < fb_next f < 2 ^ 31 ->
  0 < Z.of_nat (length data) <= POSIX_LOG_ENTRY_MAXLEN -> Forall is_byte data ->
  _evlDumpBytesToFmtBuf (Some data) (Z.of_nat (length data)) f = None.
Proof.
  intros Hf Hn Hd. unfold _evlDumpBytesToFmtBuf. cbv zeta. set (room := fb_end f - fb_next f).
  rewrite (proj2 (Z.leb_le room 1)) by lia. rewrite forced_dump by (done || (vm_compute; discriminate)).
  cbn [mbind option_bind negb]. rewrite Z.eqb_refl. cbn [negb fb_buf fb_next fb_oflow].
  assert (u64 room = 2 ^ 64 + room) as ->.
  { unfold unsigned. rewrite <- (Z.mod_add room 1) by lia. rewrite Z.mod_small; unfold room, fb_end in *; lia. }
  assert (dump_size (Z.of_nat (length data)) <= 50000) as Hs by (unfold dump_size, POSIX_LOG_ENTRY_MAXLEN in *; dlia).
  rewrite Z.gtb_ltb, (proj2 (Z.ltb_ge _ _)) by (unfold room, fb_end in *; lia).
  change (fb_end (mkFmtBuf (fb_buf f) (fb_next f) (fb_oflow f))) with (fb_end f).
  assert ((fb_next f >? fb_end f) = true) as -> by (rewrite Z.gtb_ltb; apply Z.ltb_lt; lia). by rewrite orb_true_r.
Qed.

(** ** A buffer is filled piece by piece *)

Fixpoint write_all (f : evl_fmt_buf) (texts : list str) : option evl_fmt_buf :=
  match texts with
  | [] => Some f
  | t :: texts => f ← _evlBprintf f (Some t); write_all f texts
  end.
Definition concat_str (texts : list str) : str := foldr String.append EmptyString texts.
Lemma write_all_spec texts : forall f d out, holds f d out -> fb_end f < 2 ^ 31 ->
  exists f', write_all f texts = Some f' /\ holds f' d (out ++ concat_str texts) /\ fb_end f' = fb_end f.
Proof.
  induction texts as [|t texts IH]; intros f d out H Hcap; cbn [write_all concat_str foldr].
  - exists f. by rewrite str_app_nil.
  - destruct (Bprintf_spec f d out t H Hcap) as (f1 & -> & H1 & E1). cbn [mbind option_bind].
    destruct (IH f1 d (out ++ t)%string H1) as (f2 & -> & H2 & E2); [lia|]. exists f2. split; [done|].
    rewrite str_app_assoc in H2. split; [done|lia].
Qed.
(** C29: texts written one after the other to the caller's buffer: the string in it is all
    they make, cut off at the size of the buffer; the length that is counted and the
    overflow that is reported are those of the whole text; and nothing is written outside of
    the buffer. *)
Theorem buffer_holds_truncated_text mem texts : mem <> [] -> Z.of_nat (length mem) < 2 ^ 31 ->
  exists f, write_all (_evlMakeFmtBuf (Some mem)) texts = Some f /\
    fb_next f = strlen (concat_str texts) /\
    fb_oflow f = (strlen (concat_str texts) + 1 >? Z.of_nat (length mem)) /\
    length (fb_buf f) = length mem /\
    exists rest, fb_buf f = take (length mem - 1) (bytes_of (concat_str texts)) ++ 0 :: rest.
Proof.
  intros Hne Hcap. assert (fb_end (_evlMakeFmtBuf (Some mem)) = Z.of_nat (length mem)) as He by (by destruct mem).
  destruct (write_all_spec texts _ false "" (holds_new mem Hne)) as (f & -> & [Hn Ho Ht] & E); [lia|].
  cbn [String.append] in *. exists f. assert (length (fb_buf f) = length mem) as Hl by (unfold fb_end in *; lia).
  split; [done|]. split; [done|]. split; [by rewrite Ho, E, He|]. split; [done|]. by rewrite Hl in Ht.
Qed.
Lemma buffer_holds_truncated_text_witness :
  exists f, write_all (_evlMakeFmtBuf (Some (replicate 8 255))) ["Hello"; ", "; "world"] = Some f /\
    fb_next f = 12 /\ fb_oflow f = true /\ length (fb_buf f) = 8%nat /\
    exists rest, fb_buf f = take 7 (bytes_of "Hello, world") ++ 0 :: rest.
Proof.
  apply (buffer_holds_truncated_text (replicate 8 255) ["Hello"; ", "; "world"]); [discriminate|reflexivity].
Defined.
Lemma dump_after_overflow_overreads_witness :
  fb_end (mkFmtBuf [72; 0] 5 true) < 5 < 2 ^ 31 /\
  _evlDumpBytesToFmtBuf (Some [1; 2; 3]) 3 (mkFmtBuf [72; 0] 5 true) = None.
Proof.
  split; [vm_compute; split; reflexivity|].
  apply (dump_after_overflow_overreads (mkFmtBuf [72; 0] 5 true) [1; 2; 3]); [vm_compute; split; reflexivity|vm_compute; split; [reflexivity|discriminate]|].
  repeat constructor; vm_compute; (reflexivity || discriminate).
Defined.
