(* ===== verification/RecPack.v ===== *)
(** * Packing the data of a record ([lib/evl_log_write.c])

    What the arguments of a logging call, or of the command [evlsend], are turned into:
    the bytes of the record's optional part.  [None] is undefined behaviour: an argument
    of another type than the one read, a null pointer, or a write behind the buffer of
    [POSIX_LOG_ENTRY_MAXLEN] bytes. *)
From Stdlib Require Import SpecFloat.
From S2P Require Import Prelude NvPairs LogRecord QEvaluate Format CPrintf.

(** ** Types of attributes *)

(** [_evlTmplTypeInfo]: a type, its size, whether it is a scalar, its name; the order is
    that of the enumeration. *)
Record tmpl_type_info_t := mkType { ti_type : base_type; ti_size : Z; ti_isScalar : bool; ti_name : str }.
Definition _evlTmplTypeInfo : list tmpl_type_info_t :=
  [ mkType TY_NONE 0 false "none"; mkType TY_CHAR 1 true "char"; mkType TY_UCHAR 1 true "uchar";
    mkType TY_SHORT 2 true "short"; mkType TY_USHORT 2 true "ushort"; mkType TY_INT 4 true "int";
    mkType TY_UINT 4 true "uint"; mkType TY_LONG 8 true "long"; mkType TY_ULONG 8 true "ulong";
    mkType TY_LONGLONG 8 true "longlong"; mkType TY_ULONGLONG 8 true "ulonglong"; mkType TY_FLOAT 4 true "float";
    mkType TY_DOUBLE 8 true "double"; mkType TY_LDOUBLE 16 true "ldouble"; mkType TY_STRING 8 false "string";
    mkType TY_WCHAR 4 true "wchar"; mkType TY_WSTRING 8 false "wstring"; mkType TY_ADDRESS 8 true "address";
    mkType TY_STRUCT 0 false "struct"; mkType TY_PREFIX3 0 false "prefix3"; mkType TY_LIST 0 false "list";
    mkType TY_STRUCTNAME 0 false "struct"; mkType TY_TYPEDEF 0 false "typedef" ].
#[global] Instance base_type_eq_dec : EqDecision base_type.
Proof. solve_decision. Defined.
(** [_evlTmplTypeInfo[ty].ti_size]; the entry behind the last is all zero. *)
Definition type_size (ty : base_type) : Z :=
  match list_find (fun ti => ti_type ti = ty) _evlTmplTypeInfo with Some (_, ti) => ti_size ti | None => 0 end.
Fixpoint find_type (table : list tmpl_type_info_t) (name : str) : base_type :=
  match table with
  | [] => TY_NONE
  | ti :: table =>
      if negb (ti_isScalar ti) && negb (bool_decide (ti_type ti = TY_STRING)) && negb (bool_decide (ti_type ti = TY_WSTRING))
      then find_type table name
      else if streqb name (ti_name ti) then ti_type ti else find_type table name
  end.
Definition get_type_by_name (name : str) : base_type := find_type _evlTmplTypeInfo name.

Record att_type_info := mkAtt { at_type : base_type; at_nelements : Z; at_array : bool }.
Definition MAX_TYPE_NAME_LEN : Z := 20.
(** [None] is -1. *)
Definition parse_att_type (att_type : str) : option att_type_info :=
  let ti ty n arr := match ty with TY_NONE => None | _ => Some (mkAtt ty n arr) end in
  if match att_type with String c _ => is_digit c | EmptyString => false end then
    let '(v, s) := strtoul att_type 10 in
    match s with
    | String c type_name => if Ascii.eqb c "*"%char then ti (get_type_by_name type_name) (s32 v) false else None
    | EmptyString => None
    end
  else
    match strchr att_type "["%char with
    | Some left_bracket =>
        if negb (streqb left_bracket "[]") then None
        else
          let name := before att_type "["%char in
          if (strlen name =? 0) || (strlen name >? MAX_TYPE_NAME_LEN) then None
          else ti (get_type_by_name name) 0 true
    | None => ti (get_type_by_name att_type) 1 false
    end.

(** ** The buffer *)

(** What is in the buffer up to the pointer at which the next value goes, and the length
    that the record would have. *)
Record packer := mkPack { pk_data : list Z; pk_reclen : Z }.
Definition put (pk : packer) (bs : list Z) : option (list Z) :=
  if Z.of_nat (length (pk_data pk) + length bs) >? POSIX_LOG_ENTRY_MAXLEN then None else Some (pk_data pk ++ bs).

(** Copies [n] bytes from [src], in memory, and moves on by what is returned. *)
Definition memcpyex (pk : packer) (src : list Z) (n : Z) : option packer :=
  let rlen := u64 (pk_reclen pk + n) in
  if (rlen >? POSIX_LOG_ENTRY_MAXLEN) && (pk_reclen pk >? POSIX_LOG_ENTRY_MAXLEN) then Some pk
  else
    let nb := if rlen >? POSIX_LOG_ENTRY_MAXLEN then POSIX_LOG_ENTRY_MAXLEN - pk_reclen pk else n in
    if nb >? Z.of_nat (length src) then None
    else data ← put pk (take (Z.to_nat nb) src); Some (mkPack data rlen).
Definition copy_bytes (pk : packer) (bs : list Z) : option packer := memcpyex pk bs (Z.of_nat (length bs)).
(** [slen <= bytesLeft] compares a [size_t] with an [int]. *)
Definition packString (pk : packer) (s : str) : option packer :=
  let slen := strlen s + 1 in
  let bytesLeft := s32 (u64 (POSIX_LOG_ENTRY_MAXLEN - pk_reclen pk)) in
  let reclen := u64 (pk_reclen pk + slen) in
  if slen <=? u64 bytesLeft then data ← put pk (bytes_of s ++ [0]); Some (mkPack data reclen)
  else if bytesLeft >? 0 then
    data ← put pk (take (Z.to_nat (bytesLeft - 1)) (bytes_of s) ++ [0]); Some (mkPack data reclen)
  else Some (mkPack (pk_data pk) reclen).
Definition wstring_bytes (ws : list Z) : list Z := flat_map (le_encode 4) (ws ++ [0]).
Definition packWstring (pk : packer) (ws : list Z) : option packer := copy_bytes pk (wstring_bytes ws).

(** ** Arguments *)

(** A variable argument: a value, a null pointer, or a pointer to an array of strings, of
    wide strings or of other elements. *)
Inductive vaarg :=
  | VArg (a : carg)
  | VNull
  | VStrings (l : list str)
  | VWstrings (l : list (list Z))
  | VMem (l : list Z).

(** A [double] converted to [float], both as their bytes. *)
Definition encode_float (f : spec_float) : Z :=
  match f with
  | S754_zero s => Z.shiftl (b2z s) 31
  | S754_infinity s => Z.lor (Z.shiftl (b2z s) 31) (Z.shiftl 255 23)
  | S754_nan => Z.shiftl 511 22
  | S754_finite s m e =>
      Z.lor (Z.shiftl (b2z s) 31) (if Z.pos m <? 2 ^ 23 then Z.pos m else Z.lor (Z.shiftl (e + 150) 23) (Z.pos m - 2 ^ 23))
  end.
Definition double_to_float (bs : list Z) : list Z :=
  let z := le_decode bs in
  let s := Z.testbit z 63 in
  let e := Z.land (Z.shiftr z 52) 2047 in
  let m := Z.land z (2 ^ 52 - 1) in
  le_encode 4
    (if (e =? 2047) && negb (m =? 0) then Z.lor (Z.shiftl (b2z s) 31) (Z.lor (Z.shiftl 255 23) (Z.lor (Z.shiftl 1 22) (Z.shiftr m 29)))
     else if e =? 2047 then encode_float (S754_infinity s)
     else
       let mant := if e =? 0 then m else m + 2 ^ 52 in
       encode_float (binary_normalize 24 128 (if s then - mant else mant) (Z.max e 1 - 1075) s)).
(** What [COPYARGS] copies of the next argument for a type. *)
Definition scalar_bytes (ty : base_type) (arg : carg) : option (list Z) :=
  match ty, arg with
  | (TY_CHAR | TY_UCHAR), AInt z => Some (le_encode 1 z)
  | (TY_SHORT | TY_USHORT), AInt z => Some (le_encode 2 z)
  | (TY_INT | TY_UINT), AInt z => Some (le_encode 4 z)
  | (TY_LONG | TY_ULONG), ALong z => Some (le_encode 8 z)
  | (TY_LONGLONG | TY_ULONGLONG), ALonglong z => Some (le_encode 8 z)
  | TY_ADDRESS, AAddress z => Some (le_encode 8 z)
  | TY_FLOAT, ADouble bs => Some (double_to_float bs)
  | TY_DOUBLE, ADouble bs => Some bs
  | TY_LDOUBLE, ALdouble bs => Some bs
  | TY_WCHAR, AWchar z => Some (le_encode 4 z)
  | _, _ => None
  end.
(** One value of a type that is no array. *)
Definition pack_value (ty : base_type) (pk : packer) (arg : vaarg) : option packer :=
  match ty, arg with
  | TY_STRING, VArg (AString s) => packString pk s
  | TY_WSTRING, VArg (AWstring ws) => packWstring pk ws
  | _, VArg a => bs ← scalar_bytes ty a; copy_bytes pk bs
  | _, _ => None
  end.
Fixpoint pack_values (ty : base_type) (n : nat) (pk : packer) (args : list vaarg) : option (packer * list vaarg) :=
  match n, args with
  | O, _ => Some (pk, args)
  | S n, a :: args => pk ← pack_value ty pk a; pack_values ty n pk args
  | S _, [] => None
  end.
Fixpoint pack_elems {A} (pack : packer -> A -> option packer) (n : nat) (pk : packer) (l : list A) : option packer :=
  match n, l with
  | O, _ => Some pk
  | S n, a :: l => pk ← pack pk a; pack_elems pack n pk l
  | S _, [] => None
  end.
(** The elements of an array that is not of strings, one after the other. *)
Fixpoint pack_memory (size : Z) (n : nat) (pk : packer) (mem : list Z) : option packer :=
  match n with
  | O => Some pk
  | S n =>
      if size >? Z.of_nat (length mem) then None
      else pk ← memcpyex pk (take (Z.to_nat size) mem) size; pack_memory size n pk (drop (Z.to_nat size) mem)
  end.

(** ** [evl_log_write]: types and values *)

Definition pack_array (ty : base_type) (n : Z) (pk : packer) (array : vaarg) : option packer :=
  match ty, array with
  | TY_STRING, VStrings l => pack_elems packString (Z.to_nat n) pk l
  | TY_WSTRING, VWstrings l => pack_elems packWstring (Z.to_nat n) pk l
  | (TY_STRING | TY_WSTRING), _ => if n <=? 0 then Some pk else None
  | _, VMem mem => pack_memory (type_size ty) (Z.to_nat n) pk mem
  | _, _ => if n <=? 0 then Some pk else None
  end.
(** [Some None] is -1.  Every round takes an argument, so [fuel] is their number. *)
Fixpoint copy_attrs (fuel : nat) (args : list vaarg) (pk : packer) : option (option packer) :=
  match fuel, args with
  | _, [] | O, _ => None
  | _, VNull :: _ => Some (Some pk)
  | S fuel, VArg (AString att_type) :: args =>
      if streqb att_type "endofdata" then Some (Some pk)
      else
        match parse_att_type att_type with
        | None => Some None
        | Some ti =>
            if at_array ti then
              match args with
              | VArg (AInt n) :: array :: args => pk ← pack_array (at_type ti) n pk array; copy_attrs fuel args pk
              | _ => None
              end
            else '(pk, args) ← pack_values (at_type ti) (Z.to_nat (at_nelements ti)) pk args; copy_attrs fuel args pk
        end
  | _, _ => None
  end.
Definition copy_attr_data (args : list vaarg) : option (option packer) := copy_attrs (length args) args (mkPack [] 0).

(** ** [printb]: a format and its arguments *)

Definition packArray (pk : packer) (array : vaarg) (dim : Z) (delim : str) (ty : base_type) : option packer :=
  pk ← copy_bytes pk (le_encode 4 dim);
  pk ← packString pk delim;
  match ty with
  | TY_STRING | TY_WSTRING => pack_array ty dim pk array
  | _ =>
      if type_size ty =? 0 then None
      else match array with VMem mem => memcpyex pk mem (u64 (dim * type_size ty)) | _ => None end
  end.
(** The arguments of one conversion; [Some None] is [EINVAL]. *)
Definition pack_conversion (pf : evl_parsed_format) (pk : packer) (args : list vaarg)
  : option (option (packer * list vaarg)) :=
  if fm_array pf then
    match args with
    | array :: VArg (AInt dim) :: VArg (AString delim) :: args =>
        pk ← packArray pk array dim delim (_evlGetTypeFromConversion pf false true); Some (Some (pk, args))
    | _ => None
    end
  else
    match _evlGetTypeFromConversion pf true true with
    | TY_NONE => Some None
    | TY_SPECIAL => None
    | ty => match args with a :: args => pk ← pack_value ty pk a; Some (Some (pk, args)) | [] => None end
    end.
Fixpoint pack_conversions (l : list evl_fmt_segment) (pk : packer) (args : list vaarg) : option (option packer) :=
  match l with
  | [] => Some (Some pk)
  | EVL_FS_PRINTFCONV pf _ _ :: l =>
      r ← pack_conversion pf pk args;
      match r with
      | None => Some None
      | Some (pk, args) => pack_conversions l pk args
      end
  | _ => None
  end.
(** The size of the arguments, in the place that was kept for it. *)
Definition plug_size (pk : packer) (argszGoesHere argsStartHere : Z) : option packer :=
  if argszGoesHere <=? POSIX_LOG_ENTRY_MAXLEN - 4 then
    let argsz := le_encode 4 (pk_reclen pk - argsStartHere) in
    let pos := Z.to_nat argszGoesHere in
    if Z.of_nat (length (pk_data pk)) <? argszGoesHere + 4 then None
    else Some (mkPack (take pos (pk_data pk) ++ argsz ++ drop (pos + 4) (pk_data pk)) (pk_reclen pk))
  else Some pk.
(** The status, and the buffer and [*datasz] if they are set; [data] is in the buffer
    already. *)
Definition evl_pack_format_and_args (format : option str) (args : list vaarg) (data : list Z) : option (Z * option packer) :=
  match format with
  | None => Some (EINVAL, None)
  | Some format =>
      parsed ← _evlParsePrintfFormat format false;
      match parsed with
      | None => Some (EINVAL, None)
      | Some l =>
          pk ← packString (mkPack data (Z.of_nat (length data))) format;
          let argszGoesHere := pk_reclen pk in
          pk ← copy_bytes pk (le_encode 4 0);
          let argsStartHere := pk_reclen pk in
          r ← pack_conversions l pk args;
          match r with
          | None => Some (EINVAL, None)
          | Some pk =>
              pk ← plug_size pk argszGoesHere argsStartHere;
              Some (if pk_reclen pk >? POSIX_LOG_ENTRY_MAXLEN then EMSGSIZE else 0, Some pk)
          end
      end
  end.

(** ** Values of a command line *)

Definition ERANGE : Z := 34.
(** The sign, the magnitude and what follows it, as [strtoll] and [strtoull] read them
    with base 0; no digits leave all of the string. *)
Definition scan_integer (s : str) : bool * Z * str :=
  let s1 := skip_spaces s in
  let '(neg, s2) :=
    match s1 with
    | String c r => if chr c =? 45 then (true, r) else if chr c =? 43 then (false, r) else (false, s1)
    | EmptyString => (false, s1)
    end in
  let '(base, s3) :=
    match s2 with
    | String z (String x (String d _ as r)) =>
        if (chr z =? 48) && ((chr x =? 120) || (chr x =? 88)) && bool_decide (is_Some (digit_val 16 d)) then (16, r)
        else (if chr z =? 48 then 8 else 10, s2)
    | String z _ => (if chr z =? 48 then 8 else 10, s2)
    | EmptyString => (10, s2)
    end in
  let '(v, rest) := read_digits base 0 s3 in
  if bool_decide (rest = s3) then (false, 0, s) else (neg, v, rest).
(** A status and the value. *)
Definition decodeUint (val : str) (size : Z) : Z * Z :=
  let '(neg, v, rest) := scan_integer val in
  if (v >? ULONG_MAX) || negb (streqb rest EmptyString) then (EINVAL, 0)
  else
    let uval := if neg then u64 (- v) else v in
    let error :=
      if size =? 1 then uval >? 2 ^ 8 - 1 else if size =? 2 then uval >? 2 ^ 16 - 1
      else if size =? 4 then uval >? 2 ^ 32 - 1 else if size =? 8 then uval >? ULONG_MAX else false in
    if error then (ERANGE, 0) else (0, uval).
Definition decodeSint (val : str) (size : Z) : Z * Z :=
  let '(neg, v, rest) := scan_integer val in
  let sval := if neg then - v else v in
  if negb (bool_decide (in_signed 64 sval)) || negb (streqb rest EmptyString) then (EINVAL, 0)
  else
    let error :=
      if (size =? 1) || (size =? 2) || (size =? 4) || (size =? 8) then negb (bool_decide (in_signed (8 * size) sval)) else false in
    if error then (ERANGE, 0) else (0, sval).

(** What the C library makes of the text of a real number ([strtod] and the like: a status
    and the bytes of the value) and of a multibyte string. *)
Class TextConversion := {
  decodeReal : str -> base_type -> Z * list Z;
  mbstowcs : str -> list Z
}.
Definition reportBadVal (val : str) (status : Z) : str :=
  ((if (status =? EINVAL)%Z then "Unrecognized value: " else "Value out of range: ") ++ val)%string.
Definition is_signed_type (ty : base_type) : bool :=
  match ty with TY_CHAR | TY_SHORT | TY_INT | TY_LONG | TY_LONGLONG | TY_WCHAR => true | _ => false end.
(** [decodeSint] and [decodeUint] by the type; a character stands for itself. *)
Definition decode_integer (val : str) (ty : base_type) : Z * Z :=
  let '(status, v) := if is_signed_type ty then decodeSint val (type_size ty) else decodeUint val (type_size ty) in
  match ty, val with
  | (TY_CHAR | TY_UCHAR | TY_WCHAR), String c EmptyString => if status =? EINVAL then (0, schar c) else (status, v)
  | _, _ => (status, v)
  end.
(** The packer, or the message of an error, if there is one; the status of an error
    does not matter to the callers. *)
Definition decodeArg `{TextConversion} (val : option str) (ty : base_type) (nelements : Z) (pk : packer)
  : option (option str + packer) :=
  match val with
  | None =>
      Some (inl (Some (if nelements =? 1 then "Missing value"%string
                       else ("Missing value(s) in " ++ fmt_d nelements ++ "-element list")%string)))
  | Some val =>
      match ty with
      | TY_CHAR | TY_UCHAR | TY_SHORT | TY_USHORT | TY_INT | TY_UINT | TY_LONG | TY_ULONG | TY_LONGLONG | TY_ULONGLONG
      | TY_ADDRESS | TY_WCHAR =>
          let '(status, v) := decode_integer val ty in
          if status =? 0 then inr <$> copy_bytes pk (le_encode (Z.to_nat (type_size ty)) v)
          else Some (inl (Some (reportBadVal val status)))
      | TY_FLOAT | TY_DOUBLE | TY_LDOUBLE =>
          let '(status, bs) := decodeReal val ty in
          if status =? 0 then inr <$> copy_bytes pk bs else Some (inl (Some (reportBadVal val status)))
      | TY_STRING => inr <$> packString pk val
      | TY_WSTRING => inr <$> packWstring pk (mbstowcs val)
      | _ => Some (inl None)
      end
  end.
(** [n] values from the arguments that are left; [argv] ends in a null pointer. *)
Fixpoint decode_args `{TextConversion} (n : nat) (argv : list str) (ty : base_type) (nelements : Z) (pk : packer)
  : option (option str + packer * list str) :=
  match n with
  | O => Some (inr (pk, argv))
  | S n =>
      r ← decodeArg (head argv) ty nelements pk;
      match r with
      | inl msg => Some (inl msg)
      | inr pk => decode_args n (tail argv) ty nelements pk
      end
  end.
(** The outcome of packing a command line: [EINVAL] with a message, or a status, the arguments
    that are left, the record and a message. *)
Inductive pack_outcome :=
  | Refused (msg : option str)
  | Packed (status : Z) (argv : list str) (pk : packer) (msg : option str).
Definition pack_done (argv : list str) (pk : packer) : pack_outcome :=
  if pk_reclen pk >? POSIX_LOG_ENTRY_MAXLEN then
    Packed EMSGSIZE argv pk (Some ("Record would exceed " ++ fmt_d POSIX_LOG_ENTRY_MAXLEN ++ " bytes.")%string)
  else Packed 0 argv pk None.
Fixpoint pack_cmd_args `{TextConversion} (fuel : nat) (argv : list str) (pk : packer) : option pack_outcome :=
  match argv, fuel with
  | [], _ => Some (pack_done [] pk)
  | _, O => None
  | name :: argv', S fuel =>
      if match name with String c _ => Ascii.eqb c "-"%char | EmptyString => false end then Some (pack_done argv pk)
      else if streqb name "endofdata" then Some (pack_done argv' pk)
      else
        match parse_att_type name with
        | None => Some (Refused (Some ("Unrecognized type: " ++ name)%string))
        | Some ti =>
            let values n argv :=
              r ← decode_args (Z.to_nat n) argv (at_type ti) n pk;
              match r with
              | inl msg => Some (Refused msg)
              | inr (pk, argv) => pack_cmd_args fuel argv pk
              end in
            if at_array ti then
              match argv' with
              | [] => None
              | dim :: argv' =>
                  let '(status, uval) := decodeUint dim 4 in
                  if negb (status =? 0) then Some (Refused (Some ("Bad array dimension: " ++ dim)%string))
                  else values (s32 uval) argv'
              end
            else values (at_nelements ti) argv'
        end
  end.
(** [argv] from [*iarg] on. *)
Definition _evlPackCmdArgs `{TextConversion} (argv : list str) : option pack_outcome :=
  pack_cmd_args (S (length argv)) argv (mkPack [] 0).

(** ** A format and values of a command line *)

Fixpoint pack_formatted_args `{TextConversion} (l : list evl_fmt_segment) (argv : list str) (pk : packer)
  : option (option str + packer * list str) :=
  match l with
  | [] => Some (inr (pk, argv))
  | EVL_FS_PRINTFCONV pf _ _ :: l =>
      let values promote n argv pk :=
        r ← decode_args (Z.to_nat n) argv (_evlGetTypeFromConversion pf promote false) n pk;
        match r with
        | inl msg => Some (inl msg)
        | inr (pk, argv) => pack_formatted_args l argv pk
        end in
      if fm_array pf then
        match argv with
        | [] => Some (inl (Some "Missing array dimension"%string))
        | dim :: argv =>
            let '(status, sval) := decodeSint dim 4 in
            if negb (status =? 0) || (sval <? 0) then Some (inl (Some ("Bad array dimension: " ++ dim)%string))
            else
              pk ← copy_bytes pk (le_encode 4 sval);
              match argv with
              | [] => Some (inl (Some "Missing array delimiter"%string))
              | delim :: argv => pk ← packString pk delim; values false sval argv pk
              end
        end
      else values true 1 argv pk
  | _ => None
  end.
Definition _evlPackCmdArgsPerFormat `{TextConversion} (format : str) (argv : list str) : option pack_outcome :=
  parsed ← _evlParsePrintfFormat format false;
  match parsed with
  | None => Some (Refused (Some "Invalid format string."%string))
  | Some l =>
      pk ← packString (mkPack [] 0) format;
      let argszGoesHere := pk_reclen pk in
      pk ← copy_bytes pk (le_encode 4 0);
      let argsStartHere := pk_reclen pk in
      r ← pack_formatted_args l argv pk;
      match r with
      | inl msg => Some (Refused msg)
      | inr (pk, argv) => pk ← plug_size pk argszGoesHere argsStartHere; Some (pack_done argv pk)
      end
  end.

Section Examples.
#[local] Instance c_locale : TextConversion := { decodeReal _ _ := (EINVAL, []); mbstowcs s := bytes_of s }.
Example pack_ex1 : evl_pack_format_and_args (Some "uid %d, %s%%"%string) [VArg (AInt (-2)); VArg (AString "ok")] [] =
  Some (0, Some (mkPack (bytes_of "uid %d, %s%%" ++ [0; 7;0;0;0; 254;255;255;255] ++ bytes_of "ok" ++ [0]) 24)).
Proof. vm_compute. reflexivity. Qed.
Example pack_ex2 : copy_attr_data [VArg (AString "2*short"); VArg (AInt 1); VArg (AInt 258); VArg (AString "string[]");
    VArg (AInt 2); VStrings ["a"; "bc"]; VArg (AString "endofdata")] =
  Some (Some (mkPack [1;0; 2;1; 97;0; 98;99;0] 9)).
Proof. vm_compute. reflexivity. Qed.
Example pack_ex3 : _evlPackCmdArgs ["2*int"; "0x10"; "-1"; "char"; "A"; "ulong[]"; "1"; "18446744073709551615"; "-t"; "x"] =
  Some (Packed 0 ["-t"; "x"] (mkPack ([16;0;0;0; 255;255;255;255; 65] ++ replicate 8 255) 17) None).
Proof. vm_compute. reflexivity. Qed.
Example pack_ex4 : (_evlPackCmdArgs ["uchar"; "256"], _evlPackCmdArgs ["2*int"; "1"], _evlPackCmdArgs ["int[]"]) =
  (Some (Refused (Some "Value out of range: 256"%string)), Some (Refused (Some "Missing value(s) in 2-element list"%string)), None).
Proof. vm_compute. reflexivity. Qed.
Example pack_ex5 : _evlPackCmdArgsPerFormat "%hd %[hd" ["7"; "2"; ","; "8"; "9"] =
  Some (Packed 0 [] (mkPack (bytes_of "%hd %[hd" ++ [0; 14;0;0;0; 7;0;0;0; 2;0;0;0; 44;0; 8;0; 9;0]) 27) None).
Proof. vm_compute. reflexivity. Qed.
Example float_ex : (double_to_float [0;0;0;0;0;0;248;63], double_to_float [154;153;153;153;153;153;185;191], double_to_float (replicate 7 0 ++ [128])) =
  ([0;0;192;63], [205;204;204;189], [0;0;0;128]).
Proof. vm_compute. reflexivity. Qed.
End Examples.
