(* ===== verification/RecPackCorrect.v ===== *)
(** * Packing: what ends up in a record

    Each packing function adds the bytes of its value as long as they fit the buffer; a
    record that fits holds its format, the size of its arguments and the arguments.
    Behind the end of the buffer the functions differ: numbers are cut off, but a string
    is written behind the buffer. *)
From S2P Require Import Prelude NvPairs LogRecord QEvaluate FacNames Format FormatCorrect CPrintf FmtBuf RecPack.

(** ** Values that fit *)

(** [d] is [databuf + reclen] until the record is full, and stays at the end then. *)
Definition pk_ok (pk : packer) : Prop :=
  0 <= pk_reclen pk < 2 ^ 62 /\ Z.of_nat (length (pk_data pk)) = Z.min (pk_reclen pk) POSIX_LOG_ENTRY_MAXLEN.
Definition pk_add (pk : packer) (bs : list Z) : packer :=
  mkPack (pk_data pk ++ bs) (pk_reclen pk + Z.of_nat (length bs)).
(** The operation adds [bs] if there is room. *)
Definition packs (f : packer -> option packer) (bs : list Z) : Prop :=
  forall pk, pk_ok pk -> pk_reclen pk + Z.of_nat (length bs) <= POSIX_LOG_ENTRY_MAXLEN -> f pk = Some (pk_add pk bs).

Lemma pk_add_ok pk bs : pk_ok pk -> pk_reclen pk + Z.of_nat (length bs) <= POSIX_LOG_ENTRY_MAXLEN -> pk_ok (pk_add pk bs).
Proof. unfold pk_ok, pk_add, POSIX_LOG_ENTRY_MAXLEN. cbn [pk_reclen pk_data]. rewrite length_app. lia. Qed.
Lemma packs_bind f g a b : packs f a -> packs g b -> packs (fun pk => pk ← f pk; g pk) (a ++ b).
Proof.
  intros Hf Hg pk Hpk Hl. rewrite length_app in Hl. rewrite Hf by (done || lia). cbn [mbind option_bind].
  rewrite Hg; [|apply pk_add_ok; [done|lia]|unfold pk_add; cbn [pk_reclen]; lia].
  unfold pk_add. cbn. by rewrite length_app, Nat2Z.inj_add, <- app_assoc, Z.add_assoc.
Qed.
Lemma packs_nil : packs Some [].
Proof. intros [data r] _ _. unfold pk_add. cbn. by rewrite app_nil_r, Z.add_0_r. Qed.
Lemma put_ok pk bs : pk_ok pk -> pk_reclen pk + Z.of_nat (length bs) <= POSIX_LOG_ENTRY_MAXLEN ->
  put pk bs = Some (pk_data pk ++ bs).
Proof. intros [Hr Hd] Hl. unfold put. rewrite Z.gtb_ltb, (proj2 (Z.ltb_ge _ _)) by lia. done. Qed.
Lemma packs_memcpyex bs n rest : n = Z.of_nat (length bs) -> packs (fun pk => memcpyex pk (bs ++ rest) n) bs.
Proof.
  intros -> pk Hpk Hl. pose proof Hpk as [Hr Hd]. unfold memcpyex, POSIX_LOG_ENTRY_MAXLEN in *. cbv zeta.
  rewrite unsigned_id by (unfold in_unsigned; lia).
  rewrite !Z.gtb_ltb, !(proj2 (Z.ltb_ge 8192 _)) by lia. cbn [andb].
  rewrite (proj2 (Z.ltb_ge _ _)) by (rewrite length_app; lia).
  rewrite Nat2Z.id, take_app_length, put_ok by done. done.
Qed.
Lemma packs_copy bs : packs (fun pk => copy_bytes pk bs) bs.
Proof. intros pk. pose proof (packs_memcpyex bs _ [] eq_refl pk) as H. by rewrite app_nil_r in H. Qed.
Definition string_bytes (s : str) : list Z := bytes_of s ++ [0].
Lemma string_bytes_length s : Z.of_nat (length (string_bytes s)) = strlen s + 1.
Proof. unfold string_bytes. rewrite length_app, length_bytes_of. unfold strlen. cbn. lia. Qed.
Lemma packs_string s : packs (fun pk => packString pk s) (string_bytes s).
Proof.
  intros pk Hpk Hl. pose proof Hpk as [Hr Hd]. pose proof (string_bytes_length s) as Hs. unfold packString. cbv zeta.
  assert (0 <= strlen s) by (unfold strlen; lia). unfold POSIX_LOG_ENTRY_MAXLEN in *.
  rewrite !(unsigned_id 64 (8192 - pk_reclen pk)) by (unfold in_unsigned; lia).
  rewrite signed_id by (unfold in_signed; lia). rewrite !unsigned_id by (unfold in_unsigned; lia).
  rewrite (proj2 (Z.leb_le _ _)) by lia. fold (string_bytes s). rewrite put_ok by done. cbn [mbind option_bind].
  unfold pk_add. by rewrite Hs.
Qed.
Lemma packs_wstring ws : packs (fun pk => packWstring pk ws) (wstring_bytes ws).
Proof. apply packs_copy. Qed.

(** ** What an argument is packed as *)

Definition value_bytes (ty : base_type) (arg : vaarg) : option (list Z) :=
  match ty, arg with
  | TY_STRING, VArg (AString s) => Some (string_bytes s)
  | TY_WSTRING, VArg (AWstring ws) => Some (wstring_bytes ws)
  | _, VArg a => scalar_bytes ty a
  | _, _ => None
  end.
Lemma packs_value ty arg bs : value_bytes ty arg = Some bs -> packs (fun pk => pack_value ty pk arg) bs.
Proof.
  intros H pk Hpk Hl. unfold value_bytes, pack_value in *.
  assert (forall a, scalar_bytes ty a = Some bs -> (bs' ← scalar_bytes ty a; copy_bytes pk bs') = Some (pk_add pk bs)) as Hs
    by (intros a ->; cbn [mbind option_bind]; by apply packs_copy).
  destruct arg as [a| | | |]; [|by destruct ty..].
  destruct ty; try (by apply Hs); destruct a; simplify_eq; by (apply packs_string || apply packs_wstring).
Qed.
(** The elements of an array. *)
Definition array_bytes (ty : base_type) (n : Z) (array : vaarg) : option (list Z) :=
  match ty, array with
  | TY_STRING, VStrings l => if n <=? Z.of_nat (length l) then Some (flat_map string_bytes (take (Z.to_nat n) l)) else None
  | TY_WSTRING, VWstrings l => if n <=? Z.of_nat (length l) then Some (flat_map wstring_bytes (take (Z.to_nat n) l)) else None
  | (TY_STRING | TY_WSTRING), _ => None
  | _, VMem mem =>
      let size := Z.max n 0 * type_size ty in
      if size <=? Z.of_nat (length mem) then Some (take (Z.to_nat size) mem) else None
  | _, _ => None
  end.
Lemma packs_elems {A} (pack : packer -> A -> option packer) (bytes : A -> list Z) n : forall l,
  (forall a, packs (fun pk => pack pk a) (bytes a)) -> (n <= length l)%nat ->
  packs (fun pk => pack_elems pack n pk l) (flat_map bytes (take n l)).
Proof.
  induction n as [|n IH]; intros l Hp Hl; [apply packs_nil|]. destruct l as [|a l]; [cbn in Hl; lia|].
  cbn [take flat_map pack_elems]. apply (packs_bind (fun pk => pack pk a)); [done|]. apply IH; [done|cbn in Hl; lia].
Qed.
Lemma packs_memory size n : 0 <= size -> forall mem, Z.of_nat n * size <= Z.of_nat (length mem) ->
  packs (fun pk => pack_memory size n pk mem) (take (Z.to_nat (Z.of_nat n * size)) mem).
Proof.
  intros Hs. induction n as [|n IH]; intros mem Hm; [apply packs_nil|]. cbn [pack_memory].
  rewrite Z.gtb_ltb, (proj2 (Z.ltb_ge _ _)) by nia.
  replace (Z.to_nat (Z.of_nat (S n) * size)) with (Z.to_nat size + Z.to_nat (Z.of_nat n * size))%nat by nia.
  rewrite <- take_take_drop. apply packs_bind; [|apply IH; rewrite length_drop; nia].
  intros pk. pose proof (packs_memcpyex (take (Z.to_nat size) mem) size []) as H. rewrite app_nil_r in H. apply H.
  rewrite length_take. nia.
Qed.
Lemma packs_array ty n array bs : array_bytes ty n array = Some bs -> packs (fun pk => pack_array ty n pk array) bs.
Proof.
  intros H pk Hpk Hl. unfold array_bytes, pack_array in *.
  assert (forall mem, (if Z.max n 0 * type_size ty <=? Z.of_nat (length mem) then
     Some (take (Z.to_nat (Z.max n 0 * type_size ty)) mem) else None) = Some bs ->
     pack_memory (type_size ty) (Z.to_nat n) pk mem = Some (pk_add pk bs)) as Hm.
  { intros mem. destruct (Z.leb_spec (Z.max n 0 * type_size ty) (Z.of_nat (length mem))); [|done]. intros [= <-].
    replace (Z.max n 0) with (Z.of_nat (Z.to_nat n)) in * by lia.
    apply (packs_memory (type_size ty) (Z.to_nat n)); [by destruct ty|done..]. }
  destruct array; try (by destruct ty); [..|by destruct ty; try apply Hm].
  - destruct ty; try done. destruct (Z.leb_spec n (Z.of_nat (length l))); [|done]. simplify_eq. apply packs_elems; [apply packs_string|lia|done..].
  - destruct ty; try done. destruct (Z.leb_spec n (Z.of_nat (length l))); [|done]. simplify_eq. apply packs_elems; [apply packs_wstring|lia|done..].
Qed.

(** ** A format and its arguments *)

(** The bytes of the arguments of a conversion, and the arguments behind them. *)
Definition conv_bytes (pf : evl_parsed_format) (args : list vaarg) : option (list Z * list vaarg) :=
  if fm_array pf then
    match args with
    | array :: VArg (AInt dim) :: VArg (AString delim) :: args =>
        let ty := _evlGetTypeFromConversion pf false true in
        if (0 <=? dim) && (dim <? 2 ^ 31) && negb (type_size ty =? 0) then
          elems ← array_bytes ty dim array; Some (le_encode 4 dim ++ string_bytes delim ++ elems, args)
        else None
    | _ => None
    end
  else
    match _evlGetTypeFromConversion pf true true, args with
    | (TY_NONE | TY_SPECIAL), _ | _, [] => None
    | ty, a :: args => bs ← value_bytes ty a; Some (bs, args)
    end.
Fixpoint args_bytes (l : list evl_parsed_format) (args : list vaarg) : option (list Z * list vaarg) :=
  match l with
  | [] => Some ([], args)
  | pf :: l => '(bs, args) ← conv_bytes pf args; '(rest, args) ← args_bytes l args; Some (bs ++ rest, args)
  end.

Lemma packs_packArray array dim delim ty elems : 0 <= dim < 2 ^ 31 -> type_size ty <> 0 -> array_bytes ty dim array = Some elems ->
  packs (fun pk => packArray pk array dim delim ty) (le_encode 4 dim ++ string_bytes delim ++ elems).
Proof.
  intros Hdim Hsize He. unfold packArray. apply packs_bind; [apply packs_copy|]. apply packs_bind; [apply packs_string|].
  assert (forall mem, array = VMem mem ->
    (if Z.max dim 0 * type_size ty <=? Z.of_nat (length mem) then Some (take (Z.to_nat (Z.max dim 0 * type_size ty)) mem) else None)
      = Some elems ->
    packs (fun pk => if type_size ty =? 0 then None else
      match array with VMem mem => memcpyex pk mem (u64 (dim * type_size ty)) | _ => None end) elems) as Hm.
  { intros mem -> H. assert (0 <= type_size ty <= 16) as Ht by (by destruct ty; vm_compute).
    rewrite (proj2 (Z.eqb_neq _ _)) by done. rewrite Z.max_l in H by lia. destruct (Z.leb_spec (dim * type_size ty) (Z.of_nat (length mem))) as [Hl|]; [|done].
    injection H as <-. rewrite unsigned_id by (unfold in_unsigned; nia).
    intros pk. pose proof (packs_memcpyex (take (Z.to_nat (dim * type_size ty)) mem) (dim * type_size ty) (drop (Z.to_nat (dim * type_size ty)) mem)) as H.
    rewrite take_drop in H. apply H. rewrite length_take. nia. }
  pose proof (packs_array ty dim array elems He) as Ha. unfold array_bytes in He.
  destruct ty; try exact Ha; destruct array as [a| | | |mem]; try done; by apply (Hm mem).
Qed.
Lemma pack_conversion_spec pf args bs rest : conv_bytes pf args = Some (bs, rest) ->
  forall pk, pk_ok pk -> pk_reclen pk + Z.of_nat (length bs) <= POSIX_LOG_ENTRY_MAXLEN ->
  pack_conversion pf pk args = Some (Some (pk_add pk bs, rest)).
Proof.
  unfold conv_bytes, pack_conversion. intros H pk Hpk Hl. destruct (fm_array pf).
  - destruct args as [|array [|[[dim| | | | | | | |]| | | |] [|[[| | | | | | |delim|]| | | |] args']]]; try done.
    destruct (_ && _) eqn:Hc; [|done]. destruct (array_bytes _ dim array) as [elems|] eqn:He; [|done].
    injection H as <- <-. rewrite !andb_true_iff in Hc. destruct Hc as [[? ?] ?].
    rewrite (packs_packArray array dim delim _ elems); [done|zb|zb|done..].
  - destruct (_evlGetTypeFromConversion pf true true); try done;
      (destruct args as [|a args]; [done|]; destruct (value_bytes _ a) as [bs'|] eqn:Hv; [|done]; injection H as <- <-;
       by rewrite (packs_value _ _ _ Hv pk Hpk Hl)).
Qed.
Definition printf_convs (l : list evl_fmt_segment) : Prop := Forall (fun fs => exists pf u b, fs = EVL_FS_PRINTFCONV pf u b) l.
Lemma pack_conversions_app l l2 : forall args bs rest pk, printf_convs l ->
  args_bytes (conversions l) args = Some (bs, rest) -> pk_ok pk ->
  pk_reclen pk + Z.of_nat (length bs) <= POSIX_LOG_ENTRY_MAXLEN ->
  pack_conversions (l ++ l2) pk args = pack_conversions l2 (pk_add pk bs) rest.
Proof.
  induction l as [|fs l IH]; intros args bs rest pk Hl H Hpk Hsz.
  - injection H as <- <-. cbn [app]. f_equal. unfold pk_add. destruct pk. cbn. by rewrite app_nil_r, Z.add_0_r.
  - apply Forall_cons in Hl as [(pf & u & b & ->) Hl]. cbn [conversions omap list_omap conversion_of args_bytes] in H.
    destruct (conv_bytes pf args) as [[bs1 args1]|] eqn:E1; [|done]. cbn [mbind option_bind] in H.
    destruct (args_bytes (omap conversion_of l) args1) as [[bs2 args2]|] eqn:E2; [|done]. injection H as <- <-.
    rewrite length_app in Hsz. cbn [app pack_conversions].
    rewrite (pack_conversion_spec _ _ _ _ E1) by (done || lia). cbn [mbind option_bind].
    rewrite (IH args1 bs2 args2); [|done|done|apply pk_add_ok; [done|lia]|unfold pk_add; cbn [pk_reclen]; lia].
    f_equal. unfold pk_add. cbn. by rewrite length_app, Nat2Z.inj_add, <- app_assoc, Z.add_assoc.
Qed.
(** Without the strings, a format is parsed into conversions only. *)
Lemma parse_false_convs fuel : forall sp l l', printf_convs l -> parse_printf fuel sp l false = Some (Some l') -> printf_convs l'.
Proof.
  induction fuel as [|fuel IH]; intros sp l l' Hl H; [by destruct sp; [injection H as <-|]|].
  destruct sp as [|c sp]; [by injection H as <-|]. cbn [parse_printf] in H.
  destruct (collectConversionSegment _ l false) as [[[sp'|] l1]|] eqn:E; [|done..]. cbn [mbind option_bind] in H.
  apply (IH _ _ _) in H; [done|]. unfold collectConversionSegment in E.
  destruct (skipStringSegment _) as [|d r]; [by injection E as _ <-|].
  destruct (_evlParseFmtConvSpec _) as [[pf|]|]; cbn [mbind option_bind] in E; [|done..]. injection E as _ <-.
  apply Forall_app. split; [done|]. apply Forall_singleton. by eexists _, _, _.
Qed.
Lemma parse_convs format l : _evlParsePrintfFormat format false = Some (Some l) -> printf_convs l.
Proof. apply (parse_false_convs _ _ []). constructor. Qed.

(** The record: the format with its terminator, the size of the arguments, and they. *)
Definition printf_record (format : str) (bs : list Z) : list Z :=
  string_bytes format ++ le_encode 4 (Z.of_nat (length bs)) ++ bs.
Lemma plug_size_spec pk a n b : pk_data pk = a ++ le_encode 4 0 ++ b -> Z.of_nat (length a) <= POSIX_LOG_ENTRY_MAXLEN - 4 ->
  pk_reclen pk - n = Z.of_nat (length b) ->
  plug_size pk (Z.of_nat (length a)) n = Some (mkPack (a ++ le_encode 4 (Z.of_nat (length b)) ++ b) (pk_reclen pk)).
Proof.
  intros E Ha Hn. unfold plug_size. rewrite (proj2 (Z.leb_le _ _)) by done. cbv zeta. rewrite E, Hn.
  rewrite (proj2 (Z.ltb_ge _ _)) by (rewrite !length_app, length_le_encode; lia). rewrite Nat2Z.id, take_app_length.
  rewrite <- drop_drop, drop_app_length. done.
Qed.
(** The buffer once the format and the place for the size are in it. *)
Definition header_packer (format : str) : packer := mkPack (string_bytes format ++ le_encode 4 0) (strlen format + 5).
Lemma pack_header format l args : _evlParsePrintfFormat format false = Some (Some l) ->
  strlen format + 5 <= POSIX_LOG_ENTRY_MAXLEN ->
  pk_ok (header_packer format) /\
  evl_pack_format_and_args (Some format) args [] =
  r ← pack_conversions l (header_packer format) args;
  match r with
  | None => Some (EINVAL, None)
  | Some pk =>
      pk ← plug_size pk (strlen format + 1) (strlen format + 5);
      Some (if pk_reclen pk >? POSIX_LOG_ENTRY_MAXLEN then EMSGSIZE else 0, Some pk)
  end.
Proof.
  intros Hl Hsz. pose proof (string_bytes_length format) as Hs. assert (0 <= strlen format) by (unfold strlen; lia).
  assert (pk_ok (mkPack [] 0)) as H0 by (unfold pk_ok; cbn; lia). unfold evl_pack_format_and_args. rewrite Hl. cbn [mbind option_bind length].
  change (mkPack [] (Z.of_nat 0)) with (mkPack [] 0). rewrite packs_string by (done || (cbn [pk_reclen]; lia)).
  cbn [mbind option_bind]. set (pk1 := pk_add (mkPack [] 0) (string_bytes format)).
  assert (pk_ok pk1) as H1 by (apply pk_add_ok; [done|cbn [pk_reclen]; lia]).
  assert (pk_reclen pk1 = strlen format + 1) as R1 by (unfold pk1, pk_add; cbn [pk_reclen]; lia).
  pose proof (length_le_encode 4 0) as Hz. rewrite packs_copy; [|done|rewrite R1, Hz; lia].
  assert (pk_add pk1 (le_encode 4 0) = header_packer format) as E.
  { unfold pk_add, header_packer. rewrite R1, Hz. unfold pk1, pk_add. cbn [pk_data app]. f_equal. lia. }
  rewrite E. cbn [mbind option_bind]. rewrite R1. split; [|done]. rewrite <- E. apply pk_add_ok; [done|rewrite R1, Hz; lia].
Qed.
(** [printb]'s record, when it fits: it holds the format, then the size of the arguments,
    then the bytes of each argument as its conversion takes it, and nothing else. *)
Theorem printf_record_is_packed format l args bs rest :
  _evlParsePrintfFormat format false = Some (Some l) -> args_bytes (conversions l) args = Some (bs, rest) ->
  Z.of_nat (length (printf_record format bs)) <= POSIX_LOG_ENTRY_MAXLEN ->
  evl_pack_format_and_args (Some format) args [] =
  Some (0, Some (mkPack (printf_record format bs) (Z.of_nat (length (printf_record format bs))))).
Proof.
  intros Hl Hb Hsz. unfold printf_record in *. rewrite !length_app, length_le_encode in *.
  pose proof (string_bytes_length format) as Hs. assert (0 <= strlen format) by (unfold strlen; lia).
  destruct (pack_header format l args Hl) as [Hpk ->]; [lia|].
  pose proof (pack_conversions_app l [] args bs rest _ (parse_convs _ _ Hl) Hb Hpk) as Hc. rewrite app_nil_r in Hc.
  rewrite Hc by (cbn [header_packer pk_reclen]; lia). cbn [pack_conversions mbind option_bind]. rewrite <- Hs.
  rewrite (plug_size_spec _ _ _ bs).
  - cbn [mbind option_bind pk_reclen pk_add header_packer]. rewrite Z.gtb_ltb, (proj2 (Z.ltb_ge _ _)) by lia.
    do 3 f_equal. f_equal. lia.
  - cbn [pk_add header_packer pk_data]. by rewrite <- !app_assoc.
  - lia.
  - cbn [pk_add header_packer pk_reclen]. lia.
Qed.

(** ** A record that does not fit *)

Definition over (f : packer -> option packer) (bs : list Z) : Prop :=
  forall pk, pk_ok pk -> pk_reclen pk <= POSIX_LOG_ENTRY_MAXLEN < pk_reclen pk + Z.of_nat (length bs) ->
    Z.of_nat (length bs) < 2 ^ 31 ->
    exists pk', f pk = Some pk' /\ pk_ok pk' /\ pk_reclen pk' = pk_reclen pk + Z.of_nat (length bs).
Lemma put_full pk bs : pk_ok pk -> pk_reclen pk <= POSIX_LOG_ENTRY_MAXLEN ->
  Z.of_nat (length bs) = POSIX_LOG_ENTRY_MAXLEN - pk_reclen pk -> put pk bs = Some (pk_data pk ++ bs).
Proof. intros. apply put_ok; [done|lia]. Qed.
Lemma over_copy bs : over (fun pk => copy_bytes pk bs) bs.
Proof.
  intros pk Hpk Hr Hb. pose proof Hpk as [Hr' Hd]. unfold copy_bytes, memcpyex. cbv zeta. unfold POSIX_LOG_ENTRY_MAXLEN in *.
  rewrite unsigned_id by (unfold in_unsigned; lia). rewrite !Z.gtb_ltb, (proj2 (Z.ltb_lt 8192 (_ + _))) by lia.
  rewrite (proj2 (Z.ltb_ge 8192 _)) by lia. cbn [andb].
  rewrite (proj2 (Z.ltb_ge _ _)) by lia. rewrite put_full; [|done|unfold POSIX_LOG_ENTRY_MAXLEN; lia|rewrite length_take; unfold POSIX_LOG_ENTRY_MAXLEN; lia].
  eexists. split; [done|]. unfold pk_ok, POSIX_LOG_ENTRY_MAXLEN. cbn [pk_reclen pk_data]. rewrite length_app, length_take. lia.
Qed.
Lemma over_string s : over (fun pk => packString pk s) (string_bytes s).
Proof.
  intros pk Hpk Hr Hb. pose proof Hpk as [Hr' Hd]. pose proof (string_bytes_length s) as Hs.
  assert (0 <= strlen s) by (unfold strlen; lia). unfold packString. cbv zeta. unfold POSIX_LOG_ENTRY_MAXLEN in *.
  rewrite !(unsigned_id 64 (8192 - pk_reclen pk)) by (unfold in_unsigned; lia).
  rewrite signed_id by (unfold in_signed; lia). rewrite !unsigned_id by (unfold in_unsigned; lia).
  rewrite (proj2 (Z.leb_gt _ _)) by lia. rewrite Z.gtb_ltb. destruct (Z.ltb_spec 0 (8192 - pk_reclen pk)).
  - assert (Z.of_nat (length (bytes_of s)) = strlen s) by (rewrite length_bytes_of; done).
    rewrite put_full; [|done|unfold POSIX_LOG_ENTRY_MAXLEN; lia|rewrite length_app, length_take; unfold POSIX_LOG_ENTRY_MAXLEN; cbn; lia].
    eexists. split; [done|]. unfold pk_ok, POSIX_LOG_ENTRY_MAXLEN. cbn [pk_reclen pk_data]. rewrite !length_app, length_take. cbn [length]. lia.
  - eexists. split; [done|]. unfold pk_ok, POSIX_LOG_ENTRY_MAXLEN. cbn [pk_reclen pk_data]. lia.
Qed.
Lemma over_value ty arg bs : value_bytes ty arg = Some bs -> over (fun pk => pack_value ty pk arg) bs.
Proof.
  intros H pk Hpk Hr Hb. unfold value_bytes, pack_value in *.
  assert (forall a, scalar_bytes ty a = Some bs -> exists pk', (bs' ← scalar_bytes ty a; copy_bytes pk bs') = Some pk' /\
    pk_ok pk' /\ pk_reclen pk' = pk_reclen pk + Z.of_nat (length bs)) as Hs
    by (intros a ->; cbn [mbind option_bind]; by apply over_copy).
  destruct arg as [a| | | |]; [|by destruct ty..].
  destruct ty; try (by apply Hs); destruct a; simplify_eq; by (apply over_string || apply over_copy).
Qed.
(** [bytesLeft] is negative, and converted to [size_t] there is room for any string. *)
Lemma negative_room r : 8192 < r < 2 ^ 31 -> u64 (s32 (u64 (8192 - r))) = 2 ^ 64 + 8192 - r.
Proof.
  intros Hr. assert (u64 (8192 - r) = 2 ^ 64 + 8192 - r) as ->.
  { unfold unsigned. rewrite <- (Z.mod_add (8192 - r) 1) by lia. rewrite Z.mod_small; lia. }
  assert (s32 (2 ^ 64 + 8192 - r) = 8192 - r) as ->.
  { unfold signed. replace (2 ^ 64 + 8192 - r + 2 ^ (32 - 1)) with ((8192 - r + 2 ^ 31) + 2 ^ 32 * 2 ^ 32) by lia.
    rewrite Z.mod_add by lia. rewrite Z.mod_small; lia. }
  unfold unsigned. rewrite <- (Z.mod_add (8192 - r) 1) by lia. rewrite Z.mod_small; lia.
Qed.
Lemma string_behind_end pk s : pk_ok pk -> POSIX_LOG_ENTRY_MAXLEN < pk_reclen pk < 2 ^ 31 -> strlen s < 2 ^ 62 -> packString pk s = None.
Proof.
  intros [_ Hd] Hr Hs. unfold packString. cbv zeta. assert (0 <= strlen s) by (unfold strlen; lia). unfold POSIX_LOG_ENTRY_MAXLEN in *.
  rewrite negative_room by lia. rewrite (proj2 (Z.leb_le _ _)) by lia. unfold put, POSIX_LOG_ENTRY_MAXLEN.
  rewrite length_app, length_bytes_of. unfold strlen in *. cbn [length]. rewrite Z.gtb_ltb, (proj2 (Z.ltb_lt _ _)) by lia. done.
Qed.

Lemma conversions_split l l1 pf l2 : printf_convs l -> conversions l = l1 ++ pf :: l2 ->
  exists k1 u b k2, l = k1 ++ EVL_FS_PRINTFCONV pf u b :: k2 /\ conversions k1 = l1 /\ conversions k2 = l2.
Proof.
  intros Hl. revert l1. induction Hl as [|fs l (pf' & u & b & ->) Hl IH]; intros l1 E; [by destruct l1|].
  cbn [conversions omap list_omap conversion_of] in E. destruct l1 as [|pf1 l1]; injection E as -> E.
  - by exists [], u, b, l.
  - destruct (IH l1 E) as (k1 & u' & b' & k2 & -> & <- & <-). by exists (EVL_FS_PRINTFCONV pf1 u b :: k1), u', b', k2.
Qed.
(** A value that crosses the end of the buffer is cut off; but a string that follows it
    is written behind the buffer, which is on the stack of [posix_log_vprintb]. *)
Theorem string_behind_full_record_overruns format l l1 pf1 pf2 l2 args bs1 a1 b1 s rest :
  _evlParsePrintfFormat format false = Some (Some l) -> conversions l = l1 ++ pf1 :: pf2 :: l2 ->
  args_bytes l1 args = Some (bs1, a1 :: VArg (AString s) :: rest) ->
  fm_array pf1 = false -> conv_bytes pf1 (a1 :: VArg (AString s) :: rest) = Some (b1, VArg (AString s) :: rest) ->
  fm_array pf2 = false -> _evlGetTypeFromConversion pf2 true true = TY_STRING ->
  Z.of_nat (length (printf_record format bs1)) <= POSIX_LOG_ENTRY_MAXLEN
    < Z.of_nat (length (printf_record format bs1)) + Z.of_nat (length b1) ->
  Z.of_nat (length b1) < 2 ^ 30 -> strlen s < 2 ^ 62 ->
  evl_pack_format_and_args (Some format) args [] = None.
Proof.
  intros Hl Hc Hb1 Ha1 Hv Ha2 Hty Hsz Hlen Hs. pose proof (parse_convs _ _ Hl) as Hk.
  unfold printf_record in Hsz. rewrite !length_app, length_le_encode in Hsz.
  pose proof (string_bytes_length format) as Hf. assert (0 <= strlen format) by (unfold strlen; lia).
  destruct (pack_header format l args Hl) as [Hpk ->]; [lia|].
  destruct (conversions_split l l1 pf1 (pf2 :: l2) Hk Hc) as (k1 & u1 & w1 & k & -> & <- & Ek).
  apply Forall_app in Hk as [Hk1 Hk]. apply Forall_cons in Hk as [_ Hk].
  destruct (conversions_split k [] pf2 l2 Hk Ek) as (k0 & u2 & w2 & k2 & -> & E0 & _).
  assert (k0 = []) as -> by (apply Forall_app in Hk as [Hk _]; destruct Hk as [|? ? (? & ? & ? & ->) ?]; done). cbn [app].
  rewrite (pack_conversions_app k1 _ args bs1 (a1 :: VArg (AString s) :: rest)); [|done|done|done|cbn [header_packer pk_reclen]; lia].
  set (pk := pk_add (header_packer format) bs1).
  assert (pk_ok pk) as Hok by (apply pk_add_ok; [done|cbn [header_packer pk_reclen]; lia]).
  assert (pk_reclen pk = strlen format + 5 + Z.of_nat (length bs1)) as Hr by done.
  unfold conv_bytes in Hv. rewrite Ha1 in Hv.
  assert (exists pk', pack_conversion pf1 pk (a1 :: VArg (AString s) :: rest) = Some (Some (pk', VArg (AString s) :: rest)) /\
    pk_ok pk' /\ pk_reclen pk' = pk_reclen pk + Z.of_nat (length b1)) as (pk' & Hp1 & Hok' & Hr').
  { unfold pack_conversion. rewrite Ha1.
    destruct (_evlGetTypeFromConversion pf1 true true) eqn:Et; try done;
      (destruct (value_bytes _ a1) eqn:Hb; [|done]; injection Hv as ->;
       destruct (over_value _ a1 b1 Hb pk Hok) as (pk' & E & Hok' & Hr'); [lia|lia|]; exists pk'; by rewrite E). }
  assert (pack_conversion pf2 pk' (VArg (AString s) :: rest) = None) as Hp2.
  { unfold pack_conversion. rewrite Ha2, Hty. cbn [pack_value].
    rewrite string_behind_end; [done|done|unfold POSIX_LOG_ENTRY_MAXLEN in *; lia|done]. }
  cbn [pack_conversions]. rewrite Hp1. cbn [mbind option_bind]. by rewrite Hp2.
Qed.
(** A record whose last value crosses the end is reported as too long. *)
Lemma last_value_too_long format l l1 pf1 args bs1 a1 b1 rest :
  _evlParsePrintfFormat format false = Some (Some l) -> conversions l = l1 ++ [pf1] ->
  args_bytes l1 args = Some (bs1, a1 :: rest) -> fm_array pf1 = false -> conv_bytes pf1 (a1 :: rest) = Some (b1, rest) ->
  Z.of_nat (length (printf_record format bs1)) <= POSIX_LOG_ENTRY_MAXLEN
    < Z.of_nat (length (printf_record format bs1)) + Z.of_nat (length b1) ->
  Z.of_nat (length b1) < 2 ^ 30 ->
  exists pk, evl_pack_format_and_args (Some format) args [] = Some (EMSGSIZE, Some pk) /\
    Z.of_nat (length (pk_data pk)) = POSIX_LOG_ENTRY_MAXLEN.
Proof.
  intros Hl Hc Hb1 Ha1 Hv Hsz Hlen. pose proof (parse_convs _ _ Hl) as Hk.
  unfold printf_record in Hsz. rewrite !length_app, length_le_encode in Hsz.
  pose proof (string_bytes_length format) as Hf. assert (0 <= strlen format) by (unfold strlen; lia).
  destruct (pack_header format l args Hl) as [Hpk ->]; [lia|].
  destruct (conversions_split l l1 pf1 [] Hk Hc) as (k1 & u1 & w1 & k & -> & <- & Ek).
  apply Forall_app in Hk as [Hk1 Hk]. apply Forall_cons in Hk as [_ Hk].
  assert (k = []) as -> by (destruct Hk as [|? ? (? & ? & ? & ->) ?]; done).
  rewrite (pack_conversions_app k1 _ args bs1 (a1 :: rest)); [|done|done|done|cbn [header_packer pk_reclen]; lia].
  set (pk := pk_add (header_packer format) bs1).
  assert (pk_ok pk) as Hok by (apply pk_add_ok; [done|cbn [header_packer pk_reclen]; lia]).
  assert (pk_reclen pk = strlen format + 5 + Z.of_nat (length bs1)) as Hr by done.
  unfold conv_bytes in Hv. rewrite Ha1 in Hv.
  assert (exists pk', pack_conversion pf1 pk (a1 :: rest) = Some (Some (pk', rest)) /\
    pk_ok pk' /\ pk_reclen pk' = pk_reclen pk + Z.of_nat (length b1)) as (pk' & Hp1 & [Hr1 Hd] & Hr').
  { unfold pack_conversion. rewrite Ha1.
    destruct (_evlGetTypeFromConversion pf1 true true) eqn:Et; try done;
      (destruct (value_bytes _ a1) eqn:Hb; [|done]; injection Hv as ->;
       destruct (over_value _ a1 b1 Hb pk Hok) as (pk' & E & Hok' & Hr'); [lia|lia|]; exists pk'; by rewrite E). }
  cbn [pack_conversions]. rewrite Hp1. cbn [mbind option_bind]. unfold plug_size.
  rewrite (proj2 (Z.leb_le _ _)) by lia. cbv zeta. rewrite (proj2 (Z.ltb_ge _ _)) by (unfold POSIX_LOG_ENTRY_MAXLEN in *; lia).
  cbn [mbind option_bind pk_reclen]. rewrite Z.gtb_ltb, (proj2 (Z.ltb_lt _ _)) by lia. eexists. split; [done|].
  cbn [pk_data]. rewrite !length_app, length_take, length_le_encode, length_drop. unfold POSIX_LOG_ENTRY_MAXLEN in *. lia.
Qed.

(** ** [evl_log_write] *)

Fixpoint values_bytes (ty : base_type) (n : nat) (args : list vaarg) : option (list Z * list vaarg) :=
  match n, args with
  | O, _ => Some ([], args)
  | S n, a :: args => bs ← value_bytes ty a; '(rest, args) ← values_bytes ty n args; Some (bs ++ rest, args)
  | S _, [] => None
  end.
(** The bytes of the values behind the names of their types, up to the end marker. *)
Fixpoint attrs_bytes (fuel : nat) (args : list vaarg) : option (list Z) :=
  match fuel, args with
  | _, [] | O, _ => None
  | _, VNull :: _ => Some []
  | S fuel, VArg (AString att_type) :: args =>
      if streqb att_type "endofdata" then Some []
      else
        ti ← parse_att_type att_type;
        if at_array ti then
          match args with
          | VArg (AInt n) :: array :: args => bs ← array_bytes (at_type ti) n array; rest ← attrs_bytes fuel args; Some (bs ++ rest)
          | _ => None
          end
        else '(bs, args) ← values_bytes (at_type ti) (Z.to_nat (at_nelements ti)) args; rest ← attrs_bytes fuel args; Some (bs ++ rest)
  | _, _ => None
  end.
Lemma pack_values_spec ty n : forall args bs rest pk, values_bytes ty n args = Some (bs, rest) -> pk_ok pk ->
  pk_reclen pk + Z.of_nat (length bs) <= POSIX_LOG_ENTRY_MAXLEN -> pack_values ty n pk args = Some (pk_add pk bs, rest).
Proof.
  induction n as [|n IH]; intros args bs rest pk H Hpk Hsz.
  - cbn in H. injection H as <- <-. unfold pk_add. destruct pk. cbn. by rewrite app_nil_r, Z.add_0_r.
  - destruct args as [|a args]; [done|]. cbn [values_bytes] in H.
    destruct (value_bytes ty a) as [b1|] eqn:E1; [|done]. cbn [mbind option_bind] in H.
    destruct (values_bytes ty n args) as [[b2 r2]|] eqn:E2; [|done]. injection H as <- <-. rewrite length_app in Hsz.
    cbn [pack_values]. rewrite (packs_value _ _ _ E1) by (done || lia). cbn [mbind option_bind].
    rewrite (IH args b2 r2); [|done|apply pk_add_ok; [done|lia]|unfold pk_add; cbn [pk_reclen]; lia].
    unfold pk_add. cbn. by rewrite length_app, Nat2Z.inj_add, <- app_assoc, Z.add_assoc.
Qed.
Lemma pk_add_add pk a b : pk_add (pk_add pk a) b = pk_add pk (a ++ b).
Proof. unfold pk_add. cbn. by rewrite length_app, Nat2Z.inj_add, <- app_assoc, Z.add_assoc. Qed.
Lemma copy_attrs_spec fuel : forall args bs pk, attrs_bytes fuel args = Some bs -> pk_ok pk ->
  pk_reclen pk + Z.of_nat (length bs) <= POSIX_LOG_ENTRY_MAXLEN -> copy_attrs fuel args pk = Some (Some (pk_add pk bs)).
Proof.
  assert (forall pk, pk_add pk [] = pk) as Hnil by (intros []; unfold pk_add; cbn; by rewrite app_nil_r, Z.add_0_r).
  induction fuel as [|fuel IH]; intros args bs pk H Hpk Hsz.
  - by destruct args as [|[[]| | | |] args].
  - destruct args as [|[[| | | | | | |att_type|]| | | |] args]; try done; cbn [attrs_bytes copy_attrs] in *.
    2: { injection H as <-. by rewrite Hnil. }
    destruct (streqb att_type "endofdata"); [injection H as <-; by rewrite Hnil|].
    destruct (parse_att_type att_type) as [ti|]; [|done]. cbn [mbind option_bind] in H. destruct (at_array ti).
    + destruct args as [|[[n| | | | | | | |]| | | |] [|array args]]; try done.
      destruct (array_bytes _ n array) as [b1|] eqn:E1; [|done]. cbn [mbind option_bind] in H.
      destruct (attrs_bytes fuel args) as [b2|] eqn:E2; [|done]. injection H as <-. rewrite length_app in Hsz.
      rewrite (packs_array _ _ _ _ E1) by (done || lia). cbn [mbind option_bind].
      rewrite (IH args b2); [by rewrite pk_add_add|done|apply pk_add_ok; [done|lia]|unfold pk_add; cbn [pk_reclen]; lia].
    + destruct (values_bytes _ _ args) as [[b1 r1]|] eqn:E1; [|done]. cbn [mbind option_bind] in H.
      destruct (attrs_bytes fuel r1) as [b2|] eqn:E2; [|done]. injection H as <-. rewrite length_app in Hsz.
      rewrite (pack_values_spec _ _ _ _ _ _ E1) by (done || lia). cbn [mbind option_bind].
      rewrite (IH r1 b2); [by rewrite pk_add_add|done|apply pk_add_ok; [done|lia]|unfold pk_add; cbn [pk_reclen]; lia].
Qed.
(** The record of [evl_log_write], when it fits: the values, each as its type's bytes. *)
Theorem attributes_are_packed args bs : attrs_bytes (length args) args = Some bs ->
  Z.of_nat (length bs) <= POSIX_LOG_ENTRY_MAXLEN ->
  copy_attr_data args = Some (Some (mkPack bs (Z.of_nat (length bs)))).
Proof.
  intros H Hsz. unfold copy_attr_data. rewrite (copy_attrs_spec _ _ _ (mkPack [] 0) H); [done|unfold pk_ok; cbn; lia|done].
Qed.

(** ** Instances *)

Lemma printf_record_is_packed_witness :
  let args := [VArg (AInt (-2)); VMem [1;0;2;0]; VArg (AInt 2); VArg (AString "/"); VArg (AString "ok")] in
  let bs := [254;255;255;255; 2;0;0;0; 47;0; 1;0;2;0; 111;107;0] in
  evl_pack_format_and_args (Some "uid %d at %[hd: %s"%string) args [] =
  Some (0, Some (mkPack (printf_record "uid %d at %[hd: %s" bs) (Z.of_nat (length (printf_record "uid %d at %[hd: %s" bs))))).
Proof.
  eapply (printf_record_is_packed "uid %d at %[hd: %s"); [vm_compute; reflexivity|vm_compute; reflexivity|vm_compute; discriminate].
Defined.
Definition long_string : str := fill 8186 "a"%char.
Lemma string_behind_full_record_overruns_witness :
  evl_pack_format_and_args (Some "%s%s"%string) [VArg (AString long_string); VArg (AString "!")] [] = None.
Proof.
  set (pf := mkConv "" 0 0 "" "s" 1 false).
  eapply (string_behind_full_record_overruns "%s%s" _ [] pf pf [] _ [] _ (string_bytes long_string) "!" []);
    [reflexivity..|vm_compute; split; [discriminate|reflexivity]|vm_compute; reflexivity|vm_compute; reflexivity].
Defined.
Lemma attributes_are_packed_witness :
  let args := [VArg (AString "2*short"); VArg (AInt 1); VArg (AInt 258); VArg (AString "string[]"); VArg (AInt 2);
               VStrings ["a"; "bc"]; VNull] in
  copy_attr_data args = Some (Some (mkPack [1;0; 2;1; 97;0; 98;99;0] 9)).
Proof. apply (attributes_are_packed _ [1;0; 2;1; 97;0; 98;99;0]); [vm_compute; reflexivity|vm_compute; discriminate]. Defined.
