(* ===== verification/FormatRec.v ===== *)
(** * Formatting records ([lib/formatrec.c], [lib/template/tmplfmt.c])

    A record as text: its fixed part as a list of attributes, its optional part by its
    format, and both by a format that the caller gives.  The text goes to a buffer of
    the caller, who learns how large it ought to be.  The templates of event types are the template
    library's ([TmplFormat]).  [None] is undefined behaviour or a failed assertion. *)
From S2P Require Import Prelude NvPairs LogRecord Hosts MemStr QEvaluate Format CPrintf Dump FmtBuf RecPack.

Definition EBADMSG : Z := 74.
Definition EVL_COMPACT : Z := 1.
Definition MAXSEPLEN : Z := 20.

(** ** The fixed part *)

Section Fixed.
Context `{HostLib}.
Definition nodeId_host (entry : posix_log_entry) : str := _evlGetHostNameEx hosts (Z.shiftr (log_processor entry) 16).
(** The characters of [attr]. *)
Definition attr_size : Z := 18 + POSIX_LOG_MEMSTR_MAXLEN + MAXSEPLEN.
(** The text of one attribute, or the status of an error; [None]: the separator is a null pointer
    where one is needed, or the text overflows [attr]. *)
Definition attr_text (entry : posix_log_entry) (memberSelector : Z) (memberName : str) (separator : option str)
    (compact lastAttr : bool) : option (Z + str) :=
  let proc := memberSelector =? POSIX_LOG_ENTRY_PROCESSOR in
  let rechdr := if proc then
      mkEntry (log_magic entry) (log_recid entry) (log_size entry) (log_format entry) (log_event_type entry)
        (log_facility entry) (log_severity entry) (log_uid entry) (log_gid entry) (log_pid entry) (log_pgrp entry)
        (log_time_sec entry) (log_time_nsec entry) (log_flags entry) (log_thread entry) (Z.land (log_processor entry) 0xffff)
    else entry in
  match posix_log_memtostr memberSelector rechdr POSIX_LOG_MEMSTR_MAXLEN with
  | inl status => Some (inl status)
  | inr val =>
      host ← (if proc then sep ← separator; Some (sep ++ (if compact then "" else "host=") ++ nodeId_host entry)%string
              else Some EmptyString);
      let attr := ((if compact then "" else memberName ++ "=") ++ val ++ host ++
                   match separator with Some sep => if lastAttr then "" else sep | None => "" end)%string in
      if strlen attr + 1 >? attr_size then None else Some (inr attr)
  end.
(** [*totalSize], [*curLineLen] and the string in [buf]. *)
Definition fixed_state : Type := Z * Z * str.
(** A status and the new state; [buf] says that the caller's buffer is there. *)
Definition addAttr (entry : posix_log_entry) (memberSelector : Z) (memberName : str) (buf : bool) (buflen : Z)
    (separator : option str) (maxLineLen fmtFlags : Z) (st : fixed_state) (lastAttr : bool) : option (Z * fixed_state) :=
  let '(totalSize, curLineLen, text) := st in
  r ← attr_text entry memberSelector memberName separator (negb (Z.land fmtFlags EVL_COMPACT =? 0)) lastAttr;
  match r with
  | inl status => Some (status, st)
  | inr attr =>
      let attrLen := strlen attr in
      let newline := match separator with Some sep => is_letter NEWLINE sep | None => false end in
      let needNewLine := negb newline && negb (maxLineLen =? 0) && (curLineLen >? 0) && (curLineLen + attrLen >? maxLineLen) in
      let curLineLen := if needNewLine then attrLen else curLineLen + attrLen in
      let totalSize := totalSize + b2z needNewLine + attrLen in
      if totalSize + 1 >? buflen then Some (EMSGSIZE, (totalSize, curLineLen, text))
      else if negb buf then None
      else Some (0, (totalSize, curLineLen, (text ++ (if needNewLine then String NEWLINE "" else "") ++ attr)%string))
  end.
(** A status, [*reqlen] and the string in the buffer. *)
Definition fixed_result : Type := Z * Z * str.
Fixpoint add_attrs (attrs : list _evlNvPair) (entry : posix_log_entry) (buf : bool) (buflen : Z) (reqlen : bool)
    (separator : option str) (linelen fmt_flags : Z) (status : Z) (st : fixed_state) : option fixed_result :=
  match attrs with
  | [] => Some (status, if reqlen then fst (fst st) + 1 else 0, snd st)
  | nv :: attrs =>
      let lastAttr := match attrs with [] => true | _ => false end in
      '(result, st) ← addAttr entry (nv_value nv) (nv_name nv) buf buflen separator linelen fmt_flags st lastAttr;
      if result =? 0 then add_attrs attrs entry buf buflen reqlen separator linelen fmt_flags status st
      else if negb reqlen || negb (result =? EMSGSIZE) then Some (result, 0, snd st)
      else add_attrs attrs entry buf buflen reqlen separator linelen fmt_flags result st
  end.
Definition evl_format_evrec_fixed (entry : option posix_log_entry) (buf : bool) (buflen : Z) (reqlen : bool)
    (separator : option str) (linelen fmt_flags : Z) : option fixed_result :=
  match entry with
  | None => Some (EINVAL, 0, EmptyString)
  | Some entry =>
      if negb (fmt_flags =? 0) && negb (fmt_flags =? EVL_COMPACT) then Some (EINVAL, 0, EmptyString)
      else if match separator with Some sep => strlen sep >? MAXSEPLEN | None => false end then Some (EINVAL, 0, EmptyString)
      else
        let usable := buf && negb (buflen =? 0) in
        if negb usable && negb reqlen then Some (EINVAL, 0, EmptyString)
        else add_attrs _evlAttributes entry buf buflen reqlen separator linelen fmt_flags (if usable then 0 else EINVAL) (0, 0, EmptyString)
  end.
End Fixed.

(** ** Records with a format *)

(** [recbuf_t]: what is left of the record. *)
Definition collectBytes (b : list Z) (nbytes : Z) : option (list Z) * list Z :=
  if Z.of_nat (length b) <? nbytes then (None, []) else (Some (take (Z.to_nat nbytes) b), drop (Z.to_nat nbytes) b).
Fixpoint collectString (b : list Z) : option str * list Z :=
  match b with
  | [] => (None, [])
  | c :: b => if c =? 0 then (Some EmptyString, b) else let '(s, b) := collectString b in (String (of_chr c) <$> s, b)
  end.
Fixpoint collectWstring (fuel : nat) (b : list Z) : option (list Z) * list Z :=
  match fuel with
  | O => (None, b)
  | S fuel =>
      match collectBytes b 4 with
      | (None, b) => (None, b)
      | (Some wc, b) =>
          if le_decode wc =? 0 then (Some [], b)
          else let '(ws, b) := collectWstring fuel b in (cons (s32 (le_decode wc)) <$> ws, b)
      end
  end.
Fixpoint squeeze (fmt : str) : str :=
  match fmt with
  | EmptyString => EmptyString
  | String c fmt => if Ascii.eqb c "["%char then squeeze fmt else String c (squeeze fmt)
  end.
(** The value of a scalar type, as it is passed to [_evlBprintf]. *)
Definition scalar_arg (ty : base_type) (bs : list Z) : option carg :=
  let z := le_decode bs in
  match ty with
  | TY_CHAR | TY_UCHAR => Some (AInt (s8 z))
  | TY_SHORT => Some (AInt (s16 z))
  | TY_INT => Some (AInt (s32 z))
  | TY_LONG => Some (ALong (s64 z))
  | TY_LONGLONG => Some (ALonglong (s64 z))
  | TY_DOUBLE => Some (ADouble bs)
  | TY_LDOUBLE => Some (ALdouble bs)
  | TY_ADDRESS => Some (AAddress z)
  | TY_WCHAR => Some (AWchar (s32 z))
  | _ => None
  end.
(** The next value of a type; [inl] ends the conversion with a status. *)
Definition collect_value (ty : base_type) (b : list Z) : option (Z * list Z + carg * list Z) :=
  match ty with
  | TY_NONE => Some (inl (EBADMSG, b))
  | TY_SPECIAL => Some (inl (0, b))
  | TY_STRING => match collectString b with (Some s, b) => Some (inr (AString s, b)) | (None, b) => Some (inl (0, b)) end
  | TY_WSTRING =>
      match collectWstring (S (length b)) b with (Some ws, b) => Some (inr (AWstring ws, b)) | (None, b) => Some (inl (0, b)) end
  | _ =>
      match collectBytes b (type_size ty) with
      | (Some bs, b) => arg ← scalar_arg ty bs; Some (inr (arg, b))
      | (None, b) => Some (inl (0, b))
      end
  end.

Section Printf.
Context `{TextOfReal}.
Fixpoint format_values (n : nat) (first : bool) (f : evl_fmt_buf) (fmt delim : str) (ty : base_type) (b : list Z)
  : option (Z * evl_fmt_buf * list Z) :=
  match n with
  | O => Some (0, f, b)
  | S n =>
      f ← if first then Some f else _evlBprintf f (vsnprintf "%s" (AString delim));
      r ← collect_value ty b;
      match r with
      | inl (status, b) => Some (status, f, b)
      | inr (arg, b) => f ← _evlBprintf f (vsnprintf fmt arg); format_values n false f fmt delim ty b
      end
  end.
Definition formatConversion (f : evl_fmt_buf) (pf : evl_parsed_format) (fmt : str) (b : list Z)
  : option (Z * evl_fmt_buf * list Z) :=
  if fm_array pf then
    match collectBytes b 4 with
    | (None, b) => Some (0, f, b)
    | (Some dim, b) =>
        match collectString b with
        | (None, b) => Some (0, f, b)
        | (Some delim, b) =>
            if strlen fmt <? 20 then
              format_values (Z.to_nat (s32 (le_decode dim))) true f (squeeze fmt) delim (_evlGetTypeFromConversion pf false true) b
            else None
        end
    end
  else format_values 1 true f fmt EmptyString (_evlGetTypeFromConversion pf true true) b.
Fixpoint format_segments (l : list evl_fmt_segment) (f : evl_fmt_buf) (b : list Z) : option (Z * evl_fmt_buf) :=
  match l with
  | [] => Some (0, f)
  | EVL_FS_STRING s :: l => f ← _evlBprintf f (vsnprintf "%s" (AString s)); format_segments l f b
  | EVL_FS_PRINTFCONV pf fmt _ :: l =>
      match b with
      | [] => format_segments l f b
      | _ =>
          '(status, f, b) ← formatConversion f pf (default EmptyString fmt) b;
          if status =? 0 then format_segments l f b else Some (status, f)
      end
  | _ => None
  end.
(** [s] from the start of a line ([true]), or from the middle of one. *)
Fixpoint elide (start : bool) (s : str) : str :=
  match s with
  | EmptyString => EmptyString
  | String c s' =>
      let copy := String c (elide (Ascii.eqb c NEWLINE) s') in
      match s' with
      | String d (String e s'') =>
          if start && Ascii.eqb c "<"%char && (48 <=? chr d) && (chr d <=? 55) && Ascii.eqb e ">"%char then elide false s''
          else copy
      | _ => copy
      end
  end.
Definition elidePrintkSeverities (s : str) : str := elide true s.
(** The string of the buffer without its last newline and without severities, in place. *)
Definition printk_adjust (mem : list Z) (myreqlen : Z) : list Z :=
  let mem := if (myreqlen >? 1) && bool_decide (mem !! Z.to_nat (myreqlen - 2) = Some 10)
             then <[Z.to_nat (myreqlen - 2) := 0]> mem else mem in
  let s := elidePrintkSeverities (cstring mem) in
  bytes_of s ++ 0 :: drop (S (String.length s)) mem.
(** A status, [*reqlen] and the caller's memory. *)
Record formatted := mkFmt { o_status : Z; o_reqlen : Z; o_buf : option (list Z) }.
Definition _evlFormatPrintfRec (data : option (list Z)) (buf : option (list Z)) (printk : bool) : option formatted :=
  match data with
  | None | Some [] => Some (mkFmt EINVAL 0 buf)
  | Some data =>
      match collectString data with
      | (None, _) => Some (mkFmt EBADMSG 0 buf)
      | (Some format, b) =>
          let b := drop 4 b in
          parsed ← _evlParsePrintfFormat format true;
          match parsed with
          | None => Some (mkFmt EBADMSG 0 buf)
          | Some l =>
              '(status, f) ← format_segments l (_evlMakeFmtBuf buf) b;
              let out mem := match buf with Some (_ :: _) => Some mem | _ => buf end in
              if negb (status =? 0) then Some (mkFmt status 0 (out (fb_buf f)))
              else
                let myreqlen := 1 + fb_next f in
                if fb_oflow f then Some (mkFmt (match buf with Some _ => EMSGSIZE | None => EINVAL end) myreqlen (out (fb_buf f)))
                else if printk then
                  let mem := printk_adjust (fb_buf f) myreqlen in
                  Some (mkFmt 0 (strlen (cstring mem) + 1) (out mem))
                else Some (mkFmt 0 myreqlen (out (fb_buf f)))
          end
      end
  end.
End Printf.

(** ** Records by a format of attributes *)

(** A format in a template is a list of references to its attributes; how it and they are
    formatted is the template library's. *)
Class TmplFormat `{TemplateLib} := {
  formatRecordFromTemplate : tmpl -> evl_fmt_buf -> option evl_fmt_buf;
  _evlFormatTmplAttribute : tmpl -> attref -> option str -> evl_fmt_buf -> option evl_fmt_buf
}.
(** The C string at the start of a block; reading behind the block is [None]. *)
Definition block_string (data : list Z) : option str := if bool_decide (0 ∈ data) then Some (cstring data) else None.
Definition is_long_member (member : Z) : bool :=
  (member =? POSIX_LOG_ENTRY_SIZE) || (member =? POSIX_LOG_ENTRY_TIME) || (member =? POSIX_LOG_ENTRY_THREAD).
Definition writes_count (fmt : str) : bool := match parse_directive fmt with Some d => is_letter (d_letter d) "n" | None => false end.

Section Special.
Context `{HostLib, TextOfReal, TmplFormat}.

(** A format without a conversion is printed as it is; [%n] writes through the argument. *)
Definition bprintf_user (f : evl_fmt_buf) (fmt : str) (arg : carg) : option evl_fmt_buf :=
  match fmt with
  | String c _ =>
      if Ascii.eqb c PERCENT then if writes_count fmt then None else _evlBprintf f (vsnprintf fmt arg)
      else _evlBprintf f (Some fmt)
  | EmptyString => _evlBprintf f (Some fmt)
  end.
(** The record in [data] is formatted at [fb_next]; the status is of no use to the caller. *)
Definition formatPrintfRecIntoFmtBuf (data : option (list Z)) (f : evl_fmt_buf) (printk : bool) : option evl_fmt_buf :=
  let bufRemainder := fb_end f - fb_next f in
  if bufRemainder <=? 0 then Some f
  else if fb_next f <? 0 then None
  else
    r ← _evlFormatPrintfRec data (Some (drop (Z.to_nat (fb_next f)) (fb_buf f))) printk;
    let mem := take (Z.to_nat (fb_next f)) (fb_buf f) ++ default [] (o_buf r) in
    let next := fb_next f + o_reqlen r - 1 in
    Some (mkFmtBuf mem next (next >=? Z.of_nat (length mem))).
Definition format_data (entry : posix_log_entry) (evBuf : option (list Z)) (t : option tmpl) (f : evl_fmt_buf) : option evl_fmt_buf :=
  match t with
  | Some t => formatRecordFromTemplate t f
  | None =>
      if log_format entry =? POSIX_LOG_STRING then data ← evBuf; s ← block_string data; _evlBprintf f (vsnprintf "%s" (AString s))
      else if log_format entry =? POSIX_LOG_BINARY then _evlDumpBytesToFmtBuf evBuf (log_size entry) f
      else if log_format entry =? POSIX_LOG_PRINTF then
        formatPrintfRecIntoFmtBuf (take (Z.to_nat (log_size entry)) <$> evBuf) f (negb (Z.land (log_flags entry) EVL_PRINTK =? 0))
      else Some f
  end.
Definition format_member (entry : posix_log_entry) (member : Z) (userfmt : option str) (stringfmt : bool) (f : evl_fmt_buf)
  : option evl_fmt_buf :=
  let memstr := match posix_log_memtostr member entry POSIX_LOG_MEMSTR_MAXLEN with inl _ => None | inr s => Some s end in
  match userfmt with
  | None => s ← memstr; _evlBprintf f (vsnprintf "%s" (AString s))
  | Some fmt =>
      if stringfmt then s ← memstr; bprintf_user f fmt (AString s)
      else v ← _evlSprintfMember member entry; bprintf_user f fmt (if is_long_member member then ALong v else AInt v)
  end.
Definition format_attname (entry : posix_log_entry) (t : option tmpl) (attname : str) (userfmt : option str) (f : evl_fmt_buf)
  : option evl_fmt_buf :=
  match t ≫= (fun t => pair t <$> evltemplate_getatt t attname) with
  | Some (t, att) => _evlFormatTmplAttribute t att userfmt f
  | None => if streqb attname "host" then _evlBprintf f (vsnprintf "%s" (AString (nodeId_host entry))) else Some f
  end.
Fixpoint format_all (entry : posix_log_entry) (evBuf : option (list Z)) (t : option tmpl) (l : list evl_fmt_segment) (f : evl_fmt_buf)
  : option evl_fmt_buf :=
  match l with
  | [] => Some f
  | fs :: l =>
      f ← match fs with
          | EVL_FS_STRING s => _evlBprintf f (vsnprintf "%s" (AString s))
          | EVL_FS_MEMBER m userfmt stringfmt =>
              if m =? POSIX_LOG_ENTRY_DATA then format_data entry evBuf t f else format_member entry m userfmt stringfmt f
          | EVL_FS_ATTNAME name userfmt _ => format_attname entry t name userfmt f
          | _ => Some f
          end;
      format_all entry evBuf t l f
  end.
Definition formatRecord (entry : posix_log_entry) (evBuf : option (list Z)) (t : option tmpl) (l : list evl_fmt_segment) (f : evl_fmt_buf)
  : option (Z * evl_fmt_buf) :=
  match l with
  | [] => None
  | _ => f ← format_all entry evBuf t l f; Some (if fb_oflow f then EMSGSIZE else 0, f)
  end.
Definition caller_buf (buf : option (list Z)) (f : evl_fmt_buf) : option (list Z) :=
  match buf with Some (_ :: _) => Some (fb_buf f) | _ => buf end.
Definition _evlSpecialFormatEvrec (entry : posix_log_entry) (evBuf : option (list Z)) (t : option tmpl) (l : list evl_fmt_segment)
    (fmtBuf : option (list Z)) : option formatted :=
  '(status, f) ← formatRecord entry evBuf t l (_evlMakeFmtBuf fmtBuf);
  Some (mkFmt status (fb_next f) (caller_buf fmtBuf f)).

(** A template for the record, with the record's data in it. *)
Definition getPopulatedTemplate (entry : posix_log_entry) (buf : option (list Z)) : option (option tmpl) :=
  let data := default [] buf in
  match evl_gettemplate entry data with
  | None => Some None
  | Some t => t ← evl_populatetemplate t entry data; Some (Some t)
  end.
Definition special_by_template (t : tmpl) (buf : option (list Z)) : option formatted :=
  f ← formatRecordFromTemplate t (_evlMakeFmtBuf buf);
  Some (mkFmt (if fb_oflow f then EMSGSIZE else 0) (fb_next f) (caller_buf buf f)).
(** Puts a string in the caller's buffer; a buffer that is not there or too small is [None]. *)
Definition strcpy_buf (buf : option (list Z)) (s : str) : option (list Z) :=
  mem ← buf; poke mem 0 (bytes_of s ++ [0]).
Definition buflen (buf : option (list Z)) : Z := Z.of_nat (length (default [] buf)).
Definition evl_format_evrec_variable (entry : option posix_log_entry) (var_buf : option (list Z)) (buf : option (list Z)) : option formatted :=
  match entry with
  | None => Some (mkFmt EINVAL 0 buf)
  | Some entry =>
      t ← getPopulatedTemplate entry var_buf;
      match t with
      | Some t => special_by_template t buf
      | None =>
          if log_format entry =? POSIX_LOG_NODATA then
            if buflen buf <? 1 then Some (mkFmt EMSGSIZE 1 buf) else mem ← strcpy_buf buf EmptyString; Some (mkFmt 0 1 (Some mem))
          else if log_format entry =? POSIX_LOG_STRING then
            if buflen buf <? log_size entry then Some (mkFmt EMSGSIZE (log_size entry) buf)
            else data ← var_buf; s ← block_string data; mem ← strcpy_buf buf s; Some (mkFmt 0 (log_size entry) (Some mem))
          else if log_format entry =? POSIX_LOG_BINARY then
            '(status, reqlen, text) ← _evlDumpBytes var_buf (log_size entry) (match buf with Some _ => true | None => false end) (buflen buf);
            match text with
            | Some s => mem ← strcpy_buf buf s; Some (mkFmt status reqlen (Some mem))
            | None => Some (mkFmt status reqlen buf)
            end
          else if log_format entry =? POSIX_LOG_PRINTF then
            _evlFormatPrintfRec (take (Z.to_nat (log_size entry)) <$> var_buf) buf (negb (Z.land (log_flags entry) EVL_PRINTK =? 0))
          else Some (mkFmt EINVAL 0 buf)
      end
  end.

Definition attnames (l : list evl_fmt_segment) : list str :=
  omap (fun fs => match fs with EVL_FS_ATTNAME name _ _ => Some name | _ => None end) l.
Definition evl_format_evrec_sprintf (entry : option posix_log_entry) (var_buf : option (list Z)) (format : option str)
    (buf : option (list Z)) : option formatted :=
  match entry, format with
  | Some entry, Some format =>
      parsed ← _evlParseFormat format true;
      match parsed with
      | inl _ => Some (mkFmt EBADMSG 0 buf)
      | inr l =>
          let finish r := mkFmt (match buf with Some _ => o_status r | None => EINVAL end) (o_reqlen r) (o_buf r) in
          match attnames l with
          | [] => finish <$> _evlSpecialFormatEvrec entry var_buf None l buf
          | names =>
              t ← getPopulatedTemplate entry var_buf;
              match t with
              | None => Some (mkFmt EBADMSG 0 buf)
              | Some t =>
                  if forallb (fun name => bool_decide (is_Some (evltemplate_getatt t name))) names
                  then finish <$> _evlSpecialFormatEvrec entry var_buf (Some t) l buf
                  else Some (mkFmt EBADMSG 0 buf)
              end
          end
      end
  | _, _ => Some (mkFmt EINVAL 0 buf)
  end.
Definition evl_atttostr (attribute : option str) (entry : option posix_log_entry) (var_buf : option (list Z)) (buf : option (list Z))
  : option formatted :=
  match attribute, entry with
  | Some attribute, Some entry =>
      let member := _evlGetValueByName _evlAttributes attribute (-1) in
      if negb (member =? -1) then
        match posix_log_memtostr member entry POSIX_LOG_MEMSTR_MAXLEN with
        | inl _ => None
        | inr s =>
            let myreqlen := strlen s + 1 in
            match buf with
            | None => Some (mkFmt EINVAL myreqlen buf)
            | Some mem =>
                if Z.of_nat (length mem) <? myreqlen then Some (mkFmt EMSGSIZE myreqlen buf)
                else mem ← strcpy_buf buf s; Some (mkFmt 0 myreqlen (Some mem))
            end
        end
      else
        r ← evl_format_evrec_sprintf (Some entry) var_buf (Some (String PERCENT (attribute ++ String PERCENT ""))%string) buf;
        Some (mkFmt (if o_status r =? EBADMSG then EINVAL else o_status r) (o_reqlen r) (o_buf r))
  | _, _ => Some (mkFmt EINVAL 0 buf)
  end.
End Special.
