(* ===== verification/PackFormat.v ===== *)
(** * A packed record is formatted as [printf] would have done it

    What [printb] packs, the functions that display records format with the record's own format: the text is
    that of [printf] for the same format and arguments, array conversions included. *)
From S2P Require Import Prelude NvPairs LogRecord QEvaluate FacNames Format FormatCorrect CPrintf Dump FmtBuf RecPack RecPackCorrect FormatRec.

(** ** Values come back *)

(** An argument has a value of its C type. *)
Definition arg_ok (a : carg) : Prop :=
  match a with
  | AInt z | AWchar z => in_signed 32 z
  | ALong z | ALonglong z => in_signed 64 z
  | AAddress z => in_unsigned 64 z
  | ADouble bs => length bs = 8%nat
  | ALdouble bs => length bs = 16%nat
  | AString s => no_nul s = true
  | AWstring ws => Forall (fun w => in_signed 32 w /\ w <> 0) ws
  end.
Definition vaarg_ok (a : vaarg) : Prop :=
  match a with
  | VArg a => arg_ok a
  | VNull | VMem _ => True
  | VStrings l => Forall (fun s => no_nul s = true) l
  | VWstrings l => Forall (fun ws => arg_ok (AWstring ws)) l
  end.

Lemma collectBytes_app a b n : Z.of_nat (length a) = n -> collectBytes (a ++ b) n = (Some a, b).
Proof.
  intros <-. unfold collectBytes. rewrite length_app, (proj2 (Z.ltb_ge _ _)) by lia.
  by rewrite Nat2Z.id, take_app_length, drop_app_length.
Qed.
Lemma collectString_app s rest : no_nul s = true -> collectString (string_bytes s ++ rest) = (Some s, rest).
Proof.
  unfold string_bytes. rewrite <- app_assoc. cbn [app]. induction s as [|c s IH]; [done|]. cbn [no_nul bytes_of app collectString].
  intros [Hc Hs]%andb_true_iff. apply negb_true_iff in Hc. rewrite Hc, IH by done. cbn. by rewrite of_chr_chr.
Qed.
Lemma s32_decode z : in_signed 32 z -> s32 (le_decode (le_encode 4 z)) = z.
Proof.
  intros Hz. rewrite le_decode_encode. change (256 ^ Z.of_nat 4) with (2 ^ 32). fold (u32 z).
  rewrite signed_unsigned by lia. apply signed_id; [lia|done].
Qed.
Lemma s64_decode z : in_signed 64 z -> s64 (le_decode (le_encode 8 z)) = z.
Proof.
  intros Hz. rewrite le_decode_encode. change (256 ^ Z.of_nat 8) with (2 ^ 64). fold (u64 z).
  rewrite signed_unsigned by lia. apply signed_id; [lia|done].
Qed.
Lemma decode_zero z : in_signed 32 z -> (le_decode (le_encode 4 z) =? 0) = (z =? 0).
Proof.
  intros Hz. rewrite le_decode_encode. change (256 ^ Z.of_nat 4) with (2 ^ 32). unfold in_signed in Hz.
  destruct (Z.eqb_spec z 0) as [->|Hne]; [done|]. apply Z.eqb_neq. intros E. apply Z.mod_divide in E as [k Hk]; lia.
Qed.
Lemma collectWstring_app ws rest fuel : Forall (fun w => in_signed 32 w /\ w <> 0) ws -> (length ws < fuel)%nat ->
  collectWstring fuel (wstring_bytes ws ++ rest) = (Some ws, rest).
Proof.
  unfold wstring_bytes. revert fuel. induction ws as [|w ws IH]; intros fuel Hws Hf; (destruct fuel as [|fuel]; [cbn in Hf; lia|]);
    cbn [app flat_map collectWstring]; rewrite <- app_assoc, collectBytes_app by (by rewrite length_le_encode).
  - rewrite decode_zero by (unfold in_signed; lia). done.
  - apply Forall_cons in Hws as [[Hw Hne] Hws]. rewrite decode_zero by done. rewrite (proj2 (Z.eqb_neq _ _)) by done.
    rewrite IH by (done || (cbn in Hf; lia)). cbn [fmap option_fmap option_map]. by rewrite s32_decode.
Qed.
Lemma wstring_longer ws rest : (length ws < S (length (wstring_bytes ws ++ rest)))%nat.
Proof.
  rewrite length_app. unfold wstring_bytes. assert (forall l, length l <= length (flat_map (le_encode 4) l))%nat as H.
  { induction l as [|w l IH]; [done|]. cbn [flat_map length]. rewrite length_app, length_le_encode. lia. }
  specialize (H (ws ++ [0])). rewrite length_app in H. cbn [length] in H. lia.
Qed.

(** The types that a conversion takes from the arguments. *)
Definition arg_type (ty : base_type) : bool :=
  match ty with
  | TY_INT | TY_LONG | TY_LONGLONG | TY_DOUBLE | TY_LDOUBLE | TY_STRING | TY_WCHAR | TY_WSTRING | TY_ADDRESS => true
  | _ => false
  end.
Lemma value_comes_back ty a bs rest : arg_type ty = true -> value_bytes ty (VArg a) = Some bs -> arg_ok a ->
  collect_value ty (bs ++ rest) = Some (inr (a, rest)) /\ bs <> [].
Proof.
  intros Hty Hb Ha. assert (forall n z, (0 < n)%nat -> le_encode n z <> []) as Hne by (intros [|n] z; [lia|done]).
  destruct ty; try done; destruct a; try done; cbn [value_bytes scalar_bytes] in Hb; apply (inj Some) in Hb as <-;
    cbn [arg_ok] in Ha; unfold collect_value;
    try (rewrite collectBytes_app by (rewrite ?length_le_encode, ?Ha; done); cbn [scalar_arg mbind option_bind];
         rewrite ?s32_decode, ?s64_decode by done; (split; [try done|first [apply Hne; lia|by intros ->]])).
  - rewrite collectString_app by done. split; [done|]. by destruct s.
  - rewrite collectWstring_app by (done || apply wstring_longer). split; [done|]. by destruct ws.
  - rewrite le_decode_encode. change (256 ^ Z.of_nat 8) with (2 ^ 64). fold (u64 z). by rewrite unsigned_id.
Qed.

(** The elements of an array: the value that is printed and its bytes in the record. *)
Fixpoint chunks (size n : nat) (mem : list Z) : list (list Z) :=
  match n with O => [] | S n => take size mem :: chunks size n (drop size mem) end.
Definition array_elems (ty : base_type) (n : nat) (array : vaarg) : option (list (carg * list Z)) :=
  match ty, array with
  | TY_STRING, VStrings l => Some (map (fun s => (AString s, string_bytes s)) (take n l))
  | TY_WSTRING, VWstrings l => Some (map (fun ws => (AWstring ws, wstring_bytes ws)) (take n l))
  | (TY_STRING | TY_WSTRING), _ => None
  | _, VMem mem => mapM (fun bs => a ← scalar_arg ty bs; Some (a, bs)) (chunks (Z.to_nat (type_size ty)) n mem)
  | _, _ => None
  end.
(** The value is read back from the front of the record. *)
Definition elem_ok (ty : base_type) (e : carg * list Z) : Prop :=
  snd e <> [] /\ forall rest, collect_value ty (snd e ++ rest) = Some (inr (fst e, rest)).
Lemma chunks_concat size n mem : (n * size <= length mem)%nat -> concat (chunks size n mem) = take (n * size) mem.
Proof.
  revert mem. induction n as [|n IH]; intros mem Hl; [done|]. cbn [chunks concat Nat.mul].
  rewrite IH by (rewrite length_drop; lia). apply take_take_drop.
Qed.
Lemma chunks_length size n mem : (n * size <= length mem)%nat -> Forall (fun c => length c = size) (chunks size n mem).
Proof.
  revert mem. induction n as [|n IH]; intros mem Hl; cbn [chunks]; constructor; [rewrite length_take; lia|].
  apply IH. rewrite length_drop. lia.
Qed.
Lemma scalar_elem ty bs a : scalar_arg ty bs = Some a -> Z.of_nat (length bs) = type_size ty -> elem_ok ty (a, bs).
Proof.
  intros Ha Hl. split; cbn [fst snd].
  - intros ->. by destruct ty.
  - intros rest. unfold collect_value. rewrite collectBytes_app by done. by destruct ty; try done; rewrite Ha.
Qed.
Lemma chunks_count size n mem : length (chunks size n mem) = n.
Proof. revert mem. induction n as [|n IH]; intros mem; [done|]. cbn. by rewrite IH. Qed.
Lemma scalar_elems ty cs elems : Forall (fun c => Z.of_nat (length c) = type_size ty) cs ->
  mapM (fun bs => a ← scalar_arg ty bs; Some (a, bs)) cs = Some elems -> cs = map snd elems /\ Forall (elem_ok ty) elems.
Proof.
  intros Hc H. apply mapM_Some_1 in H. induction H as [|c [a b] cs elems Hce _ IH]; [done|].
  apply Forall_cons in Hc as [Hlc Hc]. destruct (IH Hc) as [-> Hall]. destruct (scalar_arg ty c) as [a'|] eqn:Ea; [|done].
  cbn in Hce. injection Hce as -> ->. split; [done|]. constructor; [by apply scalar_elem|done].
Qed.
Lemma memory_elems ty dim mem bs elems : 0 <= dim ->
  (if Z.max dim 0 * type_size ty <=? Z.of_nat (length mem) then Some (take (Z.to_nat (Z.max dim 0 * type_size ty)) mem) else None) = Some bs ->
  mapM (fun bs => a ← scalar_arg ty bs; Some (a, bs)) (chunks (Z.to_nat (type_size ty)) (Z.to_nat dim) mem) = Some elems ->
  bs = concat (map snd elems) /\ length elems = Z.to_nat dim /\ Forall (elem_ok ty) elems.
Proof.
  intros Hdim Hb He. rewrite Z.max_l in Hb by lia. assert (0 <= type_size ty) by (by destruct ty).
  destruct (Z.leb_spec (dim * type_size ty) (Z.of_nat (length mem))) as [Hl|]; [|done]. injection Hb as <-.
  assert (Z.to_nat dim * Z.to_nat (type_size ty) <= length mem)%nat as Hl' by nia.
  apply scalar_elems in He as [E Hall].
  2: { eapply Forall_impl; [by apply (chunks_length _ _ _ Hl')|]. cbn. intros c Hc. lia. }
  split; [|split; [|done]].
  - rewrite <- E, chunks_concat by done. f_equal. nia.
  - rewrite <- (length_map snd), <- E. apply chunks_count.
Qed.
Lemma array_elems_spec ty dim array bs elems : 0 <= dim -> vaarg_ok array -> array_bytes ty dim array = Some bs ->
  array_elems ty (Z.to_nat dim) array = Some elems ->
  bs = concat (map snd elems) /\ length elems = Z.to_nat dim /\ Forall (elem_ok ty) elems.
Proof.
  intros Hdim Hok Hb He. unfold array_bytes, array_elems in *.
  assert (forall (A : Type) (mk : A -> carg) (bytes : A -> list Z) (l : list A) (P : A -> Prop), Forall P l -> (forall x, P x -> elem_ok ty (mk x, bytes x)) ->
    dim <= Z.of_nat (length l) -> elems = map (fun x => (mk x, bytes x)) (take (Z.to_nat dim) l) -> bs = flat_map bytes (take (Z.to_nat dim) l) ->
    bs = concat (map snd elems) /\ length elems = Z.to_nat dim /\ Forall (elem_ok ty) elems) as Hlist.
  { intros A mk bytes l P HP Hmk Hl -> ->. rewrite flat_map_concat_map, map_map. split; [done|]. split; [rewrite length_map, length_take; lia|].
    apply Forall_map. eapply Forall_impl; [by apply Forall_take|]. done. }
  destruct ty; try done; destruct array as [a| |l|l|mem]; try done; try (by eapply memory_elems).
  - destruct (Z.leb_spec dim (Z.of_nat (length l))); [|done]. injection Hb as <-. injection He as <-.
    apply (Hlist _ AString string_bytes l (fun s => no_nul s = true)); try done.
    intros s Hs. split; [by destruct s|]. intros rest. cbn [fst snd collect_value]. by rewrite collectString_app.
  - destruct (Z.leb_spec dim (Z.of_nat (length l))); [|done]. injection Hb as <-. injection He as <-.
    apply (Hlist _ AWstring wstring_bytes l (fun ws => arg_ok (AWstring ws))); try done.
    intros ws Hws. split; [by destruct ws|]. intros rest. cbn [fst snd collect_value]. by rewrite collectWstring_app by (done || apply wstring_longer).
Qed.

(** ** The text of a record *)

Section Text.
Context `{TextOfReal}.

Fixpoint joined (delim : str) (first : bool) (texts : list str) : str :=
  match texts with
  | [] => EmptyString
  | t :: texts => ((if first then EmptyString else delim) ++ t ++ joined delim false texts)%string
  end.
(** What [printf] prints for a conversion: its argument, or the elements of an array with
    the delimiter between them. *)
Definition conv_text_of (pf : evl_parsed_format) (fmt : str) (args : list vaarg) : option (str * list vaarg) :=
  if fm_array pf then
    match args with
    | array :: VArg (AInt dim) :: VArg (AString delim) :: args =>
        elems ← array_elems (_evlGetTypeFromConversion pf false true) (Z.to_nat dim) array;
        texts ← mapM (fun e => vsnprintf (squeeze fmt) (fst e)) elems;
        Some (joined delim true texts, args)
    | _ => None
    end
  else
    match args with
    | VArg a :: args => t ← vsnprintf fmt a; Some (t, args)
    | _ => None
    end.
Fixpoint text_of (l : list evl_fmt_segment) (args : list vaarg) : option str :=
  match l with
  | [] => Some EmptyString
  | EVL_FS_STRING s :: l => t ← text_of l args; Some (s ++ t)%string
  | EVL_FS_PRINTFCONV pf fmt _ :: l =>
      '(s, args) ← conv_text_of pf (default EmptyString fmt) args; t ← text_of l args; Some (s ++ t)%string
  | _ => None
  end.
(** The types that a format takes one by one, and the length of an array's conversion. *)
Definition seg_ok (fs : evl_fmt_segment) : Prop :=
  match fs with
  | EVL_FS_STRING _ => True
  | EVL_FS_PRINTFCONV pf fmt _ =>
      if fm_array pf then strlen (default EmptyString fmt) < 20 else arg_type (_evlGetTypeFromConversion pf true true) = true
  | _ => False
  end.

Lemma format_values_spec ty fmt delim : forall elems texts first f d out rest,
  Forall (elem_ok ty) elems -> mapM (fun e => vsnprintf fmt (fst e)) elems = Some texts ->
  holds f d out -> fb_end f < 2 ^ 31 ->
  exists f', format_values (length elems) first f fmt delim ty (concat (map snd elems) ++ rest) = Some (0, f', rest) /\
    holds f' d (out ++ joined delim first texts) /\ fb_end f' = fb_end f.
Proof.
  induction elems as [|[a bs] elems IH]; intros texts first f d out rest Hok Ht Hf Hcap.
  - cbn in Ht. injection Ht as <-. exists f. cbn [joined]. by rewrite str_app_nil.
  - apply Forall_cons in Hok as [[_ Hback] Hok]. cbn [fst snd] in Hback.
    cbn [mapM] in Ht. destruct (vsnprintf fmt (fst (a, bs))) as [t|] eqn:Et; [|done].
    destruct (mapM _ elems) as [ts|] eqn:Ets; [|done]. cbn in Ht. injection Ht as <-. cbn [fst] in Et.
    assert (exists f1, (if first then Some f else _evlBprintf f (vsnprintf "%s" (AString delim))) = Some f1 /\
      holds f1 d (out ++ (if first then EmptyString else delim)) /\ fb_end f1 = fb_end f) as (f1 & E1 & H1 & C1).
    { destruct first; [exists f; by rewrite str_app_nil|]. rewrite vsnprintf_s. by apply Bprintf_spec. }
    destruct (Bprintf_spec f1 d _ t H1) as (f2 & E2 & H2 & C2); [lia|].
    destruct (IH ts false f2 d _ rest Hok eq_refl H2) as (f3 & E3 & H3 & C3); [lia|].
    exists f3. cbn [length format_values map concat snd]. rewrite E1. cbn [mbind option_bind].
    rewrite <- app_assoc, Hback. cbn [mbind option_bind]. rewrite Et, E2. cbn [mbind option_bind]. rewrite E3. split; [done|].
    cbn [joined]. rewrite !str_app_assoc in H3. split; [done|lia].
Qed.
Lemma formatConversion_spec pf fmt args bs args1 t args2 f d out rest :
  conv_bytes pf args = Some (bs, args1) -> conv_text_of pf fmt args = Some (t, args2) -> Forall vaarg_ok args ->
  (if fm_array pf then strlen fmt < 20 else arg_type (_evlGetTypeFromConversion pf true true) = true) ->
  holds f d out -> fb_end f < 2 ^ 31 ->
  args1 = args2 /\ Forall vaarg_ok args1 /\ bs <> [] /\
  exists f', formatConversion f pf fmt (bs ++ rest) = Some (0, f', rest) /\ holds f' d (out ++ t) /\ fb_end f' = fb_end f.
Proof.
  unfold conv_bytes, conv_text_of, formatConversion. intros Hb Ht Hargs Hlen Hf Hcap. destruct (fm_array pf).
  - destruct args as [|array [|[[dim| | | | | | | |]| | | |] [|[[| | | | | | |delim|]| | | |] args']]]; try done.
    destruct (_ && _) eqn:Hc; [|done]. destruct (array_bytes _ dim array) as [eb|] eqn:Eb; [|done]. cbn [mbind option_bind] in Hb. apply (inj Some) in Hb.
    destruct (array_elems _ _ array) as [elems|] eqn:Ee; [|done]. cbn [mbind option_bind] in Ht.
    destruct (mapM _ elems) as [texts|] eqn:Et; [|done]. cbn [mbind option_bind] in Ht. apply (inj Some) in Ht. injection Ht as <- <-.
    apply (inj2 pair) in Hb as [<- <-]. rewrite !andb_true_iff in Hc. destruct Hc as [[Hd1 Hd2] _].
    rewrite !Forall_cons in Hargs. destruct Hargs as (Harray & Hdim & Hdelim & Hargs). cbn in Hdelim.
    destruct (array_elems_spec (_evlGetTypeFromConversion pf false true) dim array eb elems) as (-> & Hn & Hok); [zb|done..|].
    split; [done|]. split; [done|]. split; [by destruct (le_encode 4 dim) eqn:E|].
    rewrite <- !app_assoc, collectBytes_app by (by rewrite length_le_encode). rewrite collectString_app by done.
    rewrite (proj2 (Z.ltb_lt _ _)) by done. rewrite s32_decode by (unfold in_signed; zb). rewrite <- Hn.
    by apply format_values_spec.
  - destruct args as [|[a| | | |] args']; try done. apply Forall_cons in Hargs as [Ha Hargs].
    destruct (vsnprintf fmt a) as [t'|] eqn:Et; [|done]. cbn [mbind option_bind] in Ht. injection Ht as -> <-.
    set (ty := _evlGetTypeFromConversion pf true true) in *.
    assert (value_bytes ty (VArg a) = Some bs /\ args1 = args') as [Hv ->].
    { destruct ty; try done; destruct (value_bytes _ _); try done; cbn [mbind option_bind] in Hb; by injection Hb as -> ->. }
    destruct (value_comes_back ty a bs rest Hlen Hv Ha) as [Hback Hne]. split; [done|]. split; [done|]. split; [done|].
    assert (elem_ok ty (a, bs)) as Hok by (split; [done|]; intros r; by apply value_comes_back).
    destruct (format_values_spec ty fmt "" [(a, bs)] [t] true f d out rest) as (f' & E & Hh & Hc);
      [by apply Forall_singleton|cbn; by rewrite Et|done..|].
    exists f'. cbn [length map concat snd joined] in E, Hh. rewrite app_nil_r in E. cbn [String.append] in Hh. rewrite str_app_nil in Hh. done.
Qed.
Lemma format_segments_spec l : forall args bs rest t f d out, Forall seg_ok l ->
  args_bytes (conversions l) args = Some (bs, rest) -> text_of l args = Some t -> Forall vaarg_ok args ->
  holds f d out -> fb_end f < 2 ^ 31 ->
  exists f', format_segments l f bs = Some (0, f') /\ holds f' d (out ++ t) /\ fb_end f' = fb_end f.
Proof.
  induction l as [|fs l IH]; intros args bs rest t f d out Hok Hb Ht Hargs Hf Hcap.
  - injection Ht as <-. exists f. by rewrite str_app_nil.
  - apply Forall_cons in Hok as [Hfs Hok]. destruct fs as [s| | |pf fmt sf|]; try done; cbn [conversions omap list_omap conversion_of text_of] in *.
    + destruct (text_of l args) as [t1|] eqn:Et; [|done]. cbn [mbind option_bind] in Ht. injection Ht as <-.
      destruct (Bprintf_spec f d out s Hf Hcap) as (f1 & E1 & H1 & C1).
      destruct (IH args bs rest t1 f1 d _ Hok Hb Et Hargs H1) as (f2 & E2 & H2 & C2); [lia|].
      exists f2. cbn [format_segments]. rewrite vsnprintf_s, E1. cbn [mbind option_bind]. rewrite str_app_assoc in H2. split; [done|]. split; [done|lia].
    + cbn [args_bytes] in Hb. destruct (conv_bytes pf args) as [[b1 args1]|] eqn:E1; [|done]. cbn [mbind option_bind] in Hb.
      destruct (args_bytes (omap conversion_of l) args1) as [[b2 rest2]|] eqn:E2; [|done]. injection Hb as <- <-.
      destruct (conv_text_of pf (default EmptyString fmt) args) as [[s args2]|] eqn:Es; [|done]. cbn [mbind option_bind] in Ht.
      destruct (text_of l args2) as [t1|] eqn:Et; [|done]. cbn [mbind option_bind] in Ht. injection Ht as <-.
      destruct (formatConversion_spec pf _ args b1 args1 s args2 f d out b2 E1 Es Hargs Hfs Hf Hcap) as (<- & Hargs1 & Hne & f1 & Ef & H1 & C1).
      destruct (IH args1 b2 rest2 t1 f1 d _ Hok E2 Et Hargs1 H1) as (f2 & Ef2 & H2 & C2); [lia|].
      exists f2. cbn [format_segments]. destruct (b1 ++ b2) as [|b bs] eqn:Eb; [by destruct b1|]. rewrite Ef. cbn [mbind option_bind Z.eqb].
      rewrite Ef2, str_app_assoc in *. split; [done|]. split; [done|lia].
Qed.
(** A record of a format and its arguments is formatted, whatever the size of the buffer:
    the buffer holds what [printf] prints for them, as far as it fits; the caller learns
    the size of all of it, and of [EMSGSIZE] when it does not fit. *)
Theorem record_is_formatted format l args bs rest text mem :
  no_nul format = true -> _evlParsePrintfFormat format true = Some (Some l) -> Forall seg_ok l ->
  args_bytes (conversions l) args = Some (bs, rest) -> Forall vaarg_ok args -> text_of l args = Some text ->
  mem <> [] -> Z.of_nat (length mem) < 2 ^ 31 ->
  exists mem' tail, _evlFormatPrintfRec (Some (printf_record format bs)) (Some mem) false =
    Some (mkFmt (if strlen text + 1 >? Z.of_nat (length mem) then EMSGSIZE else 0) (strlen text + 1) (Some mem')) /\
    length mem' = length mem /\ mem' = take (length mem - 1) (bytes_of text) ++ 0 :: tail.
Proof.
  intros Hnul Hl Hok Hb Hargs Ht Hmem Hcap. unfold _evlFormatPrintfRec, printf_record.
  destruct (string_bytes format ++ le_encode 4 (Z.of_nat (length bs)) ++ bs) as [|d0 ds] eqn:E; [by destruct format|]. rewrite <- E.
  rewrite collectString_app by done. change (drop 4 (le_encode 4 (Z.of_nat (length bs)) ++ bs)) with bs.
  rewrite Hl. cbn [mbind option_bind]. pose proof (holds_new mem Hmem) as Hnew.
  assert (fb_end (_evlMakeFmtBuf (Some mem)) = Z.of_nat (length mem)) as Hend by (by destruct mem).
  destruct (format_segments_spec l args bs rest text _ false "" Hok Hb Ht Hargs Hnew) as (f & -> & [Hn Ho [tail Htext]] & Hc); [lia|].
  cbn [mbind option_bind Z.eqb negb String.append] in *. rewrite Hend in Hc.
  assert (length (fb_buf f) = length mem) as Hlen by (unfold fb_end in Hc; lia).
  destruct mem as [|m0 ms]; [done|]. exists (fb_buf f), tail. split; [|split; [done|by rewrite Hlen in Htext]].
  rewrite Ho, Hc. cbn [orb]. rewrite Hn. replace (1 + strlen text) with (strlen text + 1) by lia. 
  by destruct (strlen text + 1 >? Z.of_nat (length (m0 :: ms))).
Qed.
(** C17: what the library logs with [printb] is displayed as [printf] would have printed it:
    the call packs the format and the arguments into a record, and formatting that record gives the
    text of [printf] for the same format and arguments. *)
Theorem printb_prints_like_printf format l args bs rest text mem :
  no_nul format = true -> _evlParsePrintfFormat format true = Some (Some l) -> Forall seg_ok l ->
  args_bytes (conversions l) args = Some (bs, rest) -> Forall vaarg_ok args -> text_of l args = Some text ->
  Z.of_nat (length (printf_record format bs)) <= POSIX_LOG_ENTRY_MAXLEN ->
  strlen text < Z.of_nat (length mem) < 2 ^ 31 ->
  exists pk mem' tail, evl_pack_format_and_args (Some format) args [] = Some (0, Some pk) /\
    pk_reclen pk = Z.of_nat (length (pk_data pk)) /\
    _evlFormatPrintfRec (Some (pk_data pk)) (Some mem) false = Some (mkFmt 0 (strlen text + 1) (Some mem')) /\
    mem' = bytes_of text ++ 0 :: tail.
Proof.
  intros Hnul Hl Hok Hb Hargs Ht Hsz Hcap.
  destruct (record_is_formatted format l args bs rest text mem) as (mem' & tail & Hf & Hlen & E); try done; [by intros ->; cbn in Hcap; unfold strlen in Hcap; lia|lia|].
  pose proof (packing_and_formatting_agree format) as Hagree. rewrite Hl in Hagree.
  destruct (_evlParsePrintfFormat format false) as [[l'|]|] eqn:Hl'; [|done..]. cbn [same_conversions] in Hagree. rewrite Hagree in Hb.
  exists (mkPack (printf_record format bs) (Z.of_nat (length (printf_record format bs)))), mem', tail.
  split; [by apply (printf_record_is_packed format l' args bs rest)|]. split; [done|]. cbn [pk_data].
  rewrite Hf, Z.gtb_ltb, (proj2 (Z.ltb_ge _ _)) by lia. split; [done|]. rewrite E, take_ge; [done|]. rewrite length_bytes_of. unfold strlen in Hcap. lia.
Qed.
End Text.

(** ** Instances *)

Section Samples.
#[local] Instance no_real_text : TextOfReal := { text_of_real _ _ := None }.
Definition sample_format : str := "uid %d at %[hd: %-4s|%#llx".
Definition sample_args : list vaarg :=
  [VArg (AInt (-2)); VMem [1;0;2;0]; VArg (AInt 2); VArg (AString "/"); VArg (AString "ok"); VArg (ALonglong 255)].
Definition sample_segs : list evl_fmt_segment := match _evlParsePrintfFormat sample_format true with Some (Some l) => l | _ => [] end.
Definition sample_bytes : list Z := default [] (fst <$> args_bytes (conversions sample_segs) sample_args).
Lemma sample_args_ok : Forall vaarg_ok sample_args.
Proof. unfold sample_args. rewrite !Forall_cons. cbn [vaarg_ok arg_ok]. unfold in_signed. repeat split; done || lia. Qed.
Lemma sample_segs_ok : Forall seg_ok sample_segs.
Proof. vm_compute. repeat constructor. Qed.
Lemma record_is_formatted_witness :
  exists mem' tail, _evlFormatPrintfRec (Some (printf_record sample_format sample_bytes)) (Some (replicate 12 7)) false =
    Some (mkFmt EMSGSIZE 25 (Some mem')) /\ length mem' = 12%nat /\
    mem' = take 11 (bytes_of "uid -2 at 1/2: ok  |0xff") ++ 0 :: tail.
Proof.
  apply (record_is_formatted sample_format sample_segs sample_args sample_bytes [] "uid -2 at 1/2: ok  |0xff" (replicate 12 7)).
  - reflexivity.
  - vm_compute. reflexivity.
  - apply sample_segs_ok.
  - vm_compute. reflexivity.
  - apply sample_args_ok.
  - vm_compute. reflexivity.
  - discriminate.
  - reflexivity.
Defined.
Lemma printb_prints_like_printf_witness :
  exists pk mem' tail, evl_pack_format_and_args (Some sample_format) sample_args [] = Some (0, Some pk) /\
    pk_reclen pk = Z.of_nat (length (pk_data pk)) /\
    _evlFormatPrintfRec (Some (pk_data pk)) (Some (replicate 80 7)) false = Some (mkFmt 0 25 (Some mem')) /\
    mem' = bytes_of "uid -2 at 1/2: ok  |0xff" ++ 0 :: tail.
Proof.
  apply (printb_prints_like_printf sample_format sample_segs sample_args sample_bytes [] "uid -2 at 1/2: ok  |0xff" (replicate 80 7)).
  - reflexivity.
  - vm_compute. reflexivity.
  - apply sample_segs_ok.
  - vm_compute. reflexivity.
  - apply sample_args_ok.
  - vm_compute. reflexivity.
  - vm_compute. discriminate.
  - vm_compute. split; reflexivity.
Defined.
End Samples.
