(* ===== verification/FormatRecCorrect.v ===== *)
(** * Formatting records: sizes, contents and what goes wrong

    The fixed part of a record in a buffer of any size, a record by a format of
    attributes, the severities of kernel messages; and the records that the functions do
    not survive. *)
From S2P Require Import Prelude NvPairs LogRecord Hosts FacNames MemStr QEvaluate Format FormatCorrect CPrintf Dump FmtBuf RecPack RecPackCorrect FormatRec PackFormat QueryCorrect QSamples.

(** ** The fixed part *)

Lemma strlen_break a (brk : bool) b :
  strlen (a ++ (if brk then String NEWLINE "" else "") ++ b)%string = strlen a + b2z brk + strlen b.
Proof. unfold strlen. rewrite !str_length_app. destruct brk; cbn; lia. Qed.

Section FixedPart.
Context `{HostLib}.
Variables (entry : posix_log_entry) (separator : option str) (linelen fmt_flags : Z).

(** The attributes' text with its length, whatever the buffer. *)
Fixpoint fixed_text (attrs : list _evlNvPair) (totalSize curLineLen : Z) (text : str) : option (Z * str) :=
  match attrs with
  | [] => Some (totalSize, text)
  | nv :: attrs =>
      let lastAttr := match attrs with [] => true | _ => false end in
      r ← attr_text entry (nv_value nv) (nv_name nv) separator (negb (Z.land fmt_flags EVL_COMPACT =? 0)) lastAttr;
      match r with
      | inl _ => None
      | inr attr =>
          let newline := match separator with Some sep => is_letter NEWLINE sep | None => false end in
          let brk := negb newline && negb (linelen =? 0) && (curLineLen >? 0) && (curLineLen + strlen attr >? linelen) in
          fixed_text attrs (totalSize + b2z brk + strlen attr) (if brk then strlen attr else curLineLen + strlen attr)
            (text ++ (if brk then String NEWLINE "" else "") ++ attr)%string
      end
  end.
Lemma fixed_text_length attrs : forall n c text n' text', n = strlen text -> fixed_text attrs n c text = Some (n', text') ->
  n' = strlen text' /\ strlen text <= n' /\ exists more, text' = (text ++ more)%string.
Proof.
  induction attrs as [|nv attrs IH]; intros n c text n' text' -> Hf; cbn [fixed_text] in Hf.
  - injection Hf as <- <-. split; [done|]. split; [lia|]. exists EmptyString. by rewrite str_app_nil.
  - destruct (attr_text _ _ _ _ _ _) as [[|attr]|]; [done| |done]. cbn [mbind option_bind] in Hf.
    apply IH in Hf as (-> & Hle & more & ->).
    + split; [done|]. assert (forall a b, strlen (a ++ b)%string = strlen a + strlen b) as Happ by (intros; unfold strlen; rewrite str_length_app; lia).
      clear Hle. assert (forall s, 0 <= strlen s) as Hpos by (intros; unfold strlen; lia).
      split; [|eexists; by rewrite !str_app_assoc]. rewrite !Happ. pose proof (Hpos attr). pose proof (Hpos more).
      match goal with |- _ <= _ + (strlen ?x + _) + _ => pose proof (Hpos x) end. lia.
    + by rewrite strlen_break.
Qed.
(** The attributes from one on, when what is in front of them is in the buffer, and when
    it is not. *)
Lemma add_attrs_fit attrs buflen reqlen status : forall n c text n' text', n = strlen text -> n + 1 <= buflen ->
  fixed_text attrs n c text = Some (n', text') -> n' + 1 <= buflen ->
  add_attrs attrs entry true buflen reqlen separator linelen fmt_flags status (n, c, text) =
  Some (status, if reqlen then n' + 1 else 0, text').
Proof.
  induction attrs as [|nv attrs IH]; intros n c text n' text' En Hn Hf Hn'; pose proof (fixed_text_length _ _ _ _ _ _ En Hf) as (E' & _).
  - by injection Hf as -> ->.
  - cbn [fixed_text] in Hf. cbn [add_attrs]. unfold addAttr. destruct (attr_text _ _ _ _ _ _) as [[|attr]|]; [done| |done].
    cbn [mbind option_bind] in *. cbv zeta in *. set (brk := negb _ && negb _ && _ && _) in *.
    assert (n + b2z brk + strlen attr = strlen (text ++ (if brk then String NEWLINE "" else "") ++ attr)) as El
      by (by rewrite strlen_break, En).
    pose proof (fixed_text_length _ _ _ _ _ _ El Hf) as (_ & Hle & _). rewrite <- El in Hle.
    rewrite Z.gtb_ltb, (proj2 (Z.ltb_ge _ _)) by lia. cbn [negb mbind option_bind Z.eqb]. apply IH; [done|lia|done|lia].
Qed.
Lemma add_attrs_over attrs buflen status : forall n c n' text text0, buflen < n + 1 -> 0 <= n -> status = EMSGSIZE ->
  (exists t, strlen t = n /\ fixed_text attrs n c t = Some (n', text)) ->
  add_attrs attrs entry true buflen true separator linelen fmt_flags status (n, c, text0) = Some (EMSGSIZE, n' + 1, text0).
Proof.
  induction attrs as [|nv attrs IH]; intros n c n' text text0 Hn Hpos -> (t & Et & Hf).
  - by injection Hf as -> _.
  - cbn [fixed_text] in Hf. cbn [add_attrs]. unfold addAttr. destruct (attr_text _ _ _ _ _ _) as [[|attr]|]; [done| |done].
    cbn [mbind option_bind] in *. cbv zeta in *. set (brk := negb _ && negb _ && _ && _) in *.
    assert (0 <= b2z brk + strlen attr) by (unfold strlen; destruct brk; cbn; lia).
    rewrite Z.gtb_ltb, (proj2 (Z.ltb_lt _ _)) by lia. cbn [mbind option_bind].
    change (EMSGSIZE =? 0) with false. change (EMSGSIZE =? EMSGSIZE) with true. cbn [negb orb].
    eapply IH; [lia|lia|done|]. eexists. split; [|exact Hf].
    by rewrite strlen_break, Et.
Qed.
Lemma add_attrs_any attrs buflen status : forall n c text n' text', n = strlen text -> n + 1 <= buflen ->
  fixed_text attrs n c text = Some (n', text') -> status = 0 ->
  exists shown more, add_attrs attrs entry true buflen true separator linelen fmt_flags status (n, c, text) =
    Some (if n' + 1 >? buflen then EMSGSIZE else 0, n' + 1, shown) /\ text' = (shown ++ more)%string /\ strlen shown + 1 <= buflen /\
    (n' + 1 <= buflen -> shown = text').
Proof.
  induction attrs as [|nv attrs IH]; intros n c text n' text' En Hn Hf ->.
  - injection Hf as -> ->. cbn [add_attrs fst snd]. exists text', EmptyString. rewrite str_app_nil, Z.gtb_ltb, (proj2 (Z.ltb_ge _ _)) by done.
    split; [done|]. split; [done|]. split; [lia|done].
  - cbn [fixed_text] in Hf. cbn [add_attrs]. unfold addAttr. destruct (attr_text _ _ _ _ _ _) as [[|attr]|]; [done| |done].
    cbn [mbind option_bind] in *. cbv zeta in *. set (brk := negb _ && negb _ && _ && _) in *.
    assert (n + b2z brk + strlen attr = strlen (text ++ (if brk then String NEWLINE "" else "") ++ attr)) as El
      by (by rewrite strlen_break, En).
    pose proof (fixed_text_length _ _ _ _ _ _ El Hf) as (E' & Hle & more & Hmore). rewrite <- El in Hle.
    destruct (Z.gtb_spec (n + b2z brk + strlen attr + 1) buflen) as [Hgt|Hgt]; cbn [mbind option_bind].
    + change (EMSGSIZE =? 0) with false. change (EMSGSIZE =? EMSGSIZE) with true. cbn [negb orb].
      exists text, (((if brk then String NEWLINE "" else "") ++ attr) ++ more)%string.
      rewrite (add_attrs_over attrs buflen EMSGSIZE _ _ n' text' text); [|lia|unfold strlen in *; destruct brk; cbn in *; lia|done|by eexists].
      rewrite Z.gtb_ltb, (proj2 (Z.ltb_lt _ _)) by lia. split; [done|]. split; [|split; [lia|lia]].
      rewrite Hmore, !str_app_assoc. done.
    + cbn [negb mbind option_bind Z.eqb]. by apply IH; [done|lia|..].
Qed.
(** C32: the fixed part of a record: whatever the size of the buffer, the caller learns the
    size that all of it takes; in a buffer of that size it is complete, and a smaller
    buffer has the attributes that fit, in order, as a string. *)
Theorem fixed_part_in_any_buffer n text buflen : (fmt_flags = 0 \/ fmt_flags = EVL_COMPACT) ->
  match separator with Some sep => strlen sep <= MAXSEPLEN | None => True end ->
  fixed_text _evlAttributes 0 0 EmptyString = Some (n, text) -> 1 <= buflen ->
  n = strlen text /\
  exists shown more, evl_format_evrec_fixed (Some entry) true buflen true separator linelen fmt_flags =
    Some (if n + 1 >? buflen then EMSGSIZE else 0, n + 1, shown) /\
    text = (shown ++ more)%string /\ strlen shown + 1 <= buflen /\ (n + 1 <= buflen -> shown = text).
Proof.
  intros Hflags Hsep Hf Hb. split; [by eapply (fixed_text_length _ 0 0 "")|]. unfold evl_format_evrec_fixed.
  assert ((negb (fmt_flags =? 0) && negb (fmt_flags =? EVL_COMPACT)) = false) as -> by (by destruct Hflags as [-> | ->]).
  assert ((match separator with Some sep => strlen sep >? MAXSEPLEN | None => false end) = false) as ->
    by (destruct separator; [rewrite Z.gtb_ltb; by apply Z.ltb_ge|done]).
  rewrite (proj2 (Z.eqb_neq buflen 0)) by lia. cbn [negb andb]. by apply (add_attrs_any _ _ _ 0 0 ""); [|lia|..].
Qed.
End FixedPart.

(** ** Severities of kernel messages *)

(** A line of a kernel message: its severity, if it has one, and its text. *)
Definition is_severity (s : str) : bool :=
  match s with
  | String c (String d (String e _)) => Ascii.eqb c "<"%char && (48 <=? chr d) && (chr d <=? 55) && Ascii.eqb e ">"%char
  | _ => false
  end.
Definition severity_text (sev : option Z) : str :=
  match sev with Some n => String "<" (String (of_chr (48 + n)) ">") | None => EmptyString end.
Record line_ok (l : option Z * str) : Prop := {
  l_sev : match fst l with Some n => 0 <= n <= 7 | None => is_severity (snd l) = false end;
  l_text : str_all (fun c => negb (Ascii.eqb c NEWLINE)) (snd l) = true
}.
Fixpoint join_lines (render : option Z * str -> str) (ls : list (option Z * str)) (last : option Z * str) : str :=
  match ls with
  | [] => render last
  | l :: ls => (render l ++ String NEWLINE (join_lines render ls last))%string
  end.
Definition marked (l : option Z * str) : str := (severity_text (fst l) ++ snd l)%string.

(** What follows a line. *)
Definition line_end (s : str) : Prop := match s with String c _ => c = NEWLINE | EmptyString => True end.
Lemma elide_middle s rest : str_all (fun c => negb (Ascii.eqb c NEWLINE)) s = true ->
  elide false (s ++ rest) = (s ++ elide false rest)%string.
Proof.
  induction s as [|c s IH]; [done|]. cbn [str_all]. intros [Hc Hs]%andb_true_iff. apply negb_true_iff in Hc.
  cbn [String.append elide]. rewrite Hc, IH by done. by destruct (s ++ rest)%string as [|d [|e r]].
Qed.
Lemma elide_head c s : is_severity (String c s) = false -> elide true (String c s) = String c (elide (Ascii.eqb c NEWLINE) s).
Proof.
  intros Hs. cbn [elide]. destruct s as [|d [|e r]]; [done..|]. cbn [is_severity] in Hs. cbn [andb]. by rewrite Hs.
Qed.
Lemma elide_newline b s : elide b (String NEWLINE s) = String NEWLINE (elide true s).
Proof. by destruct s as [|d [|e r]], b. Qed.
Lemma severity_cut s rest : line_end rest -> is_severity s = false -> is_severity (s ++ rest) = false.
Proof.
  intros Hr Hs. destruct s as [|c [|d [|e s]]]; [|..|exact Hs]; destruct rest as [|r rest]; cbn [line_end] in Hr; subst; try done.
  - by destruct rest as [|? [|]].
  - cbn. destruct rest as [|? ?]; [done|]. by rewrite !andb_false_r || destruct (Ascii.eqb c "<"%char).
  - cbn. by rewrite andb_false_r.
Qed.
Lemma elide_line l rest : line_ok l -> line_end rest -> elide true (marked l ++ rest) = (snd l ++ elide false rest)%string.
Proof.
  intros [Hsev Ht] Hr. unfold marked. destruct l as [[n|] s]; cbn [fst snd severity_text] in *; rewrite !str_app_assoc.
  - cbn [String.append elide andb]. rewrite !chr_of_chr by lia. rewrite (proj2 (Z.leb_le 48 _)), (proj2 (Z.leb_le _ 55)) by lia.
    cbn [andb]. by apply elide_middle.
  - cbn [String.append]. destruct s as [|c s].
    + cbn [String.append]. destruct rest as [|r rest]; [done|]. cbn [line_end] in Hr. subst r. by rewrite !elide_newline.
    + pose proof (severity_cut _ rest Hr Hsev) as Hc. change (String c s ++ rest)%string with (String c (s ++ rest)) in *.
      rewrite elide_head by done. cbn [str_all] in Ht. apply andb_true_iff in Ht as [Hn Hs]. apply negb_true_iff in Hn.
      rewrite Hn, elide_middle by done. done.
Qed.
(** A kernel message is displayed without the severities at the beginnings of its lines,
    and without anything else missing. *)
Theorem severities_are_elided ls last : Forall line_ok ls -> line_ok last ->
  elidePrintkSeverities (join_lines marked ls last) = join_lines snd ls last.
Proof.
  intros Hls Hlast. unfold elidePrintkSeverities. induction Hls as [|l ls Hl Hls IH]; cbn [join_lines].
  - pose proof (elide_line last EmptyString Hlast I) as H. by rewrite !str_app_nil in H.
  - by rewrite elide_line, elide_newline, IH.
Qed.

(** ** Formats of attributes *)

Section Special.
Context `{HostLib, TextOfReal, TmplFormat}.
Variables (entry : posix_log_entry) (evBuf : option (list Z)).

Definition user_text (fmt : str) (arg : carg) : option str :=
  match fmt with
  | String c _ => if Ascii.eqb c PERCENT then if writes_count fmt then None else vsnprintf fmt arg else Some fmt
  | EmptyString => Some fmt
  end.
(** What an element of a format stands for, in a record without a template. *)
Definition segment_text (fs : evl_fmt_segment) : option str :=
  match fs with
  | EVL_FS_STRING s => Some s
  | EVL_FS_MEMBER m userfmt stringfmt =>
      if m =? POSIX_LOG_ENTRY_DATA then
        if log_format entry =? POSIX_LOG_STRING then data ← evBuf; block_string data
        else if log_format entry =? POSIX_LOG_NODATA then Some EmptyString else None
      else
        let memstr := match posix_log_memtostr m entry POSIX_LOG_MEMSTR_MAXLEN with inl _ => None | inr s => Some s end in
        match userfmt with
        | None => memstr
        | Some fmt =>
            if stringfmt then s ← memstr; user_text fmt (AString s)
            else v ← _evlSprintfMember m entry; user_text fmt (if is_long_member m then ALong v else AInt v)
        end
  | EVL_FS_ATTNAME name _ _ => Some (if streqb name "host" then nodeId_host entry else EmptyString)
  | _ => Some EmptyString
  end.
Lemma user_spec f fmt arg t d out : user_text fmt arg = Some t -> holds f d out -> fb_end f < 2 ^ 31 ->
  exists f', bprintf_user f fmt arg = Some f' /\ holds f' d (out ++ t) /\ fb_end f' = fb_end f.
Proof.
  unfold user_text, bprintf_user. intros Ht Hf Hc. destruct fmt as [|c fmt]; [by apply (Bprintf_spec f d out t) in Hf as (f' & E & ?); [injection Ht as <-; exists f'|]|].
  destruct (Ascii.eqb c PERCENT); [|injection Ht as <-; by apply Bprintf_spec]. destruct (writes_count _); [done|].
  rewrite Ht. by apply Bprintf_spec.
Qed.
Lemma holds_same f d out : holds f d out -> exists f', Some f = Some f' /\ holds f' d (out ++ "") /\ fb_end f' = fb_end f.
Proof. intros Hf. exists f. by rewrite str_app_nil. Qed.
Lemma format_one fs f d out t : segment_text fs = Some t -> holds f d out -> fb_end f < 2 ^ 31 ->
  exists f', match fs with
    | EVL_FS_STRING s => _evlBprintf f (vsnprintf "%s" (AString s))
    | EVL_FS_MEMBER m userfmt stringfmt =>
        if m =? POSIX_LOG_ENTRY_DATA then format_data entry evBuf None f else format_member entry m userfmt stringfmt f
    | EVL_FS_ATTNAME name userfmt _ => format_attname entry None name userfmt f
    | _ => Some f
    end = Some f' /\ holds f' d (out ++ t) /\ fb_end f' = fb_end f.
Proof.
  intros Ht Hf Hc. destruct fs as [s|m userfmt stringfmt|name userfmt sf| |]; cbn [segment_text] in Ht.
  - injection Ht as <-. rewrite vsnprintf_s. by apply Bprintf_spec.
  - destruct (m =? POSIX_LOG_ENTRY_DATA).
    + unfold format_data. destruct (Z.eqb_spec (log_format entry) POSIX_LOG_STRING).
      * destruct evBuf as [data|]; [|done]. cbn [mbind option_bind] in *. rewrite Ht. cbn [mbind option_bind]. rewrite vsnprintf_s. by apply Bprintf_spec.
      * destruct (Z.eqb_spec (log_format entry) POSIX_LOG_NODATA) as [E|]; [|done]. rewrite E. injection Ht as <-. by apply holds_same.
    + unfold format_member. cbv zeta in *. destruct userfmt as [fmt|].
      * destruct stringfmt; [destruct (posix_log_memtostr _ _ _) as [|s]; [done|]|destruct (_evlSprintfMember m entry) as [v|]; [|done]];
          cbn [mbind option_bind] in *; by apply user_spec.
      * destruct (posix_log_memtostr _ _ _) as [|s]; [done|]. injection Ht as <-. cbn [mbind option_bind]. rewrite vsnprintf_s. by apply Bprintf_spec.
  - unfold format_attname. cbn [mbind option_bind]. injection Ht as <-. destruct (streqb name "host"); [rewrite vsnprintf_s; by apply Bprintf_spec|by apply holds_same].
  - injection Ht as <-. by apply holds_same.
  - injection Ht as <-. by apply holds_same.
Qed.
Lemma format_all_spec l : forall texts f d out, mapM segment_text l = Some texts -> holds f d out -> fb_end f < 2 ^ 31 ->
  exists f', format_all entry evBuf None l f = Some f' /\ holds f' d (out ++ concat_str texts) /\ fb_end f' = fb_end f.
Proof.
  induction l as [|fs l IH]; intros texts f d out Ht Hf Hc.
  - injection Ht as <-. by apply holds_same.
  - cbn [mapM] in Ht. destruct (segment_text fs) as [t|] eqn:Et; [|done]. destruct (mapM segment_text l) as [ts|]; [|done].
    cbn in Ht. injection Ht as <-. destruct (format_one fs f d out t Et Hf Hc) as (f1 & E1 & H1' & C1).
    destruct (IH ts f1 d _ eq_refl H1') as (f2 & E2 & H2' & C2); [lia|]. exists f2. cbn [format_all]. rewrite E1. cbn [mbind option_bind].
    cbn [concat_str foldr]. rewrite str_app_assoc in H2'. split; [done|]. split; [done|lia].
Qed.
(** A [printf] record without a format in it: [%data%] moves the position of the buffer
    back by one, and the next text is written in front of the buffer. *)
Theorem bad_record_underruns_buffer data b s mem : log_format entry = POSIX_LOG_PRINTF -> evBuf = Some data ->
  0 ∉ take (Z.to_nat (log_size entry)) data -> take (Z.to_nat (log_size entry)) data <> [] ->
  mem <> [] -> Z.of_nat (length mem) < 2 ^ 31 ->
  _evlSpecialFormatEvrec entry evBuf None [EVL_FS_MEMBER POSIX_LOG_ENTRY_DATA None b; EVL_FS_STRING s] (Some mem) = None.
Proof.
  intros Hfmt -> Hno Hne Hmem Hcap. unfold _evlSpecialFormatEvrec, formatRecord. cbn [format_all].
  change (POSIX_LOG_ENTRY_DATA =? POSIX_LOG_ENTRY_DATA) with true. cbv iota. unfold format_data. rewrite Hfmt.
  change (POSIX_LOG_PRINTF =? POSIX_LOG_STRING) with false. change (POSIX_LOG_PRINTF =? POSIX_LOG_BINARY) with false.
  change (POSIX_LOG_PRINTF =? POSIX_LOG_PRINTF) with true. cbv iota. unfold formatPrintfRecIntoFmtBuf.
  destruct mem as [|m0 ms]; [done|]. cbn [_evlMakeFmtBuf fb_buf fb_next]. unfold fb_end. cbn [fb_buf fb_next].
  rewrite (proj2 (Z.leb_gt _ 0)) by (cbn [length]; lia). rewrite Z.ltb_irrefl. cbn [fmap option_fmap option_map].
  set (rec := take _ data) in *. assert (collectString rec = (None, [])) as Hc.
  { clear Hne. induction rec as [|c rec IH]; [done|]. rewrite not_elem_of_cons in Hno. destruct Hno as [Hc Hno]. cbn [collectString].
    rewrite (proj2 (Z.eqb_neq c 0)), IH by (done || congruence). done. }
  unfold _evlFormatPrintfRec. destruct rec as [|r0 rec]; [done|]. rewrite Hc. cbn [mbind option_bind o_buf o_reqlen default].
  unfold id. change (Z.to_nat 0) with O. cbn [take drop app]. rewrite vsnprintf_s. unfold _evlBprintf, fb_end. cbn [fb_buf fb_next].
  cbn [length] in *. rewrite (proj2 (Z.leb_gt _ 1)) by lia. unfold put_text. cbn [fb_buf fb_next].
  match goal with |- context [u64 (s32 ?z)] => assert ((u64 (s32 z) =? 0) = false) as -> end; [|done].
  apply Z.eqb_neq. unfold unsigned, signed. intros E. apply Z.mod_divide in E as [k Hk]; [|lia].
  assert (Z.of_nat (S (length ms)) - (0 + 0 - 1) < 2 ^ 31 \/ Z.of_nat (S (length ms)) - (0 + 0 - 1) = 2 ^ 31) as [Hlt|Heq] by lia.
  - rewrite Z.mod_small in Hk; lia.
  - rewrite Heq in Hk. change ((2 ^ 31 + 2 ^ (32 - 1)) mod 2 ^ 32 - 2 ^ (32 - 1)) with (- 2 ^ 31) in Hk. lia.
Qed.
(** The text of an array conversion of twenty characters or more fails an assertion in
    whoever displays the record, though it was packed without complaint. *)
Theorem long_array_conversion_aborts_reader format pf fmt sf l args bs rest mem :
  no_nul format = true -> _evlParsePrintfFormat format true = Some (Some (EVL_FS_PRINTFCONV pf (Some fmt) sf :: l)) ->
  fm_array pf = true -> 20 <= strlen fmt -> args_bytes (pf :: conversions l) args = Some (bs, rest) -> Forall vaarg_ok args ->
  Z.of_nat (length (printf_record format bs)) <= POSIX_LOG_ENTRY_MAXLEN ->
  (exists pk, evl_pack_format_and_args (Some format) args [] = Some (0, Some pk) /\ pk_data pk = printf_record format bs) /\
  _evlFormatPrintfRec (Some (printf_record format bs)) (Some mem) false = None.
Proof.
  intros Hnul Hl Harr Hlong Hb Hargs Hsz. pose proof (packing_and_formatting_agree format) as Hagree. rewrite Hl in Hagree.
  destruct (_evlParsePrintfFormat format false) as [[l'|]|] eqn:Hl'; [|done..]. cbn [same_conversions] in Hagree.
  change (conversions (EVL_FS_PRINTFCONV pf (Some fmt) sf :: l)) with (pf :: conversions l) in Hagree.
  split.
  - eexists. split; [apply (printf_record_is_packed format l' args bs rest Hl'); [by rewrite <- Hagree|done]|done].
  - unfold _evlFormatPrintfRec. destruct (printf_record format bs) as [|d0 ds] eqn:E; [by destruct format|]. rewrite <- E. unfold printf_record.
    rewrite collectString_app by done. change (drop 4 (le_encode 4 (Z.of_nat (length bs)) ++ bs)) with bs. rewrite Hl. cbn [mbind option_bind].
    cbn [args_bytes] in Hb. destruct (conv_bytes pf args) as [[b1 args1]|] eqn:E1; [|done]. cbn [mbind option_bind] in Hb.
    destruct (args_bytes (conversions l) args1) as [[b2 args2]|]; [|done]. injection Hb as <- _.
    unfold conv_bytes in E1. rewrite Harr in E1.
    destruct args as [|array [|[[dim| | | | | | | |]| | | |] [|[[| | | | | | |delim|]| | | |] args']]]; try done.
    destruct (_ && _); [|done]. destruct (array_bytes _ dim array) as [eb|]; [|done]. cbn [mbind option_bind] in E1. apply (inj Some) in E1.
    apply (inj2 pair) in E1 as [<- <-]. rewrite !Forall_cons in Hargs. destruct Hargs as (_ & _ & Hdelim & _). cbn in Hdelim.
    assert (forall f b, b <> [] -> formatConversion f pf fmt b = None -> format_segments (EVL_FS_PRINTFCONV pf (Some fmt) sf :: l) f b = None) as Hseg.
    { intros f b Hb Hf. destruct b; [done|]. cbn [format_segments default]. unfold id. by rewrite Hf. }
    rewrite Hseg; [done|by destruct (le_encode 4 dim) eqn:Ed|]. rewrite <- !app_assoc. unfold formatConversion. rewrite Harr.
    rewrite collectBytes_app by (by rewrite length_le_encode). rewrite collectString_app by done.
    by rewrite (proj2 (Z.ltb_ge _ _)).
Qed.
End Special.

(** ** Instances *)

Section Samples.
#[local] Instance no_real_text2 : TextOfReal := { text_of_real _ _ := None }.
#[local] Instance sample_formats : @TmplFormat sample_templates := @Build_TmplFormat sample_templates (fun _ f => Some f) (fun _ _ _ f => Some f).
Definition string_record : posix_log_entry := mkEntry 0xfeefface 7 6 POSIX_LOG_STRING 9 8 3 0 0 100 100 1234 0 0 0 0.
Definition fixed_sample : Z * str := default (0, EmptyString) (@fixed_text sample_machine string_record (Some ", "%string) 40 0 _evlAttributes 0 0 EmptyString).
Lemma fixed_part_in_any_buffer_witness :
  fst fixed_sample = strlen (snd fixed_sample) /\
  exists shown more, @evl_format_evrec_fixed sample_machine (Some string_record) true 60 true (Some ", "%string) 40 0 =
    Some (EMSGSIZE, fst fixed_sample + 1, shown) /\
    snd fixed_sample = (shown ++ more)%string /\ strlen shown + 1 <= 60 /\ (fst fixed_sample + 1 <= 60 -> shown = snd fixed_sample).
Proof.
  apply (@fixed_part_in_any_buffer sample_machine string_record (Some ", "%string) 40 0 (fst fixed_sample) (snd fixed_sample) 60).
  - by left.
  - vm_compute. discriminate.
  - vm_compute. reflexivity.
  - lia.
Defined.
Lemma severities_are_elided_witness :
  elidePrintkSeverities ("<6>eth0 up" ++ String NEWLINE "a<b>c" ++ String NEWLINE "<0>")%string =
  ("eth0 up" ++ String NEWLINE "a<b>c" ++ String NEWLINE "")%string.
Proof.
  apply (severities_are_elided [(Some 6, "eth0 up"%string); (None, "a<b>c"%string)] (Some 0, EmptyString)).
  - rewrite !Forall_cons. split; [split; [cbn; lia|reflexivity]|]. split; [split; reflexivity|constructor].
  - split; [cbn; lia|reflexivity].
Defined.
Definition printf_record_entry : posix_log_entry := mkEntry 0xfeefface 7 3 POSIX_LOG_PRINTF 9 8 3 0 0 100 100 1234 0 0 0 0.
Lemma bad_record_underruns_buffer_witness :
  @_evlSpecialFormatEvrec sample_machine _ sample_templates _ printf_record_entry (Some [97; 98; 99; 0]) None
    [EVL_FS_MEMBER POSIX_LOG_ENTRY_DATA None false; EVL_FS_STRING "!"] (Some (replicate 16 7)) = None.
Proof.
  apply (@bad_record_underruns_buffer sample_machine _ sample_templates _ printf_record_entry (Some [97; 98; 99; 0]) [97; 98; 99; 0]).
  - reflexivity.
  - reflexivity.
  - vm_compute. intros H. repeat (apply elem_of_cons in H as [H|H]; [discriminate|]). by apply elem_of_nil in H.
  - discriminate.
  - discriminate.
  - reflexivity.
Defined.
Definition wide_format : str := "%[1234567890123456789d".
Definition wide_segs : list evl_fmt_segment := match _evlParsePrintfFormat wide_format true with Some (Some l) => l | _ => [] end.
Definition wide_args : list vaarg := [VMem [1;0;0;0]; VArg (AInt 1); VArg (AString ",")].
Definition wide_conv : evl_parsed_format := match wide_segs with EVL_FS_PRINTFCONV pf _ _ :: _ => pf | _ => mkConv "" 0 0 "" "d" 0 false end.
Definition wide_bytes : list Z := default [] (fst <$> args_bytes [wide_conv] wide_args).
Lemma long_array_conversion_aborts_reader_witness :
  (exists pk, evl_pack_format_and_args (Some wide_format) wide_args [] = Some (0, Some pk) /\ pk_data pk = printf_record wide_format wide_bytes) /\
  _evlFormatPrintfRec (Some (printf_record wide_format wide_bytes)) (Some (replicate 80 0)) false = None.
Proof.
  apply (long_array_conversion_aborts_reader wide_format wide_conv wide_format false [] wide_args wide_bytes []).
  - reflexivity.
  - vm_compute. reflexivity.
  - reflexivity.
  - vm_compute. discriminate.
  - vm_compute. reflexivity.
  - unfold wide_args. rewrite !Forall_cons. cbn. unfold in_signed. repeat split; done || lia.
  - vm_compute. discriminate.
Defined.
End Samples.
