(* ===== verification/LogWrite.v ===== *)
(** * Logging an event ([lib/posix1.c], [lib/posix2.c], [lib/evl_log_write.c])

    What a program does to log: [posix_log_write] checks the arguments and builds the
    record's header, [_evlWriteEx] sends header and data to the logging daemon over the
    connection of the calling process, and waits until the daemon has read them.  The
    other end is a [logd]; at the end of the file the daemon of [Evlogd] is one.
    [None] is undefined behaviour: a null or short buffer that is read. *)
From S2P Require Import Prelude NvPairs LogRecord FacNames FacReg Hosts MemStr Query QEvaluate QueryApi QSamples Files LogFile LogSink Lookback Evlogd.
From S2P Require Import Format FormatCorrect CPrintf FmtBuf RecPack RecPackCorrect FormatRec PackFormat.

Definition LOG_EMERG : Z := 0.
Definition LOG_DEBUG : Z := 7.
Definition ENOSPC : Z := 28.

(** The calling process, its time and processor; what an automatic variable that is never
    written holds. *)
Record caller := mkCaller {
  ca_sec : Z; ca_nsec : Z;
  ca_self : self_t;
  ca_recid : Z
}.

(** The other end of the connections: [connect] gives a descriptor, if it succeeds;
    [write] tells whether all was written; [read] is of one byte. *)
Record logd (W : Type) := mkLogd {
  lg_connect : W -> option (option Z * W);
  lg_write : Z -> list Z -> W -> option (bool * W);
  lg_read : Z -> W -> option (list Z * W);
  lg_close : Z -> W -> option W
}.
Arguments lg_connect {W}.
Arguments lg_write {W}.
Arguments lg_read {W}.
Arguments lg_close {W}.

Section LogWrite.
Context {W : Type} (ld : logd W) `{HostLib}.

(** [sdMapping]s, in the order of the list, and the daemon. *)
Record world := mkWorld { sdMap : list (Z * Z); wd : W }.

(** [None] in the result is a negative descriptor. *)
Definition getSdByPid (pid : Z) (w : world) : option (option Z * world) :=
  match list_find (fun m => fst m = pid) (sdMap w) with
  | Some (_, (_, sd)) => Some (Some sd, w)
  | None =>
      '(sd, d) ← lg_connect ld (wd w);
      Some (match sd with
            | Some sd => (Some sd, mkWorld (sdMap w ++ [(pid, sd)]) d)
            | None => (None, mkWorld (sdMap w) d)
            end)
  end.
Definition zapSd (sd : Z) (w : world) : world :=
  match list_find (fun m => snd m = sd) (sdMap w) with
  | Some (i, _) => mkWorld (delete i (sdMap w)) (wd w)
  | None => w
  end.

(** What is sent after the header, if anything; a string that was cut to the maximal size
    is ended. *)
Definition cut_string (entry : posix_log_entry) : bool :=
  (log_format entry =? POSIX_LOG_STRING) && negb (Z.land (log_flags entry) POSIX_LOG_TRUNCATE =? 0).
Definition message_body (entry : posix_log_entry) (buf : option (list Z)) : option (option (list Z)) :=
  let size := Z.to_nat (log_size entry) in
  if cut_string entry then
    data ← buf;
    if (log_size entry >? Z.of_nat (length data)) || (log_size entry >? POSIX_LOG_ENTRY_MAXLEN) then None
    else Some (Some (<[Z.to_nat (POSIX_LOG_ENTRY_MAXLEN - 1) := 0]> (take size data)))
  else if log_size entry >? 0 then
    data ← buf;
    if log_size entry >? Z.of_nat (length data) then None else Some (Some (take size data))
  else Some None.
Definition _evlWriteEx2 (sd : Z) (entry : posix_log_entry) (buf : option (list Z)) (d : W) : option (Z * W) :=
  '(ok, d) ← lg_write ld sd (entry_bytes entry) d;
  if negb ok then Some (EIO, d)
  else
    body ← message_body entry buf;
    match body with
    | Some data => '(ok, d) ← lg_write ld sd data d; Some (if (ok : bool) then 0 else EIO, d)
    | None => Some (0, d)
    end.
(** Under the mutex and with signals blocked. *)
Definition _evlWriteEx (entry : posix_log_entry) (buf : option (list Z)) (w : world) : option (Z * world) :=
  '(sd, w) ← getSdByPid (log_pid entry) w;
  match sd with
  | None => Some (ECONNREFUSED, w)
  | Some sd =>
      '(ret, d) ← _evlWriteEx2 sd entry buf (wd w);
      '(ret, d) ← (if ret =? EIO then Some (ret, d)
                   else
                     '(c, d) ← lg_read ld sd d;
                     Some (if bool_decide (c = [EVENT_READ]) then ret else EIO, d));
      if ret =? 0 then Some (ret, mkWorld (sdMap w) d)
      else d ← lg_close ld sd d; Some (ret, zapSd sd (mkWorld (sdMap w) d))
  end.

(** The header that is sent; its size and format are the checked ones. *)
Definition new_entry (ca : caller) (facility event_type severity flags size format : Z) : posix_log_entry :=
  mkEntry LOCAL_ARCH (ca_recid ca) size format event_type facility severity
    (geteuid (ca_self ca)) (getegid (ca_self ca)) (getpid (ca_self ca)) (getpgrp (ca_self ca))
    (ca_sec ca) (ca_nsec ca) flags (pthread_self (ca_self ca)) (_evlGetProcId (ca_self ca)).
(** [buf] is the caller's memory from the pointer on; [len] is a [size_t]. *)
Definition posix_log_write (ca : caller) (facility event_type severity : Z) (buf : option (list Z)) (len format flags : Z)
    (w : world) : option (Z * world) :=
  bad_string ← (if format =? POSIX_LOG_STRING then mem ← buf; n ← mem_strlen mem; Some (negb (n =? u64 (len - 1)))
                else Some false);
  if (bad_string : bool) then Some (EBADMSG, w)
  else if (severity <? LOG_EMERG) || (severity >? LOG_DEBUG) then Some (EINVAL, w)
  else if facility_access_of facility =? -1 then Some (EINVAL, w)
  else
    let '(len, flags) :=
      match buf with
      | None => (0, flags)
      | Some _ => if len >? POSIX_LOG_ENTRY_MAXLEN then (POSIX_LOG_ENTRY_MAXLEN, Z.lor flags POSIX_LOG_TRUNCATE) else (len, flags)
      end in
    if negb (len =? 0) && negb ((format =? POSIX_LOG_BINARY) || (format =? POSIX_LOG_STRING) || (format =? POSIX_LOG_PRINTF))
    then Some (EINVAL, w)
    else
      let log_format := if len =? 0 then POSIX_LOG_NODATA else format in
      '(status, w) ← _evlWriteEx (new_entry ca facility event_type severity flags len log_format) buf w;
      Some (if status =? ENOSPC then ENOSPC else if negb (status =? 0) then EIO else 0, w).

(** [printed] is what [vsnprintf] makes of the format, if it does not fail; [uninit] is what
    the array [buf] of [POSIX_LOG_ENTRY_MAXLEN] characters holds before. *)
Definition printed_buf (printed : option str) (uninit : list Z) : list Z :=
  let last := Z.to_nat (POSIX_LOG_ENTRY_MAXLEN - 1) in
  match printed with
  | Some t => overwrite uninit (take last (bytes_of t) ++ [0])
  | None => <[last := 0]> uninit
  end.
Definition posix_log_vprintf (ca : caller) (facility event_type severity flags : Z) (format : option str) (printed : option str)
    (uninit : list Z) (w : world) : option (Z * world) :=
  match format with
  | None => Some (EINVAL, w)
  | Some _ =>
      let buf := printed_buf printed uninit in
      let cut := match printed with Some t => strlen t >? POSIX_LOG_ENTRY_MAXLEN - 1 | None => true end in
      let flags := if cut then Z.lor flags POSIX_LOG_TRUNCATE else flags in
      n ← mem_strlen buf;
      posix_log_write ca facility event_type severity (Some buf) (n + 1) POSIX_LOG_STRING flags w
  end.
(** The rest of [buf], behind what was packed, is [uninit]. *)
Definition posix_log_vprintb (ca : caller) (facility event_type severity flags : Z) (format : option str) (args : list vaarg)
    (uninit : list Z) (w : world) : option (Z * world) :=
  match format with
  | None => Some (EINVAL, w)
  | Some _ =>
      '(status, pk) ← evl_pack_format_and_args format args [];
      if negb (status =? 0) then Some (status, w)
      else
        pk ← pk;
        posix_log_write ca facility event_type severity (Some (overwrite uninit (pk_data pk))) (pk_reclen pk)
          POSIX_LOG_PRINTF flags w
  end.
Definition evl_log_vwrite (ca : caller) (facility event_type severity flags : Z) (args : list vaarg)
    (uninit : list Z) (w : world) : option (Z * world) :=
  r ← copy_attr_data args;
  match r with
  | None => Some (EINVAL, w)
  | Some pk =>
      posix_log_write ca facility event_type severity (Some (overwrite uninit (pk_data pk))) (pk_reclen pk)
        POSIX_LOG_BINARY flags w
  end.
End LogWrite.
Arguments mkWorld {W}.
Arguments sdMap {W}.
Arguments wd {W}.

(** ** The daemon at the other end *)

Section Daemon.
Context `{RL : RegexLib} `{TL : TemplateLib}.
Abbreviation registry := (_evlFacilityRegistry posix_log_query_t).
Variable host : registry -> Z -> HostLib.
Variable qqparse : str -> str + pnode.
Variables (lock_ok nfy_ok : nat -> bool) (self : self_t).
Variable add_facility : str -> registry -> Z * registry.
Variables (max_sysuid max_userconns : Z).
(** The process and the connection's descriptors: the process's own and the daemon's. *)
Variables (uid pid sd dsd : Z).
Variable now : Z.

(** The daemon, the client's slot while the daemon has the connection open, and what was
    sent and is not yet read. *)
Record link := mkLink { ln_daemon : daemon; ln_slot : option nat; ln_sent : list Z }.
Definition evlogd : logd link := {|
  lg_connect l :=
    let d := accept_client max_sysuid max_userconns dsd uid pid false (ln_daemon l) in
    let slot := fst <$> list_find (fun c => ci_sd c = dsd) (clients d) in
    Some (Some sd, mkLink d slot []);
  lg_write _ bs l :=
    Some (match ln_slot l with
          | Some _ => (true, mkLink (ln_daemon l) (ln_slot l) (ln_sent l ++ bs))
          | None => (false, l)
          end);
  lg_read _ l :=
    match ln_slot l with
    | None => Some ([], l)
    | Some ci =>
        let i := next_buffer (dk (ln_daemon l)) in
        r ← receive_event ci i (ln_sent l) (ln_daemon l);
        match r with
        | inl (_, d) => Some ([], mkLink d None [])
        | inr (rhdr, data, rest, d) =>
            '(_, d) ← handle_event host qqparse lock_ok nfy_ok self add_facility i rhdr data now d;
            Some ([EVENT_READ], mkLink d (Some ci) rest)
        end
    end;
  lg_close _ l :=
    match ln_slot l with
    | None => Some l
    | Some ci => d ← closeClientSocket ci (ln_daemon l); Some (mkLink d None [])
    end
|}.
End Daemon.

(** ** What is sent *)

(** The record that is made of the arguments of [posix_log_write]. *)
Definition event_of (ca : caller) (facility event_type severity : Z) (buf : option (list Z)) (len format flags : Z) : record :=
  match buf with
  | None => (new_entry ca facility event_type severity flags 0 POSIX_LOG_NODATA, [])
  | Some mem =>
      let cut := len >? POSIX_LOG_ENTRY_MAXLEN in
      let size := Z.min len POSIX_LOG_ENTRY_MAXLEN in
      (new_entry ca facility event_type severity (if cut then Z.lor flags POSIX_LOG_TRUNCATE else flags) size
         (if size =? 0 then POSIX_LOG_NODATA else format),
       if cut && (format =? POSIX_LOG_STRING) then take (Z.to_nat (POSIX_LOG_ENTRY_MAXLEN - 1)) mem ++ [0]
       else take (Z.to_nat size) mem)
  end.
(** Arguments that are accepted. *)
Record accepted `{HostLib} (facility severity : Z) (buf : option (list Z)) (len format : Z) : Prop := {
  ac_string : format = POSIX_LOG_STRING -> exists mem, buf = Some mem /\ mem_strlen mem = Some (len - 1);
  ac_severity : LOG_EMERG <= severity <= LOG_DEBUG;
  ac_facility : facility_access_of facility <> -1;
  ac_len : 0 <= len < 2 ^ 64 /\ forall mem, buf = Some mem -> Z.min len POSIX_LOG_ENTRY_MAXLEN <= Z.of_nat (length mem);
  ac_format : buf = None \/ len = 0 \/ format = POSIX_LOG_BINARY \/ format = POSIX_LOG_STRING \/ format = POSIX_LOG_PRINTF
}.

Lemma mem_strlen_end mem : forall n, mem_strlen mem = Some n -> 0 <= n < Z.of_nat (length mem) /\ mem !! Z.to_nat n = Some 0.
Proof.
  induction mem as [|b mem IH]; intros n; [done|]. cbn [mem_strlen length]. destruct (Z.eqb_spec b 0) as [->|Hb].
  - intros [= <-]. by split; [lia|].
  - destruct (mem_strlen mem) as [m|]; [|done]. intros [= <-]. destruct (IH m eq_refl) as [Hm Hz].
    split; [lia|]. by replace (Z.to_nat (1 + m)) with (S (Z.to_nat m)) by lia.
Qed.
(** Ending a string that ends there already, or before, changes nothing. *)
Lemma insert_end (mem : list Z) n k : 0 <= n -> mem !! Z.to_nat n = Some 0 -> n + 1 <= Z.of_nat k + 1 ->
  <[k := 0]> (take (Z.to_nat (n + 1)) mem) = take (Z.to_nat (n + 1)) mem.
Proof.
  intros Hn Hz Hk. destruct (decide (k = Z.to_nat n)) as [->|Hne].
  - apply list_insert_id. rewrite lookup_take_lt by lia. done.
  - apply list_insert_ge. rewrite length_take. lia.
Qed.
Lemma truncated_string (mem : list Z) : POSIX_LOG_ENTRY_MAXLEN < Z.of_nat (length mem) ->
  <[Z.to_nat (POSIX_LOG_ENTRY_MAXLEN - 1) := 0]> (take (Z.to_nat POSIX_LOG_ENTRY_MAXLEN) mem) =
  take (Z.to_nat (POSIX_LOG_ENTRY_MAXLEN - 1)) mem ++ [0].
Proof.
  intros Hl. unfold POSIX_LOG_ENTRY_MAXLEN in *. set (k := Z.to_nat (8192 - 1)).
  replace (Z.to_nat 8192) with (S k) by lia. destruct (lookup_lt_is_Some_2 mem k) as [x Hx]; [lia|].
  rewrite (take_S_r _ _ _ Hx). rewrite insert_app_r_alt by (rewrite length_take; lia).
  rewrite length_take. by replace (k - k `min` length mem)%nat with 0%nat by lia.
Qed.
Lemma has_flag flags : negb (Z.land (Z.lor flags POSIX_LOG_TRUNCATE) POSIX_LOG_TRUNCATE =? 0) = true.
Proof.
  apply negb_true_iff, Z.eqb_neq. intros E. assert (Z.testbit (Z.land (Z.lor flags 1) 1) 0 = false) as Hb
    by (change POSIX_LOG_TRUNCATE with 1 in E; rewrite E; done).
  rewrite Z.land_spec, Z.lor_spec in Hb. cbn in Hb. by rewrite orb_true_r in Hb.
Qed.

Section Sending.
Context `{HostLib}.
Variables (ca : caller) (facility event_type severity : Z) (buf : option (list Z)) (len format flags : Z).
#[local] Abbreviation ev := (event_of ca facility event_type severity buf len format flags).
Hypothesis Hok : accepted facility severity buf len format.

Lemma ev_size : 0 <= log_size (fst ev) <= POSIX_LOG_ENTRY_MAXLEN.
Proof. unfold event_of, POSIX_LOG_ENTRY_MAXLEN. destruct (ac_len _ _ _ _ _ Hok). destruct buf; cbn; lia. Qed.
Lemma ev_data_length : Z.of_nat (length (snd ev)) = log_size (fst ev).
Proof.
  destruct (ac_len _ _ _ _ _ Hok) as [Hl Hm]. unfold event_of, POSIX_LOG_ENTRY_MAXLEN in *. destruct buf as [mem|]; [|done].
  specialize (Hm mem eq_refl). cbn [fst snd new_entry log_size]. destruct (Z.gtb_spec len 8192), (Z.eqb_spec format POSIX_LOG_STRING);
    cbn [andb]; rewrite ?length_app, length_take; cbn [length]; lia.
Qed.
Lemma body_ok : message_body (fst ev) buf = Some (if log_size (fst ev) =? 0 then None else Some (snd ev)).
Proof.
  destruct (ac_len _ _ _ _ _ Hok) as [Hl Hm]. pose proof (ac_string _ _ _ _ _ Hok) as Hs. unfold message_body, cut_string, event_of.
  destruct buf as [mem|]; [|done]. specialize (Hm mem eq_refl). cbn [fst snd new_entry log_size log_format log_flags].
  set (size := Z.min len POSIX_LOG_ENTRY_MAXLEN). destruct (Z.eqb_spec size 0) as [Hz|Hz].
  { change (POSIX_LOG_NODATA =? POSIX_LOG_STRING) with false. cbn [andb]. by rewrite Hz. }
  assert (0 < size <= POSIX_LOG_ENTRY_MAXLEN /\ size <= Z.of_nat (length mem)) as [[H0 H1] H2]
    by (unfold size, POSIX_LOG_ENTRY_MAXLEN in *; lia).
  assert ((size >? 0) = true) as -> by (apply Z.gtb_lt; lia).
  cbn [mbind option_bind]. assert ((size >? Z.of_nat (length mem)) = false) as -> by (rewrite Z.gtb_ltb; apply Z.ltb_ge; lia).
  assert ((size >? POSIX_LOG_ENTRY_MAXLEN) = false) as -> by (rewrite Z.gtb_ltb; apply Z.ltb_ge; lia).
  cbn [orb]. destruct (Z.eqb_spec format POSIX_LOG_STRING) as [->|Hf]; [|by rewrite andb_false_r].
  destruct (Hs eq_refl) as (mem' & [= <-] & Hstr). destruct (mem_strlen_end _ _ Hstr) as [[_ Hbound] Hend]. cbn [andb].
  destruct (Z.gtb_spec len POSIX_LOG_ENTRY_MAXLEN) as [Hc|Hc].
  - rewrite has_flag. cbn [andb]. assert (size = POSIX_LOG_ENTRY_MAXLEN) as -> by (unfold size; lia).
    rewrite truncated_string by lia. done.
  - cbn [andb]. assert (size = len - 1 + 1) as Hsz by (unfold size; lia). destruct (negb _); [|done].
    rewrite Hsz, insert_end; [done|lia|done|unfold POSIX_LOG_ENTRY_MAXLEN in *; lia].
Qed.
(** An accepted event is sent, and nothing else is done. *)
Lemma write_accepted {W} (ld : logd W) (w : world) :
  posix_log_write ld ca facility event_type severity buf len format flags w =
  '(st, w) ← _evlWriteEx ld (fst ev) buf w;
  Some (if st =? ENOSPC then ENOSPC else if negb (st =? 0) then EIO else 0, w).
Proof.
  destruct Hok as [Hs Hsev Hfac [Hl Hm] Hf]. unfold posix_log_write.
  assert ((if format =? POSIX_LOG_STRING then mem ← buf; n ← mem_strlen mem; Some (negb (n =? u64 (len - 1))) else Some false) = Some false) as ->.
  { destruct (Z.eqb_spec format POSIX_LOG_STRING) as [E|]; [|done]. destruct (Hs E) as (mem & -> & Hn). cbn [mbind option_bind].
    rewrite Hn. cbn [mbind option_bind]. pose proof (mem_strlen_end _ _ Hn) as [? _].
    rewrite unsigned_id by (unfold in_unsigned; lia). by rewrite Z.eqb_refl. }
  cbn [mbind option_bind]. assert ((severity <? LOG_EMERG) || (severity >? LOG_DEBUG) = false) as ->.
  { apply orb_false_iff. rewrite Z.gtb_ltb, !Z.ltb_ge. lia. }
  rewrite (proj2 (Z.eqb_neq _ _) Hfac). unfold event_of. destruct buf as [mem|]; [|done]. specialize (Hm mem eq_refl).
  assert ((if len >? POSIX_LOG_ENTRY_MAXLEN then (POSIX_LOG_ENTRY_MAXLEN, Z.lor flags POSIX_LOG_TRUNCATE) else (len, flags)) =
    (Z.min len POSIX_LOG_ENTRY_MAXLEN, if len >? POSIX_LOG_ENTRY_MAXLEN then Z.lor flags POSIX_LOG_TRUNCATE else flags)) as ->.
  { destruct (Z.gtb_spec len POSIX_LOG_ENTRY_MAXLEN); by f_equal; lia. }
  cbn [fst]. set (size := Z.min len _). destruct (Z.eqb_spec size 0) as [Hz|Hz]; [done|].
  assert ((format =? POSIX_LOG_BINARY) || (format =? POSIX_LOG_STRING) || (format =? POSIX_LOG_PRINTF) = true) as ->.
  { rewrite !orb_true_iff, !Z.eqb_eq. destruct Hf as [?|[?|Hf]]; [done| |tauto]. unfold size, POSIX_LOG_ENTRY_MAXLEN in Hz. lia. }
  done.
Qed.
End Sending.

Section Logged.
Context `{HostLib} `{RL : RegexLib} `{TL : TemplateLib}.
Abbreviation registry := (_evlFacilityRegistry posix_log_query_t).
Variable host : registry -> Z -> HostLib.
Variable qqparse : str -> str + pnode.
Variables (lock_ok nfy_ok : nat -> bool) (self : self_t).
Variable add_facility : str -> registry -> Z * registry.
Variables (max_sysuid max_userconns : Z) (uid pid sd dsd now : Z).
#[local] Abbreviation daemon_end :=
  (evlogd host qqparse lock_ok nfy_ok self add_facility max_sysuid max_userconns uid pid sd dsd now).

(** A daemon that logs the events of a facility that come from the caller, who is its client
    [ci]: nothing is filtered and repeated events are not suppressed. *)
Record logs_for (ca : caller) (ci : nat) (facility acc : Z) (d : daemon) : Prop := {
  lf_client : clients d !! ci = Some (mkClient dsd (geteuid (ca_self ca)) (getpid (ca_self ca)));
  lf_sender : getpid (ca_self ca) <> kpid d /\ getpid (ca_self ca) <> rmtdpid d;
  lf_slot : exists x, buf (dk d) !! next_buffer (dk d) = Some x /\ length (eb_data x) = Z.to_nat POSIX_LOG_ENTRY_MAXLEN;
  lf_filter : dis_query d = None;
  lf_access : exists fr, _evlGetFacilityAccessQuery qqparse (host (facilities d) now) facility (facilities d) = Some (None, acc, fr);
  lf_user : Z.land acc EVL_FACC_KERN = 0;
  lf_dups : dis_dup_recs (dconf (dk d)) = false
}.
Definition log_of (acc : Z) : log_id := if negb (Z.land acc EVL_FACC_PRIVATE =? 0) then PvtLog else EvlLog.
(** The daemon marks the record as one of its own machine. *)
Definition received (e : posix_log_entry) : posix_log_entry := set_magic e LOG_MAGIC_ARCH.

Variables (ca : caller) (ci : nat) (facility acc : Z).
Variables (e : posix_log_entry) (data : list Z).
Hypothesis Hentry : entry_ok e.
Hypothesis Harch : log_magic e = LOCAL_ARCH.
Hypothesis Hwho : log_uid e = geteuid (ca_self ca) /\ log_pid e = getpid (ca_self ca).
Hypothesis Hfac : log_facility e = facility.
Hypothesis Hflags : Z.land (log_flags e) EVL_KERNEL_EVENT = 0.
Hypothesis Hsize : log_size e = Z.of_nat (length data) /\ log_size e <= POSIX_LOG_ENTRY_MAXLEN.

Lemma set_slot_some (d : daemon) i x e' data' : buf (dk d) !! i = Some x ->
  set_slot d i e' data' = Some (set_dk d (set_buf (<[i := mkSlot e' data' (in_use x)]> (buf (dk d))) (dk d))).
Proof. intros Hx. unfold set_slot. by rewrite Hx. Qed.
(** The daemon reads what was sent. *)
Lemma event_received d : logs_for ca ci facility acc d ->
  exists d' x data', receive_event ci (next_buffer (dk d)) (entry_bytes e ++ data) d = Some (inr (received e, data', [], d')) /\
    take (length data) data' = data /\ length data' = Z.to_nat POSIX_LOG_ENTRY_MAXLEN /\
    d' = set_dk d (set_buf (<[next_buffer (dk d) := x]> (buf (dk d))) (dk d)).
Proof.
  intros [Hc [Hk Hr] (x & Hx & Hlx) _ _ _ _]. set (i := next_buffer (dk d)) in *. unfold receive_event. rewrite Hc. cbn [mbind option_bind].
  rewrite Hx. cbn [mbind option_bind]. rewrite header_received by (rewrite ?Harch; done). rewrite (set_slot_some d i x _ _ Hx). cbn [mbind option_bind].
  set (d1 := set_dk d _). assert (bad_sender d1 (mkClient dsd (geteuid (ca_self ca)) (getpid (ca_self ca))) e = false) as ->.
  { unfold bad_sender. cbn [ci_uid ci_pid]. destruct Hwho as [-> ->]. rewrite !Z.eqb_refl, Hflags. cbn. by rewrite !andb_false_r. }
  assert (set_magic e (local_magic d1 (mkClient dsd (geteuid (ca_self ca)) (getpid (ca_self ca))) e) = received e) as ->.
  { unfold local_magic, received. cbn [ci_pid]. change (rmtdpid d1) with (rmtdpid d). rewrite (proj2 (Z.eqb_neq _ _) Hr).
    by rewrite Harch. }
  change (log_size (received e)) with (log_size e). destruct Hsize as [Hs Hm].
  assert (s32 (log_size e) = log_size e) as Hsz by (apply signed_id; [lia|]; unfold in_signed, POSIX_LOG_ENTRY_MAXLEN in *; lia).
  assert (buf (dk d1) !! i = Some (mkSlot e (eb_data x) (in_use x))) as Hx1 by (cbn; apply list_lookup_insert_eq; by eapply lookup_lt_Some).
  set (data' := overwrite (eb_data x) data). assert (length data' = Z.to_nat POSIX_LOG_ENTRY_MAXLEN) as Hld
    by (unfold data'; rewrite length_overwrite; [done|unfold POSIX_LOG_ENTRY_MAXLEN in *; lia]).
  assert ((if log_size e <=? 0 then Some (true, eb_data x) else _evlReadEx (eb_data x) (log_size e) data) = Some (true, data')) as ->.
  { destruct (Z.leb_spec (log_size e) 0) as [H0|H0].
    - unfold data'. assert (data = []) as -> by (apply length_zero_iff_nil; lia). done.
    - unfold _evlReadEx. rewrite Hsz. rewrite (proj2 (Z.leb_gt _ _)) by done. rewrite take_ge by lia.
      assert ((Z.of_nat (length data) >? POSIX_LOG_ENTRY_MAXLEN) = false) as -> by (rewrite Z.gtb_ltb; apply Z.ltb_ge; lia).
      by rewrite <-Hs, Z.eqb_refl. }
  cbn [mbind option_bind]. rewrite (set_slot_some d1 i _ _ _ Hx1). cbn [mbind option_bind negb].
  change (log_size (received e)) with (log_size e). rewrite Hsz, drop_ge by lia. do 3 eexists. split; [done|].
  split; [unfold data', overwrite; by rewrite take_app_length|]. split; [done|]. unfold d1. cbn [dk set_dk set_buf buf].
  by rewrite list_insert_insert_eq.
Qed.
(** The event is logged: its record, with the next id, ends the log. *)
Lemma event_logged d x data' h rs : logs_for ca ci facility acc d ->
  take (length data) data' = data -> length data' = Z.to_nat POSIX_LOG_ENTRY_MAXLEN ->
  let i := next_buffer (dk d) in let w := log_of acc in
  let d1 := set_dk d (set_buf (<[i := x]> (buf (dk d))) (dk d)) in
  sink_ok (ds d) -> gRecId (ds d) + 4 < 2 ^ 31 -> models h (mkAlog rs None 0) (out_of w (ds d)) -> lock_ok (lock_calls (ds d)) = true ->
  let e' := with_recid (received e) (next_id w (gRecId (ds d))) in
  exists d', handle_event host qqparse lock_ok nfy_ok self add_facility i (received e) data' now d1 = Some (0, d') /\
    models h (mkAlog (rs ++ [(e', data)]) None 0) (out_of w (ds d')) /\ be_runs d' = be_runs d ++ [e'].
Proof.
  intros [_ _ (y & Hy & _) Hdis [fr Hacc] Huser Hdups] Htake Hld i w d1 Hok Hg Hm Hlock e'.
  assert (forall v (d2 : daemon), handleFacRegEvent host add_facility (received e) v now (facilities d2) = Some (received e, v, facilities d2)) as Hreg.
  { intros v d2. unfold handleFacRegEvent. change (log_flags (received e)) with (log_flags e). rewrite Hflags. by destruct (_ || _). }
  unfold handle_event, screen_event. change (dis_query d1) with (dis_query d). rewrite Hdis. cbn [mbind option_bind].
  change (facilities d1) with (facilities d). change (log_facility (received e)) with (log_facility e). rewrite Hfac, Hacc.
  cbn [mbind option_bind]. rewrite Huser. cbn [Z.eqb negb andb mbind option_bind]. rewrite (Hreg _ (set_facilities d1 fr)). cbn [mbind option_bind].
  replace (default data' _) with data' by (by destruct (_ <=? 0)). set (d2 := set_facilities _ _).
  assert (exists z, buf (dk d2) !! i = Some z) as [z Hz].
  { exists x. cbn. apply list_lookup_insert_eq. by eapply lookup_lt_Some. }
  rewrite (set_slot_some d2 i z _ _ Hz). cbn [mbind option_bind]. set (d3 := set_dk d2 _).
  assert (buf (dk d3) !! i = Some (mkSlot (received e) data' (in_use z))) as H3 by (cbn; apply list_lookup_insert_eq; by eapply lookup_lt_Some).
  unfold log_event, dropDupRecord. change (dis_dup_recs (dconf (dk d3))) with (dis_dup_recs (dconf (dk d))). rewrite Hdups. cbn [negb mbind option_bind].
  assert ((if negb (acc =? -1) && negb (Z.land acc EVL_FACC_PRIVATE =? 0) then PvtLog else EvlLog) = w) as ->.
  { unfold w, log_of. destruct (Z.eqb_spec acc (-1)) as [->|]; [done|]. done. }
  set (d4 := set_ds (set_dk d3 (dk d3)) (ds d3)). change (buf (dk d4)) with (buf (dk d3)). rewrite H3. cbn [mbind option_bind eb_entry eb_data].
  destruct (log_record_spec lock_ok nfy_ok self h (mkAlog rs None 0) w (received e) data' now (ds d) Hok Hg) as (s' & Hlog & Hm' & _); [|exact Hm|cbn; lia|].
  { destruct Hsize. split; [cbn; lia|]. change (log_size (received e)) with (log_size e). rewrite Hld. unfold POSIX_LOG_ENTRY_MAXLEN in *. lia. }
  cbn zeta in Hlog. change (ds d4) with (ds d). rewrite Hlog. cbn [mbind option_bind].
  rewrite (set_slot_some _ i (mkSlot (received e) data' (in_use z))) by exact H3. cbn [mbind option_bind Z.ltb Z.compare].
  set (d5 := set_dk _ _). assert (buf (dk d5) !! i = Some (mkSlot e' data' (in_use z))) as -> by (cbn; apply list_lookup_insert_eq; by eapply lookup_lt_Some).
  cbn [mbind option_bind eb_entry]. eexists. split; [done|]. split; [|done]. rewrite Hlock in Hm'.
  unfold event_rec in Hm'. change (log_size (received e)) with (log_size e) in Hm'. destruct Hsize as [Hs _].
  rewrite Hs, Nat2Z.id, Htake in Hm'. exact Hm'.
Qed.
End Logged.

(** ** The connections of the processes *)

Section Connections.
Context {W : Type} (ld : logd W) `{HostLib}.
(** A process has one connection, and a descriptor belongs to one. *)
Definition connections_ok (m : list (Z * Z)) : Prop := NoDup m.*1 /\ NoDup m.*2.
(** The system gives a descriptor that is not in use. *)
Definition fresh (w : world (W:=W)) : Prop := forall sd d, lg_connect ld (wd w) = Some (Some sd, d) -> sd ∉ (sdMap w).*2.

Lemma find_by {A} (f : A -> Z) (l : list A) k :
  match list_find (fun m => f m = k) l with
  | Some (i, x) => l !! i = Some x /\ f x = k
  | None => k ∉ f <$> l
  end.
Proof.
  destruct (list_find _ l) as [[i x]|] eqn:E.
  - apply list_find_Some in E. tauto.
  - apply list_find_None in E. rewrite list_elem_of_fmap. intros (x & -> & Hx). rewrite Forall_forall in E. by apply (E x).
Qed.
Lemma getSd_spec pid w sd w1 : connections_ok (sdMap w) -> fresh w -> getSdByPid ld pid w = Some (sd, w1) ->
  connections_ok (sdMap w1) /\ sdMap w `prefix_of` sdMap w1 /\
  match sd with
  | Some sd => (pid, sd) ∈ sdMap w1 /\ forall m, m ∈ sdMap w1 -> m ∈ sdMap w \/ m = (pid, sd)
  | None => sdMap w1 = sdMap w /\ pid ∉ (sdMap w1).*1
  end.
Proof.
  intros [H1 H2] Hfr Hg. unfold getSdByPid in Hg. pose proof (find_by fst (sdMap w) pid) as Hf.
  destruct (list_find _ (sdMap w)) as [[i [p s]]|].
  - destruct Hf as [Hi Hp]. cbn in Hp. subst p. simplify_eq. split; [done|]. split; [done|]. split; [by eapply list_elem_of_lookup_2|]. intros m Hm; by left.
  - destruct (lg_connect ld (wd w)) as [[[s|] d]|] eqn:E; cbn in Hg; simplify_eq; cbn [sdMap]; [|done].
    pose proof (Hfr _ _ E) as Hs. split; [|split; [by eexists|split; [set_solver|]]].
    + split; rewrite fmap_app; apply NoDup_app; (split; [done|]); (split; [set_solver|]); apply NoDup_singleton.
    + intros m. rewrite elem_of_app, list_elem_of_singleton. tauto.
Qed.
(** What is left when the connection of a process is forgotten. *)
Lemma zap_spec pid sd (w : world (W:=W)) : connections_ok (sdMap w) -> (pid, sd) ∈ sdMap w ->
  connections_ok (sdMap (zapSd sd w)) /\ pid ∉ (sdMap (zapSd sd w)).*1 /\
  forall m, m ∈ sdMap (zapSd sd w) <-> m ∈ sdMap w /\ m <> (pid, sd).
Proof.
  intros [H1 H2] Hin. unfold zapSd. pose proof (find_by snd (sdMap w) sd) as Hf. destruct (list_find _ (sdMap w)) as [[i [p s]]|].
  2: { exfalso. apply Hf. apply list_elem_of_fmap. by exists (pid, sd). }
  destruct Hf as [Hi Hs]. cbn in Hs. subst s. apply list_elem_of_lookup in Hin as [j Hj].
  assert (j = i) as -> by (eapply (NoDup_lookup (sdMap w).*2); [done|by rewrite list_lookup_fmap, Hj|by rewrite list_lookup_fmap, Hi]).
  rewrite Hi in Hj. injection Hj as <-. cbn [sdMap]. pose proof (delete_Permutation _ _ _ Hi) as Hp. remember (delete i (sdMap w)) as l eqn:El. clear El.
  assert (NoDup (p :: l.*1)) as Hn1 by (by rewrite Hp in H1).
  assert (NoDup (sd :: l.*2)) as Hn2 by (by rewrite Hp in H2).
  apply NoDup_cons in Hn1 as [Hp1 Hn1]. apply NoDup_cons in Hn2 as [Hp2 Hn2]. split; [done|]. split; [done|].
  intros m. rewrite Hp, elem_of_cons. split.
  - intros Hm. split; [by right|]. intros ->. apply Hp1. apply list_elem_of_fmap. by exists (p, sd).
  - intros [[->|Hm] Hne]; [done|done].
Qed.
Lemma writeEx2_status sd e buf d r d' : _evlWriteEx2 ld sd e buf d = Some (r, d') -> r = 0 \/ r = EIO.
Proof.
  unfold _evlWriteEx2. destruct (lg_write ld sd (entry_bytes e) d) as [[[] d1]|]; cbn; [|intros; simplify_eq; by right|done].
  destruct (message_body e buf) as [[data|]|]; cbn; [|intros; simplify_eq; by left|done].
  destruct (lg_write ld sd data d1) as [[[] d2]|]; cbn; intros; simplify_eq; [by left|by right].
Qed.
(** An event of process [pid] was sent, or its connection is closed. *)
Definition after_write (pid st : Z) (w w' : world (W:=W)) : Prop :=
  connections_ok (sdMap w') /\ (st = 0 /\ pid ∈ (sdMap w').*1 \/ (st = EIO \/ st = ECONNREFUSED) /\ pid ∉ (sdMap w').*1) /\
  forall m, fst m <> pid -> (m ∈ sdMap w' <-> m ∈ sdMap w).
Lemma writeEx_spec e buf w st w' : connections_ok (sdMap w) -> fresh w -> _evlWriteEx ld e buf w = Some (st, w') ->
  after_write (log_pid e) st w w'.
Proof.
  intros Hok Hfr. unfold _evlWriteEx. destruct (getSdByPid ld (log_pid e) w) as [[sd w1]|] eqn:Hg; cbn; [|done].
  destruct (getSd_spec _ _ _ _ Hok Hfr Hg) as (Hok1 & [k Hpre] & Hsd). destruct sd as [sd|].
  2: { intros; simplify_eq. destruct Hsd as [Hs Hp]. split; [done|]. split; [|by rewrite Hs]. right. split; [by right|done]. }
  destruct Hsd as [Hin Hnew]. assert (forall m, fst m <> log_pid e -> (m ∈ sdMap w1 <-> m ∈ sdMap w)) as Hoth.
  { intros m Hm. split; [intros [?| ->]%Hnew; done|]. rewrite Hpre, elem_of_app. by left. }
  destruct (_evlWriteEx2 ld sd e buf (wd w1)) as [[r d]|] eqn:Hw; cbn; [|done]. pose proof (writeEx2_status _ _ _ _ _ _ Hw) as Hr.
  assert (forall r2 d2 x, (r2 = 0 \/ r2 = EIO) ->
    (if r2 =? 0 then Some (r2, mkWorld (sdMap w1) d2) else d3 ← lg_close ld sd d2; Some (r2, zapSd sd (mkWorld (sdMap w1) d3))) = Some (st, x) ->
    after_write (log_pid e) st w x) as Hend.
  { intros r2 d2 x [-> | ->]; cbn; intros Hx; simplify_eq.
    - split_and!; [done| |done]. left. split; [done|]. apply list_elem_of_fmap. by exists (log_pid e, sd).
    - destruct (lg_close ld sd d2) as [d3|]; cbn in Hx; simplify_eq. destruct (zap_spec (log_pid e) sd (mkWorld (sdMap w1) d3) Hok1 Hin) as (Hz & Hp & Hm).
      split_and!; [done| |]; [right; split; [by left|done]|]. intros m Hne. rewrite Hm, <-(Hoth m Hne). cbn. split; [tauto|]. intros ?. split; [done|]. by intros ->. }
  destruct (r =? EIO); cbn; [by apply Hend|]. destruct (lg_read ld sd d) as [[c d2]|]; cbn; [|done].
  apply Hend. destruct (bool_decide _); [done|by right].
Qed.

(** C28: an event that cannot be sent, or that the daemon does not acknowledge, is
    reported with EIO, and the connection of the calling process is closed and forgotten, so that the
    next event opens a new one; arguments that are refused leave everything as it was; the
    connections of other processes stay, and no process has two. *)
Theorem failed_write_closes_connection ca facility event_type severity buf len format flags w st w' :
  connections_ok (sdMap w) -> fresh w ->
  posix_log_write ld ca facility event_type severity buf len format flags w = Some (st, w') ->
  connections_ok (sdMap w') /\
  ((st = EBADMSG \/ st = EINVAL) /\ w' = w \/
   st = 0 /\ getpid (ca_self ca) ∈ (sdMap w').*1 \/
   st = EIO /\ getpid (ca_self ca) ∉ (sdMap w').*1) /\
  (forall m, fst m <> getpid (ca_self ca) -> (m ∈ sdMap w' <-> m ∈ sdMap w)).
Proof.
  intros Hok Hfr. unfold posix_log_write. destruct (if format =? POSIX_LOG_STRING then _ else _) as [[]|]; cbn; [|..]; [| |done].
  { intros; simplify_eq. split_and!; [done| |done]. left. split; [by left|done]. }
  destruct (_ || _); [intros; simplify_eq; split_and!; [done| |done]; left; split; [by right|done]|].
  destruct (_ =? -1); [intros; simplify_eq; split_and!; [done| |done]; left; split; [by right|done]|].
  destruct (match buf with Some _ => _ | None => _ end) as [n fl]. destruct (_ && _).
  { intros; simplify_eq. split_and!; [done| |done]. left. split; [by right|done]. }
  destruct (_evlWriteEx _ _ _ _) as [[r w1]|] eqn:Hw; cbn; [|done]. intros; simplify_eq.
  destruct (writeEx_spec _ _ _ _ _ Hok Hfr Hw) as (Hok1 & Hst & Hoth). cbn in Hst, Hoth. split_and!; [done| |done].
  destruct Hst as [[-> Hin]|[[-> | ->] Hp]]; [by right; left|by right; right..].
Qed.
End Connections.

(** ** From the program to the log *)

Lemma user_flags flags (c : bool) : Z.land flags EVL_KERNEL_EVENT = 0 ->
  Z.land (if c then Z.lor flags POSIX_LOG_TRUNCATE else flags) EVL_KERNEL_EVENT = 0.
Proof. intros Hf. destruct c; [|done]. by rewrite Z.land_lor_distr_l, Hf. Qed.
Lemma received_ok e id : entry_ok e -> in_signed 32 id -> entry_ok (with_recid (received e) id).
Proof. unfold entry_ok. intros He Hid. destruct_and!. cbn. split_and!; done. Qed.
Lemma models_read h rs o n : models h (mkAlog rs None 0) o -> header_ok h -> lh_magic h = LOGFILE_MAGIC ->
  Z.odd (lh_generation h) = false -> Forall rec_ok rs -> n < POSIX_LOG_OPEN_MAX ->
  exists ld, posix_log_open n (inr (f_bytes (lo_file o))) = Some (inr ld, n + 1) /\ read_all (S (length rs)) ld = (rs, EAGAIN).
Proof.
  intros [[Hf _] _] Hh Hm Hg Hrs Hn. change (al_recs _) with rs in Hf. rewrite Hf, open_image, Hg by done. eexists. split; [done|].
  apply (read_all_image h rs Hh Hrs (S (length rs)) 0). lia.
Qed.

Section EndToEnd.
Context `{HostLib} `{RL : RegexLib} `{TL : TemplateLib}.
Abbreviation registry := (_evlFacilityRegistry posix_log_query_t).
Variable host : registry -> Z -> HostLib.
Variable qqparse : str -> str + pnode.
Variables (lock_ok nfy_ok : nat -> bool) (self : self_t).
Variable add_facility : str -> registry -> Z * registry.
Variables (max_sysuid max_userconns : Z) (uid pid sd dsd now : Z).
#[local] Abbreviation daemon_end :=
  (evlogd host qqparse lock_ok nfy_ok self add_facility max_sysuid max_userconns uid pid sd dsd now).

(** The daemon's end of a write: the event is handled. *)
Lemma writeEx_logged e data buf w w1 ci d r : message_body e buf = Some (if log_size e =? 0 then None else Some data) ->
  (log_size e = 0 -> data = []) ->
  getSdByPid daemon_end (log_pid e) w = Some (Some sd, w1) -> wd w1 = mkLink d (Some ci) [] ->
  (exists d' data', receive_event ci (next_buffer (dk d)) (entry_bytes e ++ data) d = Some (inr (received e, data', [], d')) /\
     handle_event host qqparse lock_ok nfy_ok self add_facility (next_buffer (dk d)) (received e) data' now d' = Some r) ->
  _evlWriteEx daemon_end e buf w = Some (0, mkWorld (sdMap w1) (mkLink (snd r) (Some ci) [])).
Proof.
  intros Hbody Hnil Hsd Hw (d' & data' & Hrec & Hh). unfold _evlWriteEx. rewrite Hsd. cbn [mbind option_bind].
  assert (_evlWriteEx2 daemon_end sd e buf (wd w1) = Some (0, mkLink d (Some ci) (entry_bytes e ++ data))) as ->.
  { unfold _evlWriteEx2. rewrite Hw. cbn [lg_write evlogd ln_slot ln_daemon ln_sent mbind option_bind negb]. rewrite Hbody. cbn [mbind option_bind].
    destruct (Z.eqb_spec (log_size e) 0) as [Hz|Hz]; [by rewrite (Hnil Hz), app_nil_r|]. done. }
  cbn [mbind option_bind Z.eqb EIO lg_read evlogd ln_slot ln_daemon ln_sent]. rewrite Hrec. cbn [mbind option_bind]. rewrite Hh.
  destruct r as [rr dd]. cbn [mbind option_bind snd]. by rewrite bool_decide_true by done.
Qed.

(** An accepted event is logged. *)
Lemma write_logged ca ci facility event_type severity buf len format flags w w1 d acc h rs :
  let ev := event_of ca facility event_type severity buf len format flags in
  let log := log_of acc in
  let r := (with_recid (received (fst ev)) (next_id log (gRecId (ds d))), snd ev) in
  accepted facility severity buf len format -> entry_ok (fst ev) -> Z.land flags EVL_KERNEL_EVENT = 0 ->
  getSdByPid daemon_end (getpid (ca_self ca)) w = Some (Some sd, w1) -> wd w1 = mkLink d (Some ci) [] ->
  logs_for host qqparse dsd now ca ci facility acc d ->
  sink_ok (ds d) -> gRecId (ds d) + 4 < 2 ^ 31 -> lock_ok (lock_calls (ds d)) = true ->
  models h (mkAlog rs None 0) (out_of log (ds d)) ->
  exists d', posix_log_write daemon_end ca facility event_type severity buf len format flags w =
      Some (0, mkWorld (sdMap w1) (mkLink d' (Some ci) [])) /\
    models h (mkAlog (rs ++ [r]) None 0) (out_of log (ds d')) /\ be_runs d' = be_runs d ++ [fst r] /\ rec_ok r.
Proof.
  intros ev log r Hacc Hent Hfl Hsd Hw Hd Hs Hg Hlock Hm.
  pose proof (ev_size ca facility event_type severity buf len format flags Hacc) as Hsz.
  pose proof (ev_data_length ca facility event_type severity buf len format flags Hacc) as Hdl.
  pose proof (body_ok ca facility event_type severity buf len format flags Hacc) as Hbody. fold ev in Hsz, Hdl, Hbody.
  assert (log_magic (fst ev) = LOCAL_ARCH /\ (log_uid (fst ev) = geteuid (ca_self ca) /\ log_pid (fst ev) = getpid (ca_self ca)) /\
    log_facility (fst ev) = facility) as (Harch & Hwho & Hfac) by (unfold ev, event_of; by destruct buf).
  assert (Z.land (log_flags (fst ev)) EVL_KERNEL_EVENT = 0) as Hk by (unfold ev, event_of; destruct buf; [by apply user_flags|done]).
  assert (log_size (fst ev) = Z.of_nat (length (snd ev)) /\ log_size (fst ev) <= POSIX_LOG_ENTRY_MAXLEN) as Hsize by lia.
  destruct (event_received host qqparse dsd now ca ci facility acc _ _ Hent Harch Hwho Hk Hsize d Hd)
    as (d1 & x & data' & Hrec & Htake & Hld & ->).
  destruct (event_logged host qqparse lock_ok nfy_ok self add_facility dsd now ca ci facility acc _ _ Hfac Hk Hsize d x data' h rs Hd Htake Hld Hs Hg Hm Hlock)
    as (d2 & Hev & Hm2 & Hbe).
  exists d2. split; [|split; [done|split; [done|]]].
  - rewrite (write_accepted _ _ _ _ _ _ _ _ Hacc). fold ev.
    erewrite (writeEx_logged (fst ev) (snd ev) buf w w1 ci d (0, d2));
      [done|exact Hbody|intros; apply length_zero_iff_nil; lia|by rewrite (proj2 Hwho)|done|by do 2 eexists].
  - split; [|split; cbn; lia]. apply received_ok; [done|]. pose proof (next_id_bounds log (gRecId (ds d))) as [? _].
    pose proof (sink_ids _ Hs). unfold in_signed. lia.
Qed.


End EndToEnd.

(** ** Instances *)

Section Samples.
#[local] Existing Instance sample_regex.
#[local] Existing Instance sample_templates.
#[local] Existing Instance bare_machine.
#[local] Instance no_real_text : TextOfReal := { text_of_real _ _ := None }.
#[local] Instance no_format : TmplFormat := {
  formatRecordFromTemplate _ f := Some f;
  _evlFormatTmplAttribute _ _ _ f := Some f
}.
Definition sample_caller : caller := mkCaller 1000 0 (mkSelf 500 500 42 42 1 0) 0.
(** A daemon that hangs up. *)
Definition deaf : logd unit := mkLogd unit (fun d => Some (Some 5, d)) (fun _ _ d => Some (false, d)) (fun _ d => Some ([], d)) (fun _ d => Some d).
Lemma failed_write_closes_connection_witness :
  (EIO = EBADMSG \/ EIO = EINVAL) /\ mkWorld [(7, 3)] tt = mkWorld [(7, 3)] tt \/ EIO = 0 /\ 42 ∈ [7] \/ EIO = EIO /\ 42 ∉ [7].
Proof.
  refine (proj1 (proj2 (failed_write_closes_connection deaf sample_caller 8 7 6 (Some [97; 0]) 2 POSIX_LOG_STRING 0 (mkWorld [(7, 3)] tt) EIO
    (mkWorld [(7, 3)] tt) _ _ _))).
  - split; apply NoDup_singleton.
  - intros sd d [= <- <-]. set_solver.
  - vm_compute. reflexivity.
Defined.

Definition quiet_look : lookback := mkLookback (mkDups 0 None) (mkDups 0 None) [null_slot] (-1) (mkConf 10 60 60 1 false).
(** Slot 0 is the caller's. *)
Definition listening : daemon := mkDaemon quiet_look sample_sink [mkClient 4 500 42] 99 0 one_facility_registry None [].
#[local] Abbreviation sample_daemon_end :=
  (evlogd sample_host no_parser (fun _ => true) (fun _ => true) sample_self no_facility 99 10 500 42 3 4 120).
Definition connected : world := mkWorld [(42, 3)] (mkLink listening (Some 0%nat) []).
Lemma listening_logs : logs_for sample_host no_parser 4 120 sample_caller 0 8 0 listening.
Proof.
  split; try done.
  - exists null_slot. split; [done|]. vm_compute. reflexivity.
  - eexists. vm_compute. reflexivity.
Qed.
Lemma sample_log_header_ok : header_ok LogSink.sample_header.
Proof. unfold header_ok, in_signed, in_unsigned, LogSink.sample_header, LOGFILE_MAGIC. cbn. lia. Qed.
Definition hello : list Z := [104; 101; 108; 108; 111; 0].
Definition hello_entry : posix_log_entry := mkEntry LOG_MAGIC_ARCH 1 6 POSIX_LOG_STRING 7 8 6 500 500 42 42 1000 0 0 1 0.
End Samples.
