(* ===== verification/Conv.v ===== *)
(** * Data of other machines ([lib/template/convert.c], the tables of [template.c])

    A log can hold records that were written on another architecture; the low half of a
    record's magic number names it.  The sizes and alignments of the C types there are in
    [_evlTmplArchTypeInfo]; the values are converted to those of this machine, an x86-64.
    Memory is a list of bytes from an address to the end of its block; [None] is an access
    behind the block.  What the code leaves uninitialised is zero here. *)
From S2P Require Import Prelude NvPairs LogRecord QEvaluate LogSink RecPack.

(** ** Architectures ([evlog.h]) *)

Definition LOGREC_NO_ARCH : Z := 0.
Definition LOGREC_ARCH_IA64 : Z := 2.
Definition LOGREC_ARCH_S390 : Z := 3.
Definition LOGREC_ARCH_S390X : Z := 4.
Definition LOGREC_ARCH_PPC : Z := 5.
Definition LOGREC_ARCH_PPC64 : Z := 6.
Definition LOGREC_ARCH_X86_64 : Z := 7.
Definition LOGREC_ARCH_ARM_BE : Z := 8.
Definition LOGREC_ARCH_ARM_LE : Z := 9.
Definition COMPILED_ARCH : Z := 0.

Record tmpl_arch_type_info_t := mkTi { at_size : Z; at_align : Z }.
(** A row: the alignment of [long long], the alignment of [double], the entry of
    [long double], and the size of a long and of a pointer. *)
Definition arch_row (lla da : Z) (ld : tmpl_arch_type_info_t) (word : Z) : list tmpl_arch_type_info_t :=
  [ mkTi 0 0; mkTi 1 1; mkTi 1 1; mkTi 2 2; mkTi 2 2; mkTi 4 4; mkTi 4 4; mkTi word word; mkTi word word;
    mkTi 8 lla; mkTi 8 lla; mkTi 4 4; mkTi 8 da; ld; mkTi word 0; mkTi 4 4; mkTi word 0; mkTi word word;
    mkTi 0 0; mkTi 0 0; mkTi 0 0; mkTi 0 0; mkTi 0 0; mkTi 0 0 ].
Definition _evlTmplArchTypeInfo : list (list tmpl_arch_type_info_t) :=
  [ arch_row 8 8 (mkTi 16 16) 8;      (* LOGREC_NO_ARCH: this machine *)
    arch_row 4 4 (mkTi 12 4) 4;       (* LOGREC_ARCH_I386 *)
    arch_row 8 8 (mkTi 16 16) 8;      (* LOGREC_ARCH_IA64 *)
    arch_row 8 8 (mkTi 8 8) 4;        (* LOGREC_ARCH_S390 *)
    arch_row 8 8 (mkTi 8 8) 8;        (* LOGREC_ARCH_S390X *)
    arch_row 8 8 (mkTi 8 8) 4;        (* LOGREC_ARCH_PPC *)
    arch_row 8 8 (mkTi 8 8) 8;        (* LOGREC_ARCH_PPC64 *)
    arch_row 8 8 (mkTi 16 16) 8;      (* LOGREC_ARCH_X86_64 *)
    arch_row 8 8 (mkTi 8 8) 8;        (* LOGREC_ARCH_ARM_BE *)
    arch_row 8 8 (mkTi 8 8) 8 ].      (* LOGREC_ARCH_ARM_LE *)
(** The place of a type in the enumeration. *)
Definition type_index (ty : base_type) : nat :=
  match ty with
  | TY_NONE => 0 | TY_CHAR => 1 | TY_UCHAR => 2 | TY_SHORT => 3 | TY_USHORT => 4 | TY_INT => 5 | TY_UINT => 6
  | TY_LONG => 7 | TY_ULONG => 8 | TY_LONGLONG => 9 | TY_ULONGLONG => 10 | TY_FLOAT => 11 | TY_DOUBLE => 12
  | TY_LDOUBLE => 13 | TY_STRING => 14 | TY_WCHAR => 15 | TY_WSTRING => 16 | TY_ADDRESS => 17 | TY_STRUCT => 18
  | TY_PREFIX3 => 19 | TY_LIST => 20 | TY_STRUCTNAME => 21 | TY_TYPEDEF => 22 | TY_SPECIAL => 23
  end.
(** [&_evlTmplArchTypeInfo[arch][ty]]; an architecture that is not in the table is an
    access behind it. *)
Definition arch_type_info (arch : Z) (ty : base_type) : option tmpl_arch_type_info_t :=
  if arch <? 0 then None else row ← _evlTmplArchTypeInfo !! Z.to_nat arch; row !! type_index ty.
Definition local_size (ty : base_type) : Z :=
  match arch_type_info COMPILED_ARCH ty with Some ti => at_size ti | None => 0 end.

(** ** Conversions *)

Inductive conv_t := NO_CONV | BS_32_32 | BS_32_64 | BS_64_32 | BS_64_64 | LE_32_64 | LE_64_32 | BE_32_64 | BE_64_32.
#[global] Instance conv_t_eq_dec : EqDecision conv_t.
Proof. solve_decision. Defined.
(** A row per architecture of the record, a column per architecture of the machine. *)
Definition conv_info : list (list conv_t) :=
  [ replicate 10 NO_CONV;
    [NO_CONV; NO_CONV;  LE_32_64; BS_32_32; BS_32_64; BS_32_32; BS_32_64; LE_32_64; NO_CONV;  BS_32_32];
    [NO_CONV; LE_64_32; NO_CONV;  BS_64_32; BS_64_64; BS_64_32; BS_64_64; NO_CONV;  LE_64_32; BS_64_32];
    [NO_CONV; BS_32_32; BS_32_64; NO_CONV;  BE_32_64; NO_CONV;  BE_32_64; BS_32_64; BS_32_32; NO_CONV];
    [NO_CONV; BS_64_32; BS_64_64; BE_64_32; NO_CONV;  BE_64_32; NO_CONV;  BS_64_64; BS_64_32; BE_64_32];
    [NO_CONV; BS_32_32; BS_32_64; NO_CONV;  BE_32_64; NO_CONV;  BE_32_64; BS_32_64; BS_32_32; NO_CONV];
    [NO_CONV; BS_64_32; BS_64_64; BE_64_32; NO_CONV;  BE_64_32; NO_CONV;  BS_64_64; BS_64_32; BE_64_32];
    [NO_CONV; LE_64_32; NO_CONV;  BS_64_32; BS_64_64; BS_64_32; BS_64_64; NO_CONV;  LE_64_32; BE_64_32];
    [NO_CONV; BS_32_32; BS_32_64; NO_CONV;  BE_32_64; NO_CONV;  BE_32_64; BS_32_64; BS_32_32; NO_CONV];
    [NO_CONV; NO_CONV;  LE_32_64; BS_32_32; BS_32_64; BS_32_32; BS_32_64; LE_32_64; NO_CONV;  BS_32_32] ].
Definition conv_type_of (arch : Z) : option conv_t :=
  if arch <? 0 then None else row ← conv_info !! Z.to_nat arch; row !! Z.to_nat LOCAL_ARCH.
(** The [switch] of the interface functions. *)
Definition supported_arch (arch : Z) : bool := (1 <=? arch) && (arch <=? 9).
Definition swaps (c : conv_t) : bool :=
  match c with BS_32_32 | BS_32_64 | BS_64_32 | BS_64_64 => true | _ => false end.

(** [memcpy(buf + off, bs, ...)] *)
Definition store_at (off : nat) (bs buf : list Z) : list Z := take off buf ++ bs ++ drop (off + length bs) buf.
Definition swap_at (i j : nat) (d : list Z) : list Z :=
  match d !! i, d !! j with Some x, Some y => <[j := x]> (<[i := y]> d) | _, _ => d end.
(** [for (i = 0, j = nbytes-1; i < j; i++, j--)] *)
Fixpoint byteswap_loop (fuel i : nat) (j : Z) (d : list Z) : list Z :=
  match fuel with
  | O => d
  | S fuel => if Z.of_nat i <? j then byteswap_loop fuel (S i) (j - 1) (swap_at i (Z.to_nat j) d) else d
  end.
Definition byteswap (d : list Z) (nbytes : Z) : list Z := byteswap_loop (Z.to_nat nbytes) 0 (nbytes - 1) d.

(** *** [long double] *)

(** The double of a machine that is not an Intel: its high and its low word.  The words
    of the argument are loaded from the little-endian record and swapped. *)
Definition intel_ldouble2ppc_double (arr : list Z) : Z * Z :=
  let word i := le_decode (take 4 (drop (4 * i) arr)) in
  let a0 := word 0%nat in
  let a1 := word 1%nat in
  let a2 := word 2%nat in
  let exp := Z.land a2 0x7fff in
  let sign := Z.land a2 0x8000 in
  if exp =? 0x7fff then (0x7ff00000, u32 (-1))
  else if (exp - 16383) + 1023 >=? 0x7ff then (if negb (sign =? 0) then 0xfff00000 else 0x7ff00000, 0)
  else
    let exp := u32 (exp - 16383 + 1023) in
    (Z.lor (Z.lor (u32 (Z.shiftl exp 20)) (if negb (sign =? 0) then 0x80000000 else 0))
           (Z.land (Z.shiftr a1 11) 0x000fffff),
     Z.lor (u32 (Z.shiftl a1 21)) (Z.shiftr a0 11)).
(** [(long double) d] on this machine: the ten significant bytes of the 80-bit format. *)
Definition ldouble_of_double (d : list Z) : list Z :=
  let bits := le_decode (take 8 d) in
  let frac := bits mod 2 ^ 52 in
  let e := bits / 2 ^ 52 mod 2 ^ 11 in
  let s := bits / 2 ^ 63 in
  let '(exp, mant) :=
    if e =? 2047 then (0x7fff, 2 ^ 63 + frac * 2 ^ 11)
    else if e =? 0 then
      if frac =? 0 then (0, 0) else (16383 - 1074 + Z.log2 frac, frac * 2 ^ (63 - Z.log2 frac))
    else (e - 1023 + 16383, 2 ^ 63 + frac * 2 ^ 11) in
  le_encode 8 mant ++ le_encode 2 (s * 2 ^ 15 + exp).
Definition conv_ppc2ia_ldouble (data : list Z) : list Z :=
  store_at 0 (ldouble_of_double (byteswap (take 8 data) 8)) data.
(** [conv_ia2ppc_ldouble] runs only on machines that are not Intels; see
    [intel_ldouble2ppc_double]. *)
Definition conv_swap_ldouble (log_arch : Z) (data : list Z) : list Z :=
  if bool_decide (log_arch ∈ [LOGREC_ARCH_PPC; LOGREC_ARCH_PPC64; LOGREC_ARCH_S390; LOGREC_ARCH_S390X; LOGREC_ARCH_ARM_BE])
  then conv_ppc2ia_ldouble data else data.

(** *** Scalars *)

Definition src_size (log_arch : Z) (ty : base_type) : Z :=
  match arch_type_info log_arch ty with Some ti => at_size ti | None => 0 end.
(** [unsigned long tmp[2]] with the first bytes of the data, and the data without them. *)
Definition to_tmp (n : Z) (data : list Z) : list Z := store_at 0 (take (Z.to_nat n) data) (replicate 16 0).
Definition clear (n : Z) (data : list Z) : list Z := store_at 0 (replicate (Z.to_nat n) 0) data.
Definition conv_swap_long (log_arch : Z) (ty : base_type) (data : list Z) (conv_type : conv_t) : list Z :=
  let src := src_size log_arch ty in
  let dest := local_size ty in
  match conv_type with
  | BS_32_32 | BS_64_64 => byteswap data dest
  | BS_32_64 | BS_64_32 =>
      let tmp := byteswap (to_tmp src data) src in
      let from := if (log_arch =? LOGREC_ARCH_IA64) || (log_arch =? LOGREC_ARCH_X86_64) then drop 8 tmp else tmp in
      store_at 0 (take (Z.to_nat dest) from) (clear src data)
  | _ => data
  end.
Definition is_word_type (ty : base_type) : bool := match ty with TY_ULONG | TY_LONG | TY_ADDRESS => true | _ => false end.
Definition __conv_scalar (log_arch : Z) (ty : base_type) (data : list Z) (conv_type : conv_t) : list Z :=
  let src := src_size log_arch ty in
  let dest := local_size ty in
  if bool_decide (conv_type = NO_CONV) then data
  else if swaps conv_type then
    if is_word_type ty then conv_swap_long log_arch ty data conv_type
    else match ty with TY_LDOUBLE => conv_swap_ldouble log_arch data | _ => byteswap data src end
  else if is_word_type ty then
    let tmp := to_tmp src data in
    let data := clear src data in
    match conv_type with
    | LE_32_64 | LE_64_32 => store_at 0 (take (Z.to_nat dest) tmp) data
    | BE_32_64 => store_at 8 (take (Z.to_nat dest) tmp) data
    | BE_64_32 => store_at 0 (take (Z.to_nat dest) (drop 8 tmp)) data
    | _ => data
    end
  else data.
Definition _evl_conv_scalar (arch : Z) (ty : base_type) (data : list Z) : list Z :=
  if supported_arch arch then match conv_type_of arch with Some c => __conv_scalar arch ty data c | None => data end
  else data.

(** *** Arrays *)

(** The elements are converted in [buf], one after the other. *)
Fixpoint conv_elements (log_arch : Z) (ty : base_type) (conv_type : conv_t) (el_size : Z) (nel : nat) (buf data : list Z)
  : option (list Z) :=
  match nel with
  | O => Some []
  | S nel =>
      if Z.of_nat (length data) <? el_size then None
      else
        let buf := __conv_scalar log_arch ty (store_at 0 (take (Z.to_nat el_size) data) buf) conv_type in
        rest ← conv_elements log_arch ty conv_type el_size nel buf (drop (Z.to_nat el_size) data);
        Some (take (Z.to_nat (local_size ty)) buf ++ rest)
  end.
Definition __conv_scalar_array (log_arch : Z) (ty : base_type) (data : list Z) (nel el_size : Z) (conv_type : conv_t)
  : option (list Z) :=
  conv_elements log_arch ty conv_type el_size (Z.to_nat nel) (replicate 16 0) data.
Definition _evl_conv_scalar_array (arch : Z) (ty : base_type) (data : list Z) (nel el_size : Z) : option (list Z) :=
  if supported_arch arch then c ← conv_type_of arch; __conv_scalar_array arch ty data nel el_size c
  else Some data.

(** *** Wide strings *)

(** The wide character at the start is zero. *)
Definition wnull (data : list Z) : bool := bool_decide (take 4 data = replicate 4 0).
(** [wcslen] *)
Fixpoint wcslen_go (fuel : nat) (data : list Z) : option Z :=
  match fuel with
  | O => None
  | S fuel =>
      if (length data <? 4)%nat then None
      else if wnull data then Some 0 else Z.succ <$> wcslen_go fuel (drop 4 data)
  end.
Definition wcslen (data : list Z) : option Z := wcslen_go (S (length data)) data.
(** [wcsnlen] *)
Fixpoint wcsnlen (maxlen : nat) (data : list Z) : option Z :=
  match maxlen with
  | O => Some 0
  | S maxlen =>
      if (length data <? 4)%nat then None
      else if wnull data then Some 0 else Z.succ <$> wcsnlen maxlen (drop 4 data)
  end.
Definition WCSZ : Z := 4.
(** The record's own memory, or a block with the converted string. *)
Definition _evl_conv_wstring (arch : Z) (data : list Z) : option (list Z) :=
  conv_type ← conv_type_of arch;
  len ← Z.succ <$> wcsnlen (Z.to_nat (POSIX_LOG_ENTRY_MAXLEN / WCSZ)) data;
  if swaps conv_type then __conv_scalar_array arch TY_WCHAR data len WCSZ conv_type else Some data.
(** The strings one after the other, each converted; and the length of all of them. *)
Fixpoint conv_wstrings (arch : Z) (data : list Z) (nel : nat) : option (list Z) :=
  match nel with
  | O => Some []
  | S nel =>
      converted ← _evl_conv_wstring arch data;
      len ← Z.succ <$> wcslen data;
      let n := Z.to_nat (len * WCSZ) in
      if (length converted <? n)%nat then None
      else rest ← conv_wstrings arch (drop n data) nel; Some (take n converted ++ rest)
  end.
Definition _evl_conv_wstring_array (arch : Z) (data : list Z) (nel : Z) : option (list Z) :=
  conv_type ← conv_type_of arch;
  if swaps conv_type then conv_wstrings arch data (Z.to_nat nel) else Some data.

(** ** Swapping bytes is reversal *)

Lemma swap_ends x m y pre post :
  swap_at (length pre) (length pre + S (length m)) (pre ++ (x :: m ++ [y]) ++ post) = pre ++ (y :: m ++ [x]) ++ post.
Proof.
  replace ((x :: m ++ [y]) ++ post) with (x :: m ++ y :: post) by (cbn; by rewrite <-app_assoc).
  replace ((y :: m ++ [x]) ++ post) with (y :: m ++ x :: post) by (cbn; by rewrite <-app_assoc).
  unfold swap_at. rewrite (list_lookup_middle pre _ x) by done.
  rewrite lookup_app_r by lia. rewrite Nat.add_sub_swap, Nat.sub_diag by lia. cbn [lookup list_lookup Nat.add].
  rewrite (list_lookup_middle m _ y) by done.
  rewrite (insert_app_r_alt pre (x :: _)), Nat.sub_diag by lia.
  rewrite insert_app_r_alt, Nat.add_sub_swap, Nat.sub_diag by lia. cbn [insert list_insert Nat.add]. f_equal. f_equal.
  change (<[length m := x]> (m ++ y :: post) = m ++ x :: post).
  rewrite insert_app_r_alt, Nat.sub_diag by lia. done.
Qed.

Lemma byteswap_loop_spec n : forall m pre post fuel, length m = n -> (n <= fuel)%nat ->
  byteswap_loop fuel (length pre) (Z.of_nat (length pre) + Z.of_nat n - 1) (pre ++ m ++ post) = pre ++ reverse m ++ post.
Proof.
  induction n as [n IH] using lt_wf_ind. intros m pre post fuel Hn Hf.
  destruct m as [|x m].
  { cbn in Hn. subst n. destruct fuel; cbn; [done|]. rewrite (proj2 (Z.ltb_ge _ _)) by lia. done. }
  destruct m as [|y m] using rev_ind; [|clear IHm].
  { cbn in Hn. subst n. destruct fuel; [done|]. cbn. rewrite (proj2 (Z.ltb_ge _ _)) by lia. done. }
  cbn in Hn. rewrite length_app in Hn. cbn in Hn.
  destruct fuel as [|fuel]; [lia|]. cbn [byteswap_loop]. rewrite (proj2 (Z.ltb_lt _ _)) by lia.
  replace (Z.to_nat (Z.of_nat (length pre) + Z.of_nat n - 1)) with (length pre + S (length m))%nat by lia.
  rewrite swap_ends.
  replace (pre ++ (y :: m ++ [x]) ++ post) with ((pre ++ [y]) ++ m ++ ([x] ++ post))
    by (cbn; rewrite <-!app_assoc; done).
  replace (S (length pre)) with (length (pre ++ [y])) by (rewrite length_app; cbn; lia).
  replace (Z.of_nat (length pre) + Z.of_nat n - 1 - 1) with (Z.of_nat (length (pre ++ [y])) + Z.of_nat (n - 2) - 1)
    by (rewrite length_app; cbn; lia).
  rewrite (IH (n - 2)%nat) by lia.
  rewrite reverse_cons, reverse_app. cbn. rewrite <-!app_assoc. done.
Qed.

Lemma byteswap_reverse d n : 0 <= n <= Z.of_nat (length d) ->
  byteswap d n = reverse (take (Z.to_nat n) d) ++ drop (Z.to_nat n) d.
Proof.
  intros Hn. unfold byteswap.
  pose proof (byteswap_loop_spec (Z.to_nat n) (take (Z.to_nat n) d) [] (drop (Z.to_nat n) d) (Z.to_nat n)) as H.
  rewrite length_take in H. cbn [length app] in H. rewrite take_drop in H.
  replace (Z.of_nat 0 + Z.of_nat (Z.to_nat n) - 1) with (n - 1) in H by lia. apply H; lia.
Qed.

Lemma length_byteswap d n : length (byteswap d n) = length d.
Proof.
  unfold byteswap. generalize 0%nat at 1. generalize (n - 1). generalize (Z.to_nat n). intros fuel. revert d.
  induction fuel as [|fuel IH]; intros d j i; cbn [byteswap_loop]; [done|]. destruct (Z.of_nat i <? j); [|done].
  rewrite IH. unfold swap_at. destruct (d !! i), (d !! Z.to_nat j); rewrite ?length_insert; done.
Qed.
Lemma length_store_at bs d : (length bs <= length d)%nat -> length (store_at 0 bs d) = length d.
Proof. intros H. unfold store_at. rewrite take_0, !length_app, length_drop. cbn. lia. Qed.

Lemma byteswap_involutive d n : 0 <= n <= Z.of_nat (length d) -> byteswap (byteswap d n) n = d.
Proof.
  intros Hn.
  pose proof (length_byteswap d n) as Hl.
  rewrite (byteswap_reverse (byteswap d n)) by lia. rewrite byteswap_reverse by done.
  assert (Ht : length (reverse (take (Z.to_nat n) d)) = Z.to_nat n) by (rewrite length_reverse, length_take; lia).
  rewrite take_app_le, drop_app_ge by lia. rewrite take_ge by lia. rewrite Ht, Nat.sub_diag, drop_0.
  rewrite reverse_involutive. apply take_drop.
Qed.

(** ** The value of a converted scalar *)

Definition big_endian (arch : Z) : bool :=
  bool_decide (arch ∈ [LOGREC_ARCH_S390; LOGREC_ARCH_S390X; LOGREC_ARCH_PPC; LOGREC_ARCH_PPC64; LOGREC_ARCH_ARM_BE]).
Definition plain_scalar (ty : base_type) : bool :=
  match ty with
  | TY_CHAR | TY_UCHAR | TY_SHORT | TY_USHORT | TY_INT | TY_UINT | TY_LONG | TY_ULONG | TY_LONGLONG | TY_ULONGLONG
  | TY_FLOAT | TY_DOUBLE | TY_WCHAR | TY_ADDRESS => true
  | _ => false
  end.
(** A value in the memory of an architecture. *)
Definition arch_encode (arch : Z) (n : nat) (v : Z) : list Z :=
  if big_endian arch then reverse (le_encode n v) else le_encode n v.

Lemma length_arch_encode arch n v : length (arch_encode arch n v) = n.
Proof. unfold arch_encode. destruct (big_endian arch); rewrite ?length_reverse; apply length_le_encode. Qed.

Lemma supported_cases arch : supported_arch arch = true ->
  arch ∈ [1; 2; 3; 4; 5; 6; 7; 8; 9].
Proof. unfold supported_arch. intros H. bprop. rewrite !elem_of_cons. lia. Qed.

Ltac each_arch H :=
  apply supported_cases in H; rewrite !elem_of_cons, elem_of_nil in H;
  repeat (destruct H as [H|H]; [subst|]); [..|by destruct H].
(** Whatever is in the buffer behind the value, it comes out in this machine's order. *)
Lemma conv_scalar_bytes arch ty bs buf :
  supported_arch arch = true -> plain_scalar ty = true -> length bs = Z.to_nat (src_size arch ty) -> (16 <= length buf)%nat ->
  take (Z.to_nat (local_size ty)) (_evl_conv_scalar arch ty (store_at 0 bs buf)) =
  (if big_endian arch then reverse bs else bs) ++ replicate (Z.to_nat (local_size ty - src_size arch ty)) 0.
Proof.
  intros Ha Ht Hl Hb.
  do 16 (destruct buf as [|? buf]; [cbn in Hb; lia|]). clear Hb.
  each_arch Ha; destruct ty; try discriminate Ht; vm_compute in Hl;
    (repeat (destruct bs as [|? bs]; [discriminate Hl|]; injection Hl as Hl)); (destruct bs; [|discriminate Hl]);
    vm_compute; reflexivity.
Qed.

Lemma le_decode_zeros bs n : le_decode (bs ++ replicate n 0) = le_decode bs.
Proof.
  induction bs as [|b bs IH]; cbn [app le_decode]; [|by rewrite IH].
  induction n as [|n IH]; cbn [replicate le_decode]; lia.
Qed.

(** The host's bytes of an object, as a value of the type. *)
Definition is_signed (ty : base_type) : bool :=
  match ty with TY_CHAR | TY_SHORT | TY_INT | TY_LONG | TY_LONGLONG | TY_WCHAR => true | _ => false end.
Definition load_int (ty : base_type) (data : list Z) : Z :=
  let n := local_size ty in
  let z := le_decode (take (Z.to_nat n) data) in
  if is_signed ty then signed (8 * n) z else unsigned (8 * n) z.

Lemma conv_scalar_load arch ty v buf :
  supported_arch arch = true -> plain_scalar ty = true -> (16 <= length buf)%nat ->
  let n := src_size arch ty in
  let z := v mod 256 ^ n in
  load_int ty (_evl_conv_scalar arch ty (store_at 0 (arch_encode arch (Z.to_nat n) v) buf)) =
  if is_signed ty then signed (8 * local_size ty) z else unsigned (8 * local_size ty) z.
Proof.
  intros Ha Ht Hb n z. unfold load_int.
  rewrite conv_scalar_bytes by (rewrite ?length_arch_encode; done).
  unfold arch_encode. assert (0 <= n) as Hn.
  { unfold n. revert Ha. clear. intros Ha. each_arch Ha; destruct ty; vm_compute; discriminate. }
  replace (if big_endian arch then reverse (if big_endian arch then reverse (le_encode (Z.to_nat n) v) else le_encode (Z.to_nat n) v)
    else if big_endian arch then reverse (le_encode (Z.to_nat n) v) else le_encode (Z.to_nat n) v) with (le_encode (Z.to_nat n) v)
    by (destruct (big_endian arch); by rewrite ?reverse_involutive).
  rewrite le_decode_zeros, le_decode_encode, Z2Nat.id by done. done.
Qed.

(** An integer of another machine is read as the value that it had there, unless it is a
    negative [long] of a 32-bit machine. *)
Lemma foreign_integers_keep_their_value arch ty v buf :
  supported_arch arch = true -> plain_scalar ty = true -> (16 <= length buf)%nat ->
  let n := src_size arch ty in
  (if is_signed ty then in_signed (8 * n) v else in_unsigned (8 * n) v) ->
  0 <= v \/ n = local_size ty ->
  load_int ty (_evl_conv_scalar arch ty (store_at 0 (arch_encode arch (Z.to_nat n) v) buf)) = v.
Proof.
  intros Ha Ht Hb n Hv Hs. rewrite conv_scalar_load by done. fold n.
  assert (1 <= n <= local_size ty) as Hn.
  { unfold n. revert Ha Ht. clear. intros Ha Ht. each_arch Ha; destruct ty; try discriminate Ht; vm_compute; split; discriminate. }
  assert (256 ^ n = 2 ^ (8 * n)) as Hp by (rewrite Z.pow_mul_r by lia; done).
  destruct (is_signed ty).
  - rewrite Hp. destruct Hs as [Hs | Hs].
    + unfold in_signed in Hv. assert (0 <= v < 2 ^ (8 * n - 1)) as Hv' by lia.
      assert (2 ^ (8 * n - 1) <= 2 ^ (8 * local_size ty - 1)) by (apply Z.pow_le_mono_r; lia).
      assert (2 ^ (8 * n - 1) <= 2 ^ (8 * n)) by (apply Z.pow_le_mono_r; lia).
      rewrite Z.mod_small by lia. apply signed_id; [lia|]. unfold in_signed. lia.
    + rewrite <-Hs. fold (unsigned (8 * n) v). rewrite signed_unsigned by lia. apply signed_id; [lia|done].
  - rewrite Hp. unfold in_unsigned in Hv. rewrite Z.mod_small by lia. apply unsigned_id. unfold in_unsigned.
    pose proof (Z.pow_le_mono_r 2 (8 * n) (8 * local_size ty) ltac:(lia) ltac:(lia)). lia.
Qed.

(** The [long] -1 of an i386 is read as 4294967295. *)
Lemma negative_long_is_zero_extended :
  load_int TY_LONG (_evl_conv_scalar LOGREC_ARCH_I386 TY_LONG (store_at 0 (arch_encode LOGREC_ARCH_I386 4 (-1)) (replicate 16 0)))
  = 4294967295.
Proof. vm_compute. reflexivity. Qed.

(** ** [long double] *)

Lemma lor_disjoint k a b : 0 <= k -> 0 <= a < 2 ^ k -> Z.lor (b * 2 ^ k) a = b * 2 ^ k + a.
Proof.
  intros Hk Ha. assert (Z.land (b * 2 ^ k) a = 0) as H.
  { apply Z.bits_inj'. intros i Hi. rewrite Z.land_spec, Z.bits_0.
    destruct (decide (i < k)); [by rewrite Z.mul_pow2_bits_low by lia|].
    destruct (decide (a = 0)) as [->|]; [by rewrite Z.bits_0, andb_false_r|].
    rewrite (Z.bits_above_log2 a i); [apply andb_false_r|lia|]. apply Z.log2_lt_pow2; [lia|].
    pose proof (Z.pow_le_mono_r 2 k i ltac:(lia) ltac:(lia)). lia. }
  rewrite <-Z.lxor_lor by done. symmetry. by apply Z.add_nocarry_lxor.
Qed.

Lemma land_pow2 a n : 0 <= n -> (Z.land a (2 ^ n) =? 0) = negb (Z.odd (a / 2 ^ n)).
Proof.
  intros Hn. rewrite <-Z.bit0_odd, Z.div_pow2_bits, Z.add_0_l by lia.
  destruct (Z.testbit a n) eqn:E; cbn.
  - apply Z.eqb_neq. intros H. apply (f_equal (fun z => Z.testbit z n)) in H.
    rewrite Z.land_spec, E, Z.pow2_bits_true, Z.bits_0 in H by lia. discriminate.
  - apply Z.eqb_eq, Z.bits_inj'. intros i Hi. rewrite Z.land_spec, Z.bits_0, Z.pow2_bits_eqb by lia.
    destruct (n =? i) eqn:Ei; [bprop; subst; by rewrite E|apply andb_false_r].
Qed.

Lemma le_encode_app n m z : le_encode (n + m) z = le_encode n z ++ le_encode m (z / 256 ^ Z.of_nat n).
Proof.
  revert z; induction n as [|n IH]; intros z; cbn [Nat.add le_encode app].
  - by rewrite Z.div_1_r.
  - rewrite IH, Nat2Z.inj_succ, Z.pow_succ_r, Z.div_div by lia. done.
Qed.

(** A [double] of another machine, as its high and its low word. *)
Definition ppc_double (bits : Z) : Z * Z := (bits / 2 ^ 32, bits mod 2 ^ 32).
(** The value of a [double] of normal size survives the trip through the 80-bit format of
    an Intel machine to the [double] of another one. *)
Theorem ldouble_roundtrip s e frac : 0 <= s < 2 -> 1 <= e <= 2046 -> 0 <= frac < 2 ^ 52 ->
  let bits := s * 2 ^ 63 + e * 2 ^ 52 + frac in
  intel_ldouble2ppc_double (ldouble_of_double (le_encode 8 bits) ++ [0; 0]) = ppc_double bits.
Proof.
  intros Hs He Hf bits.
  assert (Hbits : 0 <= bits < 2 ^ 64) by (unfold bits; lia).
  assert (Hb1 : bits mod 2 ^ 52 = frac) by (unfold bits; dlia).
  assert (Hb2 : bits / 2 ^ 52 mod 2 ^ 11 = e) by (unfold bits; dlia).
  assert (Hb3 : bits / 2 ^ 63 = s) by (unfold bits; dlia).
  unfold ppc_double.
  assert (Hb4 : bits / 2 ^ 32 = (s * 2 ^ 11 + e) * 2 ^ 20 + frac / 2 ^ 32) by (unfold bits; dlia).
  assert (Hb5 : bits mod 2 ^ 32 = frac mod 2 ^ 32) by (unfold bits; dlia).
  rewrite Hb4, Hb5. clear Hb4 Hb5. clearbody bits.
  unfold ldouble_of_double. rewrite take_ge by (rewrite length_le_encode; lia). rewrite le_decode_encode.
  change (256 ^ Z.of_nat 8) with (2 ^ 64). rewrite (Z.mod_small bits) by exact Hbits. rewrite Hb1, Hb2, Hb3.
  rewrite (proj2 (Z.eqb_neq e 2047)), (proj2 (Z.eqb_neq e 0)) by lia. clear Hb1 Hb2 Hb3.
  set (mant := 2 ^ 63 + frac * 2 ^ 11). set (a2 := s * 2 ^ 15 + (e - 1023 + 16383)).
  assert (Hm : 0 <= mant < 2 ^ 64) by (unfold mant; lia).
  unfold intel_ldouble2ppc_double.
  assert (Hw : (le_encode 8 mant ++ le_encode 2 a2) ++ [0; 0] = le_encode 4 mant ++ le_encode 4 (mant / 2 ^ 32) ++ le_encode 2 a2 ++ [0; 0])
    by (change 8%nat with (4 + 4)%nat; rewrite le_encode_app, <-!app_assoc; done).
  rewrite Hw. cbn [Nat.mul Nat.add]. rewrite drop_0, take_app_length' by (by rewrite length_le_encode).
  rewrite (drop_app_length' _ _ 4), take_app_length' by (by rewrite length_le_encode).
  rewrite (drop_app_ge _ _ 8), length_le_encode by (rewrite length_le_encode; lia).
  rewrite (drop_app_length' _ _ (8 - 4)), take_ge by (rewrite ?length_app, length_le_encode; cbn; lia).
  change [0; 0] with (replicate 2 0). rewrite le_decode_zeros, !le_decode_encode.
  change (256 ^ Z.of_nat 4) with (2 ^ 32). change (256 ^ Z.of_nat 2) with (2 ^ 16).
  rewrite (Z.mod_small a2), (Z.mod_small (mant / 2 ^ 32)) by (unfold mant, a2; dlia).
  change 0x8000 with (2 ^ 15). change 0x7fff with (Z.ones 15). change 0x000fffff with (Z.ones 20).
  rewrite land_pow2, !Z.land_ones by lia.
  assert (a2 mod 2 ^ 15 = e - 1023 + 16383) as -> by (unfold a2; dlia).
  assert (a2 / 2 ^ 15 = s) as -> by (unfold a2; dlia).
  change (Z.ones 15) with 32767.
  rewrite (proj2 (Z.eqb_neq _ 32767)) by lia.
  replace (e - 1023 + 16383 - 16383 + 1023) with e by lia.
  destruct (e >=? 2047) eqn:E; [zb|]. clear E. rewrite negb_involutive.
  rewrite !Z.shiftr_div_pow2, !Z.shiftl_mul_pow2 by lia.
  rewrite (unsigned_id 32 e) by (unfold in_unsigned; lia).
  rewrite (unsigned_id 32 (e * 2 ^ 20)) by (unfold in_unsigned; lia).
  assert (mant mod 2 ^ 32 / 2 ^ 11 = frac mod 2 ^ 21) as -> by (unfold mant; dlia).
  assert (mant / 2 ^ 32 / 2 ^ 11 mod 2 ^ 20 = frac / 2 ^ 32) as -> by (unfold mant; dlia).
  assert (u32 (mant / 2 ^ 32 * 2 ^ 21) = (frac / 2 ^ 21 mod 2 ^ 11) * 2 ^ 21) as -> by (unfold mant, unsigned; dlia).
  f_equal.
  - rewrite (Z.lor_comm (e * 2 ^ 20)).
    assert ((if Z.odd s then 0x80000000 else 0) = s * 2 ^ 31) as ->.
    { assert (s = 0 \/ s = 1) as [-> | ->] by lia; done. }
    rewrite (lor_disjoint 31) by lia.
    replace (s * 2 ^ 31 + e * 2 ^ 20) with ((s * 2 ^ 11 + e) * 2 ^ 20) by lia.
    rewrite (lor_disjoint 20) by dlia. done.
  - rewrite (lor_disjoint 21) by dlia. dlia.
Qed.

(** Zero has no such exponent: the 80-bit zero of an Intel record becomes 2.0. *)
Lemma ldouble_roundtrip_witness :
  intel_ldouble2ppc_double (ldouble_of_double (le_encode 8 (1 * 2 ^ 63 + 1024 * 2 ^ 52 + 5)) ++ [0; 0])
  = ppc_double (1 * 2 ^ 63 + 1024 * 2 ^ 52 + 5).
Proof. apply (ldouble_roundtrip 1 1024 5); lia. Defined.
Lemma zero_becomes_two : intel_ldouble2ppc_double (replicate 12 0) = ppc_double 0x4000000000000000.
Proof. vm_compute. reflexivity. Qed.
