(* ===== verification/Tmpl.v ===== *)
(** * Templates: the data and its lookups ([include/evl_template.h], [lib/template/template.c])

    A template lists the attributes of a record: their types, dimensions, formats and, once
    a record has been read into it, their values.  A master template is what was parsed; a
    clone is what is populated.  An attribute that is a struct names the struct's master
    and, when populated, holds a clone of it; an array of structs holds a list of them.
    Templates are trees here; what the C code shares between a master and its clones and
    writes to - the populated dimension of an array and its delimiter - lives in a [store],
    under the address of the object.  A pointer into a record is a block and an offset. *)
From S2P Require Import Prelude NvPairs LogRecord QEvaluate RecPack Format Conv.

(** ** Outcomes *)

(** What stops the C code: an access outside of an object, a failed [assert], behaviour
    that C leaves undefined; [OutOfFuel] is the model's. *)
Inductive fault := WildRead | AssertFailed | Undefined | OutOfFuel.
Inductive outcome (A : Type) := Done (a : A) | Fault (f : fault).
Arguments Done {A} a.
Arguments Fault {A} f.
#[export] Instance outcome_ret : MRet outcome := fun A a => Done a.
#[export] Instance outcome_bind : MBind outcome := fun A B f o => match o with Done a => f a | Fault e => Fault e end.
(** A read that the model of memory may refuse. *)
Definition reading {A} (o : option A) : outcome A := match o with Some a => Done a | None => Fault WildRead end.
Definition assert (b : bool) : outcome unit := if b then Done tt else Fault AssertFailed.

Lemma bind_done {A B} (o : outcome A) (f : A -> outcome B) b :
  (o ≫= f) = Done b <-> exists a, o = Done a /\ f a = Done b.
Proof. destruct o; cbn; [|naive_solver]. split; [intros; by eexists|]. by intros (? & [= ->] & ?). Qed.
Lemma reading_done {A} (o : option A) a : reading o = Done a <-> o = Some a.
Proof. destruct o; cbn; naive_solver. Qed.
Lemma assert_done b u : assert b = Done u <-> b = true.
Proof. destruct b, u; cbn; naive_solver. Qed.

(** ** Flags *)

Definition EVL_ATTR_EXISTS : Z := 0x1.
Definition EVL_ATTR_CONST : Z := 0x2.
Definition EVL_ATTR_BITFIELD : Z := 0x4.
Definition EVL_ATTR_CLONE : Z := 0x8.
Definition EVL_ATTR_TYPEDEF : Z := 0x10.
Definition EVL_ATTR_IMPLDIM : Z := 0x20.
Definition TMPL_TF_POPULATED : Z := 0x1.
Definition TMPL_TF_ERROR : Z := 0x4.
Definition TMPL_TF_EATSALL : Z := 0x8.
Definition TMPL_TF_IMPORTED : Z := 0x10.
Definition TMPL_TF_ALIGNED : Z := 0x20.
Definition TMPL_TF_CONST : Z := 0x40.
Definition TMPL_TF_IMPLDIM : Z := 0x100.
Definition TMPL_TF_REDIRECT : Z := 0x200.
Definition has (flags f : Z) : bool := negb (Z.land flags f =? 0).
Definition set_flag (flags f : Z) : Z := Z.lor flags f.
Definition clear_flag (flags f : Z) : Z := Z.land flags (Z.lnot f).

Lemma has_set f g h : has (set_flag f g) h = has f h || has g h.
Proof.
  unfold has, set_flag. rewrite Z.land_lor_distr_l. apply eq_true_iff_eq.
  rewrite orb_true_iff, !negb_true_iff, !Z.eqb_neq, Z.lor_eq_0_iff. lia.
Qed.
Lemma has_clear f g h : Z.land g h = 0 -> has (clear_flag f g) h = has f h.
Proof.
  intros H. unfold has, clear_flag. do 2 f_equal. apply Z.bits_inj'. intros i Hi.
  apply (f_equal (fun z => Z.testbit z i)) in H. rewrite Z.land_spec, Z.bits_0 in H.
  rewrite !Z.land_spec, Z.lnot_spec by done. destruct (Z.testbit f i), (Z.testbit g i), (Z.testbit h i); done.
Qed.
Lemma has_cleared f g : has (clear_flag f g) g = false.
Proof.
  unfold has, clear_flag. apply negb_false_iff, Z.eqb_eq, Z.bits_inj'. intros i Hi.
  rewrite !Z.land_spec, Z.lnot_spec, Z.bits_0 by done. destruct (Z.testbit f i), (Z.testbit g i); done.
Qed.

(** ** Attributes *)

Inductive tmpl_dimension_type :=
  | TMPL_DIM_NONE
  | TMPL_DIM_CONST
  | TMPL_DIM_IMPLIED
  | TMPL_DIM_REST
  | TMPL_DIM_ATTR (u_attribute : nat)       (* the index of the attribute *)
  | TMPL_DIM_ATTNAME (u_attname : str)
  | TMPL_DIM_PREFIX3
  | TMPL_DIM_BITFIELD.
(** [td_addr] is the object's address; [td_dimension2] is in the store. *)
Record tmpl_dimension := mkDim { td_type : tmpl_dimension_type; td_dimension : Z; td_addr : Z }.

Record tmpl_bitmap := mkBitmap { bm_1bits : Z; bm_0bits : Z; bm_name : str }.
Inductive tmpl_att_fmt :=
  | TMPL_AFS_DEFAULT
  | TMPL_AFS_TBD (af_format : str)
  | TMPL_AFS_SCALAR (af_format : str)
  | TMPL_AFS_DUMP
  | TMPL_AFS_BITMAP (u_bitmaps : list tmpl_bitmap)
  | TMPL_AFS_VALNM (u_bitmaps : list tmpl_bitmap)
  | TMPL_AFS_ARRAY (af_format : str) (u_izorder : str)
  | TMPL_AFS_IZARRAY (af_format : str) (u_izorder : str)
  | TMPL_AFS_CHARRSTR (af_format : str).

Inductive tmpl_delim_type :=
  | TMPL_DELIM_NONE
  | TMPL_DELIM_CONST (de_delimiter : str)
  | TMPL_DELIM_ATTR (u_attribute : nat)
  | TMPL_DELIM_ATTNAME (u_attname : str).
Record tmpl_delimiter := mkDelim { de_type : tmpl_delim_type; de_addr : Z }.

(** A pointer into a block of memory. *)
Record ptr := mkPtr { p_block : list Z; p_off : Z }.
Definition pointee (p : ptr) : list Z := drop (Z.to_nat (p_off p)) (p_block p).

(** [T] is the type of templates.  A number is kept with its sign; a real number as the
    bytes of the type it was read from; a string as its characters; a wide string or an
    array as the memory at the pointer, where [own] says that it is a block of its own and
    not the record. *)
Inductive tmpl_value (T : Type) :=
  | VNone
  | VInt (z : Z)
  | VReal (bs : list Z)
  | VString (s : str)
  | VWstring (ws : list Z)
  | VArray (own : bool) (mem : list Z)
  | VStruct (t : T)
  | VList (l : list T).
Arguments VNone {T}.
Arguments VInt {T} z.
Arguments VReal {T} bs.
Arguments VString {T} s.
Arguments VWstring {T} ws.
Arguments VArray {T} own mem.
Arguments VStruct {T} t.
Arguments VList {T} l.

Record tmpl_attribute_ (T : Type) := mkAttr {
  ta_name : option str;
  ta_type : base_type;
  ta_struct : option T;               (* ta_type->u.st_template *)
  ta_dimension : option tmpl_dimension;
  ta_format : tmpl_att_fmt;
  af_shared : bool;
  ta_delimiter : option tmpl_delimiter;
  ta_rawdata : option ptr;
  ta_value : tmpl_value T;
  ta_flags : Z;
  ta_index : nat
}.
Arguments mkAttr {T}.
Arguments ta_name {T}.
Arguments ta_type {T}.
Arguments ta_struct {T}.
Arguments ta_dimension {T}.
Arguments ta_format {T}.
Arguments af_shared {T}.
Arguments ta_delimiter {T}.
Arguments ta_rawdata {T}.
Arguments ta_value {T}.
Arguments ta_flags {T}.
Arguments ta_index {T}.

(** ** Templates *)

Inductive tmpl_header_type :=
  | TMPL_TH_EVLOG (evl_facility evl_event_type : Z)
  | TMPL_TH_TRACE (tra_major tra_minor : Z)
  | TMPL_TH_STRUCT (st_name : str).
Inductive redirectedAttribute :=
  | TMPL_RD_NONE
  | TMPL_RD_CONST (code : Z)
  | TMPL_RD_ATTNAME (attname : str).
Record tmpl_redirection := mkRedir { rd_fac : option redirectedAttribute; rd_evtype : option redirectedAttribute }.
(** A segment of a template's format can refer to one of its attributes. *)
Inductive tmpl_segment :=
  | TSEG (fs : evl_fmt_segment)
  | EVL_FS_ATTR (fs_attribute : nat) (fs_userfmt : option str).

Record tmpl_static := mkStatic {
  th_type : tmpl_header_type;
  th_description : option str;
  tm_name : str;
  tm_parsed_format : list tmpl_segment;
  tm_alignment : Z;
  tm_minsize : Z;
  tm_redirection : option tmpl_redirection
}.
(** [tm_clone] says that the template has a master. *)
Record tmpl_state := mkState {
  tm_flags : Z;
  tm_arch : Z;
  tm_data_size : Z;
  tm_entry : option posix_log_entry;
  tm_data : option ptr;
  tm_recid : Z;
  tm_clone : bool
}.
(** An import is a path and the struct's template. *)
Inductive template := mkTemplate {
  tm_static : tmpl_static;
  tm_state : tmpl_state;
  tm_attributes : list (tmpl_attribute_ template);
  tm_imports : list (str * template)
}.
Abbreviation tmpl_attribute := (tmpl_attribute_ template).

(** ** Setting members *)

Definition set_attributes (t : template) (l : list tmpl_attribute) : template :=
  mkTemplate (tm_static t) (tm_state t) l (tm_imports t).
Definition set_state (t : template) (s : tmpl_state) : template :=
  mkTemplate (tm_static t) s (tm_attributes t) (tm_imports t).
Definition set_static (t : template) (s : tmpl_static) : template :=
  mkTemplate s (tm_state t) (tm_attributes t) (tm_imports t).
Definition set_tm_flags (f : Z) (s : tmpl_state) : tmpl_state :=
  mkState f (tm_arch s) (tm_data_size s) (tm_entry s) (tm_data s) (tm_recid s) (tm_clone s).
Definition set_tm_arch (a : Z) (s : tmpl_state) : tmpl_state :=
  mkState (tm_flags s) a (tm_data_size s) (tm_entry s) (tm_data s) (tm_recid s) (tm_clone s).
Definition set_tm_data (p : option ptr) (s : tmpl_state) : tmpl_state :=
  mkState (tm_flags s) (tm_arch s) (tm_data_size s) (tm_entry s) p (tm_recid s) (tm_clone s).
Definition set_tm_data_size (n : Z) (s : tmpl_state) : tmpl_state :=
  mkState (tm_flags s) (tm_arch s) n (tm_entry s) (tm_data s) (tm_recid s) (tm_clone s).
Definition set_ta_flags (a : tmpl_attribute) (f : Z) : tmpl_attribute :=
  mkAttr (ta_name a) (ta_type a) (ta_struct a) (ta_dimension a) (ta_format a) (af_shared a) (ta_delimiter a)
    (ta_rawdata a) (ta_value a) f (ta_index a).
Definition set_ta_value (a : tmpl_attribute) (v : tmpl_value template) : tmpl_attribute :=
  mkAttr (ta_name a) (ta_type a) (ta_struct a) (ta_dimension a) (ta_format a) (af_shared a) (ta_delimiter a)
    (ta_rawdata a) v (ta_flags a) (ta_index a).
Definition set_ta_rawdata (a : tmpl_attribute) (p : option ptr) : tmpl_attribute :=
  mkAttr (ta_name a) (ta_type a) (ta_struct a) (ta_dimension a) (ta_format a) (af_shared a) (ta_delimiter a)
    p (ta_value a) (ta_flags a) (ta_index a).
Definition set_ta_dimension (a : tmpl_attribute) (d : option tmpl_dimension) : tmpl_attribute :=
  mkAttr (ta_name a) (ta_type a) (ta_struct a) d (ta_format a) (af_shared a) (ta_delimiter a)
    (ta_rawdata a) (ta_value a) (ta_flags a) (ta_index a).
Definition set_ta_delimiter (a : tmpl_attribute) (d : option tmpl_delimiter) : tmpl_attribute :=
  mkAttr (ta_name a) (ta_type a) (ta_struct a) (ta_dimension a) (ta_format a) (af_shared a) d
    (ta_rawdata a) (ta_value a) (ta_flags a) (ta_index a).
(** The attribute has this value now. *)
Definition with_value (a : tmpl_attribute) (v : tmpl_value template) : tmpl_attribute :=
  set_ta_flags (set_ta_value a v) (set_flag (ta_flags a) EVL_ATTR_EXISTS).

(** ** The predicates of the header *)

Definition isConstAtt (a : tmpl_attribute) : bool := has (ta_flags a) EVL_ATTR_CONST.
Definition isClonedAtt (a : tmpl_attribute) : bool := has (ta_flags a) EVL_ATTR_CLONE.
Definition attExists (a : tmpl_attribute) : bool := has (ta_flags a) EVL_ATTR_EXISTS.
Definition isBitField (a : tmpl_attribute) : bool := has (ta_flags a) EVL_ATTR_BITFIELD.
Definition isTypedef (a : tmpl_attribute) : bool := has (ta_flags a) EVL_ATTR_TYPEDEF.
Definition isArray (a : tmpl_attribute) : bool := bool_decide (is_Some (ta_dimension a)) && negb (isBitField a).
Definition isStruct (a : tmpl_attribute) : bool := bool_decide (ta_type a = TY_STRUCT).
(** The column [ti_isInteger] of [_evlTmplTypeInfo]. *)
Definition isInteger (ty : base_type) : bool :=
  match ty with
  | TY_CHAR | TY_UCHAR | TY_SHORT | TY_USHORT | TY_INT | TY_UINT | TY_LONG | TY_ULONG | TY_LONGLONG | TY_ULONGLONG
  | TY_WCHAR | TY_ADDRESS => true
  | _ => false
  end.
Definition isIntegerAtt (a : tmpl_attribute) : bool := isInteger (ta_type a).
Definition isPopulatedTmpl (t : template) : bool := has (tm_flags (tm_state t)) TMPL_TF_POPULATED.
Definition isConstStructTmpl (t : template) : bool := has (tm_flags (tm_state t)) TMPL_TF_CONST.
Definition isMasterTmpl (t : template) : bool := negb (tm_clone (tm_state t)).
Definition isRedirectTmpl (t : template) : bool := has (tm_flags (tm_state t)) TMPL_TF_REDIRECT.
Definition isAlignedTmpl (t : template) : bool := has (tm_flags (tm_state t)) TMPL_TF_ALIGNED.
Definition isStructTmpl (t : template) : bool := match th_type (tm_static t) with TMPL_TH_STRUCT _ => true | _ => false end.

(** ** What clones share *)

(** [st_dim2] and [st_delim] hold the members [td_dimension2] and [de_delimiter] of the
    objects at an address; [st_brk] is the first address not yet given out. *)
Record store := mkStore { st_dim2 : gmap Z Z; st_delim : gmap Z (option str); st_brk : Z }.
Definition td_dimension2 (s : store) (d : tmpl_dimension) : Z := default 0 (st_dim2 s !! td_addr d).
Definition set_dimension2 (s : store) (d : tmpl_dimension) (n : Z) : store :=
  mkStore (<[td_addr d := n]> (st_dim2 s)) (st_delim s) (st_brk s).
Definition set_delimiter (s : store) (d : tmpl_delimiter) (v : option str) : store :=
  mkStore (st_dim2 s) (<[de_addr d := v]> (st_delim s)) (st_brk s).
(** [de->de_delimiter] *)
Definition de_delimiter_of (s : store) (d : tmpl_delimiter) : option str :=
  match de_type d with TMPL_DELIM_CONST c => Some c | _ => default None (st_delim s !! de_addr d) end.
Definition alloc_dimension (s : store) (ty : tmpl_dimension_type) (dim dim2 : Z) : tmpl_dimension * store :=
  (mkDim ty dim (st_brk s), mkStore (<[st_brk s := dim2]> (st_dim2 s)) (st_delim s) (st_brk s + 1)).
Definition alloc_delimiter (s : store) (ty : tmpl_delim_type) (v : option str) : tmpl_delimiter * store :=
  (mkDelim ty (st_brk s), mkStore (st_dim2 s) (<[st_brk s := v]> (st_delim s)) (st_brk s + 1)).

(** ** Finding attributes *)

Definition _evlTmplGetNthAttribute (t : template) (n : nat) : option tmpl_attribute := tm_attributes t !! n.
Fixpoint find_named (l : list tmpl_attribute) (name : str) : option tmpl_attribute :=
  match l with
  | [] => None
  | a :: l => if bool_decide (ta_name a = Some name) then Some a else find_named l name
  end.
Definition findAttBySimpleName (t : template) (name : str) : option tmpl_attribute := find_named (tm_attributes t) name.
(** [strchr(path, '.')]: what is before the first period and what is behind it. *)
Fixpoint split_dot (s : str) : option (str * str) :=
  match s with
  | EmptyString => None
  | String c s' =>
      if Ascii.eqb c "."%char then Some (EmptyString, s')
      else match split_dot s' with Some (a, b) => Some (String c a, b) | None => None end
  end.
(** The path gets shorter; its length is enough fuel. *)
Fixpoint findAttByScopedName (fuel : nat) (t : template) (path : str) : option tmpl_attribute :=
  match split_dot path with
  | None => findAttBySimpleName t path
  | Some (structAttName, path) =>
      structAtt ← findAttBySimpleName t structAttName;
      if negb (isStruct structAtt) || isArray structAtt then None
      else match fuel with
      | O => None
      | S fuel =>
          if attExists structAtt then
            match ta_value structAtt with VStruct st => findAttByScopedName fuel st path | _ => None end
          else if isMasterTmpl t then st ← ta_struct structAtt; findAttByScopedName fuel st path
          else None
      end
  end.
Definition _evlTmplFindAttribute (t : template) (name : str) : option tmpl_attribute :=
  findAttByScopedName (String.length name) t name.

(** ** Values of integer attributes *)

(** The value of an array, a pointer, is no number. *)
Definition _evlTmplGetValueOfIntegerAttribute (a : tmpl_attribute) : outcome Z :=
  match ta_type a with
  | TY_CHAR | TY_SHORT | TY_INT | TY_LONG | TY_UCHAR | TY_USHORT | TY_UINT | TY_ULONG | TY_LONGLONG | TY_ULONGLONG =>
      match ta_value a with VInt z => Done (s64 z) | _ => Fault Undefined end
  | _ => Fault AssertFailed
  end.
Definition getDimensionFromAttribute (dimAtt : tmpl_attribute) : outcome Z :=
  if negb (attExists dimAtt) then Done 0
  else v ← _evlTmplGetValueOfIntegerAttribute dimAtt; Done (s32 v).

(** ** Induction over templates *)

Definition value_templates (v : tmpl_value template) : list template :=
  match v with VStruct t => [t] | VList l => l | _ => [] end.
(** The templates that an attribute refers to. *)
Definition att_templates (a : tmpl_attribute) : list template := option_list (ta_struct a) ++ value_templates (ta_value a).

Section Induction.
Variable P : template -> Prop.
Hypothesis Hstep : forall s st atts imps,
  Forall (fun a => Forall P (att_templates a)) atts -> Forall (fun i => P i.2) imps -> P (mkTemplate s st atts imps).

Fixpoint template_tree_ind (t : template) : P t.
Proof.
  destruct t as [s st atts imps]. apply Hstep.
  - induction atts as [|a atts IH]; constructor; [|done]. unfold att_templates. apply Forall_app. split.
    + destruct (ta_struct a); constructor; [apply template_tree_ind|done].
    + destruct (ta_value a) as [| | | | | |t|l]; cbn; try constructor; [apply template_tree_ind|constructor|].
      induction l as [|t l IHl]; constructor; [apply template_tree_ind|done].
  - induction imps as [|[p t] imps IH]; constructor; [apply template_tree_ind|done].
Defined.
End Induction.

(** How deep structs are nested: [depth t] levels of [populateTmpl] are enough. *)
Fixpoint depth (t : template) : nat :=
  match t with
  | mkTemplate _ _ atts _ =>
      S (max_list_with (fun a => match a with
         | mkAttr _ _ (Some st) _ _ _ _ _ _ flags _ => if has flags EVL_ATTR_CONST then O else depth st
         | _ => O
         end) atts)
  end.
