(* ===== verification/TmplPop.v ===== *)
(** * Populating templates ([lib/template/template.c])

    Cloning a master, filling a clone with the bytes of a record, and emptying it again.
    The state of population is [notes]: the record, the offset of the next byte, and whether
    the data have run out; [store] is what clones share.  Offsets count from the start of
    the record; an access outside of it is [Fault WildRead]. *)
From S2P Require Import Prelude NvPairs LogRecord QEvaluate RecPack Format Conv Tmpl.

Definition CHAR_BIT : Z := 8.
Definition SIZEOF_INT : Z := 4.
Definition SIZEOF_LONGLONG : Z := 8.
Definition EXTRA_DATA_ATT_NAME : str := "_EXTRA_DATA_".

(** ** Cloning *)

(** The dimension of the clone: a copy if it refers to an attribute or is implied. *)
Definition clone_dimension (a : tmpl_attribute) (s : store) : outcome (option tmpl_dimension * store) :=
  match ta_dimension a with
  | Some d =>
      match td_type d with
      | TMPL_DIM_ATTR i => let '(d, s) := alloc_dimension s (TMPL_DIM_ATTR i) (td_dimension d) (td_dimension2 s d) in Done (Some d, s)
      | TMPL_DIM_IMPLIED =>
          _ ← assert (has (ta_flags a) EVL_ATTR_IMPLDIM);
          let '(d, s) := alloc_dimension s TMPL_DIM_IMPLIED 0 0 in Done (Some d, s)
      | _ => Done (Some d, s)
      end
  | None => Done (None, s)
  end.
Definition clone_delimiter (a : tmpl_attribute) (s : store) : option tmpl_delimiter * store :=
  match ta_delimiter a with
  | Some d =>
      match de_type d with
      | TMPL_DELIM_ATTR i => let '(d, s) := alloc_delimiter s (TMPL_DELIM_ATTR i) None in (Some d, s)
      | _ => (Some d, s)
      end
  | None => (None, s)
  end.
Definition cloneAttribute (a : tmpl_attribute) (s : store) : outcome (tmpl_attribute * store) :=
  if isConstAtt a then Done (a, s)
  else
    let clone := set_ta_flags a (set_flag (ta_flags a) EVL_ATTR_CLONE) in
    '(d, s) ← clone_dimension a s;
    let '(de, s) := clone_delimiter a s in
    Done (set_ta_delimiter (set_ta_dimension clone d) de, s).
Fixpoint clone_attributes (l : list tmpl_attribute) (s : store) : outcome (list tmpl_attribute * store) :=
  match l with
  | [] => Done ([], s)
  | a :: l =>
      '(a, s) ← cloneAttribute a s;
      '(l, s) ← clone_attributes l s;
      Done (a :: l, s)
  end.
(** References of the clone's format to its attributes are by their indices. *)
Definition _evlCloneTemplate (t : template) (s : store) : outcome (template * store) :=
  _ ← assert (isMasterTmpl t);
  _ ← assert (negb (isPopulatedTmpl t));
  '(l, s) ← clone_attributes (tm_attributes t) s;
  let st := tm_state t in
  Done (set_state (set_attributes t l)
          (mkState (tm_flags st) (tm_arch st) (tm_data_size st) (tm_entry st) (tm_data st) (tm_recid st) true), s).

(** ** Emptying a template *)

Definition is_extra (a : tmpl_attribute) : bool := bool_decide (ta_name a = Some EXTRA_DATA_ATT_NAME).
(** Drops the last attribute if it is the one for data that no other attribute has. *)
Definition zapExtraDataAtt (l : list tmpl_attribute) : list tmpl_attribute :=
  match last l with
  | Some a => if is_extra a then removelast l else l
  | None => l
  end.
(** The elements of an array are freed, unless they are in the record; a struct's clone is
    kept for the next record. *)
Fixpoint depopulateTemplate (t : template) : template :=
  match t with
  | mkTemplate sta st atts imps =>
      if has (tm_flags st) TMPL_TF_POPULATED then
        let depop := fun a : tmpl_attribute_ template =>
          match a with
          | mkAttr name ty str dim fmt shared delim raw v flags idx =>
              if has flags EVL_ATTR_CONST then a
              else
                let v := match v with
                  | VStruct st => if bool_decide (is_Some dim) && negb (has flags EVL_ATTR_BITFIELD) then VNone
                                  else VStruct (depopulateTemplate st)
                  | VList _ | VArray true _ => VNone
                  | v => v
                  end in
                mkAttr name ty str dim fmt shared delim None v (clear_flag flags EVL_ATTR_EXISTS) idx
          end in
        mkTemplate sta
          (mkState (clear_flag (tm_flags st) TMPL_TF_POPULATED) (tm_arch st) (tm_data_size st) (tm_entry st) (tm_data st)
             (-1) (tm_clone st))
          (zapExtraDataAtt (map depop atts)) imps
      else t
  end.

(** ** Reading the record *)

Record tmpl_popl_notes := mkNotes { pn_mem : list Z; pn_next : Z; pn_out_of_data : bool }.
Definition pn_end (n : tmpl_popl_notes) : Z := Z.of_nat (length (pn_mem n)).
Definition set_next (n : tmpl_popl_notes) (p : Z) : tmpl_popl_notes := mkNotes (pn_mem n) p (pn_out_of_data n).
Definition no_more_data (n : tmpl_popl_notes) : tmpl_popl_notes := mkNotes (pn_mem n) (pn_next n) true.
(** [size_t bytesRemaining = notes->pn_end - notes->pn_next] *)
Definition bytes_remaining (n : tmpl_popl_notes) : Z := u64 (pn_end n - pn_next n).
Definition read_mem (mem : list Z) (p n : Z) : outcome (list Z) :=
  if (0 <=? p) && (p + n <=? Z.of_nat (length mem)) then Done (take (Z.to_nat n) (drop (Z.to_nat p) mem)) else Fault WildRead.
(** The memory from [p] on. *)
Definition mem_from (n : tmpl_popl_notes) (p : Z) : list Z := drop (Z.to_nat p) (pn_mem n).

(** The value in the buffer, as this machine reads it. *)
Definition load_value (ty : base_type) (data : list Z) : option (tmpl_value template) :=
  if isInteger ty then Some (VInt (load_int ty data))
  else match ty with
  | TY_FLOAT | TY_DOUBLE | TY_LDOUBLE => Some (VReal (take (Z.to_nat (local_size ty)) data))
  | _ => None
  end.
Definition populateScalar (a : tmpl_attribute) (size : Z) (n : tmpl_popl_notes) (arch : Z)
  : outcome (tmpl_value template * tmpl_popl_notes) :=
  bs ← read_mem (pn_mem n) (pn_next n) size;
  let data := _evl_conv_scalar arch (ta_type a) (store_at 0 bs (replicate 32 0)) in
  Done (default (ta_value a) (load_value (ta_type a) data), set_next n (pn_next n + size)).

(** [for (c=s, attSize=1; attSize <= bytesRemaining && *c; c++, attSize++)]: the final
    [attSize]. *)
Fixpoint count_string (l : list Z) (attSize remaining : Z) : outcome Z :=
  if attSize <=? remaining then
    match l with
    | [] => Fault WildRead
    | b :: l => if b =? 0 then Done attSize else count_string l (attSize + 1) remaining
    end
  else Done attSize.
(** The string's address, if there is one. *)
Definition collectString (n : tmpl_popl_notes) : outcome (option Z * tmpl_popl_notes) :=
  let remaining := bytes_remaining n in
  attSize ← count_string (mem_from n (pn_next n)) 1 remaining;
  if remaining <? attSize then Done (None, no_more_data n)
  else Done (Some (pn_next n), set_next n (pn_next n + attSize)).
Fixpoint count_wstring (fuel : nat) (l : list Z) (wcsz attSize remaining : Z) : outcome Z :=
  if attSize <=? remaining then
    match fuel with
    | O => Fault OutOfFuel
    | S fuel =>
        if Z.of_nat (length l) <? wcsz then Fault WildRead
        else if bool_decide (take (Z.to_nat wcsz) l = replicate (Z.to_nat wcsz) 0) then Done attSize
        else count_wstring fuel (drop (Z.to_nat wcsz) l) wcsz (attSize + wcsz) remaining
    end
  else Done attSize.
Definition collectWstring (n : tmpl_popl_notes) (wcsz : Z) : outcome (option Z * tmpl_popl_notes) :=
  let remaining := bytes_remaining n in
  let l := mem_from n (pn_next n) in
  attSize ← count_wstring (S (length l)) l wcsz wcsz remaining;
  if remaining <? attSize then Done (None, no_more_data n)
  else Done (Some (pn_next n), set_next n (pn_next n + attSize)).
(** [for (ns = 0; ns < nel; ns++) if (!collect(notes)) break;] *)
Fixpoint collect_strings (collect : tmpl_popl_notes -> outcome (option Z * tmpl_popl_notes)) (nel : nat) (ns : Z)
    (n : tmpl_popl_notes) : outcome (Z * tmpl_popl_notes) :=
  match nel with
  | O => Done (ns, n)
  | S nel =>
      '(s, n) ← collect n;
      match s with Some _ => collect_strings collect nel (ns + 1) n | None => Done (ns, n) end
  end.

(** ** Alignment *)

Definition alignDataPtr (adjustMe tmplBase alignment : Z) : outcome Z :=
  _ ← assert (negb (alignment =? 0));
  let mod_ := (adjustMe - tmplBase) mod alignment in
  Done (if negb (mod_ =? 0) then adjustMe + (alignment - mod_) else adjustMe).
Definition clamp (n : tmpl_popl_notes) (p : Z) : tmpl_popl_notes :=
  if p >=? pn_end n then mkNotes (pn_mem n) (pn_end n) true else set_next n p.
Definition alignNextPtr (n : tmpl_popl_notes) (tmplBase alignment : Z) : outcome tmpl_popl_notes :=
  p ← alignDataPtr (pn_next n) tmplBase alignment;
  Done (clamp n p).
Definition enforceMinSize (n : tmpl_popl_notes) (tmplBase minSize : Z) : tmpl_popl_notes :=
  let curSize := s32 (pn_next n - tmplBase) in
  if curSize <? minSize then clamp n (pn_next n + (minSize - curSize)) else n.
Definition bitsToBytes (b : Z) : Z := (b + CHAR_BIT - 1) / CHAR_BIT.
Definition adjustNextPerBitFields (n : tmpl_popl_notes) (bfStart bfOffset : Z) : tmpl_popl_notes :=
  set_next n (bfStart + bitsToBytes bfOffset).
Definition type_info (arch : Z) (ty : base_type) : outcome tmpl_arch_type_info_t := reading (arch_type_info arch ty).
Definition computeAttAlignment (a : tmpl_attribute) (arch : Z) : outcome Z :=
  if isStruct a then st ← reading (ta_struct a); Done (tm_alignment (tm_static st))
  else ti ← type_info arch (ta_type a); Done (at_align ti).

(** ** Bit-fields *)

(** [value <<= extra; value >>= extra] on a [long long]. *)
Definition signExtendLL (value bfBits : Z) : Z :=
  let extraHighBits := 64 - bfBits in
  if negb (extraHighBits =? 0) then Z.shiftr (s64 (Z.shiftl value extraHighBits)) extraHighBits else s64 value.
Definition zeroExtendLL (value bfBits : Z) : Z :=
  if bfBits <? 64 then Z.land value (Z.shiftl 1 bfBits - 1) else value.
Definition bigMisalignedBitField (tm_data bfStart bfOffset bfBits : Z) : bool :=
  let lastByte := bfStart + (bfOffset + bfBits - 1) / CHAR_BIT in
  negb ((bfStart - tm_data) / SIZEOF_LONGLONG =? (lastByte - tm_data) / SIZEOF_LONGLONG).
Definition extractDataFromBitField (mem : list Z) (a : tmpl_attribute) (bfStart bfOffset bfBits : Z) : outcome tmpl_attribute :=
  let firstByte := bfStart + bfOffset / CHAR_BIT in
  let lastByte := bfStart + (bfOffset + bfBits - 1) / CHAR_BIT in
  _ ← assert (lastByte - firstByte <=? 7);
  bs ← read_mem mem firstByte (lastByte - firstByte + 1);
  let value := Z.shiftr (le_decode bs) (bfOffset mod CHAR_BIT) in
  let v := match ta_type a with
           | TY_CHAR | TY_SHORT | TY_INT | TY_LONG | TY_WCHAR | TY_LONGLONG => VInt (signExtendLL value bfBits)
           | TY_UCHAR | TY_USHORT | TY_UINT | TY_ULONG | TY_ULONGLONG => VInt (zeroExtendLL value bfBits)
           | _ => ta_value a
           end in
  Done (with_value a v).
Record bf_state := mkBf { bfStart : Z; bfOffset : Z }.
Definition out_of_data (n : tmpl_popl_notes) : tmpl_popl_notes := mkNotes (pn_mem n) (pn_end n) true.
Definition populateBitField (arch tm_data : Z) (a : tmpl_attribute) (n : tmpl_popl_notes) (bf : bf_state)
  : outcome (tmpl_attribute * tmpl_popl_notes * bf_state) :=
  ti ← type_info arch (ta_type a);
  let attBits := CHAR_BIT * at_size ti in
  let bfBits := match ta_dimension a with Some d => u64 (td_dimension d) | None => 0 end in
  let intBits := CHAR_BIT * SIZEOF_INT in
  if bfBits =? 0 then
    p ← alignDataPtr (bfStart bf + bitsToBytes (bfOffset bf)) tm_data (at_size ti);
    if p >=? pn_end n then Done (a, out_of_data n, bf)
    else Done (a, n, mkBf (bfStart bf) (CHAR_BIT * (p - bfStart bf)))
  else
    '(n, bf) ←
      (if (attBits <? bfOffset bf + bfBits)
          || ((intBits <? attBits) && bigMisalignedBitField tm_data (bfStart bf) (bfOffset bf) bfBits) then
         align ← (if intBits <? bfBits then Done (at_align ti) else computeAttAlignment a arch);
         n ← alignNextPtr (adjustNextPerBitFields n (bfStart bf) (bfOffset bf)) tm_data align;
         Done (n, mkBf (pn_next n) 0)
       else Done (n, bf));
    let bytesRemaining := u64 (pn_end n - bfStart bf) in
    if bytesRemaining <? bitsToBytes (bfOffset bf + bfBits) then Done (a, out_of_data n, bf)
    else
      a ← (match ta_name a with
           | Some _ => extractDataFromBitField (pn_mem n) a (bfStart bf) (bfOffset bf) bfBits
           | None => Done a
           end);
      let bf := mkBf (bfStart bf) (bfOffset bf + bfBits) in
      if intBits <=? bfOffset bf then
        let n := set_next n (pn_next n + SIZEOF_INT) in
        Done (a, n, mkBf (pn_next n) (bfOffset bf - intBits))
      else Done (a, n, bf).

(** ** Arrays and delimiters *)

Definition populateDelimiter (t : template) (a : tmpl_attribute) (s : store) : store :=
  match ta_delimiter a with
  | None => s
  | Some de =>
      let plug (delimAtt : option tmpl_attribute) :=
        set_delimiter s de
          match delimAtt with
          | Some d => if attExists d then match ta_value d with VString v => Some v | _ => None end else None
          | None => None
          end in
      match de_type de with
      | TMPL_DELIM_ATTR i => plug (_evlTmplGetNthAttribute t i)
      | TMPL_DELIM_ATTNAME name => plug (_evlTmplFindAttribute t name)
      | _ => s
      end
  end.
(** How many elements the array has, or [None]: none that is there. *)
Definition array_nel (t : template) (d : tmpl_dimension) (bytesRemaining : Z) : outcome (option Z) :=
  let of_att (a : tmpl_attribute) := nel ← getDimensionFromAttribute a; Done (if nel <=? 0 then None else Some nel) in
  match td_type d with
  | TMPL_DIM_ATTR i => a ← reading (_evlTmplGetNthAttribute t i); of_att a
  | TMPL_DIM_ATTNAME name => match _evlTmplFindAttribute t name with Some a => of_att a | None => Done None end
  | TMPL_DIM_REST => Done (Some (s32 bytesRemaining))
  | _ => Done (Some (td_dimension d))
  end.

(** What an attribute's population works on. *)
Record pop := mkPop { pp_notes : tmpl_popl_notes; pp_store : store }.

Section Rec.
(** [populateTmpl] on the structs inside. *)
Variable populate : template -> pop -> outcome (template * pop).

Fixpoint populate_structs (arch : Z) (master : template) (nel : nat) (l : list template) (p : pop)
  : outcome (list template * pop) :=
  match nel with
  | O => Done (l, p)
  | S nel =>
      '(st, s) ← _evlCloneTemplate master (pp_store p);
      let st := set_state st (set_tm_arch arch (tm_state st)) in
      '(st, p) ← populate st (mkPop (pp_notes p) s);
      if tm_data_size (tm_state st) =? 0 then Done (l, p)
      else if pn_out_of_data (pp_notes p) then Done (l ++ [st], p)
      else populate_structs arch master nel (l ++ [st]) p
  end.
Definition populateArrayOfStructs (arch : Z) (a : tmpl_attribute) (d : tmpl_dimension) (nel : Z) (p : pop)
  : outcome (tmpl_attribute * pop) :=
  (* a dimension that is not positive needs no master *)
  '(l, p) ← (if 0 <? nel then master ← reading (ta_struct a); populate_structs arch master (Z.to_nat nel) [] p else Done ([], p));
  match l with
  | [] => Done (set_ta_value a VNone, p)
  | _ => Done (with_value a (VList l), mkPop (pp_notes p) (set_dimension2 (pp_store p) d (Z.of_nat (length l))))
  end.

(** An array of [nel] elements, or of what there is of them. *)
Definition populate_array (t : template) (a : tmpl_attribute) (d : tmpl_dimension) (p : pop) : outcome (tmpl_attribute * pop) :=
  let n := pp_notes p in
  let arch := tm_arch (tm_state t) in
  let bytesRemaining := bytes_remaining n in
  let s := populateDelimiter t a (pp_store p) in
  nel ← array_nel t d bytesRemaining;
  match nel with
  | None => Done (a, mkPop n s)
  | Some nel =>
      match ta_type a with
      | TY_STRING =>
          '(ns, n') ← collect_strings collectString (Z.to_nat nel) 0 n;
          Done (if 0 <? ns then with_value a (VArray false (mem_from n (pn_next n))) else a,
                mkPop n' (set_dimension2 s d ns))
      | TY_WSTRING =>
          ti ← type_info arch TY_WCHAR;
          '(ns, n') ← collect_strings (fun n => collectWstring n (at_size ti)) (Z.to_nat nel) 0 n;
          a ← (if 0 <? ns then
                 mem ← reading (_evl_conv_wstring_array arch (mem_from n (pn_next n)) ns);
                 own ← reading (swaps <$> conv_type_of arch);
                 Done (with_value a (VArray own mem))
               else Done a);
          Done (a, mkPop n' (set_dimension2 s d ns))
      | TY_STRUCT => populateArrayOfStructs arch a d nel (mkPop n s)
      | _ =>
          ti ← type_info arch (ta_type a);
          let size := at_size ti in
          let '(nel, n) := if bytesRemaining <? u64 (s32 (size * nel)) then (s32 (bytesRemaining / size), no_more_data n) else (nel, n) in
          let s := set_dimension2 s d nel in
          if 0 <? nel then
            mem ← reading (_evl_conv_scalar_array arch (ta_type a) (mem_from n (pn_next n)) nel size);
            Done (with_value a (VArray (supported_arch arch) mem), mkPop (set_next n (pn_next n + s32 (size * nel))) s)
          else Done (a, mkPop n s)
      end
  end.
Definition populate_struct (t : template) (a : tmpl_attribute) (p : pop) : outcome (tmpl_attribute * pop) :=
  '(st, s) ← (match ta_value a with
              | VStruct st => Done (st, pp_store p)
              | _ => master ← reading (ta_struct a); _evlCloneTemplate master (pp_store p)
              end);
  let st := set_state st (set_tm_arch (tm_arch (tm_state t)) (tm_state st)) in
  '(st, p) ← populate st (mkPop (pp_notes p) s);
  Done (if 0 <? tm_data_size (tm_state st) then with_value a (VStruct st) else set_ta_value a (VStruct st), p).

(** ** A template *)

Record pop_loop := mkPL { pl_pop : pop; pl_bf : bf_state }.
Definition base_of (t : template) : Z := match tm_data (tm_state t) with Some p => p_off p | None => 0 end.
(** [bfOffset = CHAR_BIT * (notes->pn_next - bfStart)] behind a member that is not a
    bit-field; the flag says whether the loop goes on. *)
Definition next_attr (aligned : bool) (a : tmpl_attribute) (p : pop) (bf : bf_state) : bool * tmpl_attribute * pop_loop :=
  (true, a, mkPL p (if aligned then mkBf (bfStart bf) (CHAR_BIT * (pn_next (pp_notes p) - bfStart bf)) else bf)).
Definition stop (a : tmpl_attribute) (p : pop) (bf : bf_state) : bool * tmpl_attribute * pop_loop := (false, a, mkPL p bf).

(** The value of an attribute that is neither const nor a bit-field. *)
Definition populate_value (t : template) (aligned : bool) (a : tmpl_attribute) (p : pop) (bf : bf_state)
  : outcome (bool * tmpl_attribute * pop_loop) :=
  let n := pp_notes p in
  let s := pp_store p in
  let arch := tm_arch (tm_state t) in
  match (if isArray a then ta_dimension a else None) with
  | Some d => '(a, p) ← populate_array t a d p; Done (next_attr aligned a p bf)
  | None =>
      match ta_type a with
      | TY_STRUCT => '(a, p) ← populate_struct t a p; Done (next_attr aligned a p bf)
      | TY_STRING =>
          '(str, n) ← collectString n;
          match str with
          | Some off => Done (next_attr aligned (with_value a (VString (cstring (mem_from n off)))) (mkPop n s) bf)
          | None => Done (stop a (mkPop n s) bf)
          end
      | TY_WSTRING =>
          ti ← type_info arch TY_WCHAR;
          '(str, n) ← collectWstring n (at_size ti);
          match str with
          | Some off =>
              mem ← reading (_evl_conv_wstring arch (mem_from n off));
              Done (next_attr aligned (with_value (set_ta_rawdata a (Some (mkPtr (pn_mem n) off))) (VWstring mem)) (mkPop n s) bf)
          | None => Done (stop a (mkPop n s) bf)
          end
      | _ =>
          ti ← type_info arch (ta_type a);
          if bytes_remaining n <? at_size ti then Done (stop a (mkPop (no_more_data n) s) bf)
          else '(v, n) ← populateScalar a (at_size ti) n arch; Done (next_attr aligned (with_value a v) (mkPop n s) bf)
      end
  end.
Definition populate_att (t : template) (aligned : bool) (a : tmpl_attribute) (l : pop_loop)
  : outcome (bool * tmpl_attribute * pop_loop) :=
  let p := pl_pop l in
  let n := pp_notes p in
  let s := pp_store p in
  let bf := pl_bf l in
  if isConstAtt a then
    let s := match ta_dimension a with Some d => if isArray a then set_dimension2 s d (td_dimension d) else s | None => s end in
    Done (true, a, mkPL (mkPop n s) bf)
  else
    '(n, bf) ←
      (if isBitField a then Done (n, bf)
       else
         n ← (if aligned then
                align ← computeAttAlignment a (tm_arch (tm_state t));
                alignNextPtr (adjustNextPerBitFields n (bfStart bf) (bfOffset bf)) (base_of t) align
              else Done n);
         Done (n, mkBf (pn_next n) 0));
    if bytes_remaining n =? 0 then Done (stop a (mkPop (no_more_data n) s) bf)
    else if pn_out_of_data n then Done (stop a (mkPop n s) bf)
    else
      let a := set_ta_rawdata a (Some (mkPtr (pn_mem n) (pn_next n))) in
      if isBitField a && negb (isStruct a) then
        '(a, n, bf) ← populateBitField (tm_arch (tm_state t)) (base_of t) a n bf;
        Done (true, a, mkPL (mkPop n s) bf)
      else populate_value t (aligned && negb (isBitField a)) a (mkPop n s) bf.
Fixpoint populate_atts (t : template) (aligned : bool) (done todo : list tmpl_attribute) (l : pop_loop)
  : outcome (list tmpl_attribute * pop_loop) :=
  match todo with
  | [] => Done (done, l)
  | a :: todo =>
      '(go_on, a, l) ← populate_att (set_attributes t (done ++ a :: todo)) aligned a l;
      if (go_on : bool) then populate_atts t aligned (done ++ [a]) todo l else Done (done ++ a :: todo, l)
  end.
Definition populate_body (t : template) (p : pop) : outcome (template * pop) :=
  let aligned := isAlignedTmpl t in
  let n := pp_notes p in
  let base := pn_next n in
  let t := set_state t (set_tm_data (Some (mkPtr (pn_mem n) base)) (tm_state t)) in
  '(atts, l) ← populate_atts t aligned [] (tm_attributes t) (mkPL p (mkBf base 0));
  let bf := pl_bf l in
  let n := pp_notes (pl_pop l) in
  n ← (if aligned then
         n ← alignNextPtr (adjustNextPerBitFields n (bfStart bf) (bfOffset bf)) base (tm_alignment (tm_static t));
         Done (enforceMinSize n base (tm_minsize (tm_static t)))
       else Done n);
  let st := tm_state t in
  let st := set_tm_data_size (u64 (pn_next n - base)) st in
  Done (set_state (set_attributes t atts) (set_tm_flags (set_flag (tm_flags st) TMPL_TF_POPULATED) st),
        mkPop n (pp_store (pl_pop l))).
End Rec.

Fixpoint populateTmpl (fuel : nat) (t : template) (p : pop) : outcome (template * pop) :=
  match fuel with
  | O => Fault OutOfFuel
  | S fuel => populate_body (populateTmpl fuel) t p
  end.

(** ** A record *)

(** [char data[_R_]] for what no attribute has. *)
Definition createExtraDataAtt (t : template) (p : pop) : template * pop :=
  let n := pp_notes p in
  let '(d, s) := alloc_dimension (pp_store p) TMPL_DIM_REST (-1) (pn_end n - pn_next n) in
  let a := mkAttr (Some EXTRA_DATA_ATT_NAME) TY_CHAR None (Some d) TMPL_AFS_DUMP false None None
             (VArray false (mem_from n (pn_next n))) EVL_ATTR_EXISTS (length (tm_attributes t)) in
  (set_attributes t (tm_attributes t ++ [a]), mkPop (set_next n (pn_end n)) s).
(** The result is the number of bytes that the attributes have. *)
Definition populateTemplate (t : template) (data : option (list Z)) (s : store) : outcome (template * store * Z) :=
  let t := depopulateTemplate t in
  match data with
  | None | Some [] =>
      let st := set_tm_data_size 0 (set_tm_data None (tm_state t)) in
      Done (set_state t (set_tm_flags (set_flag (tm_flags st) TMPL_TF_POPULATED) st), s, 0)
  | Some data =>
      '(t, p) ← populateTmpl (depth t) t (mkPop (mkNotes data 0 false) s);
      let '(t, p) := if pn_next (pp_notes p) <? pn_end (pp_notes p) then createExtraDataAtt t p else (t, p) in
      Done (t, pp_store p, pn_next (pp_notes p))
  end.
(** [inl] is an error status. *)
Definition evl_clonetemplate (master : template) (s : store) : outcome (Z + template * store) :=
  if negb (isMasterTmpl master) then Done (inl EINVAL)
  else c ← _evlCloneTemplate master s; Done (inr c).
Definition evl_populatetemplate (t : template) (entry : posix_log_entry) (buf : option (list Z)) (s : store)
  : outcome (Z + template * store) :=
  if bool_decide (buf = None) && negb (log_size entry =? 0) then Done (inl EINVAL)
  else if isMasterTmpl t then Done (inl EINVAL)
  else
    let st := tm_state t in
    let t := set_state t (mkState (tm_flags st) (Z.land (log_magic entry) 0xffff) (tm_data_size st) (Some entry)
                            ((fun b => mkPtr b 0) <$> buf) (log_recid entry) (tm_clone st)) in
    '(t, s, _) ← populateTemplate t (take (Z.to_nat (log_size entry)) <$> buf) s;
    Done (inr (t, s)).
Definition evl_depopulatetemplate (t : template) : template := depopulateTemplate t.
