(* ===== verification/TmplSafe.v ===== *)
(** * Populating never reads outside of the record

    For a master whose attributes pass [pop_ok], a clone of it is populated from every
    record, over and over: [populateTmpl] returns, with the position within the record.
    [like t m] says what stays of the master [m] in its clone [t] whatever is read into it. *)
From S2P Require Import Prelude NvPairs LogRecord QEvaluate RecPack Format Conv Tmpl TmplPop.

(** ** Templates that are safe *)

(** The greatest dimension that an attribute of the type can give. *)
Definition dim_max (ty : base_type) : option Z :=
  match ty with
  | TY_CHAR => Some (2 ^ 7 - 1)
  | TY_UCHAR => Some (2 ^ 8 - 1)
  | TY_SHORT => Some (2 ^ 15 - 1)
  | TY_USHORT => Some (2 ^ 16 - 1)
  | TY_INT | TY_UINT | TY_LONG | TY_ULONG | TY_LONGLONG | TY_ULONGLONG => Some (2 ^ 31 - 1)
  | _ => None
  end.
Definition in_type (ty : base_type) (z : Z) : bool :=
  let n := 8 * local_size ty in
  if is_signed ty then (- 2 ^ (n - 1) <=? z) && (z <? 2 ^ (n - 1)) else (0 <=? z) && (z <? 2 ^ n).
Definition int_value_ok (a : tmpl_attribute) : bool :=
  match ta_value a with VInt z => in_type (ta_type a) z | _ => false end.
(** An attribute that may be the dimension of an array with elements of [size] bytes: the
    product is an [int]. *)
Definition dim_source_ok (size : Z) (a : tmpl_attribute) : bool :=
  negb (isArray a) &&
  match dim_max (ta_type a) with Some k => size * k <? 2 ^ 31 | None => false end &&
  (if attExists a then int_value_ok a else true).
Definition is_scalar (ty : base_type) : bool := plain_scalar ty || bool_decide (ty = TY_LDOUBLE).
Definition element_size (arch : Z) (ty : base_type) : Z := if is_scalar ty then src_size arch ty else 0.
Definition array_ok (arch : Z) (m : template) (a : tmpl_attribute) (d : tmpl_dimension) : bool :=
  let size := element_size arch (ta_type a) in
  match td_type d with
  | TMPL_DIM_CONST => (0 <=? td_dimension d) && (td_dimension d <? 2 ^ 31) && (size * td_dimension d <? 2 ^ 31)
  | TMPL_DIM_PREFIX3 => td_dimension d =? -1
  | TMPL_DIM_REST => true
  | TMPL_DIM_ATTR i => match _evlTmplGetNthAttribute m i with Some b => dim_source_ok size b | None => false end
  | TMPL_DIM_ATTNAME name => match _evlTmplFindAttribute m name with Some b => dim_source_ok size b | None => true end
  | _ => false
  end.
(** What is asked of an attribute that is not const, except for its struct. *)
Definition att_ok (arch : Z) (m : template) (a : tmpl_attribute) : bool :=
  negb (isBitField a) && negb (attExists a) &&
  match ta_value a with VNone => true | _ => false end &&
  match ta_type a with
  | TY_STRUCT => match ta_struct a with Some st => negb (isAlignedTmpl m) || (0 <? tm_alignment (tm_static st)) | None => false end
  | TY_STRING | TY_WSTRING => negb (isAlignedTmpl m)
  | ty => is_scalar ty
  end &&
  match ta_dimension a with Some d => array_ok arch m a d | None => true end.
Fixpoint pop_ok (arch : Z) (m : template) : bool :=
  match m with
  | mkTemplate sta st atts imps =>
      negb (tm_clone st) && negb (has (tm_flags st) TMPL_TF_POPULATED) &&
      (negb (has (tm_flags st) TMPL_TF_ALIGNED) || (0 <? tm_alignment sta)) &&
      forallb (fun a => negb (is_extra a)) atts &&
      forallb (fun a : tmpl_attribute_ template =>
        match a with
        | mkAttr _ _ str _ _ _ _ _ _ flags _ =>
            has flags EVL_ATTR_CONST ||
            (att_ok arch m a && match str with Some st => pop_ok arch st | None => true end)
        end) atts
  end.

(** ** A clone and its master *)

Definition like_dim (d e : option tmpl_dimension) : Prop :=
  match d, e with
  | Some d, Some e => td_type d = td_type e /\ td_dimension d = td_dimension e
  | None, None => True
  | _, _ => False
  end.
Inductive like : template -> template -> Prop :=
  | like_intro t m :
      tm_static t = tm_static m -> isAlignedTmpl t = isAlignedTmpl m -> isMasterTmpl m = true ->
      Forall2 like_att (tm_attributes t) (tm_attributes m) -> like t m
with like_att : tmpl_attribute -> tmpl_attribute -> Prop :=
  | like_const a : isConstAtt a = true -> like_att a a
  | like_var a b :
      isConstAtt a = false -> isConstAtt b = false -> attExists b = false -> isBitField a = isBitField b ->
      ta_name a = ta_name b -> ta_type a = ta_type b -> ta_struct a = ta_struct b ->
      like_dim (ta_dimension a) (ta_dimension b) ->
      (attExists a = true -> isInteger (ta_type a) = true -> isArray a = false -> int_value_ok a = true) ->
      (forall st, ta_value a = VStruct st -> exists m, ta_struct a = Some m /\ like st m) ->
      like_att a b.

Lemma like_isArray a b : like_att a b -> isArray a = isArray b.
Proof.
  destruct 1 as [a|a b H1 H2 Hx H3 H4 H5 H6 H7 H8 H9]; [done|]. unfold isArray. rewrite H3. f_equal.
  destruct (ta_dimension a), (ta_dimension b); try done; apply bool_decide_ext; rewrite !is_Some_alt; done.
Qed.
Lemma like_name a b : like_att a b -> ta_name a = ta_name b.
Proof. by destruct 1. Qed.
Lemma like_type a b : like_att a b -> ta_type a = ta_type b.
Proof. by destruct 1. Qed.

Lemma like_find_named l k name a : Forall2 like_att l k -> find_named l name = Some a ->
  exists b, find_named k name = Some b /\ like_att a b.
Proof.
  induction 1 as [|x y l k Hxy H IH]; [done|]. cbn. rewrite (like_name _ _ Hxy).
  case_bool_decide; [|done]. intros [= <-]. eauto.
Qed.

(** A name finds in the clone what it finds in the master, or nothing. *)
Lemma like_find fuel : forall t m path a, like t m -> findAttByScopedName fuel t path = Some a ->
  exists b, findAttByScopedName fuel m path = Some b /\ (a = b \/ like_att a b).
Proof.
  induction fuel as [|fuel IH]; intros t m path a Ht Hf; inversion Ht as [? ? Hs Ha Hm Hl]; subst;
    cbn in Hf |- *; destruct (split_dot path) as [[name rest]|].
  - destruct (findAttBySimpleName t name) as [x|]; [|done]. cbn in Hf. by destruct (negb (isStruct x) || isArray x).
  - destruct (like_find_named _ _ _ _ Hl Hf) as (b & Hb & Hab). eauto.
  - destruct (findAttBySimpleName t name) as [x|] eqn:Ex; [|done]. cbn in Hf.
    destruct (like_find_named _ _ _ _ Hl Ex) as (y & Ey & Hxy).
    unfold findAttBySimpleName in *. rewrite Ey. cbn. unfold isStruct in *.
    rewrite <-(like_type _ _ Hxy), <-(like_isArray _ _ Hxy).
    destruct (negb (bool_decide (ta_type x = TY_STRUCT)) || isArray x); [done|].
    inversion Hxy as [? Hc|? ? Hc Hc' Hx Hbf Hn Hty Hst Hd Hi Hv]; subst.
    + destruct (attExists y).
      * destruct (ta_value y); try done. eauto.
      * rewrite Hm. destruct (isMasterTmpl t); [|done]. destruct (ta_struct y); [|done]. cbn in *. eauto.
    + rewrite Hx, Hm. destruct (attExists x).
      * destruct (ta_value x) as [| | | | | |st|]; try done. destruct (Hv st) as (m' & Hm' & Hlike); [done|].
        rewrite <-Hst, Hm'. cbn. eauto.
      * destruct (isMasterTmpl t); [|done]. rewrite <-Hst. destruct (ta_struct x); [|done]. cbn in *. eauto.
  - destruct (like_find_named _ _ _ _ Hl Hf) as (b & Hb & Hab). eauto.
Qed.

(** The dimension that an attribute gives. *)
Lemma dimension_of_source a b size : a = b \/ like_att a b -> dim_source_ok size b = true -> 0 <= size ->
  exists k, getDimensionFromAttribute a = Done k /\ size * k < 2 ^ 31 /\ k < 2 ^ 31.
Proof.
  intros Hab Hb Hsz. unfold dim_source_ok in Hb. bprop. destruct (dim_max (ta_type b)) as [mx|] eqn:Emx; [|done].
  assert (Hty : ta_type a = ta_type b) by (destruct Hab as [->|Hl]; [done|by apply like_type]).
  unfold getDimensionFromAttribute. destruct (attExists a) eqn:Ex; cbn; [|exists 0; split; [done|lia]].
  assert (Hi : isInteger (ta_type b) = true) by (by destruct (ta_type b)).
  assert (int_value_ok a = true) as Hv.
  { destruct Hab as [->|Hl]; [by rewrite Ex in *|]. pose proof (like_isArray _ _ Hl). inversion Hl; subst; [by rewrite Ex in *|].
    match goal with H : _ -> _ -> _ -> int_value_ok a = true |- _ => apply H; congruence end. }
  unfold int_value_ok in Hv. destruct (ta_value a) as [|z| | | | | |] eqn:Ev; try done. unfold in_type in Hv. rewrite Hty in Hv.
  unfold _evlTmplGetValueOfIntegerAttribute. rewrite Hty, Ev.
  assert (s32 (s64 z) <= mx /\ mx < 2 ^ 31) as [Hz Hmx].
  { destruct (ta_type b); try discriminate Emx; injection Emx as <-; cbv [is_signed] in Hv;
      match type of Hv with context [local_size ?t] => let n := eval vm_compute in (local_size t) in change (local_size t) with n in Hv end;
      cbn [Z.mul Z.sub Z.add Z.opp] in Hv; bprop.
    all: try (rewrite (signed_id 64) by (unfold in_signed; lia); rewrite (signed_id 32) by (unfold in_signed; lia); lia).
    all: pose proof (signed_range 32 (s64 z) ltac:(lia)) as Hr; unfold in_signed in Hr; lia. }
  exists (s32 (s64 z)). split; [|nia]. destruct (ta_type b); try discriminate Emx; done.
Qed.

(** ** The pieces *)

Lemma bytes_remaining_eq n : 0 <= pn_next n <= pn_end n -> pn_end n < 2 ^ 31 -> bytes_remaining n = pn_end n - pn_next n.
Proof. intros. unfold bytes_remaining. apply unsigned_id. unfold in_unsigned. lia. Qed.

Lemma count_string_ok l : forall k rem, rem - k < Z.of_nat (length l) ->
  exists r, count_string l k rem = Done r /\ k <= r /\ r <= Z.max k (rem + 1).
Proof.
  induction l as [|b l IH]; intros k rem H; cbn [count_string]; cbn [length] in H.
  - rewrite (proj2 (Z.leb_gt _ _)) by lia. exists k. split; [done|lia].
  - destruct (k <=? rem) eqn:E; [|exists k; split; [done|lia]].
    destruct (b =? 0); [exists k; split; [done|lia]|].
    destruct (IH (k + 1) rem) as (r & -> & Hr); [lia|]. exists r. split; [done|]. zb.
Qed.

Lemma read_mem_ok mem p n : 0 <= p -> 0 <= n -> p + n <= Z.of_nat (length mem) ->
  exists bs, read_mem mem p n = Done bs /\ length bs = Z.to_nat n.
Proof.
  intros. unfold read_mem. rewrite (proj2 (Z.leb_le _ _)), (proj2 (Z.leb_le _ _)) by lia. cbn.
  eexists. split; [done|]. rewrite length_take, length_drop. lia.
Qed.

(** Wide strings: the count stops behind the first null. *)
Lemma count_wstring_ok fuel : forall l k rem, (length l < fuel)%nat -> rem - k + 4 <= Z.of_nat (length l) ->
  exists r, count_wstring fuel l 4 k rem = Done r /\ k <= r /\
    (r <= rem -> forall fuel', (length l < fuel')%nat -> wcslen_go fuel' l = Some ((r - k) / 4) /\ (r - k) mod 4 = 0).
Proof.
  induction fuel as [|fuel IH]; intros l k rem Hf H; [lia|]. cbn [count_wstring].
  destruct (k <=? rem) eqn:E; bprop; [|exists k; split; [done|]; split; [|intros]; lia].
  rewrite (proj2 (Z.ltb_ge _ _)) by lia. change (Z.to_nat 4) with 4%nat.
  change (bool_decide (take 4 l = replicate 4 0)) with (wnull l).
  destruct (wnull l) eqn:En.
  - exists k. split; [done|]. split; [lia|]. intros _ fuel' Hf'. destruct fuel'; [lia|]. cbn [wcslen_go].
    rewrite (proj2 (Nat.ltb_ge _ _)), En, Z.sub_diag by lia. done.
  - destruct (IH (drop 4 l) (k + 4) rem) as (r & Hr & Hkr & Hlen); [rewrite length_drop; lia..|].
    exists r. split; [done|]. split; [lia|]. intros Hle fuel' Hf'. destruct fuel' as [|fuel']; [lia|]. cbn [wcslen_go].
    rewrite (proj2 (Nat.ltb_ge _ _)), En by lia. destruct (Hlen Hle fuel') as [-> Hmod]; [rewrite length_drop; lia|].
    cbn. split; [f_equal|]; dlia.
Qed.

Lemma wcslen_bound fuel : forall l k, wcslen_go fuel l = Some k -> 0 <= k /\ 4 * (k + 1) <= Z.of_nat (length l).
Proof.
  induction fuel as [|fuel IH]; intros l k H; cbn [wcslen_go] in H; [done|]. destruct (length l <? 4)%nat eqn:E; [done|].
  apply Nat.ltb_ge in E. destruct (wnull l); [injection H as <-; lia|].
  destruct (wcslen_go fuel (drop 4 l)) eqn:Ed; [|done]. apply IH in Ed. rewrite length_drop in Ed. injection H as <-. lia.
Qed.
Lemma wcsnlen_of_wcslen maxlen : forall l fuel k, wcslen_go fuel l = Some k -> exists j, wcsnlen maxlen l = Some j /\ 0 <= j <= k.
Proof.
  induction maxlen as [|maxlen IH]; intros l fuel k H.
  - exists 0. split; [done|]. apply wcslen_bound in H. lia.
  - destruct fuel as [|fuel]; [done|]. cbn [wcslen_go wcsnlen] in *.
    destruct (length l <? 4)%nat; [done|]. destruct (wnull l); [injection H as <-; exists 0; split; [done|lia]|].
    destruct (wcslen_go fuel (drop 4 l)) eqn:E; [|done]. destruct (IH _ _ _ E) as (j & -> & Hj). injection H as <-.
    eexists. split; [done|]. lia.
Qed.
Lemma wcsnlen_wcslen maxlen : forall l fuel k, wcslen_go fuel l = Some k -> k < Z.of_nat maxlen -> wcsnlen maxlen l = Some k.
Proof.
  induction maxlen as [|maxlen IH]; intros l fuel k H Hk.
  - destruct (wcsnlen_of_wcslen 0 _ _ _ H) as (j & _ & Hj). lia.
  - destruct fuel as [|fuel]; [done|]. cbn [wcslen_go wcsnlen] in *.
    destruct (length l <? 4)%nat; [done|]. destruct (wnull l); [done|].
    destruct (wcslen_go fuel (drop 4 l)) eqn:E; [|done]. injection H as <-. rewrite (IH _ _ _ E) by lia. done.
Qed.
Lemma wcslen_fuel fuel : forall l fuel' k, wcslen_go fuel l = Some k -> (fuel <= fuel')%nat -> wcslen_go fuel' l = Some k.
Proof.
  induction fuel as [|fuel IH]; intros l fuel' k H Hf; [done|]. destruct fuel' as [|fuel']; [lia|]. cbn [wcslen_go] in *.
  destruct (length l <? 4)%nat; [done|]. destruct (wnull l); [done|].
  destruct (wcslen_go fuel (drop 4 l)) eqn:E; [|done]. rewrite (IH _ fuel' _ E) by lia. done.
Qed.

(** Arrays are converted if the elements are there. *)
Lemma conv_elements_ok arch ty c el nel : forall buf data, 0 <= el -> el * Z.of_nat nel <= Z.of_nat (length data) ->
  is_Some (conv_elements arch ty c el nel buf data).
Proof.
  induction nel as [|nel IH]; intros buf data He Hl; cbn [conv_elements]; [done|].
  rewrite (proj2 (Z.ltb_ge _ _)) by nia.
  edestruct (IH (__conv_scalar arch ty (store_at 0 (take (Z.to_nat el) data) buf) c) (drop (Z.to_nat el) data) He) as [r Hr];
    [rewrite length_drop; nia|]. rewrite Hr. done.
Qed.
Lemma length_conv_wchars arch c nel : forall buf data r,
  conv_elements arch TY_WCHAR c WCSZ nel buf data = Some r -> (4 <= length buf)%nat -> length r = (4 * nel)%nat.
Proof.
  induction nel as [|nel IH]; intros buf data r H Hb; cbn [conv_elements] in H; [by injection H as <-|].
  destruct (_ <? _) eqn:E; [done|]. unfold WCSZ in E. bprop.
  set (buf' := __conv_scalar _ _ _ _) in H. assert (length buf' = length buf) as Hl.
  { unfold buf', __conv_scalar. cbn [is_word_type].
    rewrite <-(length_store_at (take (Z.to_nat WCSZ) data) buf) by (rewrite length_take; unfold WCSZ; lia).
    destruct (bool_decide _); [done|]. destruct (swaps c); [apply length_byteswap|done]. }
  clearbody buf'. destruct (conv_elements _ _ _ _ _ buf' _) as [rest|] eqn:Er; [|done]. apply IH in Er; [|lia]. injection H as <-.
  change (Z.to_nat (local_size TY_WCHAR)) with 4%nat. rewrite length_app, length_take. lia.
Qed.
Lemma conv_type_ok arch : 0 <= arch <= 9 -> is_Some (conv_type_of arch).
Proof.
  intros H. replace arch with (Z.of_nat (Z.to_nat arch)) by lia. assert (Z.to_nat arch < 10)%nat as Hn by lia.
  generalize dependent (Z.to_nat arch). intros n Hn.
  do 10 (destruct n as [|n]; [vm_compute; by eexists|]). lia.
Qed.
Lemma conv_scalar_array_ok arch ty data nel el : 0 <= el -> 0 <= nel -> el * nel <= Z.of_nat (length data) ->
  is_Some (_evl_conv_scalar_array arch ty data nel el).
Proof.
  intros He Hn Hl. unfold _evl_conv_scalar_array. destruct (supported_arch arch) eqn:Es; [|done].
  unfold supported_arch in Es. bprop. destruct (conv_type_ok arch) as [c ->]; [lia|]. cbn. unfold __conv_scalar_array.
  apply conv_elements_ok; [done|]. by rewrite Z2Nat.id.
Qed.

(** ** Changing an attribute *)

Lemma const_with_value a v : isConstAtt (with_value a v) = isConstAtt a.
Proof. unfold isConstAtt, with_value. cbn. rewrite has_set. by rewrite orb_false_r. Qed.
Lemma bitfield_with_value a v : isBitField (with_value a v) = isBitField a.
Proof. unfold isBitField, with_value. cbn. rewrite has_set. by rewrite orb_false_r. Qed.
Lemma array_with_value a v : isArray (with_value a v) = isArray a.
Proof. unfold isArray. by rewrite bitfield_with_value. Qed.

Definition value_like (a : tmpl_attribute) (v : tmpl_value template) : Prop :=
  (isInteger (ta_type a) = true -> isArray a = false -> match v with VInt z => in_type (ta_type a) z | _ => false end = true) /\
  (forall st, v = VStruct st -> exists m, ta_struct a = Some m /\ like st m).
Lemma like_with_value a b v : like_att a b -> isConstAtt a = false -> value_like a v -> like_att (with_value a v) b.
Proof.
  intros H Hc [Hv Hs]. inversion H as [|? ? H1 H2 Hx H3 H4 H5 H6 H7 H8 H9]; subst; [congruence|].
  apply like_var; rewrite ?const_with_value, ?bitfield_with_value, ?array_with_value; first [done|intros _; apply Hv].
Qed.
Lemma like_set_value a b v : like_att a b -> isConstAtt a = false -> value_like a v -> like_att (set_ta_value a v) b.
Proof.
  intros H Hc [Hv Hs]. inversion H as [|? ? H1 H2 Hx H3 H4 H5 H6 H7 H8 H9]; subst; [congruence|].
  apply like_var; first [done|intros _; apply Hv].
Qed.
Lemma like_set_rawdata a b p : like_att a b -> isConstAtt a = false -> like_att (set_ta_rawdata a p) b.
Proof. intros H Hc. inversion H; subst; [congruence|]. by apply like_var. Qed.

Lemma scalar_info arch ty : is_scalar ty = true -> 0 <= arch <= 9 ->
  exists ti, arch_type_info arch ty = Some ti /\ src_size arch ty = at_size ti /\ 1 <= at_size ti <= 16 /\ 1 <= at_align ti.
Proof.
  intros Hs H. replace arch with (Z.of_nat (Z.to_nat arch)) by lia. assert (Z.to_nat arch < 10)%nat as Hn by lia.
  generalize dependent (Z.to_nat arch). intros n Hn.
  do 10 (destruct n as [|n]; [destruct ty; try discriminate Hs; eexists; (split; [vm_compute; reflexivity|]); vm_compute;
    (repeat split; discriminate)|]). lia.
Qed.
Lemma wchar_size arch : 0 <= arch <= 9 -> src_size arch TY_WCHAR = 4.
Proof.
  intros H. replace arch with (Z.of_nat (Z.to_nat arch)) by lia. assert (Z.to_nat arch < 10)%nat as Hn by lia.
  generalize dependent (Z.to_nat arch). intros n Hn. do 10 (destruct n as [|n]; [done|]). lia.
Qed.
Lemma load_int_in_type ty data : isInteger ty = true -> in_type ty (load_int ty data) = true.
Proof.
  intros H. unfold in_type, load_int. pose proof (signed_range (8 * local_size ty) (le_decode (take (Z.to_nat (local_size ty)) data))) as Hs.
  pose proof (unsigned_range (8 * local_size ty) (le_decode (take (Z.to_nat (local_size ty)) data))) as Hu.
  unfold in_signed, in_unsigned in *.
  assert (1 <= 8 * local_size ty) as H1 by (destruct ty; try discriminate H; vm_compute; discriminate).
  destruct (is_signed ty); apply andb_true_iff; rewrite Z.leb_le, Z.ltb_lt; [apply Hs; lia|apply Hu; lia].
Qed.

(** What [pop_ok] says of each attribute. *)
Definition member_ok (arch : Z) (m : template) (a : tmpl_attribute) : Prop :=
  isConstAtt a = true \/
  (isConstAtt a = false /\ att_ok arch m a = true /\ (forall st, ta_struct a = Some st -> pop_ok arch st = true)).
Lemma pop_ok_spec arch m : pop_ok arch m = true ->
  isMasterTmpl m = true /\ isPopulatedTmpl m = false /\ (isAlignedTmpl m = true -> 0 < tm_alignment (tm_static m)) /\
  Forall (member_ok arch m) (tm_attributes m) /\ Forall (fun a => is_extra a = false) (tm_attributes m).
Proof.
  destruct m as [sta st atts imps]. intros H. cbn [pop_ok] in H. bprop. unfold isMasterTmpl, isPopulatedTmpl, isAlignedTmpl. cbn [tm_state tm_static tm_attributes].
  split; [by apply negb_true_iff|]. split; [done|]. split. 
  - intros Ha. match goal with H : _ \/ _ |- _ => destruct H; bprop; [congruence|done] end.
  - split.
    2:{ apply Forall_forall. intros a Ha. match goal with H : forallb (fun a => negb _) _ = true |- _ => rewrite forallb_forall in H;
          specialize (H a (proj1 (list_elem_of_In _ _) Ha)) end. by apply negb_true_iff. }
    match goal with H : forallb _ _ = true, H' : forallb _ _ = true |- _ => rename H' into Hf end.
    apply Forall_forall. intros a Ha. rewrite forallb_forall in Hf. specialize (Hf a (proj1 (list_elem_of_In _ _) Ha)).
    destruct a as [name ty str dim fmt sh de raw v flags idx]. unfold member_ok, isConstAtt. cbn [ta_flags ta_struct].
    destruct (has flags EVL_ATTR_CONST); [by left|]. right. cbn [orb] in Hf. bprop. split; [done|]. split; [done|].
    intros s ->. done.
Qed.

(** *** A fresh clone is like its master *)

Lemma like_fresh a d de : isConstAtt a = false -> attExists a = false -> ta_value a = VNone -> like_dim d (ta_dimension a) ->
  like_att (set_ta_delimiter (set_ta_dimension (set_ta_flags a (set_flag (ta_flags a) EVL_ATTR_CLONE)) d) de) a.
Proof.
  intros Hc Hx Hv Hd. unfold isConstAtt, attExists in *.
  apply like_var; unfold isConstAtt, isBitField, attExists; cbn; rewrite ?has_set, ?Hc, ?Hx, ?Hv; try done.
  by rewrite orb_false_r.
Qed.
Lemma cloneAttribute_ok arch m a s : member_ok arch m a -> exists c s', cloneAttribute a s = Done (c, s') /\ like_att c a.
Proof.
  intros [Hc|(Hc & Ha & _)]; unfold cloneAttribute; rewrite Hc; [do 2 eexists; split; [done|by apply like_const]|].
  unfold att_ok in Ha. bprop. destruct (ta_value a) eqn:Ev; try done.
  assert (exists d s', clone_dimension a s = Done (d, s') /\ like_dim d (ta_dimension a)) as (d & s' & -> & Hd).
  { unfold clone_dimension. destruct (ta_dimension a) as [d|]; [|by do 2 eexists].
    match goal with H : array_ok _ _ _ _ = true |- _ => unfold array_ok in H end.
    destruct (td_type d) eqn:Ed; try done; do 2 eexists; (split; [done|]); cbn; by rewrite ?Ed. }
  cbn. destruct (clone_delimiter a s') as [de s'']. do 2 eexists. split; [done|]. by apply like_fresh.
Qed.
Lemma clone_attributes_ok arch m l : forall s, Forall (member_ok arch m) l ->
  exists c s', clone_attributes l s = Done (c, s') /\ Forall2 like_att c l.
Proof.
  induction l as [|a l IH]; intros s H; cbn; [by do 2 eexists|]. inversion H; subst.
  destruct (cloneAttribute_ok arch m a s) as (c & s1 & -> & Hc); [done|]. cbn.
  destruct (IH s1) as (cl & s2 & -> & Hcl); [done|]. cbn. do 2 eexists. split; [done|]. by constructor.
Qed.
Lemma clone_ok arch m s : pop_ok arch m = true ->
  exists t s', _evlCloneTemplate m s = Done (t, s') /\ like t m /\ isMasterTmpl t = false /\ isPopulatedTmpl t = false.
Proof.
  intros (Hm & Hp & _ & Hf & _)%pop_ok_spec. unfold _evlCloneTemplate. rewrite Hm, Hp. cbn.
  destruct (clone_attributes_ok arch m _ s Hf) as (c & s' & -> & Hc). cbn.
  do 2 eexists. split; [done|]. split; [|done]. by constructor.
Qed.

(** ** Within a record *)

Section Record.
Context (mem : list Z) (Hmem : Z.of_nat (length mem) <= POSIX_LOG_ENTRY_MAXLEN).
Context (arch : Z) (Harch : 0 <= arch <= 9).

Definition inside (n : tmpl_popl_notes) : Prop := pn_mem n = mem /\ 0 <= pn_next n <= Z.of_nat (length mem).
Definition moved (n n' : tmpl_popl_notes) : Prop := inside n' /\ pn_next n <= pn_next n'.

Lemma moved_refl n : inside n -> moved n n.
Proof. unfold moved. intros H. split; [done|lia]. Qed.
Lemma moved_trans a b c : moved a b -> moved b c -> moved a c.
Proof. unfold moved. intros [? ?] [? ?]. split; [done|lia]. Qed.
Lemma inside_remaining n : inside n -> bytes_remaining n = Z.of_nat (length mem) - pn_next n.
Proof.
  intros [Hm Hn]. unfold POSIX_LOG_ENTRY_MAXLEN in Hmem.
  rewrite bytes_remaining_eq; unfold pn_end; rewrite Hm; lia.
Qed.
Lemma length_mem_from n p : pn_mem n = mem -> 0 <= p <= Z.of_nat (length mem) -> Z.of_nat (length (mem_from n p)) = Z.of_nat (length mem) - p.
Proof. intros Hm Hp. unfold mem_from. rewrite Hm, length_drop. lia. Qed.
Lemma moved_no_more n : inside n -> moved n (no_more_data n).
Proof. intros H. split; [exact H|cbn; lia]. Qed.
Lemma moved_set_next n p : inside n -> pn_next n <= p <= Z.of_nat (length mem) -> moved n (set_next n p).
Proof. intros [Hm Hn] Hp. split; [split; [done|]|]; cbn; lia. Qed.
Lemma moved_clamp n p : inside n -> pn_next n <= p -> moved n (clamp n p).
Proof.
  intros [Hm Hn] Hp. unfold clamp, moved, inside, pn_end. rewrite Hm. destruct (p >=? _) eqn:E; cbn; bprop; rewrite ?Hm; split_and!; done || lia.
Qed.

Lemma collectString_moved n : inside n -> exists str n', collectString n = Done (str, n') /\ moved n n'.
Proof.
  intros Hn. unfold collectString. rewrite inside_remaining by done. pose proof Hn as [Hm Hp].
  destruct (count_string_ok (mem_from n (pn_next n)) 1 (Z.of_nat (length mem) - pn_next n)) as (r & -> & Hr).
  { rewrite length_mem_from by done. lia. }
  cbn. destruct (_ <? r) eqn:E; bprop; eexists _, _; (split; [done|]); [by apply moved_no_more|].
  apply moved_set_next; [done|lia].
Qed.

Lemma collectWstring_moved n : inside n -> exists str n', collectWstring n 4 = Done (str, n') /\ moved n n' /\
  (forall off, str = Some off -> off = pn_next n /\ exists k, wcslen (mem_from n off) = Some k /\ pn_next n' = pn_next n + 4 * (k + 1)) /\
  (str = None -> pn_next n' = pn_next n).
Proof.
  intros Hn. unfold collectWstring. rewrite inside_remaining by done. pose proof Hn as [Hm Hp].
  destruct (count_wstring_ok (S (length (mem_from n (pn_next n)))) (mem_from n (pn_next n)) 4 (Z.of_nat (length mem) - pn_next n))
    as (r & -> & Hr & Hlen); [lia|rewrite length_mem_from by done; lia|].
  cbn. destruct (_ <? r) eqn:E; bprop; eexists _, _; (split; [done|]).
  - split; [by apply moved_no_more|]. by split.
  - split; [apply moved_set_next; [done|lia]|]. split; [|done]. intros off [= <-]. split; [done|].
    destruct (Hlen ltac:(lia) (S (length (mem_from n (pn_next n))))) as [Hk Hmod]; [lia|]. eexists. split; [exact Hk|]. cbn. dlia.
Qed.

Lemma wcslen_mem p k : wcslen (drop p mem) = Some k -> 0 <= k < 2048.
Proof.
  intros H. apply wcslen_bound in H. rewrite length_drop in H. unfold POSIX_LOG_ENTRY_MAXLEN in Hmem. lia.
Qed.

Lemma conv_wstring_ok p k : wcslen (drop p mem) = Some k ->
  exists m, _evl_conv_wstring arch (drop p mem) = Some m /\ 4 * (k + 1) <= Z.of_nat (length m).
Proof.
  intros H. pose proof (wcslen_mem _ _ H) as Hk. pose proof (wcslen_bound _ _ _ H) as Hb.
  unfold _evl_conv_wstring. destruct (conv_type_ok arch Harch) as [c ->]. cbn [mbind option_bind].
  unfold wcslen in H. change (POSIX_LOG_ENTRY_MAXLEN / WCSZ) with 2048.
  rewrite (wcsnlen_wcslen (Z.to_nat 2048) _ _ _ H) by lia. cbn [mbind option_bind fmap option_fmap option_map].
  destruct (swaps c); [|eexists; split; [done|lia]]. unfold __conv_scalar_array.
  destruct (conv_elements_ok arch TY_WCHAR c WCSZ (Z.to_nat (Z.succ k)) (replicate 16 0) (drop p mem)) as [r Hr]; [done|unfold WCSZ; lia|].
  exists r. split; [done|]. apply length_conv_wchars in Hr; [lia|cbn; lia].
Qed.

(** Wide strings one after the other, from [p] to [q]. *)
Fixpoint wstrings_at (nel : nat) (p q : Z) : Prop :=
  match nel with
  | O => p = q
  | S nel => exists k, wcslen (drop (Z.to_nat p) mem) = Some k /\ wstrings_at nel (p + 4 * (k + 1)) q
  end.
Lemma wstrings_snoc nel : forall p q k, wstrings_at nel p q -> wcslen (drop (Z.to_nat q) mem) = Some k ->
  wstrings_at (S nel) p (q + 4 * (k + 1)).
Proof.
  induction nel as [|nel IH]; intros p q k H Hk; [cbn in H; subst; exists k; done|].
  destruct H as (j & Hj & H). exists j. split; [done|]. by apply IH.
Qed.
Lemma conv_wstrings_ok nel : forall p q, 0 <= p -> wstrings_at nel p q -> is_Some (conv_wstrings arch (drop (Z.to_nat p) mem) nel).
Proof.
  induction nel as [|nel IH]; intros p q Hp H; cbn [conv_wstrings]; [done|]. destruct H as (k & Hk & H).
  destruct (conv_wstring_ok _ _ Hk) as (m & -> & Hm). pose proof (wcslen_mem _ _ Hk) as Hr.
  cbn [mbind option_bind]. rewrite Hk. cbn [fmap option_fmap option_map mbind option_bind]. unfold WCSZ.
  destruct (_ <? _)%nat eqn:E; [apply Nat.ltb_lt in E; lia|]. rewrite drop_drop.
  replace (Z.to_nat p + Z.to_nat (Z.succ k * 4))%nat with (Z.to_nat (p + 4 * (k + 1))) by lia.
  destruct (IH (p + 4 * (k + 1)) q ltac:(lia) H) as [x ->]. done.
Qed.

Lemma collect_strings_moved nel : forall ns n, inside n ->
  exists ns' n', collect_strings collectString nel ns n = Done (ns', n') /\ moved n n'.
Proof.
  induction nel as [|nel IH]; intros ns n Hn; cbn [collect_strings]; [do 2 eexists; split; [done|by apply moved_refl]|].
  destruct (collectString_moved n Hn) as (str & n' & -> & Hm). cbn. destruct str; [|eauto].
  destruct (IH (ns + 1) n' (proj1 Hm)) as (ns' & n'' & -> & Hm'). do 2 eexists. split; [done|]. by eapply moved_trans.
Qed.
Lemma collect_wstrings_moved nel : forall ns n p, inside n -> 0 <= ns -> wstrings_at (Z.to_nat ns) p (pn_next n) ->
  exists ns' n', collect_strings (fun n => collectWstring n 4) nel ns n = Done (ns', n') /\ moved n n' /\
    wstrings_at (Z.to_nat ns') p (pn_next n') /\ 0 <= ns'.
Proof.
  induction nel as [|nel IH]; intros ns n p Hn Hns Hw; cbn [collect_strings]; [do 2 eexists; split; [done|]; by eauto using moved_refl|].
  destruct (collectWstring_moved n Hn) as (str & n' & Hc & Hm & Hs & Hnone). rewrite Hc. cbn [mbind outcome_bind]. destruct str as [off|].
  - destruct (Hs off eq_refl) as (-> & k & Hk & Hnext). unfold mem_from in Hk. rewrite (proj1 Hn) in Hk.
    destruct (IH (ns + 1) n' p (proj1 Hm)) as (ns' & n'' & -> & Hm' & Hw' & Hns'); [lia| |].
    { replace (Z.to_nat (ns + 1)) with (S (Z.to_nat ns)) by lia. rewrite Hnext. by apply wstrings_snoc. }
    do 2 eexists. split; [done|]. split; [by eapply moved_trans|done].
  - do 2 eexists. split; [done|]. split; [done|]. split; [|done]. by rewrite Hnone.
Qed.

(** *** Arrays *)

Definition nel_ok (size rem nel : Z) : Prop := nel = -1 \/ nel = rem \/ (size * nel < 2 ^ 31 /\ nel < 2 ^ 31 /\ 0 <= nel).
Lemma array_nel_ok t m a b d e rem : like t m -> like_att a b -> like_dim (Some d) (Some e) -> array_ok arch m b e = true ->
  0 <= rem <= POSIX_LOG_ENTRY_MAXLEN ->
  exists o, array_nel t d rem = Done o /\ forall nel, o = Some nel -> nel_ok (element_size arch (ta_type b)) rem nel.
Proof.
  intros Ht Hab [Htd Hdim] Ha Hrem. unfold POSIX_LOG_ENTRY_MAXLEN in Hrem.
  assert (Hsz : 0 <= element_size arch (ta_type b)).
  { unfold element_size. destruct (is_scalar (ta_type b)) eqn:E; [|lia]. destruct (scalar_info arch _ E Harch) as (? & _ & -> & ? & _). lia. }
  assert (Hof : forall x y, x = y \/ like_att x y -> dim_source_ok (element_size arch (ta_type b)) y = true ->
    exists o, (nel ← getDimensionFromAttribute x; Done (if nel <=? 0 then None else Some nel)) = Done o /\
      forall nel, o = Some nel -> nel_ok (element_size arch (ta_type b)) rem nel).
  { intros x y Hxy Hy. destruct (dimension_of_source _ _ _ Hxy Hy Hsz) as (k & -> & Hk & Hk'). cbn.
    eexists. split; [done|]. intros nel. destruct (k <=? 0) eqn:E; [done|]. intros [= <-]. bprop. right; right. lia. }
  unfold array_nel, array_ok in *. rewrite <-Htd in Ha. inversion Ht as [? ? Hs Hal Hm Hl]; subst.
  destruct (td_type d) as [| | | |i|name| |] eqn:Etd; try done.
  - eexists. split; [done|]. intros nel [= <-]. bprop. right; right. rewrite Hdim.
    lia.
  - eexists. split; [done|]. intros nel [= <-]. right; left. apply signed_id; [lia|]. unfold in_signed. lia.
  - unfold _evlTmplGetNthAttribute in *. destruct (tm_attributes m !! i) as [y|] eqn:Ey; [|done].
    destruct (Forall2_lookup_r _ _ _ _ _ Hl Ey) as (x & -> & Hxy). cbn. eauto.
  - destruct (_evlTmplFindAttribute t name) as [x|] eqn:Ex; [|by eexists].
    destruct (like_find _ _ _ _ _ Ht Ex) as (y & Ey & Hxy). unfold _evlTmplFindAttribute in Ha. rewrite Ey in Ha. eauto.
  - eexists. split; [done|]. intros nel [= <-]. bprop. left. lia.
Qed.

(** *** Structs, given that their templates are populated *)

Definition pmoved (p p' : pop) : Prop := moved (pp_notes p) (pp_notes p').
Variable populate : template -> pop -> outcome (template * pop).
Variable fuel : nat.
Hypothesis Hrec : forall t m p, (depth m <= fuel)%nat -> like t m -> pop_ok arch m = true -> tm_arch (tm_state t) = arch ->
  inside (pp_notes p) ->
  exists t' p', populate t p = Done (t', p') /\ like t' m /\ pmoved p p'.

Lemma like_set_arch t m a : like t m -> like (set_state t (set_tm_arch a (tm_state t))) m.
Proof. intros H. inversion H; subst. by constructor. Qed.

Lemma populate_structs_ok master nel : forall l p, pop_ok arch master = true -> (depth master <= fuel)%nat -> inside (pp_notes p) ->
  exists l' p', populate_structs populate arch master nel l p = Done (l', p') /\ pmoved p p'.
Proof.
  induction nel as [|nel IH]; intros l p Hm Hd Hp; cbn [populate_structs]; [do 2 eexists; split; [done|by apply moved_refl]|].
  destruct (clone_ok arch master (pp_store p) Hm) as (c & s & -> & Hc & _). cbn [mbind outcome_bind].
  edestruct (Hrec (set_state c (set_tm_arch arch (tm_state c))) master (mkPop (pp_notes p) s)) as (t' & p' & -> & Ht' & Hmv); try done.
  { by apply like_set_arch. }
  cbn [mbind outcome_bind]. destruct (_ =? 0); [by do 2 eexists|]. destruct (pn_out_of_data _); [by do 2 eexists|].
  destruct (IH (l ++ [t']) p' Hm Hd (proj1 Hmv)) as (l' & p'' & -> & Hmv'). do 2 eexists. split; [done|]. by eapply moved_trans.
Qed.

Definition struct_ok (b : tmpl_attribute) : Prop :=
  forall st, isConstAtt b = false -> ta_struct b = Some st -> pop_ok arch st = true /\ (depth st <= fuel)%nat.

Lemma array_value_like a v : isArray a = true -> (forall st, v <> VStruct st) -> value_like a v.
Proof. intros Ha Hv. split; [by rewrite Ha|]. intros st E. by destruct (Hv st). Qed.

Lemma populate_array_structs_ok a b d nel p : like_att a b -> isConstAtt a = false -> isArray a = true -> is_Some (ta_struct a) -> struct_ok b ->
  inside (pp_notes p) ->
  exists a' p', populateArrayOfStructs populate arch a d nel p = Done (a', p') /\ like_att a' b /\ pmoved p p'.
Proof.
  intros Hab Hc Harr [st Hst] Hsb Hp. unfold populateArrayOfStructs.
  assert (ta_struct b = Some st) as Hstb by (by inversion Hab; subst; congruence).
  assert (isConstAtt b = false) as Hcb by (inversion Hab; subst; congruence).
  destruct (Hsb st Hcb Hstb) as [Hok Hd].
  assert (exists l' p', (if 0 <? nel then master ← reading (ta_struct a); populate_structs populate arch master (Z.to_nat nel) [] p else Done ([], p))
    = Done (l', p') /\ pmoved p p') as (l' & p' & -> & Hmv).
  { destruct (0 <? nel); [|do 2 eexists; split; [done|by apply moved_refl]]. rewrite Hst. cbn. by apply populate_structs_ok. }
  cbn. destruct l'; do 2 eexists; (split; [done|]); (split; [|done]).
  - apply like_set_value; [done..|]. by apply array_value_like.
  - apply like_with_value; [done..|]. by apply array_value_like.
Qed.

Lemma scalar_array_bounds ty n nel : is_scalar ty = true -> inside n -> nel_ok (element_size arch ty) (bytes_remaining n) nel ->
  exists ti, type_info arch ty = Done ti /\
    let '(nel', n') := if bytes_remaining n <? u64 (s32 (at_size ti * nel)) then (s32 (bytes_remaining n / at_size ti), no_more_data n) else (nel, n) in
    inside n' /\ pn_next n' = pn_next n /\ s32 (at_size ti * nel') = at_size ti * nel' /\ at_size ti * nel' <= bytes_remaining n /\ 0 < at_size ti /\ nel' < 2 ^ 31.
Proof.
  intros Hs Hn Hnel. destruct (scalar_info arch ty Hs Harch) as (ti & Hti & Hsrc & Hsz & _).
  exists ti. unfold type_info. rewrite Hti. split; [done|]. unfold element_size in Hnel. rewrite Hs, Hsrc in Hnel.
  pose proof (inside_remaining n Hn) as Hrem. pose proof Hn as [Hm Hnn].
  set (rem := bytes_remaining n) in *. assert (0 <= rem <= 8192) as Hr by (unfold POSIX_LOG_ENTRY_MAXLEN in Hmem; lia).
  assert (Hdiv : 0 <= rem / at_size ti <= 8192 /\ at_size ti * (rem / at_size ti) <= rem).
  { split; [split; [apply Z.div_pos; lia|]|apply Z.mul_div_le; lia]. apply Z.div_le_upper_bound; nia. }
  assert (Hid : forall z, - 2 ^ 31 <= z < 2 ^ 31 -> s32 z = z) by (intros z Hz; apply signed_id; [lia|]; unfold in_signed; lia).
  rewrite (Hid (rem / at_size ti)) by lia. generalize dependent (rem / at_size ti). intros q [Hq Hq'].
  assert (Hq31 : s32 (at_size ti * q) = at_size ti * q) by (apply Hid; nia).
  assert (Hcut : inside (no_more_data n) /\ pn_next (no_more_data n) = pn_next n /\ s32 (at_size ti * q) = at_size ti * q /\
    at_size ti * q <= rem /\ 0 < at_size ti /\ q < 2 ^ 31) by (split; [exact Hn|]; split; [done|]; split; [done|]; lia).
  destruct Hnel as [-> | [-> | (H1 & H2 & H3)]].
  - rewrite (Hid (at_size ti * -1)) by lia.
    assert (u64 (at_size ti * -1) = 2 ^ 64 - at_size ti) as ->.
    { unfold unsigned. symmetry. apply (Z.mod_unique _ _ (-1)); lia. }
    rewrite (proj2 (Z.ltb_lt _ _)) by lia. done.
  - rewrite (Hid (at_size ti * rem)) by nia. rewrite unsigned_id by (unfold in_unsigned; nia).
    destruct (rem <? _) eqn:E; [done|]. bprop. split; [exact Hn|]. split; [done|]. split; [apply Hid; nia|]. lia.
  - rewrite (Hid (at_size ti * nel)) by nia. rewrite unsigned_id by (unfold in_unsigned; nia).
    destruct (rem <? _) eqn:E; [done|]. bprop. split; [exact Hn|]. split; [done|]. split; [apply Hid; nia|]. lia.
Qed.

Lemma array_scalars_ok t a b d n s nel : isArray a = true -> like_att a b -> isConstAtt a = false -> is_scalar (ta_type a) = true ->
  tm_arch (tm_state t) = arch -> inside n -> nel_ok (element_size arch (ta_type a)) (bytes_remaining n) nel ->
  exists a' p', (ti ← type_info arch (ta_type a);
    let size := at_size ti in
    let '(nel, n) := if bytes_remaining n <? u64 (s32 (size * nel)) then (s32 (bytes_remaining n / size), no_more_data n) else (nel, n) in
    let s := set_dimension2 s d nel in
    if 0 <? nel then
      mem ← reading (_evl_conv_scalar_array arch (ta_type a) (mem_from n (pn_next n)) nel size);
      Done (with_value a (VArray (supported_arch arch) mem), mkPop (set_next n (pn_next n + s32 (size * nel))) s)
    else Done (a, mkPop n s)) = Done (a', p') /\ like_att a' b /\ moved n (pp_notes p').
Proof.
  intros Harr Hab Hc Hs Ht Hn Hnel. destruct (scalar_array_bounds _ _ _ Hs Hn Hnel) as (ti & -> & H). cbn [mbind outcome_bind].
  destruct (if bytes_remaining n <? _ then _ else _) as [nel' n'] in H |- *. destruct H as (Hn' & Hnext & Hmul & Hle & Hsz & _).
  rewrite inside_remaining in Hle by done.
  destruct (0 <? nel') eqn:E; bprop.
  - destruct (conv_scalar_array_ok arch (ta_type a) (mem_from n' (pn_next n')) nel' (at_size ti)) as [x ->]; [lia|lia| |].
    { pose proof Hn' as [? ?]. rewrite length_mem_from by done. lia. }
    cbn. do 2 eexists. split; [done|]. split; [apply like_with_value; [done..|]; by apply array_value_like|].
    cbn. rewrite Hmul. split; [|cbn; nia]. destruct Hn' as [? ?]. split; [done|]. cbn. nia.
  - do 2 eexists. split; [done|]. split; [done|]. cbn. split; [done|lia].
Qed.

Lemma populate_array_ok t m a b d e p : like t m -> like_att a b -> isConstAtt a = false -> isArray a = true ->
  like_dim (Some d) (Some e) -> array_ok arch m b e = true -> struct_ok b -> (ta_type a = TY_STRUCT -> is_Some (ta_struct a)) ->
  (ta_type a = TY_STRUCT \/ ta_type a = TY_STRING \/ ta_type a = TY_WSTRING \/ is_scalar (ta_type a) = true) ->
  tm_arch (tm_state t) = arch -> inside (pp_notes p) ->
  exists a' p', populate_array populate t a d p = Done (a', p') /\ like_att a' b /\ pmoved p p'.
Proof.
  intros Ht Hab Hc Harr Hde Ha Hsb Hst Hty Har Hp.
  pose proof (inside_remaining _ Hp) as Hrem. pose proof Hp as [Hm Hnn].
  destruct (array_nel_ok t m a b d e (bytes_remaining (pp_notes p)) Ht Hab Hde Ha) as (o & Ho & Hnel); [lia|].
  unfold populate_array. rewrite Ho, Har. cbn [mbind outcome_bind].
  rewrite <-(like_type _ _ Hab) in Hnel.
  destruct o as [nel|]; [|do 2 eexists; split; [done|]; split; [done|by apply moved_refl]]. specialize (Hnel nel eq_refl).
  destruct Hty as [Hty|[Hty|[Hty|Hty]]]; [rewrite Hty..|].
  - destruct (populate_array_structs_ok a b d nel (mkPop (pp_notes p) (populateDelimiter t a (pp_store p)))) as (a' & p' & H & ? & ?); auto.
    exists a', p'. by rewrite H.
  - destruct (collect_strings_moved (Z.to_nat nel) 0 (pp_notes p) Hp) as (ns & n' & -> & Hmv). cbn.
    do 2 eexists. split; [done|]. split; [|done]. destruct (0 <? ns); [|done].
    apply like_with_value; [done..|]. by apply array_value_like.
  - change (type_info arch TY_WCHAR) with (reading (arch_type_info arch TY_WCHAR)).
    destruct (scalar_info arch TY_WCHAR eq_refl Harch) as (ti & Hti & Hsrc & _). unfold type_info. rewrite Hti. cbn [reading mbind outcome_bind].
    rewrite wchar_size in Hsrc by done. rewrite <-Hsrc.
    destruct (collect_wstrings_moved (Z.to_nat nel) 0 (pp_notes p) (pn_next (pp_notes p)) Hp) as (ns & n' & -> & Hmv & Hw & Hns); [done|done|].
    cbn [mbind outcome_bind]. destruct (0 <? ns).
    + assert (is_Some (_evl_conv_wstring_array arch (mem_from (pp_notes p) (pn_next (pp_notes p))) ns)) as [x ->].
      { unfold _evl_conv_wstring_array, mem_from. rewrite Hm. destruct (conv_type_ok arch Harch) as [c ->]. cbn.
        destruct (swaps c); [|done]. eapply conv_wstrings_ok; [|exact Hw]. lia. }
      destruct (conv_type_ok arch Harch) as [c ->]. cbn. do 2 eexists. split; [done|]. split; [|done].
      apply like_with_value; [done..|]. by apply array_value_like.
    + do 2 eexists. split; [done|]. done.
  - pose proof (array_scalars_ok t a b d (pp_notes p) (populateDelimiter t a (pp_store p)) nel Harr Hab Hc Hty Har Hp Hnel) as H.
    destruct (ta_type a); try discriminate Hty; exact H.
Qed.

Lemma populate_struct_ok t a b p : like_att a b -> isConstAtt a = false -> ta_type a = TY_STRUCT -> is_Some (ta_struct a) -> struct_ok b ->
  tm_arch (tm_state t) = arch -> inside (pp_notes p) ->
  exists a' p', populate_struct populate t a p = Done (a', p') /\ like_att a' b /\ pmoved p p'.
Proof.
  intros Hab Hc Hty [st Hst] Hsb Har Hp. unfold populate_struct.
  assert (ta_struct b = Some st) as Hstb by (by inversion Hab; subst; congruence).
  assert (isConstAtt b = false) as Hcb by (inversion Hab; subst; congruence).
  destruct (Hsb st Hcb Hstb) as [Hok Hd].
  assert (exists c s, (match ta_value a with
              | VStruct st => Done (st, pp_store p)
              | _ => master ← reading (ta_struct a); _evlCloneTemplate master (pp_store p)
              end) = Done (c, s) /\ like c st) as (c & s & -> & Hcl).
  { destruct (clone_ok arch st (pp_store p) Hok) as (c & s & Hclone & Hlike & _).
    rewrite Hst. cbn [reading mbind outcome_bind].
    destruct (ta_value a) eqn:Ev; eauto. do 2 eexists. split; [done|].
    inversion Hab as [|? ? H1 H2 Hx H3 H4 H5 H6 H7 H8 H9]; subst; [congruence|]. destruct (H9 _ Ev) as (m' & Hm' & Hl). congruence. }
  cbn [mbind outcome_bind]. rewrite Har.
  edestruct (Hrec (set_state c (set_tm_arch arch (tm_state c))) st (mkPop (pp_notes p) s)) as (t' & p' & -> & Ht' & Hmv); try done.
  { by apply like_set_arch. }
  cbn [mbind outcome_bind]. do 2 eexists. split; [done|]. split; [|exact Hmv].
  assert (value_like a (VStruct t')) as Hv.
  { split; [by rewrite Hty|]. intros ? [= <-]. eauto. }
  destruct (0 <? _); [by apply like_with_value|by apply like_set_value].
Qed.

(** *** An attribute *)

Definition bf_ok (aligned : bool) (n : tmpl_popl_notes) (bf : bf_state) : Prop :=
  aligned = true -> bfStart bf <= pn_next n /\ bfOffset bf = CHAR_BIT * (pn_next n - bfStart bf).
Lemma bf_adjust n bf : bf_ok true n bf -> adjustNextPerBitFields n (bfStart bf) (bfOffset bf) = set_next n (pn_next n).
Proof.
  intros H. destruct (H eq_refl) as [Hs Ho]. unfold adjustNextPerBitFields, bitsToBytes. rewrite Ho. unfold CHAR_BIT. f_equal. dlia.
Qed.
Lemma bf_fresh aligned n : bf_ok aligned n (mkBf (pn_next n) 0).
Proof. intros _. cbn. unfold CHAR_BIT. lia. Qed.

(** The outcome of an attribute: it goes on in the record, and is still like the master's. *)
Definition step_ok (aligned : bool) (n : tmpl_popl_notes) (b : tmpl_attribute) (o : outcome (bool * tmpl_attribute * pop_loop)) : Prop :=
  exists go a' l', o = Done (go, a', l') /\ like_att a' b /\ moved n (pp_notes (pl_pop l')) /\
    bf_ok aligned (pp_notes (pl_pop l')) (pl_bf l').
Lemma next_attr_ok aligned n a b p bf : like_att a b -> moved n (pp_notes p) -> bfStart bf = pn_next n ->
  step_ok aligned n b (Done (next_attr aligned a p bf)).
Proof.
  intros Ha Hm Hb. do 3 eexists. split; [done|]. split; [done|]. split; [done|]. cbn. intros ->. cbn. rewrite Hb. destruct Hm. lia.
Qed.
Lemma stop_ok aligned n a b p bf : like_att a b -> moved n (pp_notes p) -> (aligned = true -> pn_next (pp_notes p) = pn_next n) ->
  bf = mkBf (pn_next n) 0 -> step_ok aligned n b (Done (stop a p bf)).
Proof.
  intros Ha Hm Hn ->. do 3 eexists. split; [done|]. split; [done|]. split; [done|]. cbn. intros E. cbn. rewrite Hn by done.
  unfold CHAR_BIT. lia.
Qed.

Lemma populateScalar_ok a n ti : is_scalar (ta_type a) = true -> arch_type_info arch (ta_type a) = Some ti -> inside n ->
  at_size ti <= bytes_remaining n -> exists v n', populateScalar a (at_size ti) n arch = Done (v, n') /\ moved n n' /\
    (isInteger (ta_type a) = true -> match v with VInt z => in_type (ta_type a) z | _ => false end = true) /\ (forall st, v = VStruct st -> ta_value a = VStruct st).
Proof.
  intros Hs Hti Hn Hle. destruct (scalar_info arch _ Hs Harch) as (ti' & Hti' & _ & Hsz & _). rewrite Hti in Hti'. injection Hti' as <-.
  rewrite inside_remaining in Hle by done. pose proof Hn as [Hm Hnn]. unfold populateScalar. rewrite Hm.
  destruct (read_mem_ok mem (pn_next n) (at_size ti)) as (bs & -> & Hbs); [lia..|]. cbn. do 2 eexists. split; [done|].
  split; [apply moved_set_next; [done|lia]|].
  unfold load_value. destruct (isInteger (ta_type a)) eqn:Ei.
  - cbn. split; [intros _; by apply load_int_in_type|done].
  - split; [done|]. intros st. destruct (ta_type a); done.
Qed.

Lemma type_cases t m a b : like t m -> like_att a b -> att_ok arch m b = true ->
  (ta_type a = TY_STRUCT /\ is_Some (ta_struct b)) \/
  (ta_type a = TY_STRING /\ isAlignedTmpl t = false) \/ (ta_type a = TY_WSTRING /\ isAlignedTmpl t = false) \/
  is_scalar (ta_type a) = true.
Proof.
  intros Ht Hab Ha. unfold att_ok in Ha. bprop. inversion Ht as [? ? Hs Hal Hm Hl]; subst. rewrite Hal, (like_type _ _ Hab).
  destruct (ta_type b); try done; auto 10; bprop; auto 10.
  left. split; [done|]. by destruct (ta_struct b).
Qed.

Lemma populate_value_ok t m a b p : like t m -> like_att a b -> isConstAtt a = false -> isConstAtt b = false -> att_ok arch m b = true ->
  struct_ok b -> tm_arch (tm_state t) = arch -> inside (pp_notes p) ->
  step_ok (isAlignedTmpl t) (pp_notes p) b (populate_value populate t (isAlignedTmpl t) a p (mkBf (pn_next (pp_notes p)) 0)).
Proof.
  intros Ht Hab Hca Hcb Hok Hsb Har Hp. pose proof (type_cases _ _ _ _ Ht Hab Hok) as Hty.
  assert (Hst : is_Some (ta_struct b) -> is_Some (ta_struct a)) by (inversion Hab; subst; congruence).
  assert (Hb : isBitField a = false).
  { unfold att_ok in Hok. bprop. inversion Hab; subst; [congruence|]. congruence. }
  unfold populate_value. destruct (ta_dimension a) as [d|] eqn:Ed.
  - assert (Harr : isArray a = true) by (unfold isArray; by rewrite Ed, Hb). rewrite Harr.
    assert (exists e, like_dim (Some d) (Some e) /\ array_ok arch m b e = true) as (e & Hde & Hae).
    { unfold att_ok in Hok. bprop. assert (like_dim (Some d) (ta_dimension b)) as Hd.
      { rewrite <-Ed. inversion Hab; subst; [congruence|done]. }
      destruct (ta_dimension b) as [e|]; [|done]. eauto. }
    destruct (populate_array_ok t m a b d e p) as (a' & p' & -> & Ha' & Hmv); try done.
    { intros E. apply Hst. destruct Hty as [[_ ?]|[[? _]|[[? _]|?]]]; [done|congruence|congruence|]. by rewrite E in *. }
    { destruct Hty as [[? _]|[[? _]|[[? _]|?]]]; auto. }
    cbn [mbind outcome_bind]. by apply next_attr_ok.
  - replace (isArray a) with false by (unfold isArray; by rewrite Ed). rewrite Har.
    destruct Hty as [[E Hs]|[[E Hal]|[[E Hal]|Hs]]]; [rewrite E..|].
    + destruct (populate_struct_ok t a b p) as (a' & p' & -> & Ha' & Hmv); auto. cbn [mbind outcome_bind]. by apply next_attr_ok.
    + destruct (collectString_moved (pp_notes p) Hp) as (str & n' & -> & Hmv). cbn [mbind outcome_bind].
      destruct str; [apply next_attr_ok|apply stop_ok]; try done; [|by rewrite Hal].
      apply like_with_value; [done..|]. split; [by rewrite E|done].
    + destruct (scalar_info arch TY_WCHAR eq_refl Harch) as (ti & Hti & Hsrc & _). unfold type_info. rewrite Hti. cbn [reading mbind outcome_bind].
      rewrite wchar_size in Hsrc by done. rewrite <-Hsrc.
      destruct (collectWstring_moved (pp_notes p) Hp) as (str & n' & Hc & Hmv & Hs & _). rewrite Hc. cbn [mbind outcome_bind].
      destruct str as [off|]; [|apply stop_ok; try done; by rewrite Hal].
      destruct (Hs off eq_refl) as (-> & k & Hk & _). unfold mem_from in *. pose proof Hmv as [[Hm' _] _]. rewrite Hm'. rewrite (proj1 Hp) in Hk.
      destruct (conv_wstring_ok _ _ Hk) as (x & -> & _). cbn [reading mbind outcome_bind]. apply next_attr_ok; try done.
      apply like_with_value; [by apply like_set_rawdata|done|]. split; [cbn; by rewrite E|done].
    + destruct (scalar_info arch _ Hs Harch) as (ti & Hti & _).
      assert (step_ok (isAlignedTmpl t) (pp_notes p) b
        (ti ← type_info arch (ta_type a);
          if bytes_remaining (pp_notes p) <? at_size ti then Done (stop a (mkPop (no_more_data (pp_notes p)) (pp_store p)) (mkBf (pn_next (pp_notes p)) 0))
          else '(v, n) ← populateScalar a (at_size ti) (pp_notes p) arch;
               Done (next_attr (isAlignedTmpl t) (with_value a v) (mkPop n (pp_store p)) (mkBf (pn_next (pp_notes p)) 0)))) as H.
      { unfold type_info. rewrite Hti. cbn [reading mbind outcome_bind]. destruct (_ <? _) eqn:E; bprop.
        - apply stop_ok; try done; by apply moved_no_more.
        - destruct (populateScalar_ok a (pp_notes p) ti Hs Hti Hp E) as (v & n' & -> & Hmv & Hv1 & Hv2). cbn [mbind outcome_bind].
          apply next_attr_ok; try done. apply like_with_value; [done..|]. split; [intros ? _; by apply Hv1|]. intros st Est. apply Hv2 in Est.
          inversion Hab as [|? ? H1 H2 Hx H3 H4 H5 H6 H7 H8 H9]; subst; [congruence|]. auto. }
      destruct (ta_type a); try discriminate Hs; exact H.
Qed.

Lemma compute_alignment_ok t m a b : like t m -> like_att a b -> att_ok arch m b = true -> isAlignedTmpl t = true ->
  exists al, computeAttAlignment a arch = Done al /\ 0 < al.
Proof.
  intros Ht Hab Hok Hal. pose proof (type_cases _ _ _ _ Ht Hab Hok) as Hty. unfold computeAttAlignment, isStruct.
  destruct Hty as [[E Hs]|[[E Hf]|[[E Hf]|Hs]]]; [|congruence..|].
  - rewrite E. cbn. assert (ta_struct a = ta_struct b) as -> by (by inversion Hab).
    assert (isAlignedTmpl m = true) as Hm by (inversion Ht; subst; congruence).
    unfold att_ok in Hok. bprop. rewrite <-(like_type _ _ Hab), E, Hm in *.
    destruct (ta_struct b) as [st|]; [|done]. cbn. eexists. split; [done|]. zb.
  - destruct (scalar_info arch _ Hs Harch) as (ti & Hti & _ & _ & Hpos). unfold type_info. rewrite Hti. cbn.
    case_bool_decide as E; [by rewrite E in Hs|]. eexists. split; [done|]. lia.
Qed.
Lemma align_ok n base al : inside n -> 0 < al -> exists n', alignNextPtr n base al = Done n' /\ moved n n'.
Proof.
  intros Hn Hal. unfold alignNextPtr, alignDataPtr. rewrite (proj2 (Z.eqb_neq al 0)) by lia. cbn. eexists. split; [done|].
  apply moved_clamp; [done|]. pose proof (Z.mod_pos_bound (pn_next n - base) al ltac:(lia)). destruct (negb _); lia.
Qed.

Definition pl_ok (aligned : bool) (l : pop_loop) : Prop := inside (pp_notes (pl_pop l)) /\ bf_ok aligned (pp_notes (pl_pop l)) (pl_bf l).

Lemma populate_att_ok t m a b l : like t m -> like_att a b -> member_ok arch m b -> struct_ok b -> tm_arch (tm_state t) = arch ->
  pl_ok (isAlignedTmpl t) l -> step_ok (isAlignedTmpl t) (pp_notes (pl_pop l)) b (populate_att populate t (isAlignedTmpl t) a l).
Proof.
  intros Ht Hab Hok Hsb Har [Hin Hbf]. unfold populate_att.
  destruct (isConstAtt a) eqn:Hc.
  { do 3 eexists. split; [done|]. split; [done|]. split; [by apply moved_refl|]. exact Hbf. }
  assert (isConstAtt b = false) as Hcb by (inversion Hab; subst; congruence).
  destruct Hok as [?|(_ & Hok & _)]; [congruence|].
  assert (isBitField a = false) as Hb.
  { unfold att_ok in Hok. bprop. inversion Hab; subst; congruence. }
  assert (forall p, isBitField (set_ta_rawdata a p) = false) as Hb' by done.
  rewrite Hb.
  assert (exists n', (if isAlignedTmpl t then align ← computeAttAlignment a (tm_arch (tm_state t));
      alignNextPtr (adjustNextPerBitFields (pp_notes (pl_pop l)) (bfStart (pl_bf l)) (bfOffset (pl_bf l))) (base_of t) align
      else Done (pp_notes (pl_pop l))) = Done n' /\ moved (pp_notes (pl_pop l)) n') as (n' & -> & Hmv).
  { destruct (isAlignedTmpl t) eqn:Hal; [|eexists; split; [done|by apply moved_refl]].
    rewrite Har, bf_adjust by done. destruct (compute_alignment_ok t m a b Ht Hab Hok Hal) as (al & -> & Hpos). cbn [mbind outcome_bind].
    destruct Hin as [Hm Hn]. apply (align_ok (set_next (pp_notes (pl_pop l)) (pn_next (pp_notes (pl_pop l))))); [|done]. by split. }
  cbn [mbind outcome_bind].
  destruct (bytes_remaining n' =? 0).
  { do 3 eexists. split; [done|]. split; [done|]. split; [exact Hmv|]. apply bf_fresh. }
  destruct (pn_out_of_data n').
  { do 3 eexists. split; [done|]. split; [done|]. split; [exact Hmv|]. apply bf_fresh. }
  rewrite Hb'. cbn [andb negb]. rewrite andb_true_r.
  destruct (populate_value_ok t m (set_ta_rawdata a (Some (mkPtr (pn_mem n') (pn_next n')))) b (mkPop n' (pp_store (pl_pop l))))
    as (go & a' & l' & Hval & Ha' & Hmv' & Hbf'); try done; [by apply like_set_rawdata|exact (proj1 Hmv)|].
  do 3 eexists. split; [exact Hval|]. split; [done|]. split; [|done]. by eapply moved_trans.
Qed.

Lemma like_set_attributes t m l : like t m -> Forall2 like_att l (tm_attributes m) -> like (set_attributes t l) m.
Proof. intros H Hl. inversion H; subst. by constructor. Qed.

Lemma populate_atts_ok t m : like t m -> tm_arch (tm_state t) = arch -> forall todo dn todo_m dn_m l,
  tm_attributes m = dn_m ++ todo_m -> Forall2 like_att dn dn_m -> Forall2 like_att todo todo_m ->
  Forall (member_ok arch m) todo_m -> Forall struct_ok todo_m -> pl_ok (isAlignedTmpl t) l ->
  exists l' atts, populate_atts populate t (isAlignedTmpl t) dn todo l = Done (atts, l') /\
    Forall2 like_att atts (tm_attributes m) /\ moved (pp_notes (pl_pop l)) (pp_notes (pl_pop l')) /\
    bf_ok (isAlignedTmpl t) (pp_notes (pl_pop l')) (pl_bf l').
Proof.
  intros Ht Har todo. induction todo as [|a todo IH]; intros dn todo_m dn_m l Hm Hdn Htodo Hok Hst Hl; cbn [populate_atts].
  - inversion Htodo; subst. do 2 eexists. split; [done|]. rewrite Hm, app_nil_r. split; [done|]. destruct Hl. split; [by apply moved_refl|done].
  - inversion Htodo as [|? b ? todo_m' Hab Htodo']; subst. inversion Hok; subst. inversion Hst; subst.
    assert (Hall : forall a', like_att a' b -> Forall2 like_att (dn ++ a' :: todo) (tm_attributes m)).
    { intros a' Ha'. rewrite Hm. apply Forall2_app; [done|]. by constructor. }
    destruct (populate_att_ok (set_attributes t (dn ++ a :: todo)) m a b l) as (go & a' & l' & Hstep & Ha' & Hmv & Hbf); try done.
    { apply like_set_attributes; [done|]. by apply Hall. }
    change (isAlignedTmpl (set_attributes t (dn ++ a :: todo))) with (isAlignedTmpl t) in *. rewrite Hstep. cbn [mbind outcome_bind].
    destruct go; [|do 2 eexists; split; [done|]; split; [by apply Hall|done]].
    destruct (IH (dn ++ [a']) todo_m' (dn_m ++ [b]) l') as (l'' & atts & -> & Hat & Hmv' & Hbf'); try done.
    { by rewrite <-app_assoc. } { apply Forall2_app; [done|]. by constructor. } { by split; [apply Hmv|]. }
    do 2 eexists. split; [done|]. split; [done|]. split; [by eapply moved_trans|done].
Qed.

Lemma populate_body_ok t m p : like t m -> pop_ok arch m = true -> Forall struct_ok (tm_attributes m) -> tm_arch (tm_state t) = arch ->
  inside (pp_notes p) ->
  exists t' p', populate_body populate t p = Done (t', p') /\ like t' m /\ pmoved p p' /\ isPopulatedTmpl t' = true.
Proof.
  intros Ht (Hmas & Hunp & Hal & Hok & _)%pop_ok_spec Hst Har Hp. unfold populate_body.
  set (t1 := set_state t _). assert (like t1 m) as Ht1 by (inversion Ht; subst; by constructor).
  change (tm_attributes t) with (tm_attributes t1). change (isAlignedTmpl t) with (isAlignedTmpl t1).
  assert (Hl1 : Forall2 like_att (tm_attributes t1) (tm_attributes m)) by (by inversion Ht1).
  destruct (populate_atts_ok t1 m Ht1 Har (tm_attributes t1) [] (tm_attributes m) [] (mkPL p (mkBf (pn_next (pp_notes p)) 0)))
    as (l & atts & -> & Hat & Hmv & Hbf); try done.
  { split; [done|]. apply bf_fresh. }
  cbn [mbind outcome_bind].
  assert (exists n', (if isAlignedTmpl t1 then
      n ← alignNextPtr (adjustNextPerBitFields (pp_notes (pl_pop l)) (bfStart (pl_bf l)) (bfOffset (pl_bf l))) (pn_next (pp_notes p)) (tm_alignment (tm_static t1));
      Done (enforceMinSize n (pn_next (pp_notes p)) (tm_minsize (tm_static t1))) else Done (pp_notes (pl_pop l))) = Done n' /\ moved (pp_notes p) n')
    as (n' & -> & Hmv').
  { destruct (isAlignedTmpl t1) eqn:Ea; [|eauto]. rewrite bf_adjust by done.
    assert (0 < tm_alignment (tm_static t1)) as Hpos by (inversion Ht1 as [? ? Hs Ha' ? ?]; subst; rewrite Hs; apply Hal; congruence).
    destruct (align_ok (set_next (pp_notes (pl_pop l)) (pn_next (pp_notes (pl_pop l)))) (pn_next (pp_notes p)) _ (proj1 Hmv) Hpos) as (n1 & -> & Hn1).
    cbn [mbind outcome_bind]. eexists. split; [done|]. unfold enforceMinSize.
    assert (moved (pp_notes p) n1) as H1 by (eapply moved_trans; [exact Hmv|exact Hn1]).
    destruct (_ <? _) eqn:E; [|done]. bprop. eapply moved_trans; [exact H1|]. apply moved_clamp; [exact (proj1 H1)|].
    clear -E. lia. }
  cbn [mbind outcome_bind]. do 2 eexists. split; [done|]. split; [|split; [exact Hmv'|]].
  - inversion Ht1 as [? ? Hs Ha' ? ?]; subst. constructor; try done.
    unfold isAlignedTmpl in *. cbn. rewrite has_set. by rewrite orb_false_r.
  - unfold isPopulatedTmpl. cbn. rewrite has_set. apply orb_true_r.
Qed.
End Record.

(** ** Whole templates *)

Lemma depth_member m a st : a ∈ tm_attributes m -> isConstAtt a = false -> ta_struct a = Some st -> (depth st < depth m)%nat.
Proof.
  destruct m as [sta s atts imps]. cbn [tm_attributes depth]. intros Ha Hc Hst. apply Nat.lt_succ_r.
  induction atts as [|x atts IH]; [by apply not_elem_of_nil in Ha|]. cbn [max_list_with].
  apply elem_of_cons in Ha as [<-|Ha]; [|specialize (IH Ha); lia].
  destruct a. unfold isConstAtt in Hc. cbn in *. subst. rewrite Hc. lia.
Qed.

Lemma populateTmpl_ok mem arch fuel : Z.of_nat (length mem) <= POSIX_LOG_ENTRY_MAXLEN -> 0 <= arch <= 9 -> forall t m p,
  (depth m <= fuel)%nat -> like t m -> pop_ok arch m = true -> tm_arch (tm_state t) = arch -> inside mem (pp_notes p) ->
  exists t' p', populateTmpl fuel t p = Done (t', p') /\ like t' m /\ pmoved mem p p' /\ isPopulatedTmpl t' = true.
Proof.
  intros Hmem Harch. induction fuel as [|fuel IH]; intros t m p Hd Ht Hm Har Hp; cbn [populateTmpl].
  { destruct m. cbn in Hd. lia. }
  apply (populate_body_ok mem Hmem arch Harch _ fuel); try done.
  - intros t1 m1 p1 Hd1 Ht1 Hm1 Har1 Hp1. destruct (IH t1 m1 p1) as (t' & p' & ? & ? & ? & _); eauto 10.
  - apply Forall_forall. intros a Ha st Hc Hst. destruct (pop_ok_spec _ _ Hm) as (_ & _ & _ & Hf & _).
    rewrite Forall_forall in Hf. destruct (Hf a Ha) as [?|(_ & _ & Hs)]; [congruence|]. split; [by apply Hs|].
    pose proof (depth_member _ _ _ Ha Hc Hst). lia.
Qed.

(** ** Emptying keeps the likeness *)

Definition depop_att (a : tmpl_attribute) : tmpl_attribute :=
  if isConstAtt a then a
  else
    let v := match ta_value a with
             | VStruct st => if isArray a then VNone else VStruct (depopulateTemplate st)
             | VList _ | VArray true _ => VNone
             | v => v
             end in
    set_ta_flags (set_ta_value (set_ta_rawdata a None) v) (clear_flag (ta_flags a) EVL_ATTR_EXISTS).
Definition depop_state (st : tmpl_state) : tmpl_state :=
  mkState (clear_flag (tm_flags st) TMPL_TF_POPULATED) (tm_arch st) (tm_data_size st) (tm_entry st) (tm_data st) (-1) (tm_clone st).
Lemma depopulate_eq t : depopulateTemplate t =
  if isPopulatedTmpl t then set_state (set_attributes t (zapExtraDataAtt (map depop_att (tm_attributes t)))) (depop_state (tm_state t)) else t.
Proof.
  destruct t as [sta st atts imps]. unfold isPopulatedTmpl. cbn. destruct (has (tm_flags st) TMPL_TF_POPULATED); [|done].
  unfold set_state, set_attributes, depop_state. cbn. f_equal. f_equal. apply map_ext. intros [name ty str dim fmt sh de raw v flags idx].
  unfold depop_att, isConstAtt. cbn. destruct (has flags EVL_ATTR_CONST); [done|]. destruct v as [| | | | |[] mem|st0|]; reflexivity.
Qed.

Lemma const_depop a : isConstAtt (depop_att a) = isConstAtt a.
Proof.
  unfold depop_att. destruct (isConstAtt a) eqn:E; [done|]. rewrite <-E. unfold isConstAtt. cbn. by apply has_clear.
Qed.
Lemma name_depop a : ta_name (depop_att a) = ta_name a.
Proof. unfold depop_att. by destruct (isConstAtt a). Qed.

Lemma like_depop_att a b : like_att a b ->
  (forall st m, ta_value a = VStruct st -> ta_struct a = Some m -> isConstAtt a = false -> like st m -> like (depopulateTemplate st) m) ->
  like_att (depop_att a) b.
Proof.
  intros H Hrec. inversion H as [? Hc|? ? H1 H2 Hx H3 H4 H5 H6 H7 H8 H9]; subst; unfold depop_att.
  - rewrite Hc. by apply like_const.
  - rewrite H1. apply like_var; try done; cbn.
    + unfold isConstAtt. cbn. by rewrite has_clear.
    + unfold isBitField in *. cbn. by rewrite has_clear.
    + unfold attExists. cbn. by rewrite has_cleared.
    + intros st Hst. destruct (ta_value a) as [| | | | |own ?|st0|] eqn:Ev; try done; [by destruct own|].
      destruct (isArray a); [done|]. injection Hst as <-. destruct (H9 st0 eq_refl) as (m & Hm & Hl). eauto.
Qed.

Lemma zap_none l k : Forall2 like_att l k -> Forall (fun a => is_extra a = false) k -> zapExtraDataAtt l = l.
Proof.
  intros H Hk. unfold zapExtraDataAtt. destruct (last l) as [a|] eqn:E; [|done].
  assert (is_extra a = false) as ->; [|done]. apply last_Some in E as [l' ->].
  apply Forall2_app_inv_l in H as (k1 & k2 & _ & H2 & ->). inversion H2 as [|? b ? ? Hab]; subst.
  apply Forall_app in Hk as [_ Hk]. inversion Hk; subst. unfold is_extra in *. by rewrite (like_name _ _ Hab).
Qed.

Lemma like_depop arch t : forall m, like t m -> pop_ok arch m = true -> like (depopulateTemplate t) m.
Proof.
  induction t as [sta st atts imps IH _] using template_tree_ind. intros m Ht Hm. rewrite depopulate_eq.
  destruct (isPopulatedTmpl _); [|done]. inversion Ht as [? ? Hs Hal Hmas Hl]; subst. cbn [tm_attributes tm_state] in *.
  destruct (pop_ok_spec _ _ Hm) as (_ & _ & _ & Hok & Hx).
  assert (Forall2 like_att (map depop_att atts) (tm_attributes m)) as Hd.
  { clear Ht Hs Hx Hm. induction Hl as [|a b l k Hab Hl IHl]; [constructor|]. inversion IH; subst. inversion Hok as [|? ? Hb]; subst.
    cbn [map]. constructor; [|by apply IHl]. apply like_depop_att; [done|]. intros s m' Hv Hst Hc Hlike.
    match goal with H : Forall _ (att_templates a) |- _ => rename H into Ha end.
    unfold att_templates in Ha. apply Forall_app in Ha as [_ Ha]. rewrite Hv in Ha. inversion Ha as [|? ? Hs']; subst.
    apply Hs'; [done|]. destruct Hb as [Hb|(_ & _ & Hb)].
    - inversion Hab; subst; congruence.
    - apply Hb. inversion Hab; subst; congruence. }
  rewrite (zap_none _ _ Hd Hx). constructor; try done. unfold isAlignedTmpl in *. cbn in *. by rewrite has_clear.
Qed.

Lemma like_depth t m : like t m -> depth t = depth m.
Proof.
  intros H. inversion H as [? ? Hs Hal Hmas Hl]; subst. destruct t as [s1 st1 l1 i1], m as [s2 st2 l2 i2]. cbn [tm_attributes depth] in *.
  f_equal. clear -Hl. induction Hl as [|a b l k Hab Hl IH]; [done|]. cbn [max_list_with]. rewrite IH. f_equal.
  inversion Hab as [|? ? H1 H2 Hx H3 H4 H5 H6 H7 H8 H9]; subst; [done|]. unfold isConstAtt in *. destruct a, b. cbn in *. subst.
  by rewrite H1, H2.
Qed.

(** ** The life of a clone *)

(** A record that the attributes of the master can be read from. *)
Definition arch_of (e : posix_log_entry) : Z := Z.land (log_magic e) 0xffff.
Definition admissible (m : template) (e : posix_log_entry) (data : list Z) : Prop :=
  arch_of e <= 9 /\ pop_ok (arch_of e) m = true /\ 0 <= log_size e <= POSIX_LOG_ENTRY_MAXLEN /\ log_size e <= Z.of_nat (length data).
Inductive lifetime (m : template) : template -> Prop :=
  | life_clone s t s' : evl_clonetemplate m s = Done (inr (t, s')) -> lifetime m t
  | life_populate t e data s t' s' :
      lifetime m t -> admissible m e data -> evl_populatetemplate t e (Some data) s = Done (inr (t', s')) -> lifetime m t'
  | life_depopulate t : lifetime m t -> lifetime m (evl_depopulatetemplate t).

(** A clone is like its master, except for the attribute that holds what was left over. *)
Definition clone_of (m t : template) : Prop :=
  isMasterTmpl t = false /\
  (like t m \/ (isPopulatedTmpl t = true /\ exists l x, tm_attributes t = l ++ [x] /\ is_extra x = true /\ isConstAtt x = false /\ like (set_attributes t l) m)).

Lemma clone_of_depop arch m t : pop_ok arch m = true -> clone_of m t ->
  isMasterTmpl (depopulateTemplate t) = false /\ like (depopulateTemplate t) m.
Proof.
  intros Hm [Hc Hl]. split.
  { rewrite depopulate_eq. by destruct (isPopulatedTmpl t). }
  destruct Hl as [Hl|(Hp & l & x & Ht & Hx & Hcx & Hl)]; [by eapply like_depop|].
  pose proof (like_depop arch _ _ Hl Hm) as H. rewrite depopulate_eq in H |- *.
  change (isPopulatedTmpl (set_attributes t l)) with (isPopulatedTmpl t) in H. rewrite Hp in *. cbn [set_attributes tm_attributes tm_state] in H.
  rewrite Ht, map_app. cbn [map].
  destruct (pop_ok_spec _ _ Hm) as (_ & _ & _ & _ & Hnx).
  assert (zapExtraDataAtt (map depop_att l) = map depop_att l) as Hz.
  { unfold zapExtraDataAtt. destruct (last (map depop_att l)) as [a|] eqn:E; [|done]. apply last_Some in E as [l' E].
    assert (is_extra a = false) as ->; [|done]. destruct l as [|y l] using rev_ind; [by destruct l'|]. rewrite map_app in E. apply app_inj_2 in E as [_ [= <-]]; [|done].
    inversion Hl as [? ? _ _ _ Hf]; subst. cbn [set_attributes tm_attributes] in Hf. apply Forall2_app_inv_l in Hf as (k1 & k2 & _ & H2 & Hk).
    inversion H2 as [|? b ? ? Hab]; subst. rewrite Hk in Hnx. apply Forall_app in Hnx as [_ Hnx]. inversion Hnx; subst.
    unfold is_extra in *. rewrite name_depop. by rewrite (like_name _ _ Hab). }
  assert (zapExtraDataAtt (map depop_att l ++ [depop_att x]) = map depop_att l) as ->.
  { unfold zapExtraDataAtt. rewrite last_snoc. unfold is_extra in *. rewrite name_depop, Hx. apply removelast_last. }
  rewrite Hz in H. exact H.
Qed.

Lemma arch_of_range e : 0 <= arch_of e.
Proof. unfold arch_of. apply Z.land_nonneg. lia. Qed.

(** All bytes of the record are in an attribute, if only in the one for the rest. *)
Lemma populateTemplate_ok m t e data s : clone_of m t -> admissible m e data -> tm_arch (tm_state t) = arch_of e ->
  exists t' s', populateTemplate t (Some (take (Z.to_nat (log_size e)) data)) s = Done (t', s', log_size e) /\
    clone_of m t' /\ isPopulatedTmpl t' = true.
Proof.
  intros Ht (Ha9 & Hm & Hsz & Hlen) Har. destruct (clone_of_depop _ _ _ Hm Ht) as [Hc Hl].
  assert (tm_arch (tm_state (depopulateTemplate t)) = arch_of e) as Har'.
  { rewrite depopulate_eq. by destruct (isPopulatedTmpl t). }
  unfold populateTemplate. set (t0 := depopulateTemplate t) in *. clearbody t0.
  set (rec := take _ data). assert (Z.of_nat (length rec) = log_size e) as Hrec by (unfold rec; rewrite length_take; lia).
  destruct rec as [|b0 rec'] eqn:Er.
  - cbn in Hrec. rewrite <-Hrec. do 2 eexists. split; [done|]. split; [split; [done|left; inversion Hl; subst; constructor; try done]|].
    + unfold isAlignedTmpl in *. cbn. rewrite has_set. by rewrite orb_false_r.
    + unfold isPopulatedTmpl. cbn. rewrite has_set. apply orb_true_r.
  - rewrite <-Er in *. clear b0 rec' Er. clearbody rec.
    destruct (populateTmpl_ok rec (arch_of e) (depth t0)) with (t := t0) (m := m) (p := mkPop (mkNotes rec 0 false) s)
      as (t' & p' & Hp & Hl' & Hmv & Hpop); try done; [lia|split; [apply arch_of_range|done]|by rewrite (like_depth _ _ Hl)|split; [done|cbn; lia]|].
    assert (isMasterTmpl t' = false) as Hc'.
    { destruct (depth t0); [done|]. cbn [populateTmpl] in Hp. unfold populate_body in Hp.
      apply bind_done in Hp as ([atts l] & _ & Hp). apply bind_done in Hp as (n1 & _ & Hp). injection Hp as <- _. done. }
    rewrite Hp. cbn [mbind outcome_bind]. destruct Hmv as [[Hmem Hn] _]. unfold pn_end. rewrite Hmem.
    destruct (pn_next (pp_notes p') <? Z.of_nat (length rec)) eqn:E; bprop.
    + unfold createExtraDataAtt. destruct (alloc_dimension _ _ _ _) as [d s'] eqn:Ed. do 2 eexists.
      split; [cbn; unfold pn_end; rewrite Hmem, Hrec; done|]. split; [|done]. split; [done|]. right. split; [done|]. do 2 eexists.
      split; [done|]. split; [by apply bool_decide_eq_true|]. split; [done|]. inversion Hl'; subst. by constructor.
    + do 2 eexists. split; [do 2 f_equal; lia|]. split; [|done]. split; [done|by left].
Qed.

Lemma clone_of_state m t st : clone_of m t -> tm_flags st = tm_flags (tm_state t) -> tm_clone st = tm_clone (tm_state t) ->
  clone_of m (set_state t st).
Proof.
  intros [Hc Hl] Hf Hcl. unfold clone_of, isMasterTmpl, isPopulatedTmpl. cbn. rewrite Hf, Hcl. split; [done|].
  assert (Hset : forall t0, tm_flags (tm_state t0) = tm_flags (tm_state t) -> like t0 m -> like (set_state t0 st) m).
  { intros t0 E H. inversion H; subst. constructor; try done. unfold isAlignedTmpl in *. cbn. congruence. }
  destruct Hl as [Hl|(Hp & l & x & Ht & Hx & Hcx & Hl)]; [left; by apply Hset|]. right. split; [done|]. exists l, x.
  split_and!; try done. apply (Hset (set_attributes t l)); done.
Qed.

Lemma evl_populate_ok m t e data s : clone_of m t -> admissible m e data ->
  exists t' s', evl_populatetemplate t e (Some data) s = Done (inr (t', s')) /\ clone_of m t' /\ isPopulatedTmpl t' = true.
Proof.
  intros Ht Ha. unfold evl_populatetemplate. cbn [bool_decide option_eq_dec]. rewrite (proj1 Ht).
  case_bool_decide; [done|]. cbn [andb fmap option_fmap option_map].
  set (t1 := set_state t _). assert (clone_of m t1) as Ht1 by (by apply clone_of_state).
  destruct (populateTemplate_ok m t1 e data s Ht1 Ha eq_refl) as (t' & s' & -> & ?). cbn [mbind outcome_bind]. by do 2 eexists.
Qed.

Lemma lifetime_clone_of arch m t : pop_ok arch m = true -> lifetime m t -> clone_of m t.
Proof.
  intros Hm. induction 1 as [s t s' H|t e data s t' s' Ht IH Ha H|t Ht IH].
  - unfold evl_clonetemplate in H. destruct (pop_ok_spec _ _ Hm) as (Hmas & _). rewrite Hmas in H. cbn in H.
    destruct (clone_ok arch m s Hm) as (c & s1 & Hc & Hl & Hmc & _). rewrite Hc in H. injection H as <- <-. split; [done|by left].
  - destruct (evl_populate_ok m t e data s IH Ha) as (t1 & s1 & H1 & Hc & _). rewrite H in H1. by injection H1 as <- <-.
  - unfold evl_depopulatetemplate. destruct (clone_of_depop arch m t Hm IH). split; [done|by left].
Qed.

