(* ===== verification/TmplLayout.v ===== *)
(** * What population reads is what the layout holds

    [enc_tmpl arch m vs data] says that [data] is the memory of a record of the template [m]
    with the values [vs], as a program on the architecture [arch] lays it out: member after
    member, and in an aligned template with the padding of a C struct.  A clone that is
    populated from it holds the values ([holds_tmpl]). *)
From S2P Require Import Prelude NvPairs LogRecord QEvaluate RecPack Format Conv Tmpl TmplPop TmplSafe.

(** ** Layouts *)

Inductive cval := CInt (z : Z) | CStr (s : str) | CInts (l : list Z) | CStruct (vs : list cval).

(** A value of the type on both machines; a negative one only if the sizes agree. *)
Definition int_fits (arch : Z) (ty : base_type) (v : Z) : Prop :=
  let n := src_size arch ty in
  (if is_signed ty then in_signed (8 * n) v else in_unsigned (8 * n) v) /\ (0 <= v \/ n = local_size ty).
(** The dimension is the number of elements; a dimension attribute has come before. *)
Definition has_length (env : list (option cval)) (d : tmpl_dimension) (n : nat) : Prop :=
  match td_type d with
  | TMPL_DIM_CONST => td_dimension d = Z.of_nat n
  | TMPL_DIM_ATTR i => env !! i = Some (Some (CInt (Z.of_nat n)))
  | _ => False
  end.
Definition att_align (arch : Z) (a : tmpl_attribute) : Z :=
  match computeAttAlignment a arch with Done al => al | _ => 1 end.
Definition padding (aligned : bool) (off al : Z) : Z := if aligned then (- off) mod al else 0.

Section Enc.
Variable arch : Z.
Inductive enc_value : list (option cval) -> tmpl_attribute -> cval -> list Z -> Prop :=
  | enc_int env a v :
      ta_dimension a = None -> isInteger (ta_type a) = true -> int_fits arch (ta_type a) v ->
      enc_value env a (CInt v) (arch_encode arch (Z.to_nat (src_size arch (ta_type a))) v)
  | enc_str env a s :
      ta_dimension a = None -> ta_type a = TY_STRING -> no_nul s = true -> enc_value env a (CStr s) (bytes_of s ++ [0])
  | enc_ints env a d l :
      ta_dimension a = Some d -> isInteger (ta_type a) = true -> Forall (int_fits arch (ta_type a)) l ->
      has_length env d (length l) -> l <> [] ->
      enc_value env a (CInts l) (concat (map (arch_encode arch (Z.to_nat (src_size arch (ta_type a)))) l))
  | enc_struct env a m vs bs :
      ta_dimension a = None -> ta_type a = TY_STRUCT -> ta_struct a = Some m -> enc_tmpl m vs bs -> bs <> [] ->
      enc_value env a (CStruct vs) bs
with enc_atts : bool -> list (option cval) -> Z -> list tmpl_attribute -> list cval -> list Z -> Prop :=
  | enc_nil aligned env off : enc_atts aligned env off [] [] []
  | enc_const aligned env off a l vs bs :
      isConstAtt a = true -> enc_atts aligned (env ++ [None]) off l vs bs -> enc_atts aligned env off (a :: l) vs bs
  | enc_cons aligned env off a l v vs pad b bs :
      isConstAtt a = false -> Z.of_nat (length pad) = padding aligned off (att_align arch a) ->
      enc_value env a v b ->
      enc_atts aligned (env ++ [Some v]) (off + Z.of_nat (length pad) + Z.of_nat (length b)) l vs bs ->
      enc_atts aligned env off (a :: l) (v :: vs) (pad ++ b ++ bs)
with enc_tmpl : template -> list cval -> list Z -> Prop :=
  | enc_t m vs bs tail :
      enc_atts (isAlignedTmpl m) [] 0 (tm_attributes m) vs bs ->
      Z.of_nat (length tail) = padding (isAlignedTmpl m) (Z.of_nat (length bs)) (tm_alignment (tm_static m)) ->
      tm_minsize (tm_static m) <= Z.of_nat (length (bs ++ tail)) ->
      enc_tmpl m vs (bs ++ tail).
End Enc.

(** ** Populated values *)

Definition local_bytes (ty : base_type) (l : list Z) : list Z := concat (map (le_encode (Z.to_nat (local_size ty))) l).
Inductive holds_value : tmpl_attribute -> cval -> Prop :=
  | holds_int a v : attExists a = true -> ta_value a = VInt v -> holds_value a (CInt v)
  | holds_str a s : attExists a = true -> ta_value a = VString s -> holds_value a (CStr s)
  | holds_ints a l : attExists a = true -> ta_value a = VArray true (local_bytes (ta_type a) l) -> holds_value a (CInts l)
  | holds_struct a t vs : attExists a = true -> ta_value a = VStruct t -> holds_tmpl t vs -> holds_value a (CStruct vs)
with holds_atts : list tmpl_attribute -> list cval -> Prop :=
  | holds_nil : holds_atts [] []
  | holds_const a l vs : isConstAtt a = true -> holds_atts l vs -> holds_atts (a :: l) vs
  | holds_cons a l v vs : isConstAtt a = false -> holds_value a v -> holds_atts l vs -> holds_atts (a :: l) (v :: vs)
with holds_tmpl : template -> list cval -> Prop :=
  | holds_t t vs : holds_atts (tm_attributes t) vs -> holds_tmpl t vs.

(** ** Bytes at a position *)

Section At.
Context (mem : list Z) (Hmem : Z.of_nat (length mem) <= POSIX_LOG_ENTRY_MAXLEN).

Definition at_pos (p : Z) (bs : list Z) : Prop :=
  0 <= p /\ p + Z.of_nat (length bs) <= Z.of_nat (length mem) /\ take (length bs) (drop (Z.to_nat p) mem) = bs.
Lemma at_app p a b : at_pos p (a ++ b) -> at_pos p a /\ at_pos (p + Z.of_nat (length a)) b.
Proof.
  intros (Hp & Hl & H). rewrite length_app in *. unfold at_pos.
  assert (take (length a) (drop (Z.to_nat p) mem) = a) as Ha.
  { apply (f_equal (take (length a))) in H. rewrite take_take, take_app_length in H. by replace (_ `min` _)%nat with (length a) in H by lia. }
  split; [split_and!; [lia|lia|done]|]. split_and!; [lia|lia|].
  apply (f_equal (drop (length a))) in H. rewrite drop_app_length, <-take_drop_commute in H.
  replace (Z.to_nat (p + Z.of_nat (length a))) with (Z.to_nat p + length a)%nat by lia. by rewrite <-drop_drop.
Qed.
Lemma at_read p bs : at_pos p bs -> read_mem mem p (Z.of_nat (length bs)) = Done bs.
Proof.
  intros (Hp & Hl & H). unfold read_mem. rewrite (proj2 (Z.leb_le _ _)), (proj2 (Z.leb_le _ _)) by lia. cbn. by rewrite Nat2Z.id, H.
Qed.
Lemma at_split p bs : at_pos p bs -> exists rest, drop (Z.to_nat p) mem = bs ++ rest.
Proof. intros (_ & _ & H). exists (drop (length bs) (drop (Z.to_nat p) mem)). rewrite <-H at 1. by rewrite take_drop. Qed.
End At.

Lemma count_string_at s rest : forall k rem, no_nul s = true -> k + strlen s <= rem ->
  count_string (bytes_of s ++ 0 :: rest) k rem = Done (k + strlen s).
Proof.
  induction s as [|c s IH]; intros k rem Hs Hr; unfold strlen in *; cbn [bytes_of app count_string String.length] in *.
  - rewrite (proj2 (Z.leb_le _ _)) by lia. cbn. f_equal. lia.
  - cbn [no_nul] in Hs. bprop. rewrite (proj2 (Z.leb_le _ _)) by lia. rewrite (proj2 (Z.eqb_neq _ _)) by done. rewrite IH by (done || lia). f_equal. lia.
Qed.

(** ** Converting *)

Lemma conv_scalar_value arch ty v buf : supported_arch arch = true -> plain_scalar ty = true -> (16 <= length buf)%nat ->
  0 <= v \/ src_size arch ty = local_size ty -> in_unsigned (8 * src_size arch ty) v \/ src_size arch ty = local_size ty ->
  take (Z.to_nat (local_size ty)) (_evl_conv_scalar arch ty (store_at 0 (arch_encode arch (Z.to_nat (src_size arch ty)) v) buf)) =
  le_encode (Z.to_nat (local_size ty)) v.
Proof.
  intros Ha Ht Hb Hv Hr. rewrite conv_scalar_bytes by (rewrite ?length_arch_encode; done). unfold arch_encode.
  replace (if big_endian arch then reverse (if big_endian arch then reverse (le_encode (Z.to_nat (src_size arch ty)) v) else le_encode (Z.to_nat (src_size arch ty)) v)
    else if big_endian arch then reverse (le_encode (Z.to_nat (src_size arch ty)) v) else le_encode (Z.to_nat (src_size arch ty)) v)
    with (le_encode (Z.to_nat (src_size arch ty)) v) by (destruct (big_endian arch); by rewrite ?reverse_involutive).
  assert (0 <= src_size arch ty <= local_size ty) as Hn.
  { revert Ha Ht. clear. intros Ha Ht. each_arch Ha; destruct ty; try discriminate Ht; vm_compute; split; discriminate. }
  replace (Z.to_nat (local_size ty)) with (Z.to_nat (src_size arch ty) + Z.to_nat (local_size ty - src_size arch ty))%nat by lia.
  rewrite le_encode_app. f_equal.
  destruct (decide (src_size arch ty = local_size ty)) as [->|Hne]; [by rewrite Z.sub_diag|].
  destruct Hv as [Hv|?]; [|done]. destruct Hr as [Hr|?]; [|done].
  rewrite Z2Nat.id by lia. unfold in_unsigned in Hr. rewrite Z.pow_mul_r in Hr by lia. rewrite Z.div_small by (change 256 with (2 ^ 8); lia).
  generalize (Z.to_nat (local_size ty - src_size arch ty)). induction n as [|n IH]; [done|].
  cbn [replicate le_encode]. change (0 / 256) with 0. change (0 mod 256) with 0. by rewrite IH.
Qed.

Lemma length_conv_scalar arch ty data : supported_arch arch = true -> plain_scalar ty = true -> (16 <= length data)%nat ->
  length (_evl_conv_scalar arch ty data) = length data.
Proof.
  intros Ha Ht Hb. do 16 (destruct data as [|? data]; [cbn in Hb; lia|]). clear Hb.
  each_arch Ha; destruct ty; try discriminate Ht; vm_compute; reflexivity.
Qed.

Lemma fits_conv arch ty v : int_fits arch ty v -> isInteger ty = true -> supported_arch arch = true ->
  (0 <= v \/ src_size arch ty = local_size ty) /\ (in_unsigned (8 * src_size arch ty) v \/ src_size arch ty = local_size ty).
Proof.
  intros [Hr Hv] Hi Ha. split; [done|]. destruct Hv as [Hv|?]; [|by right]. left. destruct (is_signed ty); [|done].
  assert (1 <= src_size arch ty).
  { revert Ha Hi. clear. intros Ha Ht. each_arch Ha; destruct ty; try discriminate Ht; vm_compute; discriminate. }
  unfold in_signed, in_unsigned in *. pose proof (Z.pow_le_mono_r 2 (8 * src_size arch ty - 1) (8 * src_size arch ty)). lia.
Qed.
Lemma integer_plain ty : isInteger ty = true -> plain_scalar ty = true.
Proof. by destruct ty. Qed.

Lemma conv_elements_value arch ty c l : forall buf rest, supported_arch arch = true -> conv_type_of arch = Some c -> isInteger ty = true ->
  Forall (int_fits arch ty) l -> (16 <= length buf)%nat ->
  conv_elements arch ty c (src_size arch ty) (length l) buf
    (concat (map (arch_encode arch (Z.to_nat (src_size arch ty))) l) ++ rest) = Some (local_bytes ty l).
Proof.
  induction l as [|v l IH]; intros buf rest Ha Hc Hi Hl Hb; cbn [length conv_elements map concat]; [done|].
  inversion Hl as [|? ? Hv Hl']; subst.
  assert (1 <= src_size arch ty <= 8) as Hn.
  { revert Ha Hi. clear. intros Ha Ht. each_arch Ha; destruct ty; try discriminate Ht; vm_compute; split; discriminate. }
  rewrite <-app_assoc, length_app, length_arch_encode. rewrite (proj2 (Z.ltb_ge _ _)) by lia.
  rewrite take_app_length', drop_app_length' by (by rewrite length_arch_encode).
  assert (Hev : forall data, __conv_scalar arch ty data c = _evl_conv_scalar arch ty data).
  { intros data. unfold _evl_conv_scalar. by rewrite Ha, Hc. }
  rewrite Hev. destruct (fits_conv _ _ _ Hv Hi Ha) as [Hv1 Hv2].
  rewrite IH; try done.
  - cbn [mbind option_bind]. rewrite conv_scalar_value by (auto using integer_plain). done.
  - rewrite length_conv_scalar by (rewrite ?length_store_at; rewrite ?length_arch_encode; auto using integer_plain; lia).
    rewrite length_store_at by (rewrite length_arch_encode; lia). done.
Qed.

Lemma load_encoded arch ty v buf : supported_arch arch = true -> isInteger ty = true -> int_fits arch ty v -> (16 <= length buf)%nat ->
  load_int ty (_evl_conv_scalar arch ty (store_at 0 (arch_encode arch (Z.to_nat (src_size arch ty)) v) buf)) = v.
Proof. intros Ha Hi [Hr Hv] Hb. apply foreign_integers_keep_their_value; auto using integer_plain. Qed.

(** ** Population *)

Section Layout.
Context (mem : list Z) (Hmem : Z.of_nat (length mem) <= POSIX_LOG_ENTRY_MAXLEN).
Context (arch : Z) (Hsup : supported_arch arch = true).

Lemma Harch : 0 <= arch <= 9.
Proof. unfold supported_arch in Hsup. bprop. lia. Qed.

(** Out of data only at the end. *)
Definition at_next (n : tmpl_popl_notes) (p : Z) : Prop :=
  pn_mem n = mem /\ pn_next n = p /\ (pn_out_of_data n = true -> p = Z.of_nat (length mem)).
Lemma at_next_inside n p : at_next n p -> 0 <= p <= Z.of_nat (length mem) -> inside mem n.
Proof. intros (Hm & Hp & _) H. split; [done|]. by rewrite Hp. Qed.
Lemma at_next_clamp n q p : at_next n q -> q <= p <= Z.of_nat (length mem) -> at_next (clamp n p) p.
Proof.
  intros (Hm & Hq & Hf) Hp. unfold clamp, pn_end, at_next. rewrite Hm. destruct (p >=? _) eqn:E; bprop; cbn; rewrite ?Hm.
  - split_and!; [done|lia|lia].
  - split_and!; [done|done|]. intros H. specialize (Hf H). lia.
Qed.
Lemma at_next_here n p : pn_mem n = mem -> pn_out_of_data n = false -> at_next (set_next n p) p.
Proof. intros Hm H. split_and!; [done|done|]. cbn. congruence. Qed.

Variable populate : template -> pop -> outcome (template * pop).
Variable fuel : nat.
Hypothesis Hrec : forall t m p, (depth m <= fuel)%nat -> like t m -> pop_ok arch m = true -> tm_arch (tm_state t) = arch ->
  inside mem (pp_notes p) ->
  exists t' p', populate t p = Done (t', p') /\ like t' m /\ pmoved mem p p'.
Hypothesis Hlay : forall t m p vs data, (depth m <= fuel)%nat -> like t m -> pop_ok arch m = true -> tm_arch (tm_state t) = arch ->
  enc_tmpl arch m vs data -> data <> [] -> at_pos mem (pn_next (pp_notes p)) data -> pn_mem (pp_notes p) = mem -> pn_out_of_data (pp_notes p) = false ->
  exists t' p', populate t p = Done (t', p') /\ holds_tmpl t' vs /\
    at_next (pp_notes p') (pn_next (pp_notes p) + Z.of_nat (length data)) /\ tm_data_size (tm_state t') = Z.of_nat (length data).

(** The populated attributes before, and the values they were laid out with. *)
Definition env_ok (dn : list tmpl_attribute) (env : list (option cval)) : Prop :=
  Forall2 (fun a o => match o with Some v => holds_value a v | None => True end) dn env.

Lemma dimension_laid_out t m dn todo b d e env n rem : like t m -> tm_attributes t = dn ++ todo -> env_ok dn env ->
  like_dim (Some d) (Some e) -> array_ok arch m b e = true -> has_length env e n -> (0 < n)%nat -> Z.of_nat n <= POSIX_LOG_ENTRY_MAXLEN ->
  array_nel t d rem = Done (Some (Z.of_nat n)).
Proof.
  intros Ht Hatts Henv [Htd Hdim] Hok Hlen Hn Hmax. unfold array_nel, has_length, array_ok, POSIX_LOG_ENTRY_MAXLEN in *. rewrite Htd.
  destruct (td_type e) as [| | | |i|name| |]; try done; [by rewrite Hdim, Hlen|].
  destruct (Forall2_lookup_r _ _ _ _ _ Henv Hlen) as (x & Hx & Hh). cbn in Hh.
  unfold _evlTmplGetNthAttribute in *. rewrite Hatts, (lookup_app_l_Some _ _ _ _ Hx). cbn [reading mbind outcome_bind].
  destruct (tm_attributes m !! i) as [y|] eqn:Ey; [|done].
  inversion Ht as [? ? _ _ _ Hf]; subst. destruct (Forall2_lookup_r _ _ _ _ _ Hf Ey) as (x' & Hx' & Hl).
  rewrite Hatts, (lookup_app_l_Some _ _ _ _ Hx) in Hx'. injection Hx' as <-.
  unfold dim_source_ok in Hok. bprop. rewrite <-(like_type _ _ Hl) in *.
  unfold getDimensionFromAttribute, _evlTmplGetValueOfIntegerAttribute. inversion Hh as [? v Hex Hv| | |]; subst. rewrite Hex, Hv. cbn [negb].
  rewrite (signed_id 64) by (unfold in_signed; lia).
  destruct (ta_type x); try done; cbn [mbind outcome_bind];
    (rewrite (signed_id 32) by (unfold in_signed; lia)); (rewrite (proj2 (Z.leb_gt _ _)) by lia); done.
Qed.

Lemma clone_laid_out a b st p : like_att a b -> isConstAtt a = false -> ta_struct a = Some st -> pop_ok arch st = true ->
  exists c s, (match ta_value a with
              | VStruct st => Done (st, pp_store p)
              | _ => master ← reading (ta_struct a); _evlCloneTemplate master (pp_store p)
              end) = Done (c, s) /\ like c st.
Proof.
  intros Hab Hc Hst Hok. destruct (clone_ok arch st (pp_store p) Hok) as (c & s & Hclone & Hlike & _).
  rewrite Hst. cbn [reading mbind outcome_bind].
  destruct (ta_value a) eqn:Ev; eauto. do 2 eexists. split; [done|].
  inversion Hab as [|? ? H1 H2 Hx H3 H4 H5 H6 H7 H8 H9]; subst; [congruence|]. destruct (H9 _ Ev) as (m' & Hm' & Hl). congruence.
Qed.

Lemma exists_with_value a v : attExists (with_value a v) = true.
Proof. unfold attExists, with_value. cbn. rewrite has_set. apply orb_true_r. Qed.

Lemma integer_cases ty : isInteger ty = true ->
  is_scalar ty = true /\ (forall A (x y z w : A), match ty with TY_STRUCT => x | TY_STRING => y | TY_WSTRING => z | _ => w end = w) /\
  (forall A (x y z w : A), match ty with TY_STRING => x | TY_WSTRING => y | TY_STRUCT => z | _ => w end = w).
Proof. by destruct ty. Qed.
Lemma concat_length n ty l : concat (map (arch_encode arch n) l) = ty -> length ty = (n * length l)%nat.
Proof.
  intros <-. induction l as [|v l IH]; cbn [map concat length]; [lia|]. rewrite length_app, length_arch_encode, IH. lia.
Qed.

(** The state behind a value. *)
Definition value_read (al : bool) (a : tmpl_attribute) (n : tmpl_popl_notes) (bf : bf_state) (v : cval) (bs : list Z)
  (o : outcome (bool * tmpl_attribute * pop_loop)) : Prop :=
  exists a' p', o = Done (next_attr al a' p' bf) /\ holds_value a' v /\ isConstAtt a' = isConstAtt a /\
    at_next (pp_notes p') (pn_next n + Z.of_nat (length bs)).

Lemma array_laid_out t al a d n s l bf :
  tm_arch (tm_state t) = arch -> isInteger (ta_type a) = true -> Forall (int_fits arch (ta_type a)) l -> l <> [] ->
  array_nel t d (bytes_remaining n) = Done (Some (Z.of_nat (length l))) -> pn_mem n = mem -> pn_out_of_data n = false ->
  at_pos mem (pn_next n) (concat (map (arch_encode arch (Z.to_nat (src_size arch (ta_type a)))) l)) ->
  value_read al a n bf (CInts l) (concat (map (arch_encode arch (Z.to_nat (src_size arch (ta_type a)))) l))
    ('(a, p) ← populate_array populate t a d (mkPop n s); Done (next_attr al a p bf)).
Proof.
  intros Har Hi Hl Hne Hnel Hm Hout Hat. unfold populate_array. cbn [pp_notes pp_store]. rewrite Hnel, Har. cbn [mbind outcome_bind].
  destruct (integer_cases _ Hi) as (Hs & _ & Hmatch). rewrite Hmatch.
  destruct (scalar_info arch _ Hs Harch) as (ti & Hti & Hsrc & Hsz & _). unfold type_info. rewrite Hti. cbn [reading mbind outcome_bind].
  set (bs := concat _) in *. assert (length bs = (Z.to_nat (src_size arch (ta_type a)) * length l)%nat) as Hlen by (by eapply concat_length).
  pose proof Hat as (Hp & Hb & Ht). unfold POSIX_LOG_ENTRY_MAXLEN in Hmem.
  assert (length l <> 0)%nat as Hl0 by (by destruct l).
  rewrite Hsrc in *. assert (Z.of_nat (length bs) = at_size ti * Z.of_nat (length l)) as Hmul by (rewrite Hlen; lia).
  assert (s32 (at_size ti * Z.of_nat (length l)) = at_size ti * Z.of_nat (length l)) as Hs32 by (apply signed_id; [lia|]; unfold in_signed; lia).
  rewrite !Hs32. rewrite unsigned_id by (unfold in_unsigned; lia).
  rewrite (inside_remaining mem Hmem n) by (split; [done|]; lia).
  rewrite (proj2 (Z.ltb_ge _ _)) by lia. rewrite (proj2 (Z.ltb_lt _ _)) by lia. rewrite Hs32.
  unfold _evl_conv_scalar_array. rewrite Hsup. destruct (conv_type_ok arch Harch) as [c Hc]. rewrite Hc. cbn [mbind option_bind].
  unfold __conv_scalar_array, mem_from. rewrite Hm, Nat2Z.id. destruct (at_split mem _ _ Hat) as [rest ->].
  rewrite <-Hsrc. unfold bs. rewrite Hsrc. rewrite <-Hsrc, conv_elements_value by (done || (cbn; lia)). cbn [reading mbind outcome_bind].
  do 2 eexists. split; [done|]. split; [apply holds_ints; [apply exists_with_value|done]|]. split; [apply const_with_value|].
  cbn. fold bs. rewrite Hsrc, <-Hmul. by apply at_next_here.
Qed.

Lemma value_laid_out t m dn todo a b env v bs p :
  like t m -> tm_attributes t = dn ++ todo -> env_ok dn env -> like_att a b -> isConstAtt a = false -> isConstAtt b = false ->
  att_ok arch m b = true -> (forall st, ta_struct b = Some st -> pop_ok arch st = true /\ (depth st <= fuel)%nat) ->
  tm_arch (tm_state t) = arch -> enc_value arch env b v bs -> pn_mem (pp_notes p) = mem -> pn_out_of_data (pp_notes p) = false ->
  at_pos mem (pn_next (pp_notes p)) bs ->
  value_read (isAlignedTmpl t) a (pp_notes p) (mkBf (pn_next (pp_notes p)) 0) v bs
    (populate_value populate t (isAlignedTmpl t) a p (mkBf (pn_next (pp_notes p)) 0)).
Proof.
  intros Ht Hatts Henv Hab Hca Hcb Hok Hsb Har Henc Hm Hout Hat.
  assert (Hb : isBitField a = false).
  { unfold att_ok in Hok. bprop. inversion Hab; subst; congruence. }
  assert (Hdim : like_dim (ta_dimension a) (ta_dimension b)) by (inversion Hab; subst; [congruence|done]).
  assert (Hst : ta_struct a = ta_struct b) by (by inversion Hab).
  pose proof (like_type _ _ Hab) as Hty. pose proof Hat as (Hp0 & Hp1 & _).
  assert (Hins : inside mem (pp_notes p)) by (split; [done|]; lia).
  pose proof (inside_remaining mem Hmem _ Hins) as Hrem.
  unfold populate_value, isArray. rewrite Hb. revert Har Hm. inversion Henc as [? ? z Hd Hi Hf|? ? s Hd Es Hs|? ? e l Hd Hi Hf Hlen Hne|? ? st vs ? Hd Es Hst' He Hne]; subst;
    rewrite Hd in Hdim; intros Har Hm.
  - destruct (ta_dimension a); [done|]. cbn [negb andb]. rewrite <-Hty in *. destruct (integer_cases _ Hi) as (Hs & Hmatch & _).
    case_bool_decide as Hno; [by destruct Hno|]. rewrite Hmatch, Har. rewrite length_arch_encode in *.
    destruct (scalar_info arch _ Hs Harch) as (ti & Hti & Hsrc & Hsz & _). unfold type_info. rewrite Hti. cbn [reading mbind outcome_bind].
    rewrite Hrem, (proj2 (Z.ltb_ge _ _)) by lia. unfold populateScalar. rewrite Hm, <-Hsrc.
    pose proof (at_read mem _ _ Hat) as Hrd. rewrite length_arch_encode, Z2Nat.id in Hrd by lia. rewrite Hrd. cbn [mbind outcome_bind].
    unfold load_value. rewrite Hi, load_encoded by (done || (cbn; lia)). cbn [default].
    do 2 eexists. split; [done|]. split; [apply holds_int; [apply exists_with_value|done]|]. split; [apply const_with_value|].
    cbn. rewrite length_arch_encode, Z2Nat.id by lia. by apply at_next_here.
  - destruct (ta_dimension a); [done|]. cbn [negb andb]. case_bool_decide as Hno; [by destruct Hno|]. rewrite Hty, Es.
    unfold collectString. rewrite Hrem. unfold mem_from. rewrite Hm. destruct (at_split mem _ _ Hat) as [rest Hdrop]. rewrite Hdrop, <-app_assoc.
    change ([0] ++ rest) with (0 :: rest). rewrite length_app, length_bytes_of in *. cbn [length] in *.
    rewrite count_string_at by (done || (unfold strlen; lia)). cbn [mbind outcome_bind]. unfold strlen.
    rewrite (proj2 (Z.ltb_ge _ _)) by lia.
    do 2 eexists. split; [done|]. split.
    { apply holds_str; [apply exists_with_value|]. cbn. unfold mem_from. rewrite Hm, Hdrop, <-app_assoc. f_equal. by apply cstring_bytes_of. }
    split; [apply const_with_value|]. cbn. rewrite length_app, length_bytes_of. cbn [length].
    replace (pn_next (pp_notes p) + (1 + Z.of_nat (String.length s))) with (pn_next (pp_notes p) + Z.of_nat (String.length s + 1)) by lia.
    by apply at_next_here.
  - destruct (ta_dimension a) as [d|]; [|done]. rewrite bool_decide_true by done. cbn [negb andb].
    rewrite <-Hty in *. destruct p as [n s]. cbn [pp_notes pp_store] in *. apply array_laid_out; try done.
    assert (array_ok arch m b e = true) as Hae by (unfold att_ok in Hok; rewrite Hd in Hok; by bprop).
    eapply dimension_laid_out; try done; [by destruct l; cbn; [|lia]|].
    assert (length (concat (map (arch_encode arch (Z.to_nat (src_size arch (ta_type a)))) l)) = (Z.to_nat (src_size arch (ta_type a)) * length l)%nat) as Hcl
      by (by eapply concat_length).
    destruct (integer_cases _ Hi) as (Hs & _). destruct (scalar_info arch _ Hs Harch) as (ti & _ & Hsrc & Hsz & _). rewrite Hcl in *. nia.
  - destruct (ta_dimension a); [done|]. cbn [negb andb]. case_bool_decide as Hno; [by destruct Hno|]. rewrite Hty, Es.
    destruct (Hsb st Hst') as [Hstok Hdepth]. unfold populate_struct.
    destruct (clone_laid_out a b st p Hab Hca) as (c & s & -> & Hc); [congruence|done|]. cbn [mbind outcome_bind]. rewrite Har.
    destruct (Hlay (set_state c (set_tm_arch arch (tm_state c))) st (mkPop (pp_notes p) s) vs bs) as (t' & p' & -> & Hh & Hnext & Hsize); try done.
    { by apply like_set_arch. }
    cbn [mbind outcome_bind]. rewrite Hsize. assert (0 < Z.of_nat (length bs)) by (destruct bs; cbn; [done|lia]). rewrite (proj2 (Z.ltb_lt _ _)) by done.
    do 2 eexists. split; [done|]. split; [eapply holds_struct; [apply exists_with_value|done|done]|]. split; [apply const_with_value|]. exact Hnext.
Qed.

Lemma value_nonempty env a v bs : enc_value arch env a v bs -> bs <> [].
Proof.
  destruct 1 as [env a z Hd Hi Hf|env a s Hd Es Hs|env a e l Hd Hi Hf Hlen Hne|env a st vs bs Hd Es Hst' He Hne]; [| | |done].
  - destruct (integer_cases _ Hi) as (Hs & _). destruct (scalar_info arch _ Hs Harch) as (ti & _ & Hsrc & Hsz & _).
    intros E. apply (f_equal length) in E. rewrite length_arch_encode in E. cbn in E. lia.
  - by destruct (bytes_of s).
  - destruct (integer_cases _ Hi) as (Hs & _). destruct (scalar_info arch _ Hs Harch) as (ti & _ & Hsrc & Hsz & _).
    intros E. apply concat_length in E. destruct l; [done|]. cbn in E. lia.
Qed.

Lemma align_laid_out n base off al : at_next n (base + off) -> 0 <= off -> 0 < al -> base + off + (- off) mod al <= Z.of_nat (length mem) ->
  exists n', alignNextPtr n base al = Done n' /\ at_next n' (base + off + (- off) mod al).
Proof.
  intros Hn Hoff Hal Hle. unfold alignNextPtr, alignDataPtr. rewrite (proj2 (Z.eqb_neq al 0)) by lia. cbn [negb assert mbind outcome_bind].
  destruct Hn as (Hm & Hp & Hf). rewrite Hp. replace (base + off - base) with off by lia.
  assert ((if negb (off mod al =? 0) then base + off + (al - off mod al) else base + off) = base + off + (- off) mod al) as ->.
  { destruct (off mod al =? 0) eqn:E; bprop; cbn [negb].
    - rewrite Z.mod_opp_l_z by lia. lia.
    - rewrite Z.mod_opp_l_nz by lia. lia. }
  eexists. split; [done|]. pose proof (Z.mod_pos_bound (- off) al ltac:(lia)). apply (at_next_clamp n (base + off)); [done|lia].
Qed.

Lemma at_next_set_next n p : at_next n p -> at_next (set_next n (pn_next n)) p.
Proof. intros (Hm & Hp & Hf). by split_and!. Qed.

(** An attribute with bytes, behind its padding. *)
Lemma attribute_laid_out t m dn todo a b env off v bs pad l :
  like t m -> tm_attributes t = dn ++ todo -> env_ok dn env -> like_att a b -> isConstAtt b = false -> member_ok arch m b ->
  struct_ok arch fuel b -> tm_arch (tm_state t) = arch -> enc_value arch env b v bs ->
  Z.of_nat (length pad) = padding (isAlignedTmpl t) off (att_align arch b) -> 0 <= off ->
  at_next (pp_notes (pl_pop l)) (base_of t + off) -> bf_ok (isAlignedTmpl t) (pp_notes (pl_pop l)) (pl_bf l) ->
  at_pos mem (base_of t + off) (pad ++ bs) ->
  exists a' l', populate_att populate t (isAlignedTmpl t) a l = Done (true, a', l') /\ holds_value a' v /\ isConstAtt a' = false /\
    at_next (pp_notes (pl_pop l')) (base_of t + off + Z.of_nat (length pad) + Z.of_nat (length bs)).
Proof.
  intros Ht Hatts Henv Hab Hcb Hok Hsb Har Henc Hpad Hoff Hn Hbf [Hatp Hat]%at_app.
  assert (Hca : isConstAtt a = false) by (inversion Hab; subst; congruence).
  destruct Hok as [?|(_ & Hok & Hpok)]; [congruence|].
  assert (Hb : isBitField a = false) by (unfold att_ok in Hok; bprop; inversion Hab; subst; congruence).
  assert (Hb' : forall p, isBitField (set_ta_rawdata a p) = false) by done.
  pose proof (value_nonempty _ _ _ _ Henc) as Hne. assert (0 < Z.of_nat (length bs)) by (destruct bs; cbn; [done|lia]).
  pose proof Hat as (Hq0 & Hq1 & _). unfold populate_att. rewrite Hca, Hb. cbn [negb].
  assert (exists n', (if isAlignedTmpl t then align ← computeAttAlignment a (tm_arch (tm_state t));
      alignNextPtr (adjustNextPerBitFields (pp_notes (pl_pop l)) (bfStart (pl_bf l)) (bfOffset (pl_bf l))) (base_of t) align
      else Done (pp_notes (pl_pop l))) = Done n' /\ at_next n' (base_of t + off + Z.of_nat (length pad))) as (n' & -> & Hn').
  { rewrite Hpad. unfold padding in *. destruct (isAlignedTmpl t) eqn:Hal.
    - rewrite Har, bf_adjust by done. destruct (compute_alignment_ok mem arch Harch t m a b Ht Hab Hok Hal) as (al & Hcal & Hpos).
      rewrite Hcal. cbn [mbind outcome_bind].
      assert (att_align arch b = al) as Hal'.
      { unfold att_align. unfold computeAttAlignment, isStruct in *. rewrite <-(like_type _ _ Hab).
        assert (ta_struct b = ta_struct a) as -> by (by inversion Hab). by rewrite Hcal. }
      rewrite Hal' in *. apply align_laid_out; first [done|by apply at_next_set_next|lia].
    - eexists. split; [done|]. by rewrite Z.add_0_r. }
  cbn [mbind outcome_bind]. destruct Hn' as (Hm' & Hp' & Hf').
  assert (Hins : inside mem n') by (split; [done|]; lia).
  rewrite (inside_remaining mem Hmem n' Hins), Hp'. rewrite (proj2 (Z.eqb_neq _ _)) by lia.
  destruct (pn_out_of_data n') eqn:Eout; [specialize (Hf' eq_refl); lia|]. rewrite Hb'. cbn [andb negb]. rewrite andb_true_r.
  edestruct (value_laid_out t m dn todo (set_ta_rawdata a (Some (mkPtr (pn_mem n') (pn_next n')))) b env v bs (mkPop n' (pp_store (pl_pop l))))
    as (a' & p' & Hv & Hh & Hc' & Hnext); try done.
  { by apply like_set_rawdata. } { intros st Hst. split; [by apply Hpok|]. by apply (Hsb st). } { cbn. by rewrite Hp'. }
  cbn [pp_notes] in *. rewrite Hp' in *. exists a', (mkPL p' (if isAlignedTmpl t then mkBf (pn_next n') (CHAR_BIT * (pn_next (pp_notes p') - pn_next n')) else mkBf (pn_next n') 0)).
  split; [rewrite Hp'; exact Hv|]. split; [done|]. split; [by rewrite Hc'|]. exact Hnext.
Qed.

Definition on_arch (t : template) : Prop := tm_arch (tm_state t) = arch.
Lemma atts_laid_out t m : like t m -> on_arch t -> 0 <= base_of t -> forall todo dn todo_m dn_m env off vs bs l,
  tm_attributes m = dn_m ++ todo_m -> Forall2 like_att dn dn_m -> Forall2 like_att todo todo_m ->
  Forall (member_ok arch m) todo_m -> Forall (struct_ok arch fuel) todo_m -> env_ok dn env ->
  enc_atts arch (isAlignedTmpl t) env off todo_m vs bs -> 0 <= off ->
  at_next (pp_notes (pl_pop l)) (base_of t + off) -> bf_ok (isAlignedTmpl t) (pp_notes (pl_pop l)) (pl_bf l) ->
  at_pos mem (base_of t + off) bs ->
  exists l' todo', populate_atts populate t (isAlignedTmpl t) dn todo l = Done (dn ++ todo', l') /\ holds_atts todo' vs /\
    at_next (pp_notes (pl_pop l')) (base_of t + off + Z.of_nat (length bs)) /\
    bf_ok (isAlignedTmpl t) (pp_notes (pl_pop l')) (pl_bf l').
Proof.
  intros Ht Har Hbase todo. induction todo as [|a todo IH]; intros dn todo_m dn_m env off vs bs l Hm Hdn Htodo Hok Hst Henv Henc Hoff Hn Hbf Hat;
    cbn [populate_atts].
  - inversion Htodo; subst. inversion Henc; subst. exists l, []. rewrite app_nil_r. split; [done|]. split; [constructor|].
    cbn. by rewrite Z.add_0_r.
  - inversion Htodo as [|? b ? todo_m' Hab Htodo']; subst todo_m. inversion Hok as [|? ? Hokb Hok']; subst. inversion Hst as [|? ? Hstb Hst']; subst.
    assert (Hlt : like (set_attributes t (dn ++ a :: todo)) m).
    { apply like_set_attributes; [done|]. rewrite Hm. apply Forall2_app; [done|]. by constructor. }
    pose proof Hn as (Hmm & Hpp & Hff). pose proof Hat as (Hq0 & Hq1 & _).
    destruct (populate_att_ok mem Hmem arch Harch populate fuel Hrec (set_attributes t (dn ++ a :: todo)) m a b l)
      as (go & a' & l' & Hstep & Ha' & Hmv & Hbf'); try done.
    { split; [split; [done|]; lia|done]. }
    change (isAlignedTmpl (set_attributes t (dn ++ a :: todo))) with (isAlignedTmpl t) in *.
    inversion Henc as [|? ? ? ? ? ? ? Hcb Henc'|? ? ? ? ? v vs' pad bv bs' Hcb Hpad Hev Henc']; subst.
    + assert (isConstAtt a = true /\ a' = a /\ go = true /\ pp_notes (pl_pop l') = pp_notes (pl_pop l)) as (Hca & -> & -> & Hnotes).
      { assert (isConstAtt a = true) as Hca by (inversion Hab; subst; congruence). unfold populate_att in Hstep. rewrite Hca in Hstep. by injection Hstep as <- <- <-. }
      rewrite Hstep. cbn [mbind outcome_bind].
      destruct (IH (dn ++ [a]) todo_m' (dn_m ++ [b]) (env ++ [None]) off vs bs l') as (l'' & todo' & Hp & Hh & Hn' & Hbf''); try done.
      { by rewrite <-app_assoc. } { apply Forall2_app; [done|]. by constructor. } { apply Forall2_app; [done|]. by constructor. } { by rewrite Hnotes. }
      exists l'', (a :: todo'). rewrite Hp, <-app_assoc. split; [done|]. split; [by constructor|done].
    + destruct (attribute_laid_out (set_attributes t (dn ++ a :: todo)) m dn (a :: todo) a b env off v bv pad l)
        as (a1 & l1 & Hstep' & Hh & Hca' & Hn1); try done.
      { rewrite app_assoc in Hat. by apply at_app in Hat as [? _]. }
      change (base_of (set_attributes t (dn ++ a :: todo))) with (base_of t) in *.
      change (isAlignedTmpl (set_attributes t (dn ++ a :: todo))) with (isAlignedTmpl t) in *.
      rewrite Hstep in Hstep'. injection Hstep' as -> -> ->. rewrite Hstep. cbn [mbind outcome_bind].
      rewrite !length_app in *.
      destruct (IH (dn ++ [a1]) todo_m' (dn_m ++ [b]) (env ++ [Some v]) (off + Z.of_nat (length pad) + Z.of_nat (length bv)) vs' bs' l1)
        as (l'' & todo' & Hp & Hhs & Hn' & Hbf''); try done.
      { by rewrite <-app_assoc. }
      { apply Forall2_app; [done|]. by constructor. }
      { apply Forall2_app; [done|]. by constructor. }
      { lia. }
      { by rewrite !Z.add_assoc. }
      { rewrite app_assoc in Hat. apply at_app in Hat as [_ Hat]. rewrite length_app, Nat2Z.inj_add in Hat.
        by rewrite !Z.add_assoc in *. }
      exists l'', (a1 :: todo'). rewrite Hp, <-app_assoc. split; [done|]. split; [by constructor|]. split; [|done].
      rewrite !Nat2Z.inj_add. by rewrite !Z.add_assoc in *.
Qed.

Lemma body_laid_out t m p vs data : like t m -> pop_ok arch m = true -> Forall (struct_ok arch fuel) (tm_attributes m) -> on_arch t ->
  enc_tmpl arch m vs data -> data <> [] -> at_pos mem (pn_next (pp_notes p)) data -> pn_mem (pp_notes p) = mem -> pn_out_of_data (pp_notes p) = false ->
  exists t' p', populate_body populate t p = Done (t', p') /\ holds_tmpl t' vs /\
    at_next (pp_notes p') (pn_next (pp_notes p) + Z.of_nat (length data)) /\ tm_data_size (tm_state t') = Z.of_nat (length data).
Proof.
  intros Ht (Hmas & Hunp & Hal & Hok & _)%pop_ok_spec Hst Har Henc Hne Hat Hm Hout.
  inversion Henc as [? ? bs tail Hea Htail Hmin]; subst m0 vs0 data. clear Henc. unfold populate_body.
  set (t1 := set_state t _). assert (like t1 m) as Ht1 by (inversion Ht; subst; by constructor).
  change (tm_attributes t) with (tm_attributes t1). change (isAlignedTmpl t) with (isAlignedTmpl t1).
  assert (Hl1 : Forall2 like_att (tm_attributes t1) (tm_attributes m)) by (by inversion Ht1).
  assert (isAlignedTmpl m = isAlignedTmpl t1 /\ tm_static t1 = tm_static m) as [Hm1 Hs1] by (by inversion Ht1).
  assert (Hbase : base_of t1 = pn_next (pp_notes p)) by done. rewrite Hm1 in *.
  pose proof Hat as (Hq0 & Hq1 & _). rewrite length_app in Hq1. unfold POSIX_LOG_ENTRY_MAXLEN in Hmem.
  apply at_app in Hat as [Hat1 Hat2].
  destruct (atts_laid_out t1 m Ht1 Har ltac:(lia) (tm_attributes t1) [] (tm_attributes m) [] [] 0 vs bs (mkPL p (mkBf (pn_next (pp_notes p)) 0)))
    as (l & atts & -> & Hh & Hn & Hbf); rewrite ?Hbase, ?Z.add_0_r; try done.
  { constructor. }
  { split; [done|]. split; [done|]. cbn. rewrite Hout. done. }
  { intros _. cbn. unfold CHAR_BIT. lia. }
  cbn [mbind outcome_bind app]. rewrite Z.add_0_r, Hbase in Hn.
  assert (exists n', (if isAlignedTmpl t1 then
      n ← alignNextPtr (adjustNextPerBitFields (pp_notes (pl_pop l)) (bfStart (pl_bf l)) (bfOffset (pl_bf l))) (pn_next (pp_notes p)) (tm_alignment (tm_static t1));
      Done (enforceMinSize n (pn_next (pp_notes p)) (tm_minsize (tm_static t1))) else Done (pp_notes (pl_pop l))) = Done n' /\
      at_next n' (pn_next (pp_notes p) + Z.of_nat (length (bs ++ tail)))) as (n' & -> & Hn').
  { rewrite length_app, Nat2Z.inj_add, Z.add_assoc, Htail. unfold padding in *. destruct (isAlignedTmpl t1) eqn:Ea.
    2:{ eexists. split; [done|]. by rewrite Z.add_0_r. }
    rewrite bf_adjust, Hs1 by done.
    destruct (align_laid_out (set_next (pp_notes (pl_pop l)) (pn_next (pp_notes (pl_pop l)))) (pn_next (pp_notes p)) (Z.of_nat (length bs)) (tm_alignment (tm_static m)))
      as (n1 & -> & Hn1); [by apply at_next_set_next|lia|apply Hal; congruence|lia|].
    cbn [mbind outcome_bind]. eexists. split; [done|]. destruct Hn1 as (Hm1' & Hp1 & Hf1). unfold enforceMinSize.
    rewrite length_app in Hmin.
    rewrite Hp1, signed_id by (try lia; unfold in_signed; lia). rewrite (proj2 (Z.ltb_ge _ _)) by lia. by split_and!. }
  cbn [mbind outcome_bind]. do 2 eexists. split; [done|]. split; [by constructor|]. split; [done|].
  cbn. destruct Hn' as (_ & -> & _). rewrite length_app, Z.add_simpl_l. apply unsigned_id. unfold in_unsigned. lia.
Qed.
End Layout.

Lemma populate_laid_out mem arch fuel : Z.of_nat (length mem) <= POSIX_LOG_ENTRY_MAXLEN -> supported_arch arch = true -> forall t m p vs data,
  (depth m <= fuel)%nat -> like t m -> pop_ok arch m = true -> tm_arch (tm_state t) = arch ->
  enc_tmpl arch m vs data -> data <> [] -> at_pos mem (pn_next (pp_notes p)) data -> pn_mem (pp_notes p) = mem -> pn_out_of_data (pp_notes p) = false ->
  exists t' p', populateTmpl fuel t p = Done (t', p') /\ holds_tmpl t' vs /\
    at_next mem (pp_notes p') (pn_next (pp_notes p) + Z.of_nat (length data)) /\ tm_data_size (tm_state t') = Z.of_nat (length data).
Proof.
  intros Hmem Hsup. induction fuel as [|fuel IH]; intros t m p vs data Hd Ht Hok Har Henc Hne Hat Hm Hout; cbn [populateTmpl].
  { destruct m. cbn in Hd. lia. }
  apply (body_laid_out mem Hmem arch Hsup _ fuel) with (m := m); try done.
  - intros t1 m1 p1 Hd1 Ht1 Hm1 Har1 Hp1.
    destruct (populateTmpl_ok mem arch fuel Hmem ltac:(unfold supported_arch in Hsup; bprop; lia) t1 m1 p1) as (t' & p' & ? & ? & ? & _); eauto 10.
  - apply Forall_forall. intros a Ha st Hc Hst. destruct (pop_ok_spec _ _ Hok) as (_ & _ & _ & Hf & _).
    rewrite Forall_forall in Hf. destruct (Hf a Ha) as [?|(_ & _ & Hs)]; [congruence|]. split; [by apply Hs|].
    pose proof (depth_member _ _ _ Ha Hc Hst). lia.
Qed.

