(* ===== verification/TmplSamples.v ===== *)
(** * Templates at work: samples, and records that are misread

    Concrete templates as the parser would leave them.  They show that the theorems on
    population apply, and what population does outside of their hypotheses. *)
From S2P Require Import Prelude NvPairs LogRecord QEvaluate RecPack Format Conv Tmpl TmplPop TmplSafe TmplLayout.

Definition att (name : str) (ty : base_type) (st : option template) (dim : option tmpl_dimension) (flags : Z) (i : nat) : tmpl_attribute :=
  mkAttr (Some name) ty st dim TMPL_AFS_DEFAULT false None None VNone flags i.
Definition master (name : str) (flags alignment minsize : Z) (l : list tmpl_attribute) : template :=
  mkTemplate (mkStatic (TMPL_TH_STRUCT name) None name [] alignment minsize None) (mkState flags 0 0 None None (-1) false) l [].
Definition bits (n : Z) : option tmpl_dimension := Some (mkDim TMPL_DIM_BITFIELD n 0).
Definition fresh_store : store := mkStore ∅ ∅ 100.
Definition an_entry (arch size : Z) : posix_log_entry :=
  mkEntry (0xfeef0000 + arch) 1 size POSIX_LOG_BINARY 7 8 6 500 500 42 42 0 0 0 1 0.
(** A clone of the master, populated from one record. *)
Definition populated (m : template) (arch : Z) (data : list Z) : outcome (Z + template * store) :=
  r ← evl_clonetemplate m fresh_store;
  match r with
  | inl e => Done (inl e)
  | inr (t, s) => evl_populatetemplate t (an_entry arch (Z.of_nat (length data))) (Some data) s
  end.
Definition read_back (r : outcome (Z + template * store)) : option (list (bool * tmpl_value template)) :=
  match r with Done (inr (t, _)) => Some (map (fun a => (attExists a, ta_value a)) (tm_attributes t)) | _ => None end.

(** ** A C struct *)

(** [struct { char c; int v; struct { short x; } p; }] *)
Definition inner : template := master "inner" TMPL_TF_ALIGNED 2 0 [att "x" TY_SHORT None None 0 0].
Definition outer : template :=
  master "outer" TMPL_TF_ALIGNED 4 0
    [att "c" TY_CHAR None None 0 0; att "v" TY_INT None None 0 1; att "p" TY_STRUCT (Some inner) None 0 2].
Definition outer_record : list Z := [1; 0; 0; 0; 254; 255; 255; 255; 7; 0; 0; 0].
Definition outer_clone : template :=
  match evl_clonetemplate outer fresh_store with Done (inr (t, _)) => t | _ => outer end.

Lemma outer_lifetime : lifetime outer outer_clone.
Proof. apply (life_clone _ fresh_store _ fresh_store). reflexivity. Qed.
Lemma outer_admissible : admissible outer (an_entry 7 12) outer_record.
Proof. unfold admissible, POSIX_LOG_ENTRY_MAXLEN. split_and!; [vm_compute; discriminate|vm_compute; reflexivity|cbn; lia|cbn; lia|cbn; lia]. Qed.


Ltac encoded := first [reflexivity | vm_compute; split; discriminate | lia].
Lemma outer_encoded : enc_tmpl 7 outer [CInt 1; CInt (-2); CStruct [CInt 7]] outer_record.
Proof.
  change outer_record with ([1; 0; 0; 0; 254; 255; 255; 255; 7; 0] ++ [0; 0]).
  apply enc_t; [|reflexivity|vm_compute; discriminate].
  apply (enc_cons 7 true _ _ _ _ (CInt 1) _ [] [1] [0; 0; 0; 254; 255; 255; 255; 7; 0]); [reflexivity..| |].
  { apply (enc_int 7 _ (att "c" TY_CHAR None None 0 0) 1); [reflexivity..|]. vm_compute. split; [split; [discriminate|reflexivity]|left; discriminate]. }
  apply (enc_cons 7 true _ _ _ _ (CInt (-2)) _ [0; 0; 0] [254; 255; 255; 255] [7; 0]); [reflexivity..| |].
  { apply (enc_int 7 _ (att "v" TY_INT None None 0 1) (-2)); [reflexivity..|]. vm_compute. split; [split; [discriminate|reflexivity]|right; reflexivity]. }
  apply (enc_cons 7 true _ _ _ _ (CStruct [CInt 7]) _ [] [7; 0] []); [reflexivity..| |apply enc_nil].
  eapply enc_struct; [reflexivity..| |discriminate]. change [7; 0] with ([7; 0] ++ []).
  apply enc_t; [|reflexivity|vm_compute; discriminate].
  apply (enc_cons 7 true _ _ _ _ (CInt 7) _ [] [7; 0] []); [reflexivity..| |apply enc_nil].
  apply (enc_int 7 _ (att "x" TY_SHORT None None 0 0) 7); [reflexivity..|]. vm_compute. split; [split; [discriminate|reflexivity]|left; discriminate].
Qed.

(** ** Records that are misread *)

(** [struct { short a; int b : 16; int c; }]: the bit-field fills the [int] that [a] began,
    and the next storage unit is taken to start four bytes behind [a], not behind that
    [int]; so [c] is looked for at offset 8, and is not found at offset 4. *)
Definition short_bits : template :=
  master "short_bits" TMPL_TF_ALIGNED 4 4
    [att "a" TY_SHORT None None 0 0; att "b" TY_INT None (bits 16) EVL_ATTR_BITFIELD 1; att "c" TY_INT None None 0 2].
Lemma member_behind_bitfield_is_lost :
  read_back (populated short_bits 7 [1; 0; 2; 0; 3; 0; 0; 0]) = Some [(true, VInt 1); (true, VInt 2); (false, VNone)] /\
  read_back (populated short_bits 7 [1; 0; 2; 0; 3; 0; 0; 0; 9; 0; 0; 0]) = Some [(true, VInt 1); (true, VInt 2); (true, VInt 9)].
Proof. split; vm_compute; reflexivity. Qed.
(** With another bit-field behind it, the place is even behind the record. *)
Definition short_bits_bits : template :=
  master "short_bits_bits" TMPL_TF_ALIGNED 4 4
    [att "a" TY_SHORT None None 0 0; att "b" TY_INT None (bits 16) EVL_ATTR_BITFIELD 1; att "c" TY_INT None (bits 8) EVL_ATTR_BITFIELD 2].
Lemma bitfield_read_behind_record : populated short_bits_bits 7 [1; 0; 2; 0] = Fault WildRead.
Proof. vm_compute. reflexivity. Qed.

(** [int n; int x[n];]: the product of the dimension and the size of an element wraps to
    zero, and two to the 30th elements are converted. *)
Definition counted : template :=
  master "counted" 0 0 0 [att "n" TY_INT None None 0 0; att "x" TY_INT None (Some (mkDim (TMPL_DIM_ATTR 0) (-1) 1)) 0 1].
(** The size that is compared with the bytes that remain, and the elements that are not
    there all the same. *)
Lemma wrapped_size_passes_the_check data : let nel := 2 ^ 30 in
  s32 (4 * nel) = 0 /\ (Z.of_nat (length data) < 4 * nel -> _evl_conv_scalar_array 7 TY_INT data nel 4 = None).
Proof.
  split; [reflexivity|]. intros H. unfold _evl_conv_scalar_array. cbn [supported_arch Z.leb Z.compare andb conv_type_of].
  unfold __conv_scalar_array. change (conv_type_of 7) with (Some NO_CONV). cbn [mbind option_bind].
  assert (Hgen : forall nel buf data, Z.of_nat (length data) < 4 * Z.of_nat nel -> conv_elements 7 TY_INT NO_CONV 4 nel buf data = None).
  { clear. intros nel. induction nel as [|nel IH]; intros buf data H; [lia|]. cbn [conv_elements].
    destruct (Z.of_nat (length data) <? 4) eqn:E; [done|]. bprop. rewrite IH; [done|]. rewrite length_drop. lia. }
  apply Hgen. lia.
Qed.

(** An architecture that is not in the table. *)
Lemma unknown_architecture_reads_outside_the_table : populated outer 10 outer_record = Fault WildRead.
Proof. vm_compute. reflexivity. Qed.

(** [struct item { struct head { uchar len; } h; char text[h.len]; }], twice: the clones of
    [item] share the dimension of [text], and with it the number of populated elements. *)
Definition head_ : template := master "head" 0 0 0 [att "len" TY_UCHAR None None 0 0].
Definition item : template :=
  master "item" 0 0 0
    [att "h" TY_STRUCT (Some head_) None 0 0; att "text" TY_CHAR None (Some (mkDim (TMPL_DIM_ATTNAME "h.len") 0 50)) 0 1].
Definition items : template :=
  master "items" 0 0 0 [att "list" TY_STRUCT (Some item) (Some (mkDim TMPL_DIM_CONST 2 51)) 0 0].
(** The elements' arrays and the dimensions that they are formatted with. *)
Definition texts (r : outcome (Z + template * store)) : option (list (tmpl_value template * Z)) :=
  match r with
  | Done (inr (t, s)) =>
      match tm_attributes t with
      | [a] =>
          match ta_value a with
          | VList l =>
              Some (omap (fun st => b ← _evlTmplGetNthAttribute st 1; d ← ta_dimension b; Some (ta_value b, td_dimension2 s d)) l)
          | _ => None
          end
      | _ => None
      end
  | _ => None
  end.
Lemma elements_share_their_dimension :
  texts (populated items 7 [1; 65; 3; 66; 67; 68]) = Some [(VArray true [65], 3); (VArray true [66; 67; 68], 3)].
Proof. vm_compute. reflexivity. Qed.

(** A clone that is populated again without having been emptied does not remember the
    record's id. *)
Lemma repopulated_clone_forgets_the_record :
  match populated outer 7 outer_record with
  | Done (inr (t, s)) =>
      tm_recid (tm_state t) = 1 /\
      match evl_populatetemplate t (an_entry 7 12) (Some outer_record) s with
      | Done (inr (t, _)) => tm_recid (tm_state t) = -1
      | _ => False
      end
  | _ => False
  end.
Proof. vm_compute. split; reflexivity. Qed.
