(* ===== verification/TmplBits.v ===== *)
(** * Bit-fields

    The bytes of a record, read as one little-endian number, hold each bit-field as a range
    of its bits; extraction returns those bits, sign- or zero-extended by the type. *)
From S2P Require Import Prelude NvPairs LogRecord QEvaluate RecPack Format Conv Tmpl TmplPop.

(** [w] bits of a record, from bit [pos] on. *)
Definition bits_at (mem : list Z) (pos w : Z) : Z := le_decode mem / 2 ^ pos mod 2 ^ w.

Lemma le_decode_app a b : le_decode (a ++ b) = le_decode a + 256 ^ Z.of_nat (length a) * le_decode b.
Proof.
  induction a as [|x a IH]; cbn [app le_decode length]; [lia|]. rewrite IH, Nat2Z.inj_succ, Z.pow_succ_r by lia. lia.
Qed.
Lemma le_decode_slice mem p k : Forall is_byte mem -> (p + k <= length mem)%nat ->
  le_decode (take k (drop p mem)) = le_decode mem / 256 ^ Z.of_nat p mod 256 ^ Z.of_nat k.
Proof.
  intros Hb Hl. rewrite <-(take_drop p mem) at 2. rewrite le_decode_app, length_take, Nat.min_l by lia.
  rewrite (Z.mul_comm (256 ^ Z.of_nat p)), Z.div_add by lia.
  pose proof (le_decode_bound (take p mem) (Forall_take _ _ _ Hb)) as H1. rewrite length_take, Nat.min_l in H1 by lia.
  rewrite Z.div_small by done. rewrite Z.add_0_l.
  rewrite <-(take_drop k (drop p mem)) at 2. rewrite le_decode_app, length_take, length_drop, Nat.min_l by lia.
  pose proof (le_decode_bound (take k (drop p mem)) (Forall_take _ _ _ (Forall_drop _ _ _ Hb))) as H2.
  rewrite length_take, length_drop, Nat.min_l in H2 by lia.
  rewrite (Z.mul_comm (256 ^ Z.of_nat k)), Z_mod_plus_full, Z.mod_small; done.
Qed.

Lemma mod_mul_div n a b : 0 < a -> 0 < b -> n mod (a * b) / a = n / a mod b.
Proof.
  intros Ha Hb. rewrite Z.rem_mul_r by lia. rewrite (Z.mul_comm a), Z.div_add by lia.
  rewrite (Z.div_small (n mod a)) by (apply Z.mod_pos_bound; lia). done.
Qed.
Lemma mod_mul_mod n a b : 0 < a -> 0 < b -> n mod (a * b) mod a = n mod a.
Proof. intros Ha Hb. rewrite Z.rem_mul_r by lia. rewrite (Z.mul_comm a), Z_mod_plus_full. by rewrite Z.mod_mod by lia. Qed.

Lemma signExtendLL_signed value w : 1 <= w <= 64 -> signExtendLL value w = signed w value.
Proof.
  intros Hw. unfold signExtendLL. destruct (64 - w =? 0) eqn:E; bprop; cbn [negb]; [by replace w with 64 by lia|].
  rewrite Z.shiftl_mul_pow2, Z.shiftr_div_pow2 by lia. unfold signed.
  assert (2 ^ 64 = 2 ^ w * 2 ^ (64 - w)) as -> by (rewrite <-Z.pow_add_r by lia; f_equal; lia).
  assert (2 ^ (64 - 1) = 2 ^ (w - 1) * 2 ^ (64 - w)) as -> by (rewrite <-Z.pow_add_r by lia; f_equal; lia).
  rewrite <-Z.mul_add_distr_r, Z.mul_mod_distr_r by lia. rewrite <-Z.mul_sub_distr_r, Z.div_mul by lia. done.
Qed.
Lemma zeroExtendLL_unsigned value w : 0 <= value < 2 ^ 64 -> 1 <= w <= 64 -> zeroExtendLL value w = unsigned w value.
Proof.
  intros Hv Hw. unfold zeroExtendLL, unsigned. destruct (w <? 64) eqn:E; bprop.
  - replace (Z.shiftl 1 w - 1) with (Z.ones w) by (rewrite Z.ones_equiv, Z.shiftl_1_l; lia).
    by rewrite Z.land_ones by lia.
  - replace w with 64 by lia. by rewrite Z.mod_small.
Qed.

(** The bytes that hold the bits are in the record and are at most eight. *)
Definition extractable (mem : list Z) (start off w : Z) : Prop :=
  0 <= start /\ 0 <= off /\ 1 <= w /\ off mod 8 + w <= 64 /\ start + bitsToBytes (off + w) <= Z.of_nat (length mem).
(** C31: what is extracted from a bit-field are its bits in the record, sign- or zero-extended
    by the type, if the bytes that hold them are in the record and are at most eight. *)
Theorem extraction_returns_the_bits mem a start off w :
  Forall is_byte mem -> extractable mem start off w -> isInteger (ta_type a) = true -> ta_type a <> TY_ADDRESS ->
  extractDataFromBitField mem a start off w =
  Done (with_value a (VInt (let v := bits_at mem (8 * start + off) w in if is_signed (ta_type a) then signed w v else v))).
Proof.
  intros Hb (Hs & Ho & Hw & H64 & Hlen) Hi Hna. unfold bitsToBytes, CHAR_BIT in Hlen. unfold extractDataFromBitField, CHAR_BIT.
  set (k := (off + w - 1) / 8 - off / 8). set (p := start + off / 8).
  assert (Hw64 : w <= 64) by dlia.
  assert (Hk : 0 <= k <= 7 /\ off mod 8 + w <= 8 * (k + 1)) by (unfold k; dlia).
  assert (Hp : 0 <= p /\ p + k + 1 <= Z.of_nat (length mem)) by (unfold p, k; dlia).
  assert (start + (off + w - 1) / 8 - p = k) as -> by (unfold p, k; lia).
  rewrite (proj2 (Z.leb_le k 7)) by lia. cbn [assert mbind outcome_bind].
  unfold read_mem. rewrite (proj2 (Z.leb_le 0 p)), (proj2 (Z.leb_le _ _)) by lia. cbn [andb mbind outcome_bind].
  rewrite le_decode_slice by (done || lia). rewrite !Z2Nat.id by lia.
  rewrite Z.shiftr_div_pow2 by dlia.
  set (value := _ mod _ / _).
  assert (Hval : value mod 2 ^ w = bits_at mem (8 * start + off) w).
  { unfold value, bits_at. change 256 with (2 ^ 8). rewrite <-!Z.pow_mul_r by lia.
    pose proof (Z.mod_pos_bound off 8 ltac:(lia)) as Hm. set (r := off mod 8) in *.
    assert (Hpos : 8 * start + off = 8 * p + r) by (unfold p, r; dlia). rewrite Hpos.
    rewrite Z.pow_add_r by lia. rewrite <-Z.div_div by (first [apply Z.pow_pos_nonneg; lia | pose proof (Z.pow_pos_nonneg 2 (8 * p)); lia]). set (N := le_decode mem / 2 ^ (8 * p)).
    replace (2 ^ (8 * (k + 1))) with (2 ^ r * 2 ^ (8 * (k + 1) - r)) by (rewrite <-Z.pow_add_r by lia; f_equal; lia).
    rewrite mod_mul_div by (apply Z.pow_pos_nonneg; lia).
    replace (2 ^ (8 * (k + 1) - r)) with (2 ^ w * 2 ^ (8 * (k + 1) - r - w)) by (rewrite <-Z.pow_add_r by lia; f_equal; lia).
    apply mod_mul_mod; apply Z.pow_pos_nonneg; lia. }
  assert (Hv64 : 0 <= value < 2 ^ 64).
  { unfold value. assert (256 ^ (k + 1) <= 2 ^ 64) by (change (2 ^ 64) with (256 ^ 8); apply Z.pow_le_mono_r; lia).
    pose proof (Z.mod_pos_bound (le_decode mem / 256 ^ p) (256 ^ (k + 1)) ltac:(lia)).
    assert (0 < 2 ^ (off mod 8)) by (apply Z.pow_pos_nonneg; dlia).
    split; [apply Z.div_pos; lia|]. apply Z.div_lt_upper_bound; [lia|]. nia. }
  clearbody value. rewrite <-Hval.
  assert (signed w (value mod 2 ^ w) = signExtendLL value w) as Hsig.
  { rewrite signExtendLL_signed by lia. apply signed_unsigned. lia. }
  assert (value mod 2 ^ w = zeroExtendLL value w) as Hun by (by rewrite zeroExtendLL_unsigned by lia).
  rewrite Hsig, Hun. destruct (ta_type a); done.
Qed.

Lemma extraction_returns_the_bits_witness :
  extractDataFromBitField [0; 0xa5; 0x3c] (mkAttr (Some "b") TY_SHORT None None TMPL_AFS_DEFAULT false None None VNone 4 0) 0 13 7 =
  Done (with_value (mkAttr (Some "b") TY_SHORT None None TMPL_AFS_DEFAULT false None None VNone 4 0) (VInt (-27))).
Proof.
  apply (extraction_returns_the_bits [0; 0xa5; 0x3c] (mkAttr (Some "b") TY_SHORT None None TMPL_AFS_DEFAULT false None None VNone 4 0) 0 13 7).
  - repeat constructor; unfold is_byte; lia.
  - unfold extractable. vm_compute. repeat split; discriminate.
  - reflexivity.
  - discriminate.
Defined.
