(* ===== verification/TmplInit.v ===== *)
(** * Initial values of attributes ([lib/template/template.c])

    The values of a template's source: numbers, strings and lists of them.  Converting a
    value to the type of an attribute is C's conversion between arithmetic types; a real
    number that an integer cannot hold is undefined behaviour. *)
From Stdlib Require Import SpecFloat.
From S2P Require Import Prelude NvPairs LogRecord QEvaluate LogSink RecPack Format Conv Tmpl.

(** ** The state of the parser *)

Record tmpl_struct_ref_t := mkSref { sr_path : str; sr_template : template; sr_used : bool }.
(** [pc_template] is the template under construction; [pc_errors] counts the errors before
    there is one; [typedefs] and [imports] are the lists of these names.  [ps_messages] is
    what has been written to [pc_errfile]. *)
Record parser := mkParser {
  pc_template : option template;
  pc_errors : Z;
  typedefs : list tmpl_attribute;
  imports : list tmpl_struct_ref_t;
  ps_store : store;
  ps_messages : list str
}.
Definition set_template (t : template) (p : parser) : parser :=
  mkParser (Some t) (pc_errors p) (typedefs p) (imports p) (ps_store p) (ps_messages p).
Definition set_typedefs (l : list tmpl_attribute) (p : parser) : parser :=
  mkParser (pc_template p) (pc_errors p) l (imports p) (ps_store p) (ps_messages p).
Definition set_imports (l : list tmpl_struct_ref_t) (p : parser) : parser :=
  mkParser (pc_template p) (pc_errors p) (typedefs p) l (ps_store p) (ps_messages p).
Definition set_store (s : store) (p : parser) : parser :=
  mkParser (pc_template p) (pc_errors p) (typedefs p) (imports p) s (ps_messages p).

(** A step of the parser returns a value, or [None] for the status -1, or is stopped. *)
Definition parsing (A : Type) : Type := parser -> outcome (option A * parser).
#[export] Instance parsing_ret : MRet parsing := fun A a p => Done (Some a, p).
#[export] Instance parsing_bind : MBind parsing := fun A B f x p =>
  match x p with
  | Done (Some a, p) => f a p
  | Done (None, p) => Done (None, p)
  | Fault e => Fault e
  end.
Definition failed {A} : parsing A := fun p => Done (None, p).
Definition get : parsing parser := fun p => Done (Some p, p).
Definition modify (f : parser -> parser) : parsing unit := fun p => Done (Some tt, f p).
Definition lift {A} (o : outcome A) : parsing A := fun p => match o with Done a => Done (Some a, p) | Fault e => Fault e end.
(** What works on the store of dimensions and delimiters. *)
Definition with_store {A} (f : store -> outcome (A * store)) : parsing A := fun p =>
  match f (ps_store p) with Done (a, s) => Done (Some a, set_store s p) | Fault e => Fault e end.

Definition or_tm_flags (f : Z) (t : template) : template :=
  set_state t (set_tm_flags (set_flag (tm_flags (tm_state t)) f) (tm_state t)).
(** The message is cut to the 200 bytes of [errbuf]. *)
Definition semanticError (msg : str) : parsing unit := fun p =>
  let messages := ps_messages p ++ [String.substring 0 199 msg] in
  Done (Some tt,
    match pc_template p with
    | Some t => mkParser (Some (or_tm_flags TMPL_TF_ERROR t)) (pc_errors p) (typedefs p) (imports p) (ps_store p) messages
    | None => mkParser None (pc_errors p + 1) (typedefs p) (imports p) (ps_store p) messages
    end).
(** [semanticError(...); return -1;] *)
Definition error {A} (msg : str) : parsing A := _ ← semanticError msg; failed.
(** [%s] of a pointer that can be null. *)
Definition text (s : option str) : str := default "(null)"%string s.

(** ** Values *)

(** The values that the grammar makes have the types [TY_LONG], [TY_ULONG], [TY_DOUBLE],
    [TY_STRING], [TY_WSTRING] and [TY_LIST]. *)
Inductive tmpl_type_and_value := mkTv { tv_type : base_type; tv_value : tmpl_value tmpl_type_and_value }.
Definition val_list (tv : tmpl_type_and_value) : list tmpl_type_and_value := match tv_value tv with VList l => l | _ => [] end.
Definition type_name (ty : base_type) : str :=
  match list_find (fun ti => ti_type ti = ty) _evlTmplTypeInfo with Some (_, ti) => ti_name ti | None => text None end.
Definition cantAssign (valType varType : base_type) : parsing unit :=
  semanticError ("Cannot assign " ++ type_name valType ++ " to " ++ type_name varType)%string.

(** *** Conversions between arithmetic types *)

Definition encode_double (f : spec_float) : Z :=
  match f with
  | S754_zero s => Z.shiftl (b2z s) 63
  | S754_infinity s => Z.lor (Z.shiftl (b2z s) 63) (Z.shiftl 2047 52)
  | S754_nan => Z.shiftl 4095 51
  | S754_finite s m e =>
      Z.lor (Z.shiftl (b2z s) 63) (if Z.pos m <? 2 ^ 52 then Z.pos m else Z.lor (Z.shiftl (e + 1075) 52) (Z.pos m - 2 ^ 52))
  end.
Definition double_of_int (z : Z) : list Z := le_encode 8 (encode_double (binary_normalize 53 1024 z 0 false)).
Definition float_of_int (z : Z) : list Z := le_encode 4 (encode_float (binary_normalize 24 128 z 0 false)).
(** Every 64-bit integer is exact; the last six bytes are padding. *)
Definition ldouble_of_int (z : Z) : list Z :=
  (if z =? 0 then replicate 10 0
   else le_encode 8 (Z.abs z * 2 ^ (63 - Z.log2 (Z.abs z))) ++ le_encode 2 (b2z (z <? 0) * 2 ^ 15 + 16383 + Z.log2 (Z.abs z)))
  ++ replicate 6 0.
(** The integer part of a [double], if it is a number. *)
Definition trunc_double (bs : list Z) : option Z :=
  let bits := le_decode bs in
  let frac := bits mod 2 ^ 52 in
  let e := bits / 2 ^ 52 mod 2 ^ 11 in
  let m := if e =? 0 then frac else 2 ^ 52 + frac in
  let z := Z.shiftl m (Z.max e 1 - 1075) in
  if e =? 2047 then None else Some (if Z.testbit bits 63 then - z else z).
(** [(t) value] for an integer type [t]. *)
Definition wrap_int (ty : base_type) (z : Z) : Z :=
  match ty with
  | TY_CHAR => s8 z
  | TY_UCHAR => u8 z
  | TY_SHORT => s16 z
  | TY_USHORT => u16 z
  | TY_INT | TY_WCHAR => s32 z
  | TY_UINT => u32 z
  | TY_LONG | TY_LONGLONG => s64 z
  | _ => u64 z
  end.
Definition cast_to_int {T} (ty : base_type) (v : tmpl_value T) : outcome Z :=
  match v with
  | VInt z => Done (wrap_int ty z)
  | VReal bs =>
      match trunc_double bs with
      | Some z => if z =? wrap_int ty z then Done z else Fault Undefined
      | None => Fault Undefined
      end
  | _ => Fault Undefined
  end.
Definition cast_to_real {T} (ty : base_type) (v : tmpl_value T) : outcome (list Z) :=
  match v, ty with
  | VInt z, TY_FLOAT => Done (float_of_int z)
  | VInt z, TY_DOUBLE => Done (double_of_int z)
  | VInt z, _ => Done (ldouble_of_int z)
  | VReal bs, TY_FLOAT => Done (double_to_float bs)
  | VReal bs, TY_DOUBLE => Done bs
  | VReal bs, _ => Done (ldouble_of_double bs ++ replicate 6 0)
  | _, _ => Fault Undefined
  end.

(** The types of numbers that [ASSIGN_NUMBER] and [COPY_NUMBER] know; a long double never
    comes from the grammar. *)
Definition is_number (ty : base_type) : bool :=
  match ty with TY_LONG | TY_ULONG | TY_LONGLONG | TY_ULONGLONG | TY_DOUBLE => true | _ => false end.
(** The value as a value of the attribute's type: the numbers of both functions. *)
Definition convert_number (attType : base_type) (val : tmpl_type_and_value) : parsing (tmpl_value template) :=
  let valType := tv_type val in
  let cant := _ ← cantAssign valType attType; failed in
  match attType with
  | TY_FLOAT | TY_DOUBLE | TY_LDOUBLE =>
      if is_number valType then bs ← lift (cast_to_real attType (tv_value val)); mret (VReal bs) else cant
  | TY_ADDRESS =>
      match valType with
      | TY_LONG | TY_ULONG => z ← lift (cast_to_int TY_ADDRESS (tv_value val)); mret (VInt z)
      | _ => cant
      end
  | TY_CHAR | TY_WCHAR | TY_UCHAR | TY_SHORT | TY_USHORT | TY_INT | TY_UINT | TY_LONG | TY_ULONG | TY_LONGLONG | TY_ULONGLONG =>
      if is_number valType then z ← lift (cast_to_int attType (tv_value val)); mret (VInt z) else cant
  | _ => cant
  end.
(** The value's bytes. *)
Definition stored_bytes (ty : base_type) (v : tmpl_value template) : list Z :=
  match v with
  | VInt z => le_encode (Z.to_nat (type_size ty)) z
  | VReal bs => take (Z.to_nat (type_size ty)) bs
  | _ => []
  end.

(** *** Scalars *)

(** The wide string in memory, with its terminator. *)
Definition wide_string (mem : list Z) : outcome (list Z) :=
  nwc ← reading (wcslen mem); Done (take (Z.to_nat ((nwc + 1) * WCSZ)) mem).
(** What is stored at [loc], an element of an array; strings are not stored like this. *)
Definition initScalarValue (attType : base_type) (val : tmpl_type_and_value) : parsing (list Z) :=
  v ← (if bool_decide (attType = tv_type val) then
         match tv_value val with VInt z => mret (VInt z) | VReal bs => mret (VReal bs) | _ => lift (Fault Undefined) end
       else convert_number attType val);
  mret (stored_bytes attType v).
(** A copy of the string or of the number; other values have no attributes of their type. *)
Definition initConstScalar (a : tmpl_attribute) (val : tmpl_type_and_value) : parsing tmpl_attribute :=
  let attType := ta_type a in
  if bool_decide (tv_type val = attType) then
    match tv_value val with
    | VInt z => mret (set_ta_value a (VInt z))
    | VReal bs => mret (set_ta_value a (VReal bs))
    | VString s => mret (set_ta_value a (VString s))
    | VWstring ws => ws ← lift (wide_string ws); mret (set_ta_value a (VWstring ws))
    | _ => lift (Fault Undefined)
    end
  else v ← convert_number attType val; mret (set_ta_value a v).

(** *** Arrays *)

Fixpoint initConstScalarArray (ty : base_type) (values : list tmpl_type_and_value) : parsing (list Z) :=
  match values with
  | [] => mret []
  | v :: values => bs ← initScalarValue ty v; rest ← initConstScalarArray ty values; mret (bs ++ rest)
  end.
(** The first value that is not of the type. *)
Fixpoint all_of_type (ty : base_type) (values : list tmpl_type_and_value) : parsing unit :=
  match values with
  | [] => mret tt
  | v :: values =>
      if bool_decide (tv_type v = ty) then all_of_type ty values else _ ← cantAssign (tv_type v) ty; failed
  end.
(** The strings one after the other, as in a record. *)
Definition initConstStringArray (stringList : list tmpl_type_and_value) : parsing (list Z) :=
  _ ← lift (assert (negb (bool_decide (stringList = []))));
  _ ← all_of_type TY_STRING stringList;
  mret (concat (map (fun tv => match tv_value tv with VString s => bytes_of s ++ [0] | _ => [] end) stringList)).
Definition initConstWstringArray (stringList : list tmpl_type_and_value) : parsing (list Z) :=
  _ ← lift (assert (negb (bool_decide (stringList = []))));
  _ ← all_of_type TY_WSTRING stringList;
  l ← lift (mapM (fun tv => match tv_value tv with VWstring ws => wide_string ws | _ => Done [] end) stringList);
  mret (concat l).
