(* ===== verification/TmplCheck.v ===== *)
(** * Checking the attributes of a template ([lib/template/template.c], [bvfmt.c])

    The grammar of template files hands each attribute to [_evlTmplAddAttribute], which
    applies a typedef, checks name, type, dimension, initializer, delimiter, format and
    alignment, and appends it to the template under construction. *)
From S2P Require Import Prelude NvPairs LogRecord QEvaluate LogSink RecPack Format Conv Tmpl TmplPop TmplInit.

(** ** Value and bit formats ([bvfmt.c]) *)

Definition ispunct (c : ascii) : bool :=
  let z := chr c in ((33 <=? z) && (z <=? 126)) && negb (isalpha c) && negb (is_digit c).
(** The substrings that end with the delimiter, and what is behind the last one. *)
Fixpoint split_at (delim : ascii) (cur s : str) : list str * str :=
  match s with
  | EmptyString => ([], cur)
  | String c s =>
      if Ascii.eqb c delim then let '(l, rest) := split_at delim EmptyString s in (cur :: l, rest)
      else split_at delim (cur ++ String c EmptyString)%string s
  end.
Definition parseBorVformat (s : str) (bvFmtAlone : bool) (fmtChar : str) : parsing (list str) :=
  let illegal (c : str) := error ("Illegal delimiter for %" ++ fmtChar ++ " format: '" ++ c ++ "'")%string in
  match s with
  | EmptyString => illegal EmptyString
  | String delim s =>
      if negb (ispunct delim) then illegal (String delim EmptyString)
      else
        let '(l, rest) := split_at delim EmptyString s in
        if bvFmtAlone && negb (bool_decide (rest = EmptyString)) then
          error ("%" ++ fmtChar ++ " format does not end with '" ++ String delim EmptyString ++ "' delimiter")%string
        else if bool_decide (l = []) || negb (length l mod 2 =? 0)%nat then
          error ("%" ++ fmtChar ++ " format must have an even number of elements")%string
        else mret l
  end.

(** [strtol(s, &ends, 0)] *)
Definition strtol0 (s : str) : Z * str :=
  let s1 := skip_spaces s in
  let '(neg, s2) :=
    match s1 with
    | String "-"%char r => (true, r)
    | String "+"%char r => (false, r)
    | _ => (false, s1)
    end in
  match s2 with
  | String c _ =>
      if is_digit c then
        let '(v, rest) := strtoul s2 0 in
        (if neg then Z.max (- v) (- 2 ^ 63) else Z.min v (2 ^ 63 - 1), rest)
      else (0, s)
  | EmptyString => (0, s)
  end.

Fixpoint collect_values (pairs : list str) (done : list tmpl_bitmap) : parsing (list tmpl_bitmap) :=
  match pairs with
  | s :: name :: pairs =>
      if bool_decide (s = EmptyString) then error "Missing value in %v value/name pair"
      else
        let '(val, ends) := strtol0 s in
        if negb (bool_decide (ends = EmptyString)) then error ("Bad value in %v value/name pair: " ++ s)%string
        else if existsb (fun b => bm_1bits b =? val) done then
          error ("Duplicate value in %v list: " ++ pretty (s32 val) ++ String (of_chr 10) EmptyString)%string
        else collect_values pairs (done ++ [mkBitmap val (Z.lnot val) name])
  | _ => mret done
  end.
(** [fmt] begins with [%v]. *)
Definition _evlTmplCollectVformat (fmt : str) (vFmtOnly : bool) : parsing (list tmpl_bitmap) :=
  _ ← lift (assert (starts_with "%v" fmt));
  l ← parseBorVformat (skip 2 fmt) vFmtOnly "v";
  collect_values l [].

Definition all_in (set s : str) : bool := forallb (fun c => bool_decide (is_Some (strchr set c))) (String.list_ascii_of_string s).
(** The bits that must be one and those that must be zero, behind [0b]. *)
Definition add_bit (acc : Z * Z) (c : ascii) : Z * Z :=
  let '(ones, zeros) := acc in
  (u64 (2 * ones) + b2z (Ascii.eqb c "1"), u64 (2 * zeros) + b2z (Ascii.eqb c "0")).
Definition bitmap_bits (bitmap : str) : parsing (Z * Z) :=
  let b := match bitmap with String "0"%char b => b | _ => bitmap end in
  match b with
  | String c b =>
      if Ascii.eqb c "x" || Ascii.eqb c "X" then
        let '(oneBits, ends) := strtoul b 16 in
        if negb (bool_decide (ends = EmptyString)) || bool_decide (b = EmptyString)
           || negb (all_in "0123456789abcdefABCDEF" b)
        then error ("Bad hex value in %b format: " ++ bitmap)%string
        else mret (oneBits, 0)
      else if Ascii.eqb c "b" || Ascii.eqb c "B" then
        if bool_decide (b = EmptyString) || negb (all_in "01xX" b) then error ("Bad bitmap in %b format: " ++ bitmap)%string
        else mret (foldl add_bit (0, 0) (String.list_ascii_of_string b))
      else error ("Bad bitmap in %b format: " ++ bitmap)%string
  | EmptyString => error ("Bad bitmap in %b format: " ++ bitmap)%string
  end.
Definition DQUOTE : str := String (of_chr 34) EmptyString.
Fixpoint collect_bitmaps (pairs : list str) (done : list tmpl_bitmap) : parsing (list tmpl_bitmap) :=
  match pairs with
  | bitmap :: name :: pairs =>
      if bool_decide (bitmap = EmptyString) then error "Missing bitmap in %b format"
      else
        '(oneBits, zeroBits) ← bitmap_bits bitmap;
        if negb (bool_decide (pairs = [])) && (Z.lor oneBits zeroBits =? 0) then
          error ("Bitmap for " ++ name ++ " matches all values but is not last")%string
        else match list_find (fun b => bm_1bits b = s64 oneBits /\ bm_0bits b = s64 zeroBits) done with
        | Some (_, b) => error ("Bitmaps for " ++ DQUOTE ++ bm_name b ++ DQUOTE ++ " and " ++ DQUOTE ++ name ++ DQUOTE ++ " are the same")%string
        | None => collect_bitmaps pairs (done ++ [mkBitmap (s64 oneBits) (s64 zeroBits) name])
        end
  | _ => mret done
  end.
Definition _evlTmplCollectBformat (fmt : str) (bFmtOnly : bool) : parsing (list tmpl_bitmap) :=
  _ ← lift (assert (starts_with "%b" fmt));
  l ← parseBorVformat (skip 2 fmt) bFmtOnly "b";
  collect_bitmaps l [].

(** ** Names and types *)

(** What the source says of a type: the name of a struct or of a typedef. *)
Inductive type_ref := NoRef | st_name (s : str) | td_name (s : str).

Definition findTypedef (name : str) : parsing (option tmpl_attribute) := p ← get; mret (find_named (typedefs p) name).
(** [template == NULL] for a typedef. *)
Definition the_template (a : tmpl_attribute) : parsing (option template) :=
  p ← get; mret (if isTypedef a then None else pc_template p).
Definition need {A} (o : option A) : parsing A := lift (reading o).

Definition validateAttName (a : tmpl_attribute) : parsing unit :=
  match ta_name a with
  | None => lift (assert (isBitField a))
  | Some name =>
      if negb (_evlGetValueByName _evlAttributes name (-1) =? -1) then error ("Reserved name: " ++ name)%string
      else if streqb name "_R_" || streqb name "_PREFIX3_" then error ("Reserved name: " ++ name)%string
      else if isTypedef a then
        td ← findTypedef name;
        match td with Some _ => error ("typedef name already in use: " ++ name)%string | None => mret tt end
      else
        t ← the_template a; t ← need t;
        match _evlTmplFindAttribute t name with
        | Some _ => error ("Attribute name already in use: " ++ name)%string
        | None => mret tt
        end
  end.

(** The struct's template by its path: among the imports, or by [import], which reads a
    file of the source's directory. *)
Definition has_slash (s : str) : bool := bool_decide (is_Some (strchr s "/"%char)).
Fixpoint after_last_slash (s : str) : str :=
  match s with
  | EmptyString => EmptyString
  | String c s => if has_slash s then after_last_slash s else if Ascii.eqb c "/" then s else after_last_slash s
  end.
(** The first import with this path, or else the last one that ends with the name. *)
Fixpoint best_import (structPath : str) (best : option nat) (i : nat) (l : list tmpl_struct_ref_t) : option nat :=
  match l with
  | [] => best
  | sref :: l =>
      if streqb (sr_path sref) structPath then Some i
      else
        let hit := negb (has_slash structPath) && has_slash (sr_path sref) && streqb (after_last_slash (sr_path sref)) structPath in
        best_import structPath (if hit then Some i else best) (S i) l
  end.
Definition use_import (i : nat) (l : list tmpl_struct_ref_t) : list tmpl_struct_ref_t :=
  alter (fun sref => mkSref (sr_path sref) (sr_template sref) true) i l.

Section Files.
(** [_evlImportTemplateFromPaths(_evlTmplGetSourceDir(), structPath, TMPL_IMPORT_IMPLICIT)] *)
Variable import : str -> parsing (option template).

Definition _evlFindStructTemplate (structPath : str) : parsing (option template) :=
  p ← get;
  match best_import structPath None 0 (imports p) with
  | Some i =>
      _ ← modify (set_imports (use_import i (imports p)));
      sref ← need (imports p !! i); mret (Some (sr_template sref))
  | None => if has_slash structPath then mret None else import structPath
  end.

Definition set_ta_type (a : tmpl_attribute) (ty : base_type) (st : option template) : tmpl_attribute :=
  mkAttr (ta_name a) ty st (ta_dimension a) (ta_format a) (af_shared a) (ta_delimiter a) (ta_rawdata a) (ta_value a)
    (ta_flags a) (ta_index a).
Definition flag_template (f : Z) : parsing unit :=
  p ← get; match pc_template p with Some t => modify (set_template (or_tm_flags f t)) | None => mret tt end.
Definition tm_has (t : template) (f : Z) : bool := has (tm_flags (tm_state t)) f.

Definition validateAttType (u : type_ref) (a : tmpl_attribute) : parsing tmpl_attribute :=
  if isBitField a && negb (isIntegerAtt a) then error ("Bit-field " ++ default EmptyString (ta_name a) ++ " must be integer.")%string
  else
    a ← (if bool_decide (ta_type a = TY_STRUCTNAME) then
           structName ← need (match u with st_name s => Some s | _ => None end);
           st ← _evlFindStructTemplate structName;
           match st with
           | None => error ("Cannot find template for struct " ++ structName)%string
           | Some st => mret (set_ta_type a TY_STRUCT (Some st))
           end
         else mret a);
    template ← the_template a;
    match template, isStruct a, ta_struct a with
    | Some template, true, Some st =>
        _ ← (if tm_has st TMPL_TF_EATSALL then flag_template TMPL_TF_EATSALL else mret tt);
        if tm_has st TMPL_TF_IMPLDIM then
          if isStructTmpl template then _ ← flag_template TMPL_TF_IMPLDIM; mret a
          else if negb (isConstAtt a) then
            error ("struct attribute " ++ text (ta_name a) ++ " is not const but contains array(s) with implied dimension(s).")%string
          else mret a
        else mret a
    | _, _, _ => mret a
    end.

(** ** Dimensions and bit-fields *)

Definition set_dim (a : tmpl_attribute) (ty : tmpl_dimension_type) (n : Z) (d : tmpl_dimension) : tmpl_attribute :=
  set_ta_dimension a (Some (mkDim ty n (td_addr d))).
Definition put_dimension2 (d : tmpl_dimension) (n : Z) : parsing unit :=
  with_store (fun s => Done (tt, set_dimension2 s d n)).
(** The dimension of the attribute as it turns out, with whether it varies; for a const
    attribute that is an error. *)
Definition variable_dimension (a : tmpl_attribute) : parsing tmpl_attribute :=
  if isConstAtt a then error ("Const attribute " ++ text (ta_name a) ++ " cannot have variable dimension")%string
  else mret a.
Definition const_dimension (a : tmpl_attribute) : parsing tmpl_attribute :=
  match ta_dimension a with
  | Some d => if isConstAtt a then _ ← put_dimension2 d (td_dimension d); mret a else mret a
  | None => mret a
  end.
(** The attribute [dimAttName] as a dimension. *)
Definition dimension_by_name (a : tmpl_attribute) (d : tmpl_dimension) (dimAttName : str) : parsing tmpl_attribute :=
  let subscript := (text (ta_name a) ++ "[" ++ dimAttName ++ "]")%string in
  if isTypedef a then error ("typedef's dimension cannot be an attribute name: " ++ subscript)%string
  else
    t ← the_template a; t ← need t;
    match _evlTmplFindAttribute t dimAttName with
    | None => error ("Unknown dimension attribute: " ++ dimAttName)%string
    | Some dimAtt =>
        if negb (isIntegerAtt dimAtt) then error ("Dimension attribute must be integer: " ++ dimAttName)%string
        else if isConstAtt dimAtt then
          n ← lift (getDimensionFromAttribute dimAtt);
          if n <=? 0 then error ("Dimension must be positive: " ++ subscript)%string
          else const_dimension (set_dim a TMPL_DIM_CONST n d)
        else if bool_decide (split_dot dimAttName = None) then
          variable_dimension (set_dim a (TMPL_DIM_ATTR (ta_index dimAtt)) (-1) d)
        else variable_dimension a
    end.
Definition validateAttDimension (a : tmpl_attribute) : parsing tmpl_attribute :=
  match ta_dimension a with
  | None => mret a
  | Some d =>
      if isBitField a then mret a
      else match td_type d with
      | TMPL_DIM_CONST =>
          if td_dimension d <=? 0 then error ("Dimension must be positive: " ++ text (ta_name a))%string
          else const_dimension a
      | TMPL_DIM_IMPLIED =>
          if negb (isTypedef a) && negb (isConstAtt a) then
            t ← the_template a; _ ← lift (assert (bool_decide (is_Some t))); t ← need t;
            if negb (isStructTmpl t) then
              error ("Cannot infer dimension for non-const attribute " ++ text (ta_name a))%string
            else
              _ ← flag_template TMPL_TF_IMPLDIM;
              mret (set_ta_flags a (set_flag (ta_flags a) EVL_ATTR_IMPLDIM))
          else mret a
      | TMPL_DIM_REST =>
          _ ← (if isTypedef a then mret tt else flag_template TMPL_TF_EATSALL);
          variable_dimension a
      | TMPL_DIM_ATTNAME dimAttName =>
          if streqb dimAttName "_R_" then
            _ ← (if isTypedef a then mret tt else flag_template TMPL_TF_EATSALL);
            variable_dimension (set_dim a TMPL_DIM_REST (-1) d)
          else if streqb dimAttName "_PREFIX3_" then variable_dimension (set_dim a TMPL_DIM_PREFIX3 (-1) d)
          else dimension_by_name a d dimAttName
      | _ => lift (Fault AssertFailed)
      end
  end.

Definition validateAttBitField (a : tmpl_attribute) : parsing unit :=
  _ ← lift (assert (isBitField a));
  d ← need (ta_dimension a);
  let maxBits := CHAR_BIT * type_size (ta_type a) in
  if maxBits <? td_dimension d then
    error ("Bit-field " ++ default EmptyString (ta_name a) ++ " cannot exceed " ++ pretty maxBits ++ " bits")%string
  else if (td_dimension d =? 0) && bool_decide (is_Some (ta_name a)) then error "Zero-length bit-field cannot be named"
  else mret tt.

(** ** Initializers *)

(** -2 is [None]. *)
Definition handleConstStructAtt (a : tmpl_attribute) (val : option tmpl_type_and_value) : parsing (option tmpl_attribute) :=
  if negb (isStruct a) then mret None
  else
    master ← need (ta_struct a);
    if negb (isConstStructTmpl master) then mret None
    else if negb (isConstAtt a) then
      error ("Non-const attribute " ++ text (ta_name a) ++ " cannot be a const struct" ++ String (of_chr 10) EmptyString)%string
    else match val with
    | Some _ =>
        error ("Attribute " ++ text (ta_name a) ++ ": cannot re-initialize const struct " ++ tm_name (tm_static master)
               ++ String (of_chr 10) EmptyString)%string
    | None =>
        if isArray a then
          error ("Attribute " ++ text (ta_name a) ++ ": arrays of const structs not supported" ++ String (of_chr 10) EmptyString)%string
        else mret (Some (set_ta_value a (VStruct master)))
    end.

Section Init.
(** [initStructAtt] of the structs inside. *)
Variable init : tmpl_attribute -> tmpl_type_and_value -> parsing template.

Fixpoint initConstStructArray (a : tmpl_attribute) (initializers : list tmpl_type_and_value) : parsing (list template) :=
  match initializers with
  | [] => mret []
  | val :: l => st ← init a val; rest ← initConstStructArray a l; mret (st :: rest)
  end.
(** The dimension of an array that takes as many elements as there are values. *)
Definition fix_dimension (a : tmpl_attribute) (d : tmpl_dimension) (nVals : Z) : parsing (tmpl_attribute * Z) :=
  match td_type d with
  | TMPL_DIM_IMPLIED => _ ← put_dimension2 d nVals; mret (set_dim a TMPL_DIM_CONST nVals d, nVals)
  | TMPL_DIM_CONST => mret (a, td_dimension d)
  | _ => lift (Fault AssertFailed)
  end.
Definition init_array (a : tmpl_attribute) (d : tmpl_dimension) (val : tmpl_type_and_value) : parsing tmpl_attribute :=
  if negb (bool_decide (tv_type val = TY_LIST)) then error ("Array " ++ text (ta_name a) ++ " requires initializer list")%string
  else
    let values := val_list val in
    let nVals := Z.of_nat (length values) in
    '(a, nElements) ← fix_dimension a d nVals;
    if negb (nElements =? nVals) then error ("Wrong number of initializers for array " ++ text (ta_name a))%string
    else match ta_type a with
    | TY_STRING => mem ← initConstStringArray values; mret (set_ta_value a (VArray true mem))
    | TY_WSTRING => mem ← initConstWstringArray values; mret (set_ta_value a (VArray true mem))
    | TY_STRUCT => l ← initConstStructArray a values; if bool_decide (l = []) then failed else mret (set_ta_value a (VList l))
    | ty => mem ← initConstScalarArray ty values; mret (set_ta_value a (VArray true mem))
    end.
(** A list of one value is that value. *)
Definition init_single (a : tmpl_attribute) (val : tmpl_type_and_value) : parsing tmpl_attribute :=
  val ← (if bool_decide (tv_type val = TY_LIST) then
           match val_list val with
           | [val] => mret val
           | _ => _ ← cantAssign TY_LIST (ta_type a); failed
           end
         else mret val);
  initConstScalar a val.
Definition validateAttInitializer (a : tmpl_attribute) (val : option tmpl_type_and_value) : parsing tmpl_attribute :=
  status ← handleConstStructAtt a val;
  match status with
  | Some a => mret a
  | None =>
      if isConstAtt a then
        match val with
        | None => error ("Const attribute " ++ text (ta_name a) ++ " must be initialized")%string
        | Some val =>
            match (if isArray a then ta_dimension a else None) with
            | Some d => init_array a d val
            | None => if isStruct a then st ← init a val; mret (set_ta_value a (VStruct st)) else init_single a val
            end
        end
      else match val with
      | None => mret a
      | Some _ =>
          if isTypedef a then error ("typedef  " ++ text (ta_name a) ++ " cannot be initialized")%string
          else error ("Non-const attribute " ++ text (ta_name a) ++ " cannot be initialized")%string
      end
  end.

(** The members that are not const take the values, one after the other, and become const. *)
Fixpoint init_members (l : list tmpl_attribute) (values : list tmpl_type_and_value) : parsing (list tmpl_attribute) :=
  match l with
  | [] => mret []
  | member :: l =>
      if isConstAtt member then rest ← init_members l values; mret (member :: rest)
      else
        v ← need (head values);
        let member := set_ta_flags member (set_flag (ta_flags member) (set_flag EVL_ATTR_CONST EVL_ATTR_EXISTS)) in
        member ← validateAttInitializer member (Some v);
        rest ← init_members l (tail values); mret (member :: rest)
  end.
Definition init_struct_body (statt : tmpl_attribute) (val : tmpl_type_and_value) : parsing template :=
  if negb (bool_decide (tv_type val = TY_LIST)) then error ("Struct " ++ text (ta_name statt) ++ " requires initializer list")%string
  else
    master ← need (ta_struct statt);
    let nAtt := length (filter (fun m => isConstAtt m = false) (tm_attributes master)) in
    let nVal := length (val_list val) in
    if negb (nAtt =? nVal)%nat then
      error ("Struct " ++ text (ta_name statt) ++ " requires " ++ pretty nAtt ++ " initializers, but " ++ pretty nVal ++ " provided")%string
    else
      clone ← with_store (_evlCloneTemplate master);
      atts ← init_members (tm_attributes clone) (val_list val);
      mret (or_tm_flags TMPL_TF_POPULATED (set_attributes clone atts)).
End Init.

(** How deep the lists of values are nested. *)
Fixpoint tv_depth (tv : tmpl_type_and_value) : nat :=
  match tv with
  | mkTv _ (VList l) => S (max_list_with tv_depth l)
  | _ => 1
  end.
(** Each struct has a list of its own: [tv_depth] is enough fuel. *)
Fixpoint initStructAtt (fuel : nat) (statt : tmpl_attribute) (val : tmpl_type_and_value) : parsing template :=
  match fuel with
  | O => lift (Fault OutOfFuel)
  | S fuel => init_struct_body (initStructAtt fuel) statt val
  end.
Definition initialize (a : tmpl_attribute) (val : option tmpl_type_and_value) : parsing tmpl_attribute :=
  validateAttInitializer (initStructAtt (match val with Some v => tv_depth v | None => O end)) a val.

(** ** Delimiters *)

Definition set_delim (a : tmpl_attribute) (ty : tmpl_delim_type) (d : tmpl_delimiter) : tmpl_attribute :=
  set_ta_delimiter a (Some (mkDelim ty (de_addr d))).
Definition variable_delimiter (a : tmpl_attribute) : parsing tmpl_attribute :=
  if isConstAtt a then error ("Const attribute " ++ text (ta_name a) ++ " cannot have variable delimiter")%string else mret a.
Definition validateAttDelimiter (a : tmpl_attribute) : parsing tmpl_attribute :=
  match ta_delimiter a with
  | None => mret a
  | Some de =>
      if negb (isArray a) then error ("Cannot specify a delimiter for scalar " ++ text (ta_name a))%string
      else match de_type de with
      | TMPL_DELIM_CONST _ => mret a
      | TMPL_DELIM_ATTNAME delimAttName =>
          if isTypedef a then
            error ("typedef's delimiter cannot be an attribute name: " ++ text (ta_name a) ++ ", " ++ delimAttName)%string
          else
            t ← the_template a; t ← need t;
            match _evlTmplFindAttribute t delimAttName with
            | None => error ("Unknown delimiter attribute: " ++ delimAttName)%string
            | Some delimAtt =>
                if negb (bool_decide (ta_type delimAtt = TY_STRING)) || isArray delimAtt then
                  error ("Delimiter attribute must be a string: " ++ delimAttName)%string
                else if isConstAtt delimAtt then
                  s ← need (match ta_value delimAtt with VString s => Some s | _ => None end);
                  mret (set_delim a (TMPL_DELIM_CONST s) de)
                else if bool_decide (split_dot delimAttName = None) then
                  variable_delimiter (set_delim a (TMPL_DELIM_ATTR (ta_index delimAtt)) de)
                else variable_delimiter a
            end
      | _ => lift (Fault AssertFailed)
      end
  end.

(** ** Formats *)

Definition ends_with (s suffix : str) : bool :=
  (String.length suffix <=? String.length s)%nat
  && streqb (String.substring (String.length s - String.length suffix) (String.length suffix) s) suffix.
(** [None] is -1. *)
Definition stripParens (s : str) : option str :=
  if starts_with "(" s && ends_with s ")" then Some (String.substring 1 (String.length s - 2) s) else None.

(** The number of characters of the conversion; -1: it is none; -2: not one for the type. *)
Definition validateScalarFormat (s : str) (attType : base_type) : outcome Z :=
  r ← reading (_evlParseFmtConvSpec (block s));
  match r with
  | None => Done (-1)
  | Some pf =>
      if fm_array pf then Done (-1)
      else
        let fmtType := _evlGetTypeFromConversion pf true false in
        let attSize := type_size attType in
        let fmtSize := type_size fmtType in
        let intSize := type_size TY_INT in
        if bool_decide (fmtType = TY_NONE) then Done (-1)
        else if (bool_decide (fmtType = TY_STRING) && negb (bool_decide (attType = TY_STRING)))
                || (bool_decide (fmtType = TY_WSTRING) && negb (bool_decide (attType = TY_WSTRING))) then Done (-2)
        else if (attSize =? fmtSize)
                || (bool_decide (attType = TY_FLOAT) && bool_decide (fmtType = TY_DOUBLE))
                || ((attSize <? intSize) && (fmtSize =? intSize)) then Done (fm_length pf)
        else Done (-2)
  end.
(** Whether the format is that of a string, for an array of characters. *)
Definition formatCharArrAsString (a : tmpl_attribute) (fstr : str) : outcome bool :=
  match ta_type a with
  | TY_CHAR | TY_UCHAR | TY_WCHAR =>
      match fstr with
      | String "%"%char conv =>
          r ← reading (_evlParseFmtConvSpec (block conv));
          Done match r with
               | None => false
               | Some pf =>
                   if negb (fm_length pf =? strlen conv) then false
                   else
                     let conv_is (c : ascii) (m : str) := Ascii.eqb (fm_conversion pf) c && streqb (fm_modifier pf) m in
                     match ta_type a with TY_WCHAR => conv_is "S"%char EmptyString || conv_is "s"%char "l"%string | _ => conv_is "s"%char EmptyString end
               end
      | _ => Done false
      end
  | _ => Done false
  end.
Definition set_format (a : tmpl_attribute) (f : tmpl_att_fmt) (shared : bool) : tmpl_attribute :=
  mkAttr (ta_name a) (ta_type a) (ta_struct a) (ta_dimension a) f shared (ta_delimiter a) (ta_rawdata a) (ta_value a)
    (ta_flags a) (ta_index a).

(** What the loop over the format of an array has found. *)
Record iz_state := mkIz { iz_format : str; iz_order : str; foundI : bool; foundZ : bool; foundS : bool }.
Definition iz_text (s : str) (z : iz_state) : iz_state :=
  mkIz (iz_format z ++ s)%string (iz_order z) (foundI z) (foundZ z) (foundS z).
(** [c] is at a [%]: the text of this conversion and what is left of the format. *)
Definition array_conversion (a : tmpl_attribute) (c : str) (z : iz_state) : parsing (iz_state * str) :=
  let name := text (ta_name a) in
  match c with
  | EmptyString => error ("Format string for " ++ name ++ " ends with %")%string
  | String "%"%char c => mret (iz_text "%%" z, c)
  | String "I"%char c =>
      if foundI z then error ("Cannot specify %I more than once in format for array " ++ name)%string
      else mret (mkIz (iz_format z ++ "%d")%string (iz_order z ++ "I")%string true (foundZ z) (foundS z), c)
  | String "Z"%char c =>
      if foundZ z then error ("Cannot specify %Z more than once in format for array " ++ name)%string
      else if negb (isStruct a) then
        error ("Attribute " ++ name ++ " is not an array of structs, so %Z not permitted in format")%string
      else mret (mkIz (iz_format z ++ "%s")%string (iz_order z ++ "Z")%string (foundI z) true (foundS z), c)
  | _ =>
      if foundS z then error ("Too many conversion specifiers in format for " ++ name)%string
      else if isStruct a then
        error ("Attribute " ++ name ++ " is an array of structs, so %Z and %I are the only permitted conversion specifiers")%string
      else
        flen ← lift (validateScalarFormat c (ta_type a));
        if flen <? 0 then error ("Malformed or inappropriate format string for " ++ name)%string
        else
          let n := Z.to_nat flen in
          mret (mkIz (iz_format z ++ String PERCENT (String.substring 0 n c))%string (iz_order z ++ "S")%string
                  (foundI z) (foundZ z) true, skip n c)
  end.
(** [for (c = fstr; *c; c++)]; every round moves on, so the format's length is enough fuel. *)
Fixpoint scan_array_format (fuel : nat) (a : tmpl_attribute) (c : str) (z : iz_state) : parsing iz_state :=
  match c with
  | EmptyString => mret z
  | String d c =>
      match fuel with
      | O => lift (Fault OutOfFuel)
      | S fuel =>
          if Ascii.eqb d PERCENT then '(z, c) ← array_conversion a c z; scan_array_format fuel a c z
          else scan_array_format fuel a c (iz_text (String d EmptyString) z)
      end
  end.
(** An array format that is not that of a string. *)
Definition validate_element_format (a : tmpl_attribute) (fstr : str) : parsing tmpl_attribute :=
  z ← scan_array_format (String.length fstr) a fstr (mkIz EmptyString EmptyString false false false);
  if negb (foundZ z) && negb (foundS z) then error ("Incomplete format string for " ++ text (ta_name a))%string
  else if foundZ z || foundI z then mret (set_format a (TMPL_AFS_IZARRAY (iz_format z) (iz_order z)) (af_shared a))
  else mret (set_format a (TMPL_AFS_ARRAY (iz_format z) (iz_order z)) (af_shared a)).
Definition validate_array_format (a : tmpl_attribute) (fstr : str) : parsing tmpl_attribute :=
  match stripParens fstr with
  | None =>
      ok ← lift (formatCharArrAsString a fstr);
      if (ok : bool) then
        if bool_decide (is_Some (ta_delimiter a)) then
          error ("Cannot specify a delimiter for a char array " ++ text (ta_name a) ++ " with string-type format")%string
        else mret (set_format a (TMPL_AFS_CHARRSTR fstr) (af_shared a))
      else validate_element_format a fstr
  | Some fstr =>
      a ← (match ta_delimiter a with
           | Some _ => mret a
           | None =>
               de ← with_store (fun s => Done (alloc_delimiter s (TMPL_DELIM_CONST EmptyString) None));
               mret (set_ta_delimiter a (Some de))
           end);
      validate_element_format a fstr
  end.
Definition validate_scalar_format (a : tmpl_attribute) (fstr : str) : parsing tmpl_attribute :=
  if isStruct a then error ("Cannot specify format for struct attribute " ++ text (ta_name a))%string
  else if starts_with "%b" fstr then
    bmaps ← _evlTmplCollectBformat fstr true;
    if negb (isIntegerAtt a) then error ("Cannot use %b format with non-integer attribute " ++ text (ta_name a))%string
    else mret (set_format a (TMPL_AFS_BITMAP bmaps) (af_shared a))
  else if starts_with "%v" fstr then
    bmaps ← _evlTmplCollectVformat fstr true;
    if negb (isIntegerAtt a) then error ("Cannot use %v format with non-integer attribute " ++ text (ta_name a))%string
    else mret (set_format a (TMPL_AFS_VALNM bmaps) (af_shared a))
  else
    let malformed := error ("Malformed or inappropriate format string for " ++ text (ta_name a))%string in
    match fstr with
    | String "%"%char s =>
        (* -1 and -2 are no lengths of a string *)
        flen ← lift (validateScalarFormat s (ta_type a));
        if flen =? strlen fstr - 1 then mret (set_format a (TMPL_AFS_SCALAR fstr) (af_shared a)) else malformed
    | _ => malformed
    end.
Definition validateAttFormat (a : tmpl_attribute) : parsing tmpl_attribute :=
  let check (fstr : str) :=
    _ ← lift (assert (bool_decide (is_Some (ta_name a))));
    if streqb fstr "%t" then
      if isArray a && isStruct a && isConstAtt a then
        error ("Cannot specify dump format for const array of structs " ++ text (ta_name a))%string
      else if bool_decide (is_Some (ta_delimiter a)) then
        error ("Cannot specify delimiter with dump format: " ++ text (ta_name a))%string
      else mret (set_format a TMPL_AFS_DUMP (af_shared a))
    else if isArray a then validate_array_format a fstr else validate_scalar_format a fstr in
  match ta_format a with
  | TMPL_AFS_DEFAULT => if isArray a && isStruct a then check "%Z"%string else mret a
  | TMPL_AFS_TBD fstr => check fstr
  | _ => _ ← lift (assert (af_shared a)); mret a
  end.

(** ** Alignment *)

Definition validateNonalignment (a : tmpl_attribute) : parsing unit :=
  if isBitField a then
    error ("Attribute " ++ text (ta_name a) ++ ": unaligned record/struct cannot contain bit-fields.")%string
  else mret tt.
Definition validateAlignment (a : tmpl_attribute) : parsing unit :=
  template ← the_template a;
  if negb (match template with Some t => isAlignedTmpl t | None => false end) then validateNonalignment a
  else
    bad ← (if isStruct a then stmpl ← need (ta_struct a); mret (negb (isAlignedTmpl stmpl)) else mret false);
    if (bad : bool) then
      error ("Attribute " ++ text (ta_name a) ++ ": aligned record/struct cannot contain unaligned struct.")%string
    else if match ta_dimension a with
            | Some d => isArray a && negb (match td_type d with TMPL_DIM_CONST => true | _ => false end)
            | None => false
            end
    then error ("Attribute " ++ text (ta_name a) ++ ": aligned record/struct cannot contain variable-length array.")%string
    else match ta_type a with
    | TY_STRING | TY_WSTRING =>
        error ("Aligned record/struct cannot contain variable-length attribute " ++ text (ta_name a) ++ ".")%string
    | _ => mret tt
    end.

(** ** Typedefs *)

(** [sref->sr_template == st] *)
Variable same_template : template -> template -> bool.
(** The import of this very template is used. *)
Fixpoint _evlRegisterStructRef (st : template) (l : list tmpl_struct_ref_t) : list tmpl_struct_ref_t :=
  match l with
  | [] => []
  | sref :: l =>
      if same_template (sr_template sref) st then mkSref (sr_path sref) (sr_template sref) true :: l
      else sref :: _evlRegisterStructRef st l
  end.
Definition copy_dimension (a td : tmpl_attribute) : parsing tmpl_attribute :=
  match ta_dimension a, ta_dimension td with
  | Some _, Some _ => error ("Attribute " ++ text (ta_name a) ++ ": array of arrays not supported.")%string
  | None, Some d =>
      d ← with_store (fun s => Done (alloc_dimension s (td_type d) (td_dimension d) (td_dimension2 s d)));
      mret (set_ta_dimension a (Some d))
  | _, None => mret a
  end.
Definition copy_format (a td : tmpl_attribute) : tmpl_attribute :=
  match ta_format a, ta_format td with
  | TMPL_AFS_DEFAULT, TMPL_AFS_DEFAULT => a
  | TMPL_AFS_DEFAULT, f => set_format a f true
  | _, _ => a
  end.
Definition copy_delimiter (a td : tmpl_attribute) : parsing tmpl_attribute :=
  match ta_delimiter a, ta_delimiter td with
  | None, Some de =>
      s ← lift (match de_type de with TMPL_DELIM_CONST s => Done s | _ => Fault AssertFailed end);
      de ← with_store (fun st => Done (alloc_delimiter st (TMPL_DELIM_CONST s) None));
      mret (set_ta_delimiter a (Some de))
  | _, _ => mret a
  end.
Definition applyTypedefIfAny (u : type_ref) (a : tmpl_attribute) : parsing tmpl_attribute :=
  if negb (bool_decide (ta_type a = TY_TYPEDEF)) then mret a
  else
    _ ← lift (assert (bool_decide (is_Some (ta_name a))));
    name ← need (match u with td_name s => Some s | _ => None end);
    td ← findTypedef name;
    match td with
    | None => error ("Unknown type " ++ name ++ " for attribute " ++ text (ta_name a) ++ ".")%string
    | Some td =>
        let a := set_ta_type a (ta_type td) (ta_struct td) in
        _ ← (match ta_struct td with
             | Some st => if isStruct a then modify (fun p => set_imports (_evlRegisterStructRef st (imports p)) p) else mret tt
             | None => mret tt
             end);
        a ← copy_dimension a td;
        copy_delimiter (copy_format a td) td
    end.

(** ** Adding an attribute *)

Definition check_R_notLast (a : tmpl_attribute) : parsing unit :=
  t ← the_template a;
  match t with
  | Some t => if tm_has t TMPL_TF_EATSALL then error "Attribute with dimension [_R_] must be last." else mret tt
  | None => mret tt
  end.
(** [dim->td_type == TMPL_DIM_BITFIELD] is not for const attributes and typedefs. *)
Definition check_bitfield_class (a : tmpl_attribute) : parsing tmpl_attribute :=
  let bitfield := match ta_dimension a with Some d => match td_type d with TMPL_DIM_BITFIELD => true | _ => false end | None => false end in
  if bitfield then
    if isConstAtt a then error ("Const attribute " ++ default EmptyString (ta_name a) ++ " cannot be bit-field")%string
    else if isTypedef a then error ("typedef " ++ default EmptyString (ta_name a) ++ " cannot be bit-field")%string
    else mret (set_ta_flags a (set_flag (ta_flags a) EVL_ATTR_BITFIELD))
  else mret a.
(** Class, typedef, name and type. *)
Definition check_type (u : type_ref) (a : tmpl_attribute) : parsing tmpl_attribute :=
  a ← check_bitfield_class a;
  a ← applyTypedefIfAny u a;
  _ ← check_R_notLast a;
  _ ← validateAttName a;
  validateAttType u a.
(** Dimension, initializer, delimiter, format and alignment. *)
Definition check_value (a : tmpl_attribute) (val : option tmpl_type_and_value) : parsing tmpl_attribute :=
  a ← validateAttDimension a;
  _ ← (if isBitField a then validateAttBitField a else mret tt);
  a ← initialize a val;
  a ← validateAttDelimiter a;
  a ← validateAttFormat a;
  _ ← validateAlignment a;
  mret a.
Definition check_attribute (u : type_ref) (a : tmpl_attribute) (val : option tmpl_type_and_value) : parsing tmpl_attribute :=
  a ← check_type u a; check_value a val.
Definition set_ta_index (a : tmpl_attribute) (i : nat) : tmpl_attribute :=
  mkAttr (ta_name a) (ta_type a) (ta_struct a) (ta_dimension a) (ta_format a) (af_shared a) (ta_delimiter a) (ta_rawdata a)
    (ta_value a) (ta_flags a) i.
Definition append_attribute (a : tmpl_attribute) : parsing unit :=
  if isTypedef a then modify (fun p => set_typedefs (typedefs p ++ [a]) p)
  else
    t ← the_template a;
    _ ← lift (assert (bool_decide (is_Some t)));
    t ← need t;
    modify (set_template (set_attributes t (tm_attributes t ++ [set_ta_index a (length (tm_attributes t))]))).
(** What the grammar knows of an attribute. *)
Definition new_attribute (attrClass : Z) (ty : base_type) (name : option str) (dim : option tmpl_dimension) (format : option str)
    (delimiter : option tmpl_delimiter) : tmpl_attribute :=
  let flags := if attrClass =? EVL_ATTR_CONST then set_flag EVL_ATTR_CONST EVL_ATTR_EXISTS
               else if attrClass =? EVL_ATTR_TYPEDEF then EVL_ATTR_TYPEDEF else 0 in
  mkAttr name ty None dim (match format with Some f => TMPL_AFS_TBD f | None => TMPL_AFS_DEFAULT end) false delimiter None VNone flags 0.
(** A bad attribute leaves the template with the error flag. *)
Definition _evlTmplAddAttribute (attrClass : Z) (ty : base_type) (u : type_ref) (name : option str) (dim : option tmpl_dimension)
    (val : option tmpl_type_and_value) (format : option str) (delimiter : option tmpl_delimiter) : parsing unit := fun p =>
  let a := new_attribute attrClass ty name dim format delimiter in
  match (a ← check_attribute u a val; append_attribute a) p with
  | Done (None, p) =>
      match (if isTypedef a then None else pc_template p) with
      | Some t => Done (None, set_template (or_tm_flags TMPL_TF_ERROR t) p)
      | None => Done (None, p)
      end
  | r => r
  end.
End Files.

(** ** The rest of a template *)

(** [_evlTmplParseFormat] of [tmplfmt.c]: names of attributes become references. *)
Definition cantDoAdHocFormat (a : tmpl_attribute) : bool := isArray a || isStruct a.
Definition segment_userfmt (fs : evl_fmt_segment) : option str :=
  match fs with EVL_FS_MEMBER _ f _ | EVL_FS_ATTNAME _ f _ | EVL_FS_PRINTFCONV _ f _ => f | _ => None end.
(** The segment, and whether it is right. *)
Definition tmpl_segment_of (t : template) (fs : evl_fmt_segment) : parsing (tmpl_segment * bool) :=
  match fs with
  | EVL_FS_MEMBER m _ _ =>
      if m =? POSIX_LOG_ENTRY_DATA then
        _ ← semanticError "Can't refer to %data% attribute in template"; mret (TSEG fs, false)
      else mret (TSEG fs, true)
  | EVL_FS_ATTNAME name userfmt _ =>
      match _evlTmplFindAttribute t name with
      | Some a =>
          let bad := bool_decide (is_Some userfmt) && cantDoAdHocFormat a in
          _ ← (if bad then semanticError (text (ta_name a) ++ ": Can't do alternate formats for arrays or structs")%string else mret tt);
          mret (if bool_decide (split_dot name = None) then EVL_FS_ATTR (ta_index a) userfmt else TSEG fs, negb bad)
      | None => _ ← semanticError ("Unknown attribute: " ++ name)%string; mret (TSEG fs, false)
      end
  | _ => mret (TSEG fs, true)
  end.
Fixpoint tmpl_segments (t : template) (l : list evl_fmt_segment) : parsing (list tmpl_segment * bool) :=
  match l with
  | [] => mret ([], true)
  | fs :: l => '(seg, ok) ← tmpl_segment_of t fs; '(segs, oks) ← tmpl_segments t l; mret (seg :: segs, ok && oks)
  end.
(** [None] in the result is a null pointer. *)
Definition _evlTmplParseFormat (t : template) (fmtSpec : str) : parsing (option (list tmpl_segment)) :=
  r ← need (_evlParseFormat fmtSpec true);
  match r with
  | inl msg => _ ← semanticError (text msg); mret None
  | inr l => '(segs, ok) ← tmpl_segments t l; mret (if (ok : bool) then Some segs else None)
  end.
Definition set_parsed_format (l : list tmpl_segment) (t : template) : template :=
  let st := tm_static t in
  set_static t (mkStatic (th_type st) (th_description st) (tm_name st) l (tm_alignment st) (tm_minsize st) (tm_redirection st)).
Definition LINEFEED : ascii := of_chr 10.
Definition _evlTmplAddFormatSpec (fmtSpec : str) : parsing unit :=
  p ← get; t ← need (pc_template p);
  let fmtSpec := if isStructTmpl t && ends_with fmtSpec (String LINEFEED EmptyString)
                 then String.substring 0 (String.length fmtSpec - 1) fmtSpec else fmtSpec in
  l ← _evlTmplParseFormat t fmtSpec;
  p ← get; t ← need (pc_template p);
  match l with
  | Some l => modify (set_template (set_parsed_format l t))
  | None => modify (set_template (or_tm_flags TMPL_TF_ERROR (set_parsed_format [] t)))
  end.

(** *** Redirections *)

(** The attribute's path, if it can redirect. *)
Definition getRedirAttName (t : template) (attName : str) : parsing (option str) :=
  match _evlTmplFindAttribute t attName with
  | Some a =>
      if isArray a || (negb (isIntegerAtt a) && negb (bool_decide (ta_type a = TY_STRING))) then
        _ ← semanticError ("Redirection attribute " ++ attName ++ " must be integer or string.")%string; mret None
      else mret (Some attName)
  | None => _ ← semanticError ("Unknown attribute: " ++ attName)%string; mret None
  end.
Definition _evlMkRedirAtt (t : template) (n : Z) (scopedId : option str) (facility : bool) : parsing redirectedAttribute :=
  match scopedId with
  | Some path =>
      name ← getRedirAttName t path;
      mret (match name with Some name => TMPL_RD_ATTNAME name | None => TMPL_RD_NONE end)
  | None => mret (TMPL_RD_CONST (if facility then u32 n else s32 n))
  end.
Definition _evlAddRedirection (rf ret : option redirectedAttribute) : parsing unit :=
  p ← get; t ← need (pc_template p);
  let st := tm_static t in
  let t := set_static t (mkStatic (th_type st) (th_description st) (tm_name st) (tm_parsed_format st) (tm_alignment st)
                           (tm_minsize st) (Some (mkRedir rf ret))) in
  _ ← modify (set_template (or_tm_flags TMPL_TF_REDIRECT t));
  if isStructTmpl t then semanticError "struct template cannot have redirection" else mret tt.

(** *** Alignment of the template *)

(** The alignment and the least size that the members ask for. *)
Fixpoint member_alignment (arch : Z) (l : list tmpl_attribute) (tmplAlign tmplMinSize : Z) : outcome (Z * Z) :=
  match l with
  | [] => Done (tmplAlign, tmplMinSize)
  | a :: l =>
      if isConstAtt a || bool_decide (ta_name a = None) then member_alignment arch l tmplAlign tmplMinSize
      else
        tmplMinSize ← (if isBitField a then ti ← type_info arch (ta_type a); Done (Z.max tmplMinSize (at_size ti)) else Done tmplMinSize);
        attAlign ← computeAttAlignment a arch;
        _ ← assert (0 <? attAlign);
        member_alignment arch l (Z.max tmplAlign attAlign) tmplMinSize
  end.
Definition set_alignment (align minsize : Z) (t : template) : template :=
  let st := tm_static t in
  set_static t (mkStatic (th_type st) (th_description st) (tm_name st) (tm_parsed_format st) align minsize (tm_redirection st)).
Definition computeTmplAlignment (t : template) : outcome template :=
  if negb (isAlignedTmpl t) then Done (set_alignment 0 (tm_minsize (tm_static t)) t)
  else
    '(align, minsize) ← member_alignment (tm_arch (tm_state t)) (tm_attributes t) 1 0;
    Done (set_alignment (s16 align) (s16 minsize) t).
Definition anyDataAtts (t : template) : bool := existsb (fun a => negb (isConstAtt a)) (tm_attributes t).
Definition anyData (t : template) : bool :=
  existsb (fun a => negb (isConstAtt a)
    && (negb (isBitField a) || match ta_dimension a with Some d => negb (td_dimension d =? 0) | None => true end)) (tm_attributes t).
Definition flagEmptyStruct (t : template) : parsing unit :=
  if negb (isStructTmpl t) then mret tt
  else
    let name := tm_name (tm_static t) in
    if isConstStructTmpl t then
      if anyDataAtts t then semanticError ("const struct " ++ name ++ " has non-const attributes.")%string else mret tt
    else if negb (anyDataAtts t) then
      semanticError ("struct " ++ name ++ " has no data attributes but is not declared const.")%string
    else if negb (anyData t) then semanticError ("struct " ++ name ++ " has size zero.")%string
    else mret tt.
Definition _evlTmplWrapup : parsing unit :=
  p ← get; t ← need (pc_template p);
  _ ← flagEmptyStruct t;
  p ← get; t ← need (pc_template p);
  t ← lift (computeTmplAlignment t);
  modify (set_template t).

(** ** A source file ([tmplgram.y], [tmplmgmt.c]) *)

(** The grammar's attribute statement. *)
Record attributeStmt := mkStmt {
  at_base_type : base_type;
  at_ref : type_ref;
  at_name : option str;
  at_dimension : option tmpl_dimension;
  at_init : option tmpl_type_and_value;
  at_fmt : option str;
  at_delim : option tmpl_delimiter
}.
Inductive header :=
  | recordHeader (facility eventType : Z) (description : option str)
  | structHeader (isConst : bool) (structName : str) (description : option str).
(** Facility and event type of a redirection, each a number or the path of an attribute, and
    which of them comes first. *)
Record redirect_stmt := mkRedirStmt { rs_fac : option (Z + str); rs_evtype : option (Z + str); rs_evtype_first : bool }.
Record source := mkSource {
  s_typedefs : list attributeStmt;
  s_header : header;
  s_const : list attributeStmt;
  s_aligned : bool;
  s_attributes : list attributeStmt;
  s_redirect : option redirect_stmt;
  s_format : str
}.

Definition _evlAllocTemplate (h : tmpl_header_type) (description : option str) (name : str) : template :=
  mkTemplate (mkStatic h description name [] 0 0 None) (mkState 0 0 0 None None (-1) false) [] [].
Definition _evlTmplMakeEvlogName (fac eventType : Z) : str := (pretty eventType ++ "@" ++ pretty (u32 fac))%string.
Definition _evlMakeEvrecTemplate (facility eventType : Z) (description : option str) : template :=
  _evlAllocTemplate (TMPL_TH_EVLOG facility eventType) description (_evlTmplMakeEvlogName facility eventType).
Definition _evlMakeStructTemplate (structName : str) (description : option str) : template :=
  _evlAllocTemplate (TMPL_TH_STRUCT structName) description structName.
Fixpoint _evlFindStructRef (structPath : str) (l : list tmpl_struct_ref_t) : option tmpl_struct_ref_t :=
  match l with
  | [] => None
  | sref :: l => if streqb structPath (sr_path sref) then Some sref else _evlFindStructRef structPath l
  end.
(** The new template; errors in front of it count. *)
Definition parse_header (h : header) : parsing unit :=
  _ ← (match h with
       | structHeader _ name _ =>
           p ← get;
           match _evlFindStructRef name (imports p) with
           | Some _ => semanticError ("struct " ++ name ++ " previously defined or imported")%string
           | None => mret tt
           end
       | recordHeader _ _ _ => mret tt
       end);
  p ← get;
  let t := match h with
           | recordHeader fac evty desc => _evlMakeEvrecTemplate fac evty desc
           | structHeader isConst name desc =>
               let t := _evlMakeStructTemplate name desc in if (isConst : bool) then or_tm_flags TMPL_TF_CONST t else t
           end in
  modify (set_template (if negb (pc_errors p =? 0) then or_tm_flags TMPL_TF_ERROR t else t)).
(** The grammar goes on after a bad attribute. *)
Definition attempt (x : parsing unit) : parsing unit := fun p =>
  match x p with Done (_, p) => Done (Some tt, p) | Fault e => Fault e end.

Section Parse.
Variable import : str -> parsing (option template).
Variable same_template : template -> template -> bool.

Fixpoint add_attributes (attrClass : Z) (l : list attributeStmt) : parsing unit :=
  match l with
  | [] => mret tt
  | s :: l =>
      _ ← attempt (_evlTmplAddAttribute import same_template attrClass (at_base_type s) (at_ref s) (at_name s) (at_dimension s)
                     (at_init s) (at_fmt s) (at_delim s));
      add_attributes attrClass l
  end.
Definition redirected (facility : bool) (r : option (Z + str)) : parsing (option redirectedAttribute) :=
  match r with
  | None => mret None
  | Some r =>
      p ← get; t ← need (pc_template p);
      ra ← (match r with inl n => _evlMkRedirAtt t n None facility | inr path => _evlMkRedirAtt t 0 (Some path) facility end);
      mret (Some ra)
  end.
Definition parse_redirect (r : option redirect_stmt) : parsing unit :=
  match r with
  | None => mret tt
  | Some r =>
      '(fac, evty) ← (if rs_evtype_first r then
                        evty ← redirected false (rs_evtype r); fac ← redirected true (rs_fac r); mret (fac, evty)
                      else fac ← redirected true (rs_fac r); evty ← redirected false (rs_evtype r); mret (fac, evty));
      _ ← _evlAddRedirection fac evty;
      _evlTmplWrapup
  end.
(** The actions for a template, in the order of the grammar. *)
Definition ttparse (src : source) : parsing unit :=
  _ ← add_attributes EVL_ATTR_TYPEDEF (s_typedefs src);
  _ ← parse_header (s_header src);
  _ ← add_attributes EVL_ATTR_CONST (s_const src);
  _ ← (if s_aligned src then flag_template TMPL_TF_ALIGNED else mret tt);
  _ ← add_attributes 0 (s_attributes src);
  _ ← parse_redirect (s_redirect src);
  _ ← _evlTmplAddFormatSpec (s_format src);
  _evlTmplWrapup.

Definition forgetStructRefs (l : list tmpl_struct_ref_t) : list tmpl_struct_ref_t :=
  map (fun sref => mkSref (sr_path sref) (sr_template sref) false) l.
Definition rememberStructRefs (l : list tmpl_struct_ref_t) (t : template) : template :=
  mkTemplate (tm_static t) (tm_state t) (tm_attributes t)
    (tm_imports t ++ map (fun sref => (sr_path sref, sr_template sref)) (filter (fun sref => sr_used sref = true) l)).
Fixpoint makeDotPathFromSlashPath (s : str) : str :=
  match s with
  | EmptyString => EmptyString
  | String c s => String (if Ascii.eqb c "/" then "."%char else c) (makeDotPathFromSlashPath s)
  end.
(** For a template that the source defines. *)
Definition registerImport (t : template) (structPath : str) : parsing unit :=
  p ← get;
  match _evlFindStructRef structPath (imports p) with
  | Some _ => semanticError ("struct " ++ makeDotPathFromSlashPath structPath ++ " previously defined or imported")%string
  | None => modify (set_imports (imports p ++ [mkSref structPath t false]))
  end.
Definition start_template (p : parser) : parser :=
  mkParser None 0 (typedefs p) (forgetStructRefs (imports p)) (ps_store p) (ps_messages p).
(** One round of the loop of [getTemplatesFromFile]: the template, unless it has errors. *)
Definition getTemplate (src : source) : parsing (option template) :=
  _ ← modify start_template;
  _ ← ttparse src;
  p ← get; t ← need (pc_template p);
  if tm_has t TMPL_TF_ERROR then mret None
  else
    let t := rememberStructRefs (imports p) t in
    _ ← (if isStructTmpl t then registerImport t (tm_name (tm_static t)) else mret tt);
    mret (Some t).
(** The templates, and the number of errors. *)
Fixpoint getTemplatesFromFile (l : list source) : parsing (list template * Z) :=
  match l with
  | [] => mret ([], 0)
  | src :: l =>
      t ← getTemplate src;
      '(ts, errors) ← getTemplatesFromFile l;
      mret (match t with Some t => (t :: ts, errors) | None => (ts, errors + 1) end)
  end.
End Parse.
