(* ===== verification/TmplTyping.v ===== *)
(** * Templates that the parser accepts are well typed

    [compile] runs the actions of the grammar ([tmplgram.y]) on a source: typedefs, the
    header, the const and the other attributes, redirection and format.  [wt] is the typing
    of templates. *)
From S2P Require Import Prelude NvPairs LogRecord QEvaluate LogSink RecPack Format Conv Tmpl TmplPop TmplSafe TmplInit TmplCheck.

(** ** Types of values *)

Definition bytes_of_type (ty : base_type) (n : Z) : Z := n * type_size ty.
(** [n] strings, each with its terminator. *)
Fixpoint strings_in (n : nat) (mem : list Z) : Prop :=
  match n with
  | O => mem = []
  | S n => exists s rest, no_nul s = true /\ mem = bytes_of s ++ 0 :: rest /\ strings_in n rest
  end.
Fixpoint wstrings_in (n : nat) (mem : list Z) : Prop :=
  match n with
  | O => mem = []
  | S n => exists k, wcslen mem = Some k /\ wstrings_in n (drop (Z.to_nat ((k + 1) * WCSZ)) mem)
  end.
Definition is_real (ty : base_type) : bool := match ty with TY_FLOAT | TY_DOUBLE | TY_LDOUBLE => true | _ => false end.
(** What the grammar makes of constants. *)
Inductive tv_ok : tmpl_type_and_value -> Prop :=
  | tv_long z : in_type TY_LONG z = true -> tv_ok (mkTv TY_LONG (VInt z))
  | tv_ulong z : in_type TY_ULONG z = true -> tv_ok (mkTv TY_ULONG (VInt z))
  | tv_double bs : length bs = 8%nat -> tv_ok (mkTv TY_DOUBLE (VReal bs))
  | tv_string s : no_nul s = true -> tv_ok (mkTv TY_STRING (VString s))
  | tv_wstring ws k : wcslen ws = Some k -> tv_ok (mkTv TY_WSTRING (VWstring ws))
  | tv_list l : l <> [] -> Forall tv_ok l -> tv_ok (mkTv TY_LIST (VList l)).
(** A const attribute has a value of its type. *)
Inductive has_value (a : tmpl_attribute) : Prop :=
  | has_int z : isArray a = false -> isInteger (ta_type a) = true -> ta_value a = VInt z -> in_type (ta_type a) z = true -> has_value a
  | has_real bs : isArray a = false -> is_real (ta_type a) = true -> ta_value a = VReal bs ->
      Z.of_nat (length bs) = type_size (ta_type a) -> has_value a
  | has_string s : isArray a = false -> ta_type a = TY_STRING -> ta_value a = VString s -> has_value a
  | has_wstring ws : isArray a = false -> ta_type a = TY_WSTRING -> ta_value a = VWstring ws -> wstrings_in 1 ws -> has_value a
  | has_struct t : isArray a = false -> isStruct a = true -> ta_value a = VStruct t ->
      (isConstStructTmpl t = true \/ (isPopulatedTmpl t = true /\ Forall has_value (tm_attributes t))) -> has_value a
  | has_array d mem : isArray a = true -> ta_dimension a = Some d -> td_type d = TMPL_DIM_CONST -> 0 < td_dimension d ->
      ta_value a = VArray true mem ->
      match ta_type a with
      | TY_STRING => strings_in (Z.to_nat (td_dimension d)) mem
      | TY_WSTRING => wstrings_in (Z.to_nat (td_dimension d)) mem
      | ty => (isInteger ty || is_real ty) = true /\ Z.of_nat (length mem) = bytes_of_type ty (td_dimension d)
      end -> has_value a
  | has_structs d l : isArray a = true -> ta_dimension a = Some d -> td_type d = TMPL_DIM_CONST -> 0 < td_dimension d ->
      isStruct a = true -> ta_value a = VList l -> Z.of_nat (length l) = td_dimension d ->
      Forall (fun t => isPopulatedTmpl t = true /\ Forall has_value (tm_attributes t)) l -> has_value a.

(** ** Types of attributes *)

(** The attributes that are declared before. *)
Definition declared (t : template) (env : list tmpl_attribute) : template := set_attributes t env.
(** An attribute that gives a dimension or a delimiter of a record. *)
Definition variable_of (env : list tmpl_attribute) (i : nat) (P : tmpl_attribute -> Prop) : Prop :=
  exists b, env !! i = Some b /\ isConstAtt b = false /\ P b.
Definition dimension_ok (t : template) (env : list tmpl_attribute) (a : tmpl_attribute) : Prop :=
  match ta_dimension a with
  | None => isBitField a = false
  | Some d =>
      match td_type d with
      | TMPL_DIM_BITFIELD =>
          isBitField a = true /\ isConstAtt a = false /\ isInteger (ta_type a) = true /\
          td_dimension d <= 8 * type_size (ta_type a) /\ (td_dimension d = 0 -> ta_name a = None)
      | TMPL_DIM_CONST => isBitField a = false /\ 0 < td_dimension d
      | ty =>
          isBitField a = false /\ isConstAtt a = false /\
          match ty with
          | TMPL_DIM_ATTR i => variable_of env i (fun b => isIntegerAtt b = true)
          | TMPL_DIM_ATTNAME name =>
              exists b, _evlTmplFindAttribute (declared t env) name = Some b /\ isConstAtt b = false /\ isIntegerAtt b = true
          | TMPL_DIM_REST => tm_has t TMPL_TF_EATSALL = true
          | TMPL_DIM_PREFIX3 => True
          | TMPL_DIM_IMPLIED => isStructTmpl t = true /\ tm_has t TMPL_TF_IMPLDIM = true /\ has (ta_flags a) EVL_ATTR_IMPLDIM = true
          | _ => False
          end
      end
  end.
Definition delimiter_ok (t : template) (env : list tmpl_attribute) (a : tmpl_attribute) : Prop :=
  match ta_delimiter a with
  | None => True
  | Some de =>
      isArray a = true /\
      match de_type de with
      | TMPL_DELIM_CONST _ => True
      | TMPL_DELIM_ATTR i => isConstAtt a = false /\ variable_of env i (fun b => ta_type b = TY_STRING /\ isArray b = false)
      | TMPL_DELIM_ATTNAME name =>
          isConstAtt a = false /\
          exists b, _evlTmplFindAttribute (declared t env) name = Some b /\ isConstAtt b = false /\ ta_type b = TY_STRING /\ isArray b = false
      | TMPL_DELIM_NONE => False
      end
  end.
(** The format of an attribute, if it has one of its own. *)
Definition format_ok (a : tmpl_attribute) : Prop :=
  match ta_format a with
  | TMPL_AFS_DEFAULT => isArray a && isStruct a = false
  | TMPL_AFS_TBD _ => False
  | TMPL_AFS_DUMP => ta_delimiter a = None
  | TMPL_AFS_SCALAR f =>
      isArray a = false /\ isStruct a = false /\ exists s, f = String PERCENT s /\ validateScalarFormat s (ta_type a) = Done (strlen s)
  | TMPL_AFS_BITMAP _ | TMPL_AFS_VALNM _ => isArray a = false /\ isIntegerAtt a = true
  | TMPL_AFS_ARRAY _ order => isArray a = true /\ isStruct a = false /\ order = "S"%string
  | TMPL_AFS_IZARRAY _ order =>
      isArray a = true /\ order ∈ (if isStruct a then ["Z"; "IZ"; "ZI"] else ["IS"; "SI"])%string
  | TMPL_AFS_CHARRSTR _ => isArray a = true /\ ta_type a ∈ [TY_CHAR; TY_UCHAR; TY_WCHAR] /\ ta_delimiter a = None
  end.
Definition alignment_ok (t : template) (a : tmpl_attribute) : Prop :=
  isAlignedTmpl t = true -> isConstAtt a = false ->
  ta_type a <> TY_STRING /\ ta_type a <> TY_WSTRING /\
  (forall st, isStruct a = true -> ta_struct a = Some st -> isAlignedTmpl st = true) /\
  (isArray a = true -> exists d, ta_dimension a = Some d /\ td_type d = TMPL_DIM_CONST).
Definition reserved (name : str) : bool :=
  negb (_evlGetValueByName _evlAttributes name (-1) =? -1) || streqb name "_R_" || streqb name "_PREFIX3_".
Definition name_ok (t : template) (env : list tmpl_attribute) (a : tmpl_attribute) : Prop :=
  match ta_name a with
  | Some name => reserved name = false /\ _evlTmplFindAttribute (declared t env) name = None
  | None => isBitField a = true
  end.
Definition type_ok (t : template) (a : tmpl_attribute) : Prop :=
  ta_type a <> TY_TYPEDEF /\ ta_type a <> TY_STRUCTNAME /\
  (isStruct a = true -> exists st, ta_struct a = Some st /\
     (tm_has st TMPL_TF_EATSALL = true -> tm_has t TMPL_TF_EATSALL = true) /\
     (tm_has st TMPL_TF_IMPLDIM = true -> if isStructTmpl t then tm_has t TMPL_TF_IMPLDIM = true else isConstAtt a = true)).
(** Attributes of a template that take all the rest of a record are its last ones. *)
Definition eats_all (a : tmpl_attribute) : bool :=
  match ta_dimension a with Some d => match td_type d with TMPL_DIM_REST => true | _ => false end | None => false end
  || match ta_struct a with Some st => isStruct a && tm_has st TMPL_TF_EATSALL | None => false end.
Record attribute_ok (t : template) (env : list tmpl_attribute) (a : tmpl_attribute) : Prop := {
  ok_name : name_ok t env a;
  ok_type : type_ok t a;
  ok_dimension : dimension_ok t env a;
  ok_delimiter : delimiter_ok t env a;
  ok_format : af_shared a = true \/ format_ok a;
  ok_alignment : alignment_ok t a;
  ok_value : if isConstAtt a then has_value a else ta_value a = VNone /\ attExists a = false;
  ok_not_typedef : isTypedef a = false;
  ok_index : ta_index a = length env
}.
(** Every attribute is well typed behind those in front of it, its struct too, and only the
    last one takes the rest of the record. *)
Inductive wt (t : template) : Prop :=
  | wt_intro :
      isMasterTmpl t = true -> isPopulatedTmpl t = false -> (isAlignedTmpl t = true -> 0 < tm_alignment (tm_static t) < 2 ^ 15) ->
      (forall i a, tm_attributes t !! i = Some a -> attribute_ok t (take i (tm_attributes t)) a) ->
      (forall i a, tm_attributes t !! i = Some a -> eats_all a = true -> S i = length (tm_attributes t)) ->
      (forall a st, a ∈ tm_attributes t -> isStruct a = true -> ta_struct a = Some st -> wt st) -> wt t.

(** ** Steps of the parser *)

Lemma done_bind {A B} (x : parsing A) (f : A -> parsing B) p r :
  (x ≫= f) p = Done r <->
  (exists p', x p = Done (None, p') /\ r = (None, p')) \/ (exists a p', x p = Done (Some a, p') /\ f a p' = Done r).
Proof.
  unfold mbind, parsing_bind. destruct (x p) as [[[a|] p']|e] eqn:E; naive_solver.
Qed.
Lemma ok_bind {A B} (x : parsing A) (f : A -> parsing B) p b p' :
  (x ≫= f) p = Done (Some b, p') <-> exists a p1, x p = Done (Some a, p1) /\ f a p1 = Done (Some b, p').
Proof. rewrite done_bind. naive_solver. Qed.

(** What a check leaves alone: everything but the flags that it adds to the template, the
    store, the marks of the imports and the messages. *)
Definition harmless (f : Z) : Prop :=
  has f TMPL_TF_POPULATED = false /\ has f TMPL_TF_ALIGNED = false /\ has f TMPL_TF_CONST = false.
Inductive same_shape : template -> template -> Prop :=
  | same_intro t f : harmless f -> same_shape t (or_tm_flags f t).
Definition imports_wt (p : parser) : Prop := Forall wt (map sr_template (imports p)).
Record extends (p p' : parser) : Prop := {
  ext_typedefs : typedefs p' = typedefs p;
  ext_template : match pc_template p, pc_template p' with
                 | Some t, Some t' => same_shape t t' | None, None => True | _, _ => False end;
  ext_imports : imports_wt p -> imports_wt p'
}.
Definition keeps {A} (x : parsing A) : Prop := forall p r p', x p = Done (r, p') -> extends p p'.

Lemma harmless_or f g : harmless f -> harmless g -> harmless (set_flag f g).
Proof. unfold harmless. rewrite !has_set. by intros (-> & -> & ->) (-> & -> & ->). Qed.
Lemma or_or f g t : or_tm_flags g (or_tm_flags f t) = or_tm_flags (set_flag f g) t.
Proof. unfold or_tm_flags, set_flag. cbn. by rewrite Z.lor_assoc. Qed.
Lemma same_refl t : same_shape t t.
Proof.
  assert (t = or_tm_flags 0 t) as E by (destruct t as [? [] ? ?]; unfold or_tm_flags, set_flag; cbn; by rewrite Z.lor_0_r).
  rewrite E at 2. constructor. by repeat split.
Qed.
Lemma same_trans t u v : same_shape t u -> same_shape u v -> same_shape t v.
Proof. intros [t' f Hf] H. inversion H as [? g Hg]; subst. rewrite or_or. constructor. by apply harmless_or. Qed.
#[export] Instance extends_refl : Reflexive extends.
Proof. intros p. split; [done| |done]. destruct (pc_template p); [apply same_refl|done]. Qed.
#[export] Instance extends_trans : Transitive extends.
Proof.
  intros p q r [H1 H2 Hi] [H3 H4 Hj]. split; [congruence| |by auto].
  destruct (pc_template p), (pc_template q), (pc_template r); try done. by eapply same_trans.
Qed.

Create HintDb keep.
Lemma keeps_bind {A B} (x : parsing A) (f : A -> parsing B) : keeps x -> (forall a, keeps (f a)) -> keeps (x ≫= f).
Proof.
  intros Hx Hf p r p' H. apply done_bind in H as [(p1 & H & [= -> ->])|(a & p1 & H & H1)]; [by eapply Hx|].
  transitivity p1; [by eapply Hx|by eapply Hf].
Qed.
Lemma keeps_ret {A} (a : A) : keeps (mret a).
Proof. by intros p r p' [= <- <-]. Qed.
Lemma keeps_failed {A} : keeps (@failed A).
Proof. by intros p r p' [= <- <-]. Qed.
Lemma keeps_get : keeps get.
Proof. by intros p r p' [= <- <-]. Qed.
Lemma keeps_lift {A} (o : outcome A) : keeps (lift o).
Proof. intros p r p' H. unfold lift in H. destruct o; [|done]. by injection H as <- <-. Qed.
Lemma keeps_need {A} (o : option A) : keeps (need o).
Proof. apply keeps_lift. Qed.
Lemma keeps_with_store {A} (f : store -> outcome (A * store)) : keeps (with_store f).
Proof.
  intros p r p' H. unfold with_store in H. destruct (f _) as [[a s]|]; [|done]. injection H as <- <-.
  split; [done| |done]. cbn. destruct (pc_template p); [apply same_refl|done].
Qed.
Lemma keeps_semanticError msg : keeps (semanticError msg).
Proof.
  intros p r p' H. unfold semanticError in H. injection H as <- <-. destruct (pc_template p) as [t|] eqn:E; split; cbn; rewrite ?E; try done.
Qed.
Lemma keeps_error {A} msg : keeps (@error A msg).
Proof. apply keeps_bind; [apply keeps_semanticError|intros; apply keeps_failed]. Qed.
Lemma keeps_imports (f : parser -> list tmpl_struct_ref_t) :
  (forall p, map sr_template (f p) = map sr_template (imports p)) -> keeps (modify (fun p => set_imports (f p) p)).
Proof.
  intros Hf p r p' [= <- <-]. split; [done| |].
  - cbn. destruct (pc_template p); [apply same_refl|done].
  - unfold imports_wt. cbn. by rewrite Hf.
Qed.
#[export] Hint Resolve keeps_ret keeps_failed keeps_get keeps_lift keeps_need keeps_with_store keeps_semanticError keeps_error : keep.
(** One step into a [parsing] term. *)
Ltac keep_step :=
  lazymatch goal with
  | |- keeps (mbind _ _) => apply keeps_bind; [|intros ?]
  | |- keeps (match ?x with _ => _ end) => destruct x
  | |- keeps _ => solve [eauto with keep]
  end.
Ltac keep := repeat (cbv beta zeta; first [solve [eauto with keep] | keep_step]).

Lemma keeps_flag f : harmless f -> keeps (flag_template f).
Proof.
  intros Hf p r p' H. unfold flag_template, get, mbind, parsing_bind, modify in H.
  destruct (pc_template p) as [t|] eqn:E; [|by injection H as <- <-].
  injection H as <- <-. split; [done| |done]. cbn. rewrite E. by constructor.
Qed.
Lemma keeps_the_template a : keeps (the_template a).
Proof. unfold the_template. keep. Qed.
Lemma keeps_findTypedef n : keeps (findTypedef n).
Proof. unfold findTypedef. keep. Qed.
#[export] Hint Resolve keeps_the_template keeps_findTypedef : keep.
#[export] Hint Extern 1 (keeps (flag_template _)) => apply keeps_flag; by repeat split : keep.
Lemma keeps_cantAssign a b : keeps (cantAssign a b).
Proof. unfold cantAssign. keep. Qed.
#[export] Hint Resolve keeps_cantAssign : keep.
Lemma keeps_convert_number ty v : keeps (convert_number ty v).
Proof. unfold convert_number. keep. Qed.
#[export] Hint Resolve keeps_convert_number : keep.
Lemma keeps_initScalarValue ty v : keeps (initScalarValue ty v).
Proof. unfold initScalarValue. keep. Qed.
Lemma keeps_initConstScalar a v : keeps (initConstScalar a v).
Proof. unfold initConstScalar. keep. Qed.
#[export] Hint Resolve keeps_initScalarValue keeps_initConstScalar : keep.
Lemma keeps_initConstScalarArray ty l : keeps (initConstScalarArray ty l).
Proof. induction l; cbn; keep. Qed.
Lemma keeps_all_of_type ty l : keeps (all_of_type ty l).
Proof. induction l; cbn; keep. Qed.
#[export] Hint Resolve keeps_initConstScalarArray keeps_all_of_type : keep.
Lemma keeps_string_arrays l : keeps (initConstStringArray l) /\ keeps (initConstWstringArray l).
Proof. unfold initConstStringArray, initConstWstringArray. split; keep. Qed.
#[export] Hint Resolve keeps_string_arrays : keep.

Lemma keeps_parseBorVformat s b c : keeps (parseBorVformat s b c).
Proof. unfold parseBorVformat. keep. Qed.
#[export] Hint Resolve keeps_parseBorVformat : keep.
Lemma keeps_collect_values l : forall d, keeps (collect_values l d).
Proof.
  induction l as [l IH] using (induction_ltof1 _ (@length str)); unfold ltof in IH. intros d.
  destruct l as [|s [|n l]]; cbn [collect_values]; [keep|keep|]. assert (forall d, keeps (collect_values l d)) by (intros; apply IH; cbn; lia).
  keep.
Qed.
Lemma keeps_bitmap_bits s : keeps (bitmap_bits s).
Proof. unfold bitmap_bits. keep. Qed.
#[export] Hint Resolve keeps_bitmap_bits keeps_collect_values : keep.
Lemma keeps_collect_bitmaps l : forall d, keeps (collect_bitmaps l d).
Proof.
  induction l as [l IH] using (induction_ltof1 _ (@length str)); unfold ltof in IH. intros d.
  destruct l as [|s [|n l]]; cbn [collect_bitmaps]; [keep|keep|]. assert (forall d, keeps (collect_bitmaps l d)) by (intros; apply IH; cbn; lia).
  keep.
Qed.
#[export] Hint Resolve keeps_collect_bitmaps : keep.
Lemma keeps_formats f b : keeps (_evlTmplCollectVformat f b) /\ keeps (_evlTmplCollectBformat f b).
Proof. unfold _evlTmplCollectVformat, _evlTmplCollectBformat. split; keep. Qed.
Lemma keeps_bformat f b : keeps (_evlTmplCollectBformat f b).
Proof. apply keeps_formats. Qed.
Lemma keeps_vformat f b : keeps (_evlTmplCollectVformat f b).
Proof. apply keeps_formats. Qed.
#[export] Hint Resolve keeps_bformat keeps_vformat : keep.
Lemma keeps_validateAttName a : keeps (validateAttName a).
Proof. unfold validateAttName. keep. Qed.
Lemma keeps_put_dimension2 d n : keeps (put_dimension2 d n).
Proof. unfold put_dimension2. keep. Qed.
#[export] Hint Resolve keeps_validateAttName keeps_put_dimension2 : keep.
Lemma keeps_variable_dimension a : keeps (variable_dimension a).
Proof. unfold variable_dimension. keep. Qed.
Lemma keeps_const_dimension a : keeps (const_dimension a).
Proof. unfold const_dimension. keep. Qed.
#[export] Hint Resolve keeps_variable_dimension keeps_const_dimension : keep.
Lemma keeps_dimension_by_name a d n : keeps (dimension_by_name a d n).
Proof. unfold dimension_by_name. keep. Qed.
#[export] Hint Resolve keeps_dimension_by_name : keep.
Lemma keeps_validateAttDimension a : keeps (validateAttDimension a).
Proof. unfold validateAttDimension. keep. Qed.
Lemma keeps_validateAttBitField a : keeps (validateAttBitField a).
Proof. unfold validateAttBitField. keep. Qed.
Lemma keeps_handleConstStructAtt a v : keeps (handleConstStructAtt a v).
Proof. unfold handleConstStructAtt. keep. Qed.
#[export] Hint Resolve keeps_validateAttDimension keeps_validateAttBitField keeps_handleConstStructAtt : keep.

Section KeepsInit.
Variable init : tmpl_attribute -> tmpl_type_and_value -> parsing template.
Hypothesis init_keeps : forall a v, keeps (init a v).
Lemma keeps_initConstStructArray a l : keeps (initConstStructArray init a l).
Proof using init_keeps. induction l; cbn [initConstStructArray]; keep. Qed.
Lemma keeps_init_array a d v : keeps (init_array init a d v).
Proof using init_keeps.
  pose proof keeps_initConstStructArray. destruct (keeps_string_arrays (val_list v)).
  unfold init_array, fix_dimension. keep.
Qed.
Lemma keeps_validateAttInitializer a v : keeps (validateAttInitializer init a v).
Proof using init_keeps. pose proof keeps_init_array. unfold validateAttInitializer, init_single. keep. Qed.
Lemma keeps_init_members l : forall v, keeps (init_members init l v).
Proof using init_keeps. pose proof keeps_validateAttInitializer. induction l; intros v; cbn [init_members]; keep. Qed.
End KeepsInit.
Lemma keeps_initStructAtt fuel : forall a v, keeps (initStructAtt fuel a v).
Proof.
  induction fuel as [|fuel IH]; intros a v; cbn [initStructAtt]; [keep|].
  pose proof (keeps_init_members _ IH). unfold init_struct_body. keep.
Qed.
Lemma keeps_initialize a v : keeps (initialize a v).
Proof. apply keeps_validateAttInitializer, keeps_initStructAtt. Qed.
#[export] Hint Resolve keeps_initialize : keep.

Lemma keeps_validateAttDelimiter a : keeps (validateAttDelimiter a).
Proof. unfold validateAttDelimiter, variable_delimiter. keep. Qed.
Lemma keeps_array_conversion a c z : keeps (array_conversion a c z).
Proof. unfold array_conversion. keep. Qed.
#[export] Hint Resolve keeps_validateAttDelimiter keeps_array_conversion : keep.
Lemma keeps_scan_array_format n : forall a c z, keeps (scan_array_format n a c z).
Proof. induction n as [|n IH]; intros a [|d c] z; cbn [scan_array_format]; keep. Qed.
#[export] Hint Resolve keeps_scan_array_format : keep.
Lemma keeps_validate_element_format a f : keeps (validate_element_format a f).
Proof. unfold validate_element_format. keep. Qed.
#[export] Hint Resolve keeps_validate_element_format : keep.
Lemma keeps_validateAttFormat a : keeps (validateAttFormat a).
Proof. unfold validateAttFormat, validate_array_format, validate_scalar_format. keep. Qed.
Lemma keeps_validateAlignment a : keeps (validateAlignment a).
Proof. unfold validateAlignment, validateNonalignment. keep. Qed.
Lemma keeps_copies a td : keeps (copy_dimension a td) /\ keeps (copy_delimiter a td).
Proof. unfold copy_dimension, copy_delimiter. split; keep. Qed.
Lemma keeps_check_R_notLast a : keeps (check_R_notLast a).
Proof. unfold check_R_notLast. keep. Qed.
Lemma keeps_check_bitfield_class a : keeps (check_bitfield_class a).
Proof. unfold check_bitfield_class. keep. Qed.
#[export] Hint Resolve keeps_validateAttFormat keeps_validateAlignment keeps_copies keeps_check_R_notLast keeps_check_bitfield_class : keep.

(** *** Where an import is wanted *)

Section KeepsImport.
Variable import : str -> parsing (option template).
Variable same_template : template -> template -> bool.
Hypothesis import_keeps : forall path, keeps (import path).

Lemma use_import_templates i l : map sr_template (use_import i l) = map sr_template l.
Proof. revert i. induction l as [|r l IH]; intros [|i]; cbn; [done..|]. f_equal. apply IH. Qed.
Lemma keeps_findStructTemplate path : keeps (_evlFindStructTemplate import path).
Proof using import_keeps.
  intros p r p' H. unfold _evlFindStructTemplate in H. apply done_bind in H as [(? & ? & _)|(q & p1 & [= <- <-] & H)]; [done|].
  destruct (best_import _ _ _ _) as [i|]; [|revert H; destruct (has_slash path); intros H; [by eapply keeps_ret|by eapply import_keeps] ].
  apply done_bind in H as [(? & ? & _)|(u & p2 & Hu & H)]; [done|]. transitivity p2.
  - refine (keeps_imports (fun p => use_import i (imports p)) _ p (Some u) p2 Hu). intros. apply use_import_templates.
  - refine ((_ : keeps (sref ← need _; mret _)) _ _ _ H). keep.
Qed.
Hint Resolve keeps_findStructTemplate : keep.
Lemma keeps_validateAttType u a : keeps (validateAttType import u a).
Proof using import_keeps. unfold validateAttType. keep. Qed.
Lemma register_templates st l : map sr_template (_evlRegisterStructRef same_template st l) = map sr_template l.
Proof. induction l as [|r l IH]; cbn; [done|]. destruct (same_template _ _); cbn; congruence. Qed.
Lemma keeps_register st : keeps (modify (fun p => set_imports (_evlRegisterStructRef same_template st (imports p)) p)).
Proof. apply keeps_imports. intros. apply register_templates. Qed.
Hint Resolve keeps_register : keep.
Lemma keeps_applyTypedefIfAny u a : keeps (applyTypedefIfAny same_template u a).
Proof. pose proof keeps_copies as Hc. unfold applyTypedefIfAny. keep. all: by apply Hc. Qed.
Hint Resolve keeps_validateAttType keeps_applyTypedefIfAny : keep.
Lemma keeps_check_type u a : keeps (check_type import same_template u a).
Proof using import_keeps. unfold check_type. keep. Qed.
Lemma keeps_check_value a v : keeps (check_value a v).
Proof. unfold check_value. keep. Qed.
Hint Resolve keeps_check_type keeps_check_value : keep.
Lemma keeps_check_attribute u a v : keeps (check_attribute import same_template u a v).
Proof using import_keeps. unfold check_attribute. keep. Qed.
End KeepsImport.
#[export] Hint Resolve keeps_findStructTemplate keeps_validateAttType keeps_applyTypedefIfAny keeps_check_type keeps_check_value
  keeps_check_attribute : keep.
