(* ===== verification/TmplValues.v ===== *)
(** * Initial values have the type of their attribute

    What [initialize] of [TmplCheck] gives a const attribute, a struct or an array of them
    included, is a value of the attribute's type as [TmplTyping] has it. *)
From S2P Require Import Prelude NvPairs LogRecord QEvaluate LogSink RecPack Format Conv Tmpl TmplPop TmplSafe TmplInit TmplCheck TmplTyping.

Lemma lift_ok {A} (o : outcome A) p a p' : lift o p = Done (Some a, p') <-> o = Done a /\ p' = p.
Proof. unfold lift. destruct o; naive_solver. Qed.
Lemma need_ok {A} (o : option A) p a p' : need o p = Done (Some a, p') <-> o = Some a /\ p' = p.
Proof. unfold need. rewrite lift_ok, reading_done. done. Qed.
Lemma get_ok p q p' : get p = Done (Some q, p') <-> q = p /\ p' = p.
Proof. unfold get. naive_solver. Qed.
Lemma error_ok {A} msg p (a : A) p' : error msg p = Done (Some a, p') <-> False.
Proof. split; [|done]. unfold error, mbind, parsing_bind. destruct (semanticError msg p) as [[[?|] ?]|]; done. Qed.
Lemma ret_ok {A} (a b : A) p p' : (mret a : parsing A) p = Done (Some b, p') <-> b = a /\ p' = p.
Proof. unfold mret, parsing_ret. naive_solver. Qed.

(** ** Numbers *)

Lemma wrap_in_type ty z : isInteger ty = true -> in_type ty (wrap_int ty z) = true.
Proof.
  intros H. unfold in_type, local_size. destruct ty; try discriminate H; cbn [wrap_int is_signed];
  match goal with |- context [arch_type_info ?a ?t] => let v := eval vm_compute in (arch_type_info a t) in change (arch_type_info a t) with v end;
  cbn [at_size Z.mul]; apply andb_true_iff; rewrite Z.leb_le, Z.ltb_lt;
  match goal with
  | |- context [signed ?n ?y] => pose proof (signed_range n y ltac:(lia)) as Hr
  | |- context [unsigned ?n ?y] => pose proof (unsigned_range n y ltac:(lia)) as Hr
  end; unfold in_signed, in_unsigned in Hr; lia.
Qed.
Lemma type_size_nonneg ty : 0 <= type_size ty.
Proof. by destruct ty. Qed.

Lemma length_ldouble bs : length (ldouble_of_double bs) = 10%nat.
Proof.
  unfold ldouble_of_double. match goal with |- context [let '(e, m) := ?x in _] => destruct x end.
  by rewrite length_app, !length_le_encode.
Qed.
Lemma length_double_to_float bs : length (double_to_float bs) = 4%nat.
Proof. unfold double_to_float. apply length_le_encode. Qed.
Lemma length_ldouble_of_int z : length (ldouble_of_int z) = 16%nat.
Proof. unfold ldouble_of_int. case_match; by rewrite !length_app, ?length_le_encode. Qed.

(** The value's type. *)
Definition number_of_type (ty : base_type) (v : tmpl_value template) : Prop :=
  (exists z, v = VInt z /\ isInteger ty = true /\ in_type ty z = true) \/
  (exists bs, v = VReal bs /\ is_real ty = true /\ Z.of_nat (length bs) = type_size ty).

Lemma cast_to_int_type ty v z : isInteger ty = true -> cast_to_int (T := tmpl_type_and_value) ty v = Done z -> in_type ty z = true.
Proof.
  intros Ht H. unfold cast_to_int in H. destruct v; try done; [injection H as <-; by apply wrap_in_type|].
  destruct (trunc_double bs) as [y|]; [|done]. destruct (y =? wrap_int ty y) eqn:E; [|done]. injection H as <-.
  apply Z.eqb_eq in E. rewrite E. by apply wrap_in_type.
Qed.
Lemma cast_to_real_length ty v bs : is_real ty = true -> (forall l, v = VReal l -> length l = 8%nat) ->
  cast_to_real (T := tmpl_type_and_value) ty v = Done bs -> Z.of_nat (length bs) = type_size ty.
Proof.
  intros Ht Hv H. unfold cast_to_real in H.
  destruct v, ty; try done; injection H as <-;
    rewrite ?length_ldouble_of_int, ?length_double_to_float, ?length_app, ?length_ldouble; unfold double_of_int, float_of_int;
    rewrite ?length_le_encode; try done; by rewrite (Hv _ eq_refl).
Qed.
Lemma convert_number_type ty v p w p' : tv_ok v -> convert_number ty v p = Done (Some w, p') -> number_of_type ty w.
Proof.
  intros Hv H. unfold convert_number in H.
  assert (forall l, tv_value v = VReal l -> length l = 8%nat) as Hl by (by inversion Hv; subst; cbn; intros ? [= <-]).
  destruct ty; try (by apply ok_bind in H as (? & ? & _ & H));
    repeat match type of H with
    | (if ?b then _ else _) _ = _ => destruct b
    | (match ?b with _ => _ end) _ = _ => destruct b
    end; try (by apply ok_bind in H as (? & ? & _ & H));
    apply ok_bind in H as (x & p1 & [H1 ->]%lift_ok & [-> ->]%ret_ok);
    first [ left; eexists; split; [done|]; split; [done|]; by eapply cast_to_int_type
          | right; eexists; split; [done|]; split; [done|]; by eapply cast_to_real_length ].
Qed.

(** ** Initial values *)

Lemma length_value_bytes ty v : number_of_type ty v -> Z.of_nat (length (stored_bytes ty v)) = type_size ty.
Proof.
  pose proof (type_size_nonneg ty).
  intros [(z & -> & _)|(bs & -> & _ & Hl)]; cbn [stored_bytes]; [rewrite length_le_encode; lia|rewrite length_take; lia].
Qed.
Lemma number_numeric ty v : number_of_type ty v -> isInteger ty || is_real ty = true.
Proof. intros [(z & _ & -> & _)|(bs & _ & -> & _)]; [done|apply orb_true_r]. Qed.
Lemma scalar_of_type ty v p w p' : tv_ok v ->
  (if bool_decide (ty = tv_type v) then
     match tv_value v with VInt z => mret (VInt z) | VReal bs => mret (VReal bs) | _ => lift (Fault Undefined) end
   else convert_number ty v) p = Done (Some w, p') -> number_of_type ty w.
Proof.
  intros Hv H. case_bool_decide as E; [|by eapply convert_number_type].
  destruct Hv; cbn in *; subst ty; try done; apply ret_ok in H as [-> _].
  - left. by eexists.
  - left. by eexists.
  - right. eexists. split; [done|]. split; [done|]. by rewrite H0.
Qed.
Lemma initScalarValue_ok ty v p bs p' : tv_ok v -> initScalarValue ty v p = Done (Some bs, p') ->
  isInteger ty || is_real ty = true /\ Z.of_nat (length bs) = type_size ty.
Proof.
  intros Hv H. unfold initScalarValue in H. apply ok_bind in H as (w & p1 & Hw%scalar_of_type & [-> ->]%ret_ok); [|done].
  split; [by eapply number_numeric|by apply length_value_bytes].
Qed.
Lemma initConstScalarArray_ok ty l : forall p mem p', Forall tv_ok l -> initConstScalarArray ty l p = Done (Some mem, p') ->
  (l <> [] -> isInteger ty || is_real ty = true) /\ Z.of_nat (length mem) = bytes_of_type ty (Z.of_nat (length l)).
Proof.
  unfold bytes_of_type. induction l as [|v l IH]; intros p mem p' Hl H; cbn [initConstScalarArray] in H; [by apply ret_ok in H as [-> _]|].
  inversion Hl; subst. apply ok_bind in H as (bs & p1 & (Hn & Hb)%initScalarValue_ok & H); [|done].
  apply ok_bind in H as (rest & p2 & Hr & [-> ->]%ret_ok). destruct (IH _ _ _ ltac:(done) Hr) as [_ Hlen].
  split; [done|]. rewrite length_app, Nat2Z.inj_add, Hb, Hlen. cbn [length]. lia.
Qed.

(** *** Strings *)

Lemma all_of_type_ok ty l : forall p u p', all_of_type ty l p = Done (Some u, p') -> Forall (fun v => tv_type v = ty) l.
Proof.
  induction l as [|v l IH]; intros p u p' H; cbn [all_of_type] in H; [constructor|].
  case_bool_decide; [|by apply ok_bind in H as (? & ? & _ & H)]. constructor; [done|by eapply IH].
Qed.
Lemma initConstStringArray_ok l p mem p' : Forall tv_ok l -> initConstStringArray l p = Done (Some mem, p') -> strings_in (length l) mem.
Proof.
  intros Hl H. unfold initConstStringArray in H.
  apply ok_bind in H as (? & ? & _ & H). apply ok_bind in H as (? & ? & Hty%all_of_type_ok & H). apply ret_ok in H as [-> _].
  induction Hl as [|v l Hv Hl IH]; cbn; [done|]. inversion Hty; subst. destruct Hv; try done. cbn.
  do 2 eexists. rewrite <-app_assoc. split; [done|]. split; [done|]. by apply IH.
Qed.

Lemma wcslen_go_spec fuel : forall mem k, wcslen_go fuel mem = Some k ->
  0 <= k /\ (Z.to_nat ((k + 1) * WCSZ) <= length mem)%nat /\
  forall fuel' rest, (Z.to_nat k < fuel')%nat -> wcslen_go fuel' (take (Z.to_nat ((k + 1) * WCSZ)) mem ++ rest) = Some k.
Proof.
  unfold WCSZ. induction fuel as [|fuel IH]; intros mem k H; cbn [wcslen_go] in H; [done|].
  destruct (length mem <? 4)%nat eqn:El; [done|]. apply Nat.ltb_ge in El.
  assert (forall n rest, (4 <= n)%nat -> take 4 (take n mem ++ rest) = take 4 mem) as Ht4.
  { intros n rest Hn. rewrite take_app_le by (rewrite length_take; lia). by rewrite take_take, Nat.min_l by lia. }
  destruct (wnull mem) eqn:Ew.
  - injection H as <-. split; [lia|]. split; [cbn; lia|]. intros [|fuel'] rest Hf; [lia|]. cbn [wcslen_go].
    rewrite (proj2 (Nat.ltb_ge _ _)) by (rewrite length_app, length_take; cbn; lia).
    unfold wnull in *. by rewrite Ht4, Ew by (cbn; lia).
  - apply fmap_Some in H as (j & Hj & ->). destruct (IH _ _ Hj) as (Hj0 & Hlen & Hall). rewrite length_drop in Hlen.
    replace (Z.to_nat ((Z.succ j + 1) * 4)) with (4 + Z.to_nat ((j + 1) * 4))%nat in * by lia.
    split; [lia|]. split; [lia|]. intros [|fuel'] rest Hf; [lia|]. cbn [wcslen_go].
    rewrite (proj2 (Nat.ltb_ge _ _)) by (rewrite length_app, length_take; lia).
    unfold wnull in *. rewrite Ht4, Ew by lia.
    rewrite drop_app_le by (rewrite length_take; lia). rewrite <-take_drop_commute. rewrite Hall by lia. done.
Qed.
Lemma wide_string_ok mem ws rest : wide_string mem = Done ws ->
  exists k, wcslen (ws ++ rest) = Some k /\ length ws = Z.to_nat ((k + 1) * WCSZ).
Proof.
  unfold wide_string. intros (k & Hk%reading_done & [= <-])%bind_done. unfold wcslen in Hk.
  destruct (wcslen_go_spec _ _ _ Hk) as (H0 & Hlen & Hall). exists k. rewrite length_take. split; [|lia].
  unfold wcslen. apply Hall. rewrite length_app, length_take. unfold WCSZ in *. lia.
Qed.
Lemma wstrings_of_one ws mem : wide_string mem = Done ws -> wstrings_in 1 ws.
Proof.
  intros H. destruct (wide_string_ok _ _ [] H) as (k & Hk & Hl). rewrite app_nil_r in Hk. exists k. split; [done|].
  cbn. by rewrite drop_ge by lia.
Qed.
Lemma initConstWstringArray_ok l p mem p' : Forall tv_ok l -> initConstWstringArray l p = Done (Some mem, p') -> wstrings_in (length l) mem.
Proof.
  intros Hl H. unfold initConstWstringArray in H.
  apply ok_bind in H as (? & ? & _ & H). apply ok_bind in H as (? & ? & Hty%all_of_type_ok & H).
  apply ok_bind in H as (ls & p2 & [Hm ->]%lift_ok & [-> ->]%ret_ok). revert ls Hm.
  induction Hl as [|v l Hv Hl IH]; intros ls Hm; cbn in Hm; [by injection Hm as <-|]. inversion Hty; subst. destruct Hv; try done. cbn in Hm.
  apply bind_done in Hm as (w & Hw & Hm). apply bind_done in Hm as (ls' & Hls & Hm). injection Hm as <-.
  cbn [concat]. destruct (wide_string_ok _ _ (concat ls') Hw) as (k' & Hk & Hlen). exists k'. split; [done|].
  rewrite <-Hlen, drop_app_length. by apply IH.
Qed.

(** *** Attributes and structs *)

(** Initialization changes the value, and gives an implied dimension its size. *)
Definition fixed_dimension (a a' : tmpl_attribute) : Prop :=
  ta_dimension a' = ta_dimension a \/
  exists d n, ta_dimension a = Some d /\ td_type d = TMPL_DIM_IMPLIED /\ 0 < n /\ ta_dimension a' = Some (mkDim TMPL_DIM_CONST n (td_addr d)).
Record initialized (a a' : tmpl_attribute) : Prop := {
  in_name : ta_name a' = ta_name a;
  in_ty : ta_type a' = ta_type a;
  in_struct : ta_struct a' = ta_struct a;
  in_format : ta_format a' = ta_format a;
  in_shared : af_shared a' = af_shared a;
  in_delimiter : ta_delimiter a' = ta_delimiter a;
  in_flags : ta_flags a' = ta_flags a;
  in_index : ta_index a' = ta_index a;
  in_array : isArray a' = isArray a;
  in_dimension : fixed_dimension a a'
}.
Lemma initialized_value a v : initialized a (set_ta_value a v).
Proof. split; try done. by left. Qed.
Lemma initialized_dim_value a d n v : ta_dimension a = Some d -> td_type d = TMPL_DIM_IMPLIED -> 0 < n ->
  initialized a (set_ta_value (set_dim a TMPL_DIM_CONST n d) v).
Proof.
  intros Ha Hd Hn. split; try done.
  - unfold isArray, isBitField. cbn. by rewrite Ha.
  - right. by exists d, n.
Qed.
Definition struct_typed (a : tmpl_attribute) : Prop := isStruct a = true -> forall st, ta_struct a = Some st -> wt st.
Definition struct_value (t : template) : Prop := isPopulatedTmpl t = true /\ Forall has_value (tm_attributes t).

Section InitOk.
Variable init : tmpl_attribute -> tmpl_type_and_value -> parsing template.
Hypothesis init_ok : forall a v p t p', tv_ok v -> isStruct a = true -> struct_typed a -> init a v p = Done (Some t, p') -> struct_value t.

Lemma initConstStructArray_ok a l : isStruct a = true -> struct_typed a -> forall p ts p', Forall tv_ok l ->
  initConstStructArray init a l p = Done (Some ts, p') -> length ts = length l /\ Forall struct_value ts.
Proof using init_ok.
  intros Hs Ha. induction l as [|v l IH]; intros p ts p' Hl H; cbn [initConstStructArray] in H; [by apply ret_ok in H as [-> _]|].
  inversion Hl; subst. apply ok_bind in H as (t & p1 & Ht & H). apply ok_bind in H as (rest & p2 & Hr & [-> ->]%ret_ok).
  destruct (IH _ _ _ ltac:(done) Hr) as [Hlen Hf]. cbn [length]. split; [lia|]. constructor; [by eapply init_ok|done].
Qed.
Lemma fix_dimension_ok a d n p a' p' : ta_dimension a = Some d -> fix_dimension a d n p = Done (Some (a', n), p') -> 0 < n ->
  exists d', ta_dimension a' = Some d' /\ td_type d' = TMPL_DIM_CONST /\ td_dimension d' = n /\ ta_type a' = ta_type a /\
    ta_struct a' = ta_struct a /\ isArray a' = isArray a /\ (forall v, initialized a (set_ta_value a' v)).
Proof.
  intros Ha H Hn. unfold fix_dimension in H. destruct (td_type d) eqn:Ed; try done.
  - apply ret_ok in H as [[= -> ->] _]. exists d. split_and!; try done. intros v. apply initialized_value.
  - apply ok_bind in H as (? & ? & _ & [[= ->] _]%ret_ok). eexists. split; [done|]. split_and!; try done.
    + unfold isArray, isBitField. cbn. by rewrite Ha.
    + intros v. by apply initialized_dim_value.
Qed.
Lemma init_array_ok a d v p a' p' : isArray a = true -> ta_dimension a = Some d -> tv_ok v -> struct_typed a ->
  init_array init a d v p = Done (Some a', p') -> initialized a a' /\ has_value a'.
Proof using init_ok.
  intros Harr Hd Hv Ha H. unfold init_array in H. destruct (negb _) eqn:Et; [by apply error_ok in H|]. apply negb_false_iff, bool_decide_eq_true in Et.
  destruct Hv as [| | | | |l Hne Hl]; try done. cbn [val_list tv_value] in H.
  assert (0 < Z.of_nat (length l)) as Hpos by (destruct l; [done|cbn; lia]).
  apply ok_bind in H as ([b nel] & p1 & Hb & H). destruct (negb (nel =? _)) eqn:En; [by apply error_ok in H|]. apply negb_false_iff, Z.eqb_eq in En. subst nel.
  destruct (fix_dimension_ok _ _ _ _ _ _ Hd Hb Hpos) as (d' & Hd' & Hc & Hn & Hty & Hst & Hia & Hin).
  assert (forall mem, (match ta_type b with
      | TY_STRING => strings_in (length l) mem
      | TY_WSTRING => wstrings_in (length l) mem
      | ty => (isInteger ty || is_real ty) = true /\ Z.of_nat (length mem) = bytes_of_type ty (Z.of_nat (length l))
      end) -> initialized a (set_ta_value b (VArray true mem)) /\ has_value (set_ta_value b (VArray true mem))) as Hmem.
  { intros mem Hm. split; [done|]. apply (has_array _ d' mem).
    - change (isArray b = true). congruence.
    - done.
    - done.
    - lia.
    - done.
    - cbn [ta_type set_ta_value]. rewrite Hn, Nat2Z.id. exact Hm. }
  destruct (ta_type b) eqn:Etb;
    try (apply ok_bind in H as (mem & p2 & Hmem' & [-> ->]%ret_ok); apply Hmem;
         first [by eapply initConstStringArray_ok | by eapply initConstWstringArray_ok
               | destruct (initConstScalarArray_ok _ _ _ _ _ Hl Hmem') as [Hx Hy]; split; [by apply Hx|done] ]).
  apply ok_bind in H as (ts & p2 & Hts & H).
  assert (isStruct b = true) as Hsb by (unfold isStruct; by rewrite Etb).
  assert (struct_typed b) as Hstb by (intros _ st E; apply Ha; [unfold isStruct; by rewrite <-Hty|by rewrite <-Hst]).
  destruct (initConstStructArray_ok _ _ Hsb Hstb _ _ _ Hl Hts) as [Hlen Hf].
  case_bool_decide; [done|]. apply ret_ok in H as [-> ->]. split; [done|].
  apply (has_structs _ d' ts); try done; [|lia|lia].
  change (isArray b = true). congruence.
Qed.
Lemma init_single_ok a v p a' p' : isArray a = false -> tv_ok v -> init_single a v p = Done (Some a', p') ->
  initialized a a' /\ has_value a'.
Proof.
  intros Harr Hv H. unfold init_single in H. apply ok_bind in H as (w & p1 & Hw & H).
  assert (tv_ok w) as Hwok.
  { case_bool_decide; [|apply ret_ok in Hw as [-> _]; done]. destruct Hv; try done. cbn [val_list tv_value] in Hw.
    destruct l as [|w' [|]]; [by apply ok_bind in Hw as (? & ? & _ & ?)| |by apply ok_bind in Hw as (? & ? & _ & ?)].
    apply ret_ok in Hw as [-> _]. apply (proj1 (Forall_singleton tv_ok w')). done. }
  clear Hw Hv v. unfold initConstScalar in H. case_bool_decide as E.
  - destruct Hwok; cbn [tv_type tv_value] in *; try done.
    + apply ret_ok in H as [-> _]. split; [apply initialized_value|]. eapply has_int; try done; cbn; by rewrite <-E.
    + apply ret_ok in H as [-> _]. split; [apply initialized_value|]. eapply has_int; try done; cbn; by rewrite <-E.
    + apply ret_ok in H as [-> _]. split; [apply initialized_value|]. eapply has_real; try done; cbn; rewrite <-E; [done|by rewrite H0].
    + apply ret_ok in H as [-> _]. split; [apply initialized_value|]. by eapply has_string.
    + apply ok_bind in H as (ws' & p2 & [Hw ->]%lift_ok & [-> _]%ret_ok). split; [apply initialized_value|].
      eapply has_wstring; try done. by eapply wstrings_of_one.
  - apply ok_bind in H as (w' & p2 & Hn%convert_number_type & [-> _]%ret_ok); [|done]. split; [apply initialized_value|].
    destruct Hn as [(z & -> & ? & ?)|(bs & -> & ? & ?)]; [by eapply has_int|by eapply has_real].
Qed.
Lemma validateAttInitializer_ok a val p a' p' : (forall v, val = Some v -> tv_ok v) -> struct_typed a ->
  validateAttInitializer init a val p = Done (Some a', p') ->
  initialized a a' /\ (if isConstAtt a then has_value a' else ta_value a' = ta_value a).
Proof using init_ok.
  intros Hv Ha H. unfold validateAttInitializer in H. apply ok_bind in H as (status & p1 & Hs & H).
  assert (match status with Some b => isConstAtt a = true /\ initialized a b /\ has_value b | None => True end) as Hst.
  { unfold handleConstStructAtt in Hs. destruct (negb (isStruct a)) eqn:Es; [by apply ret_ok in Hs as [-> _]|]. apply negb_false_iff in Es.
    apply ok_bind in Hs as (m & p2 & [Hm ->]%need_ok & Hs). destruct (negb (isConstStructTmpl m)) eqn:Ec; [by apply ret_ok in Hs as [-> _]|].
    apply negb_false_iff in Ec. destruct (isConstAtt a) eqn:Eca; cbn in Hs; [|by apply error_ok in Hs].
    destruct val; [by apply error_ok in Hs|]. destruct (isArray a) eqn:Earr; [by apply error_ok in Hs|]. apply ret_ok in Hs as [-> _].
    split; [done|]. split; [apply initialized_value|]. eapply has_struct; try done. by left. }
  destruct status as [b|]; [apply ret_ok in H as [-> _]; destruct Hst as (-> & ? & ?); by split|]. clear Hst Hs.
  destruct (isConstAtt a) eqn:Eca.
  - destruct val as [v|]; [|by apply error_ok in H]. specialize (Hv v eq_refl).
    destruct (isArray a) eqn:Earr.
    + destruct (ta_dimension a) as [d|] eqn:Ed; [by eapply init_array_ok|]. unfold isArray in Earr. by rewrite Ed in Earr.
    + destruct (isStruct a) eqn:Es; [|by eapply init_single_ok].
      apply ok_bind in H as (t & p2 & Ht & [-> _]%ret_ok). split; [apply initialized_value|].
      eapply has_struct; try done. right. by eapply init_ok.
  - destruct val; [destruct (isTypedef a); by apply error_ok in H|]. apply ret_ok in H as [-> _]. split; [|done].
    split; try done. by left.
Qed.
Lemma init_members_ok l : forall vs p l' p', Forall tv_ok vs ->
  Forall (fun m => struct_typed m /\ (isConstAtt m = true -> has_value m)) l ->
  init_members init l vs p = Done (Some l', p') -> Forall has_value l'.
Proof using init_ok.
  induction l as [|m l IH]; intros vs p l' p' Hvs Hl H; cbn [init_members] in H; [by apply ret_ok in H as [-> _]|].
  inversion Hl as [|? ? [Hm Hc] Hl']; subst. destruct (isConstAtt m) eqn:Em.
  - apply ok_bind in H as (rest & p1 & Hr & [-> _]%ret_ok). constructor; [by apply Hc|by eapply IH].
  - apply ok_bind in H as (v & p1 & [Hh ->]%need_ok & H). destruct vs as [|v' vs]; [done|]. injection Hh as ->. inversion Hvs; subst.
    set (m1 := set_ta_flags m _) in H. apply ok_bind in H as (m' & p2 & Hm' & H). apply ok_bind in H as (rest & p3 & Hr & [-> _]%ret_ok).
    assert (isConstAtt m1 = true) as Hc1 by (unfold isConstAtt, m1; cbn; rewrite !has_set; cbn; by rewrite orb_true_r).
    destruct (validateAttInitializer_ok m1 (Some v) _ _ _ ltac:(by intros ? [= <-]) Hm Hm') as [_ Hv].
    rewrite Hc1 in Hv. constructor; [done|by eapply IH].
Qed.
End InitOk.

(** The clone that is initialized: its const members are those of the struct. *)
Lemma cloned_attribute a s c s' : cloneAttribute a s = Done (c, s') ->
  ta_type c = ta_type a /\ ta_struct c = ta_struct a /\ isConstAtt c = isConstAtt a /\ (isConstAtt a = true -> c = a).
Proof.
  unfold cloneAttribute. destruct (isConstAtt a) eqn:Ec; [by intros [= <- <-]|].
  intros ([d s1] & _ & H)%bind_done. cbn in H. destruct (clone_delimiter a s1) as [de s2]. injection H as <- <-.
  split_and!; try done. unfold isConstAtt in *. cbn. by rewrite has_set, Ec.
Qed.
Lemma cloned_members l : forall s c s', clone_attributes l s = Done (c, s') ->
  Forall (fun m => struct_typed m /\ (isConstAtt m = true -> has_value m)) l ->
  Forall (fun m => struct_typed m /\ (isConstAtt m = true -> has_value m)) c.
Proof.
  induction l as [|a l IH]; intros s c s' H Hl; cbn in H; [by injection H as <- <-|]. inversion Hl as [|? ? [Hst Hc] Hl']; subst.
  apply bind_done in H as ([b s1] & Hb & H). apply bind_done in H as ([r s2] & Hr & [= <- <-]).
  destruct (cloned_attribute _ _ _ _ Hb) as (Hty & Hs & Hcc & Heq). constructor; [|by eapply IH]. split.
  - intros Hb' st E. apply Hst; [unfold isStruct in *; by rewrite <-Hty|by rewrite <-Hs].
  - intros Hcb. rewrite Hcc in Hcb. rewrite Heq by done. by apply Hc.
Qed.
Lemma wt_members m : wt m -> Forall (fun a => struct_typed a /\ (isConstAtt a = true -> has_value a)) (tm_attributes m).
Proof.
  intros [_ _ _ Hatt _ Hst]. apply Forall_lookup_2. intros i a Hi. split.
  - intros Hs st E. eapply Hst; [|done..]. by eapply list_elem_of_lookup_2.
  - intros Hc. pose proof (ok_value _ _ _ (Hatt i a Hi)) as Hv. by rewrite Hc in Hv.
Qed.
Lemma initStructAtt_ok fuel : forall a v p t p', tv_ok v -> isStruct a = true -> struct_typed a ->
  initStructAtt fuel a v p = Done (Some t, p') -> struct_value t.
Proof.
  induction fuel as [|fuel IH]; intros a v p t p' Hv Hs Ha H; cbn [initStructAtt] in H; [done|]. unfold init_struct_body in H.
  destruct (negb _) eqn:Et; [by apply error_ok in H|]. apply negb_false_iff, bool_decide_eq_true in Et.
  apply ok_bind in H as (m & p1 & [Hm ->]%need_ok & H). destruct (negb _) eqn:En; [by apply error_ok in H|].
  apply ok_bind in H as (c & p2 & Hc & H). apply ok_bind in H as (l & p3 & Hl & [-> ->]%ret_ok).
  destruct Hv as [| | | | |vs Hne Hvs]; try done. cbn [val_list tv_value] in Hl.
  split; [unfold isPopulatedTmpl; cbn; by rewrite has_set, orb_true_r|].
  eapply (init_members_ok _ IH); [exact Hvs| |exact Hl].
  unfold with_store in Hc. destruct (_evlCloneTemplate m (ps_store p)) as [[c' s']|] eqn:E; [|done]. injection Hc as <- <-.
  unfold _evlCloneTemplate in E. apply bind_done in E as (_ & _ & E). apply bind_done in E as (_ & _ & E).
  apply bind_done in E as ([c s2] & Hcl & [= <- <-]). cbn [tm_attributes set_state set_attributes].
  eapply cloned_members; [exact Hcl|]. by apply wt_members, Ha.
Qed.
Lemma initialize_ok a val p a' p' : (forall v, val = Some v -> tv_ok v) -> struct_typed a -> initialize a val p = Done (Some a', p') ->
  initialized a a' /\ (if isConstAtt a then has_value a' else ta_value a' = ta_value a).
Proof. apply validateAttInitializer_ok. apply initStructAtt_ok. Qed.
