(* ===== verification/TmplTyped.v ===== *)
(** * Accepted templates are well typed

    Each check of [TmplCheck], when it succeeds, gives its part of the typing in
    [TmplTyping]; [getTemplatesFromFile] puts them together. *)
From S2P Require Import Prelude NvPairs LogRecord QEvaluate LogSink RecPack Format Conv Tmpl TmplPop TmplSafe TmplInit TmplCheck TmplTyping TmplValues.

(** ** What the checks leave of an attribute *)

(** Dimension, format and delimiter aside, and the value, an attribute stays the same. *)
Record kept (a a' : tmpl_attribute) : Prop := {
  kp_name : ta_name a' = ta_name a;
  kp_type : ta_type a' = ta_type a;
  kp_struct : ta_struct a' = ta_struct a;
  kp_bitfield : isBitField a' = isBitField a;
  kp_const : isConstAtt a' = isConstAtt a;
  kp_typedef : isTypedef a' = isTypedef a;
  kp_exists : attExists a' = attExists a;
  kp_dimension : is_Some (ta_dimension a') <-> is_Some (ta_dimension a)
}.
#[export] Instance kept_refl : Reflexive kept.
Proof. by split. Qed.
#[export] Instance kept_trans : Transitive kept.
Proof. intros a b c [] []. split; try congruence. tauto. Qed.
Lemma kept_array a a' : kept a a' -> isArray a' = isArray a.
Proof.
  intros [_ _ _ Hb _ _ _ Hd]. unfold isArray. rewrite Hb. f_equal. apply bool_decide_ext. tauto.
Qed.
Lemma kept_struct a a' : kept a a' -> isStruct a' = isStruct a.
Proof. intros [_ Ht _ _ _ _ _ _]. unfold isStruct. by rewrite Ht. Qed.
Lemma kept_format a f sh : kept a (set_format a f sh).
Proof. by split. Qed.
Lemma kept_delimiter a de : kept a (set_ta_delimiter a de).
Proof. by split. Qed.
Lemma kept_value a v : kept a (set_ta_value a v).
Proof. by split. Qed.
Lemma kept_dim a d d' : ta_dimension a = Some d -> kept a (set_ta_dimension a (Some d')).
Proof. by intros H; split. Qed.
Lemma kept_impldim a : kept a (set_ta_flags a (set_flag (ta_flags a) EVL_ATTR_IMPLDIM)).
Proof.
  split; try done; unfold isBitField, isConstAtt, isTypedef, attExists; cbn; rewrite has_set; cbn; by rewrite ?orb_false_r.
Qed.
Lemma kept_initialized a a' : initialized a a' -> kept a a'.
Proof.
  intros [H1 H2 H3 _ _ _ H4 _ _ H5]. unfold isBitField, isConstAtt, isTypedef, attExists.
  split; unfold isBitField, isConstAtt, isTypedef, attExists; rewrite ?H4; try done.
  destruct H5 as [->|(d & n & -> & _ & _ & ->)]; [done|]. split; by eexists.
Qed.

(** ** Flags of the template *)

(** [t'] differs in its static part and has more flags. *)
Record grows (t t' : template) : Prop := {
  gr_has : forall f, tm_has t f = true -> tm_has t' f = true;
  gr_struct : isStructTmpl t' = isStructTmpl t;
  gr_clone : tm_clone (tm_state t') = tm_clone (tm_state t)
}.
Lemma grows_or f t : grows t (or_tm_flags f t).
Proof. split; try done. intros g H. unfold tm_has, or_tm_flags in *. cbn. by rewrite has_set, H. Qed.
Lemma same_grows t t' : same_shape t t' -> grows t t'.
Proof. intros [u g _]. apply grows_or. Qed.
Lemma grows_find t t' env name : grows t t' -> _evlTmplFindAttribute (declared t' env) name = _evlTmplFindAttribute (declared t env) name.
Proof.
  intros [_ _ Hc]. unfold _evlTmplFindAttribute.
  destruct (String.length name); cbn [findAttByScopedName]; unfold findAttBySimpleName, isMasterTmpl; cbn; by rewrite ?Hc.
Qed.
Lemma same_has t t' f : same_shape t t' -> tm_has t f = true -> tm_has t' f = true.
Proof. intros H. by apply (gr_has _ _ (same_grows _ _ H)). Qed.
Lemma same_attributes t t' : same_shape t t' -> tm_attributes t' = tm_attributes t.
Proof. by intros [u g _]. Qed.
Lemma same_aligned t t' : same_shape t t' -> isAlignedTmpl t' = isAlignedTmpl t /\ isPopulatedTmpl t' = isPopulatedTmpl t.
Proof.
  intros [u g (H1 & H2 & H3)]. unfold isPopulatedTmpl, isAlignedTmpl, or_tm_flags. cbn. by rewrite !has_set, H1, H2, !orb_false_r.
Qed.
Lemma dimension_ok_mono t t' env a : grows t t' -> dimension_ok t env a -> dimension_ok t' env a.
Proof.
  intros H. unfold dimension_ok. destruct (ta_dimension a) as [d|]; [|done]. destruct (td_type d); try done.
  - rewrite (gr_struct _ _ H). intros (? & ? & ? & ? & ?). split_and!; try done. by apply H.
  - intros (? & ? & ?). split_and!; try done. by apply H.
  - intros (? & ? & b & Hb & ?). split_and!; try done. exists b. by rewrite (grows_find t t').
Qed.
Lemma delimiter_ok_mono t t' env a : grows t t' -> delimiter_ok t env a -> delimiter_ok t' env a.
Proof.
  intros H. unfold delimiter_ok. destruct (ta_delimiter a) as [d|]; [|done]. destruct (de_type d); try done.
  intros (? & ? & b & Hb & ?). split_and!; try done. exists b. by rewrite (grows_find t t').
Qed.
Lemma type_ok_mono t t' a : grows t t' -> type_ok t a -> type_ok t' a.
Proof.
  intros H (H1 & H2 & H3). split_and!; try done. intros Hs. destruct (H3 Hs) as (st & Hst & He & Hi).
  exists st. rewrite (gr_struct _ _ H). split_and!; try done.
  - intros E. by apply H, He.
  - intros E. specialize (Hi E). destruct (isStructTmpl t); [|done]. by apply H.
Qed.
Lemma name_ok_mono t t' env a : grows t t' -> name_ok t env a -> name_ok t' env a.
Proof. intros H. unfold name_ok. destruct (ta_name a); [|done]. by rewrite (grows_find t t'). Qed.
Lemma attribute_ok_mono t t' env a : grows t t' -> (isAlignedTmpl t' = true -> isAlignedTmpl t = true \/ isConstAtt a = true) ->
  attribute_ok t env a -> attribute_ok t' env a.
Proof.
  intros H Hal [Hn Ht Hd Hde Hf Ha Hv Htd Hi]. split; try done.
  - by eapply name_ok_mono.
  - by eapply type_ok_mono.
  - by eapply dimension_ok_mono.
  - by eapply delimiter_ok_mono.
  - intros Hat Hc. destruct (Hal Hat); [by apply Ha|congruence].
Qed.

(** ** Each check *)

(** Takes a successful step apart. *)
Ltac step H :=
  lazymatch type of H with
  | mret _ _ = Done (Some _, _) => first [apply ret_ok in H as [-> ->] | apply ret_ok in H as [? ?]; subst]
  | failed _ = Done (Some _, _) => discriminate H
  | error _ _ = Done (Some _, _) => apply error_ok in H; contradiction
  | lift (Fault _) _ = _ => discriminate H
  | (_ ≫= _) _ = Done (Some _, _) =>
      let a := fresh "x" in let q := fresh "q" in let H1 := fresh "H" in
      apply ok_bind in H as (a & q & H1 & H); try step H1
  | need _ _ = Done (Some _, _) => apply need_ok in H as [? ?]; subst
  | lift _ _ = Done (Some _, _) => apply lift_ok in H as [? ?]; subst
  | get _ = Done (Some _, _) => apply get_ok in H as [? ?]; subst
  | (match ?x with _ => _ end) _ = Done (Some _, _) => let E := fresh "E" in destruct x eqn:E
  end.
Lemma the_template_ok a p o p' : the_template a p = Done (Some o, p') -> o = (if isTypedef a then None else pc_template p) /\ p' = p.
Proof. unfold the_template. intros H. by repeat step H. Qed.

(** What is left when only dimension and [IMPLDIM] changed. *)
Record redimensioned (a a' : tmpl_attribute) : Prop := {
  rd_kept : kept a a';
  rd_format : ta_format a' = ta_format a;
  rd_shared : af_shared a' = af_shared a;
  rd_delimiter : ta_delimiter a' = ta_delimiter a;
  rd_value : ta_value a' = ta_value a
}.
#[export] Instance redimensioned_refl : Reflexive redimensioned.
Proof. by split. Qed.
Lemma redimensioned_dim a d ty n : ta_dimension a = Some d -> redimensioned a (set_dim a ty n d).
Proof. by intros H; split; [eapply kept_dim|..]. Qed.
Lemma variable_dimension_ok a p a' p' : variable_dimension a p = Done (Some a', p') <-> a' = a /\ p' = p /\ isConstAtt a = false.
Proof.
  unfold variable_dimension. destruct (isConstAtt a); rewrite ?error_ok, ?ret_ok; naive_solver.
Qed.
Lemma const_dimension_ok a p a' p' : const_dimension a p = Done (Some a', p') -> a' = a /\ pc_template p' = pc_template p.
Proof.
  unfold const_dimension. intros H. destruct (ta_dimension a); [|by step H]. destruct (isConstAtt a); [|by step H].
  step H. step H. unfold put_dimension2, with_store in H0. by injection H0 as _ <-.
Qed.
Lemma flag_template_ok f p u p' t : pc_template p = Some t -> flag_template f p = Done (Some u, p') -> pc_template p' = Some (or_tm_flags f t).
Proof. intros Ht H. unfold flag_template in H. step H. rewrite Ht in H. unfold modify in H. by injection H as _ <-. Qed.

Lemma split_dot_simple t name b : split_dot name = None -> _evlTmplFindAttribute t name = Some b -> find_named (tm_attributes t) name = Some b.
Proof. unfold _evlTmplFindAttribute. intros Hd. destruct (String.length name); cbn [findAttByScopedName]; by rewrite Hd. Qed.
Lemma find_named_lookup l name b : find_named l name = Some b -> exists i, l !! i = Some b.
Proof.
  induction l as [|a l IH]; cbn; [done|]. case_bool_decide; [intros [= ->]; by exists O|].
  intros (i & Hi)%IH. by exists (S i).
Qed.
(** The attributes are where their indices say. *)
Definition indexed (t : template) : Prop := forall i a, tm_attributes t !! i = Some a -> ta_index a = i.
Lemma find_indexed t name b : indexed t -> split_dot name = None -> _evlTmplFindAttribute t name = Some b ->
  tm_attributes t !! ta_index b = Some b.
Proof. intros Ht Hd (i & Hi)%split_dot_simple%find_named_lookup; [|done]. by rewrite (Ht _ _ Hi). Qed.
Lemma declared_self t : declared t (tm_attributes t) = t.
Proof. by destruct t. Qed.

(** For a const attribute the implied dimension is known later. *)
Definition dimension_checked (t : template) (a : tmpl_attribute) : Prop :=
  isBitField a = true \/
  (isConstAtt a = true /\ exists d, ta_dimension a = Some d /\ td_type d = TMPL_DIM_IMPLIED) \/
  dimension_ok t (tm_attributes t) a.
Lemma dimension_by_name_ok a d name p a' p' : ta_dimension a = Some d -> isBitField a = false ->
  dimension_by_name a d name p = Done (Some a', p') ->
  td_type d = TMPL_DIM_ATTNAME name ->
  redimensioned a a' /\ exists t, pc_template p = Some t /\ pc_template p' = Some t /\ (indexed t -> dimension_ok t (tm_attributes t) a').
Proof.
  intros Hd Hb H Hty. unfold dimension_by_name in H. destruct (isTypedef a) eqn:Et; [by step H|].
  step H. apply the_template_ok in H0 as [-> ->]. rewrite Et in H. step H. destruct (_evlTmplFindAttribute x name) as [b|] eqn:Ef; [|by step H].
  destruct (negb (isIntegerAtt b)) eqn:Ei; [by step H|]. apply negb_false_iff in Ei. destruct (isConstAtt b) eqn:Ec.
  - step H. destruct (x0 <=? 0) eqn:En; [by step H|]. apply Z.leb_gt in En. apply const_dimension_ok in H as [-> Hp].
    split; [by apply redimensioned_dim|]. exists x. rewrite Hp. by split_and!.
  - case_bool_decide as Es; apply variable_dimension_ok in H as (-> & -> & Hc).
    + split; [by apply redimensioned_dim|]. exists x. split_and!; try done. intros Hidx. unfold dimension_ok. cbn.
      split_and!; try done. exists b. split_and!; try done. by eapply find_indexed.
    + split; [done|]. exists x. split_and!; try done. intros _. unfold dimension_ok. rewrite Hd, Hty.
      split_and!; try done. exists b. by rewrite declared_self.
Qed.
Lemma flag_eats_ok (b : bool) p u p' t : pc_template p = Some t ->
  (if b then mret tt else flag_template TMPL_TF_EATSALL) p = Done (Some u, p') -> b = false -> exists t', pc_template p' = Some t' /\ tm_has t' TMPL_TF_EATSALL = true.
Proof.
  intros Ht H ->. eapply flag_template_ok in H; [|done]. eexists. split; [done|]. unfold tm_has, or_tm_flags. cbn. by rewrite has_set, orb_true_r.
Qed.
Lemma validateAttDimension_ok a p a' p' : validateAttDimension a p = Done (Some a', p') ->
  redimensioned a a' /\ forall t, isTypedef a = false -> pc_template p = Some t -> indexed t ->
    exists t', pc_template p' = Some t' /\ dimension_checked t' a'.
Proof.
  intros H. unfold validateAttDimension in H. destruct (ta_dimension a) as [d|] eqn:Ed.
  2: { step H. split; [done|]. intros t _ Ht _. exists t. split; [done|]. destruct (isBitField a) eqn:Eb; [by left|].
       right; right. unfold dimension_ok. by rewrite Ed. }
  destruct (isBitField a) eqn:Eb; [step H; split; [done|]; intros t _ Ht _; exists t; split; [done|by left]|].
  destruct (td_type d) eqn:Ety; try (by step H).
  - destruct (td_dimension d <=? 0) eqn:En; [by step H|]. apply Z.leb_gt in En. apply const_dimension_ok in H as [-> Hp].
    split; [done|]. intros t _ Ht _. exists t. rewrite Hp. split; [done|]. right; right. unfold dimension_ok. by rewrite Ed, Ety.
  - destruct (negb (isTypedef a) && negb (isConstAtt a)) eqn:En.
    + apply andb_true_iff in En as [Etd Ec]. apply negb_true_iff in Etd, Ec.
      step H. apply the_template_ok in H0 as [-> ->]. rewrite Etd in H. step H. step H.
      destruct (negb (isStructTmpl x0)) eqn:Es; [by step H|]. apply negb_false_iff in Es.
      apply ok_bind in H as (? & q & Hf & H). step H. split.
      { split; try done. apply kept_impldim. }
      intros t _ Ht _. rewrite H1 in Ht. injection Ht as ->. eapply flag_template_ok in Hf; [|done]. eexists. split; [done|].
      right; right. unfold dimension_ok. cbn [ta_dimension set_ta_flags]. rewrite Ed, Ety.
      pose proof (kept_impldim a) as Hk. rewrite (kp_bitfield _ _ Hk), (kp_const _ _ Hk). split_and!; try done.
      * unfold tm_has, or_tm_flags. cbn. by rewrite has_set, orb_true_r.
      * cbn. by rewrite has_set, orb_true_r.
    + step H. split; [done|]. intros t Htd Ht _. exists t. split; [done|]. right; left. rewrite Htd in En. cbn in En.
      apply negb_false_iff in En. split; [done|]. by exists d.
  - apply ok_bind in H as (u & q & Hf & (-> & -> & Hc)%variable_dimension_ok). split; [done|].
    intros t Htd Ht _. eapply flag_eats_ok in Hf as (t' & Ht' & Hh); [|done..]. exists t'. split; [done|]. right; right.
    unfold dimension_ok. rewrite Ed, Ety. by split_and!.
  - destruct (streqb u_attname "_R_").
    { apply ok_bind in H as (u & q & Hf & (-> & -> & Hc)%variable_dimension_ok). split; [by apply redimensioned_dim|].
      intros t Htd Ht _. eapply flag_eats_ok in Hf as (t' & Ht' & Hh); [|done..]. exists t'. split; [done|]. right; right.
      unfold dimension_ok. cbn. by split_and!. }
    destruct (streqb u_attname "_PREFIX3_").
    { apply variable_dimension_ok in H as (-> & -> & Hc). split; [by apply redimensioned_dim|]. intros t _ Ht _. exists t.
      split; [done|]. right; right. unfold dimension_ok. cbn. by split_and!. }
    destruct (dimension_by_name_ok _ _ _ _ _ _ Ed Eb H Ety) as (Hr & t0 & Ht0 & Hp & Hok). split; [done|].
    intros t _ Ht Hidx. exists t0. split; [done|]. right; right. rewrite Ht0 in Ht. injection Ht as ->. by apply Hok.
Qed.
Lemma validateAttBitField_ok a p u p' : validateAttBitField a p = Done (Some u, p') ->
  p' = p /\ exists d, ta_dimension a = Some d /\ td_dimension d <= 8 * type_size (ta_type a) /\ (td_dimension d = 0 -> ta_name a = None).
Proof.
  unfold validateAttBitField, CHAR_BIT. intros H. step H. step H. destruct (_ <? _) eqn:En; [by step H|]. apply Z.ltb_ge in En.
  destruct (_ && _) eqn:Ez; [by step H|]. step H. split; [done|]. eexists. split_and!; [done|done|].
  intros Hz. rewrite Hz in Ez. cbn in Ez. apply bool_decide_eq_false in Ez. by apply eq_None_not_Some.
Qed.
Lemma bitfield_checked t a p u p' : (if isBitField a then validateAttBitField a else mret tt) p = Done (Some u, p') ->
  dimension_checked t a -> (isBitField a = true -> isIntegerAtt a = true /\ isConstAtt a = false /\
    forall d, ta_dimension a = Some d -> td_type d = TMPL_DIM_BITFIELD) ->
  p' = p /\ ((isConstAtt a = true /\ isBitField a = false /\ exists d, ta_dimension a = Some d /\ td_type d = TMPL_DIM_IMPLIED) \/
    dimension_ok t (tm_attributes t) a).
Proof.
  intros H Hd Hb. destruct (isBitField a) eqn:Eb.
  - apply validateAttBitField_ok in H as (-> & d & Hd' & ? & ?). destruct (Hb eq_refl) as (? & ? & Hty). split; [done|]. right.
    unfold dimension_ok. rewrite Hd', (Hty _ Hd'). by split_and!.
  - step H. split; [done|]. destruct Hd as [Hd|[(? & ?)|?]]; [congruence|left; done|by right].
Qed.
Lemma check_bitfield_class_ok a p a' p' : check_bitfield_class a p = Done (Some a', p') -> isBitField a = false ->
  p' = p /\ exists f, a' = set_ta_flags a f /\ isConstAtt a' = isConstAtt a /\ isTypedef a' = isTypedef a /\ attExists a' = attExists a /\
    (isBitField a' = true -> isConstAtt a = false /\ exists d, ta_dimension a = Some d /\ td_type d = TMPL_DIM_BITFIELD).
Proof.
  intros H Hb. unfold check_bitfield_class in H.
  assert (a = set_ta_flags a (ta_flags a)) as Ea by (by destruct a).
  assert (p' = p /\ (a' = a \/ (isConstAtt a = false /\ (exists d, ta_dimension a = Some d /\ td_type d = TMPL_DIM_BITFIELD) /\
      a' = set_ta_flags a (set_flag (ta_flags a) EVL_ATTR_BITFIELD)))) as [-> Hcases].
  { destruct (ta_dimension a) as [d|] eqn:Ed; [|step H; split; [done|by left]].
    destruct (td_type d) eqn:Ety; try (step H; split; [done|by left]).
    destruct (isConstAtt a) eqn:Ec; [by step H|]. destruct (isTypedef a) eqn:Et; [by step H|]. step H. split; [done|right].
    split_and!; try done. by exists d. }
  split; [done|]. destruct Hcases as [->|(Hc & Hd & ->)].
  - exists (ta_flags a). rewrite Hb. by split_and!.
  - eexists. split; [done|]. unfold isConstAtt, isTypedef, attExists, isBitField in *. cbn. rewrite !has_set, Hc. cbn.
    rewrite !orb_false_r. by split_and!.
Qed.

(** A type that is known: not the name of one. *)
Definition struct_known (a : tmpl_attribute) : Prop := isStruct a = true -> exists st, ta_struct a = Some st /\ wt st.
Definition typedef_ok (td : tmpl_attribute) : Prop := ta_type td <> TY_TYPEDEF /\ ta_type td <> TY_STRUCTNAME /\ struct_known td.
Lemma find_named_Forall P l name a : Forall P l -> find_named l name = Some a -> P a.
Proof. intros Hl (i & Hi)%find_named_lookup. by eapply Forall_lookup_1. Qed.
Lemma copy_dimension_ok a td p a' p' : copy_dimension a td p = Done (Some a', p') ->
  exists d, a' = set_ta_dimension a d /\ (is_Some (ta_dimension a) -> d = ta_dimension a).
Proof.
  unfold copy_dimension. intros H. assert (a = set_ta_dimension a (ta_dimension a)) as Ea by (by destruct a).
  destruct (ta_dimension a) eqn:E1, (ta_dimension td) eqn:E2; [by step H|step H; by eexists| |step H; by eexists].
  apply ok_bind in H as (d & q & _ & H). step H. eexists. split; [done|]. by intros [? [=]].
Qed.
Lemma copy_delimiter_ok a td p a' p' : copy_delimiter a td p = Done (Some a', p') -> exists de, a' = set_ta_delimiter a de.
Proof.
  unfold copy_delimiter. intros H. assert (a = set_ta_delimiter a (ta_delimiter a)) as Ea by (by destruct a).
  destruct (ta_delimiter a) eqn:E1, (ta_delimiter td) eqn:E2; try (step H; by eexists).
  apply ok_bind in H as (s & q & _ & H). apply ok_bind in H as (de & q' & _ & H). step H. by eexists.
Qed.
Lemma copy_format_cases a td : copy_format a td = a \/ exists f, copy_format a td = set_format a f true.
Proof. unfold copy_format. destruct (ta_format a), (ta_format td); try (by left); right; by eexists. Qed.

(** The attribute with the typedef's type, dimension, format and delimiter where it has none. *)
Record typedef_applied (a a' : tmpl_attribute) : Prop := {
  ap_name : ta_name a' = ta_name a;
  ap_flags : ta_flags a' = ta_flags a;
  ap_value : ta_value a' = ta_value a;
  ap_dimension : is_Some (ta_dimension a) -> ta_dimension a' = ta_dimension a;
  ap_format : af_shared a' = true \/ (ta_format a' = ta_format a /\ af_shared a' = af_shared a)
}.
Section TypedefApplied.
Variable same_template : template -> template -> bool.
Lemma applyTypedefIfAny_ok u a p a' p' : applyTypedefIfAny same_template u a p = Done (Some a', p') -> Forall typedef_ok (typedefs p) ->
  isStruct a = false -> typedef_applied a a' /\ ta_type a' <> TY_TYPEDEF /\ struct_known a'.
Proof.
  intros H Htd Hs. unfold applyTypedefIfAny in H. case_bool_decide as Ety; cbn [negb] in H.
  2: { step H. split; [split; try done; by right|]. split; [done|]. intros E. congruence. }
  apply ok_bind in H as (u1 & q1 & [Hsome ->]%lift_ok & H). apply ok_bind in H as (name & q2 & [Hu ->]%need_ok & H).
  apply ok_bind in H as (td & q & Hf & H). unfold findTypedef in Hf. step Hf. step Hf.
  destruct (find_named (typedefs p) name) as [td|] eqn:Ef; [|by step H].
  destruct (find_named_Forall _ _ _ _ Htd Ef) as (H1 & H2 & H3).
  apply ok_bind in H as (u2 & q3 & _ & H). apply ok_bind in H as (a1 & q4 & Hd & H).
  apply copy_dimension_ok in Hd as (d & -> & Hd). apply copy_delimiter_ok in H as (de & ->). cbn [ta_dimension set_ta_type] in Hd.
  destruct (copy_format_cases (set_ta_dimension (set_ta_type a (ta_type td) (ta_struct td)) d) td) as [->|(f & ->)].
  - split; [by split; try done; right|]. done.
  - split; [by split; try done; left|]. done.
Qed.
End TypedefApplied.
Lemma check_R_notLast_ok a p u p' t : isTypedef a = false -> pc_template p = Some t -> check_R_notLast a p = Done (Some u, p') ->
  p' = p /\ tm_has t TMPL_TF_EATSALL = false.
Proof.
  intros Htd Ht H. unfold check_R_notLast in H. apply ok_bind in H as (o & q & [-> ->]%the_template_ok & H). rewrite Htd, Ht in H.
  destruct (tm_has t TMPL_TF_EATSALL) eqn:E; [by step H|]. by step H.
Qed.
Lemma validateAttName_ok a p u p' t : isTypedef a = false -> pc_template p = Some t -> validateAttName a p = Done (Some u, p') ->
  p' = p /\ name_ok t (tm_attributes t) a.
Proof.
  intros Htd Ht H. unfold validateAttName in H. unfold name_ok, reserved. rewrite declared_self. destruct (ta_name a) as [name|].
  2: { apply lift_ok in H as [H ->]. by apply assert_done in H. }
  destruct (negb (_evlGetValueByName _evlAttributes name (-1) =? -1)) eqn:E1; [by step H|].
  destruct (streqb name "_R_" || streqb name "_PREFIX3_") eqn:E2; [by step H|].
  rewrite Htd in H. apply ok_bind in H as (o & q & [-> ->]%the_template_ok & H). rewrite Htd, Ht in H.
  apply ok_bind in H as (t' & q & [[= ->] ->]%need_ok & H). destruct (_evlTmplFindAttribute t' name); [by step H|]. step H.
  split; [done|]. cbn [orb]. by rewrite E2.
Qed.

Section TypeChecked.
Variable import : str -> parsing (option template).
Hypothesis import_keeps : forall path, keeps (import path).
Hypothesis import_wt : forall path p t p', imports_wt p -> import path p = Done (Some (Some t), p') -> wt t.

Lemma findStructTemplate_ok path p st p' : imports_wt p -> _evlFindStructTemplate import path p = Done (Some (Some st), p') -> wt st.
Proof using import_wt.
  intros Hp H. unfold _evlFindStructTemplate in H. apply ok_bind in H as (q & q' & [-> ->]%get_ok & H).
  destruct (best_import _ _ _ _) as [i|].
  - apply ok_bind in H as (? & q & _ & H). apply ok_bind in H as (sref & q' & [Hi ->]%need_ok & H). apply ret_ok in H as [[= ->] _].
    eapply Forall_lookup_1; [exact Hp|]. by rewrite list_lookup_fmap, Hi.
  - destruct (has_slash path); [by apply ret_ok in H as [? _]|]. by eapply import_wt.
Qed.
Lemma set_ta_type_same a : a = set_ta_type a (ta_type a) (ta_struct a).
Proof. by destruct a. Qed.
Lemma validateAttType_ok u a p a' p' : imports_wt p -> validateAttType import u a p = Done (Some a', p') ->
  ta_type a <> TY_TYPEDEF -> struct_known a ->
  exists ty st, a' = set_ta_type a ty st /\ ty <> TY_TYPEDEF /\ ty <> TY_STRUCTNAME /\ struct_known a' /\
    (isBitField a = true -> isIntegerAtt a' = true) /\
    forall t, isTypedef a = false -> pc_template p = Some t -> exists t', pc_template p' = Some t' /\ type_ok t' a'.
Proof using import_wt import_keeps.
  intros Hp H Hnt Hk. unfold validateAttType in H. destruct (isBitField a && negb (isIntegerAtt a)) eqn:Eb; [by step H|].
  apply ok_bind in H as (b & q & Hb & H).
  assert (exists st, b = set_ta_type a (ta_type b) st /\ ta_type b <> TY_TYPEDEF /\ ta_type b <> TY_STRUCTNAME /\ struct_known b /\
    (isBitField a = true -> isIntegerAtt b = true)) as (st & Eqb & Hb1 & Hb2 & Hb3 & Hb4).
  { case_bool_decide as Es.
    - apply ok_bind in Hb as (name & q1 & [? ->]%need_ok & Hb). apply ok_bind in Hb as (o & q2 & Hst & Hb).
      destruct o as [st|]; [|by step Hb]. step Hb. exists (Some st). split_and!; try done.
      + intros _. exists st. split; [done|]. by eapply findStructTemplate_ok.
      + intros Hbf. rewrite Hbf in Eb. unfold isIntegerAtt in Eb. by rewrite Es in Eb.
    - step Hb. exists (ta_struct a). split; [apply set_ta_type_same|]. split_and!; try done.
      intros Hbf. rewrite Hbf in Eb. by apply negb_false_iff in Eb. }
  assert (keeps (if bool_decide (ta_type a = TY_STRUCTNAME)
       then structName ← need (match u with st_name s => Some s | _ => None end);
            st ← _evlFindStructTemplate import structName;
            match st with
            | None => error ("Cannot find template for struct " ++ structName)%string
            | Some st => mret (set_ta_type a TY_STRUCT (Some st))
            end
       else mret a)) as Hkeep by keep.
  specialize (Hkeep _ _ _ Hb).
  apply ok_bind in H as (o & q' & [-> ->]%the_template_ok & H).
  assert (a' = b /\ forall t, isTypedef a = false -> pc_template p = Some t -> exists t', pc_template p' = Some t' /\ type_ok t' b) as [-> Hty].
  2: { exists (ta_type b), st. by split_and!. }
  assert (isTypedef b = isTypedef a) as Etd by (by rewrite Eqb). rewrite Etd in H.
  assert (forall t, pc_template p = Some t -> exists t1, pc_template q = Some t1) as Hq.
  { intros t Ht. pose proof (ext_template _ _ Hkeep) as Hx. rewrite Ht in Hx. destruct (pc_template q); [by eexists|done]. }
  destruct (isTypedef a) eqn:Etda; [step H; by split|]. destruct (pc_template q) as [t1|] eqn:Eq.
  2: { step H. split; [done|]. intros t _ Ht. by destruct (Hq t Ht). }
  unfold type_ok. destruct (isStruct b) eqn:Es; [|step H; split; [done|]; intros; exists t1; by split_and!].
  destruct (Hb3 Es) as (st1 & Est1 & _). rewrite Est1 in H.
  apply ok_bind in H as (u1 & q2 & He & H).
  assert (exists t2, pc_template q2 = Some t2 /\ isStructTmpl t2 = isStructTmpl t1 /\ (tm_has st1 TMPL_TF_EATSALL = true -> tm_has t2 TMPL_TF_EATSALL = true)) as (t2 & Hq2 & Hs2 & He2).
  { destruct (tm_has st1 TMPL_TF_EATSALL).
    - eapply flag_template_ok in He; [|done]. eexists. split_and!; [done|done|]. intros _. unfold tm_has, or_tm_flags. cbn. by rewrite has_set, orb_true_r.
    - step He. exists t1. by split_and!. }
  destruct (tm_has st1 TMPL_TF_IMPLDIM) eqn:Eim.
  2: { step H. split; [done|]. intros. exists t2. split; [done|]. split_and!; try done. intros _. exists st1. rewrite Eim. by split_and!. }
  rewrite <-Hs2 in H. destruct (isStructTmpl t2) eqn:Est.
  - apply ok_bind in H as (? & q3 & Hf & H). step H. split; [done|]. intros. eapply flag_template_ok in Hf; [|done].
    eexists. split; [done|]. split_and!; try done. intros _. exists st1. split_and!; [done| |].
    + intros E%He2. unfold tm_has, or_tm_flags in *. cbn. by rewrite has_set, E.
    + intros _. unfold isStructTmpl in *. cbn in *. rewrite Est. unfold tm_has. cbn. by rewrite has_set, orb_true_r.
  - destruct (negb (isConstAtt b)) eqn:Ec; [by step H|]. apply negb_false_iff in Ec. step H. split; [done|]. intros. exists t2.
    split; [done|]. split_and!; try done. intros _. exists st1. rewrite Est. by split_and!.
Qed.
End TypeChecked.

(** *** Delimiters, formats and alignment *)

Lemma variable_delimiter_ok a p a' p' : variable_delimiter a p = Done (Some a', p') <-> a' = a /\ p' = p /\ isConstAtt a = false.
Proof. unfold variable_delimiter. destruct (isConstAtt a); rewrite ?error_ok, ?ret_ok; naive_solver. Qed.
Lemma validateAttDelimiter_ok a p a' p' : validateAttDelimiter a p = Done (Some a', p') ->
  p' = p /\ (exists de, a' = set_ta_delimiter a de) /\
  forall t, isTypedef a = false -> pc_template p = Some t -> indexed t -> delimiter_ok t (tm_attributes t) a'.
Proof.
  intros H. unfold validateAttDelimiter in H. assert (a = set_ta_delimiter a (ta_delimiter a)) as Ea by (by destruct a).
  destruct (ta_delimiter a) as [de|] eqn:Ed.
  2: { step H. split; [done|]. split; [by eexists|]. intros. unfold delimiter_ok. by rewrite Ed. }
  destruct (negb (isArray a)) eqn:Earr; [by step H|]. apply negb_false_iff in Earr.
  destruct (de_type de) eqn:Ety; try (by step H).
  - step H. split; [done|]. split; [by eexists|]. intros. unfold delimiter_ok. by rewrite Ed, Ety.
  - destruct (isTypedef a) eqn:Etd; [by step H|]. apply ok_bind in H as (o & q & [-> ->]%the_template_ok & H). rewrite Etd in H.
    apply ok_bind in H as (t & q & [Ht ->]%need_ok & H). destruct (_evlTmplFindAttribute t u_attname) as [b|] eqn:Ef; [|by step H].
    destruct (_ || _) eqn:Ek; [by step H|]. apply orb_false_iff in Ek as [Ek1%negb_false_iff%bool_decide_eq_true Ek2].
    destruct (isConstAtt b) eqn:Ec.
    + apply ok_bind in H as (s & q & [_ ->]%need_ok & H). step H. split; [done|]. split; [by eexists|]. intros. unfold delimiter_ok. cbn.
      by change (isArray (set_delim a (TMPL_DELIM_CONST s) de)) with (isArray a).
    + case_bool_decide as Es; apply variable_delimiter_ok in H as (-> & -> & Hc).
      * split; [done|]. split; [by eexists|]. intros t' _ Ht' Hidx. rewrite Ht in Ht'. injection Ht' as <-.
        unfold delimiter_ok. cbn. split; [done|]. split; [done|]. exists b. split; [by eapply find_indexed|]. done.
      * split; [done|]. split; [by eexists|]. intros t' _ Ht' Hidx. rewrite Ht in Ht'. injection Ht' as <-.
        unfold delimiter_ok. rewrite Ed, Ety. split; [done|]. split; [done|]. exists b. by rewrite declared_self.
Qed.

(** What the scan of an array's format has found so far. *)
Definition scanned (a : tmpl_attribute) (z : iz_state) : Prop :=
  match foundI z, foundZ z, foundS z with
  | false, false, false => iz_order z = ""%string
  | true, false, false => iz_order z = "I"%string
  | false, true, false => iz_order z = "Z"%string /\ isStruct a = true
  | false, false, true => iz_order z = "S"%string /\ isStruct a = false
  | true, true, false => iz_order z ∈ ["IZ"; "ZI"]%string /\ isStruct a = true
  | true, false, true => iz_order z ∈ ["IS"; "SI"]%string /\ isStruct a = false
  | _, true, true => False
  end.
Lemma array_conversion_ok a c z p z' c' p' : scanned a z -> array_conversion a c z p = Done (Some (z', c'), p') -> scanned a z' /\ p' = p.
Proof.
  intros Hz H. unfold array_conversion in H. destruct c as [|d c]; [by step H|].
  assert (forall z1 p1, (if foundS z then error ("Too many conversion specifiers in format for " ++ text (ta_name a))%string
      else if isStruct a then
        error ("Attribute " ++ text (ta_name a) ++ " is an array of structs, so %Z and %I are the only permitted conversion specifiers")%string
      else
        flen ← lift (validateScalarFormat (String d c) (ta_type a));
        if flen <? 0 then error ("Malformed or inappropriate format string for " ++ text (ta_name a))%string
        else
          let n := Z.to_nat flen in
          mret (mkIz (iz_format z ++ String PERCENT (String.substring 0 n (String d c)))%string (iz_order z ++ "S")%string
                  (foundI z) (foundZ z) true, skip n (String d c))) p = Done (Some z1, p1) -> scanned a z1.1 /\ p1 = p) as Hother.
  { intros [z1 c1] p1 H'. destruct (foundS z) eqn:ES; [by step H'|]. destruct (isStruct a) eqn:Es; [by step H'|].
    apply ok_bind in H' as (flen & q & [_ ->]%lift_ok & H'). destruct (flen <? 0); [by step H'|]. apply ret_ok in H' as [[= -> ->] ->].
    split; [|done]. unfold scanned in *. cbn. rewrite ES in Hz. destruct (foundI z), (foundZ z); try (destruct Hz; congruence); rewrite Hz.
    all: split; [|done]; cbn; try done; set_solver. }
  destruct d as [[] [] [] [] [] [] [] []]; cbn [Ascii.eqb] in H; try (by apply Hother in H); clear Hother.
  - apply ret_ok in H as [[= -> ->] ->]. done.
  - destruct (foundI z) eqn:EI; [by step H|]. apply ret_ok in H as [[= -> ->] ->]. split; [|done]. unfold scanned in *. cbn. rewrite EI in Hz.
    destruct (foundZ z), (foundS z); try done; [destruct Hz as [-> ?]..|by rewrite Hz]; (split; [set_solver|done]).
  - destruct (foundZ z) eqn:EZ; [by step H|]. destruct (negb (isStruct a)) eqn:Es; [by step H|]. apply negb_false_iff in Es.
    apply ret_ok in H as [[= -> ->] ->]. split; [|done]. unfold scanned in *. cbn. rewrite EZ in Hz.
    destruct (foundI z), (foundS z); try (destruct Hz; congruence); rewrite Hz; (split; [|done]); cbn; try done; set_solver.
Qed.
Lemma scan_array_format_ok fuel : forall a c z p z' p', scanned a z -> scan_array_format fuel a c z p = Done (Some z', p') ->
  scanned a z' /\ p' = p.
Proof.
  induction fuel as [|fuel IH]; intros a [|d c] z p z' p' Hz H; cbn [scan_array_format] in H; try (by apply ret_ok in H as [-> ->]); [done|].
  destruct (Ascii.eqb d PERCENT).
  - apply ok_bind in H as ([z1 c1] & q & [Hz1 ->]%array_conversion_ok & H); [|done]. by eapply IH.
  - eapply IH; [|exact H]. done.
Qed.
(** The attribute with its format; an array in parentheses has the empty delimiter. *)
Definition formatted (a a' : tmpl_attribute) : Prop :=
  exists f de, a' = set_ta_delimiter (set_format a f (af_shared a)) de /\
    (de = ta_delimiter a \/ (isArray a = true /\ exists d, de = Some d /\ de_type d = TMPL_DELIM_CONST "")).
Lemma formatted_format a f : formatted a (set_format a f (af_shared a)).
Proof. exists f, (ta_delimiter a). split; [done|by left]. Qed.
Lemma formatted_refl a : formatted a a.
Proof. exists (ta_format a), (ta_delimiter a). split; [by destruct a|by left]. Qed.
Lemma validate_element_format_ok a fstr p a' p' : isArray a = true -> validate_element_format a fstr p = Done (Some a', p') ->
  p' = p /\ exists f, a' = set_format a f (af_shared a) /\ format_ok a'.
Proof.
  intros Ha H. unfold validate_element_format in H.
  apply ok_bind in H as (z & q & [Hz ->]%scan_array_format_ok & H); [|done].
  unfold format_ok. destruct (negb (foundZ z) && negb (foundS z)) eqn:En; [by step H|].
  destruct (foundZ z || foundI z) eqn:Eo; apply ret_ok in H as [-> ->]; (split; [done|]); (eexists; split; [done|]); cbn [ta_format set_format];
    change (isArray (set_format a ?f ?sh)) with (isArray a); change (isStruct (set_format a ?f ?sh)) with (isStruct a);
    (split; [done|]); unfold scanned in Hz; destruct (foundI z), (foundZ z), (foundS z); try done;
    try (destruct Hz as [Hz ->]; set_solver).
Qed.
Lemma alloc_delimiter_step c p de q : with_store (fun s => Done (alloc_delimiter s (TMPL_DELIM_CONST c) None)) p = Done (Some de, q) ->
  de_type de = TMPL_DELIM_CONST c /\ pc_template q = pc_template p.
Proof. unfold with_store. by intros [= <- <-]. Qed.
Lemma validate_array_format_ok a fstr p a' p' : isArray a = true -> validate_array_format a fstr p = Done (Some a', p') ->
  pc_template p' = pc_template p /\ formatted a a' /\ format_ok a'.
Proof.
  intros Ha H. unfold validate_array_format in H. destruct (stripParens fstr) as [s|].
  - apply ok_bind in H as (b & q & Hb & H).
    assert (pc_template q = pc_template p /\ isArray b = true /\ af_shared b = af_shared a /\ exists de, b = set_ta_delimiter a de /\
      (de = ta_delimiter a \/ (exists d, de = Some d /\ de_type d = TMPL_DELIM_CONST ""))) as (Hq & Hbarr & Hsh & de & -> & Hde).
    { destruct (ta_delimiter a) as [de|] eqn:Ed.
      - apply ret_ok in Hb as [-> ->]. split_and!; try done. exists (Some de). split; [by rewrite <-Ed; destruct a|by left].
      - apply ok_bind in Hb as (d & q1 & [Hd Hq]%alloc_delimiter_step & Hb). apply ret_ok in Hb as [-> ->]. split_and!; try done.
        exists (Some d). split; [done|]. right. by exists d. }
    destruct (validate_element_format_ok _ _ _ _ _ Hbarr H) as (-> & f & -> & Hok). split; [done|]. split; [|done].
    exists f, de. split; [done|]. destruct Hde as [?|?]; [by left|right]. by split.
  - apply ok_bind in H as (ok & q & [Hok ->]%lift_ok & H). destruct ok.
    + case_bool_decide as Ed; [by step H|]. apply ret_ok in H as [-> ->]. split; [done|]. split; [apply formatted_format|].
      unfold format_ok. cbn [ta_format set_format ta_type ta_delimiter]. split; [done|]. split; [|by apply eq_None_not_Some].
      unfold formatCharArrAsString in Hok. destruct (ta_type a); try done; set_solver.
    + destruct (validate_element_format_ok _ _ _ _ _ Ha H) as (-> & f & -> & Hf). split; [done|]. split; [apply formatted_format|done].
Qed.
Lemma validate_scalar_format_ok a fstr p a' p' : isArray a = false -> validate_scalar_format a fstr p = Done (Some a', p') ->
  formatted a a' /\ format_ok a'.
Proof.
  intros Ha H. unfold validate_scalar_format in H. destruct (isStruct a) eqn:Es; [by step H|].
  destruct (starts_with "%b" fstr).
  { apply ok_bind in H as (l & q & _ & H). destruct (negb (isIntegerAtt a)) eqn:Ei; [by step H|]. apply negb_false_iff in Ei.
    apply ret_ok in H as [-> ->]. split; [apply formatted_format|done]. }
  destruct (starts_with "%v" fstr).
  { apply ok_bind in H as (l & q & _ & H). destruct (negb (isIntegerAtt a)) eqn:Ei; [by step H|]. apply negb_false_iff in Ei.
    apply ret_ok in H as [-> ->]. split; [apply formatted_format|done]. }
  destruct fstr as [|c s]; [by step H|].
  assert (Ascii.eqb c "%"%char = true /\ (flen ← lift (validateScalarFormat s (ta_type a));
    if flen =? strlen (String c s) - 1 then mret (set_format a (TMPL_AFS_SCALAR (String c s)) (af_shared a))
    else error ("Malformed or inappropriate format string for " ++ text (ta_name a))%string) p = Done (Some a', p')) as [Hc%Ascii.eqb_eq H'].
  { destruct c as [[] [] [] [] [] [] [] []]; first [by step H|by split]. }
  clear H. apply ok_bind in H' as (n & q & [Hn ->]%lift_ok & H). destruct (n =? _) eqn:En; [|by step H]. apply Z.eqb_eq in En.
  apply ret_ok in H as [-> ->]. split; [apply formatted_format|]. unfold format_ok. cbn [ta_format set_format ta_type].
  split; [done|]. split; [done|]. exists s. subst c. split; [done|]. rewrite Hn. f_equal. rewrite En. unfold strlen. cbn [String.length]. lia.
Qed.
Lemma validateAttFormat_ok a p a' p' : validateAttFormat a p = Done (Some a', p') -> formatted a a' /\ (af_shared a' = true \/ format_ok a').
Proof.
  intros H. unfold validateAttFormat in H.
  assert (forall fstr, (_ ← lift (assert (bool_decide (is_Some (ta_name a))));
    if streqb fstr "%t" then
      if isArray a && isStruct a && isConstAtt a then
        error ("Cannot specify dump format for const array of structs " ++ text (ta_name a))%string
      else if bool_decide (is_Some (ta_delimiter a)) then
        error ("Cannot specify delimiter with dump format: " ++ text (ta_name a))%string
      else mret (set_format a TMPL_AFS_DUMP (af_shared a))
    else if isArray a then validate_array_format a fstr else validate_scalar_format a fstr) p = Done (Some a', p') ->
    formatted a a' /\ format_ok a') as Hcheck.
  { intros fstr H'. apply ok_bind in H' as (u & q & [_ ->]%lift_ok & H'). destruct (streqb fstr "%t").
    - destruct (isArray a && isStruct a && isConstAtt a); [by step H'|]. case_bool_decide as Ed; [by step H'|].
      apply ret_ok in H' as [-> ->]. split; [apply formatted_format|]. by apply eq_None_not_Some.
    - destruct (isArray a) eqn:Ea; [exact (proj2 (validate_array_format_ok _ _ _ _ _ Ea H'))|exact (validate_scalar_format_ok _ _ _ _ _ Ea H')]. }
  destruct (ta_format a) eqn:Ef; try (apply ok_bind in H as (u & q & [Hsh%assert_done ->]%lift_ok & H); apply ret_ok in H as [-> ->];
    split; [apply formatted_refl|by left]).
  - destruct (isArray a && isStruct a) eqn:Eas; [destruct (Hcheck "%Z"%string H) as [Hf1 Hf2]; split; [exact Hf1|right; exact Hf2]|].
    apply ret_ok in H as [-> ->]. split; [apply formatted_refl|]. right. unfold format_ok. by rewrite Ef.
  - destruct (Hcheck af_format H) as [Hf1 Hf2]; split; [exact Hf1|right; exact Hf2].
Qed.
Lemma validateAlignment_ok a p u p' t : isTypedef a = false -> pc_template p = Some t -> validateAlignment a p = Done (Some u, p') ->
  p' = p /\ (isAlignedTmpl t = true -> ta_type a <> TY_STRING /\ ta_type a <> TY_WSTRING /\
    (forall st, isStruct a = true -> ta_struct a = Some st -> isAlignedTmpl st = true) /\
    (isArray a = true -> exists d, ta_dimension a = Some d /\ td_type d = TMPL_DIM_CONST)).
Proof.
  intros Htd Ht H. unfold validateAlignment in H. apply ok_bind in H as (o & q & [-> ->]%the_template_ok & H). rewrite Htd, Ht in H.
  destruct (isAlignedTmpl t) eqn:Eal; cbn [negb] in H.
  2: { unfold validateNonalignment in H. destruct (isBitField a); by step H. }
  apply ok_bind in H as (bad & q & Hbad & H). destruct bad; [by step H|].
  assert (q = p /\ (forall st, isStruct a = true -> ta_struct a = Some st -> isAlignedTmpl st = true)) as [-> Hst].
  { destruct (isStruct a); [|by apply ret_ok in Hbad as [_ ->]]. apply ok_bind in Hbad as (st & q1 & [Hst ->]%need_ok & Hbad).
    apply ret_ok in Hbad as [Hb ->]. split; [done|]. intros st' _ E. rewrite Hst in E. injection E as <-.
    by destruct (isAlignedTmpl st). }
  destruct (match ta_dimension a with Some d => _ | None => false end) eqn:Ed; [by step H|].
  assert (p' = p /\ ta_type a <> TY_STRING /\ ta_type a <> TY_WSTRING) as (-> & Hs & Hw) by (destruct (ta_type a); by step H).
  split; [done|]. intros _. split_and!; try done. intros Harr.
  destruct (ta_dimension a) as [d|] eqn:E; [|unfold isArray in Harr; by rewrite E in Harr].
  exists d. split; [done|]. rewrite Harr in Ed. by destruct (td_type d).
Qed.

(** ** An attribute that passes *)

Lemma extends_template p p' t : extends p p' -> pc_template p = Some t -> exists t', pc_template p' = Some t' /\ same_shape t t'.
Proof. intros [_ H _] Ht. rewrite Ht in H. destruct (pc_template p') as [t'|]; [|done]. by exists t'. Qed.
Lemma extends_template2 p p' t t' : extends p p' -> pc_template p = Some t -> pc_template p' = Some t' -> same_shape t t'.
Proof. intros [_ H _] Ht Ht'. by rewrite Ht, Ht' in H. Qed.
Lemma same_indexed t t' : same_shape t t' -> indexed t -> indexed t'.
Proof. intros H Ht i a Hi. rewrite (same_attributes _ _ H) in Hi. by apply Ht. Qed.
Lemma formatted_kept a a' : formatted a a' -> kept a a'.
Proof. intros (f & de & -> & _). etransitivity; [apply kept_format|apply kept_delimiter]. Qed.
Lemma formatted_dimension a a' : formatted a a' -> ta_dimension a' = ta_dimension a /\ ta_value a' = ta_value a /\ ta_flags a' = ta_flags a.
Proof. by intros (f & de & -> & _). Qed.
Lemma formatted_delimiter t env a a' : formatted a a' -> delimiter_ok t env a -> delimiter_ok t env a'.
Proof.
  intros (f & de & -> & [->|(Ha & d & -> & Hd)]) H; unfold delimiter_ok in *; cbn.
  - exact H.
  - by rewrite Hd.
Qed.
Lemma dimension_ok_frame t env a a' : kept a a' -> ta_dimension a' = ta_dimension a -> has (ta_flags a') EVL_ATTR_IMPLDIM = has (ta_flags a) EVL_ATTR_IMPLDIM ->
  dimension_ok t env a -> dimension_ok t env a'.
Proof.
  intros [Hn Ht Hs Hb Hc Htd He _] Hd Hf. unfold dimension_ok, variable_of, isIntegerAtt in *. by rewrite Hd, Hb, Hc, Ht, Hn, Hf.
Qed.
Lemma dimension_ok_index t env a i : dimension_ok t env a -> dimension_ok t env (set_ta_index a i).
Proof. done. Qed.
Lemma type_ok_frame t a a' : kept a a' -> type_ok t a -> type_ok t a'.
Proof.
  intros Hk. unfold type_ok. rewrite (kept_struct _ _ Hk), (kp_type _ _ Hk), (kp_struct _ _ Hk), (kp_const _ _ Hk). done.
Qed.
Lemma struct_known_frame a a' : kept a a' -> struct_known a -> struct_known a'.
Proof. intros Hk. unfold struct_known. by rewrite (kept_struct _ _ Hk), (kp_struct _ _ Hk). Qed.
Lemma name_ok_frame t env a a' : kept a a' -> name_ok t env a -> name_ok t env a'.
Proof. intros Hk. unfold name_ok. by rewrite (kp_name _ _ Hk), (kp_bitfield _ _ Hk). Qed.
Lemma has_value_frame a a' : kept a a' -> ta_dimension a' = ta_dimension a -> ta_value a' = ta_value a -> has_value a -> has_value a'.
Proof.
  intros Hk Hd Hv H. pose proof (kept_array _ _ Hk) as Ha. pose proof (kept_struct _ _ Hk) as Hs. pose proof (kp_type _ _ Hk) as Ht.
  destruct H.
  - eapply has_int; rewrite ?Ha, ?Ht, ?Hv; eassumption.
  - eapply has_real; rewrite ?Ha, ?Ht, ?Hv; eassumption.
  - eapply has_string; rewrite ?Ha, ?Ht, ?Hv; eassumption.
  - eapply has_wstring; rewrite ?Ha, ?Ht, ?Hv; eassumption.
  - eapply has_struct; rewrite ?Ha, ?Hs, ?Hv; eassumption.
  - eapply has_array; rewrite ?Ha, ?Hd, ?Hv, ?Ht; eassumption.
  - eapply has_structs; rewrite ?Ha, ?Hd, ?Hv, ?Hs; eassumption.
Qed.
(** After the initializer a const array has a known number of elements. *)
Lemma has_value_dimension t env a : has_value a -> isArray a = true -> dimension_ok t env a.
Proof.
  intros H Ha. assert (isBitField a = false) as Hb by (by apply andb_true_iff in Ha as [_ ?%negb_true_iff]).
  destruct H; try congruence; unfold dimension_ok; rewrite H0, H1; by split.
Qed.
Lemma initialized_dimension t env a a' : initialized a a' ->
  (if isConstAtt a then has_value a' else ta_value a' = ta_value a) ->
  (isConstAtt a = true /\ isBitField a = false /\ exists d, ta_dimension a = Some d /\ td_type d = TMPL_DIM_IMPLIED) \/ dimension_ok t env a ->
  dimension_ok t env a'.
Proof.
  intros Hi Hv H. pose proof (kept_initialized _ _ Hi) as Hk. destruct H as [(Hc & Hb & d & Hd & Hty)|H].
  - rewrite Hc in Hv. apply has_value_dimension; [done|]. rewrite (kept_array _ _ Hk). unfold isArray. by rewrite Hd, Hb.
  - destruct (in_dimension _ _ Hi) as [Hd|(d & n & Hd & Hty & Hn & Hd')].
    + eapply dimension_ok_frame; [done..| |done]. by rewrite (in_flags _ _ Hi).
    + unfold dimension_ok in *. rewrite Hd, Hty in H. rewrite Hd'. cbn. rewrite (kp_bitfield _ _ Hk). by destruct H.
Qed.

Section Checked.
Variable import : str -> parsing (option template).
Variable same_template : template -> template -> bool.
Hypothesis import_keeps : forall path, keeps (import path).
Hypothesis import_wt : forall path p t p', imports_wt p -> import path p = Done (Some (Some t), p') -> wt t.

(** What the source gives: no struct but by its name, and proper constants. *)
Record attribute_given (a : tmpl_attribute) (val : option tmpl_type_and_value) : Prop := {
  gv_struct : isStruct a = false;
  gv_bitfield : isBitField a = false;
  gv_shared : af_shared a = false;
  gv_value : ta_value a = VNone;
  gv_exists : attExists a = isConstAtt a;
  gv_initial : forall v, val = Some v -> tv_ok v
}.
Lemma new_attribute_given c ty name dim format delim val : ty <> TY_STRUCT -> (forall v, val = Some v -> tv_ok v) ->
  attribute_given (new_attribute c ty name dim format delim) val.
Proof.
  intros Ht Hv. unfold new_attribute. split; try done.
  - unfold isStruct. cbn. by case_bool_decide.
  - unfold isBitField. cbn. by destruct (c =? EVL_ATTR_CONST), (c =? EVL_ATTR_TYPEDEF).
  - unfold attExists, isConstAtt. cbn. by destruct (c =? EVL_ATTR_CONST), (c =? EVL_ATTR_TYPEDEF).
Qed.

(** Up to the type: what the attribute is then. *)
Record attribute_typed (a a' : tmpl_attribute) : Prop := {
  at_const : isConstAtt a' = isConstAtt a;
  at_typedef : isTypedef a' = isTypedef a;
  at_exists : attExists a' = attExists a;
  at_value : ta_value a' = ta_value a;
  at_bitfield : isBitField a' = true -> isIntegerAtt a' = true /\ isConstAtt a' = false /\
    forall d, ta_dimension a' = Some d -> td_type d = TMPL_DIM_BITFIELD;
  at_shared : af_shared a' = true \/ af_shared a' = af_shared a;
  at_known : typedef_ok a'
}.
Lemma check_type_ok u a val p a' p' : attribute_given a val -> Forall typedef_ok (typedefs p) -> imports_wt p ->
  check_type import same_template u a p = Done (Some a', p') ->
  attribute_typed a a' /\
  forall t, isTypedef a = false -> pc_template p = Some t -> exists t', pc_template p' = Some t' /\
    tm_has t TMPL_TF_EATSALL = false /\ name_ok t (tm_attributes t) a' /\ type_ok t' a'.
Proof using import_keeps import_wt.
  intros [Hs Hb Hsh _ _ _] Htd Himp H. unfold check_type in H.
  apply ok_bind in H as (a1 & q & Hcl & H).
  destruct (check_bitfield_class_ok _ _ _ _ Hcl Hb) as (-> & f & Ea1 & Hc1 & Htd1 & He1 & Hb1).
  apply ok_bind in H as (a2 & p2 & Hap & H). pose proof (keeps_applyTypedefIfAny _ _ _ _ _ _ Hap) as Hx2.
  destruct (applyTypedefIfAny_ok _ _ _ _ _ _ Hap Htd) as ([Hn2 Hf2 Hv2 Hd2 Hfm2] & Hty2 & Hk2); [by rewrite Ea1|].
  assert (isConstAtt a2 = isConstAtt a /\ isTypedef a2 = isTypedef a /\ attExists a2 = attExists a /\ isBitField a2 = isBitField a1) as (Hc2 & Htd2 & He2 & Hb2).
  { unfold isConstAtt, isTypedef, attExists, isBitField in *. by rewrite !Hf2, Hc1, Htd1, He1. }
  apply ok_bind in H as (u1 & q & HR & H). apply ok_bind in H as (u2 & q2 & HN & H).
  assert (forall t, isTypedef a = false -> pc_template p = Some t -> exists t2, pc_template p2 = Some t2 /\ same_shape t t2 /\ q = p2 /\ q2 = p2 /\
    tm_has t2 TMPL_TF_EATSALL = false /\ name_ok t2 (tm_attributes t2) a2) as Hpre.
  { intros t Hta Ht. destruct (extends_template _ _ _ Hx2 Ht) as (t2 & Ht2 & Hss). exists t2. rewrite <-Htd2 in Hta.
    destruct (check_R_notLast_ok _ _ _ _ _ Hta Ht2 HR) as [-> ?].
    by destruct (validateAttName_ok _ _ _ _ _ Hta Ht2 HN) as [-> ?]. }
  assert (extends p q2) as Hxq.
  { transitivity p2; [done|]. transitivity q; [by eapply keeps_check_R_notLast|by eapply keeps_validateAttName]. }
  destruct (validateAttType_ok _ import_keeps import_wt _ _ _ _ _ (ext_imports _ _ Hxq Himp) H Hty2 Hk2) as (ty & st & -> & Hn1 & Hnn & Hk & Hbi & Ht').
  split.
  - split; try done.
    + cbn. by rewrite Hv2, Ea1.
    + intros Hbf. split; [by apply Hbi|]. change (isBitField a2 = true) in Hbf. rewrite Hb2 in Hbf.
      destruct (Hb1 Hbf) as (Hca & d & Hd & Hdt). split; [by rewrite <-Hca|]. intros d' Hd'. cbn in Hd'.
      rewrite Hd2 in Hd' by (rewrite Ea1; cbn; rewrite Hd; by eexists). rewrite Ea1 in Hd'. cbn in Hd'. congruence.
    + cbn. destruct Hfm2 as [?|[_ ->]]; [by left|right]. by rewrite Ea1.
  - intros t Hta Ht. destruct (Hpre t Hta Ht) as (t2 & Ht2 & Hss & -> & -> & HE & HN').
    destruct (Ht' t2) as (t' & Hpt & Hto); [congruence|done|]. exists t'. split; [done|]. split.
    { destruct (tm_has t TMPL_TF_EATSALL) eqn:E; [|done]. by rewrite (same_has _ _ _ Hss E) in HE. }
    split; [|done]. unfold name_ok in *. change (isBitField (set_ta_type a2 ty st)) with (isBitField a2). cbn [ta_name set_ta_type].
    destruct (ta_name a2); [|done]. destruct HN' as [? HN']. split; [done|].
    by rewrite <-(grows_find t t2), <-(same_attributes _ _ Hss) by (by apply same_grows).
Qed.
Lemma validateAttDimension_bitfield a p a' p' : isBitField a = true -> validateAttDimension a p = Done (Some a', p') -> a' = a.
Proof. intros Hb H. unfold validateAttDimension in H. rewrite Hb in H. destruct (ta_dimension a); by apply ret_ok in H as [-> _]. Qed.
Lemma check_value_ok a0 a val p a' p' : attribute_given a0 val -> attribute_typed a0 a -> check_value a val p = Done (Some a', p') ->
  kept a a' /\ (af_shared a' = true \/ format_ok a') /\
  forall t, isTypedef a = false -> pc_template p = Some t -> indexed t -> exists t', pc_template p' = Some t' /\ same_shape t t' /\
    dimension_ok t' (tm_attributes t) a' /\ delimiter_ok t' (tm_attributes t) a' /\ alignment_ok t' a' /\
    (if isConstAtt a' then has_value a' else ta_value a' = VNone).
Proof using.
  intros [_ _ _ Hval _ Hv] [Hc Htd He Hva Hbf Hsh (Hty1 & Hty2 & Hk)] H. unfold check_value in H.
  apply ok_bind in H as (a1 & p1 & Hdim & H). apply ok_bind in H as (u & p2 & Hbit & H). apply ok_bind in H as (a2 & p3 & Hini & H).
  apply ok_bind in H as (a3 & p4 & Hdel & H). apply ok_bind in H as (a4 & p5 & Hfmt & H). apply ok_bind in H as (u2 & p6 & Hal & H).
  apply ret_ok in H as [-> ->].
  pose proof (keeps_validateAttDimension _ _ _ _ Hdim) as Xd.
  assert (extends p1 p2) as Xb by (refine ((_ : keeps (if isBitField a1 then validateAttBitField a1 else mret tt)) _ _ _ Hbit); keep).
  pose proof (keeps_initialize _ _ _ _ _ Hini) as Xi. pose proof (keeps_validateAttDelimiter _ _ _ _ Hdel) as Xde.
  pose proof (keeps_validateAttFormat _ _ _ _ Hfmt) as Xf.
  pose proof (fun Hb => validateAttDimension_bitfield _ _ _ _ Hb Hdim) as Hbfd.
  apply validateAttDimension_ok in Hdim as (Hrd & Hdim). pose proof (rd_kept _ _ Hrd) as Hk1.
  apply initialize_ok in Hini as [Hin Hivalue]; [|done|].
  2: { intros Hs st Hst. destruct (struct_known_frame _ _ Hk1 Hk Hs) as (st' & Hst' & ?). congruence. }
  pose proof (kept_initialized _ _ Hin) as Hk2.
  apply validateAttDelimiter_ok in Hdel as (-> & (de & Ede) & Hdelim).
  assert (kept a2 a3) as Hk3 by (rewrite Ede; apply kept_delimiter).
  apply validateAttFormat_ok in Hfmt as [Hform Hfok]. pose proof (formatted_kept _ _ Hform) as Hk4.
  destruct (formatted_dimension _ _ Hform) as (Ed4 & Ev4 & Ef4).
  assert (kept a a4) as Hka by (repeat (etransitivity; [eassumption|]); done).
  split; [done|]. split; [done|]. intros t Hta Ht Hidx.
  destruct (Hdim t Hta Ht Hidx) as (t1 & Ht1 & Hdc). pose proof (extends_template2 _ _ _ _ Xd Ht Ht1) as S1.
  destruct (bitfield_checked _ _ _ _ _ Hbit Hdc) as (-> & Hdc').
  { rewrite (kp_bitfield _ _ Hk1), (kp_const _ _ Hk1). unfold isIntegerAtt. rewrite (kp_type _ _ Hk1). intros Hb.
    destruct (Hbf Hb) as (? & ? & Hd). split; [done|]. split; [done|].
    rewrite (Hbfd Hb). done. }
  destruct (extends_template _ _ _ Xi Ht1) as (t3 & Ht3 & S3). destruct (extends_template _ _ _ Xf Ht3) as (t5 & Ht5 & S5).
  assert (isTypedef a2 = false /\ isTypedef a4 = false) as [Htd2 Htd4].
  { rewrite <-(kp_typedef _ _ Hka) in Hta. split; [|done]. by rewrite <-(kp_typedef _ _ Hk3), <-(kp_typedef _ _ Hk4). }
  assert (same_shape t t3) as S03 by (by eapply same_trans). assert (same_shape t t5) as S05 by (by eapply same_trans).
  destruct (validateAlignment_ok _ _ _ _ _ Htd4 Ht5 Hal) as [-> Halign].
  exists t5. rewrite (same_attributes _ _ S1) in Hdc'. split; [done|]. split; [done|].
  assert (isConstAtt a4 = isConstAtt a1) as Hc41 by (by rewrite (kp_const _ _ Hk4), (kp_const _ _ Hk3), (kp_const _ _ Hk2)).
  assert (ta_value a4 = ta_value a2 /\ ta_dimension a4 = ta_dimension a2 /\ ta_flags a4 = ta_flags a2) as (Ev & Ed & Ef).
  { rewrite Ev4, Ed4, Ef4, Ede. done. }
  assert (kept a2 a4) as Hk24 by (by etransitivity). split_and!.
  - eapply dimension_ok_mono; [apply same_grows, S5|]. eapply dimension_ok_frame; [exact Hk24|done|by rewrite Ef|].
    eapply dimension_ok_mono; [by apply same_grows, S3|]. by eapply initialized_dimension.
  - eapply formatted_delimiter; [exact Hform|]. eapply delimiter_ok_mono; [apply same_grows, S5|].
    pose proof (Hdelim t3 Htd2 Ht3 (same_indexed _ _ S03 Hidx)) as Hd3. by rewrite (same_attributes _ _ S03) in Hd3.
  - intros Hat _. by apply Halign.
  - rewrite Hc41. destruct (isConstAtt a1) eqn:Ec1; [by eapply has_value_frame|].
    by rewrite Ev, Hivalue, (rd_value _ _ Hrd), Hva.
Qed.

(** ** The template under construction *)

Record building (t : template) : Prop := {
  bd_master : isMasterTmpl t = true;
  bd_unpopulated : isPopulatedTmpl t = false;
  bd_attributes : forall i a, tm_attributes t !! i = Some a -> attribute_ok t (take i (tm_attributes t)) a;
  bd_last : forall i a, tm_attributes t !! i = Some a -> eats_all a = true -> S i = length (tm_attributes t);
  bd_structs : forall a st, a ∈ tm_attributes t -> isStruct a = true -> ta_struct a = Some st -> wt st
}.
Record parser_ok (p : parser) : Prop := {
  pk_typedefs : Forall typedef_ok (typedefs p);
  pk_imports : imports_wt p;
  pk_template : forall t, pc_template p = Some t -> building t
}.
Lemma building_indexed t : building t -> indexed t.
Proof.
  intros H i a Hi. rewrite (ok_index _ _ _ (bd_attributes _ H i a Hi)). rewrite length_take. apply lookup_lt_Some in Hi. lia.
Qed.
Lemma building_grows t t' : grows t t' -> tm_attributes t' = tm_attributes t -> isPopulatedTmpl t' = isPopulatedTmpl t ->
  (isAlignedTmpl t' = true -> isAlignedTmpl t = true \/ Forall (fun a => isConstAtt a = true) (tm_attributes t)) ->
  building t -> building t'.
Proof.
  intros Hg Ha Hp Hal [H1 H2 H3 H4 H5]. split; rewrite ?Ha.
  - unfold isMasterTmpl in *. by rewrite (gr_clone _ _ Hg).
  - congruence.
  - intros i a Hi. eapply attribute_ok_mono; [done| |by apply H3]. intros Hat. destruct (Hal Hat) as [?|Hc]; [by left|right].
    exact (Forall_lookup_1 _ _ _ _ Hc Hi).
  - done.
  - done.
Qed.
Lemma building_same t t' : same_shape t t' -> building t -> building t'.
Proof.
  intros Hs. destruct (same_aligned _ _ Hs) as [Hal Hp]. apply building_grows; [by apply same_grows|by apply same_attributes|done|].
  rewrite Hal. by left.
Qed.
Lemma parser_ok_extends p p' : extends p p' -> parser_ok p -> parser_ok p'.
Proof.
  intros [Htd Ht Himp] [H1 H2 H3]. split; [by rewrite Htd|by apply Himp|]. intros t' Ht'. rewrite Ht' in Ht.
  destruct (pc_template p) as [t|]; [|done]. eapply building_same; [exact Ht|]. by apply H3.
Qed.
(** Only the flag can tell that the template takes the rest of the record. *)
Lemma eats_all_flag t env a : attribute_ok t env a -> eats_all a = true -> tm_has t TMPL_TF_EATSALL = true.
Proof.
  intros H He. unfold eats_all in He. apply orb_true_iff in He as [He|He].
  - pose proof (ok_dimension _ _ _ H) as Hd. unfold dimension_ok in Hd. destruct (ta_dimension a) as [d|]; [|done].
    destruct (td_type d); try discriminate He. destruct Hd as (_ & _ & Hd). exact Hd.
  - destruct (ok_type _ _ _ H) as (_ & _ & Ht). destruct (ta_struct a) as [st|]; [|done]. apply andb_true_iff in He as [Hs He].
    destruct (Ht Hs) as (st' & [= <-] & Hx & _). by apply Hx.
Qed.
Lemma building_append t t' a : building t' -> tm_attributes t' = tm_attributes t -> tm_has t TMPL_TF_EATSALL = false -> building t ->
  attribute_ok t' (tm_attributes t') a -> struct_known a -> building (set_attributes t' (tm_attributes t' ++ [a])).
Proof.
  intros Hb Ha He Hbt Hok Hk. pose proof Hb as [H1 H2 H3 H4 H5]. split; cbn [tm_attributes set_attributes]; [exact H1|exact H2|..].
  - intros i b Hi. apply lookup_app_Some in Hi as [Hi|[Hge Hi]].
    + rewrite take_app_le by (apply lookup_lt_Some in Hi; lia). eapply (attribute_ok_mono t'); [by split|by left|by apply H3].
    + apply list_lookup_singleton_Some in Hi as [Hi <-]. rewrite take_app_length' by lia. eapply (attribute_ok_mono t'); [by split|by left|done].
  - intros i b Hi Hb'. apply lookup_app_Some in Hi as [Hi|[Hge Hi]].
    + rewrite Ha in Hi. pose proof (eats_all_flag _ _ _ (bd_attributes _ Hbt i b Hi) Hb'). congruence.
    + apply list_lookup_singleton_Some in Hi as [Hi _]. rewrite length_app. cbn. lia.
  - intros b st [Hin|Hin%list_elem_of_singleton]%elem_of_app Hs Hst; [by eapply H5|]. subst b.
    destruct (Hk Hs) as (st' & Hst' & ?). congruence.
Qed.

(** What adding attributes does to the template: those that pass are behind the others. *)
Definition continues (P : tmpl_attribute -> Prop) (p p' : parser) : Prop :=
  match pc_template p, pc_template p' with
  | Some t, Some t' =>
      (exists l, tm_attributes t' = tm_attributes t ++ l /\ Forall P l) /\ isAlignedTmpl t' = isAlignedTmpl t /\ isStructTmpl t' = isStructTmpl t
  | None, None => True
  | _, _ => False
  end.
#[local] Instance continues_refl P : Reflexive (continues P).
Proof. intros p. unfold continues. destruct (pc_template p) as [t|]; [|done]. split; [|done]. exists []. by rewrite app_nil_r. Qed.
#[local] Instance continues_trans P : Transitive (continues P).
Proof.
  intros p q r H1 H2. unfold continues in *. destruct (pc_template p), (pc_template q), (pc_template r); try done.
  destruct H1 as ((l1 & E1 & F1) & A1 & S1), H2 as ((l2 & E2 & F2) & A2 & S2). split; [|split; congruence].
  exists (l1 ++ l2). rewrite E2, E1, app_assoc. split; [done|]. by apply Forall_app.
Qed.
Lemma extends_continues P p p' : extends p p' -> continues P p p'.
Proof.
  intros [_ H _]. unfold continues. destruct (pc_template p) as [t|], (pc_template p') as [t'|]; try done.
  destruct (same_aligned _ _ H) as [Ha _]. split; [|split; [done|by apply (gr_struct _ _ (same_grows _ _ H))] ].
  exists []. rewrite app_nil_r. split; [by apply same_attributes|constructor].
Qed.
Lemma append_typedef a p r p' : isTypedef a = true -> append_attribute a p = Done (r, p') -> typedef_ok a -> parser_ok p ->
  parser_ok p' /\ forall P, continues P p p'.
Proof.
  intros Ht H Ha [H1 H2 H3]. unfold append_attribute in H. rewrite Ht in H. injection H as <- <-. split.
  - split; [|done..]. cbn. apply Forall_app. by split; [|constructor].
  - intros P. unfold continues. cbn. destruct (pc_template p) as [t|]; [|done]. split; [|done]. exists []. by rewrite app_nil_r.
Qed.
Lemma append_attribute_ok a p r p' t : isTypedef a = false -> pc_template p = Some t -> append_attribute a p = Done (r, p') ->
  p' = set_template (set_attributes t (tm_attributes t ++ [set_ta_index a (length (tm_attributes t))])) p.
Proof.
  intros Ha Ht H. unfold append_attribute in H. rewrite Ha in H. unfold the_template, get in H.
  unfold mbind, parsing_bind, mret, parsing_ret, need, lift, modify in H. rewrite Ha, Ht in H. cbn in H. by injection H as _ <-.
Qed.
Lemma kept_index a i : kept a (set_ta_index a i).
Proof. by split. Qed.
Lemma checked_attribute u a val p a' p' t : attribute_given a val -> parser_ok p -> isTypedef a = false -> pc_template p = Some t ->
  check_attribute import same_template u a val p = Done (Some a', p') ->
  exists t', pc_template p' = Some t' /\ same_shape t t' /\ tm_has t TMPL_TF_EATSALL = false /\
    attribute_ok t' (tm_attributes t) (set_ta_index a' (length (tm_attributes t))).
Proof using import_keeps import_wt.
  intros Hg [Htd Himp Hb] Hta Ht H. unfold check_attribute in H. apply ok_bind in H as (a1 & q & Hty & H).
  pose proof (keeps_check_type _ same_template import_keeps _ _ _ _ _ Hty) as X1.
  destruct (check_type_ok _ _ _ _ _ _ Hg Htd Himp Hty) as (Hat & Hpost). destruct (Hpost t Hta Ht) as (t1 & Ht1 & HE & HN & HT).
  pose proof (extends_template2 _ _ _ _ X1 Ht Ht1) as S1.
  destruct (check_value_ok _ _ _ _ _ _ Hg Hat H) as (Hk & Hf & Hpost').
  destruct (Hpost' t1) as (t2 & Ht2 & S2 & Hd & Hde & Hal & Hv); [by rewrite (at_typedef _ _ Hat)|done| |].
  { eapply same_indexed; [done|]. by apply building_indexed, Hb. }
  assert (kept a1 (set_ta_index a' (length (tm_attributes t)))) as Hki by (etransitivity; [exact Hk|apply kept_index]).
  rewrite (same_attributes _ _ S1) in Hd, Hde.
  exists t2. split; [done|]. split; [by eapply same_trans|]. split; [done|]. split; try done.
  - eapply name_ok_frame; [exact Hki|]. eapply name_ok_mono; [|done]. apply same_grows. by eapply same_trans.
  - eapply type_ok_frame; [exact Hki|]. eapply type_ok_mono; [by apply same_grows|done].
  - change (isConstAtt (set_ta_index a' _)) with (isConstAtt a'). destruct (isConstAtt a') eqn:Ec.
    + eapply has_value_frame; [apply kept_index|done..].
    + split; [done|]. change (attExists a' = false). rewrite (kp_exists _ _ Hk), (at_exists _ _ Hat), (gv_exists _ _ Hg).
      by rewrite <-(at_const _ _ Hat), <-(kp_const _ _ Hk).
  - change (isTypedef a' = false). by rewrite (kp_typedef _ _ Hk), (at_typedef _ _ Hat).
Qed.
Lemma checked_kept u a val p a' p' : attribute_given a val -> parser_ok p -> check_attribute import same_template u a val p = Done (Some a', p') ->
  isTypedef a' = isTypedef a /\ isConstAtt a' = isConstAtt a /\ typedef_ok a'.
Proof using import_keeps import_wt.
  intros Hg [Htd Himp _] H. unfold check_attribute in H. apply ok_bind in H as (a1 & q & Hty & H).
  destruct (check_type_ok _ _ _ _ _ _ Hg Htd Himp Hty) as (Hat & _). destruct (check_value_ok _ _ _ _ _ _ Hg Hat H) as (Hk & _).
  rewrite (kp_typedef _ _ Hk), (at_typedef _ _ Hat), (kp_const _ _ Hk), (at_const _ _ Hat). split; [done|]. split; [done|].
  destruct (at_known _ _ Hat) as (K1 & K2 & K3). unfold typedef_ok. rewrite (kp_type _ _ Hk). split; [done|]. split; [done|].
  by eapply struct_known_frame.
Qed.
Lemma add_attribute_ok c ty u name dim val fmt delim p r p' : ty <> TY_STRUCT -> (forall v, val = Some v -> tv_ok v) -> parser_ok p ->
  _evlTmplAddAttribute import same_template c ty u name dim val fmt delim p = Done (r, p') ->
  parser_ok p' /\ continues (fun a => isConstAtt a = (c =? EVL_ATTR_CONST)) p p'.
Proof using import_keeps import_wt.
  intros Hty Hv Hp H. unfold _evlTmplAddAttribute in H. set (a := new_attribute c ty name dim fmt delim) in H.
  assert (attribute_given a val) as Hg by (by apply new_attribute_given).
  assert (isConstAtt a = (c =? EVL_ATTR_CONST)) as Hca.
  { unfold a, new_attribute, isConstAtt. cbn. by destruct (c =? EVL_ATTR_CONST), (c =? EVL_ATTR_TYPEDEF). }
  destruct ((a0 ← check_attribute import same_template u a val; append_attribute a0) p) as [[r0 q]|] eqn:Hx; [|done].
  apply done_bind in Hx as [(q0 & Hc & [= -> ->])|(a' & q0 & Hc & Happ)].
  - pose proof (keeps_check_attribute _ same_template import_keeps _ _ _ _ _ _ Hc) as X.
    assert (extends p p') as X' by
      (transitivity q0; [exact X|]; destruct (isTypedef a); [by injection H as _ <-|];
       destruct (pc_template q0) as [t|] eqn:Et; [|by injection H as _ <-]; injection H as _ <-;
       split; [done| |done]; cbn; rewrite Et; by constructor).
    split; [by eapply parser_ok_extends|by apply extends_continues].
  - pose proof (keeps_check_attribute _ same_template import_keeps _ _ _ _ _ _ Hc) as X.
    destruct (checked_kept _ _ _ _ _ _ Hg Hp Hc) as (Htd & Hct & Hk).
    assert (r0 = Some tt /\ r = r0 /\ p' = q) as (-> & -> & ->).
    { destruct r0 as [[]|]; [by injection H as <- <-|]. exfalso. unfold append_attribute in Happ. destruct (isTypedef a'); [done|].
      apply done_bind in Happ as [(? & Hn & _)|(o & q1 & [-> ->]%the_template_ok & Happ)]; [done|].
      apply done_bind in Happ as [(? & Hn & _)|(? & q1 & [_ ->]%lift_ok & Happ)]; [unfold lift in Hn; by destruct (assert _)|].
      apply done_bind in Happ as [(? & Hn & _)|(? & q1 & [_ ->]%need_ok & Happ)]; [unfold need, lift in Hn; by destruct (reading _)|].
      done. }
    destruct (isTypedef a) eqn:Eta.
    + destruct (append_typedef _ _ _ _ Htd Happ Hk (parser_ok_extends _ _ X Hp)) as [Hq Hcont]. split; [done|].
      etransitivity; [by apply extends_continues|apply Hcont].
    + destruct (pc_template p) as [t|] eqn:Et.
      2: { exfalso. pose proof (ext_template _ _ X) as Xt. rewrite Et in Xt. destruct (pc_template q0) eqn:Eq0; [done|].
           unfold append_attribute in Happ. rewrite Htd in Happ. unfold the_template, get, mbind, parsing_bind, mret, parsing_ret, lift in Happ.
           by rewrite Htd, Eq0 in Happ. }
      destruct (checked_attribute _ _ _ _ _ _ _ Hg Hp Eta Et Hc) as (t' & Ht' & Hss & HE & Hok).
      rewrite (append_attribute_ok _ _ _ _ _ Htd Ht' Happ). pose proof (same_attributes _ _ Hss) as Ea. split.
      * destruct (parser_ok_extends _ _ X Hp) as [Q1 Q2 Q3]. split; [done|done|]. cbn. intros t2 [= <-].
        apply (building_append t t'); [by apply Q3|exact Ea|exact HE|by apply Hp| |].
        -- rewrite Ea. exact Hok.
        -- destruct Hk as (_ & _ & Hk). by eapply struct_known_frame; [apply kept_index|].
      * unfold continues. cbn. rewrite Et. rewrite <-Ea. destruct (same_aligned _ _ Hss) as [Hal _].
        split; [|split; [exact Hal|apply (gr_struct _ _ (same_grows _ _ Hss))] ]. eexists. split; [done|].
        constructor; [|constructor]. change (isConstAtt a' = (c =? EVL_ATTR_CONST)). congruence.
Qed.

(** ** A source *)

Definition stmt_ok (s : attributeStmt) : Prop := at_base_type s <> TY_STRUCT /\ forall v, at_init s = Some v -> tv_ok v.
Lemma add_attributes_ok c l : forall p r p', Forall stmt_ok l -> parser_ok p ->
  add_attributes import same_template c l p = Done (r, p') ->
  parser_ok p' /\ continues (fun a => isConstAtt a = (c =? EVL_ATTR_CONST)) p p'.
Proof using import_keeps import_wt.
  induction l as [|s l IH]; intros p r p' Hl Hp H; cbn [add_attributes] in H; [by injection H as _ <-|].
  inversion Hl as [|? ? [Hty Hv] Hl']; subst.
  assert (exists r1 q, _evlTmplAddAttribute import same_template c (at_base_type s) (at_ref s) (at_name s) (at_dimension s)
    (at_init s) (at_fmt s) (at_delim s) p = Done (r1, q) /\ add_attributes import same_template c l q = Done (r, p')) as (r1 & q & H1 & H2).
  { unfold attempt in H. apply done_bind in H as [(q & H1 & _)|(u & q & H1 & H2)]; destruct (_evlTmplAddAttribute _ _ _ _ _ _ _ _ _ _ _) as [[r1 q1]|]; try done.
    injection H1 as _ <-. by do 2 eexists. }
  destruct (add_attribute_ok _ _ _ _ _ _ _ _ _ _ _ Hty Hv Hp H1) as [Hq Hc]. destruct (IH _ _ _ Hl' Hq H2) as [Hp' Hc'].
  split; [done|]. by etransitivity.
Qed.

(** A change of the static part. *)
Lemma building_static t st : (match th_type st with TMPL_TH_STRUCT _ => true | _ => false end) = isStructTmpl t -> building t -> building (set_static t st).
Proof. intros Hs. apply building_grows; [by split|done|done|by left]. Qed.
Lemma parser_ok_set t p : building t -> parser_ok p -> parser_ok (set_template t p).
Proof. intros Ht [H1 H2 H3]. split; [done|done|]. by intros t' [= <-]. Qed.
Lemma parser_ok_flag f p r p' : harmless f -> parser_ok p -> flag_template f p = Done (r, p') -> parser_ok p'.
Proof. intros Hf Hp H. eapply parser_ok_extends; [by eapply (keeps_flag f Hf)|done]. Qed.
Lemma building_or f t : harmless f -> building t -> building (or_tm_flags f t).
Proof. intros Hf. apply building_same. by constructor. Qed.
Lemma building_new st flags : has flags TMPL_TF_POPULATED = false -> building (mkTemplate st (mkState flags 0 0 None None (-1) false) [] []).
Proof.
  intros Hf. split; [reflexivity|exact Hf|..]; cbn [tm_attributes].
  - intros i a Hi. rewrite lookup_nil in Hi. discriminate Hi.
  - intros i a Hi. rewrite lookup_nil in Hi. discriminate Hi.
  - intros a s Hin. by apply elem_of_nil in Hin.
Qed.
Lemma parse_header_ok h p r p' : parser_ok p -> parse_header h p = Done (r, p') ->
  parser_ok p' /\ forall t, pc_template p' = Some t -> tm_attributes t = [] /\ isAlignedTmpl t = false.
Proof.
  intros Hp H. unfold parse_header in H.
  assert (keeps (match h with
       | structHeader _ name _ =>
           p ← get;
           match _evlFindStructRef name (imports p) with
           | Some _ => semanticError ("struct " ++ name ++ " previously defined or imported")%string
           | None => mret tt
           end
       | recordHeader _ _ _ => mret tt
       end)) as Hk by keep.
  apply done_bind in H as [(q & Hf & [= -> ->])|(u & q & Hf & H)].
  - exfalso. destruct h as [|c n d]; [done|]. unfold mbind, parsing_bind, get in Hf. by destruct (_evlFindStructRef n (imports p)).
  - pose proof (parser_ok_extends _ _ (Hk _ _ _ Hf) Hp) as Hq. unfold mbind, parsing_bind, get, modify in H. injection H as _ <-.
    split.
    + apply parser_ok_set; [|done]. destruct h as [|c n d], (negb (pc_errors q =? 0)); try destruct c; by apply building_new.
    + cbn. intros t [= <-]. destruct h as [|c n d], (negb (pc_errors q =? 0)); try destruct c; done.
Qed.
Lemma aligned_ok p r p' : parser_ok p -> (forall t, pc_template p = Some t -> Forall (fun a => isConstAtt a = true) (tm_attributes t)) ->
  flag_template TMPL_TF_ALIGNED p = Done (r, p') -> parser_ok p'.
Proof.
  intros Hp Hc H. unfold flag_template, mbind, parsing_bind, get, modify in H. destruct (pc_template p) as [t|] eqn:Et; injection H as _ <-; [|done].
  apply parser_ok_set; [|done]. apply (building_grows t); [apply grows_or|done| |by right; apply Hc|by apply Hp].
  unfold isPopulatedTmpl, or_tm_flags. cbn. by rewrite has_set, orb_false_r.
Qed.

(** Steps that leave a proper template under construction. *)
Definition sound {A} (x : parsing A) : Prop := forall p r p', parser_ok p -> x p = Done (r, p') -> parser_ok p'.
Lemma sound_keeps {A} (x : parsing A) : keeps x -> sound x.
Proof. intros H p r p' Hp Hx. eapply parser_ok_extends; [by eapply H|done]. Qed.
Lemma sound_bind {A B} (x : parsing A) (f : A -> parsing B) : sound x -> (forall a, sound (f a)) -> sound (x ≫= f).
Proof. intros Hx Hf p r p' Hp [(q & H & [= -> ->])|(a & q & H & H')]%done_bind; [by eapply Hx|]. eapply Hf; [by eapply Hx|done]. Qed.
Lemma sound_modify t : building t -> sound (modify (set_template t)).
Proof. intros Ht p r p' Hp [= _ <-]. by apply parser_ok_set. Qed.
Lemma sound_current {A} (f : parser -> template -> parsing A) :
  (forall p t, building t -> sound (f p t)) -> sound (p ← get; t ← need (pc_template p); f p t).
Proof.
  intros Hf p r p' Hp H. apply done_bind in H as [(q & [=] & _)|(p0 & q & [-> ->]%get_ok & H)].
  apply done_bind in H as [(q & Hn & _)|(t & q & [Ht ->]%need_ok & H)]; [unfold need, lift in Hn; by destruct (reading _)|].
  eapply Hf; [|done..]. by apply Hp.
Qed.

Lemma keeps_redirected b o : keeps (redirected b o).
Proof.
  assert (forall t n, keeps (getRedirAttName t n)) by (intros; unfold getRedirAttName; keep).
  assert (forall t z n c, keeps (_evlMkRedirAtt t z n c)) by (intros; unfold _evlMkRedirAtt; keep).
  unfold redirected. keep.
Qed.
Lemma keeps_parse_format t f : keeps (_evlTmplParseFormat t f).
Proof.
  assert (forall fs, keeps (tmpl_segment_of t fs)) by (intros; unfold tmpl_segment_of; keep).
  assert (forall l, keeps (tmpl_segments t l)) by (induction l; cbn [tmpl_segments]; keep).
  unfold _evlTmplParseFormat. keep.
Qed.
Lemma sound_format f : sound (_evlTmplAddFormatSpec f).
Proof.
  apply sound_current. intros p t Ht. cbv zeta. apply sound_bind; [apply sound_keeps, keeps_parse_format|]. intros l.
  apply sound_current. intros p' t' Ht'.
  destruct l; apply sound_modify; [by apply building_static|]. apply building_or; [done|]. by apply building_static.
Qed.

Definition alignment_known (t : template) : Prop := isAlignedTmpl t = true -> 0 < tm_alignment (tm_static t) < 2 ^ 15.
Lemma arch_alignment arch ty ti : arch_type_info arch ty = Some ti -> at_align ti < 2 ^ 15.
Proof.
  unfold arch_type_info. destruct (arch <? 0); [done|]. intros (row & Hrow & Hti)%bind_Some.
  assert (Forall (Forall (fun ti => at_align ti < 2 ^ 15)) _evlTmplArchTypeInfo) as Hall by (repeat constructor).
  exact (Forall_lookup_1 _ _ _ _ (Forall_lookup_1 _ _ _ _ Hall Hrow) Hti).
Qed.
Lemma member_alignment_bounds arch t l : isAlignedTmpl t = true ->
  Forall (fun a => exists e, attribute_ok t e a) l -> (forall a st, a ∈ l -> isStruct a = true -> ta_struct a = Some st -> wt st) ->
  forall al mi al' mi', 0 < al < 2 ^ 15 -> member_alignment arch l al mi = Done (al', mi') -> 0 < al' < 2 ^ 15.
Proof.
  intros Hat Hl Hst. induction Hl as [|a l [e Ha] Hl IH]; intros al mi al' mi' Hal H; cbn [member_alignment] in H; [by injection H as <- _|].
  assert (forall a st, a ∈ l -> isStruct a = true -> ta_struct a = Some st -> wt st) as Hst' by (intros b st Hb; apply Hst; by right).
  specialize (IH Hst'). destruct (isConstAtt a || _) eqn:Ec; [by eapply IH|]. apply orb_false_iff in Ec as [Ec _].
  apply bind_done in H as (m & _ & H). apply bind_done in H as (x & Hx & H). apply bind_done in H as (? & Hpos%assert_done & H).
  apply Z.ltb_lt in Hpos. eapply IH; [|exact H]. assert (x < 2 ^ 15); [|lia]. unfold computeAttAlignment in Hx.
  destruct (isStruct a) eqn:Es.
  - apply bind_done in Hx as (st & Hs%reading_done & [= <-]). destruct (ok_alignment _ _ _ Ha Hat Ec) as (_ & _ & Hs2 & _).
    pose proof (Hs2 st Es Hs) as Hsa. destruct (Hst a st) as [_ _ Hb _ _ _]; [by left|done..|]. by apply Hb.
  - apply bind_done in Hx as (ti & Hti%reading_done & [= <-]). by eapply arch_alignment.
Qed.
Lemma computeTmplAlignment_ok t t' : building t -> computeTmplAlignment t = Done t' -> building t' /\ alignment_known t'.
Proof.
  intros Ht H. unfold computeTmplAlignment in H. destruct (isAlignedTmpl t) eqn:Ea; cbn [negb] in H.
  - apply bind_done in H as ([al mi] & Hm & [= <-]). split; [by apply building_static|]. intros _. change (0 < s16 al < 2 ^ 15).
    assert (0 < al < 2 ^ 15) as Hal.
    { eapply (member_alignment_bounds _ t); [done| | | |exact Hm]; [|by apply Ht|lia].
      apply Forall_lookup_2. intros i a Hi. eexists. by apply Ht. }
    rewrite signed_id; [done|lia|]. unfold in_signed. lia.
  - injection H as <-. split; [by apply building_static|]. intros Hal.
    change (isAlignedTmpl t = true) in Hal. congruence.
Qed.
Lemma keeps_flagEmptyStruct t : keeps (flagEmptyStruct t).
Proof. unfold flagEmptyStruct. keep. Qed.
(** The last step: the alignment is known then. *)
Lemma wrapup_ok p u p' : parser_ok p -> _evlTmplWrapup p = Done (Some u, p') ->
  parser_ok p' /\ exists t, pc_template p' = Some t /\ alignment_known t.
Proof.
  intros Hp H. unfold _evlTmplWrapup in H.
  apply ok_bind in H as (p0 & q & [-> ->]%get_ok & H). apply ok_bind in H as (t & q & [Ht ->]%need_ok & H).
  apply ok_bind in H as (u1 & p1 & Hf & H). pose proof (parser_ok_extends _ _ (keeps_flagEmptyStruct _ _ _ _ Hf) Hp) as Hp1.
  apply ok_bind in H as (p0 & q & [-> ->]%get_ok & H). apply ok_bind in H as (t1 & q & [Ht1 ->]%need_ok & H).
  apply ok_bind in H as (t2 & q & [Hc ->]%lift_ok & H). unfold modify in H. injection H as _ <-.
  destruct (computeTmplAlignment_ok t1 t2) as [Hb Hal]; [by apply Hp1|done|]. split; [by apply parser_ok_set|]. by exists t2.
Qed.
Lemma wrapup_sound : sound _evlTmplWrapup.
Proof.
  apply sound_current. intros p t _. apply sound_bind; [apply sound_keeps, keeps_flagEmptyStruct|]. intros _.
  apply sound_current. intros p' t' Ht' q r q' Hq H. apply done_bind in H as [(q1 & Hn & _)|(t2 & q1 & [Hc ->]%lift_ok & H)].
  - unfold lift in Hn. by destruct (computeTmplAlignment t').
  - eapply sound_modify; [|done..]. by destruct (computeTmplAlignment_ok _ _ Ht' Hc).
Qed.
Lemma redirect_sound o : sound (parse_redirect o).
Proof.
  unfold parse_redirect. destruct o as [r|]; [|by apply sound_keeps, keeps_ret].
  pose proof keeps_redirected as Hr. apply sound_bind; [apply sound_keeps; keep|]. intros [fac evty].
  apply sound_bind; [|intros _; apply wrapup_sound]. apply sound_current. intros p t Ht. cbv zeta.
  apply sound_bind; [apply sound_modify; apply building_or; [done|]; by apply building_static|]. intros _. apply sound_keeps. keep.
Qed.

Record source_ok (src : source) : Prop := {
  so_typedefs : Forall stmt_ok (s_typedefs src);
  so_const : Forall stmt_ok (s_const src);
  so_attributes : Forall stmt_ok (s_attributes src)
}.
Lemma ttparse_ok src p u p' : source_ok src -> parser_ok p -> ttparse import same_template src p = Done (Some u, p') ->
  parser_ok p' /\ exists t, pc_template p' = Some t /\ alignment_known t.
Proof using import_keeps import_wt.
  intros [S1 S2 S3] Hp H. unfold ttparse in H.
  apply ok_bind in H as (u1 & p1 & H1 & H). destruct (add_attributes_ok _ _ _ _ _ S1 Hp H1) as [P1 _].
  apply ok_bind in H as (u2 & p2 & H2 & H). destruct (parse_header_ok _ _ _ _ P1 H2) as [P2 Hnew].
  apply ok_bind in H as (u3 & p3 & H3 & H). destruct (add_attributes_ok _ _ _ _ _ S2 P2 H3) as [P3 Hc3].
  apply ok_bind in H as (u4 & p4 & H4 & H).
  assert (parser_ok p4) as P4.
  { destruct (s_aligned src); [|by injection H4 as _ <-]. eapply aligned_ok; [exact P3| |exact H4]. intros t3 Ht3.
    unfold continues in Hc3. rewrite Ht3 in Hc3. destruct (pc_template p2) as [t2|] eqn:E2; [|done].
    destruct Hc3 as ((l & -> & Hl) & _). destruct (Hnew t2 eq_refl) as [-> _]. exact Hl. }
  apply ok_bind in H as (u5 & p5 & H5 & H). destruct (add_attributes_ok _ _ _ _ _ S3 P4 H5) as [P5 _].
  apply ok_bind in H as (u6 & p6 & H6 & H). pose proof (redirect_sound _ _ _ _ P5 H6) as P6.
  apply ok_bind in H as (u7 & p7 & H7 & H). pose proof (sound_format _ _ _ _ P6 H7) as P7.
  by eapply wrapup_ok.
Qed.
Lemma wt_building t : building t -> alignment_known t -> wt t.
Proof. intros [H1 H2 H3 H4 H5] Ha. by split. Qed.
Lemma wt_imports l t : wt t -> wt (rememberStructRefs l t).
Proof.
  intros [H1 H2 H3 H4 H5 H6]. split; [exact H1|exact H2|exact H3| |exact H5|exact H6].
  intros i a Hi. eapply (attribute_ok_mono t); [by split|by left|by apply H4].
Qed.

(** Between the templates of a file there is none under construction. *)
Record between_ok (p : parser) : Prop := { bk_typedefs : Forall typedef_ok (typedefs p); bk_imports : imports_wt p }.
Lemma getTemplate_ok src p o p' : source_ok src -> between_ok p -> getTemplate import same_template src p = Done (Some o, p') ->
  between_ok p' /\ (forall t, o = Some t -> wt t).
Proof using import_keeps import_wt.
  intros Hs [Htd Himp] H. unfold getTemplate in H. apply ok_bind in H as (u1 & p1 & [= _ <-] & H).
  apply ok_bind in H as (u2 & p2 & Ht & H). apply ttparse_ok in Ht as (P2 & t & Ht & Hal); [|done|].
  2: { split; [done| |done]. unfold imports_wt, start_template, forgetStructRefs. cbn. by rewrite map_map. }
  apply ok_bind in H as (q & p3 & [-> ->]%get_ok & H). rewrite Ht in H. apply ok_bind in H as (t' & q & [[= <-] ->]%need_ok & H).
  pose proof (wt_building _ (pk_template _ P2 t Ht) Hal) as Hwt. destruct (tm_has t TMPL_TF_ERROR).
  - apply ret_ok in H as [-> ->]. split; [|done]. by destruct P2.
  - apply ok_bind in H as (u3 & p4 & Hr & [-> ->]%ret_ok). pose proof (wt_imports (imports p2) t Hwt) as Hwi. split; [|by intros t' [= <-] ].
    destruct P2 as [Q1 Q2 _]. destruct (isStructTmpl _); [|by apply ret_ok in Hr as [_ ->] ]. unfold registerImport in Hr.
    apply ok_bind in Hr as (q & p5 & [-> ->]%get_ok & Hr). destruct (_evlFindStructRef _ _).
    + destruct (keeps_semanticError _ _ _ _ Hr) as [E1 _ E3]. split; [by rewrite E1|by apply E3].
    + injection Hr as _ <-. split; [done|]. unfold imports_wt in *. cbn. rewrite map_app. apply Forall_app. split; [done|].
      by constructor.
Qed.
Lemma getTemplatesFromFile_ok l : forall p ts n p', Forall source_ok l -> between_ok p ->
  getTemplatesFromFile import same_template l p = Done (Some (ts, n), p') -> Forall wt ts.
Proof using import_keeps import_wt.
  induction l as [|src l IH]; intros p ts n p' Hl Hp H; cbn [getTemplatesFromFile] in H; [by apply ret_ok in H as [[= -> ->] _]|].
  inversion Hl; subst. apply ok_bind in H as (o & q & Ho & H). destruct (getTemplate_ok _ _ _ _ ltac:(done) Hp Ho) as [Hq Ht].
  apply ok_bind in H as ([ts1 n1] & q1 & Hr & H). pose proof (IH _ _ _ _ ltac:(done) Hq Hr) as Hts.
  destruct o as [t|]; apply ret_ok in H as [[= -> ->] _]; [|done]. constructor; [by apply Ht|done].
Qed.
End Checked.
