(* ===== verification/TmplFuel.v ===== *)
(** * Compiling a template terminates

    The model of the parser never runs out of fuel: the scan of a format moves on with every
    round, and initial values nest as deep as structs are initialized. *)
From S2P Require Import Prelude NvPairs LogRecord QEvaluate LogSink RecPack Format FormatCorrect Conv Tmpl TmplPop TmplSafe TmplInit TmplCheck TmplTyping.

Definition fueled {A} (x : parsing A) : Prop := forall p, x p <> Fault OutOfFuel.
Definition stops {A} (o : outcome A) : Prop := o <> Fault OutOfFuel.

Create HintDb fuel.
Lemma stops_bind {A B} (o : outcome A) (f : A -> outcome B) : stops o -> (forall a, stops (f a)) -> stops (o ≫= f).
Proof. intros Ho Hf. unfold stops in *. destruct o as [a|e]; [apply Hf|]. cbn. congruence. Qed.
Lemma stops_done {A} (a : A) : stops (Done a).
Proof. done. Qed.
Lemma stops_ret {A} (a : A) : stops (mret a).
Proof. done. Qed.
Lemma stops_reading {A} (o : option A) : stops (reading o).
Proof. by destruct o. Qed.
Lemma stops_assert b : stops (assert b).
Proof. by destruct b. Qed.
Lemma stops_assertion {A} : stops (@Fault A AssertFailed).
Proof. done. Qed.
Lemma stops_undefined {A} : stops (@Fault A Undefined).
Proof. done. Qed.
#[export] Hint Resolve stops_done stops_ret stops_reading stops_assert stops_assertion stops_undefined : fuel.

Lemma fueled_bind {A B} (x : parsing A) (f : A -> parsing B) : fueled x -> (forall a, fueled (f a)) -> fueled (x ≫= f).
Proof.
  intros Hx Hf p. specialize (Hx p). unfold mbind, parsing_bind. destruct (x p) as [[[a|] q]|e]; [apply Hf|done|congruence].
Qed.
Lemma fueled_done {A} (f : parser -> option A * parser) : fueled (fun p => Done (f p)).
Proof. done. Qed.
Lemma fueled_ret {A} (a : A) : fueled (mret a).
Proof. done. Qed.
Lemma fueled_failed {A} : fueled (@failed A).
Proof. done. Qed.
Lemma fueled_get : fueled get.
Proof. done. Qed.
Lemma fueled_modify f : fueled (modify f).
Proof. done. Qed.
Lemma fueled_semanticError msg : fueled (semanticError msg).
Proof. done. Qed.
Lemma fueled_lift {A} (o : outcome A) : stops o -> fueled (lift o).
Proof. intros Ho p. unfold lift, stops in *. destruct o; [done|congruence]. Qed.
Lemma fueled_need {A} (o : option A) : fueled (need o).
Proof. apply fueled_lift, stops_reading. Qed.
Lemma fueled_with_store {A} (f : store -> outcome (A * store)) : (forall s, stops (f s)) -> fueled (with_store f).
Proof. intros Hf p. specialize (Hf (ps_store p)). unfold with_store, stops in *. destruct (f _) as [[a s]|]; [done|congruence]. Qed.
Lemma fueled_error {A} msg : fueled (@error A msg).
Proof. apply fueled_bind; [apply fueled_semanticError|intros; apply fueled_failed]. Qed.
#[export] Hint Resolve fueled_done fueled_ret fueled_failed fueled_get fueled_modify fueled_semanticError fueled_lift fueled_need
  fueled_with_store fueled_error : fuel.
(** One step into a term. *)
Ltac fuel_step :=
  lazymatch goal with
  | |- fueled (mbind _ _) => apply fueled_bind; [|intros ?]
  | |- stops (mbind _ _) => apply stops_bind; [|intros ?]
  | |- fueled (lift _) => apply fueled_lift
  | |- fueled (with_store _) => apply fueled_with_store; intros ?
  | |- fueled (match ?x with _ => _ end) => destruct x
  | |- stops (match ?x with _ => _ end) => destruct x
  end.
Ltac fuel := repeat (cbv beta zeta; first [solve [eauto 3 with fuel] | fuel_step]).

(** ** Initial values *)

Lemma stops_casts {T} ty (v : tmpl_value T) : stops (cast_to_int ty v) /\ stops (cast_to_real ty v).
Proof. unfold cast_to_int, cast_to_real. split; fuel. Qed.
Lemma stops_cast_to_int {T} ty (v : tmpl_value T) : stops (cast_to_int ty v).
Proof. apply stops_casts. Qed.
Lemma stops_cast_to_real {T} ty (v : tmpl_value T) : stops (cast_to_real ty v).
Proof. apply stops_casts. Qed.
Lemma fueled_cantAssign a b : fueled (cantAssign a b).
Proof. unfold cantAssign. fuel. Qed.
#[export] Hint Resolve stops_cast_to_int stops_cast_to_real fueled_cantAssign : fuel.
Lemma fueled_convert_number ty v : fueled (convert_number ty v).
Proof. unfold convert_number. fuel. Qed.
Lemma stops_wide_string mem : stops (wide_string mem).
Proof. unfold wide_string. fuel. Qed.
#[export] Hint Resolve fueled_convert_number stops_wide_string : fuel.
Lemma fueled_initScalarValue ty v : fueled (initScalarValue ty v).
Proof. unfold initScalarValue. fuel. Qed.
Lemma fueled_initConstScalar a v : fueled (initConstScalar a v).
Proof. unfold initConstScalar. fuel. Qed.
#[export] Hint Resolve fueled_initScalarValue fueled_initConstScalar : fuel.
Lemma fueled_initConstScalarArray ty l : fueled (initConstScalarArray ty l).
Proof. induction l; cbn [initConstScalarArray]; fuel. Qed.
Lemma fueled_all_of_type ty l : fueled (all_of_type ty l).
Proof. induction l; cbn [all_of_type]; fuel. Qed.
Lemma stops_mapM {A B} (f : A -> outcome B) l : (forall a, stops (f a)) -> stops (mapM f l).
Proof. intros Hf. induction l; cbn; fuel. Qed.
#[export] Hint Resolve fueled_initConstScalarArray fueled_all_of_type : fuel.
Lemma fueled_initConstStringArray l : fueled (initConstStringArray l).
Proof. unfold initConstStringArray. fuel. Qed.
Lemma fueled_initConstWstringArray l : fueled (initConstWstringArray l).
Proof. unfold initConstWstringArray. fuel. apply stops_mapM. intros. fuel. Qed.
#[export] Hint Resolve fueled_initConstStringArray fueled_initConstWstringArray : fuel.
Lemma stops_getDimension a : stops (getDimensionFromAttribute a).
Proof. unfold getDimensionFromAttribute, _evlTmplGetValueOfIntegerAttribute. fuel. Qed.
#[export] Hint Resolve stops_getDimension : fuel.
Lemma fueled_handleConstStructAtt a v : fueled (handleConstStructAtt a v).
Proof. unfold handleConstStructAtt. fuel. Qed.
#[export] Hint Resolve fueled_handleConstStructAtt : fuel.
Lemma stops_clone_template m s : stops (_evlCloneTemplate m s).
Proof.
  assert (forall a s, stops (cloneAttribute a s)) by (intros; unfold cloneAttribute, clone_dimension, alloc_dimension; fuel).
  assert (forall l s, stops (clone_attributes l s)) by (induction l; intros ?; cbn [clone_attributes]; fuel).
  unfold _evlCloneTemplate. fuel.
Qed.
#[export] Hint Resolve stops_clone_template : fuel.

(** *** Structs *)

Lemma depth_element l w : w ∈ l -> (tv_depth w <= max_list_with tv_depth l)%nat.
Proof. induction 1; cbn; lia. Qed.
Lemma values_depth n v : (tv_depth v <= S n)%nat -> Forall (fun w => (tv_depth w <= n)%nat) (val_list v).
Proof.
  intros Hv. destruct v as [ty [| | | | | | |l] ]; cbn [val_list tv_value]; try constructor.
  cbn [tv_depth] in Hv. apply Forall_forall. intros w Hw%depth_element. lia.
Qed.
Lemma deeper n l : Forall (fun w => (tv_depth w <= n)%nat) l -> Forall (fun w => (tv_depth w <= S n)%nat) l.
Proof. intros H. eapply Forall_impl; [exact H|]. cbn. lia. Qed.

Lemma fueled_some {A B} (a : A) (f : A -> parsing B) : fueled (f a) -> fueled (need (Some a) ≫= f).
Proof. done. Qed.

Section FuelInit.
Variable init : tmpl_attribute -> tmpl_type_and_value -> parsing template.
Variable n : nat.
Hypothesis init_fueled : forall a v, (tv_depth v <= n)%nat -> fueled (init a v).

Lemma fueled_initConstStructArray a l : Forall (fun w => (tv_depth w <= n)%nat) l -> fueled (initConstStructArray init a l).
Proof using init_fueled. induction 1; cbn [initConstStructArray]; fuel. Qed.
Lemma fueled_fix_dimension a d k : fueled (fix_dimension a d k).
Proof using. unfold fix_dimension, put_dimension2. fuel. Qed.
Hint Resolve fueled_initConstStructArray fueled_fix_dimension : fuel.
Lemma fueled_init_array a d v : (tv_depth v <= n)%nat -> fueled (init_array init a d v).
Proof using init_fueled.
  intros Hv. assert (Forall (fun w => (tv_depth w <= n)%nat) (val_list v)) as Hl.
  { destruct v as [ty [| | | | | | |l] ]; cbn [val_list tv_value]; try constructor. cbn [tv_depth] in Hv.
    apply Forall_forall. intros w Hw%depth_element. lia. }
  unfold init_array. fuel.
Qed.
Lemma fueled_init_single a v : fueled (init_single a v).
Proof using. unfold init_single. fuel. Qed.
Hint Resolve fueled_init_array fueled_init_single : fuel.
Lemma fueled_validateAttInitializer a v : (forall w, v = Some w -> (tv_depth w <= n)%nat) -> fueled (validateAttInitializer init a v).
Proof using init_fueled.
  intros Hv. destruct v as [v|]; [specialize (Hv v eq_refl)|]; unfold validateAttInitializer; fuel.
Qed.
Lemma fueled_init_members l : forall vs, Forall (fun w => (tv_depth w <= n)%nat) vs -> fueled (init_members init l vs).
Proof using init_fueled.
  induction l as [|m l IH]; intros vs Hvs; cbn [init_members]; [fuel|].
  destruct (isConstAtt m); [apply fueled_bind; [by apply IH|intros; fuel]|].
  destruct vs as [|v vs]; [done|]. inversion Hvs; subst. apply fueled_some.
  apply fueled_bind; [apply fueled_validateAttInitializer; by intros w [= <-]|]. intros w. apply fueled_bind; [by apply IH|]. intros. fuel.
Qed.
End FuelInit.
Lemma fueled_initStructAtt fuel : forall a v, (tv_depth v <= fuel)%nat -> fueled (initStructAtt fuel a v).
Proof.
  induction fuel as [|fuel IH]; intros a v Hv; [destruct v as [ty [| | | | | | |l] ]; cbn in Hv; lia|].
  cbn [initStructAtt]. pose proof (values_depth _ _ Hv) as Hl.
  pose proof (fun l => fueled_init_members _ _ IH l _ Hl) as Hm. unfold init_struct_body. fuel.
Qed.
Lemma fueled_initialize a v : fueled (initialize a v).
Proof.
  unfold initialize. eapply (fueled_validateAttInitializer _ (match v with Some v => tv_depth v | None => O end)).
  - intros b w. apply fueled_initStructAtt.
  - by intros w ->.
Qed.

(** ** The checks *)

Lemma fueled_parseBorVformat s b c : fueled (parseBorVformat s b c).
Proof. unfold parseBorVformat. fuel. Qed.
#[export] Hint Resolve fueled_initialize fueled_parseBorVformat : fuel.
Lemma fueled_collect_values l : forall d, fueled (collect_values l d).
Proof.
  induction l as [l IH] using (induction_ltof1 _ (@length str)); unfold ltof in IH. intros d.
  destruct l as [|s [|n l]]; cbn [collect_values]; [fuel|fuel|]. assert (forall d, fueled (collect_values l d)) by (intros; apply IH; cbn; lia).
  fuel.
Qed.
Lemma fueled_bitmap_bits s : fueled (bitmap_bits s).
Proof. unfold bitmap_bits. fuel. Qed.
#[export] Hint Resolve fueled_collect_values fueled_bitmap_bits : fuel.
Lemma fueled_collect_bitmaps l : forall d, fueled (collect_bitmaps l d).
Proof.
  induction l as [l IH] using (induction_ltof1 _ (@length str)); unfold ltof in IH. intros d.
  destruct l as [|s [|n l]]; cbn [collect_bitmaps]; [fuel|fuel|]. assert (forall d, fueled (collect_bitmaps l d)) by (intros; apply IH; cbn; lia).
  fuel.
Qed.
#[export] Hint Resolve fueled_collect_bitmaps : fuel.
Lemma fueled_collect_formats f b : fueled (_evlTmplCollectVformat f b) /\ fueled (_evlTmplCollectBformat f b).
Proof. unfold _evlTmplCollectVformat, _evlTmplCollectBformat. split; fuel. Qed.
Lemma fueled_the_template a : fueled (the_template a).
Proof. unfold the_template. fuel. Qed.
Lemma fueled_findTypedef n : fueled (findTypedef n).
Proof. unfold findTypedef. fuel. Qed.
Lemma fueled_flag_template f : fueled (flag_template f).
Proof. unfold flag_template. fuel. Qed.
#[export] Hint Resolve fueled_the_template fueled_findTypedef fueled_flag_template : fuel.
Lemma fueled_validateAttName a : fueled (validateAttName a).
Proof. unfold validateAttName. fuel. Qed.
Lemma fueled_validateAttDimension a : fueled (validateAttDimension a).
Proof. unfold validateAttDimension, dimension_by_name, variable_dimension, const_dimension, put_dimension2. fuel. Qed.
Lemma fueled_validateAttBitField a : fueled (validateAttBitField a).
Proof. unfold validateAttBitField. fuel. Qed.
Lemma fueled_validateAttDelimiter a : fueled (validateAttDelimiter a).
Proof. unfold validateAttDelimiter, variable_delimiter. fuel. Qed.
Lemma fueled_validateAlignment a : fueled (validateAlignment a).
Proof. unfold validateAlignment, validateNonalignment. fuel. Qed.
Lemma stops_formats a s ty : stops (validateScalarFormat s ty) /\ stops (formatCharArrAsString a s).
Proof. unfold validateScalarFormat, formatCharArrAsString. split; fuel. Qed.
#[export] Hint Resolve fueled_validateAttName fueled_validateAttDimension fueled_validateAttBitField fueled_validateAttDelimiter
  fueled_validateAlignment : fuel.
Lemma array_conversion_shorter a c z p z' c' p' : array_conversion a c z p = Done (Some (z', c'), p') -> (String.length c' <= String.length c)%nat.
Proof.
  intros H. unfold array_conversion in H. destruct c as [|d c]; [done|].
  assert (forall p, (if foundS z then error ("Too many conversion specifiers in format for " ++ text (ta_name a))%string
      else if isStruct a then
        error ("Attribute " ++ text (ta_name a) ++ " is an array of structs, so %Z and %I are the only permitted conversion specifiers")%string
      else
        flen ← lift (validateScalarFormat (String d c) (ta_type a));
        if flen <? 0 then error ("Malformed or inappropriate format string for " ++ text (ta_name a))%string
        else
          let n := Z.to_nat flen in
          mret (mkIz (iz_format z ++ String PERCENT (String.substring 0 n (String d c)))%string (iz_order z ++ "S")%string
                  (foundI z) (foundZ z) true, skip n (String d c))) p = Done (Some (z', c'), p') ->
      (String.length c' <= String.length (String d c))%nat) as Hother.
  { intros q H'. destruct (foundS z); [done|]. destruct (isStruct a); [done|].
    apply ok_bind in H' as (n & q' & _ & H'). destruct (n <? 0); [done|]. injection H' as _ <- _. apply skip_length. }
  destruct d as [[] [] [] [] [] [] [] []]; try (exact (Hother _ H)); clear Hother.
  - injection H as _ <- _. cbn. lia.
  - destruct (foundI z); [done|]. injection H as _ <- _. cbn. lia.
  - destruct (foundZ z); [done|]. destruct (negb (isStruct a)); [done|]. injection H as _ <- _. cbn. lia.
Qed.
Lemma fueled_bind_post {A B} (x : parsing A) (f : A -> parsing B) (P : A -> Prop) : fueled x ->
  (forall p a p', x p = Done (Some a, p') -> P a) -> (forall a, P a -> fueled (f a)) -> fueled (x ≫= f).
Proof.
  intros Hx Hp Hf p. specialize (Hx p). unfold mbind, parsing_bind. destruct (x p) as [[[a|] q]|e] eqn:E; [|done|congruence].
  apply Hf. by eapply Hp.
Qed.
Lemma fueled_array_conversion a c z : fueled (array_conversion a c z).
Proof. pose proof (fun a s ty => proj1 (stops_formats a s ty)). unfold array_conversion. fuel. Qed.
Lemma fueled_scan_array_format n : forall a c z, (String.length c <= n)%nat -> fueled (scan_array_format n a c z).
Proof.
  induction n as [|n IH]; intros a [|d c] z Hc; cbn [scan_array_format]; cbn in Hc; [fuel|lia|fuel|].
  destruct (Ascii.eqb d PERCENT).
  - apply (fueled_bind_post _ _ (fun r => (String.length r.2 <= String.length c)%nat)); [apply fueled_array_conversion| |].
    + intros p [z1 c1] p'. apply array_conversion_shorter.
    + intros [z1 c1] Hc1. apply IH. cbn in Hc1. lia.
  - apply IH. lia.
Qed.
Lemma fueled_validate_element_format a f : fueled (validate_element_format a f).
Proof. pose proof (fun a z => fueled_scan_array_format (String.length f) a f z (le_n _)). unfold validate_element_format. fuel. Qed.
#[export] Hint Resolve fueled_validate_element_format : fuel.
Lemma fueled_validateAttFormat a : fueled (validateAttFormat a).
Proof.
  pose proof (fun a s ty => proj1 (stops_formats a s ty)) as H1. pose proof (fun a s => proj2 (stops_formats a s TY_INT)) as H2.
  pose proof (fun f b => proj1 (fueled_collect_formats f b)) as H3. pose proof (fun f b => proj2 (fueled_collect_formats f b)) as H4.
  unfold validateAttFormat, validate_array_format, validate_scalar_format. fuel.
Qed.
#[export] Hint Resolve fueled_validateAttFormat : fuel.

(** ** A source *)

Lemma fueled_parse_format t f : fueled (_evlTmplParseFormat t f).
Proof.
  assert (forall fs, fueled (tmpl_segment_of t fs)) by (intros; unfold tmpl_segment_of; fuel).
  assert (forall l, fueled (tmpl_segments t l)) by (induction l; cbn [tmpl_segments]; fuel).
  unfold _evlTmplParseFormat. fuel.
Qed.
Lemma fueled_add_format f : fueled (_evlTmplAddFormatSpec f).
Proof. pose proof fueled_parse_format. unfold _evlTmplAddFormatSpec. fuel. Qed.
Lemma stops_member_alignment arch l : forall al mi, stops (member_alignment arch l al mi).
Proof. induction l as [|a l IH]; intros al mi; cbn [member_alignment]; unfold computeAttAlignment, type_info; fuel. Qed.
Lemma fueled_wrapup : fueled _evlTmplWrapup.
Proof.
  pose proof stops_member_alignment. assert (forall t, fueled (flagEmptyStruct t)) by (intros; unfold flagEmptyStruct; fuel).
  unfold _evlTmplWrapup, computeTmplAlignment. fuel.
Qed.
#[export] Hint Resolve fueled_add_format fueled_wrapup : fuel.
Lemma fueled_redirect o : fueled (parse_redirect o).
Proof.
  assert (forall t z n c, fueled (_evlMkRedirAtt t z n c)) by (intros; unfold _evlMkRedirAtt, getRedirAttName; fuel).
  assert (forall b r, fueled (redirected b r)) by (intros; unfold redirected; fuel).
  assert (forall a b, fueled (_evlAddRedirection a b)) by (intros; unfold _evlAddRedirection; fuel).
  unfold parse_redirect. fuel.
Qed.
#[export] Hint Resolve fueled_redirect : fuel.

Section FuelImport.
Variable import : str -> parsing (option template).
Variable same_template : template -> template -> bool.
Hypothesis import_fueled : forall path, fueled (import path).

Lemma fueled_check_attribute u a v : fueled (check_attribute import same_template u a v).
Proof using import_fueled.
  assert (forall s, fueled (_evlFindStructTemplate import s)) by (intros; unfold _evlFindStructTemplate; fuel).
  assert (forall u a, fueled (validateAttType import u a)) by (intros; unfold validateAttType; fuel).
  assert (forall a td, fueled (copy_dimension a td)) by (intros; unfold copy_dimension, alloc_dimension; fuel).
  assert (forall a td, fueled (copy_delimiter a td)) by (intros; unfold copy_delimiter, alloc_delimiter; fuel).
  assert (forall u a, fueled (applyTypedefIfAny same_template u a)) by (intros; unfold applyTypedefIfAny; fuel).
  assert (forall a, fueled (check_bitfield_class a)) by (intros; unfold check_bitfield_class; fuel).
  assert (forall a, fueled (check_R_notLast a)) by (intros; unfold check_R_notLast; fuel).
  unfold check_attribute, check_type, check_value. fuel.
Qed.
Lemma fueled_add_attribute c ty u name dim v fmt delim : fueled (_evlTmplAddAttribute import same_template c ty u name dim v fmt delim).
Proof using import_fueled.
  intros p. unfold _evlTmplAddAttribute. set (a := new_attribute c ty name dim fmt delim).
  assert (fueled (a ← check_attribute import same_template u a v; append_attribute a)) as Hf.
  { pose proof fueled_check_attribute. unfold append_attribute. fuel. }
  specialize (Hf p). revert Hf.
  destruct ((a0 ← check_attribute import same_template u a v; append_attribute a0) p) as [[[[]|] q]|e]; intros Hf; try done. destruct (if isTypedef a then None else pc_template q); done.
Qed.
Lemma fueled_add_attributes c l : fueled (add_attributes import same_template c l).
Proof using import_fueled.
  induction l as [|s l IH]; cbn [add_attributes]; [fuel|]. apply fueled_bind; [|intros; apply IH]. intros p. unfold attempt.
  pose proof (fueled_add_attribute c (at_base_type s) (at_ref s) (at_name s) (at_dimension s) (at_init s) (at_fmt s) (at_delim s) p) as H.
  destruct (_evlTmplAddAttribute _ _ _ _ _ _ _ _ _ _ p) as [[r q]|e]; [done|congruence].
Qed.
Hint Resolve fueled_add_attributes : fuel.
Lemma fueled_getTemplate src : fueled (getTemplate import same_template src).
Proof using import_fueled.
  assert (forall h, fueled (parse_header h)) by (intros; unfold parse_header; fuel).
  assert (fueled (ttparse import same_template src)) by (unfold ttparse; fuel).
  assert (forall t n, fueled (registerImport t n)) by (intros; unfold registerImport; fuel).
  unfold getTemplate. fuel.
Qed.
Hint Resolve fueled_getTemplate : fuel.
(** What the file's definitions compile to is never cut short. *)
Lemma fueled_getTemplatesFromFile l : fueled (getTemplatesFromFile import same_template l).
Proof using import_fueled. induction l; cbn [getTemplatesFromFile]; fuel. Qed.
End FuelImport.
