(* ===== verification/TmplErrors.v ===== *)
(** * A template with an error is rejected, and a message says why

    A step of the parser is [faithful] if it fails only after a message, and if the template
    is marked, or the errors in front of it are counted, exactly if there is a message. *)
From S2P Require Import Prelude NvPairs LogRecord QEvaluate LogSink RecPack Format Conv Tmpl TmplPop TmplSafe TmplInit TmplCheck TmplTyping TmplValues TmplTyped.

Definition bad (p : parser) : Prop :=
  match pc_template p with Some t => tm_has t TMPL_TF_ERROR = true | None => 0 < pc_errors p end.
Record says (p p' : parser) (l : list str) : Prop := {
  sy_messages : ps_messages p' = ps_messages p ++ l;
  sy_bad : bad p' <-> bad p \/ l <> [];
  sy_errors : 0 <= pc_errors p';
  sy_template : is_Some (pc_template p) <-> is_Some (pc_template p')
}.
Definition faithful {A} (x : parsing A) : Prop := forall p r p', 0 <= pc_errors p -> x p = Done (r, p') ->
  exists l, says p p' l /\ (r = None -> l <> []).

Create HintDb faith.
Lemma says_refl p : 0 <= pc_errors p -> says p p [].
Proof. intros H. split; [by rewrite app_nil_r|tauto|done|done]. Qed.
Lemma app_nonempty {A} (l m : list A) : l ++ m <> [] <-> l <> [] \/ m <> [].
Proof. rewrite app_nil. destruct l, m; intuition congruence. Qed.
Lemma says_trans p q r l m : says p q l -> says q r m -> says p r (l ++ m).
Proof.
  intros [H1 H2 H3 H4] [K1 K2 K3 K4]. split; [by rewrite K1, H1, app_assoc| |done|tauto].
  rewrite K2, H2, app_nonempty. tauto.
Qed.
(** The same template and errors. *)
Lemma says_same p p' : 0 <= pc_errors p -> pc_template p' = pc_template p -> pc_errors p' = pc_errors p -> ps_messages p' = ps_messages p -> says p p' [].
Proof.
  intros H1 H2 H3 H4. split; [by rewrite H4, app_nil_r| |lia|by rewrite H2]. unfold bad. rewrite H2, H3. tauto.
Qed.
Lemma faithful_bind {A B} (x : parsing A) (f : A -> parsing B) : faithful x -> (forall a, faithful (f a)) -> faithful (x ≫= f).
Proof.
  intros Hx Hf p r p' Hp [(q & H & [= -> ->])|(a & q & H & H1)]%done_bind.
  - destruct (Hx _ _ _ Hp H) as (l & ? & Hn). exists l. split; [done|]. intros _. by apply Hn.
  - destruct (Hx _ _ _ Hp H) as (l & Hl & _). destruct (Hf a _ _ _ (sy_errors _ _ _ Hl) H1) as (m & Hm & Hn).
    exists (l ++ m). split; [by eapply says_trans|]. intros Hr. intros [_ E]%app_nil. by apply Hn.
Qed.
Lemma faithful_ret {A} (a : A) : faithful (mret a).
Proof. intros p r p' Hp [= <- <-]. exists []. split; [by apply says_refl|done]. Qed.
Lemma faithful_get : faithful get.
Proof. intros p r p' Hp [= <- <-]. exists []. split; [by apply says_refl|done]. Qed.
Lemma faithful_lift {A} (o : outcome A) : faithful (lift o).
Proof. intros p r p' Hp H. unfold lift in H. destruct o; [|done]. injection H as <- <-. exists []. split; [by apply says_refl|done]. Qed.
Lemma faithful_need {A} (o : option A) : faithful (need o).
Proof. apply faithful_lift. Qed.
Lemma faithful_with_store {A} (f : store -> outcome (A * store)) : faithful (with_store f).
Proof.
  intros p r p' Hp H. unfold with_store in H. destruct (f _) as [[a s]|]; [|done]. injection H as <- <-.
  exists []. split; [by apply says_same|done].
Qed.
Lemma error_has_or t : tm_has (or_tm_flags TMPL_TF_ERROR t) TMPL_TF_ERROR = true.
Proof. unfold tm_has, or_tm_flags. cbn. by rewrite has_set, orb_true_r. Qed.
(** A message, and the mark. *)
Lemma semanticError_says msg p r p' : 0 <= pc_errors p -> semanticError msg p = Done (r, p') -> exists m, says p p' [m] /\ r = Some tt.
Proof.
  intros Hp H. unfold semanticError in H. injection H as <- <-. eexists. split; [|done].
  destruct (pc_template p) as [t|] eqn:E; split; cbn; rewrite ?E; try done; [| |lia]; unfold bad; cbn; rewrite ?E.
  - rewrite error_has_or. by split; [right|].
  - split; [by right|lia].
Qed.
Lemma faithful_semanticError msg : faithful (semanticError msg).
Proof. intros p r p' Hp H. destruct (semanticError_says _ _ _ _ Hp H) as (m & ? & ->). by exists [m]. Qed.
Lemma faithful_error {A} msg : faithful (@error A msg).
Proof.
  intros p r p' Hp H. unfold error in H. apply done_bind in H as [(q & Hq & _)|(a & q & Hq & H)].
  - by destruct (semanticError_says _ _ _ _ Hp Hq) as (? & _ & [=]).
  - destruct (semanticError_says _ _ _ _ Hp Hq) as (m & Hm & _). injection H as <- <-. by exists [m].
Qed.
Lemma faithful_cantAssign {A} a b : faithful (_ ← cantAssign a b; @failed A).
Proof. apply faithful_error. Qed.
Lemma faithful_imports f : faithful (modify (fun p => set_imports (f p) p)).
Proof. intros p r p' Hp [= <- <-]. exists []. split; [by apply says_same|done]. Qed.
Lemma faithful_set_imports l : faithful (modify (set_imports l)).
Proof. apply (faithful_imports (fun _ => l)). Qed.
Lemma faithful_typedefs f : faithful (modify (fun p => set_typedefs (f p) p)).
Proof. intros p r p' Hp [= <- <-]. exists []. split; [by apply says_same|done]. Qed.
#[export] Hint Resolve faithful_ret faithful_get faithful_lift faithful_need faithful_with_store faithful_semanticError faithful_error
  faithful_cantAssign faithful_imports faithful_set_imports faithful_typedefs : faith.
Ltac faith_step :=
  lazymatch goal with
  | |- faithful (mbind _ _) => apply faithful_bind; [|intros ?]
  | |- faithful (match ?x with _ => _ end) => destruct x
  end.
Ltac faith := repeat (cbv beta zeta; first [solve [eauto 3 with faith] | faith_step]).

(** ** The checks of an attribute *)

Lemma faithful_convert_number ty v : faithful (convert_number ty v).
Proof. unfold convert_number. faith. Qed.
#[export] Hint Resolve faithful_convert_number : faith.
Lemma faithful_initScalarValue ty v : faithful (initScalarValue ty v).
Proof. unfold initScalarValue. faith. Qed.
Lemma faithful_initConstScalar a v : faithful (initConstScalar a v).
Proof. unfold initConstScalar. faith. Qed.
#[export] Hint Resolve faithful_initScalarValue faithful_initConstScalar : faith.
Lemma faithful_initConstScalarArray ty l : faithful (initConstScalarArray ty l).
Proof. induction l; cbn [initConstScalarArray]; faith. Qed.
Lemma faithful_all_of_type ty l : faithful (all_of_type ty l).
Proof. induction l; cbn [all_of_type]; faith. Qed.
#[export] Hint Resolve faithful_initConstScalarArray faithful_all_of_type : faith.
Lemma faithful_initConstStringArray l : faithful (initConstStringArray l).
Proof. unfold initConstStringArray. faith. Qed.
Lemma faithful_initConstWstringArray l : faithful (initConstWstringArray l).
Proof. unfold initConstWstringArray. faith. Qed.
Lemma faithful_handleConstStructAtt a v : faithful (handleConstStructAtt a v).
Proof. unfold handleConstStructAtt. faith. Qed.
#[export] Hint Resolve faithful_initConstStringArray faithful_initConstWstringArray faithful_handleConstStructAtt : faith.

(** *** Initializers *)

Lemma faithful_bind_post {A B} (x : parsing A) (f : A -> parsing B) (P : A -> Prop) : faithful x ->
  (forall p a p', x p = Done (Some a, p') -> P a) -> (forall a, P a -> faithful (f a)) -> faithful (x ≫= f).
Proof.
  intros Hx HP Hf p r p' Hp [(q & H & [= -> ->])|(a & q & H & H1)]%done_bind.
  - destruct (Hx _ _ _ Hp H) as (l & ? & Hn). exists l. split; [done|]. intros _. by apply Hn.
  - destruct (Hx _ _ _ Hp H) as (l & Hl & _). destruct (Hf a (HP _ _ _ H) _ _ _ (sy_errors _ _ _ Hl) H1) as (m & Hm & Hn).
    exists (l ++ m). split; [by eapply says_trans|]. intros Hr [_ E]%app_nil. by apply Hn.
Qed.
Section FaithfulInit.
Variable init : tmpl_attribute -> tmpl_type_and_value -> parsing template.
Hypothesis init_faithful : forall a v, tv_ok v -> faithful (init a v).

Lemma faithful_initConstStructArray a l : Forall tv_ok l -> faithful (initConstStructArray init a l).
Proof using init_faithful. induction 1; cbn [initConstStructArray]; faith. Qed.
Lemma length_initConstStructArray a l : forall p ts p', initConstStructArray init a l p = Done (Some ts, p') -> length ts = length l.
Proof using.
  induction l as [|v l IH]; intros p ts p' H; cbn [initConstStructArray] in H; [by apply ret_ok in H as [-> _]|].
  apply ok_bind in H as (t & p1 & _ & H). apply ok_bind in H as (rest & p2 & Hr%IH & [-> _]%ret_ok). cbn. congruence.
Qed.
Lemma faithful_fix_dimension a d n : faithful (fix_dimension a d n).
Proof using. unfold fix_dimension, put_dimension2. faith. Qed.
Hint Resolve faithful_fix_dimension : faith.
Lemma faithful_init_array a d v : tv_ok v -> faithful (init_array init a d v).
Proof using init_faithful.
  intros Hv. unfold init_array. destruct (negb _) eqn:Et; [faith|]. apply negb_false_iff, bool_decide_eq_true in Et.
  destruct Hv as [| | | | |l Hne Hl]; try done. cbn [val_list tv_value].
  apply faithful_bind; [faith|]. intros [b n]. destruct (negb _); [faith|].
  assert (faithful (ts ← initConstStructArray init b l; if bool_decide (ts = []) then failed else mret (set_ta_value b (VList ts)))) as Hs.
  { apply (faithful_bind_post _ _ (fun ts => length ts = length l)); [by apply faithful_initConstStructArray|intros p ts p'; apply length_initConstStructArray|].
    intros ts Hts. case_bool_decide; [|faith]. subst ts. destruct l; [done|discriminate Hts]. }
  destruct (ta_type b); first [exact Hs|faith].
Qed.
Lemma faithful_init_single a v : faithful (init_single a v).
Proof using. unfold init_single. faith. Qed.
Hint Resolve faithful_init_array faithful_init_single : faith.
Lemma faithful_validateAttInitializer a v : (forall w, v = Some w -> tv_ok w) -> faithful (validateAttInitializer init a v).
Proof using init_faithful. intros Hv. destruct v as [v|]; [specialize (Hv v eq_refl)|]; unfold validateAttInitializer; faith. Qed.
Lemma faithful_init_members l : forall vs, Forall tv_ok vs -> faithful (init_members init l vs).
Proof using init_faithful.
  induction l as [|m l IH]; intros vs Hvs; cbn [init_members]; [faith|].
  destruct (isConstAtt m); [apply faithful_bind; [by apply IH|intros; faith]|].
  apply (faithful_bind_post _ _ tv_ok); [faith| |].
  - intros p v p' [Hh _]%need_ok. destruct vs; [done|]. injection Hh as <-. by inversion Hvs.
  - intros v Hv. apply faithful_bind; [apply faithful_validateAttInitializer; by intros w [= <-]|]. intros b.
    apply faithful_bind; [|intros; faith]. apply IH. destruct vs; [done|]. by inversion Hvs.
Qed.
End FaithfulInit.
Lemma faithful_initStructAtt fuel : forall a v, tv_ok v -> faithful (initStructAtt fuel a v).
Proof.
  induction fuel as [|fuel IH]; intros a v Hv; cbn [initStructAtt]; [faith|].
  assert (Forall tv_ok (val_list v)) as Hl by (destruct Hv; try constructor; done).
  pose proof (fun l => faithful_init_members _ IH l _ Hl) as Hm. unfold init_struct_body. faith.
Qed.
Lemma faithful_initialize a v : (forall w, v = Some w -> tv_ok w) -> faithful (initialize a v).
Proof. apply faithful_validateAttInitializer, faithful_initStructAtt. Qed.

(** *** The others *)

Lemma faithful_parseBorVformat s b c : faithful (parseBorVformat s b c).
Proof. unfold parseBorVformat. faith. Qed.
#[export] Hint Resolve faithful_parseBorVformat : faith.
Lemma faithful_collect_values l : forall d, faithful (collect_values l d).
Proof.
  induction l as [l IH] using (induction_ltof1 _ (@length str)); unfold ltof in IH. intros d.
  destruct l as [|s [|n l]]; cbn [collect_values]; [faith|faith|]. assert (forall d, faithful (collect_values l d)) by (intros; apply IH; cbn; lia).
  faith.
Qed.
Lemma faithful_bitmap_bits s : faithful (bitmap_bits s).
Proof. unfold bitmap_bits. faith. Qed.
#[export] Hint Resolve faithful_collect_values faithful_bitmap_bits : faith.
Lemma faithful_collect_bitmaps l : forall d, faithful (collect_bitmaps l d).
Proof.
  induction l as [l IH] using (induction_ltof1 _ (@length str)); unfold ltof in IH. intros d.
  destruct l as [|s [|n l]]; cbn [collect_bitmaps]; [faith|faith|]. assert (forall d, faithful (collect_bitmaps l d)) by (intros; apply IH; cbn; lia).
  faith.
Qed.
#[export] Hint Resolve faithful_collect_bitmaps : faith.
Lemma faithful_vformat f b : faithful (_evlTmplCollectVformat f b).
Proof. unfold _evlTmplCollectVformat. faith. Qed.
Lemma faithful_bformat f b : faithful (_evlTmplCollectBformat f b).
Proof. unfold _evlTmplCollectBformat. faith. Qed.
Lemma faithful_the_template a : faithful (the_template a).
Proof. unfold the_template. faith. Qed.
Lemma faithful_findTypedef n : faithful (findTypedef n).
Proof. unfold findTypedef. faith. Qed.
(** Other flags than the mark of an error, on the template as it is. *)
Lemma faithful_set_template t p : (pc_template p = Some t \/ exists u, pc_template p = Some u /\ tm_has t TMPL_TF_ERROR = tm_has u TMPL_TF_ERROR) ->
  0 <= pc_errors p -> says p (set_template t p) [].
Proof.
  intros Ht Hp. split; cbn; [by rewrite app_nil_r| |done|destruct Ht as [->|(u & -> & _)]; split; by eexists].
  unfold bad. cbn. destruct Ht as [->|(u & -> & ->)]; tauto.
Qed.
Lemma faithful_flag_template f : has f TMPL_TF_ERROR = false -> faithful (flag_template f).
Proof.
  intros Hf p r p' Hp H. unfold flag_template, get, mbind, parsing_bind, modify in H. destruct (pc_template p) as [t|] eqn:E.
  - injection H as <- <-. exists []. split; [|done]. apply faithful_set_template; [|done]. right. exists t. split; [done|].
    unfold tm_has, or_tm_flags. cbn. by rewrite has_set, Hf, orb_false_r.
  - injection H as <- <-. exists []. split; [by apply says_refl|done].
Qed.
#[export] Hint Resolve faithful_vformat faithful_bformat faithful_the_template faithful_findTypedef : faith.
#[export] Hint Extern 1 (faithful (flag_template _)) => apply faithful_flag_template; reflexivity : faith.
Lemma faithful_validateAttName a : faithful (validateAttName a).
Proof. unfold validateAttName. faith. Qed.
Lemma faithful_validateAttDimension a : faithful (validateAttDimension a).
Proof. unfold validateAttDimension, dimension_by_name, variable_dimension, const_dimension, put_dimension2. faith. Qed.
Lemma faithful_validateAttBitField a : faithful (validateAttBitField a).
Proof. unfold validateAttBitField. faith. Qed.
Lemma faithful_validateAttDelimiter a : faithful (validateAttDelimiter a).
Proof. unfold validateAttDelimiter, variable_delimiter. faith. Qed.
Lemma faithful_validateAlignment a : faithful (validateAlignment a).
Proof. unfold validateAlignment, validateNonalignment. faith. Qed.
Lemma faithful_array_conversion a c z : faithful (array_conversion a c z).
Proof. unfold array_conversion. faith. Qed.
#[export] Hint Resolve faithful_validateAttName faithful_validateAttDimension faithful_validateAttBitField faithful_validateAttDelimiter
  faithful_validateAlignment faithful_array_conversion : faith.
Lemma faithful_scan_array_format n : forall a c z, faithful (scan_array_format n a c z).
Proof. induction n as [|n IH]; intros a [|d c] z; cbn [scan_array_format]; faith. Qed.
#[export] Hint Resolve faithful_scan_array_format : faith.
Lemma faithful_validate_element_format a f : faithful (validate_element_format a f).
Proof. unfold validate_element_format. faith. Qed.
#[export] Hint Resolve faithful_validate_element_format : faith.
Lemma faithful_validateAttFormat a : faithful (validateAttFormat a).
Proof. unfold validateAttFormat, validate_array_format, validate_scalar_format. faith. Qed.
#[export] Hint Resolve faithful_validateAttFormat : faith.

(** ** A source *)

(** The check of a format says so if something is wrong. *)
Definition doubtful {A} (wrong : A -> Prop) (x : parsing A) : Prop := forall p r p', 0 <= pc_errors p -> x p = Done (r, p') ->
  exists l, says p p' l /\ (r = None -> l <> []) /\ (forall a, r = Some a -> wrong a -> l <> []).
Lemma doubtful_faithful {A} wrong (x : parsing A) : doubtful wrong x -> faithful x.
Proof. intros H p r p' Hp Hx. destruct (H _ _ _ Hp Hx) as (l & ? & ? & _). by exists l. Qed.
Lemma doubtful_ret {A} (wrong : A -> Prop) a : ~ wrong a -> doubtful wrong (mret a).
Proof. intros Ha p r p' Hp [= <- <-]. exists []. split; [by apply says_refl|]. split; [done|]. by intros b [= <-]. Qed.
Lemma doubtful_bind {A B} (wa : A -> Prop) (wb : B -> Prop) (x : parsing A) (f : A -> parsing B) : doubtful wa x ->
  (forall a, faithful (f a)) -> (forall a, ~ wa a -> doubtful wb (f a)) -> (forall a, wa a \/ ~ wa a) -> doubtful wb (x ≫= f).
Proof.
  intros Hx Hf Hd Hdec p r p' Hp [(q & H & [= -> ->])|(a & q & H & H1)]%done_bind.
  - destruct (Hx _ _ _ Hp H) as (l & ? & Hn & _). exists l. split; [done|]. split; [intros _; by apply Hn|done].
  - destruct (Hx _ _ _ Hp H) as (l & Hl & _ & Hw). destruct (Hdec a) as [Ha|Ha].
    + specialize (Hw a eq_refl Ha). destruct (Hf a _ _ _ (sy_errors _ _ _ Hl) H1) as (m & Hm & _). exists (l ++ m).
      split; [by eapply says_trans|]. split; [intros _ [? _]%app_nil; done|intros _ _ _ [? _]%app_nil; done].
    + destruct (Hd a Ha _ _ _ (sy_errors _ _ _ Hl) H1) as (m & Hm & Hn & Hw'). exists (l ++ m).
      split; [by eapply says_trans|]. split; [intros Hr [_ ?]%app_nil; by apply Hn|intros b Hr Hb [_ ?]%app_nil; by eapply Hw'].
Qed.
Lemma doubtful_said {A} (wrong : A -> Prop) msg (a : A) : doubtful wrong (_ ← semanticError msg; mret a).
Proof.
  intros p r p' Hp H. apply done_bind in H as [(q & H & _)|(u & q & H & H1)]; destruct (semanticError_says _ _ _ _ Hp H) as (m & Hm & E); [done|].
  injection H1 as <- <-. by exists [m].
Qed.
Lemma wrong_dec {A} (r : A * bool) : r.2 = false \/ ~ r.2 = false.
Proof. destruct r as [a []]; [by right|by left]. Qed.
Lemma doubtful_segment t fs : doubtful (fun r => r.2 = false) (tmpl_segment_of t fs).
Proof.
  unfold tmpl_segment_of. destruct fs as [s|m f b|name f b|c f b|msg]; try (by apply doubtful_ret).
  - destruct (m =? POSIX_LOG_ENTRY_DATA); [apply doubtful_said|by apply doubtful_ret].
  - destruct (_evlTmplFindAttribute t name) as [a|]; [|apply doubtful_said]. destruct (bool_decide _ && _); [apply doubtful_said|].
    by apply (doubtful_ret (fun r => r.2 = false)).
Qed.
Lemma doubtful_segments t l : doubtful (fun r => r.2 = false) (tmpl_segments t l).
Proof.
  induction l as [|fs l IH]; cbn [tmpl_segments]; [by apply doubtful_ret|].
  assert (faithful (tmpl_segments t l)) as Hf by (by eapply doubtful_faithful).
  eapply doubtful_bind; [apply doubtful_segment| | |apply wrong_dec].
  - intros [seg ok]. faith.
  - intros [seg ok] Hok. eapply doubtful_bind; [exact IH| | |apply wrong_dec].
    + intros [segs oks]. faith.
    + intros [segs oks] Hoks. apply doubtful_ret. cbn in *. by destruct ok, oks.
Qed.
Lemma doubtful_parse_format t f : doubtful (fun r => r = None) (_evlTmplParseFormat t f).
Proof.
  unfold _evlTmplParseFormat. intros p r p' Hp H. apply done_bind in H as [(q & H & _)|(x & q & [Hx ->]%need_ok & H)].
  { unfold need, lift in H. by destruct (reading _). }
  destruct x as [msg|l]; [by eapply doubtful_said|].
  assert (faithful (tmpl_segments t l)) as Hf by (eapply doubtful_faithful, doubtful_segments).
  refine ((_ : doubtful (fun r => r = None) ('(segs, ok) ← tmpl_segments t l; mret (if (ok : bool) then Some segs else None))) p r p' Hp H).
  eapply doubtful_bind; [apply doubtful_segments| | |apply wrong_dec].
  - intros [segs ok]. faith.
  - intros [segs ok] Hok. destruct ok; [by apply doubtful_ret|done].
Qed.
Lemma faithful_add_format f : faithful (_evlTmplAddFormatSpec f).
Proof.
  intros p r p' Hp H. unfold _evlTmplAddFormatSpec in H. apply done_bind in H as [(q & [=] & _)|(p0 & q & [-> ->]%get_ok & H)].
  apply done_bind in H as [(q & Hn & _)|(t & q & [Ht ->]%need_ok & H)]; [unfold need, lift in Hn; by destruct (reading _)|].
  apply done_bind in H as [(q & Hq & [= -> ->])|(o & q & Hq & H)]; destruct (doubtful_parse_format _ _ _ _ _ Hp Hq) as (l & Hl & Hn & Hw).
  { exists l. split; [done|]. intros _. by apply Hn. }
  apply done_bind in H as [(q' & [=] & _)|(p0 & q' & [-> ->]%get_ok & H)].
  apply done_bind in H as [(q' & Hn' & _)|(t' & q' & [Ht' ->]%need_ok & H)]; [unfold need, lift in Hn'; by destruct (reading _)|].
  exists l. destruct o as [segs|]; injection H as <- <-; (split; [|done]).
  - rewrite <-(app_nil_r l). eapply says_trans; [exact Hl|]. apply faithful_set_template; [|by destruct Hl]. right. by exists t'.
  - specialize (Hw _ eq_refl eq_refl). destruct Hl as [S1 S2 S3 S4]. split; cbn; [done| |done|].
    + unfold bad at 1. cbn. rewrite error_has_or. by split; [right|].
    + rewrite S4, Ht'. split; by eexists.
Qed.

(** The template is put back, changed. *)
Lemma faithful_update (g : template -> outcome template) (k : template -> parsing unit) (x : parsing unit) :
  (forall t t', g t = Done t' -> tm_has t' TMPL_TF_ERROR = tm_has t TMPL_TF_ERROR) -> (forall t, faithful (k t)) ->
  (forall p, x p = (p ← get; t ← need (pc_template p); t' ← lift (g t); _ ← modify (set_template t'); k t) p) -> faithful x.
Proof.
  intros Hg Hk Hx p r p' Hp H. rewrite Hx in H. apply done_bind in H as [(q & [=] & _)|(p0 & q & [-> ->]%get_ok & H)].
  apply done_bind in H as [(q & Hn & _)|(t & q & [Ht ->]%need_ok & H)]; [unfold need, lift in Hn; by destruct (reading _)|].
  apply done_bind in H as [(q & Hn & _)|(t' & q & [Ht' ->]%lift_ok & H)]; [unfold lift in Hn; by destruct (g t)|].
  apply done_bind in H as [(q & [=] & _)|(u & q & [= _ <-] & H)].
  assert (says p (set_template t' p) []) as Hs by (apply faithful_set_template; [right; exists t; by split; [|apply Hg]|done]).
  destruct (Hk t _ _ _ (sy_errors _ _ _ Hs) H) as (l & Hl & Hn). exists l. split; [|done]. apply (says_trans _ _ _ [] l Hs Hl).
Qed.
Lemma faithful_wrapup : faithful _evlTmplWrapup.
Proof.
  unfold _evlTmplWrapup. apply faithful_bind; [faith|]. intros p. apply faithful_bind; [faith|]. intros t.
  apply faithful_bind; [unfold flagEmptyStruct; faith|]. intros _.
  apply (faithful_update computeTmplAlignment (fun _ => mret tt)); [|intros; faith|].
  2: { intros q. unfold mbind, parsing_bind, get. destruct (need _ _) as [[ [t1|] q1]|]; done. }
  intros t1 t2 H. unfold computeTmplAlignment in H. destruct (negb _); [by injection H as <-|].
  by apply bind_done in H as ([al mi] & _ & [= <-]).
Qed.
#[export] Hint Resolve faithful_wrapup faithful_add_format : faith.
Lemma faithful_redirect o : faithful (parse_redirect o).
Proof.
  assert (forall t z n c, faithful (_evlMkRedirAtt t z n c)) by (intros; unfold _evlMkRedirAtt, getRedirAttName; faith).
  assert (forall b r, faithful (redirected b r)) by (intros; unfold redirected; faith).
  assert (forall a b, faithful (_evlAddRedirection a b)) as Ha.
  { intros a b. apply (faithful_update (fun t => Done (or_tm_flags TMPL_TF_REDIRECT (set_static t
      (mkStatic (th_type (tm_static t)) (th_description (tm_static t)) (tm_name (tm_static t)) (tm_parsed_format (tm_static t))
         (tm_alignment (tm_static t)) (tm_minsize (tm_static t)) (Some (mkRedir a b)))))) 
      (fun t => if isStructTmpl t then semanticError "struct template cannot have redirection" else mret tt)); [| |intros q; reflexivity].
    - intros t t' [= <-]. unfold tm_has, or_tm_flags. cbn. by rewrite has_set, orb_false_r.
    - intros. faith. }
  unfold parse_redirect. faith.
Qed.
#[export] Hint Resolve faithful_redirect : faith.
(** The new template takes over the errors in front of it. *)
Lemma parse_header_says h p r p' : 0 <= pc_errors p -> pc_template p = None -> parse_header h p = Done (r, p') ->
  exists l, ps_messages p' = ps_messages p ++ l /\ (bad p' <-> bad p \/ l <> []) /\ 0 <= pc_errors p' /\ r = Some tt.
Proof.
  intros Hp Hn H. unfold parse_header in H.
  assert (exists u q l, (match h with
       | structHeader _ name _ =>
           p ← get;
           match _evlFindStructRef name (imports p) with
           | Some _ => semanticError ("struct " ++ name ++ " previously defined or imported")%string
           | None => mret tt
           end
       | recordHeader _ _ _ => mret tt
       end) p = Done (Some u, q) /\ says p q l) as (u & q & l & Hq & Hl).
  { destruct h as [|c n d]; [exists tt, p, []; split; [done|by apply says_refl]|]. unfold mbind, parsing_bind, get.
    destruct (_evlFindStructRef n (imports p)); [|exists tt, p, []; split; [done|by apply says_refl]].
    destruct (semanticError_says ("struct " ++ n ++ " previously defined or imported")%string p _ _ Hp eq_refl) as (m & Hm & _).
    by do 3 eexists. }
  exists l. apply done_bind in H as [(q' & Hq' & _)|(u' & q' & Hq' & H)]; rewrite Hq in Hq'; [done|]. injection Hq' as -> <-.
  unfold mbind, parsing_bind, get, modify in H. injection H as <- <-. destruct Hl as [S1 S2 S3 S4]. split; [done|]. split; [|by split].
  rewrite <-S2. unfold bad. cbn. destruct (pc_template q); [rewrite Hn in S4; destruct S4 as [_ S4]; by destruct S4|].
  destruct (negb (pc_errors q =? 0)) eqn:E.
  - rewrite error_has_or. apply negb_true_iff, Z.eqb_neq in E. split; [lia|done].
  - apply negb_false_iff, Z.eqb_eq in E. rewrite E. split; [|done]. by destruct h as [|[] n d].
Qed.

Section FaithfulImport.
Variable import : str -> parsing (option template).
Variable same_template : template -> template -> bool.
Hypothesis import_faithful : forall path, faithful (import path).

Lemma faithful_check_attribute u a v : (forall w, v = Some w -> tv_ok w) -> faithful (check_attribute import same_template u a v).
Proof using import_faithful.
  intros Hv. pose proof (fun a => faithful_initialize a v Hv).
  assert (forall s, faithful (_evlFindStructTemplate import s)) by (intros; unfold _evlFindStructTemplate; faith).
  assert (forall u a, faithful (validateAttType import u a)) by (intros; unfold validateAttType; faith).
  assert (forall a td, faithful (copy_dimension a td)) by (intros; unfold copy_dimension; faith).
  assert (forall a td, faithful (copy_delimiter a td)) by (intros; unfold copy_delimiter; faith).
  assert (forall u a, faithful (applyTypedefIfAny same_template u a)) by (intros; unfold applyTypedefIfAny; faith).
  assert (forall a, faithful (check_bitfield_class a)) by (intros; unfold check_bitfield_class; faith).
  assert (forall a, faithful (check_R_notLast a)) by (intros; unfold check_R_notLast; faith).
  unfold check_attribute, check_type, check_value. faith.
Qed.
Lemma faithful_append a : faithful (append_attribute a).
Proof using.
  unfold append_attribute. destruct (isTypedef a) eqn:Ea; [faith|]. intros p r p' Hp H.
  unfold the_template, get, mbind, parsing_bind, mret, parsing_ret, need, lift, modify in H. rewrite Ea in H.
  destruct (pc_template p) as [t|] eqn:E; [|done]. cbn in H. injection H as <- <-. exists []. split; [|done].
  apply faithful_set_template; [|done]. right. by exists t.
Qed.
Lemma faithful_add_attribute c ty u name dim v fmt delim : (forall w, v = Some w -> tv_ok w) ->
  faithful (_evlTmplAddAttribute import same_template c ty u name dim v fmt delim).
Proof using import_faithful.
  intros Hv p r p' Hp H. unfold _evlTmplAddAttribute in H. set (a := new_attribute c ty name dim fmt delim) in H.
  destruct ((a0 ← check_attribute import same_template u a v; append_attribute a0) p) as [[r0 q]|] eqn:Hx; [|done].
  assert (faithful (a0 ← check_attribute import same_template u a v; append_attribute a0)) as Hf.
  { apply faithful_bind; [by apply faithful_check_attribute|apply faithful_append]. }
  destruct (Hf _ _ _ Hp Hx) as (l & Hl & Hn). destruct r0 as [[]|]; [injection H as <- <-; by exists l|].
  specialize (Hn eq_refl). exists l. destruct (if isTypedef a then None else pc_template q) as [t|] eqn:Et; injection H as <- <-; [|done].
  split; [|done]. destruct (isTypedef a); [done|]. destruct Hl as [S1 S2 S3 S4]. split; cbn; [done| |done|].
  - unfold bad at 1. cbn. rewrite error_has_or. by split; [right|].
  - rewrite S4, Et. split; by eexists.
Qed.
Lemma faithful_add_attributes c l : Forall stmt_ok l -> faithful (add_attributes import same_template c l).
Proof using import_faithful.
  induction 1 as [|s l [_ Hs] Hl IH]; cbn [add_attributes]; [faith|]. apply faithful_bind; [|intros; apply IH]. intros p r p' Hp H.
  unfold attempt in H. destruct (_evlTmplAddAttribute _ _ _ _ _ _ _ _ _ _ p) as [[r0 q]|e] eqn:Ha; [|done].
  injection H as <- <-. destruct (faithful_add_attribute _ _ _ _ _ _ _ _ Hs _ _ _ Hp Ha) as (m & Hm & _). by exists m.
Qed.
(** A template is marked exactly if there is a message. *)
Lemma ttparse_says src p u p' : source_ok src -> 0 <= pc_errors p -> pc_template p = None ->
  ttparse import same_template src p = Done (u, p') ->
  exists l, ps_messages p' = ps_messages p ++ l /\ (bad p' <-> bad p \/ l <> []) /\ (u = None -> l <> []).
Proof using import_faithful.
  intros [S1 S2 S3] Hp Hn H. unfold ttparse in H.
  apply done_bind in H as [(q & H1 & [= -> ->])|(u1 & p1 & H1 & H)];
    destruct (faithful_add_attributes _ _ S1 _ _ _ Hp H1) as (l1 & [M1 B1 P1 T1] & N1).
  { exists l1. split; [done|]. split; [done|]. intros _. by apply N1. }
  assert (pc_template p1 = None) as Hn1.
  { destruct (pc_template p1); [|done]. rewrite Hn in T1. destruct T1 as [_ T1]. by destruct T1. }
  apply done_bind in H as [(q & H2 & [= -> ->])|(u2 & p2 & H2 & H)];
    destruct (parse_header_says _ _ _ _ P1 Hn1 H2) as (l2 & M2 & B2 & P2 & N2); [done|].
  set (rest := _ ← add_attributes import same_template EVL_ATTR_CONST (s_const src); _) in H.
  assert (faithful rest) as Hf.
  { pose proof (faithful_add_attributes EVL_ATTR_CONST _ S2). pose proof (faithful_add_attributes 0 _ S3). unfold rest. faith. }
  destruct (Hf _ _ _ P2 H) as (l3 & [M3 B3 P3 T3] & N3). exists (l1 ++ l2 ++ l3). split; [by rewrite M3, M2, M1, !app_assoc|].
  split; [|intros Hu [_ [_ ?]%app_nil]%app_nil; by apply N3].
  rewrite B3, B2, B1, !app_nonempty. clear. tauto.
Qed.
End FaithfulImport.
