(* ===== verification/TmplCompile.v ===== *)
(** * What the compiler of template files promises

    Its results are well typed, it comes to an end, it rejects a definition exactly if it
    says why, and a bitmap of a [%b] format matches what its digits say. *)
From S2P Require Import Prelude NvPairs LogRecord QEvaluate LogSink RecPack Format Conv Tmpl TmplPop TmplSafe TmplInit TmplCheck.
From S2P Require Import TmplTyping TmplValues TmplTyped TmplFuel TmplErrors.

(** ** A file *)

Definition no_import : str -> parsing (option template) := fun _ => mret None.
Definition no_template : template -> template -> bool := fun _ _ => false.
Definition first_state : parser := mkParser None 0 [] [] (mkStore ∅ ∅ 1000) [].
(** [typedef ushort count "%d"; const { string greeting = "hi"; int primes[] = {2, 3}; }
    attributes { count n; char text[n] "%s"; } format "%greeting% %n%: %text%"] *)
Definition a_source (format : str) : source :=
  mkSource
    [mkStmt TY_USHORT NoRef (Some "count"%string) None None (Some "%d"%string) None]
    (recordHeader 1 2 None)
    [mkStmt TY_STRING NoRef (Some "greeting"%string) None (Some (mkTv TY_STRING (VString "hi"))) None None;
     mkStmt TY_INT NoRef (Some "primes"%string) (Some (mkDim TMPL_DIM_IMPLIED 0 100))
       (Some (mkTv TY_LIST (VList [mkTv TY_LONG (VInt 2); mkTv TY_LONG (VInt 3)]))) None None]
    false
    [mkStmt TY_TYPEDEF (td_name "count") (Some "n"%string) None None None None;
     mkStmt TY_CHAR NoRef (Some "text"%string) (Some (mkDim (TMPL_DIM_ATTNAME "n") (-1) 101)) None (Some "%s"%string) None]
    None format.
Definition good_source : source := a_source "%greeting% %n%: %text%".
Definition bad_source : source := a_source "%greeting% %n%: %data%".

Lemma no_import_keeps path : keeps (no_import path).
Proof. apply keeps_ret. Qed.
Lemma no_import_wt path p t p' : imports_wt p -> no_import path p = Done (Some (Some t), p') -> wt t.
Proof. done. Qed.
Lemma no_import_fueled path : fueled (no_import path).
Proof. done. Qed.
Lemma no_import_faithful path : faithful (no_import path).
Proof. apply faithful_ret. Qed.
Lemma a_source_ok format : source_ok (a_source format).
Proof.
  assert (tv_ok (mkTv TY_STRING (VString "hi"))) as H1 by (by constructor).
  assert (tv_ok (mkTv TY_LIST (VList [mkTv TY_LONG (VInt 2); mkTv TY_LONG (VInt 3)]))) as H2 by (by repeat constructor).
  split; repeat apply Forall_cons_2; try apply Forall_nil_2; (split; [done|]); intros v [=]; by subst v.
Qed.
Lemma first_state_ok : between_ok first_state.
Proof. split; constructor. Qed.

(** ** The contract *)

(** *** What the compiler does not check

    Bit-fields are not populated from a record here; the sizes of arrays are not checked
    against an [int], nor that an attribute that gives a dimension is a number that is no
    wide character, address or array. *)
Definition dimension_tame (arch : Z) (m : template) (a : tmpl_attribute) (d : tmpl_dimension) : bool :=
  let size := element_size arch (ta_type a) in
  let tame_source (b : tmpl_attribute) :=
    negb (isArray b) && match dim_max (ta_type b) with Some k => size * k <? 2 ^ 31 | None => false end in
  match td_type d with
  | TMPL_DIM_CONST => (td_dimension d <? 2 ^ 31) && (size * td_dimension d <? 2 ^ 31)
  | TMPL_DIM_PREFIX3 => td_dimension d =? -1
  | TMPL_DIM_IMPLIED => false
  | TMPL_DIM_ATTR i => match tm_attributes m !! i with Some b => tame_source b | None => true end
  | TMPL_DIM_ATTNAME name => match _evlTmplFindAttribute m name with Some b => tame_source b && negb (attExists b) | None => true end
  | _ => true
  end.
Definition att_tame (arch : Z) (m : template) (a : tmpl_attribute) : bool :=
  negb (isBitField a) &&
  match ta_type a with TY_STRUCT | TY_STRING | TY_WSTRING => true | ty => is_scalar ty end &&
  match ta_dimension a with Some d => dimension_tame arch m a d | None => true end.
Fixpoint tame (arch : Z) (m : template) : bool :=
  match m with
  | mkTemplate _ _ atts _ =>
      forallb (fun a => negb (is_extra a)) atts &&
      forallb (fun a : tmpl_attribute_ template =>
        match a with
        | mkAttr _ _ str _ _ _ _ _ _ flags _ =>
            has flags EVL_ATTR_CONST || (att_tame arch m a && match str with Some st => isStruct a && tame arch st | None => true end)
        end) atts
  end.
Lemma typed_att_ok arch m env a : attribute_ok m env a -> (forall i b, env !! i = Some b -> tm_attributes m !! i = Some b /\ attribute_ok m (take i env) b) ->
  (forall st, isStruct a = true -> ta_struct a = Some st -> wt st) -> isConstAtt a = false -> att_tame arch m a = true -> att_ok arch m a = true.
Proof.
  intros Ha Henv Hst Hc Ht. unfold att_tame in Ht. apply andb_true_iff in Ht as [[Hb Hty]%andb_true_iff Hd].
  pose proof (ok_value _ _ _ Ha) as Hv. rewrite Hc in Hv. destruct Hv as [Hv Hx].
  unfold att_ok. rewrite Hb, Hx, Hv. cbn [negb andb].
  apply andb_true_iff. split.
  - pose proof (ok_alignment _ _ _ Ha) as Hal. unfold alignment_ok in Hal. destruct (ok_type _ _ _ Ha) as (_ & _ & Hs).
    assert (isStruct a = true -> match ta_struct a with Some st => negb (isAlignedTmpl m) || (0 <? tm_alignment (tm_static st)) | None => false end = true) as Hstruct.
    { intros Es. destruct (Hs Es) as (st & Est & _). rewrite Est. destruct (isAlignedTmpl m) eqn:Em; [|done]. cbn.
      destruct (Hal eq_refl Hc) as (_ & _ & Hsa & _). pose proof (Hsa st Es Est) as Hsal.
      destruct (Hst st Es Est) as [_ _ Hpos _ _ _]. apply Z.ltb_lt. destruct (Hpos Hsal). done. }
    unfold isStruct in Hstruct. destruct (ta_type a) eqn:Ety; try exact Hty; try (by apply Hstruct).
    all: destruct (isAlignedTmpl m) eqn:Em; [destruct (Hal eq_refl Hc) as (H1 & H2 & _); congruence|done].
  - pose proof (ok_dimension _ _ _ Ha) as Hdim. unfold dimension_ok in Hdim. destruct (ta_dimension a) as [d|]; [|done].
    unfold dimension_tame in Hd. unfold array_ok, _evlTmplGetNthAttribute. destruct (td_type d) eqn:Edt; try done.
    + by destruct Hdim as (_ & _ & []).
    + destruct Hdim as [_ Hpos]. apply andb_true_iff in Hd as [-> ->]. apply andb_true_iff. split; [|done].
      apply andb_true_iff. split; [apply Z.leb_le; lia|done].
    + destruct Hdim as (_ & _ & b & Hb' & Hcb & _). destruct (Henv _ _ Hb') as [Hm Hbok]. rewrite Hm in Hd |- *.
      unfold dim_source_ok. rewrite Hd. pose proof (ok_value _ _ _ Hbok) as Hbv. rewrite Hcb in Hbv. destruct Hbv as [_ ->]. done.
    + destruct (_evlTmplFindAttribute m u_attname) as [b|]; [|done]. apply andb_true_iff in Hd as [Hd Hxb]. apply negb_true_iff in Hxb.
      unfold dim_source_ok. by rewrite Hd, Hxb.
    + destruct Hdim as [Hbf _]. by rewrite Hbf in Hb.
Qed.

(** What compiles and is tame satisfies the hypothesis under which population is safe. *)
Lemma tame_templates_are_safe arch m : wt m -> tame arch m = true -> pop_ok arch m = true.
Proof.
  induction m as [sta st atts imps IHa IHi] using template_tree_ind. intros [H1 H2 H3 H4 H5 H6] Ht. cbn [tame] in Ht. cbn [pop_ok].
  apply andb_true_iff in Ht as [Hx Ht]. repeat (apply andb_true_iff; split).
  - exact H1.
  - unfold isPopulatedTmpl in H2. cbn in H2. by rewrite H2.
  - unfold isAlignedTmpl in H3. cbn in H3. destruct (has _ _); [|done]. apply Z.ltb_lt. by destruct (H3 eq_refl).
  - exact Hx.
  - apply forallb_forall. intros a Ha. pose proof (proj1 (forallb_forall _ _) Ht a Ha) as Hta.
    assert (a ∈ atts) as Hin by (by apply list_elem_of_In). destruct (proj1 (list_elem_of_lookup _ _) Hin) as [i Hi].
    pose proof (H4 i a Hi) as Hok. pose proof (proj1 (Forall_forall _ _) IHa a Hin) as IH.
    destruct a as [nm ty str d f sh de raw v flags ix]. apply orb_true_iff. destruct (has flags EVL_ATTR_CONST) eqn:Ec; [by left|right].
    cbn beta iota in Hta. cbn [orb] in Hta. apply andb_true_iff in Hta as [Hat Hst]. apply andb_true_iff. split.
    + eapply typed_att_ok; [exact Hok| | |exact Ec|exact Hat].
      * intros j b Hj. cbn [tm_attributes] in *. apply lookup_take_Some in Hj as [Hj Hlt]. split; [done|].
        rewrite take_take, Nat.min_l by lia. by apply H4.
      * intros s Hs Es. by eapply (H6 _ s Hin).
    + destruct str as [s|]; [|done]. apply andb_true_iff in Hst as [Es Hst]. apply Forall_inv in IH.
      apply IH; [|done]. by eapply (H6 _ s Hin).
Qed.

