(* ===== verification/TmplFmt.v ===== *)
(** * Formatting by templates ([lib/template/tmplfmt.c])

    A populated template as text: its attributes by their formats, arrays element by element,
    structs by the formats of their own templates, and the whole by the template's format;
    or all attributes as lines of names and values.  The text goes to a format buffer.
    Values print as [printf] prints them after the cast to the attribute's type. *)
From S2P Require Import Prelude NvPairs LogRecord MemStr QEvaluate RecPack Format CPrintf Dump FmtBuf FormatRec Conv Tmpl TmplPop TmplInit TmplCheck.

(** ** [printf] with several arguments *)

(** What the buffers refuse is undefined behaviour. *)
Definition into {A} (o : option A) : outcome A := match o with Some a => Done a | None => Fault Undefined end.
Definition conversion_chars : str := ("-+ #'.0123456789" ++ modifier_chars)%string.
Definition behind (s : str) (t : option str) : option str := match t with Some t => Some (s ++ t)%string | None => None end.
(** The text of a format and its arguments, or [None] for a negative result.  A conversion
    without an argument, or that writes, is undefined.  Every round takes characters of the
    format: its length is enough fuel. *)
Fixpoint print_all `{TextOfReal} (fuel : nat) (fmt : str) (args : list carg) : outcome (option str) :=
  match fmt with
  | EmptyString => Done (Some EmptyString)
  | String c fmt =>
      match fuel with
      | O => Fault OutOfFuel
      | S fuel =>
          if negb (Ascii.eqb c PERCENT) then t ← print_all fuel fmt args; Done (behind (String c EmptyString) t)
          else
            let '(spec, fmt) := span_set conversion_chars fmt in
            match fmt with
            | EmptyString => Fault Undefined
            | String letter fmt =>
                if Ascii.eqb letter PERCENT then t ← print_all fuel fmt args; Done (behind (String PERCENT EmptyString) t)
                else match args with
                | arg :: args =>
                    if Ascii.eqb letter "n" then Fault Undefined
                    else
                      t ← print_all fuel fmt args;
                      Done (match vsnprintf (String PERCENT (spec ++ String letter EmptyString)) arg with Some s => behind s t | None => None end)
                | [] => Fault Undefined
                end
            end
      end
  end.
Definition print `{TextOfReal} (fmt : str) (args : list carg) : outcome (option str) := print_all (String.length fmt) fmt args.
Definition bprintf `{TextOfReal} (f : evl_fmt_buf) (fmt : str) (args : list carg) : outcome evl_fmt_buf :=
  t ← print fmt args; into (_evlBprintf f t).

(** ** Values as arguments *)

(** The column [ti_format] of [_evlTmplTypeInfo]. *)
Definition ti_format (ty : base_type) : str :=
  match ty with
  | TY_CHAR | TY_SHORT | TY_INT => "%d"
  | TY_UCHAR | TY_USHORT | TY_UINT => "%u"
  | TY_LONG => "%ld"
  | TY_ULONG => "%lu"
  | TY_LONGLONG => "%Ld"
  | TY_ULONGLONG => "%Lu"
  | TY_FLOAT | TY_DOUBLE => "%f"
  | TY_LDOUBLE => "%Lf"
  | TY_STRING => "%s"
  | TY_WCHAR => "%lc"
  | TY_WSTRING => "%ls"
  | TY_ADDRESS => "%p"
  | _ => "%#x"
  end.
(** A [float] as the [double] that it is promoted to. *)
Definition widen_float (bs : list Z) : list Z :=
  let bits := le_decode bs in
  let sign := Z.shiftl (bits / 2 ^ 31 mod 2) 63 in
  let e := bits / 2 ^ 23 mod 2 ^ 8 in
  let m := bits mod 2 ^ 23 in
  le_encode 8
    (if e =? 255 then Z.lor sign (Z.lor (Z.shiftl 2047 52) (Z.shiftl m 29))
     else if e =? 0 then
       if m =? 0 then sign
       else let k := Z.log2 m in Z.lor sign (Z.lor (Z.shiftl (k - 149 + 1023) 52) (Z.shiftl (m - 2 ^ k) (52 - k)))
     else Z.lor sign (Z.lor (Z.shiftl (e - 127 + 1023) 52) (Z.shiftl m 29))).
(** The wide string at the start of memory, without its terminator. *)
Definition wide_chars (mem : list Z) : outcome (list Z) := reading (fst (FormatRec.collectWstring (S (length mem)) mem)).
(** An integer of the type as it is passed. *)
Definition int_arg (ty : base_type) (z : Z) : outcome carg :=
  match ty with
  | TY_CHAR => Done (AInt (s8 z))
  | TY_UCHAR => Done (AInt (u8 z))
  | TY_SHORT => Done (AInt (s16 z))
  | TY_USHORT => Done (AInt (u16 z))
  | TY_INT => Done (AInt (s32 z))
  | TY_UINT => Done (AInt (u32 z))
  | TY_LONG => Done (ALong (s64 z))
  | TY_ULONG => Done (ALong (u64 z))
  | TY_LONGLONG => Done (ALonglong (s64 z))
  | TY_ULONGLONG => Done (ALonglong (u64 z))
  | TY_ADDRESS => Done (AAddress (u64 z))
  | TY_WCHAR => Done (AWchar (s32 z))
  | _ => Fault Undefined
  end.
Definition real_arg (ty : base_type) (bs : list Z) : outcome carg :=
  match ty with
  | TY_FLOAT => Done (ADouble (widen_float bs))
  | TY_DOUBLE => Done (ADouble bs)
  | TY_LDOUBLE => Done (ALdouble bs)
  | _ => Fault Undefined
  end.
Definition is_scalar_type (ty : base_type) : bool :=
  isInteger ty || match ty with TY_FLOAT | TY_DOUBLE | TY_LDOUBLE => true | _ => false end.
(** The value of a scalar or a string. *)
Definition value_arg (a : tmpl_attribute) : outcome carg :=
  let ty := ta_type a in
  if negb (is_scalar_type ty || bool_decide (ty = TY_STRING) || bool_decide (ty = TY_WSTRING)) then Fault AssertFailed
  else match ta_value a with
  | VInt z => int_arg ty z
  | VReal bs => real_arg ty bs
  | VString s => if bool_decide (ty = TY_STRING) then Done (AString s) else Fault Undefined
  | VWstring mem => if bool_decide (ty = TY_WSTRING) then ws ← wide_chars mem; Done (AWstring ws) else Fault Undefined
  | _ => Fault Undefined
  end.
(** An element's bytes. *)
Definition element_arg (ty : base_type) (bs : list Z) : outcome carg :=
  if isInteger ty then int_arg ty (le_decode bs)
  else if is_scalar_type ty then real_arg ty bs
  else Fault AssertFailed.
(** The element at the start of memory, and what is behind it. *)
Definition next_element (ty : base_type) (mem : list Z) : outcome (carg * list Z) :=
  match ty with
  | TY_STRING => s ← reading (block_string mem); Done (AString s, drop (S (String.length s)) mem)
  | TY_WSTRING => ws ← wide_chars mem; Done (AWstring ws, drop (4 * S (length ws)) mem)
  | _ =>
      bs ← read_mem mem 0 (type_size ty);
      arg ← element_arg ty bs;
      Done (arg, drop (Z.to_nat (type_size ty)) mem)
  end.

(** ** Attributes *)

Inductive myIZorder := S_ | SI | IS | Z_ | ZI | IZ.
Definition u_izorder (f : tmpl_att_fmt) : str :=
  match f with TMPL_AFS_ARRAY _ o | TMPL_AFS_IZARRAY _ o => o | _ => EmptyString end.
Definition getIZorder (a : tmpl_attribute) : myIZorder :=
  let izorder := u_izorder (ta_format a) in
  if streqb izorder "SI" then SI
  else if streqb izorder "IS" then IS
  else if streqb izorder "Z" then Z_
  else if streqb izorder "ZI" then ZI
  else if streqb izorder "IZ" then IZ
  else S_.
(** The arguments in the order of the format. *)
Definition scalar_args (izo : myIZorder) (i : Z) (v : carg) : list carg :=
  match izo with IS => [AInt i; v] | SI => [v; AInt i] | _ => [v] end.
Definition struct_args (izo : myIZorder) (i : Z) (v : carg) : outcome (list carg) :=
  match izo with Z_ => Done [v] | IZ => Done [AInt i; v] | ZI => Done [v; AInt i] | _ => Fault AssertFailed end.
(** The characters before a terminator, or all of them. *)
Definition char_array (elem : nat) (mem : list Z) (nel : nat) : outcome carg :=
  bs ← read_mem mem 0 (Z.of_nat (elem * nel));
  if (elem =? 1)%nat then Done (AString (cstring (bs ++ [0])))
  else ws ← wide_chars (bs ++ replicate elem 0); Done (AWstring ws).

Section Fmt.
Context `{HostLib, TextOfReal}.
(** The dimensions and delimiters of the populated arrays. *)
Variable st : store.

Definition castAndFormatAtt (a : tmpl_attribute) (fmt : str) (f : evl_fmt_buf) : outcome evl_fmt_buf :=
  arg ← value_arg a; bprintf f fmt [arg].
Definition getAttDelimiter (a : tmpl_attribute) : str :=
  match ta_delimiter a with Some de => default EmptyString (de_delimiter_of st de) | None => " " end.
Definition array_dim (a : tmpl_attribute) : outcome Z := d ← reading (ta_dimension a); Done (td_dimension2 st d).
Definition array_mem (a : tmpl_attribute) : outcome (list Z) :=
  match ta_value a with VArray _ mem => Done mem | _ => Fault Undefined end.

Fixpoint format_elements (ty : base_type) (izo : myIZorder) (fmt delimiter : str) (n : nat) (i : Z) (val : list Z) (f : evl_fmt_buf)
  : outcome evl_fmt_buf :=
  match n with
  | O => Done f
  | S n =>
      '(arg, val) ← next_element ty val;
      f ← (if 0 <? i then bprintf f "%s" [AString delimiter] else Done f);
      f ← bprintf f fmt (scalar_args izo i arg);
      format_elements ty izo fmt delimiter n (i + 1) val f
  end.
Definition formatArrayOfScalars (a : tmpl_attribute) (fmt : str) (f : evl_fmt_buf) : outcome evl_fmt_buf :=
  nelements ← array_dim a;
  if nelements <=? 0 then Done f
  else
    val ← array_mem a;
    format_elements (ta_type a) (getIZorder a) fmt (getAttDelimiter a) (Z.to_nat nelements) 0 val f.

(** How far [c] goes, in elements of [elem] bytes, until it is behind [nel] terminators. *)
Fixpoint chars_of_strings (fuel elem nel : nat) (mem : list Z) : outcome Z :=
  match nel with
  | O => Done 0
  | S n =>
      match fuel with
      | O => Fault OutOfFuel
      | S fuel =>
          c ← read_mem mem 0 (Z.of_nat elem);
          k ← chars_of_strings fuel elem (if bool_decide (c = replicate elem 0) then n else nel) (drop elem mem);
          Done (1 + k)
      end
  end.
Definition struct_data (t : template) : outcome (ptr * Z) :=
  p ← reading (tm_data (tm_state t)); Done (p, tm_data_size (tm_state t)).
(** What is dumped and how many bytes of it. *)
Definition dump_range (arch : Z) (a : tmpl_attribute) : outcome (list Z * Z) :=
  nel ← array_dim a;
  let count (elem : nat) := mem ← array_mem a; k ← chars_of_strings (S (length mem)) elem (Z.to_nat nel) mem; Done (Z.of_nat elem * k) in
  let dumpAddr := match ta_rawdata a with Some p => Done (pointee p) | None => array_mem a end in
  match ta_type a with
  | TY_STRING => n ← count 1%nat; mem ← dumpAddr; Done (mem, n)
  | TY_WSTRING => n ← count 4%nat; mem ← dumpAddr; Done (mem, n)
  | TY_STRUCT =>
      match ta_value a with
      | VList ((first :: _) as l) =>
          '(p, _) ← struct_data first;
          '(q, size) ← (lastTmpl ← reading (last l); struct_data lastTmpl);
          Done (pointee p, u64 (p_off q - p_off p + size))
      | _ => Fault AssertFailed
      end
  | ty => ti ← type_info arch ty; mem ← dumpAddr; Done (mem, u64 (nel * at_size ti))
  end.
Definition dumpArray (arch : Z) (a : tmpl_attribute) (f : evl_fmt_buf) : outcome evl_fmt_buf :=
  '(mem, nBytes) ← dump_range arch a; into (_evlDumpBytesToFmtBuf (Some mem) nBytes f).

Definition bprintCharArrAsString (a : tmpl_attribute) (f : evl_fmt_buf) : outcome evl_fmt_buf :=
  fmt ← match ta_format a with TMPL_AFS_CHARRSTR fmt => Done fmt | _ => Fault Undefined end;
  nel ← array_dim a;
  mem ← array_mem a;
  arg ← char_array (if bool_decide (ta_type a = TY_WCHAR) then 4 else 1) mem (Z.to_nat nel);
  bprintf f fmt [arg].

(** ** Names of values *)

Definition format_valnm (bitmaps : list tmpl_bitmap) (val : Z) (f : evl_fmt_buf) : outcome evl_fmt_buf :=
  match find (fun bmap => val =? bm_1bits bmap) bitmaps with
  | Some bmap => bprintf f "%s" [AString (bm_name bmap)]
  | None => bprintf f "%ld" [ALong val]
  end.
(** Some bit that the bitmap tests has not been reported. *)
Definition unreported (bar : Z) (bmap : tmpl_bitmap) : bool := negb (Z.lor (Z.lor bar (bm_1bits bmap)) (bm_0bits bmap) =? bar).
Definition bits_match (val : Z) (bmap : tmpl_bitmap) : bool :=
  (Z.land val (bm_1bits bmap) =? bm_1bits bmap) && (Z.land val (bm_0bits bmap) =? 0).
(** [bar]: bits already reported. *)
Fixpoint report_bitmaps (bitmaps : list tmpl_bitmap) (val bar : Z) (f : evl_fmt_buf) : outcome (Z * evl_fmt_buf) :=
  match bitmaps with
  | [] => Done (bar, f)
  | bmap :: bitmaps =>
      if unreported bar bmap && bits_match val bmap then
        f ← bprintf f (if negb (bar =? 0) then "|" else "(") [];
        f ← bprintf f "%s" [AString (bm_name bmap)];
        report_bitmaps bitmaps val (Z.lor bar (Z.lor (bm_1bits bmap) (bm_0bits bmap))) f
      else report_bitmaps bitmaps val bar f
  end.
Definition format_bitmap (bitmaps : list tmpl_bitmap) (val : Z) (f : evl_fmt_buf) : outcome evl_fmt_buf :=
  f ← bprintf f "0x%lx" [ALong val];
  '(bar, f) ← report_bitmaps bitmaps val 0 f;
  if negb (bar =? 0) then bprintf f ")" [] else Done f.

(** ** Structs *)

Definition SCRATCH_PAD_SIZE : Z := 4 * 1024.
Section Rec.
(** [formatRecordFromTemplate] on the templates inside: a status and the buffer. *)
Variable format_template : template -> evl_fmt_buf -> outcome (Z * evl_fmt_buf).

(** The text of a struct that is too big for the temporary buffer is extended with [X]; the
    result is the buffer for the next one. *)
Definition pad_text (buf : list Z) (reqlen : Z) : outcome (list Z) :=
  let bufsz := Z.of_nat (length buf) in
  if reqlen <? bufsz then Fault Undefined
  else Done (take (Z.to_nat (bufsz - 1)) buf ++ replicate (Z.to_nat (reqlen - bufsz)) 88 ++ [0]).
Definition format_struct (t : template) (buf : list Z) : outcome (list Z) :=
  '(status, stbuf) ← format_template t (_evlMakeFmtBuf (Some buf));
  if status =? EMSGSIZE then pad_text (fb_buf stbuf) (fb_next stbuf)
  else _ ← assert (status =? 0); Done (fb_buf stbuf).
Fixpoint format_structs (izo : myIZorder) (fmt delimiter : str) (l : list template) (i : Z) (buf : list Z) (f : evl_fmt_buf)
  : outcome evl_fmt_buf :=
  match l with
  | [] => Done f
  | t :: l =>
      buf ← format_struct t buf;
      f ← (if 0 <? i then bprintf f "%s" [AString delimiter] else Done f);
      args ← struct_args izo i (AString (cstring buf));
      f ← bprintf f fmt args;
      format_structs izo fmt delimiter l (i + 1) buf f
  end.
(** The buffer is as big as what is left of [f], or the scratch pad. *)
Definition formatArrayOfStructs (a : tmpl_attribute) (fmt : str) (f : evl_fmt_buf) : outcome evl_fmt_buf :=
  let room := fb_end f - fb_next f in
  let buf := replicate (Z.to_nat (Z.max room SCRATCH_PAD_SIZE)) 0 in
  match ta_value a with
  | VList ((_ :: _) as l) => format_structs (getIZorder a) fmt (getAttDelimiter a) l 0 buf f
  | _ => Fault WildRead
  end.

Definition done_with (o : outcome evl_fmt_buf) : outcome (Z * evl_fmt_buf) := f ← o; Done (0, f).
Definition format_array (arch : Z) (a : tmpl_attribute) (f : evl_fmt_buf) : outcome evl_fmt_buf :=
  let is_struct := bool_decide (ta_type a = TY_STRUCT) in
  match ta_format a with
  | TMPL_AFS_DUMP => dumpArray arch a f
  | TMPL_AFS_CHARRSTR _ => bprintCharArrAsString a f
  | TMPL_AFS_DEFAULT => _ ← assert (negb is_struct); formatArrayOfScalars a (ti_format (ta_type a)) f
  | TMPL_AFS_ARRAY fmt _ | TMPL_AFS_IZARRAY fmt _ =>
      if is_struct then formatArrayOfStructs a fmt f else formatArrayOfScalars a fmt f
  | _ => Fault AssertFailed
  end.
Definition format_scalar (a : tmpl_attribute) (f : evl_fmt_buf) : outcome evl_fmt_buf :=
  match ta_format a with
  | TMPL_AFS_DEFAULT => castAndFormatAtt a (ti_format (ta_type a)) f
  | TMPL_AFS_SCALAR fmt => castAndFormatAtt a fmt f
  | TMPL_AFS_VALNM bitmaps => val ← _evlTmplGetValueOfIntegerAttribute a; format_valnm bitmaps val f
  | TMPL_AFS_BITMAP bitmaps => val ← _evlTmplGetValueOfIntegerAttribute a; format_bitmap bitmaps val f
  | _ => Fault AssertFailed
  end.
Definition formatAttribute (arch : Z) (a : tmpl_attribute) (f : evl_fmt_buf) : outcome (Z * evl_fmt_buf) :=
  if negb (attExists a) then Done (0, f)
  else if isArray a then done_with (format_array arch a f)
  else if isStruct a then match ta_value a with VStruct t => format_template t f | _ => Fault WildRead end
  else done_with (format_scalar a f).

(** The string in the record, and what is behind it, as a record of [evl_log_write]: [None] if the
    attribute or the format is another. *)
Definition printf_record (t : template) (a : tmpl_attribute) : outcome (list Z) :=
  match ta_value a, ta_rawdata a, tm_data (tm_state t) with
  | VString _, Some attAddr, Some recAddr =>
      let recRemainder := u64 (tm_data_size (tm_state t) - (p_off attAddr - p_off recAddr)) in
      if Z.of_nat (length (pointee attAddr)) <? recRemainder then Fault WildRead
      else Done (take (Z.to_nat recRemainder) (pointee attAddr))
  | _, _, _ => Fault Undefined
  end.
Definition formatStringAsPrintf (t : template) (a : tmpl_attribute) (fmt : str) (f : evl_fmt_buf) : option (outcome evl_fmt_buf) :=
  let printk := streqb fmt "printk" in
  if isArray a || negb (bool_decide (ta_type a = TY_STRING)) || (negb printk && negb (streqb fmt "printf")) then None
  else Some (data ← printf_record t a; into (formatPrintfRecIntoFmtBuf (Some data) f printk)).
(** The status is of no use to the caller. *)
Definition _evlFormatTmplAttribute (t : template) (a : tmpl_attribute) (fmt : option str) (f : evl_fmt_buf) : outcome evl_fmt_buf :=
  match fmt with
  | None => '(_, f) ← formatAttribute (tm_arch (tm_state t)) a f; Done f
  | Some fmt =>
      if cantDoAdHocFormat a then bprintf f "?%s?" [AString (text (ta_name a))]
      else if negb (attExists a) then Done f
      else match formatStringAsPrintf t a fmt f with
      | Some r => r
      | None => castAndFormatAtt a fmt f
      end
  end.

(** ** Records *)

(** [tm_entry] is a null pointer in a struct. *)
Definition format_entry_member (t : template) (member : Z) (userfmt : option str) (stringfmt : bool) (f : evl_fmt_buf)
  : outcome evl_fmt_buf :=
  match tm_entry (tm_state t) with
  | Some entry => into (format_member entry member userfmt stringfmt f)
  | None => Fault (if bool_decide (is_Some userfmt) && negb stringfmt then WildRead else AssertFailed)
  end.
Definition format_named (t : template) (name : str) (userfmt : option str) (f : evl_fmt_buf) : outcome evl_fmt_buf :=
  match _evlTmplFindAttribute t name with
  | Some a => _evlFormatTmplAttribute t a userfmt f
  | None =>
      if streqb name "host" then entry ← reading (tm_entry (tm_state t)); bprintf f "%s" [AString (nodeId_host entry)]
      else Done f
  end.
Definition format_segment (t : template) (fs : tmpl_segment) (f : evl_fmt_buf) : outcome evl_fmt_buf :=
  match fs with
  | TSEG (EVL_FS_STRING s) => bprintf f "%s" [AString s]
  | TSEG (EVL_FS_MEMBER m userfmt stringfmt) =>
      if m =? POSIX_LOG_ENTRY_DATA then '(_, f) ← format_template t f; Done f
      else format_entry_member t m userfmt stringfmt f
  | TSEG (EVL_FS_ATTNAME name userfmt _) => format_named t name userfmt f
  | TSEG _ => Done f
  | EVL_FS_ATTR i userfmt => a ← reading (_evlTmplGetNthAttribute t i); _evlFormatTmplAttribute t a userfmt f
  end.
Fixpoint format_tmpl_segments (t : template) (l : list tmpl_segment) (f : evl_fmt_buf) : outcome evl_fmt_buf :=
  match l with
  | [] => Done f
  | fs :: l => f ← format_segment t fs f; format_tmpl_segments t l f
  end.
(** [formatRecord] on the template's own format, which must not be empty. *)
Definition format_body (t : template) (f : evl_fmt_buf) : outcome (Z * evl_fmt_buf) :=
  if negb (isPopulatedTmpl t) then Done (EINVAL, f)
  else match tm_parsed_format (tm_static t) with
  | [] => Fault WildRead
  | l => f ← format_tmpl_segments t l f; Done (if fb_oflow f then EMSGSIZE else 0, f)
  end.
End Rec.

Fixpoint formatRecordFromTemplate (fuel : nat) (t : template) (f : evl_fmt_buf) : outcome (Z * evl_fmt_buf) :=
  match fuel with
  | O => Fault OutOfFuel
  | S fuel => format_body (formatRecordFromTemplate fuel) t f
  end.
(** How deep templates are nested in a template, in its structs and in the values of its
    attributes. *)
Fixpoint nesting (t : template) : nat :=
  match t with
  | mkTemplate _ _ atts _ =>
      S (max_list_with (fun a => match a with
         | mkAttr _ _ str _ _ _ _ _ v _ _ =>
             Nat.max (match str with Some t => nesting t | None => O end)
               (match v with VStruct t => nesting t | VList l => max_list_with nesting l | _ => O end)
         end) atts)
  end.
Definition att_nesting (a : tmpl_attribute) : nat := max_list_with nesting (att_templates a).

(** ** The API: a status and the caller's memory *)

(** The arguments that are null pointers, or a buffer of no bytes. *)
Definition format_to (buf : option (list Z)) (format : evl_fmt_buf -> outcome (Z * evl_fmt_buf)) : outcome (Z * option (list Z)) :=
  match buf with
  | None => Done (EINVAL, buf)
  | Some [] => Done (EMSGSIZE, buf)
  | Some _ =>
      '(status, f) ← format (_evlMakeFmtBuf buf);
      Done (if (status =? 0) && fb_oflow f then EMSGSIZE else status, Some (fb_buf f))
  end.
Definition evlatt_getstring (a : option tmpl_attribute) (buf : option (list Z)) : outcome (Z * option (list Z)) :=
  match a with
  | None => Done (EINVAL, buf)
  | Some a => format_to buf (formatAttribute (formatRecordFromTemplate (att_nesting a)) 0 a)
  end.
Definition evltemplate_formatrec (t : option template) (buf : option (list Z)) : outcome (Z * option (list Z)) :=
  match t with
  | None => Done (EINVAL, buf)
  | Some t => format_to buf (formatRecordFromTemplate (nesting t) t)
  end.

(** ** Names and values *)

Fixpoint bindent (f : evl_fmt_buf) (indent : nat) : outcome evl_fmt_buf :=
  match indent with
  | O => Done f
  | S indent => f ← bprintf f "  " []; bindent f indent
  end.
Definition isNewlineDelimitedArray (a : tmpl_attribute) : bool :=
  isArray a
  && (is_letter LINEFEED (getAttDelimiter a)
      || match ta_format a with TMPL_AFS_ARRAY fmt _ | TMPL_AFS_IZARRAY fmt _ => is_letter LINEFEED fmt | _ => false end).
Definition newline : str := String LINEFEED EmptyString.
Definition neqvDumpAtt (arch : Z) (a : tmpl_attribute) (f : evl_fmt_buf) : outcome evl_fmt_buf :=
  let dump := match ta_format a with TMPL_AFS_DUMP => true | _ => false end in
  f ← bprintf f (if dump || isNewlineDelimitedArray a then newline else " "%string) [];
  '(_, f) ← formatAttribute (formatRecordFromTemplate (att_nesting a)) arch a f;
  bprintf f newline [].
Section Neqv.
(** [neqvDumpTmpl] on the structs inside. *)
Variable dump_struct : template -> evl_fmt_buf -> nat -> outcome evl_fmt_buf.
Fixpoint neqv_lines (arch : Z) (l : list tmpl_attribute) (indent : nat) (f : evl_fmt_buf) : outcome evl_fmt_buf :=
  match l with
  | [] => Done f
  | a :: l =>
      f ← match ta_name a with
          | Some name =>
              if negb (attExists a) then Done f
              else
                f ← bindent f indent;
                f ← bprintf f ("%s" ++ String (of_chr 9) "=")%string [AString name];
                if isStruct a && negb (isArray a) then
                  f ← bprintf f newline [];
                  match ta_value a with VStruct t => dump_struct t f (S indent) | _ => Fault WildRead end
                else neqvDumpAtt arch a f
          | None => Done f
          end;
      neqv_lines arch l indent f
  end.
End Neqv.
Fixpoint neqvDumpTmpl (fuel : nat) (t : template) (f : evl_fmt_buf) (indent : nat) : outcome evl_fmt_buf :=
  match fuel with
  | O => Fault OutOfFuel
  | S fuel => neqv_lines (neqvDumpTmpl fuel) (tm_arch (tm_state t)) (tm_attributes t) indent f
  end.
Definition evltemplate_neqvdump (t : option template) (buf : option (list Z)) : outcome (Z * option (list Z)) :=
  match t, buf with
  | Some _, None | None, _ => Done (EINVAL, buf)
  | Some t, _ =>
      if bool_decide (buf = Some []) then Done (EMSGSIZE, buf)
      else if negb (isPopulatedTmpl t) then Done (EINVAL, buf)
      else format_to buf (fun f => done_with (neqvDumpTmpl (nesting t) t f 0))
  end.
End Fmt.
