(* ===== verification/TmplApi.v ===== *)
(** * The attributes of a template, for its users ([lib/template/template.c])

    The functions by which a program gets at the attributes of a populated template: by
    name, all of them, their types and dimensions, and the structs inside. *)
From S2P Require Import Prelude NvPairs LogRecord QEvaluate RecPack Format Conv Tmpl TmplPop.

(** [inl] is a status; [att] says that there is a place for the result. *)
Definition evltemplate_getatt (t : option template) (attName : option str) (att : bool) : Z + tmpl_attribute :=
  match t, attName, att with
  | Some t, Some attName, true =>
      match _evlTmplFindAttribute t attName with Some a => inr a | None => inl ENOENT end
  | _, _, _ => inl EINVAL
  end.
(** The status, the number of attributes and what is written to [buf], of which [bufatts] are
    there. *)
Definition evltemplate_getatts (t : option template) (buf : bool) (bufatts : Z) : Z * option nat * list tmpl_attribute :=
  match t with
  | None => (EINVAL, None, [])
  | Some t =>
      let na := length (tm_attributes t) in
      if negb buf || (bufatts =? 0) then (EINVAL, Some na, [])
      else if bufatts <? Z.of_nat na then (EMSGSIZE, Some na, [])
      else (0, Some na, tm_attributes t)
  end.
Definition evlatt_gettype (a : tmpl_attribute) : base_type := ta_type a.
Record evlatt_info := mkInfo {
  att_flags : Z;
  att_name : option str;
  att_type : base_type;
  att_isarray : bool;
  att_dimfixed : Z;
  att_dimpop : Z
}.
Definition evlatt_getinfo (s : store) (a : option tmpl_attribute) (info : bool) : Z + evlatt_info :=
  match a, info with
  | Some a, true =>
      inr match (if isArray a then ta_dimension a else None) with
          | Some dim =>
              mkInfo (ta_flags a) (ta_name a) (ta_type a) true
                (match td_type dim with TMPL_DIM_CONST => td_dimension dim | _ => -1 end)
                (if attExists a then td_dimension2 s dim else -1)
          | None => mkInfo (ta_flags a) (ta_name a) (ta_type a) false 0 0
          end
  | _, _ => inl EINVAL
  end.
(** The struct's master and its clone; each may be a null pointer. *)
Definition evlatt_getstructtmpls (a : option tmpl_attribute) (master clone : bool) : Z + option template * option template :=
  match a with
  | Some a =>
      if negb (isStruct a) || isArray a || (negb master && negb clone) then inl EINVAL
      else inr (if master then ta_struct a else None,
                if clone then match ta_value a with VStruct t => Some t | _ => None end else None)
  | None => inl EINVAL
  end.
Definition evlatt_getstructfromarray (a : option tmpl_attribute) (index : Z) (tmpl : bool) : outcome (Z + template) :=
  match a with
  | Some a =>
      if negb (attExists a) || negb (isStruct a) || negb (isArray a) || negb tmpl || (index <? 0) then Done (inl EINVAL)
      else match ta_value a with
      | VList ((_ :: _) as elements) =>
          Done (match elements !! Z.to_nat index with Some t => inr t | None => inl ENOENT end)
      | _ => Fault AssertFailed
      end
  | None => Done (inl EINVAL)
  end.

Lemma mbind_inv {A B} (o : outcome A) (k : A -> outcome B) b : (o ≫= k) = Done b -> exists a, o = Done a /\ k a = Done b.
Proof. apply bind_done. Qed.
(** Behind the population of an array of structs, the dimension that is told is the number of
    structs that are found, and an index behind them is refused. *)
Lemma structs_by_index populate arch a d nel p a' p' : isArray a = true -> isStruct a = true -> ta_dimension a = Some d ->
  populateArrayOfStructs populate arch a d nel p = Done (a', p') -> attExists a' = true -> attExists a = false ->
  exists l info, ta_value a' = VList l /\ evlatt_getinfo (pp_store p') (Some a') true = inr info /\
    att_dimpop info = Z.of_nat (length l) /\
    forall i, 0 <= i -> evlatt_getstructfromarray (Some a') i true =
      Done (match l !! Z.to_nat i with Some t => inr t | None => inl ENOENT end).
Proof.
  intros Harr Hst Hd. unfold populateArrayOfStructs. intros ([l q] & _ & E)%mbind_inv He' He. destruct l as [|t l].
  - injection E as <- <-. change (attExists a = true) in He'. congruence.
  - injection E as <- <-. exists (t :: l). unfold evlatt_getinfo.
    assert (Hia : isArray (with_value a (VList (t :: l))) = true).
    { unfold isArray, isBitField in *. cbn [with_value set_ta_flags set_ta_value ta_dimension ta_flags]. by rewrite has_set, orb_false_r. }
    rewrite Hia, He'. cbn [ta_dimension with_value set_ta_flags set_ta_value]. rewrite Hd. eexists. split; [done|]. split; [done|]. cbn [att_dimpop]. split.
    + unfold td_dimension2, set_dimension2. cbn [pp_store st_dim2]. by rewrite lookup_insert_eq.
    + intros i Hi. unfold evlatt_getstructfromarray. rewrite He', Hia.
      replace (isStruct (with_value a (VList (t :: l)))) with (isStruct a) by done. rewrite Hst, (proj2 (Z.ltb_ge i 0)) by done. done.
Qed.
