(* ===== verification/TmplText.v ===== *)
(** * The text of a record ([lib/template/tmplfmt.c])

    What formatting promises, without buffers: a template, an attribute or a segment of a
    format has a text, put together from those of its parts.  Whatever the size of the
    caller's buffer, formatting writes this text to it as far as it fits, and reports an
    overflow exactly when it does not.  The promise is not made for dumps and embedded [printf]
    records, which go wrong in a full buffer, and for structs in arrays whose text is longer than the
    scratch pad, which do too (see the end of the file). *)
From S2P Require Import Prelude NvPairs LogRecord FacNames MemStr QEvaluate RecPack Format FormatCorrect CPrintf Dump FmtBuf FormatRec Conv Tmpl TmplPop TmplInit TmplCheck TmplFmt.

(** ** The specification *)

Fixpoint join (delim : str) (l : list str) : str :=
  match l with
  | [] => EmptyString
  | [s] => s
  | s :: l => (s ++ delim ++ join delim l)%string
  end.
(** What a C string in a buffer is cut to. *)
Definition up_to_nul (s : str) : str := cstring (bytes_of s ++ [0]).

Section Text.
Context `{HostLib, TextOfReal}.
Variable st : store.

Definition finished {A} (o : outcome A) : option A := match o with Done a => Some a | Fault _ => None end.
Definition print_text (fmt : str) (args : list carg) : option str := t ← finished (print fmt args); t.
Fixpoint elements (ty : base_type) (n : nat) (mem : list Z) : option (list carg) :=
  match n with
  | O => Some []
  | S n => '(arg, mem) ← finished (next_element ty mem); l ← elements ty n mem; Some (arg :: l)
  end.
Definition array_of_scalars_text (a : tmpl_attribute) (fmt : str) : option str :=
  n ← finished (array_dim st a);
  if n <=? 0 then Some EmptyString
  else
    mem ← finished (array_mem a);
    l ← elements (ta_type a) (Z.to_nat n) mem;
    texts ← mapM (fun p => print_text fmt (scalar_args (getIZorder a) (Z.of_nat p.1) p.2)) (imap pair l);
    Some (join (getAttDelimiter st a) texts).
Definition char_array_text (a : tmpl_attribute) (fmt : str) : option str :=
  n ← finished (array_dim st a);
  mem ← finished (array_mem a);
  arg ← finished (char_array (if bool_decide (ta_type a = TY_WCHAR) then 4 else 1) mem (Z.to_nat n));
  print_text fmt [arg].
Definition cast_text (a : tmpl_attribute) (fmt : str) : option str := arg ← finished (value_arg a); print_text fmt [arg].
Definition valnm_text (bitmaps : list tmpl_bitmap) (val : Z) : option str :=
  match find (fun bmap => val =? bm_1bits bmap) bitmaps with
  | Some bmap => Some (bm_name bmap)
  | None => print_text "%ld" [ALong val]
  end.
(** The names of the bitmaps that match and test a bit that no reported one before tests. *)
Fixpoint reported (bitmaps : list tmpl_bitmap) (val bar : Z) : list tmpl_bitmap :=
  match bitmaps with
  | [] => []
  | b :: bitmaps =>
      if unreported bar b && bits_match val b then b :: reported bitmaps val (Z.lor bar (Z.lor (bm_1bits b) (bm_0bits b)))
      else reported bitmaps val bar
  end.
Definition bitmap_text (bitmaps : list tmpl_bitmap) (val : Z) : option str :=
  hex ← print_text "0x%lx" [ALong val];
  Some (hex ++ match map bm_name (reported bitmaps val 0) with [] => EmptyString | names => "(" ++ join "|" names ++ ")" end)%string.
Definition user_text (fmt : str) (arg : carg) : option str :=
  match fmt with
  | String c _ => if Ascii.eqb c PERCENT then if writes_count fmt then None else vsnprintf fmt arg else Some fmt
  | EmptyString => Some fmt
  end.
Definition member_text (entry : posix_log_entry) (member : Z) (userfmt : option str) (stringfmt : bool) : option str :=
  let memstr := match posix_log_memtostr member entry POSIX_LOG_MEMSTR_MAXLEN with inl _ => None | inr s => Some s end in
  match userfmt with
  | None => memstr
  | Some fmt =>
      if stringfmt then s ← memstr; user_text fmt (AString s)
      else v ← _evlSprintfMember member entry; user_text fmt (if is_long_member member then ALong v else AInt v)
  end.

Section Rec.
Variable template_text : template -> option str.

Definition array_of_structs_text (a : tmpl_attribute) (fmt : str) : option str :=
  match ta_value a with
  | VList ((_ :: _) as l) =>
      texts ← mapM (fun p =>
        s ← template_text p.2;
        if negb (isPopulatedTmpl p.2) || (SCRATCH_PAD_SIZE <=? strlen s) then None
        else args ← finished (struct_args (getIZorder a) (Z.of_nat p.1) (AString (up_to_nul s))); print_text fmt args) (imap pair l);
      Some (join (getAttDelimiter st a) texts)
  | _ => None
  end.
Definition attribute_text (a : tmpl_attribute) : option str :=
  if negb (attExists a) then Some EmptyString
  else if isArray a then
    match ta_format a with
    | TMPL_AFS_CHARRSTR fmt => char_array_text a fmt
    | TMPL_AFS_DEFAULT => if bool_decide (ta_type a = TY_STRUCT) then None else array_of_scalars_text a (ti_format (ta_type a))
    | TMPL_AFS_ARRAY fmt _ | TMPL_AFS_IZARRAY fmt _ =>
        if bool_decide (ta_type a = TY_STRUCT) then array_of_structs_text a fmt else array_of_scalars_text a fmt
    | _ => None
    end
  else if isStruct a then match ta_value a with VStruct t => template_text t | _ => None end
  else match ta_format a with
  | TMPL_AFS_DEFAULT => cast_text a (ti_format (ta_type a))
  | TMPL_AFS_SCALAR fmt => cast_text a fmt
  | TMPL_AFS_VALNM bitmaps => val ← finished (_evlTmplGetValueOfIntegerAttribute a); valnm_text bitmaps val
  | TMPL_AFS_BITMAP bitmaps => val ← finished (_evlTmplGetValueOfIntegerAttribute a); bitmap_text bitmaps val
  | _ => None
  end.
Definition att_text (a : tmpl_attribute) (userfmt : option str) : option str :=
  match userfmt with
  | None => attribute_text a
  | Some fmt =>
      if cantDoAdHocFormat a then Some ("?" ++ text (ta_name a) ++ "?")%string
      else if negb (attExists a) then Some EmptyString
      else if bool_decide (ta_type a = TY_STRING) && (streqb fmt "printk" || streqb fmt "printf") then None
      else cast_text a fmt
  end.
Definition segment_text (t : template) (fs : tmpl_segment) : option str :=
  match fs with
  | TSEG (EVL_FS_STRING s) => Some s
  | TSEG (EVL_FS_MEMBER m userfmt stringfmt) =>
      if m =? POSIX_LOG_ENTRY_DATA then None
      else entry ← tm_entry (tm_state t); member_text entry m userfmt stringfmt
  | TSEG (EVL_FS_ATTNAME name userfmt _) =>
      match _evlTmplFindAttribute t name with
      | Some a => att_text a userfmt
      | None =>
          if streqb name "host" then entry ← tm_entry (tm_state t); Some (nodeId_host entry) else Some EmptyString
      end
  | TSEG _ => Some EmptyString
  | EVL_FS_ATTR i userfmt => a ← _evlTmplGetNthAttribute t i; att_text a userfmt
  end.
Definition body_text (t : template) : option str :=
  if negb (isPopulatedTmpl t) then Some EmptyString
  else match tm_parsed_format (tm_static t) with
  | [] => None
  | l => concat_str <$> mapM (segment_text t) l
  end.
End Rec.
Fixpoint template_text (fuel : nat) (t : template) : option str :=
  match fuel with
  | O => None
  | S fuel => body_text (template_text fuel) t
  end.

(** ** Writing a text *)

(** Whatever the buffer holds, [act] adds the text to it. *)
Definition writes (act : evl_fmt_buf -> outcome evl_fmt_buf) (s : str) : Prop := forall f d out,
  holds f d out -> fb_end f < 2 ^ 31 -> exists f', act f = Done f' /\ holds f' d (out ++ s) /\ fb_end f' = fb_end f.

Lemma writes_nothing : writes Done "".
Proof. intros f d out H1 H2. exists f. by rewrite str_app_nil. Qed.
Lemma writes_seq act1 act2 s1 s2 : writes act1 s1 -> writes act2 s2 -> writes (fun f => act1 f ≫= act2) (s1 ++ s2).
Proof.
  intros H1 H2 f d out Hf Hcap. destruct (H1 f d out Hf Hcap) as (f1 & E1 & Hf1 & He1). rewrite E1. cbn [mbind outcome_bind].
  destruct (H2 f1 d _ Hf1 ltac:(lia)) as (f2 & E2 & Hf2 & He2). exists f2. rewrite str_app_assoc in Hf2. split_and!; [done..|lia].
Qed.
Lemma writes_ext act act' s : (forall f, act' f = act f) -> writes act s -> writes act' s.
Proof. intros E H1 f d out Hf Hcap. rewrite E. by apply H1. Qed.
Lemma writes_print fmt args s : print_text fmt args = Some s -> writes (fun f => bprintf f fmt args) s.
Proof.
  unfold print_text, bprintf. intros E f d out Hf Hcap. destruct (print fmt args) as [t|]; cbn in E; [|done]. subst t. cbn [mbind outcome_bind].
  destruct (Bprintf_spec f d out s Hf Hcap) as (f' & -> & ? & ?). by exists f'.
Qed.
Lemma print_string s : print_text "%s" [AString s] = Some s.
Proof. unfold print_text, print. cbn -[vsnprintf]. rewrite vsnprintf_s. cbn. by rewrite str_app_nil. Qed.
Lemma writes_string s : writes (fun f => bprintf f "%s" [AString s]) s.
Proof. apply writes_print, print_string. Qed.
Lemma writes_into_text s : writes (fun f => into (_evlBprintf f (Some s))) s.
Proof. intros f d out Hf Hcap. destruct (Bprintf_spec f d out s Hf Hcap) as (f' & -> & ? & ?). by exists f'. Qed.
Lemma finished_done {A} (o : outcome A) a : finished o = Some a -> o = Done a.
Proof. destruct o; cbn; congruence. Qed.

Lemma join_cons delim s l : join delim (s :: l) = (s ++ match l with [] => EmptyString | _ => delim ++ join delim l end)%string.
Proof. destruct l; [by rewrite str_app_nil|done]. Qed.
(** The elements [i], [i+1], ... with delimiters between them. *)
Definition rest_text (delim : str) (i : Z) (l : list str) : str := if (0 <? i) && bool_decide (l <> []) then (delim ++ join delim l)%string else join delim l.
Lemma writes_delimited delim i act act' s l : 0 <= i -> writes act s -> writes act' (rest_text delim (i + 1) l) ->
  writes (fun f => f ← (if 0 <? i then bprintf f "%s" [AString delim] else Done f); f ← act f; act' f) (rest_text delim i (s :: l)).
Proof.
  intros Hi H1 H2. unfold rest_text in *. rewrite (proj2 (Z.ltb_lt 0 (i + 1))) in H2 by lia. rewrite bool_decide_true by done.
  assert (Htail : writes (fun f => f ← act f; act' f) (join delim (s :: l))).
  { rewrite join_cons. apply writes_seq; [done|]. by destruct l. }
  rewrite andb_true_r. destruct (0 <? i).
  - apply (writes_seq _ _ _ _ (writes_string delim) Htail).
  - by apply (writes_ext (fun f => f ← act f; act' f)).
Qed.

(** ** Arrays *)

Lemma mapM_imap_cons {A B} (g : Z -> A -> option B) k a (l : list A) texts :
  mapM (fun p => g (Z.of_nat p.1) p.2) (imap (fun i => pair (k + i)%nat) (a :: l)) = Some texts ->
  exists s texts', g (Z.of_nat k) a = Some s /\ texts = s :: texts' /\
    mapM (fun p => g (Z.of_nat p.1) p.2) (imap (fun i => pair (S k + i)%nat) l) = Some texts'.
Proof.
  cbn [imap mapM fst snd]. rewrite Nat.add_0_r. destruct (g (Z.of_nat k) a) as [s|]; [|done]. cbn [mbind option_bind].
  rewrite (imap_ext _ (fun i => pair (S k + i)%nat)) by (intros; cbn; f_equal; lia).
  destruct (mapM _ _) as [texts'|]; [|done]. intros [= <-]. by exists s, texts'.
Qed.
Lemma elements_written ty izo fmt delim n : forall k mem l texts, elements ty n mem = Some l ->
  mapM (fun p => print_text fmt (scalar_args izo (Z.of_nat p.1) p.2)) (imap (fun i => pair (k + i)%nat) l) = Some texts ->
  writes (format_elements ty izo fmt delim n (Z.of_nat k) mem) (rest_text delim (Z.of_nat k) texts).
Proof.
  induction n as [|n IH]; intros k mem l texts El Et.
  - injection El as <-. injection Et as <-. unfold rest_text. rewrite bool_decide_false by (by intros []). rewrite andb_false_r. apply writes_nothing.
  - cbn [elements] in El. destruct (next_element ty mem) as [[arg mem']|] eqn:En; [|done]. cbn [finished mbind option_bind] in El.
    destruct (elements ty n mem') as [l'|] eqn:El'; [|done]. injection El as <-.
    destruct (mapM_imap_cons (fun i v => print_text fmt (scalar_args izo i v)) k arg l' texts Et) as (s & texts' & Hs & -> & Et').
    cbn [format_elements]. rewrite En. cbn [mbind outcome_bind].
    apply (writes_delimited delim (Z.of_nat k) (fun f => bprintf f fmt (scalar_args izo (Z.of_nat k) arg)));
      [lia|by apply writes_print|]. replace (Z.of_nat k + 1) with (Z.of_nat (S k)) by lia. by apply (IH (S k) mem' l').
Qed.
Lemma rest_text_0 delim l : rest_text delim 0 l = join delim l.
Proof. done. Qed.
Lemma imap_pair_0 {A} (l : list A) : imap pair l = imap (fun i => pair (0 + i)%nat) l.
Proof. done. Qed.
Lemma array_of_scalars_written a fmt s : array_of_scalars_text a fmt = Some s -> writes (formatArrayOfScalars st a fmt) s.
Proof.
  unfold array_of_scalars_text, formatArrayOfScalars. destruct (array_dim st a) as [n|]; [|done]. cbn [finished mbind option_bind outcome_bind].
  destruct (n <=? 0); [intros [= <-]; apply writes_nothing|].
  destruct (array_mem a) as [mem|]; [|done]. cbn [finished mbind option_bind outcome_bind].
  destruct (elements _ _ mem) as [l|] eqn:El; [|done]. cbn [mbind option_bind]. rewrite imap_pair_0.
  destruct (mapM _ _) as [texts|] eqn:Et; [|done]. intros [= <-]. rewrite <-rest_text_0.
  by apply (elements_written _ _ _ _ _ O mem l).
Qed.
Lemma char_array_written a fmt s : ta_format a = TMPL_AFS_CHARRSTR fmt -> char_array_text a fmt = Some s -> writes (bprintCharArrAsString st a) s.
Proof.
  unfold char_array_text, bprintCharArrAsString. intros ->. destruct (array_dim st a) as [n|]; [|done]. cbn [finished mbind option_bind outcome_bind].
  destruct (array_mem a) as [mem|]; [|done]. cbn [finished mbind option_bind outcome_bind].
  destruct (char_array _ mem _) as [arg|]; [|done]. apply writes_print.
Qed.
Lemma cast_written a fmt s : cast_text a fmt = Some s -> writes (castAndFormatAtt a fmt) s.
Proof. unfold cast_text, castAndFormatAtt. destruct (value_arg a); [|done]. apply writes_print. Qed.

(** ** Names *)

Lemma valnm_written bitmaps val s : valnm_text bitmaps val = Some s -> writes (format_valnm bitmaps val) s.
Proof. unfold valnm_text, format_valnm. destruct (find _ bitmaps); [intros [= <-]; apply writes_string|apply writes_print]. Qed.
Lemma lor_mono_nonzero bar z : bar <> 0 -> Z.lor bar z <> 0.
Proof. intros ? ?%Z.lor_eq_0_iff. lia. Qed.
Lemma reported_nonzero bar b : unreported bar b = true -> Z.lor bar (Z.lor (bm_1bits b) (bm_0bits b)) <> 0.
Proof.
  unfold unreported. intros E%negb_true_iff Hz. apply Z.lor_eq_0_iff in Hz as [-> Hz]. bprop. rewrite Z.lor_0_l in E. lia.
Qed.
Definition names_text (bar : Z) (names : list str) : str :=
  match names with [] => EmptyString | _ => ((if (bar =? 0)%Z then "(" else "|") ++ join "|" names)%string end.
Lemma report_written bitmaps val : forall bar f d out, holds f d out -> fb_end f < 2 ^ 31 ->
  exists f' bar', report_bitmaps bitmaps val bar f = Done (bar', f') /\
    holds f' d (out ++ names_text bar (map bm_name (reported bitmaps val bar))) /\ fb_end f' = fb_end f /\
    (bar' = 0 <-> bar = 0 /\ reported bitmaps val bar = []).
Proof.
  induction bitmaps as [|b bitmaps IH]; intros bar f d out Hf Hcap; cbn [report_bitmaps reported].
  { exists f, bar. cbn. rewrite str_app_nil. naive_solver. }
  destruct (unreported bar b && bits_match val b) eqn:E; [|by apply IH]. apply andb_true_iff in E as [E _].
  set (bar2 := Z.lor bar _). pose proof (reported_nonzero bar b E) as Hnz. fold bar2 in Hnz.
  destruct (writes_print (if negb (bar =? 0) then "|" else "(") [] (if bar =? 0 then "(" else "|") ltac:(by destruct (bar =? 0)) f d out Hf Hcap)
    as (f1 & E1 & Hf1 & He1). rewrite E1. cbn [mbind outcome_bind].
  destruct (writes_string (bm_name b) f1 d _ Hf1 ltac:(lia)) as (f2 & E2 & Hf2 & He2). rewrite E2. cbn [mbind outcome_bind].
  destruct (IH bar2 f2 d _ Hf2 ltac:(lia)) as (f3 & bar3 & E3 & Hf3 & He3 & Hb). exists f3, bar3.
  split; [done|]. split; [|split; [lia|]].
  - replace (out ++ names_text bar (map bm_name (b :: reported bitmaps val bar2)))%string with
      (((out ++ (if (bar =? 0)%Z then "(" else "|")) ++ bm_name b) ++ names_text bar2 (map bm_name (reported bitmaps val bar2)))%string; [done|].
    rewrite !str_app_assoc. unfold names_text. cbn [map]. rewrite join_cons. destruct (map bm_name (reported bitmaps val bar2)); [done|].
    by rewrite (proj2 (Z.eqb_neq bar2 0) Hnz).
  - split; [intros Hz; apply Hb in Hz as [? _]; done|intros [_ ?]; done].
Qed.
Lemma bitmap_written bitmaps val s : bitmap_text bitmaps val = Some s -> writes (format_bitmap bitmaps val) s.
Proof.
  unfold bitmap_text, format_bitmap. destruct (print_text _ _) as [hex|] eqn:Eh; [|done]. cbn [mbind option_bind]. intros [= <-].
  apply (writes_seq (fun f => bprintf f "0x%lx" [ALong val])); [by apply writes_print|]. intros f d out Hf Hcap.
  destruct (report_written bitmaps val 0 f d out Hf Hcap) as (f1 & bar & -> & Hf1 & He1 & Hb). cbn [mbind outcome_bind].
  destruct (reported bitmaps val 0) as [|b l] eqn:Er.
  - rewrite (proj2 Hb) by done. exists f1. done.
  - rewrite (proj2 (Z.eqb_neq bar 0)) by (intros Hz; by apply Hb in Hz as [_ ?]). cbn [negb].
    destruct (writes_print ")" [] ")" eq_refl f1 d _ Hf1 ltac:(lia)) as (f2 & -> & Hf2 & He2). exists f2. split; [done|]. split; [|lia].
    replace (out ++ _)%string with ((out ++ names_text 0 (map bm_name (b :: l))) ++ ")")%string; [done|].
    cbn [map names_text]. rewrite !str_app_assoc. done.
Qed.

(** ** Structs, attributes and templates *)

Lemma cstring_cut l r : cstring (l ++ 0 :: r) = cstring (l ++ [0]).
Proof. induction l as [|b l IH]; [done|]. cbn [app cstring]. by rewrite IH. Qed.
Lemma holds_cstring f d s : holds f d s -> strlen s < fb_end f -> cstring (fb_buf f) = up_to_nul s.
Proof.
  intros [_ _ [rest E]] Hl. rewrite E, take_ge; [apply cstring_cut|]. rewrite length_bytes_of. unfold strlen, fb_end in Hl. lia.
Qed.

Section Rec.
Variable format_template : template -> evl_fmt_buf -> outcome (Z * evl_fmt_buf).
Variable the_text : template -> option str.
Definition text_status (t : template) (f : evl_fmt_buf) : Z := if isPopulatedTmpl t then if fb_oflow f then EMSGSIZE else 0 else EINVAL.
(** Formatting [t] writes [s] and reports whether all of it fits. *)
Definition formats (t : template) (s : str) : Prop := forall f d out, holds f d out -> fb_end f < 2 ^ 31 ->
  exists f', format_template t f = Done (text_status t f', f') /\ holds f' d (out ++ s) /\ fb_end f' = fb_end f.
Hypothesis template_formats : forall t s, the_text t = Some s -> formats t s.

Lemma writes_ignoring t s : formats t s -> writes (fun f => '(_, f) ← format_template t f; Done f) s.
Proof. intros Ht f d out Hf Hcap. destruct (Ht f d out Hf Hcap) as (f' & -> & ? & ?). by exists f'. Qed.
Lemma struct_formatted t s buf : formats t s -> isPopulatedTmpl t = true -> strlen s < SCRATCH_PAD_SIZE ->
  SCRATCH_PAD_SIZE <= Z.of_nat (length buf) < 2 ^ 31 ->
  exists buf', format_struct format_template t buf = Done buf' /\ cstring buf' = up_to_nul s /\ length buf' = length buf.
Proof.
  intros Ht Hp Hs Hbuf. assert (buf <> []) as Hne by (intros ->; unfold SCRATCH_PAD_SIZE in Hbuf; cbn in Hbuf; lia).
  assert (fb_end (_evlMakeFmtBuf (Some buf)) = Z.of_nat (length buf)) as He by (by destruct buf).
  destruct (Ht _ false "" (holds_new buf Hne) ltac:(lia)) as (f & E & Hf & Hend). unfold format_struct. rewrite E. cbn [mbind outcome_bind].
  cbn [String.append] in Hf. assert (Hov : fb_oflow f = false) by (rewrite (h_oflow _ _ _ Hf), Z.gtb_ltb; apply Z.ltb_ge; lia).
  unfold text_status. rewrite Hp, Hov. cbn [mbind outcome_bind assert Z.eqb]. exists (fb_buf f). split; [done|].
  split; [apply (holds_cstring f false); [done|lia]|]. unfold fb_end in *. lia.
Qed.
Definition struct_text (izo : myIZorder) (fmt : str) (i : Z) (t : template) : option str :=
  s ← the_text t;
  if negb (isPopulatedTmpl t) || (SCRATCH_PAD_SIZE <=? strlen s) then None
  else args ← finished (struct_args izo i (AString (up_to_nul s))); print_text fmt args.
Lemma structs_written izo fmt delim l : forall k buf texts, SCRATCH_PAD_SIZE <= Z.of_nat (length buf) < 2 ^ 31 ->
  mapM (fun p => struct_text izo fmt (Z.of_nat p.1) p.2) (imap (fun i => pair (k + i)%nat) l) = Some texts ->
  writes (format_structs format_template izo fmt delim l (Z.of_nat k) buf) (rest_text delim (Z.of_nat k) texts).
Proof.
  induction l as [|t l IH]; intros k buf texts Hbuf Et.
  - injection Et as <-. unfold rest_text. rewrite bool_decide_false by (by intros []). rewrite andb_false_r. apply writes_nothing.
  - destruct (mapM_imap_cons (struct_text izo fmt) k t l texts Et) as (s & texts' & Hs & -> & Et'). unfold struct_text in Hs.
    destruct (the_text t) as [u|] eqn:Eu; [|done]. cbn [mbind option_bind] in Hs.
    destruct (_ || _) eqn:Eb; [done|]. apply orb_false_iff in Eb as [Hp%negb_false_iff Hl%Z.leb_gt].
    destruct (struct_formatted t u buf (template_formats t u Eu) Hp Hl Hbuf) as (buf' & E & Hc & Hlen).
    cbn [format_structs]. rewrite E. cbn [mbind outcome_bind]. rewrite Hc.
    destruct (struct_args izo (Z.of_nat k) (AString (up_to_nul u))) as [args|]; [|done]. cbn [finished mbind option_bind outcome_bind] in *.
    apply (writes_delimited delim (Z.of_nat k) (fun f => bprintf f fmt args)); [lia|by apply writes_print|].
    replace (Z.of_nat k + 1) with (Z.of_nat (S k)) by lia. apply (IH (S k) buf' texts'); [lia|done].
Qed.
Lemma array_of_structs_written a fmt s : array_of_structs_text the_text a fmt = Some s ->
  writes (formatArrayOfStructs st format_template a fmt) s.
Proof.
  unfold array_of_structs_text, formatArrayOfStructs. destruct (ta_value a) as [| | | | | | |l]; [done..|]. destruct l as [|t l]; [done|].
  rewrite imap_pair_0. destruct (mapM _ _) as [texts|] eqn:Et; [|done]. intros [= <-] f d out Hf Hcap.
  set (buf := replicate _ 0). assert (SCRATCH_PAD_SIZE <= Z.of_nat (length buf) < 2 ^ 31) as Hbuf.
  { unfold buf. rewrite length_replicate. pose proof (h_next _ _ _ Hf). unfold SCRATCH_PAD_SIZE, strlen in *. lia. }
  apply (structs_written (getIZorder a) fmt (getAttDelimiter st a) (t :: l) O buf texts Hbuf Et f d out Hf Hcap).
Qed.
Lemma writes_done_with act s : writes act s -> forall f d out, holds f d out -> fb_end f < 2 ^ 31 ->
  exists f', done_with (act f) = Done (0, f') /\ holds f' d (out ++ s) /\ fb_end f' = fb_end f.
Proof. intros Hw f d out Hf Hcap. destruct (Hw f d out Hf Hcap) as (f' & E & ? & ?). unfold done_with. rewrite E. by exists f'. Qed.
(** What the status of an attribute is; only that of a struct tells something. *)
Definition attribute_status (a : tmpl_attribute) (f : evl_fmt_buf) : Z :=
  match ta_value a with
  | VStruct t => if attExists a && negb (isArray a) && isStruct a then text_status t f else 0
  | _ => 0
  end.
Lemma attribute_written arch a s : attribute_text the_text a = Some s -> forall f d out, holds f d out -> fb_end f < 2 ^ 31 ->
  exists f', formatAttribute st format_template arch a f = Done (attribute_status a f', f') /\ holds f' d (out ++ s) /\ fb_end f' = fb_end f.
Proof.
  intros Ea. assert (Hs : attExists a && negb (isArray a) && isStruct a = false -> forall act, writes act s -> forall f d out, holds f d out -> fb_end f < 2 ^ 31 ->
    exists f', done_with (act f) = Done (attribute_status a f', f') /\ holds f' d (out ++ s) /\ fb_end f' = fb_end f).
  { unfold attribute_status. intros ->. destruct (ta_value a); exact (fun act => writes_done_with act s). }
  unfold attribute_text in Ea. unfold formatAttribute.
  destruct (attExists a) eqn:Ex; cbn [negb] in *.
  2: { injection Ea as <-. intros f d out. apply (Hs eq_refl Done writes_nothing). }
  destruct (isArray a) eqn:Ear; cbn [negb andb] in *.
  { apply (Hs eq_refl). unfold format_array. destruct (ta_format a) eqn:Ef; try done.
    - destruct (bool_decide _); [done|]. by apply array_of_scalars_written.
    - destruct (bool_decide _); [by apply array_of_structs_written|by apply array_of_scalars_written].
    - destruct (bool_decide _); [by apply array_of_structs_written|by apply array_of_scalars_written].
    - by apply (char_array_written a af_format). }
  destruct (isStruct a) eqn:Est.
  { unfold attribute_status. rewrite Ex, Ear, Est. destruct (ta_value a) as [| | | | | |t|]; try done. exact (template_formats t s Ea). }
  apply (Hs eq_refl). unfold format_scalar. destruct (ta_format a); try done.
  - by apply cast_written.
  - by apply cast_written.
  - destruct (_evlTmplGetValueOfIntegerAttribute a); [|done]. by apply bitmap_written.
  - destruct (_evlTmplGetValueOfIntegerAttribute a); [|done]. by apply valnm_written.
Qed.
Lemma ad_hoc_text s : print_text "?%s?" [AString s] = Some ("?" ++ s ++ "?")%string.
Proof. unfold print_text, print. cbn -[vsnprintf]. rewrite vsnprintf_s. done. Qed.
Lemma att_written t a userfmt s : att_text the_text a userfmt = Some s -> writes (_evlFormatTmplAttribute st format_template t a userfmt) s.
Proof.
  unfold att_text, _evlFormatTmplAttribute. destruct userfmt as [fmt|].
  - destruct (cantDoAdHocFormat a) eqn:Ec; [intros [= <-]; apply writes_print, ad_hoc_text|].
    destruct (attExists a); cbn [negb]; [|intros [= <-]; apply writes_nothing].
    unfold formatStringAsPrintf, cantDoAdHocFormat in *. apply orb_false_iff in Ec as [-> _]. cbn [orb].
    destruct (bool_decide (ta_type a = TY_STRING)); [|apply cast_written].
    destruct (streqb fmt "printk"); [done|]. destruct (streqb fmt "printf"); [done|]. apply cast_written.
  - intros Ea f d out Hf Hcap. destruct (attribute_written (tm_arch (tm_state t)) a s Ea f d out Hf Hcap) as (f' & -> & ? & ?).
    by exists f'.
Qed.
Lemma user_written fmt arg s : user_text fmt arg = Some s -> writes (fun f => into (bprintf_user f fmt arg)) s.
Proof.
  unfold user_text, bprintf_user. destruct fmt as [|c fmt]; [intros [= <-]; apply writes_into_text|].
  destruct (Ascii.eqb c PERCENT); [|intros [= <-]; apply writes_into_text].
  destruct (writes_count _); [done|]. intros ->. apply writes_into_text.
Qed.
Lemma member_written entry member userfmt stringfmt s : member_text entry member userfmt stringfmt = Some s ->
  writes (fun f => into (format_member entry member userfmt stringfmt f)) s.
Proof.
  unfold member_text, format_member. destruct (posix_log_memtostr member entry POSIX_LOG_MEMSTR_MAXLEN) as [e|m], userfmt as [fmt|];
    cbn [mbind option_bind]; try done.
  - destruct stringfmt; [done|]. destruct (_evlSprintfMember member entry); [|done]. cbn [mbind option_bind]. apply user_written.
  - destruct stringfmt; [apply user_written|]. destruct (_evlSprintfMember member entry); [|done]. cbn [mbind option_bind]. apply user_written.
  - intros [= <-]. rewrite vsnprintf_s. apply writes_into_text.
Qed.
Lemma segment_written t fs s : segment_text the_text t fs = Some s -> writes (format_segment st format_template t fs) s.
Proof.
  destruct fs as [[u|m userfmt stringfmt|name userfmt sf|pf fmt b|]|i userfmt]; unfold segment_text, format_segment.
  - intros [= <-]. apply writes_string.
  - destruct (m =? _); [done|]. unfold format_entry_member. destruct (tm_entry (tm_state t)); [|done]. apply member_written.
  - unfold format_named. destruct (_evlTmplFindAttribute t name) as [a|]; [apply att_written|].
    destruct (streqb name "host"); [|intros [= <-]; apply writes_nothing].
    destruct (tm_entry (tm_state t)); [|done]. intros [= <-]. apply writes_string.
  - intros [= <-]. apply writes_nothing.
  - intros [= <-]. apply writes_nothing.
  - destruct (_evlTmplGetNthAttribute t i); [|done]. apply att_written.
Qed.
Lemma segments_written t l : forall texts, mapM (segment_text the_text t) l = Some texts ->
  writes (format_tmpl_segments st format_template t l) (concat_str texts).
Proof.
  induction l as [|fs l IH]; cbn [mapM format_tmpl_segments]; intros texts Et; [injection Et as <-; apply writes_nothing|].
  destruct (segment_text the_text t fs) as [s|] eqn:Es; [|done]. cbn [mbind option_bind] in Et.
  destruct (mapM _ l) as [texts'|]; [|done]. injection Et as <-. by apply (writes_seq _ _ s _ (segment_written t fs s Es)), IH.
Qed.
End Rec.
Lemma body_formats format_template the_text : (forall t s, the_text t = Some s -> formats format_template t s) ->
  forall t s, body_text the_text t = Some s -> formats (format_body st format_template) t s.
Proof.
  intros Hrec t s. unfold body_text, formats, format_body, text_status. destruct (isPopulatedTmpl t); cbn [negb].
  - destruct (tm_parsed_format (tm_static t)) as [|fs l]; [done|]. destruct (mapM _ _) as [texts|] eqn:Et; [|done]. intros [= <-] f d out Hf Hcap.
    destruct (segments_written format_template the_text Hrec t (fs :: l) texts Et f d out Hf Hcap) as (f' & -> & ? & ?). by exists f'.
  - intros [= <-] f d out Hf _. exists f. by rewrite str_app_nil.
Qed.
Lemma template_formats fuel : forall t s, template_text fuel t = Some s -> formats (formatRecordFromTemplate st fuel) t s.
Proof. induction fuel as [|fuel IH]; [done|]. by apply body_formats. Qed.
End Text.

