(* ===== verification/TmplFmtFuel.v ===== *)
(** * Formatting terminates

    A template's format may not refer to [%data%], which would format the template again;
    with such formats, formatting descends into structs, and the nesting of structs is
    enough fuel. *)
From S2P Require Import Prelude NvPairs LogRecord MemStr QEvaluate LogSink RecPack Format CPrintf Dump FmtBuf FormatRec Conv Tmpl TmplPop TmplInit TmplCheck TmplFuel TmplFmt.

(** ** Formats that do not refer to the whole record *)

Definition is_data_segment (fs : tmpl_segment) : bool :=
  match fs with TSEG (EVL_FS_MEMBER m _ _) => m =? POSIX_LOG_ENTRY_DATA | _ => false end.
Definition data_free_format (l : list tmpl_segment) : Prop := Forall (fun fs => is_data_segment fs = false) l.
(** Neither the template's format does, nor those of the structs in it. *)
Inductive data_free : template -> Prop :=
  | data_free_intro t : data_free_format (tm_parsed_format (tm_static t)) ->
      Forall (fun a => Forall data_free (att_templates a)) (tm_attributes t) -> data_free t.

Lemma tmpl_segment_data_free t fs p seg p' : tmpl_segment_of t fs p = Done (Some (seg, true), p') -> is_data_segment seg = false.
Proof.
  destruct fs as [u|m userfmt sf|name userfmt sf|pf fmt sf|msg]; cbn [tmpl_segment_of]; try (intros [= <- ?]; done).
  - destruct (m =? POSIX_LOG_ENTRY_DATA) eqn:E; [done|]. intros [= <- ?]. exact E.
  - destruct (_evlTmplFindAttribute t name) as [a|]; [|done]. destruct (bool_decide _ && _); [done|].
    intros [= <- ?]. by destruct (bool_decide _).
Qed.
Lemma tmpl_segments_data_free t l : forall p segs p', tmpl_segments t l p = Done (Some (segs, true), p') -> data_free_format segs.
Proof.
  induction l as [|fs l IH]; cbn [tmpl_segments]; intros p segs p'; [intros [= <- ?]; constructor|].
  unfold mbind, parsing_bind. destruct (tmpl_segment_of t fs p) as [[[[seg ok]|] q]|] eqn:Es; try done.
  destruct (tmpl_segments t l q) as [[[[rest oks]|] q']|] eqn:El; try done. intros [= <- Hok ->].
  apply andb_true_iff in Hok as [-> ->]. constructor; [by eapply tmpl_segment_data_free|by eapply IH].
Qed.
(** A format that is accepted does not refer to the whole record. *)
Lemma parsed_format_data_free t fmt p l p' : _evlTmplParseFormat t fmt p = Done (Some (Some l), p') -> data_free_format l.
Proof.
  unfold _evlTmplParseFormat, need, lift, mbind, parsing_bind. destruct (_evlParseFormat fmt true) as [[msg|segs]|]; cbn [reading]; [done| |done].
  destruct (tmpl_segments t segs p) as [[[[r ok]|] q]|] eqn:E; try done. destruct ok; [|done]. intros [= -> ?].
  by eapply tmpl_segments_data_free.
Qed.

(** ** Attributes are less deep than their template *)

Lemma nesting_S t : nesting t = S (max_list_with att_nesting (tm_attributes t)).
Proof.
  destruct t as [s ts atts imps]. cbn [nesting tm_attributes]. f_equal. induction atts as [|a atts IH]; [done|].
  cbn [max_list_with]. rewrite IH. f_equal. destruct a as [name ty str dim fmt sh delim raw v flags idx].
  unfold att_nesting, att_templates. cbn [ta_struct ta_value]. destruct str, v; cbn; lia.
Qed.
Lemma max_list_with_in {A} (f : A -> nat) x l : x ∈ l -> (f x <= max_list_with f l)%nat.
Proof. induction 1; cbn; lia. Qed.
Lemma att_nesting_lt t a : a ∈ tm_attributes t -> (att_nesting a < nesting t)%nat.
Proof. intros Ha. rewrite nesting_S. apply (max_list_with_in att_nesting) in Ha. lia. Qed.
Lemma nesting_att t a : t ∈ att_templates a -> (nesting t <= att_nesting a)%nat.
Proof. apply max_list_with_in. Qed.
(** Formatting the attribute descends into structs of a nesting of less than [n]. *)
Definition shallow (n : nat) (a : tmpl_attribute) : Prop := (att_nesting a < n)%nat /\ Forall data_free (att_templates a).
Lemma shallow_in t a : data_free t -> a ∈ tm_attributes t -> shallow (nesting t) a.
Proof.
  intros Ht Ha. split; [by apply att_nesting_lt|]. destruct Ht as [t _ Hl]. by apply (proj1 (Forall_forall _ _) Hl).
Qed.
Lemma shallow_mono m n a : (m <= n)%nat -> shallow m a -> shallow n a.
Proof. intros Hm [Ha ?]. split; [lia|done]. Qed.
Lemma find_named_in l name a : find_named l name = Some a -> a ∈ l.
Proof.
  induction l as [|b l IH]; [done|]. cbn. destruct (bool_decide _); [intros [= ->]; apply list_elem_of_here|].
  intros Hf. apply list_elem_of_further. auto.
Qed.
Lemma find_scoped_shallow fuel : forall t path a, data_free t -> findAttByScopedName fuel t path = Some a -> shallow (nesting t) a.
Proof.
  induction fuel as [|fuel IH]; intros t path a Ht; cbn [findAttByScopedName]; unfold findAttBySimpleName;
    (destruct (split_dot path) as [[n1 n2]|]; [|intros Hf%find_named_in; by apply shallow_in]);
    (destruct (find_named (tm_attributes t) n1) as [b|] eqn:Eb; [|done]); cbn [mbind option_bind]; (destruct (_ || _); [done|]); [done|].
  apply find_named_in in Eb. destruct (shallow_in t b Ht Eb) as [Hn Hl].
  assert (Hin : forall st, st ∈ att_templates b -> findAttByScopedName fuel st n2 = Some a -> shallow (nesting t) a).
  { intros st Hst Ha. apply (shallow_mono (nesting st)); [apply nesting_att in Hst; lia|]. apply (IH st n2); [|done].
    by apply (proj1 (Forall_forall _ _) Hl). }
  destruct (attExists b).
  - destruct (ta_value b) as [| | | | | |st|] eqn:Ev; try done. apply Hin. unfold att_templates. rewrite Ev. apply elem_of_app. right. apply list_elem_of_here.
  - destruct (isMasterTmpl t); [|done]. destruct (ta_struct b) as [st|] eqn:Ev; [|done]. apply Hin. unfold att_templates. rewrite Ev. apply list_elem_of_here.
Qed.

(** ** The leaves *)

Section Stops.
Context `{HostLib, TextOfReal}.
Variable st : store.

Lemma stops_into {A} (o : option A) : stops (into o).
Proof. by destruct o. Qed.
Lemma span_set_length set s a b : span_set set s = (a, b) -> (String.length b <= String.length s)%nat.
Proof.
  revert a b. induction s as [|c s IH]; intros a b; cbn; [by intros [= <- <-]|]. destruct (is_letter c set); [|by intros [= <- <-]].
  destruct (span_set set s) as [x y] eqn:E. intros [= <- <-]. specialize (IH x y eq_refl). lia.
Qed.
Lemma stops_print_all fuel : forall fmt args, (String.length fmt <= fuel)%nat -> stops (print_all fuel fmt args).
Proof.
  induction fuel as [|fuel IH]; intros [|c fmt] args Hl; cbn [print_all]; try done; [cbn in Hl; lia|]. cbn in Hl.
  destruct (negb _); [apply stops_bind; [apply IH; lia|done]|].
  destruct (span_set conversion_chars fmt) as [spec rest] eqn:E. apply span_set_length in E.
  destruct rest as [|letter rest]; [done|]. cbn in E. destruct (Ascii.eqb letter PERCENT); [apply stops_bind; [apply IH; lia|done]|].
  destruct args as [|arg args]; [done|]. destruct (Ascii.eqb letter "n"); [done|]. apply stops_bind; [apply IH; lia|done].
Qed.
Lemma stops_bprintf f fmt args : stops (bprintf f fmt args).
Proof. unfold bprintf, print. apply stops_bind; [by apply stops_print_all|intros; apply stops_into]. Qed.
Lemma stops_wild {A} : stops (@Fault A WildRead).
Proof. done. Qed.
Lemma stops_read_mem mem p n : stops (read_mem mem p n).
Proof. unfold read_mem. by destruct (_ && _). Qed.
#[local] Hint Resolve stops_into stops_bprintf stops_wild stops_read_mem : fuel.
Lemma stops_wide_chars mem : stops (wide_chars mem).
Proof. unfold wide_chars. fuel. Qed.
Lemma stops_int_arg ty z : stops (int_arg ty z).
Proof. unfold int_arg. fuel. Qed.
Lemma stops_real_arg ty z : stops (real_arg ty z).
Proof. unfold real_arg. fuel. Qed.
#[local] Hint Resolve stops_wide_chars stops_int_arg stops_real_arg : fuel.
Lemma stops_value_arg a : stops (value_arg a).
Proof. unfold value_arg. fuel. Qed.
Lemma stops_element_arg ty bs : stops (element_arg ty bs).
Proof. unfold element_arg. fuel. Qed.
#[local] Hint Resolve stops_value_arg stops_element_arg : fuel.
Lemma stops_next_element ty mem : stops (next_element ty mem).
Proof. unfold next_element. fuel. Qed.
Lemma stops_array_dim a : stops (array_dim st a).
Proof. unfold array_dim. fuel. Qed.
Lemma stops_array_mem a : stops (array_mem a).
Proof. unfold array_mem. fuel. Qed.
Lemma stops_char_array elem mem n : stops (char_array elem mem n).
Proof. unfold char_array. fuel. Qed.
Lemma stops_cast a fmt f : stops (castAndFormatAtt a fmt f).
Proof. unfold castAndFormatAtt. fuel. Qed.
#[local] Hint Resolve stops_next_element stops_array_dim stops_array_mem stops_char_array stops_cast : fuel.
Lemma stops_format_elements ty izo fmt delim n : forall i mem f, stops (format_elements ty izo fmt delim n i mem f).
Proof.
  induction n as [|n IH]; intros i mem f; cbn [format_elements]; [done|]. apply stops_bind; [auto with fuel|]. intros [arg mem'].
  apply stops_bind; [destruct (0 <? i); auto with fuel|]. intros. apply stops_bind; auto with fuel.
Qed.
Lemma stops_scalars a fmt f : stops (formatArrayOfScalars st a fmt f).
Proof. unfold formatArrayOfScalars. pose proof stops_format_elements. fuel. Qed.
Lemma stops_strings fuel elem : (0 < elem)%nat -> forall nel mem, (length mem < fuel)%nat -> stops (chars_of_strings fuel elem nel mem).
Proof.
  intros He. induction fuel as [|fuel IH]; intros nel mem Hl; [lia|]. destruct nel as [|nel]; [done|]. cbn [chars_of_strings].
  pose proof (stops_read_mem mem 0 (Z.of_nat elem)) as Hr.
  destruct (read_mem mem 0 (Z.of_nat elem)) as [c|e] eqn:E; [|intros [= ->]; by apply Hr].
  cbn [mbind outcome_bind]. unfold read_mem in E. destruct (_ && _) eqn:Eb; [|done]. bprop.
  apply stops_bind; [|done]. apply IH. rewrite length_drop. lia.
Qed.
Lemma stops_struct_data t : stops (struct_data t).
Proof. unfold struct_data. fuel. Qed.
Lemma stops_type_info arch ty : stops (type_info arch ty).
Proof. apply stops_reading. Qed.
#[local] Hint Resolve stops_struct_data stops_type_info : fuel.
Lemma stops_dump_range arch a : stops (dump_range st arch a).
Proof.
  unfold dump_range. apply stops_bind; [auto with fuel|]. intros nel.
  assert (Hd : stops (match ta_rawdata a with Some p => Done (pointee p) | None => array_mem a end)) by fuel.
  assert (Hc : forall elem, (0 < elem)%nat -> stops (mem ← array_mem a; k ← chars_of_strings (S (length mem)) elem (Z.to_nat nel) mem; Done (Z.of_nat elem * k))).
  { intros elem He. apply stops_bind; [auto with fuel|]. intros mem. apply stops_bind; [apply stops_strings; lia|done]. }
  destruct (ta_type a); try (fuel; fail); (apply stops_bind; [apply Hc; lia|intros; apply stops_bind; [exact Hd|done]]).
Qed.
Lemma stops_dumpArray arch a f : stops (dumpArray st arch a f).
Proof. unfold dumpArray. pose proof (stops_dump_range arch a). fuel. Qed.
Lemma stops_chararr a f : stops (bprintCharArrAsString st a f).
Proof. unfold bprintCharArrAsString. fuel. Qed.
#[local] Hint Resolve stops_scalars stops_dumpArray stops_chararr : fuel.
Lemma stops_report bitmaps val : forall bar f, stops (report_bitmaps bitmaps val bar f).
Proof. induction bitmaps as [|b l IH]; intros bar f; cbn [report_bitmaps]; [done|]. pose proof IH. fuel. Qed.
#[local] Hint Resolve stops_report : fuel.
Lemma stops_intval a : stops (_evlTmplGetValueOfIntegerAttribute a).
Proof. unfold _evlTmplGetValueOfIntegerAttribute. fuel. Qed.
#[local] Hint Resolve stops_intval : fuel.
Lemma stops_scalar a f : stops (format_scalar a f).
Proof. unfold format_scalar, format_valnm, format_bitmap. fuel. Qed.

(** ** Templates *)

Section Rec.
Variable format_template : template -> evl_fmt_buf -> outcome (Z * evl_fmt_buf).
Variable n : nat.
Hypothesis rec_stops : forall t f, data_free t -> (nesting t < n)%nat -> stops (format_template t f).
#[local] Hint Resolve stops_scalar : fuel.

Lemma rec_in a t f : shallow n a -> t ∈ att_templates a -> stops (format_template t f).
Proof. intros [Hn Hl] Ht. apply rec_stops; [by apply (proj1 (Forall_forall _ _) Hl)|]. apply nesting_att in Ht. lia. Qed.
Lemma stops_structs izo fmt delim l : forall i buf f, (forall t f, t ∈ l -> stops (format_template t f)) ->
  stops (format_structs format_template izo fmt delim l i buf f).
Proof.
  induction l as [|t l IH]; intros i buf f Hl; cbn [format_structs]; [done|].
  apply stops_bind.
  { unfold format_struct, pad_text. apply stops_bind; [apply Hl, list_elem_of_here|]. intros []. fuel. }
  intros buf'. apply stops_bind; [destruct (0 <? i); auto with fuel|]. intros f1.
  apply stops_bind; [unfold struct_args; destruct izo; done|]. intros args. apply stops_bind; [auto with fuel|].
  intros f2. apply IH. intros t' f' Ht'. apply Hl. by apply list_elem_of_further.
Qed.
Lemma stops_attribute arch a f : shallow n a -> stops (formatAttribute st format_template arch a f).
Proof.
  intros Ha. assert (Hr : forall t f, t ∈ value_templates (ta_value a) -> stops (format_template t f)).
  { intros t f' Ht. apply (rec_in a); [done|]. apply elem_of_app. by right. }
  unfold formatAttribute, done_with. destruct (negb (attExists a)); [done|]. destruct (isArray a).
  - apply stops_bind; [|done]. unfold format_array, formatArrayOfStructs. destruct (ta_format a); try (fuel; fail).
    all: destruct (bool_decide _); [|auto with fuel]; destruct (ta_value a) as [| | | | | | |[|t l]]; try done; by apply stops_structs.
  - destruct (isStruct a); [|apply stops_bind; [auto with fuel|done]]. destruct (ta_value a); try done. apply Hr. cbn. apply list_elem_of_here.
Qed.
Lemma stops_tmpl_attribute t a userfmt f : shallow n a -> stops (_evlFormatTmplAttribute st format_template t a userfmt f).
Proof.
  intros Ha. unfold _evlFormatTmplAttribute. destruct userfmt as [fmt|].
  - destruct (cantDoAdHocFormat a); [auto with fuel|]. destruct (negb _); [done|]. unfold formatStringAsPrintf.
    destruct (_ || _); [auto with fuel|]. apply stops_bind; [unfold printf_record; fuel|auto with fuel].
  - apply stops_bind; [by apply stops_attribute|]. by intros [].
Qed.
Lemma stops_segment t fs f : data_free t -> (nesting t <= n)%nat -> is_data_segment fs = false -> stops (format_segment st format_template t fs f).
Proof.
  intros Ht Hn Hfs. assert (Hs : forall a, shallow (nesting t) a -> shallow n a) by (intros a; by apply shallow_mono).
  destruct fs as [[u|m userfmt sf|name userfmt sf|pf fmt b|msg]|i userfmt]; cbn [format_segment is_data_segment] in *; auto with fuel.
  - rewrite Hfs. unfold format_entry_member. destruct (tm_entry _); [auto with fuel|]. by destruct (_ && _).
  - unfold format_named, _evlTmplFindAttribute. destruct (findAttByScopedName _ t name) as [a|] eqn:E; [|fuel].
    apply stops_tmpl_attribute, Hs. by eapply find_scoped_shallow.
  - unfold _evlTmplGetNthAttribute. destruct (tm_attributes t !! i) as [a|] eqn:E; [|done]. cbn [reading mbind outcome_bind].
    apply stops_tmpl_attribute, Hs, shallow_in; [done|]. by eapply list_elem_of_lookup_2.
Qed.
Lemma stops_segments t l : data_free t -> (nesting t <= n)%nat -> data_free_format l ->
  forall f, stops (format_tmpl_segments st format_template t l f).
Proof.
  intros Ht Hn. induction 1 as [|fs l Hfs _ IH]; intros f; cbn [format_tmpl_segments]; [done|].
  apply stops_bind; [by apply stops_segment|done].
Qed.
End Rec.
Lemma stops_template fuel : forall t f, data_free t -> (nesting t <= fuel)%nat -> stops (formatRecordFromTemplate st fuel t f).
Proof.
  induction fuel as [|fuel IH]; intros t f Ht Hn; [rewrite nesting_S in Hn; lia|]. cbn [formatRecordFromTemplate]. unfold format_body.
  destruct (negb _); [done|]. destruct (tm_parsed_format (tm_static t)) as [|fs l] eqn:El; [done|]. apply stops_bind; [|done].
  intros. apply (stops_segments _ (S fuel)); [|done..|].
  - intros t' f' Ht' Hn'. apply IH; [done|lia].
  - rewrite <-El. by destruct Ht.
Qed.

(** ** The API *)

Lemma stops_format_to buf format : (forall f, stops (format f)) -> stops (format_to buf format).
Proof. intros Hf. unfold format_to. destruct buf as [[|b buf]|]; try done. apply stops_bind; [done|]. by intros []. Qed.
Lemma shallow_templates n a t f : shallow n a -> t ∈ att_templates a -> stops (formatRecordFromTemplate st (att_nesting a) t f).
Proof. intros [_ Hl] Ht. apply stops_template; [by apply (proj1 (Forall_forall _ _) Hl)|by apply nesting_att]. Qed.
Lemma stops_attribute_alone n arch a f : shallow n a -> stops (formatAttribute st (formatRecordFromTemplate st (att_nesting a)) arch a f).
Proof.
  intros [Hn Hl]. apply (stops_attribute _ (S (att_nesting a))); [|by split; [lia|]].
  intros t f' Ht Hlt. apply stops_template; [done|lia].
Qed.
Lemma stops_bindent n : forall f, stops (bindent f n).
Proof. induction n as [|n IH]; intros f; cbn [bindent]; [done|]. apply stops_bind; [apply stops_bprintf|auto]. Qed.
Lemma stops_neqvDumpAtt n arch a f : shallow n a -> stops (neqvDumpAtt st arch a f).
Proof.
  intros Ha. unfold neqvDumpAtt. apply stops_bind; [apply stops_bprintf|]. intros f1.
  apply stops_bind; [by apply (stops_attribute_alone n)|]. intros []. apply stops_bprintf.
Qed.
Lemma stops_neqv_lines rec n arch l indent : (forall t f i, data_free t -> (nesting t < n)%nat -> stops (rec t f i)) ->
  (forall a, a ∈ l -> shallow n a) -> forall f, stops (neqv_lines st rec arch l indent f).
Proof.
  intros Hrec. induction l as [|a l IH]; intros Hl f; cbn [neqv_lines]; [done|].
  assert (Ha : shallow n a) by (apply Hl, list_elem_of_here).
  apply stops_bind; [|intros; apply IH; intros b Hb; by apply Hl, list_elem_of_further].
  destruct (ta_name a); [|done]. destruct (negb (attExists a)); [done|]. apply stops_bind; [apply stops_bindent|]. intros f1.
  apply stops_bind; [apply stops_bprintf|]. intros f2. destruct (isStruct a && negb (isArray a)); [|by apply (stops_neqvDumpAtt n)].
  apply stops_bind; [apply stops_bprintf|]. intros f3. destruct (ta_value a) as [| | | | | |t|] eqn:Ev; try done.
  assert (Ht : t ∈ att_templates a) by (unfold att_templates; rewrite Ev; apply elem_of_app; right; apply list_elem_of_here).
  destruct Ha as [Hn Hd]. apply Hrec; [by apply (proj1 (Forall_forall _ _) Hd)|]. apply nesting_att in Ht. lia.
Qed.
Lemma stops_neqv fuel : forall t f indent, data_free t -> (nesting t <= fuel)%nat -> stops (neqvDumpTmpl st fuel t f indent).
Proof.
  induction fuel as [|fuel IH]; intros t f indent Ht Hn; [rewrite nesting_S in Hn; lia|]. cbn [neqvDumpTmpl].
  apply (stops_neqv_lines _ (S fuel)); [intros; apply IH; [done|lia]|].
  intros a Ha. apply (shallow_mono (nesting t)); [done|]. by apply shallow_in.
Qed.
(** C9: formatting ends: a format that the template compiler accepts does not refer to
    [%data%], and a template whose formats do not, nor those of the structs in it, is
    formatted, and dumped line by line, with its nesting as fuel, whatever the buffer. *)
Theorem formatting_terminates t buf :
  (forall t' fmt p l p', _evlTmplParseFormat t' fmt p = Done (Some (Some l), p') -> data_free_format l) /\
  (data_free t ->
   evltemplate_formatrec st (Some t) buf <> Fault OutOfFuel /\
   evltemplate_neqvdump st (Some t) buf <> Fault OutOfFuel /\
   forall a, a ∈ tm_attributes t -> evlatt_getstring st (Some a) buf <> Fault OutOfFuel).
Proof.
  split; [intros; by eapply parsed_format_data_free|]. intros Ht. split_and!.
  - apply stops_format_to. intros f. by apply stops_template.
  - unfold evltemplate_neqvdump. destruct buf as [buf|]; [|done]. destruct (bool_decide _); [done|]. destruct (negb _); [done|].
    apply stops_format_to. intros f. unfold done_with. apply stops_bind; [by apply stops_neqv|done].
  - intros a Ha. apply stops_format_to. intros f. apply (stops_attribute_alone (nesting t)). by apply shallow_in.
Qed.
End Stops.

(** A format that refers to the whole record is formatted without end. *)
Lemma data_segment_never_ends `{HostLib, TextOfReal} st t f m userfmt sf l : isPopulatedTmpl t = true ->
  tm_parsed_format (tm_static t) = TSEG (EVL_FS_MEMBER m userfmt sf) :: l -> m = POSIX_LOG_ENTRY_DATA ->
  forall fuel, formatRecordFromTemplate st fuel t f = Fault OutOfFuel.
Proof.
  intros Hp Hf -> fuel. induction fuel as [|fuel IH]; [done|]. cbn [formatRecordFromTemplate]. unfold format_body. rewrite Hp, Hf.
  cbn [negb format_tmpl_segments format_segment]. rewrite Z.eqb_refl, IH. done.
Qed.
