(* ===== verification/TmplNames.v ===== *)
(** * Names of bit patterns ([lib/template/bvfmt.c], [lib/template/tmplfmt.c])

    A [%b] format gives names to patterns of the digits [0], [1] and [X].  The compiler turns a
    pattern into two masks; a value's text has the names of the patterns that agree
    with it, except those that tell nothing new. *)
From S2P Require Import Prelude NvPairs LogRecord FacNames MemStr QEvaluate LogSink RecPack Format CPrintf FmtBuf Conv Tmpl TmplPop TmplInit TmplCheck TmplFmt TmplText.

(** ** A pattern *)

(** The digits from the last one on ask for the bits from the lowest one on. *)
Definition bit_agrees (c : ascii) (b : bool) : Prop := (c = "1"%char -> b = true) /\ (c = "0"%char -> b = false).
Definition agrees (digits : list ascii) (val : Z) : Prop :=
  forall i c, rev digits !! i = Some c -> bit_agrees c (Z.testbit val (Z.of_nat i)).
Definition mask (d : ascii) (l : list ascii) : Z := foldl (fun acc c => 2 * acc + b2z (Ascii.eqb c d)) 0 l.

Lemma mask_app d l c : mask d (l ++ [c]) = 2 * mask d l + b2z (Ascii.eqb c d).
Proof. unfold mask. by rewrite foldl_app. Qed.
Lemma mask_bound d l : 0 <= mask d l < 2 ^ Z.of_nat (length l).
Proof.
  induction l as [|c l IH] using rev_ind; [cbn; lia|]. rewrite mask_app, length_app. cbn [length].
  rewrite Nat2Z.inj_add, Z.pow_add_r by lia. change (2 ^ Z.of_nat 1) with 2. unfold b2z. destruct (Ascii.eqb c d); lia.
Qed.
Lemma mask_bit d l i : Z.testbit (mask d l) (Z.of_nat i) = match rev l !! i with Some c => Ascii.eqb c d | None => false end.
Proof.
  revert i. induction l as [|c l IH] using rev_ind; intros i; [by rewrite Z.testbit_0_l|]. rewrite mask_app, rev_app_distr. cbn [rev app].
  replace (b2z (Ascii.eqb c d)) with (Z.b2z (Ascii.eqb c d)) by (by destruct (Ascii.eqb c d)). destruct i as [|i].
  - by rewrite Z.testbit_0_r.
  - rewrite Nat2Z.inj_succ, Z.testbit_succ_r by lia. apply IH.
Qed.
(** Up to 64 digits, no bit is lost. *)
Lemma add_bits l : (length l <= 64)%nat -> foldl add_bit (0, 0) l = (mask "1" l, mask "0" l).
Proof.
  induction l as [|c l IH] using rev_ind; [done|]. rewrite length_app. cbn [length]. intros Hl.
  rewrite foldl_app, IH, !mask_app by lia. cbn [foldl add_bit].
  assert (forall d, u64 (2 * mask d l) = 2 * mask d l) as Hu.
  { intros d. apply unsigned_id. unfold in_unsigned. pose proof (mask_bound d l).
    assert (2 ^ Z.of_nat (length l) <= 2 ^ 63) by (apply Z.pow_le_mono_r; lia). lia. }
  by rewrite !Hu.
Qed.
Lemma signed_bits z i : 0 <= i < 64 -> Z.testbit (s64 z) i = Z.testbit z i.
Proof.
  intros Hi. rewrite <-(Z.mod_pow2_bits_low (s64 z) 64) by lia. rewrite <-(Z.mod_pow2_bits_low z 64) by lia. f_equal.
  change (unsigned 64 (signed 64 z) = unsigned 64 z). apply unsigned_signed. lia.
Qed.
Lemma high_bit z i : in_signed 64 z -> 63 <= i -> Z.testbit z i = (z <? 0).
Proof.
  unfold in_signed. change (2 ^ (64 - 1)) with (2 ^ 63). intros Hz Hi. replace i with (i - 63 + 63) by lia. rewrite <-Z.shiftr_spec by lia.
  rewrite Z.shiftr_div_pow2 by lia. destruct (Z.ltb_spec z 0).
  - assert (z / 2 ^ 63 = -1) as -> by (symmetry; apply (Z.div_unique z (2 ^ 63) (-1) (z + 2 ^ 63)); lia). apply Z.bits_m1. lia.
  - by rewrite Z.div_small, Z.bits_0 by lia.
Qed.
(** A relation between bits that holds for all of a word's bits, the sign included. *)
Lemma word_bits (R : bool -> bool -> Prop) a b : in_signed 64 a -> in_signed 64 b ->
  (forall i, (i < 64)%nat -> R (Z.testbit a (Z.of_nat i)) (Z.testbit b (Z.of_nat i))) ->
  forall i, 0 <= i -> R (Z.testbit a i) (Z.testbit b i).
Proof.
  intros Ha Hb HR i Hi. destruct (Z.ltb_spec i 64).
  - specialize (HR (Z.to_nat i) ltac:(lia)). by rewrite Z2Nat.id in HR by lia.
  - specialize (HR 63%nat ltac:(lia)). rewrite (high_bit a i), (high_bit b i) by (done || lia). by rewrite !high_bit in HR by (done || lia).
Qed.
Lemma match_bits val ones zeros name : in_signed 64 val -> in_signed 64 ones -> in_signed 64 zeros ->
  bits_match val (mkBitmap ones zeros name) = true <->
  forall i, (i < 64)%nat -> let bit z := Z.testbit z (Z.of_nat i) in
    (bit ones = true -> bit val = true) /\ (bit zeros = true -> bit val = false).
Proof.
  intros Hv H1 H0. unfold bits_match. cbn [bm_1bits bm_0bits]. rewrite andb_true_iff, !Z.eqb_eq. cbv zeta. split.
  - intros [E1 E0] i _. apply (f_equal (fun z => Z.testbit z (Z.of_nat i))) in E1, E0. rewrite Z.land_spec in E1, E0. rewrite Z.bits_0 in E0.
    destruct (Z.testbit val _), (Z.testbit ones _), (Z.testbit zeros _); done.
  - intros Hb. split; apply Z.bits_inj'; intros i Hi; rewrite Z.land_spec, ?Z.bits_0.
    + pose proof (word_bits (fun a b => b = true -> a = true) val ones Hv H1 (fun i Hi => proj1 (Hb i Hi)) i Hi).
      destruct (Z.testbit val i), (Z.testbit ones i); naive_solver.
    + pose proof (word_bits (fun a b => b = true -> a = false) val zeros Hv H0 (fun i Hi => proj2 (Hb i Hi)) i Hi).
      destruct (Z.testbit val i), (Z.testbit zeros i); naive_solver.
Qed.
Lemma length_digits s : length (String.list_ascii_of_string s) = String.length s.
Proof. induction s as [|c s IH]; [done|]. cbn. by rewrite IH. Qed.
Lemma bitmap_bits_digits digits p : all_in "01xX" digits = true -> digits <> EmptyString -> (String.length digits <= 64)%nat ->
  bitmap_bits ("0b" ++ digits) p = Done (Some (mask "1" (String.list_ascii_of_string digits), mask "0" (String.list_ascii_of_string digits)), p).
Proof.
  intros Hd Hne Hl. unfold bitmap_bits. cbn [String.append Ascii.eqb Bool.eqb orb]. rewrite Hd, bool_decide_false by done. cbn [negb orb].
  unfold mret, parsing_ret. rewrite add_bits; [done|]. by rewrite length_digits.
Qed.
(** The bitmap of a pattern, as it is stored. *)
Definition pattern_bitmap (digits name : str) : tmpl_bitmap :=
  let l := String.list_ascii_of_string digits in mkBitmap (s64 (mask "1" l)) (s64 (mask "0" l)) name.
Lemma pattern_matches digits name val : in_signed 64 val -> (String.length digits <= 64)%nat ->
  bits_match val (pattern_bitmap digits name) = true <-> agrees (String.list_ascii_of_string digits) val.
Proof.
  intros Hv Hl. unfold pattern_bitmap. rewrite match_bits by (done || (apply signed_range; lia)). cbv zeta.
  set (l := String.list_ascii_of_string digits). assert (length l <= 64)%nat as Hl' by (unfold l; by rewrite length_digits).
  assert (Hbit : forall d i, (i < 64)%nat -> Z.testbit (s64 (mask d l)) (Z.of_nat i) = match rev l !! i with Some c => Ascii.eqb c d | None => false end)
    by (intros d i Hi; rewrite signed_bits by lia; apply mask_bit).
  unfold agrees, bit_agrees. split.
  - intros Hb i c Hi. assert (i < 64)%nat as Hlt by (apply lookup_lt_Some in Hi; rewrite length_rev in Hi; lia).
    destruct (Hb i Hlt) as [H1 H0]. rewrite Hbit, Hi in H1, H0 by done. split; intros ->; auto.
  - intros Ha i Hi. rewrite !Hbit by done. destruct (rev l !! i) as [c|] eqn:E; [|done]. destruct (Ha i c E) as [H1 H0].
    split; intros Hc%Ascii.eqb_eq; auto.
Qed.

(** ** The names of a value *)

Definition tested (b : tmpl_bitmap) : Z := Z.lor (bm_1bits b) (bm_0bits b).
(** All bits of [z] are bits of [bar]. *)
Definition covered (bar z : Z) : Prop := Z.lor bar z = bar.
Lemma unreported_covered bar b : unreported bar b = false <-> covered bar (tested b).
Proof. unfold unreported, covered, tested. by rewrite negb_false_iff, Z.eqb_eq, Z.lor_assoc. Qed.
Definition all_tested (bar : Z) (l : list tmpl_bitmap) : Z := foldl (fun acc b => Z.lor acc (tested b)) bar l.
Lemma covered_mono bar c z : covered bar z -> covered (Z.lor bar c) z.
Proof. unfold covered. intros E. rewrite (Z.lor_comm bar c), <-Z.lor_assoc. by rewrite E. Qed.
Lemma all_tested_covers bar l z : covered bar z -> covered (all_tested bar l) z.
Proof. revert bar. induction l as [|b l IH]; intros bar Hz; [done|]. cbn. apply IH. by apply covered_mono. Qed.
(** What is reported matches and tells something new; what matches tests nothing else than
    what has been reported. *)
Lemma reported_spec val l : forall bar,
  let r := reported l val bar in
  r `sublist_of` l /\ Forall (fun b => bits_match val b = true) r /\
  (forall k b, r !! k = Some b -> ~ covered (all_tested bar (take k r)) (tested b)) /\
  (forall b, b ∈ l -> bits_match val b = true -> covered (all_tested bar r) (tested b)).
Proof.
  induction l as [|b l IH]; intros bar; cbn [reported]; cbv zeta; [split_and!; [constructor|constructor|done|intros b Hb; by inversion Hb]|].
  destruct (unreported bar b && bits_match val b) eqn:E.
  - apply andb_true_iff in E as [Eu Em]. destruct (IH (Z.lor bar (tested b))) as (Hs & Hm & Hn & Hc). split_and!.
    + by apply sublist_skip.
    + by constructor.
    + intros [|k] b' Hk; [|by apply (Hn k)]. injection Hk as <-. cbn. rewrite <-unreported_covered. by rewrite Eu.
    + intros b' Hb' Hm'. apply elem_of_cons in Hb' as [->|Hb']; [|by apply Hc].
      apply (all_tested_covers (Z.lor bar (tested b))). unfold covered. by rewrite <-Z.lor_assoc, Z.lor_diag.
  - destruct (IH bar) as (Hs & Hm & Hn & Hc). split_and!; [by apply sublist_cons|done|done|].
    intros b' Hb' Hm'. apply elem_of_cons in Hb' as [->|Hb']; [|by apply Hc].
    rewrite Hm', andb_true_r in E. by apply all_tested_covers, unreported_covered.
Qed.
Lemma vsnprintf_hex `{TextOfReal} val : vsnprintf "%lx" (ALong val) = Some (fmt_x (u64 val)).
Proof.
  change (Some (int_field (mkDir "" 0 None "l" "x") val) = Some (fmt_x (u64 val))). f_equal.
  change (int_field (mkDir "" 0 None "l" "x") val) with
    (pad (mkDir "" 0 None "l" "x") (digits_of (mkDir "" 0 None "l" "x") (u64 val) (fmt_x (u64 val)))).
  unfold digits_of. cbn [d_prec]. rewrite bool_decide_false, andb_false_r by done. unfold pad. cbn [d_width].
  by replace (Z.to_nat (0 - strlen (fmt_x (u64 val)))) with O by (unfold strlen; lia).
Qed.
Lemma print_hex `{TextOfReal} val : print_text "0x%lx" [ALong val] = Some ("0x" ++ fmt_x (u64 val))%string.
Proof.
  unfold print_text, print. cbn -[vsnprintf fmt_x unsigned]. rewrite vsnprintf_hex. cbn -[fmt_x unsigned]. by rewrite str_app_nil.
Qed.
(** C10: a pattern of binary digits is compiled into a bitmap that matches exactly the values
    whose bits agree with its digits; and the text of a value is its hexadecimal digits and the
    names of matching bitmaps, in the order of the format, none of which tests only bits that the
    ones before it test, while no other matching bitmap tests any bit that they do not. *)
Theorem bit_names_describe_the_value `{HostLib, TextOfReal} bitmaps val :
  (forall digits name p, all_in "01xX" digits = true -> (1 <= String.length digits <= 64)%nat -> in_signed 64 val ->
     exists ones zeros, bitmap_bits ("0b" ++ digits) p = Done (Some (ones, zeros), p) /\
       (bits_match val (mkBitmap (s64 ones) (s64 zeros) name) = true <-> agrees (String.list_ascii_of_string digits) val)) /\
  (exists shown, shown `sublist_of` bitmaps /\ Forall (fun b => bits_match val b = true) shown /\
     (forall k b, shown !! k = Some b -> ~ covered (all_tested 0 (take k shown)) (tested b)) /\
     (forall b, b ∈ bitmaps -> bits_match val b = true -> covered (all_tested 0 shown) (tested b)) /\
     writes (format_bitmap bitmaps val)
       ("0x" ++ fmt_x (u64 val) ++ match map bm_name shown with [] => EmptyString | names => "(" ++ join "|" names ++ ")" end)).
Proof.
  split.
  - intros digits name p Hd Hl Hv. eexists _, _. split; [apply bitmap_bits_digits; [done|intros ->; cbn in Hl; lia|lia]|].
    apply (pattern_matches digits name val Hv). lia.
  - exists (reported bitmaps val 0). destruct (reported_spec val bitmaps 0) as (Hs & Hm & Hn & Hc). split_and!; [done..|].
    apply bitmap_written. unfold bitmap_text.
    rewrite print_hex. cbn [mbind option_bind]. by rewrite str_app_assoc.
Qed.
Lemma bit_names_describe_the_value_witness :
  exists ones zeros, bitmap_bits "0b1X0" (mkParser None 0 [] [] (mkStore ∅ ∅ 0) []) = Done (Some (ones, zeros), mkParser None 0 [] [] (mkStore ∅ ∅ 0) []) /\
    (bits_match 6 (mkBitmap (s64 ones) (s64 zeros) "name") = true <-> agrees ["1"; "X"; "0"]%char 6).
Proof.
  apply (bit_names_describe_the_value (H := bare_machine) (H0 := {| text_of_real _ _ := None |}) [] 6);
    [reflexivity|cbn; lia|unfold in_signed; lia].
Defined.
