(* ===== verification/TmplFmtSamples.v ===== *)
(** * Formatting at work: a sample, and what goes wrong

    A template as the compiler leaves it, populated from a record and formatted; and texts
    that are not what they ought to be. *)
From S2P Require Import Prelude NvPairs LogRecord MemStr QEvaluate LogSink RecPack Format CPrintf Dump FmtBuf FormatRec Conv Tmpl TmplPop TmplInit TmplCheck TmplSafe TmplLayout TmplSamples TmplFmt TmplText TmplFmtFuel.

#[local] Instance machine_here : HostLib := bare_machine.
#[local] Instance no_real_text3 : TextOfReal := { text_of_real _ _ := None }.

Definition fatt (name : str) (ty : base_type) (str : option template) (dim : option tmpl_dimension) (fmt : tmpl_att_fmt)
    (delim : option tmpl_delimiter) (i : nat) : tmpl_attribute := mkAttr (Some name) ty str dim fmt false delim None VNone 0 i.
Definition fmaster (name : str) (l : list tmpl_attribute) (format : list tmpl_segment) : template :=
  mkTemplate (mkStatic (TMPL_TH_STRUCT name) None name format 0 0 None) (mkState 0 0 0 None None (-1) false) l [].
Definition lit (s : str) : tmpl_segment := TSEG (EVL_FS_STRING s).
Definition point : template :=
  fmaster "point" [fatt "x" TY_INT None None TMPL_AFS_DEFAULT None 0; fatt "y" TY_INT None None (TMPL_AFS_SCALAR "%+d") None 1]
    [lit "("; EVL_FS_ATTR 0 None; lit ","; EVL_FS_ATTR 1 None; lit ")"].
Definition states : list tmpl_bitmap := [mkBitmap 3 0 "both"; mkBitmap 1 0 "low"; mkBitmap 4 8 "mode"; mkBitmap 0 0 "rest"].
Definition shape : template :=
  fmaster "shape"
    [fatt "state" TY_UCHAR None None (TMPL_AFS_BITMAP states) None 0;
     fatt "kind" TY_SHORT None None (TMPL_AFS_VALNM [mkBitmap 7 (-8) "line"]) None 1;
     fatt "name" TY_STRING None None TMPL_AFS_DEFAULT None 2;
     fatt "w" TY_UCHAR None (Some (mkDim TMPL_DIM_CONST 3 50)) (TMPL_AFS_ARRAY "%02x" "S") (Some (mkDelim (TMPL_DELIM_CONST ":") 51)) 3;
     fatt "p" TY_STRUCT (Some point) (Some (mkDim TMPL_DIM_CONST 2 52)) (TMPL_AFS_IZARRAY "#%d=%s" "IZ") None 4]
    [EVL_FS_ATTR 0 None; lit " "; EVL_FS_ATTR 1 None; lit " "; EVL_FS_ATTR 2 None; lit " "; EVL_FS_ATTR 3 None; lit " "; EVL_FS_ATTR 4 None;
     lit " "; EVL_FS_ATTR 1 (Some "%x"); lit " "; EVL_FS_ATTR 4 (Some "%x")]%string.
Definition shape_record : list Z :=
  [7; 7; 0; 97; 98; 0; 1; 2; 255; 1; 0; 0; 0; 2; 0; 0; 0; 254; 255; 255; 255; 5; 0; 0; 0].
Definition populated_shape : template * store :=
  match populated shape 7 shape_record with Done (inr r) => r | _ => (shape, fresh_store) end.
Definition shape_text : str := "0x7(both|mode) line ab 01:02:ff #0=(1,+2) #1=(-2,+5) 7 ?p?".
Lemma shape_has_text : template_text (snd populated_shape) (nesting (fst populated_shape)) (fst populated_shape) = Some shape_text.
Proof. vm_compute. reflexivity. Qed.
Definition formatted_shape (n : nat) : option (Z * str) :=
  match evltemplate_formatrec (snd populated_shape) (Some (fst populated_shape)) (Some (replicate n 255)) with
  | Done (status, Some mem) => Some (status, cstring mem)
  | _ => None
  end.
Lemma shape_formatted : formatted_shape 100 = Some (0, shape_text) /\ formatted_shape 17 = Some (EMSGSIZE, "0x7(both|mode) l"%string).
Proof. vm_compute. done. Qed.

Lemma point_data_free t : tm_parsed_format (tm_static t) = tm_parsed_format (tm_static point) ->
  Forall (fun a => att_templates a = []) (tm_attributes t) -> data_free t.
Proof.
  intros Hf Ha. constructor; [rewrite Hf; by repeat constructor|]. eapply Forall_impl; [exact Ha|]. intros a E. cbn in E. by rewrite E.
Qed.
Lemma shape_data_free : data_free (fst populated_shape).
Proof.
  constructor; [by repeat constructor|]. vm_compute. repeat constructor; (apply point_data_free; [reflexivity|repeat constructor]).
Qed.
Lemma formatting_terminates_witness :
  data_free (fst populated_shape) /\ evltemplate_formatrec (snd populated_shape) (Some (fst populated_shape)) None <> Fault OutOfFuel.
Proof.
  split; [exact shape_data_free|].
  apply (formatting_terminates (snd populated_shape) (fst populated_shape) None), shape_data_free.
Defined.
Definition neqv_of (n : nat) : option (Z * str) :=
  match evltemplate_neqvdump (snd populated_shape) (Some (fst populated_shape)) (Some (replicate n 255)) with
  | Done (status, Some mem) => Some (status, cstring mem)
  | _ => None
  end.
Definition tab : str := String (of_chr 9) EmptyString.
Lemma shape_neqv : neqv_of 200 = Some (0, ("state" ++ tab ++ "= 0x7(both|mode)" ++ newline ++ "kind" ++ tab ++ "= line" ++ newline ++
  "name" ++ tab ++ "= ab" ++ newline ++ "w" ++ tab ++ "= 01:02:ff" ++ newline ++ "p" ++ tab ++ "= #0=(1,+2) #1=(-2,+5)" ++ newline)%string).
Proof. vm_compute. reflexivity. Qed.

(** ** Texts that are not what they ought to be *)

(** A struct in an array whose text is as long as the room left, of more than the scratch
    pad, is replaced by one character less: it is cut off, and no overflow is reported. *)
Definition big (n : nat) : template :=
  mkTemplate (mkStatic (TMPL_TH_STRUCT "big") None "big" [lit (fill n "a")] 0 0 None) (mkState TMPL_TF_POPULATED 0 0 None None (-1) true) [] [].
Definition bigs (n : nat) : tmpl_attribute :=
  mkAttr (Some "bigs"%string) TY_STRUCT None (Some (mkDim TMPL_DIM_CONST 1 0)) (TMPL_AFS_IZARRAY "%s" "Z") false None None (VList [big n]) EVL_ATTR_EXISTS 0.
Definition bigs_to (n size : nat) : option (Z * Z) :=
  match evlatt_getstring fresh_store (Some (bigs n)) (Some (replicate size 0)) with
  | Done (status, Some mem) => Some (status, strlen (cstring mem))
  | _ => None
  end.
Lemma struct_text_is_cut_silently : bigs_to 4097 4097 = Some (0, 4096) /\ bigs_to 4096 4096 = Some (0, 4095) /\ bigs_to 4097 4098 = Some (0, 4097).
Proof. vm_compute. done. Qed.
(** A const struct is never populated, so that its attribute has no text, and a status. *)
Lemma const_struct_has_no_text st rec a m a' p p' f : ta_struct a = Some m -> isPopulatedTmpl m = false ->
  handleConstStructAtt a None p = Done (Some (Some a'), p') ->
  ta_value a' = VStruct m /\ formatRecordFromTemplate st (S rec) m f = Done (EINVAL, f).
Proof.
  intros Hm Hp. unfold handleConstStructAtt, need, lift. destruct (negb (isStruct a)); [done|]. rewrite Hm.
  unfold mbind, parsing_bind. cbn [reading]. destruct (negb (isConstStructTmpl m)); [done|]. destruct (negb (isConstAtt a)); [done|].
  destruct (isArray a); [done|]. intros [= <- <-]. split; [done|]. cbn [formatRecordFromTemplate]. unfold format_body. by rewrite Hp.
Qed.
(** The format of a struct may refer to an attribute of the record's header, and then the
    struct cannot be formatted: only the record's template has the header. *)
Definition stamped : template := fmaster "stamped" [fatt "x" TY_INT None None TMPL_AFS_DEFAULT None 0] [TSEG (EVL_FS_MEMBER POSIX_LOG_ENTRY_RECID None false)].
Definition with_stamp : template := fmaster "with_stamp" [fatt "s" TY_STRUCT (Some stamped) None TMPL_AFS_DEFAULT None 0] [EVL_FS_ATTR 0 None].
Definition format_of (t : template) (record : list Z) : option (outcome Z) :=
  match populated t 7 record with
  | Done (inr (t, st)) => Some (r ← evltemplate_formatrec st (Some t) (Some (replicate 20 0)); Done (fst r))
  | _ => None
  end.
Lemma struct_cannot_print_header : format_of with_stamp [1; 0; 0; 0] = Some (Fault AssertFailed) /\ format_of stamped [1; 0; 0; 0] = Some (Done 0).
Proof. vm_compute. done. Qed.
