(* ===== verification/TmplSerial.v ===== *)
(** * Template files ([lib/template/serial.c], [lib/template/serialio.inc])

    A compiled template is written to a file, from which programs read it.  A [tfile] is the image
    of the file in memory with the position in it; the read and the write function of each
    part come from one source in [serialio.inc], and stand side by side here.
    Numbers are little-endian, enumerations are [int]s. *)
From S2P Require Import Prelude NvPairs LogRecord MemStr QEvaluate LogSink RecPack Format CPrintf Dump FmtBuf FormatRec Conv Tmpl TmplPop TmplInit TmplCheck TmplFmt.

(** ** The image of a file *)

(** A struct template in memory with the file that it was read from ([tm_context]), and the table
    of them by their names ([structHash]). *)
Record struct_file := mkStructFile { sf_template : template; tc_device : Z; tc_inode : Z }.
Abbreviation struct_table := (list (list struct_file)).
(** What reading a template changes: what it allocates is in the store. *)
Record memory := mkMemory { mem_store : store; structHash : struct_table }.
(** [tf_end] is the end of [tf_buf]. *)
Record tfile := mkTfile { tf_buf : list Z; tf_next : Z; tf_errors : Z; tf_mem : memory }.
Definition tf_end (tf : tfile) : Z := Z.of_nat (length (tf_buf tf)).
Definition tio (A : Type) : Type := tfile -> outcome (A * tfile).
#[export] Instance tio_ret : MRet tio := fun A a tf => Done (a, tf).
#[export] Instance tio_bind : MBind tio := fun A B f x tf => match x tf with Done (a, tf) => f a tf | Fault e => Fault e end.
Definition io {A} (o : outcome A) : tio A := fun tf => match o with Done a => Done (a, tf) | Fault e => Fault e end.
Definition on_memory {A} (f : memory -> outcome (A * memory)) : tio A := fun tf =>
  match f (tf_mem tf) with Done (a, m) => Done (a, mkTfile (tf_buf tf) (tf_next tf) (tf_errors tf) m) | Fault e => Fault e end.
Definition on_store {A} (f : store -> outcome (A * store)) : tio A :=
  on_memory (fun m => '(a, s) ← f (mem_store m); Done (a, mkMemory s (structHash m))).
Definition count_error : tio unit := fun tf => Done (tt, mkTfile (tf_buf tf) (tf_next tf) (tf_errors tf + 1) (tf_mem tf)).

Definition tfAdvance (nBytes : Z) : tio unit := fun tf =>
  let next := tf_next tf + nBytes in
  if next <=? tf_end tf then Done (tt, mkTfile (tf_buf tf) next (tf_errors tf) (tf_mem tf)) else Fault AssertFailed.
(** The buffer grows to twice of what is needed. *)
Definition tfWrite (val : list Z) : tio unit := fun tf =>
  let newNext := tf_next tf + Z.of_nat (length val) in
  let buf := if newNext >? tf_end tf then tf_buf tf ++ replicate (Z.to_nat (2 * newNext - tf_end tf)) 0 else tf_buf tf in
  match poke buf (tf_next tf) val with
  | Some buf => Done (tt, mkTfile buf newNext (tf_errors tf) (tf_mem tf))
  | None => Fault Undefined
  end.
Definition tfRead (size : Z) : tio (list Z) := fun tf =>
  match read_mem (tf_buf tf) (tf_next tf) size with
  | Done bs => match tfAdvance size tf with Done (_, tf) => Done (bs, tf) | Fault e => Fault e end
  | Fault e => Fault e
  end.
(** The rest of the image. *)
Definition tf_rest : tio (list Z) := fun tf => Done (drop (Z.to_nat (tf_next tf)) (tf_buf tf), tf).

(** ** Scalars and strings *)

Definition writeScalar (size : nat) (z : Z) : tio unit := tfWrite (le_encode size z).
Definition readScalar (size : nat) : tio Z := bs ← tfRead (Z.of_nat size); mret (le_decode bs).
Definition writeInt : Z -> tio unit := writeScalar 4.
Definition readInt : tio Z := z ← readScalar 4; mret (s32 z).
Definition writeLong : Z -> tio unit := writeScalar 8.
Definition readLong : tio Z := z ← readScalar 8; mret (s64 z).
Definition writeString (s : str) : tio unit := tfWrite (bytes_of s ++ [0]).
(** [strdup] reads on to the next terminator. *)
Definition readString : tio str :=
  rest ← tf_rest;
  s ← io (reading (block_string rest));
  _ ← tfAdvance (strlen s + 1);
  mret s.
Definition writeStringOrNull (s : option str) : tio unit :=
  match s with
  | Some s => _ ← writeScalar 1 1; writeString s
  | None => writeScalar 1 0
  end.
Definition readStringOrNull : tio (option str) :=
  exists_ ← readScalar 1;
  if negb (exists_ =? 0) then s ← readString; mret (Some s) else mret None.
Definition writeWstring (mem : list Z) : tio unit :=
  nwc ← io (reading (wcslen mem));
  _ ← writeScalar 8 nwc;
  bs ← io (read_mem mem 0 ((nwc + 1) * WCSZ));
  tfWrite bs.
Definition readWstring : tio (list Z) := nwc ← readScalar 8; tfRead (u64 ((nwc + 1) * WCSZ)).
Definition readBuffer (size : Z) : tio (list Z) := if size <? 0 then io (Fault AssertFailed) else tfRead size.

(** ** References *)

Definition writeAttRef (i : nat) : tio unit := writeInt (Z.of_nat i).
(** An index that is none is one behind the last attribute. *)
Definition readAttRef (t : template) : tio nat :=
  i ← readInt;
  mret (if (i <? 0) || (Z.of_nat (length (tm_attributes t)) <=? i) then length (tm_attributes t) else Z.to_nat i).

Section Refs.
(** [sref->sr_template == ref] *)
Variable same_template : template -> template -> bool.
Definition writeTmplRef (ref client : template) : tio unit :=
  match list_find (fun sref => same_template sref.2 ref = true) (tm_imports client) with
  | Some (i, _) => writeInt (Z.of_nat i)
  | None => count_error
  end.
Definition readTmplRef (client : template) : tio template :=
  n ← readInt;
  match (if n <? 0 then None else tm_imports client !! Z.to_nat n) with
  | Some sref => mret sref.2
  | None => io (Fault AssertFailed)
  end.

(** ** The header *)

Definition writeHeader (t : template) : tio unit :=
  let description := th_description (tm_static t) in
  match th_type (tm_static t) with
  | TMPL_TH_EVLOG fac evty =>
      _ ← writeInt 0; _ ← writeStringOrNull description; _ ← writeInt fac; _ ← writeInt evty; writeString (tm_name (tm_static t))
  | TMPL_TH_TRACE major minor => _ ← writeInt 1; _ ← writeStringOrNull description; _ ← writeInt major; writeInt minor
  | TMPL_TH_STRUCT name => _ ← writeInt 2; _ ← writeStringOrNull description; writeString name
  end.
(** The header, the description and [tm_name]. *)
Definition readHeader : tio (tmpl_header_type * option str * str) :=
  ty ← readInt;
  description ← readStringOrNull;
  if ty =? 0 then
    fac ← readScalar 4; evty ← readInt; name ← readString; mret (TMPL_TH_EVLOG fac evty, description, name)
  else if ty =? 1 then major ← readInt; minor ← readInt; mret (TMPL_TH_TRACE major minor, description, EmptyString)
  else if ty =? 2 then name ← readString; mret (TMPL_TH_STRUCT name, description, name)
  else io (Fault Undefined).

(** ** Attributes *)

Definition base_types : list base_type :=
  [TY_NONE; TY_CHAR; TY_UCHAR; TY_SHORT; TY_USHORT; TY_INT; TY_UINT; TY_LONG; TY_ULONG; TY_LONGLONG; TY_ULONGLONG; TY_FLOAT;
   TY_DOUBLE; TY_LDOUBLE; TY_STRING; TY_WCHAR; TY_WSTRING; TY_ADDRESS; TY_STRUCT; TY_PREFIX3; TY_LIST; TY_STRUCTNAME; TY_TYPEDEF;
   TY_SPECIAL].
Definition writeAttType (a : tmpl_attribute) (t : template) : tio unit :=
  _ ← writeInt (Z.of_nat (type_index (ta_type a)));
  if isStruct a then st ← io (reading (ta_struct a)); writeTmplRef st t else mret tt.
Definition readAttType (t : template) : tio (base_type * option template) :=
  i ← readInt;
  ty ← io (match (if i <? 0 then None else base_types !! Z.to_nat i) with Some ty => Done ty | None => Fault Undefined end);
  if bool_decide (ty = TY_STRUCT) then st ← readTmplRef t; mret (ty, Some st) else mret (ty, None).

Definition dim_index (ty : tmpl_dimension_type) : Z :=
  match ty with
  | TMPL_DIM_NONE => 0 | TMPL_DIM_CONST => 1 | TMPL_DIM_IMPLIED => 2 | TMPL_DIM_REST => 3 | TMPL_DIM_ATTR _ => 4
  | TMPL_DIM_ATTNAME _ => 5 | TMPL_DIM_PREFIX3 => 6 | TMPL_DIM_BITFIELD => 7
  end.
Definition the_store : tio store := fun tf => Done (mem_store (tf_mem tf), tf).
Definition writeAttDimension (a : tmpl_attribute) : tio unit :=
  match ta_dimension a with
  | None => writeInt 0
  | Some d =>
      _ ← writeInt (dim_index (td_type d));
      match td_type d with
      | TMPL_DIM_CONST => writeInt (td_dimension d)
      | TMPL_DIM_REST | TMPL_DIM_IMPLIED => mret tt
      | TMPL_DIM_ATTR i => writeAttRef i
      | TMPL_DIM_ATTNAME name => writeString name
      | TMPL_DIM_BITFIELD => _ ← writeInt (td_dimension d); st ← the_store; writeInt (td_dimension2 st d)
      | _ => io (Fault AssertFailed)
      end
  end.
Definition new_dimension (ty : tmpl_dimension_type) (dim dim2 : Z) : tio (option tmpl_dimension) :=
  d ← on_store (fun s => Done (alloc_dimension s ty dim dim2)); mret (Some d).
Definition readAttDimension (t : template) (flags : Z) : tio (option tmpl_dimension) :=
  ty ← readInt;
  if ty =? 0 then mret None
  else if ty =? 1 then dim ← readInt; new_dimension TMPL_DIM_CONST dim (if has flags EVL_ATTR_CONST then dim else 0)
  else if ty =? 2 then new_dimension TMPL_DIM_IMPLIED 0 0
  else if ty =? 3 then new_dimension TMPL_DIM_REST 0 0
  else if ty =? 4 then i ← readAttRef t; new_dimension (TMPL_DIM_ATTR i) 0 0
  else if ty =? 5 then
    name ← readString;
    _ ← (match _evlTmplFindAttribute t name with
         | Some dimAtt => if isIntegerAtt dimAtt then mret tt else count_error
         | None => count_error
         end);
    new_dimension (TMPL_DIM_ATTNAME name) 0 0
  else if ty =? 7 then dim ← readInt; dim2 ← readInt; new_dimension TMPL_DIM_BITFIELD dim dim2
  else io (Fault AssertFailed).

Definition fmt_index (f : tmpl_att_fmt) : Z :=
  match f with
  | TMPL_AFS_DEFAULT => 0 | TMPL_AFS_TBD _ => 1 | TMPL_AFS_SCALAR _ => 2 | TMPL_AFS_DUMP => 3 | TMPL_AFS_BITMAP _ => 4
  | TMPL_AFS_VALNM _ => 5 | TMPL_AFS_ARRAY _ _ => 6 | TMPL_AFS_IZARRAY _ _ => 7 | TMPL_AFS_CHARRSTR _ => 8
  end.
Fixpoint write_bitmaps (l : list tmpl_bitmap) : tio unit :=
  match l with
  | [] => mret tt
  | b :: l => _ ← writeLong (bm_1bits b); _ ← writeLong (bm_0bits b); _ ← writeString (bm_name b); write_bitmaps l
  end.
Fixpoint read_bitmaps (n : nat) : tio (list tmpl_bitmap) :=
  match n with
  | O => mret []
  | S n => ones ← readLong; zeros ← readLong; name ← readString; l ← read_bitmaps n; mret (mkBitmap ones zeros name :: l)
  end.
Definition writeAttFormat (a : tmpl_attribute) : tio unit :=
  _ ← writeInt (fmt_index (ta_format a));
  match ta_format a with
  | TMPL_AFS_SCALAR fmt | TMPL_AFS_ARRAY fmt _ | TMPL_AFS_CHARRSTR fmt => writeString fmt
  | TMPL_AFS_IZARRAY fmt izorder => _ ← writeString fmt; tfWrite (take 3 (bytes_of izorder ++ [0; 0; 0]))
  | TMPL_AFS_BITMAP bitmaps | TMPL_AFS_VALNM bitmaps => _ ← writeInt (Z.of_nat (length bitmaps)); write_bitmaps bitmaps
  | _ => mret tt
  end.
(** A format of an unknown kind is left without a text. *)
Definition readAttFormat : tio tmpl_att_fmt :=
  ty ← readInt;
  if ty =? 0 then mret TMPL_AFS_DEFAULT
  else if ty =? 2 then fmt ← readString; mret (TMPL_AFS_SCALAR fmt)
  else if ty =? 3 then mret TMPL_AFS_DUMP
  else if ty =? 4 then n ← readInt; l ← read_bitmaps (Z.to_nat n); mret (TMPL_AFS_BITMAP l)
  else if ty =? 5 then n ← readInt; l ← read_bitmaps (Z.to_nat n); mret (TMPL_AFS_VALNM l)
  else if ty =? 6 then fmt ← readString; mret (TMPL_AFS_ARRAY fmt EmptyString)
  else if ty =? 7 then fmt ← readString; izorder ← tfRead 3; mret (TMPL_AFS_IZARRAY fmt (cstring izorder))
  else if ty =? 8 then fmt ← readString; mret (TMPL_AFS_CHARRSTR fmt)
  else mret (TMPL_AFS_TBD EmptyString).

Definition delim_index (ty : tmpl_delim_type) : Z :=
  match ty with TMPL_DELIM_NONE => 0 | TMPL_DELIM_CONST _ => 1 | TMPL_DELIM_ATTR _ => 2 | TMPL_DELIM_ATTNAME _ => 3 end.
Definition writeAttDelimiter (a : tmpl_attribute) : tio unit :=
  if negb (isArray a) then mret tt
  else match ta_delimiter a with
  | None => writeInt 0
  | Some de =>
      _ ← writeInt (delim_index (de_type de));
      match de_type de with
      | TMPL_DELIM_CONST s => writeString s
      | TMPL_DELIM_ATTR i => writeAttRef i
      | TMPL_DELIM_ATTNAME name => writeString name
      | TMPL_DELIM_NONE => io (Fault AssertFailed)
      end
  end.
Definition new_delimiter (ty : tmpl_delim_type) : tio (option tmpl_delimiter) :=
  d ← on_store (fun s => Done (alloc_delimiter s ty None)); mret (Some d).
(** [array] says that the attribute that is read is one. *)
Definition readAttDelimiter (t : template) (array : bool) : tio (option tmpl_delimiter) :=
  if negb array then mret None
  else
    ty ← readInt;
    if ty =? 0 then mret None
    else if ty =? 1 then s ← readString; new_delimiter (TMPL_DELIM_CONST s)
    else if ty =? 2 then i ← readAttRef t; new_delimiter (TMPL_DELIM_ATTR i)
    else if ty =? 3 then name ← readString; new_delimiter (TMPL_DELIM_ATTNAME name)
    else io (Fault AssertFailed).

(** ** Constant values *)

(** The dimension that a const array got where its struct was initialized. *)
Definition writeConstAttDimension (a : tmpl_attribute) : tio Z :=
  d ← io (match ta_dimension a with Some d => Done d | None => Fault AssertFailed end);
  _ ← (if has (ta_flags a) EVL_ATTR_IMPLDIM then writeInt (td_dimension d) else mret tt);
  mret (td_dimension d).
(** The dimension object is changed in place: the attribute with it, and the number. *)
Definition readConstAttDimension (a : tmpl_attribute) : tio (tmpl_attribute * Z) :=
  d ← io (match ta_dimension a with Some d => Done d | None => Fault AssertFailed end);
  if has (ta_flags a) EVL_ATTR_IMPLDIM then
    dim ← readInt;
    _ ← on_store (fun s => Done (tt, set_dimension2 s d dim));
    mret (set_dim a TMPL_DIM_CONST dim d, dim)
  else mret (a, td_dimension d).
Definition zeros (n : nat) : list Z := replicate n 0.
(** The 16 bytes of the union [ta_value]; a [float] is kept there as a [double]. *)
Definition union_bytes (ty : base_type) (v : tmpl_value template) : outcome (list Z) :=
  match v with
  | VInt z => Done (le_encode 8 z ++ zeros 8)
  | VReal bs =>
      Done (match ty with
            | TY_FLOAT => widen_float bs ++ zeros 8
            | TY_DOUBLE => take 8 (bs ++ zeros 8) ++ zeros 8
            | _ => take 16 (bs ++ zeros 16)
            end)
  | VNone => Done (zeros 16)
  | _ => Fault Undefined
  end.
Definition union_value (ty : base_type) (bs : list Z) : outcome (tmpl_value template) :=
  if isInteger ty then Done (VInt (wrap_int ty (le_decode (take 8 bs))))
  else match ty with
  | TY_FLOAT => Done (VReal (double_to_float (take 8 bs)))
  | TY_DOUBLE => Done (VReal (take 8 bs))
  | TY_LDOUBLE => Done (VReal bs)
  | _ => Fault Undefined
  end.
(** The bytes of [nel] elements at [arr]. *)
Definition array_size (ty : base_type) (nel : Z) (arr : list Z) : outcome Z :=
  match ty with
  | TY_STRING => chars_of_strings (S (length arr)) 1 (Z.to_nat nel) arr
  | TY_WSTRING => k ← chars_of_strings (S (length arr)) 4 (Z.to_nat nel) arr; Done (4 * k)
  | _ => Done (nel * type_size ty)
  end.

Section Write.
(** [writeAttValue] on the members of structs. *)
Variable write_value : tmpl_attribute -> tio unit.
Definition const_member (a : tmpl_attribute) : tmpl_attribute :=
  set_ta_flags a (set_flag (ta_flags a) (set_flag EVL_ATTR_CONST EVL_ATTR_EXISTS)).
Fixpoint write_members (l : list tmpl_attribute) : tio unit :=
  match l with
  | [] => mret tt
  | a :: l => _ ← write_value (const_member a); write_members l
  end.
Definition writeConstStruct (t : template) : tio unit := write_members (tm_attributes t).
Fixpoint write_structs (l : list template) : tio unit :=
  match l with
  | [] => mret tt
  | t :: l => _ ← writeConstStruct t; write_structs l
  end.
Definition write_value_body (a : tmpl_attribute) : tio unit :=
  if negb (isConstAtt a) then mret tt
  else if isStruct a then
    master ← io (reading (ta_struct a));
    if isArray a then
      _ ← writeConstAttDimension a;
      match ta_value a with VList l => write_structs l | _ => mret tt end
    else if isConstStructTmpl master then mret tt
    else match ta_value a with VStruct t => writeConstStruct t | _ => io (Fault WildRead) end
  else if isArray a then
    nel ← writeConstAttDimension a;
    mem ← io (match ta_value a with VArray _ mem => Done mem | _ => Fault WildRead end);
    size ← io (array_size (ta_type a) nel mem);
    bs ← io (read_mem mem 0 size);
    tfWrite bs
  else match ta_type a with
  | TY_STRING => s ← io (match ta_value a with VString s => Done s | _ => Fault WildRead end); writeString s
  | TY_WSTRING => ws ← io (match ta_value a with VWstring ws => Done ws | _ => Fault WildRead end); writeWstring ws
  | ty => bs ← io (union_bytes ty (ta_value a)); tfWrite bs
  end.
End Write.
(** The nesting of structs is enough fuel. *)
Fixpoint writeAttValue (fuel : nat) (a : tmpl_attribute) : tio unit :=
  match fuel with
  | O => io (Fault OutOfFuel)
  | S fuel => write_value_body (writeAttValue fuel) a
  end.

Section Read.
Variable read_value : tmpl_attribute -> tio tmpl_attribute.
Fixpoint read_members (l : list tmpl_attribute) : tio (list tmpl_attribute) :=
  match l with
  | [] => mret []
  | a :: l => a ← read_value (const_member a); l ← read_members l; mret (a :: l)
  end.
Definition readConstStruct (t : template) : tio template :=
  l ← read_members (tm_attributes t);
  mret (or_tm_flags TMPL_TF_POPULATED (set_attributes t l)).
Definition read_struct (master : template) : tio template := t ← on_store (_evlCloneTemplate master); readConstStruct t.
Fixpoint read_structs (n : nat) (master : template) : tio (list template) :=
  match n with
  | O => mret []
  | S n => t ← read_struct master; l ← read_structs n master; mret (t :: l)
  end.
Definition read_value_body (a : tmpl_attribute) : tio tmpl_attribute :=
  if negb (isConstAtt a) then mret a
  else if isStruct a then
    master ← io (reading (ta_struct a));
    if isArray a then
      '(a, nel) ← readConstAttDimension a;
      l ← read_structs (Z.to_nat nel) master;
      mret (set_ta_value a (VList l))
    else if isConstStructTmpl master then mret (set_ta_value a (VStruct master))
    else t ← read_struct master; mret (set_ta_value a (VStruct t))
  else if isArray a then
    '(a, nel) ← readConstAttDimension a;
    arr ← tf_rest;
    size ← io (array_size (ta_type a) nel arr);
    mem ← readBuffer size;
    mret (set_ta_value a (VArray true mem))
  else match ta_type a with
  | TY_STRING => s ← readString; mret (set_ta_value a (VString s))
  | TY_WSTRING => ws ← readWstring; mret (set_ta_value a (VWstring ws))
  | ty => bs ← tfRead 16; v ← io (union_value ty bs); mret (set_ta_value a v)
  end.
End Read.
Fixpoint readAttValue (fuel : nat) (a : tmpl_attribute) : tio tmpl_attribute :=
  match fuel with
  | O => io (Fault OutOfFuel)
  | S fuel => read_value_body (readAttValue fuel) a
  end.
(** How deep structs are nested in an attribute. *)
Definition value_fuel (a : tmpl_attribute) : nat := S (att_nesting a).

(** ** Attributes and formats *)

(** The dimension goes to the file twice. *)
Definition writeAttribute (a : tmpl_attribute) (t : template) : tio unit :=
  _ ← writeStringOrNull (ta_name a);
  _ ← writeInt (ta_flags a);
  _ ← writeAttType a t;
  _ ← writeAttDimension a;
  _ ← writeAttDelimiter a;
  _ ← writeAttFormat a;
  _ ← writeAttDimension a;
  writeAttValue (value_fuel a) a.
Definition readAttribute (t : template) (index : nat) : tio tmpl_attribute :=
  name ← readStringOrNull;
  flags ← readScalar 4;
  '(ty, st) ← readAttType t;
  dim ← readAttDimension t flags;
  delim ← readAttDelimiter t (bool_decide (is_Some dim) && negb (has flags EVL_ATTR_BITFIELD));
  fmt ← readAttFormat;
  dim ← readAttDimension t flags;
  let a := mkAttr name ty st dim fmt false delim None VNone flags index in
  readAttValue (value_fuel a) a.
Fixpoint write_attributes (l : list tmpl_attribute) (t : template) : tio unit :=
  match l with
  | [] => mret tt
  | a :: l => _ ← writeAttribute a t; write_attributes l t
  end.
Definition writeAttributes (t : template) : tio unit :=
  _ ← writeInt (Z.of_nat (length (tm_attributes t))); write_attributes (tm_attributes t) t.
Fixpoint read_attributes (n : nat) (i : nat) (t : template) : tio template :=
  match n with
  | O => mret t
  | S n => a ← readAttribute t i; read_attributes n (S i) (set_attributes t (tm_attributes t ++ [a]))
  end.
Definition readAttributes (t : template) : tio template := n ← readInt; read_attributes (Z.to_nat n) O t.

Definition writeFmtSegment (fs : tmpl_segment) : tio unit :=
  match fs with
  | TSEG (EVL_FS_STRING s) => _ ← writeInt 0; writeString s
  | TSEG (EVL_FS_MEMBER m userfmt _) => _ ← writeInt 1; _ ← writeInt m; writeStringOrNull userfmt
  | TSEG (EVL_FS_ATTNAME name userfmt _) => _ ← writeInt 2; _ ← writeString name; writeStringOrNull userfmt
  | EVL_FS_ATTR i userfmt => _ ← writeInt 3; _ ← writeAttRef i; writeStringOrNull userfmt
  | TSEG _ => io (Fault AssertFailed)
  end.
(** [fs_stringfmt] is neither read nor set: it has what was in the memory. *)
Variable uninitialized : bool.
Definition readFmtSegment (t : template) : tio tmpl_segment :=
  ty ← readInt;
  if ty =? 0 then s ← readString; mret (TSEG (EVL_FS_STRING s))
  else if ty =? 1 then m ← readInt; userfmt ← readStringOrNull; mret (TSEG (EVL_FS_MEMBER m userfmt uninitialized))
  else if ty =? 2 then name ← readString; userfmt ← readStringOrNull; mret (TSEG (EVL_FS_ATTNAME name userfmt uninitialized))
  else if ty =? 3 then i ← readAttRef t; userfmt ← readStringOrNull; mret (EVL_FS_ATTR i userfmt)
  else io (Fault AssertFailed).
Fixpoint write_segments (l : list tmpl_segment) : tio unit :=
  match l with
  | [] => mret tt
  | fs :: l => _ ← writeFmtSegment fs; write_segments l
  end.
Definition writeTmplFormat (t : template) : tio unit :=
  let l := tm_parsed_format (tm_static t) in _ ← writeInt (Z.of_nat (length l)); write_segments l.
Fixpoint read_segments (n : nat) (t : template) : tio (list tmpl_segment) :=
  match n with
  | O => mret []
  | S n => fs ← readFmtSegment t; l ← read_segments n t; mret (fs :: l)
  end.
Definition readTmplFormat (t : template) : tio template :=
  n ← readInt; l ← read_segments (Z.to_nat n) t; mret (set_parsed_format l t).

(** ** Redirections and imports *)

Definition writeRedirectedAtt (ra : option redirectedAttribute) : tio unit :=
  match ra with
  | None | Some TMPL_RD_NONE => writeInt 0
  | Some (TMPL_RD_CONST code) => _ ← writeInt 1; writeInt code
  | Some (TMPL_RD_ATTNAME name) => _ ← writeInt 2; writeString name
  end.
(** A facility code is unsigned; an event type is not. *)
Definition readRedirectedAtt (facility : bool) : tio (option redirectedAttribute) :=
  ty ← readInt;
  if ty =? 0 then mret None
  else if ty =? 1 then code ← readScalar 4; mret (Some (TMPL_RD_CONST (if facility then code else s32 code)))
  else if ty =? 2 then name ← readString; mret (Some (TMPL_RD_ATTNAME name))
  else mret (Some TMPL_RD_NONE).
Definition writeTmplRedirection (t : template) : tio unit :=
  rd ← io (reading (tm_redirection (tm_static t)));
  _ ← writeRedirectedAtt (rd_fac rd);
  writeRedirectedAtt (rd_evtype rd).
Definition set_redirection (rd : option tmpl_redirection) (t : template) : template :=
  let s := tm_static t in
  set_static t (mkStatic (th_type s) (th_description s) (tm_name s) (tm_parsed_format s) (tm_alignment s) (tm_minsize s) rd).
Definition readTmplRedirection (t : template) : tio template :=
  fac ← readRedirectedAtt true;
  evty ← readRedirectedAtt false;
  mret (set_redirection (Some (mkRedir fac evty)) t).

(** [_evlImportTemplate(tf->tf_dir, structPath, TMPL_IMPORT_BINARY)] *)
Variable import : str -> memory -> outcome (option template * memory).
Fixpoint write_refs (l : list (str * template)) : tio unit :=
  match l with
  | [] => mret tt
  | sref :: l => _ ← writeString sref.1; write_refs l
  end.
Definition writeTemplateRefs (t : template) : tio unit :=
  _ ← writeInt (Z.of_nat (length (tm_imports t))); write_refs (tm_imports t).
(** A struct that cannot be imported is an error, and no reference. *)
Fixpoint read_refs (n : nat) : tio (list (str * template)) :=
  match n with
  | O => mret []
  | S n =>
      structPath ← readString;
      st ← on_memory (import structPath);
      match st with
      | None => _ ← count_error; read_refs n
      | Some st => l ← read_refs n; mret ((structPath, st) :: l)
      end
  end.
Definition readTemplateRefs : tio (list (str * template)) := n ← readInt; read_refs (Z.to_nat n).

(** ** Templates *)

Definition TMPL_MAGIC : Z := 0xfeedf00d.
Definition writeTemplate (t : template) : tio unit :=
  _ ← writeInt TMPL_MAGIC;
  _ ← writeHeader t;
  _ ← writeInt (tm_flags (tm_state t));
  _ ← writeScalar 2 (tm_alignment (tm_static t));
  _ ← writeScalar 2 (tm_minsize (tm_static t));
  _ ← writeTemplateRefs t;
  _ ← writeAttributes t;
  _ ← (if isRedirectTmpl t then writeTmplRedirection t else mret tt);
  writeTmplFormat t.
Definition errors_so_far : tio Z := fun tf => Done (tf_errors tf, tf).
Definition readTemplate : tio template :=
  magic ← readScalar 4;
  _ ← io (assert (magic =? TMPL_MAGIC));
  '(ty, description, name) ← readHeader;
  flags ← readScalar 4;
  let flags := set_flag flags TMPL_TF_IMPORTED in
  alignment ← readScalar 2;
  minsize ← readScalar 2;
  refs ← readTemplateRefs;
  let t := mkTemplate (mkStatic ty description name [] (s16 alignment) (s16 minsize) None) (mkState flags 0 0 None None (-1) false) [] refs in
  errors ← errors_so_far;
  if negb (errors =? 0) then mret t
  else
    t ← readAttributes t;
    t ← (if isRedirectTmpl t then readTmplRedirection t else mret t);
    readTmplFormat t.

(** ** Files *)

Definition allocTfile (buf : list Z) (m : memory) : tfile := mkTfile buf 0 0 m.
Definition image (tf : tfile) : list Z := take (Z.to_nat (tf_next tf)) (tf_buf tf).
(** The status and what is written to the file; [opened] says that it can be opened, and
    [write] how much of a buffer is written. *)
Definition _evlWriteTemplate (t : template) (m : memory) (opened : bool) (write : Z -> Z) : outcome (Z * list Z) :=
  '(_, tf) ← writeTemplate t (allocTfile (replicate 1000 0) m);
  if negb opened then Done (-1, [])
  else
    let fileSize := Z.of_nat (length (image tf)) in
    _ ← assert (write fileSize =? fileSize);
    Done (0, image tf).
(** The template in a file, or [None] if the file is not there, is no template or has errors. *)
Definition _evlReadTemplate (file : option (list Z)) (m : memory) : outcome (option template * memory) :=
  match file with
  | None => Done (None, m)
  | Some bytes =>
      if (length bytes <? 4)%nat || negb (le_decode (take 4 bytes) =? TMPL_MAGIC) then Done (None, m)
      else
        '(t, tf) ← readTemplate (allocTfile bytes m);
        Done (if tf_errors tf =? 0 then Some t else None, tf_mem tf)
  end.
End Refs.
