(* ===== verification/TmplSerialCorrect.v ===== *)
(** * A template file keeps the template

    What is written to a file is read back.  Each part is carried by the file: its writer
    appends bytes from which its reader makes the part again, whatever is around them; parts
    that follow each other are carried if each is.  The file keeps a template but for
    addresses and for what is computed anew when a record is read ([stripped]). *)
From S2P Require Import Prelude NvPairs LogRecord FacNames MemStr QEvaluate LogSink RecPack Format CPrintf Dump FmtBuf FormatRec Conv Tmpl TmplPop TmplInit TmplCheck TmplTyping TmplFmt TmplSerial.

(** ** Writing and reading *)

Section Carried.
(** The memory while the file is written, and what is true of the struct templates in memory. *)
Variable st : memory.
Variable inv : struct_table -> Prop.
Hypothesis st_inv : inv (structHash st).
(** [w] appends [bs]. *)
Definition W (w : tio unit) (bs : list Z) : Prop := forall buf next errs, 0 <= next <= Z.of_nat (length buf) ->
  exists buf', w (mkTfile buf next errs st) = Done (tt, mkTfile buf' (next + Z.of_nat (length bs)) errs st) /\
    next + Z.of_nat (length bs) <= Z.of_nat (length buf') /\
    take (Z.to_nat next + length bs) buf' = take (Z.to_nat next) buf ++ bs.
(** [r] makes something of [bs], without an error. *)
Definition R {A} (r : tio A) (bs : list Z) (P : A -> Prop) : Prop := forall buf next s rest,
  0 <= next <= Z.of_nat (length buf) -> drop (Z.to_nat next) buf = bs ++ rest -> inv (structHash s) ->
  exists a s', r (mkTfile buf next 0 s) = Done (a, mkTfile buf (next + Z.of_nat (length bs)) 0 s') /\ inv (structHash s') /\ P a.
Definition carried {A} (w : tio unit) (r : tio A) (P : A -> Prop) : Prop := exists bs, W w bs /\ R r bs P.

Lemma W_nothing : W (mret tt) [].
Proof. intros buf next errs Hn. exists buf. cbn [length]. rewrite Z.add_0_r, Nat.add_0_r, app_nil_r. split; [done|]. split; [lia|done]. Qed.
Lemma W_seq w1 w2 b1 b2 : W w1 b1 -> W w2 b2 -> W (_ ← w1; w2) (b1 ++ b2).
Proof.
  intros H1 H2 buf next errs Hn. destruct (H1 buf next errs Hn) as (buf1 & E1 & Hl1 & T1).
  destruct (H2 buf1 (next + Z.of_nat (length b1)) errs ltac:(lia)) as (buf2 & E2 & Hl2 & T2).
  exists buf2. unfold mbind, tio_bind. rewrite E1, E2, length_app. split; [do 2 f_equal; f_equal; lia|]. split; [lia|].
  replace (Z.to_nat next + (length b1 + length b2))%nat with (Z.to_nat (next + Z.of_nat (length b1)) + length b2)%nat by lia. rewrite T2.
  replace (Z.to_nat (next + Z.of_nat (length b1))) with (Z.to_nat next + length b1)%nat by lia. by rewrite T1, <-app_assoc.
Qed.
Lemma W_bytes bs : W (tfWrite bs) bs.
Proof.
  intros buf next errs Hn. unfold tfWrite, tf_end. cbn [tf_buf tf_next tf_errors tf_mem].
  set (buf' := if _ >? _ then _ else _). assert (Hl : next + Z.of_nat (length bs) <= Z.of_nat (length buf') /\ take (Z.to_nat next) buf' = take (Z.to_nat next) buf).
  { unfold buf'. rewrite Z.gtb_ltb. destruct (Z.ltb_spec (Z.of_nat (length buf)) (next + Z.of_nat (length bs))); [|split; [lia|done]].
    rewrite length_app, length_replicate, take_app_le by lia. split; [lia|done]. }
  destruct Hl as [Hl Ht]. rewrite poke_ok by lia. eexists. split; [done|]. split.
  - rewrite !length_app, length_take, length_drop. lia.
  - rewrite app_assoc, take_app_le by (rewrite length_app, length_take; lia).
    rewrite take_ge by (rewrite length_app, length_take; lia). by rewrite Ht.
Qed.
Lemma W_det w b1 b2 : W w b1 -> W w b2 -> b1 = b2.
Proof.
  intros H1 H2. destruct (H1 [] 0 0 ltac:(cbn; lia)) as (buf1 & E1 & _ & T1). destruct (H2 [] 0 0 ltac:(cbn; lia)) as (buf2 & E2 & _ & T2).
  rewrite E1 in E2. injection E2 as -> Hl. change (take (length b1) buf2 = b1) in T1. change (take (length b2) buf2 = b2) in T2. assert (length b1 = length b2) as El by lia.
  rewrite El in T1. congruence.
Qed.
Lemma R_some {A} (r : tio A) bs P : R r bs P -> exists a, P a.
Proof.
  intros H1. destruct (H1 bs 0 st [] ltac:(lia) ltac:(by rewrite app_nil_r) st_inv) as (a & s' & _ & _ & Ha). by exists a.
Qed.
Lemma R_ret {A} (a : A) (P : A -> Prop) : P a -> R (mret a) [] P.
Proof. intros Ha buf next s rest Hn E Hs. exists a, s. cbn [length]. by rewrite Z.add_0_r. Qed.
Lemma R_bind {A B} (r : tio A) (k : A -> tio B) b1 b2 P Q : R r b1 P -> (forall a, P a -> R (k a) b2 Q) -> R (r ≫= k) (b1 ++ b2) Q.
Proof.
  intros H1 H2 buf next s rest Hn E Hs. rewrite <-app_assoc in E. destruct (H1 buf next s _ Hn E Hs) as (a & s1 & E1 & Hs1 & Ha).
  assert (Hlen : Z.of_nat (length buf) = next + Z.of_nat (length b1 + length (b2 ++ rest))).
  { apply (f_equal length) in E. rewrite length_drop, length_app in E. lia. }
  assert (E' : drop (Z.to_nat (next + Z.of_nat (length b1))) buf = b2 ++ rest).
  { replace (Z.to_nat (next + Z.of_nat (length b1))) with (Z.to_nat next + length b1)%nat by lia.
    by rewrite <-drop_drop, E, drop_app_length. }
  destruct (H2 a Ha buf (next + Z.of_nat (length b1)) s1 rest ltac:(lia) E' Hs1) as (b & s2 & E2 & Hs2 & Hb). exists b, s2. unfold mbind, tio_bind. rewrite E1, E2, length_app.
  split; [|done]. do 2 f_equal. f_equal. lia.
Qed.
Lemma R_impl {A} (r : tio A) bs (P Q : A -> Prop) : R r bs P -> (forall a, P a -> Q a) -> R r bs Q.
Proof.
  intros H1 H2 buf next s rest Hn E Hs. destruct (H1 buf next s rest Hn E Hs) as (a & s' & Ea & Hs' & Ha). exists a, s'. auto.
Qed.
Lemma R_bytes bs : R (tfRead (Z.of_nat (length bs))) bs (fun a => a = bs).
Proof.
  intros buf next s rest Hn E Hs. exists bs, s. split; [|done].
  assert (Hlen : Z.of_nat (length buf) = next + Z.of_nat (length bs + length rest)).
  { apply (f_equal length) in E. rewrite length_drop, length_app in E. lia. }
  unfold tfRead, read_mem. cbn [tf_buf tf_next]. rewrite (proj2 (Z.leb_le 0 next)), (proj2 (Z.leb_le _ _)) by lia. cbn [andb].
  rewrite E, Nat2Z.id, take_app_length. unfold tfAdvance, tf_end. cbn [tf_buf tf_next tf_errors tf_mem]. by rewrite (proj2 (Z.leb_le _ _)) by lia.
Qed.
Lemma R_memory {A} (f : memory -> outcome (A * memory)) (P : A -> Prop) : (forall m, inv (structHash m) -> exists a m', f m = Done (a, m') /\ inv (structHash m') /\ P a) -> R (on_memory f) [] P.
Proof.
  intros Hf buf next s rest Hn E Hs. destruct (Hf s Hs) as (a & s' & Ea & Hs' & Ha). exists a, s'. unfold on_memory. cbn [tf_mem]. rewrite Ea.
  cbn [length]. by rewrite Z.add_0_r.
Qed.
Lemma R_store {A} (f : store -> outcome (A * store)) (P : A -> Prop) : (forall s, exists a s', f s = Done (a, s') /\ P a) -> R (on_store f) [] P.
Proof.
  intros Hf. apply R_memory. intros [s h] Hh. destruct (Hf s) as (a & s' & Ea & Ha). exists a, (mkMemory s' h). cbn [mem_store structHash]. by rewrite Ea.
Qed.
Lemma R_io {A} (o : outcome A) a (P : A -> Prop) : o = Done a -> P a -> R (io o) [] P.
Proof. intros -> Ha buf next s rest Hn E Hs. exists a, s. cbn [length]. by rewrite Z.add_0_r. Qed.
Lemma W_io w (o : outcome unit) bs : o = Done tt -> W w bs -> W (_ ← io o; w) bs.
Proof. intros ->. done. Qed.

(** Parts that follow each other. *)
Lemma carried_seq {A B} w1 w2 (r : tio A) (k : A -> tio B) P Q :
  carried w1 r P -> (forall a, P a -> carried w2 (k a) Q) -> carried (_ ← w1; w2) (r ≫= k) Q.
Proof.
  intros (b1 & W1 & R1) H2. destruct (R_some _ _ _ R1) as [a0 Ha0]. destruct (H2 a0 Ha0) as (b2 & W2 & _).
  exists (b1 ++ b2). split; [by apply W_seq|]. apply (R_bind _ _ _ _ P); [done|]. intros a Ha. destruct (H2 a Ha) as (b2' & W2' & R2).
  by rewrite (W_det _ _ _ W2 W2').
Qed.
Lemma carried_map {A B} w (r : tio A) (k : A -> tio B) P Q :
  carried w r P -> (forall a, P a -> R (k a) [] Q) -> carried w (r ≫= k) Q.
Proof. intros (b & Hw & Hr) H2. exists b. split; [done|]. rewrite <-(app_nil_r b). by apply (R_bind _ _ _ _ P). Qed.
Lemma carried_impl {A} w (r : tio A) (P Q : A -> Prop) : carried w r P -> (forall a, P a -> Q a) -> carried w r Q.
Proof. intros (b & Hw & Hr) H2. exists b. split; [done|]. by apply (R_impl _ _ P). Qed.
Lemma carried_ret {A} (a : A) (P : A -> Prop) : P a -> carried (mret tt) (mret a) P.
Proof. exists []. split; [apply W_nothing|by apply R_ret]. Qed.
Lemma carried_last {A B} w (r : tio A) (f : A -> B) P (Q : B -> Prop) :
  carried w r P -> (forall a, P a -> Q (f a)) -> carried w (a ← r; mret (f a)) Q.
Proof. intros Hc Hq. apply (carried_map _ _ _ P); [done|]. intros a Ha. by apply R_ret, Hq. Qed.

(** ** Scalars and strings *)

Lemma carried_bytes bs : carried (tfWrite bs) (tfRead (Z.of_nat (length bs))) (fun a => a = bs).
Proof. exists bs. split; [apply W_bytes|apply R_bytes]. Qed.
Lemma carried_scalar n z : carried (writeScalar n z) (readScalar n) (fun a => a = z mod 256 ^ Z.of_nat n).
Proof.
  unfold writeScalar, readScalar. pose proof (carried_bytes (le_encode n z)) as Hc. rewrite length_le_encode in Hc.
  apply (carried_last _ _ _ (fun a => a = le_encode n z)); [done|]. intros a ->. apply le_decode_encode.
Qed.
Lemma carried_u32 z : in_unsigned 32 z -> carried (writeInt z) (readScalar 4) (fun a => a = z).
Proof. intros Hz. apply (carried_impl _ _ _ _ (carried_scalar 4 z)). intros a ->. by apply Z.mod_small. Qed.
Lemma carried_int z : in_signed 32 z -> carried (writeInt z) readInt (fun a => a = z).
Proof.
  intros Hz. apply (carried_last _ _ _ _ _ (carried_scalar 4 z)). intros a ->.
  change (z mod 256 ^ Z.of_nat 4) with (unsigned 32 z). rewrite signed_unsigned by lia. by apply signed_id.
Qed.
Lemma carried_long z : in_signed 64 z -> carried (writeLong z) readLong (fun a => a = z).
Proof.
  intros Hz. apply (carried_last _ _ _ _ _ (carried_scalar 8 z)). intros a ->.
  change (z mod 256 ^ Z.of_nat 8) with (unsigned 64 z). rewrite signed_unsigned by lia. by apply signed_id.
Qed.
Lemma carried_nat n : Z.of_nat n < 2 ^ 31 -> carried (writeInt (Z.of_nat n)) readInt (fun a => a = Z.of_nat n).
Proof. intros Hn. apply carried_int. unfold in_signed. lia. Qed.
Lemma block_string_app s rest : no_nul s = true -> block_string ((bytes_of s ++ [0]) ++ rest) = Some s.
Proof.
  intros Hs. unfold block_string. rewrite <-app_assoc. cbn [app]. rewrite bool_decide_true; [by rewrite cstring_bytes_of|].
  apply elem_of_app. right. apply list_elem_of_here.
Qed.
Lemma carried_string s : no_nul s = true -> carried (writeString s) readString (fun a => a = s).
Proof.
  intros Hs. exists (bytes_of s ++ [0]). split; [apply W_bytes|]. intros buf next st' rest Hn E Hst. exists s, st'. split; [|done].
  assert (Hlen : Z.of_nat (length buf) = next + Z.of_nat (length (bytes_of s ++ [0]) + length rest)).
  { apply (f_equal length) in E. rewrite length_drop, length_app in E. lia. }
  unfold readString, tf_rest, mbind, tio_bind. cbn [tf_buf tf_next]. rewrite E, block_string_app by done. cbn [reading io].
  unfold tfAdvance, tf_end. cbn [tf_buf tf_next tf_errors tf_mem].
  assert (Z.of_nat (length (bytes_of s ++ [0])) = strlen s + 1) as El by (rewrite length_app, length_bytes_of; cbn [length]; unfold strlen; lia).
  rewrite El. rewrite (proj2 (Z.leb_le _ _)) by lia. done.
Qed.
Definition clean (s : option str) : bool := match s with Some s => no_nul s | None => true end.
Lemma carried_string_or_null s : clean s = true -> carried (writeStringOrNull s) readStringOrNull (fun a => a = s).
Proof.
  intros Hs. unfold readStringOrNull. destruct s as [s|]; cbn [writeStringOrNull].
  - apply (carried_seq _ _ _ _ (fun a => a = 1)); [apply (carried_scalar 1 1)|]. intros a ->. cbn [Z.eqb negb].
    apply (carried_last _ _ _ _ _ (carried_string s Hs)). by intros a ->.
  - apply (carried_map _ _ _ (fun a => a = 0)); [apply (carried_scalar 1 0)|]. intros a ->. by apply R_ret.
Qed.
Lemma carried_index i n : (i < n)%nat -> Z.of_nat n < 2 ^ 31 -> forall t, length (tm_attributes t) = n -> carried (writeAttRef i) (readAttRef t) (fun a => a = i).
Proof.
  intros Hi Hn t Ht. unfold writeAttRef, readAttRef. apply (carried_last _ _ _ (fun a => a = Z.of_nat i)); [apply carried_nat; lia|].
  intros a ->. rewrite (proj2 (Z.ltb_ge _ _)), (proj2 (Z.leb_gt _ _)) by lia. cbn [orb]. apply Nat2Z.id.
Qed.

(** ** What a file keeps *)

Definition strip_dim (d : tmpl_dimension) : tmpl_dimension :=
  mkDim (td_type d) (match td_type d with TMPL_DIM_CONST | TMPL_DIM_BITFIELD => td_dimension d | _ => 0 end) 0.
Definition strip_delim (d : tmpl_delimiter) : tmpl_delimiter := mkDelim (de_type d) 0.
Definition strip_fmt (f : tmpl_att_fmt) : tmpl_att_fmt := match f with TMPL_AFS_ARRAY fmt _ => TMPL_AFS_ARRAY fmt EmptyString | f => f end.
Definition strip_segment (fs : tmpl_segment) : tmpl_segment :=
  match fs with
  | TSEG (EVL_FS_MEMBER m userfmt _) => TSEG (EVL_FS_MEMBER m userfmt false)
  | TSEG (EVL_FS_ATTNAME name userfmt _) => TSEG (EVL_FS_ATTNAME name userfmt false)
  | fs => fs
  end.
Definition strip_static (s : tmpl_static) : tmpl_static :=
  mkStatic (th_type s) (th_description s) (tm_name s) (map strip_segment (tm_parsed_format s)) (tm_alignment s) (tm_minsize s) (tm_redirection s).
Definition strip_state (s : tmpl_state) : tmpl_state := set_tm_flags (set_flag (tm_flags s) TMPL_TF_IMPORTED) s.
Definition strip_value (strip : template -> template) (v : tmpl_value template) : tmpl_value template :=
  match v with VStruct t => VStruct (strip t) | VList l => VList (map strip l) | v => v end.
Definition strip_att (strip : template -> template) (a : tmpl_attribute_ template) : tmpl_attribute :=
  match a with
  | mkAttr name ty str dim fmt sh delim raw v flags idx =>
      mkAttr name ty (match str with Some t => Some (strip t) | None => None end) (match dim with Some d => Some (strip_dim d) | None => None end)
        (strip_fmt fmt) false (match delim with Some d => Some (strip_delim d) | None => None end) raw (strip_value strip v) flags idx
  end.
(** A template without addresses, marked as imported, and without the dimensions that depend on
    a record. *)
Fixpoint stripped (t : template) : template :=
  match t with
  | mkTemplate s ts atts imps =>
      mkTemplate (strip_static s) (strip_state ts) (map (strip_att stripped) atts) (map (fun i => (i.1, stripped i.2)) imps)
  end.
Abbreviation strip := (strip_att stripped).

Lemma strip_name a : ta_name (strip a) = ta_name a.
Proof. by destruct a. Qed.
Lemma strip_flags a : ta_flags (strip a) = ta_flags a.
Proof. by destruct a. Qed.
Lemma strip_type a : ta_type (strip a) = ta_type a.
Proof. by destruct a. Qed.
Lemma strip_is_struct a : isStruct (strip a) = isStruct a.
Proof. by destruct a. Qed.
Lemma strip_is_array a : isArray (strip a) = isArray a.
Proof. destruct a as [? ? ? dim]. unfold isArray, isBitField. cbn. by destruct dim. Qed.
Lemma strip_struct a : ta_struct (strip a) = stripped <$> ta_struct a.
Proof. by destruct a. Qed.
Lemma strip_the_value a : ta_value (strip a) = strip_value stripped (ta_value a).
Proof. by destruct a. Qed.
Lemma stripped_attributes t : tm_attributes (stripped t) = map strip (tm_attributes t).
Proof. by destruct t. Qed.
Lemma stripped_clone t : isMasterTmpl (stripped t) = isMasterTmpl t.
Proof. by destruct t. Qed.
Lemma find_named_strip l name : find_named (map strip l) name = strip <$> find_named l name.
Proof. induction l as [|a l IH]; [done|]. cbn [map find_named]. rewrite strip_name. by destruct (bool_decide _). Qed.
(** Looking a path up and forgetting the addresses commute. *)
Lemma find_strip fuel : forall t path, findAttByScopedName fuel (stripped t) path = strip <$> findAttByScopedName fuel t path.
Proof.
  induction fuel as [|fuel IH]; intros t path; cbn [findAttByScopedName]; unfold findAttBySimpleName; rewrite stripped_attributes, ?stripped_clone;
    (destruct (split_dot path) as [[p q]|]; [|apply find_named_strip]); rewrite find_named_strip;
    (destruct (find_named (tm_attributes t) p) as [b|]; [|done]); cbn [fmap option_fmap option_map mbind option_bind];
    rewrite strip_is_struct, strip_is_array; (destruct (_ || _); [done|]); [done|].
  unfold attExists. rewrite strip_flags, strip_the_value, strip_struct. destruct (has (ta_flags b) EVL_ATTR_EXISTS).
  - destruct (ta_value b); cbn [strip_value]; first [done|apply IH].
  - destruct (isMasterTmpl t); [|done]. destruct (ta_struct b); [|done]. apply IH.
Qed.
(** Two templates whose attributes are the same but for addresses. *)
Definition alike (t t' : template) : Prop := map strip (tm_attributes t) = map strip (tm_attributes t') /\ isMasterTmpl t = isMasterTmpl t'.
Lemma find_alike t t' name : alike t t' -> strip <$> _evlTmplFindAttribute t name = strip <$> _evlTmplFindAttribute t' name.
Proof.
  intros [Ha Hm]. unfold _evlTmplFindAttribute. rewrite <-!find_strip.
  assert (Hs : tm_attributes (stripped t) = tm_attributes (stripped t')) by (by rewrite !stripped_attributes).
  assert (Hc : isMasterTmpl (stripped t) = isMasterTmpl (stripped t')) by (by rewrite !stripped_clone).
  destruct (String.length name); cbn [findAttByScopedName]; unfold findAttBySimpleName; by rewrite Hs, ?Hc.
Qed.
Lemma alike_length t t' : alike t t' -> length (tm_attributes t) = length (tm_attributes t').
Proof. intros [Ha _]. apply (f_equal length) in Ha. by rewrite !length_map in Ha. Qed.
Lemma strip_integer a : isIntegerAtt (strip a) = isIntegerAtt a.
Proof. by destruct a. Qed.
Lemma alike_integer t t' name b : alike t t' -> _evlTmplFindAttribute t' name = Some b -> isIntegerAtt b = true ->
  exists b', _evlTmplFindAttribute t name = Some b' /\ isIntegerAtt b' = true.
Proof.
  intros Ha Hb Hi. pose proof (find_alike t t' name Ha) as E. rewrite Hb in E.
  destruct (_evlTmplFindAttribute t name) as [b'|]; [|done]. exists b'. split; [done|]. apply (inj Some) in E.
  rewrite <-(strip_integer b'), E. by rewrite strip_integer.
Qed.

(** ** Attributes that a file can hold *)

Variable same_template : template -> template -> bool.
(** The number of attributes before this one, which it may refer to. *)
Definition storable_dim (t : template) (d : tmpl_dimension) : Prop :=
  match td_type d with
  | TMPL_DIM_CONST => in_signed 32 (td_dimension d)
  | TMPL_DIM_IMPLIED | TMPL_DIM_REST => True
  | TMPL_DIM_ATTR j => (j < length (tm_attributes t))%nat
  | TMPL_DIM_ATTNAME name => no_nul name = true /\ exists b, _evlTmplFindAttribute t name = Some b /\ isIntegerAtt b = true
  | TMPL_DIM_BITFIELD => in_signed 32 (td_dimension d) /\ in_signed 32 (td_dimension2 (mem_store st) d)
  | _ => False
  end.
Definition storable_delim (t : template) (d : tmpl_delimiter) : Prop :=
  match de_type d with
  | TMPL_DELIM_CONST s | TMPL_DELIM_ATTNAME s => no_nul s = true
  | TMPL_DELIM_ATTR j => (j < length (tm_attributes t))%nat
  | TMPL_DELIM_NONE => False
  end.
Definition storable_bitmap (b : tmpl_bitmap) : Prop := in_signed 64 (bm_1bits b) /\ in_signed 64 (bm_0bits b) /\ no_nul (bm_name b) = true.
Definition storable_fmt (f : tmpl_att_fmt) : Prop :=
  match f with
  | TMPL_AFS_DEFAULT | TMPL_AFS_DUMP => True
  | TMPL_AFS_SCALAR fmt | TMPL_AFS_ARRAY fmt _ | TMPL_AFS_CHARRSTR fmt => no_nul fmt = true
  | TMPL_AFS_IZARRAY fmt izorder => no_nul fmt = true /\ no_nul izorder = true /\ (String.length izorder <= 2)%nat
  | TMPL_AFS_BITMAP l | TMPL_AFS_VALNM l => Forall storable_bitmap l /\ Z.of_nat (length l) < 2 ^ 31
  | TMPL_AFS_TBD _ => False
  end.
Definition small (t : template) : Prop := Z.of_nat (length (tm_attributes t)) < 2 ^ 31.

Lemma R_new_dimension ty dim dim2 : R (new_dimension ty dim dim2) [] (fun d => exists addr, d = Some (mkDim ty dim addr)).
Proof.
  unfold new_dimension. rewrite <-(app_nil_r []). apply (R_bind _ _ _ _ (fun d => exists addr, d = mkDim ty dim addr)).
  - apply R_store. intros s. eexists _, _. split; [done|]. by eexists.
  - intros d [addr ->]. apply R_ret. by exists addr.
Qed.
Definition strip_opt {A} (f : A -> A) (o : option A) : option A := match o with Some a => Some (f a) | None => None end.
Lemma carried_new_dimension w P (r : tio Z) ty dim2 : carried w r P ->
  forall n, (forall a, P a -> a = n) -> carried w (dim ← r; new_dimension ty dim (dim2 dim)) (fun d => exists addr, d = Some (mkDim ty n addr)).
Proof. intros Hc n Hn. apply (carried_map _ _ _ _ _ Hc). intros a ->%Hn. apply R_new_dimension. Qed.
Lemma carried_dim t t' a flags : alike t' t -> small t -> match ta_dimension a with Some d => storable_dim t d | None => True end ->
  carried (writeAttDimension a) (readAttDimension t' flags) (fun d => strip_opt strip_dim d = strip_opt strip_dim (ta_dimension a)).
Proof.
  intros Ha Hsm Hd. unfold writeAttDimension, readAttDimension. destruct (ta_dimension a) as [d|].
  2: { apply (carried_map _ _ _ (fun a => a = 0)); [apply carried_int; unfold in_signed; lia|]. intros z ->. by apply R_ret. }
  apply (carried_seq _ _ _ _ (fun z => z = dim_index (td_type d))); [apply carried_int; unfold in_signed; destruct (td_type d); cbn; lia|].
  intros z ->. unfold storable_dim in Hd. unfold strip_opt at 2, strip_dim at 2.
  destruct (td_type d) as [| | | |j|name| |] eqn:Et; try done; cbn [dim_index Z.eqb Pos.eqb].
  - eapply carried_impl; [apply (carried_new_dimension _ (fun a => a = td_dimension d)); [by apply carried_int|by intros ? ->]|]. by intros ? [addr ->].
  - exists []. split; [apply W_nothing|]. eapply R_impl; [apply R_new_dimension|]. by intros ? [addr ->].
  - exists []. split; [apply W_nothing|]. eapply R_impl; [apply R_new_dimension|]. by intros ? [addr ->].
  - apply (carried_map _ _ _ (fun i => i = j)); [by apply (carried_index j (length (tm_attributes t))); [done..|apply alike_length]|].
    intros i ->. eapply R_impl; [apply R_new_dimension|]. by intros ? [addr ->].
  - destruct Hd as (Hn & b & Hb & Hi). apply (carried_map _ _ _ (fun s => s = name)); [by apply carried_string|]. intros s ->.
    destruct (alike_integer t' t name b Ha Hb Hi) as (b' & -> & Hi'). rewrite Hi'.
    eapply R_impl; [apply R_new_dimension|]. by intros ? [addr ->].
  - destruct Hd as [H1 H2]. apply (carried_seq _ _ _ _ (fun z => z = td_dimension d)); [by apply carried_int|]. intros z ->.
    assert (Hc : carried (s ← the_store; writeInt (td_dimension2 s d)) readInt (fun z => z = td_dimension2 (mem_store st) d)).
    { destruct (carried_int (td_dimension2 (mem_store st) d) H2) as (bs & Hw & Hr). exists bs. split; [|done]. exact Hw. }
    apply (carried_map _ _ _ _ _ Hc). intros z ->. eapply R_impl; [apply R_new_dimension|]. by intros ? [addr ->].
Qed.

Lemma R_new_delimiter ty : R (new_delimiter ty) [] (fun d => exists addr, d = Some (mkDelim ty addr)).
Proof.
  unfold new_delimiter. rewrite <-(app_nil_r []). apply (R_bind _ _ _ _ (fun d => exists addr, d = mkDelim ty addr)).
  - apply R_store. intros s. eexists _, _. split; [done|]. by eexists.
  - intros d [addr ->]. apply R_ret. by exists addr.
Qed.
Lemma carried_delim t t' a : alike t' t -> small t ->
  match ta_delimiter a with Some d => isArray a = true /\ storable_delim t d | None => True end ->
  carried (writeAttDelimiter a) (readAttDelimiter t' (isArray a)) (fun d => strip_opt strip_delim d = strip_opt strip_delim (ta_delimiter a)).
Proof.
  intros Ha Hsm Hd. unfold writeAttDelimiter, readAttDelimiter. destruct (isArray a); cbn [negb].
  2: { destruct (ta_delimiter a); [by destruct Hd|]. by apply carried_ret. }
  destruct (ta_delimiter a) as [d|].
  2: { apply (carried_map _ _ _ (fun a => a = 0)); [apply carried_int; unfold in_signed; lia|]. intros z ->. by apply R_ret. }
  destruct Hd as [_ Hd]. apply (carried_seq _ _ _ _ (fun z => z = delim_index (de_type d))); [apply carried_int; unfold in_signed; destruct (de_type d); cbn; lia|].
  intros z ->. unfold storable_delim in Hd. unfold strip_opt at 2, strip_delim at 2.
  destruct (de_type d) as [|s|j|name] eqn:Et; try done; cbn [delim_index Z.eqb Pos.eqb].
  - apply (carried_map _ _ _ (fun x => x = s)); [by apply carried_string|]. intros x ->. eapply R_impl; [apply R_new_delimiter|]. by intros ? [addr ->].
  - apply (carried_map _ _ _ (fun i => i = j)); [by apply (carried_index j (length (tm_attributes t))); [done..|apply alike_length]|].
    intros i ->. eapply R_impl; [apply R_new_delimiter|]. by intros ? [addr ->].
  - apply (carried_map _ _ _ (fun x => x = name)); [by apply carried_string|]. intros x ->. eapply R_impl; [apply R_new_delimiter|]. by intros ? [addr ->].
Qed.
Lemma carried_bitmaps l : Forall storable_bitmap l -> carried (write_bitmaps l) (read_bitmaps (length l)) (fun l' => l' = l).
Proof.
  induction 1 as [|b l (H1 & H0 & Hn) _ IH]; cbn [write_bitmaps read_bitmaps length]; [by apply carried_ret|].
  apply (carried_seq _ _ _ _ _ _ (carried_long _ H1)). intros ? ->. apply (carried_seq _ _ _ _ _ _ (carried_long _ H0)). intros ? ->.
  apply (carried_seq _ _ _ _ _ _ (carried_string _ Hn)). intros ? ->. apply (carried_last _ _ _ _ _ IH). intros ? ->. by destruct b.
Qed.
Lemma izorder_bytes izorder : no_nul izorder = true -> (String.length izorder <= 2)%nat ->
  length (take 3 (bytes_of izorder ++ [0; 0; 0])) = 3%nat /\ cstring (take 3 (bytes_of izorder ++ [0; 0; 0])) = izorder.
Proof.
  intros Hn Hl. rewrite length_take, length_app, length_bytes_of. cbn [length]. split; [lia|].
  rewrite take_app_ge by (rewrite length_bytes_of; lia). rewrite length_bytes_of.
  destruct (3 - String.length izorder)%nat as [|n] eqn:E; [lia|]. cbn [take]. by apply cstring_bytes_of.
Qed.
Lemma carried_fmt a : storable_fmt (ta_format a) -> carried (writeAttFormat a) readAttFormat (fun f => strip_fmt f = strip_fmt (ta_format a)).
Proof.
  intros Hf. unfold writeAttFormat, readAttFormat.
  apply (carried_seq _ _ _ _ (fun z => z = fmt_index (ta_format a))); [apply carried_int; unfold in_signed; destruct (ta_format a); cbn; lia|].
  intros z ->. destruct (ta_format a) as [|fmt|fmt| |l|l|fmt o|fmt o|fmt]; try done; cbn [fmt_index Z.eqb Pos.eqb storable_fmt] in *;
    try (by apply carried_ret); try (apply (carried_last _ _ _ _ _ (carried_string _ Hf)); by intros ? ->).
  1,2: destruct Hf as [Hb Hl]; apply (carried_seq _ _ _ _ _ _ (carried_nat _ Hl)); intros ? ->; rewrite Nat2Z.id;
    apply (carried_last _ _ _ _ _ (carried_bitmaps _ Hb)); by intros ? ->.
  destruct Hf as (Hf & Ho & Hl). apply (carried_seq _ _ _ _ _ _ (carried_string _ Hf)). intros ? ->.
  destruct (izorder_bytes o Ho Hl) as [E1 E2]. pose proof (carried_bytes (take 3 (bytes_of o ++ [0; 0; 0]))) as Hc. rewrite E1 in Hc.
  apply (carried_last _ _ _ _ _ Hc). intros ? ->. by rewrite E2.
Qed.

(** *** Types *)

Lemma carried_io_r {A B} w (o : outcome A) a (k : A -> tio B) P : o = Done a -> carried w (k a) P -> carried w (io o ≫= k) P.
Proof. by intros ->. Qed.
Lemma carried_io_w {A B} (o : outcome A) (k : A -> tio unit) a (r : tio B) P : o = Done a -> carried (k a) r P -> carried (io o ≫= k) r P.
Proof. by intros ->. Qed.

(** The struct of an attribute is among the imports, where it is found by its address. *)
Definition imported (t : template) (s : template) : Prop :=
  exists i p, list_find (fun sref => same_template sref.2 s = true) (tm_imports t) = Some (i, (p, s)).
Definition storable_type (t : template) (a : tmpl_attribute) : Prop :=
  if isStruct a then exists s, ta_struct a = Some s /\ imported t s else ta_struct a = None.
Definition same_imports (t t' : template) : Prop :=
  map (fun i => (i.1, stripped i.2)) (tm_imports t) = map (fun i => (i.1, stripped i.2)) (tm_imports t').
Lemma base_types_index ty : base_types !! type_index ty = Some ty.
Proof. by destruct ty. Qed.
Lemma type_index_small ty : 0 <= Z.of_nat (type_index ty) < 24.
Proof. destruct ty; cbn; lia. Qed.
Lemma carried_ref t t' s : same_imports t' t -> Z.of_nat (length (tm_imports t)) < 2 ^ 31 -> imported t s ->
  carried (writeTmplRef same_template s t) (readTmplRef t') (fun s' => stripped s' = stripped s).
Proof.
  intros Hi Hsm (i & p & E). unfold writeTmplRef, readTmplRef. rewrite E. apply list_find_Some in E as (E & _ & _).
  assert (i < length (tm_imports t))%nat as Hl by (by eapply lookup_lt_Some).
  apply (carried_map _ _ _ (fun n => n = Z.of_nat i)); [apply carried_nat; lia|]. intros n ->.
  rewrite (proj2 (Z.ltb_ge _ _)) by lia. rewrite Nat2Z.id. unfold same_imports in Hi.
  apply (f_equal (fun l => l !! i)) in Hi. rewrite !list_lookup_fmap, E in Hi.
  destruct (tm_imports t' !! i) as [[p' s']|]; [|done]. apply R_ret. cbn in Hi. injection Hi as _ Hi. exact Hi.
Qed.
Lemma carried_type t t' a : same_imports t' t -> Z.of_nat (length (tm_imports t)) < 2 ^ 31 -> storable_type t a ->
  carried (writeAttType same_template a t) (readAttType t') (fun p => p.1 = ta_type a /\ stripped <$> p.2 = stripped <$> ta_struct a).
Proof.
  intros Hi Hsm Ht. unfold writeAttType, readAttType. pose proof (type_index_small (ta_type a)) as Hx.
  apply (carried_seq _ _ _ _ (fun z => z = Z.of_nat (type_index (ta_type a)))); [apply carried_nat; lia|]. intros z ->.
  rewrite (proj2 (Z.ltb_ge _ _)) by lia. rewrite Nat2Z.id, base_types_index. apply (carried_io_r _ _ (ta_type a) _ _ eq_refl).
  unfold storable_type, isStruct in *. destruct (bool_decide (ta_type a = TY_STRUCT)).
  - destruct Ht as (s & Hs & Hex). rewrite Hs. apply (carried_io_w _ _ s _ _ eq_refl).
    apply (carried_last _ _ _ _ _ (carried_ref t t' s Hi Hsm Hex)). intros s' Es. split; [done|]. cbn. by rewrite Es.
  - by apply carried_ret; rewrite Ht.
Qed.

(** *** Values *)

Lemma signed_wide n z : 1 <= n <= 64 -> signed n (z mod 2 ^ 64) = signed n z.
Proof.
  intros Hn. rewrite <-(signed_unsigned n (z mod 2 ^ 64)), <-(signed_unsigned n z) by lia. f_equal. unfold unsigned.
  apply Z.mod_mod_divide. exists (2 ^ (64 - n)). rewrite <-Z.pow_add_r by lia. f_equal. lia.
Qed.
Lemma unsigned_wide n z : 0 <= n <= 64 -> unsigned n (z mod 2 ^ 64) = unsigned n z.
Proof. intros Hn. unfold unsigned. apply Z.mod_mod_divide. exists (2 ^ (64 - n)). rewrite <-Z.pow_add_r by lia. f_equal. lia. Qed.
Lemma wrap_wide ty z : wrap_int ty (z mod 2 ^ 64) = wrap_int ty z.
Proof. destruct ty; cbn [wrap_int]; first [apply signed_wide; lia | apply unsigned_wide; lia]. Qed.
(** The value survives the union: a number is in the range of its type, and a real has its size. *)
Definition storable_scalar (ty : base_type) (v : tmpl_value template) : Prop :=
  match v with
  | VInt z => isInteger ty = true /\ wrap_int ty z = z
  | VReal bs =>
      match ty with
      | TY_FLOAT => double_to_float (widen_float bs) = bs
      | TY_DOUBLE => length bs = 8%nat
      | TY_LDOUBLE => length bs = 16%nat
      | _ => False
      end
  | _ => False
  end.
Lemma union_roundtrip ty v : storable_scalar ty v -> exists bs, union_bytes ty v = Done bs /\ length bs = 16%nat /\ union_value ty bs = Done v.
Proof.
  unfold storable_scalar, union_bytes, union_value. destruct v as [|z|bs| | | | |]; try done.
  - intros [Hi Hw]. eexists. split; [done|]. rewrite length_app, length_le_encode. split; [done|]. rewrite Hi.
    rewrite take_app_length' by (by rewrite length_le_encode). rewrite le_decode_encode. change (256 ^ Z.of_nat 8) with (2 ^ 64). by rewrite wrap_wide, Hw.
  - destruct ty; try done; cbn [isInteger]; intros Hl; eexists; (split; [done|]).
    + assert (length (widen_float bs) = 8%nat) as Hw by (unfold widen_float; by rewrite length_le_encode).
      rewrite length_app, Hw. split; [done|]. by rewrite take_app_length', Hl by done.
    + rewrite (take_app_length' bs) by done. rewrite length_app, Hl. split; [done|]. by rewrite take_app_length' by done.
    + rewrite (take_app_length' bs) by done. by split.
Qed.
Lemma strings_size fuel elem : forall fuel' n mem rest k, (fuel <= fuel')%nat -> chars_of_strings fuel elem n mem = Done k ->
  chars_of_strings fuel' elem n (mem ++ rest) = Done k.
Proof.
  induction fuel as [|fuel IH]; intros fuel' n mem rest k Hf; [destruct n; [|done]; by destruct fuel'|].
  destruct fuel' as [|fuel']; [lia|]. destruct n as [|n]; [done|]. cbn [chars_of_strings].
  destruct (read_mem mem 0 (Z.of_nat elem)) as [c|] eqn:E; [|done]. cbn [mbind outcome_bind].
  unfold read_mem in *. destruct (_ && _) eqn:Eb; [|done]. bprop. injection E as <-.
  rewrite (proj2 (Z.leb_le 0 0)), (proj2 (Z.leb_le _ _)) by (rewrite ?length_app; lia). cbn [andb mbind outcome_bind Z.to_nat drop].
  rewrite Nat2Z.id. change (Z.to_nat 0) with O. rewrite !drop_0, take_app_le, drop_app_le by lia.
  destruct (chars_of_strings fuel elem _ (drop elem mem)) as [k'|] eqn:Ek; [|done]. cbn [mbind outcome_bind]. intros [= <-].
  by rewrite (IH fuel' _ _ rest k' ltac:(lia) Ek).
Qed.
Lemma array_size_more ty nel mem rest k : array_size ty nel mem = Done k -> array_size ty nel (mem ++ rest) = Done k.
Proof.
  unfold array_size. assert (Hf : (S (length mem) <= S (length (mem ++ rest)))%nat) by (rewrite length_app; lia).
  destruct ty; try done.
  - by apply strings_size.
  - destruct (chars_of_strings (S (length mem)) 4 (Z.to_nat nel) mem) as [n|] eqn:E; [|done]. cbn [mbind outcome_bind]. intros [= <-].
    by rewrite (strings_size _ 4 _ _ _ rest n Hf E).
Qed.
Definition storable_wstring (ws : list Z) : Prop :=
  exists n, wcslen ws = Some n /\ 0 <= n < 2 ^ 32 /\ Z.of_nat (length ws) = (n + 1) * 4.
Definition storable_value (a : tmpl_attribute) : Prop :=
  if negb (isConstAtt a) then ta_value a = VNone
  else if isStruct a then isArray a = false /\ exists m, ta_struct a = Some m /\ isConstStructTmpl m = true /\ ta_value a = VStruct m
  else match (if isArray a then ta_dimension a else None) with
  | Some d =>
      td_type d = TMPL_DIM_CONST /\ has (ta_flags a) EVL_ATTR_IMPLDIM = false /\
      exists mem, ta_value a = VArray true mem /\ array_size (ta_type a) (td_dimension d) mem = Done (Z.of_nat (length mem))
  | None =>
      match ta_type a, ta_value a with
      | TY_STRING, VString s => no_nul s = true
      | TY_WSTRING, VWstring ws => storable_wstring ws
      | ty, v => storable_scalar ty v
      end
  end.
Lemma W_ext w w' bs : (forall tf, w tf = w' tf) -> W w' bs -> W w bs.
Proof. intros E Hw buf next errs Hn. rewrite E. by apply Hw. Qed.
Lemma R_ext {A} (r r' : tio A) bs P : (forall tf, r tf = r' tf) -> R r' bs P -> R r bs P.
Proof. intros E Hr buf next s rest Hn Hd Hs. rewrite E. by eapply Hr. Qed.
Lemma R_array {B} ty nel mem (f : list Z -> B) : array_size ty nel mem = Done (Z.of_nat (length mem)) ->
  R (arr ← tf_rest; size ← io (array_size ty nel arr); mem ← readBuffer size; mret (f mem)) mem (fun b => b = f mem).
Proof.
  intros Hs buf next s rest Hn E Hh. destruct (R_bytes mem buf next s rest Hn E Hh) as (a & s' & Ea & Hh' & ->).
  exists (f mem), s'. split; [|by split]. unfold tf_rest, readBuffer, mbind, tio_bind. cbn [tf_buf tf_next]. rewrite E, (array_size_more _ _ _ rest _ Hs). cbn [io].
  rewrite (proj2 (Z.ltb_ge _ _)) by lia. by rewrite Ea.
Qed.
Lemma stripped_const_struct m m' : stripped m' = stripped m -> isConstStructTmpl m' = isConstStructTmpl m.
Proof.
  intros E. assert (H : forall t, isConstStructTmpl (stripped t) = isConstStructTmpl t).
  { intros [s [fl ? ? ? ? ? ?] atts imps]. unfold isConstStructTmpl. cbn [stripped tm_state strip_state set_tm_flags tm_flags]. rewrite has_set.
    change (has TMPL_TF_IMPORTED TMPL_TF_CONST) with false. by rewrite orb_false_r. }
  by rewrite <-(H m'), E, H.
Qed.
Lemma wstring_carried ws : storable_wstring ws -> carried (writeWstring ws) readWstring (fun a => a = ws).
Proof.
  intros (n & Hn & Hr & Hl). unfold writeWstring, readWstring. rewrite Hn. apply (carried_io_w _ _ n _ _ eq_refl).
  apply (carried_seq _ _ _ _ (fun z => z = n)).
  { apply (carried_impl _ _ _ _ (carried_scalar 8 n)). intros z ->. apply Z.mod_small. change (256 ^ Z.of_nat 8) with (2 ^ 64). lia. }
  intros z ->. unfold WCSZ. apply (carried_io_w _ _ ws).
  { unfold read_mem. rewrite (proj2 (Z.leb_le 0 0)), (proj2 (Z.leb_le _ _)) by lia. cbn [andb]. change (Z.to_nat 0) with O.
    rewrite drop_0, take_ge by lia. done. }
  rewrite unsigned_id by (unfold in_unsigned; lia). rewrite <-Hl. apply carried_bytes.
Qed.
(** The attribute as it is before its value is read. *)
Record partly_read (a a' : tmpl_attribute) : Prop := {
  pr_type : ta_type a' = ta_type a;
  pr_flags : ta_flags a' = ta_flags a;
  pr_struct : stripped <$> ta_struct a' = stripped <$> ta_struct a;
  pr_dim : strip_opt strip_dim (ta_dimension a') = strip_opt strip_dim (ta_dimension a);
  pr_value : ta_value a' = VNone
}.
Lemma partly_array a a' : partly_read a a' -> isArray a' = isArray a.
Proof.
  intros [_ Hf _ Hd _]. unfold isArray, isBitField. rewrite Hf. f_equal. destruct (ta_dimension a), (ta_dimension a'); try done.
Qed.
Lemma set_none a : ta_value a = VNone -> a = set_ta_value a VNone.
Proof. destruct a. cbn. by intros ->. Qed.
Lemma carried_value a a' : storable_value a -> partly_read a a' ->
  carried (writeAttValue (value_fuel a) a) (readAttValue (value_fuel a') a')
    (fun b => exists v, b = set_ta_value a' v /\ strip_value stripped v = strip_value stripped (ta_value a)).
Proof.
  intros Hv Hp. unfold value_fuel. cbn [writeAttValue readAttValue]. unfold write_value_body, read_value_body, storable_value in *.
  rewrite (partly_array a a' Hp). destruct Hp as [Hty Hfl Hst Hdim Hnone]. unfold isConstAtt, isStruct in *. rewrite Hfl, Hty.
  destruct (negb (has (ta_flags a) EVL_ATTR_CONST)).
  { apply carried_ret. exists VNone. rewrite Hv. split; [by apply set_none|done]. }
  destruct (bool_decide (ta_type a = TY_STRUCT)) eqn:Es.
  { destruct Hv as (Harr & m & Hm & Hc & Hval). rewrite Harr. rewrite Hm in *. destruct (ta_struct a') as [m'|]; [|done].
    cbn in Hst. injection Hst as Hst. apply (carried_io_w _ _ m _ _ eq_refl), (carried_io_r _ _ m' _ _ eq_refl).
    rewrite (stripped_const_struct m m' Hst), Hc. apply carried_ret. exists (VStruct m'). rewrite Hval. cbn. by rewrite Hst. }
  destruct (isArray a) eqn:Harr.
  - assert (is_Some (ta_dimension a)) as [d Hd] by (unfold isArray in Harr; apply andb_true_iff in Harr as [Hx _]; by apply bool_decide_eq_true in Hx).
    rewrite Hd in *. destruct Hv as (Hct & Himp & mem & Hval & Hsz).
    destruct (ta_dimension a') as [d'|] eqn:Hd'; [|done]. cbn in Hdim. injection Hdim as Ht' Hn'. rewrite Ht', Hct in Hn'.
    exists mem. split.
    + eapply W_ext; [|apply W_bytes]. intros tf. unfold writeConstAttDimension. rewrite Hd, Himp, Hval. unfold mbind, tio_bind. cbn [io mret tio_ret].
      rewrite Hsz. cbn [io]. unfold read_mem. rewrite (proj2 (Z.leb_le 0 0)), (proj2 (Z.leb_le _ _)) by lia. cbn [andb]. change (Z.to_nat 0) with O.
      by rewrite drop_0, take_ge by lia.
    + apply (R_impl _ _ (fun b => b = set_ta_value a' (VArray true mem))); [|intros b ->; exists (VArray true mem); by rewrite Hval].
      eapply R_ext; [|apply (R_array (ta_type a) (td_dimension d) mem (fun mem => set_ta_value a' (VArray true mem)) Hsz)].
      intros tf. unfold readConstAttDimension. rewrite Hd', Hfl, Himp. cbv [mbind tio_bind mret tio_ret io]. by rewrite Hn', Hty.
  - assert (Hscalar : forall ty, ty = ta_type a -> storable_scalar ty (ta_value a) ->
      carried (bs ← io (union_bytes ty (ta_value a)); tfWrite bs) (bs ← tfRead 16; v ← io (union_value ty bs); mret (set_ta_value a' v))
        (fun b => exists v, b = set_ta_value a' v /\ strip_value stripped v = strip_value stripped (ta_value a))).
    { intros ty -> Hsc. destruct (union_roundtrip _ _ Hsc) as (bs & Eb & Hlen & Ev). apply (carried_io_w _ _ bs _ _ Eb).
      pose proof (carried_bytes bs) as Hc. rewrite Hlen in Hc. apply (carried_map _ _ _ _ _ Hc). intros ? ->.
      rewrite Ev. apply (R_ret (set_ta_value a' (ta_value a))). by eexists. }
    destruct (ta_type a) eqn:Ety; try (by apply Hscalar).
    + destruct (ta_value a) as [| | |s| | | |] eqn:Eval; try (by destruct Hv). apply (carried_io_w _ _ s _ _ eq_refl).
      apply (carried_last _ _ _ _ _ (carried_string _ Hv)). intros ? ->. by eexists.
    + destruct (ta_value a) as [| | | |ws| | |] eqn:Eval; try (by destruct Hv). apply (carried_io_w _ _ ws _ _ eq_refl).
      apply (carried_last _ _ _ _ _ (wstring_carried _ Hv)). intros ? ->. by eexists.
Qed.

(** *** Attributes *)

Record storable_att (t : template) (a : tmpl_attribute) : Prop := {
  sa_name : clean (ta_name a) = true;
  sa_flags : in_unsigned 32 (ta_flags a);
  sa_type : storable_type t a;
  sa_dim : match ta_dimension a with Some d => storable_dim t d | None => True end;
  sa_delim : match ta_delimiter a with Some d => isArray a = true /\ storable_delim t d | None => True end;
  sa_fmt : storable_fmt (ta_format a);
  sa_value : storable_value a;
  sa_raw : ta_rawdata a = None;
  sa_index : ta_index a = length (tm_attributes t)
}.
Lemma carried_attribute t t' a : alike t' t -> same_imports t' t -> small t -> Z.of_nat (length (tm_imports t)) < 2 ^ 31 -> storable_att t a ->
  carried (writeAttribute same_template a t) (readAttribute t' (length (tm_attributes t'))) (fun a' => strip a' = strip a).
Proof.
  intros Ha Hi Hsm Him [Hname Hfl Hty Hdim Hdelim Hfmt Hval Hraw Hidx]. unfold writeAttribute, readAttribute.
  apply (carried_seq _ _ _ _ _ _ (carried_string_or_null _ Hname)). intros ? ->.
  apply (carried_seq _ _ _ _ _ _ (carried_u32 _ Hfl)). intros ? ->.
  apply (carried_seq _ _ _ _ _ _ (carried_type t t' a Hi Him Hty)). intros [ty s'] [Ety Es]. cbn [fst snd] in Ety, Es. subst ty.
  apply (carried_seq _ _ _ _ _ _ (carried_dim t t' a (ta_flags a) Ha Hsm Hdim)). intros dim1 Ed1.
  assert (bool_decide (is_Some dim1) && negb (has (ta_flags a) EVL_ATTR_BITFIELD) = isArray a) as ->.
  { unfold isArray, isBitField. f_equal. by destruct dim1, (ta_dimension a). }
  apply (carried_seq _ _ _ _ _ _ (carried_delim t t' a Ha Hsm Hdelim)). intros delim Edl.
  apply (carried_seq _ _ _ _ _ _ (carried_fmt a Hfmt)). intros fmt Ef.
  apply (carried_seq _ _ _ _ _ _ (carried_dim t t' a (ta_flags a) Ha Hsm Hdim)). intros dim Ed.
  set (a' := mkAttr _ _ _ _ _ _ _ _ _ _ _). apply (carried_impl _ _ _ _ (carried_value a a' Hval (Build_partly_read a a' eq_refl eq_refl Es Ed eq_refl))).
  intros b (v & -> & Ev). apply alike_length in Ha. unfold a'.
  destruct a as [name ty str dim0 fmt0 sh de raw v0 flags idx]. cbn in *. rewrite Ha, <-Hidx, Hraw, Ef, Ev.
  f_equal; [destruct s', str; cbn in Es; congruence|destruct dim, dim0; cbn in Ed; congruence|destruct delim, de; cbn in Edl; congruence].
Qed.
Definition before (t : template) (done : list tmpl_attribute) : template := set_attributes t done.
(** Each attribute can be stored, behind those before it. *)
Fixpoint storable_atts (t : template) (done todo : list tmpl_attribute) : Prop :=
  match todo with
  | [] => True
  | a :: todo => storable_att (before t done) a /\ storable_atts t (done ++ [a]) todo
  end.
Lemma carried_attributes t t' todo : forall done l', map strip l' = map strip done -> isMasterTmpl t' = isMasterTmpl t ->
  same_imports t' t -> Z.of_nat (length (done ++ todo)) < 2 ^ 31 -> Z.of_nat (length (tm_imports t)) < 2 ^ 31 -> storable_atts t done todo ->
  carried (write_attributes same_template todo t) (read_attributes (length todo) (length l') (set_attributes t' l'))
    (fun r => exists l, r = set_attributes t' l /\ map strip l = map strip (done ++ todo)).
Proof.
  induction todo as [|a todo IH]; intros done l' Hl Hm Hi Hsm Him Hs; cbn [write_attributes read_attributes length].
  { apply carried_ret. exists l'. by rewrite app_nil_r. }
  destruct Hs as [Ha Hs]. assert (Hal : alike (set_attributes t' l') (before t done)) by (split; [exact Hl|exact Hm]).
  assert (Hsm' : small (before t done)) by (unfold small, before; cbn [set_attributes tm_attributes]; rewrite length_app in Hsm; lia).
  apply (carried_seq _ _ _ _ _ _ (carried_attribute (before t done) (set_attributes t' l') a Hal Hi Hsm' Him Ha)). intros a' Ea.
  specialize (IH (done ++ [a]) (l' ++ [a'])). rewrite <-!app_assoc in IH. cbn [app] in IH.
  replace (S (length l')) with (length (l' ++ [a'])) by (rewrite length_app; cbn; lia).
  apply IH; [by rewrite !map_app, Hl; cbn; rewrite Ea|done..].
Qed.

(** *** Formats *)

Definition storable_segment (t : template) (fs : tmpl_segment) : Prop :=
  match fs with
  | TSEG (EVL_FS_STRING s) => no_nul s = true
  | TSEG (EVL_FS_MEMBER m userfmt _) => in_signed 32 m /\ clean userfmt = true
  | TSEG (EVL_FS_ATTNAME name userfmt _) => no_nul name = true /\ clean userfmt = true
  | EVL_FS_ATTR i userfmt => (i < length (tm_attributes t))%nat /\ clean userfmt = true
  | TSEG _ => False
  end.
Variable uninitialized : bool.
Lemma carried_segment t t' fs : length (tm_attributes t') = length (tm_attributes t) -> small t -> storable_segment t fs ->
  carried (writeFmtSegment fs) (readFmtSegment uninitialized t') (fun fs' => strip_segment fs' = strip_segment fs).
Proof.
  intros Hl Hsm Hs. unfold writeFmtSegment, readFmtSegment.
  assert (Hint : forall z, 0 <= z < 10 -> carried (writeInt z) readInt (fun a => a = z)) by (intros; apply carried_int; unfold in_signed; lia).
  destruct fs as [[s|m userfmt sf|name userfmt sf|pf u b|msg]|i userfmt]; cbn [storable_segment] in Hs; try done.
  - apply (carried_seq _ _ _ _ _ _ (Hint 0 ltac:(lia))). intros ? ->. apply (carried_last _ _ _ _ _ (carried_string _ Hs)). by intros ? ->.
  - destruct Hs as [Hm Hu]. apply (carried_seq _ _ _ _ _ _ (Hint 1 ltac:(lia))). intros ? ->. cbn [Z.eqb Pos.eqb].
    apply (carried_seq _ _ _ _ _ _ (carried_int _ Hm)). intros ? ->. apply (carried_last _ _ _ _ _ (carried_string_or_null _ Hu)). by intros ? ->.
  - destruct Hs as [Hm Hu]. apply (carried_seq _ _ _ _ _ _ (Hint 2 ltac:(lia))). intros ? ->. cbn [Z.eqb Pos.eqb].
    apply (carried_seq _ _ _ _ _ _ (carried_string _ Hm)). intros ? ->. apply (carried_last _ _ _ _ _ (carried_string_or_null _ Hu)). by intros ? ->.
  - destruct Hs as [Hm Hu]. apply (carried_seq _ _ _ _ _ _ (Hint 3 ltac:(lia))). intros ? ->. cbn [Z.eqb Pos.eqb].
    apply (carried_seq _ _ _ _ _ _ (carried_index i _ Hm Hsm t' Hl)). intros ? ->.
    apply (carried_last _ _ _ _ _ (carried_string_or_null _ Hu)). by intros ? ->.
Qed.
Lemma carried_segments t t' l : length (tm_attributes t') = length (tm_attributes t) -> small t -> Forall (storable_segment t) l ->
  carried (write_segments l) (read_segments uninitialized (length l) t') (fun l' => map strip_segment l' = map strip_segment l).
Proof.
  intros Hl Hsm. induction 1 as [|fs l Hfs _ IH]; cbn [write_segments read_segments length]; [by apply carried_ret|].
  apply (carried_seq _ _ _ _ _ _ (carried_segment t t' fs Hl Hsm Hfs)). intros fs' E.
  apply (carried_last _ _ _ _ _ IH). intros l' El. cbn [map]. by rewrite E, El.
Qed.

(** *** Redirections and imports *)

Definition storable_redirection (facility : bool) (ra : option redirectedAttribute) : Prop :=
  match ra with
  | None => True
  | Some TMPL_RD_NONE => False
  | Some (TMPL_RD_CONST code) => if facility then in_unsigned 32 code else in_signed 32 code
  | Some (TMPL_RD_ATTNAME name) => no_nul name = true
  end.
Lemma carried_redirected facility ra : storable_redirection facility ra -> carried (writeRedirectedAtt ra) (readRedirectedAtt facility) (fun r => r = ra).
Proof.
  intros Hr. unfold writeRedirectedAtt, readRedirectedAtt.
  assert (Hint : forall z, 0 <= z < 10 -> carried (writeInt z) readInt (fun a => a = z)) by (intros; apply carried_int; unfold in_signed; lia).
  destruct ra as [[|code|name]|]; cbn [storable_redirection] in Hr; try done.
  - apply (carried_seq _ _ _ _ _ _ (Hint 1 ltac:(lia))). intros ? ->. cbn [Z.eqb Pos.eqb]. destruct facility.
    + apply (carried_last _ _ _ _ _ (carried_u32 _ Hr)). by intros ? ->.
    + apply (carried_last _ _ _ _ _ (carried_scalar 4 code)). intros ? ->.
      change (code mod 256 ^ Z.of_nat 4) with (unsigned 32 code). by rewrite signed_unsigned, signed_id by (done || lia).
  - apply (carried_seq _ _ _ _ _ _ (Hint 2 ltac:(lia))). intros ? ->. apply (carried_last _ _ _ _ _ (carried_string _ Hr)). by intros ? ->.
  - apply (carried_map _ _ _ _ _ (Hint 0 ltac:(lia))). intros ? ->. by apply R_ret.
Qed.
Variable import : str -> memory -> outcome (option template * memory).
(** The struct is found by its path, as it is. *)
Definition storable_import (i : str * template) : Prop :=
  no_nul i.1 = true /\ forall m, inv (structHash m) -> exists t m', import i.1 m = Done (Some t, m') /\ inv (structHash m') /\ stripped t = stripped i.2.
Lemma carried_refs l : Forall storable_import l ->
  carried (write_refs l) (read_refs import (length l)) (fun l' => map (fun i => (i.1, stripped i.2)) l' = map (fun i => (i.1, stripped i.2)) l).
Proof.
  induction 1 as [|[p t] l [Hn Him] _ IH]; cbn [write_refs read_refs length fst snd] in *; [by apply carried_ret|].
  apply (carried_seq _ _ _ _ _ _ (carried_string _ Hn)). intros ? ->. destruct IH as (bs & Hw & Hr). exists bs. split; [done|].
  apply (R_bind _ _ [] bs (fun o => exists t', o = Some t' /\ stripped t' = stripped t)).
  - apply R_memory. intros m Hm. destruct (Him m Hm) as (t' & m' & -> & Hm' & E). eexists _, _. split; [done|]. split; [done|]. by exists t'.
  - intros ? (t' & -> & E). rewrite <-(app_nil_r bs). apply (R_bind _ _ _ _ _ _ Hr). intros l' El. apply R_ret. cbn [map fst snd]. by rewrite E, El.
Qed.

(** ** Whole templates *)

Definition storable_header (t : template) : Prop :=
  clean (th_description (tm_static t)) = true /\
  match th_type (tm_static t) with
  | TMPL_TH_EVLOG fac evty => in_unsigned 32 fac /\ in_signed 32 evty /\ no_nul (tm_name (tm_static t)) = true
  | TMPL_TH_TRACE major minor => in_signed 32 major /\ in_signed 32 minor /\ tm_name (tm_static t) = EmptyString
  | TMPL_TH_STRUCT name => no_nul name = true /\ tm_name (tm_static t) = name
  end.
Lemma carried_header t : storable_header t ->
  carried (writeHeader t) readHeader (fun h => h = (th_type (tm_static t), th_description (tm_static t), tm_name (tm_static t))).
Proof.
  intros [Hd Hh]. unfold writeHeader, readHeader.
  assert (Hint : forall z, 0 <= z < 10 -> carried (writeInt z) readInt (fun a => a = z)) by (intros; apply carried_int; unfold in_signed; lia).
  destruct (th_type (tm_static t)) as [fac evty|major minor|name].
  - destruct Hh as (Hf & He & Hn). apply (carried_seq _ _ _ _ _ _ (Hint 0 ltac:(lia))). intros ? ->.
    apply (carried_seq _ _ _ _ _ _ (carried_string_or_null _ Hd)). intros ? ->. cbn [Z.eqb].
    apply (carried_seq _ _ _ _ _ _ (carried_u32 _ Hf)). intros ? ->. apply (carried_seq _ _ _ _ _ _ (carried_int _ He)). intros ? ->.
    apply (carried_last _ _ _ _ _ (carried_string _ Hn)). by intros ? ->.
  - destruct Hh as (Ha & Hi & Hn). apply (carried_seq _ _ _ _ _ _ (Hint 1 ltac:(lia))). intros ? ->.
    apply (carried_seq _ _ _ _ _ _ (carried_string_or_null _ Hd)). intros ? ->. cbn [Z.eqb Pos.eqb].
    apply (carried_seq _ _ _ _ _ _ (carried_int _ Ha)). intros ? ->. apply (carried_last _ _ _ _ _ (carried_int _ Hi)).
    intros ? ->. by rewrite Hn.
  - destruct Hh as (Hn & ->). apply (carried_seq _ _ _ _ _ _ (Hint 2 ltac:(lia))). intros ? ->.
    apply (carried_seq _ _ _ _ _ _ (carried_string_or_null _ Hd)). intros ? ->. cbn [Z.eqb Pos.eqb].
    apply (carried_last _ _ _ _ _ (carried_string _ Hn)). by intros ? ->.
Qed.
(** A template that a file can hold. *)
Record storable (t : template) : Prop := {
  st_header : storable_header t;
  st_flags : in_unsigned 32 (tm_flags (tm_state t));
  st_fresh : tm_state t = mkState (tm_flags (tm_state t)) 0 0 None None (-1) false;
  st_alignment : in_signed 16 (tm_alignment (tm_static t));
  st_minsize : in_signed 16 (tm_minsize (tm_static t));
  st_imports : Forall storable_import (tm_imports t) /\ Z.of_nat (length (tm_imports t)) < 2 ^ 31;
  st_attributes : storable_atts t [] (tm_attributes t) /\ small t;
  st_redirection : if isRedirectTmpl t
    then exists rd, tm_redirection (tm_static t) = Some rd /\ storable_redirection true (rd_fac rd) /\ storable_redirection false (rd_evtype rd)
    else tm_redirection (tm_static t) = None;
  st_format : Forall (storable_segment t) (tm_parsed_format (tm_static t)) /\ Z.of_nat (length (tm_parsed_format (tm_static t))) < 2 ^ 31
}.
Lemma carried_short z : in_signed 16 z -> carried (writeScalar 2 z) (readScalar 2) (fun a => s16 a = z).
Proof.
  intros Hz. apply (carried_impl _ _ _ _ (carried_scalar 2 z)). intros a ->.
  change (z mod 256 ^ Z.of_nat 2) with (unsigned 16 z). rewrite signed_unsigned by lia. by apply signed_id.
Qed.
Lemma carried_imports t : Forall storable_import (tm_imports t) -> Z.of_nat (length (tm_imports t)) < 2 ^ 31 ->
  carried (writeTemplateRefs t) (readTemplateRefs import) (fun l => map (fun i => (i.1, stripped i.2)) l = map (fun i => (i.1, stripped i.2)) (tm_imports t)).
Proof.
  intros Hi Hn. unfold writeTemplateRefs, readTemplateRefs. apply (carried_seq _ _ _ _ _ _ (carried_nat _ Hn)). intros ? ->.
  rewrite Nat2Z.id. by apply carried_refs.
Qed.
(** A template of which nothing but the part before the attributes was read. *)
Record head_read (t t' : template) : Prop := {
  hr_static : tm_static t' = mkStatic (th_type (tm_static t)) (th_description (tm_static t)) (tm_name (tm_static t)) []
    (tm_alignment (tm_static t)) (tm_minsize (tm_static t)) None;
  hr_state : tm_state t' = mkState (set_flag (tm_flags (tm_state t)) TMPL_TF_IMPORTED) 0 0 None None (-1) false;
  hr_imports : same_imports t' t
}.
Lemma redirect_imported t s : tm_state s = mkState (set_flag (tm_flags (tm_state t)) TMPL_TF_IMPORTED) 0 0 None None (-1) false ->
  isRedirectTmpl s = isRedirectTmpl t.
Proof. intros E. unfold isRedirectTmpl. rewrite E. cbn [tm_flags]. rewrite has_set.
  change (has TMPL_TF_IMPORTED TMPL_TF_REDIRECT) with false. by rewrite orb_false_r. Qed.
Lemma carried_body t t' : storable t -> head_read t t' -> tm_attributes t' = [] ->
  carried
    (_ ← writeAttributes same_template t; _ ← (if isRedirectTmpl t then writeTmplRedirection t else mret tt); writeTmplFormat t)
    (t' ← readAttributes t'; t' ← (if isRedirectTmpl t' then readTmplRedirection t' else mret t'); readTmplFormat uninitialized t')
    (fun t' => stripped t' = stripped t).
Proof.
  intros [_ _ Hfresh _ _ [_ Him] [Hat Hsm] Hrd [Hseg Hln]] [Hst Hts Hi] Hnil.
  apply (carried_seq _ _ _ _ (fun r => exists l, r = set_attributes t' l /\ map strip l = map strip (tm_attributes t))).
  { unfold writeAttributes, readAttributes. apply (carried_seq _ _ _ _ _ _ (carried_nat _ Hsm)). intros ? ->. rewrite Nat2Z.id.
    replace t' with (set_attributes t' []) at 1 by (rewrite <-Hnil; by destruct t').
    apply (carried_attributes t t' (tm_attributes t) [] []); try done. unfold isMasterTmpl. by rewrite Hts, Hfresh. }
  intros ? (l & -> & Hl). rewrite (redirect_imported t (set_attributes t' l) Hts).
  apply (carried_seq _ _ _ _ (fun r => r = set_redirection (tm_redirection (tm_static t)) (set_attributes t' l))).
  { destruct (isRedirectTmpl t).
    - destruct Hrd as (rd & Hrd & Hf & He). unfold writeTmplRedirection. rewrite Hrd. apply (carried_io_w _ _ rd _ _ eq_refl).
      apply (carried_seq _ _ _ _ _ _ (carried_redirected true _ Hf)). intros ? ->.
      apply (carried_last _ _ _ _ _ (carried_redirected false _ He)). intros ? ->. by destruct rd.
    - apply carried_ret. rewrite Hrd. unfold set_redirection, set_static, set_attributes. cbn [tm_static tm_state tm_attributes tm_imports]. by rewrite Hst. }
  intros ? ->. unfold writeTmplFormat, readTmplFormat. apply (carried_seq _ _ _ _ _ _ (carried_nat _ Hln)). intros ? ->. rewrite Nat2Z.id.
  eapply carried_last.
  - apply (carried_segments t); [apply (f_equal length) in Hl; by rewrite !length_map in Hl|done..].
  - intros segs Es. unfold same_imports in Hi. revert Hst Hts Hi Hl Es Hfresh. clear.
    destruct t as [s ts atts imps], t' as [s' ts' atts' imps']. cbn. intros -> -> Hi Hl Es Hfresh.
    unfold strip_static, strip_state, set_tm_flags. cbn. rewrite Es, Hl, Hi. rewrite Hfresh. cbn.
    unfold set_flag. by rewrite <-Z.lor_assoc, Z.lor_diag.
Qed.
Lemma R_no_errors : R errors_so_far [] (fun n => n = 0).
Proof. intros buf next s rest Hn E Hs. exists 0, s. cbn [length]. by rewrite Z.add_0_r. Qed.
Lemma carried_template t : storable t ->
  carried (writeTemplate same_template t) (readTemplate uninitialized import) (fun t' => stripped t' = stripped t).
Proof.
  intros Hs. pose proof Hs as [Hh Hfl _ Hal Hmin [Himp Hn] _ _ _]. unfold writeTemplate, readTemplate.
  apply (carried_seq _ _ _ _ (fun z => z = TMPL_MAGIC)); [apply (carried_u32 TMPL_MAGIC); unfold in_unsigned, TMPL_MAGIC; lia|]. intros ? ->.
  apply (carried_io_r _ _ tt _ _ eq_refl). apply (carried_seq _ _ _ _ _ _ (carried_header t Hh)). intros ? ->.
  apply (carried_seq _ _ _ _ _ _ (carried_u32 _ Hfl)). intros ? ->. apply (carried_seq _ _ _ _ _ _ (carried_short _ Hal)). intros al Eal.
  apply (carried_seq _ _ _ _ _ _ (carried_short _ Hmin)). intros mi Emi. apply (carried_seq _ _ _ _ _ _ (carried_imports t Himp Hn)). intros refs Er.
  rewrite Eal, Emi. destruct (carried_body t (mkTemplate (mkStatic (th_type (tm_static t)) (th_description (tm_static t)) (tm_name (tm_static t)) []
    (tm_alignment (tm_static t)) (tm_minsize (tm_static t)) None) (mkState (set_flag (tm_flags (tm_state t)) TMPL_TF_IMPORTED) 0 0 None None (-1) false) [] refs)
    Hs ltac:(by split) eq_refl) as (bs & Hw & Hr).
  exists bs. split; [exact Hw|]. apply (R_bind _ _ [] bs _ _ R_no_errors). intros ? ->. exact Hr.
Qed.
Lemma tio_bind_done {A B} (x : tio A) (k : A -> tio B) tf r : (x ≫= k) tf = Done r -> exists a tf', x tf = Done (a, tf') /\ k a tf' = Done r.
Proof. unfold mbind, tio_bind. destruct (x tf) as [[a tf']|]; [|done]. intros E. by exists a, tf'. Qed.
Lemma read_template_magic bytes s r : readTemplate uninitialized import (allocTfile bytes s) = Done r ->
  (length bytes <? 4)%nat = false /\ (le_decode (take 4 bytes) =? TMPL_MAGIC) = true.
Proof.
  intros (magic & tf & Em & E)%tio_bind_done. apply tio_bind_done in E as (u & tf' & E & _).
  apply tio_bind_done in Em as (bs & tf1 & Em & Er). injection Er as Er _.
  unfold tfRead, read_mem, allocTfile in Em. cbn [tf_buf tf_next] in Em. change (Z.to_nat 0) with O in Em. rewrite drop_0 in Em.
  destruct ((0 <=? 0) && (0 + Z.of_nat 4 <=? Z.of_nat (length bytes))) eqn:El; [|done]. apply andb_true_iff in El as [_ El%Z.leb_le].
  split; [apply Nat.ltb_ge; lia|]. destruct (tfAdvance _ _) as [[? ?]|]; [|done]. change (Z.to_nat (Z.of_nat 4)) with 4%nat in Em. injection Em as <- _.
  rewrite Er. by destruct (magic =? TMPL_MAGIC).
Qed.

(** A template that is written to a file is read from it as it was: [_evlWriteTemplate] makes an
    image from which [_evlReadTemplate], whatever was allocated before, makes a template with
    the header, flags, attributes with their dimensions, delimiters, formats and constants,
    redirection, imports and format of the first. *)
Lemma template_file_keeps_template t : storable t ->
  exists bytes, _evlWriteTemplate same_template t st true (fun n => n) = Done (0, bytes) /\
    forall m, inv (structHash m) -> exists t' m', _evlReadTemplate uninitialized import (Some bytes) m = Done (Some t', m') /\
      inv (structHash m') /\ stripped t' = stripped t.
Proof.
  intros Hs. destruct (carried_template t Hs) as (bs & Hw & Hr). exists bs.
  destruct (Hw (replicate 1000 0) 0 0 ltac:(lia)) as (buf & Ew & Hl & Ht). change (Z.to_nat 0) with O in Ht. cbn [Nat.add take app] in Ht.
  split.
  - unfold _evlWriteTemplate, allocTfile. rewrite Ew. cbn [mbind outcome_bind negb]. rewrite Z.eqb_refl. cbn [assert mbind outcome_bind].
    unfold image. cbn [tf_next tf_buf]. by rewrite Z.add_0_l, Nat2Z.id, Ht.
  - intros m Hm. destruct (Hr bs 0 m [] ltac:(lia) ltac:(by rewrite app_nil_r) Hm) as (t' & m' & E & Et). exists t', m'. split; [|done].
    destruct (read_template_magic bs m _ E) as [H1 H2]. unfold _evlReadTemplate. rewrite H1, H2. cbn [orb negb].
    unfold allocTfile. by rewrite E.
Qed.
End Carried.
