(* ===== verification/TmplImport.v ===== *)
(** * Struct templates from files ([lib/template/tmplmgmt.c], lines 155-285 and 450-1155)

    A template file names the structs that its template refers to.  They are looked for next to
    the file and in the directories of [EVLTMPLPATH]; a struct template that was read once
    stays in a hash table, where it is found by its name and the identity of its file. *)
From S2P Require Import Prelude NvPairs LogRecord MemStr QEvaluate LogSink RecPack Format CPrintf Dump FmtBuf FormatRec Conv Tmpl TmplPop TmplInit TmplCheck TmplFmt TmplSerial.

(** ** Names and paths *)

(** What is in front of the last slash. *)
Fixpoint before_last_slash (s : str) : option str :=
  match s with
  | EmptyString => None
  | String c s =>
      match before_last_slash s with
      | Some d => Some (String c d)
      | None => if Ascii.eqb c "/" then Some EmptyString else None
      end
  end.
Definition _evlGetParentDir (path : str) : str :=
  match before_last_slash path with
  | None => "."
  | Some EmptyString => "/"
  | Some d => d
  end%string.
(** [pend[-1]] is in front of the block if there are no names. *)
Definition _evlMakeSlashPathFromList (l : list str) : outcome str :=
  match l with
  | [] => Fault WildRead
  | s :: l => Done (fold_left (fun path s => path ++ "/" ++ s)%string l s)
  end.
Definition _evlMakeDotPathFromList (l : list str) : outcome str :=
  path ← _evlMakeSlashPathFromList l; Done (makeDotPathFromSlashPath path).
(** A facility's template for all event types that have none has a name of its own. *)
Definition EVL_DEFAULT_EVENT_TYPE : Z := -1.
Definition makeEvlogTmplName (eventType : Z) : str :=
  if eventType =? EVL_DEFAULT_EVENT_TYPE then "default" else ("0x" ++ fmt_x (u32 eventType))%string.

(** ** The directories *)

Section Env.
(** The directory of the log, from the configuration. *)
Variable LOG_EVLOG_DIR : str.
Variable getenv : str -> option str.
Variable is_directory : str -> bool.
Definition TMPL_PATH_VAR : str := "EVLTMPLPATH".
Definition TMPL_PATH_DEFAULT : str := (LOG_EVLOG_DIR ++ "/templates")%string.
Definition getDefaultTmplPath : str :=
  match getenv "LANG" with
  | None | Some EmptyString => TMPL_PATH_DEFAULT
  | Some lang => (TMPL_PATH_DEFAULT ++ "/" ++ lang ++ ":" ++ TMPL_PATH_DEFAULT)%string
  end.
(** [strtok_r] with a colon: the tokens that are not empty. *)
Fixpoint colon_tokens (tok : str) (s : str) : list str :=
  match s with
  | EmptyString => if streqb tok EmptyString then [] else [tok]
  | String c s =>
      if Ascii.eqb c ":" then (if streqb tok EmptyString then colon_tokens EmptyString s else tok :: colon_tokens EmptyString s)
      else colon_tokens (tok ++ String c EmptyString) s
  end.
Definition figureTmplPath : list str :=
  let paths := default getDefaultTmplPath (getenv TMPL_PATH_VAR) in
  match filter (fun path => is_directory path = true) (colon_tokens EmptyString paths) with
  | [] => ["/a presumably nonexistent directory"%string]
  | l => l
  end.
End Env.

(** ** The hash table of struct templates *)

Definition HASHSZ : Z := 101.
Definition structHashArray : struct_table := replicate (Z.to_nat HASHSZ) [].
(** Characters are signed, and the hash value is a [size_t]. *)
Fixpoint hash_name (name : str) (hash : Z) : Z :=
  match name with
  | EmptyString => hash
  | String c name => hash_name name (u64 (u64 (Z.shiftl hash 1) + s8 (Z.of_nat (Ascii.nat_of_ascii c))))
  end.
Definition computeHash (name : str) (hashsz : Z) : Z := hash_name name 0 mod hashsz.
Definition strcmp_le (a b : str) : bool := match String.compare a b with Gt => false | _ => true end.
Definition sf_name (sf : struct_file) : str := tm_name (tm_static (sf_template sf)).
Fixpoint insertTemplateIntoHashList (head : list struct_file) (t : struct_file) : list struct_file :=
  match head with
  | [] => [t]
  | pt :: l => if strcmp_le (sf_name t) (sf_name pt) then t :: pt :: l else pt :: insertTemplateIntoHashList l t
  end.
Definition hash_slot {A} (slot : Z) (table : list A) : outcome A :=
  if slot <? 0 then Fault WildRead else match table !! Z.to_nat slot with Some l => Done l | None => Fault WildRead end.
(** [tm_name] is null for a template that is neither of an event nor of a struct. *)
Definition addTemplateToHash (t : struct_file) (table : struct_table) : outcome struct_table :=
  match th_type (tm_static (sf_template t)) with
  | TMPL_TH_TRACE _ _ => Fault WildRead
  | _ =>
      let slot := computeHash (sf_name t) HASHSZ in
      l ← hash_slot slot table;
      Done (<[Z.to_nat slot := insertTemplateIntoHashList l t]> table)
  end.
(** [st] is the device and the inode that are asked for, if they are. *)
Definition same_file (st : option (Z * Z)) (pt : struct_file) : bool :=
  match st with None => true | Some (dev, ino) => (dev =? tc_device pt) && (ino =? tc_inode pt) end.
Fixpoint find_in_slot (name : str) (st : option (Z * Z)) (l : list struct_file) : option template :=
  match l with
  | [] => None
  | pt :: l =>
      match String.compare name (sf_name pt) with
      | Gt => None
      | Eq => if same_file st pt then Some (sf_template pt) else find_in_slot name st l
      | Lt => find_in_slot name st l
      end
  end.
Definition findTemplateInHash (name : str) (st : option (Z * Z)) (table : struct_table) : outcome (option template) :=
  l ← hash_slot (computeHash name HASHSZ) table; Done (find_in_slot name st l).

(** ** Importing *)

(** A file: what is in it, and its identity. *)
Record tmpl_file := mkFile { f_bytes : list Z; st_dev : Z; st_ino : Z }.
Definition PATH_MAX : Z := 4096.

Section Importing.
(** The file system, where [stat] and [open] find the same files; what [fs_stringfmt] has in new
    memory; the directories of [tmplPath]. *)
Variable files : str -> option tmpl_file.
Variable uninitialized : bool.
Variable tmplPath : list str.

Definition registerStructTemplate (t : template) (st : tmpl_file) (m : memory) : outcome memory :=
  table ← addTemplateToHash (mkStructFile t (st_dev st) (st_ino st)) (structHash m);
  Done (mkMemory (mem_store m) table).

Section Paths.
(** [_evlReadTemplate] *)
Variable read : str -> memory -> outcome (option template * memory).
Definition full_path (dir structPath : str) : str := (dir ++ "/" ++ structPath ++ ".to")%string.
Definition too_long (dir structPath : str) : bool := strlen dir + strlen structPath + 6 >? PATH_MAX.
Definition _evlImportTemplateFromPaths (dir structPath : str) (m : memory) : outcome (option template * memory) :=
  if too_long dir structPath then Done (None, m)
  else
    let fullPath := full_path dir structPath in
    match files fullPath with
    | None => Done (None, m)
    | Some st =>
        let structName := if has_slash structPath then after_last_slash structPath else structPath in
        t ← findTemplateInHash structName (Some (st_dev st, st_ino st)) (structHash m);
        match t with
        | Some t => Done (Some t, m)
        | None =>
            '(t, m) ← read fullPath m;
            match t with
            | Some t => m ← registerStructTemplate t st m; Done (Some t, m)
            | None => Done (None, m)
            end
        end
    end.
Fixpoint import_from (dirs : list str) (structPath : str) (m : memory) : outcome (option template * memory) :=
  match dirs with
  | [] => Done (None, m)
  | dir :: dirs =>
      '(t, m) ← _evlImportTemplateFromPaths dir structPath m;
      match t with Some t => Done (Some t, m) | None => import_from dirs structPath m end
  end.
Definition _evlImportTemplate (primaryDir structPath : str) (m : memory) : outcome (option template * memory) :=
  import_from (primaryDir :: tmplPath) structPath m.
End Paths.

(** [_evlReadTemplate] of a path, with the imports of what it reads: the fuel is the depth of
    imports within imports. *)
Fixpoint read_template_file (fuel : nat) (path : str) (m : memory) : outcome (option template * memory) :=
  match fuel with
  | O => Fault OutOfFuel
  | S fuel =>
      _evlReadTemplate uninitialized (_evlImportTemplate (read_template_file fuel) (_evlGetParentDir path)) (f_bytes <$> files path) m
  end.
End Importing.
