(* ===== verification/TmplImportCorrect.v ===== *)
(** * A library of template files is read as it was written

    If every file holds a template that can be stored, and the structs that it names are found in
    other files without a cycle, reading a file gives its template with its structs, whatever
    has been read before. *)
From S2P Require Import Prelude NvPairs LogRecord FacNames MemStr QEvaluate LogSink RecPack Format CPrintf Dump FmtBuf FormatRec Conv Tmpl TmplPop TmplInit TmplCheck TmplTyping TmplFmt TmplSerial TmplSerialCorrect TmplImport.

(** ** The hash table of structs *)

Section Table.
(** What is known of the templates in the table. *)
Variable known : struct_file -> Prop.
Definition table_of (table : struct_table) : Prop := length table = Z.to_nat HASHSZ /\ Forall (Forall known) table.
Lemma computeHash_range name : 0 <= computeHash name HASHSZ < HASHSZ.
Proof. unfold computeHash. apply Z.mod_pos_bound. done. Qed.
Lemma table_slot table name : table_of table -> exists l, hash_slot (computeHash name HASHSZ) table = Done l /\ Forall known l.
Proof.
  intros [Hl Hk]. pose proof (computeHash_range name) as Hr. unfold hash_slot. rewrite (proj2 (Z.ltb_ge _ _)) by lia.
  destruct (lookup_lt_is_Some_2 table (Z.to_nat (computeHash name HASHSZ))) as [l E]; [rewrite Hl; lia|]. rewrite E. exists l. split; [done|].
  by eapply Forall_lookup_1.
Qed.
Lemma find_in_slot_known name st l t : Forall known l -> find_in_slot name st l = Some t ->
  exists sf, known sf /\ same_file st sf = true /\ sf_template sf = t.
Proof.
  induction 1 as [|sf l Hsf _ IH]; cbn [find_in_slot]; [done|]. destruct (String.compare name (sf_name sf)); [|done..].
  destruct (same_file st sf) eqn:E; [|done]. intros [= <-]. by exists sf.
Qed.
Lemma insert_known l sf : Forall known l -> known sf -> Forall known (insertTemplateIntoHashList l sf).
Proof.
  induction 1 as [|pt l Hpt Hl IH]; intros Hsf; cbn [insertTemplateIntoHashList]; [by constructor|].
  destruct (strcmp_le _ _); repeat constructor; auto.
Qed.
Lemma find_known name st table : table_of table -> exists o, findTemplateInHash name st table = Done o /\
  forall t, o = Some t -> exists sf, known sf /\ same_file st sf = true /\ sf_template sf = t.
Proof.
  intros Ht. destruct (table_slot table name Ht) as (l & E & Hl). exists (find_in_slot name st l). unfold findTemplateInHash. rewrite E.
  split; [done|]. intros t. by apply find_in_slot_known.
Qed.
Lemma add_known sf table : table_of table -> known sf -> isStructTmpl (sf_template sf) = true ->
  exists table', addTemplateToHash sf table = Done table' /\ table_of table'.
Proof.
  intros Ht Hsf Hs. destruct (table_slot table (sf_name sf) Ht) as (l & E & Hl). unfold addTemplateToHash, isStructTmpl in *.
  destruct (th_type (tm_static (sf_template sf))); [done..|]. rewrite E. eexists. split; [done|]. destruct Ht as [Hlen Hk]. split; [by rewrite length_insert|].
  apply Forall_insert; [done|]. by apply insert_known.
Qed.
End Table.

(** ** Libraries *)

Section Library.
Variable files : str -> option tmpl_file.
Variable uninitialized : bool.
Variable tmplPath : list str.
(** The template in a file, by the identity of the file, and how deep its structs are nested. *)
Variable lib : Z -> Z -> option template.
Variable rank : Z -> Z -> nat.
Definition held (f : tmpl_file) : option template := lib (st_dev f) (st_ino f).
Definition rank_of (f : tmpl_file) : nat := rank (st_dev f) (st_ino f).
Fixpoint located (dirs : list str) (structPath : str) : option (str * tmpl_file) :=
  match dirs with
  | [] => None
  | dir :: dirs =>
      match (if too_long dir structPath then None else files (full_path dir structPath)) with
      | Some f => Some (full_path dir structPath, f)
      | None => located dirs structPath
      end
  end.
(** What an import ought to give. *)
Definition ideal_import (path structPath : str) (m : memory) : outcome (option template * memory) :=
  Done (located (_evlGetParentDir path :: tmplPath) structPath ≫= (fun p => held p.2), m).
Definition from_library (sf : struct_file) : Prop :=
  forall t, lib (tc_device sf) (tc_inode sf) = Some t -> stripped (sf_template sf) = stripped t.
Definition table_ok : struct_table -> Prop := table_of from_library.
Record good_file (path : str) (f : tmpl_file) (t : template) : Prop := {
  gf_written : exists m same, table_ok (structHash m) /\ storable m table_ok same (ideal_import path) t /\
    _evlWriteTemplate same t m true (fun n => n) = Done (0, f_bytes f);
  gf_imports : Forall (fun i => isStructTmpl i.2 = true /\
    exists p, located (_evlGetParentDir path :: tmplPath) i.1 = Some p /\ (rank_of p.2 < rank_of f)%nat) (tm_imports t)
}.
Hypothesis library_ok : forall path f t, files path = Some f -> held f = Some t -> good_file path f t.

Lemma stripped_is_struct t t' : stripped t = stripped t' -> isStructTmpl t = isStructTmpl t'.
Proof. destruct t as [[] ? ? ?], t' as [[] ? ? ?]. unfold isStructTmpl. cbn. by intros [= -> _ _ _ _ _]. Qed.
Lemma storable_with m inv same imp imp' t : storable m inv same imp t -> Forall (storable_import inv imp') (tm_imports t) -> storable m inv same imp' t.
Proof. intros [? ? ? ? ? [? ?] ? ? ?] Hi. by constructor. Qed.
(** [_evlImportTemplate] with a reader that reads the library. *)
Section Reader.
Variable read : str -> memory -> outcome (option template * memory).
Variable depth : nat.
Hypothesis read_ok : forall path f t, files path = Some f -> held f = Some t -> (rank_of f < depth)%nat ->
  forall m, table_ok (structHash m) -> exists t' m', read path m = Done (Some t', m') /\ table_ok (structHash m') /\ stripped t' = stripped t.
Lemma from_paths_ok dir p f t m : too_long dir p = false -> files (full_path dir p) = Some f -> held f = Some t -> isStructTmpl t = true ->
  (rank_of f < depth)%nat -> table_ok (structHash m) ->
  exists t' m', _evlImportTemplateFromPaths files read dir p m = Done (Some t', m') /\ table_ok (structHash m') /\ stripped t' = stripped t.
Proof.
  intros Hl Hf Ht Hs Hr Hm. unfold _evlImportTemplateFromPaths. rewrite Hl, Hf.
  set (name := if has_slash p then after_last_slash p else p). destruct (find_known _ name (Some (st_dev f, st_ino f)) _ Hm) as ([t'|] & -> & Hfind); cbn [mbind outcome_bind].
  - destruct (Hfind t' eq_refl) as (sf & Hsf & Hsame & <-). exists (sf_template sf), m. split; [done|]. split; [done|]. apply Hsf.
    cbn in Hsame. apply andb_true_iff in Hsame as [E1%Z.eqb_eq E2%Z.eqb_eq]. rewrite <-E1, <-E2. exact Ht.
  - destruct (read_ok _ _ _ Hf Ht Hr m Hm) as (t' & m' & -> & Hm' & E). unfold registerStructTemplate. cbn [mbind outcome_bind].
    destruct (add_known _ (mkStructFile t' (st_dev f) (st_ino f)) (structHash m') Hm') as (table & -> & Htable).
    + intros t0 Ht0. cbn in Ht0. unfold held in Ht. cbn. congruence.
    + cbn. by rewrite (stripped_is_struct _ _ E).
    + cbn [mbind outcome_bind]. by eexists _, _.
Qed.
Lemma import_ok dirs p path f t m : located dirs p = Some (path, f) -> held f = Some t -> isStructTmpl t = true -> (rank_of f < depth)%nat ->
  table_ok (structHash m) ->
  exists t' m', import_from files read dirs p m = Done (Some t', m') /\ table_ok (structHash m') /\ stripped t' = stripped t.
Proof.
  intros Hloc Ht Hs Hr Hm. induction dirs as [|dir dirs IH]; [done|]. cbn [located import_from] in *.
  destruct (too_long dir p) eqn:Hl; [|destruct (files (full_path dir p)) as [f'|] eqn:Hf].
  - unfold _evlImportTemplateFromPaths at 1. rewrite Hl. by apply IH.
  - injection Hloc as <- <-. destruct (from_paths_ok dir p f' t m Hl Hf Ht Hs Hr Hm) as (t' & m' & -> & H1 & H2). by eexists _, _.
  - unfold _evlImportTemplateFromPaths at 1. rewrite Hl, Hf. by apply IH.
Qed.
End Reader.

Lemma file_is_read n path f t m : files path = Some f -> held f = Some t -> (rank_of f < n)%nat -> table_ok (structHash m) ->
  exists t' m', read_template_file files uninitialized tmplPath n path m = Done (Some t', m') /\ table_ok (structHash m') /\ stripped t' = stripped t.
Proof.
  revert path f t m. induction n as [|n IH]; intros path f t m Hf Ht Hr Hm; [lia|]. cbn [read_template_file]. rewrite Hf. cbn [fmap option_fmap option_map].
  destruct (library_ok path f t Hf Ht) as [(wm & same & Hwm & Hst & Hw) Himp].
  set (imp := _evlImportTemplate files tmplPath (read_template_file files uninitialized tmplPath n) (_evlGetParentDir path)).
  assert (Hst' : storable wm table_ok same imp t).
  { apply (storable_with _ _ _ _ _ _ Hst). destruct Hst as [_ _ _ _ _ [Hi _] _ _ _]. rewrite Forall_forall in Hi, Himp |- *.
    intros i Hin. destruct (Hi i Hin) as [Hn Hid]. split; [done|]. intros m0 Hm0. destruct (Himp i Hin) as (Hs & [path' f'] & Hloc & Hrank).
    destruct (Hid m0 Hm0) as (t0 & m1 & E & _ & Et). unfold ideal_import in E. rewrite Hloc in E. cbn in E. injection E as E _.
    destruct (import_ok (read_template_file files uninitialized tmplPath n) n (fun _ _ _ a b c m => IH _ _ _ m a b c) _ _ _ _ t0 m0 Hloc E
                ltac:(by rewrite (stripped_is_struct _ _ Et)) ltac:(cbn in Hrank; lia) Hm0) as (t' & m' & H1 & H2 & H3).
    exists t', m'. split; [exact H1|]. split; [done|]. congruence. }
  destruct (template_file_keeps_template wm table_ok Hwm same uninitialized imp t Hst') as (bytes & Hw' & Hread).
  rewrite Hw in Hw'. injection Hw' as ->. by apply Hread.
Qed.
(** Files that are read one after the other. *)
Fixpoint read_all (n : nat) (paths : list str) (m : memory) : outcome (list (option template) * memory) :=
  match paths with
  | [] => Done ([], m)
  | path :: paths =>
      '(t, m) ← read_template_file files uninitialized tmplPath n path m;
      '(ts, m) ← read_all n paths m;
      Done (t :: ts, m)
  end.
End Library.
