(* ===== verification/TmplFileSamples.v ===== *)
(** * Template files at work

    A template with most of what a file can hold is written and read back, with the struct that it
    imports from another file; what a file does not keep, and structs that are not found. *)
From S2P Require Import Prelude NvPairs LogRecord FacNames MemStr QEvaluate LogSink RecPack Format CPrintf Dump FmtBuf FormatRec FormatRecCorrect Conv Tmpl TmplPop TmplInit TmplCheck TmplSafe TmplLayout TmplSamples TmplFmt TmplText TmplFmtFuel TmplFmtSamples TmplSerial TmplSerialCorrect TmplImport TmplImportCorrect.

#[local] Instance machine_here : HostLib := bare_machine.
#[local] Instance no_real_text4 : TextOfReal := { text_of_real _ _ := None }.

Definition catt (name : str) (ty : base_type) (dim : option tmpl_dimension) (v : tmpl_value template) (i : nat) : tmpl_attribute :=
  mkAttr (Some name) ty None dim TMPL_AFS_DEFAULT false None None v (set_flag EVL_ATTR_CONST EVL_ATTR_EXISTS) i.
Definition figure : template :=
  mkTemplate
    (mkStatic (TMPL_TH_EVLOG 8 (-3)) (Some "a figure"%string) "0x8.0xfffffffd" 
      [EVL_FS_ATTR 0 None; lit " "; TSEG (EVL_FS_MEMBER 7 (Some "%x"%string) false); TSEG (EVL_FS_ATTNAME "p.x" None false); EVL_FS_ATTR 5 (Some "%s"%string)]
      4 12 (Some (mkRedir (Some (TMPL_RD_CONST 4096)) (Some (TMPL_RD_ATTNAME "kind")))))
    (mkState (set_flag TMPL_TF_REDIRECT TMPL_TF_ALIGNED) 0 0 None None (-1) false)
    [fatt "state" TY_UCHAR None None (TMPL_AFS_BITMAP states) None 0;
     fatt "kind" TY_SHORT None None (TMPL_AFS_VALNM [mkBitmap 7 (-8) "line"]) None 1;
     fatt "p" TY_STRUCT (Some point) None TMPL_AFS_DEFAULT None 2;
     fatt "w" TY_UCHAR None (Some (mkDim (TMPL_DIM_ATTR 1) 0 50)) (TMPL_AFS_ARRAY "%02x" "S") (Some (mkDelim (TMPL_DELIM_ATTR 0) 51)) 3;
     fatt "ps" TY_STRUCT (Some point) (Some (mkDim (TMPL_DIM_ATTNAME "p.y") 0 52)) (TMPL_AFS_IZARRAY "#%d=%s" "IZ")
       (Some (mkDelim (TMPL_DELIM_CONST "; ") 53)) 4;
     catt "version" TY_INT None (VInt (-2)) 5;
     catt "unit" TY_STRING None (VString "mm") 6;
     catt "primes" TY_SHORT (Some (mkDim TMPL_DIM_CONST 3 54)) (VArray true [2; 0; 3; 0; 5; 0]) 7;
     catt "names" TY_STRING (Some (mkDim TMPL_DIM_CONST 2 55)) (VArray true [120; 0; 121; 122; 0]) 8;
     fatt "tail" TY_CHAR None (Some (mkDim TMPL_DIM_REST 0 56)) TMPL_AFS_DUMP None 9]%string
    [("geo/point"%string, point)].
Definition by_name (a b : template) : bool := bool_decide (tm_name (tm_static a) = tm_name (tm_static b)).
Definition fresh_memory : memory := mkMemory fresh_store structHashArray.
Lemma figure_attributes_are_storable : storable_atts fresh_memory by_name figure [] (tm_attributes figure).
Proof.
  assert (Hflags : forall f, (0 <=? f) && (f <? 2 ^ 32) = true -> in_unsigned 32 f) by (intros f; unfold in_unsigned; lia).
  assert (Hpoint : forall l, imported by_name (before figure l) point) by (intros l; exists 0%nat, "geo/point"%string; vm_compute; done).
  cbn [figure tm_attributes storable_atts app].
  repeat (split; [split; try reflexivity; try (by apply Hflags); try exact I|]); try exact I;
    lazymatch goal with
    | |- exists b, _ = Some b /\ _ => eexists; split; vm_compute; done
    | |- exists mem, _ /\ _ => eexists; split; [reflexivity|by vm_compute]
    | |- storable_fmt _ => split; [repeat (apply Forall_cons_2 || apply Forall_nil_2)|]; vm_compute; intuition discriminate
    | |- storable_type _ _ _ => exists point; by split
    | |- _ => vm_compute; first [done | by repeat constructor | intuition discriminate]
    end.
Qed.
Lemma figure_is_storable inv imp : storable_import inv imp ("geo/point"%string, point) -> storable fresh_memory inv by_name imp figure.
Proof.
  intros Hi. constructor.
  - by repeat split.
  - done.
  - done.
  - done.
  - done.
  - split; [|done]. constructor; [exact Hi|constructor].
  - split; [apply figure_attributes_are_storable|done].
  - exists (mkRedir (Some (TMPL_RD_CONST 4096)) (Some (TMPL_RD_ATTNAME "kind"))). by repeat split.
  - split; [|done]. repeat constructor; by vm_compute.
Qed.
Lemma point_is_storable inv imp : storable fresh_memory inv by_name imp point.
Proof.
  constructor.
  - by repeat split.
  - done.
  - done.
  - done.
  - done.
  - done.
  - split; [|done]. cbn. repeat (split; [split; by vm_compute|]). done.
  - done.
  - split; [|done]. repeat constructor; by vm_compute.
Qed.
Definition stored (t : template) : list Z :=
  match _evlWriteTemplate by_name t fresh_memory true (fun n => n) with Done (_, bytes) => bytes | Fault _ => [] end.
(** The files of a small library, with their inodes. *)
Definition files_here (path : str) : option tmpl_file :=
  if streqb path "/t/kern/figure.to" then Some (mkFile (stored figure) 1 10)
  else if streqb path "/t/geo/point.to" then Some (mkFile (stored point) 1 11)
  else None.
Definition lib_here (dev ino : Z) : option template := if ino =? 10 then Some figure else if ino =? 11 then Some point else None.
Definition rank_here (dev ino : Z) : nat := if ino =? 10 then 1 else 0.
Lemma fresh_table_ok : table_ok lib_here (structHash fresh_memory).
Proof. split; [done|]. apply Forall_replicate. constructor. Qed.
Lemma library_here path f t : files_here path = Some f -> held lib_here f = Some t -> good_file files_here ["/t"%string] lib_here rank_here path f t.
Proof.
  unfold files_here, streqb. case_bool_decide as E1; [|case_bool_decide as E2; [|done]]; intros [= <-] [= <-]; rewrite ?E1, ?E2.
  - split.
    + exists fresh_memory, by_name. split; [apply fresh_table_ok|]. split; [|by vm_compute].
      apply figure_is_storable. split; [done|]. intros m Hm. by exists point, m.
    + repeat constructor. eexists. split; [by vm_compute|]. cbn. lia.
  - split; [|constructor]. exists fresh_memory, by_name. split; [apply fresh_table_ok|]. split; [apply point_is_storable|by vm_compute].
Qed.
Definition no_import (path : str) (m : memory) : outcome (option template * memory) := Done (None, m).
Definition reloaded (uninitialized : bool) (t : template) : option template :=
  match _evlReadTemplate uninitialized no_import (Some (stored t)) fresh_memory with Done (t, _) => t | Fault _ => None end.
(** Files that cannot be read: no file, a file that is no template, and one whose import fails. *)
Lemma unreadable_files :
  _evlReadTemplate false no_import None fresh_memory = Done (None, fresh_memory) /\
  _evlReadTemplate false no_import (Some [13; 240; 237]) fresh_memory = Done (None, fresh_memory) /\
  _evlReadTemplate false no_import (Some (replicate 100 0)) fresh_memory = Done (None, fresh_memory) /\
  _evlReadTemplate false no_import (Some (stored figure)) fresh_memory = Done (None, fresh_memory).
Proof. vm_compute. done. Qed.
(** A truncated file makes the reader stop, or read what is not there. *)
Lemma truncated_file : _evlReadTemplate false no_import (Some (take 30 (stored figure))) fresh_memory = Fault WildRead.
Proof. vm_compute. done. Qed.
(** The names in a slot are in order, but a search gives up at the first smaller one: of two names
    in a slot the larger one is not found, and its file is read again with every import. *)
Lemma larger_name_is_not_found : exists table,
  (addTemplateToHash (mkStructFile (fmaster "ip" [] []) 1 20) structHashArray ≫= addTemplateToHash (mkStructFile (fmaster "x" [] []) 1 21)) = Done table /\
  findTemplateInHash "ip" (Some (1, 20)) table = Done (Some (fmaster "ip" [] [])) /\ findTemplateInHash "x" (Some (1, 21)) table = Done None.
Proof. eexists. split; [by vm_compute|]. by vm_compute. Qed.
(** A file that names its own struct is read until the stack is full. *)
Definition itself : template := mkTemplate (tm_static point) (tm_state point) (tm_attributes point) [("point"%string, point)].
Definition files_itself (path : str) : option tmpl_file := if streqb path "/t/geo/point.to" then Some (mkFile (stored itself) 1 11) else None.
Lemma cyclic_import : read_template_file files_itself false [] 40 "/t/geo/point.to" fresh_memory = Fault OutOfFuel.
Proof. vm_compute. done. Qed.
(** What [fs_stringfmt] says is not in the file: the severity that is printed with [%10s]
    gets an integer, of which [%s] has no text. *)
Definition with_severity : template := fmaster "with_severity" [] [TSEG (EVL_FS_MEMBER POSIX_LOG_ENTRY_SEVERITY (Some "%10s"%string) true)].
Definition severity_text (t : template) : option (outcome str) :=
  match t with
  | mkTemplate s _ _ _ =>
      match tm_parsed_format s with
      | [TSEG (EVL_FS_MEMBER m userfmt stringfmt)] =>
          Some (match format_member string_record m userfmt stringfmt (_evlMakeFmtBuf (Some (replicate 20 0))) with
                | Some f => Done (cstring (fb_buf f))
                | None => Fault Undefined
                end)
      | _ => None
      end
  end.
Lemma stringfmt_is_not_stored :
  severity_text with_severity = Some (Done "       ERR"%string) /\ (reloaded false with_severity ≫= severity_text) = Some (Done EmptyString).
Proof. vm_compute. done. Qed.
