(* ===== verification/TmplCache.v ===== *)
(** * The cache of templates for events ([lib/template/tmplmgmt.c], lines 103-320 and 680-1742)

    A program gets the template for the facility and the event type of a record as an object: a
    clone of the master that was read from a file.  What was looked for stays in a hash
    table of FETs (facility, event type, template), also if there was nothing to find.  A
    template may redirect to that of another facility and event type. *)
From S2P Require Import Prelude NvPairs LogRecord FacNames MemStr QEvaluate LogSink RecPack Format CPrintf Dump FmtBuf FormatRec Conv Tmpl TmplPop TmplApi TmplInit TmplCheck TmplFmt TmplSerial TmplImport.

(** ** Objects *)

(** [fet_t]: the template is the index of an object, the default that of another FET. *)
Record fet := mkFet { fet_facility : Z; fet_eventType : Z; fet_template : option nat; fet_default : option nat; fet_flags : Z }.
Definition FET_NOTTHERE : Z := 1.
(** A template with [tm_master] and [tm_ref_count]; an object that was freed is none. *)
Record object := mkObject { o_tmpl : template; o_master : option nat; o_refs : Z }.
(** FETs are never freed.  A slot of [evrecHash] is a list of FETs. *)
Record cache := mkCache {
  evrecHash : list (list nat);
  fets : list fet;
  objects : list (option object);
  c_mem : memory
}.
Definition cm (A : Type) : Type := cache -> outcome (A * cache).
#[export] Instance cm_ret : MRet cm := fun A a c => Done (a, c).
#[export] Instance cm_bind : MBind cm := fun A B f x c => match x c with Done (a, c) => f a c | Fault e => Fault e end.
Definition cdo {A} (o : outcome A) : cm A := fun c => match o with Done a => Done (a, c) | Fault e => Fault e end.
Definition the_cache : cm cache := fun c => Done (c, c).
Definition set_cache (c : cache) : cm unit := fun _ => Done (tt, c).
Definition get_fet (i : nat) : cm fet := c ← the_cache; cdo (reading (fets c !! i)).
Definition set_fet (i : nat) (f : fet) : cm unit :=
  c ← the_cache; set_cache (mkCache (evrecHash c) (<[i := f]> (fets c)) (objects c) (c_mem c)).
(** An object that was freed must not be used. *)
Definition get_object (i : nat) : cm object :=
  c ← the_cache; cdo (match objects c !! i with Some (Some o) => Done o | _ => Fault WildRead end).
Definition put_object (i : nat) (o : option object) : cm unit :=
  c ← the_cache; set_cache (mkCache (evrecHash c) (fets c) (<[i := o]> (objects c)) (c_mem c)).
Definition new_object (o : object) : cm nat :=
  c ← the_cache; _ ← set_cache (mkCache (evrecHash c) (fets c) (objects c ++ [Some o]) (c_mem c)); mret (length (objects c)).
Definition on_mem {A} (f : memory -> outcome (A * memory)) : cm A := fun c =>
  match f (c_mem c) with Done (a, m) => Done (a, mkCache (evrecHash c) (fets c) (objects c) m) | Fault e => Fault e end.
Definition on_mem_store {A} (f : store -> outcome (A * store)) : cm A :=
  on_mem (fun m => '(a, s) ← f (mem_store m); Done (a, mkMemory s (structHash m))).

Definition is_master (o : object) : bool := bool_decide (o_master o = None).
Definition add_refs (i : nat) (n : Z) : cm unit :=
  o ← get_object i; put_object i (Some (mkObject (o_tmpl o) (o_master o) (o_refs o + n))).
(** [_evlCloneTemplate] *)
Definition clone_object (i : nat) : cm nat :=
  o ← get_object i;
  t ← on_mem_store (_evlCloneTemplate (o_tmpl o));
  _ ← add_refs i 1;
  new_object (mkObject t (Some i) 0).
(** [_evlFreeTemplate]; what belongs to the template goes with it. *)
Definition free_object (i : nat) : cm unit :=
  o ← get_object i;
  _ ← cdo (assert (o_refs o =? 0));
  _ ← (match o_master o with Some m => add_refs m (-1) | None => mret tt end);
  put_object i None.
(** [getFacility] and [getEventType] read the header's union as that of an event's template. *)
Definition header_key (t : template) : outcome (Z * Z) :=
  match th_type (tm_static t) with
  | TMPL_TH_EVLOG fac evty => Done (fac, evty)
  | TMPL_TH_TRACE major minor => Done (u32 major, minor)
  | TMPL_TH_STRUCT _ => Fault Undefined
  end.

(** ** The hash table of FETs *)

Definition evrecHashArray : list (list nat) := replicate (Z.to_nat HASHSZ) [].
Definition makeFET (fac eventType : Z) (t dflt : option nat) (flags : Z) : cm nat :=
  c ← the_cache;
  _ ← set_cache (mkCache (evrecHash c) (fets c ++ [mkFet fac eventType t dflt flags]) (objects c) (c_mem c));
  mret (length (fets c)).
(** The facility is unsigned; the remainder has the sign of [n], and the result is a [size_t]. *)
Definition computeHashByFET (fac evtype hashsz : Z) : Z :=
  let n := s32 (fac + evtype) in u64 (Z.rem (if n <? 0 then s32 (- n) else n) hashsz).
Fixpoint insertFETIntoHashList (l : list fet) (head : list nat) (i : nat) (et : Z) : outcome (list nat) :=
  match head with
  | [] => Done [i]
  | p :: head =>
      pfet ← reading (l !! p);
      if et <=? fet_eventType pfet then Done (i :: p :: head)
      else head ← insertFETIntoHashList l head i et; Done (p :: head)
  end.
Definition addFETToHash (i : nat) : cm unit :=
  f ← get_fet i; c ← the_cache;
  let slot := computeHashByFET (fet_facility f) (fet_eventType f) HASHSZ in
  l ← cdo (hash_slot slot (evrecHash c));
  l ← cdo (insertFETIntoHashList (fets c) l i (fet_eventType f));
  set_cache (mkCache (<[Z.to_nat slot := l]> (evrecHash c)) (fets c) (objects c) (c_mem c)).
(** The difference of two event types may overflow. *)
Fixpoint find_in_fets (fac eventType : Z) (l : list fet) (head : list nat) : outcome (option nat) :=
  match head with
  | [] => Done None
  | p :: head =>
      pfet ← reading (l !! p);
      let cmp := s32 (fet_eventType pfet - eventType) in
      if cmp >? 0 then Done None
      else if (cmp =? 0) && (fet_facility pfet =? fac) then Done (Some p)
      else find_in_fets fac eventType l head
  end.
Definition findFETInHash (fac eventType : Z) : cm (option nat) :=
  c ← the_cache;
  l ← cdo (hash_slot (computeHashByFET fac eventType HASHSZ) (evrecHash c));
  cdo (find_in_fets fac eventType (fets c) l).
Definition addTemplateToFETHash (i : nat) : cm unit :=
  o ← get_object i;
  '(fac, evty) ← cdo (header_key (o_tmpl o));
  f ← findFETInHash fac evty;
  match f with
  | Some f =>
      v ← get_fet f;
      _ ← cdo (assert (bool_decide (fet_template v = None)));
      set_fet f (mkFet (fet_facility v) (fet_eventType v) (Some i) None (fet_flags v))
  | None => f ← makeFET fac evty (Some i) None 0; addFETToHash f
  end.

(** ** Looking for a template *)

Definition TMPL_REUSE1CLONE : Z := 0x1.
Definition TMPL_LAZYDEPOP : Z := 0x2.
Definition TMPL_IGNOREALL : Z := 0x4.

Section Manager.
Context `{HostLib}.
Variable files : str -> option tmpl_file.
Variable uninitialized : bool.
Variable tmplPath : list str.
(** How deep imports may be nested. *)
Variable import_depth : nat.
Variable _evlTmplMgmtFlags : Z.
Definition _evlReadTemplate_at : str -> memory -> outcome (option template * memory) := read_template_file files uninitialized tmplPath import_depth.

(** The template, a clone if [clone], and the flags of its FET. *)
Definition findEvlogTemplate (facility eventType : Z) (clone : bool) : cm (option nat * Z) :=
  f ← findFETInHash facility eventType;
  match f with
  | None => mret (None, 0)
  | Some f =>
      v ← get_fet f;
      let f := default f (fet_default v) in
      v ← get_fet f;
      match fet_template v with
      | None => mret (None, fet_flags v)
      | Some t =>
          o ← get_object t;
          if is_master o then
            if clone then
              cl ← clone_object t;
              _ ← (if has _evlTmplMgmtFlags TMPL_REUSE1CLONE then set_fet f (mkFet (fet_facility v) (fet_eventType v) (Some cl) (fet_default v) (fet_flags v))
                   else mret tt);
              mret (Some cl, fet_flags v)
            else mret (Some t, fet_flags v)
          else mret (if clone then Some t else o_master o, fet_flags v)
      end
  end.
Definition templateMatchesPath (t : template) (facility event_type : Z) : outcome bool :=
  '(tfac, tevty) ← header_key t; Done ((tfac =? facility) && (tevty =? event_type)).
(** The path of a template, relative to a directory; [None] if the facility has no name.  For an
    empty name [subpath] would not be initialized. *)
Definition template_subpath (facility event_type : Z) : outcome (option str) :=
  match posix_log_factostr facility POSIX_LOG_MEMSTR_MAXLEN with
  | inl _ => Done None
  | inr facName =>
      match _evlGenCanonicalFacilityName (Some facName) with
      | Some dir => Done (Some (dir ++ "/" ++ makeEvlogTmplName event_type ++ ".to")%string)
      | None => Fault Undefined
      end
  end.
(** The loop over the directories: the object, or the status so far. *)
Fixpoint search_dirs (dirs : list str) (subpath : str) (facility event_type : Z) (clone : bool) (status : Z) : cm (Z + nat) :=
  match dirs with
  | [] => mret (inl status)
  | dir :: dirs =>
      if strlen dir + 1 + strlen subpath + 1 >? PATH_MAX then search_dirs dirs subpath facility event_type clone status
      else
        let path := (dir ++ "/" ++ subpath)%string in
        match files path with
        | None => search_dirs dirs subpath facility event_type clone status
        | Some _ =>
            t ← on_mem (_evlReadTemplate_at path);
            match t with
            | None => search_dirs dirs subpath facility event_type clone EIO
            | Some t =>
                ok ← cdo (templateMatchesPath t facility event_type);
                if ok : bool then
                  i ← new_object (mkObject t None 0);
                  i ← (if clone then clone_object i else mret i);
                  _ ← addTemplateToFETHash i;
                  mret (inr i)
                else search_dirs dirs subpath facility event_type clone EIO
            end
        end
  end.
(** The status and [*template]; the second call is for the facility's default. *)
Fixpoint readTemplateLocked (fuel : nat) (facility event_type : Z) (clone : bool) : cm (Z + nat) :=
  match fuel with
  | O => cdo (Fault OutOfFuel)
  | S fuel =>
      if has _evlTmplMgmtFlags TMPL_IGNOREALL then mret (inl ENOENT)
      else
        '(t, flags) ← findEvlogTemplate facility event_type clone;
        match t with
        | Some t => mret (inr t)
        | None =>
            if has flags FET_NOTTHERE then mret (inl ENOENT)
            else
              subpath ← cdo (template_subpath facility event_type);
              r ← (match subpath with
                   | Some subpath => search_dirs tmplPath subpath facility event_type clone 0
                   | None => mret (inl 0)
                   end);
              match r with
              | inr t => mret (inr t)
              | inl status =>
                  r ← (if event_type =? EVL_DEFAULT_EVENT_TYPE then mret (inl status)
                       else
                         r ← readTemplateLocked fuel facility EVL_DEFAULT_EVENT_TYPE clone;
                         mret (match r with inl status2 => inl (if status =? 0 then status2 else status) | inr t => inr t end));
                  match r with
                  | inr t =>
                      dflt ← findFETInHash facility EVL_DEFAULT_EVENT_TYPE;
                      _ ← cdo (assert (bool_decide (is_Some dflt)));
                      f ← makeFET facility event_type None dflt 0;
                      _ ← addFETToHash f;
                      mret (inr t)
                  | inl status =>
                      f ← makeFET facility event_type None None FET_NOTTHERE;
                      _ ← addFETToHash f;
                      mret (inl (if status =? 0 then ENOENT else status))
                  end
              end
        end
  end.
(** The cache is locked meanwhile. *)
Definition evl_readtemplate (facility event_type : Z) (clone : bool) : cm (Z + nat) := readTemplateLocked 2 facility event_type clone.

(** ** Giving templates back *)

Definition evl_freetemplate (t : option nat) : cm Z :=
  match t with
  | None => mret EINVAL
  | Some t =>
      o ← get_object t;
      if negb (o_refs o =? 0) then mret EINVAL
      else
        '(fac, evty) ← cdo (header_key (o_tmpl o));
        f ← findFETInHash fac evty;
        _ ← (match f with
             | Some f =>
                 v ← get_fet f;
                 if bool_decide (fet_template v = Some t) then set_fet f (mkFet (fet_facility v) (fet_eventType v) (o_master o) (fet_default v) (fet_flags v))
                 else mret tt
             | None => mret tt
             end);
        _ ← free_object t;
        mret 0
  end.
Definition evl_releasetemplate (t : option nat) : cm Z :=
  match t with
  | None => mret EINVAL
  | Some i =>
      o ← get_object i;
      if negb (o_refs o =? 0) then mret EINVAL
      else
        _ ← (if has _evlTmplMgmtFlags TMPL_LAZYDEPOP then mret tt
             else put_object i (Some (mkObject (evl_depopulatetemplate (o_tmpl o)) (o_master o) (o_refs o))));
        if negb (is_master o) && has _evlTmplMgmtFlags TMPL_REUSE1CLONE then mret 0 else evl_freetemplate t
  end.

(** ** Redirection *)

(** The record that is looked at. *)
Variable entry : posix_log_entry.
Variable buf : option (list Z).
Definition populate_object (i : nat) : cm Z :=
  o ← get_object i;
  r ← on_mem_store (fun s => r ← evl_populatetemplate (o_tmpl o) entry buf s;
                             match r with inl status => Done (inl status, s) | inr (t, s) => Done (inr t, s) end);
  match r with
  | inl status => mret status
  | inr t => _ ← put_object i (Some (mkObject t (o_master o) (o_refs o))); mret 0
  end.
(** A template that is populated already is not populated again. *)
Definition getRedirectionAtt (attName : str) (i : nat) : cm (Z + tmpl_attribute) :=
  o ← get_object i;
  status ← (if isPopulatedTmpl (o_tmpl o) then mret 0 else populate_object i);
  if negb (status =? 0) then mret (inl status)
  else
    o ← get_object i;
    match evltemplate_getatt (Some (o_tmpl o)) (Some attName) true with
    | inl _ => mret (inl ENOENT)
    | inr att =>
        if isArray att then mret (inl EINVAL)
        else if negb (attExists att) then mret (inl ENOENT)
        else if isIntegerAtt att || bool_decide (ta_type att = TY_STRING) then mret (inr att)
        else mret (inl EINVAL)
    end.
Definition att_string (att : tmpl_attribute) : outcome str := match ta_value att with VString s => Done s | _ => Fault WildRead end.
Definition att_number (att : tmpl_attribute) : outcome Z := match ta_value att with VInt z => Done z | _ => Fault Undefined end.
(** A facility that is not registered is an error; every string makes an event type. *)
Definition redirect_facility (ra : redirectedAttribute) (fac : Z) (i : nat) : cm (Z + Z) :=
  match ra with
  | TMPL_RD_NONE => mret (inr fac)
  | TMPL_RD_CONST code => mret (inr (u32 code))
  | TMPL_RD_ATTNAME name =>
      r ← getRedirectionAtt name i;
      match r with
      | inl status => mret (inl status)
      | inr att =>
          if bool_decide (ta_type att = TY_STRING) then s ← cdo (att_string att); mret (match posix_log_strtofac (Some s) with inl _ => inl ENOENT | inr f => inr f end)
          else z ← cdo (att_number att); mret (inr (u32 (u64 z)))
      end
  end.
Definition redirect_event_type (ra : redirectedAttribute) (evty : Z) (i : nat) : cm (Z + Z) :=
  match ra with
  | TMPL_RD_NONE => mret (inr evty)
  | TMPL_RD_CONST code => mret (inr (s32 code))
  | TMPL_RD_ATTNAME name =>
      r ← getRedirectionAtt name i;
      match r with
      | inl status => mret (inl status)
      | inr att =>
          if bool_decide (ta_type att = TY_STRING) then s ← cdo (att_string att); mret (inr (evl_gen_event_type_v2 s))
          else z ← cdo (att_number att); mret (inr (s32 (s64 z)))
      end
  end.
Definition redirect2 (i : nat) (rd : tmpl_redirection) (key : Z * Z) : cm (Z + Z * Z) :=
  fac ← (match rd_fac rd with Some ra => redirect_facility ra key.1 i | None => mret (inr key.1) end);
  match fac with
  | inl status => mret (inl status)
  | inr fac =>
      evty ← (match rd_evtype rd with Some ra => redirect_event_type ra key.2 i | None => mret (inr key.2) end);
      mret (match evty with inl status => inl status | inr evty => inr (fac, evty) end)
  end.
(** The keys that were redirected from are kept, to find loops. *)
Definition redirect (i : nat) (rd : tmpl_redirection) (history : list (Z * Z)) (key : Z * Z) : cm (Z + Z * Z) :=
  if bool_decide (key ∈ history) then mret (inl ENOENT) else redirect2 i rd key.

Record getting := mkGetting { g_key : Z * Z; g_history : list (Z * Z); g_prev : option nat; g_last : option nat; g_cache : cache }.
(** One round of the loop of [evl_gettemplate]: the status and [*template], at its end. *)
Definition gettemplate_step (g : getting) : getting + outcome ((Z + nat) * cache) :=
  let finish status last c := inr (Done (match last with Some t => inr t | None => inl status end, c)) in
  match evl_readtemplate (g_key g).1 (g_key g).2 true (g_cache g) with
  | Fault e => inr (Fault e)
  | Done (inl status, c) => finish status (g_last g) c
  | Done (inr t, c) =>
      match (_ ← (match g_prev g with Some p => evl_releasetemplate (Some p) | None => mret 0 end);
             o ← get_object t;
             match tm_redirection (tm_static (o_tmpl o)) with
             | None => mret None
             | Some rd => r ← redirect t rd (g_history g) (g_key g); mret (Some r)
             end : cm _) c with
      | Fault e => inr (Fault e)
      | Done (None, c) => finish 0 (Some t) c
      | Done (Some (inl status), c) => finish status (Some t) c
      | Done (Some (inr key), c) => inl (mkGetting key (g_history g ++ [g_key g]) (Some t) (Some t) c)
      end
  end.
(** There are not more keys than this. *)
Definition MAX_REDIRECTIONS : positive := 2 ^ 64 + 2.
Definition evl_gettemplate : cm (Z + nat) := fun c =>
  match loop gettemplate_step MAX_REDIRECTIONS (mkGetting (log_facility entry, log_event_type entry) [] None None c) with
  | inl _ => Fault OutOfFuel
  | inr r => r
  end.
End Manager.
(** The flags can be set once. *)
Definition evltemplate_initmgr (alreadyCalled : bool) (old flags : Z) : Z * (bool * Z) :=
  if alreadyCalled then (EINVAL, (true, old)) else (0, (true, flags)).
