(* ===== verification/TmplCacheCorrect.v ===== *)
(** * The cache gives the template that the files define

    While the files do not change, whatever was looked up and given back before, a lookup gives an
    object of the template in the first file for the facility and the event type, or else of the
    facility's default, and an error if there is none. *)
From Stdlib Require Import Sorting.Sorted.
From S2P Require Import Prelude NvPairs LogRecord FacNames MemStr QEvaluate LogSink RecPack Format CPrintf Dump FmtBuf FormatRec Conv Tmpl TmplPop TmplApi TmplInit TmplCheck TmplTyping TmplFmt TmplSerial TmplSerialCorrect TmplImport TmplImportCorrect TmplCache.

(** ** The hash table of FETs *)

Abbreviation key_of v := (fet_facility v, fet_eventType v).
(** The sum of a facility and an event type must not be the smallest [int]. *)
Definition key_ok (fac evty : Z) : Prop := in_unsigned 32 fac /\ in_signed 32 evty /\ s32 (fac + evty) <> - 2 ^ 31.
Lemma hash_range fac evty : key_ok fac evty -> 0 <= computeHashByFET fac evty HASHSZ < HASHSZ.
Proof.
  intros (_ & _ & Hn). unfold computeHashByFET. pose proof (signed_range 32 (fac + evty) ltac:(lia)) as Hr. cbv zeta. set (n := s32 (fac + evty)) in *.
  assert (0 <= (if n <? 0 then s32 (- n) else n)) as Hp.
  { destruct (Z.ltb_spec n 0); [|lia]. rewrite signed_id; [lia..|]. unfold in_signed in *. lia. }
  pose proof (Z.rem_bound_pos _ HASHSZ Hp ltac:(done)) as Hb. rewrite unsigned_id; [done|]. unfold in_unsigned, HASHSZ in *. lia.
Qed.
Lemma same_event_type a b : in_signed 32 a -> in_signed 32 b -> s32 (a - b) = 0 -> a = b.
Proof.
  intros Ha Hb E. assert (E' : signed 32 (a - b) mod 2 ^ 32 = 0) by (rewrite E; done).
  change (unsigned 32 (signed 32 (a - b)) = 0) in E'. rewrite unsigned_signed in E' by lia. unfold unsigned, in_signed in *.
  apply Z.mod_divide in E' as [k Hk]; lia.
Qed.
(** A slot holds FETs with its hash value, in the order of their event types. *)
Definition in_slot (l : list fet) (h : Z) (p : nat) : Prop :=
  exists v, l !! p = Some v /\ key_ok (fet_facility v) (fet_eventType v) /\ computeHashByFET (fet_facility v) (fet_eventType v) HASHSZ = h.
Definition et_of (l : list fet) (p : nat) : Z := match l !! p with Some v => fet_eventType v | None => 0 end.
Definition slot_ok (l : list fet) (h : Z) (slot : list nat) : Prop :=
  Forall (in_slot l h) slot /\ StronglySorted (fun p q => et_of l p <= et_of l q) slot.
(** FETs keep their keys. *)
Definition same_keys (l l' : list fet) : Prop := forall p v, l !! p = Some v -> exists v', l' !! p = Some v' /\ key_of v' = key_of v.
Lemma same_keys_in_slot l l' h p : same_keys l l' -> in_slot l h p -> in_slot l' h p /\ et_of l' p = et_of l p.
Proof.
  intros Hs (v & Hv & Hk & Hh). destruct (Hs p v Hv) as (v' & Hv' & [= E1 E2]). unfold in_slot, et_of. rewrite Hv, Hv'. split; [|done].
  exists v'. by rewrite E1, E2.
Qed.
Lemma same_keys_slot l l' h slot : same_keys l l' -> slot_ok l h slot -> slot_ok l' h slot.
Proof.
  intros Hs [Hin Hsort]. split.
  - eapply Forall_impl; [exact Hin|]. intros p Hp. by apply (same_keys_in_slot l l').
  - induction Hsort as [|p slot Hsort IH Hp]; constructor.
    + apply IH. by inversion Hin.
    + inversion Hin as [|? ? Hp0 Hin']; subst. rewrite Forall_forall in Hp, Hin' |- *. intros q Hq.
      rewrite (proj2 (same_keys_in_slot _ _ _ _ Hs Hp0)), (proj2 (same_keys_in_slot _ _ _ _ Hs (Hin' q Hq))). by apply Hp.
Qed.
Lemma find_done l h slot fac evty : slot_ok l h slot -> key_ok fac evty -> exists o, find_in_fets fac evty l slot = Done o /\
  forall p, o = Some p -> exists v, p ∈ slot /\ l !! p = Some v /\ key_of v = (fac, evty).
Proof.
  intros [Hin _] Hk. induction Hin as [|p slot (v & Hv & Hkv & _) _ (o & E & Ho)]; cbn [find_in_fets]; [by exists None|]. rewrite Hv. cbn [reading mbind outcome_bind].
  destruct (_ >? 0); [by exists None|]. destruct (s32 (fet_eventType v - evty) =? 0) eqn:Ec; [|].
  - destruct (fet_facility v =? fac) eqn:Ef; cbn [andb].
    + exists (Some p). split; [done|]. intros q [= <-]. exists v. split; [apply list_elem_of_here|]. split; [done|].
      apply Z.eqb_eq in Ec, Ef. rewrite Ef. f_equal. apply same_event_type; [apply Hkv|apply Hk|done].
    + exists o. split; [done|]. intros q Hq. destruct (Ho q Hq) as (w & H1 & H2). exists w. split; [by apply list_elem_of_further|done].
  - exists o. split; [done|]. intros q Hq. destruct (Ho q Hq) as (w & H1 & H2). exists w. split; [by apply list_elem_of_further|done].
Qed.
Lemma find_same_keys l l' h slot fac evty : same_keys l l' -> slot_ok l h slot -> find_in_fets fac evty l' slot = find_in_fets fac evty l slot.
Proof.
  intros Hs [Hin _]. induction Hin as [|p slot (v & Hv & _) _ IH]; [done|]. cbn [find_in_fets]. destruct (Hs p v Hv) as (v' & Hv' & [= E1 E2]).
  rewrite Hv, Hv'. cbn [reading mbind outcome_bind]. by rewrite E1, E2, IH.
Qed.
Lemma insert_done l h slot i v : slot_ok l h slot -> l !! i = Some v -> exists l1 l2, slot = l1 ++ l2 /\
  insertFETIntoHashList l slot i (fet_eventType v) = Done (l1 ++ i :: l2) /\ Forall (fun p => et_of l p < fet_eventType v) l1 /\
  Forall (fun p => fet_eventType v <= et_of l p) l2.
Proof.
  intros [Hin Hsort] Hi. induction Hsort as [|p slot Hsort IH Hp]; cbn [insertFETIntoHashList]; [by exists [], []|].
  inversion Hin as [|? ? (w & Hw & _) Hin']; subst. rewrite Hw. cbn [reading mbind outcome_bind]. destruct (Z.leb_spec (fet_eventType v) (fet_eventType w)).
  - exists [], (p :: slot). split; [done|]. split; [done|]. split; [constructor|]. unfold et_of in Hp |- * at 1. rewrite Hw in Hp. constructor; [by rewrite Hw|].
    eapply Forall_impl; [exact Hp|]. cbn. intros q Hq. etrans; [done|]. exact Hq.
  - destruct (IH Hin') as (l1 & l2 & -> & -> & H1 & H2). exists (p :: l1), l2. split; [done|]. split; [done|]. split; [|done].
    constructor; [|done]. unfold et_of. by rewrite Hw.
Qed.
Lemma insert_slot_ok l h l1 l2 i v : slot_ok l h (l1 ++ l2) -> l !! i = Some v -> in_slot l h i ->
  Forall (fun p => et_of l p < fet_eventType v) l1 -> Forall (fun p => fet_eventType v <= et_of l p) l2 -> slot_ok l h (l1 ++ i :: l2).
Proof.
  intros [Hin Hsort] Hi Hh H1 H2. assert (Ei : et_of l i = fet_eventType v) by (unfold et_of; by rewrite Hi). split.
  - apply Forall_app in Hin as [Ha Hb]. apply Forall_app. split; [done|]. by constructor.
  - clear Hin. induction l1 as [|p l1 IH]; cbn [app] in *.
    + constructor; [done|]. by rewrite Ei.
    + inversion Hsort as [|? ? Hs Hp]; inversion H1; subst. constructor; [by apply IH|]. apply Forall_app in Hp as [Hpa Hpb].
      apply Forall_app. split; [done|]. constructor; [lia|done].
Qed.
(** A FET that is put in front of another is found instead of it, or hides it. *)
Lemma find_insert l fac evty l1 l2 i o o' : find_in_fets fac evty l (l1 ++ l2) = Done o -> find_in_fets fac evty l (l1 ++ i :: l2) = Done o' ->
  o' = o \/ o' = None \/ o' = Some i.
Proof.
  induction l1 as [|p l1 IH]; cbn [app find_in_fets].
  - intros E. destruct (l !! i); [|done]. cbn [reading mbind outcome_bind]. destruct (_ >? 0); [intros [= <-]; auto|]. destruct (_ && _); [intros [= <-]; auto|].
    rewrite E. intros [= <-]. auto.
  - destruct (l !! p); [|done]. cbn [reading mbind outcome_bind]. destruct (_ >? 0); [intros [= <-] [= <-]; auto|].
    destruct (_ && _); [intros [= <-] [= <-]; auto|]. apply IH.
Qed.
Lemma default_cmp et : in_signed 32 et -> s32 (et - EVL_DEFAULT_EVENT_TYPE) = if et =? 2 ^ 31 - 1 then - 2 ^ 31 else et + 1.
Proof.
  intros He. unfold EVL_DEFAULT_EVENT_TYPE. replace (et - -1) with (et + 1) by lia. destruct (Z.eqb_spec et (2 ^ 31 - 1)) as [->|Hn]; [done|].
  apply signed_id; [lia|]. unfold in_signed in *. lia.
Qed.
Lemma no_default l h fac slot : Forall (in_slot l h) slot -> Forall (fun p => 0 <= et_of l p) slot -> find_in_fets fac EVL_DEFAULT_EVENT_TYPE l slot = Done None.
Proof.
  induction 1 as [|p slot (v & Hv & (_ & He & _) & _) _ IH]; [done|]. intros H0. inversion H0 as [|? ? Hp Hs]; subst. cbn [find_in_fets].
  unfold et_of in Hp. rewrite Hv in *. cbn [reading mbind outcome_bind]. rewrite default_cmp by done.
  destruct (fet_eventType v =? 2 ^ 31 - 1); [by apply IH|]. by destruct (Z.gtb_spec (fet_eventType v + 1) 0); [|lia].
Qed.
(** The FET of a facility's default is never hidden. *)
Lemma find_default_insert l h fac l1 l2 i v : slot_ok l h (l1 ++ l2) -> l !! i = Some v -> key_ok (fet_facility v) (fet_eventType v) ->
  Forall (fun p => et_of l p < fet_eventType v) l1 -> Forall (fun p => fet_eventType v <= et_of l p) l2 ->
  find_in_fets fac EVL_DEFAULT_EVENT_TYPE l (l1 ++ i :: l2) =
    if bool_decide (key_of v = (fac, EVL_DEFAULT_EVENT_TYPE)) then Done (Some i) else find_in_fets fac EVL_DEFAULT_EVENT_TYPE l (l1 ++ l2).
Proof.
  intros [Hin Hsort] Hi Hk H1 H2. induction l1 as [|p l1 IH]; cbn [app].
  - cbn [find_in_fets]. rewrite Hi. cbn [reading mbind outcome_bind]. destruct Hk as (_ & He & _). rewrite default_cmp by done. case_bool_decide as Ek.
    + injection Ek as -> ->. change (EVL_DEFAULT_EVENT_TYPE =? 2 ^ 31 - 1) with false. change (EVL_DEFAULT_EVENT_TYPE + 1) with 0. cbn [Z.gtb Z.compare Z.eqb andb]. by rewrite Z.eqb_refl.
    + destruct (Z.eqb_spec (fet_eventType v) (2 ^ 31 - 1)); [done|]. destruct (Z.gtb_spec (fet_eventType v + 1) 0).
      * symmetry. apply (no_default l h); [done|]. eapply Forall_impl; [exact H2|]. cbn. lia.
      * destruct (Z.eqb_spec (fet_eventType v + 1) 0) as [E0|]; [|done]. destruct (Z.eqb_spec (fet_facility v) fac); [|done].
        destruct Ek. unfold EVL_DEFAULT_EVENT_TYPE. f_equal; [done|lia].
  - inversion Hin as [|? ? Hp Hin']; subst. inversion Hsort as [|? ? Hsort' Hlt]; subst. inversion H1 as [|? ? Hpv H1']; subst.
    cbn [find_in_fets]. pose proof Hp as (w & Hw & (_ & He & _) & _). unfold et_of in Hpv. rewrite Hw in *. cbn [reading mbind outcome_bind]. rewrite default_cmp by done.
    destruct (Z.eqb_spec (fet_eventType w) (2 ^ 31 - 1)); [cbn [Z.gtb Z.compare Z.eqb Z.opp Z.pow Z.pow_pos Pos.iter andb]; by apply IH|].
    destruct (Z.gtb_spec (fet_eventType w + 1) 0).
    + case_bool_decide as Ek; [|done]. injection Ek as _ Ee. unfold EVL_DEFAULT_EVENT_TYPE in Ee. lia.
    + destruct ((_ =? 0) && _) eqn:Ec; [|by apply IH]. apply andb_true_iff in Ec as [Ec%Z.eqb_eq _]. case_bool_decide as Ek; [|done].
      injection Ek as _ Ee. unfold EVL_DEFAULT_EVENT_TYPE in Ee. lia.
Qed.

Definition table_wf (c : cache) : Prop := length (evrecHash c) = Z.to_nat HASHSZ /\
  forall h slot, evrecHash c !! h = Some slot -> slot_ok (fets c) (Z.of_nat h) slot.
(** What a search for a key finds. *)
Definition found (c : cache) (fac evty : Z) : option nat :=
  match hash_slot (computeHashByFET fac evty HASHSZ) (evrecHash c) ≫= find_in_fets fac evty (fets c) with Done o => o | Fault _ => None end.
Lemma wf_slot c fac evty : table_wf c -> key_ok fac evty -> exists slot,
  hash_slot (computeHashByFET fac evty HASHSZ) (evrecHash c) = Done slot /\ evrecHash c !! Z.to_nat (computeHashByFET fac evty HASHSZ) = Some slot /\
  slot_ok (fets c) (computeHashByFET fac evty HASHSZ) slot.
Proof.
  intros [Hl Hs] Hk. pose proof (hash_range fac evty Hk) as Hr. unfold hash_slot. rewrite (proj2 (Z.ltb_ge _ _)) by lia.
  destruct (lookup_lt_is_Some_2 (evrecHash c) (Z.to_nat (computeHashByFET fac evty HASHSZ))) as [slot E]; [rewrite Hl; lia|]. rewrite E. exists slot.
  split; [done|]. split; [done|]. specialize (Hs _ _ E). by rewrite Z2Nat.id in Hs by lia.
Qed.
Lemma find_ok c fac evty : table_wf c -> key_ok fac evty -> findFETInHash fac evty c = Done (found c fac evty, c) /\
  forall p, found c fac evty = Some p -> exists v, fets c !! p = Some v /\ key_of v = (fac, evty).
Proof.
  intros Hc Hk. destruct (wf_slot c fac evty Hc Hk) as (slot & E & _ & Hs). destruct (find_done _ _ _ fac evty Hs Hk) as (o & Eo & Ho).
  unfold findFETInHash, found, the_cache, cdo, mbind, cm_bind. rewrite E. cbn [outcome_bind]. rewrite Eo. split; [done|].
  intros p Hp. destruct (Ho p Hp) as (v & _ & Hv). by exists v.
Qed.
Definition with_fet (c : cache) (v : fet) : cache := mkCache (evrecHash c) (fets c ++ [v]) (objects c) (c_mem c).
Lemma same_keys_snoc l v : same_keys l (l ++ [v]).
Proof. intros p w Hp. exists w. split; [|done]. by apply lookup_app_l_Some. Qed.
Lemma add_ok c v : table_wf c -> key_ok (fet_facility v) (fet_eventType v) -> exists c', addFETToHash (length (fets c)) (with_fet c v) = Done (tt, c') /\
  fets c' = fets c ++ [v] /\ objects c' = objects c /\ c_mem c' = c_mem c /\ table_wf c' /\
  (forall f e p, key_ok f e -> found c' f e = Some p -> p = length (fets c) \/ found c f e = Some p) /\
  (forall f, key_ok f EVL_DEFAULT_EVENT_TYPE -> found c' f EVL_DEFAULT_EVENT_TYPE =
     if bool_decide (key_of v = (f, EVL_DEFAULT_EVENT_TYPE)) then Some (length (fets c)) else found c f EVL_DEFAULT_EVENT_TYPE).
Proof.
  intros Hc Hk. pose proof Hc as [Hlen Hslots]. destruct (wf_slot c _ _ Hc Hk) as (slot & E & Elk & Hs). set (h := computeHashByFET _ _ _) in *.
  set (i := length (fets c)). assert (Hi : (fets c ++ [v]) !! i = Some v) by (unfold i; by rewrite lookup_app_r, Nat.sub_diag by lia).
  pose proof (same_keys_slot _ _ _ _ (same_keys_snoc (fets c) v) Hs) as Hs'.
  destruct (insert_done _ _ _ i v Hs' Hi) as (l1 & l2 & -> & Eins & H1 & H2).
  pose proof (hash_range _ _ Hk) as Hr. fold h in Hr.
  set (c' := mkCache (<[Z.to_nat h := l1 ++ i :: l2]> (evrecHash c)) (fets c ++ [v]) (objects c) (c_mem c)).
  assert (Hadd : addFETToHash i (with_fet c v) = Done (tt, c')).
  { unfold addFETToHash, get_fet, the_cache, set_cache, cdo, mbind, cm_bind. cbn [fets evrecHash with_fet objects c_mem]. rewrite Hi. cbn [reading]. cbv beta iota zeta. fold h.
    change (evrecHash (with_fet c v)) with (evrecHash c). rewrite E. cbv beta iota. change (fets (with_fet c v)) with (fets c ++ [v]). rewrite Eins. done. }
  assert (Hnew : slot_ok (fets c ++ [v]) h (l1 ++ i :: l2)) by (apply (insert_slot_ok _ _ _ _ _ v); try done; by exists v).
  assert (Hsplit : forall f e, key_ok f e -> (found c' f e = found c f e /\ h <> computeHashByFET f e HASHSZ) \/
    exists o o', found c' f e = o' /\ found c f e = o /\ h = computeHashByFET f e HASHSZ /\
      find_in_fets f e (fets c ++ [v]) (l1 ++ l2) = Done o /\ find_in_fets f e (fets c ++ [v]) (l1 ++ i :: l2) = Done o').
  { intros f e Hfe. pose proof (hash_range f e Hfe) as Hr'. unfold found. cbn [evrecHash fets c']. destruct (wf_slot c f e Hc Hfe) as (slot & E' & Elk' & Hslot).
    destruct (decide (h = computeHashByFET f e HASHSZ)) as [Eh|Eh].
    - rewrite <-Eh in E', Hslot |- *. rewrite E in E'. injection E' as <-. right. rewrite E. unfold hash_slot. rewrite (proj2 (Z.ltb_ge _ _)) by lia.
      rewrite list_lookup_insert_eq by (rewrite Hlen; lia). cbn [mbind outcome_bind].
      destruct (find_done _ _ _ f e Hs' Hfe) as (o & Eo & _). destruct (find_done _ _ _ f e Hnew Hfe) as (o' & Eo' & _). exists o, o'.
      rewrite Eo'. split; [done|]. rewrite <-(find_same_keys _ _ _ _ f e (same_keys_snoc (fets c) v) Hs), Eo. done.
    - left. split; [|done]. unfold hash_slot in E' |- *. rewrite (proj2 (Z.ltb_ge _ _)) in * by lia. rewrite list_lookup_insert_ne by lia. rewrite Elk'. cbn [mbind outcome_bind].
      by rewrite (find_same_keys _ _ _ _ f e (same_keys_snoc (fets c) v) Hslot). }
  exists c'. split; [done|]. split; [done|]. split; [done|]. split; [done|]. split; [|split].
  - split; [cbn [evrecHash c']; by rewrite length_insert|]. intros h' slot'. cbn [evrecHash fets c']. intros Hl'.
    apply list_lookup_insert_Some in Hl' as [(<- & <- & _)|[_ Hl']]; [by rewrite Z2Nat.id by lia|].
    apply (same_keys_slot (fets c)); [apply same_keys_snoc|by apply Hslots].
  - intros f e p Hfe Hp. destruct (Hsplit f e Hfe) as [[E1 _]|(o & o' & Eo' & Eo & _ & F & F')]; [right; congruence|].
    rewrite Eo' in Hp. destruct (find_insert _ _ _ _ _ _ _ _ F F') as [Ho|[Ho|Ho]]; [right; congruence|congruence|left; congruence].
  - intros f Hfe. destruct (Hsplit f _ Hfe) as [[E1 Eh]|(o & o' & Eo' & Eo & _ & F & F')].
    + case_bool_decide as Ek; [|done]. injection Ek as E2 E3. destruct Eh. unfold h. by rewrite E2, E3.
    + rewrite (find_default_insert _ _ f _ _ _ _ Hs' Hi Hk H1 H2), F in F'. rewrite Eo', Eo. case_bool_decide; congruence.
Qed.

(** ** Running operations *)

Lemma cm_step {A B} (x : cm A) (k : A -> cm B) c a c' : x c = Done (a, c') -> (x ≫= k) c = k a c'.
Proof. intros E. unfold mbind, cm_bind. by rewrite E. Qed.
Lemma cdo_step {A B} (o : outcome A) (k : A -> cm B) c a : o = Done a -> (cdo o ≫= k) c = k a c.
Proof. intros ->. done. Qed.
Lemma get_fet_ok p v c : fets c !! p = Some v -> get_fet p c = Done (v, c).
Proof. intros E. unfold get_fet, the_cache, cdo, mbind, cm_bind. by rewrite E. Qed.
Lemma get_object_ok i o c : objects c !! i = Some (Some o) -> get_object i c = Done (o, c).
Proof. intros E. unfold get_object, the_cache, cdo, mbind, cm_bind. by rewrite E. Qed.

(** ** Masters and their clones *)

Definition clone_of (i : nat) (x : option object) : Z := match x with Some o => if decide (o_master o = Some i) then 1 else 0 | None => 0 end.
Fixpoint clones (i : nat) (l : list (option object)) : Z := match l with [] => 0 | x :: l => clone_of i x + clones i l end.
Lemma clones_app i l x : clones i (l ++ [x]) = clones i l + clone_of i x.
Proof. induction l as [|y l IH]; cbn [app clones]; lia. Qed.
Lemma clones_insert i l j x y : l !! j = Some x -> clones i (<[j:=y]> l) = clones i l - clone_of i x + clone_of i y.
Proof.
  revert j. induction l as [|z l IH]; intros [|j] E; [done|done|..].
  - injection E as ->. change (clone_of i y + clones i l = clone_of i x + clones i l - clone_of i x + clone_of i y). lia.
  - change (clone_of i z + clones i (<[j:=y]> l) = clone_of i z + clones i l - clone_of i x + clone_of i y). rewrite (IH j E). lia.
Qed.
Lemma clone_of_pos i x : 0 <= clone_of i x.
Proof. unfold clone_of. destruct x as [o|]; [|done]. destruct (decide _); lia. Qed.
Lemma clones_pos i l : 0 <= clones i l.
Proof. induction l as [|x l IH]; cbn [clones]; [done|]. pose proof (clone_of_pos i x). lia. Qed.
Lemma no_clones i l j o : clones i l = 0 -> l !! j = Some (Some o) -> o_master o <> Some i.
Proof.
  revert j. induction l as [|x l IH]; intros [|j]; cbn [clones lookup list_lookup]; [done|done|..]; pose proof (clones_pos i l); pose proof (clone_of_pos i x).
  - intros Hc [= ->]. unfold clone_of in *. destruct (decide _); [lia|done].
  - intros Hc. apply IH. lia.
Qed.
Lemma clones_none i l : (forall j o, l !! j = Some (Some o) -> o_master o <> Some i) -> clones i l = 0.
Proof.
  induction l as [|x l IH]; intros Hn; cbn [clones]; [done|]. rewrite IH by (intros j; apply (Hn (S j))). unfold clone_of.
  destruct x as [o|]; [|done]. rewrite decide_False by (by apply (Hn O)). done.
Qed.
Lemma stripped_header t t' : stripped t = stripped t' -> th_type (tm_static t) = th_type (tm_static t').
Proof. destruct t as [[] ? ? ?], t' as [[] ? ? ?]. cbn. by intros [= -> _ _ _ _ _]. Qed.
(** What [_evlCloneTemplate] asks of a template. *)
Definition clonable_att (a : tmpl_attribute) : bool :=
  isConstAtt a || match ta_dimension a with
                  | Some d => match td_type d with TMPL_DIM_IMPLIED => has (ta_flags a) EVL_ATTR_IMPLDIM | _ => true end
                  | None => true
                  end.
Definition clonable (t : template) : bool := isMasterTmpl t && negb (isPopulatedTmpl t) && forallb clonable_att (tm_attributes t).
Lemma clonable_stripped t t' : stripped t = stripped t' -> clonable t = clonable t'.
Proof.
  assert (E : forall t, clonable (stripped t) = clonable t); [|intros Et; by rewrite <-(E t), <-(E t'), Et].
  clear. intros t. unfold clonable. f_equal; [f_equal|].
  - apply stripped_clone.
  - destruct t as [s [] atts imps]. unfold isPopulatedTmpl. cbn. rewrite has_set. change (has TMPL_TF_IMPORTED TMPL_TF_POPULATED) with false. by rewrite orb_false_r.
  - rewrite stripped_attributes. induction (tm_attributes t) as [|a l IH]; [done|]. cbn [map forallb]. rewrite IH. f_equal. clear IH.
    unfold clonable_att, isConstAtt. rewrite strip_flags. f_equal. destruct a as [? ? ? dim]. cbn. destruct dim as [d|]; [|done]. by destruct d.
Qed.
Lemma clone_attributes_done l : forall s, forallb clonable_att l = true -> exists l' s', clone_attributes l s = Done (l', s').
Proof.
  induction l as [|a l IH]; intros s; cbn [forallb clone_attributes]; [by eexists _, _|]. intros [Ha Hl]%andb_true_iff.
  assert (exists a' s', cloneAttribute a s = Done (a', s')) as (a' & s' & Ea).
  { unfold cloneAttribute, clonable_att in *. destruct (isConstAtt a); [by eexists _, _|]. cbn [orb] in Ha. unfold clone_dimension.
    destruct (ta_dimension a) as [d|]; [|destruct (clone_delimiter a s) eqn:Ed; cbn; rewrite Ed; by eexists _, _].
    destruct (td_type d); cbn -[clone_delimiter] in Ha |- *; try (destruct (clone_delimiter a _) eqn:Ed; cbn; rewrite ?Ed; by eexists _, _).
    rewrite Ha. cbn -[clone_delimiter]. destruct (clone_delimiter a _) eqn:Ed. by eexists _, _. }
  rewrite Ea. cbn [mbind outcome_bind]. destruct (IH s' Hl) as (l' & s2 & El). rewrite El. by eexists _, _.
Qed.
Lemma clone_done t s : clonable t = true -> exists t' s', _evlCloneTemplate t s = Done (t', s') /\ tm_static t' = tm_static t.
Proof.
  unfold clonable. intros [[Hm Hp]%andb_true_iff Hl]%andb_true_iff. unfold _evlCloneTemplate. rewrite Hm, Hp. cbn [assert mbind outcome_bind].
  destruct (clone_attributes_done _ s Hl) as (l' & s' & El). rewrite El. cbn [mbind outcome_bind]. eexists _, _. by split.
Qed.

(** ** What the files define *)

Section Manager.
Context `{HostLib}.
Variable files : str -> option tmpl_file.
Variable uninitialized : bool.
Variable tmplPath : list str.
Variable lib : Z -> Z -> option template.
Variable rank : Z -> Z -> nat.
Variable import_depth : nat.
Variable _evlTmplMgmtFlags : Z.
Abbreviation keys_ok := (fun fac evty => key_ok fac evty /\ key_ok fac EVL_DEFAULT_EVENT_TYPE).
(** The files: a library, and files that hold no template, which are refused. *)
Record good_files : Prop := {
  gl_library : forall path f t, files path = Some f -> held lib f = Some t -> good_file files tmplPath lib rank path f t;
  gl_depth : forall f, (rank_of rank f < import_depth)%nat;
  gl_broken : forall path f m, files path = Some f -> held lib f = None -> table_ok lib (structHash m) ->
    exists m', read_template_file files uninitialized tmplPath import_depth path m = Done (None, m') /\ table_ok lib (structHash m');
  gl_facilities : forall fac evty, exists o, template_subpath fac evty = Done o;
  gl_events : forall fac evty sub dir f t, template_subpath fac evty = Done (Some sub) -> files (dir ++ "/" ++ sub)%string = Some f -> held lib f = Some t ->
    clonable t = true /\ exists fac' evty', th_type (tm_static t) = TMPL_TH_EVLOG fac' evty'
}.
Definition is_for (t : template) (fac evty : Z) : bool :=
  match th_type (tm_static t) with TMPL_TH_EVLOG f e => (f =? fac) && (e =? evty) | _ => false end.
Lemma is_for_spec t fac evty : is_for t fac evty = true <-> th_type (tm_static t) = TMPL_TH_EVLOG fac evty.
Proof.
  unfold is_for. destruct (th_type _) as [f e| |]; [|done..]. rewrite andb_true_iff, !Z.eqb_eq. split; [by intros [-> ->]|by intros [= -> ->]].
Qed.
(** The template in the first directory that has it. *)
Fixpoint found_in (dirs : list str) (sub : str) (fac evty : Z) : option template :=
  match dirs with
  | [] => None
  | dir :: dirs =>
      if strlen dir + 1 + strlen sub + 1 >? PATH_MAX then found_in dirs sub fac evty
      else
        match files (dir ++ "/" ++ sub)%string ≫= held lib with
        | Some t => if is_for t fac evty then Some t else found_in dirs sub fac evty
        | None => found_in dirs sub fac evty
        end
  end.
Definition specific (fac evty : Z) : option template :=
  match template_subpath fac evty with Done (Some sub) => found_in tmplPath sub fac evty | _ => None end.
Definition template_for (fac evty : Z) : option template :=
  match specific fac evty with
  | Some t => Some t
  | None => if evty =? EVL_DEFAULT_EVENT_TYPE then None else specific fac EVL_DEFAULT_EVENT_TYPE
  end.
Hypothesis files_ok : good_files.
Hypothesis looking : has _evlTmplMgmtFlags TMPL_IGNOREALL = false.

Lemma found_in_ok dirs sub fac evty t : template_subpath fac evty = Done (Some sub) -> found_in dirs sub fac evty = Some t ->
  clonable t = true /\ th_type (tm_static t) = TMPL_TH_EVLOG fac evty.
Proof.
  intros Hsub. induction dirs as [|dir dirs IH]; cbn [found_in]; [done|]. destruct (_ >? _); [done|].
  destruct (files _) as [f|] eqn:Ef; cbn [mbind option_bind]; [|done]. destruct (held lib f) as [t0|] eqn:Eh; [|done]. destruct (is_for t0 fac evty) eqn:Et; [|done].
  intros [= <-]. split; [|by apply is_for_spec]. by destruct (gl_events files_ok fac evty sub dir f t0 Hsub Ef Eh).
Qed.
Lemma specific_ok fac evty t : specific fac evty = Some t -> clonable t = true /\ th_type (tm_static t) = TMPL_TH_EVLOG fac evty.
Proof. unfold specific. destruct (template_subpath fac evty) as [[sub|]|] eqn:E; [|done..]. by apply found_in_ok. Qed.

(** ** The cache as it should be *)

(** The object is [t] or a clone of it. *)
Definition of_template (c : cache) (o : object) (t : template) : Prop :=
  match o_master o with
  | None => stripped (o_tmpl o) = stripped t
  | Some m => exists om, objects c !! m = Some (Some om) /\ o_master om = None /\ tm_static (o_tmpl o) = tm_static (o_tmpl om) /\ stripped (o_tmpl om) = stripped t
  end.
Definition live (c : cache) (i : nat) (o : object) : Prop := objects c !! i = Some (Some o).
Definition object_ok (c : cache) (o : object) : Prop := exists fac evty t, th_type (tm_static (o_tmpl o)) = TMPL_TH_EVLOG fac evty /\
  keys_ok fac evty /\ specific fac evty = Some t /\ of_template c o t.
Definition fet_ok (c : cache) (v : fet) : Prop :=
  let fac := fet_facility v in let evty := fet_eventType v in
  match fet_template v, fet_default v with
  | Some i, None => has (fet_flags v) FET_NOTTHERE = false /\ exists o, live c i o /\ th_type (tm_static (o_tmpl o)) = TMPL_TH_EVLOG fac evty
  | None, Some d => has (fet_flags v) FET_NOTTHERE = false /\ specific fac evty = None /\ is_Some (specific fac EVL_DEFAULT_EVENT_TYPE) /\
      evty <> EVL_DEFAULT_EVENT_TYPE /\ found c fac EVL_DEFAULT_EVENT_TYPE = Some d
  | None, None => has (fet_flags v) FET_NOTTHERE = true -> template_for fac evty = None
  | Some _, Some _ => False
  end.
Record cache_ok (c : cache) : Prop := {
  co_table : table_wf c;
  co_structs : table_ok lib (structHash (c_mem c));
  co_objects : forall i o, live c i o -> object_ok c o /\ o_refs o = clones i (objects c);
  co_fets : forall fac evty p v, keys_ok fac evty -> found c fac evty = Some p -> fets c !! p = Some v -> fet_ok c v
}.
(** Objects stay what they are. *)
Definition keeps (c c' : cache) : Prop := forall i o, live c i o -> exists o', live c' i o' /\ o_tmpl o' = o_tmpl o /\ o_master o' = o_master o.
Lemma keeps_of_template c c' o t : keeps c c' -> of_template c o t -> of_template c' o t.
Proof.
  intros Hk. unfold of_template. destruct (o_master o) as [m|]; [|done]. intros (om & Hm & H1 & H2 & H3). destruct (Hk m om Hm) as (om' & Hm' & E1 & E2).
  exists om'. by rewrite E1, E2.
Qed.
Lemma keeps_object c c' o : keeps c c' -> object_ok c o -> object_ok c' o.
Proof. intros Hk (fac & evty & t & H1 & H2 & H3 & H4). exists fac, evty, t. split; [done|]. split; [done|]. split; [done|]. by apply (keeps_of_template c). Qed.
Lemma keeps_fet c c' v : keeps c c' -> (forall d, fet_default v = Some d -> found c (fet_facility v) EVL_DEFAULT_EVENT_TYPE = Some d ->
  is_Some (specific (fet_facility v) EVL_DEFAULT_EVENT_TYPE) -> found c' (fet_facility v) EVL_DEFAULT_EVENT_TYPE = Some d) -> fet_ok c v -> fet_ok c' v.
Proof.
  intros Hk Hd. unfold fet_ok. destruct (fet_template v) as [i|], (fet_default v) as [d|]; [done|..|done].
  - intros (Hf & o & Ho & Ht). destruct (Hk i o Ho) as (o' & Ho' & E & _). split; [done|]. exists o'. by rewrite E.
  - intros (H1 & H2 & H3 & H4 & H5). repeat (split; [done|]). by apply Hd.
Qed.
Lemma keeps_refl c : keeps c c.
Proof. intros i o Ho. by exists o. Qed.
Lemma keeps_trans c1 c2 c3 : keeps c1 c2 -> keeps c2 c3 -> keeps c1 c3.
Proof. intros H1 H2 i o Ho. destruct (H1 i o Ho) as (o' & Ho' & E1 & E2). destruct (H2 i o' Ho') as (o2 & Ho2 & E3 & E4). exists o2. by rewrite E3, E4. Qed.

Lemma found_keys c c' : table_wf c -> evrecHash c' = evrecHash c -> same_keys (fets c) (fets c') ->
  table_wf c' /\ forall f e, key_ok f e -> found c' f e = found c f e.
Proof.
  intros Hc Eh Hk. pose proof Hc as [Hl Hs]. split.
  - split; [by rewrite Eh|]. intros h slot. rewrite Eh. intros Hsl. apply (same_keys_slot (fets c)); [done|]. by apply Hs.
  - intros f e Hfe. destruct (wf_slot c f e Hc Hfe) as (slot & E & _ & Hslot). unfold found. rewrite Eh, E. cbn [mbind outcome_bind].
    by rewrite (find_same_keys _ _ _ _ f e Hk Hslot).
Qed.
Lemma same_keys_refl l : same_keys l l.
Proof. intros p v Hp. by exists v. Qed.
Lemma same_keys_set l p v v' : l !! p = Some v -> key_of v' = key_of v -> same_keys l (<[p:=v']> l).
Proof.
  intros Hp E q w Hq. destruct (decide (p = q)) as [<-|Hn].
  - exists v'. rewrite list_lookup_insert_eq by (by eapply lookup_lt_Some). split; [done|]. congruence.
  - exists w. by rewrite list_lookup_insert_ne.
Qed.
(** Objects and memory change, and the table does not. *)
Lemma objects_changed c c' : cache_ok c -> evrecHash c' = evrecHash c -> fets c' = fets c -> table_ok lib (structHash (c_mem c')) -> keeps c c' ->
  (forall i o, live c' i o -> object_ok c' o /\ o_refs o = clones i (objects c')) -> cache_ok c'.
Proof.
  intros [Ht _ _ Hf] Eh Ef Hm Hk Ho. destruct (found_keys c c' Ht Eh) as [Ht' Hfound]; [rewrite Ef; apply same_keys_refl|].
  split; [done..|]. intros fac evty p v Hkey Hp Hv. rewrite Hfound in Hp by apply Hkey. rewrite Ef in Hv.
  apply (keeps_fet c); [done| |by eapply Hf]. destruct (find_ok c fac evty Ht (proj1 Hkey)) as [_ Hw]. destruct (Hw p Hp) as (w & Hw' & Ek).
  assert (w = v) as -> by congruence. injection Ek as -> _. intros d _ Hd _. by rewrite Hfound by apply Hkey.
Qed.
Lemma live_new c o i x : live (mkCache (evrecHash c) (fets c) (objects c ++ [Some o]) (c_mem c)) i x <-> live c i x \/ (i = length (objects c) /\ x = o).
Proof.
  unfold live. cbn [objects]. rewrite lookup_app_Some. split.
  - intros [Hi|[Hl Hi]]; [by left|]. destruct (i - length (objects c))%nat as [|k] eqn:E; [|by destruct k]. cbn in Hi. injection Hi as ->. right. split; [lia|done].
  - intros [Hi|[-> ->]]; [by left|]. right. split; [lia|]. by rewrite Nat.sub_diag.
Qed.
Lemma live_put c j y i x : is_Some (objects c !! j) ->
  (live (mkCache (evrecHash c) (fets c) (<[j:=y]> (objects c)) (c_mem c)) i x <-> (i = j /\ y = Some x) \/ (i <> j /\ live c i x)).
Proof.
  intros Hj%lookup_lt_is_Some. unfold live. cbn [objects]. rewrite list_lookup_insert_Some. naive_solver.
Qed.
Lemma no_clones_of_new c : cache_ok c -> clones (length (objects c)) (objects c) = 0.
Proof.
  intros Hc. apply clones_none. intros j x Hx Hmx. destruct (co_objects c Hc j x Hx) as [(? & ? & ? & _ & _ & _ & Ho) _].
  unfold of_template in Ho. rewrite Hmx in Ho. destruct Ho as (om & Hom & _). apply lookup_lt_Some in Hom. lia.
Qed.
(** A clone is made of a master. *)
Lemma clone_object_ok c i o : cache_ok c -> live c i o -> o_master o = None -> exists j c' cl, clone_object i c = Done (j, c') /\ cache_ok c' /\
  evrecHash c' = evrecHash c /\ fets c' = fets c /\ keeps c c' /\ live c' j cl /\ o_master cl = Some i /\ tm_static (o_tmpl cl) = tm_static (o_tmpl o).
Proof.
  intros Hc Hi Hm. pose proof (co_objects c Hc i o Hi) as [(fac & evty & t & Hth & Hk & Hsp & Hof) Hr].
  destruct (clone_done (o_tmpl o) (mem_store (c_mem c))) as (t' & s' & Ecl & Est).
  { unfold of_template in Hof. rewrite Hm in Hof. rewrite (clonable_stripped _ _ Hof). by apply (specific_ok fac evty). }
  set (m' := mkMemory s' (structHash (c_mem c))).
  set (c1 := mkCache (evrecHash c) (fets c) (objects c) m').
  set (o1 := mkObject (o_tmpl o) (o_master o) (o_refs o + 1)).
  set (c2 := mkCache (evrecHash c) (fets c) (<[i:=Some o1]> (objects c)) m').
  set (cl := mkObject t' (Some i) 0).
  set (c' := mkCache (evrecHash c) (fets c) (<[i:=Some o1]> (objects c) ++ [Some cl]) m').
  assert (Erun : clone_object i c = Done (length (objects c), c')).
  { unfold clone_object. rewrite (cm_step _ _ _ _ _ (get_object_ok i o c Hi)).
    rewrite (cm_step _ _ c t' c1). 2:{ unfold on_mem_store, on_mem. cbn [c_mem]. rewrite Ecl. done. }
    rewrite (cm_step _ _ c1 tt c2). 2:{ unfold add_refs. by rewrite (cm_step _ _ _ _ _ (get_object_ok i o c1 Hi)). }
    unfold new_object, the_cache, set_cache, mbind, cm_bind. cbn [objects c2 evrecHash fets c_mem]. by rewrite length_insert. }
  exists (length (objects c)), c', cl. split; [done|].
  assert (His : is_Some (objects c1 !! i)) by (by exists (Some o)).
  assert (Hlive : forall k x, live c' k x <-> (k = i /\ x = o1) \/ (k <> i /\ live c k x) \/ (k = length (objects c) /\ x = cl)).
  { intros k x. change c' with (mkCache (evrecHash c2) (fets c2) (objects c2 ++ [Some cl]) (c_mem c2)). rewrite live_new.
    change (objects c2) with (<[i:=Some o1]> (objects c)). rewrite length_insert. change c2 with (mkCache (evrecHash c1) (fets c1) (<[i:=Some o1]> (objects c1)) (c_mem c1)).
    rewrite (live_put c1 i (Some o1) k x His). unfold live. cbn [objects c1]. naive_solver. }
  assert (Hkeeps : keeps c c').
  { intros k x Hx. destruct (decide (k = i)) as [->|Hn].
    - assert (x = o) as -> by (unfold live in *; congruence). exists o1. split; [by apply Hlive; left|done].
    - exists x. split; [by apply Hlive; right; left|done]. }
  split; [|split; [done|split; [done|split; [done|split; [by apply Hlive; right; right|done]]]]].
  apply (objects_changed c); [done..| |done|].
  - apply Hc.
  - intros k x Hx. pose proof (clones_insert k (objects c) i (Some o) (Some o1) Hi) as Eins. unfold clone_of in Eins at 1 2. cbn [o_master o1] in Eins.
    assert (Ecount : clones k (objects c') = clones k (objects c) + (if decide (i = k) then 1 else 0)).
    { change (objects c') with (<[i:=Some o1]> (objects c) ++ [Some cl]). rewrite clones_app, Eins. unfold clone_of. cbn [o_master cl].
      destruct (decide (Some i = Some k)), (decide (i = k)); try lia; congruence. }
    rewrite Ecount. apply Hlive in Hx as [[-> ->]|[[Hn Hx]|[-> ->]]].
    + rewrite decide_True by done. cbn [o_refs o1]. split; [|lia]. apply (keeps_object c); [done|]. exists fac, evty, t. split; [done|]. split; [done|]. split; [done|].
      exact Hof.
    + rewrite decide_False by done. destruct (co_objects c Hc k x Hx) as [H1 H2]. split; [by apply (keeps_object c)|lia].
    + assert (Hlt : (i < length (objects c))%nat) by (by eapply lookup_lt_Some). rewrite decide_False by lia. split.
      * exists fac, evty, t. cbn [o_tmpl cl]. rewrite Est. split; [done|]. split; [done|]. split; [done|]. unfold of_template in *. cbn [o_master cl]. rewrite Hm in Hof.
        exists o1. split; [by apply Hlive; left|]. by cbn [o_master o1 o_tmpl].
      * cbn [o_refs cl]. by rewrite no_clones_of_new.
Qed.
Lemma keeps_same c c' : objects c' = objects c -> keeps c c'.
Proof. intros E i o Ho. exists o. unfold live in *. by rewrite E. Qed.
(** A template that was read. *)
Lemma new_master_ok c t t0 fac evty : cache_ok c -> keys_ok fac evty -> specific fac evty = Some t0 -> stripped t = stripped t0 ->
  exists c', new_object (mkObject t None 0) c = Done (length (objects c), c') /\ cache_ok c' /\ evrecHash c' = evrecHash c /\ fets c' = fets c /\
    keeps c c' /\ live c' (length (objects c)) (mkObject t None 0).
Proof.
  intros Hc Hk Hsp Et. set (o := mkObject t None 0). set (c' := mkCache (evrecHash c) (fets c) (objects c ++ [Some o]) (c_mem c)). exists c'.
  assert (Hlive : live c' (length (objects c)) o) by (apply live_new; by right).
  assert (Hkeeps : keeps c c') by (intros i x Hx; exists x; split; [apply live_new; by left|done]).
  split; [done|]. split; [|by repeat split].
  apply (objects_changed c); [done..|apply Hc|done|]. intros i x [Hx|[-> ->]]%live_new; cbn [objects c']; rewrite clones_app; unfold clone_of; cbn [o_master o]; rewrite decide_False by done.
  - destruct (co_objects c Hc i x Hx) as [H1 H2]. split; [by apply (keeps_object c)|lia].
  - split; [|cbn [o_refs o]; by rewrite no_clones_of_new]. exists fac, evty, t0. destruct (specific_ok _ _ _ Hsp) as [_ Hth].
    split; [|split; [exact Hk|split; [exact Hsp|exact Et]]]. cbn [o_tmpl o]. by rewrite (stripped_header _ _ Et).
Qed.
(** A FET is changed. *)
Lemma set_fet_ok c fac evty p v v' : cache_ok c -> keys_ok fac evty -> found c fac evty = Some p -> fets c !! p = Some v -> key_of v' = key_of v -> fet_ok c v' ->
  exists c', set_fet p v' c = Done (tt, c') /\ cache_ok c' /\ (forall f e, key_ok f e -> found c' f e = found c f e) /\ objects c' = objects c /\ fets c' !! p = Some v'.
Proof.
  intros Hc Hk Hp Hv Ek Hv'. set (c' := mkCache (evrecHash c) (<[p:=v']> (fets c)) (objects c) (c_mem c)). exists c'.
  destruct (found_keys c c' (co_table c Hc) eq_refl (same_keys_set _ _ _ _ Hv Ek)) as [Ht Hfound].
  assert (Hpl : (<[p:=v']> (fets c)) !! p = Some v') by (apply list_lookup_insert_eq; by eapply lookup_lt_Some).
  split; [done|]. split; [|by repeat split]. split; [done|apply Hc|..].
  - intros i o Ho. destruct (co_objects c Hc i o Ho) as [H1 H2]. split; [|done]. by apply (keeps_object c); [apply keeps_same|].
  - intros f e q w Hfe Hq Hw. rewrite Hfound in Hq by apply Hfe. assert (Hw0 : fet_ok c w).
    { cbn [fets c'] in Hw. destruct (decide (p = q)) as [<-|Hn]; [congruence|]. rewrite list_lookup_insert_ne in Hw by done. by apply (co_fets c Hc f e q). }
    assert (Ew : key_of w = (f, e)).
    { destruct (find_ok c f e (co_table c Hc) (proj1 Hfe)) as [_ Hx]. destruct (Hx q Hq) as (x & Hx1 & Hx2). cbn [fets c'] in Hw.
      destruct (decide (p = q)) as [<-|Hn]; [|rewrite list_lookup_insert_ne in Hw by done; congruence]. assert (x = v) as -> by congruence. congruence. }
    apply (keeps_fet c); [by apply keeps_same| |done]. injection Ew as -> _. intros d _ Hd _. by rewrite Hfound by apply Hfe.
Qed.
(** A FET is added: for a facility's default only if there was none, or there is no template. *)
Lemma add_fet_ok c v : cache_ok c -> keys_ok (fet_facility v) (fet_eventType v) -> fet_ok c v ->
  (fet_eventType v = EVL_DEFAULT_EVENT_TYPE -> found c (fet_facility v) EVL_DEFAULT_EVENT_TYPE = None \/ specific (fet_facility v) EVL_DEFAULT_EVENT_TYPE = None) ->
  exists c', addFETToHash (length (fets c)) (with_fet c v) = Done (tt, c') /\ cache_ok c' /\ objects c' = objects c /\
    (forall f, key_ok f EVL_DEFAULT_EVENT_TYPE -> found c' f EVL_DEFAULT_EVENT_TYPE =
       if bool_decide (key_of v = (f, EVL_DEFAULT_EVENT_TYPE)) then Some (length (fets c)) else found c f EVL_DEFAULT_EVENT_TYPE).
Proof.
  intros Hc Hk Hv Hd. destruct (add_ok c v (co_table c Hc) (proj1 Hk)) as (c' & Erun & Ef & Eo & Em & Ht & Hfound & Hdef).
  exists c'. split; [done|]. split; [|by split]. split; [done|by rewrite Em; apply Hc|..].
  - intros i o Ho. unfold live in Ho. rewrite Eo in Ho |- *. destruct (co_objects c Hc i o Ho) as [H1 H2]. split; [|done]. by apply (keeps_object c); [apply keeps_same|].
  - intros f e p w Hfe Hp Hw. rewrite Ef in Hw. assert (Hw0 : fet_ok c w).
    { destruct (Hfound f e p (proj1 Hfe) Hp) as [->|Hp']; [rewrite lookup_app_r, Nat.sub_diag in Hw by lia; by injection Hw as <-|].
      destruct (find_ok c f e (co_table c Hc) (proj1 Hfe)) as [_ Hx]. destruct (Hx p Hp') as (x & Hx1 & Hx2).
      rewrite lookup_app_l in Hw by (by eapply lookup_lt_Some). by apply (co_fets c Hc f e p). }
    assert (Ew : fet_facility w = f).
    { destruct (find_ok c' f e Ht (proj1 Hfe)) as [_ Hx]. destruct (Hx p Hp) as (x & Hx1 & Hx2). rewrite Ef in Hx1. congruence. }
    apply (keeps_fet c); [by apply keeps_same| |done]. rewrite Ew. intros d _ Hfd [t Hsp]. rewrite Hdef by apply Hfe. case_bool_decide as Ek; [|done].
    injection Ek as E1 E2. destruct (Hd E2) as [Hn|Hn]; rewrite E1 in Hn; congruence.
Qed.

(** ** Looking up *)

Definition unused (c : cache) (fac evty : Z) : Prop :=
  forall p v, found c fac evty = Some p -> fets c !! p = Some v -> fet_template v = None /\ has (fet_flags v) FET_NOTTHERE = false.
Lemma add_template_ok c i o fac evty : cache_ok c -> live c i o -> th_type (tm_static (o_tmpl o)) = TMPL_TH_EVLOG fac evty -> keys_ok fac evty ->
  unused c fac evty -> exists c', addTemplateToFETHash i c = Done (tt, c') /\ cache_ok c' /\ objects c' = objects c /\
    (evty = EVL_DEFAULT_EVENT_TYPE -> is_Some (found c' fac EVL_DEFAULT_EVENT_TYPE)).
Proof.
  intros Hc Hi Hth Hk Hu. destruct (find_ok c fac evty (co_table c Hc) (proj1 Hk)) as [Efind Hfound].
  assert (Hkey : header_key (o_tmpl o) = Done (fac, evty)) by (unfold header_key; by rewrite Hth).
  destruct (found c fac evty) as [p|] eqn:Ep.
  - destruct (Hfound p eq_refl) as (v & Hv & Ev). destruct (Hu p v Ep Hv) as [Hnone Hfl].
    destruct (set_fet_ok c fac evty p v (mkFet (fet_facility v) (fet_eventType v) (Some i) None (fet_flags v)) Hc Hk Ep Hv eq_refl) as (c' & Erun & Hc' & Hsame & Ho & _).
    { injection Ev as E1 E2. unfold fet_ok. cbn [fet_template fet_default fet_flags fet_facility fet_eventType]. split; [done|]. exists o. by rewrite E1, E2. }
    exists c'. split; [|split; [done|split; [done|]]].
    + unfold addTemplateToFETHash. rewrite (cm_step _ _ _ _ _ (get_object_ok i o c Hi)), (cdo_step _ _ _ _ Hkey). cbv beta iota.
      rewrite (cm_step _ _ _ _ _ Efind), (cm_step _ _ _ _ _ (get_fet_ok p v c Hv)). rewrite Hnone. exact Erun.
    + intros ->. rewrite Hsame by apply Hk. by exists p.
  - set (v := mkFet fac evty (Some i) None 0). destruct (add_fet_ok c v Hc Hk) as (c' & Erun & Hc' & Ho & Hdef).
    { unfold fet_ok. cbn [fet_template fet_default fet_flags fet_facility fet_eventType v]. split; [done|]. by exists o. }
    { cbn [fet_eventType fet_facility v]. intros ->. by left. }
    exists c'. split; [|split; [done|split; [done|]]].
    + unfold addTemplateToFETHash. rewrite (cm_step _ _ _ _ _ (get_object_ok i o c Hi)), (cdo_step _ _ _ _ Hkey). cbv beta iota.
      rewrite (cm_step _ _ _ _ _ Efind). rewrite (cm_step (makeFET _ _ _ _ _) _ c (length (fets c)) (with_fet c v)) by done. exact Erun.
    + intros ->. rewrite Hdef by apply Hk. rewrite bool_decide_true by done. by eexists.
Qed.
(** What a lookup gives. *)
Definition gives (c : cache) (clone : bool) (t : template) (i : nat) : Prop :=
  exists o, live c i o /\ of_template c o t /\ (o_master o = None <-> clone = false).
Lemma object_template c i o fac evty : cache_ok c -> live c i o -> th_type (tm_static (o_tmpl o)) = TMPL_TH_EVLOG fac evty ->
  exists t, specific fac evty = Some t /\ of_template c o t.
Proof.
  intros Hc Hi Hth. destruct (co_objects c Hc i o Hi) as [(f & e & t & Hth' & _ & Hsp & Hof) _]. rewrite Hth in Hth'. injection Hth' as <- <-. by exists t.
Qed.
(** The end of [findEvlogTemplate]. *)
Definition hand_out (f : nat) (v : fet) (t : nat) (clone : bool) : cm (option nat * Z) :=
  o ← get_object t;
  if is_master o then
    if clone then
      cl ← clone_object t;
      _ ← (if has _evlTmplMgmtFlags TMPL_REUSE1CLONE then set_fet f (mkFet (fet_facility v) (fet_eventType v) (Some cl) (fet_default v) (fet_flags v))
           else mret tt);
      mret (Some cl, fet_flags v)
    else mret (Some t, fet_flags v)
  else mret (if clone then Some t else o_master o, fet_flags v).
Lemma hand_out_ok c fac evty f v i clone : cache_ok c -> keys_ok fac evty -> found c fac evty = Some f -> fets c !! f = Some v -> fet_template v = Some i ->
  exists j c' t, hand_out f v i clone c = Done ((Some j, fet_flags v), c') /\ cache_ok c' /\ specific fac evty = Some t /\ gives c' clone t j /\
    (forall f e, key_ok f e -> found c' f e = found c f e).
Proof.
  intros Hc Hk Hf Hv Hi. pose proof (co_fets c Hc fac evty f v Hk Hf Hv) as Hok. unfold fet_ok in Hok. rewrite Hi in Hok.
  destruct (fet_default v) as [d|] eqn:Ed; [done|]. destruct Hok as (Hfl & o & Ho & Hth).
  destruct (find_ok c fac evty (co_table c Hc) (proj1 Hk)) as [_ Hfound]. destruct (Hfound f Hf) as (v0 & Hv0 & Ek). assert (v0 = v) as -> by congruence.
  injection Ek as E1 E2. rewrite E1, E2 in Hth. destruct (object_template c i o fac evty Hc Ho Hth) as (t & Hsp & Hof).
  unfold hand_out. rewrite (cm_step _ _ _ _ _ (get_object_ok i o c Ho)). unfold is_master. destruct (o_master o) as [m|] eqn:Em.
  - rewrite bool_decide_false by done. unfold of_template in Hof. rewrite Em in Hof. destruct Hof as (om & Hom & Hmm & Hst & Est).
    exists (if clone then i else m), c, t. split; [by destruct clone|]. split; [done|]. split; [done|]. split; [|done]. destruct clone.
    + exists o. split; [done|]. split; [|by rewrite Em]. unfold of_template. rewrite Em. by exists om.
    + exists om. split; [done|]. split; [|done]. unfold of_template. by rewrite Hmm.
  - rewrite bool_decide_true by done. destruct clone.
    2: { exists i, c, t. split; [done|]. split; [done|]. split; [done|]. split; [|done]. by exists o. }
    destruct (clone_object_ok c i o Hc Ho Em) as (j & c1 & cl & Ecl & Hc1 & Eh & Efs & Hkeep & Hcl & Hmcl & Hscl). rewrite (cm_step _ _ _ _ _ Ecl).
    destruct (found_keys c c1 (co_table c Hc) Eh) as [_ Hsame]; [rewrite Efs; apply same_keys_refl|].
    assert (Hgives : gives c1 true t j).
    { exists cl. split; [done|]. split; [|by rewrite Hmcl]. unfold of_template. rewrite Hmcl. unfold of_template in Hof. rewrite Em in Hof.
      destruct (Hkeep i o Ho) as (o' & Ho' & Et & Em'). exists o'. rewrite Et, Em', Em. done. }
    destruct (has _evlTmplMgmtFlags TMPL_REUSE1CLONE).
    2: { exists j, c1, t. done. }
    assert (Hf1 : found c1 fac evty = Some f) by (rewrite Hsame; [done|apply Hk]). rewrite <-Efs in Hv.
    destruct (set_fet_ok c1 fac evty f v (mkFet (fet_facility v) (fet_eventType v) (Some j) None (fet_flags v)) Hc1 Hk Hf1 Hv eq_refl) as (c2 & Erun & Hc2 & Hsame2 & Ho2 & _).
    { unfold fet_ok. cbn [fet_template fet_default fet_flags fet_facility fet_eventType]. split; [done|]. exists cl. rewrite Hscl, E1, E2. by split. }
    rewrite Ed. rewrite (cm_step _ _ _ _ _ Erun). exists j, c2, t. split; [done|]. split; [done|]. split; [done|]. split.
    + destruct Hgives as (x & Hx & Hofx & Hm'). exists x. unfold live. rewrite Ho2. split; [done|]. split; [|done]. apply (keeps_of_template c1); [by apply keeps_same|done].
    + intros f' e' Hfe. rewrite Hsame2 by done. by apply Hsame.
Qed.
Lemma specific_for fac evty t : specific fac evty = Some t -> template_for fac evty = Some t.
Proof. intros E. unfold template_for. by rewrite E. Qed.
Lemma default_for fac evty t : specific fac evty = None -> evty <> EVL_DEFAULT_EVENT_TYPE -> specific fac EVL_DEFAULT_EVENT_TYPE = Some t -> template_for fac evty = Some t.
Proof. intros E Hn Ed. unfold template_for. rewrite E. by destruct (Z.eqb_spec evty EVL_DEFAULT_EVENT_TYPE). Qed.
Lemma find_template_ok c fac evty clone : cache_ok c -> keys_ok fac evty -> exists r fl c', findEvlogTemplate _evlTmplMgmtFlags fac evty clone c = Done ((r, fl), c') /\ cache_ok c' /\
  match r with
  | Some i => exists t, template_for fac evty = Some t /\ gives c' clone t i /\ (evty = EVL_DEFAULT_EVENT_TYPE -> is_Some (found c' fac evty))
  | None => c' = c /\ if has fl FET_NOTTHERE then template_for fac evty = None else unused c fac evty
  end.
Proof.
  intros Hc Hk. destruct (find_ok c fac evty (co_table c Hc) (proj1 Hk)) as [Efind Hfound]. unfold findEvlogTemplate. rewrite (cm_step _ _ _ _ _ Efind).
  destruct (found c fac evty) as [f|] eqn:Ef.
  2: { exists None, 0, c. split; [done|]. split; [done|]. split; [done|]. cbn. intros p v Hp. congruence. }
  destruct (Hfound f eq_refl) as (v & Hv & [= E1 E2]). rewrite (cm_step _ _ _ _ _ (get_fet_ok f v c Hv)). pose proof (co_fets c Hc fac evty f v Hk Ef Hv) as Hok.
  assert (Hgive : forall i, fet_template v = Some i -> exists r fl c', hand_out f v i clone c = Done ((r, fl), c') /\ cache_ok c' /\
      match r with Some i => exists t, template_for fac evty = Some t /\ gives c' clone t i /\ (evty = EVL_DEFAULT_EVENT_TYPE -> is_Some (found c' fac evty)) | None => False end).
  { intros i Hi. destruct (hand_out_ok c fac evty f v i clone Hc Hk Ef Hv Hi) as (j & c' & t & Erun & Hc' & Hsp & Hg & Hsame).
    exists (Some j), (fet_flags v), c'. split; [done|]. split; [done|]. exists t. split; [by apply specific_for|]. split; [done|]. intros _.
    rewrite Hsame by apply Hk. by exists f. }
  pose proof Hok as Hok'. unfold fet_ok in Hok. destruct (fet_default v) as [d|] eqn:Ed.
  - destruct (fet_template v) as [i|] eqn:Et; [done|]. destruct Hok as (Hfl & Hsp & [td Htd] & Hne & Hd). rewrite E1, E2 in *.
    assert (Hkd : keys_ok fac EVL_DEFAULT_EVENT_TYPE) by (split; apply Hk).
    destruct (find_ok c fac EVL_DEFAULT_EVENT_TYPE (co_table c Hc) (proj2 Hk)) as [_ Hfd]. destruct (Hfd d Hd) as (vd & Hvd & [= F1 F2]).
    change (default f (Some d)) with d. rewrite (cm_step _ _ _ _ _ (get_fet_ok d vd c Hvd)). pose proof (co_fets c Hc _ _ d vd Hkd Hd Hvd) as Hdok.
    destruct (fet_template vd) as [i|] eqn:Etd.
    + destruct (hand_out_ok c _ _ d vd i clone Hc Hkd Hd Hvd Etd) as (j & c' & t & Erun & Hc' & Hsp' & Hg & Hsame).
      exists (Some j), (fet_flags vd), c'. split; [exact Erun|]. split; [done|]. exists t. split; [by apply default_for|]. split; [done|]. done.
    + exists None, (fet_flags vd), c. split; [done|]. split; [done|]. split; [done|]. unfold fet_ok in Hdok. rewrite Etd, F1, F2 in Hdok.
      destruct (fet_default vd); [by destruct Hdok as (_ & _ & _ & Hx & _)|]. destruct (has (fet_flags vd) FET_NOTTHERE) eqn:Ex.
      * specialize (Hdok eq_refl). unfold template_for in Hdok. by rewrite Htd in Hdok.
      * intros p w Hp Hw. assert (w = v) as -> by congruence. done.
  - change (default f None) with f. rewrite (cm_step _ _ _ _ _ (get_fet_ok f v c Hv)). destruct (fet_template v) as [i|] eqn:Et.
    + destruct (Hgive i eq_refl) as (r & fl & c' & Erun & Hc' & Hr). exists r, fl, c'. split; [exact Erun|]. split; [done|]. by destruct r.
    + exists None, (fet_flags v), c. split; [done|]. split; [done|]. split; [done|]. rewrite E1, E2 in Hok. destruct (has (fet_flags v) FET_NOTTHERE) eqn:Ex; [by apply Hok|].
      intros p w Hp Hw. assert (w = v) as -> by congruence. done.
Qed.
Abbreviation lookup_run := (search_dirs files uninitialized tmplPath import_depth).
(** Reading a file changes the memory only. *)
Lemma read_file_ok c path f : cache_ok c -> files path = Some f -> exists t m', let c' := mkCache (evrecHash c) (fets c) (objects c) m' in
  on_mem (_evlReadTemplate_at files uninitialized tmplPath import_depth path) c = Done (t, c') /\ cache_ok c' /\
  stripped <$> t = stripped <$> held lib f.
Proof.
  intros Hc Hf. assert (Hread : exists t m', read_template_file files uninitialized tmplPath import_depth path (c_mem c) = Done (t, m') /\
      table_ok lib (structHash m') /\ stripped <$> t = stripped <$> held lib f).
  { destruct (held lib f) as [t0|] eqn:Eh.
    - destruct (file_is_read files uninitialized tmplPath lib rank (gl_library files_ok) import_depth path f t0 (c_mem c) Hf Eh (gl_depth files_ok f) (co_structs c Hc))
        as (t' & m' & E & Hm & Es). exists (Some t'), m'. split; [done|]. split; [done|]. cbn. by rewrite Es.
    - destruct (gl_broken files_ok path f (c_mem c) Hf Eh (co_structs c Hc)) as (m' & E & Hm). by exists None, m'. }
  destruct Hread as (t & m' & E & Hm & Es). exists t, m'. cbv zeta. unfold on_mem, _evlReadTemplate_at. rewrite E. split; [done|]. split; [|done].
  apply (objects_changed c); [done..|by apply keeps_same|]. intros i o Ho. destruct (co_objects c Hc i o Ho) as [H1 H2]. split; [|done].
  by apply (keeps_object c); [apply keeps_same|].
Qed.
Lemma is_for_header t t' fac evty fac' evty' : stripped t = stripped t' -> th_type (tm_static t') = TMPL_TH_EVLOG fac' evty' ->
  templateMatchesPath t fac evty = Done (is_for t' fac evty).
Proof. intros E Hth. unfold templateMatchesPath, header_key, is_for. rewrite (stripped_header _ _ E), Hth. done. Qed.
Lemma search_dirs_ok sub fac evty clone : keys_ok fac evty -> template_subpath fac evty = Done (Some sub) -> forall dirs c status, cache_ok c -> unused c fac evty ->
  specific fac evty = found_in dirs sub fac evty -> exists r c', lookup_run dirs sub fac evty clone status c = Done (r, c') /\ cache_ok c' /\
  match r with
  | inl status' => specific fac evty = None /\ unused c' fac evty /\ (status' = status \/ status' = EIO)
  | inr i => exists t, specific fac evty = Some t /\ gives c' clone t i /\ (evty = EVL_DEFAULT_EVENT_TYPE -> is_Some (found c' fac evty))
  end.
Proof.
  intros Hk Hsub. induction dirs as [|dir dirs IH]; intros c status Hc Hu Hsp; cbn [search_dirs found_in] in *.
  { exists (inl status), c. split; [done|]. split; [done|]. split; [done|]. split; [done|]. by left. }
  destruct (_ >? PATH_MAX); [by apply IH|]. destruct (files (dir ++ "/" ++ sub)%string) as [f|] eqn:Ef; cbn [mbind option_bind] in Hsp; [|by apply IH].
  destruct (read_file_ok c _ f Hc Ef) as (t & m' & Erun & Hc1 & Est). set (c1 := mkCache _ _ _ _) in *. rewrite (cm_step _ _ _ _ _ Erun).
  assert (Hgo : found_in dirs sub fac evty = specific fac evty -> exists r c', lookup_run dirs sub fac evty clone EIO c1 = Done (r, c') /\ cache_ok c' /\
      match r with
      | inl status' => specific fac evty = None /\ unused c' fac evty /\ (status' = status \/ status' = EIO)
      | inr i => exists t, specific fac evty = Some t /\ gives c' clone t i /\ (evty = EVL_DEFAULT_EVENT_TYPE -> is_Some (found c' fac evty))
      end).
  { intros E. destruct (IH c1 EIO Hc1 Hu (eq_sym E)) as (r & c' & Er & Hc' & Hr). exists r, c'. split; [done|]. split; [done|]. destruct r; [|done].
    destruct Hr as (H1 & H2 & [->| ->]); (split; [done|split; [done|auto]]). }
  destruct (held lib f) as [t0|] eqn:Eh; destruct t as [t|]; try done; [|by apply Hgo]. cbn in Est. injection Est as Est.
  destruct (gl_events files_ok fac evty sub dir f t0 Hsub Ef Eh) as [Hcl (fac' & evty' & Hth)].
  rewrite (cdo_step _ _ _ _ (is_for_header t t0 fac evty fac' evty' Est Hth)). destruct (is_for t0 fac evty) eqn:Efor; [|by apply Hgo]. clear Hgo IH.
  apply is_for_spec in Efor. destruct (new_master_ok c1 t t0 fac evty Hc1 Hk Hsp Est) as (c2 & Enew & Hc2 & Eh2 & Ef2 & Hk2 & Hl2). rewrite (cm_step _ _ _ _ _ Enew).
  assert (Hcopy : exists j o c3, (if clone then clone_object (length (objects c1)) else mret (length (objects c1))) c2 = Done (j, c3) /\ cache_ok c3 /\
      evrecHash c3 = evrecHash c2 /\ fets c3 = fets c2 /\ live c3 j o /\ of_template c3 o t0 /\ tm_static (o_tmpl o) = tm_static t /\ (o_master o = None <-> clone = false)).
  { destruct clone.
    - destruct (clone_object_ok c2 _ _ Hc2 Hl2 eq_refl) as (j & c3 & cl & E3 & Hc3 & H1 & H2 & Hk3 & Hlc & Hmc & Hsc). exists j, cl, c3. repeat (split; [done|]).
      split; [|split; [done|by rewrite Hmc]]. unfold of_template. rewrite Hmc. destruct (Hk3 _ _ Hl2) as (o' & Ho' & E1 & E2). exists o'. rewrite E1, E2. done.
    - exists (length (objects c1)), (mkObject t None 0), c2. done. }
  destruct Hcopy as (j & o & c3 & E3 & Hc3 & Eh3 & Ef3 & Hlj & Hof & Hst & Hm). rewrite (cm_step _ _ _ _ _ E3).
  assert (Hth3 : th_type (tm_static (o_tmpl o)) = TMPL_TH_EVLOG fac evty) by (rewrite Hst, (stripped_header _ _ Est); done).
  destruct (found_keys c c3 (co_table c Hc)) as [_ Hsame]; [by rewrite Eh3, Eh2|rewrite Ef3, Ef2; apply same_keys_refl|].
  destruct (add_template_ok c3 j o fac evty Hc3 Hlj Hth3 Hk) as (c4 & E4 & Hc4 & Ho4 & Hd4).
  { intros p v Hp Hv. rewrite Hsame in Hp by apply Hk. rewrite Ef3, Ef2 in Hv. by apply (Hu p). }
  rewrite (cm_step _ _ _ _ _ E4). exists (inr j), c4. split; [done|]. split; [done|]. exists t0. split; [done|]. split.
  - exists o. unfold live. rewrite Ho4. split; [done|]. split; [|done]. by apply (keeps_of_template c3); [apply keeps_same|].
  - intros ->. by apply Hd4.
Qed.
Lemma gives_same c c' clone t i : objects c' = objects c -> gives c clone t i -> gives c' clone t i.
Proof.
  intros E (o & Ho & Hof & Hm). exists o. unfold live. rewrite E. split; [done|]. split; [|done]. by apply (keeps_of_template c); [apply keeps_same|].
Qed.
Lemma template_for_none fac evty : specific fac evty = None -> (evty = EVL_DEFAULT_EVENT_TYPE \/ specific fac EVL_DEFAULT_EVENT_TYPE = None) -> template_for fac evty = None.
Proof. intros E Hd. unfold template_for. rewrite E. destruct (Z.eqb_spec evty EVL_DEFAULT_EVENT_TYPE); [done|]. by destruct Hd. Qed.
(** The outcome of a lookup. *)
Definition looked_up (c : cache) (fac evty : Z) (clone : bool) (r : Z + nat) : Prop :=
  match r with
  | inl status => (status = ENOENT \/ status = EIO) /\ template_for fac evty = None
  | inr i => exists t, template_for fac evty = Some t /\ gives c clone t i
  end.
Lemma locked_ok clone fuel : forall fac evty c, cache_ok c -> keys_ok fac evty -> (2 <= fuel \/ (evty = EVL_DEFAULT_EVENT_TYPE /\ 1 <= fuel))%nat ->
  exists r c', readTemplateLocked files uninitialized tmplPath import_depth _evlTmplMgmtFlags fuel fac evty clone c = Done (r, c') /\ cache_ok c' /\
    looked_up c' fac evty clone r /\ (forall i, r = inr i -> evty = EVL_DEFAULT_EVENT_TYPE -> is_Some (found c' fac evty)).
Proof.
  induction fuel as [|fuel IH]; intros fac evty c Hc Hk Hfuel; [lia|]. cbn [readTemplateLocked]. rewrite looking.
  destruct (find_template_ok c fac evty clone Hc Hk) as (t & fl & c1 & Efind & Hc1 & Hfind). rewrite (cm_step _ _ _ _ _ Efind). cbv beta iota. destruct t as [i|].
  { destruct Hfind as (t & Ht & Hg & Hd). exists (inr i), c1. split; [done|]. split; [done|]. split; [by exists t|]. by intros ? [= <-]. }
  destruct Hfind as [-> Hfl]. destruct (has fl FET_NOTTHERE).
  { exists (inl ENOENT), c. split; [done|]. split; [done|]. split; [split; [by left|done]|]. done. }
  destruct (gl_facilities files_ok fac evty) as [sub Hsub]. rewrite (cdo_step _ _ _ _ Hsub).
  assert (Hsearch : exists r c1, (match sub with Some subpath => lookup_run tmplPath subpath fac evty clone 0 | None => mret (inl 0) end) c = Done (r, c1) /\ cache_ok c1 /\
      match r with
      | inl status => specific fac evty = None /\ (status = 0 \/ status = EIO)
      | inr i => exists t, specific fac evty = Some t /\ gives c1 clone t i /\ (evty = EVL_DEFAULT_EVENT_TYPE -> is_Some (found c1 fac evty))
      end).
  { destruct sub as [sub|].
    - destruct (search_dirs_ok sub fac evty clone Hk Hsub tmplPath c 0 Hc Hfl) as (r & c' & E & Hc' & Hr); [unfold specific; by rewrite Hsub|].
      exists r, c'. split; [done|]. split; [done|]. destruct r; [|done]. naive_solver.
    - exists (inl 0), c. split; [done|]. split; [done|]. split; [unfold specific; by rewrite Hsub|by left]. }
  destruct Hsearch as (r & c1 & Er & Hc1' & Hr). rewrite (cm_step _ _ _ _ _ Er). destruct r as [status|i].
  2: { destruct Hr as (t & Ht & Hg & Hd). exists (inr i), c1. split; [done|]. split; [done|]. split; [exists t; split; [by apply specific_for|done]|]. by intros ? [= <-]. }
  destruct Hr as [Hnone Hstatus].
  (* no template: remember it *)
  assert (Hforget : forall c2 status2, cache_ok c2 -> (evty = EVL_DEFAULT_EVENT_TYPE \/ specific fac EVL_DEFAULT_EVENT_TYPE = None) ->
      (status2 = 0 \/ status2 = ENOENT \/ status2 = EIO) -> exists r c',
      (f ← makeFET fac evty None None FET_NOTTHERE; _ ← addFETToHash f; mret (inl (if status2 =? 0 then ENOENT else status2))) c2 = Done (r, c') /\ cache_ok c' /\
      looked_up c' fac evty clone r /\ (forall i, r = inr i -> evty = EVL_DEFAULT_EVENT_TYPE -> is_Some (found c' fac evty))).
  { intros c2 status2 Hc2 Hdef Hs2. pose proof (template_for_none _ _ Hnone Hdef) as Hno. set (v := mkFet fac evty None None FET_NOTTHERE).
    destruct (add_fet_ok c2 v Hc2 Hk) as (c' & Eadd & Hc' & _ & _); [unfold fet_ok; cbn; done| |].
    { cbn. intros ->. by right. }
    rewrite (cm_step (makeFET _ _ _ _ _) _ c2 (length (fets c2)) (with_fet c2 v)) by done. rewrite (cm_step _ _ _ _ _ Eadd).
    eexists _, c'. split; [done|]. split; [done|]. split; [|done]. split; [|done]. destruct (Z.eqb_spec status2 0); [by left|]. naive_solver. }
  destruct (Z.eqb_spec evty EVL_DEFAULT_EVENT_TYPE) as [Edef|Edef].
  { rewrite (cm_step (mret (inl status)) _ c1 (inl status) c1) by done. apply Hforget; [done|by left|naive_solver]. }
  assert (Hkd : keys_ok fac EVL_DEFAULT_EVENT_TYPE) by (split; apply Hk).
  assert (Hfuel' : (1 <= fuel)%nat) by (destruct Hfuel as [Hf|[Hf _]]; [lia|done]).
  destruct (IH fac EVL_DEFAULT_EVENT_TYPE c1 Hc1' Hkd (or_intror (conj eq_refl Hfuel'))) as (r & c2 & Erec & Hc2 & Hlook & Hfd).
  assert (Hbind : forall k : Z + nat -> cm (Z + nat), ((r ← readTemplateLocked files uninitialized tmplPath import_depth _evlTmplMgmtFlags fuel fac EVL_DEFAULT_EVENT_TYPE clone;
      mret (match r with inl status2 => inl (if status =? 0 then status2 else status) | inr t => inr t end)) ≫= k) c1 =
      k (match r with inl status2 => inl (if status =? 0 then status2 else status) | inr t => inr t end) c2).
  { intros k. apply cm_step. by rewrite (cm_step _ _ _ _ _ Erec). }
  rewrite Hbind. destruct r as [status2|i].
  - destruct Hlook as [Hs2 Hno]. apply Hforget; [done| |destruct (status =? 0) eqn:E0; naive_solver].
    right. unfold template_for in Hno. by destruct (specific fac EVL_DEFAULT_EVENT_TYPE).
  - destruct Hlook as (t & Ht & Hg). assert (Hsp : specific fac EVL_DEFAULT_EVENT_TYPE = Some t) by (unfold template_for in Ht; by destruct (specific fac EVL_DEFAULT_EVENT_TYPE)).
    destruct (find_ok c2 fac EVL_DEFAULT_EVENT_TYPE (co_table c2 Hc2) (proj2 Hk)) as [Ef _]. rewrite (cm_step _ _ _ _ _ Ef).
    destruct (Hfd i eq_refl eq_refl) as [d Hd]. rewrite Hd. rewrite (cdo_step _ _ _ tt) by done.
    set (v := mkFet fac evty None (Some d) 0). destruct (add_fet_ok c2 v Hc2 Hk) as (c' & Eadd & Hc' & Ho & _).
    { unfold fet_ok. cbn [fet_template fet_default fet_flags fet_facility fet_eventType v]. split; [done|split; [exact Hnone|split; [by exists t|split; [exact Edef|exact Hd]]]]. }
    { cbn. done. }
    rewrite (cm_step (makeFET _ _ _ _ _) _ c2 (length (fets c2)) (with_fet c2 v)) by done. rewrite (cm_step _ _ _ _ _ Eadd).
    exists (inr i), c'. split; [done|]. split; [done|]. split; [|done]. exists t. split; [by apply default_for|]. by apply (gives_same c2).
Qed.

(** ** Giving back *)

(** An object that is no master and in no FET can go. *)
Lemma remove_ok c i o : cache_ok c -> live c i o -> o_refs o = 0 ->
  (forall f e p v, keys_ok f e -> found c f e = Some p -> fets c !! p = Some v -> fet_template v <> Some i) ->
  exists c', free_object i c = Done (tt, c') /\ cache_ok c'.
Proof.
  intros Hc Hi Hr Hno. destruct (co_objects c Hc i o Hi) as [(fac & evty & t & Hth & Hk & Hsp & Hof) Hcount]. rewrite Hr in Hcount. symmetry in Hcount.
  set (c1 := match o_master o with
             | Some m => match objects c !! m with
                         | Some (Some om) => mkCache (evrecHash c) (fets c) (<[m:=Some (mkObject (o_tmpl om) (o_master om) (o_refs om - 1))]> (objects c)) (c_mem c)
                         | _ => c
                         end
             | None => c
             end).
  set (c' := mkCache (evrecHash c) (fets c) (<[i:=None]> (objects c1)) (c_mem c)).
  assert (Hmi : forall m om, o_master o = Some m -> live c m om -> o_master om = None -> m <> i).
  { intros m om E1 E2 E3 ->. unfold live in *. assert (om = o) as -> by congruence. congruence. }
  assert (Hrun : (match o_master o with Some m => add_refs m (-1) | None => mret tt end) c = Done (tt, c1) /\ evrecHash c1 = evrecHash c /\ fets c1 = fets c /\ c_mem c1 = c_mem c /\
      length (objects c1) = length (objects c) /\ live c1 i o /\
      forall k, clones k (objects c1) = clones k (objects c) /\
        (forall x, live c1 k x <-> exists x0, live c k x0 /\ o_tmpl x = o_tmpl x0 /\ o_master x = o_master x0 /\ o_refs x = o_refs x0 - (if decide (o_master o = Some k) then 1 else 0))).
  { unfold c1, of_template in *. destruct (o_master o) as [m|] eqn:Em.
    - destruct Hof as (om & Hom & Hmm & _). unfold live in Hom. rewrite Hom. pose proof (Hmi m om eq_refl Hom Hmm) as Hne.
      split; [unfold add_refs; by rewrite (cm_step _ _ _ _ _ (get_object_ok m om c Hom))|]. split; [done|]. split; [done|]. split; [done|].
      cbn [objects]. split; [by rewrite length_insert|].
      assert (His : is_Some (objects c !! m)) by (by exists (Some om)).
      split; [apply (live_put c m); [done|right; by split]|]. intros k. split.
      + rewrite (clones_insert _ _ _ _ _ Hom). unfold clone_of. cbn [o_master]. lia.
      + intros x. rewrite (live_put c m _ k x His). split.
        * intros [[-> [= <-]]|[Hn Hx]]; [exists om|exists x]; (split; [done|]); cbn [o_tmpl o_master o_refs]; [by rewrite decide_True|rewrite decide_False by congruence; repeat split; lia].
        * intros (x0 & Hx0 & E1 & E2 & E3). destruct (decide (k = m)) as [->|Hn].
          -- left. split; [done|]. rewrite decide_True in E3 by done. unfold live in Hx0. assert (x0 = om) as -> by congruence. destruct x. cbn in *. congruence.
          -- right. split; [done|]. rewrite decide_False in E3 by congruence. destruct x, x0. cbn in *. rewrite Z.sub_0_r in E3. congruence.
    - do 6 (split; [done|]). intros k. split; [done|]. intros x. split.
      + intros Hx. exists x. repeat (split; [done|]). rewrite decide_False by done. lia.
      + intros (x0 & Hx0 & E1 & E2 & E3). rewrite decide_False in E3 by done. destruct x, x0. cbn in *. rewrite Z.sub_0_r in E3. congruence. }
  destruct Hrun as (Erun & Eh & Ef & Em & El & Hi1 & Hk1). exists c'. split.
  { unfold free_object. rewrite (cm_step _ _ _ _ _ (get_object_ok i o c Hi)). rewrite (cdo_step _ _ _ tt) by (by rewrite Hr).
    rewrite (cm_step _ _ _ _ _ Erun). unfold put_object, the_cache, set_cache, mbind, cm_bind. by rewrite Eh, Ef, Em. }
  assert (Hlive : forall k x, live c' k x <-> k <> i /\ live c1 k x).
  { intros k x. unfold live. cbn [objects c']. rewrite list_lookup_insert_Some. naive_solver. }
  assert (Hnomaster : forall k x, live c k x -> o_master x <> Some i) by (intros k x Hx; by apply (no_clones i (objects c) k)).
  assert (Hof' : forall x x0 t0, of_template c x0 t0 -> o_tmpl x = o_tmpl x0 -> o_master x = o_master x0 -> o_master x0 <> Some i -> of_template c' x t0).
  { unfold of_template. intros x x0 t0 Hx E1 E2 Hn. rewrite E1, E2. destruct (o_master x0) as [m|]; [|done]. destruct Hx as (om & Hom & H1 & H2 & H3).
    exists (mkObject (o_tmpl om) (o_master om) (o_refs om - (if decide (o_master o = Some m) then 1 else 0))). split; [|done].
    apply Hlive. split; [congruence|]. apply Hk1. by exists om. }
  destruct (found_keys c c' (co_table c Hc) eq_refl) as [Ht Hfound]; [apply same_keys_refl|].
  split; [done|apply Hc|..].
  - intros k x [Hn Hx]%Hlive. apply Hk1 in Hx as (x0 & Hx0 & E1 & E2 & E3). destruct (co_objects c Hc k x0 Hx0) as [(f & e & t0 & H1 & H2 & H3 & H4) Hcnt]. split.
    + exists f, e, t0. rewrite E1. split; [done|]. split; [exact H2|]. split; [done|]. apply (Hof' x x0); [done..|]. by apply (Hnomaster k).
    + rewrite E3, Hcnt. cbn [objects c']. rewrite (clones_insert k _ i _ _ Hi1). cbn [clone_of]. rewrite (proj1 (Hk1 k)). destruct (decide (o_master o = Some k)); lia.
  - intros f e p v Hkey Hp Hv. change (fets c !! p = Some v) in Hv. rewrite Hfound in Hp by apply Hkey. pose proof (co_fets c Hc f e p v Hkey Hp Hv) as Hok. specialize (Hno f e p v Hkey Hp Hv).
    revert Hok Hno. unfold fet_ok. destruct (fet_template v) as [j|], (fet_default v) as [d|]; [done|intros Hok Hno..|done].
    + destruct Hok as (Hfl & x & Hx & Hthx). split; [done|]. exists (mkObject (o_tmpl x) (o_master x) (o_refs x - (if decide (o_master o = Some j) then 1 else 0))).
      split; [|done]. apply Hlive. split; [congruence|]. apply Hk1. by exists x.
    + destruct Hok as (H1 & H2 & H3 & H4 & H5). repeat (split; [done|]). rewrite Hfound; [done|].
      destruct (find_ok c f e (co_table c Hc) (proj1 Hkey)) as [_ Hw]. destruct (Hw p Hp) as (w & Hw' & [= E _]). assert (w = v) as -> by congruence. rewrite E. apply Hkey.
Qed.
Lemma free_ok c i o : cache_ok c -> live c i o -> o_refs o = 0 -> exists c', evl_freetemplate (Some i) c = Done (0, c') /\ cache_ok c'.
Proof.
  intros Hc Hi Hr. destruct (co_objects c Hc i o Hi) as [(fac & evty & t & Hth & Hk & Hsp & Hof) _].
  assert (Hkey : header_key (o_tmpl o) = Done (fac, evty)) by (unfold header_key; by rewrite Hth).
  destruct (find_ok c fac evty (co_table c Hc) (proj1 Hk)) as [Efind Hfound].
  (* the FET of the key is the only one that may have the object *)
  assert (Hother : forall c f e p v, cache_ok c -> live c i o -> keys_ok f e -> found c f e = Some p -> fets c !! p = Some v -> fet_template v = Some i -> (f, e) = (fac, evty)).
  { intros c0 f e p v Hc0 Hi0 Hfe Hp Hv Ht. pose proof (co_fets c0 Hc0 f e p v Hfe Hp Hv) as Hok. unfold fet_ok in Hok. rewrite Ht in Hok.
    destruct (fet_default v); [done|]. destruct Hok as (_ & x & Hx & Hthx). destruct (find_ok c0 f e (co_table c0 Hc0) (proj1 Hfe)) as [_ Hw].
    destruct (Hw p Hp) as (w & Hw' & Ek). unfold live in *. assert (x = o) as -> by congruence. assert (w = v) as -> by congruence. rewrite Hth in Hthx. congruence. }
  assert (Hstep : exists c1, (match found c fac evty with
      | Some f => v ← get_fet f;
          if bool_decide (fet_template v = Some i) then set_fet f (mkFet (fet_facility v) (fet_eventType v) (o_master o) (fet_default v) (fet_flags v)) else mret tt
      | None => mret tt end) c = Done (tt, c1) /\ cache_ok c1 /\ live c1 i o /\
      (forall f e p v, keys_ok f e -> found c1 f e = Some p -> fets c1 !! p = Some v -> fet_template v <> Some i)).
  { destruct (found c fac evty) as [f|] eqn:Ef.
    2: { exists c. repeat (split; [done|]). intros f e p v Hfe Hp Hv Ht. pose proof (Hother c f e p v Hc Hi Hfe Hp Hv Ht). congruence. }
    destruct (Hfound f eq_refl) as (v & Hv & Ev). rewrite (cm_step _ _ _ _ _ (get_fet_ok f v c Hv)). case_bool_decide as Et.
    2: { exists c. repeat (split; [done|]). intros f' e p w Hfe Hp Hw Htw. pose proof (Hother c f' e p w Hc Hi Hfe Hp Hw Htw). congruence. }
    pose proof (co_fets c Hc fac evty f v Hk Ef Hv) as Hok. unfold fet_ok in Hok. rewrite Et in Hok. destruct (fet_default v) as [d|]; [done|]. destruct Hok as (Hfl & _).
    destruct (set_fet_ok c fac evty f v (mkFet (fet_facility v) (fet_eventType v) (o_master o) None (fet_flags v)) Hc Hk Ef Hv eq_refl) as (c1 & Erun & Hc1 & Hsame & Ho & Hnew).
    { injection Ev as E1 E2. unfold fet_ok. cbn [fet_template fet_default fet_flags fet_facility fet_eventType]. rewrite Hfl, E1, E2. unfold of_template in Hof. destruct (o_master o) as [m|]; [|done].
      split; [done|]. destruct Hof as (om & Hom & _ & Hst & _). exists om. split; [done|]. by rewrite <-Hst. }
    assert (Hi1 : live c1 i o) by (unfold live; by rewrite Ho). exists c1. split; [done|]. split; [done|]. split; [done|]. intros f' e p w Hfe Hp Hw Htw.
    pose proof (Hother c1 f' e p w Hc1 Hi1 Hfe Hp Hw Htw) as [= -> ->]. rewrite Hsame in Hp by apply Hfe. assert (p = f) as -> by congruence. rewrite Hnew in Hw. injection Hw as <-.
    cbn in Htw. unfold of_template in Hof. rewrite Htw in Hof. destruct Hof as (om & Hom & Hmm & _). unfold live in Hi. congruence. }
  destruct Hstep as (c1 & Estep & Hc1 & Hi1 & Hno). destruct (remove_ok c1 i o Hc1 Hi1 Hr Hno) as (c' & Efree & Hc'). exists c'. split; [|done].
  unfold evl_freetemplate. rewrite (cm_step _ _ _ _ _ (get_object_ok i o c Hi)), Hr. cbn [Z.eqb negb]. rewrite (cdo_step _ _ _ _ Hkey). cbv beta iota.
  rewrite (cm_step _ _ _ _ _ Efind), (cm_step _ _ _ _ _ Estep), (cm_step _ _ _ _ _ Efree). done.
Qed.
(** A clone is populated or emptied. *)
Lemma change_ok c i o t s : cache_ok c -> live c i o -> tm_static t = tm_static (o_tmpl o) -> (o_master o = None -> t = o_tmpl o) ->
  let c' := mkCache (evrecHash c) (fets c) (<[i := Some (mkObject t (o_master o) (o_refs o))]> (objects c)) (mkMemory s (structHash (c_mem c))) in
  cache_ok c' /\ live c' i (mkObject t (o_master o) (o_refs o)).
Proof.
  intros Hc Hi Hst Hm c'. set (o' := mkObject t (o_master o) (o_refs o)).
  assert (Hlive : forall k x, live c' k x <-> (k = i /\ x = o') \/ (k <> i /\ live c k x)).
  { intros k x. unfold live. cbn [objects c']. rewrite list_lookup_insert_Some. split; [|intros [[-> ->]|[Hn Hx]]].
    - intros [(-> & [= <-] & _)|[Hn Hx]]; [by left|right; by split].
    - left. split; [done|]. split; [done|]. by eapply lookup_lt_Some.
    - right. by split. }
  split; [|by apply Hlive; left]. destruct (found_keys c c' (co_table c Hc) eq_refl (same_keys_refl _)) as [Ht Hfound].
  assert (Hof : forall x t0, of_template c x t0 -> of_template c' x t0).
  { unfold of_template. intros x t0. destruct (o_master x) as [m|]; [|done]. intros (om & Hom & H1 & H2 & H3). destruct (decide (m = i)) as [->|Hn].
    - unfold live in Hi. assert (om = o) as -> by congruence. exists o'. split; [by apply Hlive; left|]. cbn [o_master o_tmpl o']. rewrite (Hm H1). done.
    - exists om. split; [apply Hlive; right; by split|done]. }
  split; [done|apply Hc|..].
  - intros k x Hx. assert (Hcnt : clones k (objects c') = clones k (objects c)).
    { cbn [objects c']. rewrite (clones_insert k _ i _ _ Hi). unfold clone_of. cbn [o_master]. lia. }
    rewrite Hcnt. apply Hlive in Hx as [[-> ->]|[Hn Hx]].
    + destruct (co_objects c Hc i o Hi) as [(f & e & t0 & H1 & H2 & H3 & H4) Hr]. split; [|exact Hr]. exists f, e, t0. cbn [o_tmpl o']. rewrite Hst. split; [done|]. split; [exact H2|]. split; [done|].
      apply Hof. unfold of_template in *. cbn [o_master o_tmpl o']. destruct (o_master o) as [m|] eqn:Em; [by rewrite Hst|by rewrite Hm].
    + destruct (co_objects c Hc k x Hx) as [(f & e & t0 & H1 & H2 & H3 & H4) Hr]. split; [|done]. exists f, e, t0. split; [done|]. split; [exact H2|]. split; [done|]. by apply Hof.
  - intros f e p v Hkey Hp Hv. rewrite Hfound in Hp by apply Hkey. pose proof (co_fets c Hc f e p v Hkey Hp Hv) as Hok. revert Hok. unfold fet_ok.
    destruct (fet_template v) as [j|], (fet_default v) as [d|]; [done|..|done].
    + intros (Hfl & x & Hx & Hthx). split; [done|]. destruct (decide (j = i)) as [->|Hn]; [|exists x; split; [apply Hlive; right; by split|done]].
      exists o'. split; [by apply Hlive; left|]. cbn [o_tmpl o']. rewrite Hst. unfold live in *. by assert (o = x) as -> by congruence.
    + intros (H1 & H2 & H3 & H4 & H5). repeat (split; [done|]). rewrite Hfound; [done|]. change (fets c !! p = Some v) in Hv.
      destruct (find_ok c f e (co_table c Hc) (proj1 Hkey)) as [_ Hw]. destruct (Hw p Hp) as (w & Hw' & [= E _]). assert (w = v) as -> by congruence. rewrite E. apply Hkey.
Qed.
Lemma depopulate_static t : tm_static (evl_depopulatetemplate t) = tm_static t.
Proof. destruct t as [sta st atts imps]. unfold evl_depopulatetemplate. cbn [depopulateTemplate]. by destruct (has (tm_flags st) TMPL_TF_POPULATED). Qed.
Lemma depopulate_master t : isPopulatedTmpl t = false -> evl_depopulatetemplate t = t.
Proof. destruct t as [sta st atts imps]. unfold isPopulatedTmpl, evl_depopulatetemplate. cbn [depopulateTemplate tm_state]. by intros ->. Qed.
Lemma master_unpopulated c i o : cache_ok c -> live c i o -> o_master o = None -> isPopulatedTmpl (o_tmpl o) = false.
Proof.
  intros Hc Hi Hm. destruct (co_objects c Hc i o Hi) as [(f & e & t & _ & _ & Hsp & Hof) _]. unfold of_template in Hof. rewrite Hm in Hof.
  pose proof (proj1 (specific_ok _ _ _ Hsp)) as Hcl. rewrite <-(clonable_stripped _ _ Hof) in Hcl. unfold clonable in Hcl.
  apply andb_true_iff in Hcl as [[_ Hp]%andb_true_iff _]. by destruct (isPopulatedTmpl _).
Qed.
Lemma release_ok c i o : cache_ok c -> live c i o -> exists status c', evl_releasetemplate _evlTmplMgmtFlags (Some i) c = Done (status, c') /\ cache_ok c'.
Proof.
  intros Hc Hi. unfold evl_releasetemplate. rewrite (cm_step _ _ _ _ _ (get_object_ok i o c Hi)). destruct (Z.eqb_spec (o_refs o) 0) as [Hr|Hr]; cbn [negb].
  2: { by exists EINVAL, c. }
  assert (Hdepop : exists c1 o1, (if has _evlTmplMgmtFlags TMPL_LAZYDEPOP then mret tt
      else put_object i (Some (mkObject (evl_depopulatetemplate (o_tmpl o)) (o_master o) (o_refs o)))) c = Done (tt, c1) /\ cache_ok c1 /\ live c1 i o1 /\ o_refs o1 = 0).
  { destruct (has _evlTmplMgmtFlags TMPL_LAZYDEPOP); [by exists c, o|].
    destruct (change_ok c i o (evl_depopulatetemplate (o_tmpl o)) (mem_store (c_mem c)) Hc Hi (depopulate_static _)) as [Hc1 Hl1].
    { intros Hm. apply depopulate_master. by apply (master_unpopulated c i). }
    eexists _, _. split; [|split; [exact Hc1|split; [exact Hl1|done]]]. unfold put_object, the_cache, set_cache, mbind, cm_bind. by destruct (c_mem c). }
  destruct Hdepop as (c1 & o1 & E1 & Hc1 & Hi1 & Hr1). rewrite (cm_step _ _ _ _ _ E1). destruct (_ && _); [by exists 0, c1|].
  destruct (free_ok c1 i o1 Hc1 Hi1 Hr1) as (c' & E & Hc'). by exists 0, c'.
Qed.

(** ** Programs that use the cache *)

Definition new_cache (s : store) : cache := mkCache evrecHashArray [] [] (mkMemory s structHashArray).
(** A program looks templates up, changes clones (it populates them, say) and gives back what it
    has. *)
Inductive used : cache -> Prop :=
  | used_new s : used (new_cache s)
  | used_read c fac evty clone r c' : used c -> keys_ok fac evty ->
      evl_readtemplate files uninitialized tmplPath import_depth _evlTmplMgmtFlags fac evty clone c = Done (r, c') -> used c'
  | used_change c i o t s : used c -> live c i o -> o_master o <> None -> tm_static t = tm_static (o_tmpl o) ->
      used (mkCache (evrecHash c) (fets c) (<[i := Some (mkObject t (o_master o) (o_refs o))]> (objects c)) (mkMemory s (structHash (c_mem c))))
  | used_free c i o status c' : used c -> live c i o -> evl_freetemplate (Some i) c = Done (status, c') -> used c'
  | used_release c i o status c' : used c -> live c i o -> evl_releasetemplate _evlTmplMgmtFlags (Some i) c = Done (status, c') -> used c'.
Lemma new_cache_ok s : cache_ok (new_cache s).
Proof.
  assert (Ht : table_wf (new_cache s)).
  { split; [done|]. intros h slot Hs. cbn [evrecHash new_cache] in Hs. apply lookup_replicate in Hs as [-> _]. split; constructor. }
  split; [done|..].
  - split; [done|]. apply Forall_replicate. constructor.
  - intros i o Ho. done.
  - intros f e p v Hk Hp Hv. done.
Qed.
Lemma readtemplate_ok c fac evty clone : cache_ok c -> keys_ok fac evty -> exists r c',
  evl_readtemplate files uninitialized tmplPath import_depth _evlTmplMgmtFlags fac evty clone c = Done (r, c') /\ cache_ok c' /\ looked_up c' fac evty clone r.
Proof.
  intros Hc Hk. destruct (locked_ok clone 2 fac evty c Hc Hk ltac:(left; lia)) as (r & c' & E & Hc' & Hl & _). by exists r, c'.
Qed.
Lemma used_ok c : used c -> cache_ok c.
Proof.
  induction 1 as [s|c fac evty clone r c' _ IH Hk E|c i o t s _ IH Hi Hm Hst|c i o status c' _ IH Hi E|c i o status c' _ IH Hi E].
  - apply new_cache_ok.
  - destruct (readtemplate_ok c fac evty clone IH Hk) as (r' & c2 & E' & Hc2 & _). congruence.
  - by apply change_ok.
  - destruct (decide (o_refs o = 0)) as [Hr|Hr].
    + destruct (free_ok c i o IH Hi Hr) as (c2 & E' & Hc2). congruence.
    + unfold evl_freetemplate in E. rewrite (cm_step _ _ _ _ _ (get_object_ok i o c Hi)) in E. rewrite (proj2 (Z.eqb_neq _ _) Hr) in E. cbn [negb] in E.
      injection E as _ <-. done.
  - destruct (release_ok c i o IH Hi) as (status' & c2 & E' & Hc2). congruence.
Qed.

(** C12: while the files do not change: however a program has used the cache, a lookup with
    [evl_readtemplate] returns, and gives an object of the template that the first file in the
    directories defines for the facility and the event type, or else of the facility's default, a clone
    or the master as asked for; and it reports an error exactly if neither is there. *)
Theorem lookup_gives_template c fac evty clone : used c -> keys_ok fac evty -> exists r c',
  evl_readtemplate files uninitialized tmplPath import_depth _evlTmplMgmtFlags fac evty clone c = Done (r, c') /\ used c' /\
  match r with
  | inr i => exists t o, template_for fac evty = Some t /\ objects c' !! i = Some (Some o) /\ (o_master o = None <-> clone = false) /\ of_template c' o t
  | inl status => (status = ENOENT \/ status = EIO) /\ template_for fac evty = None
  end.
Proof.
  intros Hu Hk. destruct (readtemplate_ok c fac evty clone (used_ok c Hu) Hk) as (r & c' & E & Hc' & Hl). exists r, c'. split; [done|].
  split; [exact (used_read c fac evty clone r c' Hu Hk E)|]. destruct r as [status|i]; [exact Hl|]. destruct Hl as (t & Ht & o & Ho & Hof & Hm). by exists t, o.
Qed.
End Manager.
