(* ===== verification/TmplRedirect.v ===== *)
(** * Following redirections

    [evl_gettemplate] follows the redirections of templates, from one facility and event type to
    another.  It ends, since it does not go on from where it was before; and where the
    redirections name constants, it ends at the template that they lead to. *)
From S2P Require Import Prelude NvPairs LogRecord FacNames MemStr QEvaluate LogSink RecPack Format CPrintf Dump FmtBuf FormatRec Conv Tmpl TmplPop TmplApi TmplInit TmplCheck TmplTyping TmplFmt TmplSerial TmplSerialCorrect TmplImport TmplImportCorrect TmplCache TmplCacheCorrect.

(** ** Keys *)

Definition key_range (k : Z * Z) : Prop := in_unsigned 32 k.1 /\ in_signed 32 k.2.
Definition key_code (k : Z * Z) : Z := k.1 * 2 ^ 32 + (k.2 + 2 ^ 31).
(** There are at most 2^64 of them. *)
Lemma keys_bounded (l : list (Z * Z)) : NoDup l -> Forall key_range l -> Z.of_nat (length l) <= 2 ^ 64.
Proof.
  intros Hnd Hr. assert (Hnd' : NoDup (key_code <$> l)).
  { clear -Hnd Hr. induction Hnd as [|k l Hk _ IH]; cbn; [constructor|]. inversion Hr as [|? ? Hk1 Hl1]; subst. constructor; [|by apply IH].
    rewrite list_elem_of_fmap. intros (k' & E & Hk'). apply Hk. rewrite Forall_forall in Hl1. destruct (Hl1 k' Hk') as [H1 H2], Hk1 as [H3 H4].
    destruct k as [a b], k' as [a' b']. unfold key_code, in_unsigned, in_signed in *. cbn in *. assert (a = a') as -> by lia. assert (b = b') as -> by lia. done. }
  assert (Hsub : key_code <$> l ⊆+ seqZ 0 (2 ^ 64)).
  { apply NoDup_submseteq; [done|]. intros x. rewrite list_elem_of_fmap. intros (k & -> & Hk). rewrite Forall_forall in Hr. destruct (Hr k Hk) as [H1 H2].
    apply elem_of_seqZ. destruct k as [a b]. unfold key_code, in_unsigned, in_signed in *. cbn in *. lia. }
  apply submseteq_length in Hsub. rewrite length_fmap, length_seqZ in Hsub. lia.
Qed.

Section Manager.
Context `{HostLib}.
Variable files : str -> option tmpl_file.
Variable uninitialized : bool.
Variable tmplPath : list str.
Variable import_depth : nat.
Variable _evlTmplMgmtFlags : Z.
Variable entry : posix_log_entry.
Variable buf : option (list Z).
Abbreviation step := (gettemplate_step files uninitialized tmplPath import_depth _evlTmplMgmtFlags entry buf).

(** A facility or an event type that comes out of a redirection is in range. *)
Lemma facility_range ra fac i c f c' : in_unsigned 32 fac -> redirect_facility entry buf ra fac i c = Done (inr f, c') -> in_unsigned 32 f.
Proof.
  intros Hf. destruct ra as [|code|name]; cbn [redirect_facility].
  - by intros [= <- _].
  - intros [= <- _]. by apply unsigned_range.
  - unfold mbind, cm_bind. destruct (getRedirectionAtt entry buf name i c) as [[[status|att] c1]|]; [done| |done].
    case_bool_decide.
    + destruct (att_string att) as [s|]; [|done]. cbn. unfold posix_log_strtofac. destruct (_ =? EVL_INVALID_FACILITY); [done|]. intros [= <- _]. by apply unsigned_range.
    + destruct (att_number att) as [z|]; [|done]. cbn. intros [= <- _]. by apply unsigned_range.
Qed.
Lemma event_type_range ra evty i c e c' : in_signed 32 evty -> redirect_event_type entry buf ra evty i c = Done (inr e, c') -> in_signed 32 e.
Proof.
  intros Hf. destruct ra as [|code|name]; cbn [redirect_event_type].
  - by intros [= <- _].
  - intros [= <- _]. by apply signed_range.
  - unfold mbind, cm_bind. destruct (getRedirectionAtt entry buf name i c) as [[[status|att] c1]|]; [done| |done].
    case_bool_decide.
    + destruct (att_string att) as [s|]; [|done]. cbn. intros [= <- _]. by apply signed_range.
    + destruct (att_number att) as [z|]; [|done]. cbn. intros [= <- _]. by apply signed_range.
Qed.
Lemma redirect_range i rd hist key c key' c' : key_range key -> redirect entry buf i rd hist key c = Done (inr key', c') -> key_range key' /\ key ∉ hist.
Proof.
  intros [Hf He]. unfold redirect. case_bool_decide as Hin; [done|]. unfold redirect2, mbind, cm_bind.
  destruct (match rd_fac rd with Some ra => redirect_facility entry buf ra key.1 i | None => mret (inr key.1) end c) as [[[status|fac] c1]|] eqn:E1; [done| |done].
  assert (Hfac : in_unsigned 32 fac) by (destruct (rd_fac rd); [by eapply facility_range|by injection E1 as <- _]).
  destruct (match rd_evtype rd with Some ra => redirect_event_type entry buf ra key.2 i | None => mret (inr key.2) end c1) as [[[status|evty] c2]|] eqn:E2; [done| |done].
  intros [= <- _]. split; [|done]. split; [done|]. cbn. destruct (rd_evtype rd); [by eapply event_type_range|by injection E2 as <- _].
Qed.
(** The loop goes on only from a new key. *)
Lemma step_history g g' : step g = inl g' -> key_range (g_key g) -> key_range (g_key g') /\ g_key g ∉ g_history g /\ g_history g' = g_history g ++ [g_key g].
Proof.
  unfold gettemplate_step. destruct (evl_readtemplate _ _ _ _ _ _ _ _ _) as [[[status|t] c]|]; [done| |done].
  match goal with |- match ?x with _ => _ end = _ -> _ => destruct x as [[[[status|key]|] c']|] eqn:E end; [done| |done..]. intros [= <-] Hk. cbn [g_key g_history].
  unfold mbind, cm_bind in E. destruct (match g_prev g with Some p => evl_releasetemplate _evlTmplMgmtFlags (Some p) | None => mret 0 end c) as [[u c1]|]; [|done]. destruct (get_object t c1) as [[o c2]|]; [|done].
  destruct (tm_redirection _) as [rd|]; [|done]. destruct (redirect entry buf t rd (g_history g) (g_key g) c2) as [[r c3]|] eqn:Er; [|done]. injection E as -> ->.
  destruct (redirect_range _ _ _ _ _ _ _ Hk Er) as [H1 H2]. done.
Qed.
Lemma rounds_end c : in_unsigned 32 (log_facility entry) -> in_signed 32 (log_event_type entry) ->
  exists r, loop step MAX_REDIRECTIONS (mkGetting (log_facility entry, log_event_type entry) [] None None c) = inr r.
Proof.
  intros Hf He. set (g0 := mkGetting _ _ _ _ _).
  destruct (loop_rule step (fun g => key_range (g_key g) /\ NoDup (g_history g) /\ Forall key_range (g_history g))
    (fun g => 2 ^ 64 + 1 - Z.of_nat (length (g_history g))) (fun _ => True) MAX_REDIRECTIONS g0) as (r & E & _).
  - intros g (Hk & Hnd & Hr). pose proof (keys_bounded _ Hnd Hr) as Hl. split; [lia|]. destruct (step g) as [g'|] eqn:Es; [|done].
    destruct (step_history g g' Es Hk) as (Hk' & Hnew & ->). rewrite length_app. cbn [length]. split; [|lia]. split; [done|]. split.
    + apply NoDup_app. split; [done|]. split; [|apply NoDup_singleton]. intros x Hx ->%list_elem_of_singleton. done.
    + apply Forall_app. split; [done|]. by constructor.
  - split; [by split|]. split; constructor.
  - cbn [g_history g0 length]. unfold MAX_REDIRECTIONS. lia.
  - by exists r.
Qed.
(** [evl_gettemplate] follows redirections only so many times as there are keys, for whatever the
    templates, the record and the cache are: its loop ends. *)
Theorem redirection_ends c : in_unsigned 32 (log_facility entry) -> in_signed 32 (log_event_type entry) ->
  exists r, loop step MAX_REDIRECTIONS (mkGetting (log_facility entry, log_event_type entry) [] None None c) = inr r /\
    evl_gettemplate files uninitialized tmplPath import_depth _evlTmplMgmtFlags entry buf c = r.
Proof.
  intros Hf He. destruct (rounds_end c Hf He) as (r & E). exists r. split; [done|]. unfold evl_gettemplate. by rewrite E.
Qed.

(** ** Where constant redirections lead *)

Variable lib : Z -> Z -> option template.
Variable rank : Z -> Z -> nat.
Hypothesis files_ok : good_files files uninitialized tmplPath lib rank import_depth.
Hypothesis looking : has _evlTmplMgmtFlags TMPL_IGNOREALL = false.
Hypothesis reusing : has _evlTmplMgmtFlags TMPL_REUSE1CLONE = true.
Abbreviation keys_ok := (fun k => key_ok k.1 k.2 /\ key_ok k.1 EVL_DEFAULT_EVENT_TYPE).
Abbreviation defined := (fun k => template_for files tmplPath lib k.1 k.2).
Definition constant (ra : option redirectedAttribute) (wrap : Z -> Z) (old : Z) : option Z :=
  match ra with None | Some TMPL_RD_NONE => Some old | Some (TMPL_RD_CONST code) => Some (wrap code) | Some (TMPL_RD_ATTNAME _) => None end.
Definition target (rd : tmpl_redirection) (key : Z * Z) : option (Z * Z) :=
  fac ← constant (rd_fac rd) u32 key.1; evty ← constant (rd_evtype rd) s32 key.2; Some (fac, evty).
(** From a key, having been at others, redirections lead to a template: one without a redirection,
    or the last one of a loop, or one whose redirection leads to nothing. *)
Inductive leads : Z * Z -> list (Z * Z) -> template -> Prop :=
  | leads_here key hist t : keys_ok key -> defined key = Some t -> tm_redirection (tm_static t) = None -> leads key hist t
  | leads_back key hist t rd : keys_ok key -> defined key = Some t -> tm_redirection (tm_static t) = Some rd -> key ∈ hist -> leads key hist t
  | leads_nowhere key hist t rd key' : keys_ok key -> defined key = Some t -> tm_redirection (tm_static t) = Some rd -> key ∉ hist -> target rd key = Some key' ->
      keys_ok key' -> defined key' = None -> leads key hist t
  | leads_on key hist t rd key' t' : keys_ok key -> defined key = Some t -> tm_redirection (tm_static t) = Some rd -> key ∉ hist -> target rd key = Some key' ->
      leads key' (hist ++ [key]) t' -> leads key hist t'.

Lemma gives_redirection c t i : gives c true t i -> exists o, live c i o /\ o_master o <> None /\ tm_redirection (tm_static (o_tmpl o)) = tm_redirection (tm_static t).
Proof.
  intros (o & Ho & Hof & Hm). assert (o_master o <> None) as Hn by (intros E; by apply Hm in E). exists o. split; [done|]. split; [done|].
  unfold of_template in Hof. destruct (o_master o) as [m|]; [|done]. destruct Hof as (om & _ & _ & Hst & Est). rewrite Hst. clear -Est.
  destruct (o_tmpl om) as [[] ? ? ?], t as [[] ? ? ?]. cbn in *. unfold strip_static in Est. cbn in Est. congruence.
Qed.
(** A clone that is given back stays in the cache for the next one. *)
Lemma release_keeps c p o : cache_ok files tmplPath lib c -> live c p o -> o_master o <> None -> exists c',
  (exists status, evl_releasetemplate _evlTmplMgmtFlags (Some p) c = Done (status, c')) /\ cache_ok files tmplPath lib c' /\ forall t i, gives c true t i -> gives c' true t i.
Proof.
  intros Hc Hp Hm. unfold evl_releasetemplate. rewrite (cm_step _ _ _ _ _ (get_object_ok p o c Hp)). destruct (negb (o_refs o =? 0)).
  { exists c. split; [by exists EINVAL|]. by split. }
  assert (Hstep : exists c1, (if has _evlTmplMgmtFlags TMPL_LAZYDEPOP then mret tt
      else put_object p (Some (mkObject (evl_depopulatetemplate (o_tmpl o)) (o_master o) (o_refs o)))) c = Done (tt, c1) /\ cache_ok files tmplPath lib c1 /\
      forall t i, gives c true t i -> gives c1 true t i).
  { destruct (has _evlTmplMgmtFlags TMPL_LAZYDEPOP); [by exists c|].
    destruct (change_ok files tmplPath lib c p o (evl_depopulatetemplate (o_tmpl o)) (mem_store (c_mem c)) Hc Hp (depopulate_static _) (fun E => match Hm E with end)) as [Hc1 Hl1].
    eexists. split; [|split; [exact Hc1|]]; [unfold put_object, the_cache, set_cache, mbind, cm_bind; by destruct (c_mem c)|].
    assert (His : is_Some (objects c !! p)) by (by exists (Some o)). set (o' := mkObject _ _ _) in *. set (c1 := mkCache _ _ _ _) in *.
    assert (Hlive : forall k x, k <> p -> live c k x -> live c1 k x) by (intros k x Hn Hx; unfold live in *; cbn [objects c1]; by rewrite list_lookup_insert_ne).
    intros t i (x & Hx & Hof & Hmx). exists (if decide (i = p) then o' else x). destruct (decide (i = p)) as [->|Hn].
    - split; [done|]. assert (x = o) as -> by (unfold live in *; congruence). split; [|done]. unfold of_template in *. cbn [o_master o_tmpl o'].
      destruct (o_master o) as [m|] eqn:Em; [|done]. destruct Hof as (om & Hom & H1 & H2 & H3). exists om. rewrite depopulate_static. split; [|done].
      apply Hlive; [|done]. intros ->. unfold live in *. assert (om = o) as -> by congruence. congruence.
    - split; [by apply Hlive|]. split; [|done]. unfold of_template in *. destruct (o_master x) as [m|]; [|done]. destruct Hof as (om & Hom & H1 & H2 & H3).
      exists om. split; [|done]. apply Hlive; [|done]. intros ->. unfold live in *. assert (om = o) as -> by congruence. congruence. }
  destruct Hstep as (c1 & E1 & Hc1 & Hg). rewrite (cm_step _ _ _ _ _ E1). unfold is_master. rewrite bool_decide_false, reusing by done. cbn [negb andb].
  exists c1. split; [by exists 0|]. done.
Qed.
Lemma redirect_constant c i rd hist key key' : key ∉ hist -> target rd key = Some key' -> redirect entry buf i rd hist key c = Done (inr key', c).
Proof.
  unfold target, redirect. intros Hin Ht. rewrite bool_decide_false by done. unfold redirect2. destruct (constant (rd_fac rd) u32 key.1) as [fac|] eqn:Ef; [|done]. cbn in Ht.
  destruct (constant (rd_evtype rd) s32 key.2) as [evty|] eqn:Ee; [|done]. cbn in Ht. injection Ht as <-.
  assert (E1 : (match rd_fac rd with Some ra => redirect_facility entry buf ra key.1 i | None => mret (inr key.1) end) c = Done (inr fac, c)).
  { revert Ef. unfold constant. destruct (rd_fac rd) as [[|code|name]|]; by intros [= <-]. }
  rewrite (cm_step _ _ _ _ _ E1).
  assert (E2 : (match rd_evtype rd with Some ra => redirect_event_type entry buf ra key.2 i | None => mret (inr key.2) end) c = Done (inr evty, c)).
  { revert Ee. unfold constant. destruct (rd_evtype rd) as [[|code|name]|]; by intros [= <-]. }
  by rewrite (cm_step _ _ _ _ _ E2).
Qed.

(** Whatever a lookup does, the objects in use stay what they are. *)
Definition keeping {A} (x : cm A) : Prop := forall c a c', x c = Done (a, c') -> keeps c c'.
Lemma keeping_bind {A B} (x : cm A) (k : A -> cm B) : keeping x -> (forall a, keeping (k a)) -> keeping (x ≫= k).
Proof.
  intros Hx Hk c b c'. unfold mbind, cm_bind. destruct (x c) as [[a c1]|] eqn:E; [|done]. intros E2. apply (keeps_trans c c1); [by apply (Hx c a)|by apply (Hk a c1 b)].
Qed.
Lemma keeping_same {A} (x : cm A) : (forall c a c', x c = Done (a, c') -> objects c' = objects c) -> keeping x.
Proof. intros Hx c a c' E. apply keeps_same. by apply (Hx c a). Qed.
Lemma keeping_ret {A} (a : A) : keeping (mret a).
Proof. apply keeping_same. by intros c b c' [= _ <-]. Qed.
Lemma keeping_cdo {A} (o : outcome A) : keeping (cdo o).
Proof. apply keeping_same. unfold cdo. intros c a c'. destruct o; [|done]. by intros [= _ <-]. Qed.
Lemma keeping_cache : keeping the_cache.
Proof. apply keeping_same. by intros c b c' [= _ <-]. Qed.
Lemma keeping_get_fet p : keeping (get_fet p).
Proof. apply keeping_bind; [apply keeping_cache|]. intros c. apply keeping_cdo. Qed.
Lemma keeping_get_object i : keeping (get_object i).
Proof. apply keeping_bind; [apply keeping_cache|]. intros c. apply keeping_cdo. Qed.
Lemma keeping_set_fet p v : keeping (set_fet p v).
Proof. apply keeping_same. by intros c a c' [= _ <-]. Qed.
Lemma keeping_make_fet f e t d fl : keeping (makeFET f e t d fl).
Proof. apply keeping_same. by intros c a c' [= _ <-]. Qed.
Lemma keeping_on_mem {A} (f : memory -> outcome (A * memory)) : keeping (on_mem f).
Proof. apply keeping_same. unfold on_mem. intros c a c'. destruct (f (c_mem c)) as [[b m]|]; [|done]. by intros [= _ <-]. Qed.
Lemma keeping_find f e : keeping (findFETInHash f e).
Proof. apply keeping_bind; [apply keeping_cache|]. intros c. apply keeping_bind; [apply keeping_cdo|]. intros l. apply keeping_cdo. Qed.
Lemma keeping_add p : keeping (addFETToHash p).
Proof.
  apply keeping_same. intros c a c'. unfold addFETToHash, get_fet, the_cache, set_cache, cdo, mbind, cm_bind. destruct (fets c !! p); [|done]. cbn [reading].
  destruct (hash_slot _ _); [|done]. destruct (insertFETIntoHashList _ _ _ _); [|done]. by intros [= _ <-].
Qed.
Lemma keeping_new o : keeping (new_object o).
Proof.
  intros c a c' [= _ <-] i x Hx. exists x. split; [|done]. unfold live. cbn [objects]. by apply lookup_app_l_Some.
Qed.
Lemma keeping_add_refs i n : keeping (add_refs i n).
Proof.
  intros c a c'. unfold add_refs, get_object, the_cache, put_object, set_cache, cdo, mbind, cm_bind. destruct (objects c !! i) as [[o|]|] eqn:E; [|done..].
  intros [= _ <-] k x Hx. destruct (decide (k = i)) as [->|Hn].
  - unfold live in Hx. assert (x = o) as -> by congruence. exists (mkObject (o_tmpl o) (o_master o) (o_refs o + n)). split; [|done]. unfold live. cbn [objects].
    apply list_lookup_insert_eq. by eapply lookup_lt_Some.
  - exists x. split; [|done]. unfold live. cbn [objects]. by rewrite list_lookup_insert_ne.
Qed.
Create HintDb keeping.
#[local] Hint Resolve keeping_ret keeping_cdo keeping_get_fet keeping_get_object keeping_set_fet keeping_make_fet keeping_on_mem keeping_find keeping_add keeping_new keeping_add_refs : keeping.
Ltac keeping_steps := repeat first [ solve [auto with keeping] | apply keeping_bind; [|intros ?] | case_match ].
Lemma keeping_clone i : keeping (clone_object i).
Proof. unfold clone_object, on_mem_store. keeping_steps. Qed.
#[local] Hint Resolve keeping_clone : keeping.
Lemma keeping_find_template f e clone : keeping (findEvlogTemplate _evlTmplMgmtFlags f e clone).
Proof. unfold findEvlogTemplate. keeping_steps. Qed.
Lemma keeping_add_template i : keeping (addTemplateToFETHash i).
Proof. unfold addTemplateToFETHash. keeping_steps. Qed.
#[local] Hint Resolve keeping_find_template keeping_add_template : keeping.
Lemma keeping_search dirs sub f e clone : forall status, keeping (search_dirs files uninitialized tmplPath import_depth dirs sub f e clone status).
Proof. induction dirs as [|dir dirs IH]; intros status; cbn [search_dirs]; keeping_steps; auto. Qed.
#[local] Hint Resolve keeping_search : keeping.
Lemma keeping_lookup fuel clone : forall f e, keeping (readTemplateLocked files uninitialized tmplPath import_depth _evlTmplMgmtFlags fuel f e clone).
Proof. induction fuel as [|fuel IH]; intros f e; cbn [readTemplateLocked]; keeping_steps; auto. Qed.
(** The loop between two rounds. *)
Record between (g : getting) : Prop := {
  bt_cache : cache_ok files tmplPath lib (g_cache g);
  bt_prev : g_prev g = g_last g;
  bt_last : match g_last g with Some p => exists t, gives (g_cache g) true t p | None => True end
}.
(** A round in which there is a template: the previous one is given back. *)
Lemma round_ok g t : between g -> keys_ok (g_key g) -> defined (g_key g) = Some t -> exists i c1 c2 o,
  evl_readtemplate files uninitialized tmplPath import_depth _evlTmplMgmtFlags (g_key g).1 (g_key g).2 true (g_cache g) = Done (inr i, c1) /\
  (exists status, (match g_prev g with Some p => evl_releasetemplate _evlTmplMgmtFlags (Some p) | None => mret 0 end) c1 = Done (status, c2)) /\
  cache_ok files tmplPath lib c2 /\ gives c2 true t i /\ live c2 i o /\ tm_redirection (tm_static (o_tmpl o)) = tm_redirection (tm_static t).
Proof.
  intros [Hc Hp Hl] Hk Hd. destruct (readtemplate_ok files uninitialized tmplPath lib rank import_depth _evlTmplMgmtFlags files_ok looking (g_cache g) _ _ true Hc Hk)
    as (r & c1 & E & Hc1 & Hlook). destruct r as [status|i]; [by destruct Hlook; congruence|].
  destruct Hlook as (t1 & Ht1 & Hg). assert (t1 = t) as -> by congruence. pose proof (keeping_lookup 2 true _ _ _ _ _ E) as Hkeep.
  assert (Hrel : exists c2, (exists status, (match g_prev g with Some p => evl_releasetemplate _evlTmplMgmtFlags (Some p) | None => mret 0 end) c1 = Done (status, c2)) /\
      cache_ok files tmplPath lib c2 /\ gives c2 true t i).
  { rewrite Hp. destruct (g_last g) as [p|]; [|exists c1; split; [by exists 0|by split]]. destruct Hl as (tp & Hgp). destruct (gives_redirection _ _ _ Hgp) as (o & Ho & Hm & _).
    destruct (Hkeep p o Ho) as (o1 & Ho1 & _ & Em). destruct (release_keeps c1 p o1 Hc1 Ho1) as (c2 & Hst & Hc2 & Hg2); [by rewrite Em|].
    exists c2. split; [done|]. split; [done|]. by apply Hg2. }
  destruct Hrel as (c2 & Hst & Hc2 & Hg2). destruct (gives_redirection _ _ _ Hg2) as (o & Ho & _ & Er). by exists i, c1, c2, o.
Qed.
Lemma step_round g t : between g -> keys_ok (g_key g) -> defined (g_key g) = Some t -> exists i c2, cache_ok files tmplPath lib c2 /\ gives c2 true t i /\
  match tm_redirection (tm_static t) with
  | None => step g = inr (Done (inr i, c2))
  | Some rd =>
      if bool_decide (g_key g ∈ g_history g) then step g = inr (Done (inr i, c2))
      else forall key', target rd (g_key g) = Some key' -> step g = inl (mkGetting key' (g_history g ++ [g_key g]) (Some i) (Some i) c2)
  end.
Proof.
  intros Hg Hk Hd. destruct (round_ok g t Hg Hk Hd) as (i & c1 & c2 & o & E1 & (status & E2) & Hc2 & Hgives & Ho & Er). exists i, c2. split; [done|]. split; [done|].
  assert (Hrun : step g = match (match tm_redirection (tm_static t) with
                                 | None => mret None
                                 | Some rd => r ← redirect entry buf i rd (g_history g) (g_key g); mret (Some r)
                                 end : cm _) c2 with
      | Fault e => inr (Fault e)
      | Done (None, c) => inr (Done (inr i, c))
      | Done (Some (inl status), c) => inr (Done (inr i, c))
      | Done (Some (inr key), c) => inl (mkGetting key (g_history g ++ [g_key g]) (Some i) (Some i) c)
      end).
  { unfold gettemplate_step. rewrite E1. rewrite (cm_step _ _ _ _ _ E2), (cm_step _ _ _ _ _ (get_object_ok i o c2 Ho)), Er. done. }
  rewrite Hrun. destruct (tm_redirection (tm_static t)) as [rd|]; [|done]. case_bool_decide as Hin.
  - assert (E : redirect entry buf i rd (g_history g) (g_key g) c2 = Done (inl ENOENT, c2)) by (unfold redirect; by rewrite bool_decide_true).
    by rewrite (cm_step _ _ _ _ _ E).
  - intros key' Ht. by rewrite (cm_step _ _ _ _ _ (redirect_constant c2 i rd (g_history g) _ _ Hin Ht)).
Qed.
Lemma step_nothing g : between g -> keys_ok (g_key g) -> defined (g_key g) = None -> g_last g <> None -> exists i c', g_last g = Some i /\
  step g = inr (Done (inr i, c')) /\ cache_ok files tmplPath lib c' /\ forall t, gives (g_cache g) true t i -> gives c' true t i.
Proof.
  intros [Hc Hp Hl] Hk Hd Hne. destruct (readtemplate_ok files uninitialized tmplPath lib rank import_depth _evlTmplMgmtFlags files_ok looking (g_cache g) _ _ true Hc Hk)
    as (r & c1 & E & Hc1 & Hlook). destruct r as [status|i]; [|by destruct Hlook as (t1 & Ht1 & _); congruence]. pose proof (keeping_lookup 2 true _ _ _ _ _ E) as Hkeep.
  destruct (g_last g) as [i|] eqn:El; [|done]. exists i, c1. split; [done|]. split; [unfold gettemplate_step; by rewrite E, El|]. split; [done|].
  intros t (o & Ho & Hof & Hm). destruct (Hkeep i o Ho) as (o' & Ho' & E1 & E2). exists o'. split; [done|]. rewrite E2. split; [|done].
  apply (keeps_of_template _ c1) in Hof; [|done]. unfold of_template in *. by rewrite E1, E2.
Qed.
Lemma follow key hist t : leads key hist t -> forall n g r, g_key g = key -> g_history g = hist -> between g -> loop_nat step n g = inr r ->
  exists i c', r = Done (inr i, c') /\ cache_ok files tmplPath lib c' /\ gives c' true t i.
Proof.
  induction 1 as [key hist t Hk Hd Hr|key hist t rd Hk Hd Hr Hin|key hist t rd key' Hk Hd Hr Hin Ht Hk' Hd'|key hist t rd key' t' Hk Hd Hr Hin Ht _ IH];
    intros [|n] g r Ek Eh Hg; cbn [loop_nat]; try done; subst key hist; destruct (step_round g t Hg Hk Hd) as (i & c2 & Hc2 & Hgives & Hstep); rewrite Hr in Hstep.
  - rewrite Hstep. intros [= <-]. by exists i, c2.
  - rewrite bool_decide_true in Hstep by done. rewrite Hstep. intros [= <-]. by exists i, c2.
  - rewrite bool_decide_false in Hstep by done. rewrite (Hstep key' Ht). set (g' := mkGetting _ _ _ _ _). destruct n as [|n]; cbn [loop_nat]; [done|].
    destruct (step_nothing g') as (j & c' & Ej & E' & Hc' & Hkeep); [split; [done..|by exists t]|done..|]. injection Ej as <-.
    rewrite E'. intros [= <-]. exists i, c'. split; [done|]. split; [done|]. by apply Hkeep.
  - rewrite bool_decide_false in Hstep by done. rewrite (Hstep key' Ht). apply IH; [done|done|]. split; [done..|by exists t].
Qed.

(** C13: a program that reuses clones, as all programs here do, and whose templates redirect to constants:
    [evl_gettemplate] returns a clone of the template to which the redirections lead from the
    record's facility and event type, as far as there are templates and no loop. *)
Theorem redirections_are_followed c t : used files uninitialized tmplPath import_depth _evlTmplMgmtFlags c ->
  leads (log_facility entry, log_event_type entry) [] t -> exists i c',
  evl_gettemplate files uninitialized tmplPath import_depth _evlTmplMgmtFlags entry buf c = Done (inr i, c') /\ gives c' true t i.
Proof.
  intros Hu Hl. assert (Hk : keys_ok (log_facility entry, log_event_type entry)) by (by inversion Hl).
  set (g0 := mkGetting (log_facility entry, log_event_type entry) [] None None c).
  assert (Hends : exists r, loop step MAX_REDIRECTIONS g0 = inr r).
  { destruct (rounds_end c) as (r & E); [apply Hk..|]. by exists r. }
  destruct Hends as [r E]. unfold evl_gettemplate. fold g0. rewrite E. rewrite loop_loop_nat in E.
  assert (Hb : between g0); [|destruct (follow _ _ _ Hl _ g0 r eq_refl eq_refl Hb E) as (i & c' & -> & _ & Hg); by exists i, c'].
  split; [|done..]. exact (used_ok files uninitialized tmplPath lib rank import_depth _evlTmplMgmtFlags files_ok looking c Hu).
Qed.
End Manager.
