(* ===== verification/TmplCacheSamples.v ===== *)
(** * The cache at work: a few template files, and lookups that go wrong

    A facility with four templates and a default, some of them redirected; what happens with
    other settings than those of the programs here. *)
From S2P Require Import Prelude NvPairs LogRecord FacNames MemStr QEvaluate LogSink RecPack Format CPrintf Dump FmtBuf FormatRec FormatRecCorrect Conv Tmpl TmplPop TmplApi TmplInit TmplCheck TmplSafe TmplLayout TmplSamples TmplFmt TmplText TmplFmtFuel TmplFmtSamples TmplSerial TmplSerialCorrect TmplImport TmplImportCorrect TmplFileSamples TmplCache TmplCacheCorrect TmplRedirect.

#[local] Instance one_facility : HostLib := {|
  getpwuid _ := None; getgrgid _ := None; getpwnam _ := None; getgrnam _ := None; strftime_c _ := EmptyString; time_now := 0;
  facility_name f := if f =? 8 then Some "user"%string else None;
  facility_code s := if streqb s "user" then 8 else -1;
  facility_access_of f := if f =? 8 then 0 else -1;
  hosts := @hosts bare_machine; MemStr.uninitialized := EmptyString |}.
(** A template for an event of the facility 8, with an attribute and perhaps a redirection. *)
Definition event (evty : Z) (rd : option tmpl_redirection) : template :=
  mkTemplate (mkStatic (TMPL_TH_EVLOG 8 evty) None "event" [EVL_FS_ATTR 0 None] 0 0 rd)
    (mkState (if bool_decide (rd = None) then 0 else TMPL_TF_REDIRECT) 0 0 None None (-1) false) [fatt "next" TY_INT None None TMPL_AFS_DEFAULT None 0] [].
Definition storable_rd (rd : option tmpl_redirection) : Prop :=
  match rd with Some rd => storable_redirection true (rd_fac rd) /\ storable_redirection false (rd_evtype rd) | None => True end.
Definition to_type (ra : redirectedAttribute) : option tmpl_redirection := Some (mkRedir None (Some ra)).
Definition entries : list (str * template) :=
  [("/t/user/0x1.to", event 1 None); ("/t/user/default.to", event (-1) None); ("/t/user/0x2.to", event 2 (to_type (TMPL_RD_CONST 3)));
   ("/t/user/0x3.to", event 3 (to_type (TMPL_RD_CONST 7))); ("/t/user/0x4.to", event 4 (to_type (TMPL_RD_CONST 4)));
   ("/t/user/0x5.to", event 5 (to_type (TMPL_RD_ATTNAME "next")))]%string.
Definition event_files (path : str) : option tmpl_file :=
  match list_find (fun e => e.1 = path) entries with Some (i, e) => Some (mkFile (stored e.2) 1 (Z.of_nat i)) | None => None end.
Definition event_lib (dev ino : Z) : option template := snd <$> entries !! Z.to_nat ino.
Lemma event_is_storable m inv imp evty rd : in_signed 32 evty -> storable_rd rd -> storable m inv by_name imp (event evty rd).
Proof.
  intros He Hrd. constructor.
  - split; [by vm_compute|]. cbn [event tm_static th_type tm_name]. split; [unfold in_unsigned; lia|]. by split.
  - by destruct rd.
  - by destruct rd.
  - done.
  - done.
  - done.
  - split; [|done]. cbn. split; [split; by vm_compute|done].
  - destruct rd as [rd|]; [|done]. exists rd. by destruct Hrd.
  - split; [|done]. repeat constructor; by vm_compute.
Qed.

Lemma event_entry path f t : event_files path = Some f -> held event_lib f = Some t -> (path, t) ∈ entries /\ f_bytes f = stored t.
Proof.
  unfold event_files. destruct (list_find _ entries) as [[i e]|] eqn:E; [|done]. apply list_find_Some in E as (Hi & He & _). intros [= <-].
  unfold held, event_lib. cbn [st_ino st_dev]. rewrite Nat2Z.id, Hi. intros [= <-]. cbn. split; [|done]. subst path. destruct e. by eapply list_elem_of_lookup_2.
Qed.
Lemma entry_is_event path t : (path, t) ∈ entries -> exists evty rd, t = event evty rd /\ in_signed 32 evty /\ storable_rd rd.
Proof.
  assert (Hall : Forall (fun e => exists evty rd, e.2 = event evty rd /\ in_signed 32 evty /\ storable_rd rd) entries).
  { repeat constructor; eexists _, _; (split; [reflexivity|]); (split; [unfold in_signed; lia|]); by vm_compute. }
  rewrite Forall_forall in Hall. exact (Hall (path, t)).
Qed.
Lemma entry_is_written path t : (path, t) ∈ entries -> _evlWriteTemplate by_name t fresh_memory true (fun n => n) = Done (0, stored t).
Proof.
  assert (Hall : Forall (fun e => _evlWriteTemplate by_name e.2 fresh_memory true (fun n => n) = Done (0, stored e.2)) entries) by (repeat constructor).
  rewrite Forall_forall in Hall. exact (Hall (path, t)).
Qed.
Definition rank_none (_ _ : Z) : nat := 0.
Lemma event_files_good : good_files event_files false ["/t"%string] event_lib rank_none 1.
Proof.
  constructor.
  - intros path f t Hf Ht. destruct (event_entry path f t Hf Ht) as [Hin Hb]. destruct (entry_is_event path t Hin) as (evty & rd & -> & He & Hrd). split; [|constructor].
    exists fresh_memory, by_name. split; [split; [done|]; apply Forall_replicate; constructor|]. split; [by apply event_is_storable|]. rewrite Hb. by apply (entry_is_written path).
  - intros f. unfold rank_of, rank_none. lia.
  - intros path f m Hf. unfold event_files in Hf. destruct (list_find _ entries) as [[i e]|] eqn:E; [|done]. apply list_find_Some in E as (Hi & _). injection Hf as <-.
    unfold held, event_lib. cbn [st_ino]. by rewrite Nat2Z.id, Hi.
  - intros fac evty. unfold template_subpath, posix_log_factostr. cbn. destruct (fac =? 8); eexists; reflexivity.
  - intros fac evty sub dir f t _ Hf Ht. destruct (event_entry _ f t Hf Ht) as [Hin _]. destruct (entry_is_event _ t Hin) as (evty' & rd & -> & _). split; [by destruct rd|].
    by exists 8, evty'.
Qed.
(** The templates of the facility are found in an empty cache: the specific one, the default, and none
    for another facility. *)
Lemma lookup_gives_template_witness :
  template_for event_files ["/t"%string] event_lib 8 1 = Some (event 1 None) /\ template_for event_files ["/t"%string] event_lib 8 6 = Some (event (-1) None) /\
  template_for event_files ["/t"%string] event_lib 16 1 = None /\
  exists r c', evl_readtemplate event_files false ["/t"%string] 1 TMPL_REUSE1CLONE 8 6 true (new_cache fresh_store) = Done (r, c') /\
    used event_files false ["/t"%string] 1 TMPL_REUSE1CLONE c' /\
    match r with
    | inr i => exists t o, template_for event_files ["/t"%string] event_lib 8 6 = Some t /\ objects c' !! i = Some (Some o) /\ (o_master o = None <-> true = false) /\ of_template c' o t
    | inl status => (status = ENOENT \/ status = EIO) /\ template_for event_files ["/t"%string] event_lib 8 6 = None
    end.
Proof.
  split; [by vm_compute|]. split; [by vm_compute|]. split; [by vm_compute|].
  apply (lookup_gives_template event_files false ["/t"%string] event_lib rank_none 1 TMPL_REUSE1CLONE event_files_good eq_refl).
  - constructor.
  - unfold key_ok. by vm_compute.
Defined.
(** A record of the facility 8. *)
Definition of_type (evty : Z) : posix_log_entry := mkEntry LOGREC_ARCH_X86_64 1 4 POSIX_LOG_BINARY evty 8 0 0 0 0 0 0 0 0 0 0.
Definition one_int (z : Z) : list Z := [u8 z; u8 (Z.shiftr z 8); u8 (Z.shiftr z 16); u8 (Z.shiftr z 24)].
Definition get_for (flags evty z : Z) : cm (Z + nat) := evl_gettemplate event_files false ["/t"%string] 1 flags (of_type evty) (Some (one_int z)).
(** From the type 2 to 3 to 7, which has the facility's default. *)
Lemma redirections_are_followed_witness : exists i c',
  get_for TMPL_REUSE1CLONE 2 0 (new_cache fresh_store) = Done (inr i, c') /\ gives c' true (event (-1) None) i.
Proof.
  apply (redirections_are_followed event_files false ["/t"%string] 1 TMPL_REUSE1CLONE (of_type 2) (Some (one_int 0)) event_lib rank_none event_files_good eq_refl eq_refl).
  - constructor.
  - assert (Hk : forall evty, evty ∈ [2; 3; 7] -> key_ok 8 evty /\ key_ok 8 EVL_DEFAULT_EVENT_TYPE).
    { apply Forall_forall. unfold key_ok. repeat constructor; by vm_compute. }
    apply (leads_on _ _ _ _ _ (event 2 (to_type (TMPL_RD_CONST 3))) (mkRedir None (Some (TMPL_RD_CONST 3))) (8, 3)); [apply (Hk 2); set_solver|by vm_compute|done|set_solver|done|].
    apply (leads_on _ _ _ _ _ (event 3 (to_type (TMPL_RD_CONST 7))) (mkRedir None (Some (TMPL_RD_CONST 7))) (8, 7)); [apply (Hk 3); set_solver|by vm_compute|done|set_solver|done|].
    apply leads_here; [apply (Hk 7); set_solver|by vm_compute|done].
Defined.
Definition redirected_to (flags : Z) (runs : list (Z * Z)) : outcome (list (Z + Z * Z)) :=
  (fix go runs c :=
     match runs with
     | [] => Done []
     | (evty, z) :: runs =>
         '(r, c) ← get_for flags evty z c;
         x ← (match r with
              | inl status => Done (inl status)
              | inr i => '(o, _) ← get_object i c; k ← header_key (o_tmpl o); Done (inr k)
              end);
         l ← go runs c; Done (x :: l)
     end) runs (new_cache fresh_store).
(** The attribute of a record says where its template redirects to; but with lazy depopulation the
    clone keeps the attributes of the previous record, and the second record is not looked at. *)
Lemma redirection_follows_previous_record :
  redirected_to TMPL_REUSE1CLONE [(5, 1); (5, 6)] = Done [inr (8, 1); inr (8, -1)] /\
  redirected_to (set_flag TMPL_REUSE1CLONE TMPL_LAZYDEPOP) [(5, 1); (5, 6)] = Done [inr (8, 1); inr (8, 1)].
Proof. vm_compute. done. Qed.
(** Without [TMPL_REUSE1CLONE] the clone that a loop of redirections ends with has been freed. *)
Lemma redirection_to_itself : redirected_to TMPL_REUSE1CLONE [(4, 0)] = Done [inr (8, 4)] /\ redirected_to 0 [(4, 0)] = Fault WildRead.
Proof. vm_compute. done. Qed.
(** Without it a program still gets the same clone twice, if that was the first. *)
Definition lookup (flags evty : Z) : cm (Z + nat) := evl_readtemplate event_files false ["/t"%string] 1 flags 8 evty true.
Lemma first_clone_is_shared : exists c, (a ← lookup 0 1; b ← lookup 0 1; mret (a, b)) (new_cache fresh_store) = Done ((inr 1%nat, inr 1%nat), c).
Proof. eexists. vm_compute. done. Qed.
(** The smallest [int] has no absolute value. *)
Lemma hash_outside_table : computeHashByFET 8 (2 ^ 31 - 8) HASHSZ = 2 ^ 64 - 34 /\
  evl_readtemplate event_files false ["/t"%string] 1 TMPL_REUSE1CLONE 8 (2 ^ 31 - 8) true (new_cache fresh_store) = Fault WildRead.
Proof.
  assert (E : computeHashByFET 8 (2 ^ 31 - 8) HASHSZ = 2 ^ 64 - 34) by (by vm_compute). split; [exact E|].
  unfold evl_readtemplate. cbn [readTemplateLocked]. change (has TMPL_REUSE1CLONE TMPL_IGNOREALL) with false. cbv iota.
  unfold findEvlogTemplate, findFETInHash, the_cache, cdo, mbind, cm_bind, hash_slot. rewrite E. cbn [new_cache evrecHash].
  rewrite (proj2 (lookup_ge_None evrecHashArray (Z.to_nat (2 ^ 64 - 34)))); [done|].
  unfold evrecHashArray. rewrite length_replicate. apply Z2Nat.inj_le; unfold HASHSZ; lia.
Qed.
